(* ===== verification/_CoqProject ===== *)
-Q . S2P
Prelude.v
MathUtils.v
PyDict.v
FreeQueue.v
Request.v
BlockHash.v
KVMetrics.v
BlockPool.v
SingleTypeManager.v
ManagerInv.v
Coordinator.v
HybridHit.v
CacheStats.v
KVCacheManager.v
KVDeferred.v
KVReachable.v
EncoderCache.v
Heapq.v
RequestQueue.v
SchedUtils.v
SchedState.v
Scheduler.v
Schedule.v
UpdateOutput.v
KVContract.v
SchedInv.v
ScheduleInv.v
WaitingInv.v
ScheduleOk.v
UpdateInv.v
Lifecycle.v
SchedDemo.v
SchedClaims.v
SchedFindings.v
KVSpec.v
KVGroups.v
KVSizing.v
KVLayout.v
KVAlloc.v
KVGrouping.v
KVStartup.v
KVWorkers.v
KVBoot.v
KVDemo.v
KVFindings.v
Offload.v
OffloadPolicy.v
OffloadArc.v
OffloadInv.v
OffloadSession.v
OffloadClaims.v
OffloadDemo.v
OffloadConnector.v
ConnectorSpec.v
ConnectorLookup.v
ConnectorLoad.v
ConnectorInv.v
ConnectorSteps.v
ConnectorStore.v
ConnectorReport.v
ConnectorSession.v
ConnectorLog.v
ConnectorClaims.v
ConnectorDemo.v
Ngram.v
NgramExact.v
BlockTable.v
LogitsProcs.v
LogitsSpec.v
InputBatch.v
ModelRunner.v
BatchInv.v
BatchOps.v
BatchMoves.v
BatchStep.v
RunnerSync.v
RunnerStep.v
RunnerInv.v
RunnerClaims.v
RunnerDemo.v
