(* ===== verification/Prelude.v ===== *)
(** * A verification library for the scheduling core of vLLM (v1 engine)

    ** The program

    vLLM serves language models.  Its v1 engine runs a scheduler in one process:
    in each step the scheduler decides which requests run and with how many
    tokens, and a GPU worker executes the step.  The state that decides
    correctness is bookkeeping: which blocks of the KV cache each request holds,
    which blocks can be reused for a shared prompt prefix, which encoder outputs
    are cached, in which order requests wait, and, on the worker, which row of the
    batch belongs to which request.  This library models that bookkeeping,
    [src/vllm/v1/core/], [src/vllm/v1/kv_cache_interface.py], the batch of the
    workers, [src/vllm/v1/worker/gpu_input_batch.py],
    [src/vllm/v1/worker/block_table.py], [src/vllm/v1/sample/logits_processor/] and
    the state updates of [src/vllm/v1/worker/gpu_model_runner.py], the
    offloading of KV blocks to CPU memory, [src/vllm/v1/kv_offload/cpu/] and
    [src/vllm/distributed/kv_transfer/kv_connector/v1/offloading/], the n-gram
    proposer [src/vllm/v1/spec_decode/ngram_proposer.py], and the parts of
    [src/vllm/v1/request.py], [src/vllm/multimodal/inputs.py],
    [src/vllm/v1/metrics/stats.py], [src/vllm/sampling_params.py] and
    [src/vllm/utils/math_utils.py] it depends on.

    Before the first step, start-up puts the layers of the model into groups,
    divides the memory of the workers into blocks and checks that a request of
    maximal length fits; the workers then allocate their buffers, and the
    scheduler's KV cache is built from the resulting configuration.

    A worker keeps the running requests in the rows of a persistent batch and, with
    each step, receives only what has changed: it removes and adds requests, moves
    rows to close gaps or to sort them, tells the logits processors what moved, and
    derives from the rows the slots of the KV cache that a step writes.

    Blocks of the KV cache can be copied to CPU memory and back.  A manager in the
    scheduler process assigns the buffers, counts the transfers that read a block
    and evicts blocks that no transfer uses.  A connector asks it which blocks of a
    request can be loaded, starts transfers along with the scheduler's steps and
    tells the workers which transfers must end before a step begins.

    Speculative decoding needs draft tokens; the n-gram proposer takes them from
    an earlier occurrence of the last tokens of a request.

    ** Parts and files

    - [Prelude]: exceptions as values ([result]), Python slices and ranges,
      indexing, shared lemmas, tactics and hint databases.
    - [MathUtils]: [utils/math_utils.py].
    - [PyDict]: dictionaries in insertion order, [defaultdict(list)] and slices
      with a step.
    - [FreeQueue]: [FreeKVCacheBlockQueue] of [kv_cache_utils.py], a doubly
      linked list over object references, behind the class [FreeQueueSpec].
    - [Request]: [request.py] and the placeholder ranges of multi-modal inputs.
    - [BlockHash]: block hashes, their extra keys and the request block hasher
      of [kv_cache_utils.py].
    - [KVMetrics], [CacheStats]: residency metrics and prefix cache statistics.
    - [BlockPool]: [block_pool.py], reference counts, the prefix cache map,
      eviction; uses [FreeQueueSpec] and [BlockHash].
    - [SingleTypeManager], [ManagerInv]: [single_type_kv_cache_manager.py], one
      manager per KV cache group, and block ownership preserved by each
      operation.
    - [Coordinator], [HybridHit]: [kv_cache_coordinator.py], all managers over
      one pool, and the search for a prefix cached for every group.
    - [KVCacheManager], [KVReachable]: [kv_cache_manager.py], what the scheduler
      calls, and the states reachable by any sequence of these calls;
      [KVDeferred]: these calls together with the queue of deferred frees of the
      scheduler.
    - [EncoderCache]: [encoder_cache_manager.py].
    - [Heapq], [RequestQueue]: [request_queue.py] on a model of Python's
      [heapq], behind the class [RequestQueueSpec].
    - [SchedUtils]: [sched/utils.py].
    - [SchedState]: the attributes and the configuration of
      [sched/scheduler.py], the data of [sched/output.py], and the components
      the scheduler calls through an interface: the classes [KVConnector],
      [ECConnector] and [StructuredOutput].
    - [Scheduler]: the methods of [Scheduler] around a step: queues, preemption,
      freeing, streaming sessions, encoder inputs, resets, draft tokens.
    - [Schedule]: the method [schedule], one definition per stretch of the
      loops over running and waiting requests, and [_update_after_schedule] of
      [Scheduler] and of [AsyncScheduler].
    - [UpdateOutput]: the method [update_from_output], failed and finished KV
      loads, and [_update_request_with_output] of both schedulers.
    - [KVContract]: what the scheduler may assume of the KV cache, derived from
      [KVReachable]; the proofs about the scheduler use only this.
    - [SchedInv], [ScheduleInv], [WaitingInv], [ScheduleOk], [UpdateInv]: the
      invariant of the scheduler, preserved by the loop over running requests,
      the loop over waiting requests, a whole step, and the processing of its
      output.
    - [Lifecycle]: the step relation of the engine and its reachable states;
      [SchedDemo]: a concrete engine; [SchedClaims]: further properties of
      parts of the scheduler; [SchedFindings]: runs that deviate from what
      comments and assertions say.
    - [KVSpec]: [kv_cache_interface.py], the specs of layers: page sizes, memory
      of one request, merging.  The element sizes of PyTorch are the class
      [DTypes].
    - [KVGroups]: the second half of [kv_cache_utils.py]: groups of layers,
      configurations of the workers, start-up checks, block sizes.
    - [KVAlloc]: the buffers a worker allocates ([gpu_model_runner.py]) and the
      places of pages in them.
    - [KVSizing], [KVLayout], [KVGrouping], [KVStartup], [KVWorkers], [KVBoot]:
      properties of the search for a context length, of the layouts, of the
      groups, of the start-up check, of all workers, and of the configuration
      handed to the coordinator; [KVDemo]: a concrete model on two workers;
      [KVFindings]: start-up, workers and scheduler run together.
    - [Offload]: [kv_offload/cpu/manager.py] and [kv_offload/cpu/policies/]: the
      manager of offloaded blocks over the class [CachePolicy], with LRU and ARC.
    - [OffloadPolicy], [OffloadArc]: the class [CachePolicySpec], what the manager
      assumes of a policy, and its two instances; [OffloadInv]: the invariant of
      the manager; [OffloadSession]: all sequences of transfers;
      [OffloadClaims]: the properties; [OffloadDemo]: a concrete session.
    - [OffloadConnector]: [kv_connector/v1/offloading/scheduler.py], the
      scheduler's side of offloading, over the class [OffloadingManager].
    - [ConnectorSpec]: the class [OffloadingManagerSpec], what the connector
      assumes of a manager, met by the CPU manager; [ConnectorLookup],
      [ConnectorLoad]: the search for offloaded blocks and the start of a load;
      [ConnectorInv], [ConnectorSteps], [ConnectorStore],
      [ConnectorReport]: jobs, watched blocks and the invariant preserved by each
      call; [ConnectorSession]: start-up and all sequences of calls;
      [ConnectorLog]: the store jobs announced to the workers, with the blocks they
      read, and what the connector recorded of them; [ConnectorClaims]: the
      properties; [ConnectorDemo]: a concrete session.
    - [Ngram]: [spec_decode/ngram_proposer.py]; [NgramExact]: its search is exact.
    - [BlockTable]: [worker/block_table.py], the blocks of each row and the slot
      mapping kernel, whose slots differ for different tokens.
    - [LogitsProcs]: the batch updates and the built-in processors of
      [sample/logits_processor/], over the class [LogitsProcessor], and the
      synchronisation of thinking budgets; [LogitsSpec]: the class
      [LogitsProcessorSpec], what a batch may assume of a processor, and its
      instances for min-p, logit bias, minimum tokens and pairs of processors.
    - [InputBatch]: [worker/gpu_input_batch.py], the rows of the batch, and the
      reordering of [attention/backends/utils.py]; [BatchInv], [BatchOps],
      [BatchMoves], [BatchStep]: what a row shows of its request,
      the invariant of the batch, and the effect of each operation, of condensing,
      of sorting and of refreshing the metadata.
    - [ModelRunner]: the state updates of [worker/gpu_model_runner.py];
      [RunnerSync]: what a step means for the requests alone, and rows that follow;
      [RunnerStep], [RunnerInv]: the phases of a step, the updates they report to
      the processors, and the invariant of a worker;
      [RunnerClaims]: the properties; [RunnerDemo]: a concrete worker and runs that
      deviate.

    A Python object is a record; a mutable object that is shared (a KV cache
    block, a waiting request) is an identifier looked up in a map of the owner's
    state.  A method is a function from the state to [result] of the new state
    and the returned value; a method that cannot raise has no [result].

    ** What the theorems show

    - Ownership: in every reachable KV cache manager the reference count of a
      block is the number of its occurrences in all block tables and in the
      queue of deferred frees, and exactly the unreferenced blocks are free, so no
      block is lost or handed out twice ([KVReachable], [KVDeferred],
      [ManagerInv], [BlockPool], [FreeQueue]).  Scope: groups with base-class
      managers (no Mamba or sink groups, cross attention without caching).
    - Operations return: slot allocation, freeing and the lookup never raise on
      reachable states, and do what they promise on every branch
      ([KVReachable]).
    - Prefix caching: the searches of each attention type return the longest
      usable prefix, or a sound one ([SingleTypeManager]); the joint search
      ends with rows of one common length ([HybridHit]; no EAGLE on Mamba groups,
      no second full-attention group, no context parallelism); equal block hashes
      of requests built and extended with the hasher mean equal prefixes, up to
      collisions of the hash function and outside the multi-modal case of
      [BlockHash.mm_tail_block_hash_ignores_input] ([BlockHash]).
    - Encoder cache: capacity accounting and eviction ([EncoderCache]).
    - Queues: both policies implement the sequence of requests in policy order
      ([RequestQueue]).
    - Stop conditions and repetition detection agree with their definitions
      ([SchedUtils]).
    - The scheduler: from every reachable state every call returns, each request
      is in exactly one place and has the blocks its state demands, and a step
      stays within its limits ([Lifecycle]).  Scope of these theorems: text-only
      requests with sampling parameters whose [min_tokens] fits the model
      length, no speculative decoding, no limit on LoRAs, no connectors, no
      deferred frees; both queue policies, all attention types with a search
      result the KV cache contract covers, and, for a single step, the
      asynchronous scheduler too.  The model definitions have no such limits.
    - Generation ends, prefills of Mamba models stop at block boundaries, and the
      search for multi-modal inputs is exact ([SchedClaims]).
    - Start-up: every layer of a worker is in one group and has one buffer, the
      buffers fit the memory, pages of different blocks never overlap and pages
      of one block overlap only between groups ([KVWorkers]); an accepted
      configuration has blocks for one request of maximal length ([KVStartup])
      and meets the requirements of the coordinator ([KVBoot]); the automatic
      context length is the greatest that fits ([KVSizing]).  Scope: positive
      page sizes, no override of the number of blocks where memory is bounded, no
      Mamba layers in the packed layout, plain groups without the packed layout for
      the start-up check, and, for the coordinator, full and sliding attention of
      the kinds [KVBoot.supported_layer] lists without context parallelism.
    - Offloading: no buffer is lost or used twice, reference counts are the
      running loads, no call of the protocol raises, a store never touches a
      block that a transfer uses, and a load reads what was stored, for any
      policy that meets [CachePolicySpec] ([OffloadClaims]).  Scope: the keys of
      one store are distinct, and fewer than 2^31 loads run at a time.
    - The offloading connector: a step waits for the announced stores that read
      reallocated blocks, announced tokens are offloaded, and nothing is left when
      no job runs ([ConnectorClaims]), for any manager that meets
      [OffloadingManagerSpec].  What it relies on in the scheduler is stated in
      [ConnectorSession.conn_call]: block hashes of a request do not repeat,
      scheduled tokens have blocks, no block is at two places of a request, and a
      reset finds no transfer of an unfinished request; lookups are without EAGLE
      groups.
    - The n-gram proposer: the search with its capped failure table finds the
      longest admissible n-gram at its first occurrence ([NgramExact]).
    - The workers: after every step each row holds what adding its request to an
      empty row would give, rows are dense and sorted, sampled tokens are recorded,
      processors and sampling metadata apply to each row the parameters of the
      request in it, and different tokens are written to different slots
      ([RunnerClaims]).  Scope: generation models, the last pipeline stage,
      synchronous scheduling, prompts as token ids, and steps within
      [RunnerSync.step_legal]; the mask of allowed tokens and thinking budgets are
      outside, since they deviate.

    Theorems that show a deviation from what a comment says:
    [BlockHash.mm_tail_block_hash_ignores_input],
    [HybridHit.mamba_eagle_hit_exceeds_full_row],
    [HybridHit.second_full_group_not_truncated],
    [SchedFindings.session_keeps_stale_hash],
    [SchedFindings.lora_limit_assertion_fails],
    [SchedFindings.min_tokens_beyond_model_length_starves],
    [SchedFindings.small_split_is_dropped],
    [KVFindings.startup_forgets_null_block],
    [KVFindings.packed_mamba_pages_overlap], [KVFindings.uniform_test_raises],
    [KVFindings.eagle_flag_lost], [OffloadDemo.arc_refuses_although_idle],
    [OffloadDemo.input_block_evicted], [OffloadDemo.stored_block_not_protected],
    [ConnectorDemo.eagle_chunks_lose_a_block],
    [ConnectorDemo.reset_strands_a_request],
    [ConnectorDemo.sizes_differ_load_fails],
    [NgramExact.warmup_searches_nothing], [RunnerDemo.swapped_mask_rows_equal],
    [RunnerDemo.stale_mask_row], [RunnerDemo.swapped_budget_kept],
    [RunnerDemo.moved_budget_kept].

    ** Integers, fuel and bounds

    Python integers are unbounded and are [Z].  The packing of a group id into
    four bytes is at its width ([BlockHash]).  A [while] loop has a bound on its
    iterations, and running out is the value [Raise OutOfFuel], which theorems
    exclude: the hybrid search strictly decreases a length, so one more
    iteration than the initial length is enough; the eviction loop of the
    encoder cache removes one entry per iteration; the sift loops of [heapq] end
    within the length of the list; the loop over free blocks within their
    number; each iteration of the loop over running requests passes or removes
    one of them, each iteration of the preemption loop removes one, and each
    iteration of the loop over waiting requests takes one out of the queues, so
    the lengths of the lists are enough; bisection and the search for a
    context length halve their intervals; each iteration of the connector's
    search but the last two loses a token, so two more than the tokens of the
    request are enough; each iteration of the n-gram search advances or shortens
    the current match, so twice the tokens are enough; each iteration of
    condensing fills one empty row, and each swap of a cycle settles one row, so the
    numbers of these rows are enough.

    ** What is not modelled, and why

    The execution of a step by the workers, attention backends, sampling from
    logits, other proposers, the models and the kernels compute on GPU tensors, whose
    semantics is in PyTorch and CUDA; the kernel that maps tokens to slots is the
    exception.  Of the workers the state updates are modelled, for the last pipeline
    stage without asynchronous scheduling; position encodings, encoder outputs and
    the zeroing of blocks are left out.
    Entry points, engine processes, executors and connectors are input/output
    and process plumbing.  [SinkFullAttentionManager] cannot be constructed by
    its factory.  Logging, tracing and the numbers that only reach loggers are
    left out.  Rounding of floating-point values ([watermark], usage, the target
    size of ARC, sampling parameters) is not modelled: they are fractions.
    The connectors and the structured output manager are parameters of the
    scheduler; spec-decoding statistics, routed-expert capturing and
    log probabilities are not part of its state.
    Plan: the life cycle of the asynchronous scheduler with several steps in
    flight, speculative decoding, encoder inputs and streaming sessions inside
    the invariant.
*)

From stdpp Require Export base tactics numbers list gmap fin_maps sets strings.
From Stdlib Require Export Lia.

(** ** Exceptions as values

    Python code that raises is modelled by a computation in [result]: it
    either returns a value or raises one of the exception classes the modelled
    sources use.  The one modelled caller that catches an exception calls a
    pure function, so the state after an exception is not observed.  [OutOfFuel] is not a Python exception: a
    [while] loop is modelled with a bound on its iterations, and the bound
    running out is reported by this value, so that a theorem that a loop
    returns is a theorem that it is never raised. *)
Inductive exn :=
  | ValueError | AssertionError | RuntimeError | IndexError | KeyError
  | TypeError | OverflowError | NotImplementedError | StopIteration | AttributeError
  | ZeroDivisionError | OutOfFuel.

#[export] Instance exn_eq_dec : EqDecision exn.
Proof. solve_decision. Defined.

Inductive result (A : Type) :=
  | Ok (a : A)
  | Raise (e : exn).
Arguments Ok {_} _.
Arguments Raise {_} _.

#[export] Instance result_ret : MRet result := λ A a, Ok a.
#[export] Instance result_bind : MBind result := λ A B f m,
  match m with Ok a => f a | Raise e => Raise e end.
#[export] Instance result_fmap : FMap result := λ A B f m,
  match m with Ok a => Ok (f a) | Raise e => Raise e end.

(** [assert b] and [if not b: raise e]. *)
Definition require (e : exn) (b : bool) : result () :=
  if b then Ok () else Raise e.
Abbreviation assert_ := (require AssertionError).

(** Look-up of a value that Python would reject with [e] when absent. *)
Definition of_option {A} (e : exn) (o : option A) : result A :=
  match o with Some a => Ok a | None => Raise e end.

(** [for x in l: s = f(s, x)] where the body may raise. *)
Fixpoint foldM {S A} (f : S → A → result S) (s : S) (l : list A) : result S :=
  match l with
  | [] => Ok s
  | x :: l => s' ← f s x; foldM f s' l
  end.

(** A comprehension [[f(x) for x in l]] whose element expression may raise. *)
Fixpoint mapR {A B} (f : A → result B) (l : list A) : result (list B) :=
  match l with
  | [] => Ok []
  | x :: l => y ← f x; ys ← mapR f l; Ok (y :: ys)
  end.

Lemma bind_Ok {A B} (m : result A) (f : A → result B) b :
  m ≫= f = Ok b ↔ ∃ a, m = Ok a ∧ f a = Ok b.
Proof. destruct m; cbn; naive_solver. Qed.

Lemma fmap_Ok {A B} (f : A → B) (m : result A) b :
  f <$> m = Ok b ↔ ∃ a, m = Ok a ∧ b = f a.
Proof. destruct m; cbn; naive_solver. Qed.

Lemma require_Ok e b u : require e b = Ok u ↔ b = true.
Proof. destruct b, u; cbn; naive_solver. Qed.

Lemma of_option_Ok {A} e (o : option A) a : of_option e o = Ok a ↔ o = Some a.
Proof. destruct o; cbn; naive_solver. Qed.

Lemma foldM_app {S A} (f : S → A → result S) s l1 l2 :
  foldM f s (l1 ++ l2) = (s' ← foldM f s l1; foldM f s' l2).
Proof. revert s. induction l1 as [|x l1 IH]; intros s; cbn; [done|]. by destruct (f s x); cbn. Qed.

(** Loop rule: an invariant of the body, indexed by the elements already
    consumed, is an invariant of the loop; and the loop returns whenever each
    body does. *)
Lemma foldM_ind {S A} (P : list A → S → Prop) (f : S → A → result S) s l :
  P [] s →
  (∀ done x rest s, l = done ++ x :: rest → P done s →
     ∃ s', f s x = Ok s' ∧ P (done ++ [x]) s') →
  ∃ s', foldM f s l = Ok s' ∧ P l s'.
Proof.
  intros H0 Hstep.
  enough (∀ rest done s, l = done ++ rest → P done s →
            ∃ s', foldM f s rest = Ok s' ∧ P l s') as Hgen.
  { by apply (Hgen l []). }
  intros rest. induction rest as [|x rest IH]; intros dn s1 Hl HP; cbn.
  { exists s1. split; [done|]. by rewrite Hl, app_nil_r. }
  destruct (Hstep dn x rest s1 Hl HP) as (s2 & Hf & HP2).
  rewrite Hf; cbn. apply (IH (dn ++ [x])); [|done].
  by rewrite Hl, <- app_assoc.
Qed.

(** The converse reading, when the loop is known to have returned. *)
Lemma foldM_inv {S A} (P : S → Prop) (f : S → A → result S) s l s' :
  foldM f s l = Ok s' → P s →
  (∀ x s1 s2, x ∈ l → f s1 x = Ok s2 → P s1 → P s2) →
  P s'.
Proof.
  revert s. induction l as [|x l IH]; cbn; intros s Hf HP Hstep.
  { by injection Hf as <-. }
  apply bind_Ok in Hf as (s1 & H1 & H2). eapply IH; eauto.
  - eapply Hstep; eauto. set_solver.
  - intros. eapply Hstep; eauto. set_solver.
Qed.

(** ** Python sequences

    [zlen l] is [len(l)].  [py_get] and [py_slice] follow Python's treatment
    of negative indices and of out-of-range slice bounds. *)
Abbreviation zlen l := (Z.of_nat (length l)).

Definition py_get {A} (l : list A) (i : Z) : result A :=
  let j := if (i <? 0)%Z then (zlen l + i)%Z else i in
  if (j <? 0)%Z then Raise IndexError
  else of_option IndexError (l !! Z.to_nat j).

(** [slice.indices] for step 1: a bound clipped to [0 .. len]. *)
Definition py_clip (n i : Z) : Z :=
  if (i <? 0)%Z then Z.max 0 (n + i) else Z.min i n.

Definition py_slice {A} (l : list A) (a b : Z) : list A :=
  let a' := py_clip (zlen l) a in
  let b' := py_clip (zlen l) b in
  take (Z.to_nat (b' - a')) (drop (Z.to_nat a') l).

Definition py_from {A} (l : list A) (a : Z) : list A :=
  py_slice l a (zlen l).

Definition py_upto {A} (l : list A) (b : Z) : list A :=
  py_slice l 0 b.

(** [range(a, b)] and [range(b - 1, a - 1, -1)]. *)
Definition py_range (a b : Z) : list Z := seqZ a (b - a).
Definition py_range_down (a b : Z) : list Z := reverse (py_range a b).

Lemma py_get_nonneg {A} (l : list A) (i : Z) a :
  (0 ≤ i)%Z → py_get l i = Ok a ↔ l !! Z.to_nat i = Some a.
Proof.
  intros Hi. unfold py_get. rewrite !(proj2 (Z.ltb_ge i 0)) by lia.
  apply of_option_Ok.
Qed.

Lemma py_get_nat {A} (l : list A) (i : nat) a :
  py_get l (Z.of_nat i) = Ok a ↔ l !! i = Some a.
Proof. rewrite py_get_nonneg by lia. by rewrite Nat2Z.id. Qed.

Lemma py_clip_range n i : (0 ≤ n)%Z → (0 ≤ py_clip n i ≤ n)%Z.
Proof. unfold py_clip. destruct (Z.ltb_spec i 0); lia. Qed.

Lemma py_from_nat {A} (l : list A) (n : nat) : py_from l (Z.of_nat n) = drop n l.
Proof.
  unfold py_from, py_slice, py_clip.
  rewrite !(proj2 (Z.ltb_ge _ _)) by lia. rewrite Z.min_id.
  destruct (decide (n ≤ length l)).
  - rewrite Z.min_l, Nat2Z.id by lia. apply take_ge. rewrite length_drop. lia.
  - rewrite Z.min_r, Nat2Z.id, drop_all by lia. rewrite take_nil.
    symmetry. apply drop_ge. lia.
Qed.

Lemma py_from_nonneg {A} (l : list A) (a : Z) :
  (0 ≤ a)%Z → py_from l a = drop (Z.to_nat a) l.
Proof. intros. rewrite <- (Z2Nat.id a) at 1 by lia. apply py_from_nat. Qed.

Lemma py_slice_nat {A} (l : list A) (a b : nat) :
  py_slice l (Z.of_nat a) (Z.of_nat b) = take (b - a) (drop a l).
Proof.
  unfold py_slice, py_clip.
  rewrite !(proj2 (Z.ltb_ge _ _)) by lia.
  destruct (decide (a ≤ length l)); [destruct (decide (b ≤ length l))|].
  - rewrite !Z.min_l by lia. f_equal; [lia|]. f_equal; lia.
  - rewrite (Z.min_l (Z.of_nat a)), Z.min_r, Nat2Z.id by lia.
    rewrite !take_ge; rewrite ?length_drop; [done|lia|lia].
  - rewrite (drop_ge l a) by lia. rewrite (Z.min_r (Z.of_nat a)) by lia.
    by rewrite Nat2Z.id, drop_all, !take_nil.
Qed.

(** ** Counting occurrences *)
Definition occ {A} `{EqDecision A} (x : A) (l : list A) : nat :=
  length (filter (x =.) l).
#[global] Arguments occ : simpl never.

Section occ.
Context {A} `{EqDecision A}.
Implicit Types (x y : A) (l : list A).

Lemma occ_nil x : occ x [] = 0.
Proof. done. Qed.
Lemma occ_cons x y l : occ x (y :: l) = (if decide (x = y) then 1 else 0) + occ x l.
Proof. unfold occ. rewrite filter_cons. by case_decide. Qed.
Lemma occ_app x l1 l2 : occ x (l1 ++ l2) = occ x l1 + occ x l2.
Proof. unfold occ. by rewrite filter_app, length_app. Qed.
Lemma occ_perm x l1 l2 : l1 ≡ₚ l2 → occ x l1 = occ x l2.
Proof. intros H. unfold occ. by rewrite H. Qed.
Lemma occ_reverse x l : occ x (reverse l) = occ x l.
Proof. apply occ_perm, reverse_Permutation. Qed.
Lemma occ_0 x l : occ x l = 0 ↔ x ∉ l.
Proof.
  induction l as [|y l IH]; [by rewrite occ_nil; split; [intros _ ?%not_elem_of_nil|]|].
  rewrite occ_cons, not_elem_of_cons. case_decide; naive_solver lia.
Qed.
Lemma occ_pos x l : x ∈ l ↔ 0 < occ x l.
Proof.
  pose proof (occ_0 x l). destruct (decide (x ∈ l)); split; intros; try tauto.
  - destruct (occ x l); [tauto|lia].
  - assert (occ x l = 0) by tauto. lia.
Qed.
Lemma occ_NoDup x l : NoDup l → occ x l = if decide (x ∈ l) then 1 else 0.
Proof.
  induction 1 as [|y l Hy Hl IH]; [by rewrite occ_nil, decide_False by apply not_elem_of_nil|].
  rewrite occ_cons, IH. destruct (decide (x = y)) as [->|Hne].
  - rewrite decide_False, decide_True by set_solver. done.
  - destruct (decide (x ∈ l)).
    + by rewrite decide_True by set_solver.
    + by rewrite decide_False by set_solver.
Qed.
Lemma occ_replicate x y n : occ x (replicate n y) = if decide (x = y) then n else 0.
Proof.
  induction n as [|n IH]; cbn; [by case_decide|].
  rewrite occ_cons, IH. by case_decide.
Qed.
End occ.

(** ** Tactics of the development *)

(** Break a computation in [result] that is known to have returned. *)
Ltac ok_step :=
  match goal with
  | H : (_ ≫= _) = Ok _ |- _ => apply bind_Ok in H as (? & ? & ?)
  | H : (_ <$> _) = Ok _ |- _ => apply fmap_Ok in H as (? & ? & ?)
  | H : require _ _ = Ok _ |- _ => apply require_Ok in H
  | H : of_option _ _ = Ok _ |- _ => apply of_option_Ok in H
  | H : Ok _ = Ok _ |- _ => apply (inj Ok) in H
  | H : Raise _ = Ok _ |- _ => discriminate H
  | H : mret _ = Ok _ |- _ => apply (inj Ok) in H
  | H : (_, _) = (_, _) |- _ => apply pair_eq in H as [? ?]
  end; subst; cbn in *.
#[export] Instance Ok_inj {A} : Inj (=) (=) (@Ok A).
Proof. by intros ?? [=]. Qed.
Ltac ok_inv := repeat ok_step.

(** Runs a computation whose next step is known to return. *)
Lemma bind_ret {A B} (a : A) (f : A → result B) : Ok a ≫= f = f a.
Proof. done. Qed.
Ltac mrun := repeat (rewrite bind_ret; cbv beta iota).

(** ** Comprehensions that may raise *)

Lemma mapR_Forall2 {A B} (f : A → result B) l ys : mapR f l = Ok ys ↔ Forall2 (λ x y, f x = Ok y) l ys.
Proof.
  revert ys. induction l as [|x l IH]; intros ys; cbn [mapR].
  - split; [intros [= <-]; constructor|]. by inversion 1.
  - split.
    + intros (y & E1 & (zs & E2 & [= <-])%bind_Ok)%bind_Ok. constructor; [done|]. by apply IH.
    + inversion 1 as [|? y ? zs E1 E2]; subst. apply IH in E2. by rewrite E1, bind_ret, E2.
Qed.

Lemma mapR_Ok {A B} (f : A → result B) (g : A → B) l :
  (∀ x, x ∈ l → f x = Ok (g x)) → mapR f l = Ok (g <$> l).
Proof.
  induction l as [|x l IH]; intros H; [done|]. cbn. rewrite H by left. cbn.
  rewrite IH; [done|]. intros y Hy. apply H. by right.
Qed.

Lemma mapR_total {A B} (f : A → result B) l : (∀ x, x ∈ l → ∃ y, f x = Ok y) → ∃ ys, mapR f l = Ok ys.
Proof.
  induction l as [|x l IH]; intros H; cbn [mapR]; [eauto|]. destruct (H x) as [y ->]; [by left|].
  destruct IH as [ys ->]; [intros; apply H; by right|]. mrun. eauto.
Qed.

Lemma foldM_total {A S} (f : S → A → result S) l s : (∀ s x, x ∈ l → ∃ s', f s x = Ok s') → ∃ s', foldM f s l = Ok s'.
Proof.
  revert s. induction l as [|x l IH]; intros s H; cbn [foldM]; [eauto|]. destruct (H s x) as [s1 ->]; [by left|].
  mrun. apply IH. intros; apply H; by right.
Qed.

(** Turn boolean tests on [Z] and [bool_decide]s in the context to [Prop]. *)
Ltac zbool :=
  repeat match goal with
  | H : (_ <? _)%Z = true |- _ => apply Z.ltb_lt in H
  | H : (_ <? _)%Z = false |- _ => apply Z.ltb_ge in H
  | H : (_ <=? _)%Z = true |- _ => apply Z.leb_le in H
  | H : (_ <=? _)%Z = false |- _ => apply Z.leb_gt in H
  | H : (_ =? _)%Z = true |- _ => apply Z.eqb_eq in H
  | H : (_ =? _)%Z = false |- _ => apply Z.eqb_neq in H
  | H : bool_decide _ = true |- _ => apply bool_decide_eq_true in H
  | H : bool_decide _ = false |- _ => apply bool_decide_eq_false in H
  | H : negb _ = true |- _ => apply negb_true_iff in H
  | H : negb _ = false |- _ => apply negb_false_iff in H
  | H : (_ && _) = true |- _ => apply andb_true_iff in H as [? ?]
  | H : (_ || _) = false |- _ => apply orb_false_iff in H as [? ?]
  end.

(** Linear arithmetic with floor division, as Python's [//] and [%]. *)
Ltac divlia := Z.to_euclidean_division_equations; nia.

Create HintDb vllm.
#[export] Hint Rewrite @occ_nil @occ_cons @occ_app @occ_reverse : occ.
