(* ===== verification/MathUtils.v ===== *)
(** * Integer helpers ([vllm/utils/math_utils.py])

    Python integers are unbounded, so they are [Z]; Python's [//] and [%] on
    integers are floor division and its remainder, which are [Z.div] and
    [Z.modulo].  Every other file uses [cdiv] and the facts proved here. *)

From S2P Require Import Prelude.
From Stdlib Require Import ZArith.

Local Open Scope Z_scope.

Definition cdiv (a b : Z) : Z := - (a / - b).

(** [int.bit_length] *)
Definition bit_length (n : Z) : Z :=
  if n =? 0 then 0 else Z.log2 (Z.abs n) + 1.

Definition next_power_of_2 (n : Z) : Z :=
  if n <? 1 then 1 else Z.shiftl 1 (bit_length (n - 1)).

Definition round_up (x y : Z) : Z := ((x + y - 1) / y) * y.

Definition round_down (x y : Z) : Z := (x / y) * y.

Definition largest_power_of_2_divisor (n : Z) : Z := Z.land n (- n).

(** ** Facts about [cdiv] *)

Lemma cdiv_bounds a b : 0 < b → (cdiv a b - 1) * b < a ≤ cdiv a b * b.
Proof. intros Hb. unfold cdiv. pose proof (Z_div_mod_full a (- b)). divlia. Qed.

Lemma cdiv_unique a b q : 0 < b → (q - 1) * b < a ≤ q * b → cdiv a b = q.
Proof. intros Hb Hq. pose proof (cdiv_bounds a b Hb). nia. Qed.

Lemma cdiv_mul q b : 0 < b → cdiv (q * b) b = q.
Proof. intros. apply cdiv_unique; nia. Qed.

Lemma cdiv_mono a a' b : 0 < b → a ≤ a' → cdiv a b ≤ cdiv a' b.
Proof. intros Hb Ha. pose proof (cdiv_bounds a b Hb). pose proof (cdiv_bounds a' b Hb). nia. Qed.

Lemma cdiv_nonneg a b : 0 < b → 0 ≤ a → 0 ≤ cdiv a b.
Proof. intros Hb Ha. pose proof (cdiv_bounds a b Hb). nia. Qed.

Lemma cdiv_ge_div a b : 0 < b → a / b ≤ cdiv a b ≤ a / b + 1.
Proof.
  intros Hb. pose proof (cdiv_bounds a b Hb).
  pose proof (Z.mul_div_le a b Hb). pose proof (Z.mul_succ_div_gt a b Hb). nia.
Qed.

#[export] Hint Resolve cdiv_bounds cdiv_nonneg cdiv_mono cdiv_ge_div : vllm.

(** ** The reference behaviour of the helpers *)

(** For a positive divisor [cdiv] is the mathematical ceiling: it is the
    least integer [q] with [a <= q * b]. *)
Theorem cdiv_is_ceiling a b q : 0 < b → cdiv a b ≤ q ↔ a ≤ q * b.
Proof. intros Hb. pose proof (cdiv_bounds a b Hb). split; intros; nia. Qed.

(** [round_up] and [round_down] return the nearest multiples of [y]
    around [x], so [round_down x y <= x <= round_up x y] with both gaps
    below [y], and they agree exactly on the multiples of [y]. *)
Theorem round_up_down_spec x y :
  0 < y →
  (y | round_up x y) ∧ (y | round_down x y) ∧
  x ≤ round_up x y < x + y ∧ x - y < round_down x y ≤ x ∧
  (round_up x y = round_down x y ↔ (y | x)).
Proof.
  intros Hy. unfold round_up, round_down.
  pose proof (Z.mul_div_le (x + y - 1) y Hy). pose proof (Z.mul_succ_div_gt (x + y - 1) y Hy).
  pose proof (Z.mul_div_le x y Hy). pose proof (Z.mul_succ_div_gt x y Hy).
  repeat split; try apply Z.divide_factor_r; try nia.
  - intros E. exists (x / y). nia.
  - intros [q ->]. rewrite Z.div_mul by lia. f_equal.
    symmetry. apply Z.div_unique with (y - 1); lia.
Qed.

Lemma bit_length_bound n : 0 ≤ n → 0 ≤ bit_length n ∧ n < 2 ^ bit_length n.
Proof.
  intros Hn. unfold bit_length. destruct (Z.eqb_spec n 0) as [->|Hne]; [cbn; lia|].
  rewrite Z.abs_eq by lia. pose proof (Z.log2_spec n ltac:(lia)).
  pose proof (Z.log2_nonneg n). rewrite <- Z.add_1_r in *. lia.
Qed.

Lemma bit_length_least n j : 0 ≤ n → 0 ≤ j → n < 2 ^ j → bit_length n ≤ j.
Proof.
  intros Hn Hj Hlt. unfold bit_length. destruct (Z.eqb_spec n 0) as [->|Hne]; [lia|].
  rewrite Z.abs_eq by lia.
  enough (Z.log2 n < j) by lia. apply Z.log2_lt_pow2; lia.
Qed.

(** [next_power_of_2 n] is a power of two, is at least [n] and at least
    one, and no smaller power of two is at least [n]. *)
Theorem next_power_of_2_least n :
  ∃ k, 0 ≤ k ∧ next_power_of_2 n = 2 ^ k ∧ n ≤ 2 ^ k ∧
       ∀ j, 0 ≤ j → n ≤ 2 ^ j → 2 ^ k ≤ 2 ^ j.
Proof.
  unfold next_power_of_2. destruct (Z.ltb_spec n 1).
  { exists 0. repeat split; lia. }
  destruct (bit_length_bound (n - 1)) as [H0 H1]; [lia|].
  exists (bit_length (n - 1)). rewrite Z.shiftl_1_l. repeat split; try lia.
  intros j Hj Hle. apply Z.pow_le_mono_r; [lia|]. apply bit_length_least; lia.
Qed.

Lemma odd_part n : 0 < n → ∃ k q, 0 ≤ k ∧ n = (2 * q + 1) * 2 ^ k.
Proof.
  destruct n as [|p|p]; try lia. intros _. induction p as [p _|p (k & q & Hk & E)|].
  - exists 0, (Zpos p). lia.
  - exists (k + 1), q. split; [lia|]. rewrite Z.pow_add_r by lia. lia.
  - exists 0, 0. lia.
Qed.

(** For positive [n], [largest_power_of_2_divisor n] is a power of two
    that divides [n] and its double does not: it isolates the lowest set bit. *)
Theorem largest_power_of_2_divisor_spec n :
  0 < n →
  ∃ k, 0 ≤ k ∧ largest_power_of_2_divisor n = 2 ^ k ∧ (2 ^ k | n) ∧ ¬ (2 ^ (k + 1) | n).
Proof.
  intros (k & q & Hk & ->)%odd_part. exists k. split; [done|]. split; [|split].
  - unfold largest_power_of_2_divisor.
    replace (- ((2 * q + 1) * 2 ^ k)) with ((2 * Z.lnot q + 1) * 2 ^ k)
      by (unfold Z.lnot; lia).
    apply Z.bits_inj'. intros i Hi.
    rewrite Z.land_spec, !Z.mul_pow2_bits, Z.pow2_bits_eqb by lia.
    destruct (Z.eqb_spec k i) as [<-|Hne].
    { rewrite Z.sub_diag, Z.testbit_odd_0, Z.testbit_odd_0. done. }
    destruct (decide (i < k)); [by rewrite Z.testbit_neg_r by lia|].
    replace (i - k) with (Z.succ (i - k - 1)) by lia.
    rewrite !Z.testbit_odd_succ, Z.lnot_spec by lia. apply andb_negb_r.
  - apply Z.divide_factor_r.
  - intros [m Hm]. rewrite Z.pow_add_r in Hm by lia.
    assert (2 * q + 1 = 2 * m); [|lia].
    apply (Z.mul_reg_r _ _ (2 ^ k)); lia.
Qed.

