(* ===== verification/PyDict.v ===== *)
(** * Python dictionaries with string keys

    An association list in insertion order, which is the order in which Python
    iterates.  Used by the scheduler and by the grouping of KV cache layers. *)

From S2P Require Import Prelude.

Definition dict (A : Type) := list (string * A).

Fixpoint dict_get {A} (k : string) (d : dict A) : option A :=
  match d with
  | [] => None
  | (k', v) :: d => if String.eqb k k' then Some v else dict_get k d
  end.
(** [d[k] = v]: an existing key keeps its place. *)
Fixpoint dict_set {A} (k : string) (v : A) (d : dict A) : dict A :=
  match d with
  | [] => [(k, v)]
  | (k', v') :: d => if String.eqb k k' then (k, v) :: d else (k', v') :: dict_set k v d
  end.
(** [del d[k]] and [d.pop(k, None)], on a key that may be absent. *)
Fixpoint dict_del {A} (k : string) (d : dict A) : dict A :=
  match d with
  | [] => []
  | (k', v) :: d => if String.eqb k k' then d else (k', v) :: dict_del k d
  end.
(** [d.pop(k)] *)
Definition dict_pop {A} (k : string) (d : dict A) : result (A * dict A) :=
  v ← of_option KeyError (dict_get k d); Ok (v, dict_del k d).

(** ** Facts *)

Section Dict.
Context {A : Type}.
Implicit Types (d : dict A) (k : string) (v : A).

Lemma dict_get_elem d k v : dict_get k d = Some v → (k, v) ∈ d.
Proof.
  induction d as [|[k' v'] d IH]; cbn; [done|]. destruct (String.eqb_spec k k') as [->|].
  - intros [= ->]. by left.
  - intros H. right. auto.
Qed.

Lemma dict_get_key d k : k ∈ d.*1 ↔ is_Some (dict_get k d).
Proof.
  induction d as [|[k' v'] d IH]; cbn.
  - split; [by intros ?%not_elem_of_nil|by intros [? ?]].
  - rewrite elem_of_cons, IH. destruct (String.eqb_spec k k') as [->|]; [split; [by eexists|by left]|].
    split; [intros [?|?]; done|by right].
Qed.

Lemma dict_get_nodup d k v : NoDup d.*1 → (k, v) ∈ d → dict_get k d = Some v.
Proof.
  induction d as [|[k' v'] d IH]; cbn; intros Hnd Hin; [by apply not_elem_of_nil in Hin|].
  apply NoDup_cons in Hnd as [Hk Hnd]. destruct (String.eqb_spec k k') as [->|Hne].
  - apply elem_of_cons in Hin as [[= ->]|Hin]; [done|]. destruct Hk. by apply (list_elem_of_fmap_2 fst) in Hin.
  - apply elem_of_cons in Hin as [[= -> ->]|Hin]; [done|auto].
Qed.

Lemma dict_get_set d k v k' : dict_get k' (dict_set k v d) = if decide (k' = k) then Some v else dict_get k' d.
Proof.
  induction d as [|[k1 v1] d IH]; cbn.
  - destruct (String.eqb_spec k' k); by case_decide.
  - destruct (String.eqb_spec k k1) as [<-|Hne]; cbn; [destruct (String.eqb_spec k' k); by case_decide|].
    rewrite IH. destruct (String.eqb_spec k' k1) as [->|]; [|done]. by rewrite decide_False.
Qed.

Lemma dict_set_new d k v : dict_get k d = None → dict_set k v d = d ++ [(k, v)].
Proof.
  induction d as [|[k1 v1] d IH]; cbn; [done|]. destruct (String.eqb_spec k k1); [done|].
  intros H. by rewrite IH.
Qed.

Lemma dict_del_split d k v : dict_get k d = Some v →
  ∃ d1 d2, d = d1 ++ (k, v) :: d2 ∧ dict_del k d = d1 ++ d2.
Proof.
  induction d as [|[k1 v1] d IH]; cbn; [done|]. destruct (String.eqb_spec k k1) as [<-|Hne].
  - intros [= ->]. by exists [], d.
  - intros (d1 & d2 & -> & ->)%IH. by exists ((k1, v1) :: d1), d2.
Qed.

Lemma dict_get_del d k k' : NoDup d.*1 → dict_get k' (dict_del k d) = if decide (k' = k) then None else dict_get k' d.
Proof.
  induction d as [|[k1 v1] d IH]; cbn; intros Hnd; [by case_decide|]. apply NoDup_cons in Hnd as [Hk Hnd].
  destruct (String.eqb_spec k k1) as [<-|Hne]; cbn.
  - destruct (String.eqb_spec k' k) as [->|]; case_decide; try done.
    destruct (dict_get k d) eqn:E; [|done]. destruct Hk. apply dict_get_key. by eexists.
  - rewrite IH by done. destruct (String.eqb_spec k' k1) as [->|]; [|done]. by rewrite decide_False.
Qed.
Lemma dict_del_nodup d id : NoDup d.*1 → NoDup (dict_del id d).*1.
Proof.
  intros Hnd. destruct (dict_get id d) as [v|] eqn:E.
  - destruct (dict_del_split _ _ _ E) as (d1 & d2 & -> & ->). revert Hnd. rewrite !fmap_app. cbn.
    rewrite <- Permutation_middle. by intros [_ ?]%NoDup_cons.
  - assert (dict_del id d = d) as ->; [|done]. clear Hnd. induction d as [|[k v] d IH]; cbn in *; [done|].
    destruct (String.eqb_spec id k); [done|]. by rewrite IH.
Qed.

Lemma dict_set_nodup d id v : dict_get id d = None → NoDup d.*1 → NoDup (dict_set id v d).*1.
Proof.
  intros E Hnd. rewrite dict_set_new, fmap_app by done. cbn. apply NoDup_app. split; [done|].
  split; [|apply NoDup_singleton]. intros x Hx%dict_get_key ->%list_elem_of_singleton. rewrite E in Hx. by destruct Hx.
Qed.
End Dict.

(** ** [defaultdict(list)] with arbitrary keys *)

Section DefaultDict.
Context {K V : Type} `{!EqDecision K}.
Implicit Types (d : list (K * list V)) (k : K) (v : V).

(** [d[k].append(v)] *)
Fixpoint dd_append k v d : list (K * list V) :=
  match d with
  | [] => [(k, [v])]
  | (k', vs) :: d => if decide (k = k') then (k', vs ++ [v]) :: d else (k', vs) :: dd_append k v d
  end.

(** [for x in l: d[key(x)].append(val(x))] *)
Definition dd_group {X} (key : X → K) (val : X → V) (l : list X) : list (K * list V) :=
  fold_left (λ d x, dd_append (key x) (val x) d) l [].

(** Every value is in the list of its key, keys are distinct and no list is
    empty. *)
Definition dd_wf (P : K → V → Prop) d : Prop :=
  NoDup d.*1 ∧ ∀ k vs, (k, vs) ∈ d → vs ≠ [] ∧ ∀ v, v ∈ vs → P k v.

Lemma dd_append_keys k v d k' : k' ∈ (dd_append k v d).*1 ↔ k' = k ∨ k' ∈ d.*1.
Proof.
  induction d as [|[k1 vs] d IH]; cbn; [by rewrite list_elem_of_singleton, elem_of_nil; tauto|].
  case_decide as Hk; cbn; rewrite !elem_of_cons; [subst; tauto|]. rewrite IH. tauto.
Qed.

Lemma dd_append_wf P k v d : dd_wf P d → P k v → dd_wf P (dd_append k v d).
Proof.
  intros [Hnd Hd] Hv. induction d as [|[k1 vs] d IH]; cbn.
  { split; cbn; [apply NoDup_singleton|]. intros k' vs' [= -> ->]%list_elem_of_singleton. split; [done|].
    by intros v' ->%list_elem_of_singleton. }
  apply NoDup_cons in Hnd as [Hk1 Hnd]. case_decide as Hk; cbn.
  - subst. split; [cbn; by apply NoDup_cons|]. intros k' vs' [[= -> ->]|Hin]%elem_of_cons; [|apply Hd; by right].
    split; [by destruct vs|]. intros v' [Hv'| ->%list_elem_of_singleton]%elem_of_app; [|done].
    by apply (Hd k1 vs); [by left|].
  - destruct IH as [H1 H2]; [done|intros; apply Hd; by right|]. split; cbn.
    + apply NoDup_cons. split; [|done]. rewrite dd_append_keys. intros [->|?]; done.
    + intros k' vs' [[= -> ->]|Hin]%elem_of_cons; [apply Hd; by left|by apply H2].
Qed.

Lemma dd_append_values k v d : concat (dd_append k v d).*2 ≡ₚ concat d.*2 ++ [v].
Proof.
  induction d as [|[k1 vs] d IH]; cbn; [done|]. case_decide; cbn.
  - rewrite <- !app_assoc. f_equiv. apply Permutation_app_comm.
  - rewrite IH. by rewrite app_assoc.
Qed.

Lemma dd_group_wf {X} (key : X → K) (val : X → V) (P : K → V → Prop) l :
  (∀ x, x ∈ l → P (key x) (val x)) → dd_wf P (dd_group key val l).
Proof.
  intros Hl. unfold dd_group.
  assert (dd_wf P ([] : list (K * list V))) as H0.
  { split; cbn; [constructor|]. by intros k vs ?%not_elem_of_nil. }
  revert H0. generalize ([] : list (K * list V)). induction l as [|x l IH]; cbn; intros d Hd; [done|].
  apply IH; [intros; apply Hl; by right|]. apply dd_append_wf; [done|]. apply Hl. by left.
Qed.

Lemma dd_group_values {X} (key : X → K) (val : X → V) l : concat (dd_group key val l).*2 ≡ₚ val <$> l.
Proof.
  unfold dd_group. enough (∀ d, concat (fold_left (λ d x, dd_append (key x) (val x) d) l d).*2 ≡ₚ concat d.*2 ++ (val <$> l)) as H
    by (rewrite H; done).
  induction l as [|x l IH]; cbn; intros d; [by rewrite app_nil_r|]. rewrite IH, dd_append_values.
  by rewrite <- app_assoc.
Qed.
End DefaultDict.

(** ** [l[i::n]] *)

Fixpoint py_stride {A} (n i : nat) (l : list A) : list A :=
  match l with
  | [] => []
  | x :: l => match i with O => x :: py_stride n (n - 1) l | S i => py_stride n i l end
  end.

(** The strides with the same step share the list out. *)
Lemma py_stride_all {A} (n : nat) (l : list A) :
  (0 < n)%nat → concat ((λ i, py_stride n i l) <$> seq 0 n) ≡ₚ l.
Proof.
  intros Hn. destruct n as [|n]; [lia|]. clear Hn. induction l as [|x l IH].
  { generalize (S n). intros k. induction (seq 0 k) as [|j js IHj]; cbn; [done|by rewrite IHj]. }
  cbn [seq fmap list_fmap concat py_stride app]. rewrite <- fmap_S_seq, <- list_fmap_compose.
  replace (S n - 1)%nat with n by lia. constructor. etransitivity; [|exact IH].
  rewrite seq_S, fmap_app, concat_app. cbn. rewrite app_nil_r. apply Permutation_app_comm.
Qed.

