(* ===== verification/FreeQueue.v ===== *)
(** * The free-block queue ([FreeKVCacheBlockQueue], [vllm/v1/core/kv_cache_utils.py])

    The source keeps free KV blocks in a doubly linked list threaded through
    the [prev_free_block] and [next_free_block] attributes of the blocks
    themselves, between two sentinel blocks.  Objects are modelled by
    references, and the two attributes of all objects by two finite maps from
    references to references (an absent key is the attribute value [None]), so
    each assignment of the source is one map update.

    [queue_rep q l] relates such a heap to the deque [l] it stands for; the
    theorems show that every operation of the class implements the
    corresponding operation on [l].  Clients use only the class
    [FreeQueueSpec]. *)

From S2P Require Import Prelude.

(** The two sentinels, and the real blocks (identified by [block_id]). *)
Inductive ref := FakeHead | FakeTail | Blk (id : nat).

#[export] Instance ref_eq_dec : EqDecision ref.
Proof. solve_decision. Defined.
#[export] Instance ref_countable : Countable ref.
Proof.
  refine (inj_countable'
    (λ r, match r with FakeHead => inl true | FakeTail => inl false | Blk i => inr i end)
    (λ s, match s with inl true => FakeHead | inl false => FakeTail | inr i => Blk i end) _).
  by intros [].
Defined.
#[export] Instance Blk_inj : Inj (=) (=) Blk.
Proof. by intros ?? [=]. Qed.

Record FreeKVCacheBlockQueue := mkQueue {
  num_free_blocks : Z;
  prev_free_block : gmap ref ref;
  next_free_block : gmap ref ref;
}.

(** Attribute assignments. *)
Definition set_next (x y : ref) (q : FreeKVCacheBlockQueue) : FreeKVCacheBlockQueue :=
  mkQueue (num_free_blocks q) (prev_free_block q) (<[x := y]> (next_free_block q)).
Definition set_prev (x y : ref) (q : FreeKVCacheBlockQueue) : FreeKVCacheBlockQueue :=
  mkQueue (num_free_blocks q) (<[x := y]> (prev_free_block q)) (next_free_block q).
Definition clear_links (x : ref) (q : FreeKVCacheBlockQueue) : FreeKVCacheBlockQueue :=
  mkQueue (num_free_blocks q) (delete x (prev_free_block q)) (delete x (next_free_block q)).
Definition add_free (n : Z) (q : FreeKVCacheBlockQueue) : FreeKVCacheBlockQueue :=
  mkQueue (num_free_blocks q + n) (prev_free_block q) (next_free_block q).

Module FreeQueue.

(** [__init__]: link consecutive blocks, then hook both sentinels. *)
Definition init_link (blocks : list nat) (q : FreeKVCacheBlockQueue) (i : nat)
    : FreeKVCacheBlockQueue :=
  let q := if decide (0 < i) then set_prev (Blk (blocks !!! i)) (Blk (blocks !!! (i - 1))) q else q in
  if decide (i < length blocks - 1)
  then set_next (Blk (blocks !!! i)) (Blk (blocks !!! (i + 1))) q else q.

Definition init (blocks : list nat) : FreeKVCacheBlockQueue :=
  let q := mkQueue (zlen blocks) ∅ ∅ in
  let q := foldl (init_link blocks) q (seq 0 (length blocks)) in
  if decide (0 < length blocks) then
    let first := Blk (blocks !!! 0) in
    let last := Blk (blocks !!! (length blocks - 1)) in
    set_next last FakeTail (set_prev FakeTail last
      (set_prev first FakeHead (set_next FakeHead first q)))
  else set_prev FakeTail FakeHead (set_next FakeHead FakeTail q).

Definition popleft (q : FreeKVCacheBlockQueue) : result (ref * FreeKVCacheBlockQueue) :=
  match next_free_block q !! FakeHead with
  | None | Some FakeTail =>
      _ ← assert_ (num_free_blocks q =? 0)%Z;
      Raise ValueError
  | Some first_block =>
      match next_free_block q !! first_block with
      | None => Raise RuntimeError
      | Some second =>
          let q := set_next FakeHead second q in
          let q := set_prev second FakeHead q in
          let q := clear_links first_block q in
          Ok (first_block, add_free (-1) q)
      end
  end.

(** The [for _ in range(n)] loop of [popleft_n]. *)
Fixpoint popleft_loop (n : nat) (curr : option ref) (ret : list ref)
    (q : FreeKVCacheBlockQueue) : result (list ref * option ref * FreeKVCacheBlockQueue) :=
  match n with
  | O => Ok (ret, curr, q)
  | S n =>
      last_block ← of_option AssertionError curr;
      let curr := next_free_block q !! last_block in
      popleft_loop n curr (ret ++ [last_block]) (clear_links last_block q)
  end.

Definition popleft_n (n : Z) (q : FreeKVCacheBlockQueue)
    : result (list ref * FreeKVCacheBlockQueue) :=
  if (n =? 0)%Z then Ok ([], q) else
  _ ← assert_ (n <=? num_free_blocks q)%Z;
  let q := add_free (- n) q in
  '(ret, curr, q) ← popleft_loop (Z.to_nat n) (next_free_block q !! FakeHead) [] q;
  let q := match curr with
           | Some c => set_prev c FakeHead (set_next FakeHead c q)
           | None => q
           end in
  Ok (ret, q).

Definition remove (block : ref) (q : FreeKVCacheBlockQueue) : result FreeKVCacheBlockQueue :=
  match prev_free_block q !! block, next_free_block q !! block with
  | Some p, Some n =>
      let q := set_next p n q in
      let q := set_prev n p q in
      Ok (add_free (-1) (clear_links block q))
  | _, _ => Raise RuntimeError
  end.

Definition append (block : ref) (q : FreeKVCacheBlockQueue) : result FreeKVCacheBlockQueue :=
  last_block ← of_option RuntimeError (prev_free_block q !! FakeTail);
  let q := set_next last_block block q in
  let q := set_prev block last_block q in
  let q := set_next block FakeTail q in
  let q := set_prev FakeTail block q in
  Ok (add_free 1 q).

(** The loops of [prepend_n] and [append_n]: chain [blocks] behind [prev]. *)
Definition chain_step (s : ref * FreeKVCacheBlockQueue) (block : ref)
    : ref * FreeKVCacheBlockQueue :=
  let '(prev_block, q) := s in
  (block, set_next prev_block block (set_prev block prev_block q)).

Definition prepend_n (blocks : list ref) (q : FreeKVCacheBlockQueue)
    : result FreeKVCacheBlockQueue :=
  if decide (length blocks = 0) then Ok q else
  first_block ← of_option AssertionError (next_free_block q !! FakeHead);
  let '(prev_block, q) := foldl chain_step (FakeHead, q) blocks in
  let q := set_next prev_block first_block q in
  let q := set_prev first_block prev_block q in
  Ok (add_free (zlen blocks) q).

Definition append_n (blocks : list ref) (q : FreeKVCacheBlockQueue)
    : result FreeKVCacheBlockQueue :=
  if decide (length blocks = 0) then Ok q else
  last_block ← of_option AssertionError (prev_free_block q !! FakeTail);
  let '(last_block, q) := foldl chain_step (last_block, q) blocks in
  let q := set_next last_block FakeTail q in
  let q := set_prev FakeTail last_block q in
  Ok (add_free (zlen blocks) q).

(** The [while] loop of [get_all_free_blocks]. *)
Fixpoint walk (fuel : nat) (q : FreeKVCacheBlockQueue) (curr_block : ref) (ret : list ref)
    : result (list ref) :=
  match fuel with
  | O => Raise OutOfFuel
  | S fuel =>
      match next_free_block q !! curr_block with
      | None => Ok ret
      | Some n => walk fuel q n (ret ++ [curr_block])
      end
  end.

Definition get_all_free_blocks (fuel : nat) (q : FreeKVCacheBlockQueue) : result (list ref) :=
  curr_block ← of_option RuntimeError (next_free_block q !! FakeHead);
  walk fuel q curr_block [].

(** ** Representation of a deque by the heap *)

Definition linked (q : FreeKVCacheBlockQueue) (x y : ref) : Prop :=
  next_free_block q !! x = Some y ∧ prev_free_block q !! y = Some x.

(** [seg q a l b]: following the links from [a], the blocks met strictly
    before [b] are [l], and the backward links agree. *)
Fixpoint seg (q : FreeKVCacheBlockQueue) (a : ref) (l : list ref) (b : ref) : Prop :=
  match l with
  | [] => linked q a b
  | x :: l => linked q a x ∧ seg q x l b
  end.

Record queue_rep (q : FreeKVCacheBlockQueue) (l : list nat) : Prop := mkRep {
  rep_seg : seg q FakeHead (Blk <$> l) FakeTail;
  rep_num : num_free_blocks q = zlen l;
  rep_nodup : NoDup l;
  rep_head : prev_free_block q !! FakeHead = None;
  rep_tail : next_free_block q !! FakeTail = None;
  rep_out : ∀ i, i ∉ l → prev_free_block q !! Blk i = None ∧ next_free_block q !! Blk i = None;
}.

Section seg.
Implicit Types (q : FreeKVCacheBlockQueue) (a b x : ref) (l : list ref).

(** A segment only depends on the links it is made of. *)
Lemma seg_frame q q' a l b :
  (∀ x, x ∈ a :: l → next_free_block q' !! x = next_free_block q !! x) →
  (∀ x, x ∈ b :: l → prev_free_block q' !! x = prev_free_block q !! x) →
  seg q a l b → seg q' a l b.
Proof.
  revert a. induction l as [|x l IH]; cbn; intros a Hn Hp.
  - unfold linked. rewrite Hn, Hp by set_solver. done.
  - intros [[] ?]. split; [split; [rewrite Hn|rewrite Hp]; set_solver|].
    apply IH; set_solver.
Qed.

Lemma seg_app q a l1 x l2 b :
  seg q a (l1 ++ x :: l2) b ↔ seg q a l1 x ∧ seg q x l2 b.
Proof. revert a. induction l1 as [|y l1 IH]; cbn; intros a; [done|]. rewrite IH. tauto. Qed.

Lemma seg_next q a l b :
  seg q a l b → next_free_block q !! a = Some (default b (head l)).
Proof. destruct l; cbn; [by intros []|by intros [[] _]]. Qed.

Lemma seg_prev q a l b :
  seg q a l b → prev_free_block q !! b = Some (default a (last l)).
Proof.
  destruct l as [|x l _] using rev_ind; cbn; [by intros []|].
  rewrite seg_app, last_snoc. by intros [_ []].
Qed.

(** Pointwise criterion, used for the links [__init__] builds. *)
Lemma seg_intro q a l b :
  (∀ i x y, (a :: l ++ [b]) !! i = Some x → (a :: l ++ [b]) !! S i = Some y → linked q x y) →
  seg q a l b.
Proof.
  revert a. induction l as [|x l IH]; cbn; intros a H.
  - by apply (H 0).
  - split; [by apply (H 0)|]. apply IH. intros i. apply (H (S i)).
Qed.

(** The chaining loop of [prepend_n] and [append_n]. *)
Lemma chain_fold q a bs q' z :
  NoDup (a :: bs) →
  foldl chain_step (a, q) bs = (z, q') →
  z = default a (last bs) ∧ num_free_blocks q' = num_free_blocks q ∧
  (∀ x, x ∉ bs → prev_free_block q' !! x = prev_free_block q !! x) ∧
  (∀ x, x ∉ a :: bs → next_free_block q' !! x = next_free_block q !! x) ∧
  (∀ l x, bs = l ++ [x] → seg q' a l x).
Proof.
  revert a q. induction bs as [|b bs IH]; cbn; intros a q Hnd Hf.
  { injection Hf as <- <-. split_and!; try done. by intros [] ?. }
  apply NoDup_cons in Hnd as [Ha Hnd].
  apply IH in Hf as (Hz & Hnum & Hp & Hn & Hs); [|done].
  split_and!.
  - rewrite Hz. by destruct (last bs) eqn:E; rewrite ?last_cons, E.
  - done.
  - intros x Hx. rewrite Hp by set_solver. cbn. rewrite lookup_insert_ne; set_solver.
  - intros x Hx. rewrite Hn by set_solver. cbn. rewrite lookup_insert_ne; set_solver.
  - intros l x Hl. assert (linked q' a b) as Hab.
    { apply NoDup_cons in Hnd as [Hb _]. split.
      - rewrite Hn by set_solver. cbn. by rewrite lookup_insert_eq.
      - rewrite Hp by done. cbn. by rewrite lookup_insert_eq. }
    destruct l as [|y l]; simplify_eq/=; [done|].
    split; [done|]. by apply Hs.
Qed.

(** Re-hooking a segment at its left or right end. *)
Lemma seg_rehook_start q q' a a' l b :
  NoDup (b :: l) → seg q a l b →
  next_free_block q' !! a' = Some (default b (head l)) →
  prev_free_block q' !! default b (head l) = Some a' →
  (∀ x, x ∈ l → next_free_block q' !! x = next_free_block q !! x) →
  (∀ x, x ∈ b :: l → x ≠ default b (head l) →
     prev_free_block q' !! x = prev_free_block q !! x) →
  seg q' a' l b.
Proof.
  intros Hnd Hs Hn Hp Hns Hps. destruct l as [|x l]; [by split|].
  destruct Hs as [_ Hs]. split; [by split|].
  apply (seg_frame q); [|intros y Hy; apply Hps|done].
  - intros; apply Hns; set_solver.
  - set_solver.
  - cbn. intros ->. rewrite !NoDup_cons in Hnd. set_solver.
Qed.

Lemma seg_rehook_end q q' a l b b' :
  NoDup (a :: l) → seg q a l b →
  next_free_block q' !! default a (last l) = Some b' →
  prev_free_block q' !! b' = Some (default a (last l)) →
  (∀ x, x ∈ l → prev_free_block q' !! x = prev_free_block q !! x) →
  (∀ x, x ∈ a :: l → x ≠ default a (last l) →
     next_free_block q' !! x = next_free_block q !! x) →
  seg q' a l b'.
Proof.
  intros Hnd Hs Hn Hp Hps Hns. destruct l as [|x l _] using rev_ind; [by split|].
  rewrite last_snoc in *; cbn in *. apply seg_app in Hs as [Hs _].
  apply seg_app. split; [|by split].
  rewrite app_comm_cons in Hnd. apply NoDup_app in Hnd as (_ & Hd & _).
  apply (seg_frame q); [| |done].
  - intros y Hy. apply Hns; [set_solver|]. intros ->. apply (Hd x); set_solver.
  - intros; apply Hps; set_solver.
Qed.

(** The forward links alone, which is what the loops follow. *)
Lemma seg_forward q a l1 x l2 b :
  seg q a (l1 ++ x :: l2) b → next_free_block q !! x = Some (default b (head l2)).
Proof. intros [_ Hs]%seg_app. by apply seg_next in Hs. Qed.

Lemma popleft_loop_spec q0 q a dn l1 l2 b ret :
  seg q0 a (dn ++ l1 ++ l2) b → NoDup (dn ++ l1 ++ l2) →
  (∀ x, x ∉ dn → next_free_block q !! x = next_free_block q0 !! x) →
  ∃ q', popleft_loop (length l1) (Some (default b (head (l1 ++ l2)))) ret q
        = Ok (ret ++ l1, Some (default b (head l2)), q') ∧
    num_free_blocks q' = num_free_blocks q ∧
    (∀ x, prev_free_block q' !! x
          = if decide (x ∈ l1) then None else prev_free_block q !! x) ∧
    (∀ x, next_free_block q' !! x
          = if decide (x ∈ l1) then None else next_free_block q !! x).
Proof.
  revert dn q ret. induction l1 as [|x l1 IH]; cbn; intros dn q ret Hs Hnd Hq.
  { exists q. rewrite app_nil_r. split_and!; try done;
      intros x; by rewrite decide_False by set_solver. }
  assert (x ∉ dn) as Hx by (apply NoDup_app in Hnd; set_solver).
  assert (x ∉ l1) as Hx1.
  { apply NoDup_app in Hnd as (_ & _ & Hnd). apply NoDup_cons in Hnd. set_solver. }
  rewrite Hq, (seg_forward _ _ _ _ _ _ Hs) by done.
  destruct (IH (dn ++ [x]) (clear_links x q) (ret ++ [x])) as (q' & -> & Hnum & Hp & Hn).
  - by rewrite <- app_assoc.
  - by rewrite <- app_assoc.
  - intros y Hy. cbn. rewrite lookup_delete_ne by set_solver. apply Hq. set_solver.
  - exists q'. rewrite <- app_assoc. split_and!; try done; intros y.
    + rewrite Hp. cbn. destruct (decide (y = x)) as [->|].
      * by rewrite decide_False, decide_True, lookup_delete_eq by set_solver.
      * rewrite lookup_delete_ne by done. repeat case_decide; set_solver.
    + rewrite Hn. cbn. destruct (decide (y = x)) as [->|].
      * by rewrite decide_False, decide_True, lookup_delete_eq by set_solver.
      * rewrite lookup_delete_ne by done. repeat case_decide; set_solver.
Qed.
End seg.

(** ** The operations on the represented deque *)

Lemma refs_nodup (l : list nat) : NoDup l → NoDup (Blk <$> l).
Proof. by apply NoDup_fmap_2, _. Qed.
Lemma refs_nodup_head l : NoDup l → NoDup (FakeHead :: (Blk <$> l)).
Proof. intros. apply NoDup_cons. split; [set_solver|by apply refs_nodup]. Qed.
Lemma refs_nodup_tail l : NoDup l → NoDup (FakeTail :: (Blk <$> l)).
Proof. intros. apply NoDup_cons. split; [set_solver|by apply refs_nodup]. Qed.
#[local] Hint Resolve refs_nodup refs_nodup_head refs_nodup_tail : core.

(** Two references differ: by assumption, or because one of them lies in a
    list the other is known not to be in. *)
Ltac ref_neq :=
  first [ congruence
        | let E := fresh in intros E; subst; congruence
        | match goal with
          | H : ?x ∉ _, H' : ?y ∈ _ |- ?x ≠ ?y => intros ->; clear - H H'; set_solver
          | H : ?x ∉ _, H' : ?y ∈ _ |- ?y ≠ ?x => intros ->; clear - H H'; set_solver
          | H' : ?y ∈ _ |- Blk ?i ≠ ?y =>
              match goal with H : i ∉ _ |- _ => intros <-; clear - H H'; set_solver end
          | H' : ?y ∈ _ |- _ ≠ ?y => intros <-; clear - H'; set_solver
          | H' : ?y ∈ _ |- ?y ≠ _ => intros ->; clear - H'; set_solver
          end ].

(** Evaluate an attribute read after some assignments. *)
Ltac links :=
  cbn; repeat first
    [ rewrite lookup_insert_eq | rewrite lookup_delete_eq
    | rewrite lookup_insert_ne by ref_neq
    | rewrite lookup_delete_ne by ref_neq ].

Lemma head_ref (l : list nat) :
  default FakeTail (head (Blk <$> l)) = match l with [] => FakeTail | x :: _ => Blk x end.
Proof. by destruct l. Qed.
Lemma last_ref (l : list nat) (x : nat) : default FakeHead (last (Blk <$> (l ++ [x]))) = Blk x.
Proof. rewrite fmap_app. change (Blk <$> [x]) with [Blk x]. by rewrite last_snoc. Qed.

Lemma popleft_spec q i l :
  queue_rep q (i :: l) → ∃ q', popleft q = Ok (Blk i, q') ∧ queue_rep q' l.
Proof.
  intros [Hs Hnum Hnd Hh Ht Ho]. cbn in Hs. destruct Hs as [[Hn Hp] Hs].
  pose proof (seg_next _ _ _ _ Hs) as Hs'. apply NoDup_cons in Hnd as [Hi Hnd].
  unfold popleft. rewrite Hn, Hs'. eexists; split; [reflexivity|].
  set (s := default FakeTail (head (Blk <$> l))) in *.
  assert (s ≠ Blk i) as Hsi by (subst s; rewrite head_ref; destruct l; set_solver).
  assert (s ≠ FakeHead) as Hsh by (subst s; rewrite head_ref; by destruct l).
  constructor.
  - apply (seg_rehook_start q _ (Blk i)); auto; fold s; links; try done.
    + intros x Hx. links. done.
    + intros x Hx Hxs. links. done.
  - cbn in *. lia.
  - done.
  - by links.
  - by links.
  - intros j Hj. destruct (decide (j = i)) as [->|]; [by links|].
    assert (s ≠ Blk j) by (subst s; rewrite head_ref; destruct l; set_solver).
    links. apply Ho. set_solver.
Qed.

Lemma popleft_empty q : queue_rep q [] → popleft q = Raise ValueError.
Proof.
  intros [[Hn _] Hnum _ _ _ _]. unfold popleft. rewrite Hn, Hnum. done.
Qed.

Lemma popleft_n_spec q l1 l2 :
  queue_rep q (l1 ++ l2) →
  ∃ q', popleft_n (zlen l1) q = Ok (Blk <$> l1, q') ∧ queue_rep q' l2.
Proof.
  intros H. unfold popleft_n. destruct (Z.eqb_spec (zlen l1) 0) as [E|E].
  { destruct l1; [|cbn in E; lia]. by exists q. }
  destruct H as [Hs Hnum Hnd Hh Ht Ho]. rewrite length_app in Hnum.
  rewrite (proj2 (Z.leb_le _ _)) by lia. cbn [require mbind result_bind]. cbv zeta.
  change (next_free_block (add_free (- zlen l1) q)) with (next_free_block q).
  rewrite fmap_app in Hs.
  rewrite (seg_next _ _ _ _ Hs), Nat2Z.id.
  destruct (popleft_loop_spec q (add_free (- zlen l1) q) FakeHead [] (Blk <$> l1) (Blk <$> l2)
              FakeTail []) as (q1 & Hloop & Hnum1 & Hp1 & Hn1); cbn; try done.
  { rewrite <- fmap_app. auto. }
  rewrite length_fmap in Hloop. rewrite Hloop. cbn. eexists; split; [reflexivity|].
  set (s := default FakeTail (head (Blk <$> l2))) in *.
  pose proof (proj1 (NoDup_app _ _) Hnd) as (_ & Hd & Hnd2).
  assert (s ∉ Blk <$> l1) as Hsl by (subst s; rewrite head_ref; destruct l2; set_solver).
  assert (s ≠ FakeHead) as Hsh by (subst s; rewrite head_ref; by destruct l2).
  assert (∃ a, seg q a (Blk <$> l2) FakeTail) as [a Hs2].
  { destruct l1 as [|x l1 _] using rev_ind; [done|].
    rewrite fmap_app, <- app_assoc in Hs. apply seg_app in Hs as [_ Hs]. eauto. }
  constructor.
  - apply (seg_rehook_start q _ a); auto; fold s; links; try done.
    + intros x Hx. links. rewrite Hn1, decide_False by set_solver. done.
    + intros x Hx Hxs. links. rewrite Hp1, decide_False by set_solver. done.
  - cbn. rewrite Hnum1. cbn. lia.
  - done.
  - links. rewrite Hp1, decide_False by set_solver. done.
  - links. rewrite Hn1, decide_False by set_solver. done.
  - intros j Hj. assert (s ≠ Blk j) as Hsj by (subst s; rewrite head_ref; destruct l2; set_solver).
    links. rewrite Hp1, Hn1. case_decide; [done|].
    apply Ho. set_solver.
Qed.

Lemma popleft_n_short q l (n : Z) :
  queue_rep q l → (n > zlen l)%Z → popleft_n n q = Raise AssertionError.
Proof.
  intros H Hn. unfold popleft_n. rewrite (rep_num _ _ H).
  destruct (Z.eqb_spec n 0); [lia|]. by rewrite (proj2 (Z.leb_gt _ _)) by lia.
Qed.

Lemma remove_spec q l1 i l2 :
  queue_rep q (l1 ++ i :: l2) →
  ∃ q', remove (Blk i) q = Ok q' ∧ queue_rep q' (l1 ++ l2).
Proof.
  intros [Hs Hnum Hnd Hh Ht Ho]. rewrite fmap_app in Hs. cbn in Hs.
  apply seg_app in Hs as [Hs1 Hs2].
  pose proof (seg_prev _ _ _ _ Hs1) as Hp. pose proof (seg_next _ _ _ _ Hs2) as Hn.
  unfold remove. rewrite Hp, Hn. eexists; split; [reflexivity|].
  apply NoDup_app in Hnd as (Hnd1 & Hd & [Hi Hnd2]%NoDup_cons).
  set (s := default FakeTail (head (Blk <$> l2))) in *.
  set (p := default FakeHead (last (Blk <$> l1))) in *.
  assert (s ∉ Blk i :: FakeHead :: (Blk <$> l1)) as Hs'.
  { subst s. rewrite head_ref. destruct l2; set_solver. }
  assert (p ∈ FakeHead :: (Blk <$> l1)) as Hp'.
  { subst p. destruct l1 as [|y l1 _] using rev_ind; [set_solver|]. rewrite last_ref. set_solver. }
  assert (p ∉ Blk i :: FakeTail :: (Blk <$> l2)) as Hp''.
  { subst p. destruct l1 as [|y l1 _] using rev_ind; [set_solver|].
    rewrite last_ref. clear - Hd. set_solver. }
  assert (s ≠ Blk i ∧ s ≠ FakeHead) as [Hsi Hsh] by (clear - Hs'; set_solver).
  assert (p ≠ Blk i ∧ p ≠ FakeTail) as [Hpi Hpt] by (clear - Hp''; set_solver).
  assert (i ∉ l1) as Hi1 by (clear - Hd; set_solver).
  constructor.
  - rewrite fmap_app.
    assert (seg (add_free (-1) (clear_links (Blk i) (set_prev s p (set_next p s q))))
              FakeHead (Blk <$> l1) s) as Hseg.
    { apply (seg_rehook_end q _ _ _ (Blk i)); auto; fold p; links; try done.
      - intros x Hx. links. done.
      - intros x Hx Hxp. links. done. }
    destruct l2 as [|y l2]; cbn in *; [by rewrite app_nil_r|].
    apply seg_app. split; [done|]. destruct Hs2 as [_ Hs2].
    apply NoDup_cons in Hnd2 as [? ?].
    apply (seg_frame q); [| |done]; intros x Hx; by links.
  - cbn. rewrite Hnum, !length_app. cbn. lia.
  - apply NoDup_app. set_solver.
  - by links.
  - by links.
  - intros j Hj. destruct (decide (j = i)) as [->|Hji]; [by links|].
    assert (s ≠ Blk j) by (subst s; rewrite head_ref; destruct l2; set_solver).
    assert (p ≠ Blk j) by (intros ->; set_solver).
    links. apply Ho. set_solver.
Qed.

Lemma remove_absent q l i :
  queue_rep q l → i ∉ l → remove (Blk i) q = Raise RuntimeError.
Proof. intros H Hi. unfold remove. by rewrite (proj1 (rep_out _ _ H i Hi)). Qed.

Lemma append_n_spec q l bs :
  queue_rep q l → NoDup (l ++ bs) →
  ∃ q', append_n (Blk <$> bs) q = Ok q' ∧ queue_rep q' (l ++ bs).
Proof.
  intros [Hs Hnum _ Hh Ht Ho] Hnd. unfold append_n. rewrite length_fmap.
  destruct bs as [|y bs _] using rev_ind.
  { exists q. rewrite app_nil_r. split; [done|]. constructor; auto. by rewrite app_nil_r in Hnd. }
  rewrite decide_False by (rewrite length_app; cbn; lia).
  rewrite (seg_prev _ _ _ _ Hs). cbn [of_option mbind result_bind]. cbv zeta.
  set (a := default FakeHead (last (Blk <$> l))).
  pose proof (proj1 (NoDup_app _ _) Hnd) as (Hnd1 & Hd & Hnd2).
  assert (a ∉ FakeTail :: (Blk <$> bs ++ [y])) as Ha.
  { subst a. destruct l as [|x l _] using rev_ind; [set_solver|]. rewrite last_ref.
    clear - Hd. set_solver. }
  destruct (foldl chain_step (a, q) (Blk <$> bs ++ [y])) as [z q1] eqn:Hf.
  apply chain_fold in Hf as (Hz & Hnum1 & Hp1 & Hn1 & Hs1).
  2: { apply NoDup_cons. split; [set_solver|by apply refs_nodup]. }
  rewrite fmap_app in Hz. change (Blk <$> [y]) with [Blk y] in Hz. rewrite last_snoc in Hz.
  cbn in Hz. subst z. specialize (Hs1 (Blk <$> bs) (Blk y) ltac:(by rewrite fmap_app)).
  eexists; split; [reflexivity|].
  set (q2 := add_free _ _).
  assert (y ∉ l ∧ y ∉ bs) as [Hyl Hyb].
  { apply NoDup_app in Hnd2 as (_ & Hd2 & _). clear - Hd Hd2. set_solver. }
  assert (a ≠ FakeTail ∧ a ≠ Blk y) as [Hat Hay] by (clear - Ha; set_solver).
  assert (seg q2 a (Blk <$> bs) (Blk y)) as Hs2.
  { apply (seg_frame q1); [| |done]; intros x Hx; [|by links].
    assert (Blk y ≠ x) by (clear - Hx Hay Hyb; set_solver). by links. }
  constructor.
  - assert (linked q2 (Blk y) FakeTail) as Hyt by (split; by links).
    destruct l as [|x l _] using rev_ind.
    { rewrite app_nil_l, fmap_app. apply seg_app. by split. }
    assert (a = Blk x) as Eax by (subst a; apply last_ref). rewrite Eax in *.
    rewrite !fmap_app, <- app_assoc. apply seg_app. rewrite fmap_app in Hs.
    apply seg_app in Hs as [Hs _]. split.
    + apply NoDup_app in Hnd1 as (_ & Hdx & _).
      apply (seg_frame q); [| |done]; intros z Hz.
      * assert (z ∉ Blk x :: (Blk <$> bs ++ [y])) by (clear - Hz Hd Hdx; set_solver).
        links. apply Hn1. done.
      * assert (z ∉ Blk <$> bs ++ [y]) by (clear - Hz Hd Hdx; set_solver).
        links. by apply Hp1.
    + apply seg_app. by split.
  - cbn. rewrite Hnum1, Hnum, !length_app. cbn. lia.
  - done.
  - links. rewrite Hp1; [done|clear; set_solver].
  - assert (FakeTail ≠ a) by done. links. rewrite Hn1; [done|]. clear - Hat. set_solver.
  - intros j Hj. assert (Blk j ∉ Blk <$> bs ++ [y]) by (clear - Hj; set_solver).
    assert (Blk j ∉ a :: (Blk <$> bs ++ [y])) as Hja.
    { subst a. destruct l as [|x l _] using rev_ind; [clear - Hj; set_solver|].
      rewrite last_ref. clear - Hj. set_solver. }
    assert (Blk y ≠ Blk j) by (clear - Hj; set_solver).
    links. rewrite Hp1, Hn1 by done. apply Ho. clear - Hj. set_solver.
Qed.

Lemma append_spec q l i :
  queue_rep q l → i ∉ l → ∃ q', append (Blk i) q = Ok q' ∧ queue_rep q' (l ++ [i]).
Proof.
  intros H Hi. destruct (append_n_spec q l [i] H) as (q' & Hq & Hrep).
  { apply NoDup_app. split_and!; [apply H|set_solver|apply NoDup_singleton]. }
  exists q'. split; [|done]. revert Hq. unfold append, append_n. cbn.
  by rewrite (seg_prev _ _ _ _ (rep_seg _ _ H)).
Qed.

Lemma prepend_n_spec q l bs :
  queue_rep q l → NoDup (bs ++ l) →
  ∃ q', prepend_n (Blk <$> bs) q = Ok q' ∧ queue_rep q' (bs ++ l).
Proof.
  intros [Hs Hnum _ Hh Ht Ho] Hnd. unfold prepend_n. rewrite length_fmap.
  destruct bs as [|y bs _] using rev_ind.
  { exists q. split; [done|]. constructor; auto. }
  rewrite decide_False by (rewrite length_app; cbn; lia).
  rewrite (seg_next _ _ _ _ Hs). cbn [of_option mbind result_bind]. cbv zeta.
  set (f := default FakeTail (head (Blk <$> l))).
  pose proof (proj1 (NoDup_app _ _) Hnd) as (Hnd1 & Hd & Hnd2).
  assert (f ∉ FakeHead :: (Blk <$> bs ++ [y])) as Hfn.
  { subst f. rewrite head_ref. clear - Hd. destruct l; set_solver. }
  destruct (foldl chain_step (FakeHead, q) (Blk <$> bs ++ [y])) as [z q1] eqn:Hf.
  apply chain_fold in Hf as (Hz & Hnum1 & Hp1 & Hn1 & Hs1); [|by apply refs_nodup_head].
  rewrite fmap_app in Hz. change (Blk <$> [y]) with [Blk y] in Hz. rewrite last_snoc in Hz.
  cbn in Hz. subst z. specialize (Hs1 (Blk <$> bs) (Blk y) ltac:(by rewrite fmap_app)).
  eexists; split; [reflexivity|].
  set (q2 := add_free _ _).
  assert (y ∉ l ∧ y ∉ bs) as [Hyl Hyb].
  { apply NoDup_app in Hnd1 as (_ & Hd2 & _). clear - Hd Hd2. set_solver. }
  assert (f ≠ FakeHead ∧ f ≠ Blk y) as [Hfh Hfy] by (clear - Hfn; set_solver).
  assert (seg q2 FakeHead (Blk <$> bs) (Blk y)) as Hs2.
  { assert (∀ x, x ∈ Blk y :: (Blk <$> bs) → f ≠ x).
    { intros x Hx ->. clear - Hfn Hx. set_solver. }
    apply (seg_frame q1); [| |done]; intros x Hx; [by links|].
    cbn. rewrite lookup_insert_ne; [done|auto]. }
  constructor.
  - rewrite !fmap_app, <- app_assoc. apply seg_app. split; [done|].
    apply (seg_rehook_start q _ FakeHead); auto.
    + fold f. by links.
    + fold f. by links.
    + intros x Hx. assert (x ∉ FakeHead :: (Blk <$> bs ++ [y])) by (clear - Hx Hd; set_solver).
      assert (Blk y ≠ x) by (clear - Hx Hyl; set_solver).
      cbn. rewrite lookup_insert_ne by done. by apply Hn1.
    + intros x Hx Hxf. fold f in Hxf.
      cbn. rewrite lookup_insert_ne by done. apply Hp1. clear - Hx Hd. set_solver.
  - cbn. rewrite Hnum1, Hnum, !length_app. cbn. lia.
  - done.
  - links. rewrite Hp1; [done|clear; set_solver].
  - links. rewrite Hn1; [done|clear; set_solver].
  - intros j Hj. assert (Blk j ∉ FakeHead :: (Blk <$> bs ++ [y])) by (clear - Hj; set_solver).
    assert (f ≠ Blk j) by (subst f; rewrite head_ref; clear - Hj; destruct l; set_solver).
    assert (Blk y ≠ Blk j) by (clear - Hj; set_solver).
    links. rewrite Hp1, Hn1 by set_solver. apply Ho. clear - Hj. set_solver.
Qed.

Lemma walk_spec q a l b fuel ret :
  seg q a l b → next_free_block q !! b = None → length l < fuel →
  walk fuel q (default b (head l)) ret = Ok (ret ++ l).
Proof.
  revert a fuel ret. induction l as [|x l IH]; intros a [|fuel] ret Hs Hb Hf; try (cbn in Hf; lia).
  - cbn. by rewrite Hb, app_nil_r.
  - destruct Hs as [_ Hs]. cbn. rewrite (seg_next _ _ _ _ Hs).
    rewrite (IH x) by (done || cbn in Hf; lia). by rewrite <- app_assoc.
Qed.

Lemma get_all_free_blocks_spec q l fuel :
  queue_rep q l → length l < fuel →
  get_all_free_blocks fuel q = Ok (Blk <$> l).
Proof.
  intros H Hf. unfold get_all_free_blocks. rewrite (seg_next _ _ _ _ (rep_seg _ _ H)). cbn.
  rewrite (walk_spec q FakeHead (Blk <$> l) FakeTail); [done|apply H|apply H|by rewrite length_fmap].
Qed.

(** The links after the first [k] iterations of the [__init__] loop. *)
Lemma init_links blocks k :
  NoDup blocks → k ≤ length blocks →
  let q := foldl (init_link blocks) (mkQueue (zlen blocks) ∅ ∅) (seq 0 k) in
  num_free_blocks q = zlen blocks ∧
  (∀ r, r ∉ Blk <$> blocks → prev_free_block q !! r = None ∧ next_free_block q !! r = None) ∧
  (∀ j x, blocks !! j = Some x →
     prev_free_block q !! Blk x
     = (if decide (0 < j < k) then Some (Blk (blocks !!! (j - 1))) else None) ∧
     next_free_block q !! Blk x
     = (if decide (j < k ∧ j < length blocks - 1) then Some (Blk (blocks !!! (j + 1))) else None)).
Proof.
  intros Hnd. induction k as [|k IH]; intros Hk.
  { cbn. split_and!; [done|done|]. intros j x _. rewrite !decide_False by lia. done. }
  rewrite seq_S, foldl_app. destruct IH as (Hnum & Hout & Hin); [lia|].
  set (q := foldl _ _ _) in *. cbn. unfold init_link.
  destruct (lookup_lt_is_Some_2 blocks k) as [y Hy]; [lia|].
  rewrite (list_lookup_total_correct _ _ _ Hy).
  assert (y ∈ blocks) as Hyb by (by eapply list_elem_of_lookup_2).
  split_and!.
  - by repeat case_decide.
  - intros r Hr. assert (Blk y ≠ r) by (clear - Hr Hyb; set_solver).
    repeat case_decide; cbn; rewrite ?lookup_insert_ne by done; by apply Hout.
  - intros j x Hj. destruct (Hin j x Hj) as [Hp Hn].
    destruct (decide (j = k)) as [->|Hjk].
    + simplify_eq. repeat case_decide; cbn; rewrite ?lookup_insert_eq; try lia; auto.
    + assert (Blk y ≠ Blk x) as Hne.
      { intros [= ->]. apply Hjk. by eapply NoDup_lookup. }
      repeat case_decide; cbn; rewrite ?lookup_insert_ne by done; try lia; auto.
Qed.

Lemma init_spec blocks : NoDup blocks → queue_rep (init blocks) blocks.
Proof.
  intros Hnd. destruct (init_links blocks (length blocks) Hnd) as (Hnum & Hout & Hin); [done|].
  unfold init. set (q := foldl _ _ _) in *.
  destruct (decide (0 < length blocks)) as [Hpos|Hz].
  2: { destruct blocks; [|cbn in Hz; lia]. by constructor. }
  destruct (lookup_lt_is_Some_2 blocks 0 Hpos) as [f Hf].
  destruct (lookup_lt_is_Some_2 blocks (length blocks - 1) ltac:(lia)) as [z Hz].
  rewrite (list_lookup_total_correct _ _ _ Hf), (list_lookup_total_correct _ _ _ Hz).
  assert (f ∈ blocks) as Hfb by (by eapply list_elem_of_lookup_2).
  assert (z ∈ blocks) as Hzb by (by eapply list_elem_of_lookup_2).
  constructor.
  - apply seg_intro. intros [|i] x y; cbn.
    + intros [= <-]. destruct blocks as [|b bs]; [cbn in Hpos; lia|]. cbn in *.
      intros [= <-]. simplify_eq. split; by links.
    + intros Hx Hy. change (((Blk <$> blocks) ++ [FakeTail]) !! i = Some x) in Hx.
      apply lookup_snoc_Some in Hy as [[Hi Hy]|[Hi <-]]; rewrite length_fmap in Hi.
      * rewrite lookup_app_l in Hx by (rewrite length_fmap; lia).
        rewrite list_lookup_fmap in Hx, Hy.
        destruct (blocks !! i) as [bi|] eqn:Ei; [injection Hx as <-|done].
        destruct (blocks !! S i) as [bj|] eqn:Ej; [injection Hy as <-|done].
        destruct (Hin _ _ Ei) as [_ Hn]. destruct (Hin _ _ Ej) as [Hp _].
        assert (z ≠ bi) by (intros ->; assert (i = length blocks - 1) by (by eapply NoDup_lookup); lia).
        assert (f ≠ bj) by (intros ->; assert (S i = 0) by (by eapply NoDup_lookup); lia).
        rewrite decide_True in Hn by lia. rewrite decide_True in Hp by lia.
        rewrite Nat.add_1_r, (list_lookup_total_correct _ _ _ Ej) in Hn.
        rewrite Nat.sub_succ, Nat.sub_0_r, (list_lookup_total_correct _ _ _ Ei) in Hp.
        split; by links.
      * rewrite lookup_app_l, list_lookup_fmap in Hx by (rewrite length_fmap; lia).
        replace (length blocks - 1) with i in Hz by lia. rewrite Hz in Hx.
        injection Hx as <-. split; by links.
  - cbn. apply Hnum.
  - done.
  - links. apply Hout. clear; set_solver.
  - links. apply Hout. clear; set_solver.
  - intros j Hj. assert (f ≠ j ∧ z ≠ j) as [? ?] by (clear - Hj Hfb Hzb; set_solver).
    links. apply Hout. clear - Hj. set_solver.
Qed.

(** C39: the linked free list implements a deque.  [__init__] builds the deque
    of its argument; and on a heap that represents [l]: [popleft] removes and
    returns the head of [l] and raises [ValueError] exactly on the empty
    queue; [popleft_n] removes and returns a prefix of any available length
    and fails its assertion on a longer one; [remove] unlinks a block from any
    position and raises [RuntimeError] on a block that is not in the queue;
    [append], [append_n] and [prepend_n] add fresh blocks at the tail and at
    the head in the given order; [num_free_blocks] is the length of [l]; and
    the traversal of [get_all_free_blocks] returns [l] after [len(l) + 1]
    steps. *)
Theorem free_queue_refines_deque :
  (∀ blocks, NoDup blocks → queue_rep (init blocks) blocks) ∧
  ∀ q l, queue_rep q l →
    num_free_blocks q = zlen l ∧
    (∀ i l', l = i :: l' → ∃ q', popleft q = Ok (Blk i, q') ∧ queue_rep q' l') ∧
    (l = [] → popleft q = Raise ValueError) ∧
    (∀ l1 l2, l = l1 ++ l2 →
       ∃ q', popleft_n (zlen l1) q = Ok (Blk <$> l1, q') ∧ queue_rep q' l2) ∧
    (∀ n, (n > zlen l)%Z → popleft_n n q = Raise AssertionError) ∧
    (∀ l1 i l2, l = l1 ++ i :: l2 → ∃ q', remove (Blk i) q = Ok q' ∧ queue_rep q' (l1 ++ l2)) ∧
    (∀ i, i ∉ l → remove (Blk i) q = Raise RuntimeError) ∧
    (∀ i, i ∉ l → ∃ q', append (Blk i) q = Ok q' ∧ queue_rep q' (l ++ [i])) ∧
    (∀ bs, NoDup (l ++ bs) → ∃ q', append_n (Blk <$> bs) q = Ok q' ∧ queue_rep q' (l ++ bs)) ∧
    (∀ bs, NoDup (bs ++ l) → ∃ q', prepend_n (Blk <$> bs) q = Ok q' ∧ queue_rep q' (bs ++ l)) ∧
    (∀ fuel, length l < fuel → get_all_free_blocks fuel q = Ok (Blk <$> l)).
Proof.
  split; [apply init_spec|]. intros q l H. split_and!.
  - apply H.
  - intros i l' ->. by apply popleft_spec.
  - intros ->. by apply popleft_empty.
  - intros l1 l2 ->. by apply popleft_n_spec.
  - intros n. by apply popleft_n_short.
  - intros l1 i l2 ->. by apply remove_spec.
  - intros i. by eapply remove_absent.
  - intros i. by apply append_spec.
  - intros bs. by apply append_n_spec.
  - intros bs. by apply prepend_n_spec.
  - intros fuel. by apply get_all_free_blocks_spec.
Qed.

Lemma free_queue_refines_deque_witness :
  ∃ q', popleft_n 2 (init [4; 7; 5]) = Ok ([Blk 4; Blk 7], q') ∧ queue_rep q' [5].
Proof.
  destruct free_queue_refines_deque as [Hinit H].
  refine (proj1 (proj2 (proj2 (proj2 (H (init [4; 7; 5]) [4; 7; 5] _)))) [4; 7] [5] eq_refl).
  apply Hinit. repeat constructor; set_solver.
Defined.

End FreeQueue.

(** ** The interface the block pool relies on *)

Class FreeQueueOps (Q : Type) := {
  fq_init : list nat → Q;
  fq_num_free : Q → Z;
  fq_popleft : Q → result (nat * Q);
  fq_popleft_n : Z → Q → result (list nat * Q);
  fq_remove : nat → Q → result Q;
  fq_append_n : list nat → Q → result Q;
  fq_prepend_n : list nat → Q → result Q;
}.

Class FreeQueueSpec (Q : Type) `{!FreeQueueOps Q} := {
  fq_rep : Q → list nat → Prop;
  fq_rep_num q l : fq_rep q l → fq_num_free q = zlen l;
  fq_rep_nodup q l : fq_rep q l → NoDup l;
  fq_init_rep l : NoDup l → fq_rep (fq_init l) l;
  fq_popleft_rep q i l :
    fq_rep q (i :: l) → ∃ q', fq_popleft q = Ok (i, q') ∧ fq_rep q' l;
  fq_popleft_n_rep q l1 l2 :
    fq_rep q (l1 ++ l2) → ∃ q', fq_popleft_n (zlen l1) q = Ok (l1, q') ∧ fq_rep q' l2;
  fq_remove_rep q l1 i l2 :
    fq_rep q (l1 ++ i :: l2) → ∃ q', fq_remove i q = Ok q' ∧ fq_rep q' (l1 ++ l2);
  fq_append_n_rep q l bs :
    fq_rep q l → NoDup (l ++ bs) → ∃ q', fq_append_n bs q = Ok q' ∧ fq_rep q' (l ++ bs);
  fq_prepend_n_rep q l bs :
    fq_rep q l → NoDup (bs ++ l) → ∃ q', fq_prepend_n bs q = Ok q' ∧ fq_rep q' (bs ++ l);
}.

(** Real blocks carry their id; the sentinels are never handed out. *)
Definition ref_id (r : ref) : result nat :=
  match r with Blk i => Ok i | _ => Raise RuntimeError end.

Lemma mapR_ref_id (l : list nat) : mapR ref_id (Blk <$> l) = Ok l.
Proof. induction l as [|i l IH]; cbn; [done|]. by rewrite IH. Qed.

#[export] Instance linked_queue_ops : FreeQueueOps FreeKVCacheBlockQueue := {
  fq_init := FreeQueue.init;
  fq_num_free := num_free_blocks;
  fq_popleft q := '(r, q') ← FreeQueue.popleft q; i ← ref_id r; Ok (i, q');
  fq_popleft_n n q := '(rs, q') ← FreeQueue.popleft_n n q; l ← mapR ref_id rs; Ok (l, q');
  fq_remove i q := FreeQueue.remove (Blk i) q;
  fq_append_n bs q := FreeQueue.append_n (Blk <$> bs) q;
  fq_prepend_n bs q := FreeQueue.prepend_n (Blk <$> bs) q;
}.

#[export] Program Instance linked_queue_spec : FreeQueueSpec FreeKVCacheBlockQueue := {
  fq_rep := FreeQueue.queue_rep
}.
Next Obligation. apply FreeQueue.rep_num. Qed.
Next Obligation. apply FreeQueue.rep_nodup. Qed.
Next Obligation. apply FreeQueue.init_spec. Qed.
Next Obligation.
  intros q i l (q' & Hq & H)%FreeQueue.popleft_spec. exists q'. cbn. by rewrite Hq.
Qed.
Next Obligation.
  intros q l1 l2 (q' & Hq & H)%FreeQueue.popleft_n_spec. exists q'. cbn.
  rewrite Hq. cbn. by rewrite mapR_ref_id.
Qed.
Next Obligation. apply FreeQueue.remove_spec. Qed.
Next Obligation. apply FreeQueue.append_n_spec. Qed.
Next Obligation. apply FreeQueue.prepend_n_spec. Qed.
