(* ===== verification/Request.v ===== *)
(** * Requests and their status ([vllm/v1/request.py])

    The data of a request as the scheduler core sees it, the operations of the
    class [Request], the status enumeration, and the order used by priority
    scheduling.

    Correspondence: [bytes] is a list of bytes; a token id, a count and a
    timestamp are integers ([arrival_time] is only ever compared);
    [prompt_embeds] is the list of the tensor's rows, each as its raw bytes;
    [py_id] is the value of Python's [id(...)], the last tie-break of
    [__lt__]; [has_structured_output] is [structured_output_request is not
    None].  The block hasher is a closure over the request in the source; it
    is an argument of the operations that call it. *)

From S2P Require Import Prelude.
From Stdlib Require Strings.Byte.

Abbreviation bytes := (list Byte.byte).

#[export] Instance byte_eq_dec : EqDecision Byte.byte := Strings.Byte.byte_eq_dec.
#[export] Instance byte_countable : Countable Byte.byte.
Proof.
  refine (inj_countable Byte.to_N Byte.of_N _). apply Byte.of_to_N.
Defined.

(** ** Multi-modal inputs ([vllm/multimodal/inputs.py]) *)

Record PlaceholderRange := mkRange {
  offset : Z;
  length_ : Z;
  is_embed : option (list bool);
}.

(** [is_embed.cumsum(dim=0).tolist()] *)
Fixpoint cumsum (acc : Z) (l : list bool) : list Z :=
  match l with
  | [] => []
  | b :: l => let acc := (acc + if b then 1 else 0)%Z in acc :: cumsum acc l
  end.

Definition embeds_cumsum (p : PlaceholderRange) : option (list Z) :=
  cumsum 0 <$> is_embed p.

Definition get_num_embeds (p : PlaceholderRange) : Z :=
  match embeds_cumsum p with
  | None => length_ p
  | Some l => default 0%Z (last l)
  end.

Definition get_embeds_indices_in_range (p : PlaceholderRange) (start_idx end_idx : Z)
    : result (Z * Z) :=
  match embeds_cumsum p with
  | None => Ok (start_idx, end_idx)
  | Some l =>
      embeds_start_idx ← (if (start_idx >? 0)%Z then py_get l (start_idx - 1) else Ok 0%Z);
      embeds_end_idx ← (if (end_idx >? 0)%Z then py_get l (end_idx - 1) else Ok 0%Z);
      Ok (embeds_start_idx, embeds_end_idx)
  end.

Record MultiModalFeatureSpec := mkFeature {
  identifier : string;
  mm_position : PlaceholderRange;
}.

Record LoRARequest := mkLoRA { lora_name : string; lora_int_id : Z }.

(** The sampling and pooling parameters the modelled code reads. *)
Record RepetitionDetectionParams := mkRepetition {
  max_pattern_size : Z;
  min_pattern_size : Z;
  min_count : Z;
}.

Record SamplingParams := mkSampling {
  sp_max_tokens : option Z;
  sp_min_tokens : Z;
  sp_eos_token_id : option Z;
  sp_stop_token_ids : list Z;
  sp_repetition_detection : option RepetitionDetectionParams;
  sp_skip_reading_prefix_cache : option bool;
}.

Record PoolingParams := mkPooling { pp_skip_reading_prefix_cache : option bool }.

(** ** Status *)

Inductive RequestStatus :=
  | WAITING
  | WAITING_FOR_STRUCTURED_OUTPUT_GRAMMAR
  | WAITING_FOR_REMOTE_KVS
  | WAITING_FOR_STREAMING_REQ
  | RUNNING
  | PREEMPTED
  | FINISHED_STOPPED
  | FINISHED_LENGTH_CAPPED
  | FINISHED_ABORTED
  | FINISHED_IGNORED
  | FINISHED_ERROR
  | FINISHED_REPETITION.

#[export] Instance status_eq_dec : EqDecision RequestStatus.
Proof. solve_decision. Defined.

(** [enum.auto()] numbers the members from 1 in declaration order. *)
Definition status_value (s : RequestStatus) : Z :=
  match s with
  | WAITING => 1 | WAITING_FOR_STRUCTURED_OUTPUT_GRAMMAR => 2
  | WAITING_FOR_REMOTE_KVS => 3 | WAITING_FOR_STREAMING_REQ => 4
  | RUNNING => 5 | PREEMPTED => 6 | FINISHED_STOPPED => 7
  | FINISHED_LENGTH_CAPPED => 8 | FINISHED_ABORTED => 9
  | FINISHED_IGNORED => 10 | FINISHED_ERROR => 11 | FINISHED_REPETITION => 12
  end.

Definition is_finished_status (s : RequestStatus) : bool :=
  (status_value s >? status_value PREEMPTED)%Z.

Inductive FinishReason := STOP | LENGTH | ABORT | ERROR | REPETITION.

(** [_FINISHED_REASON_MAP.get] *)
Definition get_finished_reason_status (s : RequestStatus) : option FinishReason :=
  match s with
  | FINISHED_STOPPED => Some STOP
  | FINISHED_LENGTH_CAPPED => Some LENGTH
  | FINISHED_ABORTED => Some ABORT
  | FINISHED_IGNORED => Some LENGTH
  | FINISHED_ERROR => Some ERROR
  | WAITING_FOR_STREAMING_REQ => Some STOP
  | FINISHED_REPETITION => Some REPETITION
  | _ => None
  end.

Inductive StopReason := StopToken (t : Z) | StopText (s : string).

Record StreamingUpdate := mkUpdate {
  su_mm_features : list MultiModalFeatureSpec;
  su_prompt_token_ids : option (list Z);
  su_max_tokens : Z;
  su_arrival_time : Z;
  su_sampling_params : option SamplingParams;
}.

(** [PrefillStats] ([vllm/v1/metrics/stats.py]) *)
Record PrefillStats := mkPrefillStats {
  ps_num_prompt_tokens : Z;
  ps_num_computed_tokens : Z;
  ps_num_cached_tokens : Z;
  ps_num_local_cached_tokens : Z;
  ps_num_external_cached_tokens : Z;
}.
Definition PrefillStats_init : PrefillStats := mkPrefillStats 0 0 0 0 0.

(** [PrefillStats.set] *)
Definition PrefillStats_set (num_prompt_tokens num_local_cached_tokens num_external_cached_tokens : Z)
    : result PrefillStats :=
  let num_cached_tokens := (num_local_cached_tokens + num_external_cached_tokens)%Z in
  _ ← assert_ (num_cached_tokens <=? num_prompt_tokens)%Z;
  Ok (mkPrefillStats num_prompt_tokens (num_prompt_tokens - num_cached_tokens) num_cached_tokens
        num_local_cached_tokens num_external_cached_tokens).

(** ** The request record *)

Record Request := mkRequest {
  request_id : string;
  client_index : Z;
  priority : Z;
  arrival_time : Z;
  py_id : nat;
  sampling_params : option SamplingParams;
  pooling_params : option PoolingParams;
  lora_request : option LoRARequest;
  has_structured_output : bool;
  status : RequestStatus;
  stop_reason : option StopReason;
  max_tokens : Z;
  prompt_token_ids : option (list Z);
  prompt_embeds : option (list bytes);
  _prompt_embeds_per_block_hashes : gmap (Z * Z) bytes;
  num_prompt_tokens : Z;
  _output_token_ids : list Z;
  _all_token_ids : list Z;
  num_output_placeholders : Z;
  async_tokens_to_discard : Z;
  next_decode_eligible_step : Z;
  last_sched_seq : Z;
  spec_token_ids : list Z;
  num_computed_tokens : Z;
  cache_salt : option string;
  mm_features : list MultiModalFeatureSpec;
  is_prefill_chunk : bool;
  num_preemptions : Z;
  block_hashes : list bytes;
  skip_reading_prefix_cache : bool;
  resumable : bool;
  streaming_queue : option (list (option StreamingUpdate));
  prefill_stats : option PrefillStats;
}.

(** Attribute assignments. *)
Definition with_arrival_time (x : Z) (r : Request) : Request :=
  mkRequest (r.(request_id)) (r.(client_index)) (r.(priority)) x (r.(py_id))
    (r.(sampling_params)) (r.(pooling_params)) (r.(lora_request))
    (r.(has_structured_output)) (r.(status)) (r.(stop_reason)) (r.(max_tokens))
    (r.(prompt_token_ids)) (r.(prompt_embeds)) (r.(_prompt_embeds_per_block_hashes))
    (r.(num_prompt_tokens)) (r.(_output_token_ids)) (r.(_all_token_ids))
    (r.(num_output_placeholders)) (r.(async_tokens_to_discard))
    (r.(next_decode_eligible_step)) (r.(last_sched_seq)) (r.(spec_token_ids))
    (r.(num_computed_tokens)) (r.(cache_salt)) (r.(mm_features))
    (r.(is_prefill_chunk)) (r.(num_preemptions)) (r.(block_hashes))
    (r.(skip_reading_prefix_cache)) (r.(resumable)) (r.(streaming_queue))
    (r.(prefill_stats)).
Definition with_sampling_params (x : option SamplingParams) (r : Request) : Request :=
  mkRequest (r.(request_id)) (r.(client_index)) (r.(priority)) (r.(arrival_time))
    (r.(py_id)) x (r.(pooling_params)) (r.(lora_request)) (r.(has_structured_output))
    (r.(status)) (r.(stop_reason)) (r.(max_tokens)) (r.(prompt_token_ids))
    (r.(prompt_embeds)) (r.(_prompt_embeds_per_block_hashes)) (r.(num_prompt_tokens))
    (r.(_output_token_ids)) (r.(_all_token_ids)) (r.(num_output_placeholders))
    (r.(async_tokens_to_discard)) (r.(next_decode_eligible_step)) (r.(last_sched_seq))
    (r.(spec_token_ids)) (r.(num_computed_tokens)) (r.(cache_salt)) (r.(mm_features))
    (r.(is_prefill_chunk)) (r.(num_preemptions)) (r.(block_hashes))
    (r.(skip_reading_prefix_cache)) (r.(resumable)) (r.(streaming_queue))
    (r.(prefill_stats)).
Definition with_status (x : RequestStatus) (r : Request) : Request :=
  mkRequest (r.(request_id)) (r.(client_index)) (r.(priority)) (r.(arrival_time))
    (r.(py_id)) (r.(sampling_params)) (r.(pooling_params)) (r.(lora_request))
    (r.(has_structured_output)) x (r.(stop_reason)) (r.(max_tokens))
    (r.(prompt_token_ids)) (r.(prompt_embeds)) (r.(_prompt_embeds_per_block_hashes))
    (r.(num_prompt_tokens)) (r.(_output_token_ids)) (r.(_all_token_ids))
    (r.(num_output_placeholders)) (r.(async_tokens_to_discard))
    (r.(next_decode_eligible_step)) (r.(last_sched_seq)) (r.(spec_token_ids))
    (r.(num_computed_tokens)) (r.(cache_salt)) (r.(mm_features))
    (r.(is_prefill_chunk)) (r.(num_preemptions)) (r.(block_hashes))
    (r.(skip_reading_prefix_cache)) (r.(resumable)) (r.(streaming_queue))
    (r.(prefill_stats)).
Definition with_stop_reason (x : option StopReason) (r : Request) : Request :=
  mkRequest (r.(request_id)) (r.(client_index)) (r.(priority)) (r.(arrival_time))
    (r.(py_id)) (r.(sampling_params)) (r.(pooling_params)) (r.(lora_request))
    (r.(has_structured_output)) (r.(status)) x (r.(max_tokens)) (r.(prompt_token_ids))
    (r.(prompt_embeds)) (r.(_prompt_embeds_per_block_hashes)) (r.(num_prompt_tokens))
    (r.(_output_token_ids)) (r.(_all_token_ids)) (r.(num_output_placeholders))
    (r.(async_tokens_to_discard)) (r.(next_decode_eligible_step)) (r.(last_sched_seq))
    (r.(spec_token_ids)) (r.(num_computed_tokens)) (r.(cache_salt)) (r.(mm_features))
    (r.(is_prefill_chunk)) (r.(num_preemptions)) (r.(block_hashes))
    (r.(skip_reading_prefix_cache)) (r.(resumable)) (r.(streaming_queue))
    (r.(prefill_stats)).
Definition with_prompt_token_ids (x : option (list Z)) (r : Request) : Request :=
  mkRequest (r.(request_id)) (r.(client_index)) (r.(priority)) (r.(arrival_time))
    (r.(py_id)) (r.(sampling_params)) (r.(pooling_params)) (r.(lora_request))
    (r.(has_structured_output)) (r.(status)) (r.(stop_reason)) (r.(max_tokens)) x
    (r.(prompt_embeds)) (r.(_prompt_embeds_per_block_hashes)) (r.(num_prompt_tokens))
    (r.(_output_token_ids)) (r.(_all_token_ids)) (r.(num_output_placeholders))
    (r.(async_tokens_to_discard)) (r.(next_decode_eligible_step)) (r.(last_sched_seq))
    (r.(spec_token_ids)) (r.(num_computed_tokens)) (r.(cache_salt)) (r.(mm_features))
    (r.(is_prefill_chunk)) (r.(num_preemptions)) (r.(block_hashes))
    (r.(skip_reading_prefix_cache)) (r.(resumable)) (r.(streaming_queue))
    (r.(prefill_stats)).
Definition with_prompt_embeds_per_block_hashes (x : gmap (Z * Z) bytes) (r : Request) : Request :=
  mkRequest (r.(request_id)) (r.(client_index)) (r.(priority)) (r.(arrival_time))
    (r.(py_id)) (r.(sampling_params)) (r.(pooling_params)) (r.(lora_request))
    (r.(has_structured_output)) (r.(status)) (r.(stop_reason)) (r.(max_tokens))
    (r.(prompt_token_ids)) (r.(prompt_embeds)) x (r.(num_prompt_tokens))
    (r.(_output_token_ids)) (r.(_all_token_ids)) (r.(num_output_placeholders))
    (r.(async_tokens_to_discard)) (r.(next_decode_eligible_step)) (r.(last_sched_seq))
    (r.(spec_token_ids)) (r.(num_computed_tokens)) (r.(cache_salt)) (r.(mm_features))
    (r.(is_prefill_chunk)) (r.(num_preemptions)) (r.(block_hashes))
    (r.(skip_reading_prefix_cache)) (r.(resumable)) (r.(streaming_queue))
    (r.(prefill_stats)).
Definition with_num_prompt_tokens (x : Z) (r : Request) : Request :=
  mkRequest (r.(request_id)) (r.(client_index)) (r.(priority)) (r.(arrival_time))
    (r.(py_id)) (r.(sampling_params)) (r.(pooling_params)) (r.(lora_request))
    (r.(has_structured_output)) (r.(status)) (r.(stop_reason)) (r.(max_tokens))
    (r.(prompt_token_ids)) (r.(prompt_embeds)) (r.(_prompt_embeds_per_block_hashes)) x
    (r.(_output_token_ids)) (r.(_all_token_ids)) (r.(num_output_placeholders))
    (r.(async_tokens_to_discard)) (r.(next_decode_eligible_step)) (r.(last_sched_seq))
    (r.(spec_token_ids)) (r.(num_computed_tokens)) (r.(cache_salt)) (r.(mm_features))
    (r.(is_prefill_chunk)) (r.(num_preemptions)) (r.(block_hashes))
    (r.(skip_reading_prefix_cache)) (r.(resumable)) (r.(streaming_queue))
    (r.(prefill_stats)).
Definition with_output_token_ids (x : list Z) (r : Request) : Request :=
  mkRequest (r.(request_id)) (r.(client_index)) (r.(priority)) (r.(arrival_time))
    (r.(py_id)) (r.(sampling_params)) (r.(pooling_params)) (r.(lora_request))
    (r.(has_structured_output)) (r.(status)) (r.(stop_reason)) (r.(max_tokens))
    (r.(prompt_token_ids)) (r.(prompt_embeds)) (r.(_prompt_embeds_per_block_hashes))
    (r.(num_prompt_tokens)) x (r.(_all_token_ids)) (r.(num_output_placeholders))
    (r.(async_tokens_to_discard)) (r.(next_decode_eligible_step)) (r.(last_sched_seq))
    (r.(spec_token_ids)) (r.(num_computed_tokens)) (r.(cache_salt)) (r.(mm_features))
    (r.(is_prefill_chunk)) (r.(num_preemptions)) (r.(block_hashes))
    (r.(skip_reading_prefix_cache)) (r.(resumable)) (r.(streaming_queue))
    (r.(prefill_stats)).
Definition with_all_token_ids (x : list Z) (r : Request) : Request :=
  mkRequest (r.(request_id)) (r.(client_index)) (r.(priority)) (r.(arrival_time))
    (r.(py_id)) (r.(sampling_params)) (r.(pooling_params)) (r.(lora_request))
    (r.(has_structured_output)) (r.(status)) (r.(stop_reason)) (r.(max_tokens))
    (r.(prompt_token_ids)) (r.(prompt_embeds)) (r.(_prompt_embeds_per_block_hashes))
    (r.(num_prompt_tokens)) (r.(_output_token_ids)) x (r.(num_output_placeholders))
    (r.(async_tokens_to_discard)) (r.(next_decode_eligible_step)) (r.(last_sched_seq))
    (r.(spec_token_ids)) (r.(num_computed_tokens)) (r.(cache_salt)) (r.(mm_features))
    (r.(is_prefill_chunk)) (r.(num_preemptions)) (r.(block_hashes))
    (r.(skip_reading_prefix_cache)) (r.(resumable)) (r.(streaming_queue))
    (r.(prefill_stats)).
Definition with_num_output_placeholders (x : Z) (r : Request) : Request :=
  mkRequest (r.(request_id)) (r.(client_index)) (r.(priority)) (r.(arrival_time))
    (r.(py_id)) (r.(sampling_params)) (r.(pooling_params)) (r.(lora_request))
    (r.(has_structured_output)) (r.(status)) (r.(stop_reason)) (r.(max_tokens))
    (r.(prompt_token_ids)) (r.(prompt_embeds)) (r.(_prompt_embeds_per_block_hashes))
    (r.(num_prompt_tokens)) (r.(_output_token_ids)) (r.(_all_token_ids)) x
    (r.(async_tokens_to_discard)) (r.(next_decode_eligible_step)) (r.(last_sched_seq))
    (r.(spec_token_ids)) (r.(num_computed_tokens)) (r.(cache_salt)) (r.(mm_features))
    (r.(is_prefill_chunk)) (r.(num_preemptions)) (r.(block_hashes))
    (r.(skip_reading_prefix_cache)) (r.(resumable)) (r.(streaming_queue))
    (r.(prefill_stats)).
Definition with_async_tokens_to_discard (x : Z) (r : Request) : Request :=
  mkRequest (r.(request_id)) (r.(client_index)) (r.(priority)) (r.(arrival_time))
    (r.(py_id)) (r.(sampling_params)) (r.(pooling_params)) (r.(lora_request))
    (r.(has_structured_output)) (r.(status)) (r.(stop_reason)) (r.(max_tokens))
    (r.(prompt_token_ids)) (r.(prompt_embeds)) (r.(_prompt_embeds_per_block_hashes))
    (r.(num_prompt_tokens)) (r.(_output_token_ids)) (r.(_all_token_ids))
    (r.(num_output_placeholders)) x (r.(next_decode_eligible_step))
    (r.(last_sched_seq)) (r.(spec_token_ids)) (r.(num_computed_tokens))
    (r.(cache_salt)) (r.(mm_features)) (r.(is_prefill_chunk)) (r.(num_preemptions))
    (r.(block_hashes)) (r.(skip_reading_prefix_cache)) (r.(resumable))
    (r.(streaming_queue)) (r.(prefill_stats)).
Definition with_next_decode_eligible_step (x : Z) (r : Request) : Request :=
  mkRequest (r.(request_id)) (r.(client_index)) (r.(priority)) (r.(arrival_time))
    (r.(py_id)) (r.(sampling_params)) (r.(pooling_params)) (r.(lora_request))
    (r.(has_structured_output)) (r.(status)) (r.(stop_reason)) (r.(max_tokens))
    (r.(prompt_token_ids)) (r.(prompt_embeds)) (r.(_prompt_embeds_per_block_hashes))
    (r.(num_prompt_tokens)) (r.(_output_token_ids)) (r.(_all_token_ids))
    (r.(num_output_placeholders)) (r.(async_tokens_to_discard)) x (r.(last_sched_seq))
    (r.(spec_token_ids)) (r.(num_computed_tokens)) (r.(cache_salt)) (r.(mm_features))
    (r.(is_prefill_chunk)) (r.(num_preemptions)) (r.(block_hashes))
    (r.(skip_reading_prefix_cache)) (r.(resumable)) (r.(streaming_queue))
    (r.(prefill_stats)).
Definition with_last_sched_seq (x : Z) (r : Request) : Request :=
  mkRequest (r.(request_id)) (r.(client_index)) (r.(priority)) (r.(arrival_time))
    (r.(py_id)) (r.(sampling_params)) (r.(pooling_params)) (r.(lora_request))
    (r.(has_structured_output)) (r.(status)) (r.(stop_reason)) (r.(max_tokens))
    (r.(prompt_token_ids)) (r.(prompt_embeds)) (r.(_prompt_embeds_per_block_hashes))
    (r.(num_prompt_tokens)) (r.(_output_token_ids)) (r.(_all_token_ids))
    (r.(num_output_placeholders)) (r.(async_tokens_to_discard))
    (r.(next_decode_eligible_step)) x (r.(spec_token_ids)) (r.(num_computed_tokens))
    (r.(cache_salt)) (r.(mm_features)) (r.(is_prefill_chunk)) (r.(num_preemptions))
    (r.(block_hashes)) (r.(skip_reading_prefix_cache)) (r.(resumable))
    (r.(streaming_queue)) (r.(prefill_stats)).
Definition with_spec_token_ids (x : list Z) (r : Request) : Request :=
  mkRequest (r.(request_id)) (r.(client_index)) (r.(priority)) (r.(arrival_time))
    (r.(py_id)) (r.(sampling_params)) (r.(pooling_params)) (r.(lora_request))
    (r.(has_structured_output)) (r.(status)) (r.(stop_reason)) (r.(max_tokens))
    (r.(prompt_token_ids)) (r.(prompt_embeds)) (r.(_prompt_embeds_per_block_hashes))
    (r.(num_prompt_tokens)) (r.(_output_token_ids)) (r.(_all_token_ids))
    (r.(num_output_placeholders)) (r.(async_tokens_to_discard))
    (r.(next_decode_eligible_step)) (r.(last_sched_seq)) x (r.(num_computed_tokens))
    (r.(cache_salt)) (r.(mm_features)) (r.(is_prefill_chunk)) (r.(num_preemptions))
    (r.(block_hashes)) (r.(skip_reading_prefix_cache)) (r.(resumable))
    (r.(streaming_queue)) (r.(prefill_stats)).
Definition with_num_computed_tokens (x : Z) (r : Request) : Request :=
  mkRequest (r.(request_id)) (r.(client_index)) (r.(priority)) (r.(arrival_time))
    (r.(py_id)) (r.(sampling_params)) (r.(pooling_params)) (r.(lora_request))
    (r.(has_structured_output)) (r.(status)) (r.(stop_reason)) (r.(max_tokens))
    (r.(prompt_token_ids)) (r.(prompt_embeds)) (r.(_prompt_embeds_per_block_hashes))
    (r.(num_prompt_tokens)) (r.(_output_token_ids)) (r.(_all_token_ids))
    (r.(num_output_placeholders)) (r.(async_tokens_to_discard))
    (r.(next_decode_eligible_step)) (r.(last_sched_seq)) (r.(spec_token_ids)) x
    (r.(cache_salt)) (r.(mm_features)) (r.(is_prefill_chunk)) (r.(num_preemptions))
    (r.(block_hashes)) (r.(skip_reading_prefix_cache)) (r.(resumable))
    (r.(streaming_queue)) (r.(prefill_stats)).
Definition with_mm_features (x : list MultiModalFeatureSpec) (r : Request) : Request :=
  mkRequest (r.(request_id)) (r.(client_index)) (r.(priority)) (r.(arrival_time))
    (r.(py_id)) (r.(sampling_params)) (r.(pooling_params)) (r.(lora_request))
    (r.(has_structured_output)) (r.(status)) (r.(stop_reason)) (r.(max_tokens))
    (r.(prompt_token_ids)) (r.(prompt_embeds)) (r.(_prompt_embeds_per_block_hashes))
    (r.(num_prompt_tokens)) (r.(_output_token_ids)) (r.(_all_token_ids))
    (r.(num_output_placeholders)) (r.(async_tokens_to_discard))
    (r.(next_decode_eligible_step)) (r.(last_sched_seq)) (r.(spec_token_ids))
    (r.(num_computed_tokens)) (r.(cache_salt)) x (r.(is_prefill_chunk))
    (r.(num_preemptions)) (r.(block_hashes)) (r.(skip_reading_prefix_cache))
    (r.(resumable)) (r.(streaming_queue)) (r.(prefill_stats)).
Definition with_is_prefill_chunk (x : bool) (r : Request) : Request :=
  mkRequest (r.(request_id)) (r.(client_index)) (r.(priority)) (r.(arrival_time))
    (r.(py_id)) (r.(sampling_params)) (r.(pooling_params)) (r.(lora_request))
    (r.(has_structured_output)) (r.(status)) (r.(stop_reason)) (r.(max_tokens))
    (r.(prompt_token_ids)) (r.(prompt_embeds)) (r.(_prompt_embeds_per_block_hashes))
    (r.(num_prompt_tokens)) (r.(_output_token_ids)) (r.(_all_token_ids))
    (r.(num_output_placeholders)) (r.(async_tokens_to_discard))
    (r.(next_decode_eligible_step)) (r.(last_sched_seq)) (r.(spec_token_ids))
    (r.(num_computed_tokens)) (r.(cache_salt)) (r.(mm_features)) x
    (r.(num_preemptions)) (r.(block_hashes)) (r.(skip_reading_prefix_cache))
    (r.(resumable)) (r.(streaming_queue)) (r.(prefill_stats)).
Definition with_num_preemptions (x : Z) (r : Request) : Request :=
  mkRequest (r.(request_id)) (r.(client_index)) (r.(priority)) (r.(arrival_time))
    (r.(py_id)) (r.(sampling_params)) (r.(pooling_params)) (r.(lora_request))
    (r.(has_structured_output)) (r.(status)) (r.(stop_reason)) (r.(max_tokens))
    (r.(prompt_token_ids)) (r.(prompt_embeds)) (r.(_prompt_embeds_per_block_hashes))
    (r.(num_prompt_tokens)) (r.(_output_token_ids)) (r.(_all_token_ids))
    (r.(num_output_placeholders)) (r.(async_tokens_to_discard))
    (r.(next_decode_eligible_step)) (r.(last_sched_seq)) (r.(spec_token_ids))
    (r.(num_computed_tokens)) (r.(cache_salt)) (r.(mm_features))
    (r.(is_prefill_chunk)) x (r.(block_hashes)) (r.(skip_reading_prefix_cache))
    (r.(resumable)) (r.(streaming_queue)) (r.(prefill_stats)).
Definition with_block_hashes (x : list bytes) (r : Request) : Request :=
  mkRequest (r.(request_id)) (r.(client_index)) (r.(priority)) (r.(arrival_time))
    (r.(py_id)) (r.(sampling_params)) (r.(pooling_params)) (r.(lora_request))
    (r.(has_structured_output)) (r.(status)) (r.(stop_reason)) (r.(max_tokens))
    (r.(prompt_token_ids)) (r.(prompt_embeds)) (r.(_prompt_embeds_per_block_hashes))
    (r.(num_prompt_tokens)) (r.(_output_token_ids)) (r.(_all_token_ids))
    (r.(num_output_placeholders)) (r.(async_tokens_to_discard))
    (r.(next_decode_eligible_step)) (r.(last_sched_seq)) (r.(spec_token_ids))
    (r.(num_computed_tokens)) (r.(cache_salt)) (r.(mm_features))
    (r.(is_prefill_chunk)) (r.(num_preemptions)) x (r.(skip_reading_prefix_cache))
    (r.(resumable)) (r.(streaming_queue)) (r.(prefill_stats)).
Definition with_resumable (x : bool) (r : Request) : Request :=
  mkRequest (r.(request_id)) (r.(client_index)) (r.(priority)) (r.(arrival_time))
    (r.(py_id)) (r.(sampling_params)) (r.(pooling_params)) (r.(lora_request))
    (r.(has_structured_output)) (r.(status)) (r.(stop_reason)) (r.(max_tokens))
    (r.(prompt_token_ids)) (r.(prompt_embeds)) (r.(_prompt_embeds_per_block_hashes))
    (r.(num_prompt_tokens)) (r.(_output_token_ids)) (r.(_all_token_ids))
    (r.(num_output_placeholders)) (r.(async_tokens_to_discard))
    (r.(next_decode_eligible_step)) (r.(last_sched_seq)) (r.(spec_token_ids))
    (r.(num_computed_tokens)) (r.(cache_salt)) (r.(mm_features))
    (r.(is_prefill_chunk)) (r.(num_preemptions)) (r.(block_hashes))
    (r.(skip_reading_prefix_cache)) x (r.(streaming_queue)) (r.(prefill_stats)).
Definition with_streaming_queue (x : option (list (option StreamingUpdate))) (r : Request) : Request :=
  mkRequest (r.(request_id)) (r.(client_index)) (r.(priority)) (r.(arrival_time))
    (r.(py_id)) (r.(sampling_params)) (r.(pooling_params)) (r.(lora_request))
    (r.(has_structured_output)) (r.(status)) (r.(stop_reason)) (r.(max_tokens))
    (r.(prompt_token_ids)) (r.(prompt_embeds)) (r.(_prompt_embeds_per_block_hashes))
    (r.(num_prompt_tokens)) (r.(_output_token_ids)) (r.(_all_token_ids))
    (r.(num_output_placeholders)) (r.(async_tokens_to_discard))
    (r.(next_decode_eligible_step)) (r.(last_sched_seq)) (r.(spec_token_ids))
    (r.(num_computed_tokens)) (r.(cache_salt)) (r.(mm_features))
    (r.(is_prefill_chunk)) (r.(num_preemptions)) (r.(block_hashes))
    (r.(skip_reading_prefix_cache)) (r.(resumable)) x (r.(prefill_stats)).
Definition with_prefill_stats (x : option PrefillStats) (r : Request) : Request :=
  mkRequest (r.(request_id)) (r.(client_index)) (r.(priority)) (r.(arrival_time))
    (r.(py_id)) (r.(sampling_params)) (r.(pooling_params)) (r.(lora_request))
    (r.(has_structured_output)) (r.(status)) (r.(stop_reason)) (r.(max_tokens))
    (r.(prompt_token_ids)) (r.(prompt_embeds)) (r.(_prompt_embeds_per_block_hashes))
    (r.(num_prompt_tokens)) (r.(_output_token_ids)) (r.(_all_token_ids))
    (r.(num_output_placeholders)) (r.(async_tokens_to_discard))
    (r.(next_decode_eligible_step)) (r.(last_sched_seq)) (r.(spec_token_ids))
    (r.(num_computed_tokens)) (r.(cache_salt)) (r.(mm_features))
    (r.(is_prefill_chunk)) (r.(num_preemptions)) (r.(block_hashes))
    (r.(skip_reading_prefix_cache)) (r.(resumable)) (r.(streaming_queue)) x.

(** ** Operations *)

Definition num_tokens (r : Request) : Z := zlen (r.(_all_token_ids)).
Definition num_tokens_with_spec (r : Request) : Z :=
  (zlen (r.(_all_token_ids)) + zlen (spec_token_ids r))%Z.
Definition num_output_tokens (r : Request) : Z := zlen (r.(_output_token_ids)).
Definition num_encoder_inputs (r : Request) : Z := zlen (mm_features r).
Definition has_encoder_inputs (r : Request) : bool := (num_encoder_inputs r >? 0)%Z.
Definition use_structured_output (r : Request) : bool := has_structured_output r.

Definition is_finished (r : Request) : bool := is_finished_status (status r).
Definition get_finished_reason (r : Request) : option FinishReason :=
  get_finished_reason_status (status r).

Definition get_num_encoder_embeds (r : Request) (input_id : Z) : result Z :=
  _ ← assert_ (input_id <? zlen (mm_features r))%Z;
  f ← py_get (mm_features r) input_id;
  Ok (get_num_embeds (mm_position f)).

Definition get_skip_reading_prefix_cache (sp : option SamplingParams) (pp : option PoolingParams)
    : bool :=
  match sp ≫= sp_skip_reading_prefix_cache, pp ≫= pp_skip_reading_prefix_cache with
  | Some b, _ => b
  | None, Some b => b
  | None, None => false
  end.

Definition length_from_prompt_token_ids_or_embeds
    (prompt_token_ids : option (list Z)) (prompt_embeds : option (list bytes)) : result Z :=
  match prompt_token_ids, prompt_embeds with
  | None, None => Raise ValueError
  | None, Some e => Ok (zlen e)
  | Some t, None => Ok (zlen t)
  | Some t, Some e => if (zlen e =? zlen t)%Z then Ok (zlen t) else Raise ValueError
  end.

(** The closure stored in [_block_hasher]; it memoises prompt-embedding
    hashes on the request, so it also returns the request. *)
Abbreviation block_hasher_t := (option (Request → result (list bytes * Request))).

Definition update_block_hashes (hasher : block_hasher_t) (r : Request) : result Request :=
  match hasher with
  | None => Ok r
  | Some h => '(new, r) ← h r; Ok (with_block_hashes (block_hashes r ++ new) r)
  end.

Definition append_output_token_ids (hasher : block_hasher_t) (token_ids : list Z) (r : Request)
    : result Request :=
  let r := with_output_token_ids (r.(_output_token_ids) ++ token_ids) r in
  let r := with_all_token_ids (r.(_all_token_ids) ++ token_ids) r in
  update_block_hashes hasher r.

(** [__init__], for the attributes of the record. *)
Definition Request_init (hasher : block_hasher_t) (request_id : string) (py_id : nat)
    (prompt_token_ids : option (list Z)) (sampling_params : option SamplingParams)
    (pooling_params : option PoolingParams) (client_index arrival_time : Z)
    (prompt_embeds : option (list bytes)) (mm_features : list MultiModalFeatureSpec)
    (lora_request : option LoRARequest) (cache_salt : option string) (priority : Z)
    (structured_output : bool) (resumable : bool) : result Request :=
  '(max_tokens, status) ←
    match pooling_params, sampling_params with
    | Some _, _ => Ok (1%Z, WAITING)
    | None, Some sp =>
        m ← of_option AssertionError (sp_max_tokens sp);
        Ok (m, if structured_output then WAITING_FOR_STRUCTURED_OUTPUT_GRAMMAR else WAITING)
    | None, None => Raise ValueError
    end;
  n ← length_from_prompt_token_ids_or_embeds prompt_token_ids prompt_embeds;
  let all_ids := match prompt_token_ids with
                 | Some ids => ids
                 | None => replicate (Z.to_nat n) 0%Z
                 end in
  update_block_hashes hasher
    (mkRequest request_id client_index priority arrival_time py_id sampling_params
       pooling_params lora_request structured_output status None max_tokens prompt_token_ids
       prompt_embeds ∅ n [] all_ids 0 0 0 0 [] 0 cache_salt mm_features false 0 []
       (get_skip_reading_prefix_cache sampling_params pooling_params) resumable None
       (Some PrefillStats_init)).

(** [take_prefill_stats] *)
Definition take_prefill_stats (r : Request) : option PrefillStats * Request :=
  match prefill_stats r with
  | None => (None, r)
  | Some p => (Some p, with_prefill_stats None r)
  end.

(** [StreamingUpdate.from_request] *)
Definition StreamingUpdate_from_request (r : Request) : option StreamingUpdate :=
  if resumable r
  then Some (mkUpdate (mm_features r) (prompt_token_ids r) (max_tokens r) (arrival_time r)
               (sampling_params r))
  else None.

(** [__lt__] *)
Definition request_lt (a b : Request) : bool :=
  if negb (priority a =? priority b)%Z then (priority a <? priority b)%Z
  else if negb (arrival_time a =? arrival_time b)%Z then (arrival_time a <? arrival_time b)%Z
  else if negb (String.eqb (request_id a) (request_id b))
       then String.ltb (request_id a) (request_id b)
  else (py_id a <? py_id b).

(** ** Facts *)

(** A status counts as finished exactly when it is one of the six
    [FINISHED_*] members, and every finished status has a finish reason; the
    only unfinished status with one is [WAITING_FOR_STREAMING_REQ]. *)
Theorem finished_status_spec (s : RequestStatus) :
  (is_finished_status s = true ↔
     s ∈ [FINISHED_STOPPED; FINISHED_LENGTH_CAPPED; FINISHED_ABORTED; FINISHED_IGNORED;
          FINISHED_ERROR; FINISHED_REPETITION]) ∧
  (get_finished_reason_status s ≠ None ↔
     is_finished_status s = true ∨ s = WAITING_FOR_STREAMING_REQ).
Proof. destruct s; cbn; split; split; intros; set_solver. Qed.

Lemma ascii_compare_trans (a b c : Ascii.ascii) :
  Ascii.compare a b = Lt → Ascii.compare b c = Lt → Ascii.compare a c = Lt.
Proof. unfold Ascii.compare. rewrite !N.compare_lt_iff. lia. Qed.

Lemma string_compare_trans (a b c : string) :
  String.compare a b = Lt → String.compare b c = Lt → String.compare a c = Lt.
Proof.
  revert b c. induction a as [|x a IH]; intros [|y b] [|z c]; cbn; try done.
  destruct (Ascii.compare x y) eqn:Exy; try done; intros H1;
    destruct (Ascii.compare y z) eqn:Eyz; try done; intros H2.
  - apply Ascii.compare_eq_iff in Exy, Eyz. subst.
    destruct (Ascii.compare z z) eqn:E; [by eapply IH| |].
    all: unfold Ascii.compare in E; by rewrite N.compare_refl in E.
  - apply Ascii.compare_eq_iff in Exy. subst. by rewrite Eyz.
  - apply Ascii.compare_eq_iff in Eyz. subst. by rewrite Exy.
  - by rewrite (ascii_compare_trans x y z).
Qed.

Lemma string_compare_refl (a : string) : String.compare a a = Eq.
Proof.
  pose proof (String.compare_antisym a a) as H. by destruct (String.compare a a).
Qed.

Lemma string_ltb_lt a b : String.ltb a b = true ↔ String.compare a b = Lt.
Proof. unfold String.ltb. destruct (String.compare a b); naive_solver. Qed.

Lemma string_ltb_total a b : a ≠ b → String.ltb a b = true ∨ String.ltb b a = true.
Proof.
  intros Hne. rewrite !string_ltb_lt, (String.compare_antisym b a).
  destruct (String.compare a b) eqn:E; [|tauto|tauto].
  by apply String.compare_eq_iff in E.
Qed.

(** The order in propositional form: lexicographic on priority, arrival time,
    request id and object identity. *)
Lemma request_lt_iff a b :
  request_lt a b = true ↔
  (priority a < priority b)%Z ∨ (priority a = priority b ∧
  ((arrival_time a < arrival_time b)%Z ∨ (arrival_time a = arrival_time b ∧
  (String.compare (request_id a) (request_id b) = Lt ∨ (request_id a = request_id b ∧
   py_id a < py_id b))))).
Proof.
  unfold request_lt.
  destruct (Z.eqb_spec (priority a) (priority b)) as [E1|E1]; cbn [negb]; [|rewrite Z.ltb_lt; lia].
  destruct (Z.eqb_spec (arrival_time a) (arrival_time b)) as [E2|E2]; cbn [negb]; [|rewrite Z.ltb_lt; lia].
  destruct (String.eqb_spec (request_id a) (request_id b)) as [E3|E3]; cbn [negb].
  - rewrite E3, string_compare_refl, Nat.ltb_lt. split; [naive_solver|].
    intros [?|[_ [?|[_ [?|[_ ?]]]]]]; try lia; done.
  - rewrite string_ltb_lt. split; [naive_solver|].
    intros [?|[_ [?|[_ [?|[? _]]]]]]; try lia; done.
Qed.

Lemma request_lt_irrefl a : request_lt a a = false.
Proof.
  destruct (request_lt a a) eqn:E; [|done].
  apply request_lt_iff in E. rewrite string_compare_refl in E.
  destruct E as [?|[_ [?|[_ [?|[_ ?]]]]]]; try lia; done.
Qed.

Lemma request_lt_trans a b c :
  request_lt a b = true → request_lt b c = true → request_lt a c = true.
Proof.
  rewrite !request_lt_iff. intros [?|[-> H1]] [?|[? H2]]; try (left; lia). right. split; [done|].
  destruct H1 as [?|[-> H1]], H2 as [?|[? H2]]; try (left; lia). right. split; [done|].
  destruct H1 as [H1|[-> H1]], H2 as [H2|[E H2]].
  - left. by eapply string_compare_trans.
  - left. by rewrite <- E.
  - by left.
  - right. split; [done|lia].
Qed.

Lemma request_lt_total a b :
  py_id a ≠ py_id b → request_lt a b = true ∨ request_lt b a = true.
Proof.
  intros Hid. rewrite !request_lt_iff.
  destruct (Z.lt_total (priority a) (priority b)) as [?|[->|?]]; try tauto.
  destruct (Z.lt_total (arrival_time a) (arrival_time b)) as [?|[->|?]]; try tauto.
  destruct (decide (request_id a = request_id b)) as [->|Hne].
  - assert (py_id a < py_id b ∨ py_id b < py_id a) by lia. tauto.
  - destruct (string_ltb_total _ _ Hne) as [H%string_ltb_lt|H%string_ltb_lt]; tauto.
Qed.

(** [Request.__lt__] is a strict total order on distinct request objects:
    irreflexive, transitive, and any two objects are comparable. *)
Theorem request_lt_strict_total :
  (∀ a, request_lt a a = false) ∧
  (∀ a b c, request_lt a b = true → request_lt b c = true → request_lt a c = true) ∧
  (∀ a b, py_id a ≠ py_id b → request_lt a b = true ∨ request_lt b a = true).
Proof. split_and!; [apply request_lt_irrefl|apply request_lt_trans|apply request_lt_total]. Qed.
