(* ===== verification/BlockHash.v ===== *)
(** * Block hashes for prefix caching ([vllm/v1/core/kv_cache_utils.py])

    The packing of a block hash with its KV cache group id, the extra keys
    that multi-modal inputs, LoRA, the cache salt and prompt embeddings add to
    a block's hash, the chained hash of a request's blocks, and the view of a
    hash list at a coarser block size.

    [hash_function], [NONE_HASH] and [sha256] are arguments: they are the
    configured hash, the seed chosen by [init_none_hash] and the digest of
    [hashlib].  [VLLM_KV_EVENTS_USE_INT_BLOCK_HASHES] is an argument too. *)

From S2P Require Import Prelude Request.
From Stdlib Require Import ZArith Sorting.Sorted.
From Stdlib Require Strings.Byte.

Local Open Scope Z_scope.

(** ** Integers and big-endian bytes ([int.to_bytes], [int.from_bytes]) *)

Definition byte_of_Z (z : Z) : Byte.byte :=
  default Byte.x00 (Byte.of_N (Z.to_N (z mod 256))).
Definition Z_of_byte (b : Byte.byte) : Z := Z.of_N (Byte.to_N b).

(** [n] little-endian digits, then reversed. *)
Fixpoint le_bytes (n : nat) (z : Z) : bytes :=
  match n with
  | O => []
  | S n => byte_of_Z z :: le_bytes n (z / 256)
  end.
Fixpoint le_value (bs : bytes) : Z :=
  match bs with
  | [] => 0
  | b :: bs => Z_of_byte b + 256 * le_value bs
  end.

Definition int_to_bytes_be (n : nat) (z : Z) : result bytes :=
  if (0 <=? z) && (z <? 256 ^ Z.of_nat n) then Ok (reverse (le_bytes n z))
  else Raise OverflowError.
Definition int_from_bytes_be (bs : bytes) : Z := le_value (reverse bs).

(** ** Packing a block hash with a group id *)

Definition make_block_hash_with_group_id (block_hash : bytes) (group_id : Z) : result bytes :=
  g ← int_to_bytes_be 4 group_id; Ok (block_hash ++ g).

Definition get_block_hash (key : bytes) : bytes := py_upto key (-4).

Definition get_group_id (key : bytes) : Z := int_from_bytes_be (py_from key (-4)).

Inductive ExternalBlockHash := HashBytes (b : bytes) | HashInt (z : Z).

Definition maybe_convert_block_hash (use_int : bool) (hash_bytes : bytes) : ExternalBlockHash :=
  if negb use_int then HashBytes hash_bytes
  else HashInt (Z.land (int_from_bytes_be hash_bytes) (Z.shiftl 1 64 - 1)).

(** [init_none_hash]: the seed hash, from [PYTHONHASHSEED] or from
    [os.urandom(32)]. *)
Definition init_none_hash (hash_seed : option string) (hash_fn : string → bytes)
    (urandom : bytes) : bytes :=
  match hash_seed with None => urandom | Some s => hash_fn s end.

(** ** Extra keys *)

Inductive extra_key :=
  | KeyStr (s : string)                     (* LoRA name, cache salt *)
  | KeyMM (mm_identifier : string) (rel : Z)   (* multi-modal input and its offset *)
  | KeyEmbeds (digest : bytes).             (* prompt-embedding digest *)

#[export] Instance extra_key_eq_dec : EqDecision extra_key.
Proof. solve_decision. Defined.

Definition need_extra_keys (r : Request) : bool :=
  bool_decide (mm_features r ≠ []) || bool_decide (lora_request r ≠ None)
  || bool_decide (cache_salt r ≠ None).

Definition mm_end (f : MultiModalFeatureSpec) : Z :=
  offset (mm_position f) + length_ (mm_position f).

(** The [while] loop of [_gen_mm_extra_hash_keys]: [fs] are the features from
    index [curr_mm_idx] on. *)
Fixpoint mm_scan (start_token_idx end_token_idx : Z) (fs : list MultiModalFeatureSpec)
    (curr_mm_idx : Z) (extra_keys : list extra_key) : list extra_key * Z :=
  match fs with
  | [] => (extra_keys, curr_mm_idx)
  | f :: fs =>
      if end_token_idx >? offset (mm_position f) then
        if start_token_idx >=? mm_end f then
          mm_scan start_token_idx end_token_idx fs (curr_mm_idx + 1) extra_keys
        else
          let extra_keys :=
            extra_keys ++ [KeyMM (identifier f) (offset (mm_position f) - start_token_idx)] in
          if end_token_idx >=? mm_end f then
            mm_scan start_token_idx end_token_idx fs (curr_mm_idx + 1) extra_keys
          else (extra_keys, curr_mm_idx)
      else (extra_keys, curr_mm_idx)
  end.

Definition _gen_mm_extra_hash_keys (r : Request) (start_token_idx end_token_idx start_mm_idx : Z)
    : result (list extra_key * Z) :=
  match last (mm_features r) with
  | None => Ok ([], start_mm_idx)
  | Some last_f =>
      if mm_end last_f <=? start_token_idx then Ok ([], start_mm_idx) else
      start_mm_idx ←
        (if start_mm_idx <? 0 then
           _ ← assert_ (- start_mm_idx <=? zlen (mm_features r));
           Ok (zlen (mm_features r) + start_mm_idx)
         else Ok start_mm_idx);
      Ok (mm_scan start_token_idx end_token_idx
            (drop (Z.to_nat start_mm_idx) (mm_features r)) start_mm_idx [])
  end.

Definition _gen_lora_extra_hash_keys (r : Request) : list extra_key :=
  match lora_request r with
  | None => []
  | Some l => [KeyStr (lora_name l)]
  end.

(** What a block's hash is computed from. *)
Abbreviation hash_input := (bytes * list Z * option (list extra_key))%type.

Section Hashing.
Context (sha256 : bytes → bytes).

(** [tensor_data(prompt_embeds[start:end])] is the rows' raw bytes in order. *)
Definition embeds_digest (rows : list bytes) (start_token_idx end_token_idx : Z) : bytes :=
  sha256 (concat (py_slice rows start_token_idx end_token_idx)).

Definition _gen_prompt_embeds_extra_hash_keys (r : Request) (start_token_idx end_token_idx : Z)
    : list extra_key * Request :=
  match prompt_embeds r with
  | None => ([], r)
  | Some rows =>
      let block_range := (start_token_idx, end_token_idx) in
      match r.(_prompt_embeds_per_block_hashes) !! block_range with
      | Some embeds_hash => ([KeyEmbeds embeds_hash], r)
      | None =>
          let embeds_hash := embeds_digest rows start_token_idx end_token_idx in
          ([KeyEmbeds embeds_hash],
           with_prompt_embeds_per_block_hashes
             (<[block_range := embeds_hash]> (r.(_prompt_embeds_per_block_hashes))) r)
      end
  end.

Definition cache_salt_keys (r : Request) (start_token_idx : Z) : list extra_key :=
  match cache_salt r with
  | Some (String _ _ as salt) => if start_token_idx =? 0 then [KeyStr salt] else []
  | _ => []
  end.

Definition generate_block_hash_extra_keys (r : Request)
    (start_token_idx end_token_idx start_mm_idx : Z)
    : result (option (list extra_key) * Z * Request) :=
  '(mm_extra_keys, new_start_mm_idx) ←
    _gen_mm_extra_hash_keys r start_token_idx end_token_idx start_mm_idx;
  let lora_extra_keys := _gen_lora_extra_hash_keys r in
  let salt_keys := cache_salt_keys r start_token_idx in
  let '(prompt_embeds_keys, r) :=
    _gen_prompt_embeds_extra_hash_keys r start_token_idx end_token_idx in
  let extra_keys := lora_extra_keys ++ mm_extra_keys ++ salt_keys ++ prompt_embeds_keys in
  Ok (match extra_keys with [] => None | _ => Some extra_keys end, new_start_mm_idx, r).

(** ** Hashing the blocks of a request *)

Context (hash_function : hash_input → bytes) (NONE_HASH : bytes).

(** [if not parent_block_hash] also holds for empty bytes. *)
Definition parent_or_none (parent_block_hash : option bytes) : bytes :=
  match parent_block_hash with
  | None | Some [] => NONE_HASH
  | Some h => h
  end.

Definition hash_block_tokens (parent_block_hash : option bytes)
    (curr_block_token_ids : list Z) (extra_keys : option (list extra_key)) : bytes :=
  hash_function (parent_or_none parent_block_hash, curr_block_token_ids, extra_keys).

(** The [while True] loop of [request_block_hasher]. *)
Fixpoint hasher_loop (fuel : nat) (hash_block_size n_tokens : Z) (r : Request)
    (start_token_idx curr_mm_idx : Z) (prev_block_hash_value : option bytes)
    (new_block_hashes : list bytes) : result (list bytes * Request) :=
  match fuel with
  | O => Raise OutOfFuel
  | S fuel =>
      let end_token_idx := start_token_idx + hash_block_size in
      if end_token_idx >? n_tokens then Ok (new_block_hashes, r) else
      '(extra_keys, curr_mm_idx, r) ←
        generate_block_hash_extra_keys r start_token_idx end_token_idx curr_mm_idx;
      let block_tokens := py_slice (r.(_all_token_ids)) start_token_idx end_token_idx in
      let block_hash := hash_block_tokens prev_block_hash_value block_tokens extra_keys in
      hasher_loop fuel hash_block_size n_tokens r (start_token_idx + hash_block_size)
        curr_mm_idx (Some block_hash) (new_block_hashes ++ [block_hash])
  end.

Definition request_block_hasher (hash_block_size : Z) (r : Request)
    : result (list bytes * Request) :=
  let start_token_idx := zlen (block_hashes r) * hash_block_size in
  let n_tokens := num_tokens r in
  if start_token_idx + hash_block_size >? n_tokens then Ok ([], r) else
  let curr_mm_idx := if start_token_idx >? 0 then -1 else 0 in
  let prev_block_hash_value := last (block_hashes r) in
  hasher_loop (S (Z.to_nat (n_tokens / hash_block_size))) hash_block_size n_tokens r
    start_token_idx curr_mm_idx prev_block_hash_value [].

End Hashing.

(** ** A hash list seen at a coarser block size ([BlockHashListWithBlockSize]) *)

Record BlockHashListWithBlockSize := mkHashView {
  hv_block_hashes : list bytes;
  scale_factor : Z;
}.

Definition BlockHashListWithBlockSize_init (hashes : list bytes)
    (hash_block_size target_block_size : Z) : result BlockHashListWithBlockSize :=
  _ ← assert_ (target_block_size mod hash_block_size =? 0);
  Ok (mkHashView hashes (target_block_size / hash_block_size)).

Definition hv_len (v : BlockHashListWithBlockSize) : Z :=
  zlen (hv_block_hashes v) / scale_factor v.

Definition _get_value_at (v : BlockHashListWithBlockSize) (idx : Z) : result bytes :=
  py_get (hv_block_hashes v) ((idx + 1) * scale_factor v - 1).

(** Slices and iteration over the view. *)
Definition hv_slice (v : BlockHashListWithBlockSize) (start stop : Z) : result (list bytes) :=
  mapR (_get_value_at v) (py_range (py_clip (hv_len v) start) (py_clip (hv_len v) stop)).

Definition hv_iter (v : BlockHashListWithBlockSize) : result (list bytes) :=
  mapR (_get_value_at v) (py_range 0 (hv_len v)).

(** ** Facts: bytes and packed keys *)

Lemma Z_of_byte_range b : 0 ≤ Z_of_byte b < 256.
Proof. pose proof (Byte.to_N_bounded b). unfold Z_of_byte. lia. Qed.

Lemma Z_of_byte_of_Z z : Z_of_byte (byte_of_Z z) = z mod 256.
Proof.
  unfold Z_of_byte, byte_of_Z.
  pose proof (Z.mod_pos_bound z 256 ltac:(lia)) as Hb.
  destruct (Byte.of_N (Z.to_N (z mod 256))) as [b|] eqn:E; cbn.
  - apply Byte.to_of_N in E. lia.
  - apply Byte.of_N_None_iff in E. lia.
Qed.

Lemma le_value_range bs : 0 ≤ le_value bs < 256 ^ zlen bs.
Proof.
  induction bs as [|b bs IH]; cbn [le_value length]; [done|].
  rewrite Nat2Z.inj_succ, Z.pow_succ_r by lia.
  pose proof (Z_of_byte_range b). lia.
Qed.

Lemma length_le_bytes n z : length (le_bytes n z) = n.
Proof. revert z. induction n as [|n IH]; intros z; cbn; [done|]. by rewrite IH. Qed.

Lemma le_value_bytes n z : le_value (le_bytes n z) = z mod 256 ^ Z.of_nat n.
Proof.
  revert z. induction n as [|n IH]; intros z; cbn [le_value le_bytes].
  - by rewrite Z.mod_1_r.
  - rewrite IH, Z_of_byte_of_Z, Nat2Z.inj_succ, Z.pow_succ_r by lia.
    rewrite (Z.rem_mul_r z 256 (256 ^ Z.of_nat n)) by lia. done.
Qed.

Lemma le_value_app bs bs' : le_value (bs ++ bs') = le_value bs + 256 ^ zlen bs * le_value bs'.
Proof.
  induction bs as [|b bs IH]; cbn [le_value app length]; [lia|].
  rewrite IH, Nat2Z.inj_succ, Z.pow_succ_r by lia. lia.
Qed.

Lemma py_last4 {A} (l l' : list A) :
  length l' = 4%nat → py_upto (l ++ l') (-4) = l ∧ py_from (l ++ l') (-4) = l'.
Proof.
  intros H. unfold py_upto, py_from, py_slice, py_clip. rewrite length_app, H.
  rewrite !(proj2 (Z.ltb_lt (-4) 0)) by lia. rewrite !(proj2 (Z.ltb_ge _ 0)) by lia.
  replace (Z.max 0 (Z.of_nat (length l + 4) + -4)) with (zlen l) by lia.
  rewrite Z.min_id, Z.min_l, Nat2Z.id by lia. split.
  - rewrite Z.sub_0_r, Nat2Z.id, drop_0. apply take_app_length.
  - rewrite drop_app_length. apply take_ge. lia.
Qed.

(** packing a block hash with a KV cache group id is lossless.  For a
    group id that fits four bytes the packed key is the hash followed by four
    bytes, and both components are read back exactly (so distinct pairs give
    distinct keys); any other group id raises [OverflowError]. *)
Theorem block_hash_group_roundtrip (h : bytes) (g : Z) :
  (0 ≤ g < 2 ^ 32 →
     ∃ key, make_block_hash_with_group_id h g = Ok key ∧ length key = (length h + 4)%nat ∧
       get_block_hash key = h ∧ get_group_id key = g) ∧
  (¬ 0 ≤ g < 2 ^ 32 → make_block_hash_with_group_id h g = Raise OverflowError).
Proof.
  unfold make_block_hash_with_group_id, int_to_bytes_be.
  change (256 ^ Z.of_nat 4) with (2 ^ 32). split; intros Hg.
  - rewrite (proj2 (Z.leb_le 0 g)), (proj2 (Z.ltb_lt g (2 ^ 32))) by lia.
    assert (length (reverse (le_bytes 4 g)) = 4%nat) as Hl
      by (by rewrite length_reverse, length_le_bytes).
    destruct (py_last4 h _ Hl) as [H1 H2].
    exists (h ++ reverse (le_bytes 4 g)). split; [done|].
    split; [by rewrite length_app, Hl|]. split; [done|].
    unfold get_group_id, int_from_bytes_be. rewrite H2, reverse_involutive, le_value_bytes.
    apply Z.mod_small. done.
  - destruct (Z.leb_spec 0 g), (Z.ltb_spec g (2 ^ 32)); cbn; try done. lia.
Qed.

Lemma block_hash_group_roundtrip_witness :
  ∃ key, make_block_hash_with_group_id [Byte.x61; Byte.x62] 513 = Ok key ∧
    length key = (2 + 4)%nat ∧ get_block_hash key = [Byte.x61; Byte.x62] ∧ get_group_id key = 513.
Proof. apply (block_hash_group_roundtrip [Byte.x61; Byte.x62] 513). lia. Defined.

(** Shared form of the round trip, for clients. *)
Lemma make_key_inj h g h' g' key :
  make_block_hash_with_group_id h g = Ok key →
  make_block_hash_with_group_id h' g' = Ok key → h = h' ∧ g = g'.
Proof.
  unfold make_block_hash_with_group_id, int_to_bytes_be. change (256 ^ Z.of_nat 4) with (2 ^ 32).
  destruct ((0 <=? g) && (g <? 2 ^ 32)) eqn:E, ((0 <=? g') && (g' <? 2 ^ 32)) eqn:E';
    unfold mbind, result_bind; try done.
  intros H1 Heq. apply (inj Ok) in H1, Heq. subst key. zbool.
  assert (length (reverse (le_bytes 4 g')) = length (reverse (le_bytes 4 g))) as Hl
    by (by rewrite !length_reverse, !length_le_bytes).
  apply app_inj_2 in Heq as [-> Hb]; [|done]. split; [done|].
  apply (f_equal int_from_bytes_be) in Hb. unfold int_from_bytes_be in Hb.
  rewrite !reverse_involutive, !le_value_bytes, !Z.mod_small in Hb by (change (256 ^ Z.of_nat 4) with (2 ^ 32); lia).
  done.
Qed.

(** The integer form of an external block hash is the big-endian value of
    the hash's last eight bytes, hence in the unsigned 64-bit range; with the
    option off the bytes are passed through unchanged. *)
Theorem maybe_convert_block_hash_spec (h : bytes) :
  maybe_convert_block_hash false h = HashBytes h ∧
  maybe_convert_block_hash true h = HashInt (int_from_bytes_be (drop (length h - 8) h)) ∧
  0 ≤ int_from_bytes_be (drop (length h - 8) h) < 2 ^ 64.
Proof.
  split; [done|]. unfold maybe_convert_block_hash, int_from_bytes_be. cbn [negb].
  pose proof (le_value_range (reverse (drop (length h - 8) h))) as Hr.
  rewrite length_reverse, length_drop in Hr.
  assert (256 ^ Z.of_nat (length h - (length h - 8)) ≤ 2 ^ 64) as Hle.
  { change (2 ^ 64) with (256 ^ 8). apply Z.pow_le_mono_r; lia. }
  split; [|lia]. f_equal.
  change (Z.shiftl 1 64 - 1) with (Z.ones 64). rewrite Z.land_ones by lia.
  destruct (decide (length h ≤ 8)%nat) as [Hs|Hl].
  - replace (length h - 8)%nat with 0%nat in * by lia. rewrite drop_0 in *.
    apply Z.mod_small. lia.
  - rewrite <- (take_drop (length h - 8) h) at 1. rewrite reverse_app, le_value_app.
    rewrite length_reverse, length_drop.
    replace (Z.of_nat (length h - (length h - 8))) with 8 by lia.
    change (256 ^ 8) with (2 ^ 64). rewrite Z.mul_comm, Z.mod_add by lia.
    apply Z.mod_small. lia.
Qed.

(** ** Facts: extra keys of a block *)

(** Multi-modal inputs in prompt order, not overlapping. *)
Definition mm_sorted (fs : list MultiModalFeatureSpec) : Prop :=
  StronglySorted (λ f g, mm_end f ≤ offset (mm_position g)) fs ∧
  Forall (λ f, 0 ≤ length_ (mm_position f)) fs.

(** The inputs that overlap a block, and the keys they contribute. *)
Definition overlaps (s e : Z) (f : MultiModalFeatureSpec) : Prop :=
  offset (mm_position f) < e ∧ s < mm_end f.
#[export] Instance overlaps_dec s e f : Decision (overlaps s e f).
Proof. unfold overlaps. apply _. Defined.

Definition mm_key (s : Z) (f : MultiModalFeatureSpec) : extra_key :=
  KeyMM (identifier f) (offset (mm_position f) - s).
Definition mm_keys (fs : list MultiModalFeatureSpec) (s e : Z) : list extra_key :=
  mm_key s <$> filter (overlaps s e) fs.

(** [curr_mm_idx] is usable for a block that starts at [s]: the features it
    skips have all ended. *)
Definition mm_idx_ok (fs : list MultiModalFeatureSpec) (idx s : Z) : Prop :=
  fs = [] ∨
  (- zlen fs ≤ idx ∧
   Forall (λ f, mm_end f ≤ s) (take (Z.to_nat (if idx <? 0 then zlen fs + idx else idx)) fs)).

Lemma filter_none {A} (P : A → Prop) `{!∀ x, Decision (P x)} l :
  Forall (λ x, ¬ P x) l → filter P l = [].
Proof. induction 1; [done|]. by rewrite filter_cons_False. Qed.

Lemma mm_sorted_tail f fs : mm_sorted (f :: fs) → mm_sorted fs.
Proof. intros [H1 H2]. split; [by inversion H1|by inversion H2]. Qed.

Lemma mm_sorted_drop n fs : mm_sorted fs → mm_sorted (drop n fs).
Proof.
  revert n. induction fs as [|f fs IH]; intros [|n] H; cbn; try done.
  apply IH. by eapply mm_sorted_tail.
Qed.

(** Everything after [f] starts at or after [f]'s end. *)
Lemma mm_sorted_after f fs x :
  mm_sorted (f :: fs) → x ≤ mm_end f → Forall (λ g, x ≤ offset (mm_position g)) fs.
Proof.
  intros [H1 _] Hx. inversion_clear H1 as [|?? Hs Hf].
  eapply Forall_impl; [exact Hf|]. cbn. lia.
Qed.

Lemma mm_scan_spec s e fs idx acc :
  mm_sorted fs → s < e →
  ∃ n, (n ≤ length fs)%nat ∧
    mm_scan s e fs idx acc = (acc ++ mm_keys fs s e, idx + Z.of_nat n) ∧
    Forall (λ f, mm_end f ≤ e) (take n fs).
Proof.
  intros Hs Hse. revert idx acc. induction fs as [|f fs IH]; intros idx acc.
  { exists 0%nat. unfold mm_keys. cbn. by rewrite app_nil_r, Z.add_0_r. }
  assert (0 ≤ length_ (mm_position f)) as Hlen by (destruct Hs as [_ H]; by inversion H).
  specialize (IH (mm_sorted_tail _ _ Hs)). cbn [mm_scan]. cbv zeta.
  change (KeyMM (identifier f) (offset (mm_position f) - s)) with (mm_key s f).
  assert (∀ x, x ≤ mm_end f → e ≤ x → filter (overlaps s e) fs = []) as Hnone.
  { intros x Hx He. apply filter_none.
    eapply Forall_impl; [by apply (mm_sorted_after f fs x)|]. unfold overlaps. cbn. lia. }
  assert (mm_end f = offset (mm_position f) + length_ (mm_position f)) as Hend by done.
  destruct (Z.gtb_spec e (offset (mm_position f))) as [H1|H1].
  - destruct (Z.geb_spec s (mm_end f)) as [H2|H2].
    + destruct (IH (idx + 1) acc) as (n & Hn & -> & HF).
      exists (S n). split; [cbn; lia|]. unfold mm_keys. rewrite filter_cons_False by (unfold overlaps; lia).
      split; [f_equal; lia|]. cbn. constructor; [lia|done].
    + destruct (Z.geb_spec e (mm_end f)) as [H3|H3].
      * destruct (IH (idx + 1) (acc ++ [mm_key s f])) as (n & Hn & -> & HF).
        exists (S n). split; [cbn; lia|]. unfold mm_keys. rewrite filter_cons_True by (unfold overlaps; lia).
        rewrite <- app_assoc. split; [f_equal; lia|]. cbn. constructor; [lia|done].
      * exists 0%nat. split; [lia|]. unfold mm_keys. rewrite filter_cons_True by (unfold overlaps; lia).
        rewrite (Hnone e) by lia. split; [f_equal; lia|constructor].
  - exists 0%nat. split; [lia|]. unfold mm_keys. rewrite filter_cons_False by (unfold overlaps; lia).
    rewrite (Hnone (mm_end f)) by lia. split; [f_equal; [by rewrite app_nil_r|lia]|constructor].
Qed.

Lemma mm_sorted_last_ended fs f x :
  mm_sorted fs → last fs = Some f → mm_end f ≤ x → Forall (λ g, mm_end g ≤ x) fs.
Proof.
  intros Hs Hl Hx. apply last_Some in Hl as [fs' ->]. destruct Hs as [Hs Hp].
  apply Forall_app. split; [|by constructor].
  apply Forall_forall. intros g Hg.
  apply list_elem_of_lookup in Hg as [i Hi].
  assert (mm_end g ≤ offset (mm_position f)).
  { clear -Hs Hi. revert i Hi. induction fs' as [|a fs' IH]; intros [|i]; cbn in *; try done.
    - intros [= ->]. inversion_clear Hs as [|?? _ HF].
      by apply Forall_app in HF as [_ [? _]%Forall_cons].
    - apply IH. by inversion Hs. }
  apply Forall_app in Hp as [_ [? _]%Forall_cons]. unfold mm_end in *. lia.
Qed.

Lemma Forall_not_overlaps_before s e fs :
  Forall (λ f, mm_end f ≤ s) fs → filter (overlaps s e) fs = [].
Proof.
  intros H. apply filter_none. eapply Forall_impl; [exact H|]. unfold overlaps. cbn. lia.
Qed.

(** The resumable scan finds exactly the inputs that overlap the block, from
    any usable start index, and leaves an index usable for the next block. *)
Lemma gen_mm_spec r s e idx :
  mm_sorted (mm_features r) → s < e → mm_idx_ok (mm_features r) idx s →
  ∃ idx', _gen_mm_extra_hash_keys r s e idx = Ok (mm_keys (mm_features r) s e, idx') ∧
    mm_idx_ok (mm_features r) idx' e.
Proof.
  intros Hs Hse Hidx. unfold _gen_mm_extra_hash_keys.
  destruct (last (mm_features r)) as [lf|] eqn:El; cycle 1.
  { apply last_None in El. rewrite El. exists idx. split; [done|by left]. }
  destruct Hidx as [Hnil|[Hlo HF]]; [by rewrite Hnil in El|].
  destruct (Z.leb_spec (mm_end lf) s) as [Hend|Hend].
  - assert (Forall (λ g, mm_end g ≤ s) (mm_features r)) as Hall by eauto using mm_sorted_last_ended.
    exists idx. unfold mm_keys. rewrite Forall_not_overlaps_before by done. split; [done|].
    right. split; [done|]. apply Forall_take.
    eapply Forall_impl; [exact Hall|]. cbn. lia.
  - set (n0 := if idx <? 0 then zlen (mm_features r) + idx else idx) in *.
    assert ((if idx <? 0 then
           _ ← assert_ (- idx <=? zlen (mm_features r)); Ok (zlen (mm_features r) + idx)
         else Ok idx) = Ok n0) as ->.
    { unfold n0. destruct (idx <? 0); [|done]. rewrite (proj2 (Z.leb_le _ _)) by lia. done. }
    unfold mbind at 1; cbn [result_bind].
    destruct (mm_scan_spec s e (drop (Z.to_nat n0) (mm_features r)) n0 []) as (n & Hn & -> & HF2);
      [by apply mm_sorted_drop|done|].
    assert (0 ≤ n0) as Hn0 by (unfold n0; destruct (Z.ltb_spec idx 0); lia).
    exists (n0 + Z.of_nat n). split.
    + f_equal. f_equal. unfold mm_keys. cbn [app]. f_equal.
      rewrite <- (take_drop (Z.to_nat n0) (mm_features r)) at 2.
      rewrite filter_app, (Forall_not_overlaps_before s e (take _ _)); done.
    + right. split; [lia|]. rewrite (proj2 (Z.ltb_ge _ 0)) by lia.
      replace (Z.to_nat (n0 + Z.of_nat n)) with (Z.to_nat n0 + n)%nat by lia.
      rewrite <- take_take_drop. apply Forall_app. split; [|done].
      eapply Forall_impl; [exact HF|]. cbn. lia.
Qed.

(** ** Facts: the hash chain of a request

    [chain_hashes] is the specification of prefix-cache hashing: the hash of
    block [i] is a function of the previous block's hash, the block's tokens
    and the block's extra keys, and of nothing else. *)

(** The fields hashing reads, less the memo table it updates. *)
Definition same_but_memo (r r' : Request) : Prop :=
  ∃ m, r' = with_prompt_embeds_per_block_hashes m r.

Lemma same_but_memo_refl r : same_but_memo r r.
Proof. exists (r.(_prompt_embeds_per_block_hashes)). by destruct r. Qed.

Lemma same_but_memo_trans r1 r2 r3 :
  same_but_memo r1 r2 → same_but_memo r2 r3 → same_but_memo r1 r3.
Proof. intros [m1 ->] [m2 ->]. exists m2. by destruct r1. Qed.

Section HashChain.
Context (sha256 : bytes → bytes) (hash_function : hash_input → bytes) (NONE_HASH : bytes).
Context (hbs : Z) (Hhbs : 0 < hbs).

(** Every memoised embedding digest is the digest of its range. *)
Definition memo_ok (r : Request) : Prop :=
  ∀ s e h, r.(_prompt_embeds_per_block_hashes) !! (s, e) = Some h →
    ∃ rows, prompt_embeds r = Some rows ∧ h = embeds_digest sha256 rows s e.

Definition embeds_keys (r : Request) (s e : Z) : list extra_key :=
  match prompt_embeds r with
  | None => []
  | Some rows => [KeyEmbeds (embeds_digest sha256 rows s e)]
  end.

Definition block_extra_keys (r : Request) (s e : Z) : option (list extra_key) :=
  match _gen_lora_extra_hash_keys r ++ mm_keys (mm_features r) s e
        ++ cache_salt_keys r s ++ embeds_keys r s e with
  | [] => None
  | ks => Some ks
  end.

Definition block_tokens (r : Request) (i : nat) : list Z :=
  py_slice (r.(_all_token_ids)) (Z.of_nat i * hbs) ((Z.of_nat i + 1) * hbs).

Definition block_keys (r : Request) (i : nat) : option (list extra_key) :=
  block_extra_keys r (Z.of_nat i * hbs) ((Z.of_nat i + 1) * hbs).

Fixpoint chain_hashes (r : Request) (prev : option bytes) (i n : nat) : list bytes :=
  match n with
  | O => []
  | S n =>
      let h := hash_block_tokens hash_function NONE_HASH prev (block_tokens r i) (block_keys r i) in
      h :: chain_hashes r (Some h) (S i) n
  end.

Definition num_full_blocks (r : Request) : nat := Z.to_nat (num_tokens r / hbs).

(** The invariant of [Request.block_hashes]. *)
Definition block_hashes_ok (r : Request) : Prop :=
  block_hashes r = chain_hashes r None 0 (num_full_blocks r).

Lemma chain_hashes_memo r r' prev i n :
  same_but_memo r r' → chain_hashes r' prev i n = chain_hashes r prev i n.
Proof.
  intros [m ->]. revert prev i. induction n as [|n IH]; intros prev i; [done|].
  cbn [chain_hashes]. cbv zeta. rewrite IH. reflexivity.
Qed.

Lemma length_chain_hashes r prev i n : length (chain_hashes r prev i n) = n.
Proof. revert prev i. induction n as [|n IH]; intros; cbn; [done|]. by rewrite IH. Qed.

Lemma chain_hashes_app r prev i n m :
  chain_hashes r prev i (n + m) =
  chain_hashes r prev i n ++
  chain_hashes r (if n is O then prev else last (chain_hashes r prev i n)) (i + n) m.
Proof.
  revert prev i. induction n as [|n IH]; intros prev i; cbn [chain_hashes Nat.add app].
  { by rewrite Nat.add_0_r. }
  rewrite IH. cbn zeta. cbn [app]. rewrite (Nat.add_succ_r i n). f_equal. f_equal.
  by destruct n.
Qed.

Lemma gen_embeds_spec r s e :
  memo_ok r →
  ∃ r', _gen_prompt_embeds_extra_hash_keys sha256 r s e = (embeds_keys r s e, r') ∧
    same_but_memo r r' ∧ memo_ok r'.
Proof.
  intros Hm. unfold _gen_prompt_embeds_extra_hash_keys, embeds_keys.
  destruct (prompt_embeds r) as [rows|] eqn:Er; [|by eauto using same_but_memo_refl].
  destruct (_prompt_embeds_per_block_hashes r !! (s, e)) as [h|] eqn:Eh.
  - destruct (Hm _ _ _ Eh) as (rows' & Hr & ->). rewrite Er in Hr. injection Hr as ->.
    eauto using same_but_memo_refl.
  - eexists. split; [done|]. split; [by eexists|].
    intros s' e' h'. destruct r; cbn in *. rewrite lookup_insert_Some.
    intros [[[= <- <-] <-]|[_ Hl]]; [by eauto|by apply Hm].
Qed.

(** One block: the generated keys are [block_extra_keys], from any usable
    index into the multi-modal inputs and whatever the memo table holds. *)
Lemma generate_keys_spec r s e idx :
  mm_sorted (mm_features r) → memo_ok r → s < e → mm_idx_ok (mm_features r) idx s →
  ∃ idx' r', generate_block_hash_extra_keys sha256 r s e idx
             = Ok (block_extra_keys r s e, idx', r') ∧
    mm_idx_ok (mm_features r) idx' e ∧ same_but_memo r r' ∧ memo_ok r'.
Proof.
  intros Hs Hm Hse Hidx. unfold generate_block_hash_extra_keys.
  destruct (gen_mm_spec r s e idx Hs Hse Hidx) as (idx' & -> & Hidx').
  destruct (gen_embeds_spec r s e Hm) as (r' & Hr & Hsame & Hm').
  unfold mbind; cbn [result_bind]. rewrite Hr. exists idx', r'. split_and!; try done.
  unfold block_extra_keys. by destruct (_ ++ _).
Qed.

Lemma hasher_loop_spec fuel i r idx prev acc :
  mm_sorted (mm_features r) → memo_ok r → mm_idx_ok (mm_features r) idx (Z.of_nat i * hbs) →
  (i ≤ num_full_blocks r)%nat → (num_full_blocks r - i < fuel)%nat →
  ∃ r', hasher_loop sha256 hash_function NONE_HASH fuel hbs (num_tokens r) r
          (Z.of_nat i * hbs) idx prev acc
        = Ok (acc ++ chain_hashes r prev i (num_full_blocks r - i), r') ∧
    same_but_memo r r' ∧ memo_ok r'.
Proof.
  revert i r idx prev acc. induction fuel as [|fuel IH]; intros i r idx prev acc Hs Hm Hidx Hi Hf; [lia|].
  assert (num_tokens r / hbs = Z.of_nat (num_full_blocks r)) as Hn.
  { unfold num_full_blocks. rewrite Z2Nat.id; [done|]. apply Z.div_pos; [unfold num_tokens; lia|done]. }
  pose proof (Z.div_mod (num_tokens r) hbs ltac:(lia)) as Hdm.
  pose proof (Z.mod_pos_bound (num_tokens r) hbs Hhbs) as Hmb. rewrite Hn in Hdm.
  cbn [hasher_loop]. cbv zeta.
  destruct (Z.gtb_spec (Z.of_nat i * hbs + hbs) (num_tokens r)) as [Hgt|Hle].
  - replace (num_full_blocks r - i)%nat with 0%nat by nia.
    cbn. rewrite app_nil_r. eauto using same_but_memo_refl.
  - destruct (num_full_blocks r - i)%nat as [|k] eqn:Ek; [nia|].
    replace (Z.of_nat i * hbs + hbs) with ((Z.of_nat i + 1) * hbs) by lia.
    destruct (generate_keys_spec r (Z.of_nat i * hbs) ((Z.of_nat i + 1) * hbs) idx)
      as (idx' & r' & -> & Hidx' & Hsame & Hm'); [done|done|nia|done|].
    unfold mbind; cbn [result_bind]. destruct Hsame as [m ->].
    set (h := hash_block_tokens _ _ _ _ _).
    destruct (IH (S i) (with_prompt_embeds_per_block_hashes m r) idx' (Some h) (acc ++ [h]))
      as (r'' & Hr'' & Hsame' & Hm''); try (by destruct r).
    + replace (Z.of_nat (S i)) with (Z.of_nat i + 1) by lia. by destruct r.
    + replace (num_full_blocks (with_prompt_embeds_per_block_hashes m r))
        with (num_full_blocks r) by (by destruct r). lia.
    + replace (num_full_blocks (with_prompt_embeds_per_block_hashes m r))
        with (num_full_blocks r) by (by destruct r). lia.
    + replace (num_full_blocks (with_prompt_embeds_per_block_hashes m r))
        with (num_full_blocks r) in Hr'' by (by destruct r).
      replace (num_tokens (with_prompt_embeds_per_block_hashes m r))
        with (num_tokens r) in Hr'' by (by destruct r).
      replace (Z.of_nat (S i)) with (Z.of_nat i + 1) in Hr'' by lia.
      replace (num_full_blocks r - S i)%nat with k in Hr'' by lia.
      exists r''. split; [|split; [|done]].
      * rewrite Hr''. f_equal. f_equal. rewrite <- app_assoc. f_equal. cbn [chain_hashes app].
        f_equal. rewrite (chain_hashes_memo r); [done|by exists m].
      * eapply same_but_memo_trans; [|done]. by exists m.
Qed.

(** The index the hasher starts from is usable: either nothing was hashed yet,
    or all inputs but the last end in the part already hashed. *)
Definition mm_tail_ok (r : Request) : Prop :=
  block_hashes r = [] ∨
  Forall (λ f, mm_end f ≤ zlen (block_hashes r) * hbs)
    (take (length (mm_features r) - 1) (mm_features r)).

Lemma mm_tail_idx_ok r :
  mm_tail_ok r →
  mm_idx_ok (mm_features r) (if zlen (block_hashes r) * hbs >? 0 then -1 else 0)
    (zlen (block_hashes r) * hbs).
Proof.
  intros [Hnil|HF].
  - rewrite Hnil. right. change (zlen []) with 0. rewrite Z.mul_0_l.
    change (0 >? 0) with false. change (0 <? 0) with false. split; [lia|constructor].
  - destruct (mm_features r) as [|f fs] eqn:Ef; [by left|]. right.
    destruct (Z.gtb_spec (zlen (block_hashes r) * hbs) 0) as [H|H]; cbn [length].
    + split; [lia|]. rewrite (proj2 (Z.ltb_lt (-1) 0)) by lia.
      replace (Z.to_nat (Z.of_nat (S (length fs)) + -1)) with (length (f :: fs) - 1)%nat
        by (cbn [length]; lia). done.
    + split; [lia|constructor].
Qed.

Lemma request_block_hasher_spec r :
  mm_sorted (mm_features r) → memo_ok r → mm_tail_ok r →
  ∃ r', request_block_hasher sha256 hash_function NONE_HASH hbs r
        = Ok (chain_hashes r (last (block_hashes r)) (length (block_hashes r))
                (num_full_blocks r - length (block_hashes r)), r') ∧
    same_but_memo r r' ∧ memo_ok r'.
Proof.
  intros Hs Hm Ht. unfold request_block_hasher.
  assert (num_tokens r / hbs = Z.of_nat (num_full_blocks r)) as Hn.
  { unfold num_full_blocks. rewrite Z2Nat.id; [done|]. apply Z.div_pos; [unfold num_tokens; lia|done]. }
  pose proof (Z.div_mod (num_tokens r) hbs ltac:(lia)) as Hdm.
  pose proof (Z.mod_pos_bound (num_tokens r) hbs Hhbs) as Hmb. rewrite Hn in Hdm.
  destruct (Z.gtb_spec (zlen (block_hashes r) * hbs + hbs) (num_tokens r)).
  - replace (num_full_blocks r - length (block_hashes r))%nat with 0%nat by nia.
    eauto using same_but_memo_refl.
  - apply hasher_loop_spec; try done; [by apply mm_tail_idx_ok|nia|].
    unfold num_full_blocks. lia.
Qed.

Lemma chain_hashes_ext r r' prev i n :
  (∀ j, (i ≤ j < i + n)%nat → block_tokens r j = block_tokens r' j ∧ block_keys r j = block_keys r' j) →
  chain_hashes r prev i n = chain_hashes r' prev i n.
Proof.
  revert prev i. induction n as [|n IH]; intros prev i H; [done|]. cbn [chain_hashes].
  destruct (H i) as [-> ->]; [lia|]. f_equal. apply IH. intros j Hj. apply H. lia.
Qed.

(** Extending a chain that covers a prefix of the request's blocks. *)
Lemma update_block_hashes_spec r n :
  mm_sorted (mm_features r) → memo_ok r → mm_tail_ok r →
  (n ≤ num_full_blocks r)%nat → block_hashes r = chain_hashes r None 0 n →
  ∃ r', update_block_hashes (Some (request_block_hasher sha256 hash_function NONE_HASH hbs)) r = Ok r' ∧
    (∃ m, r' = with_block_hashes (chain_hashes r None 0 (num_full_blocks r))
                 (with_prompt_embeds_per_block_hashes m r)) ∧
    block_hashes_ok r' ∧ memo_ok r'.
Proof.
  intros Hs Hm Ht Hn Hb. unfold update_block_hashes.
  destruct (request_block_hasher_spec r) as (r' & -> & [m ->] & Hm'); try done.
  unfold mbind; cbn [result_bind].
  replace (block_hashes (with_prompt_embeds_per_block_hashes m r)) with (block_hashes r) by done.
  rewrite Hb, length_chain_hashes.
  replace (chain_hashes r None 0 n ++ _) with (chain_hashes r None 0 (num_full_blocks r)).
  - eexists. split; [done|]. split; [by eexists|]. split; [|done].
    unfold block_hashes_ok. cbn.
    change (num_full_blocks _) with (num_full_blocks r). by apply chain_hashes_ext.
  - replace (num_full_blocks r) with (n + (num_full_blocks r - n))%nat at 1 by lia.
    rewrite chain_hashes_app. f_equal. by destruct n.
Qed.

Lemma block_tokens_nat r i :
  block_tokens r i = take (Z.to_nat hbs) (drop (i * Z.to_nat hbs) (r.(_all_token_ids))).
Proof.
  unfold block_tokens.
  replace (Z.of_nat i * hbs) with (Z.of_nat (i * Z.to_nat hbs)) by nia.
  replace ((Z.of_nat i + 1) * hbs) with (Z.of_nat (S i * Z.to_nat hbs)) by nia.
  rewrite py_slice_nat. f_equal. lia.
Qed.

Lemma num_full_blocks_bound r : (num_full_blocks r * Z.to_nat hbs ≤ length (r.(_all_token_ids)))%nat.
Proof.
  unfold num_full_blocks, num_tokens.
  pose proof (Z.div_mod (zlen (r.(_all_token_ids))) hbs ltac:(lia)).
  pose proof (Z.mod_pos_bound (zlen (r.(_all_token_ids))) hbs Hhbs).
  pose proof (Z.div_pos (zlen (r.(_all_token_ids))) hbs ltac:(lia) Hhbs). nia.
Qed.

Lemma append_update_spec r toks :
  mm_sorted (mm_features r) → memo_ok r → mm_tail_ok r → block_hashes_ok r →
  ∃ r', append_output_token_ids
          (Some (request_block_hasher sha256 hash_function NONE_HASH hbs)) toks r = Ok r' ∧
    r'.(_all_token_ids) = r.(_all_token_ids) ++ toks ∧
    r'.(_output_token_ids) = r.(_output_token_ids) ++ toks ∧
    block_hashes_ok r' ∧ memo_ok r' ∧
    block_hashes r = take (length (block_hashes r)) (block_hashes r') ∧
    ∃ hs m, r' = with_block_hashes hs (with_prompt_embeds_per_block_hashes m
      (with_all_token_ids (r.(_all_token_ids) ++ toks) (with_output_token_ids (r.(_output_token_ids) ++ toks) r))).
Proof.
  intros Hs Hm Ht Hb. unfold append_output_token_ids.
  set (r1 := with_all_token_ids _ _).
  pose proof (num_full_blocks_bound r) as Hnb.
  assert (num_full_blocks r ≤ num_full_blocks r1)%nat as Hle.
  { unfold num_full_blocks, num_tokens. cbn. rewrite length_app. apply Z2Nat.inj_le.
    1,2: apply Z.div_pos; lia. apply Z.div_le_mono; lia. }
  assert (block_hashes r1 = chain_hashes r1 None 0 (num_full_blocks r)) as Hb1.
  { change (block_hashes r1) with (block_hashes r). rewrite Hb. apply chain_hashes_ext.
    intros j Hj. split; [|done]. rewrite !block_tokens_nat. cbn. rewrite drop_app_le by nia.
    rewrite take_app_le; [done|]. rewrite length_drop. nia. }
  destruct (update_block_hashes_spec r1 (num_full_blocks r))
    as (r' & -> & [m ->] & Hok & Hm'); try done.
  eexists. split; [done|]. split_and!; try done; [|by eexists _, _]. cbn.
  change (block_hashes r1) with (block_hashes r) in Hb1. rewrite Hb1, length_chain_hashes.
  replace (num_full_blocks r1) with (num_full_blocks r + (num_full_blocks r1 - num_full_blocks r))%nat by lia.
  rewrite chain_hashes_app, take_app_le, take_ge; rewrite ?length_chain_hashes; [|lia|lia].
  done.
Qed.

(** What block [i]'s hash is computed from, read off the request. *)
Definition block_input (r : Request) (i : nat) : hash_input :=
  (match i with O => NONE_HASH | S j => parent_or_none NONE_HASH (block_hashes r !! j) end,
   block_tokens r i, block_keys r i).

Lemma chain_hashes_lookup r prev i n k h :
  chain_hashes r prev i n !! k = Some h →
  h = hash_function (parent_or_none NONE_HASH
        (match k with O => prev | S j => chain_hashes r prev i n !! j end),
        block_tokens r (i + k), block_keys r (i + k)).
Proof.
  revert prev i k. induction n as [|n IH]; intros prev i [|k]; try done.
  - intros [= <-]. by rewrite Nat.add_0_r.
  - cbn [chain_hashes]. cbv zeta. intros Hk. cbn in Hk.
    rewrite <- Nat.add_succ_comm. rewrite (IH _ _ _ Hk) at 1. by destruct k.
Qed.

Lemma block_hash_is_hash r i h :
  block_hashes_ok r → block_hashes r !! i = Some h → h = hash_function (block_input r i).
Proof.
  intros Hok Hi. rewrite Hok in Hi. rewrite (chain_hashes_lookup _ _ _ _ _ _ Hi).
  unfold block_input. rewrite Hok. by destruct i.
Qed.

Lemma take_blocks r i :
  take (S i * Z.to_nat hbs) (r.(_all_token_ids))
  = take (i * Z.to_nat hbs) (r.(_all_token_ids)) ++ block_tokens r i.
Proof. rewrite block_tokens_nat, take_take_drop. f_equal. lia. Qed.

(** All the inputs hashed for blocks [0 .. i]. *)
Definition inputs_upto (r : Request) (i : nat) : list hash_input := block_input r <$> seq 0 (S i).

Lemma inputs_upto_S r i : inputs_upto r (S i) = inputs_upto r i ++ [block_input r (S i)].
Proof.
  unfold inputs_upto. replace (S (S i)) with (S i + 1)%nat by lia.
  by rewrite seq_app, fmap_app.
Qed.

(** The ways two chains can agree without agreeing on content: two different
    inputs with one hash, or an input that hashes to the seed or to the empty
    string (which [hash_block_tokens] replaces by the seed). *)
Definition hash_clash (ins : list hash_input) : Prop :=
  (∃ a b, a ∈ ins ∧ b ∈ ins ∧ a ≠ b ∧ hash_function a = hash_function b) ∨
  (∃ a, a ∈ ins ∧ (hash_function a = NONE_HASH ∨ hash_function a = [])).

Lemma hash_clash_mono ins ins' : ins ⊆ ins' → hash_clash ins → hash_clash ins'.
Proof.
  intros Hs [(a & b & Ha & Hb & ?)|(a & Ha & ?)]; [left; exists a, b|right; exists a].
  - split_and!; [by apply Hs|by apply Hs|naive_solver..].
  - split; [by apply Hs|done].
Qed.

Lemma block_input_in r i : block_input r i ∈ inputs_upto r i.
Proof. unfold inputs_upto. apply list_elem_of_fmap_2. apply elem_of_seq. lia. Qed.

Lemma block_hashes_lookup_pred r i h :
  block_hashes r !! S i = Some h → ∃ h', block_hashes r !! i = Some h'.
Proof.
  intros H%lookup_lt_Some. apply lookup_lt_is_Some. lia.
Qed.

Lemma parent_clash r i h :
  block_hashes_ok r → block_hashes r !! i = Some h →
  parent_or_none NONE_HASH (Some h) = h ∧ h ≠ NONE_HASH ∨ hash_clash (inputs_upto r i).
Proof.
  intros Hok Hi. pose proof (block_hash_is_hash _ _ _ Hok Hi) as Hh.
  destruct (decide (h = NONE_HASH)); [|destruct h as [|b h]]; [| |by left].
  all: right; right; exists (block_input r i); split; [apply block_input_in|].
  - left. congruence.
  - right. done.
Qed.

Lemma chain_fingerprint r1 r2 i j h :
  block_hashes_ok r1 → block_hashes_ok r2 →
  block_hashes r1 !! i = Some h → block_hashes r2 !! j = Some h →
  (i = j ∧ take (S i * Z.to_nat hbs) (r1.(_all_token_ids)) = take (S i * Z.to_nat hbs) (r2.(_all_token_ids)) ∧
   ∀ k, (k ≤ i)%nat → block_keys r1 k = block_keys r2 k)
  ∨ hash_clash (inputs_upto r1 i ++ inputs_upto r2 j).
Proof.
  intros Hok1 Hok2. revert j h. induction i as [|i IH]; intros j h Hi Hj.
  all: pose proof (block_hash_is_hash _ _ _ Hok1 Hi) as E1.
  all: pose proof (block_hash_is_hash _ _ _ Hok2 Hj) as E2.
  all: match type of E1 with _ = hash_function ?x =>
         destruct (decide (x = block_input r2 j)) as [Heq|Hne] end;
    [|right; left; do 2 eexists; split_and!; [apply elem_of_app; left; apply block_input_in
        |apply elem_of_app; right; apply block_input_in|done|congruence]].
  all: unfold block_input in Heq; injection Heq as Hp Ht Hk.
  - destruct j as [|j].
    + left. split; [done|]. rewrite !take_blocks, Ht. split; [done|].
      intros k ?. by replace k with 0%nat by lia.
    + destruct (block_hashes_lookup_pred _ _ _ Hj) as [h' Hj'].
      destruct (parent_clash _ _ _ Hok2 Hj') as [[Hp' Hn']|Hc]; [by rewrite Hj', Hp' in Hp; subst|].
      right. eapply hash_clash_mono; [|exact Hc].
      intros x. rewrite ?inputs_upto_S, !elem_of_app. tauto.
  - destruct (block_hashes_lookup_pred _ _ _ Hi) as [h' Hi'].
    destruct (parent_clash _ _ _ Hok1 Hi') as [[Hp' Hn']|Hc]; cycle 1.
    { right. eapply hash_clash_mono; [|exact Hc].
      intros x. rewrite ?inputs_upto_S, !elem_of_app. tauto. }
    rewrite Hi', Hp' in Hp. destruct j as [|j]; [done|].
    destruct (block_hashes_lookup_pred _ _ _ Hj) as [h'' Hj'].
    destruct (parent_clash _ _ _ Hok2 Hj') as [[Hp'' Hn'']|Hc]; cycle 1.
    { right. eapply hash_clash_mono; [|exact Hc].
      intros x. rewrite ?inputs_upto_S, !elem_of_app. tauto. }
    rewrite Hj', Hp'' in Hp. subst h''.
    destruct (IH j h' Hi' Hj') as [(<- & HT & HK)|Hc].
    + left. split; [done|]. rewrite take_blocks, HT, Ht, <- take_blocks. split; [done|].
      intros k ?. destruct (decide (k = S i)) as [->|]; [done|]. apply HK. lia.
    + right. eapply hash_clash_mono; [|exact Hc].
      intros x. rewrite !inputs_upto_S, !elem_of_app. tauto.
Qed.

End HashChain.

(** ** Facts: the view at a coarser block size *)

(** The hash the view gives for its block [i]. *)
Definition view_hash (hs : list bytes) (k : nat) (i : Z) : bytes :=
  default [] (hs !! (Z.to_nat (i + 1) * k - 1)%nat).

Lemma view_get_ok hs k i :
  (0 < k)%nat → 0 ≤ i < zlen hs / Z.of_nat k →
  _get_value_at (mkHashView hs (Z.of_nat k)) i = Ok (view_hash hs k i) ∧
  (Z.to_nat (i + 1) * k - 1 < length hs)%nat.
Proof.
  intros Hk Hi. pose proof (Z.mul_div_le (zlen hs) (Z.of_nat k) ltac:(lia)) as Hm.
  assert (Z.to_nat (i + 1) * k - 1 < length hs)%nat as Hlt by nia. split; [|done].
  unfold _get_value_at, view_hash. cbn [hv_block_hashes scale_factor].
  destruct (lookup_lt_is_Some_2 hs _ Hlt) as [h Hh]. rewrite Hh.
  apply py_get_nonneg; [nia|]. etrans; [|exact Hh]. f_equal. nia.
Qed.

(** a hash list viewed at [k] times the hash block size has one hash per
    [k] hashes: block [i] of the view is the hash of the last of its [k]
    hash blocks, which is defined for every index below the view's length;
    slices and iteration never raise and agree with indexing; a target size
    that is not a multiple of the hash block size is refused. *)
Theorem hash_view_spec (hs : list bytes) (hbs : Z) (k : nat) (Hhbs : 0 < hbs) (Hk : (0 < k)%nat) :
  ∃ v, BlockHashListWithBlockSize_init hs hbs (Z.of_nat k * hbs) = Ok v ∧
    hv_len v = zlen hs / Z.of_nat k ∧
    (∀ i, 0 ≤ i < hv_len v →
       ∃ h, _get_value_at v i = Ok h ∧ hs !! (Z.to_nat (i + 1) * k - 1)%nat = Some h) ∧
    hv_iter v = Ok (view_hash hs k <$> py_range 0 (hv_len v)) ∧
    (∀ a b, hv_slice v a b = Ok (py_slice (view_hash hs k <$> py_range 0 (hv_len v)) a b)) ∧
    (∀ t, t mod hbs ≠ 0 → BlockHashListWithBlockSize_init hs hbs t = Raise AssertionError).
Proof.
  exists (mkHashView hs (Z.of_nat k)). unfold BlockHashListWithBlockSize_init.
  rewrite Z.mod_mul, Z.div_mul by lia. split; [done|]. split; [done|].
  assert (0 ≤ zlen hs / Z.of_nat k) as Hpos by (apply Z.div_pos; lia).
  unfold hv_iter, hv_slice, hv_len. cbn [hv_block_hashes scale_factor].
  split_and!.
  - intros i Hi. destruct (view_get_ok hs k i Hk Hi) as [-> Hlt].
    destruct (lookup_lt_is_Some_2 hs _ Hlt) as [h Hh].
    unfold view_hash. rewrite Hh. by exists h.
  - apply mapR_Ok. unfold py_range. intros i Hi%elem_of_seqZ. apply view_get_ok; lia.
  - intros a b. set (n := zlen hs / Z.of_nat k) in *. unfold py_slice.
    rewrite length_fmap. unfold py_range at 2 3 4. rewrite length_seqZ, Z.sub_0_r, Z2Nat.id by done.
    pose proof (py_clip_range n a Hpos). pose proof (py_clip_range n b Hpos).
    rewrite (mapR_Ok _ (view_hash hs k)).
    + f_equal. rewrite <- fmap_drop, <- fmap_take. f_equal. unfold py_range.
      apply list_eq. intros j. 
      destruct (decide (Z.of_nat j < py_clip n b - py_clip n a)).
      * rewrite lookup_seqZ_lt by lia. rewrite lookup_take_lt by lia.
        rewrite lookup_drop, lookup_seqZ_lt by lia. f_equal. lia.
      * rewrite lookup_seqZ_ge by lia. rewrite lookup_take_ge by lia. done.
    + unfold py_range. intros i Hi%elem_of_seqZ. apply view_get_ok; lia.
  - intros t Ht. by rewrite (proj2 (Z.eqb_neq _ _)).
Qed.

Lemma hash_view_spec_witness :
  ∃ v, BlockHashListWithBlockSize_init [[Byte.x01]; [Byte.x02]; [Byte.x03]] 16 (Z.of_nat 2 * 16) = Ok v ∧
    hv_len v = 1.
Proof.
  destruct (hash_view_spec [[Byte.x01]; [Byte.x02]; [Byte.x03]] 16 2) as (v & H1 & H2 & _); [lia|lia|].
  exists v. split; [exact H1|]. rewrite H2. reflexivity.
Defined.

(** ** The hashing properties of requests *)

(** A small hash for the witnesses: a tag, the parent's length, the tokens. *)
Definition toy_hash (x : hash_input) : bytes :=
  let '(p, toks, _) := x in Byte.x01 :: byte_of_Z (zlen p) :: (byte_of_Z <$> toks).

Definition toy_request (ids : list Z) (fs : list MultiModalFeatureSpec) : result Request :=
  Request_init (Some (request_block_hasher id toy_hash [Byte.x00] 2)) "r" 0 (Some ids)
    (Some (mkSampling (Some 8) 0 None [] None None)) None 0 0 None fs None None 0 false false.

(** Constructing a request hashes all of its full blocks.  With
    well-placed multi-modal inputs and parameters that determine
    [max_tokens], [Request.__init__] returns, and its [block_hashes] are the
    hash chain over every full block of the prompt. *)
Lemma init_hashes_ok (sha256 : bytes → bytes) (hash_function : hash_input → bytes)
    (NONE_HASH : bytes) (hbs : Z) rid pid ids sp pp ci at_ embeds fs lora salt prio so res n
    (Hhbs : 0 < hbs) (Hfs : mm_sorted fs)
    (Hparams : pp ≠ None ∨ ∃ p m, sp = Some p ∧ sp_max_tokens p = Some m)
    (Hlen : length_from_prompt_token_ids_or_embeds ids embeds = Ok n) :
  ∃ r, Request_init (Some (request_block_hasher sha256 hash_function NONE_HASH hbs))
         rid pid ids sp pp ci at_ embeds fs lora salt prio so res = Ok r ∧
    num_tokens r = n ∧ length (block_hashes r) = Z.to_nat (n / hbs) ∧
    block_hashes_ok sha256 hash_function NONE_HASH hbs r ∧ memo_ok sha256 r ∧ mm_features r = fs.
Proof.
  unfold Request_init. destruct Hparams as [Hpp|(p & m & -> & Hm)].
  1: destruct pp as [p|]; [|done].
  2: destruct pp as [pp|]; [|rewrite Hm].
  all: rewrite Hlen; unfold mbind; cbn [result_bind of_option];
    match goal with |- ∃ r, update_block_hashes _ ?r0 = _ ∧ _ => set (r0' := r0) end;
    assert (num_tokens r0' = n) as Hn by
      (destruct ids as [t|], embeds as [e|]; cbn in Hlen |- *; unfold num_tokens; cbn;
       repeat case_match; simplify_eq/=; rewrite ?length_replicate; lia);
    destruct (update_block_hashes_spec sha256 hash_function NONE_HASH hbs Hhbs r0' 0)
      as (r & -> & [m' ->] & Hok & Hmemo); try done; try (by left); try lia;
    eexists; (split; [done|]); split_and!; try done;
    cbn [block_hashes with_block_hashes]; rewrite length_chain_hashes;
    unfold num_full_blocks; by rewrite Hn.
Qed.

(** The request built by [toy_request], for the witnesses. *)
Definition toy (ids : list Z) : Request :=
  match toy_request ids [] with
  | Ok r => r
  | Raise _ => mkRequest "" 0 0 0 0 None None None false WAITING None 0 None None ∅ 0 [] [] 0 0 0
                 0 [] 0 None [] false 0 [] false false None None
  end.

(** The requests of an engine: built by [Request.__init__] with the block hasher and
    extended by [append_output_token_ids].  When tokens are appended, the multi-modal
    inputs other than the last end in the part already hashed ([mm_tail_ok]). *)
Section Hashed.
Context (sha256 : bytes → bytes) (hash_function : hash_input → bytes) (NONE_HASH : bytes) (hbs : Z).
Notation hasher := (Some (request_block_hasher sha256 hash_function NONE_HASH hbs)).

Inductive hashed : Request → Prop :=
  | hashed_init rid pid ids sp pp ci at_ embeds fs lora salt prio so res r :
      mm_sorted fs → Request_init hasher rid pid ids sp pp ci at_ embeds fs lora salt prio so res = Ok r → hashed r
  | hashed_append r toks r' : hashed r → mm_tail_ok hbs r → append_output_token_ids hasher toks r = Ok r' → hashed r'.

Lemma hashed_ok (Hhbs : 0 < hbs) r : hashed r →
  mm_sorted (mm_features r) ∧ memo_ok sha256 r ∧ block_hashes_ok sha256 hash_function NONE_HASH hbs r.
Proof.
  induction 1 as [rid pid ids sp pp ci at_ embeds fs lora salt prio so res r Hfs E|r toks r' _ (H1 & H2 & H3) Ht E].
  - assert (pp ≠ None ∨ ∃ p m, sp = Some p ∧ sp_max_tokens p = Some m) as Hparams.
    { unfold Request_init in E. destruct pp as [pp|]; [by left|right]. destruct sp as [p|]; [|done]. exists p. destruct (sp_max_tokens p) as [m|] eqn:Em; [by exists m|].
      cbn in E. done. }
    destruct (length_from_prompt_token_ids_or_embeds ids embeds) as [n|e] eqn:El; cycle 1.
    { exfalso. unfold Request_init in E. rewrite El in E. destruct Hparams as [Hpp|(p & m & -> & Hm)]; [by destruct pp|]. rewrite Hm in E. by destruct pp. }
    destruct (init_hashes_ok sha256 hash_function NONE_HASH hbs rid pid ids sp pp ci at_ embeds fs lora salt prio so res n Hhbs Hfs Hparams El) as (r1 & E1 & _ & _ & Hok & Hm & Ef).
    rewrite E in E1. injection E1 as <-. by rewrite Ef.
  - destruct (append_update_spec sha256 hash_function NONE_HASH hbs Hhbs r toks H1 H2 Ht H3) as (r1 & E1 & _ & _ & Hok & Hm & _ & hs & m & ->).
    rewrite E in E1. injection E1 as ->. done.
Qed.
End Hashed.


Lemma toy_hashed ids : toy_request ids [] = Ok (toy ids) → hashed id toy_hash [Byte.x00] 2 (toy ids).
Proof. apply hashed_init. split; constructor. Qed.


(** A request with two multi-modal inputs inside one block that only becomes
    full when a token is generated. *)
Definition two_inputs (first : string) : list MultiModalFeatureSpec :=
  [mkFeature first (mkRange 4 1 None); mkFeature "image" (mkRange 5 1 None)].

Definition mm_tail_request (sha256 : bytes → bytes) (hash_function : hash_input → bytes)
    (NONE_HASH : bytes) (first : string) : result Request :=
  let hasher := Some (request_block_hasher sha256 hash_function NONE_HASH 4) in
  r ← Request_init hasher "r" 0 (Some [1; 2; 3; 4; 9; 9; 5])
        (Some (mkSampling (Some 8) 0 None [] None None)) None 0 0 None (two_inputs first)
        None None 0 false false;
  append_output_token_ids hasher [6] r.

(** The condition [mm_tail_ok] on multi-modal inputs is needed.  The incremental
    hasher restarts its scan at the last input, so when a generated token
    completes a block that holds two inputs, the hash ignores the first:
    for every hash function, two requests that differ in that input get the
    same block hashes, although the block's extra keys differ. *)
Theorem mm_tail_block_hash_ignores_input (sha256 : bytes → bytes)
    (hash_function : hash_input → bytes) (NONE_HASH : bytes) :
  ∃ ra rb, mm_tail_request sha256 hash_function NONE_HASH "cat" = Ok ra ∧
    mm_tail_request sha256 hash_function NONE_HASH "dog" = Ok rb ∧
    block_hashes ra = block_hashes rb ∧ length (block_hashes ra) = 2%nat ∧
    block_keys sha256 4 ra 1 ≠ block_keys sha256 4 rb 1.
Proof.
  eexists _, _. split; [vm_compute; reflexivity|]. split; [vm_compute; reflexivity|].
  split; [vm_compute; reflexivity|]. split; [vm_compute; reflexivity|].
  vm_compute. discriminate.
Qed.
