(* ===== verification/KVMetrics.v ===== *)
(** * Block residency metrics ([vllm/v1/core/kv_cache_metrics.py])

    The sampling collector the block pool reports to.  The readings of
    [time.monotonic_ns()] and [random.random()] are not determined by the
    program: the collector carries the sequences of future readings as two
    streams ([clock], [random]) and the number of readings already taken.
    Durations are kept as integer nanoseconds, the numerators of the source's
    divisions by [1e9]. *)

From S2P Require Import Prelude.
From Stdlib Require Import QArith.

Local Open Scope Z_scope.

Record BlockMetricsState := mkMetricsState {
  birth_time_ns : Z;
  last_access_ns : Z;
  access_history : list Z;      (* deque(maxlen=4) *)
}.

Record KVCacheEvictionEvent := mkEvictionEvent {
  lifetime_ns : Z;
  idle_ns : Z;
  reuse_gaps_ns : list Z;
}.

Record KVCacheMetricsCollector := mkCollector {
  sample_rate : Q;
  block_metrics : gmap nat BlockMetricsState;
  _eviction_events : list KVCacheEvictionEvent;
  clock : nat → Z;
  random : nat → Q;
  num_ticks : nat;
  num_draws : nat;
}.

Definition KVCacheMetricsCollector_init (rate : Q) (clock : nat → Z) (random : nat → Q)
    : result KVCacheMetricsCollector :=
  _ ← assert_ (negb (Qle_bool rate 0) && Qle_bool rate 1);
  Ok (mkCollector rate ∅ [] clock random 0 0).

(** [time.monotonic_ns()] *)
Definition now_ns (m : KVCacheMetricsCollector) : Z * KVCacheMetricsCollector :=
  (clock m (num_ticks m),
   mkCollector (sample_rate m) (block_metrics m) (m.(_eviction_events)) (clock m) (random m)
     (S (num_ticks m)) (num_draws m)).

Definition with_block_metrics (bm : gmap nat BlockMetricsState) (m : KVCacheMetricsCollector) :=
  mkCollector (sample_rate m) bm (m.(_eviction_events)) (clock m) (random m) (num_ticks m)
    (num_draws m).
Definition with_eviction_events (ev : list KVCacheEvictionEvent) (m : KVCacheMetricsCollector) :=
  mkCollector (sample_rate m) (block_metrics m) ev (clock m) (random m) (num_ticks m)
    (num_draws m).

(** Appending to a bounded deque drops from the left. *)
Definition deque_append (maxlen : nat) (h : list Z) (t : Z) : list Z :=
  drop (length (h ++ [t]) - maxlen) (h ++ [t]).

Definition BlockMetricsState_init (now : Z) : BlockMetricsState := mkMetricsState now now [].

Definition record_access (now : Z) (s : BlockMetricsState) : BlockMetricsState :=
  mkMetricsState (birth_time_ns s) now (deque_append 4 (access_history s) now).

Fixpoint gaps (l : list Z) : list Z :=
  match l with
  | a :: (b :: _) as l => (b - a) :: gaps l
  | _ => []
  end.

Definition get_reuse_gaps (s : BlockMetricsState) : list Z :=
  if (length (access_history s) <? 2)%nat then [] else gaps (access_history s).

Definition should_sample_block (m : KVCacheMetricsCollector) : bool * KVCacheMetricsCollector :=
  (negb (Qle_bool (sample_rate m) (random m (num_draws m))),
   mkCollector (sample_rate m) (block_metrics m) (m.(_eviction_events)) (clock m) (random m)
     (num_ticks m) (S (num_draws m))).

Definition on_block_allocated (block_id : nat) (m : KVCacheMetricsCollector)
    : KVCacheMetricsCollector :=
  let '(sampled, m) := should_sample_block m in
  if sampled then
    let '(now, m) := now_ns m in
    with_block_metrics (<[block_id := BlockMetricsState_init now]> (block_metrics m)) m
  else m.

Definition on_block_accessed (block_id : nat) (m : KVCacheMetricsCollector)
    : KVCacheMetricsCollector :=
  match block_metrics m !! block_id with
  | None => m
  | Some s =>
      let '(now, m) := now_ns m in
      with_block_metrics (<[block_id := record_access now s]> (block_metrics m)) m
  end.

Definition on_block_evicted (block_id : nat) (m : KVCacheMetricsCollector)
    : KVCacheMetricsCollector :=
  match block_metrics m !! block_id with
  | None => m
  | Some s =>
      let m := with_block_metrics (delete block_id (block_metrics m)) m in
      let '(now1, m) := now_ns m in
      let '(now2, m) := now_ns m in
      with_eviction_events
        (m.(_eviction_events) ++
         [mkEvictionEvent (now1 - birth_time_ns s) (now2 - last_access_ns s) (get_reuse_gaps s)]) m
  end.

Definition metrics_reset (m : KVCacheMetricsCollector) : KVCacheMetricsCollector :=
  with_eviction_events [] (with_block_metrics ∅ m).

Definition drain_events (m : KVCacheMetricsCollector)
    : list KVCacheEvictionEvent * KVCacheMetricsCollector :=
  (m.(_eviction_events), with_eviction_events [] m).

(** ** Facts *)

(** The states a collector can reach. *)
Inductive collector_step : KVCacheMetricsCollector → KVCacheMetricsCollector → Prop :=
  | step_alloc i m : collector_step m (on_block_allocated i m)
  | step_access i m : collector_step m (on_block_accessed i m)
  | step_evict i m : collector_step m (on_block_evicted i m)
  | step_reset m : collector_step m (metrics_reset m)
  | step_drain m : collector_step m (drain_events m).2.

Definition clock_monotone (m : KVCacheMetricsCollector) : Prop :=
  ∀ i j, (i ≤ j)%nat → clock m i ≤ clock m j.

(** Non-decreasing from a lower bound [a] to an upper bound [b]. *)
Fixpoint ascending (a : Z) (l : list Z) (b : Z) : Prop :=
  match l with [] => a ≤ b | x :: l => a ≤ x ∧ ascending x l b end.

Definition state_ok (now : Z) (s : BlockMetricsState) : Prop :=
  ascending (birth_time_ns s) (access_history s) (last_access_ns s) ∧
  last_access_ns s ≤ now ∧ (length (access_history s) ≤ 4)%nat.

Definition event_ok (e : KVCacheEvictionEvent) : Prop :=
  0 ≤ lifetime_ns e ∧ 0 ≤ idle_ns e ∧
  Forall (λ g, 0 ≤ g) (reuse_gaps_ns e) ∧ (length (reuse_gaps_ns e) ≤ 3)%nat.

Definition collector_ok (m : KVCacheMetricsCollector) : Prop :=
  clock_monotone m ∧
  map_Forall (λ _, state_ok (clock m (num_ticks m))) (block_metrics m) ∧
  Forall event_ok (m.(_eviction_events)).

Lemma ascending_le a l b : ascending a l b → a ≤ b.
Proof. revert a. induction l as [|x l IH]; cbn; [done|]. intros a [? H%IH]. lia. Qed.

Lemma ascending_snoc a l b c : ascending a l b → b ≤ c → ascending a (l ++ [c]) c.
Proof.
  revert a. induction l as [|x l IH]; cbn; intros a H Hc; [lia|].
  destruct H as [? H]. split; [done|]. by apply IH.
Qed.

Lemma ascending_drop n a l b : ascending a l b → ascending a (drop n l) b.
Proof.
  revert n a. induction l as [|x l IH]; intros [|n] a H; cbn in *; try done.
  destruct H as [Hx H]. apply (IH n) in H. destruct (drop n l) as [|y l'] eqn:E; cbn in *; [lia|].
  destruct H. split; [lia|done].
Qed.

Lemma gaps_nonneg a l b : ascending a l b → Forall (λ g, 0 ≤ g) (gaps l).
Proof.
  revert a. induction l as [|x [|y l] IH]; intros a H; cbn; try constructor.
  - destruct H as (_ & H & _). lia.
  - apply (IH x). by destruct H.
Qed.

Lemma length_gaps l : length (gaps l) = (length l - 1)%nat.
Proof. induction l as [|x [|y l] IH]; cbn in *; [done|done|]. rewrite IH. lia. Qed.

Lemma get_reuse_gaps_ok now s :
  state_ok now s →
  Forall (λ g, 0 ≤ g) (get_reuse_gaps s) ∧ (length (get_reuse_gaps s) ≤ 3)%nat.
Proof.
  intros (Ha & _ & Hl). unfold get_reuse_gaps. destruct (_ <? 2)%nat; [by split; [constructor|cbn; lia]|].
  split; [by eapply gaps_nonneg|]. rewrite length_gaps. lia.
Qed.

Lemma state_ok_mono a b s : a ≤ b → state_ok a s → state_ok b s.
Proof. intros ? (?&?&?). split_and!; [done|lia|done]. Qed.

Lemma record_access_ok now s : state_ok now s → state_ok now (record_access now s).
Proof.
  intros (Ha & Hb & Hc). split_and!; cbn; [|lia|].
  - apply ascending_drop. by eapply ascending_snoc.
  - unfold deque_append. rewrite length_drop. lia.
Qed.

Lemma map_Forall_state_mono a b (bm : gmap nat BlockMetricsState) :
  a ≤ b → map_Forall (λ _, state_ok a) bm → map_Forall (λ _, state_ok b) bm.
Proof. intros Hab H. eapply map_Forall_impl; [exact H|]. intros. by eapply state_ok_mono. Qed.

Lemma collector_step_ok m m' : collector_step m m' → collector_ok m → collector_ok m'.
Proof.
  intros Hstep (Hmono & Hbm & Hev).
  assert (∀ n, clock m (num_ticks m) ≤ clock m (n + num_ticks m)) as Hclk
    by (intros; apply Hmono; lia).
  destruct Hstep as [i m|i m|i m|m|m].
  - unfold on_block_allocated, should_sample_block. destruct (negb _); [|done].
    cbn. split_and!; [done| |done]. cbn. apply map_Forall_insert_2.
    + split_and!; cbn; [lia| |lia]. apply (Hmono (num_ticks m)). lia.
    + eapply map_Forall_state_mono; [exact (Hclk 1%nat)|done].
  - unfold on_block_accessed. destruct (block_metrics m !! i) as [s|] eqn:E; [|done].
    cbn. split_and!; [done| |done]. cbn. apply map_Forall_insert_2.
    + eapply state_ok_mono; [exact (Hclk 1%nat)|]. apply record_access_ok. by eapply Hbm.
    + eapply map_Forall_state_mono; [exact (Hclk 1%nat)|done].
  - unfold on_block_evicted. destruct (block_metrics m !! i) as [s|] eqn:E; [|done].
    destruct (get_reuse_gaps_ok _ _ (Hbm _ _ E)) as [Hg1 Hg2].
    destruct (Hbm _ _ E) as (Ha & Hb & Hc). pose proof (ascending_le _ _ _ Ha).
    cbn. split_and!; [done| |]; cbn.
    + apply map_Forall_delete. eapply map_Forall_state_mono; [exact (Hclk 2%nat)|done].
    + apply Forall_app. split; [done|]. constructor; [|done]. pose proof (Hclk 1%nat). cbn in *.
      split_and!; cbn; [lia|lia|done|done].
  - split_and!; cbn; [done|apply map_Forall_empty|done].
  - split_and!; cbn; done.
Qed.

(** With a monotone clock, every eviction event the collector ever reports
    is well formed, whatever sequence of allocations, accesses, evictions,
    resets and drains came before: lifetime and idle time are not negative,
    there are at most three reuse gaps and none is negative, and every tracked
    access history is bounded by four and in order. *)
Theorem metrics_events_ok (rate : Q) (clk : nat → Z) (rnd : nat → Q) (m0 m : KVCacheMetricsCollector)
    (Hclk : ∀ i j, (i ≤ j)%nat → clk i ≤ clk j)
    (Hinit : KVCacheMetricsCollector_init rate clk rnd = Ok m0)
    (Hreach : rtc collector_step m0 m) :
  Forall event_ok (drain_events m).1 ∧
  map_Forall (λ _ s, (length (access_history s) ≤ 4)%nat) (block_metrics m).
Proof.
  assert (collector_ok m0) as H0.
  { unfold KVCacheMetricsCollector_init in Hinit. ok_inv. split_and!; [done|apply map_Forall_empty|done]. }
  assert (collector_ok m) as (_ & Hbm & Hev).
  { clear Hinit. induction Hreach; [done|]. eauto using collector_step_ok. }
  split; [done|]. eapply map_Forall_impl; [exact Hbm|]. by intros i s (_ & _ & ?).
Qed.

Lemma metrics_events_ok_witness :
  ∃ m0 : KVCacheMetricsCollector,
    KVCacheMetricsCollector_init 1 Z.of_nat (λ _, 0%Q) = Ok m0 ∧
    Forall event_ok (drain_events (on_block_evicted 3 (on_block_allocated 3 m0))).1.
Proof.
  eexists. split; [reflexivity|].
  eapply (metrics_events_ok 1 Z.of_nat (λ _, 0%Q)).
  - intros i j Hij. lia.
  - reflexivity.
  - eapply rtc_l; [apply (step_alloc 3)|]. eapply rtc_l; [apply (step_evict 3)|]. apply rtc_refl.
Defined.
