(* ===== verification/BlockPool.v ===== *)
(** * The block pool ([vllm/v1/core/block_pool.py])

    The pool of KV cache blocks: the hash-to-block map of the prefix cache,
    allocation and eviction, reference counting, caching of full and partial
    blocks, and the events the pool reports.

    Correspondence.  A [KVCacheBlock] object is its id, and its attributes are
    looked up in [blocks]: the objects are shared by the pool, the queue, the
    cache map and the managers, and are never copied.  The two link attributes
    live in the free queue, which is used through the interface
    [FreeQueueOps].  A [dict] from block id to block is the list of its keys in
    insertion order.  Iteration over a Python [set] is iteration over
    [elements]: its order is unspecified, and only the order of removal events
    depends on it.  [hashlib.sha256] and the environment variable
    [VLLM_KV_EVENTS_USE_INT_BLOCK_HASHES] come from [PoolEnv].  Operations that
    compute event keys return the request too, because they fill its memo
    table of embedding digests. *)

From S2P Require Import Prelude Request BlockHash KVMetrics FreeQueue.

Local Open Scope Z_scope.

Class PoolEnv := {
  env_sha256 : bytes → bytes;
  env_use_int_block_hashes : bool;
}.

(** ** Blocks *)

Record KVCacheBlock := mkBlock {
  block_id : nat;
  ref_cnt : Z;
  _block_hash : option bytes;
  _block_hash_num_tokens : option Z;
  is_null : bool;
}.

Abbreviation block_hash b := (b.(_block_hash)).
Abbreviation block_hash_num_tokens b := (b.(_block_hash_num_tokens)).

Definition KVCacheBlock_init (idx : nat) : KVCacheBlock := mkBlock idx 0 None None false.

Definition set_block_hash (h : bytes) (num_tokens : option Z) (b : KVCacheBlock)
    : result KVCacheBlock :=
  _ ← assert_ (bool_decide (block_hash b = None) && bool_decide (block_hash_num_tokens b = None));
  Ok (mkBlock (block_id b) (ref_cnt b) (Some h) num_tokens (is_null b)).

Definition reset_hash (b : KVCacheBlock) : KVCacheBlock :=
  mkBlock (block_id b) (ref_cnt b) None None (is_null b).

Definition add_ref (d : Z) (b : KVCacheBlock) : KVCacheBlock :=
  mkBlock (block_id b) (ref_cnt b + d) (block_hash b) (block_hash_num_tokens b) (is_null b).

(** ** The hash-to-block map *)

Module HashMap.

Inductive entry :=
  | One (b : nat)            (* a single KVCacheBlock *)
  | Many (bs : list nat).    (* a dict keyed by block id *)

Abbreviation BlockHashToBlockMap := (gmap bytes entry).

Definition get_one_block (c : BlockHashToBlockMap) (key : bytes) : result (option nat) :=
  match c !! key with
  | None => Ok None
  | Some (One b) => Ok (Some b)
  | Some (Many (b :: _)) => Ok (Some b)
  | Some (Many []) => Raise StopIteration
  end.

Definition contain (c : BlockHashToBlockMap) (key : bytes) (b : nat) : bool :=
  match c !! key with
  | None => false
  | Some (One b') => bool_decide (b' = b)
  | Some (Many bs) => bool_decide (b ∈ bs)
  end.

(** Assignment to a key of an insertion-ordered dict. *)
Definition dict_add (bs : list nat) (b : nat) : list nat :=
  if decide (b ∈ bs) then bs else bs ++ [b].

Definition insert (c : BlockHashToBlockMap) (key : bytes) (b : nat) : BlockHashToBlockMap :=
  match c !! key with
  | None => <[key := One b]> c
  | Some (One b') => <[key := Many (dict_add [b'] b)]> c
  | Some (Many bs) => <[key := Many (dict_add bs b)]> c
  end.

Definition pop (c : BlockHashToBlockMap) (key : bytes) (b : nat)
    : option nat * BlockHashToBlockMap :=
  match c !! key with
  | None => (None, c)
  | Some (One b') =>
      if decide (b' = b) then (Some b', delete key c) else (None, <[key := One b']> (delete key c))
  | Some (Many bs) =>
      let bs' := filter (λ x, x ≠ b) bs in
      (if decide (b ∈ bs) then Some b else None,
       if (0 <? zlen bs') then <[key := Many bs']> (delete key c) else delete key c)
  end.

Definition len (c : BlockHashToBlockMap) : nat := size c.

End HashMap.
Import (notations) HashMap.

(** ** Events ([vllm/distributed/kv_events.py]); the medium is always GPU. *)

Record BlockStored := mkStored {
  bs_block_hashes : list ExternalBlockHash;
  bs_parent_block_hash : option ExternalBlockHash;
  bs_token_ids : list Z;
  bs_block_size : Z;
  bs_lora_id : option Z;
  bs_lora_name : option string;
  bs_extra_keys : option (list (option (list extra_key)));
  bs_group_idx : Z;
}.

Inductive KVCacheEvent :=
  | EvStored (e : BlockStored)
  | EvRemoved (block_hashes : list ExternalBlockHash) (group_idx : Z)
  | EvAllBlocksCleared.

(** ** Block hashes at the group's block size *)

Inductive BlockHashList :=
  | HashList (l : list bytes)
  | HashView (v : BlockHashListWithBlockSize).

Definition hl_len (l : BlockHashList) : Z :=
  match l with HashList l => zlen l | HashView v => hv_len v end.
Definition hl_get (l : BlockHashList) (i : Z) : result bytes :=
  match l with HashList l => py_get l i | HashView v => _get_value_at v i end.
Definition hl_from (l : BlockHashList) (a : Z) : result (list bytes) :=
  match l with HashList l => Ok (py_from l a) | HashView v => hv_slice v a (hv_len v) end.

(** ** The pool *)

Record BlockPool (Q : Type) := mkPool {
  num_gpu_blocks : Z;
  enable_caching : bool;
  hash_block_size : Z;
  blocks : list KVCacheBlock;
  free_block_queue : Q;
  cached_block_hash_to_block : gmap bytes HashMap.entry;
  cached_block_hashes_by_block : gmap nat (gset bytes);
  null_block : nat;
  enable_kv_cache_events : bool;
  kv_event_queue : list KVCacheEvent;
  metrics_collector : option KVCacheMetricsCollector;
}.
Arguments mkPool {Q}.
Arguments num_gpu_blocks {Q}.
Arguments enable_caching {Q}.
Arguments hash_block_size {Q}.
Arguments blocks {Q}.
Arguments free_block_queue {Q}.
Arguments cached_block_hash_to_block {Q}.
Arguments cached_block_hashes_by_block {Q}.
Arguments null_block {Q}.
Arguments enable_kv_cache_events {Q}.
Arguments kv_event_queue {Q}.
Arguments metrics_collector {Q}.

(** The form of a hash in events. *)
Abbreviation to_external := (maybe_convert_block_hash env_use_int_block_hashes).

Section Pool.
Context {Q : Type} `{!FreeQueueOps Q} {env : PoolEnv}.
Implicit Types (p : BlockPool Q).

Definition with_blocks (x : list KVCacheBlock) p : BlockPool Q :=
  mkPool (num_gpu_blocks p) (enable_caching p) (hash_block_size p) x (free_block_queue p)
    (cached_block_hash_to_block p) (cached_block_hashes_by_block p) (null_block p)
    (enable_kv_cache_events p) (kv_event_queue p) (metrics_collector p).
Definition with_queue (x : Q) p : BlockPool Q :=
  mkPool (num_gpu_blocks p) (enable_caching p) (hash_block_size p) (blocks p) x
    (cached_block_hash_to_block p) (cached_block_hashes_by_block p) (null_block p)
    (enable_kv_cache_events p) (kv_event_queue p) (metrics_collector p).
Definition with_cache (x : gmap bytes HashMap.entry) p : BlockPool Q :=
  mkPool (num_gpu_blocks p) (enable_caching p) (hash_block_size p) (blocks p) (free_block_queue p)
    x (cached_block_hashes_by_block p) (null_block p)
    (enable_kv_cache_events p) (kv_event_queue p) (metrics_collector p).
Definition with_by_block (x : gmap nat (gset bytes)) p : BlockPool Q :=
  mkPool (num_gpu_blocks p) (enable_caching p) (hash_block_size p) (blocks p) (free_block_queue p)
    (cached_block_hash_to_block p) x (null_block p)
    (enable_kv_cache_events p) (kv_event_queue p) (metrics_collector p).
Definition with_events (x : list KVCacheEvent) p : BlockPool Q :=
  mkPool (num_gpu_blocks p) (enable_caching p) (hash_block_size p) (blocks p) (free_block_queue p)
    (cached_block_hash_to_block p) (cached_block_hashes_by_block p) (null_block p)
    (enable_kv_cache_events p) x (metrics_collector p).
Definition with_metrics (x : option KVCacheMetricsCollector) p : BlockPool Q :=
  mkPool (num_gpu_blocks p) (enable_caching p) (hash_block_size p) (blocks p) (free_block_queue p)
    (cached_block_hash_to_block p) (cached_block_hashes_by_block p) (null_block p)
    (enable_kv_cache_events p) (kv_event_queue p) x.

(** Dereferencing a block object, and assigning to its attributes. *)
Definition get_block p (b : nat) : result KVCacheBlock := of_option IndexError (blocks p !! b).
Definition upd_block (f : KVCacheBlock → KVCacheBlock) (b : nat) p : BlockPool Q :=
  with_blocks (alter f b (blocks p)) p.
(** [if self.metrics_collector: self.metrics_collector.f(block)] *)
Definition on_metrics (f : KVCacheMetricsCollector → KVCacheMetricsCollector) p : BlockPool Q :=
  with_metrics (f <$> metrics_collector p) p.

Definition BlockPool_init (num_gpu_blocks : Z) (enable_caching : bool) (hash_block_size : Z)
    (enable_kv_cache_events : bool) (mc : option KVCacheMetricsCollector)
    : result (BlockPool Q) :=
  _ ← assert_ (num_gpu_blocks >? 0);
  let ids := seq 0 (Z.to_nat num_gpu_blocks) in
  let bs := KVCacheBlock_init <$> ids in
  '(null, q) ← fq_popleft (fq_init ids);
  let bs := alter (λ b, mkBlock (block_id b) (ref_cnt b) (block_hash b)
                          (block_hash_num_tokens b) true) null bs in
  Ok (mkPool num_gpu_blocks enable_caching hash_block_size bs q ∅ ∅ null
        enable_kv_cache_events [] mc).

Definition get_num_free_blocks p : Z := fq_num_free (free_block_queue p).

(** [1.0 - free / total], as the exact fraction (numerator, denominator). *)
Definition get_usage p : Z * Z :=
  let total_gpu_blocks := num_gpu_blocks p - 1 in
  if total_gpu_blocks =? 0 then (0, 1)
  else (total_gpu_blocks - get_num_free_blocks p, total_gpu_blocks).

Definition take_events p : list KVCacheEvent * BlockPool Q :=
  if enable_kv_cache_events p then (kv_event_queue p, with_events [] p) else ([], p).

(** The [for] loop of [get_cached_block]. *)
Fixpoint get_cached_block_loop p (h : bytes) (group_ids : list Z) (cached_blocks : list nat)
    : result (option (list nat)) :=
  match group_ids with
  | [] => Ok (Some cached_blocks)
  | g :: group_ids =>
      key ← make_block_hash_with_group_id h g;
      o ← HashMap.get_one_block (cached_block_hash_to_block p) key;
      match o with
      | None => Ok None
      | Some b => get_cached_block_loop p h group_ids (cached_blocks ++ [b])
      end
  end.

Definition get_cached_block p (h : bytes) (kv_cache_group_ids : list Z)
    : result (option (list nat)) :=
  get_cached_block_loop p h kv_cache_group_ids [].

(** The loop of [_remove_cached_block_hashes]. *)
Fixpoint pop_hashes (c : gmap bytes HashMap.entry) (b : nat) (hs : list bytes)
    : list bytes * gmap bytes HashMap.entry :=
  match hs with
  | [] => ([], c)
  | h :: hs =>
      let '(o, c) := HashMap.pop c h b in
      let '(removed, c) := pop_hashes c b hs in
      (match o with Some _ => h :: removed | None => removed end, c)
  end.

Definition _remove_cached_block_hashes (b : nat) p : result (list bytes * BlockPool Q) :=
  blk ← get_block p b;
  let block_hashes :=
    option_list (block_hash blk) ++
    elements (default ∅ (cached_block_hashes_by_block p !! b)) in
  let p := with_by_block (delete b (cached_block_hashes_by_block p)) p in
  match block_hashes with
  | [] => Ok ([], p)
  | _ =>
      let '(removed_hashes, c) := pop_hashes (cached_block_hash_to_block p) b block_hashes in
      Ok (removed_hashes, upd_block reset_hash b (with_cache c p))
  end.

Definition removed_event (key : bytes) : KVCacheEvent :=
  EvRemoved [maybe_convert_block_hash env_use_int_block_hashes (get_block_hash key)]
    (get_group_id key).

Definition _emit_block_removed_events (keys : list bytes) p : BlockPool Q :=
  if negb (enable_kv_cache_events p) then p
  else with_events (kv_event_queue p ++ (removed_event <$> keys)) p.

Definition _insert_block_hash (key : bytes) (b : nat) (num_tokens : option Z) p
    : result (BlockPool Q) :=
  blk ← get_block p b;
  if decide (block_hash blk = Some key) then Ok p else
  if HashMap.contain (cached_block_hash_to_block p) key b then Ok p else
  p ← match block_hash blk with
      | None =>
          blk ← set_block_hash key num_tokens blk;
          Ok (with_blocks (<[b := blk]> (blocks p)) p)
      | Some _ =>
          let s := default ∅ (cached_block_hashes_by_block p !! b) in
          Ok (with_by_block (<[b := {[ key ]} ∪ s]> (cached_block_hashes_by_block p)) p)
      end;
  Ok (with_cache (HashMap.insert (cached_block_hash_to_block p) key b) p).

Definition _maybe_evict_cached_block (b : nat) p : result (bool * BlockPool Q) :=
  let p := on_metrics (on_block_evicted b) p in
  '(evicted_hashes, p) ← _remove_cached_block_hashes b p;
  match evicted_hashes with
  | [] => Ok (false, p)
  | _ => Ok (true, _emit_block_removed_events evicted_hashes p)
  end.

(** The body of the allocation loop: check, count and report one block. *)
Definition take_block (b : nat) p : result (BlockPool Q) :=
  blk ← get_block p b;
  _ ← assert_ (ref_cnt blk =? 0);
  Ok (on_metrics (on_block_allocated b) (upd_block (add_ref 1) b p)).

Definition get_new_blocks (num_blocks : Z) p : result (list nat * BlockPool Q) :=
  _ ← require ValueError (negb (num_blocks >? get_num_free_blocks p));
  '(ret, q) ← fq_popleft_n num_blocks (free_block_queue p);
  let p := with_queue q p in
  p ← (if enable_caching p then
         foldM (λ p b, '(_, p) ← _maybe_evict_cached_block b p; take_block b p) p ret
       else
         foldM (λ p b, take_block b p) p ret);
  Ok (ret, p).

Definition touch_one p (b : nat) : result (BlockPool Q) :=
  blk ← get_block p b;
  p ← (if (ref_cnt blk =? 0) && negb (is_null blk) then
         q ← fq_remove b (free_block_queue p); Ok (with_queue q p)
       else Ok p);
  Ok (on_metrics (on_block_accessed b) (upd_block (add_ref 1) b p)).

Definition touch (bs : list nat) p : result (BlockPool Q) := foldM touch_one p bs.

(** The first loop of [free_blocks]: decrement and classify. *)
Definition free_one (acc : BlockPool Q * list nat * list nat) (b : nat)
    : result (BlockPool Q * list nat * list nat) :=
  let '(p, with_hash, without_hash) := acc in
  let p := upd_block (add_ref (-1)) b p in
  blk ← get_block p b;
  if (ref_cnt blk =? 0) && negb (is_null blk) then
    if bool_decide (block_hash blk = None) then Ok (p, with_hash, without_hash ++ [b])
    else Ok (p, with_hash ++ [b], without_hash)
  else Ok (p, with_hash, without_hash).

Definition free_blocks (ordered_blocks : list nat) p : result (BlockPool Q) :=
  '(p, blocks_with_hash, blocks_without_hash) ← foldM free_one (p, [], []) ordered_blocks;
  q ← fq_prepend_n blocks_without_hash (free_block_queue p);
  q ← fq_append_n blocks_with_hash q;
  Ok (with_queue q p).

Definition evict_one p (i : Z) : result (BlockPool Q) :=
  _ ← assert_ (i <? zlen (blocks p));
  blk ← py_get (blocks p) i;
  '(_, p) ← _maybe_evict_cached_block (block_id blk) p;
  Ok p.

Definition evict_blocks (block_ids : list Z) p : result (BlockPool Q) := foldM evict_one p block_ids.

Definition reset_prefix_cache p : bool * BlockPool Q :=
  let num_used_blocks := num_gpu_blocks p - get_num_free_blocks p in
  if negb (num_used_blocks =? 1) then (false, p) else
  let p := with_by_block ∅ (with_cache ∅ p) in
  let p := with_blocks (reset_hash <$> blocks p) p in
  let p := on_metrics metrics_reset p in
  (true, if enable_kv_cache_events p
         then with_events (kv_event_queue p ++ [EvAllBlocksCleared]) p else p).

(** The hash list [cache_full_blocks] reads, at the group's block size. *)
Definition hashes_at p (r : Request) (block_size : Z) : result BlockHashList :=
  if block_size =? hash_block_size p then Ok (HashList (block_hashes r)) else
  _ ← assert_ (block_size mod hash_block_size p =? 0);
  v ← BlockHashListWithBlockSize_init (block_hashes r) (hash_block_size p) block_size;
  Ok (HashView v).

(** [block_mask is not None and not block_mask[i]] *)
Definition masked_out (block_mask : option (list bool)) (i : Z) : result bool :=
  match block_mask with
  | None => Ok false
  | Some m => b ← py_get m i; Ok (negb b)
  end.

(** One iteration of the caching loop over [enumerate(new_full_blocks)]. *)
Definition cache_one (num_cached_blocks block_size gid : Z) (block_mask : option (list bool))
    (new_block_hashes : list bytes) (acc : BlockPool Q * list ExternalBlockHash)
    (ib : nat * nat) : result (BlockPool Q * list ExternalBlockHash) :=
  let '(p, new_hashes) := acc in
  let '(i, b) := ib in
  blk ← get_block p b;
  skip ← (if is_null blk then Ok true else masked_out block_mask (Z.of_nat i));
  if skip : bool then Ok acc else
  h ← py_get new_block_hashes (Z.of_nat i);
  let num_hash_tokens := (num_cached_blocks + Z.of_nat i + 1) * block_size in
  key ← make_block_hash_with_group_id h gid;
  p ← match block_hash blk with
      | None => Ok p
      | Some _ =>
          _ ← assert_ (match block_hash_num_tokens blk with
                       | Some n => n <? num_hash_tokens | None => false end);
          '(removed, p) ← _remove_cached_block_hashes b p;
          Ok (_emit_block_removed_events removed p)
      end;
  p ← _insert_block_hash key b (Some num_hash_tokens) p;
  Ok (p, new_hashes ++ [to_external h]).

(** One iteration of the extra-keys loop of the stored event. *)
Definition event_keys_one p (bs : list nat) (num_cached_blocks block_size : Z)
    (block_mask : option (list bool)) (acc : list (option (list extra_key)) * Z * Request) (i : Z)
    : result (list (option (list extra_key)) * Z * Request) :=
  let '(keys, curr_mm_idx, r) := acc in
  b ← py_get bs i;
  blk ← get_block p b;
  if is_null blk then Ok acc else
  skip ← masked_out block_mask (i - num_cached_blocks);
  if skip : bool then Ok acc else
  let block_start := i * block_size in
  '(extra_keys, curr_mm_idx, r) ←
    generate_block_hash_extra_keys env_sha256 r block_start (block_start + block_size) curr_mm_idx;
  Ok (keys ++ [extra_keys], curr_mm_idx, r).

Definition cache_full_blocks (r : Request) (bs : list nat)
    (num_cached_blocks num_full_blocks block_size kv_cache_group_id : Z)
    (block_mask : option (list bool)) p : result (BlockPool Q * Request) :=
  if num_cached_blocks >=? num_full_blocks then Ok (p, r) else
  let new_full_blocks := py_slice bs num_cached_blocks num_full_blocks in
  _ ← assert_ (match block_mask with
               | None => true | Some m => zlen m =? zlen new_full_blocks end);
  hl ← hashes_at p r block_size;
  _ ← assert_ (hl_len hl >=? num_full_blocks);
  new_block_hashes ← hl_from hl num_cached_blocks;
  '(p, new_hashes) ←
    foldM (cache_one num_cached_blocks block_size kv_cache_group_id block_mask new_block_hashes)
      (p, []) (imap pair new_full_blocks);
  if negb (enable_kv_cache_events p) then Ok (p, r) else
  parent_block_hash ←
    (if num_cached_blocks =? 0 then Ok None
     else h ← hl_get hl (num_cached_blocks - 1); Ok (Some (to_external h)));
  '(extra_keys_list, _, r) ←
    foldM (event_keys_one p bs num_cached_blocks block_size block_mask) ([], 0, r)
      (py_range num_cached_blocks num_full_blocks);
  let ev := mkStored new_hashes parent_block_hash
    (py_slice (r.(_all_token_ids)) (num_cached_blocks * block_size) (num_full_blocks * block_size))
    block_size (lora_int_id <$> lora_request r) (lora_name <$> lora_request r)
    (match extra_keys_list with [] => None | _ => Some extra_keys_list end) kv_cache_group_id in
  Ok (with_events (kv_event_queue p ++ [EvStored ev]) p, r).

Definition _get_partial_block_hash p (r : Request) (num_tokens : Z) : result bytes :=
  _ ← assert_ (num_tokens mod hash_block_size p =? 0);
  let num_hash_blocks := num_tokens / hash_block_size p in
  _ ← assert_ ((0 <? num_hash_blocks) && (num_hash_blocks <=? zlen (block_hashes r)));
  py_get (block_hashes r) (num_hash_blocks - 1).

Definition _get_partial_block_parent_hash_and_start p (r : Request) (num_tokens : Z)
    : result (option bytes * Z) :=
  let num_hash_blocks := num_tokens / hash_block_size p in
  parent_hash ←
    (if num_hash_blocks >? 1 then h ← py_get (block_hashes r) (num_hash_blocks - 2); Ok (Some h)
     else Ok None);
  Ok (parent_hash, (num_hash_blocks - 1) * hash_block_size p).

Definition cache_partial_block (r : Request) (b : nat) (num_tokens kv_cache_group_id block_size : Z) p
    : result (option bytes * BlockPool Q * Request) :=
  blk ← get_block p b;
  if is_null blk then Ok (None, p, r) else
  _ ← assert_ (block_size >? hash_block_size p);
  _ ← assert_ (block_size mod hash_block_size p =? 0);
  _ ← assert_ (negb (num_tokens mod block_size =? 0));
  h ← _get_partial_block_hash p r num_tokens;
  let num_hash_blocks := num_tokens / hash_block_size p in
  key ← make_block_hash_with_group_id h kv_cache_group_id;
  let already_cached :=
    bool_decide (block_hash blk = Some key) ||
    HashMap.contain (cached_block_hash_to_block p) key b in
  let shorter :=
    match block_hash blk, block_hash_num_tokens blk with
    | Some _, Some n => n <? num_hash_blocks * hash_block_size p
    | _, _ => false
    end in
  p ← (if negb already_cached && shorter then
         '(removed, p) ← _remove_cached_block_hashes b p;
         Ok (_emit_block_removed_events removed p)
       else Ok p);
  p ← _insert_block_hash key b (Some (num_hash_blocks * hash_block_size p)) p;
  if negb (enable_kv_cache_events p && negb already_cached) then Ok (Some key, p, r) else
  '(parent_hash, block_start) ← _get_partial_block_parent_hash_and_start p r num_tokens;
  let curr_mm_idx := if block_start >? 0 then -1 else 0 in
  '(extra_keys, _, r) ←
    generate_block_hash_extra_keys env_sha256 r block_start num_tokens curr_mm_idx;
  let ev := mkStored [to_external h] (to_external <$> parent_hash)
    (py_slice (r.(_all_token_ids)) block_start num_tokens) (num_tokens - block_start)
    (lora_int_id <$> lora_request r) (lora_name <$> lora_request r) (Some [extra_keys])
    kv_cache_group_id in
  Ok (Some key, with_events (kv_event_queue p ++ [EvStored ev]) p, r).

End Pool.

(** ** Facts: the hash-to-block map *)

Module HashMapFacts.
Import HashMap.
Implicit Types (c : gmap bytes entry) (k : bytes) (b : nat).

(** No empty dict is ever stored. *)
Definition cache_wf c : Prop := ∀ k, c !! k ≠ Some (Many []).

Lemma cache_wf_empty : cache_wf ∅.
Proof. intros k. by rewrite lookup_empty. Qed.

Lemma elem_dict_add bs b b' : b' ∈ dict_add bs b ↔ b' ∈ bs ∨ b' = b.
Proof. unfold dict_add. case_decide; set_solver. Qed.

Lemma contain_insert c k b k' b' :
  contain (insert c k b) k' b' = contain c k' b' || bool_decide (k = k' ∧ b = b').
Proof.
  unfold insert. destruct (decide (k = k')) as [<-|Hne].
  - destruct (c !! k) as [[b0|bs]|] eqn:E; unfold contain; rewrite lookup_insert_eq, E.
    all: apply eq_true_iff_eq; rewrite ?orb_true_iff, !bool_decide_eq_true, ?elem_dict_add,
           ?list_elem_of_singleton; naive_solver.
  - rewrite (bool_decide_eq_false_2 (_ ∧ _)), orb_false_r by tauto.
    destruct (c !! k) as [[b0|bs]|] eqn:E; unfold contain; by rewrite lookup_insert_ne.
Qed.

Lemma cache_wf_insert c k b : cache_wf c → cache_wf (insert c k b).
Proof.
  intros Hc k'. unfold insert.
  assert (∀ bs, dict_add bs b ≠ [] ) as Hd.
  { intros bs Hnil. assert (b ∈ dict_add bs b) as Hb by (apply elem_dict_add; by right).
    rewrite Hnil in Hb. by apply not_elem_of_nil in Hb. }
  destruct (decide (k = k')) as [<-|Hne].
  - destruct (c !! k) as [[b0|bs]|] eqn:E; rewrite lookup_insert_eq; intros [= H]; by apply Hd in H.
  - destruct (c !! k) as [[b0|bs]|] eqn:E; rewrite lookup_insert_ne by done; apply Hc.
Qed.

Lemma contain_pop c k b k' b' :
  contain (pop c k b).2 k' b' = contain c k' b' && negb (bool_decide (k = k' ∧ b = b')).
Proof.
  unfold pop. destruct (decide (k = k')) as [<-|Hne].
  - destruct (c !! k) as [[b0|bs]|] eqn:E; cbn; unfold contain; rewrite ?E; [| |done].
    + case_decide; cbn; rewrite ?lookup_delete_eq, ?lookup_insert_eq;
        apply eq_true_iff_eq; rewrite ?andb_true_iff, ?negb_true_iff, ?bool_decide_eq_true,
          ?bool_decide_eq_false; naive_solver.
    + assert (∀ x, x ∈ filter (λ x, x ≠ b) bs ↔ x ∈ bs ∧ x ≠ b) as Hf
        by (intros; rewrite list_elem_of_filter; tauto).
      destruct (Z.ltb_spec 0 (zlen (filter (λ x, x ≠ b) bs))) as [Hl|Hl].
      * rewrite lookup_insert_eq. apply eq_true_iff_eq.
        rewrite andb_true_iff, negb_true_iff, !bool_decide_eq_true, bool_decide_eq_false, Hf.
        naive_solver.
      * rewrite lookup_delete_eq.
        assert (filter (λ x, x ≠ b) bs = []) as Hnil by (apply nil_length_inv; lia).
        symmetry. apply andb_false_iff.
        destruct (decide (b' ∈ bs)) as [Hin|Hin]; [|left; by apply bool_decide_eq_false].
        right. apply negb_false_iff, bool_decide_eq_true. split; [done|].
        destruct (decide (b' = b)) as [->|Hn]; [done|].
        assert (b' ∈ filter (λ x, x ≠ b) bs) as Hx by (by apply Hf).
        rewrite Hnil in Hx. by apply not_elem_of_nil in Hx.
  - rewrite (bool_decide_eq_false_2 (_ ∧ _)), andb_true_r by tauto.
    destruct (c !! k) as [[b0|bs]|] eqn:E; cbn; [case_decide|case_match|done]; cbn; unfold contain;
      rewrite ?lookup_insert_ne, ?lookup_delete_ne by done; done.
Qed.

Lemma pop_fst c k b : (pop c k b).1 = if contain c k b then Some b else None.
Proof.
  unfold pop, contain. destruct (c !! k) as [[b0|bs]|] eqn:E; [| |done].
  - case_decide as H; [subst; by rewrite bool_decide_eq_true_2|by rewrite bool_decide_eq_false_2].
  - cbn. case_decide; [by rewrite bool_decide_eq_true_2|by rewrite bool_decide_eq_false_2].
Qed.

Lemma cache_wf_pop c k b : cache_wf c → cache_wf (pop c k b).2.
Proof.
  intros Hc k'. unfold pop. destruct (c !! k) as [[b0|bs]|] eqn:E; cbn; [case_decide as Hb| |apply Hc]; cbn.
  - rewrite lookup_delete_Some. intros [_ H]. by apply Hc in H.
  - rewrite lookup_insert_Some, lookup_delete_Some. intros [[_ ?]|[_ [_ H]]]; [done|by apply Hc in H].
  - destruct (Z.ltb_spec 0 (zlen (filter (λ x, x ≠ b) bs))) as [Hl|Hl].
    + rewrite lookup_insert_Some, lookup_delete_Some.
      intros [[_ [= Hn]]|[_ [_ H]]]; [by rewrite Hn in Hl|by apply Hc in H].
    + rewrite lookup_delete_Some. intros [_ H]. by apply Hc in H.
Qed.

(** Looking a key up never raises, finds a block under the key if there is
    one, and only then. *)
Lemma get_one_block_spec c k :
  cache_wf c →
  (∃ b, get_one_block c k = Ok (Some b) ∧ contain c k b = true) ∨
  (get_one_block c k = Ok None ∧ ∀ b, contain c k b = false).
Proof.
  intros Hc. unfold get_one_block, contain. specialize (Hc k).
  destruct (c !! k) as [[b0|[|b bs]]|]; [left|done|left|by right].
  - exists b0. by rewrite bool_decide_eq_true_2.
  - exists b. rewrite bool_decide_eq_true_2 by set_solver. done.
Qed.

Lemma pop_hashes_spec c b hs :
  cache_wf c → NoDup hs →
  ∃ removed c', pop_hashes c b hs = (removed, c') ∧ cache_wf c' ∧
    removed = filter (λ h, contain c h b = true) hs ∧
    ∀ k i, contain c' k i = contain c k i && negb (bool_decide (k ∈ hs ∧ b = i)).
Proof.
  intros Hc Hnd. revert c Hc. induction Hnd as [|h hs Hh Hnd IH]; intros c Hc; cbn.
  { exists [], c. split_and!; try done. intros k i.
    rewrite bool_decide_eq_false_2 by (intros [H _]; by apply not_elem_of_nil in H).
    by rewrite andb_true_r. }
  pose proof (pop_fst c h b) as H1. pose proof (contain_pop c h b) as H2.
  pose proof (cache_wf_pop c h b Hc) as H3.
  destruct (pop c h b) as [o c1]; cbn in *.
  destruct (IH c1 H3) as (removed & c2 & -> & Hc2 & -> & Hk).
  eexists _, c2. split; [done|]. split; [done|]. split.
  - assert (filter (λ h0, contain c1 h0 b = true) hs = filter (λ h0, contain c h0 b = true) hs) as ->.
    { clear -H2 Hh. induction hs as [|x hs IH]; [done|].
      assert (contain c1 x b = contain c x b) as Hx.
      { rewrite H2, bool_decide_eq_false_2, andb_true_r by set_solver. done. }
      rewrite !filter_cons, Hx, IH by set_solver. done. }
    rewrite H1. by destruct (contain c h b).
  - intros k i. rewrite Hk, H2.
    apply eq_true_iff_eq. rewrite !andb_true_iff, !negb_true_iff, !bool_decide_eq_false.
    rewrite elem_of_cons. naive_solver.
Qed.

End HashMapFacts.

(** ** Facts: the pool *)

Lemma elem_of_option_list {A} (o : option A) x : x ∈ option_list o ↔ o = Some x.
Proof. destruct o; cbn; rewrite ?list_elem_of_singleton, ?elem_of_nil; naive_solver. Qed.

Section PoolFacts.
Context {Q : Type} `{!FreeQueueOps Q} `{!FreeQueueSpec Q} {env : PoolEnv}.
Implicit Types (p : BlockPool Q) (l : list nat).
Import HashMap HashMapFacts.

(** Block [i] carries [key], as its primary hash or as a partial alias. *)
Definition owns p (i : nat) (key : bytes) : Prop :=
  ∃ b, blocks p !! i = Some b ∧
    (block_hash b = Some key ∨ key ∈ default ∅ (cached_block_hashes_by_block p !! i)).

(** The part of the invariant about the queue and the reference counts; [l]
    is the free list, in eviction order. *)
Record core_wf p l : Prop := {
  wf_queue : fq_rep (free_block_queue p) l;
  wf_len : zlen (blocks p) = num_gpu_blocks p;
  wf_pos : 0 < num_gpu_blocks p;
  wf_null : null_block p = 0%nat;
  wf_ids i b : blocks p !! i = Some b → block_id b = i ∧ is_null b = bool_decide (i = 0%nat);
  wf_ref i b : blocks p !! i = Some b → i ≠ 0%nat → 0 ≤ ref_cnt b;
  wf_free i : i ∈ l ↔ i ≠ 0%nat ∧ ∃ b, blocks p !! i = Some b ∧ ref_cnt b = 0;
}.

(** The part about the prefix cache. *)
Record hash_wf p : Prop := {
  wf_cache : cache_wf (cached_block_hash_to_block p);
  wf_contain key i : contain (cached_block_hash_to_block p) key i = true ↔ owns p i key;
  wf_by_block i ks : cached_block_hashes_by_block p !! i = Some ks →
    ∃ b k, blocks p !! i = Some b ∧ block_hash b = Some k ∧ k ∉ ks;
  wf_num i b : blocks p !! i = Some b → block_hash b = None → block_hash_num_tokens b = None;
  wf_null_hash b : blocks p !! 0%nat = Some b → block_hash b = None;
}.

Definition pool_wf p l : Prop := core_wf p l ∧ hash_wf p.

(** What hash bookkeeping leaves alone. *)
Definition block_core (b : KVCacheBlock) := (block_id b, ref_cnt b, is_null b).
Definition pool_core p :=
  (num_gpu_blocks p, enable_caching p, hash_block_size p, null_block p,
   enable_kv_cache_events p, free_block_queue p, block_core <$> blocks p).
(** What reference counting leaves alone. *)
Definition block_meta (b : KVCacheBlock) := (block_id b, block_hash b, block_hash_num_tokens b, is_null b).
Definition pool_meta p :=
  (num_gpu_blocks p, enable_caching p, hash_block_size p, null_block p, enable_kv_cache_events p,
   cached_block_hash_to_block p, cached_block_hashes_by_block p, block_meta <$> blocks p).

Lemma fmap_lookup_corr {A B} (f : A → B) (l1 l2 : list A) i a :
  f <$> l1 = f <$> l2 → l1 !! i = Some a → ∃ a', l2 !! i = Some a' ∧ f a' = f a.
Proof.
  intros H Hi. apply (f_equal (.!! i)) in H. rewrite !list_lookup_fmap, Hi in H.
  cbn in H. destruct (l2 !! i) as [a'|]; [|done]. injection H as H. eauto.
Qed.

Lemma core_wf_same p p' l : pool_core p = pool_core p' → core_wf p l → core_wf p' l.
Proof.
  intros Hc [Hq Hl Hpos Hn Hids Href Hfree]. injection Hc as E1 _ _ E4 _ E6 E7.
  assert (length (blocks p) = length (blocks p')) as Hlen.
  { apply (f_equal length) in E7. by rewrite !length_fmap in E7. }
  split.
  - by rewrite <- E6.
  - by rewrite <- Hlen, Hl, <- E1.
  - by rewrite <- E1.
  - by rewrite <- E4.
  - intros i b Hi. destruct (fmap_lookup_corr _ _ _ _ _ (eq_sym E7) Hi) as (b' & Hb' & Hc).
    injection Hc as <- _ <-. eauto.
  - intros i b Hi. destruct (fmap_lookup_corr _ _ _ _ _ (eq_sym E7) Hi) as (b' & Hb' & Hc).
    injection Hc as _ <- _. eauto.
  - intros i. rewrite Hfree. split; intros [Hi (b & Hb & Hr)]; (split; [done|]).
    + destruct (fmap_lookup_corr _ _ _ _ _ E7 Hb) as (b' & Hb' & Hc). injection Hc as _ Hr' _.
      exists b'. split; [done|congruence].
    + destruct (fmap_lookup_corr _ _ _ _ _ (eq_sym E7) Hb) as (b' & Hb' & Hc). injection Hc as _ Hr' _.
      exists b'. split; [done|congruence].
Qed.

Lemma hash_wf_same p p' : pool_meta p = pool_meta p' → hash_wf p → hash_wf p'.
Proof.
  intros Hc [Hw Hcon Hby Hnum Hnul]. injection Hc as _ _ _ _ _ E1 E2 E3.
  assert (∀ i b, blocks p !! i = Some b → ∃ b', blocks p' !! i = Some b' ∧ block_meta b' = block_meta b)
    as H12 by (intros; by eapply fmap_lookup_corr).
  assert (∀ i b, blocks p' !! i = Some b → ∃ b', blocks p !! i = Some b' ∧ block_meta b' = block_meta b)
    as H21 by (intros; by eapply fmap_lookup_corr).
  split.
  - by rewrite <- E1.
  - intros key i. rewrite <- E1, Hcon. unfold owns. rewrite <- E2. split; intros (b & Hb & Hk).
    + destruct (H12 _ _ Hb) as (b' & Hb' & [= _ Hh _ _]). exists b'. by rewrite Hh.
    + destruct (H21 _ _ Hb) as (b' & Hb' & [= _ Hh _ _]). exists b'. by rewrite Hh.
  - intros i ks. rewrite <- E2. intros (b & k & Hb & Hk)%Hby.
    destruct (H12 _ _ Hb) as (b' & Hb' & [= _ Hh _ _]). exists b', k. by rewrite Hh.
  - intros i b Hb. destruct (H21 _ _ Hb) as (b' & Hb' & [= _ <- <- _]). eauto.
  - intros b Hb. destruct (H21 _ _ Hb) as (b' & Hb' & [= _ <- _ _]). eauto.
Qed.

Lemma alter_core (f : KVCacheBlock → KVCacheBlock) i (bs : list KVCacheBlock) :
  (∀ b, block_core (f b) = block_core b) → block_core <$> alter f i bs = block_core <$> bs.
Proof.
  intros Hf. apply list_eq. intros j. rewrite !list_lookup_fmap.
  destruct (decide (i = j)) as [<-|Hne].
  - rewrite list_lookup_alter_eq. destruct (bs !! i); cbn; [by rewrite Hf|done].
  - by rewrite list_lookup_alter_ne.
Qed.

Lemma alter_meta (f : KVCacheBlock → KVCacheBlock) i (bs : list KVCacheBlock) :
  (∀ b, block_meta (f b) = block_meta b) → block_meta <$> alter f i bs = block_meta <$> bs.
Proof.
  intros Hf. apply list_eq. intros j. rewrite !list_lookup_fmap.
  destruct (decide (i = j)) as [<-|Hne].
  - rewrite list_lookup_alter_eq. destruct (bs !! i); cbn; [by rewrite Hf|done].
  - by rewrite list_lookup_alter_ne.
Qed.

Lemma upd_block_lookup f i j p :
  blocks (upd_block f i p) !! j = if decide (i = j) then f <$> blocks p !! j else blocks p !! j.
Proof.
  unfold upd_block. cbn. case_decide as H; [subst; apply list_lookup_alter_eq|].
  by apply list_lookup_alter_ne.
Qed.

(** Removing all of a block's hashes: the block becomes unreachable from the
    cache, nothing else does. *)
Lemma remove_hashes_spec b blk p :
  hash_wf p → blocks p !! b = Some blk →
  ∃ removed p', _remove_cached_block_hashes b p = Ok (removed, p') ∧
    hash_wf p' ∧ pool_core p' = pool_core p ∧
    (∀ i, blocks p' !! i = if decide (b = i) then Some (reset_hash blk) else blocks p !! i) ∧
    (∀ key i, contain (cached_block_hash_to_block p') key i
              = contain (cached_block_hash_to_block p) key i && negb (bool_decide (b = i))) ∧
    kv_event_queue p' = kv_event_queue p ∧ metrics_collector p' = metrics_collector p ∧
    NoDup removed ∧ (∀ key, key ∈ removed ↔ contain (cached_block_hash_to_block p) key b = true).
Proof.
  intros Hwf Hb. pose proof Hwf as [Hw Hcon Hby Hnum Hnul]. unfold _remove_cached_block_hashes, get_block.
  rewrite Hb. cbn [of_option]. unfold mbind at 1; cbn [result_bind].
  set (ks := default ∅ (cached_block_hashes_by_block p !! b)).
  set (hs := option_list (block_hash blk) ++ elements ks).
  assert (∀ k, k ∈ hs ↔ contain (cached_block_hash_to_block p) k b = true) as Hhs.
  { intros k. rewrite Hcon. unfold owns, hs. rewrite elem_of_app, elem_of_elements.
    rewrite Hb. fold ks. rewrite elem_of_option_list. naive_solver. }
  assert (NoDup hs) as Hnd.
  { unfold hs, ks. destruct (cached_block_hashes_by_block p !! b) as [s|] eqn:Es; cbn.
    - destruct (Hby _ _ Es) as (b' & k & Hb' & Hk & Hnk). assert (b' = blk) as -> by congruence.
      rewrite Hk. cbn. constructor; [by rewrite elem_of_elements|apply NoDup_elements].
    - rewrite elements_empty, app_nil_r. destruct (block_hash blk); cbn; auto using NoDup_nil_2, NoDup_singleton. }
  set (p1 := with_by_block _ p).
  destruct hs as [|h0 hs0] eqn:Ehs.
  - assert (block_hash blk = None) as Hnone.
    { destruct (block_hash blk) as [k|] eqn:Ek; [|done].
      unfold hs in Ehs. discriminate Ehs. }
    assert (reset_hash blk = blk) as Hreset.
    { pose proof (Hnum _ _ Hb Hnone). destruct blk; cbn in *. by subst. }
    assert (∀ key i, owns p1 i key ↔ owns p i key) as Hown.
    { intros key i. unfold owns, p1. cbn. destruct (decide (b = i)) as [<-|Hne].
      - rewrite lookup_delete_eq. split; intros (b' & Hb' & [Hk|Hk]); try (by eauto).
        exfalso. assert (key ∈ @nil bytes) as Hin; [|by apply not_elem_of_nil in Hin].
        apply Hhs, Hcon. exists b'. by split; [|right].
      - by rewrite lookup_delete_ne. }
    exists [], p1. split; [done|]. split_and!; try done.
    + split; try done.
      * intros key i. rewrite Hown. apply Hcon.
      * intros i ks' Hi. cbn in Hi. apply lookup_delete_Some in Hi as [_ Hi]. eauto.
    + intros i. rewrite Hreset. case_decide; [by subst|done].
    + intros key i. cbn. destruct (contain _ key i) eqn:E; [|done].
      rewrite bool_decide_eq_false_2; [done|]. intros ->. apply Hhs in E. by apply not_elem_of_nil in E.
  - destruct (pop_hashes_spec (cached_block_hash_to_block p1) b (h0 :: hs0)) as (rm & c' & Hp & Hwf' & -> & Hk);
      [done|done|].
    rewrite Hp. eexists _, _. split; [done|].
    assert (∀ key i, contain c' key i
              = contain (cached_block_hash_to_block p) key i && negb (bool_decide (b = i))) as Hcon'.
    { intros key i. rewrite Hk. cbn [p1 with_by_block cached_block_hash_to_block].
      apply eq_true_iff_eq. rewrite !andb_true_iff, !negb_true_iff, !bool_decide_eq_false.
      rewrite Hhs. naive_solver. }
    assert (∀ i, alter reset_hash b (blocks p) !! i
              = if decide (b = i) then Some (reset_hash blk) else blocks p !! i) as Hlk.
    { intros i. case_decide as H; [subst|by rewrite list_lookup_alter_ne].
      by rewrite list_lookup_alter_eq, Hb. }
    split_and!; try done.
    + split; cbn; try done.
      * intros key i. rewrite Hcon', andb_true_iff, negb_true_iff, bool_decide_eq_false, Hcon.
        unfold owns. cbn. rewrite Hlk. case_decide as H.
        -- subst. rewrite lookup_delete_eq. cbn. split; [naive_solver|].
           intros (b' & [= <-] & [?|Hk']); [done|by apply elem_of_empty in Hk'].
        -- rewrite lookup_delete_ne by done. naive_solver.
      * intros i ks' Hi. apply lookup_delete_Some in Hi as [Hne Hi].
        rewrite Hlk, decide_False by done. eauto.
      * intros i b'. rewrite Hlk. case_decide; [|eauto]. by intros [= <-].
      * intros b'. rewrite Hlk. case_decide; [|eauto]. by intros [= <-].
    + unfold pool_core. cbn. f_equal. by apply alter_core.
    + apply NoDup_filter. done.
    + intros key. rewrite list_elem_of_filter, Hhs. cbn. tauto.
Qed.

(** Adding a key to a block: exactly that key becomes reachable. *)
Lemma insert_hash_spec key b n blk p :
  hash_wf p → blocks p !! b = Some blk → b ≠ 0%nat →
  ∃ p' blk', _insert_block_hash key b (Some n) p = Ok p' ∧
    hash_wf p' ∧ pool_core p' = pool_core p ∧
    (∀ i, blocks p' !! i = if decide (b = i) then Some blk' else blocks p !! i) ∧
    (block_hash blk = None → block_hash blk' = Some key ∧ block_hash_num_tokens blk' = Some n) ∧
    (block_hash blk ≠ None → blk' = blk) ∧
    (∀ k i, contain (cached_block_hash_to_block p') k i
            = contain (cached_block_hash_to_block p) k i || bool_decide (key = k ∧ b = i)) ∧
    kv_event_queue p' = kv_event_queue p ∧ metrics_collector p' = metrics_collector p.
Proof.
  intros Hwf Hb Hb0. pose proof Hwf as [Hw Hcon Hby Hnum Hnul].
  unfold _insert_block_hash, get_block. rewrite Hb. cbn [of_option]. unfold mbind at 1; cbn [result_bind].
  assert (contain (cached_block_hash_to_block p) key b = true →
    ∀ k i, contain (cached_block_hash_to_block p) k i
           = contain (cached_block_hash_to_block p) k i || bool_decide (key = k ∧ b = i)) as Hin.
  { intros Hc k i. destruct (decide (key = k ∧ b = i)) as [[<- <-]|Hn].
    - by rewrite Hc.
    - by rewrite (bool_decide_eq_false_2 _ Hn), orb_false_r. }
  assert (∀ i, blocks p !! i = if decide (b = i) then Some blk else blocks p !! i) as Hself.
  { intros i. case_decide; [by subst|done]. }
  case_decide as Hk.
  { exists p, blk. split_and!; try done; [by rewrite Hk|].
    apply Hin, Hcon. exists blk. by split; [|left]. }
  destruct (contain (cached_block_hash_to_block p) key b) eqn:Econ.
  { exists p, blk. split_and!; try done; [|by apply Hin].
    intros Hnone. exfalso. apply Hcon in Econ as (b' & Hb' & [Hk'|Hk']); [congruence|].
    destruct (cached_block_hashes_by_block p !! b) as [ks|] eqn:Eks; [|by apply elem_of_empty in Hk'].
    destruct (Hby _ _ Eks) as (b'' & k & Hb'' & Hk'' & _). congruence. }
  destruct (block_hash blk) as [k0|] eqn:Ek0.
  - unfold mbind; cbn [result_bind]. eexists _, blk. split; [done|].
    split_and!; try done.
    + split; cbn.
      * by apply cache_wf_insert.
      * intros k i. rewrite contain_insert, orb_true_iff, bool_decide_eq_true, Hcon. unfold owns. cbn.
        destruct (decide (b = i)) as [<-|Hne].
        -- rewrite lookup_insert_eq. cbn. rewrite Hb. setoid_rewrite elem_of_union.
           setoid_rewrite elem_of_singleton. naive_solver.
        -- rewrite lookup_insert_ne by done. naive_solver.
      * intros i ks. rewrite lookup_insert_Some. intros [[<- <-]|[_ Hi]]; [|eauto].
        exists blk, k0. split_and!; [done..|]. rewrite not_elem_of_union, not_elem_of_singleton.
        split; [congruence|]. destruct (cached_block_hashes_by_block p !! b) as [ks|] eqn:Eks; cbn.
        -- destruct (Hby _ _ Eks) as (b' & k & Hb' & Hk' & Hnk). congruence.
        -- apply not_elem_of_empty.
      * done.
      * done.
    + intros k i. apply contain_insert.
  - unfold set_block_hash. rewrite Ek0, (Hnum _ _ Hb Ek0). cbn [bool_decide andb].
    rewrite !bool_decide_eq_true_2 by done. unfold mbind; cbn [result_bind require andb].
    eexists _, _. split; [done|].
    set (blk' := mkBlock _ _ _ _ _).
    assert (b < length (blocks p))%nat as Hlt by (by eapply lookup_lt_Some).
    assert (∀ i, <[b:=blk']> (blocks p) !! i = if decide (b = i) then Some blk' else blocks p !! i) as Hlk.
    { intros i. case_decide; [subst; by apply list_lookup_insert_eq|by apply list_lookup_insert_ne]. }
    assert (cached_block_hashes_by_block p !! b = None) as Hnoby.
    { destruct (cached_block_hashes_by_block p !! b) as [ks|] eqn:Eks; [|done].
      destruct (Hby _ _ Eks) as (b' & k & Hb' & Hk' & _). congruence. }
    split_and!; try done.
    + split; cbn.
      * by apply cache_wf_insert.
      * intros k i. rewrite contain_insert, orb_true_iff, bool_decide_eq_true, Hcon. unfold owns. cbn.
        rewrite Hlk. case_decide; [subst|naive_solver].
        rewrite Hnoby, Hb. cbn. setoid_rewrite elem_of_empty. subst blk'. naive_solver.
      * intros i ks Hi. rewrite Hlk. case_decide; [congruence|eauto].
      * intros i b'. rewrite Hlk. case_decide; [by intros [= <-]|eauto].
      * intros b'. rewrite Hlk. case_decide; [congruence|eauto].
    + unfold pool_core. cbn. f_equal. rewrite list_fmap_insert.
      apply list_insert_id. rewrite list_lookup_fmap, Hb. done.
    + intros k i. apply contain_insert.
Qed.

Lemma emit_removed_core keys p : pool_core (_emit_block_removed_events keys p) = pool_core p.
Proof. unfold _emit_block_removed_events. by destruct (negb _). Qed.
Lemma emit_removed_meta keys p : pool_meta (_emit_block_removed_events keys p) = pool_meta p.
Proof. unfold _emit_block_removed_events. by destruct (negb _). Qed.
Lemma emit_removed_blocks keys p : blocks (_emit_block_removed_events keys p) = blocks p.
Proof. unfold _emit_block_removed_events. by destruct (negb _). Qed.
Lemma emit_removed_cache keys p :
  cached_block_hash_to_block (_emit_block_removed_events keys p) = cached_block_hash_to_block p.
Proof. unfold _emit_block_removed_events. by destruct (negb _). Qed.

Lemma maybe_evict_spec b blk p :
  hash_wf p → blocks p !! b = Some blk →
  ∃ ev p', _maybe_evict_cached_block b p = Ok (ev, p') ∧
    hash_wf p' ∧ pool_core p' = pool_core p ∧
    (∀ i, blocks p' !! i = if decide (b = i) then Some (reset_hash blk) else blocks p !! i) ∧
    (∀ key i, contain (cached_block_hash_to_block p') key i
              = contain (cached_block_hash_to_block p) key i && negb (bool_decide (b = i))) ∧
    (ev = true ↔ ∃ key, contain (cached_block_hash_to_block p) key b = true).
Proof.
  intros Hwf Hb. unfold _maybe_evict_cached_block.
  destruct (remove_hashes_spec b blk (on_metrics (on_block_evicted b) p))
    as (rm & p' & -> & Hwf' & Hcore & Hlk & Hcon & _ & _ & Hnd & Hrm).
  { by apply (hash_wf_same p). }
  { done. }
  unfold mbind; cbn [result_bind]. destruct rm as [|k rm].
  - exists false, p'. split_and!; try done. split; [done|]. intros [key Hk].
    apply Hrm in Hk. by apply not_elem_of_nil in Hk.
  - exists true, (_emit_block_removed_events (k :: rm) p'). split; [done|].
    rewrite emit_removed_core, emit_removed_blocks, emit_removed_cache. split_and!; try done.
    + eapply hash_wf_same; [|exact Hwf']. by rewrite emit_removed_meta.
    + split; [|done]. intros _. exists k. apply Hrm. by left.
Qed.

(** Counting a reference on a block. *)
Lemma add_ref_meta d i p : pool_meta (upd_block (add_ref d) i p) = pool_meta p.
Proof. unfold pool_meta. cbn. rewrite alter_meta; done. Qed.

(** The settings no operation changes. *)
Definition pool_config p :=
  (num_gpu_blocks p, enable_caching p, hash_block_size p, null_block p, enable_kv_cache_events p).

Lemma pool_core_config p p' : pool_core p = pool_core p' → pool_config p = pool_config p'.
Proof. unfold pool_core, pool_config. congruence. Qed.
Lemma pool_core_hbs p p' : pool_core p = pool_core p' → hash_block_size p = hash_block_size p'.
Proof. unfold pool_core. congruence. Qed.
Lemma pool_core_events p p' : pool_core p = pool_core p' → enable_kv_cache_events p = enable_kv_cache_events p'.
Proof. unfold pool_core. congruence. Qed.
Lemma pool_core_queue p p' : pool_core p = pool_core p' → free_block_queue p = free_block_queue p'.
Proof. unfold pool_core. congruence. Qed.

(** What allocation makes of a free block. *)
Definition fresh_block (caching : bool) (b : KVCacheBlock) : KVCacheBlock :=
  add_ref 1 (if caching then reset_hash b else b).

Lemma take_block_spec b blk p :
  hash_wf p → blocks p !! b = Some blk → ref_cnt blk = 0 →
  ∃ p', take_block b p = Ok p' ∧ hash_wf p' ∧ pool_config p' = pool_config p ∧
    free_block_queue p' = free_block_queue p ∧
    (∀ i, blocks p' !! i = if decide (b = i) then Some (add_ref 1 blk) else blocks p !! i) ∧
    cached_block_hash_to_block p' = cached_block_hash_to_block p.
Proof.
  intros Hwf Hb Hr. unfold take_block, get_block. rewrite Hb. cbn [of_option].
  unfold mbind; cbn [result_bind]. rewrite Hr. cbn [Z.eqb require].
  eexists. split; [done|]. split_and!; try done.
  - eapply hash_wf_same; [|exact Hwf]. symmetry. apply (add_ref_meta 1 b p).
  - intros i. cbn. case_decide as H; [subst; by rewrite list_lookup_alter_eq, Hb|].
    by apply list_lookup_alter_ne.
Qed.

(** One iteration of the allocation loop, with or without caching. *)
Definition alloc_one p (b : nat) : result (BlockPool Q) :=
  if enable_caching p then '(_, p) ← _maybe_evict_cached_block b p; take_block b p
  else take_block b p.

Lemma alloc_one_spec b blk p :
  hash_wf p → blocks p !! b = Some blk → ref_cnt blk = 0 →
  ∃ p', alloc_one p b = Ok p' ∧ hash_wf p' ∧ pool_config p' = pool_config p ∧
    free_block_queue p' = free_block_queue p ∧
    (∀ i, blocks p' !! i
          = if decide (b = i) then Some (fresh_block (enable_caching p) blk) else blocks p !! i) ∧
    (∀ key i, contain (cached_block_hash_to_block p') key i
              = contain (cached_block_hash_to_block p) key i
                && negb (enable_caching p && bool_decide (b = i))).
Proof.
  intros Hwf Hb Hr. unfold alloc_one. destruct (enable_caching p) eqn:Ec.
  - destruct (maybe_evict_spec b blk p Hwf Hb) as (ev & p1 & -> & Hwf1 & Hc1 & Hb1 & Hk1 & _).
    unfold mbind; cbn [result_bind].
    destruct (take_block_spec b (reset_hash blk) p1) as (p2 & -> & Hwf2 & Hc2 & Hq2 & Hb2 & Hk2); try done.
    { by rewrite Hb1, decide_True. }
    exists p2. split; [done|]. split_and!; try done.
    + rewrite Hc2. by apply pool_core_config.
    + rewrite Hq2. by apply pool_core_queue.
    + intros i. rewrite Hb2, Hb1. by case_decide.
    + intros key i. by rewrite Hk2, Hk1.
  - destruct (take_block_spec b blk p) as (p2 & -> & Hwf2 & Hc2 & Hq2 & Hb2 & Hk2); try done.
    exists p2. split_and!; try done. intros key i. by rewrite Hk2, andb_true_r.
Qed.

Lemma alloc_loop_spec ret p :
  hash_wf p → NoDup ret →
  (∀ i, i ∈ ret → ∃ b, blocks p !! i = Some b ∧ ref_cnt b = 0) →
  ∃ p', (if enable_caching p then
           foldM (λ p b, '(_, p) ← _maybe_evict_cached_block b p; take_block b p) p ret
         else foldM (λ p b, take_block b p) p ret) = Ok p' ∧
    hash_wf p' ∧ pool_config p' = pool_config p ∧ free_block_queue p' = free_block_queue p ∧
    (∀ i, blocks p' !! i
          = if decide (i ∈ ret) then fresh_block (enable_caching p) <$> blocks p !! i
            else blocks p !! i) ∧
    (∀ key i, contain (cached_block_hash_to_block p') key i
              = contain (cached_block_hash_to_block p) key i
                && negb (enable_caching p && bool_decide (i ∈ ret))).
Proof.
  intros Hwf Hnd. revert p Hwf. induction Hnd as [|b ret Hb Hnd IH]; intros p Hwf Hret.
  { exists p. split; [by destruct (enable_caching p)|]. split_and!; try done.
    intros key i. rewrite bool_decide_eq_false_2 by apply not_elem_of_nil.
    by rewrite andb_false_r, andb_true_r. }
  destruct (Hret b) as (blk & Hblk & Hr); [by left|].
  destruct (alloc_one_spec b blk p Hwf Hblk Hr) as (p1 & H1 & Hwf1 & Hc1 & Hq1 & Hb1 & Hk1).
  assert (enable_caching p1 = enable_caching p) as Ecach by (unfold pool_config in Hc1; congruence).
  destruct (IH p1 Hwf1) as (p2 & H2 & Hwf2 & Hc2 & Hq2 & Hb2 & Hk2).
  { intros i Hi. rewrite Hb1, decide_False by (intros ->; done). apply Hret. by right. }
  exists p2. split_and!; try congruence.
  - unfold alloc_one in H1. rewrite Ecach in H2. destruct (enable_caching p); cbn [foldM];
      rewrite H1; unfold mbind; cbn [result_bind]; exact H2.
  - intros i. rewrite Hb2, Hb1, Ecach. destruct (decide (b = i)) as [->|Hne].
    + rewrite (decide_False (P := i ∈ ret)) by done.
      rewrite (decide_True (P := i ∈ i :: ret)) by (by apply list_elem_of_here).
      by rewrite Hblk.
    + destruct (decide (i ∈ ret)).
      * by rewrite decide_True by (by right).
      * by rewrite decide_False by (by rewrite elem_of_cons; intros [->|]).
  - intros key i. rewrite Hk2, Hk1, Ecach. destruct (enable_caching p); cbn; [|by rewrite andb_true_r].
    apply eq_true_iff_eq. rewrite !andb_true_iff, !negb_true_iff, !bool_decide_eq_false, elem_of_cons.
    naive_solver.
Qed.

Lemma get_new_blocks_ok l1 l2 p :
  pool_wf p (l1 ++ l2) →
  ∃ p', get_new_blocks (zlen l1) p = Ok (l1, p') ∧ pool_wf p' l2 ∧
    pool_config p' = pool_config p ∧
    (∀ i, blocks p' !! i
          = if decide (i ∈ l1) then fresh_block (enable_caching p) <$> blocks p !! i
            else blocks p !! i) ∧
    (∀ key i, contain (cached_block_hash_to_block p') key i
              = contain (cached_block_hash_to_block p) key i
                && negb (enable_caching p && bool_decide (i ∈ l1))).
Proof.
  intros [[Hq Hl Hpos Hn Hids Href Hfree] Hwf]. unfold get_new_blocks, get_num_free_blocks.
  rewrite (fq_rep_num _ _ Hq), length_app.
  assert (zlen l1 >? Z.of_nat (length l1 + length l2) = false) as -> by (rewrite Z.gtb_ltb; apply Z.ltb_ge; lia).
  cbn [negb require]. unfold mbind at 1; cbn [result_bind].
  destruct (fq_popleft_n_rep _ _ _ Hq) as (q' & -> & Hq'). unfold mbind at 1; cbn [result_bind].
  pose proof (fq_rep_nodup _ _ Hq) as Hnd. apply NoDup_app in Hnd as (Hnd1 & Hdisj & Hnd2).
  destruct (alloc_loop_spec l1 (with_queue q' p)) as (p' & -> & Hwf' & Hc' & Hq'' & Hb' & Hk'); try done.
  { by apply (hash_wf_same p). }
  { intros i Hi. destruct (proj1 (Hfree i)) as [_ H]; [apply elem_of_app; by left|]. exact H. }
  unfold mbind; cbn [result_bind]. exists p'. split; [done|].
  split; [|split_and!; [done|exact Hb'|exact Hk']]. split; [|done].
  cbn in Hb'. unfold pool_config in Hc'; cbn in Hc'. injection Hc' as E1 E2 E3 E4 E5.
  assert (length (blocks p') = length (blocks p)) as Hlen.
  { assert (∀ i, is_Some (blocks p' !! i) ↔ is_Some (blocks p !! i)) as Hd.
    { intros i. rewrite Hb'. case_decide; [by rewrite fmap_is_Some|done]. }
    setoid_rewrite lookup_lt_is_Some in Hd.
    destruct (Nat.lt_trichotomy (length (blocks p')) (length (blocks p))) as [Hlt|[?|Hlt]]; [|done|];
      apply Hd in Hlt; lia. }
  split.
  - by rewrite Hq''.
  - by rewrite Hlen, Hl.
  - by rewrite E1.
  - by rewrite E4.
  - intros i b. rewrite Hb'. case_decide; [|apply Hids].
    destruct (blocks p !! i) as [b0|] eqn:E0; [|done]. intros [= <-].
    unfold fresh_block. destruct (enable_caching p); exact (Hids _ _ E0).
  - intros i b. rewrite Hb'. case_decide as Hin; [|apply Href].
    destruct (blocks p !! i) as [b0|] eqn:E0; [|done]. intros [= <-] Hi.
    pose proof (Href _ _ E0 Hi). unfold fresh_block. destruct (enable_caching p); cbn; lia.
  - intros i. split.
    + intros Hi. destruct (proj1 (Hfree i)) as [Hi0 H]; [apply elem_of_app; by right|].
      split; [done|]. rewrite Hb', decide_False by (intros Hx; by apply (Hdisj i)). done.
    + intros [Hi0 (b & Hb & Hr)]. rewrite Hb' in Hb. case_decide as Hin.
      * destruct (blocks p !! i) as [b0|] eqn:E0; [|done]. injection Hb as <-.
        pose proof (Href _ _ E0 Hi0). exfalso. unfold fresh_block in Hr.
        destruct (enable_caching p); cbn in Hr; lia.
      * assert (i ∈ l1 ++ l2) as Hx by (apply Hfree; eauto).
        apply elem_of_app in Hx as [?|?]; [done|done].
Qed.

Lemma core_wf_add_ref d b blk q' l l' p :
  core_wf p l → blocks p !! b = Some blk → fq_rep q' l' →
  (b ≠ 0%nat → 0 ≤ ref_cnt blk + d) →
  (∀ i, i ∈ l' ↔ if decide (i = b) then b ≠ 0%nat ∧ ref_cnt blk + d = 0 else i ∈ l) →
  core_wf (upd_block (add_ref d) b (with_queue q' p)) l'.
Proof.
  intros [Hq Hl Hpos Hn Hids Href Hfree] Hb Hq' Hd Hl'.
  split; try done.
  - cbn. by rewrite length_alter.
  - intros i b'. rewrite upd_block_lookup. case_decide; [subst|by apply Hids].
    cbn. rewrite Hb. intros [= <-]. exact (Hids _ _ Hb).
  - intros i b'. rewrite upd_block_lookup. case_decide; [subst|by apply Href].
    cbn. rewrite Hb. intros [= <-] Hi. by apply Hd.
  - intros i. rewrite Hl', upd_block_lookup. cbn. destruct (decide (i = b)) as [->|Hne].
    + rewrite decide_True by done. rewrite Hb. cbn. naive_solver.
    + rewrite decide_False by done. apply Hfree.
Qed.

(** The blocks of the pool with reference counts changed by [f]. *)
Definition ref_shift (f : nat → Z) p p' : Prop :=
  pool_meta p' = pool_meta p ∧ ∀ i, blocks p' !! i = add_ref (f i) <$> blocks p !! i.

Lemma add_ref_0 b : add_ref 0 b = b.
Proof. destruct b. unfold add_ref. cbn. by rewrite Z.add_0_r. Qed.
Lemma add_ref_add d e b : add_ref d (add_ref e b) = add_ref (e + d) b.
Proof. destruct b. unfold add_ref. cbn. by rewrite Z.add_assoc. Qed.

Lemma ref_shift_refl p : ref_shift (λ _, 0) p p.
Proof.
  split; [done|]. intros i. destruct (blocks p !! i) as [b|]; [|done].
  cbn [fmap option_fmap option_map]. by rewrite add_ref_0.
Qed.

Lemma ref_shift_trans f g h p1 p2 p3 :
  ref_shift f p1 p2 → ref_shift g p2 p3 → (∀ i, h i = f i + g i) → ref_shift h p1 p3.
Proof.
  intros [M1 B1] [M2 B2] Hh. split; [congruence|]. intros i. rewrite B2, B1, Hh.
  destruct (blocks p1 !! i) as [b|]; [|done].
  cbn [fmap option_fmap option_map]. by rewrite add_ref_add.
Qed.

Lemma ref_shift_upd d b p : ref_shift (λ i, if decide (b = i) then d else 0) p (upd_block (add_ref d) b p).
Proof.
  split; [apply add_ref_meta|]. intros i. rewrite upd_block_lookup. case_decide; [done|].
  destruct (blocks p !! i) as [b'|]; [|done].
  cbn [fmap option_fmap option_map]. by rewrite add_ref_0.
Qed.

Lemma filter_id {A} (P : A → Prop) `{!∀ x, Decision (P x)} (l : list A) :
  (∀ x, x ∈ l → P x) → filter P l = l.
Proof.
  induction l as [|x l IH]; intros Hall; [done|].
  rewrite filter_cons_True by (apply Hall; by left). f_equal.
  apply IH. intros y Hy. apply Hall. by right.
Qed.

Lemma touch_one_spec b blk l p :
  pool_wf p l → blocks p !! b = Some blk →
  ∃ p', touch_one p b = Ok p' ∧ pool_wf p' (filter (λ i, i ≠ b) l) ∧
    ref_shift (λ i, if decide (b = i) then 1 else 0) p p'.
Proof.
  intros [Hcore Hwf] Hb. pose proof Hcore as [Hq Hl Hpos Hn Hids Href Hfree].
  unfold touch_one, get_block. rewrite Hb. cbn [of_option]. unfold mbind at 1; cbn [result_bind].
  destruct (Hids _ _ Hb) as [_ Hnull].
  assert (∃ q', (if (ref_cnt blk =? 0) && negb (is_null blk)
                 then q ← fq_remove b (free_block_queue p); Ok (with_queue q p) else Ok p)
                = Ok (with_queue q' p) ∧ fq_rep q' (filter (λ i, i ≠ b) l)) as (q' & -> & Hq').
  { destruct ((ref_cnt blk =? 0) && negb (is_null blk)) eqn:E.
    - zbool. rewrite Hnull in *. zbool.
      assert (b ∈ l) as Hin by (apply Hfree; eauto).
      apply list_elem_of_split in Hin as (l1 & l2 & ->).
      destruct (fq_remove_rep _ _ _ _ Hq) as (q' & -> & Hq').
      exists q'. split; [done|]. pose proof (fq_rep_nodup _ _ Hq) as Hnd.
      apply NoDup_app in Hnd as (_ & Hd & Hnd2). apply NoDup_cons in Hnd2 as [Hb2 _].
      rewrite filter_app, filter_cons_False, !filter_id; [done| | |naive_solver].
      + intros x Hx ->. done.
      + intros x Hx ->. apply (Hd b Hx). by left.
    - exists (free_block_queue p). split; [by destruct p|]. rewrite filter_id; [done|].
      intros x Hx ->. apply Hfree in Hx as [Hx (b' & Hb' & Hr)].
      assert (b' = blk) as -> by congruence. rewrite Hr, Hnull in E. cbn in E.
      rewrite bool_decide_eq_false_2 in E; done. }
  unfold mbind; cbn [result_bind]. eexists. split; [done|]. split; [split|].
  - eapply core_wf_same; [|eapply (core_wf_add_ref 1 b blk q'); try done].
    + done.
    + intros Hb0. pose proof (Href _ _ Hb Hb0). lia.
    + intros i. rewrite list_elem_of_filter. destruct (decide (i = b)); [subst|tauto].
      split; [tauto|]. intros [Hb0 ?]. pose proof (Href _ _ Hb Hb0). lia.
  - eapply hash_wf_same; [|exact Hwf]. symmetry. apply (add_ref_meta 1 b p).
  - exact (ref_shift_upd 1 b p).
Qed.

Lemma touch_ok bs l p :
  pool_wf p l → (∀ b, b ∈ bs → is_Some (blocks p !! b)) →
  ∃ p', touch bs p = Ok p' ∧ pool_wf p' (filter (λ i, i ∉ bs) l) ∧
    ref_shift (λ i, Z.of_nat (occ i bs)) p p'.
Proof.
  unfold touch. revert l p. induction bs as [|b bs IH]; intros l p Hwf Hbs; cbn [foldM].
  { exists p. split; [done|]. split; [|apply ref_shift_refl].
    rewrite filter_id; [done|]. intros x _. apply not_elem_of_nil. }
  destruct (Hbs b) as [blk Hblk]; [by left|].
  destruct (touch_one_spec b blk l p Hwf Hblk) as (p1 & -> & Hwf1 & Hs1).
  unfold mbind; cbn [result_bind].
  destruct (IH _ p1 Hwf1) as (p2 & -> & Hwf2 & Hs2).
  { intros b' Hb'. destruct Hs1 as [_ ->]. rewrite fmap_is_Some. apply Hbs. by right. }
  exists p2. split; [done|]. split.
  - rewrite list_filter_filter in Hwf2.
    erewrite list_filter_iff; [exact Hwf2|]. cbn. intros i. rewrite not_elem_of_cons. tauto.
  - eapply ref_shift_trans; [exact Hs1|exact Hs2|]. intros i. cbn. rewrite occ_cons.
    repeat case_decide; subst; try done; lia.
Qed.

(** Block [i] drops to zero references when [bs] is freed. *)
Definition released p (bs : list nat) (cached : bool) (i : nat) : Prop :=
  i ∈ bs ∧ i ≠ 0%nat ∧
  ∃ b, blocks p !! i = Some b ∧ ref_cnt b = Z.of_nat (occ i bs) ∧
       bool_decide (block_hash b = None) = negb cached.

(** The loop of [free_blocks] after the blocks [dn]. *)
Definition free_loop_inv p (dn : list nat) (acc : BlockPool Q * list nat * list nat) : Prop :=
  let '(p', wh, woh) := acc in
  ref_shift (λ i, - Z.of_nat (occ i dn)) p p' ∧ free_block_queue p' = free_block_queue p ∧
  (NoDup wh ∧ sublist wh dn ∧ ∀ i, i ∈ wh ↔ released p dn true i) ∧
  (NoDup woh ∧ sublist woh dn ∧ ∀ i, i ∈ woh ↔ released p dn false i).

Lemma released_snoc p dn x c i blk :
  blocks p !! x = Some blk →
  (x ≠ 0%nat → Z.of_nat (occ x (dn ++ [x])) ≤ ref_cnt blk) →
  released p (dn ++ [x]) c i ↔
    (released p dn c i ∧ i ≠ x) ∨
    (i = x ∧ x ≠ 0%nat ∧ ref_cnt blk = Z.of_nat (occ x (dn ++ [x])) ∧
     bool_decide (block_hash blk = None) = negb c).
Proof.
  intros Hx Hle. unfold released. rewrite elem_of_app, list_elem_of_singleton.
  destruct (decide (i = x)) as [->|Hne].
  - rewrite Hx. naive_solver.
  - rewrite occ_app, occ_cons, occ_nil, decide_False by done. rewrite Nat.add_0_r. naive_solver.
Qed.

Lemma not_released p dn x c blk :
  blocks p !! x = Some blk → (x ≠ 0%nat → Z.of_nat (occ x (dn ++ [x])) ≤ ref_cnt blk) →
  ¬ released p dn c x.
Proof.
  intros Hx Hle (_ & H0 & b & Hb & Hr & _). rewrite Hx in Hb. injection Hb as <-.
  specialize (Hle H0). rewrite occ_app, occ_cons, decide_True in Hle by done. lia.
Qed.

Lemma collect_snoc p dn x c blk wl :
  blocks p !! x = Some blk → (x ≠ 0%nat → Z.of_nat (occ x (dn ++ [x])) ≤ ref_cnt blk) →
  (NoDup wl ∧ sublist wl dn ∧ ∀ i, i ∈ wl ↔ released p dn c i) →
  let add := x ≠ 0%nat ∧ ref_cnt blk = Z.of_nat (occ x (dn ++ [x])) ∧
             bool_decide (block_hash blk = None) = negb c in
  (add → NoDup (wl ++ [x]) ∧ sublist (wl ++ [x]) (dn ++ [x]) ∧
         ∀ i, i ∈ wl ++ [x] ↔ released p (dn ++ [x]) c i) ∧
  (¬ add → NoDup wl ∧ sublist wl (dn ++ [x]) ∧ ∀ i, i ∈ wl ↔ released p (dn ++ [x]) c i).
Proof.
  intros Hx Hle (Hnd & Hsub & Hin). pose proof (not_released p dn x c blk Hx Hle) as Hnr.
  assert (x ∉ wl) as Hxw by (by rewrite Hin). cbn. split; intros Hadd; split_and!.
  - apply NoDup_app. split_and!; [done| |by apply NoDup_singleton].
    intros i Hi ->%list_elem_of_singleton. done.
  - by apply sublist_app.
  - intros i. rewrite (released_snoc p dn x c i blk) by done.
    rewrite elem_of_app, list_elem_of_singleton, Hin. naive_solver.
  - done.
  - etrans; [exact Hsub|]. by apply sublist_inserts_r.
  - intros i. rewrite (released_snoc p dn x c i blk) by done. rewrite Hin. naive_solver.
Qed.

Lemma free_one_spec p l dn acc x blk :
  core_wf p l →
  blocks p !! x = Some blk → (x ≠ 0%nat → Z.of_nat (occ x (dn ++ [x])) ≤ ref_cnt blk) →
  free_loop_inv p dn acc →
  ∃ acc', free_one acc x = Ok acc' ∧ free_loop_inv p (dn ++ [x]) acc'.
Proof.
  intros Hcore Hx Hle.
  destruct acc as [[p1 wh] woh]. intros (Hs & Hq & Hwh & Hwoh).
  destruct (wf_ids _ _ Hcore _ _ Hx) as [_ Hnull].
  set (p2 := upd_block (add_ref (-1)) x p1).
  assert (ref_shift (λ i, - Z.of_nat (occ i (dn ++ [x]))) p p2) as Hs2.
  { eapply ref_shift_trans; [exact Hs|apply ref_shift_upd|]. intros i. cbn.
    rewrite occ_app, occ_cons, occ_nil. repeat case_decide; subst; try done; lia. }
  assert (blocks p2 !! x = Some (add_ref (- Z.of_nat (occ x (dn ++ [x]))) blk)) as Hx2.
  { destruct Hs2 as [_ ->]. by rewrite Hx. }
  destruct (collect_snoc p dn x true blk wh Hx Hle Hwh) as [Hw1 Hw2].
  destruct (collect_snoc p dn x false blk woh Hx Hle Hwoh) as [Hn1 Hn2].
  unfold free_one. fold p2. unfold get_block. rewrite Hx2. unfold mbind; cbn [result_bind of_option].
  cbn [ref_cnt is_null add_ref _block_hash]. rewrite Hnull.
  destruct ((ref_cnt blk + - Z.of_nat (occ x (dn ++ [x])) =? 0) && negb (bool_decide (x = 0%nat))) eqn:E.
  - zbool. destruct (bool_decide (block_hash blk = None)) eqn:Eh.
    + eexists. split; [done|]. refine (conj Hs2 (conj Hq (conj (Hw2 _) (Hn1 _)))).
      * naive_solver.
      * split_and!; [done|lia|done].
    + eexists. split; [done|]. refine (conj Hs2 (conj Hq (conj (Hw1 _) (Hn2 _)))).
      * split_and!; [done|lia|done].
      * naive_solver.
  - eexists. split; [done|].
    assert (¬ (x ≠ 0%nat ∧ ref_cnt blk = Z.of_nat (occ x (dn ++ [x])))) as Hno.
    { intros [H0 Hr]. rewrite Hr, bool_decide_eq_false_2 in E by done.
      rewrite Z.add_opp_diag_r in E. done. }
    refine (conj Hs2 (conj Hq (conj (Hw2 _) (Hn2 _)))); naive_solver.
Qed.

(** Freeing a list of references: blocks that drop to zero join the free list,
    the ones without a hash in front and the cached ones at the back. *)
Lemma free_blocks_ok bs l p :
  pool_wf p l →
  (∀ b, b ∈ bs → ∃ blk, blocks p !! b = Some blk ∧ (b ≠ 0%nat → Z.of_nat (occ b bs) ≤ ref_cnt blk)) →
  ∃ p' wh woh, free_blocks bs p = Ok p' ∧ pool_wf p' (woh ++ l ++ wh) ∧
    ref_shift (λ i, - Z.of_nat (occ i bs)) p p' ∧
    sublist wh bs ∧ sublist woh bs ∧
    (∀ i, i ∈ wh ↔ released p bs true i) ∧ (∀ i, i ∈ woh ↔ released p bs false i).
Proof.
  intros [Hcore Hwf] Hbs. pose proof Hcore as [Hq Hl Hpos Hn Hids Href Hfree]. unfold free_blocks.
  destruct (foldM_ind (free_loop_inv p) free_one (p, [], []) bs)
    as ([[p1 wh] woh] & -> & Hs & Hq1 & (Hnd1 & Hsub1 & Hin1) & (Hnd2 & Hsub2 & Hin2)).
  { split_and!; try apply NoDup_nil_2; try apply sublist_nil_l; try apply ref_shift_refl; try done.
    all: intros i; split; [by intros ?%not_elem_of_nil|by intros (?%not_elem_of_nil & _)]. }
  { intros dn x rest acc Heq Hinv. destruct (Hbs x) as (blk & Hx & Hle); [set_solver|].
    eapply free_one_spec; try done. intros H0. specialize (Hle H0).
    assert (occ x (dn ++ [x]) ≤ occ x bs)%nat; [|lia].
    rewrite Heq, !occ_app, !occ_cons, occ_nil. lia. }
  assert (∀ i c, released p bs c i → i ∉ l) as Hrl.
  { intros i c (Hi & H0 & b & Hb & Hr & _) (_ & b' & Hb' & Hr')%Hfree.
    rewrite Hb in Hb'. injection Hb' as <-. apply occ_pos in Hi. lia. }
  pose proof (fq_rep_nodup _ _ Hq) as Hnd.
  unfold mbind; cbn [result_bind]. rewrite <- Hq1 in Hq.
  destruct (fq_prepend_n_rep _ _ woh Hq) as (q1 & -> & Hq2).
  { apply NoDup_app. split_and!; [done| |done]. intros i Hi%Hin2. by eapply Hrl. }
  cbn [mbind result_bind].
  destruct (fq_append_n_rep _ _ wh Hq2) as (q2 & -> & Hq3).
  { apply NoDup_app. split_and!; [by eapply fq_rep_nodup| |done].
    intros i [Hi|Hi]%elem_of_app Hi'%Hin1; [|by eapply Hrl].
    apply Hin2 in Hi. destruct Hi as (_ & _ & b & Hb & _ & Hh), Hi' as (_ & _ & b' & Hb' & _ & Hh').
    rewrite Hb in Hb'. injection Hb' as <-. by rewrite Hh in Hh'. }
  eexists _, wh, woh. split; [done|]. rewrite <- app_assoc in Hq3.
  pose proof Hs as [Hmeta Hblk]. pose proof Hmeta as Hm. unfold pool_meta in Hm. injection Hm as E1 _ _ E4 _ _ _ E8.
  split; [|by split_and!]. split; [|by apply (hash_wf_same p)].
  split; try done.
  - cbn. apply (f_equal length) in E8. rewrite !length_fmap in E8. by rewrite E8, Hl, E1.
  - cbn. by rewrite E1.
  - cbn. by rewrite E4.
  - intros i b. cbn. rewrite Hblk. destruct (blocks p !! i) as [b0|] eqn:E0; [|done].
    intros [= <-]. exact (Hids _ _ E0).
  - intros i b. cbn. rewrite Hblk. destruct (blocks p !! i) as [b0|] eqn:E0; [|done].
    intros [= <-] Hi. cbn. pose proof (Href _ _ E0 Hi). destruct (decide (i ∈ bs)) as [Hin|Hin].
    + destruct (Hbs i Hin) as (b1 & Hb1 & Hle). specialize (Hle Hi). rewrite E0 in Hb1.
      injection Hb1 as <-. lia.
    + rewrite (proj2 (occ_0 i bs)) by done. lia.
  - intros i. cbn. rewrite !elem_of_app, Hin1, Hin2, Hfree, Hblk. split.
    + intros [(Hi & H0 & b & Hb & Hr & _)|[[H0 (b & Hb & Hr)]|(Hi & H0 & b & Hb & Hr & _)]];
        (split; [done|]); rewrite Hb; eexists; (split; [done|]); cbn; try lia.
      destruct (decide (i ∈ bs)) as [Hin|Hin].
      * destruct (Hbs i Hin) as (b1 & Hb1 & Hle). specialize (Hle H0). rewrite Hb in Hb1.
        injection Hb1 as <-. lia.
      * rewrite (proj2 (occ_0 i bs)) by done. lia.
    + intros [H0 (b' & Hb' & Hr)]. destruct (blocks p !! i) as [b|] eqn:Eb; [|done].
      injection Hb' as <-. cbn in Hr. destruct (decide (i ∈ bs)) as [Hin|Hin].
      * unfold released. rewrite Eb.
        destruct (bool_decide (block_hash b = None)) eqn:Eh; [left|right; right];
          (split_and!; [done|done|]); exists b; split_and!; try done; lia.
      * rewrite (proj2 (occ_0 i bs)) in Hr by done. right; left. split; [done|].
        exists b. split; [done|]. lia.
Qed.

(** ** Facts: caching full blocks *)

Definition unmasked (block_mask : option (list bool)) (i : nat) : bool :=
  match block_mask with None => true | Some m => default false (m !! i) end.

Lemma masked_out_spec m i n :
  (∀ bm, m = Some bm → length bm = n) → (i < n)%nat →
  masked_out m (Z.of_nat i) = Ok (negb (unmasked m i)).
Proof.
  intros Hl Hi. unfold masked_out, unmasked. destruct m as [bm|]; [|done].
  destruct (lookup_lt_is_Some_2 bm i) as [b Hb]; [by rewrite (Hl bm)|].
  rewrite Hb. by rewrite (proj2 (py_get_nat bm i b) Hb).
Qed.

Lemma hashes_at_spec p r (k : nat) :
  0 < hash_block_size p → (0 < k)%nat →
  ∃ hl, hashes_at p r (Z.of_nat k * hash_block_size p) = Ok hl ∧
    hl_len hl = zlen (block_hashes r) / Z.of_nat k ∧
    (∀ a, 0 ≤ a ≤ hl_len hl →
       hl_from hl a = Ok (view_hash (block_hashes r) k <$> py_range a (hl_len hl))) ∧
    (∀ i, 0 ≤ i < hl_len hl → hl_get hl i = Ok (view_hash (block_hashes r) k i)).
Proof.
  intros Hh Hk. set (hbs := hash_block_size p) in *. unfold hashes_at. fold hbs.
  set (hs := block_hashes r).
  destruct (Z.eqb_spec (Z.of_nat k * hbs) hbs) as [E|E].
  - assert (k = 1%nat) as -> by nia. exists (HashList hs). split; [done|]. cbn [hl_len hl_from hl_get].
    rewrite Z.div_1_r. split; [done|].
    assert (∀ i, 0 ≤ i < zlen hs → hs !! Z.to_nat i = Some (view_hash hs 1 i)) as Hv.
    { intros i Hi. unfold view_hash. replace (Z.to_nat (i + 1) * 1 - 1)%nat with (Z.to_nat i) by lia.
      destruct (lookup_lt_is_Some_2 hs (Z.to_nat i)) as [h Hh']; [lia|]. by rewrite Hh'. }
    split.
    + intros a Ha. f_equal. rewrite py_from_nonneg by lia. apply list_eq. intros j.
      rewrite lookup_drop, list_lookup_fmap. unfold py_range.
      destruct (decide (Z.of_nat j < zlen hs - a)).
      * rewrite lookup_seqZ_lt by lia. cbn. rewrite <- Hv by lia. f_equal. lia.
      * rewrite lookup_seqZ_ge by lia. apply lookup_ge_None. lia.
    + intros i Hi. apply py_get_nonneg; [lia|]. by apply Hv.
  - rewrite Z.mod_mul by lia. unfold BlockHashListWithBlockSize_init.
    rewrite Z.mod_mul, Z.div_mul by lia. unfold mbind; cbn [result_bind Z.eqb require].
    eexists. split; [done|]. cbn [hl_len hl_from hl_get]. unfold hv_slice, hv_len.
    cbn [hv_block_hashes scale_factor]. split; [done|].
    assert (0 ≤ zlen hs / Z.of_nat k) by (apply Z.div_pos; lia). split.
    + intros a Ha. unfold py_clip. rewrite !(proj2 (Z.ltb_ge _ 0)) by lia.
      rewrite Z.min_l, Z.min_id by lia. apply mapR_Ok. unfold py_range.
      intros i Hi%elem_of_seqZ. apply view_get_ok; lia.
    + intros i Hi. by apply view_get_ok.
Qed.

(** The key a group stores a block hash under. *)
Definition group_key (h : bytes) (gid : Z) : bytes := h ++ reverse (le_bytes 4 gid).

Lemma make_key_ok h gid : 0 ≤ gid < 2 ^ 32 → make_block_hash_with_group_id h gid = Ok (group_key h gid).
Proof.
  intros Hg. unfold make_block_hash_with_group_id, int_to_bytes_be.
  change (256 ^ Z.of_nat 4) with (2 ^ 32).
  by rewrite (proj2 (Z.leb_le 0 gid)), (proj2 (Z.ltb_lt gid (2 ^ 32))) by lia.
Qed.

(** The events that report dropped keys. *)
Definition removals p (keys : list bytes) : list KVCacheEvent :=
  if enable_kv_cache_events p then removed_event <$> keys else [].

Lemma emit_removed_log keys p :
  kv_event_queue (_emit_block_removed_events keys p) = kv_event_queue p ++ removals p keys ∧
  metrics_collector (_emit_block_removed_events keys p) = metrics_collector p.
Proof.
  unfold _emit_block_removed_events, removals. destruct (enable_kv_cache_events p); cbn; [done|].
  by rewrite app_nil_r.
Qed.

Lemma cache_one_spec nc bsz gid mask nbh p nh i b blk h n :
  hash_wf p → blocks p !! b = Some blk → b ≠ 0%nat → is_null blk = false →
  (∀ bm, mask = Some bm → length bm = n) → (i < n)%nat → unmasked mask i = true →
  nbh !! i = Some h → 0 ≤ gid < 2 ^ 32 →
  (∀ m, block_hash blk ≠ None → block_hash_num_tokens blk = m →
        ∃ t, m = Some t ∧ t < (nc + Z.of_nat i + 1) * bsz) →
  ∃ p' blk', cache_one nc bsz gid mask nbh (p, nh) (i, b) = Ok (p', nh ++ [to_external h]) ∧
    hash_wf p' ∧ pool_core p' = pool_core p ∧
    (∀ j, blocks p' !! j = if decide (b = j) then Some blk' else blocks p !! j) ∧
    block_hash blk' = Some (group_key h gid) ∧
    block_hash_num_tokens blk' = Some ((nc + Z.of_nat i + 1) * bsz) ∧
    (∀ k j, contain (cached_block_hash_to_block p') k j
            = if decide (b = j) then bool_decide (group_key h gid = k)
              else contain (cached_block_hash_to_block p) k j) ∧
    metrics_collector p' = metrics_collector p ∧
    ∃ keys, kv_event_queue p' = kv_event_queue p ++ removals p keys ∧
      ∀ k, k ∈ keys ↔ contain (cached_block_hash_to_block p) k b = true.
Proof.
  intros Hwf Hb Hb0 Hnull Hm Hi Hun Hh Hg Hprev. unfold cache_one, get_block.
  rewrite Hb. cbn [of_option]. unfold mbind at 1; cbn [result_bind].
  rewrite Hnull, (masked_out_spec mask i n Hm Hi), Hun. cbn [negb]. unfold mbind at 1; cbn [result_bind].
  rewrite (proj2 (py_get_nat nbh i h) Hh). unfold mbind at 1; cbn [result_bind].
  rewrite make_key_ok by done. unfold mbind at 1; cbn [result_bind].
  set (nht := (nc + Z.of_nat i + 1) * bsz) in *. set (key := group_key h gid).
  (* the pool after dropping any earlier hash *)
  assert (∃ p1, (match block_hash blk with
      | None => Ok p
      | Some _ =>
          _ ← assert_ (match block_hash_num_tokens blk with
                       | Some n => n <? nht | None => false end);
          '(removed, p) ← _remove_cached_block_hashes b p;
          Ok (_emit_block_removed_events removed p)
      end) = Ok p1 ∧ hash_wf p1 ∧ pool_core p1 = pool_core p ∧
      (∀ j, blocks p1 !! j = if decide (b = j) then Some (reset_hash blk) else blocks p !! j) ∧
      (∀ k j, contain (cached_block_hash_to_block p1) k j
              = contain (cached_block_hash_to_block p) k j && negb (bool_decide (b = j))) ∧
      metrics_collector p1 = metrics_collector p ∧
      ∃ keys, kv_event_queue p1 = kv_event_queue p ++ removals p keys ∧
        ∀ k, k ∈ keys ↔ contain (cached_block_hash_to_block p) k b = true)
    as (p1 & -> & Hwf1 & Hc1 & Hb1 & Hk1 & Hm1 & Hq1).
  { destruct (block_hash blk) as [k0|] eqn:Ek.
    - destruct (Hprev _ ltac:(done) eq_refl) as (t & -> & Ht).
      rewrite (proj2 (Z.ltb_lt t nht) Ht). cbn [require]. unfold mbind at 1; cbn [result_bind].
      destruct (remove_hashes_spec b blk p Hwf Hb)
        as (rm & p1 & -> & Hwf1 & Hc1 & Hb1 & Hk1 & Hq1 & Hm1 & _ & Hrm). unfold mbind; cbn [result_bind].
      eexists. split; [done|]. rewrite emit_removed_core, emit_removed_blocks, emit_removed_cache.
      destruct (emit_removed_log rm p1) as [-> ->].
      split_and!; try done; [eapply hash_wf_same; [|exact Hwf1]; by rewrite emit_removed_meta|].
      exists rm. split; [|done]. rewrite Hq1. unfold removals. by rewrite (pool_core_events _ _ Hc1).
    - assert (∀ k, contain (cached_block_hash_to_block p) k b = false) as Hno.
      { intros k. apply not_true_iff_false. intros Ec.
        apply (wf_contain _ Hwf) in Ec as (b' & Hb' & Hor). rewrite Hb in Hb'. injection Hb' as <-.
        destruct Hor as [?|Hk]; [congruence|].
        destruct (cached_block_hashes_by_block p !! b) as [ks|] eqn:Eks; [|by apply elem_of_empty in Hk].
        destruct (wf_by_block _ Hwf _ _ Eks) as (b' & k1 & Hb' & ? & _). congruence. }
      exists p. split_and!; try done.
      + intros j. case_decide; [subst|done]. rewrite Hb. f_equal.
        pose proof (wf_num _ Hwf _ _ Hb Ek). destruct blk; cbn in *. by subst.
      + intros k j. destruct (contain _ k j) eqn:Ec; [|done].
        rewrite bool_decide_eq_false_2; [done|]. intros <-.
        by rewrite Hno in Ec.
      + exists []. split; [|intros k; rewrite Hno; split; [by intros ?%not_elem_of_nil|done]].
        unfold removals. destruct (enable_kv_cache_events p); by rewrite app_nil_r. }
  unfold mbind at 1; cbn [result_bind].
  destruct (insert_hash_spec key b nht (reset_hash blk) p1) as
    (p2 & blk' & -> & Hwf2 & Hc2 & Hb2 & Hset & _ & Hk2 & Hq2 & Hm2); try done.
  { by rewrite Hb1, decide_True. }
  destruct Hset as [Hs1 Hs2]; [done|].
  unfold mbind; cbn [result_bind]. exists p2, blk'. split; [done|]. split_and!; try done.
  - congruence.
  - intros j. rewrite Hb2, Hb1. by case_decide.
  - intros k j. rewrite Hk2, Hk1. apply eq_true_iff_eq. case_decide as Hj.
    + rewrite (bool_decide_eq_true_2 (b = j)) by done. rewrite andb_false_r. cbn.
      rewrite !bool_decide_eq_true. naive_solver.
    + rewrite (bool_decide_eq_false_2 (b = j)), (bool_decide_eq_false_2 (_ ∧ _)) by naive_solver.
      by rewrite andb_true_r, orb_false_r.
  - congruence.
  - by rewrite Hq2.
Qed.

(** Blocks the caching loop acts on. *)
Definition eligible (mask : option (list bool)) (i b : nat) : Prop :=
  b ≠ 0%nat ∧ unmasked mask i = true.

(** The outcome of caching the blocks [dn] (with their indices): each eligible
    one is reachable from its own key only, all other blocks are untouched. *)
Definition cached_state (nc bsz gid : Z) (mask : option (list bool)) (H : nat → bytes)
    p (dn : list (nat * nat)) p' : Prop :=
  hash_wf p' ∧ pool_core p' = pool_core p ∧
  (∀ i b, (i, b) ∈ dn → eligible mask i b →
     ∃ blk', blocks p' !! b = Some blk' ∧ block_hash blk' = Some (group_key (H i) gid) ∧
       block_hash_num_tokens blk' = Some ((nc + Z.of_nat i + 1) * bsz) ∧
       ∀ k, contain (cached_block_hash_to_block p') k b = bool_decide (group_key (H i) gid = k)) ∧
  (∀ j, (∀ i, (i, j) ∈ dn → ¬ eligible mask i j) →
     blocks p' !! j = blocks p !! j ∧
     ∀ k, contain (cached_block_hash_to_block p') k j = contain (cached_block_hash_to_block p) k j).

#[global] Instance eligible_dec mask i b : Decision (eligible mask i b).
Proof. apply _. Defined.

(** What it reports: the keys that the eligible blocks had before are removed, and the
    hashes they get are collected; the metrics are left alone. *)
Definition cached_log (mask : option (list bool)) (H : nat → bytes) p (dn : list (nat * nat)) p'
    (nh : list ExternalBlockHash) : Prop :=
  metrics_collector p' = metrics_collector p ∧
  nh = (λ ib, to_external (H ib.1)) <$> filter (λ ib, eligible mask ib.1 ib.2) dn ∧
  ∃ keys, kv_event_queue p' = kv_event_queue p ++ removals p keys ∧
    ∀ k, k ∈ keys ↔ ∃ i b, (i, b) ∈ dn ∧ eligible mask i b ∧ contain (cached_block_hash_to_block p) k b = true.

Section CacheLoop.
Context (nc bsz gid : Z) (mask : option (list bool)) (nbh : list bytes) (H : nat → bytes).
Context (nb : list nat) (p : BlockPool Q).
Hypothesis Hwf : hash_wf p.
Hypothesis Hvalid : ∀ i b, nb !! i = Some b →
  ∃ blk, blocks p !! b = Some blk ∧ is_null blk = bool_decide (b = 0%nat).
Hypothesis Hmask : ∀ bm, mask = Some bm → length bm = length nb.
Hypothesis Hnbh : ∀ i, (i < length nb)%nat → nbh !! i = Some (H i).
Hypothesis Hgid : 0 ≤ gid < 2 ^ 32.
Hypothesis Hinj : ∀ i j b, nb !! i = Some b → nb !! j = Some b → b ≠ 0%nat → i = j.
Hypothesis Hnew : ∀ i b blk, nb !! i = Some b → eligible mask i b → blocks p !! b = Some blk →
  block_hash blk ≠ None →
  ∃ t, block_hash_num_tokens blk = Some t ∧ t < (nc + Z.of_nat i + 1) * bsz.

Lemma imap_pair_prefix dn x rest :
  imap pair nb = dn ++ x :: rest →
  x.1 = length dn ∧ nb !! x.1 = Some x.2 ∧
  (∀ i b, (i, b) ∈ dn → nb !! i = Some b ∧ (i < length dn)%nat).
Proof.
  intros E.
  assert (∀ m y, (dn ++ x :: rest) !! m = Some y → y.1 = m ∧ nb !! y.1 = Some y.2) as Hl.
  { intros m y. rewrite <- E, list_lookup_imap, fmap_Some. intros (b & Hb & ->). done. }
  destruct (Hl (length dn) x) as [H1 H2]; [by apply list_lookup_middle|]. split_and!; [done..|].
  intros i b [m Hm]%list_elem_of_lookup. pose proof (lookup_lt_Some _ _ _ Hm).
  destruct (Hl m (i, b)) as [H3 H4]; [by rewrite lookup_app_l|]. cbn in *. by subst.
Qed.

Lemma cache_step dn x rest p1 nh :
  imap pair nb = dn ++ x :: rest → cached_state nc bsz gid mask H p dn p1 → cached_log mask H p dn p1 nh →
  ∃ p2 nh', cache_one nc bsz gid mask nbh (p1, nh) x = Ok (p2, nh') ∧
    cached_state nc bsz gid mask H p (dn ++ [x]) p2 ∧ cached_log mask H p (dn ++ [x]) p2 nh'.
Proof.
  intros E (Hwf1 & Hc1 & Hdone & Hframe) (L1 & L2 & keys & L3 & L4). destruct x as [i b].
  destruct (imap_pair_prefix _ _ _ E) as (Hi & Hb & Hdn). cbn in Hi, Hb.
  destruct (Hvalid _ _ Hb) as (blk & Hblk & Hnull). pose proof (lookup_lt_Some _ _ _ Hb) as Hlt.
  destruct (decide (b ≠ 0%nat ∧ unmasked mask i = true)) as [Hel|Hel].
  - destruct (Hframe b) as [Hb1 Hcb].
    { intros i' Hi' [? _]. destruct (Hdn _ _ Hi') as [Hb' ?].
      pose proof (Hinj _ _ _ Hb' Hb ltac:(done)). lia. }
    destruct Hel as [Hb0 Hun].
    destruct (cache_one_spec nc bsz gid mask nbh p1 nh i b blk (H i) (length nb))
      as (p2 & blk' & H2 & Hwf2 & Hc2 & Hb2 & Hh2 & Hn2 & Hk2 & Hm2 & keys2 & Hq2 & Hks2); try done.
    { by rewrite Hb1. }
    { by rewrite Hnull, bool_decide_eq_false_2. }
    { by apply Hnbh. }
    { intros m Hne <-. by eapply Hnew. }
    exists p2, (nh ++ [to_external (H i)]). split; [done|]. split; cycle 1.
    { split; [congruence|]. rewrite filter_app, fmap_app, <- L2, filter_cons_True by done. split; [done|].
      exists (keys ++ keys2). split.
      - rewrite Hq2, L3, <- app_assoc. f_equal. unfold removals. rewrite (pool_core_events _ _ Hc1).
        destruct (enable_kv_cache_events p); [by rewrite fmap_app|done].
      - intros k. rewrite elem_of_app, L4, Hks2, Hcb. setoid_rewrite elem_of_app. setoid_rewrite list_elem_of_singleton.
        split; [intros [(i' & b' & ? & ? & ?)|?]|intros (i' & b' & [?|[= -> ->]] & ? & ?)]; [exists i', b'|exists i, b|left; exists i', b'|right]; try (split_and!; by auto); done. }
    split; [done|]. split; [congruence|]. split.
    + intros i' b' [Hin|[= -> ->]%list_elem_of_singleton]%elem_of_app Hel'.
      * assert (b ≠ b') as Hne.
        { intros ->. destruct (Hdn _ _ Hin) as [Hb' ?].
          pose proof (Hinj _ _ _ Hb' Hb Hb0). lia. }
        destruct (Hdone _ _ Hin Hel') as (blk1 & ? & ? & ? & Hk1). exists blk1.
        rewrite Hb2, decide_False by done. split_and!; try done.
        intros k. rewrite Hk2, decide_False by done. apply Hk1.
      * exists blk'. rewrite Hb2, decide_True by done. split_and!; try done.
        intros k. by rewrite Hk2, decide_True by done.
    + intros j Hj. assert (b ≠ j) as Hne.
      { intros ->. apply (Hj i); [|done]. apply elem_of_app. right. by apply list_elem_of_singleton. }
      destruct (Hframe j) as [F1 F2].
      { intros i' Hin. apply Hj. apply elem_of_app. by left. }
      rewrite Hb2, decide_False by done. split; [done|].
      intros k. rewrite Hk2, decide_False by done. apply F2.
  - exists p1, nh. split.
    + unfold cache_one, get_block.
      assert (∃ blk1, blocks p1 !! b = Some blk1 ∧ is_null blk1 = bool_decide (b = 0%nat)) as (blk1 & -> & Hn1).
      { injection Hc1 as _ _ _ _ _ _ Ec.
        destruct (fmap_lookup_corr _ _ _ _ _ (eq_sym Ec) Hblk) as (blk1 & Hb1 & [= _ _ Hn1]).
        exists blk1. by rewrite Hn1. }
      cbn [of_option]. unfold mbind at 1; cbn [result_bind]. rewrite Hn1.
      destruct (decide (b = 0%nat)) as [->|Hb0]; [by rewrite bool_decide_eq_true_2|].
      rewrite bool_decide_eq_false_2, (masked_out_spec mask i (length nb)) by done.
      destruct (unmasked mask i); [tauto|done].
    + split; [split; [done|]; split; [done|]; split|].
      * intros i' b' [Hin|[= -> ->]%list_elem_of_singleton]%elem_of_app Hel'; [by apply Hdone|done].
      * intros j Hj. apply Hframe. intros i' Hin. apply Hj. apply elem_of_app. by left.
      * split; [done|]. rewrite filter_app, fmap_app, <- L2, filter_cons_False, app_nil_r by done. split; [done|].
        exists keys. split; [done|]. intros k. rewrite L4. setoid_rewrite elem_of_app. setoid_rewrite list_elem_of_singleton.
        split; intros (i' & b' & Hin & Hel' & ?); [exists i', b'; auto|]. destruct Hin as [?|[= -> ->]]; [exists i', b'; auto|done].
Qed.

Lemma cache_loop_spec :
  ∃ p' nh, foldM (cache_one nc bsz gid mask nbh) (p, []) (imap pair nb) = Ok (p', nh) ∧
    cached_state nc bsz gid mask H p (imap pair nb) p' ∧ cached_log mask H p (imap pair nb) p' nh.
Proof.
  destruct (foldM_ind (λ dn acc, cached_state nc bsz gid mask H p dn acc.1 ∧ cached_log mask H p dn acc.1 acc.2)
              (cache_one nc bsz gid mask nbh) (p, []) (imap pair nb)) as ([p' nh] & Hf & Hs).
  - cbn. split; [split_and!; try done; intros i b Hin; by apply not_elem_of_nil in Hin|].
    split; [done|]. split; [done|]. exists []. split.
    + unfold removals. destruct (enable_kv_cache_events p); by rewrite app_nil_r.
    + intros k. split; [by intros ?%not_elem_of_nil|]. intros (i & b & Hin & _). by apply not_elem_of_nil in Hin.
  - intros dn x rest [p1 nh] E [Hs Hl]. destruct (cache_step dn x rest p1 nh E Hs Hl) as (p2 & nh' & ? & ?).
    by exists (p2, nh').
  - by exists p', nh.
Qed.

End CacheLoop.

Lemma mm_idx_ok_mono fs idx s s' : s ≤ s' → mm_idx_ok fs idx s → mm_idx_ok fs idx s'.
Proof.
  intros Hs [->|[Hl HF]]; [by left|right]. split; [done|].
  eapply Forall_impl; [exact HF|]. cbn. lia.
Qed.

Lemma mm_idx_ok_0 fs s : mm_idx_ok fs 0 s.
Proof. right. split; [lia|]. constructor. Qed.

(** The requests an operation may return: the same but for the memo table. *)
Definition memo_extends (r r' : Request) : Prop := same_but_memo r r' ∧ memo_ok env_sha256 r'.

Lemma event_keys_spec p bs (nc nf : nat) bsz mask r :
  0 < bsz → mm_sorted (mm_features r) → memo_ok env_sha256 r →
  (nc ≤ nf ≤ length bs)%nat → (∀ b, b ∈ bs → is_Some (blocks p !! b)) →
  (∀ bm, mask = Some bm → length bm = (nf - nc)%nat) →
  ∃ keys idx r', foldM (event_keys_one p bs (Z.of_nat nc) bsz mask) ([], 0, r)
                   (py_range (Z.of_nat nc) (Z.of_nat nf)) = Ok (keys, idx, r') ∧ memo_extends r r'.
Proof.
  intros Hbsz Hmm Hmemo Hle Hvalid Hmask.
  set (P := λ (dn : list Z) (acc : list (option (list extra_key)) * Z * Request),
        memo_extends r acc.2 ∧
        mm_idx_ok (mm_features r) acc.1.2 ((Z.of_nat nc + zlen dn) * bsz)).
  destruct (foldM_ind P (event_keys_one p bs (Z.of_nat nc) bsz mask) ([], 0, r)
              (py_range (Z.of_nat nc) (Z.of_nat nf))) as ([[keys idx] r'] & -> & [Hr _]).
  - split; [split; [apply same_but_memo_refl|done]|apply mm_idx_ok_0].
  - intros dn i rest [[keys idx] r1] E [[Hsame Hm1] Hidx]. cbn [fst snd] in *.
    assert (py_range (Z.of_nat nc) (Z.of_nat nf) !! length dn = Some i) as Hi
      by (rewrite E; by apply list_lookup_middle).
    unfold py_range in Hi. apply lookup_seqZ in Hi as [-> Hi].
    assert ((Z.of_nat nc + zlen dn) * bsz ≤ (Z.of_nat nc + zlen (dn ++ [Z.of_nat nc + zlen dn])) * bsz) as Hmono
      by (rewrite length_app; cbn; nia).
    assert (P (dn ++ [Z.of_nat nc + zlen dn]) (keys, idx, r1)) as Hskip
      by (split; [done|]; by eapply mm_idx_ok_mono).
    destruct (lookup_lt_is_Some_2 bs (nc + length dn)) as [b Hb]; [lia|].
    destruct (Hvalid b) as [blk Hblk]; [by eapply list_elem_of_lookup_2|].
    unfold event_keys_one. replace (Z.of_nat nc + zlen dn) with (Z.of_nat (nc + length dn)) by lia.
    rewrite (proj2 (py_get_nat bs _ b) Hb). unfold mbind at 1; cbn [result_bind].
    unfold get_block. rewrite Hblk. cbn [of_option]. unfold mbind at 1; cbn [result_bind].
    replace (Z.of_nat (nc + length dn)) with (Z.of_nat nc + zlen dn) by lia.
    destruct (is_null blk); [eauto|].
    replace (Z.of_nat nc + zlen dn - Z.of_nat nc) with (zlen dn) by lia.
    rewrite (masked_out_spec mask (length dn) (nf - nc)) by (done || lia).
    unfold mbind at 1; cbn [result_bind]. destruct (negb _); [eauto|].
    destruct Hsame as [m Hsame].
    destruct (generate_keys_spec env_sha256 r1 ((Z.of_nat nc + zlen dn) * bsz)
      ((Z.of_nat nc + zlen dn) * bsz + bsz) idx) as (idx' & r2 & -> & Hidx' & Hs2 & Hm2);
      [by subst|done|lia|by subst|].
    unfold mbind; cbn [result_bind]. eexists. split; [done|]. split; cbn [fst snd].
    + split; [|done]. eapply same_but_memo_trans; [|done]. by exists m.
    + subst r1. eapply mm_idx_ok_mono; [|exact Hidx']. rewrite length_app. cbn. lia.
  - by exists keys, idx, r'.
Qed.

(** When caching blocks [nc .. nf) of a request under a group is possible. *)
Record cacheable p (r : Request) (bs : list nat) (nc nf k : nat) (gid : Z)
    (mask : option (list bool)) : Prop := {
  ca_hbs : 0 < hash_block_size p;
  ca_k : (0 < k)%nat;
  ca_range : (nc < nf ≤ length bs)%nat;
  ca_hashes : (nf * k ≤ length (block_hashes r))%nat;
  ca_valid b : b ∈ bs → is_Some (blocks p !! b);
  ca_mask bm : mask = Some bm → length bm = (nf - nc)%nat;
  ca_gid : 0 ≤ gid < 2 ^ 32;
  ca_inj i j b : bs !! i = Some b → bs !! j = Some b →
    (nc ≤ i < nf)%nat → (nc ≤ j < nf)%nat → b ≠ 0%nat → i = j;
  ca_new i b blk : bs !! i = Some b → (nc ≤ i < nf)%nat → eligible mask (i - nc) b →
    blocks p !! b = Some blk → block_hash blk ≠ None →
    ∃ t, block_hash_num_tokens blk = Some t ∧
         t < Z.of_nat (S i) * (Z.of_nat k * hash_block_size p);
  ca_mm : mm_sorted (mm_features r);
  ca_memo : memo_ok env_sha256 r;
}.

(** The blocks cached, and the hash each is cached under. *)
Definition new_blocks (bs : list nat) (nc nf : nat) : list nat := take (nf - nc) (drop nc bs).
Definition new_hash (r : Request) (k nc : nat) (i : nat) : bytes :=
  view_hash (block_hashes r) k (Z.of_nat (nc + i)).

Lemma new_blocks_lookup bs nc nf i b :
  new_blocks bs nc nf !! i = Some b ↔ bs !! (nc + i)%nat = Some b ∧ (i < nf - nc)%nat.
Proof. unfold new_blocks. by rewrite lookup_take_Some, lookup_drop. Qed.

(** The report of a step of caching: removals, then one stored event. *)
Definition cache_reported (r : Request) (bs : list nat) (nc nf k : nat) (gid : Z) (mask : option (list bool)) p p' : Prop :=
  let bsz := Z.of_nat k * hash_block_size p in
  let new := imap pair (new_blocks bs nc nf) in
  ∃ keys extra,
    (∀ key, key ∈ keys ↔ ∃ i b, (i, b) ∈ new ∧ eligible mask i b ∧ contain (cached_block_hash_to_block p) key b = true) ∧
    kv_event_queue p' = kv_event_queue p ++
      if enable_kv_cache_events p then (removed_event <$> keys) ++
        [EvStored (mkStored ((λ ib, to_external (new_hash r k nc ib.1)) <$> filter (λ ib, eligible mask ib.1 ib.2) new)
           (if decide (nc = 0)%nat then None else Some (to_external (view_hash (block_hashes r) k (Z.of_nat nc - 1))))
           (py_slice (_all_token_ids r) (Z.of_nat nc * bsz) (Z.of_nat nf * bsz)) bsz
           (lora_int_id <$> lora_request r) (lora_name <$> lora_request r) extra gid)]
      else [].

Lemma cache_full_blocks_ok r bs nc nf k gid mask l p :
  pool_wf p l → cacheable p r bs nc nf k gid mask →
  ∃ p' r', cache_full_blocks r bs (Z.of_nat nc) (Z.of_nat nf)
             (Z.of_nat k * hash_block_size p) gid mask p = Ok (p', r') ∧
    pool_wf p' l ∧ memo_extends r r' ∧
    cached_state (Z.of_nat nc) (Z.of_nat k * hash_block_size p) gid mask (new_hash r k nc) p
      (imap pair (new_blocks bs nc nf)) p' ∧
    metrics_collector p' = metrics_collector p ∧ cache_reported r bs nc nf k gid mask p p'.
Proof.
  intros [Hcore Hwf] [Hhbs Hk Hrange Hhash Hvalid Hmask Hgid Hinj Hnew Hmm Hmemo].
  set (hs := block_hashes r) in *.
  unfold cache_full_blocks. rewrite Z.geb_leb, (proj2 (Z.leb_gt (Z.of_nat nf) (Z.of_nat nc))) by lia.
  rewrite py_slice_nat. fold (new_blocks bs nc nf).
  assert (length (new_blocks bs nc nf) = nf - nc)%nat as Hlen.
  { unfold new_blocks. rewrite length_take, length_drop. lia. }
  assert (match mask with None => true | Some m => zlen m =? zlen (new_blocks bs nc nf) end = true) as ->.
  { destruct mask as [m|]; [|done]. apply Z.eqb_eq. rewrite Hlen, (Hmask m); done. }
  cbn [require]. unfold mbind at 1; cbn [result_bind].
  destruct (hashes_at_spec p r k Hhbs Hk) as (hl & -> & Hhl & Hfrom & Hget).
  unfold mbind at 1; cbn [result_bind]. fold hs in Hhl, Hfrom, Hget.
  assert (Z.of_nat nf ≤ hl_len hl) as Hnf.
  { rewrite Hhl. apply Z.div_le_lower_bound; lia. }
  rewrite Z.geb_leb, (proj2 (Z.leb_le (Z.of_nat nf) (hl_len hl))) by done.
  cbn [require]. unfold mbind at 1; cbn [result_bind]. rewrite Hfrom by lia.
  unfold mbind at 1; cbn [result_bind].
  destruct (cache_loop_spec (Z.of_nat nc) (Z.of_nat k * hash_block_size p) gid mask
      (view_hash hs k <$> py_range (Z.of_nat nc) (hl_len hl)) (new_hash r k nc)
      (new_blocks bs nc nf) p) as (p1 & nh & -> & Hst & (L1 & L2 & keys0 & L3 & L4)); try done.
  { intros i b [Hb _]%new_blocks_lookup.
    destruct (Hvalid b) as [blk Hblk]; [by eapply list_elem_of_lookup_2|].
    exists blk. split; [done|]. by apply (wf_ids _ _ Hcore). }
  { intros bm Hbm. rewrite Hlen. by apply Hmask. }
  { intros i Hi. rewrite list_lookup_fmap. unfold py_range. rewrite lookup_seqZ_lt by lia.
    unfold new_hash. cbn. f_equal. f_equal. lia. }
  { intros i j b [Hi ?]%new_blocks_lookup [Hj ?]%new_blocks_lookup Hb0.
    assert (nc + i = nc + j)%nat by (eapply Hinj; eauto; lia). lia. }
  { intros i b blk [Hi ?]%new_blocks_lookup Hel Hblk Hne.
    destruct (Hnew (nc + i)%nat b blk) as (t & Ht & Htlt); try done; [lia| |].
    - by replace (nc + i - nc)%nat with i by lia.
    - exists t. split; [done|]. lia. }
  pose proof Hst as (Hwf1 & Hc1 & _ & _).
  assert (pool_wf p1 l) as Hpwf by (split; [by apply (core_wf_same p)|done]).
  pose proof (pool_core_events _ _ Hc1) as Hev.
  unfold mbind at 1; cbn [result_bind]. destruct (enable_kv_cache_events p1) eqn:Eev; cbn [negb]; cycle 1.
  { exists p1, r. do 4 (split; [done || exact (conj (same_but_memo_refl r) Hmemo)|]). split; [done|].
    exists keys0, None. split; [done|]. rewrite L3. unfold removals. by rewrite <- Hev. }
  assert ((if Z.of_nat nc =? 0 then Ok None
                 else h ← hl_get hl (Z.of_nat nc - 1); Ok (Some (to_external h)))
    = Ok (if decide (nc = 0)%nat then None else Some (to_external (view_hash hs k (Z.of_nat nc - 1))))) as ->.
  { destruct (Z.eqb_spec (Z.of_nat nc) 0), (decide (nc = 0)%nat); try lia; [done|]. by rewrite Hget by lia. }
  unfold mbind at 1; cbn [result_bind].
  destruct (event_keys_spec p1 bs nc nf (Z.of_nat k * hash_block_size p) mask r)
    as (keys & idx & r' & -> & Hr'); try done; [nia|lia| |].
  { intros b Hb. destruct (Hvalid b Hb) as [blk Hblk]. injection Hc1 as _ _ _ _ _ _ Ec.
    destruct (fmap_lookup_corr _ _ _ _ _ (eq_sym Ec) Hblk) as (blk1 & Hb1 & _). eauto. }
  unfold mbind; cbn [result_bind]. eexists _, r'. split; [done|].
  split; [|split; [done|]].
  - destruct Hpwf as [Hp1 Hp2]. split; [by apply (core_wf_same p1)|by apply (hash_wf_same p1)].
  - destruct Hst as (_ & _ & S3 & S4).
    split; [split; [by apply (hash_wf_same p1)|]; exact (conj Hc1 (conj S3 S4))|]. split; [done|].
    destruct Hr' as [[m ->] _]. eexists keys0, _. split; [done|]. cbn [kv_event_queue with_events].
    rewrite L3, <- Hev, <- app_assoc. unfold removals. rewrite <- Hev, L2. done.
Qed.

(** ** Facts: construction, lookup, eviction, reset, partial entries *)

Lemma pool_init_ok n caching hbs events mc :
  0 < n →
  ∃ p, BlockPool_init n caching hbs events mc = Ok p ∧
    pool_wf p (seq 1 (Z.to_nat n - 1)) ∧
    pool_config p = (n, caching, hbs, 0%nat, events) ∧
    (∀ key i, contain (cached_block_hash_to_block p) key i = false).
Proof.
  intros Hn. unfold BlockPool_init. rewrite Z.gtb_ltb, (proj2 (Z.ltb_lt 0 n)) by done.
  cbn [require]. unfold mbind at 1; cbn [result_bind].
  destruct (Z.to_nat n) as [|m] eqn:Em; [lia|]. cbn [seq Nat.sub]. rewrite Nat.sub_0_r.
  destruct (fq_popleft_rep (fq_init (0%nat :: seq 1 m)) 0 (seq 1 m)) as (q & -> & Hq).
  { apply fq_init_rep. apply (NoDup_seq 0 (S m)). }
  unfold mbind; cbn [result_bind]. eexists. split; [done|]. split; [|done].
  set (bs := alter _ _ _).
  assert (∀ i b, bs !! i = Some b →
    (i < S m)%nat ∧ b = mkBlock i 0 None None (bool_decide (i = 0%nat))) as Hbs.
  { intros i b. unfold bs. change (0%nat :: seq 1 m) with (seq 0 (S m)).
    destruct (decide (0%nat = i)) as [<-|Hne]; [intros [= <-]; split; [lia|done]|].
    rewrite list_lookup_alter_ne, list_lookup_fmap, fmap_Some by done. intros (j & Hj & ->).
    apply lookup_seq in Hj as [-> ?]. split; [lia|]. by rewrite bool_decide_eq_false_2. }
  assert (length bs = S m) as Hlen.
  { unfold bs. change (0%nat :: seq 1 m) with (seq 0 (S m)).
    by rewrite length_alter, length_fmap, length_seq. }
  assert (∀ i, (i < S m)%nat → is_Some (bs !! i)) as Hsome.
  { intros i Hi. apply lookup_lt_is_Some. lia. }
  clearbody bs. split; split; cbn; try done.
  - lia.
  - intros i b [_ ->]%Hbs. done.
  - intros i b [_ ->]%Hbs. done.
  - intros i. rewrite elem_of_seq. split.
    + intros Hi. split; [lia|]. destruct (Hsome i) as [b Hb]; [lia|]. exists b. split; [done|].
      by destruct (Hbs _ _ Hb) as [_ ->].
    + intros [Hi (b & [? _]%Hbs & _)]. lia.
  - intros key i. split; [done|]. intros (b & [_ ->]%Hbs & [?|Hk]); [done|].
    cbn in Hk. rewrite lookup_empty in Hk. by apply elem_of_empty in Hk.
  - intros i b [_ ->]%Hbs. done.
  - intros b [_ ->]%Hbs. done.
Qed.

Lemma get_cached_loop_spec p h gids acc :
  hash_wf p → Forall (λ g, 0 ≤ g < 2 ^ 32) gids →
  (∃ bs, get_cached_block_loop p h gids acc = Ok (Some (acc ++ bs)) ∧
     Forall2 (λ g b, owns p b (group_key h g)) gids bs) ∨
  (get_cached_block_loop p h gids acc = Ok None ∧
   ∃ g, g ∈ gids ∧ ∀ b, ¬ owns p b (group_key h g)).
Proof.
  intros Hwf HF. revert acc. induction HF as [|g gids Hg HF IH]; intros acc.
  { left. exists []. rewrite app_nil_r. split; [done|constructor]. }
  cbn [get_cached_block_loop]. rewrite make_key_ok by done. unfold mbind, result_bind.
  destruct (get_one_block_spec (cached_block_hash_to_block p) (group_key h g) (wf_cache _ Hwf))
    as [(b & -> & Hb)|[-> Hno]].
  - apply (wf_contain _ Hwf) in Hb. destruct (IH (acc ++ [b])) as [(bs & -> & Hbs)|(-> & g' & Hg' & Hn)].
    + left. exists (b :: bs). rewrite <- app_assoc. split; [done|]. by constructor.
    + right. split; [done|]. exists g'. split; [by right|done].
  - right. split; [done|]. exists g. split; [by left|].
    intros b Hb%(wf_contain _ Hwf). by rewrite Hno in Hb.
Qed.

Lemma pool_core_len p p' : pool_core p = pool_core p' → length (blocks p) = length (blocks p').
Proof. intros [= _ _ _ _ _ _ E]. apply (f_equal length) in E. by rewrite !length_fmap in E. Qed.

Lemma evict_blocks_ok ids l p :
  pool_wf p l → (∀ i, i ∈ ids → (i < length (blocks p))%nat) →
  ∃ p', evict_blocks (Z.of_nat <$> ids) p = Ok p' ∧ pool_wf p' l ∧ pool_core p' = pool_core p ∧
    (∀ key i, contain (cached_block_hash_to_block p') key i
              = contain (cached_block_hash_to_block p) key i && negb (bool_decide (i ∈ ids))) ∧
    (∀ i, blocks p' !! i = if decide (i ∈ ids) then reset_hash <$> blocks p !! i else blocks p !! i).
Proof.
  unfold evict_blocks. revert p. induction ids as [|b ids IH]; intros p [Hcore Hwf] Hids; cbn [foldM fmap list_fmap].
  { exists p. split; [done|]. split; [done|]. split; [done|]. split; [|done].
    intros key i. rewrite bool_decide_eq_false_2 by apply not_elem_of_nil. by rewrite andb_true_r. }
  assert (b < length (blocks p))%nat as Hlt by (apply Hids; by left).
  destruct (lookup_lt_is_Some_2 _ _ Hlt) as [blk Hb].
  destruct (maybe_evict_spec b blk p Hwf Hb) as (ev & p1 & Hev & Hwf1 & Hc1 & Hb1 & Hk1 & _).
  assert (evict_one p (Z.of_nat b) = Ok p1) as ->.
  { unfold evict_one. rewrite (proj2 (Z.ltb_lt (Z.of_nat b) (zlen (blocks p)))) by lia.
    rewrite (proj2 (py_get_nat (blocks p) b blk) Hb). unfold mbind, result_bind, require.
    destruct (wf_ids _ _ Hcore _ _ Hb) as [-> _]. by rewrite Hev. }
  unfold mbind at 1; cbn [result_bind].
  destruct (IH p1) as (p2 & -> & Hwf2 & Hc2 & Hk2 & Hb2).
  { split; [by apply (core_wf_same p)|done]. }
  { intros i Hi. rewrite (pool_core_len _ _ Hc1). apply Hids. by right. }
  exists p2. split; [done|]. split; [done|]. split; [congruence|]. split.
  - intros key i. rewrite Hk2, Hk1. apply eq_true_iff_eq.
    rewrite !andb_true_iff, !negb_true_iff, !bool_decide_eq_false, elem_of_cons. naive_solver.
  - intros i. rewrite Hb2, Hb1. destruct (decide (b = i)) as [->|Hne].
    + rewrite (decide_True (P := i ∈ i :: ids)) by (by apply list_elem_of_here).
      rewrite Hb. by case_decide.
    + destruct (decide (i ∈ ids)).
      * by rewrite decide_True by (by right).
      * by rewrite decide_False by (by rewrite elem_of_cons; intros [->|]).
Qed.

Lemma reset_ok l p :
  pool_wf p l →
  if decide (zlen l = num_gpu_blocks p - 1) then
    ∃ p', reset_prefix_cache p = (true, p') ∧ pool_wf p' l ∧ pool_core p' = pool_core p ∧
      ∀ key i, contain (cached_block_hash_to_block p') key i = false
  else reset_prefix_cache p = (false, p).
Proof.
  intros [Hcore Hwf]. unfold reset_prefix_cache, get_num_free_blocks.
  rewrite (fq_rep_num _ _ (wf_queue _ _ Hcore)). case_decide as Hl; cycle 1.
  { rewrite (proj2 (Z.eqb_neq _ 1)) by lia. done. }
  rewrite (proj2 (Z.eqb_eq _ 1)) by lia. cbn [negb].
  set (p1 := on_metrics _ _). assert (pool_core p1 = pool_core p) as Hc1.
  { unfold pool_core. cbn. f_equal. rewrite <- list_fmap_compose. done. }
  assert (∀ i b, blocks p1 !! i = Some b → ∃ b', b = reset_hash b') as Hb1.
  { intros i b. cbn. rewrite list_lookup_fmap, fmap_Some. naive_solver. }
  assert (hash_wf p1) as Hwf1.
  { split.
    - apply cache_wf_empty.
    - intros key i. split; [done|]. intros (b & Hb & [Hk|Hk]).
      + by destruct (Hb1 _ _ Hb) as [b' ->].
      + cbn in Hk. rewrite lookup_empty in Hk. by apply elem_of_empty in Hk.
    - done.
    - intros i b Hb. by destruct (Hb1 _ _ Hb) as [b' ->].
    - intros b Hb. by destruct (Hb1 _ _ Hb) as [b' ->]. }
  assert (pool_wf p1 l) as [W1 W2] by (split; [by apply (core_wf_same p)|done]).
  destruct (enable_kv_cache_events p1); eexists; (split; [done|]).
  - split; [|done]. split; [by apply (core_wf_same p1)|by apply (hash_wf_same p1)].
  - split; [|done]. by split.
Qed.

Lemma generate_keys_total r s e idx :
  memo_ok env_sha256 r → idx = -1 ∨ 0 ≤ idx →
  ∃ ks idx' r', generate_block_hash_extra_keys env_sha256 r s e idx = Ok (ks, idx', r') ∧
    memo_extends r r'.
Proof.
  intros Hm Hidx. unfold generate_block_hash_extra_keys.
  assert (∃ ks idx', _gen_mm_extra_hash_keys r s e idx = Ok (ks, idx')) as (ks & idx' & ->).
  { unfold _gen_mm_extra_hash_keys. destruct (last (mm_features r)) as [f|] eqn:El; [|eauto].
    destruct (mm_end f <=? s); [eauto|].
    assert (1 ≤ length (mm_features r))%nat by (destruct (mm_features r); cbn in *; [done|lia]).
    destruct (Z.ltb_spec idx 0).
    - rewrite (proj2 (Z.leb_le (- idx) _)) by lia. cbn. destruct (mm_scan _ _ _ _ _); eauto.
    - cbn. destruct (mm_scan _ _ _ _ _); eauto. }
  destruct (gen_embeds_spec env_sha256 r s e Hm) as (r' & Hr & Hs & Hm').
  unfold mbind; cbn [result_bind]. rewrite Hr. eexists _, _, _. split; [done|by split].
Qed.

(** When a partial entry at [m] hash blocks can be registered for block [b]
    of a group whose blocks hold [k] hash blocks. *)
Record partial_ok p (r : Request) (b m k : nat) (gid : Z) : Prop := {
  pa_hbs : 0 < hash_block_size p;
  pa_k : (1 < k)%nat;
  pa_m : (0 < m ≤ length (block_hashes r))%nat;
  pa_partial : (m mod k ≠ 0)%nat;
  pa_block : b ≠ 0%nat ∧ is_Some (blocks p !! b);
  pa_gid : 0 ≤ gid < 2 ^ 32;
  pa_memo : memo_ok env_sha256 r;
}.

Lemma cache_partial_block_ok r b m k gid l p :
  pool_wf p l → partial_ok p r b m k gid →
  ∃ h p' r', block_hashes r !! (m - 1)%nat = Some h ∧
    cache_partial_block r b (Z.of_nat m * hash_block_size p) gid
      (Z.of_nat k * hash_block_size p) p = Ok (Some (group_key h gid), p', r') ∧
    pool_wf p' l ∧ pool_core p' = pool_core p ∧ memo_extends r r' ∧
    contain (cached_block_hash_to_block p') (group_key h gid) b = true ∧
    (∀ key i, i ≠ b → contain (cached_block_hash_to_block p') key i
                      = contain (cached_block_hash_to_block p) key i).
Proof.
  intros [Hcore Hwf] [Hh Hk Hm Hpart [Hb0 [blk Hblk]] Hg Hmemo].
  set (hbs := hash_block_size p) in *.
  destruct (lookup_lt_is_Some_2 (block_hashes r) (m - 1)) as [h Hhash]; [lia|]. exists h.
  destruct (wf_ids _ _ Hcore _ _ Hblk) as [_ Hnull].
  assert (_get_partial_block_hash p r (Z.of_nat m * hbs) = Ok h) as Hgp.
  { unfold _get_partial_block_hash. fold hbs. rewrite Z.mod_mul, Z.div_mul by lia.
    rewrite (proj2 (Z.ltb_lt 0 _)), (proj2 (Z.leb_le _ _)) by lia.
    unfold mbind, result_bind; cbn [Z.eqb require andb].
    apply py_get_nonneg; [lia|]. rewrite <- Hhash. f_equal. lia. }
  assert (negb ((Z.of_nat m * hbs) mod (Z.of_nat k * hbs) =? 0) = true) as Hmod.
  { rewrite Z.mul_mod_distr_r by lia. apply negb_true_iff, Z.eqb_neq.
    rewrite <- Nat2Z.inj_mod. nia. }
  unfold cache_partial_block. fold hbs. unfold get_block. rewrite Hblk. cbn [of_option].
  unfold mbind at 1; cbn [result_bind]. rewrite Hnull, bool_decide_eq_false_2 by done.
  rewrite Z.gtb_ltb, (proj2 (Z.ltb_lt hbs _)), Z.mod_mul by nia. rewrite Hmod, Hgp.
  unfold mbind at 1 2 3 4; cbn [result_bind Z.eqb require]. rewrite make_key_ok by done.
  unfold mbind at 1; cbn [result_bind]. rewrite Z.div_mul by lia.
  set (key := group_key h gid). set (ac := _ || contain _ key b).
  set (shorter := match block_hash blk with None => _ | Some _ => _ end).
  assert (∃ p1 blk1, (if negb ac && shorter then
         '(removed, p) ← _remove_cached_block_hashes b p;
         Ok (_emit_block_removed_events removed p)
       else Ok p) = Ok p1 ∧ hash_wf p1 ∧ pool_core p1 = pool_core p ∧ blocks p1 !! b = Some blk1 ∧
      (∀ k0 i, i ≠ b → contain (cached_block_hash_to_block p1) k0 i
                      = contain (cached_block_hash_to_block p) k0 i))
    as (p1 & blk1 & -> & Hwf1 & Hc1 & Hb1 & Hk1).
  { destruct (negb ac && shorter); [|by exists p, blk].
    destruct (remove_hashes_spec b blk p Hwf Hblk) as (rm & p1 & -> & Hwf1 & Hc1 & Hb1 & Hk1 & _).
    unfold mbind, result_bind. eexists _, (reset_hash blk). split; [done|].
    rewrite emit_removed_core, emit_removed_blocks, emit_removed_cache. split_and!; try done.
    - eapply hash_wf_same; [|exact Hwf1]. by rewrite emit_removed_meta.
    - by rewrite Hb1, decide_True.
    - intros k0 i Hi. rewrite Hk1, bool_decide_eq_false_2 by done. by rewrite andb_true_r. }
  unfold mbind at 1; cbn [result_bind].
  assert (hash_block_size p1 = hbs) as Hhbs1 by (by apply pool_core_hbs).
  rewrite Hhbs1.
  destruct (insert_hash_spec key b (Z.of_nat m * hbs) blk1 p1 Hwf1 Hb1 Hb0)
    as (p2 & blk2 & -> & Hwf2 & Hc2 & _ & _ & _ & Hk2 & _ & _).
  unfold mbind at 1; cbn [result_bind].
  assert (pool_core p2 = pool_core p) as Hc by congruence.
  assert (core_wf p2 l) as Hcore2 by (by apply (core_wf_same p)).
  assert (contain (cached_block_hash_to_block p2) key b = true) as Hhit.
  { rewrite Hk2, (bool_decide_eq_true_2 (_ ∧ _)) by done. apply orb_true_r. }
  assert (∀ k0 i, i ≠ b → contain (cached_block_hash_to_block p2) k0 i
                      = contain (cached_block_hash_to_block p) k0 i) as Hframe.
  { intros k0 i Hi. rewrite Hk2, (bool_decide_eq_false_2 (_ ∧ _)), orb_false_r by naive_solver. by apply Hk1. }
  destruct (negb (enable_kv_cache_events p2 && negb ac)).
  { exists p2, r. split; [done|]. split; [done|].
    exact (conj (conj Hcore2 Hwf2) (conj Hc (conj (conj (same_but_memo_refl r) Hmemo) (conj Hhit Hframe)))). }
  assert (∃ ph, _get_partial_block_parent_hash_and_start p2 r (Z.of_nat m * hbs)
                = Ok (ph, (Z.of_nat m - 1) * hbs)) as [ph ->].
  { unfold _get_partial_block_parent_hash_and_start.
    assert (hash_block_size p2 = hbs) as -> by (by apply pool_core_hbs).
    rewrite Z.div_mul by lia. destruct (Z.gtb_spec (Z.of_nat m) 1); [|cbn; eauto].
    destruct (lookup_lt_is_Some_2 (block_hashes r) (m - 2)) as [h' Hh']; [lia|].
    rewrite (proj2 (py_get_nonneg (block_hashes r) (Z.of_nat m - 2) h' ltac:(lia))); [cbn; eauto|].
    rewrite <- Hh'. f_equal. lia. }
  unfold mbind at 1; cbn [result_bind].
  destruct (generate_keys_total r ((Z.of_nat m - 1) * hbs) (Z.of_nat m * hbs)
              (if (Z.of_nat m - 1) * hbs >? 0 then -1 else 0)) as (ks & idx & r' & -> & Hr'); [done| |].
  { destruct (_ >? _); [by left|by right]. }
  unfold mbind; cbn [result_bind]. eexists _, r'. split; [done|]. split; [done|].
  split; [split; [by apply (core_wf_same p2)|by apply (hash_wf_same p2)]|].
  exact (conj Hc (conj Hr' (conj Hhit Hframe))).
Qed.

End PoolFacts.

(** ** The pool's properties *)

Section PoolClaims.
Context {Q : Type} `{!FreeQueueOps Q} `{!FreeQueueSpec Q} {env : PoolEnv}.
Implicit Types (p : BlockPool Q).

(** The operations as a step relation.  Each step carries what its callers
    must respect: touched and freed ids are blocks of the pool, and a caller
    frees no more references than a block has. *)
Inductive pool_step : BlockPool Q → BlockPool Q → Prop :=
  | step_get_new_blocks p n bs p' : 0 ≤ n → get_new_blocks n p = Ok (bs, p') → pool_step p p'
  | step_touch p bs p' :
      (∀ b, b ∈ bs → is_Some (blocks p !! b)) → touch bs p = Ok p' → pool_step p p'
  | step_free p bs p' :
      (∀ b, b ∈ bs → ∃ blk, blocks p !! b = Some blk ∧
                       (b ≠ 0%nat → Z.of_nat (occ b bs) ≤ ref_cnt blk)) →
      free_blocks bs p = Ok p' → pool_step p p'
  | step_cache_full p r bs nc nf k gid mask p' r' :
      cacheable p r bs nc nf k gid mask →
      cache_full_blocks r bs (Z.of_nat nc) (Z.of_nat nf) (Z.of_nat k * hash_block_size p) gid
        mask p = Ok (p', r') → pool_step p p'
  | step_cache_partial p r b m k gid key p' r' :
      partial_ok p r b m k gid →
      cache_partial_block r b (Z.of_nat m * hash_block_size p) gid
        (Z.of_nat k * hash_block_size p) p = Ok (key, p', r') → pool_step p p'
  | step_evict_blocks p ids p' :
      (∀ i, i ∈ ids → (i < length (blocks p))%nat) →
      evict_blocks (Z.of_nat <$> ids) p = Ok p' → pool_step p p'
  | step_reset_cache p : pool_step p (reset_prefix_cache p).2
  | step_take_events p : pool_step p (take_events p).2.

Lemma get_new_blocks_split p l n :
  pool_wf p l → 0 ≤ n →
  if decide (n ≤ zlen l) then
    ∃ l1 l2, l = l1 ++ l2 ∧ zlen l1 = n
  else get_new_blocks n p = Raise ValueError.
Proof.
  intros [Hcore _] Hn. case_decide.
  - exists (take (Z.to_nat n) l), (drop (Z.to_nat n) l). rewrite take_drop, length_take. split; [done|lia].
  - unfold get_new_blocks, get_num_free_blocks.
    rewrite (fq_rep_num _ _ (wf_queue _ _ Hcore)), Z.gtb_ltb, (proj2 (Z.ltb_lt _ _)) by lia. done.
Qed.

Lemma pool_step_wf p p' : pool_step p p' → (∃ l, pool_wf p l) → ∃ l, pool_wf p' l.
Proof.
  intros Hstep [l Hwf]. destruct Hstep as
    [p n bs p' Hn Hop|p bs p' Hbs Hop|p bs p' Hbs Hop|p r bs nc nf k gid mask p' r' Hca Hop
    |p r b m k gid key p' r' Hpa Hop|p ids p' Hids Hop|p|p].
  - pose proof (get_new_blocks_split p l n Hwf Hn) as Hs. case_decide; [|congruence].
    destruct Hs as (l1 & l2 & -> & <-).
    destruct (get_new_blocks_ok l1 l2 p Hwf) as (p2 & E & Hwf2 & _). rewrite Hop in E.
    injection E as -> ->. eauto.
  - destruct (touch_ok bs l p Hwf Hbs) as (p2 & E & Hwf2 & _). rewrite Hop in E. injection E as ->. eauto.
  - destruct (free_blocks_ok bs l p Hwf Hbs) as (p2 & wh & woh & E & Hwf2 & _). rewrite Hop in E.
    injection E as ->. eauto.
  - destruct (cache_full_blocks_ok r bs nc nf k gid mask l p Hwf Hca) as (p2 & r2 & E & Hwf2 & _).
    rewrite Hop in E. injection E as -> ->. eauto.
  - destruct (cache_partial_block_ok r b m k gid l p Hwf Hpa) as (h & p2 & r2 & _ & E & Hwf2 & _).
    rewrite Hop in E. injection E as -> -> ->. eauto.
  - destruct (evict_blocks_ok ids l p Hwf Hids) as (p2 & E & Hwf2 & _). rewrite Hop in E.
    injection E as ->. eauto.
  - pose proof (reset_ok l p Hwf) as Hr. case_decide.
    + destruct Hr as (p2 & -> & Hwf2 & _). eauto.
    + rewrite Hr. eauto.
  - unfold take_events. destruct (enable_kv_cache_events p); [|eauto].
    exists l. destruct Hwf as [H1 H2]. split; [by apply (core_wf_same p)|by apply (hash_wf_same p)].
Qed.

(** The number of blocks a pool can hand out: not the null block, no
    references. *)
Definition count_free p : nat :=
  length (filter (λ b, is_null b = false ∧ ref_cnt b = 0) (blocks p)).

Lemma count_free_ok p l : core_wf p l → NoDup l → length l = count_free p.
Proof.
  intros [Hq Hl Hpos Hn Hids Href Hfree] Hnd. unfold count_free.
  rewrite <- (length_fmap block_id (filter _ _)). apply Permutation_length, NoDup_Permutation; [done| |].
  - assert (block_id <$> blocks p = seq 0 (length (blocks p))) as Hseq.
    { apply list_eq. intros i. rewrite list_lookup_fmap.
      destruct (blocks p !! i) as [b|] eqn:E; cbn.
      - rewrite lookup_seq_lt by (by eapply lookup_lt_Some). f_equal. by apply Hids.
      - apply lookup_ge_None in E. by rewrite lookup_seq_ge. }
    eapply sublist_NoDup; [apply (NoDup_seq 0 (length (blocks p)))|].
    rewrite <- Hseq. apply fmap_sublist, sublist_filter.
  - intros i. rewrite Hfree, list_elem_of_fmap. split.
    + intros [Hi (b & Hb & Hr)]. destruct (Hids _ _ Hb) as [E1 E2].
      exists b. split; [done|]. apply list_elem_of_filter. split; [|by eapply list_elem_of_lookup_2].
      split; [|done]. by rewrite E2, bool_decide_eq_false_2.
    + intros (b & -> & [[Hnull Hr] [j Hj]%list_elem_of_lookup]%list_elem_of_filter).
      destruct (Hids _ _ Hj) as [-> E2]. rewrite Hnull in E2. symmetry in E2. zbool. eauto.
Qed.

(** C29: the pool's invariant holds in every reachable state.  From a fresh
    pool, after any sequence of allocations, touches, frees, caching of full
    and partial blocks, evictions and resets: the free counter is the number
    of blocks without references, exactly those blocks are in the free list
    (never the null block), no reference count is negative, and a key of the
    prefix cache leads to a block exactly when that block carries the key. *)
Theorem pool_reachable_invariant (n : Z) caching hbs events mc p0 p (Hn : 0 < n)
    (Hinit : BlockPool_init n caching hbs events mc = Ok p0) (Hreach : rtc pool_step p0 p) :
  ∃ l, fq_rep (free_block_queue p) l ∧
    get_num_free_blocks p = Z.of_nat (count_free p) ∧
    (∀ i, i ∈ l ↔ i ≠ null_block p ∧ ∃ b, blocks p !! i = Some b ∧ ref_cnt b = 0) ∧
    (∀ i b, blocks p !! i = Some b → i ≠ null_block p → 0 ≤ ref_cnt b) ∧
    (∀ key i, HashMap.contain (cached_block_hash_to_block p) key i = true ↔ owns p i key).
Proof.
  assert (∃ l, pool_wf p l) as (l & Hcore & Hwf).
  { destruct (pool_init_ok n caching hbs events mc Hn) as (p1 & E & Hwf1 & _).
    rewrite Hinit in E. injection E as ->. clear Hinit.
    assert (∃ l, pool_wf p1 l) as H1 by eauto. clear Hwf1.
    induction Hreach; [done|]. eauto using pool_step_wf. }
  pose proof Hcore as [Hq Hl Hpos Hnull Hids Href Hfree]. exists l. rewrite Hnull.
  split_and!; try done; [|by apply wf_contain].
  unfold get_num_free_blocks. rewrite (fq_rep_num _ _ Hq). f_equal.
  apply count_free_ok; [done|]. by eapply fq_rep_nodup.
Qed.

(** C30: allocation takes blocks from the front of the free list, in eviction
    order.  When enough blocks are free the call returns, its blocks have one
    reference each, with caching enabled they carry no hash and no key of the
    prefix cache reaches them any more, and all other blocks and keys are
    untouched; when too few are free it raises [ValueError]. *)
Theorem get_new_blocks_spec p l (n : Z) (Hwf : pool_wf p l) (Hn : 0 ≤ n) :
  (n ≤ zlen l →
   ∃ p', get_new_blocks n p = Ok (take (Z.to_nat n) l, p') ∧ pool_wf p' (drop (Z.to_nat n) l) ∧
     (∀ i, i ∈ take (Z.to_nat n) l →
        ∃ b, blocks p' !! i = Some b ∧ ref_cnt b = 1 ∧
          (enable_caching p = true → block_hash b = None ∧
             ∀ key, HashMap.contain (cached_block_hash_to_block p') key i = false)) ∧
     (∀ i, i ∉ take (Z.to_nat n) l →
        blocks p' !! i = blocks p !! i ∧
        ∀ key, HashMap.contain (cached_block_hash_to_block p') key i
               = HashMap.contain (cached_block_hash_to_block p) key i)) ∧
  (zlen l < n → get_new_blocks n p = Raise ValueError).
Proof.
  split; intros Hle; cycle 1.
  { pose proof (get_new_blocks_split p l n Hwf Hn) as Hs. rewrite decide_False in Hs by lia. done. }
  rewrite <- (take_drop (Z.to_nat n) l) in Hwf.
  destruct (get_new_blocks_ok _ _ _ Hwf) as (p' & E & Hwf' & Hcfg & Hb & Hk).
  replace (zlen (take (Z.to_nat n) l)) with n in E by (rewrite length_take; lia).
  exists p'. split; [done|]. split; [done|]. split.
  - intros i Hi. destruct Hwf as [Hcore _].
    destruct (proj1 (wf_free _ _ Hcore i)) as [_ (b & Hbi & Hr)]; [apply elem_of_app; by left|].
    exists (fresh_block (enable_caching p) b). rewrite Hb, decide_True, Hbi by done.
    split; [done|]. split; [unfold fresh_block; destruct (enable_caching p); cbn; lia|].
    intros Hc. rewrite Hc. split; [done|]. intros key.
    rewrite Hk, Hc, bool_decide_eq_true_2 by done. apply andb_false_r.
  - intros i Hi. rewrite Hb, decide_False by done. split; [done|]. intros key.
    rewrite Hk, bool_decide_eq_false_2, andb_false_r by done. apply andb_true_r.
Qed.

(** Touching a list of blocks adds one reference per occurrence and takes
    the touched blocks out of the free list, keeping the order of the others;
    hashes and the cache are untouched. *)
Theorem touch_spec p l bs (Hwf : pool_wf p l) (Hbs : ∀ b, b ∈ bs → is_Some (blocks p !! b)) :
  ∃ p', touch bs p = Ok p' ∧ pool_wf p' (filter (λ i, i ∉ bs) l) ∧
    (∀ i b, blocks p !! i = Some b → blocks p' !! i = Some (add_ref (Z.of_nat (occ i bs)) b)) ∧
    cached_block_hash_to_block p' = cached_block_hash_to_block p.
Proof.
  destruct (touch_ok bs l p Hwf Hbs) as (p' & E & Hwf' & [Hmeta Hb]).
  exists p'. split; [done|]. split; [done|]. split.
  - intros i b Hi. by rewrite Hb, Hi.
  - unfold pool_meta in Hmeta. congruence.
Qed.

(** C31: freeing a list of references removes one reference per occurrence;
    the blocks that drop to zero, and only those, join the free list: the
    ones without a hash in front (to be reused first), the cached ones at the
    back (evicted last), each part in the order the caller gave. *)
Theorem free_blocks_spec p l bs (Hwf : pool_wf p l)
    (Hbs : ∀ b, b ∈ bs → ∃ blk, blocks p !! b = Some blk ∧
             (b ≠ null_block p → Z.of_nat (occ b bs) ≤ ref_cnt blk)) :
  ∃ p' wh woh, free_blocks bs p = Ok p' ∧ pool_wf p' (woh ++ l ++ wh) ∧
    (∀ i b, blocks p !! i = Some b → blocks p' !! i = Some (add_ref (- Z.of_nat (occ i bs)) b)) ∧
    sublist wh bs ∧ sublist woh bs ∧
    (∀ i, i ∈ wh ↔ released p bs true i) ∧ (∀ i, i ∈ woh ↔ released p bs false i) ∧
    cached_block_hash_to_block p' = cached_block_hash_to_block p.
Proof.
  rewrite (wf_null _ _ (proj1 Hwf)) in Hbs.
  destruct (free_blocks_ok bs l p Hwf Hbs) as (p' & wh & woh & E & Hwf' & [Hmeta Hb] & H1 & H2 & H3 & H4).
  exists p', wh, woh. split; [done|]. split; [done|]. split; [intros i b Hi; by rewrite Hb, Hi|].
  split; [done|]. split; [done|]. split; [done|]. split; [done|]. unfold pool_meta in Hmeta. congruence.
Qed.

(** a lookup by block hash is sound and complete: it returns one block per
    group, each carrying the key of its group, exactly when every group has
    such a block. *)
Theorem get_cached_block_spec p l h gids (Hwf : pool_wf p l)
    (Hg : Forall (λ g, 0 ≤ g < 2 ^ 32) gids) :
  (∃ bs, get_cached_block p h gids = Ok (Some bs) ∧
     Forall2 (λ g b, owns p b (group_key h g)) gids bs) ∨
  (get_cached_block p h gids = Ok None ∧ ∃ g, g ∈ gids ∧ ∀ b, ¬ owns p b (group_key h g)).
Proof. apply (get_cached_loop_spec p h gids []); [apply Hwf|done]. Qed.

(** C32: caching full blocks makes them hits.  After [cache_full_blocks], a
    lookup with the hash of any newly cached block returns a hit, the block
    itself carries exactly that key and the number of tokens it covers.  Nothing
    else changes: the configuration, the free queue, all reference counts and the
    metrics collector are the same, blocks that were null, masked out or outside
    the range keep their hashes and the cache entries that lead to them, and the
    event queue is only extended: with removals of the keys that the cached
    blocks had before and one stored event of the new hashes, their parent and
    their tokens (with events disabled it stays the same). *)
Theorem cache_full_blocks_spec p l r bs (nc nf k : nat) gid mask (Hwf : pool_wf p l)
    (Hca : cacheable p r bs nc nf k gid mask) :
  ∃ p' r', cache_full_blocks r bs (Z.of_nat nc) (Z.of_nat nf)
             (Z.of_nat k * hash_block_size p) gid mask p = Ok (p', r') ∧
    pool_wf p' l ∧ memo_extends r r' ∧
    (∀ i b h, bs !! i = Some b → (nc ≤ i < nf)%nat → eligible mask (i - nc) b →
       block_hashes r !! (S i * k - 1)%nat = Some h →
       (∃ b', get_cached_block p' h [gid] = Ok (Some [b'])) ∧
       (∃ blk, blocks p' !! b = Some blk ∧ block_hash blk = Some (group_key h gid) ∧
          block_hash_num_tokens blk = Some (Z.of_nat (S i) * (Z.of_nat k * hash_block_size p)) ∧
          ∀ key, HashMap.contain (cached_block_hash_to_block p') key b
                 = bool_decide (group_key h gid = key))) ∧
    (∀ j, (∀ i, bs !! i = Some j → (nc ≤ i < nf)%nat → ¬ eligible mask (i - nc) j) →
       blocks p' !! j = blocks p !! j ∧
       ∀ key, HashMap.contain (cached_block_hash_to_block p') key j
              = HashMap.contain (cached_block_hash_to_block p) key j) ∧
    pool_core p' = pool_core p ∧ metrics_collector p' = metrics_collector p ∧
    cache_reported r bs nc nf k gid mask p p'.
Proof.
  destruct (cache_full_blocks_ok r bs nc nf k gid mask l p Hwf Hca)
    as (p' & r' & E & Hwf' & Hr & (_ & Hcore & Hdone & Hframe) & Hmet & Hrep).
  exists p', r'. split; [done|]. split; [done|]. split; [done|]. split; [|split; [|done]].
  - intros i b h Hi Hrange Hel Hh.
    assert (new_hash r k nc (i - nc) = h) as Hnew.
    { unfold new_hash, view_hash. replace (Z.to_nat (Z.of_nat (nc + (i - nc)) + 1)) with (S i) by lia.
      by rewrite Hh. }
    destruct (Hdone (i - nc)%nat b) as (blk & Hblk & Hhash & Hnum & Hk); [|done|].
    { apply list_elem_of_lookup. exists (i - nc)%nat. rewrite list_lookup_imap.
      rewrite (proj2 (new_blocks_lookup bs nc nf (i - nc) b)); [done|].
      split; [|lia]. by replace (nc + (i - nc))%nat with i by lia. }
    rewrite Hnew in *. split.
    + destruct (get_cached_loop_spec p' h [gid] []) as [(bs' & Hget & HF)|(_ & g & Hg & Hno)].
      * apply Hwf'.
      * constructor; [apply (ca_gid _ _ _ _ _ _ _ _ Hca)|constructor].
      * inversion HF as [|? b' ? ? Hb' HF']; subst. inversion HF'; subst. by exists b'.
      * apply list_elem_of_singleton in Hg as ->. exfalso. apply (Hno b).
        exists blk. by split; [|left].
    + exists blk. split_and!; try done. rewrite Hnum. do 2 f_equal. lia.
  - intros j Hj. apply Hframe. intros i [m Hm]%list_elem_of_lookup.
    rewrite list_lookup_imap, fmap_Some in Hm. destruct Hm as (b & [Hb ?]%new_blocks_lookup & [= -> ->]).
    specialize (Hj (nc + m)%nat Hb ltac:(lia)). by replace (nc + m - nc)%nat with m in Hj by lia.
Qed.

(** registering a partial entry makes the prefix boundary inside a block a
    hit for that block, keeps the invariant and the free list, and does not
    affect any other block's keys. *)
Theorem cache_partial_block_spec p l r (b m k : nat) gid (Hwf : pool_wf p l)
    (Hpa : partial_ok p r b m k gid) :
  ∃ h p' r', block_hashes r !! (m - 1)%nat = Some h ∧
    cache_partial_block r b (Z.of_nat m * hash_block_size p) gid
      (Z.of_nat k * hash_block_size p) p = Ok (Some (group_key h gid), p', r') ∧
    pool_wf p' l ∧ memo_extends r r' ∧
    HashMap.contain (cached_block_hash_to_block p') (group_key h gid) b = true ∧
    (∀ key i, i ≠ b → HashMap.contain (cached_block_hash_to_block p') key i
                      = HashMap.contain (cached_block_hash_to_block p) key i).
Proof.
  destruct (cache_partial_block_ok r b m k gid l p Hwf Hpa)
    as (h & p' & r' & H1 & H2 & H3 & _ & H4 & H5). by exists h, p', r'.
Qed.

(** eviction and reset.  Evicting block ids makes exactly those blocks
    unreachable from the prefix cache without touching reference counts or
    the free list; resetting succeeds exactly when all blocks but the null
    block are free, and then no key reaches any block, and otherwise changes
    nothing. *)
Theorem evict_and_reset_spec p l ids (Hwf : pool_wf p l)
    (Hids : ∀ i, i ∈ ids → (i < length (blocks p))%nat) :
  (∃ p', evict_blocks (Z.of_nat <$> ids) p = Ok p' ∧ pool_wf p' l ∧
     ∀ key i, HashMap.contain (cached_block_hash_to_block p') key i
              = HashMap.contain (cached_block_hash_to_block p) key i && negb (bool_decide (i ∈ ids))) ∧
  (zlen l = num_gpu_blocks p - 1 →
     ∃ p', reset_prefix_cache p = (true, p') ∧ pool_wf p' l ∧
       ∀ key i, HashMap.contain (cached_block_hash_to_block p') key i = false) ∧
  (zlen l ≠ num_gpu_blocks p - 1 → reset_prefix_cache p = (false, p)).
Proof.
  pose proof (reset_ok l p Hwf) as Hreset.
  destruct (evict_blocks_ok ids l p Hwf Hids) as (p1 & E1 & W1 & _ & K1 & _).
  split; [by exists p1|]. split; intros Hl.
  - rewrite decide_True in Hreset by done. destruct Hreset as (p2 & E2 & W2 & _ & K2). by exists p2.
  - by rewrite decide_False in Hreset.
Qed.

End PoolClaims.

(** ** Witnesses: a pool of three usable blocks on the linked queue *)

Definition demo_env : PoolEnv := {| env_sha256 := id; env_use_int_block_hashes := false |}.
#[local] Existing Instance demo_env.

Definition demo_pool : BlockPool FreeKVCacheBlockQueue :=
  match BlockPool_init 4 true 2 true None with
  | Ok p => p
  | Raise _ => mkPool 0 true 0 [] (fq_init []) ∅ ∅ 0 true [] None
  end.

Lemma demo_pool_wf : pool_wf demo_pool [1; 2; 3]%nat.
Proof.
  destruct (pool_init_ok (Q:=FreeKVCacheBlockQueue) 4 true 2 true None) as (p & E & Hwf & _); [lia|].
  unfold demo_pool. by rewrite E.
Qed.

Lemma pool_reachable_invariant_witness :
  ∃ l, fq_rep (free_block_queue demo_pool) l ∧
    get_num_free_blocks demo_pool = Z.of_nat (count_free demo_pool).
Proof.
  destruct (pool_reachable_invariant 4 true 2 true None demo_pool demo_pool) as (l & H1 & H2 & _).
  - lia.
  - reflexivity.
  - apply rtc_refl.
  - exists l. split; [exact H1|exact H2].
Defined.

Lemma get_new_blocks_spec_witness :
  ∃ p', get_new_blocks 2 demo_pool = Ok ([1; 2]%nat, p') ∧ pool_wf p' [3%nat].
Proof.
  destruct (get_new_blocks_spec demo_pool [1; 2; 3]%nat 2 demo_pool_wf ltac:(lia)) as [H _].
  destruct H as (p' & H1 & H2 & _); [cbn; lia|]. exists p'. split; [exact H1|exact H2].
Defined.

Lemma touch_spec_witness : ∃ p', touch [2; 2]%nat demo_pool = Ok p' ∧ pool_wf p' [1; 3]%nat.
Proof.
  destruct (touch_spec demo_pool [1; 2; 3]%nat [2; 2]%nat demo_pool_wf) as (p' & H1 & H2 & _).
  - intros b Hb. assert (b = 2%nat) as -> by set_solver. eexists. vm_compute. reflexivity.
  - exists p'. split; [exact H1|exact H2].
Defined.

Lemma get_cached_block_spec_witness :
  get_cached_block demo_pool [Byte.x01] [0] = Ok None ∧
  ((∃ bs, get_cached_block demo_pool [Byte.x01] [0] = Ok (Some bs)) ∨
   ∃ g, g ∈ [0] ∧ ∀ b, ¬ owns demo_pool b (group_key [Byte.x01] g)).
Proof.
  split; [vm_compute; reflexivity|].
  destruct (get_cached_block_spec demo_pool [1; 2; 3]%nat [Byte.x01] [0] demo_pool_wf)
    as [(bs & H & _)|[_ H]].
  - constructor; [lia|constructor].
  - left. exists bs. exact H.
  - right. exact H.
Defined.

Lemma demo_cacheable : cacheable demo_pool (toy [1; 2; 3; 4; 5]) [1; 2]%nat 0 2 1 0 None.
Proof.
  split; try (vm_compute; done); try lia.
  - cbn. lia.
  - intros b Hb. assert (b = 1%nat ∨ b = 2%nat) as [-> | ->] by set_solver; eexists; vm_compute; reflexivity.
  - intros [|[|i]] [|[|j]] b; cbn; intros; simplify_eq; try done; lia.
  - intros i b blk Hi Hr [H0 _] Hb Hne. exfalso. apply Hne.
    destruct i as [|[|i]]; [| |lia]; injection Hi as <-; vm_compute in Hb; injection Hb as <-; reflexivity.
  - split; constructor.
Qed.

(** The same pool with the two full blocks of a request cached. *)
Definition demo_cached : BlockPool FreeKVCacheBlockQueue :=
  match cache_full_blocks (toy [1; 2; 3; 4; 5]) [1; 2]%nat (Z.of_nat 0) (Z.of_nat 2)
          (Z.of_nat 1 * hash_block_size demo_pool) 0 None demo_pool with
  | Ok (p, _) => p
  | Raise _ => demo_pool
  end.

Lemma demo_cached_wf : pool_wf demo_cached [1; 2; 3]%nat.
Proof.
  destruct (cache_full_blocks_ok (toy [1; 2; 3; 4; 5]) [1; 2]%nat 0 2 1 0 None _ demo_pool demo_pool_wf
              demo_cacheable) as (p & r & E & Hwf & _).
  unfold demo_cached. by rewrite E.
Qed.

Lemma cache_full_blocks_spec_witness :
  ∃ p' r', cache_full_blocks (toy [1; 2; 3; 4; 5]) [1; 2]%nat (Z.of_nat 0) (Z.of_nat 2)
             (Z.of_nat 1 * hash_block_size demo_pool) 0 None demo_pool = Ok (p', r') ∧
    pool_wf p' [1; 2; 3]%nat.
Proof.
  destruct (cache_full_blocks_spec demo_pool [1; 2; 3]%nat (toy [1; 2; 3; 4; 5]) [1; 2]%nat 0 2 1 0 None
              demo_pool_wf demo_cacheable) as (p' & r' & H1 & H2 & _).
  exists p', r'. split; [exact H1|exact H2].
Defined.

Lemma cache_partial_block_spec_witness :
  ∃ h p' r', cache_partial_block (toy [1; 2; 3; 4; 5]) 2 (Z.of_nat 1 * hash_block_size demo_pool) 7
      (Z.of_nat 2 * hash_block_size demo_pool) demo_pool = Ok (Some (group_key h 7), p', r') ∧
    pool_wf p' [1; 2; 3]%nat.
Proof.
  destruct (cache_partial_block_spec demo_pool [1; 2; 3]%nat (toy [1; 2; 3; 4; 5]) 2 1 2 7 demo_pool_wf)
    as (h & p' & r' & _ & H1 & H2 & _).
  - split; try (vm_compute; done); try lia.
    + vm_compute. lia.
    + split; [done|]. eexists. vm_compute. reflexivity.
  - exists h, p', r'. split; [exact H1|exact H2].
Defined.

Lemma evict_and_reset_spec_witness :
  ∃ p', evict_blocks (Z.of_nat <$> [1; 3]%nat) demo_pool = Ok p' ∧ pool_wf p' [1; 2; 3]%nat.
Proof.
  destruct (evict_and_reset_spec demo_pool [1; 2; 3]%nat [1; 3]%nat demo_pool_wf)
    as ((p' & H1 & H2 & _) & _).
  - intros i Hi. assert (i = 1%nat ∨ i = 3%nat) as [-> | ->] by set_solver; vm_compute; lia.
  - exists p'. split; [exact H1|exact H2].
Defined.

(** A pool in use: blocks 1 and 2 are allocated, block 1 is cached and shared by a second
    request.  Freeing all of it and the null block releases both. *)
Definition demo_used : BlockPool FreeKVCacheBlockQueue :=
  let used := '(_, p) ← get_new_blocks 2 demo_pool;
    '(p, _) ← cache_full_blocks (toy [1; 2; 3; 4; 5]) [1; 2]%nat 0 1 2 0 None p;
    touch [1]%nat p in
  match used with Ok p => p | Raise _ => demo_pool end.

Lemma demo_used_wf : pool_wf demo_used [3%nat].
Proof.
  destruct (get_new_blocks_ok [1; 2]%nat [3]%nat demo_pool demo_pool_wf) as (p1 & E1 & W1 & _). change (zlen [1; 2]%nat) with 2 in E1.
  assert (cacheable p1 (toy [1; 2; 3; 4; 5]) [1; 2]%nat 0 1 1 0 None) as Hca.
  { vm_compute in E1. injection E1 as <-. split; try (vm_compute; done); try (cbn; lia).
    - vm_compute. lia.
    - intros b Hb. assert (b = 1%nat ∨ b = 2%nat) as [-> | ->] by set_solver; eexists; vm_compute; reflexivity.
    - intros i b blk Hi Hr _ Hb Hne. exfalso. apply Hne. destruct i as [|i]; [|lia]. injection Hi as <-. vm_compute in Hb. by injection Hb as <-.
    - split; constructor. }
  destruct (cache_full_blocks_ok _ _ _ _ _ _ _ _ p1 W1 Hca) as (p2 & r & E2 & W2 & _ & (_ & Hcore & _) & _).
  destruct (touch_ok [1]%nat [3]%nat p2 W2) as (p3 & E3 & W3 & _).
  { intros b ->%list_elem_of_singleton. vm_compute in E1. injection E1 as <-. injection Hcore as _ _ _ _ _ _ Hb.
    apply (f_equal (.!! 1%nat)) in Hb. rewrite list_lookup_fmap in Hb. by destruct (blocks p2 !! 1%nat). }
  unfold demo_used. rewrite E1. unfold mbind at 1; cbn [result_bind]. assert (hash_block_size p1 = 2) as Eh by (vm_compute in E1; by injection E1 as <-).
  rewrite Eh in E2. change (Z.of_nat 1 * 2) with 2 in E2. change (Z.of_nat 0) with 0 in E2. change (Z.of_nat 1) with 1 in E2. rewrite E2. unfold mbind; cbn [result_bind]. rewrite E3. exact W3.
Qed.

Lemma free_blocks_spec_witness :
  ∃ p' wh woh, free_blocks [2; 1; 0; 1]%nat demo_used = Ok p' ∧ pool_wf p' (woh ++ [3%nat] ++ wh) ∧ 1%nat ∈ wh ∧ 2%nat ∈ woh ∧
    ref_cnt <$> blocks demo_used !! 1%nat = Some 2 ∧ ref_cnt <$> blocks p' !! 1%nat = Some 0.
Proof.
  destruct (free_blocks_spec demo_used [3%nat] [2; 1; 0; 1]%nat demo_used_wf)
    as (p' & wh & woh & H1 & H2 & H3 & _ & _ & H4 & H5 & _).
  - intros b Hb. assert (b = 0%nat ∨ b = 1%nat ∨ b = 2%nat) as [-> |[-> | ->]] by set_solver; eexists; (split; [vm_compute; reflexivity|]); vm_compute; congruence.
  - exists p', wh, woh. split; [exact H1|]. split; [exact H2|]. split; [|split; [|split; [vm_compute; reflexivity|]]].
    + apply H4. split; [right; left|]. split; [done|]. eexists. split; [vm_compute; reflexivity|]. vm_compute. auto.
    + apply H5. split; [left|]. split; [done|]. eexists. split; [vm_compute; reflexivity|]. vm_compute. auto.
    + erewrite H3 by (vm_compute; reflexivity). reflexivity.
Defined.
