(* ===== verification/SingleTypeManager.v ===== *)
(** * Single-type KV cache managers ([vllm/v1/core/single_type_kv_cache_manager.py])

    One manager per KV cache group: which blocks each request holds, how many
    a step needs, which are cached and freed, and the longest cached prefix,
    for full attention, reference sliding window (R-SWA), sliding window,
    chunked local attention, Mamba and cross attention.

    Correspondence.  [KVCacheSpec] holds the fields of the specs that the
    managers read; the remaining ones (head sizes, dtypes, ...) are only ever
    compared for equality and are the opaque [spec_layout].  The manager's
    reference to the shared block pool is an explicit argument and result.  A
    method of the base class is [base_...]; an override has its class's prefix;
    [mgr_...] is the dynamic dispatch on the manager's class.  [defaultdict]
    accesses that create an entry are modelled ([touch_req]).  A tuple of lists,
    one per group, is a list of lists. *)

From S2P Require Import Prelude MathUtils Request BlockHash FreeQueue BlockPool.

Local Open Scope Z_scope.

(** ** Specs ([vllm/v1/kv_cache_interface.py]) *)

Inductive spec_kind :=
  | FullAttentionSpec
  | TQFullAttentionSpec
  | MLAAttentionSpec
  | HiddenStateCacheSpec
  | RSWASpec (rswa_window : Z)
  | SinkFullAttentionSpec (sink_len : option Z)
  | SlidingWindowSpec (sliding_window : Z)
  | SlidingWindowMLASpec (sliding_window : Z)
  | ChunkedLocalAttentionSpec (attention_chunk_size : Z)
  | MambaSpec (mamba_align : bool) (num_speculative_blocks : Z)
  | CrossAttentionSpec.

#[export] Instance spec_kind_eq_dec : EqDecision spec_kind.
Proof. solve_decision. Defined.

Record KVCacheSpec := mkSpec {
  spec_block_size : Z;
  spec_type : spec_kind;
  spec_layout : string;
}.

#[export] Instance KVCacheSpec_eq_dec : EqDecision KVCacheSpec.
Proof. solve_decision. Defined.

(** [isinstance(spec, FullAttentionSpec)] and the like. *)
Definition is_full_attention (s : KVCacheSpec) : bool :=
  match spec_type s with
  | FullAttentionSpec | TQFullAttentionSpec | MLAAttentionSpec | HiddenStateCacheSpec
  | RSWASpec _ | SinkFullAttentionSpec _ => true
  | _ => false
  end.
Definition sliding_window_of (s : KVCacheSpec) : option Z :=
  match spec_type s with
  | SlidingWindowSpec w | SlidingWindowMLASpec w => Some w
  | _ => None
  end.
Definition chunk_size_of (s : KVCacheSpec) : option Z :=
  match spec_type s with ChunkedLocalAttentionSpec c => Some c | _ => None end.
Definition is_mamba (s : KVCacheSpec) : bool :=
  match spec_type s with MambaSpec _ _ => true | _ => false end.
Definition is_cross (s : KVCacheSpec) : bool :=
  match spec_type s with CrossAttentionSpec => true | _ => false end.

Definition swa_max_admission_blocks (sliding_window block_size max_num_batched_tokens max_model_len : Z) : Z :=
  let num_tokens := Z.min (sliding_window - 1 + max_num_batched_tokens) max_model_len in
  cdiv num_tokens block_size + 1.

Definition chunked_max_admission_blocks (chunk block_size max_num_batched_tokens max_model_len : Z) : Z :=
  let num_tokens := Z.min (chunk + max_num_batched_tokens) max_model_len in
  cdiv num_tokens block_size.

(** ** Manager state *)

Inductive manager_class :=
  | FullAttentionManager
  | RSWAManager (rswa_window : Z)
  | SlidingWindowManager (sliding_window : Z)
  | ChunkedLocalAttentionManager (attention_chunk_size : Z)
  | MambaManager (mamba_align : bool) (num_speculative_blocks : Z)
  | CrossAttentionManager.

#[export] Instance manager_class_eq_dec : EqDecision manager_class.
Proof. solve_decision. Defined.

Record SingleTypeKVCacheManager := mkManager {
  mclass : manager_class;
  scheduler_block_size : Z;
  block_size : Z;
  kv_cache_spec : KVCacheSpec;
  mgr_enable_caching : bool;
  _max_admission_blocks_per_request : option Z;
  _record_new_block_ids : bool;
  new_block_ids : list nat;
  req_to_blocks : gmap string (list nat);
  num_cached_block : gmap string Z;
  kv_cache_group_id : Z;
  _null_block : nat;
  use_eagle : bool;
  (* MambaManager *)
  cached_blocks_this_step : gset bytes;
  last_state_block_idx : gmap string Z;
  _allocated_block_reqs : gset string;
}.

Implicit Types (m : SingleTypeKVCacheManager) (rid : string).

Definition with_new_block_ids (x : list nat) m :=
  mkManager (mclass m) (scheduler_block_size m) (block_size m) (kv_cache_spec m)
    (mgr_enable_caching m) (m.(_max_admission_blocks_per_request)) (m.(_record_new_block_ids))
    x (req_to_blocks m) (num_cached_block m) (kv_cache_group_id m) (m.(_null_block))
    (use_eagle m) (cached_blocks_this_step m) (last_state_block_idx m) (m.(_allocated_block_reqs)).
Definition with_req_to_blocks (x : gmap string (list nat)) m :=
  mkManager (mclass m) (scheduler_block_size m) (block_size m) (kv_cache_spec m)
    (mgr_enable_caching m) (m.(_max_admission_blocks_per_request)) (m.(_record_new_block_ids))
    (new_block_ids m) x (num_cached_block m) (kv_cache_group_id m) (m.(_null_block))
    (use_eagle m) (cached_blocks_this_step m) (last_state_block_idx m) (m.(_allocated_block_reqs)).
Definition with_num_cached_block (x : gmap string Z) m :=
  mkManager (mclass m) (scheduler_block_size m) (block_size m) (kv_cache_spec m)
    (mgr_enable_caching m) (m.(_max_admission_blocks_per_request)) (m.(_record_new_block_ids))
    (new_block_ids m) (req_to_blocks m) x (kv_cache_group_id m) (m.(_null_block))
    (use_eagle m) (cached_blocks_this_step m) (last_state_block_idx m) (m.(_allocated_block_reqs)).
Definition with_use_eagle (x : bool) m :=
  mkManager (mclass m) (scheduler_block_size m) (block_size m) (kv_cache_spec m)
    (mgr_enable_caching m) (m.(_max_admission_blocks_per_request)) (m.(_record_new_block_ids))
    (new_block_ids m) (req_to_blocks m) (num_cached_block m) (kv_cache_group_id m)
    (m.(_null_block)) x (cached_blocks_this_step m) (last_state_block_idx m)
    (m.(_allocated_block_reqs)).
Definition with_cached_this_step (x : gset bytes) m :=
  mkManager (mclass m) (scheduler_block_size m) (block_size m) (kv_cache_spec m)
    (mgr_enable_caching m) (m.(_max_admission_blocks_per_request)) (m.(_record_new_block_ids))
    (new_block_ids m) (req_to_blocks m) (num_cached_block m) (kv_cache_group_id m)
    (m.(_null_block)) (use_eagle m) x (last_state_block_idx m) (m.(_allocated_block_reqs)).
Definition with_last_state (x : gmap string Z) m :=
  mkManager (mclass m) (scheduler_block_size m) (block_size m) (kv_cache_spec m)
    (mgr_enable_caching m) (m.(_max_admission_blocks_per_request)) (m.(_record_new_block_ids))
    (new_block_ids m) (req_to_blocks m) (num_cached_block m) (kv_cache_group_id m)
    (m.(_null_block)) (use_eagle m) (cached_blocks_this_step m) x (m.(_allocated_block_reqs)).
Definition with_allocated_reqs (x : gset string) m :=
  mkManager (mclass m) (scheduler_block_size m) (block_size m) (kv_cache_spec m)
    (mgr_enable_caching m) (m.(_max_admission_blocks_per_request)) (m.(_record_new_block_ids))
    (new_block_ids m) (req_to_blocks m) (num_cached_block m) (kv_cache_group_id m)
    (m.(_null_block)) (use_eagle m) (cached_blocks_this_step m) (last_state_block_idx m) x.

(** The registry: which class manages a spec.  The constructor of the sink
    manager takes no [scheduler_block_size], which the factory always passes,
    so building one raises [TypeError]. *)
Definition manager_class_for (s : KVCacheSpec) : result manager_class :=
  match spec_type s with
  | FullAttentionSpec | TQFullAttentionSpec | MLAAttentionSpec | HiddenStateCacheSpec =>
      Ok FullAttentionManager
  | RSWASpec w => Ok (RSWAManager w)
  | SlidingWindowSpec w | SlidingWindowMLASpec w => Ok (SlidingWindowManager w)
  | ChunkedLocalAttentionSpec c => Ok (ChunkedLocalAttentionManager c)
  | MambaSpec a n => Ok (MambaManager a n)
  | CrossAttentionSpec => Ok CrossAttentionManager
  | SinkFullAttentionSpec _ => Raise TypeError
  end.

Definition SingleTypeKVCacheManager_init (cls : manager_class) (spec : KVCacheSpec)
    (null_block : nat) (enable_caching : bool) (group_id scheduler_block_size : Z)
    (dcp_world_size pcp_world_size : Z) (needs_kv_cache_zeroing : bool)
    (max_admission : option Z) : SingleTypeKVCacheManager :=
  let bs := spec_block_size spec in
  let bs := if dcp_world_size * pcp_world_size >? 1
            then bs * (dcp_world_size * pcp_world_size) else bs in
  let record := needs_kv_cache_zeroing &&
    match spec_type spec with
    | FullAttentionSpec | TQFullAttentionSpec | MLAAttentionSpec | HiddenStateCacheSpec => true
    | _ => false
    end in
  mkManager cls scheduler_block_size bs spec enable_caching max_admission record [] ∅ ∅ group_id
    null_block false ∅ ∅ ∅.

Definition get_manager_for_kv_cache_spec (spec : KVCacheSpec)
    (max_num_batched_tokens max_model_len : Z) (null_block : nat) (enable_caching : bool)
    (group_id scheduler_block_size dcp_world_size pcp_world_size : Z)
    (needs_kv_cache_zeroing : bool) : result SingleTypeKVCacheManager :=
  let max_admission :=
    match sliding_window_of spec, chunk_size_of spec with
    | Some w, _ => Some (swa_max_admission_blocks w (spec_block_size spec) max_num_batched_tokens max_model_len)
    | None, Some c => Some (chunked_max_admission_blocks c (spec_block_size spec) max_num_batched_tokens max_model_len)
    | None, None => None
    end in
  cls ← manager_class_for spec;
  Ok (SingleTypeKVCacheManager_init cls spec null_block enable_caching group_id
        scheduler_block_size dcp_world_size pcp_world_size needs_kv_cache_zeroing max_admission).

(** [self.req_to_blocks[request_id]] on a [defaultdict(list)]. *)
Definition touch_req rid m : SingleTypeKVCacheManager :=
  match req_to_blocks m !! rid with
  | Some _ => m
  | None => with_req_to_blocks (<[rid := []]> (req_to_blocks m)) m
  end.
(** The blocks of a request; empty if it has no entry. *)
Definition req_blocks rid m : list nat := default [] (req_to_blocks m !! rid).
Definition set_req_blocks rid (bs : list nat) m : SingleTypeKVCacheManager :=
  with_req_to_blocks (<[rid := bs]> (req_to_blocks m)) m.

(** [get_num_skipped_tokens] of each class, and its dispatch. *)
Definition swa_get_num_skipped_tokens (sliding_window num_computed_tokens : Z) : Z :=
  Z.max 0 (num_computed_tokens - sliding_window + 1).
Definition chunked_get_num_skipped_tokens (attention_chunk_size num_computed_tokens : Z) : Z :=
  num_computed_tokens / attention_chunk_size * attention_chunk_size.
Definition mamba_get_num_skipped_tokens (num_computed_tokens : Z) : Z := num_computed_tokens - 1.

Definition get_num_skipped_tokens m (num_computed_tokens : Z) : Z :=
  match mclass m with
  | SlidingWindowManager w => swa_get_num_skipped_tokens w num_computed_tokens
  | ChunkedLocalAttentionManager c => chunked_get_num_skipped_tokens c num_computed_tokens
  | MambaManager _ _ => mamba_get_num_skipped_tokens num_computed_tokens
  | _ => 0
  end.

Section Managers.
Context {Q : Type} `{!FreeQueueOps Q} {env : PoolEnv}.
Implicit Types (p : BlockPool Q).

(** ** Base class *)

Definition _get_num_evictable_blocks p (bs : list nat) : result Z :=
  foldM (λ n b, blk ← get_block p b;
                Ok (if (ref_cnt blk =? 0) && negb (is_null blk) then n + 1 else n)) 0 bs.

Definition base_get_num_blocks_to_allocate p rid (num_tokens : Z) (new_computed_blocks : list nat)
    (total_computed_tokens : Z) (apply_admission_cap : bool) m : result Z :=
  let num_required_blocks := cdiv num_tokens (block_size m) in
  let num_required_blocks :=
    match m.(_max_admission_blocks_per_request) with
    | Some cap => if apply_admission_cap then Z.min num_required_blocks cap else num_required_blocks
    | None => num_required_blocks
    end in
  let num_req_blocks := zlen (req_blocks rid m) in
  if decide (is_Some (num_cached_block m !! rid)) then
    _ ← assert_ (zlen new_computed_blocks =? 0);
    Ok (Z.max (num_required_blocks - num_req_blocks) 0)
  else
    let num_skipped_tokens := get_num_skipped_tokens m total_computed_tokens in
    let num_local_computed_blocks := zlen new_computed_blocks + num_req_blocks in
    let num_skipped_blocks := num_skipped_tokens / block_size m in
    let num_new_blocks :=
      Z.max (num_required_blocks - Z.max num_skipped_blocks num_local_computed_blocks) 0 in
    let num_skipped_new_computed_blocks := Z.max 0 (num_skipped_blocks - num_req_blocks) in
    num_evictable_blocks ←
      _get_num_evictable_blocks p (py_from new_computed_blocks num_skipped_new_computed_blocks);
    Ok (num_new_blocks + num_evictable_blocks).

Definition base_add_local_computed_blocks rid (new_computed_blocks : list nat)
    (num_local_computed_tokens num_external_computed_tokens : Z) m p
    : result (SingleTypeKVCacheManager * BlockPool Q) :=
  let m := touch_req rid m in
  _ ← assert_ (zlen (req_blocks rid m) =? 0);
  let num_total_computed_tokens := num_local_computed_tokens + num_external_computed_tokens in
  let num_skipped_tokens := get_num_skipped_tokens m num_total_computed_tokens in
  let num_skipped_blocks := num_skipped_tokens / block_size m in
  let new_computed_blocks :=
    if num_skipped_blocks >? 0 then py_from new_computed_blocks num_skipped_blocks
    else new_computed_blocks in
  p ← (if mgr_enable_caching m then touch new_computed_blocks p
       else _ ← assert_ (bool_decide (new_computed_blocks = [])); Ok p);
  let bs := req_blocks rid m ++ replicate (Z.to_nat num_skipped_blocks) (m.(_null_block))
              ++ new_computed_blocks in
  let m := set_req_blocks rid bs m in
  Ok (with_num_cached_block (<[rid := zlen bs]> (num_cached_block m)) m, p).

(** [extend] with freshly allocated blocks, recorded for zeroing. *)
Definition extend_req rid (new : list nat) m : SingleTypeKVCacheManager :=
  let m := set_req_blocks rid (req_blocks rid m ++ new) m in
  if m.(_record_new_block_ids) then with_new_block_ids (new_block_ids m ++ new) m else m.

Definition base_allocate_external_computed_blocks rid
    (num_local_computed_tokens num_external_computed_tokens : Z) m p
    : result (SingleTypeKVCacheManager * BlockPool Q) :=
  let num_total_computed_tokens := num_local_computed_tokens + num_external_computed_tokens in
  let num_skipped_tokens := get_num_skipped_tokens m num_total_computed_tokens in
  let num_external_computed_tokens :=
    if num_skipped_tokens >? 0
    then Z.min (num_total_computed_tokens - num_skipped_tokens) num_external_computed_tokens
    else num_external_computed_tokens in
  if num_external_computed_tokens <=? 0 then Ok (m, p) else
  let m := touch_req rid m in
  '(allocated_blocks, p) ←
    get_new_blocks (cdiv num_total_computed_tokens (block_size m) - zlen (req_blocks rid m)) p;
  Ok (extend_req rid allocated_blocks m, p).

Definition base_allocate_new_blocks rid (num_tokens : Z) m p
    : result (list nat * SingleTypeKVCacheManager * BlockPool Q) :=
  let m := touch_req rid m in
  let num_required_blocks := cdiv num_tokens (block_size m) in
  let num_new_blocks := num_required_blocks - zlen (req_blocks rid m) in
  if num_new_blocks <=? 0 then Ok ([], m, p) else
  '(new_blocks, p) ← get_new_blocks num_new_blocks p;
  Ok (new_blocks, extend_req rid new_blocks m, p).

Definition take_new_block_ids m : list nat * SingleTypeKVCacheManager :=
  (new_block_ids m, with_new_block_ids [] m).

(** ** Which blocks are worth caching ([reachable_block_mask]) *)

Definition _contiguous_blocks_for_hit (window_size block_size : Z) (use_eagle : bool) : Z :=
  let blocks := cdiv (window_size - 1) block_size in
  if use_eagle then blocks + 1 else blocks.

(** [for i in idxs: mask[i - start] = True] *)
Definition set_mask (start : Z) (idxs : list Z) (mask : list bool) : list bool :=
  fold_left (λ msk i, <[Z.to_nat (i - start) := true]> msk) idxs mask.

Definition swa_reachable_block_mask (start_block end_block : Z) (alignment_tokens : option Z)
    (spec : KVCacheSpec) (use_eagle : bool) (retention_interval num_prompt_tokens : option Z)
    : result (option (list bool)) :=
  window ← of_option AssertionError (sliding_window_of spec);
  match alignment_tokens with
  | None => Ok None
  | Some alignment_tokens =>
      let block_size := spec_block_size spec in
      _ ← assert_ (alignment_tokens mod block_size =? 0);
      let need := _contiguous_blocks_for_hit window block_size use_eagle in
      let shift := if use_eagle then 1 else 0 in
      let mask := replicate (Z.to_nat (end_block - start_block)) false in
      let segment_tokens :=
        match retention_interval with
        | None => Some alignment_tokens
        | Some r => if r =? 0 then None else Some r
        end in
      let replay (mask : list bool) :=
        match retention_interval, num_prompt_tokens with
        | Some _, Some n =>
            let latest := (n - 1) / alignment_tokens * alignment_tokens in
            let prompt_end_block := latest / block_size + shift in
            set_mask start_block
              (py_range (Z.max start_block (prompt_end_block - need))
                 (Z.min end_block prompt_end_block)) mask
        | _, _ => mask
        end in
      match segment_tokens with
      | Some seg =>
          let per_segment := seg / block_size in
          if need >=? per_segment then Ok None else
          let idxs := filter (λ i, (shift ≤ i) ∧ per_segment - need ≤ (i - shift) mod per_segment)
                        (py_range start_block end_block) in
          Ok (Some (replay (set_mask start_block idxs mask)))
      | None => Ok (Some (replay mask))
      end
  end.

(** [range(a, n, step)] for a positive step. *)
Definition py_range_step (a n step : Z) : list Z :=
  (λ k, a + k * step) <$> py_range 0 (cdiv (n - a) step).

Definition mamba_reachable_block_mask (start_block end_block : Z) (alignment_tokens : option Z)
    (spec : KVCacheSpec) (retention_interval num_prompt_tokens : option Z)
    : result (option (list bool)) :=
  match retention_interval, alignment_tokens with
  | Some retention_interval, Some alignment_tokens =>
      _ ← assert_ (is_mamba spec);
      let block_size := spec_block_size spec in
      let mask := replicate (Z.to_nat (end_block - start_block)) false in
      let replay (mask : list bool) :=
        match num_prompt_tokens with
        | Some n =>
            let latest := (n - 1) / alignment_tokens * alignment_tokens in
            let boundary_block := latest / block_size - 1 in
            if (start_block <=? boundary_block) && (boundary_block <? end_block)
            then set_mask start_block [boundary_block] mask else mask
        | None => mask
        end in
      if retention_interval =? 0 then Ok (Some (replay mask)) else
      let per_segment := retention_interval / block_size in
      if per_segment <=? 1 then Ok None else
      let first_boundary := (start_block + per_segment) / per_segment * per_segment - 1 in
      Ok (Some (replay
        (set_mask 0 (py_range_step (first_boundary - start_block) (zlen mask) per_segment) mask)))
  | _, _ => Ok None
  end.

Definition mgr_reachable_block_mask (start_block end_block : Z) (alignment_tokens : option Z)
    (retention_interval num_prompt_tokens : option Z) m : result (option (list bool)) :=
  match mclass m with
  | SlidingWindowManager _ =>
      swa_reachable_block_mask start_block end_block alignment_tokens (kv_cache_spec m)
        (use_eagle m) retention_interval num_prompt_tokens
  | MambaManager _ _ =>
      mamba_reachable_block_mask start_block end_block alignment_tokens (kv_cache_spec m)
        retention_interval num_prompt_tokens
  | _ => Ok None
  end.

Definition base_cache_blocks (r : Request) (num_tokens : Z) (retention_interval : option Z) m p
    : result (SingleTypeKVCacheManager * BlockPool Q * Request) :=
  let rid := request_id r in
  let num_cached_blocks := default 0 (num_cached_block m !! rid) in
  let num_full_blocks := num_tokens / block_size m in
  if num_cached_blocks >=? num_full_blocks then Ok (m, p, r) else
  block_mask ← mgr_reachable_block_mask num_cached_blocks num_full_blocks
                 (Some (scheduler_block_size m)) retention_interval (Some (num_prompt_tokens r)) m;
  let m := touch_req rid m in
  '(p, r) ← cache_full_blocks r (req_blocks rid m) num_cached_blocks num_full_blocks
              (block_size m) (kv_cache_group_id m) block_mask p;
  Ok (with_num_cached_block (<[rid := num_full_blocks]> (num_cached_block m)) m, p, r).

(** ** Freeing *)

Definition base_pop_blocks_for_free rid m : list nat * SingleTypeKVCacheManager :=
  (req_blocks rid m,
   with_num_cached_block (delete rid (num_cached_block m))
     (with_req_to_blocks (delete rid (req_to_blocks m)) m)).

Definition mgr_pop_blocks_for_free rid m : list nat * SingleTypeKVCacheManager :=
  match mclass m with
  | MambaManager true _ =>
      let m := with_allocated_reqs (m.(_allocated_block_reqs) ∖ {[ rid ]}) m in
      base_pop_blocks_for_free rid (with_last_state (delete rid (last_state_block_idx m)) m)
  | _ => base_pop_blocks_for_free rid m
  end.

Definition mgr_free rid m p : result (SingleTypeKVCacheManager * BlockPool Q) :=
  let '(bs, m) := mgr_pop_blocks_for_free rid m in
  p ← free_blocks (reverse bs) p;
  Ok (m, p).

(** The backward loop of [_remove_blocks_in_range]: [idxs] are the remaining
    indices, in descending order. *)
Fixpoint null_out (null : nat) (idxs : list Z) (bs freed : list nat)
    : result (list nat * list nat) :=
  match idxs with
  | [] => Ok (bs, freed)
  | i :: idxs =>
      b ← py_get bs i;
      if decide (b = null) then Ok (bs, freed)
      else null_out null idxs (<[Z.to_nat i := null]> bs) (freed ++ [b])
  end.

Definition _remove_blocks_in_range rid (first_block last_block : Z) m p
    : result (SingleTypeKVCacheManager * BlockPool Q) :=
  match req_to_blocks m !! rid with
  | None => Ok (m, p)
  | Some bs =>
      if first_block >=? last_block then Ok (m, p) else
      let last_block := Z.min last_block (zlen bs) in
      '(bs, freed) ← null_out (m.(_null_block)) (py_range_down first_block last_block) bs [];
      let m := set_req_blocks rid bs m in
      match freed with
      | [] => Ok (m, p)
      | _ => p ← free_blocks freed p; Ok (m, p)
      end
  end.

Definition base_remove_skipped_blocks rid (total_computed_tokens : Z) m p
    : result (SingleTypeKVCacheManager * BlockPool Q) :=
  let num_skipped_tokens := get_num_skipped_tokens m total_computed_tokens in
  if num_skipped_tokens <=? 0 then Ok (m, p) else
  let m := touch_req rid m in
  let num_skipped_blocks :=
    Z.min (num_skipped_tokens / block_size m) (zlen (req_blocks rid m)) in
  _remove_blocks_in_range rid 0 num_skipped_blocks m p.

Definition rswa_remove_skipped_blocks (rswa_window : Z) rid (total_computed_tokens : Z)
    (num_prompt_tokens : option Z) m p : result (SingleTypeKVCacheManager * BlockPool Q) :=
  match num_prompt_tokens with
  | None => base_remove_skipped_blocks rid total_computed_tokens m p
  | Some n =>
      let first_gap_block := cdiv n (block_size m) in
      let window_start := Z.max n (total_computed_tokens - rswa_window) in
      let last_gap_block := window_start / block_size m in
      _remove_blocks_in_range rid first_gap_block last_gap_block m p
  end.

Definition mamba_remove_skipped_blocks (align : bool) (num_speculative_blocks : Z) rid
    (num_computed_tokens : Z) m p : result (SingleTypeKVCacheManager * BlockPool Q) :=
  _ ← assert_ (is_mamba (kv_cache_spec m));
  let num_computed_tokens := Z.max 0 (num_computed_tokens - num_speculative_blocks) in
  '(m, p) ← base_remove_skipped_blocks rid num_computed_tokens m p;
  if negb align then Ok (m, p) else
  match last_state_block_idx m !! rid with
  | None => Ok (m, p)
  | Some idx =>
      if negb (idx <? cdiv num_computed_tokens (block_size m) - 1) then Ok (m, p) else
      let m := touch_req rid m in
      b ← py_get (req_blocks rid m) idx;
      if decide (b = m.(_null_block)) then Ok (m, p) else
      p ← free_blocks [b] p;
      let i := if idx <? 0 then zlen (req_blocks rid m) + idx else idx in
      Ok (set_req_blocks rid (<[Z.to_nat i := m.(_null_block)]> (req_blocks rid m)) m, p)
  end.

Definition mgr_remove_skipped_blocks rid (total_computed_tokens : Z) (num_prompt_tokens : option Z)
    m p : result (SingleTypeKVCacheManager * BlockPool Q) :=
  match mclass m with
  | RSWAManager w => rswa_remove_skipped_blocks w rid total_computed_tokens num_prompt_tokens m p
  | MambaManager a n => mamba_remove_skipped_blocks a n rid total_computed_tokens m p
  | _ => base_remove_skipped_blocks rid total_computed_tokens m p
  end.

(** ** Counting and allocating, with the Mamba overrides *)

Definition mamba_get_num_blocks_to_allocate (align : bool) (num_speculative_blocks : Z) p rid
    (num_tokens : Z) (new_computed_blocks : list nat)
    (total_computed_tokens num_tokens_main_model : Z) (apply_admission_cap : bool) m
    : result (Z * SingleTypeKVCacheManager) :=
  _ ← assert_ (is_mamba (kv_cache_spec m));
  hit_this_step ←
    match last new_computed_blocks with
    | None => Ok false
    | Some b =>
        blk ← get_block p b;
        Ok (match block_hash blk with
            | Some h => bool_decide (h ∈ cached_blocks_this_step m)
            | None => false
            end)
    end;
  if hit_this_step : bool then Ok (num_gpu_blocks p + 1, m) else
  if negb align then
    let num_tokens :=
      if num_speculative_blocks >? 0
      then num_tokens + spec_block_size (kv_cache_spec m) * num_speculative_blocks
      else num_tokens in
    n ← base_get_num_blocks_to_allocate p rid num_tokens new_computed_blocks
          total_computed_tokens apply_admission_cap m;
    Ok (n, m)
  else
    let num_required_blocks := cdiv num_tokens_main_model (block_size m) + num_speculative_blocks in
    let m := touch_req rid m in
    let num_new_blocks :=
      num_required_blocks - zlen new_computed_blocks - zlen (req_blocks rid m) in
    let num_new_blocks :=
      if num_new_blocks >? 0 then
        if decide (rid ∈ m.(_allocated_block_reqs)) then 1 else 1 + num_speculative_blocks
      else num_new_blocks in
    num_evictable ← _get_num_evictable_blocks p new_computed_blocks;
    Ok (num_new_blocks + num_evictable, m).

Definition mgr_get_num_blocks_to_allocate p rid (num_tokens : Z) (new_computed_blocks : list nat)
    (total_computed_tokens num_tokens_main_model : Z) (apply_admission_cap : bool) m
    : result (Z * SingleTypeKVCacheManager) :=
  match mclass m with
  | MambaManager a n =>
      mamba_get_num_blocks_to_allocate a n p rid num_tokens new_computed_blocks
        total_computed_tokens num_tokens_main_model apply_admission_cap m
  | _ =>
      n ← base_get_num_blocks_to_allocate p rid num_tokens new_computed_blocks
            total_computed_tokens apply_admission_cap m;
      Ok (n, m)
  end.

(** The loop that moves the previous step's speculative blocks to the end. *)
Fixpoint reuse_speculative (null : nat) (num_skipped_blocks : Z) (idxs : list Z) (bs : list nat)
    : result (list nat) :=
  match idxs with
  | [] => Ok bs
  | i :: idxs =>
      if i <? num_skipped_blocks then
        b ← py_get bs i;
        let bs := bs ++ [b] in
        let j := if i <? 0 then zlen bs + i else i in
        reuse_speculative null num_skipped_blocks idxs (<[Z.to_nat j := null]> bs)
      else Ok bs
  end.

Definition mamba_allocate_new_blocks (align : bool) (num_speculative_blocks : Z) rid
    (num_tokens num_tokens_main_model : Z) m p
    : result (list nat * SingleTypeKVCacheManager * BlockPool Q) :=
  _ ← assert_ (is_mamba (kv_cache_spec m));
  if negb align then
    let num_tokens :=
      if num_speculative_blocks >? 0 then num_tokens + block_size m * num_speculative_blocks
      else num_tokens in
    base_allocate_new_blocks rid num_tokens m p
  else
    let m := touch_req rid m in
    let bs := req_blocks rid m in
    let num_required_blocks := cdiv num_tokens_main_model (block_size m) + num_speculative_blocks in
    if num_required_blocks <=? zlen bs then Ok ([], m, p) else
    let prev_block_len := zlen bs in
    let blocks_allocated := bool_decide (rid ∈ m.(_allocated_block_reqs)) in
    let m :=
      if blocks_allocated then
        with_last_state (<[rid := prev_block_len - 1 - num_speculative_blocks]>
                           (last_state_block_idx m)) m
      else if prev_block_len >? 0 then
        with_last_state (<[rid := prev_block_len - 1]> (last_state_block_idx m)) m
      else m in
    let num_skipped_blocks := num_required_blocks - num_speculative_blocks - 1 in
    let bs := bs ++ replicate (Z.to_nat (num_skipped_blocks - prev_block_len)) (m.(_null_block)) in
    bs ← (if blocks_allocated then
            reuse_speculative (m.(_null_block)) num_skipped_blocks
              (py_range (prev_block_len - num_speculative_blocks) prev_block_len) bs
          else Ok bs);
    let num_new_blocks := num_required_blocks - zlen bs in
    _ ← assert_ (if blocks_allocated then num_new_blocks <=? 1
                 else num_new_blocks <=? num_speculative_blocks + 1);
    '(new_blocks, p) ← get_new_blocks num_new_blocks p;
    let bs := bs ++ new_blocks in
    let m := set_req_blocks rid bs m in
    let m := with_allocated_reqs ({[ rid ]} ∪ m.(_allocated_block_reqs)) m in
    Ok (py_from bs prev_block_len, m, p).

Definition mgr_allocate_new_blocks rid (num_tokens num_tokens_main_model : Z) m p
    : result (list nat * SingleTypeKVCacheManager * BlockPool Q) :=
  match mclass m with
  | MambaManager a n => mamba_allocate_new_blocks a n rid num_tokens num_tokens_main_model m p
  | _ => base_allocate_new_blocks rid num_tokens m p
  end.

Definition mgr_add_local_computed_blocks rid (new_computed_blocks : list nat)
    (num_local_computed_tokens num_external_computed_tokens : Z) m p
    : result (SingleTypeKVCacheManager * BlockPool Q) :=
  match mclass m with
  | CrossAttentionManager => _ ← assert_ (zlen new_computed_blocks =? 0); Ok (m, p)
  | _ => base_add_local_computed_blocks rid new_computed_blocks num_local_computed_tokens
           num_external_computed_tokens m p
  end.

Definition mgr_allocate_external_computed_blocks rid
    (num_local_computed_tokens num_external_computed_tokens : Z) m p
    : result (SingleTypeKVCacheManager * BlockPool Q) :=
  match mclass m with
  | CrossAttentionManager => Ok (m, p)
  | _ => base_allocate_external_computed_blocks rid num_local_computed_tokens
           num_external_computed_tokens m p
  end.

(** Mamba records the hashes it caches in a step. *)
Definition mamba_cache_blocks (r : Request) (num_tokens : Z) (retention_interval : option Z) m p
    : result (SingleTypeKVCacheManager * BlockPool Q * Request) :=
  let rid := request_id r in
  let before := default 0 (num_cached_block m !! rid) in
  '(m, p, r) ← base_cache_blocks r num_tokens retention_interval m p;
  let after := default 0 (num_cached_block m !! rid) in
  if after >? before then
    let m := touch_req rid m in
    hs ← foldM (λ hs b,
           blk ← get_block p b;
           Ok (match block_hash blk with
               | Some h => if is_null blk then hs else {[ h ]} ∪ hs
               | None => hs
               end)) (cached_blocks_this_step m) (py_slice (req_blocks rid m) before after);
    Ok (with_cached_this_step hs m, p, r)
  else Ok (m, p, r).

Definition mgr_cache_blocks (r : Request) (num_tokens : Z) (retention_interval : option Z) m p
    : result (SingleTypeKVCacheManager * BlockPool Q * Request) :=
  match mclass m with
  | CrossAttentionManager => Raise ValueError
  | MambaManager _ _ => mamba_cache_blocks r num_tokens retention_interval m p
  | _ => base_cache_blocks r num_tokens retention_interval m p
  end.

Definition mgr_new_step_starts m : SingleTypeKVCacheManager :=
  match mclass m with
  | MambaManager _ _ => with_cached_this_step ∅ m
  | _ => m
  end.

(** The loop of [FullAttentionManager.get_num_common_prefix_blocks]. *)
Fixpoint count_common p (num_reqs : Z) (bs : list nat) : result Z :=
  match bs with
  | [] => Ok 0
  | b :: bs =>
      blk ← get_block p b;
      if ref_cnt blk =? num_reqs then n ← count_common p num_reqs bs; Ok (n + 1) else Ok 0
  end.

Definition mgr_get_num_common_prefix_blocks rid m p : result (Z * SingleTypeKVCacheManager) :=
  match mclass m with
  | FullAttentionManager | RSWAManager _ =>
      let m := touch_req rid m in
      n ← count_common p (Z.of_nat (size (req_to_blocks m))) (req_blocks rid m);
      Ok (n, m)
  | _ => Ok (0, m)
  end.

(** ** Longest cached prefix *)

Definition hl_iter (hl : BlockHashList) : result (list bytes) :=
  match hl with HashList l => Ok l | HashView v => hv_iter v end.

(** [if cached_block := block_pool.get_cached_block(...)]: also false for an
    empty list of groups. *)
Definition lookup_block p (h : bytes) (group_ids : list Z) : result (option (list nat)) :=
  o ← get_cached_block p h group_ids;
  Ok (match o with Some [] => None | _ => o end).

(** [for computed, cached in zip(computed_blocks, cached_block): computed.append(cached)] *)
Fixpoint zip_append (computed : list (list nat)) (cached : list nat) : list (list nat) :=
  match computed, cached with
  | c :: computed, b :: cached => (c ++ [b]) :: zip_append computed cached
  | _, _ => computed
  end.

(** [for computed, cached in zip(...): computed.extend(pad); computed.append(cached)] *)
Fixpoint zip_extend (pad : list nat) (computed : list (list nat)) (cached : list nat)
    : list (list nat) :=
  match computed, cached with
  | c :: computed, b :: cached => (c ++ pad ++ [b]) :: zip_extend pad computed cached
  | _, _ => computed
  end.

(** [for computed, cached in zip(...): computed[i] = cached] *)
Fixpoint zip_set (i : nat) (computed : list (list nat)) (cached : list nat) : list (list nat) :=
  match computed, cached with
  | c :: computed, b :: cached => <[i := b]> c :: zip_set i computed cached
  | _, _ => computed
  end.

(** [computed_blocks[0]] *)
Definition first_list (computed : list (list nat)) : result (list nat) :=
  of_option IndexError (head computed).

(** [for computed in computed_blocks: computed.pop()] *)
Definition pop_one (l : list nat) : result (list nat) :=
  match l with [] => Raise IndexError | _ => Ok (take (length l - 1) l) end.
Definition pop_all (computed : list (list nat)) : result (list (list nat)) :=
  mapR pop_one computed.

(** [while block_size != alignment and len(computed[0]) * block_size % alignment != 0: pop]. *)
Fixpoint align_loop (fuel : nat) (block_size alignment_tokens : Z) (computed : list (list nat))
    : result (list (list nat)) :=
  match fuel with
  | O => Raise OutOfFuel
  | S fuel =>
      if block_size =? alignment_tokens then Ok computed else
      l ← first_list computed;
      if (zlen l * block_size) mod alignment_tokens =? 0 then Ok computed else
      computed ← pop_all computed;
      align_loop fuel block_size alignment_tokens computed
  end.
(** The loop stops at the latest when the lists are empty. *)
Definition align_down (block_size alignment_tokens : Z) (computed : list (list nat))
    : result (list (list nat)) :=
  align_loop (S (length (default [] (head computed)))) block_size alignment_tokens computed.

(** [if drop_eagle_block and computed_blocks[0]: pop] *)
Definition drop_eagle (drop_eagle_block : bool) (computed : list (list nat))
    : result (list (list nat) * bool) :=
  if drop_eagle_block then
    l ← first_list computed;
    match l with
    | [] => Ok (computed, false)
    | _ => computed ← pop_all computed; Ok (computed, true)
    end
  else Ok (computed, false).

Fixpoint full_scan p (group_ids : list Z) (hashes : list bytes) (computed : list (list nat))
    : result (list (list nat)) :=
  match hashes with
  | [] => Ok computed
  | h :: hashes =>
      o ← lookup_block p h group_ids;
      match o with
      | Some cached => full_scan p group_ids hashes (zip_append computed cached)
      | None => Ok computed
      end
  end.

Definition full_find_longest_cache_hit (hl : BlockHashList) (max_length : Z) (group_ids : list Z)
    p (spec : KVCacheSpec) (drop_eagle_block : bool) (alignment_tokens : Z)
    (dcp_world_size pcp_world_size : Z) : result (list (list nat)) :=
  _ ← assert_ (is_full_attention spec || bool_decide (is_Some (chunk_size_of spec)));
  let computed := replicate (length group_ids) [] in
  let bs := spec_block_size spec in
  let bs := if dcp_world_size * pcp_world_size >? 1
            then bs * (dcp_world_size * pcp_world_size) else bs in
  let max_num_blocks := max_length / bs in
  _ ← require ValueError (0 <=? max_num_blocks);
  hashes ← hl_iter hl;
  computed ← full_scan p group_ids (take (Z.to_nat max_num_blocks) hashes) computed;
  '(computed, _) ← drop_eagle drop_eagle_block computed;
  align_down bs alignment_tokens computed.

(** The right-to-left search of the sliding window manager over the indices
    below [i]; [None] in the last component means no early match. *)
Fixpoint swa_scan (hl : BlockHashList) (group_ids : list Z) p
    (need block_size alignment_tokens : Z) (drop_eagle_block : bool)
    (i : nat) (num_contiguous_blocks : Z) (computed : list (list nat))
    : result (list (list nat) * Z * bool) :=
  match i with
  | O => Ok (computed, num_contiguous_blocks, false)
  | S i =>
      h ← hl_get hl (Z.of_nat i);
      o ← lookup_block p h group_ids;
      match o with
      | Some cached =>
          let post_pop_blocks := if drop_eagle_block then Z.of_nat i else Z.of_nat i + 1 in
          if (num_contiguous_blocks =? 0) && negb (block_size =? alignment_tokens)
             && negb ((post_pop_blocks * block_size) mod alignment_tokens =? 0)
          then swa_scan hl group_ids p need block_size alignment_tokens drop_eagle_block i
                 num_contiguous_blocks computed
          else
            let computed := zip_set i computed cached in
            let num_contiguous_blocks := num_contiguous_blocks + 1 in
            if num_contiguous_blocks >=? need then
              Ok ((λ c, take (i + Z.to_nat num_contiguous_blocks) c) <$> computed,
                  num_contiguous_blocks, true)
            else swa_scan hl group_ids p need block_size alignment_tokens drop_eagle_block i
                   num_contiguous_blocks computed
      | None =>
          swa_scan hl group_ids p need block_size alignment_tokens drop_eagle_block i 0 computed
      end
  end.

Definition swa_find_longest_cache_hit (hl : BlockHashList) (max_length : Z) (group_ids : list Z)
    p (spec : KVCacheSpec) (drop_eagle_block : bool) (alignment_tokens : Z)
    (dcp_world_size pcp_world_size : Z) : result (list (list nat)) :=
  window ← of_option AssertionError (sliding_window_of spec);
  _ ← assert_ (dcp_world_size =? 1);
  _ ← assert_ (pcp_world_size =? 1);
  let bs := spec_block_size spec in
  let need := _contiguous_blocks_for_hit window bs drop_eagle_block in
  let max_num_blocks := Z.to_nat (max_length / bs) in
  let computed := replicate (length group_ids) (replicate max_num_blocks (null_block p)) in
  '(computed, num_contiguous_blocks, match_found) ←
    swa_scan hl group_ids p need bs alignment_tokens drop_eagle_block max_num_blocks 0 computed;
  computed ← (if match_found : bool then Ok computed
              else align_down bs alignment_tokens
                     ((λ c, take (Z.to_nat num_contiguous_blocks) c) <$> computed));
  '(computed, popped) ← drop_eagle drop_eagle_block computed;
  if popped : bool then align_down bs alignment_tokens computed else Ok computed.

(** The forward search of the chunked local manager over the given indices. *)
Fixpoint chunked_scan (hl : BlockHashList) (group_ids : list Z) p (idxs : list Z)
    (computed : list (list nat)) : result (list (list nat)) :=
  match idxs with
  | [] => Ok computed
  | i :: idxs =>
      h ← hl_get hl i;
      o ← lookup_block p h group_ids;
      match o with
      | Some cached => chunked_scan hl group_ids p idxs (zip_append computed cached)
      | None => Ok computed
      end
  end.

Definition chunked_find_longest_cache_hit (hl : BlockHashList) (max_length : Z)
    (group_ids : list Z) p (spec : KVCacheSpec) (drop_eagle_block : bool) (alignment_tokens : Z)
    (dcp_world_size pcp_world_size : Z) : result (list (list nat)) :=
  chunk ← of_option AssertionError (chunk_size_of spec);
  _ ← assert_ (negb drop_eagle_block);
  _ ← assert_ (dcp_world_size =? 1);
  _ ← assert_ (pcp_world_size =? 1);
  _ ← assert_ (spec_block_size spec =? alignment_tokens);
  let max_num_blocks := max_length / spec_block_size spec in
  let local_attention_start_idx := if max_length >? 0 then max_length / chunk * chunk else 0 in
  let start_block := local_attention_start_idx / spec_block_size spec in
  let computed := replicate (length group_ids) (replicate (Z.to_nat start_block) (null_block p)) in
  chunked_scan hl group_ids p (py_range start_block max_num_blocks) computed.

(** The right-to-left search of the Mamba manager below index [i]. *)
Fixpoint mamba_scan (hl : BlockHashList) (group_ids : list Z) p (block_size alignment_tokens : Z)
    (i : nat) (computed : list (list nat)) : result (list (list nat)) :=
  match i with
  | O => Ok computed
  | S i =>
      h ← hl_get hl (Z.of_nat i);
      o ← lookup_block p h group_ids;
      match o with
      | Some cached =>
          if negb (block_size =? alignment_tokens)
             && negb (((Z.of_nat i + 1) * block_size) mod alignment_tokens =? 0)
          then mamba_scan hl group_ids p block_size alignment_tokens i computed
          else Ok (zip_extend (replicate i (null_block p)) computed cached)
      | None => mamba_scan hl group_ids p block_size alignment_tokens i computed
      end
  end.

Definition mamba_find_longest_cache_hit (hl : BlockHashList) (max_length : Z)
    (group_ids : list Z) p (spec : KVCacheSpec) (alignment_tokens : Z)
    (dcp_world_size pcp_world_size : Z) : result (list (list nat)) :=
  _ ← assert_ (is_mamba spec);
  _ ← assert_ (dcp_world_size =? 1);
  _ ← assert_ (pcp_world_size =? 1);
  let computed := replicate (length group_ids) [] in
  let bs := spec_block_size spec in
  mamba_scan hl group_ids p bs alignment_tokens (Z.to_nat (max_length / bs)) computed.

Definition cls_find_longest_cache_hit (cls : manager_class) (hl : BlockHashList) (max_length : Z)
    (group_ids : list Z) p (spec : KVCacheSpec) (drop_eagle_block : bool) (alignment_tokens : Z)
    (dcp_world_size pcp_world_size : Z) : result (list (list nat)) :=
  match cls with
  | FullAttentionManager | RSWAManager _ =>
      full_find_longest_cache_hit hl max_length group_ids p spec drop_eagle_block
        alignment_tokens dcp_world_size pcp_world_size
  | SlidingWindowManager _ =>
      swa_find_longest_cache_hit hl max_length group_ids p spec drop_eagle_block
        alignment_tokens dcp_world_size pcp_world_size
  | ChunkedLocalAttentionManager _ =>
      chunked_find_longest_cache_hit hl max_length group_ids p spec drop_eagle_block
        alignment_tokens dcp_world_size pcp_world_size
  | MambaManager _ _ =>
      mamba_find_longest_cache_hit hl max_length group_ids p spec alignment_tokens
        dcp_world_size pcp_world_size
  | CrossAttentionManager =>
      _ ← assert_ (is_cross spec); Raise NotImplementedError
  end.

End Managers.

(** ** Facts: longest cached prefix *)

Section HitFacts.
Context {Q : Type} `{!FreeQueueOps Q} {env : PoolEnv}.
Implicit Types (p : BlockPool Q) (cs : list (list nat)).

(** A hash is a hit when every group has a block that carries it. *)
Definition cached_at p (gids : list Z) (h : bytes) : Prop :=
  ∀ g, g ∈ gids → ∃ b, owns p b (group_key h g).

Definition gids_ok (gids : list Z) : Prop := gids ≠ [] ∧ Forall (λ g, 0 ≤ g < 2 ^ 32) gids.

Lemma lookup_block_spec p h gids :
  hash_wf p → gids_ok gids →
  (∃ bs, lookup_block p h gids = Ok (Some bs) ∧ cached_at p gids h ∧
     Forall2 (λ g b, owns p b (group_key h g)) gids bs) ∨
  (lookup_block p h gids = Ok None ∧ ¬ cached_at p gids h).
Proof.
  intros Hwf [Hne HF]. unfold lookup_block, get_cached_block.
  destruct (get_cached_loop_spec p h gids [] Hwf HF) as [(bs & -> & Hbs)|(-> & g & Hg & Hno)];
    unfold mbind, result_bind.
  - left. exists bs. split_and!; [|intros g [i Hi]%list_elem_of_lookup|done].
    + destruct bs; [|done]. by inversion Hbs; subst.
    + destruct (Forall2_lookup_l _ _ _ _ _ Hbs Hi) as (b & _ & Hb). eauto.
  - right. split; [done|]. intros Hc. destruct (Hc g Hg) as [b Hb]. by apply (Hno b).
Qed.

(** The rows of a result: one list of blocks per group. *)
Lemma zip_append_rows (P P' : Z → list nat → Prop) (R : Z → nat → Prop) gids cs bs :
  Forall2 P gids cs → Forall2 R gids bs →
  (∀ g c b, P g c → R g b → P' g (c ++ [b])) → Forall2 P' gids (zip_append cs bs).
Proof.
  intros H1 H2 H. revert bs H2. induction H1; intros bs H2; inversion_clear H2; cbn; constructor; eauto.
Qed.
Lemma zip_extend_rows (P P' : Z → list nat → Prop) (R : Z → nat → Prop) pad gids cs bs :
  Forall2 P gids cs → Forall2 R gids bs →
  (∀ g c b, P g c → R g b → P' g (c ++ pad ++ [b])) → Forall2 P' gids (zip_extend pad cs bs).
Proof.
  intros H1 H2 H. revert bs H2. induction H1; intros bs H2; inversion_clear H2; cbn; constructor; eauto.
Qed.
Lemma zip_set_rows (P P' : Z → list nat → Prop) (R : Z → nat → Prop) i gids cs bs :
  Forall2 P gids cs → Forall2 R gids bs →
  (∀ g c b, P g c → R g b → P' g (<[i := b]> c)) → Forall2 P' gids (zip_set i cs bs).
Proof.
  intros H1 H2 H. revert bs H2. induction H1; intros bs H2; inversion_clear H2; cbn; constructor; eauto.
Qed.

(** A non-empty tuple of lists of one length. *)
Definition rows_len cs (n : nat) : Prop := cs ≠ [] ∧ Forall (λ c, length c = n) cs.

Lemma rows_len_of (P : Z → list nat → Prop) gids cs n :
  gids ≠ [] → Forall2 P gids cs → (∀ g c, P g c → length c = n) → rows_len cs n.
Proof.
  intros Hne HF H. split.
  - intros ->. by inversion HF; subst.
  - eapply Forall2_Forall_r; [exact HF|]. by apply Forall_true.
Qed.

Lemma rows_len_take cs n k : rows_len cs n → (k ≤ n)%nat → rows_len (take k <$> cs) k.
Proof.
  intros [Hne HF] Hk. split; [by destruct cs|]. apply Forall_fmap.
  eapply Forall_impl; [exact HF|]. cbn. intros c Hc. rewrite length_take. lia.
Qed.

Lemma rows_first cs n : rows_len cs n → ∃ l, first_list cs = Ok l ∧ length l = n.
Proof. intros [Hne HF]. destruct cs as [|c cs]; [done|]. inversion_clear HF. by exists c. Qed.

Lemma pop_all_rows cs n : rows_len cs (S n) → pop_all cs = Ok (take n <$> cs).
Proof.
  intros [_ HF]. unfold pop_all. apply mapR_Ok. intros c Hc.
  rewrite Forall_forall in HF. specialize (HF c Hc). unfold pop_one. rewrite HF.
  destruct c; [done|]. by rewrite Nat.sub_succ, Nat.sub_0_r.
Qed.

(** A length that is a multiple of the alignment. *)
Definition aligned (bs al : Z) (n : nat) : Prop := bs = al ∨ (Z.of_nat n * bs) mod al = 0.

Lemma take_rows_id cs n : rows_len cs n → take n <$> cs = cs.
Proof.
  intros [_ HF]. induction HF as [|c cs Hc HF IH]; [done|]. cbn. rewrite IH. f_equal.
  apply take_ge. lia.
Qed.

Lemma take_rows_take cs (k n : nat) : (k ≤ n)%nat → take k <$> (take n <$> cs) = take k <$> cs.
Proof.
  intros Hk. rewrite <- list_fmap_compose. apply list_fmap_ext. intros _ c _. cbn.
  rewrite take_take. f_equal. lia.
Qed.

(** The largest aligned length not above [n]. *)
Definition align_floor (bs al : Z) (n n' : nat) : Prop :=
  (n' ≤ n)%nat ∧ aligned bs al n' ∧ ∀ k, (n' < k ≤ n)%nat → ¬ aligned bs al k.

Lemma align_loop_spec fuel bs al cs n :
  0 < al → rows_len cs n → (n < fuel)%nat →
  ∃ n', align_loop fuel bs al cs = Ok (take n' <$> cs) ∧ align_floor bs al n n'.
Proof.
  intros Hal. revert cs n. induction fuel as [|fuel IH]; intros cs n Hr Hf; [lia|]. cbn [align_loop].
  destruct (Z.eqb_spec bs al) as [E|E].
  { exists n. rewrite take_rows_id by done. split; [done|]. split_and!; [lia|by left|lia]. }
  destruct (rows_first cs n Hr) as (l & -> & Hl). unfold mbind at 1; cbn [result_bind]. rewrite Hl.
  destruct (Z.eqb_spec ((Z.of_nat n * bs) mod al) 0) as [E0|E0].
  { exists n. rewrite take_rows_id by done. split; [done|]. split_and!; [lia|by right|lia]. }
  destruct n as [|n]; [by rewrite Z.mul_0_l, Z.mod_0_l in E0 by lia|].
  rewrite (pop_all_rows cs n Hr). unfold mbind at 1; cbn [result_bind].
  destruct (IH (take n <$> cs) n) as (n' & -> & Hle & Hal' & Hmax); [|lia|].
  { eapply rows_len_take; [exact Hr|lia]. }
  exists n'. rewrite take_rows_take by lia. split; [done|]. split_and!; [lia|done|].
  intros k Hk. destruct (decide (k = S n)) as [->|]; [|apply Hmax; lia].
  intros [?|?]; done.
Qed.

Lemma align_down_spec bs al cs n :
  0 < al → rows_len cs n →
  ∃ n', align_down bs al cs = Ok (take n' <$> cs) ∧ align_floor bs al n n'.
Proof.
  intros Hal Hr. unfold align_down. apply align_loop_spec; [done|done|].
  destruct Hr as [Hne HF]. destruct cs as [|c cs]; [done|]. inversion_clear HF. cbn. lia.
Qed.

(** The number of blocks the EAGLE drop removes. *)
Definition eagle_pop (drop : bool) (n : nat) : nat := if drop && (0 <? n)%nat then 1 else 0.

Lemma drop_eagle_spec d cs n :
  rows_len cs n →
  drop_eagle d cs = Ok (take (n - eagle_pop d n) <$> cs, d && (0 <? n)%nat).
Proof.
  intros Hr. unfold drop_eagle, eagle_pop. destruct d; cbn [andb].
  - destruct (rows_first cs n Hr) as (l & -> & Hl). unfold mbind at 1; cbn [result_bind].
    destruct l as [|x l], n as [|n]; try done.
    + by rewrite take_rows_id.
    + rewrite (pop_all_rows cs n Hr). cbn. by rewrite Nat.sub_0_r.
  - by rewrite Nat.sub_0_r, take_rows_id.
Qed.

(** The blocks of one group for the first [n] hashes. *)
Definition full_row p (hs : list bytes) (n : nat) (g : Z) (c : list nat) : Prop :=
  length c = n ∧
  ∀ j h, (j < n)%nat → hs !! j = Some h → ∃ b, c !! j = Some b ∧ owns p b (group_key h g).

Lemma full_row_take p hs n k g c : (k ≤ n)%nat → full_row p hs n g c → full_row p hs k g (take k c).
Proof.
  intros Hk [Hl Hc]. split; [rewrite length_take; lia|]. intros j h Hj Hh.
  destruct (Hc j h) as (b & Hb & Ho); [lia|done|]. exists b. by rewrite lookup_take_lt.
Qed.

Lemma rows_take (P P' : Z → list nat → Prop) gids cs k :
  Forall2 P gids cs → (∀ g c, P g c → P' g (take k c)) → Forall2 P' gids (take k <$> cs).
Proof. intros HF H. induction HF; cbn; constructor; eauto. Qed.

Lemma full_scan_spec p gids (hs : list bytes) rest n cs :
  hash_wf p → gids_ok gids → drop n hs = rest → (n ≤ length hs)%nat →
  Forall2 (full_row p hs n) gids cs → (∀ j h, (j < n)%nat → hs !! j = Some h → cached_at p gids h) →
  ∃ (m : nat) cs', full_scan p gids rest cs = Ok cs' ∧ (n ≤ m ≤ length hs)%nat ∧
    Forall2 (full_row p hs m) gids cs' ∧
    (∀ j h, (j < m)%nat → hs !! j = Some h → cached_at p gids h) ∧
    (∀ h, hs !! m = Some h → ¬ cached_at p gids h).
Proof.
  intros Hwf Hg. revert n cs. induction rest as [|h rest IH]; intros n cs Hd Hn HF Hc; cbn [full_scan].
  { exists n, cs. split; [done|]. split; [lia|]. split_and!; try done.
    intros h Hh. rewrite <- (Nat.add_0_r n), <- lookup_drop, Hd in Hh. done. }
  assert (hs !! n = Some h) as Hh by (by rewrite <- (Nat.add_0_r n), <- lookup_drop, Hd).
  destruct (lookup_block_spec p h gids Hwf Hg) as [(bs & -> & Hca & Hbs)|[-> Hno]];
    unfold mbind at 1; cbn [result_bind].
  - destruct (IH (S n) (zip_append cs bs)) as (m & cs' & E & Hm & HF' & Hc' & Hmax).
    + rewrite <- Nat.add_1_r, <- drop_drop, Hd. done.
    + apply lookup_lt_Some in Hh. lia.
    + eapply zip_append_rows; [exact HF|exact Hbs|]. cbn. intros g c b [Hl Hrow] Hb.
      split; [rewrite length_app; cbn; lia|]. intros j h' Hj Hh'.
      destruct (decide (j = n)) as [->|Hne].
      * exists b. rewrite <- Hl, list_lookup_middle by done. split; [done|]. by simplify_eq.
      * destruct (Hrow j h') as (b' & Hb' & Ho); [lia|done|]. exists b'.
        rewrite lookup_app_l by lia. done.
    + intros j h' Hj Hh'. destruct (decide (j = n)) as [->|]; [by simplify_eq|]. eapply Hc; [|done]. lia.
    + exists m, cs'. split; [done|]. split; [lia|]. done.
  - exists n, cs. split; [done|]. split; [lia|]. split_and!; try done.
    intros h' Hh'. by simplify_eq.
Qed.

(** The blocks of one group in a right-to-left search: every entry is the null
    block or a hit for its hash, and the entries [lo .. hi) are hits. *)
Definition swa_row p (H : nat → bytes) (k lo hi : nat) (g : Z) (c : list nat) : Prop :=
  length c = k ∧
  (∀ j, (j < k)%nat → ∃ b, c !! j = Some b ∧ (b = null_block p ∨ owns p b (group_key (H j) g))) ∧
  (∀ j, (lo ≤ j < hi)%nat → ∃ b, c !! j = Some b ∧ owns p b (group_key (H j) g)).

Lemma swa_row_take p H k lo hi g c n :
  (n ≤ k)%nat → swa_row p H k lo hi g c → swa_row p H n lo (hi `min` n) g (take n c).
Proof.
  intros Hn (Hl & Hany & Hhit). split_and!; [rewrite length_take; lia|..]; intros j Hj.
  - destruct (Hany j) as (b & Hb & Ho); [lia|]. exists b. by rewrite lookup_take_lt.
  - destruct (Hhit j) as (b & Hb & Ho); [lia|]. exists b. rewrite lookup_take_lt by lia. done.
Qed.

Lemma swa_row_weaken p H k lo hi lo' hi' g c :
  (lo ≤ lo')%nat → (hi' ≤ hi)%nat → swa_row p H k lo hi g c → swa_row p H k lo' hi' g c.
Proof. intros H1 H2 (Hl & Hany & Hhit). split_and!; [done..|]. intros j Hj. apply Hhit. lia. Qed.

Lemma swa_row_set p H k i hi g c b :
  (i < k)%nat → swa_row p H k (S i) hi g c → owns p b (group_key (H i) g) →
  swa_row p H k i hi g (<[i := b]> c).
Proof.
  intros Hi (Hl & Hany & Hhit) Hb. split_and!; [by rewrite length_insert|..]; intros j Hj;
    (destruct (decide (i = j)) as [<-|Hne];
      [exists b; rewrite list_lookup_insert_eq by lia; eauto|rewrite list_lookup_insert_ne by done]).
  - by apply Hany.
  - apply Hhit. lia.
Qed.

(** The right edge of the current run is where an aligned hit can end. *)
Definition swa_edge (bs al : Z) (drop : bool) (hi : nat) : Prop :=
  bs = al ∨ (Z.of_nat (if drop then hi - 1 else hi)%nat * bs) mod al = 0.

Section SwaScan.
Context p (hl : BlockHashList) (gids : list Z) (need bs al : Z) (drop : bool) (k : nat)
        (H : nat → bytes).
Hypothesis Hwf : hash_wf p.
Hypothesis Hg : gids_ok gids.
Hypothesis Hhl : ∀ i, (i < k)%nat → hl_get hl (Z.of_nat i) = Ok (H i).

Lemma swa_scan_spec i (c : nat) cs :
  (i + c ≤ k)%nat → Forall2 (swa_row p H k i (i + c)) gids cs →
  ((0 < c)%nat → swa_edge bs al drop (i + c)) →
  ∃ cs' (n : nat) (found : bool),
    swa_scan hl gids p need bs al drop i (Z.of_nat c) cs
      = Ok (cs', Z.of_nat n, found) ∧
    if found then
      ∃ lo, Forall2 (swa_row p H (lo + n) lo (lo + n)) gids cs' ∧ need ≤ Z.of_nat n ∧ (0 < n)%nat ∧
        (lo + n ≤ k)%nat ∧ swa_edge bs al drop (lo + n)
    else Forall2 (swa_row p H k 0 n) gids cs' ∧ (n ≤ k)%nat ∧ ((0 < n)%nat → swa_edge bs al drop n).
Proof.
  revert c cs. induction i as [|i IH]; intros c cs Hik HF Hedge; cbn [swa_scan].
  { exists cs, c, false. split; [done|]. split_and!; [done|lia|done]. }
  rewrite Hhl by lia. unfold mbind at 1; cbn [result_bind].
  destruct (lookup_block_spec p (H i) gids Hwf Hg) as [(bs' & -> & Hca & Hbs)|[-> Hno]];
    unfold mbind at 1; cbn [result_bind]; cycle 1.
  { apply (IH 0%nat); [lia| |lia]. eapply Forall2_impl; [exact HF|]. intros g c'.
    intros (H1 & H2 & H3). split_and!; [done..|]. lia. }
  destruct ((Z.of_nat c =? 0) && negb (bs =? al) &&
    negb (((if drop then Z.of_nat i else Z.of_nat i + 1) * bs) mod al =? 0)) eqn:E.
  { apply andb_true_iff in E as [E _]. apply andb_true_iff in E as [E _]. zbool.
    assert (c = 0%nat) as -> by lia.
    apply (IH 0%nat); [lia| |lia]. eapply Forall2_impl; [exact HF|].
    intros g c' (H1 & H2 & H3). split_and!; [done..|]. lia. }
  assert (swa_edge bs al drop (i + S c)) as Hedge'.
  { destruct c as [|c]; [|replace (i + S (S c))%nat with (S i + S c)%nat by lia; apply Hedge; lia].
    rewrite Z.eqb_refl in E. cbn [andb] in E. unfold swa_edge.
    destruct (Z.eqb_spec bs al); [by left|]. cbn in E.
    destruct (Z.eqb_spec (((if drop then Z.of_nat i else Z.of_nat i + 1) * bs) mod al) 0) as [E2|]; [|done].
    right. rewrite <- E2. f_equal. f_equal. destruct drop; lia. }
  assert (Forall2 (swa_row p H k i (i + S c)) gids (zip_set i cs bs')) as HF'.
  { eapply zip_set_rows; [exact HF|exact Hbs|]. cbn. intros g c' b Hc' Hb.
    replace (i + S c)%nat with (S i + c)%nat by lia. apply swa_row_set; [lia|done|done]. }
  replace (Z.of_nat c + 1) with (Z.of_nat (S c)) by lia.
  destruct (Z.geb_spec (Z.of_nat (S c)) need) as [Hn|Hn].
  - eexists _, (S c), true. split; [done|]. exists i. rewrite Nat2Z.id.
    split_and!; [|lia|lia|lia|done].
    eapply rows_take; [exact HF'|]. intros g c' Hc'.
    eapply swa_row_weaken; [| |eapply swa_row_take; [|exact Hc']]; [done|lia|lia].
  - apply (IH (S c)); [lia|done|done].
Qed.

End SwaScan.

Lemma swa_edge_aligned bs al drop n :
  swa_edge bs al drop n → aligned bs al (n - eagle_pop drop n).
Proof.
  unfold swa_edge, aligned, eagle_pop. intros [?|Hm]; [by left|right].
  destruct drop; cbn [andb]; [|by rewrite Nat.sub_0_r].
  destruct (Nat.ltb_spec 0 n); [done|]. by replace (n - 0)%nat with (n - 1)%nat by lia.
Qed.

Lemma align_floor_aligned bs al n n' : aligned bs al n → align_floor bs al n n' → n' = n.
Proof.
  intros Ha (Hle & _ & Hmax). destruct (decide (n' = n)); [done|]. exfalso. apply (Hmax n); [lia|done].
Qed.

(** The sliding window search: what it returns is aligned, and the blocks the
    next token's window needs are all hits. *)
Lemma swa_find_spec p hl max_length gids spec drop al w (H : nat → bytes) :
  hash_wf p → gids_ok gids → sliding_window_of spec = Some w →
  0 < spec_block_size spec → 0 < al → 1 ≤ w →
  (∀ i, (i < Z.to_nat (max_length / spec_block_size spec))%nat →
        hl_get hl (Z.of_nat i) = Ok (H i)) →
  ∃ cs (n : nat), swa_find_longest_cache_hit hl max_length gids p spec drop al 1 1 = Ok cs ∧
    (n ≤ Z.to_nat (max_length / spec_block_size spec) ∧
     (drop = true → n ≤ Z.to_nat (max_length / spec_block_size spec) - 1))%nat ∧
    aligned (spec_block_size spec) al n ∧
    Forall2 (swa_row p H n (Z.to_nat (Z.of_nat n - cdiv (w - 1) (spec_block_size spec))) n) gids cs.
Proof.
  intros Hwf Hg Hw Hbs Hal Hw1 Hhl. unfold swa_find_longest_cache_hit. rewrite Hw. cbn [of_option]. cbv zeta.
  set (bs := spec_block_size spec) in *. set (k := Z.to_nat (max_length / bs)) in *.
  set (need := _contiguous_blocks_for_hit w bs drop).
  assert (0 ≤ cdiv (w - 1) bs) as Hcd by (apply cdiv_nonneg; lia).
  unfold mbind. change (1 =? 1) with true. cbn [require result_bind]. fold need.
  destruct (swa_scan_spec p hl gids need bs al drop k H Hwf Hg Hhl k 0
              (replicate (length gids) (replicate k (null_block p))))
    as (cs & n & found & E & Hres); [lia| |lia|].
  { clear. induction gids as [|g gids IH]; cbn; constructor; [|done].
    split_and!; [by rewrite length_replicate| |lia]. intros j Hj. exists (null_block p).
    split; [by apply lookup_replicate_2|by left]. }
  change (Z.of_nat 0) with 0 in E. rewrite E. cbn [result_bind].
  destruct found.
  - destruct Hres as (lo & HF & Hneed & Hn0 & Hle & Hedge). set (n0 := (lo + n)%nat) in *.
    assert (rows_len cs n0) as Hr by (eapply rows_len_of; [apply Hg|exact HF|]; by intros g c (? & _)).
    cbn [result_bind]. rewrite (drop_eagle_spec drop cs n0 Hr). cbn [result_bind].
    set (n1 := (n0 - eagle_pop drop n0)%nat).
    assert (aligned bs al n1) as Hal1 by (by apply swa_edge_aligned).
    assert (Forall2 (swa_row p H n1 (Z.to_nat (Z.of_nat n1 - cdiv (w - 1) bs)) n1) gids (take n1 <$> cs)) as HF1.
    { eapply rows_take; [exact HF|]. intros g c Hc.
      eapply swa_row_weaken; [| |eapply swa_row_take; [|exact Hc]]; [|lia|lia].
      unfold n1, eagle_pop, need, _contiguous_blocks_for_hit in *.
      assert ((0 <? n0)%nat = true) as -> by (apply Nat.ltb_lt; lia). destruct drop; cbn [andb]; lia. }
    exists (take n1 <$> cs), n1.
    assert ((if drop && (0 <? n0)%nat then align_down bs al (take n1 <$> cs) else Ok (take n1 <$> cs))
            = Ok (take n1 <$> cs)) as ->.
    { destruct (drop && _); [|done].
      destruct (align_down_spec bs al (take n1 <$> cs) n1 Hal) as (n' & -> & Hfl).
      - eapply rows_len_take; [exact Hr|lia].
      - apply align_floor_aligned in Hfl as ->; [|done]. by rewrite take_rows_take. }
    split; [done|]. split; [|by split]. split; [lia|]. intros ->. unfold n1, eagle_pop.
    assert ((0 <? n0)%nat = true) as -> by (apply Nat.ltb_lt; lia). cbn [andb]. lia.
  - destruct Hres as (HF & Hnk & _). rewrite Nat2Z.id.
    assert (rows_len (take n <$> cs) n) as Hr.
    { eapply rows_len_take; [|exact Hnk]. eapply rows_len_of; [apply Hg|exact HF|]. by intros g c (? & _). }
    change ((λ c : list nat, take n c) <$> cs) with (take n <$> cs).
    destruct (align_down_spec bs al (take n <$> cs) n Hal Hr) as (n1 & -> & Hfl1).
    destruct Hfl1 as (Hle1 & Hal1 & _). rewrite take_rows_take by done. cbn [result_bind].
    assert (rows_len (take n1 <$> cs) n1) as Hr1.
    { rewrite <- (take_rows_take cs n1 n) by done. eapply rows_len_take; [exact Hr|done]. }
    rewrite (drop_eagle_spec drop _ n1 Hr1). cbn [result_bind].
    set (n2 := (n1 - eagle_pop drop n1)%nat). rewrite take_rows_take by lia.
    assert (∃ n3, (if drop && (0 <? n1)%nat then align_down bs al (take n2 <$> cs) else Ok (take n2 <$> cs))
              = Ok (take n3 <$> cs) ∧ (n3 ≤ n2)%nat ∧ aligned bs al n3) as (n3 & -> & Hle3 & Hal3).
    { destruct (drop && (0 <? n1)%nat) eqn:Ed.
      - destruct (align_down_spec bs al (take n2 <$> cs) n2 Hal) as (n3 & -> & Hfl3).
        + rewrite <- (take_rows_take cs n2 n1) by lia. eapply rows_len_take; [exact Hr1|lia].
        + destruct Hfl3 as (? & ? & _). rewrite take_rows_take by done. eauto.
      - exists n2. split; [done|]. split; [lia|]. unfold n2, eagle_pop. rewrite Ed. by rewrite Nat.sub_0_r. }
    exists (take n3 <$> cs), n3. split; [done|]. split; [split; [lia|]|split; [done|]].
    { intros ->. unfold n2, eagle_pop in Hle3. destruct (Nat.ltb_spec 0 n1); cbn [andb] in Hle3; lia. }
    eapply rows_take; [exact HF|]. intros g c Hc.
    eapply swa_row_weaken; [| |eapply swa_row_take; [|exact Hc]]; lia.
Qed.

(** Mamba: a state snapshot at one aligned block. *)
Definition mamba_candidate p gids (H : nat → bytes) (bs al : Z) (j : nat) : Prop :=
  aligned bs al (S j) ∧ cached_at p gids (H j).

Lemma mamba_scan_spec p hl gids bs al (H : nat → bytes) i :
  hash_wf p → gids_ok gids → (∀ j, (j < i)%nat → hl_get hl (Z.of_nat j) = Ok (H j)) →
  ∃ cs, mamba_scan hl gids p bs al i (replicate (length gids) []) = Ok cs ∧
    ((∃ j, (j < i)%nat ∧ mamba_candidate p gids H bs al j ∧
        (∀ j', (j < j' < i)%nat → ¬ mamba_candidate p gids H bs al j') ∧
        Forall2 (λ g c, ∃ b, c = replicate j (null_block p) ++ [b] ∧ owns p b (group_key (H j) g)) gids cs) ∨
     (cs = replicate (length gids) [] ∧ ∀ j, (j < i)%nat → ¬ mamba_candidate p gids H bs al j)).
Proof.
  intros Hwf Hg. induction i as [|i IH]; intros Hhl; cbn [mamba_scan].
  { eexists. split; [done|]. right. split; [done|]. lia. }
  rewrite Hhl by lia. unfold mbind at 1; cbn [result_bind].
  assert (¬ mamba_candidate p gids H bs al i →
    ∃ cs, mamba_scan hl gids p bs al i (replicate (length gids) []) = Ok cs ∧
    ((∃ j, (j < S i)%nat ∧ mamba_candidate p gids H bs al j ∧
        (∀ j', (j < j' < S i)%nat → ¬ mamba_candidate p gids H bs al j') ∧
        Forall2 (λ g c, ∃ b, c = replicate j (null_block p) ++ [b] ∧ owns p b (group_key (H j) g)) gids cs) ∨
     (cs = replicate (length gids) [] ∧ ∀ j, (j < S i)%nat → ¬ mamba_candidate p gids H bs al j))) as Hskip.
  { intros Hnc. destruct IH as (cs & -> & [(j & Hj & Hc & Hmax & HF)|[-> Hno]]).
    - intros j Hj. apply Hhl. lia.
    - exists cs. split; [done|]. left. exists j. split_and!; [lia|done| |done].
      intros j' Hj'. destruct (decide (j' = i)) as [->|]; [done|]. apply Hmax. lia.
    - eexists. split; [done|]. right. split; [done|]. intros j Hj.
      destruct (decide (j = i)) as [->|]; [done|]. apply Hno. lia. }
  destruct (lookup_block_spec p (H i) gids Hwf Hg) as [(bs' & -> & Hca & Hbs)|[-> Hno]];
    unfold mbind at 1; cbn [result_bind]; cycle 1.
  { apply Hskip. by intros [_ ?]. }
  replace (Z.of_nat i + 1) with (Z.of_nat (S i)) by lia.
  destruct (negb (bs =? al) && negb ((Z.of_nat (S i) * bs) mod al =? 0)) eqn:E.
  { zbool. apply Hskip. intros [[?|?] _]; done. }
  eexists. split; [done|]. left. exists i. split_and!; [lia| |lia|].
  - split; [|done]. unfold aligned. destruct (Z.eqb_spec bs al); [by left|]. cbn in E. zbool. by right.
  - eapply (zip_extend_rows (λ _ c, c = [])); [|exact Hbs|].
    + clear. induction gids; cbn; by constructor.
    + cbn. intros g c b -> Hb. by exists b.
Qed.

(** Chunked local attention: nulls before the chunk, then leading hits. *)
Lemma chunked_scan_spec p hl gids (H : nat → bytes) (start k n : nat) cs :
  hash_wf p → gids_ok gids → (∀ j, (j < k)%nat → hl_get hl (Z.of_nat j) = Ok (H j)) →
  (start ≤ n ≤ k)%nat → Forall2 (swa_row p H n start n) gids cs →
  (∀ j, (start ≤ j < n)%nat → cached_at p gids (H j)) →
  ∃ cs' n', chunked_scan hl gids p (py_range (Z.of_nat n) (Z.of_nat k)) cs = Ok cs' ∧
    (n ≤ n' ≤ k)%nat ∧ Forall2 (swa_row p H n' start n') gids cs' ∧
    (∀ j, (start ≤ j < n')%nat → cached_at p gids (H j)) ∧
    ((n' < k)%nat → ¬ cached_at p gids (H n')).
Proof.
  intros Hwf Hg Hhl. remember (k - n)%nat as d eqn:Hd. revert n cs Hd.
  induction d as [|d IH]; intros n cs Hd Hn HF Hc.
  { assert (n = k) as -> by lia. unfold py_range. rewrite Z.sub_diag. cbn.
    exists cs, k. split_and!; try done; lia. }
  unfold py_range. replace (Z.of_nat k - Z.of_nat n) with (Z.succ (Z.of_nat d)) by lia.
  rewrite seqZ_cons by lia. cbn [chunked_scan]. rewrite Hhl by lia. unfold mbind at 1; cbn [result_bind].
  destruct (lookup_block_spec p (H n) gids Hwf Hg) as [(bs' & -> & Hca & Hbs)|[-> Hno]];
    unfold mbind at 1; cbn [result_bind].
  - destruct (IH (S n) (zip_append cs bs')) as (cs' & n' & E & Hn' & HF' & Hc' & Hmax); [lia|lia|..].
    + eapply zip_append_rows; [exact HF|exact Hbs|]. cbn. intros g c b (Hl & Hany & Hhit) Hb.
      assert (∀ j, (j < S n)%nat → (c ++ [b]) !! j = if decide (j = n) then Some b else c !! j) as Hlk.
      { intros j Hj. case_decide as Hjn; [subst; by apply list_lookup_middle|]. apply lookup_app_l. lia. }
      split_and!; [rewrite length_app; cbn; lia|..]; intros j Hj; rewrite Hlk by lia;
        (case_decide; [subst; by eauto|]).
      * apply Hany. lia.
      * apply Hhit. lia.
    + intros j Hj. destruct (decide (j = n)) as [->|]; [done|]. apply Hc. lia.
    + unfold py_range in E. replace (Z.of_nat k - Z.of_nat (S n)) with (Z.pred (Z.succ (Z.of_nat d))) in E by lia.
      replace (Z.of_nat (S n)) with (Z.succ (Z.of_nat n)) in E by lia.
      exists cs', n'. split_and!; try done; lia.
  - exists cs, n. split_and!; try done; lia.
Qed.

End HitFacts.

(** ** Facts: the caching mask of the sliding window manager *)

Lemma set_mask_lookup start idxs (mask : list bool) (j : nat) :
  Forall (λ i, start ≤ i) idxs → (j < length mask)%nat →
  set_mask start idxs mask !! j
  = Some (bool_decide (start + Z.of_nat j ∈ idxs) || default false (mask !! j)).
Proof.
  intros HF. revert mask. induction HF as [|i idxs Hi HF IH]; intros mask Hj; cbn.
  { rewrite bool_decide_eq_false_2 by apply not_elem_of_nil. cbn.
    destruct (lookup_lt_is_Some_2 mask j Hj) as [b ->]. done. }
  fold (set_mask start idxs (<[Z.to_nat (i - start) := true]> mask)).
  rewrite IH by (by rewrite length_insert). f_equal.
  destruct (decide (start + Z.of_nat j = i)) as [E|E].
  - rewrite (bool_decide_eq_true_2 (_ ∈ i :: _)) by (rewrite E; by apply list_elem_of_here).
    replace (Z.to_nat (i - start)) with j by lia. rewrite list_lookup_insert_eq by done.
    apply orb_true_r.
  - rewrite list_lookup_insert_ne by lia. f_equal.
    apply bool_decide_ext. rewrite elem_of_cons. naive_solver.
Qed.

Lemma length_set_mask start idxs mask : length (set_mask start idxs mask) = length mask.
Proof.
  revert mask. induction idxs as [|i idxs IH]; intros mask; cbn; [done|].
  fold (set_mask start idxs (<[Z.to_nat (i - start) := true]> mask)). by rewrite IH, length_insert.
Qed.

(** Block [i] is one of the [need] blocks whose right edge is [shift] blocks
    after the boundary at [n] blocks. *)
Definition in_tail (need shift n i : Z) : Prop := n + shift - need ≤ i < n + shift.

Lemma tail_of_segment need shift per i :
  0 < per → need < per → 0 ≤ shift →
  (shift ≤ i ∧ per - need ≤ (i - shift) mod per) ↔
  (shift ≤ i ∧ ∃ q, 1 ≤ q ∧ in_tail need shift (q * per) i).
Proof.
  intros Hper Hneed Hs. unfold in_tail. split; intros [Hi H]; (split; [done|]).
  - exists ((i - shift) / per + 1). pose proof (Z.div_mod (i - shift) per ltac:(lia)).
    pose proof (Z.mod_pos_bound (i - shift) per Hper).
    assert (0 ≤ (i - shift) / per) by (apply Z.div_pos; lia). split; [lia|]. nia.
  - destruct H as (q & Hq & H). assert ((i - shift) / per = q - 1) as Hd by (symmetry; apply Z.div_unique with (i - shift - per * (q - 1)); nia).
    pose proof (Z.div_mod (i - shift) per ltac:(lia)). rewrite Hd in *. nia.
Qed.

Lemma div_pos_of_multiple a b : 0 < b → 0 < a → a mod b = 0 → 0 < a / b.
Proof. intros Hb Ha Hm. pose proof (Z.div_mod a b ltac:(lia)). nia. Qed.

Section SwaMask.
Context (start end_ al bs need shift nprompt : Z) (retention : option Z).

(** The blocks a later lookup can use: the tails of the segments, and with
    sparse retention the tail of the replay boundary. *)
Definition swa_tail (i : Z) : Prop :=
  (shift ≤ i ∧ ∃ q seg, 1 ≤ q ∧ seg = default al retention ∧ seg ≠ 0 ∧
     in_tail need shift (q * (seg / bs)) i) ∨
  (retention ≠ None ∧ in_tail need shift ((nprompt - 1) / al * al / bs) i).

(** The two stages of the mask. *)
Definition segment_idxs (seg : Z) : list Z :=
  filter (λ i, shift ≤ i ∧ seg / bs - need ≤ (i - shift) mod (seg / bs)) (py_range start end_).
Definition replay_mask (msk : list bool) : list bool :=
  match retention with
  | Some _ => set_mask start (py_range (Z.max start ((nprompt - 1) / al * al / bs + shift - need))
                (Z.min end_ ((nprompt - 1) / al * al / bs + shift))) msk
  | None => msk
  end.

Lemma replay_mask_lookup msk b i :
  start ≤ i < end_ → length msk = Z.to_nat (end_ - start) → msk !! Z.to_nat (i - start) = Some b →
  replay_mask msk !! Z.to_nat (i - start)
  = Some (bool_decide (retention ≠ None ∧ in_tail need shift ((nprompt - 1) / al * al / bs) i) || b).
Proof.
  intros Hi Hl Hb. unfold replay_mask. destruct retention as [r|]; cycle 1.
  { rewrite bool_decide_eq_false_2 by tauto. done. }
  rewrite set_mask_lookup, Hb.
  - replace (start + Z.of_nat (Z.to_nat (i - start))) with i by lia. cbn. f_equal. f_equal.
    apply bool_decide_ext. unfold py_range, in_tail. rewrite elem_of_seqZ.
    split; [intros; split; [done|lia]|]. intros [_ ?]. lia.
  - unfold py_range. apply Forall_forall. intros x Hx%elem_of_seqZ. lia.
  - lia.
Qed.

Lemma segment_idxs_spec seg i :
  start ≤ i < end_ → 0 < seg / bs → need < seg / bs → 0 ≤ shift → seg = default al retention → seg ≠ 0 →
  i ∈ segment_idxs seg ↔
  shift ≤ i ∧ ∃ q seg, 1 ≤ q ∧ seg = default al retention ∧ seg ≠ 0 ∧ in_tail need shift (q * (seg / bs)) i.
Proof.
  intros Hi Hper Hlt Hs Es Hne. unfold segment_idxs. rewrite list_elem_of_filter.
  unfold py_range. rewrite elem_of_seqZ, (tail_of_segment need shift (seg / bs) i) by done. split.
  - intros [[? (q & ? & ?)] _]. split; [done|]. by exists q, seg.
  - intros [? (q & s & ? & -> & ? & ?)]. split; [|lia]. split; [done|]. exists q. by rewrite Es.
Qed.

Lemma segment_mask_lookup seg i :
  start ≤ i < end_ →
  set_mask start (segment_idxs seg) (replicate (Z.to_nat (end_ - start)) false) !! Z.to_nat (i - start)
  = Some (bool_decide (i ∈ segment_idxs seg)).
Proof.
  intros Hi. rewrite set_mask_lookup.
  - replace (start + Z.of_nat (Z.to_nat (i - start))) with i by lia.
    rewrite lookup_replicate_2 by lia. cbn. by rewrite orb_false_r.
  - unfold segment_idxs. apply Forall_forall. intros x [_ Hx]%list_elem_of_filter.
    unfold py_range in Hx. apply elem_of_seqZ in Hx. lia.
  - rewrite length_replicate. lia.
Qed.

(** Segment stage and replay stage together keep exactly the usable blocks. *)
Lemma segment_replay_exact seg i :
  start ≤ i < end_ → 0 < seg / bs → need < seg / bs → 0 ≤ shift → seg = default al retention → seg ≠ 0 →
  replay_mask (set_mask start (segment_idxs seg) (replicate (Z.to_nat (end_ - start)) false))
    !! Z.to_nat (i - start) = Some true ↔ swa_tail i.
Proof.
  intros Hi Hper Hlt Hs Es Hne.
  rewrite (replay_mask_lookup _ (bool_decide (i ∈ segment_idxs seg)) i Hi);
    [|by rewrite length_set_mask, length_replicate|by apply segment_mask_lookup].
  rewrite (inj_iff Some), orb_true_iff, !bool_decide_eq_true, segment_idxs_spec by done.
  unfold swa_tail. tauto.
Qed.

Lemma replay_only_exact i :
  start ≤ i < end_ → retention = Some 0 →
  replay_mask (replicate (Z.to_nat (end_ - start)) false) !! Z.to_nat (i - start) = Some true ↔ swa_tail i.
Proof.
  intros Hi Hr. rewrite (replay_mask_lookup _ false i Hi);
    [|by rewrite length_replicate|apply lookup_replicate_2; lia].
  rewrite (inj_iff Some), orb_true_iff, bool_decide_eq_true. unfold swa_tail. rewrite Hr. split.
  - intros [?|?]; [by right|done].
  - intros [(_ & q & seg & _ & -> & Hne & _)|?]; [done|by left].
Qed.

End SwaMask.

(** A hash list that reads as [hs], by index and by iteration. *)
Definition hl_reads (hl : BlockHashList) (hs : list bytes) : Prop :=
  hl_iter hl = Ok hs ∧
  ∀ i, (i < length hs)%nat → hl_get hl (Z.of_nat i) = Ok (default [] (hs !! i)).

Lemma hl_reads_list hs : hl_reads (HashList hs) hs.
Proof.
  split; [done|]. intros i Hi. cbn. destruct (lookup_lt_is_Some_2 hs i Hi) as [h Hh].
  rewrite Hh. by apply py_get_nat.
Qed.

Lemma hl_reads_view hs (k : nat) :
  (0 < k)%nat →
  hl_reads (HashView (mkHashView hs (Z.of_nat k)))
    (view_hash hs k <$> py_range 0 (zlen hs / Z.of_nat k)).
Proof.
  intros Hk. assert (0 ≤ zlen hs / Z.of_nat k) by (apply Z.div_pos; lia). split.
  - cbn. unfold hv_iter, hv_len. cbn. apply mapR_Ok. unfold py_range.
    intros i Hi%elem_of_seqZ. apply view_get_ok; [done|lia].
  - intros i Hi. rewrite length_fmap in Hi. unfold py_range in *. rewrite length_seqZ in Hi.
    rewrite list_lookup_fmap, lookup_seqZ_lt by lia. cbn [hl_get fmap option_fmap option_map from_option].
    rewrite Z.add_0_l. apply view_get_ok; [done|lia].
Qed.

Section FindFacts.
Context {Q : Type} `{!FreeQueueOps Q} {env : PoolEnv}.
Implicit Types (p : BlockPool Q).

Lemma full_find_ok p hl hs gids spec drop al max_length :
  hash_wf p → gids_ok gids → is_full_attention spec = true →
  0 < spec_block_size spec → 0 < al → 0 ≤ max_length → hl_reads hl hs →
  let hs' := take (Z.to_nat (max_length / spec_block_size spec)) hs in
  ∃ cs (m n : nat),
    cls_find_longest_cache_hit FullAttentionManager hl max_length gids p spec drop al 1 1 = Ok cs ∧
    (m ≤ length hs')%nat ∧
    (∀ j h, (j < m)%nat → hs' !! j = Some h → cached_at p gids h) ∧
    (∀ h, hs' !! m = Some h → ¬ cached_at p gids h) ∧
    align_floor (spec_block_size spec) al (m - eagle_pop drop m) n ∧
    Z.of_nat n * spec_block_size spec ≤ max_length ∧
    Forall2 (full_row p hs' n) gids cs.
Proof.
  intros Hwf Hg Hspec Hbs Hal Hmax Hhl hs'. cbn [cls_find_longest_cache_hit]. unfold full_find_longest_cache_hit.
  rewrite Hspec. cbn [orb require]. change (1 * 1 >? 1) with false. cbv iota zeta.
  assert (0 ≤ max_length / spec_block_size spec) as Hdiv by (apply Z.div_pos; lia).
  rewrite (proj2 (Z.leb_le 0 _) Hdiv). destruct Hhl as [-> _]. unfold mbind. cbn [result_bind require].
  fold hs'.
  destruct (full_scan_spec p gids hs' hs' 0 (replicate (length gids) []) Hwf Hg)
    as (m & cs & -> & Hm & HF & Hc & Hno); [done|lia| |lia|].
  { clear. induction gids; cbn; constructor; [|done]. split; [done|]. intros. lia. }
  cbn [result_bind].
  assert (rows_len cs m) as Hr by (eapply rows_len_of; [apply Hg|exact HF|]; by intros g c [? _]).
  rewrite (drop_eagle_spec drop cs m Hr). cbn [result_bind].
  destruct (align_down_spec (spec_block_size spec) al (take (m - eagle_pop drop m) <$> cs)
              (m - eagle_pop drop m) Hal) as (n & -> & Hfl).
  { eapply rows_len_take; [exact Hr|lia]. }
  pose proof Hfl as (Hle & _ & _). rewrite take_rows_take by done.
  exists (take n <$> cs), m, n. split; [done|]. split; [lia|]. split; [done|]. split; [done|].
  split; [done|]. split.
  - assert (n ≤ length hs')%nat as Hn by lia. unfold hs' in Hn. rewrite length_take in Hn.
    pose proof (Z.mul_div_le max_length (spec_block_size spec) Hbs). nia.
  - eapply rows_take; [exact HF|]. intros g c Hrow. eapply full_row_take; [|exact Hrow]. lia.
Qed.

Lemma chunked_find_ok p hl hs gids spec ch max_length :
  hash_wf p → gids_ok gids → chunk_size_of spec = Some ch →
  0 < spec_block_size spec → 0 < ch → 0 ≤ max_length → hl_reads hl hs →
  max_length / spec_block_size spec ≤ zlen hs →
  let H := λ i, default [] (hs !! i) in
  let start := Z.to_nat (max_length / ch * ch / spec_block_size spec) in
  let k := Z.to_nat (max_length / spec_block_size spec) in
  ∃ cs n, cls_find_longest_cache_hit (ChunkedLocalAttentionManager ch) hl max_length gids p spec false
            (spec_block_size spec) 1 1 = Ok cs ∧
    (start ≤ n ≤ k)%nat ∧ (∀ j, (start ≤ j < n)%nat → cached_at p gids (H j)) ∧
    ((n < k)%nat → ¬ cached_at p gids (H n)) ∧
    Forall2 (swa_row p H n start n) gids cs.
Proof.
  intros Hwf Hg Hspec Hbs Hch Hmax Hhl Hk H start k. cbn [cls_find_longest_cache_hit]. unfold chunked_find_longest_cache_hit.
  rewrite Hspec. cbn [of_option negb]. change (1 =? 1) with true. rewrite Z.eqb_refl.
  unfold mbind. cbn [require result_bind]. cbv zeta.
  assert (0 ≤ max_length / ch * ch ≤ max_length) as Hc.
  { pose proof (Z.div_pos max_length ch Hmax Hch). pose proof (Z.mul_div_le max_length ch Hch). nia. }
  assert (0 ≤ max_length / ch * ch / spec_block_size spec) by (apply Z.div_pos; lia).
  assert (max_length / ch * ch / spec_block_size spec ≤ max_length / spec_block_size spec)
    by (apply Z.div_le_mono; lia).
  assert ((if max_length >? 0 then max_length / ch * ch else 0) = max_length / ch * ch) as ->.
  { destruct (Z.gtb_spec max_length 0); [done|]. by replace max_length with 0 by lia. }
  destruct (chunked_scan_spec p hl gids H start k start
              (replicate (length gids) (replicate start (null_block p)))) as (cs & n & E & Hn & HF & Hca & Hno).
  - done.
  - done.
  - intros j Hj. apply Hhl. lia.
  - lia.
  - clear. induction gids as [|g gids IH]; cbn; constructor; [|done].
    split_and!; [by rewrite length_replicate| |lia]. intros j Hj. exists (null_block p).
    split; [by apply lookup_replicate_2|by left].
  - lia.
  - exists cs, n. refine (conj _ (conj Hn (conj Hca (conj Hno HF)))). rewrite <- E. unfold start, k. by rewrite !Z2Nat.id by lia.
Qed.

(** A search that the class supports for the spec. *)
Definition findable (cls : manager_class) (spec : KVCacheSpec) (drop : bool) (al : Z) : Prop :=
  match cls with
  | FullAttentionManager | RSWAManager _ => is_full_attention spec = true
  | SlidingWindowManager w => sliding_window_of spec = Some w ∧ 1 ≤ w
  | ChunkedLocalAttentionManager ch =>
      chunk_size_of spec = Some ch ∧ 0 < ch ∧ drop = false ∧ spec_block_size spec = al
  | MambaManager _ _ => is_mamba spec = true ∧ drop = false
  | CrossAttentionManager => False
  end.

(** The positions of a hit of [n] blocks that the next token attends to. *)
Definition attended (spec : KVCacheSpec) (n j : nat) : Prop :=
  match spec_type spec with
  | SlidingWindowSpec w | SlidingWindowMLASpec w =>
      Z.of_nat n - cdiv (w - 1) (spec_block_size spec) ≤ Z.of_nat j
  | ChunkedLocalAttentionSpec _ => False
  | MambaSpec _ _ => S j = n
  | _ => True
  end.

(** Each entry of a row is the null block or carries the hash of its
    position, and the attended ones carry it. *)
Definition hit_row p (spec : KVCacheSpec) (H : nat → bytes) (n : nat) (g : Z) (c : list nat) : Prop :=
  length c = n ∧
  ∀ j, (j < n)%nat → ∃ b, c !! j = Some b ∧ (b = null_block p ∨ owns p b (group_key (H j) g)) ∧
    (attended spec n j → owns p b (group_key (H j) g)).

(** Every search returns, and returns aligned rows of hits within bounds. *)
Lemma find_hit_ok cls p hl hs gids spec drop al max_length :
  hash_wf p → gids_ok gids → findable cls spec drop al →
  0 < spec_block_size spec → 0 < al → 0 ≤ max_length → hl_reads hl hs →
  max_length / spec_block_size spec ≤ zlen hs →
  let k := Z.to_nat (max_length / spec_block_size spec) in
  ∃ cs n, cls_find_longest_cache_hit cls hl max_length gids p spec drop al 1 1 = Ok cs ∧
    aligned (spec_block_size spec) al n ∧ (n ≤ k ∧ (drop = true → n ≤ k - 1))%nat ∧
    Forall2 (hit_row p spec (λ i, default [] (hs !! i)) n) gids cs.
Proof.
  intros Hwf Hg Hf Hbs Hal Hmax Hhl Hlen k.
  assert (is_full_attention spec = true → ∃ cs n,
    cls_find_longest_cache_hit FullAttentionManager hl max_length gids p spec drop al 1 1 = Ok cs ∧
    aligned (spec_block_size spec) al n ∧ (n ≤ k ∧ (drop = true → n ≤ k - 1))%nat ∧
    Forall2 (hit_row p spec (λ i, default [] (hs !! i)) n) gids cs) as Hfull.
  { intros Hfa. destruct (full_find_ok p hl hs gids spec drop al max_length Hwf Hg Hfa Hbs Hal Hmax Hhl)
      as (cs & m & n & E & Hm & _ & _ & (Hle & Ha & _) & _ & HF).
    rewrite length_take in Hm. fold k in Hm. exists cs, n. split; [done|]. split; [done|]. split.
    - split; [lia|]. intros ->. unfold eagle_pop in Hle. destruct (Nat.ltb_spec 0 m); cbn [andb] in Hle; lia.
    - eapply Forall2_impl; [exact HF|]. intros g c [Hl Hrow]. split; [done|]. intros j Hj.
      destruct (lookup_lt_is_Some_2 hs j ltac:(lia)) as [h Hh].
      destruct (Hrow j h Hj) as (b & Hb & Ho); [by rewrite lookup_take_lt by lia|].
      exists b. rewrite Hh. split; [done|]. by split; [right|]. }
  destruct cls as [|w|w|ch|a ns|]; cbn [findable] in Hf; [by apply Hfull|by apply Hfull| | | |done].
  - destruct Hf as [Hw Hw1].
    destruct (swa_find_spec p hl max_length gids spec drop al w (λ i, default [] (hs !! i)))
      as (cs & n & E & Hn & Ha & HF); try done.
    { intros i Hi. apply Hhl. lia. }
    exists cs, n. split; [exact E|]. split; [done|]. split; [exact Hn|].
    eapply Forall2_impl; [exact HF|]. intros g c (Hl & Hany & Hhit). split; [done|]. intros j Hj.
    destruct (Hany j Hj) as (b & Hb & Ho). exists b. split; [done|]. split; [done|]. intros Hat.
    assert (Z.of_nat n - cdiv (w - 1) (spec_block_size spec) ≤ Z.of_nat j).
    { unfold attended in Hat. unfold sliding_window_of in Hw. destruct (spec_type spec); congruence. }
    destruct (Hhit j) as (b' & Hb' & Ho'); [lia|]. congruence.
  - destruct Hf as (Hc & Hc0 & -> & <-).
    destruct (chunked_find_ok p hl hs gids spec ch max_length) as (cs & n & E & Hn & _ & _ & HF); try done.
    exists cs, n. split; [exact E|]. split; [by left|]. split; [split; [apply Hn|done]|].
    eapply Forall2_impl; [exact HF|]. intros g c (Hl & Hany & _). split; [done|]. intros j Hj.
    destruct (Hany j Hj) as (b & Hb & Ho). exists b. split; [done|]. split; [done|].
    unfold attended, chunk_size_of in *. by destruct (spec_type spec).
  - destruct Hf as [Hma ->]. cbn [cls_find_longest_cache_hit]. unfold mamba_find_longest_cache_hit.
    rewrite Hma. change (1 =? 1) with true. unfold mbind. cbn [require result_bind]. fold k.
    destruct (mamba_scan_spec p hl gids (spec_block_size spec) al (λ i, default [] (hs !! i)) k Hwf Hg)
      as (cs & -> & [(j & Hj & [Ha _] & _ & HF)|[-> _]]).
    { intros j Hj. apply Hhl. unfold k in *. lia. }
    + exists cs, (S j). split; [done|]. split; [done|]. split; [split; [lia|done]|].
      eapply Forall2_impl; [exact HF|]. intros g c (b & -> & Hb).
      split; [rewrite length_app, length_replicate; cbn; lia|]. intros i Hi.
      destruct (decide (i = j)) as [->|Hne].
      * exists b. rewrite lookup_app_r, length_replicate, Nat.sub_diag by (rewrite length_replicate; lia).
        split; [done|]. by split; [right|].
      * exists (null_block p). rewrite lookup_app_l by (rewrite length_replicate; lia).
        split; [apply lookup_replicate_2; lia|]. split; [by left|]. intros Hat.
        unfold attended, is_mamba in *. destruct (spec_type spec); try done. congruence.
    + exists (replicate (length gids) []), 0%nat. split; [done|]. split; [right; by rewrite Z.mul_0_l, Z.mod_0_l by lia|].
      split; [lia|]. clear. induction gids; cbn; constructor; [|done]. split; [done|]. lia.
Qed.

End FindFacts.

Section HitClaims.
Context {Q : Type} `{!FreeQueueOps Q} {env : PoolEnv}.
Implicit Types (p : BlockPool Q).

(** C33: the prefix-cache search of full attention is exact.  With [m] the
    number of leading block hashes (within the allowed length) that are
    cached for every group, the search returns for each group the blocks of
    the first [n] hashes, where [n] is the largest length allowed by the
    alignment that is at most [m] (at most [m - 1] when the EAGLE block is
    dropped); every returned block carries the hash of its position. *)
Theorem full_attention_hit_exact p hl hs gids spec drop al max_length
    (Hwf : hash_wf p) (Hg : gids_ok gids) (Hspec : is_full_attention spec = true)
    (Hbs : 0 < spec_block_size spec) (Hal : 0 < al) (Hmax : 0 ≤ max_length)
    (Hhl : hl_reads hl hs) :
  let hs' := take (Z.to_nat (max_length / spec_block_size spec)) hs in
  ∃ cs (m n : nat),
    cls_find_longest_cache_hit FullAttentionManager hl max_length gids p spec drop al 1 1 = Ok cs ∧
    (m ≤ length hs')%nat ∧
    (∀ j h, (j < m)%nat → hs' !! j = Some h → cached_at p gids h) ∧
    (∀ h, hs' !! m = Some h → ¬ cached_at p gids h) ∧
    align_floor (spec_block_size spec) al (m - eagle_pop drop m) n ∧
    Z.of_nat n * spec_block_size spec ≤ max_length ∧
    Forall2 (full_row p hs' n) gids cs.
Proof. by apply full_find_ok. Qed.

(** C34: a sliding-window hit is safe to resume from.  The search returns, for
    each group, a list whose length in tokens is aligned and within the
    allowed length; every block of the window of the next token (the last
    [ceil((w-1)/block_size)] entries) is a block that carries the hash of its
    position, and every other entry is the null block or such a block. *)
Theorem sliding_window_hit_sound p hl hs gids spec w drop al max_length
    (Hwf : hash_wf p) (Hg : gids_ok gids) (Hspec : sliding_window_of spec = Some w)
    (Hbs : 0 < spec_block_size spec) (Hal : 0 < al) (Hw : 1 ≤ w) (Hhl : hl_reads hl hs)
    (Hlen : max_length ≤ zlen hs * spec_block_size spec) :
  ∃ cs (n : nat),
    cls_find_longest_cache_hit (SlidingWindowManager w) hl max_length gids p spec drop al 1 1 = Ok cs ∧
    aligned (spec_block_size spec) al n ∧ (n ≤ Z.to_nat (max_length / spec_block_size spec))%nat ∧
    Forall2 (λ g c, length c = n ∧ ∀ j, (j < n)%nat → ∃ b, c !! j = Some b ∧
      (b = null_block p ∨ owns p b (group_key (default [] (hs !! j)) g)) ∧
      (Z.of_nat n - cdiv (w - 1) (spec_block_size spec) ≤ Z.of_nat j →
       owns p b (group_key (default [] (hs !! j)) g))) gids cs.
Proof.
  cbn [cls_find_longest_cache_hit].
  destruct (swa_find_spec p hl max_length gids spec drop al w (λ i, default [] (hs !! i)))
    as (cs & n & E & [Hn _] & Hal' & HF); try done.
  { intros i Hi. apply Hhl. assert (max_length / spec_block_size spec ≤ zlen hs); [|lia].
    apply Z.div_le_upper_bound; lia. }
  exists cs, n. split; [done|]. split; [done|]. split; [done|].
  eapply Forall2_impl; [exact HF|]. intros g c (Hl & Hany & Hhit). split; [done|].
  intros j Hj. destruct (Hany j Hj) as (b & Hb & Ho). exists b. split; [done|]. split; [done|].
  intros Hwin. destruct (Hhit j) as (b' & Hb' & Ho'); [lia|]. by simplify_eq.
Qed.

(** The caching mask of sliding-window groups keeps every block a later
    lookup can use.  A lookup that ends at a segment boundary needs the
    [need] blocks up to the boundary (one further with EAGLE); all of these
    are kept, as are those of the replay boundary under sparse retention;
    conversely a mask keeps no other block. *)
Theorem swa_mask_exact start end_ al spec w eagle retention nprompt mask
    (Hspec : sliding_window_of spec = Some w)
    (Hbs : 0 < spec_block_size spec) (Hal : 0 < al) (Hdiv : al mod spec_block_size spec = 0)
    (Hret : ∀ r, retention = Some r → 0 ≤ r ∧ r mod spec_block_size spec = 0)
    (Hmask : swa_reachable_block_mask start end_ (Some al) spec eagle retention (Some nprompt) = Ok mask) :
  let bs := spec_block_size spec in
  let need := _contiguous_blocks_for_hit w bs eagle in
  let shift := if eagle then 1 else 0 in
  let tail := swa_tail al bs need shift nprompt retention in
  ∀ i, start ≤ i < end_ →
    (tail i → unmasked mask (Z.to_nat (i - start)) = true) ∧
    (∀ msk, mask = Some msk → msk !! Z.to_nat (i - start) = Some true → tail i).
Proof.
  intros bs need shift tail i Hi. unfold swa_reachable_block_mask in Hmask. rewrite Hspec in Hmask.
  cbn [of_option] in Hmask. unfold mbind in Hmask. cbn [result_bind] in Hmask. cbv zeta in Hmask.
  fold bs in Hmask, Hdiv, Hbs, Hret. rewrite (proj2 (Z.eqb_eq _ _) Hdiv) in Hmask.
  cbn [require result_bind] in Hmask. fold need shift in Hmask.
  assert (0 ≤ shift) as Hs by (unfold shift; destruct eagle; lia).
  assert (∀ msk, Ok (Some msk) = Ok mask → (msk !! Z.to_nat (i - start) = Some true ↔ tail i) →
    (tail i → unmasked mask (Z.to_nat (i - start)) = true) ∧
    (∀ msk, mask = Some msk → msk !! Z.to_nat (i - start) = Some true → tail i)) as Hfin.
  { intros msk [= <-] Ht. split; [|by intros ? [= <-] ?%Ht]. intros Hm%Ht. unfold unmasked. by rewrite Hm. }
  assert (∀ seg, seg = default al retention → 0 < seg → seg mod bs = 0 →
    (if need >=? seg / bs then Ok None
     else Ok (Some (replay_mask start end_ al bs need shift nprompt retention
            (set_mask start (segment_idxs start end_ bs need shift seg)
               (replicate (Z.to_nat (end_ - start)) false))))) = Ok mask →
    (tail i → unmasked mask (Z.to_nat (i - start)) = true) ∧
    (∀ msk, mask = Some msk → msk !! Z.to_nat (i - start) = Some true → tail i)) as Hseg.
  { intros seg Es Hpos Hmod. destruct (Z.geb_spec need (seg / bs)) as [Hge|Hlt]; [by intros [= <-]|].
    intros E. eapply Hfin; [exact E|]. apply segment_replay_exact; try done; [|lia].
    by apply div_pos_of_multiple. }
  destruct retention as [r|]; [|exact (Hseg al eq_refl Hal Hdiv Hmask)].
  destruct (Hret r eq_refl) as [Hr0 Hrm].
  destruct (Z.eqb_spec r 0) as [->|Hr]; [|exact (Hseg r eq_refl ltac:(lia) Hrm Hmask)].
  eapply Hfin; [exact Hmask|].
  exact (replay_only_exact start end_ al bs need shift nprompt (Some 0) i Hi eq_refl).
Qed.

(** A chunked-local hit covers the current chunk.  The blocks before the
    chunk that contains the next token are not needed and are never looked up;
    from there on the search returns the longest run of leading blocks that
    are cached for every group, each carrying the hash of its position. *)
Theorem chunked_local_hit_exact p hl hs gids spec ch max_length
    (Hwf : hash_wf p) (Hg : gids_ok gids) (Hspec : chunk_size_of spec = Some ch)
    (Hbs : 0 < spec_block_size spec) (Hch : 0 < ch) (Hmax : 0 ≤ max_length)
    (Hhl : hl_reads hl hs) (Hlen : max_length ≤ zlen hs * spec_block_size spec) :
  let H := λ i, default [] (hs !! i) in
  let start := Z.to_nat (max_length / ch * ch / spec_block_size spec) in
  let k := Z.to_nat (max_length / spec_block_size spec) in
  ∃ cs n, cls_find_longest_cache_hit (ChunkedLocalAttentionManager ch) hl max_length gids p spec false
            (spec_block_size spec) 1 1 = Ok cs ∧
    (start ≤ n ≤ k)%nat ∧ (∀ j, (start ≤ j < n)%nat → cached_at p gids (H j)) ∧
    ((n < k)%nat → ¬ cached_at p gids (H n)) ∧
    Forall2 (swa_row p H n start n) gids cs.
Proof. apply chunked_find_ok; try done. apply Z.div_le_upper_bound; lia. Qed.

End HitClaims.

(** ** Witnesses: the pool with two cached blocks of two tokens *)

#[local] Existing Instance demo_env.

Definition demo_spec (k : spec_kind) : KVCacheSpec := mkSpec 2 k "fp16".
Definition demo_hashes : list bytes := block_hashes (toy [1; 2; 3; 4; 5]).

Lemma demo_gids_ok : gids_ok [0].
Proof. split; [done|]. constructor; [lia|constructor]. Qed.

Lemma full_attention_hit_exact_witness :
  cls_find_longest_cache_hit FullAttentionManager (HashList demo_hashes) 4 [0] demo_cached
    (demo_spec FullAttentionSpec) false 2 1 1 = Ok [[1; 2]%nat] ∧
  ∃ cs (n : nat), cls_find_longest_cache_hit FullAttentionManager (HashList demo_hashes) 4 [0] demo_cached
      (demo_spec FullAttentionSpec) false 2 1 1 = Ok cs ∧
    Forall2 (full_row demo_cached (take 2 demo_hashes) n) [0] cs.
Proof.
  split; [vm_compute; reflexivity|].
  destruct (full_attention_hit_exact demo_cached (HashList demo_hashes) demo_hashes [0]
              (demo_spec FullAttentionSpec) false 2 4 (proj2 demo_cached_wf) demo_gids_ok eq_refl
              ltac:(cbn; lia) ltac:(lia) ltac:(lia) (hl_reads_list _))
    as (cs & m & n & H1 & _ & _ & _ & _ & _ & H2).
  exists cs, n. split; [exact H1|exact H2].
Defined.

Lemma sliding_window_hit_sound_witness :
  cls_find_longest_cache_hit (SlidingWindowManager 3) (HashList demo_hashes) 4 [0] demo_cached
    (demo_spec (SlidingWindowSpec 3)) false 2 1 1 = Ok [[0; 2]%nat] ∧
  ∃ cs (n : nat), cls_find_longest_cache_hit (SlidingWindowManager 3) (HashList demo_hashes) 4 [0] demo_cached
    (demo_spec (SlidingWindowSpec 3)) false 2 1 1 = Ok cs ∧ aligned 2 2 n.
Proof.
  split; [vm_compute; reflexivity|].
  destruct (sliding_window_hit_sound demo_cached (HashList demo_hashes) demo_hashes [0]
              (demo_spec (SlidingWindowSpec 3)) 3 false 2 4 (proj2 demo_cached_wf) demo_gids_ok eq_refl
              ltac:(cbn; lia) ltac:(lia) ltac:(lia) (hl_reads_list _) ltac:(vm_compute; discriminate))
    as (cs & n & H1 & H2 & _).
  exists cs, n. split; [exact H1|exact H2].
Defined.

Lemma swa_mask_exact_witness :
  let mask := [false; false; false; true; true; false; false; true] in
  swa_tail 8 2 2 1 17 None 3 ∧ unmasked (Some mask) 3 = true.
Proof.
  intros mask.
  destruct (swa_mask_exact 0 8 8 (demo_spec (SlidingWindowSpec 3)) 3 true None 17
              (Some mask) eq_refl ltac:(cbn; lia) ltac:(lia) eq_refl
              ltac:(intros r [=]) ltac:(vm_compute; reflexivity) 3 ltac:(lia)) as [H1 H2].
  pose proof (H2 mask eq_refl eq_refl) as H. split; [exact H|exact (H1 H)].
Defined.

Lemma chunked_local_hit_exact_witness :
  ∃ cs (n : nat), cls_find_longest_cache_hit (ChunkedLocalAttentionManager 3) (HashList demo_hashes) 4 [0]
    demo_cached (demo_spec (ChunkedLocalAttentionSpec 3)) false 2 1 1 = Ok cs ∧ (1 ≤ n ≤ 2)%nat.
Proof.
  destruct (chunked_local_hit_exact demo_cached (HashList demo_hashes) demo_hashes [0]
              (demo_spec (ChunkedLocalAttentionSpec 3)) 3 4 (proj2 demo_cached_wf) demo_gids_ok eq_refl
              ltac:(cbn; lia) ltac:(lia) ltac:(lia) (hl_reads_list _) ltac:(vm_compute; discriminate))
    as (cs & n & H1 & H2 & _).
  exists cs, n. split; [exact H1|exact H2].
Defined.
