(* ===== verification/ManagerInv.v ===== *)
(** * Block ownership of the single-type managers

    The invariant that ties the block tables of the managers to the reference
    counts of the shared pool: the count of every block is the number of times
    it occurs in the block tables of all managers, and a block that a request
    has not cached yet belongs to that request alone and carries no hash.
    Every operation of a manager preserves it, stated relative to a frame [f],
    the references held by the other managers. *)

From S2P Require Import Prelude MathUtils Request BlockHash FreeQueue BlockPool.
From S2P Require Import SingleTypeManager.

Local Open Scope Z_scope.

(** ** Occurrences of a block in a block table *)

Definition table_occ (t : gmap string (list nat)) (i : nat) : nat :=
  map_fold (λ _ bs n, (occ i bs + n)%nat) 0%nat t.

Lemma table_occ_empty i : table_occ ∅ i = 0%nat.
Proof. apply map_fold_empty. Qed.

Lemma table_occ_delete t rid i :
  (table_occ (delete rid t) i + occ i (default [] (t !! rid)) = table_occ t i)%nat.
Proof.
  destruct (t !! rid) as [bs|] eqn:E; cbn [default from_option id].
  - unfold table_occ. rewrite (map_fold_delete_L _ _ rid bs t); [lia| |done]. intros; lia.
  - rewrite delete_id by done. rewrite occ_nil. lia.
Qed.

Lemma table_occ_insert t rid bs i :
  (table_occ (<[rid := bs]> t) i + occ i (default [] (t !! rid)) = table_occ t i + occ i bs)%nat.
Proof.
  rewrite <- (table_occ_delete t rid i), <- (table_occ_delete (<[rid := bs]> t) rid i).
  rewrite delete_insert_eq, lookup_insert_eq. cbn. lia.
Qed.

Lemma occ_le_table t rid i : (occ i (default [] (t !! rid)) ≤ table_occ t i)%nat.
Proof. rewrite <- (table_occ_delete t rid i). lia. Qed.

(** The settings of a manager that no operation changes. *)
Definition mgr_static m :=
  (mclass m, scheduler_block_size m, block_size m, kv_cache_spec m, mgr_enable_caching m,
   kv_cache_group_id m, m.(_null_block), use_eagle m, m.(_max_admission_blocks_per_request)).

Section ManagerInv.
Context {Q : Type} `{!FreeQueueOps Q} `{!FreeQueueSpec Q} {env : PoolEnv}.
Implicit Types (p : BlockPool Q) (l : list nat) (f : nat → nat).

Definition unhashed p (i : nat) : Prop := ∃ b, blocks p !! i = Some b ∧ block_hash b = None.

(** A manager configured for the pool. *)
Record mgr_ok p m : Prop := {
  mo_null : m.(_null_block) = 0%nat;
  mo_hbs : 0 < hash_block_size p;
  mo_bs : ∃ k : nat, (0 < k)%nat ∧ block_size m = Z.of_nat k * hash_block_size p;
  mo_caching : mgr_enable_caching m = enable_caching p;
  mo_gid : 0 ≤ kv_cache_group_id m < 2 ^ 32;
  mo_class :
    match mclass m with
    | SlidingWindowManager w =>
        sliding_window_of (kv_cache_spec m) = Some w ∧ 1 ≤ w ∧
        scheduler_block_size m mod spec_block_size (kv_cache_spec m) = 0
    | ChunkedLocalAttentionManager c => 0 < c
    | MambaManager _ _ => is_mamba (kv_cache_spec m) = true
    | _ => True
    end;
}.

(** The invariant; [f i] is the number of references to block [i] held
    elsewhere. *)
Record mgr_inv f m p l : Prop := {
  mi_pool : pool_wf p l;
  mi_ok : mgr_ok p m;
  mi_ref i b : blocks p !! i = Some b → i ≠ 0%nat →
    ref_cnt b = Z.of_nat (f i + table_occ (req_to_blocks m) i);
  mi_valid rid b : b ∈ req_blocks rid m → is_Some (blocks p !! b);
  mi_count rid n : num_cached_block m !! rid = Some n → 0 ≤ n ≤ zlen (req_blocks rid m);
  mi_fresh rid j b : enable_caching p = true → req_blocks rid m !! j = Some b → b ≠ 0%nat →
    default 0 (num_cached_block m !! rid) ≤ Z.of_nat j →
    (f b + table_occ (req_to_blocks m) b = 1)%nat ∧ unhashed p b;
}.

(** What an operation of one manager guarantees to the others: the blocks
    they have not cached yet stay theirs and stay without a hash. *)
Record frame f m p m' p' : Prop := {
  fr_config : pool_config p' = pool_config p;
  fr_static : mgr_static m' = mgr_static m;
  fr_fresh i : i ≠ 0%nat → (0 < f i)%nat → unhashed p i →
    unhashed p' i ∧ (table_occ (req_to_blocks m') i ≤ table_occ (req_to_blocks m) i)%nat;
}.

Lemma frame_refl f m p : frame f m p m p.
Proof. split; [done|done|]. intros i Hi Hf Hu. by split. Qed.

Lemma frame_trans f m1 p1 m2 p2 m3 p3 :
  frame f m1 p1 m2 p2 → frame f m2 p2 m3 p3 → frame f m1 p1 m3 p3.
Proof.
  intros [C1 S1 F1] [C2 S2 F2]. split; [congruence|congruence|].
  intros i Hi Hf Hu. destruct (F1 i Hi Hf Hu) as [Hu2 Hle]. destruct (F2 i Hi Hf Hu2). split; [done|lia].
Qed.

Lemma pool_valid p l p' l' i :
  pool_wf p l → pool_wf p' l' → pool_config p' = pool_config p →
  is_Some (blocks p !! i) ↔ is_Some (blocks p' !! i).
Proof.
  intros [Hc _] [Hc' _] E. rewrite !lookup_lt_is_Some.
  pose proof (wf_len _ _ Hc). pose proof (wf_len _ _ Hc'). unfold pool_config in E.
  assert (num_gpu_blocks p' = num_gpu_blocks p) by congruence. lia.
Qed.

Lemma mgr_ok_same p m p' m' :
  pool_config p' = pool_config p → mgr_static m' = mgr_static m → mgr_ok p m → mgr_ok p' m'.
Proof.
  unfold pool_config, mgr_static. intros Ep Em [H1 H2 H3 H4 H5 H6]. injection Ep as E1 E2 E3 E4 E5.
  injection Em as F1 F2 F3 F4 F5 F6 F7 F8 F9.
  split; rewrite ?E1, ?E2, ?E3, ?E4, ?E5, ?F1, ?F2, ?F3, ?F4, ?F5, ?F6, ?F7; done.
Qed.

(** A manager that differs only in empty table entries and in fields the
    invariant does not mention. *)
Lemma mgr_inv_ext f m m' p l :
  (∀ rid, req_blocks rid m' = req_blocks rid m) →
  (∀ i, table_occ (req_to_blocks m') i = table_occ (req_to_blocks m) i) →
  num_cached_block m' = num_cached_block m → mgr_static m' = mgr_static m →
  mgr_inv f m p l → mgr_inv f m' p l ∧ frame f m p m' p.
Proof.
  intros Hreq Hocc Hnum Hst [Hp Hok Href Hval Hcnt Hfr]. split; [split|split].
  - done.
  - by eapply mgr_ok_same.
  - intros i b Hb Hi. rewrite Hocc. by apply Href.
  - intros rid b. rewrite Hreq. apply Hval.
  - intros rid n. rewrite Hreq, Hnum. apply Hcnt.
  - intros rid j b. rewrite Hreq, Hnum, Hocc. apply Hfr.
  - done.
  - done.
  - intros i _ _ Hu. rewrite Hocc. done.
Qed.

(** The update of one request's table. *)
Record table_update f rid (bs' : list nat) m p m' p' l' : Prop := {
  tu_pool : pool_wf p' l';
  tu_config : pool_config p' = pool_config p;
  tu_static : mgr_static m' = mgr_static m;
  tu_table : req_blocks rid m' = bs';
  tu_other rid' : rid' ≠ rid → req_blocks rid' m' = req_blocks rid' m ∧
    num_cached_block m' !! rid' = num_cached_block m !! rid';
  tu_occ i : (table_occ (req_to_blocks m') i + occ i (req_blocks rid m)
              = table_occ (req_to_blocks m) i + occ i bs')%nat;
  tu_ref i b b' : i ≠ 0%nat → blocks p !! i = Some b → blocks p' !! i = Some b' →
    ref_cnt b' = ref_cnt b + Z.of_nat (occ i bs') - Z.of_nat (occ i (req_blocks rid m));
  tu_valid b : b ∈ bs' → is_Some (blocks p !! b);
  tu_count n : num_cached_block m' !! rid = Some n → 0 ≤ n ≤ zlen bs';
  tu_fresh j b : enable_caching p = true → bs' !! j = Some b → b ≠ 0%nat →
    default 0 (num_cached_block m' !! rid) ≤ Z.of_nat j →
    (f b + table_occ (req_to_blocks m') b = 1)%nat ∧ unhashed p' b;
  tu_stable i : i ≠ 0%nat → unhashed p i → (0 < f i)%nat ∨ (∃ rid', rid' ≠ rid ∧ i ∈ req_blocks rid' m) →
    unhashed p' i ∧ (occ i bs' ≤ occ i (req_blocks rid m))%nat;
}.

Lemma mgr_inv_update f rid bs' m p l m' p' l' :
  mgr_inv f m p l → table_update f rid bs' m p m' p' l' →
  mgr_inv f m' p' l' ∧ frame f m p m' p'.
Proof.
  intros [Hp Hok Href Hval Hcnt Hfr] [Tp Tc Ts Tt To Tocc Tr Tv Tn Tf Tst].
  assert (∀ i, is_Some (blocks p !! i) ↔ is_Some (blocks p' !! i)) as Hiff by (intros; by eapply pool_valid).
  assert (enable_caching p' = enable_caching p) as Ec by (unfold pool_config in Tc; congruence).
  split; [split|split].
  - done.
  - by eapply mgr_ok_same.
  - intros i b' Hb' Hi. destruct (proj2 (Hiff i) ltac:(eauto)) as [b Hb].
    rewrite (Tr i b b' Hi Hb Hb'), (Href i b Hb Hi). specialize (Tocc i). lia.
  - intros rid' b Hb. apply Hiff. destruct (decide (rid' = rid)) as [->|Hne].
    + rewrite Tt in Hb. by apply Tv.
    + rewrite (proj1 (To _ Hne)) in Hb. by eapply Hval.
  - intros rid' n Hn. destruct (decide (rid' = rid)) as [->|Hne].
    + rewrite Tt. by apply Tn.
    + destruct (To _ Hne) as [-> Hn']. rewrite Hn' in Hn. by apply Hcnt.
  - intros rid' j b. rewrite Ec. intros Hc Hb Hb0 Hj. destruct (decide (rid' = rid)) as [->|Hne].
    + rewrite Tt in Hb. by apply (Tf j b).
    + destruct (To _ Hne) as [Hq Hn']. rewrite Hq in Hb. rewrite Hn' in Hj.
      destruct (Hfr rid' j b Hc Hb Hb0 Hj) as [H1 Hu].
      destruct (Tst b Hb0 Hu) as [Hu' Hle].
      { right. exists rid'. split; [done|]. by eapply list_elem_of_lookup_2. }
      split; [|done]. specialize (Tocc b).
      assert (0 < occ b (req_blocks rid' m'))%nat.
      { rewrite Hq. apply occ_pos. by eapply list_elem_of_lookup_2. }
      pose proof (occ_le_table (req_to_blocks m') rid' b). unfold req_blocks in *. lia.
  - done.
  - done.
  - intros i Hi Hf Hu. destruct (Tst i Hi Hu) as [? ?]; [by left|]. split; [done|].
    specialize (Tocc i). lia.
Qed.

(** ** Reading and writing a table *)

Lemma req_blocks_touch rid rid' m : req_blocks rid' (touch_req rid m) = req_blocks rid' m.
Proof.
  unfold touch_req, req_blocks. destruct (req_to_blocks m !! rid) eqn:E; [done|]. cbn.
  destruct (decide (rid = rid')) as [<-|]; [by rewrite lookup_insert_eq, E|by rewrite lookup_insert_ne].
Qed.
Lemma table_occ_touch rid m i : table_occ (req_to_blocks (touch_req rid m)) i = table_occ (req_to_blocks m) i.
Proof.
  unfold touch_req. destruct (req_to_blocks m !! rid) eqn:E; [done|]. cbn.
  pose proof (table_occ_insert (req_to_blocks m) rid [] i) as H. rewrite E in H. cbn in H.
  rewrite occ_nil in H. lia.
Qed.
Lemma touch_req_num rid m : num_cached_block (touch_req rid m) = num_cached_block m.
Proof. unfold touch_req. by destruct (req_to_blocks m !! rid). Qed.
Lemma touch_req_static rid m : mgr_static (touch_req rid m) = mgr_static m.
Proof. unfold touch_req. by destruct (req_to_blocks m !! rid). Qed.
Lemma touch_req_bs rid m : block_size (touch_req rid m) = block_size m.
Proof. unfold touch_req. by destruct (req_to_blocks m !! rid). Qed.

Lemma touch_req_inv f rid m p l :
  mgr_inv f m p l → mgr_inv f (touch_req rid m) p l ∧ frame f m p (touch_req rid m) p.
Proof.
  apply mgr_inv_ext; [intros; apply req_blocks_touch|intros; apply table_occ_touch|
    apply touch_req_num|apply touch_req_static].
Qed.

Lemma req_blocks_set rid rid' bs m :
  req_blocks rid' (set_req_blocks rid bs m) = if decide (rid = rid') then bs else req_blocks rid' m.
Proof.
  unfold set_req_blocks, req_blocks. cbn. case_decide as H; [subst; by rewrite lookup_insert_eq|].
  by rewrite lookup_insert_ne.
Qed.

Lemma unhashed_add_ref p p' (g : nat → Z) i :
  (∀ i, blocks p' !! i = add_ref (g i) <$> blocks p !! i) → unhashed p' i ↔ unhashed p i.
Proof.
  intros H. unfold unhashed. rewrite H. destruct (blocks p !! i) as [b|]; [|naive_solver].
  cbn. split; intros (b' & [= <-] & Hb); eauto.
Qed.

(** ** Returning references to the pool *)

Lemma release_ok f rid freed m p l :
  mgr_inv f m p l →
  (∀ i, i ≠ 0%nat → (occ i freed ≤ occ i (req_blocks rid m))%nat) →
  (∀ b, b ∈ freed → is_Some (blocks p !! b)) →
  ∃ p' l', free_blocks freed p = Ok p' ∧ pool_wf p' l' ∧ pool_config p' = pool_config p ∧
    (∀ i, blocks p' !! i = add_ref (- Z.of_nat (occ i freed)) <$> blocks p !! i) ∧
    sublist l l'.
Proof.
  intros Hinv Hocc Hval.
  destruct (free_blocks_ok freed l p (mi_pool _ _ _ _ Hinv)) as (p' & wh & woh & E & Hwf & [Hm Hb] & _).
  { intros b Hb. destruct (Hval b Hb) as [blk Hblk]. exists blk. split; [done|]. intros Hb0.
    rewrite (mi_ref _ _ _ _ Hinv b blk Hblk Hb0). specialize (Hocc b Hb0).
    pose proof (occ_le_table (req_to_blocks m) rid b). unfold req_blocks in Hocc. lia. }
  exists p', (woh ++ l ++ wh). split; [done|]. split; [done|]. split.
  - unfold pool_meta, pool_config in *. congruence.
  - split; [done|]. apply sublist_inserts_l, sublist_inserts_r. done.
Qed.

Lemma null_valid p l : pool_wf p l → is_Some (blocks p !! 0%nat).
Proof.
  intros [Hc _]. apply lookup_lt_is_Some. pose proof (wf_len _ _ Hc). pose proof (wf_pos _ _ Hc). lia.
Qed.

(** Replacing references of one request by null blocks, or dropping them all. *)
Record table_shrink rid (freed bs' : list nat) m m' : Prop := {
  sh_static : mgr_static m' = mgr_static m;
  sh_table : req_blocks rid m' = bs';
  sh_other rid' : rid' ≠ rid → req_blocks rid' m' = req_blocks rid' m ∧
    num_cached_block m' !! rid' = num_cached_block m !! rid';
  sh_occ_table i : (table_occ (req_to_blocks m') i + occ i (req_blocks rid m)
              = table_occ (req_to_blocks m) i + occ i bs')%nat;
  sh_occ i : i ≠ 0%nat → (occ i bs' + occ i freed = occ i (req_blocks rid m))%nat;
  sh_freed b : b ∈ freed → b ∈ req_blocks rid m;
  sh_kept j b : bs' !! j = Some b → b ≠ 0%nat → req_blocks rid m !! j = Some b;
  sh_count n : num_cached_block m' !! rid = Some n →
    num_cached_block m !! rid = Some n ∧ length bs' = length (req_blocks rid m);
  sh_cached : bs' = [] ∨ num_cached_block m' !! rid = num_cached_block m !! rid;
}.

Lemma shrink_update f rid freed bs' m p l m' p' l' :
  mgr_inv f m p l → table_shrink rid freed bs' m m' →
  pool_wf p' l' → pool_config p' = pool_config p →
  (∀ i, blocks p' !! i = add_ref (- Z.of_nat (occ i freed)) <$> blocks p !! i) →
  mgr_inv f m' p' l' ∧ frame f m p m' p'.
Proof.
  intros Hinv [S1 S2 S3 S4 S5 S6 S7 S8 S9] Hwf Hc Hb.
  apply (mgr_inv_update f rid bs' m p l m' p' l'); [done|]. split; try done.
  - intros i b b' Hi Hi1 Hi2. rewrite Hb, Hi1 in Hi2. injection Hi2 as <-. cbn. specialize (S5 i Hi). lia.
  - intros b [j Hj]%list_elem_of_lookup. destruct (decide (b = 0%nat)) as [->|Hne].
    + by eapply null_valid, (mi_pool _ _ _ _ Hinv).
    + eapply (mi_valid _ _ _ _ Hinv), list_elem_of_lookup_2. by apply S7.
  - intros n Hn. destruct (S8 n Hn) as [Hn' ->]. by apply (mi_count _ _ _ _ Hinv).
  - intros j b Hen Hj Hb0 Hle. destruct S9 as [->|E9]; [done|]. rewrite E9 in Hle.
    destruct (mi_fresh _ _ _ _ Hinv rid j b Hen (S7 _ _ Hj Hb0) Hb0 Hle) as [H1 Hu].
    split; [|by apply (unhashed_add_ref p p' (λ i, - Z.of_nat (occ i freed)))].
    specialize (S4 b). specialize (S5 b Hb0). pose proof (occ_le_table (req_to_blocks m') rid b) as Hle'.
    change (default [] (req_to_blocks m' !! rid)) with (req_blocks rid m') in Hle'. rewrite S2 in Hle'.
    assert (0 < occ b bs')%nat by (apply occ_pos; by eapply list_elem_of_lookup_2). lia.
  - intros i Hi Hu _. split; [by apply (unhashed_add_ref p p' (λ i, - Z.of_nat (occ i freed)))|].
    specialize (S5 i Hi). lia.
Qed.

Lemma shrink_ok f rid freed bs' m p l m' :
  mgr_inv f m p l → table_shrink rid freed bs' m m' →
  ∃ p' l', free_blocks freed p = Ok p' ∧ mgr_inv f m' p' l' ∧ frame f m p m' p' ∧
    (sublist l l' ∧ ∀ i, unhashed p' i ↔ unhashed p i).
Proof.
  intros Hinv Hsh.
  destruct (release_ok f rid freed m p l Hinv) as (p' & l' & E & Hwf & Hc & Hb & Hsub).
  { intros i Hi. pose proof (sh_occ _ _ _ _ _ Hsh i Hi). lia. }
  { intros b Hb. by eapply (mi_valid _ _ _ _ Hinv), (sh_freed _ _ _ _ _ Hsh). }
  destruct (shrink_update f rid freed bs' m p l m' p' l') as [H1 H2]; try done.
  exists p', l'. split; [done|]. split; [done|]. split; [done|]. split; [done|]. intros i.
  by apply (unhashed_add_ref p p' (λ i, - Z.of_nat (occ i freed))).
Qed.

Lemma shrink_nothing f rid bs' m p l m' :
  mgr_inv f m p l → table_shrink rid [] bs' m m' → mgr_inv f m' p l ∧ frame f m p m' p.
Proof.
  intros Hinv Hsh. apply (shrink_update f rid [] bs' m p l m' p l); try done; [apply (mi_pool _ _ _ _ Hinv)|].
  intros i. rewrite occ_nil. cbn [Z.of_nat Z.opp]. destruct (blocks p !! i) as [b|]; [|done].
  cbn [fmap option_fmap option_map]. by rewrite add_ref_0.
Qed.

(** Freeing a request returns all its references. *)
Lemma mgr_free_ok f rid m p l :
  mgr_inv f m p l →
  ∃ m' p' l', mgr_free rid m p = Ok (m', p') ∧ mgr_inv f m' p' l' ∧ frame f m p m' p' ∧
    req_to_blocks m' = delete rid (req_to_blocks m) ∧
    num_cached_block m' = delete rid (num_cached_block m) ∧
    (sublist l l' ∧ ∀ i, unhashed p' i ↔ unhashed p i).
Proof.
  intros Hinv. unfold mgr_free.
  assert (∃ m', mgr_pop_blocks_for_free rid m = (req_blocks rid m, m') ∧ mgr_static m' = mgr_static m ∧
    req_to_blocks m' = delete rid (req_to_blocks m) ∧
    num_cached_block m' = delete rid (num_cached_block m)) as (m' & -> & Hst & Hreq & Hnum).
  { unfold mgr_pop_blocks_for_free. destruct (mclass m) as [| | | |[] n|] eqn:Ec; eexists;
      (split; [reflexivity|]); unfold mgr_static; cbn; rewrite ?Ec; done. }
  destruct (shrink_ok f rid (reverse (req_blocks rid m)) [] m p l m' Hinv) as (p' & l' & -> & H1 & H2 & H3).
  { split; try done; unfold req_blocks; rewrite ?Hreq, ?Hnum.
    - by rewrite lookup_delete_eq.
    - intros rid' Hne. by rewrite !lookup_delete_ne.
    - intros i. pose proof (table_occ_delete (req_to_blocks m) rid i). rewrite occ_nil. lia.
    - intros i _. by rewrite occ_reverse, occ_nil.
    - intros b. by rewrite elem_of_reverse.
    - intros n. by rewrite lookup_delete_eq.
    - by left. }
  unfold mbind; cbn [result_bind]. exists m', p', l'. done.
Qed.

(** ** Dropping the blocks a request no longer attends to *)

Lemma py_range_down_last a b : a < b → py_range_down a b = (b - 1) :: py_range_down a (b - 1).
Proof.
  intros H. unfold py_range_down, py_range. replace (b - a) with ((b - 1 - a) + 1) by lia.
  rewrite seqZ_app by lia. replace (a + (b - 1 - a)) with (b - 1) by lia.
  rewrite (seqZ_cons (b - 1) 1) by lia. rewrite reverse_app. done.
Qed.
Lemma py_range_down_nil a b : b ≤ a → py_range_down a b = [].
Proof. intros H. unfold py_range_down, py_range. by rewrite seqZ_nil by lia. Qed.

(** The loop nulls a block of indices that ends at [b], down to the first
    index or to a null block, and returns what it replaced, last first. *)
Lemma null_out_spec (n a : nat) bs freed :
  (a + n ≤ length bs)%nat →
  ∃ s, (a ≤ s ≤ a + n)%nat ∧
    null_out 0%nat (py_range_down (Z.of_nat a) (Z.of_nat (a + n))) bs freed
    = Ok (take s bs ++ replicate (a + n - s) 0%nat ++ drop (a + n) bs,
          freed ++ reverse (take (a + n - s) (drop s bs))) ∧
    (s = a ∨ bs !! (s - 1)%nat = Some 0%nat) ∧
    (∀ j, (s ≤ j < a + n)%nat → bs !! j ≠ Some 0%nat).
Proof.
  revert bs freed. induction n as [|n IH]; intros bs freed Hn.
  { exists (a + 0)%nat. split; [lia|]. rewrite py_range_down_nil by lia. cbn [null_out].
    rewrite Nat.sub_diag. cbn. rewrite app_nil_r. rewrite take_drop. split; [done|]. split; [left; lia|lia]. }
  rewrite py_range_down_last by lia. cbn [null_out].
  replace (Z.of_nat (a + S n) - 1) with (Z.of_nat (a + n)) by lia.
  destruct (lookup_lt_is_Some_2 bs (a + n)%nat ltac:(lia)) as [x Hx].
  rewrite (proj2 (py_get_nat bs (a + n) x) Hx). unfold mbind; cbn [result_bind].
  destruct (decide (x = 0%nat)) as [->|Hx0].
  { exists (a + S n)%nat. split; [lia|]. rewrite Nat.sub_diag. cbn [take replicate reverse].
    rewrite app_nil_r. cbn [app]. rewrite take_drop. split; [done|]. split; [|lia].
    right. by replace (a + S n - 1)%nat with (a + n)%nat by lia. }
  rewrite Nat2Z.id.
  destruct (IH (<[(a + n)%nat := 0%nat]> bs) (freed ++ [x])) as (s & Hs & -> & Hstop & Hnn).
  { rewrite length_insert. lia. }
  exists s. split; [lia|].
  assert (take s (<[(a + n)%nat:=0%nat]> bs) = take s bs) as -> by (apply take_insert_ge; lia).
  assert (take (a + n - s) (drop s (<[(a + n)%nat:=0%nat]> bs)) = take (a + n - s) (drop s bs)) as ->.
  { rewrite !take_drop_commute. f_equal. apply take_insert_ge. lia. }
  assert (take (a + S n - s) (drop s bs) = take (a + n - s) (drop s bs) ++ [x]) as ->.
  { replace (a + S n - s)%nat with (S (a + n - s)) by lia. apply take_S_r. rewrite lookup_drop.
    by replace (s + (a + n - s))%nat with (a + n)%nat by lia. }
  rewrite drop_insert_ge by lia. rewrite Nat.sub_diag.
  destruct (drop (a + n) bs) as [|y tl] eqn:Ed.
  { apply (f_equal length) in Ed. rewrite length_drop in Ed. cbn in Ed. lia. }
  assert (drop (a + S n) bs = tl) as ->.
  { replace (a + S n)%nat with ((a + n) + 1)%nat by lia. by rewrite <- drop_drop, Ed. }
  cbn. rewrite reverse_app, reverse_singleton. split; [|split].
  - f_equal. f_equal.
    + replace (a + S n - s)%nat with (S (a + n - s)) by lia.
      rewrite replicate_S_end. by rewrite <- app_assoc.
    + by rewrite <- app_assoc.
  - destruct (decide (s = a)); [by left|]. destruct Hstop as [?|Hstop]; [done|]. right.
    rewrite list_lookup_insert_ne in Hstop by lia. done.
  - intros j Hj. destruct (decide (j = a + n)%nat) as [->|Hj']; [rewrite Hx; congruence|].
    rewrite <- (list_lookup_insert_ne bs (a + n) j 0%nat) by lia. apply Hnn. lia.
Qed.

(** What removing the blocks at [a .. b) may do to a table: entries outside
    the range stay, entries inside become null, except below a null entry,
    where the loop has stopped. *)
Definition nulled (a b : Z) (bs bs' : list nat) : Prop :=
  length bs' = length bs ∧
  (∀ j x, bs !! j = Some x → bs' !! j = Some x ∨ bs' !! j = Some 0%nat ∧ a ≤ Z.of_nat j < b) ∧
  (∀ j, a ≤ Z.of_nat j < b → (j < length bs)%nat →
     bs' !! j = Some 0%nat ∨ ∃ j', (j < j')%nat ∧ Z.of_nat j' < b ∧ bs !! j' = Some 0%nat).

Lemma nulled_refl a b bs : b ≤ a → nulled a b bs bs.
Proof. intros Hab. split; [done|]. split; [by left|]. lia. Qed.

Lemma nulled_splice (a s e : nat) bs :
  (a ≤ s ≤ e)%nat → (e ≤ length bs)%nat → s = a ∨ bs !! (s - 1)%nat = Some 0%nat →
  nulled (Z.of_nat a) (Z.of_nat e) bs (take s bs ++ replicate (e - s) 0%nat ++ drop e bs).
Proof.
  intros Hs He Hstop. assert (length (take s bs) = s) as Ht by (rewrite length_take; lia).
  assert (∀ j, (take s bs ++ replicate (e - s) 0%nat ++ drop e bs) !! j
    = if decide (s ≤ j < e)%nat then Some 0%nat else bs !! j) as Hlk.
  { intros j. case_decide as Hj.
    - rewrite lookup_app_r, Ht, lookup_app_l by (rewrite ?length_replicate; lia).
      apply lookup_replicate_2. lia.
    - destruct (decide (j < s)%nat).
      + rewrite lookup_app_l, lookup_take_lt by lia. done.
      + rewrite lookup_app_r, Ht, lookup_app_r, length_replicate by (rewrite ?length_replicate; lia).
        rewrite lookup_drop. f_equal. lia. }
  split; [rewrite !length_app, length_replicate, Ht, length_drop; lia|]. split.
  - intros j x Hj. rewrite Hlk. case_decide; [right; split; [done|lia]|by left].
  - intros j Hj Hl. rewrite Hlk. case_decide; [by left|].
    destruct Hstop as [->|Hstop]; [lia|]. destruct (decide (j = s - 1)%nat) as [->|]; [by left|].
    right. exists (s - 1)%nat. split; [lia|]. split; [lia|done].
Qed.

Lemma remove_range_ok f rid a b m p l :
  mgr_inv f m p l → 0 ≤ a →
  ∃ m' p' l', _remove_blocks_in_range rid a b m p = Ok (m', p') ∧ mgr_inv f m' p' l' ∧
    frame f m p m' p' ∧ (sublist l l' ∧ ∀ i, unhashed p' i ↔ unhashed p i) ∧
    num_cached_block m' = num_cached_block m ∧
    (∀ rid', rid' ≠ rid → req_blocks rid' m' = req_blocks rid' m) ∧
    nulled a b (req_blocks rid m) (req_blocks rid m').
Proof.
  intros Hinv Ha. unfold _remove_blocks_in_range.
  assert (∀ bs, req_blocks rid m = bs → (b ≤ a ∨ zlen bs ≤ a) →
    ∃ m' p' l', Ok (m, p) = Ok (m', p') ∧ mgr_inv f m' p' l' ∧
    frame f m p m' p' ∧ (sublist l l' ∧ ∀ i, unhashed p' i ↔ unhashed p i) ∧
    num_cached_block m' = num_cached_block m ∧
    (∀ rid', rid' ≠ rid → req_blocks rid' m' = req_blocks rid' m) ∧
    nulled a b (req_blocks rid m) (req_blocks rid m')) as Hid.
  { intros bs Hbs Hab. exists m, p, l. refine (conj eq_refl (conj Hinv (conj (frame_refl _ _ _) _))).
    split; [done|]. split; [done|]. split; [done|]. split; [done|]. split; [by left|].
    intros j Hj Hl. subst bs. lia. }
  destruct (req_to_blocks m !! rid) as [bs|] eqn:E; cycle 1.
  { apply (Hid []); [unfold req_blocks; by rewrite E|]. right. cbn. lia. }
  assert (req_blocks rid m = bs) as Hbs by (unfold req_blocks; by rewrite E).
  destruct (Z.geb_spec a b) as [|Hab]; [by apply (Hid bs); [|left]|].
  rewrite (mo_null _ _ (mi_ok _ _ _ _ Hinv)).
  set (na := Z.to_nat a). set (e := Z.to_nat (Z.min b (zlen bs))).
  (* the new table *)
  assert (∃ freed bs', null_out 0%nat (py_range_down a (Z.min b (zlen bs))) bs [] = Ok (bs', freed) ∧
    nulled a b bs bs' ∧ (∀ i, i ≠ 0%nat → (occ i bs' + occ i freed = occ i bs)%nat) ∧
    (∀ x, x ∈ freed → x ∈ bs)) as (freed & bs' & -> & Hnl & Hocc & Hfr).
  { destruct (decide (e ≤ na)%nat) as [Hle|Hlt].
    - exists [], bs. rewrite py_range_down_nil by lia. split; [done|]. split.
      + split; [done|]. split; [by left|]. intros j Hj Hl. lia.
      + split; [intros i _; rewrite occ_nil; lia|by intros x ?%not_elem_of_nil].
    - destruct (null_out_spec (e - na) na bs []) as (s & Hs & Hno & Hstop & _); [lia|].
      replace (na + (e - na))%nat with e in * by lia.
      replace (Z.of_nat na) with a in Hno by lia. replace (Z.of_nat e) with (Z.min b (zlen bs)) in Hno by lia.
      eexists _, _. split; [exact Hno|]. split; [|split].
      + destruct (nulled_splice na s e bs) as (H1 & H2 & H3); [lia|lia|done|].
        split; [done|]. split; intros j.
        * intros x Hx. destruct (H2 j x Hx) as [?|[? ?]]; [by left|right; split; [done|lia]].
        * intros Hj Hl. destruct (H3 j) as [?|(j' & ? & ? & ?)]; [lia|done|by left|].
          right. exists j'. split; [done|]. split; [lia|done].
      + intros i Hi.
        assert (occ i bs = occ i (take s bs) + (occ i (take (e - s) (drop s bs)) + occ i (drop e bs)))%nat as ->.
        { replace (drop e bs) with (drop (e - s) (drop s bs)) by (rewrite drop_drop; f_equal; lia).
          by rewrite <- !occ_app, !take_drop. }
        rewrite !occ_app, occ_replicate, occ_reverse, decide_False, occ_nil by done. lia.
      + intros x. rewrite app_nil_l, elem_of_reverse. intros Hx. eapply sublist_subseteq; [|exact Hx].
        transitivity (drop s bs); [apply sublist_take|apply sublist_drop]. }
  unfold mbind at 1; cbn [result_bind].
  assert (table_shrink rid freed bs' m (set_req_blocks rid bs' m)) as Hsh.
  { destruct Hnl as (Hl & Hk & _). rewrite <- Hbs in *. split; try done.
    - by rewrite req_blocks_set, decide_True.
    - intros rid' Hne. by rewrite req_blocks_set, decide_False by done.
    - intros i. apply table_occ_insert.
    - intros j x Hx Hx0. destruct (lookup_lt_is_Some_2 (req_blocks rid m) j) as [y Hy].
      { rewrite <- Hl. by eapply lookup_lt_Some. }
      destruct (Hk j y Hy) as [?|[? _]]; congruence.
    - by right. }
  assert (∀ p' l', mgr_inv f (set_req_blocks rid bs' m) p' l' → frame f m p (set_req_blocks rid bs' m) p' →
    (sublist l l' ∧ ∀ i, unhashed p' i ↔ unhashed p i) → ∃ m' p'' l', Ok (set_req_blocks rid bs' m, p') = Ok (m', p'') ∧ mgr_inv f m' p'' l' ∧
    frame f m p m' p'' ∧ (sublist l l' ∧ ∀ i, unhashed p'' i ↔ unhashed p i) ∧
    num_cached_block m' = num_cached_block m ∧
    (∀ rid', rid' ≠ rid → req_blocks rid' m' = req_blocks rid' m) ∧
    nulled a b (req_blocks rid m) (req_blocks rid m')) as Hdone.
  { intros p' l' H1 H2 H3. exists (set_req_blocks rid bs' m), p', l'.
    refine (conj eq_refl (conj H1 (conj H2 (conj H3 (conj eq_refl (conj _ _)))))).
    - intros rid' Hne. by rewrite req_blocks_set, decide_False by done.
    - by rewrite req_blocks_set, decide_True, Hbs by done. }
  destruct freed as [|x freed].
  - destruct (shrink_nothing f rid bs' m p l _ Hinv Hsh). by apply (Hdone p l).
  - destruct (shrink_ok f rid _ bs' m p l _ Hinv Hsh) as (p' & l' & -> & H1 & H2 & H3).
    unfold mbind; cbn [result_bind]. by apply (Hdone p' l').
Qed.

(** The managers whose tables are driven by the base class. *)
Definition base_class (c : manager_class) : bool :=
  match c with MambaManager _ _ => false | _ => true end.

Lemma mgr_bs_pos p m : mgr_ok p m → 0 < block_size m.
Proof. intros [_ Hh (k & Hk & ->) _ _ _]. nia. Qed.

Lemma base_remove_skipped_ok f rid total m p l :
  mgr_inv f m p l →
  ∃ m' p' l', base_remove_skipped_blocks rid total m p = Ok (m', p') ∧ mgr_inv f m' p' l' ∧
    frame f m p m' p' ∧ (sublist l l' ∧ ∀ i, unhashed p' i ↔ unhashed p i) ∧
    num_cached_block m' = num_cached_block m ∧
    (∀ rid', rid' ≠ rid → req_blocks rid' m' = req_blocks rid' m) ∧
    nulled 0 (get_num_skipped_tokens m total / block_size m) (req_blocks rid m) (req_blocks rid m').
Proof.
  intros Hinv. unfold base_remove_skipped_blocks.
  pose proof (mgr_bs_pos _ _ (mi_ok _ _ _ _ Hinv)) as Hbs.
  destruct (Z.leb_spec (get_num_skipped_tokens m total) 0) as [Hle|Hgt].
  { exists m, p, l. refine (conj eq_refl (conj Hinv (conj (frame_refl _ _ _) _))).
    split; [done|]. split; [done|]. split; [done|]. apply nulled_refl.
    apply Z.div_le_upper_bound; lia. }
  destruct (touch_req_inv f rid m p l Hinv) as [Hinv1 Hfr1].
  rewrite touch_req_bs, req_blocks_touch.
  destruct (remove_range_ok f rid 0 (Z.min (get_num_skipped_tokens m total / block_size m)
              (zlen (req_blocks rid m))) (touch_req rid m) p l Hinv1)
    as (m' & p' & l' & -> & H1 & H2 & H3 & H4 & H5 & H6); [done|].
  exists m', p', l'. split; [done|]. split; [done|]. split; [by eapply frame_trans|]. split; [done|].
  split; [by rewrite H4, touch_req_num|].
  split; [intros rid' Hne; by rewrite H5, req_blocks_touch by done|].
  rewrite req_blocks_touch in H6. destruct H6 as (N1 & N2 & N3). split; [done|]. split.
  - intros j x Hx. destruct (N2 j x Hx) as [?|[? ?]]; [by left|right; split; [done|lia]].
  - intros j Hj Hl. destruct (N3 j) as [?|(j' & ? & ? & ?)]; [lia|done|by left|].
    right. exists j'. split; [done|]. split; [lia|done].
Qed.

Lemma remove_skipped_ok f rid total nprompt m p l :
  mgr_inv f m p l → base_class (mclass m) = true → (∀ n, nprompt = Some n → 0 ≤ n) →
  ∃ m' p' l', mgr_remove_skipped_blocks rid total nprompt m p = Ok (m', p') ∧ mgr_inv f m' p' l' ∧
    frame f m p m' p' ∧ (sublist l l' ∧ ∀ i, unhashed p' i ↔ unhashed p i) ∧
    num_cached_block m' = num_cached_block m ∧
    (∀ rid', rid' ≠ rid → req_blocks rid' m' = req_blocks rid' m) ∧
    length (req_blocks rid m') = length (req_blocks rid m).
Proof.
  intros Hinv Hbase Hnp. pose proof (mgr_bs_pos _ _ (mi_ok _ _ _ _ Hinv)) as Hbs.
  assert (∃ m' p' l', base_remove_skipped_blocks rid total m p = Ok (m', p') ∧ mgr_inv f m' p' l' ∧
    frame f m p m' p' ∧ (sublist l l' ∧ ∀ i, unhashed p' i ↔ unhashed p i) ∧
    num_cached_block m' = num_cached_block m ∧
    (∀ rid', rid' ≠ rid → req_blocks rid' m' = req_blocks rid' m) ∧
    length (req_blocks rid m') = length (req_blocks rid m)) as Hdef.
  { destruct (base_remove_skipped_ok f rid total m p l Hinv)
      as (m' & p' & l' & E & H1 & H2 & H3 & H4 & H5 & [H6 _]).
    exists m', p', l'. done. }
  unfold mgr_remove_skipped_blocks. destruct (mclass m) as [|w| | | |]; try exact Hdef; [|done].
  unfold rswa_remove_skipped_blocks. destruct nprompt as [n|]; [|exact Hdef].
  destruct (remove_range_ok f rid (cdiv n (block_size m)) (Z.max n (total - w) / block_size m) m p l Hinv)
    as (m' & p' & l' & -> & H1 & H2 & H3 & H4 & H5 & [H6 _]).
  { apply cdiv_nonneg; [done|]. by apply Hnp. }
  exists m', p', l'. done.
Qed.

(** ** Taking over the blocks of a cache hit *)

Lemma add_local_ok f rid bs nlocal next m p l :
  mgr_inv f m p l → req_blocks rid m = [] →
  (∀ b, b ∈ bs → is_Some (blocks p !! b) ∧ (b ≠ 0%nat → ¬ unhashed p b)) →
  (enable_caching p = false → bs = []) →
  let nsk := Z.to_nat (get_num_skipped_tokens m (nlocal + next) / block_size m) in
  ∃ m' p', base_add_local_computed_blocks rid bs nlocal next m p = Ok (m', p') ∧
    mgr_inv f m' p' (filter (λ i, i ∉ drop nsk bs) l) ∧ frame f m p m' p' ∧
    req_blocks rid m' = replicate nsk 0%nat ++ drop nsk bs ∧
    num_cached_block m' = <[rid := zlen (replicate nsk 0%nat ++ drop nsk bs)]> (num_cached_block m) ∧
    (∀ rid', rid' ≠ rid → req_blocks rid' m' = req_blocks rid' m) ∧
    (∀ i, is_Some (blocks p !! i) → ¬ unhashed p i → ¬ unhashed p' i).
Proof.
  intros Hinv Hreq Hbs Hdis nsk. unfold base_add_local_computed_blocks.
  destruct (touch_req_inv f rid m p l Hinv) as [Hinv1 Hfr1].
  rewrite req_blocks_touch, Hreq, touch_req_bs. cbn [length Z.of_nat Z.eqb require app].
  unfold mbind at 1; cbn [result_bind].
  assert (get_num_skipped_tokens (touch_req rid m) (nlocal + next) = get_num_skipped_tokens m (nlocal + next)) as ->.
  { pose proof (touch_req_static rid m) as Hst. unfold mgr_static in Hst.
    unfold get_num_skipped_tokens. by replace (mclass (touch_req rid m)) with (mclass m) by congruence. }
  set (k := get_num_skipped_tokens m (nlocal + next) / block_size m) in *.
  assert ((if k >? 0 then py_from bs k else bs) = drop nsk bs) as ->.
  { unfold nsk. rewrite Z.gtb_ltb. destruct (Z.ltb_spec 0 k); [by apply py_from_nonneg; lia|].
    by replace (Z.to_nat k) with 0%nat by lia. }
  set (m1 := touch_req rid m) in *. pose proof (mi_ok _ _ _ _ Hinv1) as Hok1.
  rewrite (mo_caching _ _ Hok1), (mo_null _ _ Hok1).
  assert (∀ b, b ∈ drop nsk bs → b ∈ bs) as Hdrop by (intros b; apply sublist_subseteq, sublist_drop).
  set (l' := filter (λ i, i ∉ drop nsk bs) l).
  assert (∃ p', (if enable_caching p then touch (drop nsk bs) p
      else _ ← assert_ (bool_decide (drop nsk bs = [])); Ok p) = Ok p' ∧ pool_wf p' l' ∧
      pool_config p' = pool_config p ∧
      ∀ i, blocks p' !! i = add_ref (Z.of_nat (occ i (drop nsk bs))) <$> blocks p !! i)
    as (p' & -> & Hwf' & Hc' & Hb').
  { destruct (enable_caching p) eqn:Ec.
    - destruct (touch_ok (drop nsk bs) l p (mi_pool _ _ _ _ Hinv)) as (p' & E & Hwf & [Hm Hb]).
      { intros b Hb. apply Hbs. by apply Hdrop. }
      exists p'. split; [done|]. split; [done|]. split; [|done]. unfold pool_meta, pool_config in *. congruence.
    - specialize (Hdis eq_refl). subst bs. subst l'. rewrite drop_nil. cbn. exists p. split; [done|].
      rewrite filter_id by (intros; apply not_elem_of_nil). split; [apply (mi_pool _ _ _ _ Hinv)|].
      split; [done|]. intros i. rewrite occ_nil. cbn [Z.of_nat]. destruct (blocks p !! i) as [b|]; [|done].
      cbn [fmap option_fmap option_map]. by rewrite add_ref_0. }
  unfold mbind; cbn [result_bind]. fold nsk. set (bs' := replicate nsk 0%nat ++ drop nsk bs).
  set (m' := with_num_cached_block _ _).
  assert (∀ i, i ≠ 0%nat → occ i bs' = occ i (drop nsk bs)) as Hoccb.
  { intros i Hi. unfold bs'. rewrite occ_app, occ_replicate, decide_False by done. done. }
  assert (∀ i, unhashed p' i ↔ unhashed p i) as Hun.
  { intros i. by apply (unhashed_add_ref p p' (λ i, Z.of_nat (occ i (drop nsk bs)))). }
  destruct (mgr_inv_update f rid bs' m1 p l m' p' l') as [Hi Hf]; [done| |].
  - split; try done.
    + unfold m'. change (req_blocks rid (set_req_blocks rid bs' m1) = bs').
      by rewrite req_blocks_set, decide_True.
    + intros rid' Hne. split; [|cbn; by rewrite lookup_insert_ne].
      change (req_blocks rid' (set_req_blocks rid bs' m1) = req_blocks rid' m1).
      by rewrite req_blocks_set, decide_False by done.
    + intros i. apply (table_occ_insert (req_to_blocks m1) rid bs' i).
    + intros i b b' Hi Hi1 Hi2. rewrite Hb', Hi1 in Hi2. injection Hi2 as <-. cbn.
      unfold m1. rewrite req_blocks_touch, Hreq, occ_nil, Hoccb by done. lia.
    + intros b [Hb|Hb]%elem_of_app; [|by destruct (Hbs b (Hdrop b Hb))].
      apply elem_of_replicate in Hb as [-> _]. by eapply null_valid, (mi_pool _ _ _ _ Hinv).
    + intros n. cbn. rewrite lookup_insert_eq. intros [= <-]. lia.
    + intros j b _ Hj _. cbn. rewrite lookup_insert_eq. cbn. apply lookup_lt_Some in Hj. lia.
    + intros i Hi Hu _. split; [by apply Hun|]. rewrite Hoccb by done.
      rewrite (proj2 (occ_0 i (drop nsk bs))); [lia|]. intros Hin%Hdrop. by apply (Hbs i Hin).
  - exists m', p'. split; [done|]. split; [done|]. split; [by eapply frame_trans|].
    split; [|split; [|split]].
    + change (req_blocks rid (set_req_blocks rid bs' m1) = bs'). by rewrite req_blocks_set, decide_True.
    + cbn. unfold m1. by rewrite touch_req_num.
    + intros rid' Hne. change (req_blocks rid' (set_req_blocks rid bs' m1) = req_blocks rid' m).
      rewrite req_blocks_set, decide_False by done. apply req_blocks_touch.
    + intros i _ Hn Hu. by apply Hn, Hun.
Qed.

(** ** Allocating blocks *)

Lemma extend_req_table rid new m :
  (∀ rid', req_blocks rid' (extend_req rid new m)
           = if decide (rid = rid') then req_blocks rid m ++ new else req_blocks rid' m) ∧
  (∀ i, (table_occ (req_to_blocks (extend_req rid new m)) i
         = table_occ (req_to_blocks m) i + occ i new)%nat) ∧
  num_cached_block (extend_req rid new m) = num_cached_block m ∧
  mgr_static (extend_req rid new m) = mgr_static m.
Proof.
  assert (∀ i, (table_occ (<[rid := req_blocks rid m ++ new]> (req_to_blocks m)) i
         = table_occ (req_to_blocks m) i + occ i new)%nat) as Hocc.
  { intros i. pose proof (table_occ_insert (req_to_blocks m) rid (req_blocks rid m ++ new) i) as H.
    rewrite occ_app in H. unfold req_blocks in *. lia. }
  unfold extend_req. cbn [set_req_blocks].
  destruct (_record_new_block_ids (set_req_blocks rid (req_blocks rid m ++ new) m));
    (split; [intros rid'; exact (req_blocks_set rid rid' _ m)|split; [exact Hocc|done]]).
Qed.

(** A free block is not in any table. *)
Lemma free_not_held f m p l i :
  mgr_inv f m p l → i ∈ l → f i = 0%nat ∧ table_occ (req_to_blocks m) i = 0%nat ∧ i ≠ 0%nat.
Proof.
  intros Hinv Hi. destruct (mi_pool _ _ _ _ Hinv) as [Hc _].
  destruct (proj1 (wf_free _ _ Hc i) Hi) as (H0 & b & Hb & Hr).
  pose proof (mi_ref _ _ _ _ Hinv i b Hb H0). lia.
Qed.

Lemma held_not_free f m p l rid j b :
  mgr_inv f m p l → req_blocks rid m !! j = Some b → b ∉ l.
Proof.
  intros Hinv Hb Hl. destruct (free_not_held f m p l b Hinv Hl) as (_ & H & _).
  pose proof (occ_le_table (req_to_blocks m) rid b). assert (0 < occ b (req_blocks rid m))%nat.
  { apply occ_pos. by eapply list_elem_of_lookup_2. } unfold req_blocks in *. lia.
Qed.

Lemma extend_ok f rid m p l1 l2 :
  mgr_inv f m p (l1 ++ l2) →
  ∃ p', get_new_blocks (zlen l1) p = Ok (l1, p') ∧ mgr_inv f (extend_req rid l1 m) p' l2 ∧
    frame f m p (extend_req rid l1 m) p' ∧
    (∀ i, i ∉ l1 → blocks p' !! i = blocks p !! i).
Proof.
  intros Hinv. pose proof (mi_pool _ _ _ _ Hinv) as Hwf.
  destruct (get_new_blocks_ok l1 l2 p Hwf) as (p' & E & Hwf' & Hc & Hb & _).
  pose proof (fq_rep_nodup _ _ (wf_queue _ _ (proj1 Hwf))) as Hnd.
  apply NoDup_app in Hnd as (Hnd1 & _ & _).
  destruct (extend_req_table rid l1 m) as (Ht & Hocc & Hnum & Hst).
  assert (∀ i, i ∈ l1 → f i = 0%nat ∧ table_occ (req_to_blocks m) i = 0%nat ∧ i ≠ 0%nat) as Hfree.
  { intros i Hi. eapply free_not_held; [exact Hinv|]. apply elem_of_app. by left. }
  assert (∀ rid' b, b ∈ req_blocks rid' m → b ∉ l1) as Hheld.
  { intros rid' b [j Hj]%list_elem_of_lookup Hl. eapply held_not_free; [exact Hinv|exact Hj|].
    apply elem_of_app. by left. }
  assert (∀ i, i ∉ l1 → blocks p' !! i = blocks p !! i) as Hsame.
  { intros i Hi. by rewrite Hb, decide_False. }
  exists p'. split; [done|]. enough (mgr_inv f (extend_req rid l1 m) p' l2 ∧ frame f m p (extend_req rid l1 m) p')
    as [? ?] by done.
  apply (mgr_inv_update f rid (req_blocks rid m ++ l1) m p (l1 ++ l2)); [done|]. split; try done.
  - by rewrite Ht, decide_True.
  - intros rid' Hne. rewrite Ht, decide_False, Hnum by done. done.
  - intros i. rewrite Hocc, occ_app. lia.
  - intros i b b' Hi Hi1 Hi2. rewrite Hb, Hi1 in Hi2. rewrite occ_app, (occ_NoDup i l1) by done.
    case_decide; injection Hi2 as <-; [|lia]. unfold fresh_block. destruct (enable_caching p); cbn; lia.
  - intros b [Hb'|Hb']%elem_of_app; [by eapply (mi_valid _ _ _ _ Hinv)|].
    destruct (proj1 (wf_free _ _ (proj1 Hwf) b)) as (_ & blk & Hblk & _); [apply elem_of_app; by left|]. eauto.
  - intros n. rewrite Hnum, length_app. intros Hn. pose proof (mi_count _ _ _ _ Hinv rid n Hn). lia.
  - intros j b Hen Hj Hb0 Hle. rewrite Hnum in Hle. rewrite Hocc.
    apply lookup_app_Some in Hj as [Hj|[_ Hj]].
    + destruct (mi_fresh _ _ _ _ Hinv rid j b Hen Hj Hb0 Hle) as [H1 Hu].
      assert (b ∉ l1) as Hnl by (by eapply Hheld, list_elem_of_lookup_2).
      rewrite (proj2 (occ_0 b l1)) by done. split; [lia|].
      destruct Hu as (blk & Hblk & Hh). exists blk. by rewrite Hsame.
    + assert (b ∈ l1) as Hbl by (by eapply list_elem_of_lookup_2).
      destruct (Hfree b Hbl) as (-> & -> & _). rewrite occ_NoDup, decide_True by done. split; [done|].
      destruct (proj1 (wf_free _ _ (proj1 Hwf) b)) as (_ & blk & Hblk & _); [apply elem_of_app; by left|].
      exists (fresh_block true blk). by rewrite Hb, decide_True, Hblk, Hen.
  - intros i Hi Hu Hor. assert (i ∉ l1) as Hnl.
    { intros Hl. destruct (Hfree i Hl) as (Hf0 & _). destruct Hor as [?|(rid' & _ & Hin)]; [lia|].
      by eapply Hheld. }
    rewrite occ_app, (proj2 (occ_0 i l1)) by done. split; [|lia].
    destruct Hu as (blk & Hblk & Hh). exists blk. by rewrite Hsame.
Qed.

(** Allocating the blocks that a table lacks for [n] tokens. *)
Lemma base_allocate_new_ok f rid n m p l :
  mgr_inv f m p l →
  let k := Z.to_nat (cdiv n (block_size m) - zlen (req_blocks rid m)) in
  (k ≤ length l)%nat →
  ∃ m' p', base_allocate_new_blocks rid n m p = Ok (take k l, m', p') ∧
    mgr_inv f m' p' (drop k l) ∧ frame f m p m' p' ∧
    req_blocks rid m' = req_blocks rid m ++ take k l ∧
    num_cached_block m' = num_cached_block m ∧
    (∀ rid', rid' ≠ rid → req_blocks rid' m' = req_blocks rid' m).
Proof.
  intros Hinv k Hk. unfold base_allocate_new_blocks.
  destruct (touch_req_inv f rid m p l Hinv) as [Hinv1 Hfr1].
  rewrite touch_req_bs, req_blocks_touch.
  destruct (Z.leb_spec (cdiv n (block_size m) - zlen (req_blocks rid m)) 0) as [Hle|Hgt].
  { assert (k = 0%nat) as -> by lia. cbn [take drop]. rewrite app_nil_r. exists (touch_req rid m), p.
    split; [done|]. split; [done|]. split; [done|]. split; [apply req_blocks_touch|].
    split; [apply touch_req_num|]. intros; apply req_blocks_touch. }
  rewrite <- (take_drop k l) in Hinv1.
  destruct (extend_ok f rid (touch_req rid m) p (take k l) (drop k l) Hinv1) as (p' & E & H1 & H2 & _).
  replace (zlen (take k l)) with (cdiv n (block_size m) - zlen (req_blocks rid m)) in E
    by (rewrite length_take; lia).
  rewrite E. unfold mbind; cbn [result_bind].
  destruct (extend_req_table rid (take k l) (touch_req rid m)) as (Ht & _ & Hnum & _).
  eexists _, p'. split; [done|]. split; [done|]. split; [by eapply frame_trans|].
  split; [by rewrite Ht, decide_True, req_blocks_touch|]. split; [by rewrite Hnum, touch_req_num|].
  intros rid' Hne. by rewrite Ht, decide_False, req_blocks_touch by done.
Qed.

(** Allocating blocks for tokens whose KV a connector will load. *)
Lemma base_allocate_external_ok f rid nlocal next m p l :
  mgr_inv f m p l →
  zlen (req_blocks rid m) ≤ cdiv (nlocal + next) (block_size m) →
  (Z.to_nat (cdiv (nlocal + next) (block_size m) - zlen (req_blocks rid m)) ≤ length l)%nat →
  ∃ k m' p', base_allocate_external_computed_blocks rid nlocal next m p = Ok (m', p') ∧
    (k = 0 ∨ k = Z.to_nat (cdiv (nlocal + next) (block_size m) - zlen (req_blocks rid m)))%nat ∧
    mgr_inv f m' p' (drop k l) ∧ frame f m p m' p' ∧
    req_blocks rid m' = req_blocks rid m ++ take k l ∧
    num_cached_block m' = num_cached_block m ∧
    (∀ rid', rid' ≠ rid → req_blocks rid' m' = req_blocks rid' m).
Proof.
  intros Hinv Hlen Hk. unfold base_allocate_external_computed_blocks. cbv zeta.
  match goal with |- context [if ?b <=? 0 then _ else _] => destruct (Z.leb_spec b 0) end.
  { exists 0%nat, m, p. cbn [take drop]. rewrite app_nil_r.
    refine (conj eq_refl (conj (or_introl eq_refl) (conj Hinv (conj (frame_refl _ _ _) _)))). done. }
  set (k := Z.to_nat _) in *.
  destruct (touch_req_inv f rid m p l Hinv) as [Hinv1 Hfr1].
  rewrite touch_req_bs, req_blocks_touch. rewrite <- (take_drop k l) in Hinv1.
  destruct (extend_ok f rid (touch_req rid m) p (take k l) (drop k l) Hinv1) as (p' & E & H1 & H2 & _).
  replace (zlen (take k l)) with (cdiv (nlocal + next) (block_size m) - zlen (req_blocks rid m)) in E
    by (rewrite length_take; lia).
  rewrite E. unfold mbind; cbn [result_bind].
  destruct (extend_req_table rid (take k l) (touch_req rid m)) as (Ht & _ & Hnum & _).
  eexists k, _, p'. split; [done|]. split; [by right|]. split; [done|]. split; [by eapply frame_trans|].
  split; [by rewrite Ht, decide_True, req_blocks_touch|]. split; [by rewrite Hnum, touch_req_num|].
  intros rid' Hne. by rewrite Ht, decide_False, req_blocks_touch by done.
Qed.

(** ** Caching the full blocks of a request *)

Lemma mask_ok nc nf ret nprompt m p :
  mgr_ok p m → base_class (mclass m) = true →
  ∃ mask, mgr_reachable_block_mask nc nf (Some (scheduler_block_size m)) ret (Some nprompt) m = Ok mask ∧
    ∀ bm, mask = Some bm → length bm = Z.to_nat (nf - nc).
Proof.
  intros Hok Hbase. pose proof (mo_class _ _ Hok) as Hcl. unfold mgr_reachable_block_mask.
  destruct (mclass m); try (by exists None).
  destruct Hcl as (Hw & _ & Hal). unfold swa_reachable_block_mask. rewrite Hw. cbn [of_option].
  rewrite (proj2 (Z.eqb_eq _ _) Hal). unfold mbind; cbn [require result_bind]. cbv zeta.
  destruct (match ret with Some r => if r =? 0 then None else Some r | None => _ end) as [seg|].
  - destruct (_ >=? _); eexists; (split; [reflexivity|]); [done|]. intros bm [= <-].
    destruct ret; rewrite ?length_set_mask, length_replicate; done.
  - eexists. split; [reflexivity|]. intros bm [= <-].
    destruct ret; rewrite ?length_set_mask, length_replicate; done.
Qed.

(** Two tables that both hold a block. *)
Lemma table_occ_two t rid rid' i :
  rid ≠ rid' → (occ i (default [] (t !! rid)) + occ i (default [] (t !! rid')) ≤ table_occ t i)%nat.
Proof.
  intros Hne. rewrite <- (table_occ_delete t rid i). pose proof (occ_le_table (delete rid t) rid' i) as H.
  rewrite lookup_delete_ne in H by done. lia.
Qed.

Lemma occ_two (l : list nat) i j x : i ≠ j → l !! i = Some x → l !! j = Some x → (2 ≤ occ x l)%nat.
Proof.
  intros Hne Hi Hj. rewrite <- (take_drop_middle l i x Hi). rewrite occ_app, occ_cons, decide_True by done.
  assert (x ∈ take i l ∨ x ∈ drop (S i) l) as [H%occ_pos|H%occ_pos]; [|lia..].
  destruct (decide (j < i)%nat).
  - left. eapply (list_elem_of_lookup_2 _ j). by rewrite lookup_take_lt.
  - right. eapply (list_elem_of_lookup_2 _ (j - S i)%nat). rewrite lookup_drop.
    by replace (S i + (j - S i))%nat with j by lia.
Qed.

(** A request whose block hashes cover [n] tokens. *)
Record request_ok p (n : Z) (r : Request) : Prop := {
  ro_mm : mm_sorted (mm_features r);
  ro_memo : memo_ok env_sha256 r;
  ro_hashes : n / hash_block_size p ≤ zlen (block_hashes r);
}.

Lemma fresh_once f m p l rid j b :
  mgr_inv f m p l → enable_caching p = true → req_blocks rid m !! j = Some b → b ≠ 0%nat →
  default 0 (num_cached_block m !! rid) ≤ Z.of_nat j →
  unhashed p b ∧ f b = 0%nat ∧ (∀ rid', rid' ≠ rid → b ∉ req_blocks rid' m) ∧
  (∀ j', req_blocks rid m !! j' = Some b → j' = j).
Proof.
  intros Hinv Hen Hj Hb0 Hle. destruct (mi_fresh _ _ _ _ Hinv rid j b Hen Hj Hb0 Hle) as [H1 Hu].
  assert (0 < occ b (req_blocks rid m))%nat as Hpos by (apply occ_pos; by eapply list_elem_of_lookup_2).
  pose proof (occ_le_table (req_to_blocks m) rid b) as Hle1.
  split; [done|]. split; [unfold req_blocks in *; lia|]. split.
  - intros rid' Hne Hin%occ_pos. pose proof (table_occ_two (req_to_blocks m) rid rid' b ltac:(done)).
    unfold req_blocks in *. lia.
  - intros j' Hj'. destruct (decide (j' = j)); [done|].
    pose proof (occ_two _ j' j b ltac:(done) Hj' Hj). unfold req_blocks in *. lia.
Qed.

Lemma base_cache_ok f r n ret m p l :
  mgr_inv f m p l → base_class (mclass m) = true → enable_caching p = true → 0 ≤ n →
  request_ok p n r → n / block_size m ≤ zlen (req_blocks (request_id r) m) →
  ∃ m' p' r', base_cache_blocks r n ret m p = Ok (m', p', r') ∧ mgr_inv f m' p' l ∧
    frame f m p m' p' ∧ memo_extends r r' ∧
    (∀ rid, req_blocks rid m' = req_blocks rid m) ∧
    (∀ rid, rid ≠ request_id r → num_cached_block m' !! rid = num_cached_block m !! rid).
Proof.
  intros Hinv Hbase Hen Hn [Hmm Hmemo Hhash] Hlen. set (rid := request_id r) in *.
  pose proof (mi_ok _ _ _ _ Hinv) as Hok. pose proof (mgr_bs_pos _ _ Hok) as Hbs.
  unfold base_cache_blocks. fold rid.
  set (nc := default 0 (num_cached_block m !! rid)). set (nf := n / block_size m) in *.
  assert (0 ≤ nf) as Hnf by (by apply Z.div_pos).
  assert (0 ≤ nc ≤ zlen (req_blocks rid m)) as Hnc.
  { unfold nc. destruct (num_cached_block m !! rid) as [c|] eqn:E; cbn; [|lia].
    by apply (mi_count _ _ _ _ Hinv). }
  destruct (Z.geb_spec nc nf) as [Hge|Hlt].
  { exists m, p, r. refine (conj eq_refl (conj Hinv (conj (frame_refl _ _ _) (conj _ _)))); [|done].
    split; [apply same_but_memo_refl|done]. }
  destruct (mask_ok nc nf ret (num_prompt_tokens r) m p Hok Hbase) as (mask & -> & Hmask).
  unfold mbind at 1; cbn [result_bind].
  destruct (touch_req_inv f rid m p l Hinv) as [Hinv1 Hfr1].
  pose proof (touch_req_static rid m) as Hst. unfold mgr_static in Hst.
  replace (kv_cache_group_id (touch_req rid m)) with (kv_cache_group_id m) by congruence.
  rewrite touch_req_bs, req_blocks_touch, touch_req_num.
  destruct (mo_bs _ _ Hok) as (k & Hk & Ek). pose proof (mo_hbs _ _ Hok) as Hhbs.
  assert (cacheable p r (req_blocks rid m) (Z.to_nat nc) (Z.to_nat nf) k (kv_cache_group_id m) mask) as Hca.
  { split; try done.
    - lia.
    - assert (nf * Z.of_nat k ≤ n / hash_block_size p); [|nia].
      apply Z.div_le_lower_bound; [done|]. unfold nf. rewrite Ek.
      pose proof (Z.mul_div_le n (Z.of_nat k * hash_block_size p) ltac:(nia)). nia.
    - apply (mi_valid _ _ _ _ Hinv).
    - intros bm Hbm. rewrite (Hmask bm Hbm). lia.
    - apply (mo_gid _ _ Hok).
    - intros i j b Hi Hj Hri Hrj Hb0.
      by eapply (fresh_once f m p l rid j b Hinv Hen Hj Hb0); [fold nc; lia|].
    - intros i b blk Hi Hri [Hb0 _] Hblk Hne. exfalso. apply Hne.
      destruct (fresh_once f m p l rid i b Hinv Hen Hi Hb0) as ((blk' & Hb' & Hh') & _); [fold nc; lia|].
      congruence. }
  destruct (cache_full_blocks_ok _ _ _ _ _ _ _ _ _ (mi_pool _ _ _ _ Hinv) Hca)
    as (p' & r' & E & Hwf' & Hr & (_ & Hcore & Hdone & Hsame) & _).
  rewrite !Z2Nat.id in E by lia. rewrite <- Ek in E. rewrite E. unfold mbind; cbn [result_bind].
  set (m' := with_num_cached_block _ _).
  assert (∀ i, i ≠ 0%nat → unhashed p i →
    (∀ j, (Z.to_nat nc ≤ j < Z.to_nat nf)%nat → req_blocks rid m !! j ≠ Some i) → unhashed p' i) as Hkeep.
  { intros i Hi (blk & Hblk & Hh) Hno. exists blk. split; [|done]. rewrite <- Hblk. apply Hsame.
    intros a [c Hc]%list_elem_of_lookup. rewrite list_lookup_imap, fmap_Some in Hc.
    destruct Hc as (y & [Hy Hlt']%new_blocks_lookup & [= -> ->]). exfalso. apply (Hno (Z.to_nat nc + c)%nat); [lia|done]. }
  assert (∀ rid', req_blocks rid' m' = req_blocks rid' m) as Hreq' by (intros rid'; apply req_blocks_touch).
  destruct (mgr_inv_update f rid (req_blocks rid m) m p l m' p' l) as [Hi' Hf']; [done| |].
  - split; try done.
    + by apply pool_core_config.
    + intros rid' Hne. split; [apply Hreq'|]. cbn. by rewrite lookup_insert_ne.
    + intros i. cbn. by rewrite table_occ_touch.
    + intros i b b' _ Hi1 Hi2. unfold pool_core in Hcore. injection Hcore as _ _ _ _ _ _ Eb.
      destruct (fmap_lookup_corr block_core _ _ i b' Eb Hi2) as (b2 & Hb2 & E2). unfold block_core in E2.
      assert (b2 = b) as -> by congruence. assert (ref_cnt b' = ref_cnt b) by congruence. lia.
    + intros b. apply (mi_valid _ _ _ _ Hinv).
    + intros c. cbn. rewrite lookup_insert_eq. intros [= <-]. lia.
    + intros j b _ Hj Hb0. cbn. rewrite lookup_insert_eq. cbn. intros Hle.
      destruct (fresh_once f m p l rid j b Hinv Hen Hj Hb0) as (Hu & _ & _ & Honce); [fold nc; lia|].
      destruct (mi_fresh _ _ _ _ Hinv rid j b Hen Hj Hb0) as [H1 _]; [fold nc; lia|].
      split; [by rewrite table_occ_touch|]. apply Hkeep; [done|done|]. intros j' Hj' Hb. apply Honce in Hb. lia.
    + intros i Hi Hu Hor. split; [|done]. apply Hkeep; [done|done|]. intros j Hj Hb.
      destruct (fresh_once f m p l rid j i Hinv Hen Hb Hi) as (_ & Hf0 & Hno & _); [fold nc; lia|].
      destruct Hor as [?|(rid' & Hne & Hin)]; [lia|]. by apply (Hno rid').
  - exists m', p', r'. split; [done|]. split; [done|]. split; [done|]. split; [done|]. split; [done|].
    intros rid' Hne. cbn. by rewrite lookup_insert_ne.
Qed.

End ManagerInv.
