(* ===== verification/Coordinator.v ===== *)
(** * KV cache coordinators ([vllm/v1/core/kv_cache_coordinator.py])

    The coordinator runs the managers of all KV cache groups over one shared
    block pool and finds the longest prefix that is cached for every group.

    Correspondence.  The coordinator owns the pool and the tuple of managers; a
    loop over [self.single_type_managers] is [for_managers], which threads the
    pool through the managers in order.  The three coordinator classes are the
    constructors of [coordinator_kind].  The [while True] loop of the hybrid
    search has a fuel argument: the candidate length strictly decreases and is
    not negative, so one more iteration than the initial length is enough. *)

From S2P Require Import Prelude MathUtils Request BlockHash KVMetrics FreeQueue BlockPool.
From S2P Require Import SingleTypeManager ManagerInv.

Local Open Scope Z_scope.

Record KVCacheGroupSpec := mkGroup {
  group_spec : KVCacheSpec;
  is_eagle_group : bool;
}.

Record KVCacheConfig := mkConfig {
  num_blocks : Z;
  kv_cache_groups : list KVCacheGroupSpec;
}.

Definition has_mamba_layers (c : KVCacheConfig) : bool :=
  existsb (λ g, is_mamba (group_spec g)) (kv_cache_groups c).
Definition needs_kv_cache_zeroing (c : KVCacheConfig) : bool := has_mamba_layers c.

Record SpecGroup := mkSpecGroup {
  sg_spec : KVCacheSpec;
  sg_group_ids : list nat;
  sg_manager_cls : manager_class;
  sg_use_eagle : bool;
}.

Inductive coordinator_kind :=
  | NoPrefixCache
  | Unitary (u_spec : KVCacheSpec) (u_block_size dcp_world_size pcp_world_size : Z)
  | Hybrid (hybrid_hash_block_size : Z) (attention_groups : list SpecGroup).

Record KVCacheCoordinator (Q : Type) := mkCoordinator {
  coord_kind : coordinator_kind;
  kv_cache_config : KVCacheConfig;
  coord_enable_caching : bool;
  coord_scheduler_block_size : Z;
  block_pool : BlockPool Q;
  eagle_group_ids : list nat;
  single_type_managers : list SingleTypeKVCacheManager;
  retention_interval : option Z;
  num_uncached_common_prefix_tokens : Z;
}.
Arguments mkCoordinator {Q}.
Arguments coord_kind {Q}.
Arguments kv_cache_config {Q}.
Arguments coord_enable_caching {Q}.
Arguments coord_scheduler_block_size {Q}.
Arguments block_pool {Q}.
Arguments eagle_group_ids {Q}.
Arguments single_type_managers {Q}.
Arguments retention_interval {Q}.
Arguments num_uncached_common_prefix_tokens {Q}.

Definition _validate_prefix_cache_retention_interval (retention_interval : option Z)
    (scheduler_block_size : Z) (c : KVCacheConfig) : result () :=
  match retention_interval with
  | None => Ok ()
  | Some r =>
      _ ← require ValueError
            (existsb (λ g, bool_decide (is_Some (sliding_window_of (group_spec g)))
                           || is_mamba (group_spec g)) (kv_cache_groups c));
      require ValueError (negb ((r <? 0) || negb (r mod scheduler_block_size =? 0)))
  end.

Section Coordinator.
Context {Q : Type} `{!FreeQueueOps Q} {env : PoolEnv}.
Implicit Types (p : BlockPool Q) (c : KVCacheCoordinator Q) (ms : list SingleTypeKVCacheManager).

Definition with_state ms p c : KVCacheCoordinator Q :=
  mkCoordinator (coord_kind c) (kv_cache_config c) (coord_enable_caching c)
    (coord_scheduler_block_size c) p (eagle_group_ids c) ms (retention_interval c)
    (num_uncached_common_prefix_tokens c).
Definition with_uncached (n : Z) c : KVCacheCoordinator Q :=
  mkCoordinator (coord_kind c) (kv_cache_config c) (coord_enable_caching c)
    (coord_scheduler_block_size c) (block_pool c) (eagle_group_ids c) (single_type_managers c)
    (retention_interval c) n.

(** A loop over the managers that shares a state [S] (the pool, or the pool
    and the request) and collects one value per manager. *)
Fixpoint for_managers {A S} (f : nat → SingleTypeKVCacheManager → S →
                                 result (A * SingleTypeKVCacheManager * S))
    (i : nat) ms (s : S) : result (list A * list SingleTypeKVCacheManager * S) :=
  match ms with
  | [] => Ok ([], [], s)
  | m :: ms =>
      '(a, m, s) ← f i m s;
      '(l, ms, s) ← for_managers f (i + 1)%nat ms s;
      Ok (a :: l, m :: ms, s)
  end.

(** ** Construction *)

(** The tuple of managers, built group by group. *)
Fixpoint build_managers (c : KVCacheConfig) (groups : list KVCacheGroupSpec) (i : nat)
    (max_num_batched_tokens max_model_len : Z) (null_block : nat) (enable_caching : bool)
    (dcp_world_size pcp_world_size scheduler_block_size : Z)
    : result (list SingleTypeKVCacheManager) :=
  match groups with
  | [] => Ok []
  | g :: groups =>
      m ← get_manager_for_kv_cache_spec (group_spec g) max_num_batched_tokens max_model_len
            null_block enable_caching (Z.of_nat i) scheduler_block_size dcp_world_size
            pcp_world_size (needs_kv_cache_zeroing c);
      ms ← build_managers c groups (S i) max_num_batched_tokens max_model_len null_block
             enable_caching dcp_world_size pcp_world_size scheduler_block_size;
      Ok (m :: ms)
  end.

Definition KVCacheCoordinator_init (kind : coordinator_kind) (cfg : KVCacheConfig)
    (max_model_len max_num_batched_tokens : Z) (use_eagle enable_caching enable_events : bool)
    (dcp_world_size pcp_world_size scheduler_block_size hash_block_size : Z)
    (mc : option KVCacheMetricsCollector) (retention : option Z)
    : result (KVCacheCoordinator Q) :=
  _ ← assert_ ((scheduler_block_size mod hash_block_size =? 0) &&
               forallb (λ g, scheduler_block_size mod spec_block_size (group_spec g) =? 0)
                 (kv_cache_groups cfg));
  pool ← BlockPool_init (num_blocks cfg) enable_caching hash_block_size enable_events mc;
  let n := length (kv_cache_groups cfg) in
  let flagged := filter (λ i, is_eagle_group <$> kv_cache_groups cfg !! i = Some true) (seq 0 n) in
  let eagle_ids := if use_eagle && bool_decide (flagged = []) then seq 0 n else flagged in
  ms ← build_managers cfg (kv_cache_groups cfg) 0 max_num_batched_tokens max_model_len
         (null_block pool) enable_caching dcp_world_size pcp_world_size scheduler_block_size;
  _ ← _validate_prefix_cache_retention_interval retention scheduler_block_size cfg;
  Ok (mkCoordinator kind cfg enable_caching scheduler_block_size pool eagle_ids ms retention 0).

(** [verify_and_split_kv_cache_groups]: the inner [for ... else] over the
    groups found so far. *)
Fixpoint add_to_group (spec : KVCacheSpec) (i : nat) (cls : manager_class) (eagle : bool)
    (groups : list SpecGroup) : result (list SpecGroup) :=
  match groups with
  | [] => Ok [mkSpecGroup spec [i] cls eagle]
  | g :: groups =>
      if decide (sg_spec g = spec) then
        _ ← assert_ (bool_decide (cls = sg_manager_cls g));
        Ok (mkSpecGroup (sg_spec g) (sg_group_ids g ++ [i]) (sg_manager_cls g)
              (sg_use_eagle g || eagle) :: groups)
      else
        groups ← add_to_group spec i cls eagle groups;
        Ok (g :: groups)
  end.

Fixpoint split_groups (i : nat) (gs : list KVCacheGroupSpec) ms (eagle_ids : list nat)
    (groups : list SpecGroup) : result (list SpecGroup) :=
  match gs, ms with
  | g :: gs, m :: ms =>
      groups ← add_to_group (group_spec g) i (mclass m) (bool_decide (i ∈ eagle_ids)) groups;
      split_groups (S i) gs ms eagle_ids groups
  | _, _ => Ok groups
  end.

(** The stable sort on [not isinstance(spec, FullAttentionSpec)]. *)
Definition sort_groups (groups : list SpecGroup) : list SpecGroup :=
  filter (λ g, is_full_attention (sg_spec g) = true) groups ++
  filter (λ g, is_full_attention (sg_spec g) = false) groups.

Definition verify_and_split_kv_cache_groups (cfg : KVCacheConfig) ms (eagle_ids : list nat)
    : result (list SpecGroup * list SingleTypeKVCacheManager) :=
  groups ← split_groups 0 (kv_cache_groups cfg) ms eagle_ids [];
  _ ← assert_ (1 <? zlen groups);
  let groups := sort_groups groups in
  let flagged := concat (sg_group_ids <$> filter (λ g, sg_use_eagle g = true) groups) in
  Ok (groups, imap (λ i m, if decide (i ∈ flagged) then with_use_eagle true m else m) ms).

Definition get_kv_cache_coordinator (cfg : KVCacheConfig) (max_model_len max_num_batched_tokens : Z)
    (use_eagle enable_caching enable_events : bool)
    (dcp_world_size pcp_world_size scheduler_block_size hash_block_size : Z)
    (mc : option KVCacheMetricsCollector) (retention : option Z)
    : result (KVCacheCoordinator Q) :=
  if negb enable_caching then
    KVCacheCoordinator_init NoPrefixCache cfg max_model_len max_num_batched_tokens use_eagle false
      enable_events dcp_world_size pcp_world_size scheduler_block_size hash_block_size mc retention
  else match kv_cache_groups cfg with
  | [g] =>
      let bs := spec_block_size (group_spec g) in
      let bs := if dcp_world_size >? 1 then bs * dcp_world_size else bs in
      let bs := if pcp_world_size >? 1 then bs * pcp_world_size else bs in
      c ← KVCacheCoordinator_init (Unitary (group_spec g) bs dcp_world_size pcp_world_size) cfg
            max_model_len max_num_batched_tokens use_eagle enable_caching enable_events
            dcp_world_size pcp_world_size scheduler_block_size hash_block_size mc retention;
      _ ← assert_ (hash_block_size =? bs);
      Ok (with_state (with_use_eagle (bool_decide (0%nat ∈ eagle_group_ids c))
                        <$> single_type_managers c) (block_pool c) c)
  | _ =>
      c ← KVCacheCoordinator_init (Hybrid hash_block_size []) cfg max_model_len
            max_num_batched_tokens use_eagle enable_caching enable_events dcp_world_size
            pcp_world_size scheduler_block_size hash_block_size mc retention;
      _ ← assert_ (forallb (λ g, spec_block_size (group_spec g) mod hash_block_size =? 0)
                     (kv_cache_groups cfg));
      _ ← assert_ (dcp_world_size =? 1);
      _ ← assert_ (pcp_world_size =? 1);
      '(groups, ms) ←
        verify_and_split_kv_cache_groups cfg (single_type_managers c) (eagle_group_ids c);
      Ok (mkCoordinator (Hybrid hash_block_size groups) cfg enable_caching scheduler_block_size
            (block_pool c) (eagle_group_ids c) ms retention 0)
  end.

(** ** Operations over all managers *)

Definition coord_get_num_blocks_to_allocate rid (num_tokens : Z)
    (new_computed_blocks : list (list nat)) (num_encoder_tokens total_computed_tokens
     num_tokens_main_model : Z) (apply_admission_cap : bool) c
    : result (Z * KVCacheCoordinator Q) :=
  '(ns, ms, p) ← for_managers (λ i m p,
      '(n, m) ←
        (if decide (mclass m = CrossAttentionManager) then
           mgr_get_num_blocks_to_allocate p rid num_encoder_tokens [] 0 num_encoder_tokens
             apply_admission_cap m
         else
           bs ← py_get new_computed_blocks (Z.of_nat i);
           mgr_get_num_blocks_to_allocate p rid num_tokens bs total_computed_tokens
             num_tokens_main_model apply_admission_cap m);
      Ok (n, m, p)) 0%nat (single_type_managers c) (block_pool c);
  Ok (foldr Z.add 0 ns, with_state ms p c).

Definition coord_allocate_new_computed_blocks rid (new_computed_blocks : list (list nat))
    (num_local_computed_tokens num_external_computed_tokens : Z) c
    : result (KVCacheCoordinator Q) :=
  if existsb (λ m, bool_decide (is_Some (num_cached_block m !! rid))) (single_type_managers c) then
    _ ← assert_ (forallb (λ bs, zlen bs =? 0) new_computed_blocks); Ok c
  else
    '(_, ms, p) ← for_managers (λ i m p,
        bs ← py_get new_computed_blocks (Z.of_nat i);
        '(m, p) ← mgr_add_local_computed_blocks rid bs num_local_computed_tokens
                    num_external_computed_tokens m p;
        Ok ((), m, p)) 0%nat (single_type_managers c) (block_pool c);
    if num_external_computed_tokens >? 0 then
      '(_, ms, p) ← for_managers (λ _ m p,
          '(m, p) ← mgr_allocate_external_computed_blocks rid num_local_computed_tokens
                      num_external_computed_tokens m p;
          Ok ((), m, p)) 0%nat ms p;
      Ok (with_state ms p c)
    else Ok (with_state ms p c).

Definition coord_allocate_new_blocks rid (num_tokens num_tokens_main_model num_encoder_tokens : Z) c
    : result (list (list nat) * KVCacheCoordinator Q) :=
  '(bss, ms, p) ← for_managers (λ _ m p,
      mgr_allocate_new_blocks rid
        (if decide (mclass m = CrossAttentionManager) then num_encoder_tokens else num_tokens)
        num_tokens_main_model m p) 0%nat (single_type_managers c) (block_pool c);
  Ok (bss, with_state ms p c).

Definition coord_cache_blocks (r : Request) (num_computed_tokens : Z) c
    : result (KVCacheCoordinator Q * Request) :=
  let aligned_num_computed_tokens :=
    num_computed_tokens / coord_scheduler_block_size c * coord_scheduler_block_size c in
  '(_, ms, (p, r)) ← for_managers (λ _ m '(p, r),
      let num_tokens_to_cache :=
        match coord_kind c with
        | Hybrid _ _ =>
            if use_eagle m && (aligned_num_computed_tokens >? 0)
            then Z.min num_computed_tokens (aligned_num_computed_tokens + block_size m)
            else aligned_num_computed_tokens
        | _ => num_computed_tokens
        end in
      '(m, p, r) ← mgr_cache_blocks r num_tokens_to_cache (retention_interval c) m p;
      Ok ((), m, (p, r))) 0%nat (single_type_managers c) (block_pool c, r);
  Ok (with_state ms p c, r).

Definition coord_free rid c : result (KVCacheCoordinator Q) :=
  '(_, ms, p) ← for_managers (λ _ m p, '(m, p) ← mgr_free rid m p; Ok ((), m, p)) 0%nat
                  (single_type_managers c) (block_pool c);
  Ok (with_state ms p c).

Definition coord_pop_blocks_for_free rid c : list nat * KVCacheCoordinator Q :=
  let rs := mgr_pop_blocks_for_free rid <$> single_type_managers c in
  (concat (fst <$> rs), with_state (snd <$> rs) (block_pool c) c).

Definition coord_get_num_common_prefix_blocks rid c : result (list Z * KVCacheCoordinator Q) :=
  match coord_kind c with
  | NoPrefixCache => Ok (replicate (length (single_type_managers c)) 0, c)
  | _ =>
      '(ns, ms, p) ← for_managers (λ _ m p,
          '(n, m) ← mgr_get_num_common_prefix_blocks rid m p; Ok (n, m, p)) 0%nat
          (single_type_managers c) (block_pool c);
      Ok (ns, with_state ms p c)
  end.

Definition coord_remove_skipped_blocks rid (total_computed_tokens : Z)
    (num_prompt_tokens : option Z) c : result (KVCacheCoordinator Q) :=
  '(_, ms, p) ← for_managers (λ _ m p,
      '(m, p) ← mgr_remove_skipped_blocks rid total_computed_tokens num_prompt_tokens m p;
      Ok ((), m, p)) 0%nat (single_type_managers c) (block_pool c);
  Ok (with_state ms p c).

Definition coord_get_blocks rid c : list (list nat) := req_blocks rid <$> single_type_managers c.

Definition coord_new_step_starts c : KVCacheCoordinator Q :=
  with_state (mgr_new_step_starts <$> single_type_managers c) (block_pool c) c.

(** ** The longest cache hit *)

Definition _get_block_hashes (hashes : list bytes) (hash_block_size : Z) (spec : KVCacheSpec)
    : result BlockHashList :=
  if spec_block_size spec =? hash_block_size then Ok (HashList hashes) else
  v ← BlockHashListWithBlockSize_init hashes hash_block_size (spec_block_size spec);
  Ok (HashView v).

(** The state of the hybrid search within one pass over the groups. *)
Record hit_state := mkHit {
  curr_hit_length : Z;
  longest_hit_length : Z;
  hit_blocks_by_group : list (option (list nat));
  eagle_verified : gset nat;
}.

(** [for group_id, blocks in zip(group_ids, hit_blocks): by_group[group_id] = blocks] *)
Fixpoint zip_assign (group_ids : list nat) (blocks : list (list nat))
    (by_group : list (option (list nat))) : list (option (list nat)) :=
  match group_ids, blocks with
  | g :: group_ids, bs :: blocks => zip_assign group_ids blocks (<[g := Some bs]> by_group)
  | _, _ => by_group
  end.

Definition hybrid_group_step (hashes : list bytes) (hash_block_size scheduler_block_size
    max_cache_hit_length : Z) p (idx : nat) (s : hit_state) (g : SpecGroup) : result hit_state :=
  g0 ← of_option IndexError (head (sg_group_ids g));
  cached_blocks ← of_option IndexError (hit_blocks_by_group s !! g0);
  let bs := spec_block_size (sg_spec g) in
  if is_full_attention (sg_spec g) && bool_decide (is_Some cached_blocks) then
    Ok (mkHit (curr_hit_length s / bs * bs) (longest_hit_length s) (hit_blocks_by_group s)
          (eagle_verified s))
  else
    let drop_eagle_block := sg_use_eagle g && bool_decide (idx ∉ eagle_verified s) in
    let max_length :=
      if drop_eagle_block then Z.min (curr_hit_length s + bs) max_cache_hit_length
      else curr_hit_length s in
    hl ← _get_block_hashes hashes hash_block_size (sg_spec g);
    hit_blocks ← cls_find_longest_cache_hit (sg_manager_cls g) hl max_length
                   (Z.of_nat <$> sg_group_ids g) p (sg_spec g) drop_eagle_block
                   scheduler_block_size 1 1;
    l ← first_list hit_blocks;
    let new_hit_length := zlen l * bs in
    let verified :=
      if drop_eagle_block then {[ idx ]} ∪ eagle_verified s
      else if new_hit_length <? curr_hit_length s then ∅ else eagle_verified s in
    Ok (mkHit new_hit_length (Z.max (longest_hit_length s) new_hit_length)
          (zip_assign (sg_group_ids g) hit_blocks (hit_blocks_by_group s)) verified).

Fixpoint hybrid_pass (hashes : list bytes) (hash_block_size scheduler_block_size
    max_cache_hit_length : Z) p (idx : nat) (s : hit_state) (groups : list SpecGroup)
    : result hit_state :=
  match groups with
  | [] => Ok s
  | g :: groups =>
      s ← hybrid_group_step hashes hash_block_size scheduler_block_size max_cache_hit_length p
            idx s g;
      hybrid_pass hashes hash_block_size scheduler_block_size max_cache_hit_length p (S idx) s groups
  end.

(** The [while True] loop; returns the final hit length and state. *)
Fixpoint hybrid_loop (fuel : nat) (hashes : list bytes) (hash_block_size scheduler_block_size
    max_cache_hit_length : Z) p (groups : list SpecGroup) (is_simple_hybrid : bool)
    (hit_length longest : Z) (by_group : list (option (list nat))) (verified : gset nat)
    : result (Z * hit_state) :=
  match fuel with
  | O => Raise OutOfFuel
  | S fuel =>
      s ← hybrid_pass hashes hash_block_size scheduler_block_size max_cache_hit_length p 0
            (mkHit hit_length longest by_group verified) groups;
      if curr_hit_length s >=? hit_length then Ok (hit_length, s) else
      if is_simple_hybrid then Ok (curr_hit_length s, s) else
      hybrid_loop fuel hashes hash_block_size scheduler_block_size max_cache_hit_length p groups
        is_simple_hybrid (curr_hit_length s) (longest_hit_length s) (hit_blocks_by_group s)
        (eagle_verified s)
  end.

Definition hybrid_find_longest_cache_hit (hashes : list bytes) (max_cache_hit_length : Z)
    (hash_block_size scheduler_block_size : Z) (groups : list SpecGroup) (num_groups : nat) p
    : result (list (list nat) * Z * Z) :=
  first_group ← of_option IndexError (head groups);
  let is_simple_hybrid := (zlen groups =? 2) && is_full_attention (sg_spec first_group) in
  '(hit_length, s) ←
    hybrid_loop (S (S (Z.to_nat max_cache_hit_length))) hashes hash_block_size
      scheduler_block_size max_cache_hit_length p groups is_simple_hybrid max_cache_hit_length 0
      (replicate num_groups None) ∅;
  let by_group :=
    if is_full_attention (sg_spec first_group) then
      let n := Z.to_nat (hit_length / spec_block_size (sg_spec first_group)) in
      imap (λ i o, if decide (i ∈ sg_group_ids first_group) then take n <$> o else o)
        (hit_blocks_by_group s)
    else hit_blocks_by_group s in
  Ok (default [] <$> by_group, hit_length, longest_hit_length s - hit_length).

Definition coord_find_longest_cache_hit (hashes : list bytes) (max_cache_hit_length : Z) c
    : result (list (list nat) * Z * KVCacheCoordinator Q) :=
  match coord_kind c with
  | NoPrefixCache => Ok (replicate (length (single_type_managers c)) [], 0, c)
  | Unitary spec bs dcp pcp =>
      m ← of_option IndexError (head (single_type_managers c));
      hit_blocks ← cls_find_longest_cache_hit (mclass m) (HashList hashes) max_cache_hit_length
                     [0] (block_pool c) spec (bool_decide (0%nat ∈ eagle_group_ids c)) bs dcp pcp;
      l ← first_list hit_blocks;
      Ok (hit_blocks, zlen l * bs, c)
  | Hybrid hbs groups =>
      '(blocks, hit_length, uncached) ←
        hybrid_find_longest_cache_hit hashes max_cache_hit_length hbs
          (coord_scheduler_block_size c) groups (length (kv_cache_groups (kv_cache_config c)))
          (block_pool c);
      Ok (blocks, hit_length, with_uncached uncached c)
  end.

(** [find_longest_cache_hit_per_group] of the hybrid coordinator. *)
Definition hybrid_find_longest_cache_hit_per_group (hashes : list bytes)
    (max_cache_hit_length hash_block_size scheduler_block_size : Z) (groups : list SpecGroup)
    (num_groups : nat) p : result (list (list nat) * list Z) :=
  foldM (λ '(hit_blocks, hit_lengths) g,
    hl ← _get_block_hashes hashes hash_block_size (sg_spec g);
    blocks ← cls_find_longest_cache_hit (sg_manager_cls g) hl max_cache_hit_length
               (Z.of_nat <$> sg_group_ids g) p (sg_spec g) (sg_use_eagle g)
               scheduler_block_size 1 1;
    l ← first_list blocks;
    let group_hit := zlen l * spec_block_size (sg_spec g) in
    let pairs := zip (sg_group_ids g) blocks in
    Ok (fold_left (λ hb gb, <[gb.1 := gb.2]> hb) pairs hit_blocks,
        fold_left (λ hl gb, <[gb.1 := group_hit]> hl) pairs hit_lengths))
    (replicate num_groups [], replicate num_groups 0) groups.

End Coordinator.

(** ** Facts: ownership across all managers *)

(** References to blocks that are kept outside of the block tables: those of the blocks
    that were popped for a deferred free.  By default there are none. *)
Class Held : Type := held : nat → nat.

Section CoordFacts.
Context {Q : Type} `{!FreeQueueOps Q} `{!FreeQueueSpec Q} {env : PoolEnv} {kept : Held}.
Implicit Types (p : BlockPool Q) (c : KVCacheCoordinator Q) (ms : list SingleTypeKVCacheManager)
  (l : list nat).

(** References to a block in the tables of all managers. *)
Definition total ms (i : nat) : nat := sum_list_with (λ m, table_occ (req_to_blocks m) i) ms.
Definition others ms m (i : nat) : nat := (held i + (total ms i - table_occ (req_to_blocks m) i))%nat.

(** The invariant of a coordinator's managers over the shared pool. *)
Definition coord_inv ms p l : Prop :=
  pool_wf p l ∧ ∀ m, m ∈ ms → mgr_inv (others ms m) m p l.

Lemma sum_list_with_ge {A} (g : A → nat) x (xs : list A) : x ∈ xs → (g x ≤ sum_list_with g xs)%nat.
Proof. induction 1; cbn; lia. Qed.

Lemma others_total ms m i : m ∈ ms → (others ms m i + table_occ (req_to_blocks m) i = held i + total ms i)%nat.
Proof.
  intros Hm. unfold others.
  pose proof (sum_list_with_ge (λ m, table_occ (req_to_blocks m) i) m ms Hm). unfold total. lia.
Qed.

Lemma total_app ms1 ms2 i : (total (ms1 ++ ms2) i = total ms1 i + total ms2 i)%nat.
Proof. apply sum_list_with_app. Qed.

Lemma mgr_inv_frame_ext f g m p l : (∀ i, f i = g i) → mgr_inv f m p l → mgr_inv g m p l.
Proof.
  intros E [H1 H2 H3 H4 H5 H6]. split; try done.
  - intros i b. rewrite <- E. apply H3.
  - intros rid j b. rewrite <- E. apply H6.
Qed.

(** An operation of one manager preserves the invariant of all. *)
Lemma coord_inv_step pre m post p l m' p' l' :
  let ms := pre ++ m :: post in
  coord_inv ms p l →
  mgr_inv (others ms m) m' p' l' → frame (others ms m) m p m' p' →
  coord_inv (pre ++ m' :: post) p' l'.
Proof.
  intros ms [Hwf Hinv] Hm' [Hc Hst Hfr]. split; [apply (mi_pool _ _ _ _ Hm')|].
  assert (m ∈ ms) as Hmin by (apply elem_of_app; right; by left).
  assert (∀ i, others ms m i = held i + (total pre i + total post i))%nat as Hoth.
  { intros i. unfold others, ms. rewrite total_app. unfold total. cbn. lia. }
  assert (∀ i, held i + total (pre ++ m' :: post) i
    = others ms m i + table_occ (req_to_blocks m') i)%nat as Htot.
  { intros i. rewrite Hoth, total_app. unfold total. cbn. lia. }
  set (ms' := pre ++ m' :: post) in *.
  intros x Hx. pose proof (λ i, others_total ms' x i Hx) as Hox.
  assert (x = m' ∨ (x ∈ ms ∧ ∀ i, table_occ (req_to_blocks x) i ≤ others ms m i)%nat) as [->|[Hxm Hle]].
  { unfold ms' in Hx. apply elem_of_app in Hx. rewrite elem_of_cons in Hx. unfold ms.
    setoid_rewrite elem_of_app. setoid_rewrite elem_of_cons.
    destruct Hx as [Hx|[->|Hx]]; [|by left|]; right; (split; [tauto|]); intros i; rewrite Hoth;
      pose proof (sum_list_with_ge (λ m, table_occ (req_to_blocks m) i) x _ Hx); unfold total; lia. }
  { eapply mgr_inv_frame_ext; [|exact Hm']. intros i. specialize (Hox i). specialize (Htot i). lia. }
  destruct (Hinv x Hxm) as [H1 H2 H3 H4 H5 H6]. pose proof (mi_pool _ _ _ _ Hm') as Hwf'. split; try done.
  - by eapply mgr_ok_same.
  - intros i b Hb Hi. rewrite (mi_ref _ _ _ _ Hm' i b Hb Hi), Hox, Htot. done.
  - intros rid b Hb. apply (pool_valid p l p' l' b Hwf Hwf' Hc). by eapply H4.
  - intros rid j b Hen Hj Hb0 Hle'. replace (enable_caching p') with (enable_caching p) in Hen
      by (unfold pool_config in Hc; congruence).
    destruct (H6 rid j b Hen Hj Hb0 Hle') as [Hone Hu].
    assert (0 < occ b (req_blocks rid x))%nat by (apply occ_pos; by eapply list_elem_of_lookup_2).
    pose proof (occ_le_table (req_to_blocks x) rid b) as Hge. unfold req_blocks in *. specialize (Hle b).
    destruct (Hfr b Hb0 ltac:(lia) Hu) as [Hu' Hm]. split; [|done]. specialize (Hox b). specialize (Htot b).
    pose proof (others_total ms x b Hxm). pose proof (others_total ms m b Hmin). lia.
Qed.

(** Rule for a loop over the managers.  The assertion speaks about the
    managers already processed, before ([dn]) and after ([dn']) their step,
    and about the values they produced. *)
Lemma for_managers_rule {A S} (g : nat → SingleTypeKVCacheManager → S →
      result (A * SingleTypeKVCacheManager * S))
    (I : list SingleTypeKVCacheManager → list SingleTypeKVCacheManager → list A → S → Prop) ms s :
  I [] [] [] s →
  (∀ dn m rest dn' as_ s, ms = dn ++ m :: rest → length dn' = length dn → I dn dn' as_ s →
     ∃ a m' s', g (length dn) m s = Ok (a, m', s') ∧ I (dn ++ [m]) (dn' ++ [m']) (as_ ++ [a]) s') →
  ∃ as_ ms' s', for_managers g 0%nat ms s = Ok (as_, ms', s') ∧ length ms' = length ms ∧ I ms ms' as_ s'.
Proof.
  intros H0 Hstep.
  enough (∀ rest dn dn' as0 s, ms = dn ++ rest → length dn' = length dn → I dn dn' as0 s →
    ∃ as_ ms' s', for_managers g (length dn) rest s = Ok (as_, ms', s') ∧ length ms' = length rest ∧
      I ms (dn' ++ ms') (as0 ++ as_) s') as Hgen.
  { exact (Hgen ms [] [] [] s eq_refl eq_refl H0). }
  intros rest. induction rest as [|m rest IH]; intros dn dn' as0 s1 Hms Hlen HI; cbn [for_managers].
  { exists [], [], s1. rewrite !app_nil_r in *. subst ms. done. }
  destruct (Hstep dn m rest dn' as0 s1 Hms Hlen HI) as (a & m' & s2 & -> & HI2).
  unfold mbind; cbn [result_bind].
  destruct (IH (dn ++ [m]) (dn' ++ [m']) (as0 ++ [a]) s2) as (as_ & ms' & s3 & E & Hl & HI3).
  - by rewrite Hms, <- app_assoc.
  - rewrite !length_app. cbn. lia.
  - done.
  - rewrite length_app in E. cbn in E. rewrite E. exists (a :: as_), (m' :: ms'), s3.
    rewrite <- !app_assoc in HI3. split; [done|]. split; [cbn; lia|]. exact HI3.
Qed.

(** The same rule with the ownership invariant built in; [pr] reads the pool
    from the loop's state. *)
Lemma coord_loop {A S} (pr : S → BlockPool Q)
    (g : nat → SingleTypeKVCacheManager → S → result (A * SingleTypeKVCacheManager * S))
    (I : list SingleTypeKVCacheManager → list SingleTypeKVCacheManager → list A → S → list nat → Prop)
    ms s l :
  coord_inv ms (pr s) l → I [] [] [] s l →
  (∀ dn m rest dn' as_ s1 l1, ms = dn ++ m :: rest → length dn' = length dn →
     coord_inv (dn' ++ m :: rest) (pr s1) l1 → pool_config (pr s1) = pool_config (pr s) →
     I dn dn' as_ s1 l1 →
     let f := others (dn' ++ m :: rest) m in
     mgr_inv f m (pr s1) l1 →
     ∃ a m' s' l', g (length dn) m s1 = Ok (a, m', s') ∧ mgr_inv f m' (pr s') l' ∧
       frame f m (pr s1) m' (pr s') ∧ I (dn ++ [m]) (dn' ++ [m']) (as_ ++ [a]) s' l') →
  ∃ as_ ms' s' l', for_managers g 0%nat ms s = Ok (as_, ms', s') ∧ coord_inv ms' (pr s') l' ∧
    I ms ms' as_ s' l' ∧ pool_config (pr s') = pool_config (pr s) ∧
    Forall2 (λ m m', mgr_static m' = mgr_static m) ms ms'.
Proof.
  intros Hinv H0 Hstep.
  destruct (for_managers_rule g (λ dn dn' as_ s1, ∃ l1,
      coord_inv (dn' ++ drop (length dn) ms) (pr s1) l1 ∧ I dn dn' as_ s1 l1 ∧
      pool_config (pr s1) = pool_config (pr s) ∧
      Forall2 (λ m m', mgr_static m' = mgr_static m) dn dn') ms s)
    as (as_ & ms' & s' & E & Hl & l' & H1 & H2 & H3 & H4).
  - exists l. cbn. done.
  - intros dn m rest dn' as_ s1 Hms Hlen (l1 & I1 & I2 & I3 & I4).
    rewrite Hms, drop_app_length in I1.
    assert (m ∈ dn' ++ m :: rest) as Hm by (apply elem_of_app; right; by left).
    destruct (Hstep dn m rest dn' as_ s1 l1 Hms Hlen I1 I3 I2 (proj2 I1 m Hm))
      as (a & m' & s2 & l2 & Eg & G1 & G2 & G3).
    exists a, m', s2. split; [done|]. exists l2. split; [|split; [done|split]].
    + rewrite Hms, length_app. cbn. replace (drop (length dn + 1) (dn ++ m :: rest)) with rest.
      * rewrite <- app_assoc. by eapply coord_inv_step.
      * by rewrite <- drop_drop, drop_app_length.
    + rewrite (fr_config _ _ _ _ _ G2). done.
    + apply Forall2_app; [done|]. constructor; [|constructor]. by apply (fr_static _ _ _ _ _ G2).
  - exists as_, ms', s', l'. rewrite drop_all, app_nil_r in H1. done.
Qed.

(** Freeing a request in every manager. *)
Lemma coord_free_ok rid c l :
  coord_inv (single_type_managers c) (block_pool c) l →
  ∃ c' l', coord_free rid c = Ok c' ∧ c' = with_state (single_type_managers c') (block_pool c') c ∧
    coord_inv (single_type_managers c') (block_pool c') l' ∧
    pool_config (block_pool c') = pool_config (block_pool c) ∧ sublist l l' ∧
    Forall2 (λ m m', mgr_static m' = mgr_static m ∧ req_to_blocks m' = delete rid (req_to_blocks m) ∧
               num_cached_block m' = delete rid (num_cached_block m))
      (single_type_managers c) (single_type_managers c').
Proof.
  intros Hinv. unfold coord_free.
  edestruct (coord_loop id (λ _ m p, '(m, p) ← mgr_free rid m p; Ok ((), m, p))
    (λ dn dn' _ _ l', sublist l l' ∧ Forall2 (λ m m', req_to_blocks m' = delete rid (req_to_blocks m) ∧
               num_cached_block m' = delete rid (num_cached_block m)) dn dn') _ _ l Hinv)
    as (as_ & ms' & p' & l' & -> & H1 & [H2 H3] & H4 & H5).
  - by split; [|constructor].
  - intros dn m rest dn' as_ p1 l1 Hms Hlen Hc1 Hcfg [Hsub HF] f Hm.
    destruct (mgr_free_ok f rid m p1 l1 Hm) as (m' & p2 & l2 & E & G1 & G2 & G3 & G4 & G5).
    exists (), m', p2, l2. cbn [id]. rewrite E. split; [done|]. split; [done|]. split; [done|].
    split; [destruct G5 as [? _]; by etransitivity|]. apply Forall2_app; [done|]. by constructor.
  - eexists _, l'. split; [reflexivity|]. cbn. split; [done|]. split; [done|]. split; [done|]. split; [done|].
    clear -H3 H5. induction H3 as [|m m' ms ms' [? ?] HF IH]; inversion H5; subst; constructor; auto.
Qed.

(** Dropping what a request no longer attends to, in every manager. *)
Definition same_lengths (rid : string) m m' : Prop :=
  mgr_static m' = mgr_static m ∧ num_cached_block m' = num_cached_block m ∧
  (∀ rid', rid' ≠ rid → req_blocks rid' m' = req_blocks rid' m) ∧
  length (req_blocks rid m') = length (req_blocks rid m).

Lemma coord_remove_skipped_ok rid n nprompt c l :
  coord_inv (single_type_managers c) (block_pool c) l →
  Forall (λ m, base_class (mclass m) = true) (single_type_managers c) →
  (∀ k, nprompt = Some k → 0 ≤ k) →
  ∃ c' l', coord_remove_skipped_blocks rid n nprompt c = Ok c' ∧
    c' = with_state (single_type_managers c') (block_pool c') c ∧
    coord_inv (single_type_managers c') (block_pool c') l' ∧
    pool_config (block_pool c') = pool_config (block_pool c) ∧
    (sublist l l' ∧ ∀ i, unhashed (block_pool c') i ↔ unhashed (block_pool c) i) ∧
    Forall2 (same_lengths rid) (single_type_managers c) (single_type_managers c').
Proof.
  intros Hinv Hbase Hnp. unfold coord_remove_skipped_blocks.
  edestruct (coord_loop id (λ _ m p, '(m, p) ← mgr_remove_skipped_blocks rid n nprompt m p; Ok ((), m, p))
    (λ dn dn' _ p1 l', (sublist l l' ∧ ∀ i, unhashed p1 i ↔ unhashed (block_pool c) i) ∧
       Forall2 (same_lengths rid) dn dn') _ _ l Hinv)
    as (as_ & ms' & p' & l' & -> & H1 & [H2 H3] & H4 & _).
  - split; [|constructor]. by split.
  - intros dn m rest dn' as_ p1 l1 Hms Hlen Hc1 Hcfg [Hsub HF] f Hm.
    rewrite Hms in Hbase. apply Forall_app in Hbase as [_ Hb%Forall_cons_1]. destruct Hb as [Hb _].
    destruct (remove_skipped_ok f rid n nprompt m p1 l1 Hm Hb Hnp)
      as (m' & p2 & l2 & E & G1 & G2 & G3 & G4 & G5 & G6).
    exists (), m', p2, l2. cbn [id]. rewrite E. split; [done|]. split; [done|]. split; [done|].
    split; [|apply Forall2_app; [done|]; constructor; [|constructor]].
    + destruct Hsub as [Hs1 Hs2], G3 as [Hs3 Hs4]. split; [by etransitivity|]. intros i. by rewrite Hs4, Hs2.
    + split; [apply (fr_static _ _ _ _ _ G2)|done].
  - eexists _, l'. split; [reflexivity|]. cbn. done.
Qed.

(** ** Facts: allocation cannot fail once the capacity check has passed *)

(** The number of tokens a manager needs slots for, and the blocks it lacks. *)
Definition slot_tokens (n enc : Z) m : Z :=
  if decide (mclass m = CrossAttentionManager) then enc else n.
Definition missing rid (n enc : Z) m : nat :=
  Z.to_nat (cdiv (slot_tokens n enc m) (block_size m) - zlen (req_blocks rid m)).

(** A manager whose table of [rid] has grown by [new]. *)
Definition extended rid m (new : list nat) m' : Prop :=
  mgr_static m' = mgr_static m ∧ num_cached_block m' = num_cached_block m ∧
  (∀ rid', rid' ≠ rid → req_blocks rid' m' = req_blocks rid' m) ∧
  req_blocks rid m' = req_blocks rid m ++ new.

Lemma base_class_alloc rid n nmain m p :
  base_class (mclass m) = true →
  mgr_allocate_new_blocks rid n nmain m p = base_allocate_new_blocks rid n m p.
Proof. unfold mgr_allocate_new_blocks. by destruct (mclass m). Qed.

Lemma coord_allocate_new_ok rid n nmain enc c l :
  let ms := single_type_managers c in
  coord_inv ms (block_pool c) l → Forall (λ m, base_class (mclass m) = true) ms →
  (sum_list_with (missing rid n enc) ms ≤ length l)%nat →
  ∃ bss c' l', coord_allocate_new_blocks rid n nmain enc c = Ok (bss, c') ∧
    c' = with_state (single_type_managers c') (block_pool c') c ∧
    coord_inv (single_type_managers c') (block_pool c') l' ∧
    pool_config (block_pool c') = pool_config (block_pool c) ∧
    Forall3 (λ m bs m', extended rid m bs m' ∧ length bs = missing rid n enc m) ms bss
      (single_type_managers c') ∧
    (length l' + sum_list_with (missing rid n enc) ms = length l)%nat.
Proof.
  intros ms Hinv Hbase Hcap. unfold coord_allocate_new_blocks. fold ms.
  edestruct (coord_loop id (λ _ m p, mgr_allocate_new_blocks rid
        (if decide (mclass m = CrossAttentionManager) then enc else n) nmain m p)
    (λ dn dn' bss _ l', Forall3 (λ m bs m', extended rid m bs m' ∧ length bs = missing rid n enc m) dn bss dn' ∧
       length l' + sum_list_with (missing rid n enc) dn = length l)%nat ms (block_pool c) l Hinv)
    as (bss & ms' & p' & l' & -> & H1 & [H2 H3] & H4 & _).
  - split; [constructor|cbn; lia].
  - intros dn m rest dn' bss p1 l1 Hms Hlen Hc1 Hcfg [HF Hsum] f Hm.
    rewrite Hms in Hbase, Hcap. apply Forall_app in Hbase as [_ Hb%Forall_cons_1]. destruct Hb as [Hb _].
    rewrite sum_list_with_app in Hcap. cbn in Hcap.
    rewrite base_class_alloc by done.
    destruct (base_allocate_new_ok f rid (slot_tokens n enc m) m p1 l1 Hm) as (m' & p2 & E & G1 & G2 & G3 & G4 & G5).
    { fold (missing rid n enc m). lia. }
    fold (missing rid n enc m) in *. eexists _, m', p2, _. cbn [id].
    split; [exact E|]. split; [exact G1|]. split; [done|]. split.
    + apply Forall3_app; [done|]. constructor; [|constructor]. split.
      * split; [apply (fr_static _ _ _ _ _ G2)|done].
      * rewrite length_take. lia.
    + rewrite sum_list_with_app, length_drop. cbn. lia.
  - eexists bss, _, l'. split; [reflexivity|]. cbn. done.
Qed.

(** Blocks that a hit may consist of: null, or cached. *)
Definition hit_ok p (bs : list nat) : Prop :=
  ∀ b, b ∈ bs → is_Some (blocks p !! b) ∧ (b ≠ 0%nat → ¬ unhashed p b).

Definition skip_blocks (n : Z) m : nat := Z.to_nat (get_num_skipped_tokens m n / block_size m).

(** The table that [add_local_computed_blocks] builds from a hit. *)
Definition hit_table (n : Z) m (bs : list nat) : list nat :=
  if decide (mclass m = CrossAttentionManager) then []
  else replicate (skip_blocks n m) 0%nat ++ drop (skip_blocks n m) bs.
(** The part of a hit that the request takes references to, and how many of
    these blocks are free at the time of the check. *)
Definition hit_taken (n : Z) m (bs : list nat) : list nat :=
  if decide (mclass m = CrossAttentionManager) then [] else drop (skip_blocks n m) bs.
Definition evictable l (n : Z) (mb : SingleTypeKVCacheManager * list nat) : nat :=
  length (filter (λ b, b ∈ l) (hit_taken n mb.1 mb.2)).

Definition adopted rid (n : Z) m (bs : list nat) m' : Prop :=
  mgr_static m' = mgr_static m ∧
  (∀ rid', rid' ≠ rid → req_blocks rid' m' = req_blocks rid' m) ∧
  req_blocks rid m' = hit_table n m bs ∧
  num_cached_block m' = (if decide (mclass m = CrossAttentionManager) then num_cached_block m
                         else <[rid := zlen (hit_table n m bs)]> (num_cached_block m)).

Lemma filter_taken l l1 (X : list nat) :
  NoDup l1 → l1 ⊆ l →
  (length l1 ≤ length (filter (λ i, i ∉ X) l1) + length (filter (λ b, b ∈ l) X))%nat.
Proof.
  intros Hnd Hsub.
  assert (length l1 = length (filter (λ i, i ∈ X) l1) + length (filter (λ i, i ∉ X) l1))%nat as ->.
  { rewrite <- length_app. apply Permutation_length. symmetry.
    induction l1 as [|x l1 IH]; [done|]. apply NoDup_cons in Hnd as [_ Hnd].
    rewrite !filter_cons. specialize (IH Hnd ltac:(set_solver)).
    destruct (decide (x ∈ X)); [rewrite decide_False by tauto; cbn; by f_equiv|].
    rewrite decide_True by done. rewrite <- Permutation_middle. by f_equiv. }
  assert (length (filter (λ i, i ∈ X) l1) ≤ length (filter (λ b, b ∈ l) X))%nat; [|lia].
  apply submseteq_length, NoDup_submseteq; [by apply NoDup_filter|].
  intros x. rewrite !list_elem_of_filter. intros [? ?]. split; [by apply Hsub|done].
Qed.

Lemma add_local_class rid bs a b m p :
  mclass m ≠ CrossAttentionManager →
  mgr_add_local_computed_blocks rid bs a b m p = base_add_local_computed_blocks rid bs a b m p.
Proof. unfold mgr_add_local_computed_blocks. by destruct (mclass m). Qed.

Lemma coord_add_local_ok rid bss nlocal next ms p l :
  coord_inv ms p l → (∀ m, m ∈ ms → req_blocks rid m = []) →
  length bss = length ms → Forall (hit_ok p) bss →
  (enable_caching p = false → Forall (λ bs, bs = []) bss) →
  Forall2 (λ m bs, mclass m = CrossAttentionManager → bs = []) ms bss →
  ∃ u ms' p' l', for_managers (λ i m p,
        bs ← py_get bss (Z.of_nat i);
        '(m, p) ← mgr_add_local_computed_blocks rid bs nlocal next m p;
        Ok ((), m, p)) 0%nat ms p = Ok (u, ms', p') ∧
    coord_inv ms' p' l' ∧ pool_config p' = pool_config p ∧
    Forall3 (adopted rid (nlocal + next)) ms bss ms' ∧
    (length l ≤ length l' + sum_list_with (evictable l (nlocal + next)) (zip ms bss))%nat.
Proof.
  intros Hinv Hfresh Hlen Hhit Hdis Hcross. set (n := nlocal + next).
  edestruct (coord_loop id (λ i m p,
        bs ← py_get bss (Z.of_nat i);
        '(m, p) ← mgr_add_local_computed_blocks rid bs nlocal next m p;
        Ok ((), m, p))
    (λ dn dn' _ p1 l1, Forall3 (adopted rid n) dn (take (length dn) bss) dn' ∧ l1 ⊆ l ∧
       (length l ≤ length l1 + sum_list_with (evictable l n) (zip dn (take (length dn) bss)))%nat ∧
       ∀ i, is_Some (blocks p !! i) → ¬ unhashed p i → ¬ unhashed p1 i) ms p l Hinv)
    as (u & ms' & p' & l' & E & H1 & (H2 & _ & H3 & _) & H4 & _).
  - rewrite take_0. split; [constructor|]. split; [done|]. split; [cbn; lia|done].
  - intros dn m rest dn' u p1 l1 Hms Hl Hc1 Hcfg (HF & Hsub & Hsum & Hkeep) f Hm. cbn [id] in *.
    assert (ms !! length dn = Some m) as Hmk by (by rewrite Hms, list_lookup_middle).
    destruct (lookup_lt_is_Some_2 bss (length dn)) as [bs Hbs].
    { rewrite Hlen. by eapply lookup_lt_Some. }
    assert (m ∈ ms) as Hmin by (by eapply list_elem_of_lookup_2).
    assert (zip (dn ++ [m]) (take (length dn) bss ++ [bs]) = zip dn (take (length dn) bss) ++ [(m, bs)]) as Hzip.
    { rewrite zip_with_app; [done|]. rewrite length_take. apply lookup_lt_Some in Hbs. lia. }
    rewrite (proj2 (py_get_nat bss (length dn) bs) Hbs). unfold mbind at 1; cbn [result_bind].
    rewrite length_app, Nat.add_1_r, (take_S_r bss _ bs), Hzip, sum_list_with_app by done.
    cbn [sum_list_with].
    change (evictable l n (m, bs)) with (length (filter (λ b, b ∈ l) (hit_taken n m bs))).
    destruct (decide (mclass m = CrossAttentionManager)) as [Hx|Hx].
    + assert (bs = []) as -> by (by eapply (Forall2_lookup_lr _ _ _ _ _ _ Hcross Hmk Hbs)).
      unfold mgr_add_local_computed_blocks. rewrite Hx. cbn. exists (), m, p1, l1.
      split; [done|]. split; [done|]. split; [apply frame_refl|]. split; [|split; [done|split; [lia|done]]].
      apply Forall3_app; [done|]. constructor; [|constructor]. unfold adopted, hit_table.
      rewrite !decide_True by done. split; [done|]. split; [done|]. split; [by apply Hfresh|done].
    + rewrite add_local_class by done.
      destruct (add_local_ok f rid bs nlocal next m p1 l1 Hm) as (m' & p2 & -> & G1 & G2 & G3 & G4 & G5 & G6).
      * by apply Hfresh.
      * rewrite Forall_forall in Hhit. specialize (Hhit bs (list_elem_of_lookup_2 _ _ _ Hbs)).
        intros b Hb. destruct (Hhit b Hb) as [Hv Hh]. split; [|intros H0; by apply Hkeep, Hh].
        by apply (pool_valid p l p1 l1 b (proj1 Hinv) (proj1 Hc1) Hcfg).
      * unfold pool_config in Hcfg. intros Hen. replace (enable_caching p1) with (enable_caching p) in Hen by congruence.
        specialize (Hdis Hen). rewrite Forall_forall in Hdis. by eapply Hdis, list_elem_of_lookup_2.
      * change (Z.to_nat (get_num_skipped_tokens m (nlocal + next) / block_size m)) with (skip_blocks n m) in G1, G3, G4.
        eexists (), m', p2, _. unfold mbind; cbn [result_bind].
        split; [done|]. split; [exact G1|]. split; [done|]. unfold hit_taken. rewrite decide_False by done.
        split; [|split; [|split]].
        -- apply Forall3_app; [done|]. constructor; [|constructor]. unfold adopted, hit_table.
           rewrite !decide_False by done. split; [apply (fr_static _ _ _ _ _ G2)|]. done.
        -- intros x [_ Hxl]%list_elem_of_filter. by apply Hsub.
        -- pose proof (filter_taken l l1 (drop (skip_blocks n m) bs)
             (fq_rep_nodup _ _ (wf_queue _ _ (proj1 (mi_pool _ _ _ _ Hm)))) Hsub). lia.
        -- intros i Hv Hu. apply G6; [|by apply Hkeep].
           by apply (pool_valid p l p1 l1 i (proj1 Hinv) (proj1 Hc1) Hcfg).
  - exists u, ms', p', l'. rewrite take_ge in H2, H3 by lia. done.
Qed.

(** Blocks for the tokens that a connector loads. *)
Lemma coord_external_ok rid nlocal next N enc ms p l :
  coord_inv ms p l → nlocal + next ≤ N →
  (∀ m, m ∈ ms → mclass m ≠ CrossAttentionManager →
     zlen (req_blocks rid m) ≤ cdiv (nlocal + next) (block_size m)) →
  (sum_list_with (missing rid N enc) ms ≤ length l)%nat →
  ∃ u ms' p' l', for_managers (λ _ m p,
      '(m, p) ← mgr_allocate_external_computed_blocks rid nlocal next m p;
      Ok ((), m, p)) 0%nat ms p = Ok (u, ms', p') ∧
    coord_inv ms' p' l' ∧ pool_config p' = pool_config p ∧
    Forall2 (λ m m', ∃ new, extended rid m new m') ms ms' ∧
    (length l + sum_list_with (missing rid N enc) ms' = length l' + sum_list_with (missing rid N enc) ms)%nat.
Proof.
  intros Hinv HN Hlen Hcap. set (n := nlocal + next) in *.
  edestruct (coord_loop id (λ (_ : nat) m p,
      '(m, p) ← mgr_allocate_external_computed_blocks rid nlocal next m p; Ok ((), m, p))
    (λ dn dn' _ p1 l1, Forall2 (λ m m', ∃ new, extended rid m new m') dn dn' ∧
      length l + sum_list_with (missing rid N enc) dn' = length l1 + sum_list_with (missing rid N enc) dn)%nat
      ms p l Hinv) as (u & ms' & p' & l' & E & H1 & (H2 & H3) & H4 & _).
  - split; [constructor|cbn; lia].
  - intros dn m rest dn' u p1 l1 Hms Hl Hc1 Hcfg [HF Hsum] f Hm. cbn [id] in *.
    assert (m ∈ ms) as Hmin by (rewrite Hms; apply elem_of_app; right; by left).
    rewrite Hms, sum_list_with_app in Hcap. cbn [sum_list_with] in Hcap.
    assert (∀ m', extended rid m [] m' → missing rid N enc m' = missing rid N enc m) as Hnil.
    { intros m' (Hst & _ & _ & Hr). unfold missing, slot_tokens. rewrite Hr, app_nil_r. unfold mgr_static in Hst.
      replace (mclass m') with (mclass m) by congruence. by replace (block_size m') with (block_size m) by congruence. }
    assert (∃ new m' p2, mgr_allocate_external_computed_blocks rid nlocal next m p1 = Ok (m', p2) ∧
      mgr_inv f m' p2 (drop (length new) l1) ∧ frame f m p1 m' p2 ∧ extended rid m new m' ∧
      (length new + missing rid N enc m' = missing rid N enc m ∧ length new ≤ length l1)%nat)
      as (new & m' & p2 & -> & G1 & G2 & G3 & G4 & G5).
    { destruct (decide (mclass m = CrossAttentionManager)) as [Hx|Hx].
      - exists [], m, p1. unfold mgr_allocate_external_computed_blocks. rewrite Hx. cbn [drop length].
        assert (extended rid m [] m) as Hex by (unfold extended; by rewrite app_nil_r).
        split; [done|]. split; [done|]. split; [apply frame_refl|]. split; [done|]. lia.
      - specialize (Hlen m Hmin Hx). pose proof (mgr_bs_pos _ _ (mi_ok _ _ _ _ Hm)) as Hbs.
        pose proof (cdiv_mono n N (block_size m) Hbs HN) as Hmono.
        assert (missing rid N enc m = Z.to_nat (cdiv N (block_size m) - zlen (req_blocks rid m))) as Hmi.
        { unfold missing, slot_tokens. by rewrite decide_False. }
        destruct (base_allocate_external_ok f rid nlocal next m p1 l1 Hm)
          as (k & m' & p2 & E & Hk & G1 & G2 & G3 & G4 & G5); [done|fold n; lia|].
        fold n in Hk. exists (take k l1), m', p2.
        assert (length (take k l1) = k) as Hlk by (rewrite length_take; lia). rewrite Hlk.
        assert (extended rid m (take k l1) m') as Hex.
        { split; [apply (fr_static _ _ _ _ _ G2)|done]. }
        split; [unfold mgr_allocate_external_computed_blocks; by destruct (mclass m)|].
        split; [done|]. split; [done|]. split; [done|]. rewrite Hmi.
        unfold missing, slot_tokens. pose proof (fr_static _ _ _ _ _ G2) as Hst. unfold mgr_static in Hst.
        replace (mclass m') with (mclass m) by congruence. replace (block_size m') with (block_size m) by congruence.
        rewrite decide_False by done. rewrite G3, length_app, Hlk. lia. }
    eexists (), m', p2, _. unfold mbind; cbn [result_bind]. split; [done|]. split; [exact G1|]. split; [done|]. split.
    + apply Forall2_app; [done|]. constructor; [by exists new|constructor].
    + rewrite !sum_list_with_app, length_drop. cbn. lia.
  - exists u, ms', p', l'. done.
Qed.

(** ** Facts: the number of blocks a step needs *)

Lemma evictable_count p l bs :
  pool_wf p l → (∀ b, b ∈ bs → is_Some (blocks p !! b)) →
  _get_num_evictable_blocks p bs = Ok (zlen (filter (λ b, b ∈ l) bs)).
Proof.
  intros [Hc _]. unfold _get_num_evictable_blocks.
  assert (∀ n, (∀ b, b ∈ bs → is_Some (blocks p !! b)) →
    foldM (λ n b, blk ← get_block p b; Ok (if (ref_cnt blk =? 0) && negb (is_null blk) then n + 1 else n)) n bs
    = Ok (n + zlen (filter (λ b, b ∈ l) bs))) as Hgen; [|intros H; by rewrite Hgen].
  induction bs as [|b bs IH]; intros n Hv; cbn [foldM].
  { cbn. by rewrite Z.add_0_r. }
  destruct (Hv b) as [blk Hb]; [by left|]. unfold get_block. rewrite Hb. cbn [of_option].
  unfold mbind; cbn [result_bind]. unfold mbind in IH. rewrite IH by (intros; apply Hv; by right).
  f_equal. rewrite filter_cons. destruct (wf_ids _ _ Hc b blk Hb) as [_ Hn]. rewrite Hn.
  pose proof (wf_free _ _ Hc b) as Hfree.
  destruct (Z.eqb_spec (ref_cnt blk) 0) as [Hr|Hr]; cbn [andb].
  - destruct (decide (b = 0%nat)) as [->|Hb0].
    + rewrite bool_decide_eq_true_2 by done. cbn [negb].
      rewrite decide_False by (rewrite Hfree; tauto). done.
    + rewrite bool_decide_eq_false_2 by done. cbn [negb]. rewrite decide_True by (rewrite Hfree; eauto). cbn. lia.
  - rewrite decide_False; [done|]. rewrite Hfree. intros (_ & blk' & Hb' & ?). congruence.
Qed.

(** What [get_num_blocks_to_allocate] of the base class computes. *)
Definition blocks_needed l (cap : bool) rid (N n : Z) m (bs : list nat) : Z :=
  let req := cdiv N (block_size m) in
  let req := match m.(_max_admission_blocks_per_request) with
             | Some a => if cap then Z.min req a else req | None => req end in
  let k := get_num_skipped_tokens m n / block_size m in
  let have := zlen (req_blocks rid m) in
  match num_cached_block m !! rid with
  | Some _ => Z.max (req - have) 0
  | None => Z.max (req - Z.max k (zlen bs + have)) 0 +
            zlen (filter (λ b, b ∈ l) (py_from bs (Z.max 0 (k - have))))
  end.

Lemma py_from_sub {A} (l : list A) a x : x ∈ py_from l a → x ∈ l.
Proof.
  unfold py_from, py_slice. intros Hx. eapply sublist_subseteq; [|exact Hx].
  etransitivity; [apply sublist_take|apply sublist_drop].
Qed.

Lemma base_need_ok l p rid N n cap m bs :
  pool_wf p l → (∀ b, b ∈ bs → is_Some (blocks p !! b)) →
  (is_Some (num_cached_block m !! rid) → bs = []) →
  base_get_num_blocks_to_allocate p rid N bs n cap m = Ok (blocks_needed l cap rid N n m bs).
Proof.
  intros Hwf Hv Hrun. unfold base_get_num_blocks_to_allocate, blocks_needed. cbv zeta.
  destruct (num_cached_block m !! rid) as [x|] eqn:E.
  - rewrite decide_True by eauto. rewrite Hrun by eauto. done.
  - rewrite decide_False by (by intros [? [=]]).
    rewrite (evictable_count p l); [done|done|]. intros b Hb%py_from_sub. by apply Hv.
Qed.

(** The tokens and hits a manager is asked about. *)
Definition coord_needed l (cap : bool) rid (N enc n : Z) (mb : SingleTypeKVCacheManager * list nat) : Z :=
  if decide (mclass mb.1 = CrossAttentionManager) then blocks_needed l cap rid enc 0 mb.1 []
  else blocks_needed l cap rid N n mb.1 mb.2.

Definition zsum {A} (g : A → Z) (xs : list A) : Z := foldr (λ x z, g x + z) 0 xs.
Lemma zsum_app {A} (g : A → Z) xs ys : zsum g (xs ++ ys) = zsum g xs + zsum g ys.
Proof. induction xs as [|x xs IH]; cbn; [done|]. fold (zsum g (xs ++ ys)) (zsum g xs). lia. Qed.
Lemma foldr_add_app xs ys : foldr Z.add 0 (xs ++ ys) = foldr Z.add 0 xs + foldr Z.add 0 ys.
Proof. induction xs as [|x xs IH]; cbn; [done|]. lia. Qed.

Lemma with_state_id c : with_state (single_type_managers c) (block_pool c) c = c.
Proof. by destruct c. Qed.

Lemma coord_need_ok rid N bss enc n nmain cap c l :
  let ms := single_type_managers c in
  pool_wf (block_pool c) l → Forall (λ m, base_class (mclass m) = true) ms →
  length bss = length ms → (∀ bs b, bs ∈ bss → b ∈ bs → is_Some (blocks (block_pool c) !! b)) →
  (∀ m bs, (m, bs) ∈ zip ms bss → is_Some (num_cached_block m !! rid) → bs = []) →
  coord_get_num_blocks_to_allocate rid N bss enc n nmain cap c
  = Ok (zsum (coord_needed l cap rid N enc n) (zip ms bss), c).
Proof.
  intros ms Hwf Hbase Hlen Hv Hrun. unfold coord_get_num_blocks_to_allocate. fold ms.
  match goal with |- context [for_managers ?g _ _ _] =>
    destruct (for_managers_rule g (λ dn dn' ns p1, dn' = dn ∧ p1 = block_pool c ∧
      foldr Z.add 0 ns = zsum (coord_needed l cap rid N enc n) (zip dn (take (length dn) bss))) ms (block_pool c))
      as (ns & ms' & p' & E & _ & -> & -> & Hsum)
  end.
  - done.
  - intros dn m rest dn' ns p1 Hms Hl (-> & -> & Hs).
    assert (ms !! length dn = Some m) as Hmk by (by rewrite Hms, list_lookup_middle).
    destruct (lookup_lt_is_Some_2 bss (length dn)) as [bs Hbs].
    { rewrite Hlen. by eapply lookup_lt_Some. }
    assert ((m, bs) ∈ zip ms bss) as Hz.
    { eapply list_elem_of_lookup_2. apply lookup_zip_Some. done. }
    assert (base_class (mclass m) = true) as Hb.
    { rewrite Forall_forall in Hbase. by eapply Hbase, list_elem_of_lookup_2. }
    assert ((if decide (mclass m = CrossAttentionManager)
       then mgr_get_num_blocks_to_allocate (block_pool c) rid enc [] 0 enc cap m
       else bs0 ← py_get bss (Z.of_nat (length dn));
            mgr_get_num_blocks_to_allocate (block_pool c) rid N bs0 n nmain cap m)
       = Ok (coord_needed l cap rid N enc n (m, bs), m)) as E1.
    { unfold coord_needed. cbn [fst snd]. case_decide as Hx.
      - unfold mgr_get_num_blocks_to_allocate. rewrite Hx. rewrite (base_need_ok l); [done|done|set_solver|done].
      - rewrite (proj2 (py_get_nat bss (length dn) bs) Hbs). unfold mbind at 1; cbn [result_bind].
        assert (mgr_get_num_blocks_to_allocate (block_pool c) rid N bs n nmain cap m
          = (k ← base_get_num_blocks_to_allocate (block_pool c) rid N bs n cap m; Ok (k, m))) as ->
          by (unfold mgr_get_num_blocks_to_allocate; by destruct (mclass m)).
        rewrite (base_need_ok l); [done|done| |by apply Hrun].
        intros b. eapply Hv. by eapply list_elem_of_lookup_2. }
    rewrite E1. eexists _, m, _. split; [reflexivity|]. split; [done|]. split; [done|].
    rewrite foldr_add_app, Hs, length_app, Nat.add_1_r, (take_S_r bss _ bs) by done.
    rewrite zip_with_app by (rewrite length_take; apply lookup_lt_Some in Hbs; lia).
    rewrite zsum_app. done.
  - rewrite E. unfold mbind; cbn [result_bind]. rewrite Hsum, take_ge by lia. unfold ms. by rewrite with_state_id.
Qed.

Lemma skipped_bounds p m n :
  mgr_ok p m → base_class (mclass m) = true → 0 ≤ n → 0 ≤ get_num_skipped_tokens m n ≤ n.
Proof.
  intros Hok Hb Hn. pose proof (mo_class _ _ Hok) as Hc. unfold get_num_skipped_tokens.
  destruct (mclass m); try lia; [| |done].
  - destruct Hc as (_ & Hw & _). unfold swa_get_num_skipped_tokens. lia.
  - unfold chunked_get_num_skipped_tokens. pose proof (Z.mul_div_le n attention_chunk_size Hc).
    pose proof (Z.div_pos n attention_chunk_size Hn Hc). nia.
Qed.

Lemma skip_blocks_spec p m n :
  mgr_ok p m → base_class (mclass m) = true → 0 ≤ n →
  Z.of_nat (skip_blocks n m) = get_num_skipped_tokens m n / block_size m ∧
  Z.of_nat (skip_blocks n m) ≤ cdiv n (block_size m).
Proof.
  intros Hok Hb Hn. pose proof (skipped_bounds p m n Hok Hb Hn) as [H1 H2].
  pose proof (mgr_bs_pos _ _ Hok) as Hbs. unfold skip_blocks.
  rewrite Z2Nat.id by (by apply Z.div_pos). split; [done|].
  pose proof (cdiv_ge_div n (block_size m) Hbs).
  pose proof (Z.div_le_mono _ _ (block_size m) Hbs H2). lia.
Qed.

Lemma hit_table_len n m bs :
  mclass m ≠ CrossAttentionManager → length (hit_table n m bs) = (skip_blocks n m `max` length bs)%nat.
Proof.
  intros Hx. unfold hit_table. rewrite decide_False by done.
  rewrite length_app, length_replicate, length_drop. lia.
Qed.

(** A request that holds nothing yet needs the blocks its hit does not
    provide, and the free blocks of the hit itself. *)
Lemma fresh_need p l rid N enc n m bs :
  mgr_ok p m → base_class (mclass m) = true → 0 ≤ n →
  req_blocks rid m = [] → num_cached_block m !! rid = None →
  coord_needed l false rid N enc n (m, bs)
  = Z.of_nat (Z.to_nat (cdiv (slot_tokens N enc m) (block_size m) - zlen (hit_table n m bs))
              + evictable l n (m, bs)).
Proof.
  intros Hok Hb Hn Hr Hc. unfold coord_needed, blocks_needed, slot_tokens, evictable, hit_taken.
  cbn [fst snd]. rewrite Hc, Hr. cbn [length Z.of_nat].
  assert (∀ (o : option Z) (z : Z), match o with Some _ => z | None => z end = z) as Hid by (by intros []).
  case_decide as Hx.
  - unfold hit_table, get_num_skipped_tokens. rewrite Hx, decide_True by done. cbn [length filter].
    rewrite Hid. unfold py_from, py_slice. rewrite drop_nil, take_nil. cbn [filter list_filter length].
    rewrite Z.div_0_l by (pose proof (mgr_bs_pos _ _ Hok); lia). lia.
  - rewrite Hid, hit_table_len by done. destruct (skip_blocks_spec p m n Hok Hb Hn) as [Hs _].
    rewrite <- Hs. rewrite Z.sub_0_r, (Z.max_r 0 (Z.of_nat _)), py_from_nonneg, Nat2Z.id by lia. lia.
Qed.

(** A request that already has a table needs the blocks it lacks. *)
Lemma running_need p l rid N enc n m :
  mgr_ok p m → base_class (mclass m) = true → 0 ≤ n →
  is_Some (num_cached_block m !! rid) ∨ n ≤ zlen (req_blocks rid m) * block_size m →
  coord_needed l false rid N enc n (m, []) = Z.of_nat (missing rid N enc m).
Proof.
  intros Hok Hb Hn Hor. pose proof (mgr_bs_pos _ _ Hok) as Hbs.
  unfold coord_needed, missing, blocks_needed, slot_tokens. cbn [fst snd length Z.of_nat].
  assert (∀ (o : option Z) (z : Z), match o with Some _ => z | None => z end = z) as Hid by (by intros []).
  unfold py_from, py_slice. rewrite !drop_nil, !take_nil. cbn [filter list_filter length].
  case_decide as Hx.
  - destruct (num_cached_block m !! rid); rewrite Hid; [lia|].
    unfold get_num_skipped_tokens. rewrite Hx, Z.div_0_l by lia. lia.
  - destruct (num_cached_block m !! rid) as [x|]; rewrite Hid; [lia|].
    destruct Hor as [[? [=]]|Hle].
    destruct (skipped_bounds p m n Hok Hb Hn) as [H1 H2].
    assert (get_num_skipped_tokens m n / block_size m ≤ zlen (req_blocks rid m)); [|lia].
    apply Z.div_le_upper_bound; lia.
Qed.

Lemma zsum_nat {A} (g : A → Z) (h : A → nat) xs :
  (∀ x, x ∈ xs → g x = Z.of_nat (h x)) → zsum g xs = Z.of_nat (sum_list_with h xs).
Proof.
  induction xs as [|x xs IH]; intros H; cbn; [done|]. fold (zsum g xs).
  rewrite IH by (intros; apply H; by right). rewrite (H x) by by left. lia.
Qed.

Lemma sum_list_with_plus {A} (g h : A → nat) xs :
  sum_list_with (λ x, g x + h x)%nat xs = (sum_list_with g xs + sum_list_with h xs)%nat.
Proof. induction xs as [|x xs IH]; cbn; [done|]. lia. Qed.

(** The request's table starts with its hit; other requests are untouched. *)
Definition taken rid (n : Z) m (bs : list nat) m' : Prop :=
  mgr_static m' = mgr_static m ∧
  (∀ rid', rid' ≠ rid → req_blocks rid' m' = req_blocks rid' m ∧
     num_cached_block m' !! rid' = num_cached_block m !! rid') ∧
  prefix (hit_table n m bs) (req_blocks rid m').

(** What a successful allocation leaves: the table also covers the tokens. *)
Definition served rid (n N enc : Z) m (bs : list nat) m' : Prop :=
  taken rid n m bs m' ∧ cdiv (slot_tokens N enc m) (block_size m) ≤ zlen (req_blocks rid m').

Lemma static_slots rid N enc m m' :
  mgr_static m' = mgr_static m →
  mclass m' = mclass m ∧ block_size m' = block_size m ∧ slot_tokens N enc m' = slot_tokens N enc m ∧
  missing rid N enc m' = Z.to_nat (cdiv (slot_tokens N enc m) (block_size m) - zlen (req_blocks rid m')).
Proof.
  unfold mgr_static, missing, slot_tokens. intros H.
  assert (mclass m' = mclass m) as -> by congruence. by assert (block_size m' = block_size m) as -> by congruence.
Qed.

Lemma adopted_taken rid n m bs m' : adopted rid n m bs m' → taken rid n m bs m'.
Proof.
  intros (H1 & H2 & H3 & H4). split; [done|]. split; [|by rewrite H3]. intros rid' Hne.
  split; [by apply H2|]. rewrite H4. case_decide; [done|]. by rewrite lookup_insert_ne.
Qed.

Lemma taken_extended rid n m bs m1 new m' :
  taken rid n m bs m1 → extended rid m1 new m' → taken rid n m bs m'.
Proof.
  intros (A1 & A2 & A3) (B1 & B2 & B3 & B4). split; [congruence|]. split.
  - intros rid' Hne. rewrite B3, B2 by done. by apply A2.
  - rewrite B4. by apply prefix_app_r.
Qed.

Lemma served_extended rid n N enc m bs m1 new m' :
  taken rid n m bs m1 → extended rid m1 new m' → length new = missing rid N enc m1 →
  served rid n N enc m bs m'.
Proof.
  intros A B Hl. split; [by eapply taken_extended|]. destruct A as (A1 & _), B as (_ & _ & _ & ->).
  destruct (static_slots rid N enc m m1 A1) as (_ & _ & _ & E). rewrite length_app, Hl, E. lia.
Qed.

Lemma adopted_missing rid n N enc ms bss ms1 :
  Forall3 (adopted rid n) ms bss ms1 →
  sum_list_with (missing rid N enc) ms1
  = sum_list_with (λ mb, Z.to_nat (cdiv (slot_tokens N enc mb.1) (block_size mb.1)
                                   - zlen (hit_table n mb.1 mb.2))) (zip ms bss).
Proof.
  induction 1 as [|m bs m1 ms bss ms1 (Hst & _ & Hr & _) HF IH]; cbn; [done|]. rewrite IH. f_equal.
  destruct (static_slots rid N enc m m1 Hst) as (_ & _ & _ & ->). by rewrite Hr.
Qed.

Lemma served_all rid n N enc ms bss ms1 new ms2 :
  Forall3 (taken rid n) ms bss ms1 →
  Forall3 (λ m bs m', extended rid m bs m' ∧ length bs = missing rid N enc m) ms1 new ms2 →
  Forall3 (served rid n N enc) ms bss ms2.
Proof.
  intros HT. revert new ms2. induction HT as [|m bs m1 ms bss ms1 Hm HF IH]; intros new ms2 HE;
    inversion_clear HE as [|? b m2 ? ? ? [Hx Hl] HE']; constructor; [by eapply served_extended|by eapply IH].
Qed.

Lemma existsb_none {A} (g : A → bool) xs : (∀ x, x ∈ xs → g x = false) → existsb g xs = false.
Proof.
  induction xs as [|x xs IH]; intros H; cbn; [done|]. rewrite H by by left. apply IH. intros. apply H. by right.
Qed.

Lemma Forall3_Forall2_trans {A B C D} (P : A → B → C → Prop) (R : C → D → Prop) (P' : A → B → D → Prop) xs ys zs ws :
  Forall3 P xs ys zs → Forall2 R zs ws → (∀ x y z w, P x y z → R z w → P' x y w) → Forall3 P' xs ys ws.
Proof.
  intros H1 H2 H. revert ws H2. induction H1; intros ws H2; inversion_clear H2; constructor; eauto.
Qed.

Lemma Forall3_Forall_r {A B C} (P : A → B → C → Prop) (R : C → Prop) xs ys zs :
  Forall3 P xs ys zs → (∀ x y z, (x, y) ∈ zip xs ys → P x y z → R z) → Forall R zs.
Proof.
  induction 1 as [|x y z xs ys zs Hp HF IH]; intros H; constructor.
  - eapply (H x y); [by left|done].
  - apply IH. intros. eapply H; [|done]. by right.
Qed.

Lemma static_base ms ms' :
  Forall2 (λ m m', mgr_static m' = mgr_static m) ms ms' → Forall (λ m, base_class (mclass m) = true) ms →
  Forall (λ m, base_class (mclass m) = true) ms'.
Proof.
  intros HF. induction HF as [|m m' ms ms' E HF IH]; intros Hb; [done|]. inversion_clear Hb.
  constructor; [|auto]. unfold mgr_static in E. by replace (mclass m') with (mclass m) by congruence.
Qed.

(** The request conditions under which computed blocks are handed over. *)
Record fresh_request rid (nlocal next : Z) (bss : list (list nat)) ms p : Prop := {
  fq_tables m : m ∈ ms → req_blocks rid m = [] ∧ num_cached_block m !! rid = None;
  fq_len : length bss = length ms;
  fq_hits : Forall (hit_ok p) bss;
  fq_nocache : enable_caching p = false → Forall (λ bs, bs = []) bss;
  fq_cross : Forall2 (λ m bs, mclass m = CrossAttentionManager → bs = []) ms bss;
  fq_cover m bs : (m, bs) ∈ zip ms bss → zlen bs * block_size m ≤ nlocal;
  fq_local : 0 ≤ nlocal;
  fq_ext : 0 ≤ next;
}.

Lemma hit_table_cover p nlocal next m bs :
  mgr_ok p m → base_class (mclass m) = true → 0 ≤ nlocal → 0 ≤ next → zlen bs * block_size m ≤ nlocal →
  mclass m ≠ CrossAttentionManager →
  zlen (hit_table (nlocal + next) m bs) ≤ cdiv (nlocal + next) (block_size m).
Proof.
  intros Hok Hb H1 H2 Hc Hx. rewrite hit_table_len by done.
  destruct (skip_blocks_spec p m (nlocal + next) Hok Hb ltac:(lia)) as [_ Hs].
  pose proof (mgr_bs_pos _ _ Hok) as Hbs.
  pose proof (cdiv_bounds (nlocal + next) (block_size m) Hbs). nia.
Qed.

(** Handing over the computed blocks, with the blocks for external tokens. *)
Lemma computed_fresh_ok rid bss nlocal next N enc c l :
  let ms := single_type_managers c in
  let n := nlocal + next in
  coord_inv ms (block_pool c) l → Forall (λ m, base_class (mclass m) = true) ms →
  fresh_request rid nlocal next bss ms (block_pool c) → n ≤ N →
  zsum (coord_needed l false rid N enc n) (zip ms bss) ≤ zlen l →
  ∃ c1 l1, coord_allocate_new_computed_blocks rid bss nlocal next c = Ok c1 ∧
    c1 = with_state (single_type_managers c1) (block_pool c1) c ∧
    coord_inv (single_type_managers c1) (block_pool c1) l1 ∧
    pool_config (block_pool c1) = pool_config (block_pool c) ∧
    Forall3 (taken rid n) ms bss (single_type_managers c1) ∧
    (sum_list_with (missing rid N enc) (single_type_managers c1) ≤ length l1)%nat.
Proof.
  intros ms n Hinv Hbase [Hfr Hlen Hhit Hdis Hcross Hcov Hloc Hext] HN Hcap.
  assert (0 ≤ n) as Hn by (unfold n; lia).
  assert (∀ m, m ∈ ms → mgr_ok (block_pool c) m ∧ base_class (mclass m) = true) as Hms.
  { intros m Hm. split; [apply (mi_ok _ _ _ _ (proj2 Hinv m Hm))|]. rewrite Forall_forall in Hbase. by apply Hbase. }
  rewrite (zsum_nat _ (λ mb, Z.to_nat (cdiv (slot_tokens N enc mb.1) (block_size mb.1)
      - zlen (hit_table n mb.1 mb.2)) + evictable l n mb)%nat) in Hcap; cycle 1.
  { intros [m bs] Hmb. apply elem_of_zip_l in Hmb as Hm. destruct (Hms m Hm) as [Hok Hb].
    destruct (Hfr m Hm). by eapply fresh_need. }
  rewrite sum_list_with_plus in Hcap.
  unfold coord_allocate_new_computed_blocks. fold ms.
  rewrite existsb_none; cycle 1.
  { intros m Hm. destruct (Hfr m Hm) as [_ ->]. done. }
  destruct (coord_add_local_ok rid bss nlocal next ms (block_pool c) l Hinv)
    as (u & ms1 & p1 & l1 & -> & Hinv1 & Hcfg1 & HA & Hl1); try done.
  { intros m Hm. by apply Hfr. }
  unfold mbind at 1; cbn [result_bind]. fold n in HA, Hl1.
  assert (Forall3 (taken rid n) ms bss ms1) as HT.
  { eapply Forall3_impl; [exact HA|]. intros; by apply adopted_taken. }
  assert (sum_list_with (missing rid N enc) ms1 ≤ length l1)%nat as Hcap1.
  { rewrite (adopted_missing rid n N enc ms bss ms1 HA). lia. }
  destruct (next >? 0).
  - destruct (coord_external_ok rid nlocal next N enc ms1 p1 l1 Hinv1 HN)
      as (u2 & ms2 & p2 & l2 & -> & Hinv2 & Hcfg2 & HE & Hl2); [|done|].
    + rewrite <- Forall_forall. eapply Forall3_Forall_r; [exact HA|]. cbn.
      intros m bs m1 Hmb (Hst & _ & -> & _) Hx.
      destruct (static_slots rid N enc m m1 Hst) as (Ec & -> & _). rewrite Ec in Hx.
      apply elem_of_zip_l in Hmb as Hm. destruct (Hms m Hm).
      eapply hit_table_cover; try done. by apply Hcov.
    + unfold mbind; cbn [result_bind]. eexists _, l2. split; [reflexivity|]. cbn.
      split; [done|]. split; [done|]. split; [congruence|]. split; [|lia].
      eapply Forall3_Forall2_trans; [exact HT|exact HE|]. cbn. intros m bs m1 m2 H1 [new H2].
      by eapply taken_extended.
  - eexists _, l1. split; [reflexivity|]. cbn. done.
Qed.

(** Both steps of an allocation for a request that holds nothing. *)
Lemma alloc_fresh_ok rid bss nlocal next N nmain enc c l :
  let ms := single_type_managers c in
  let n := nlocal + next in
  coord_inv ms (block_pool c) l → Forall (λ m, base_class (mclass m) = true) ms →
  fresh_request rid nlocal next bss ms (block_pool c) → n ≤ N →
  zsum (coord_needed l false rid N enc n) (zip ms bss) ≤ zlen l →
  ∃ c1 new c2 l2, coord_allocate_new_computed_blocks rid bss nlocal next c = Ok c1 ∧
    coord_allocate_new_blocks rid N nmain enc c1 = Ok (new, c2) ∧
    c2 = with_state (single_type_managers c2) (block_pool c2) c ∧
    coord_inv (single_type_managers c2) (block_pool c2) l2 ∧
    pool_config (block_pool c2) = pool_config (block_pool c) ∧
    Forall3 (served rid n N enc) ms bss (single_type_managers c2).
Proof.
  intros ms n Hinv Hbase Hfr HN Hcap.
  destruct (computed_fresh_ok rid bss nlocal next N enc c l Hinv Hbase Hfr HN Hcap)
    as (c1 & l1 & E1 & Ec1 & Hinv1 & Hcfg1 & HT & Hcap1).
  destruct (coord_allocate_new_ok rid N nmain enc c1 l1 Hinv1) as (new & c2 & l2 & E2 & Ec2 & Hinv2 & Hcfg2 & HE & _).
  - eapply static_base; [|exact Hbase]. clear -HT. induction HT as [|m bs m1 ? ? ? [? _] HF IH]; by constructor.
  - done.
  - exists c1, new, c2, l2. split; [done|]. split; [done|]. split; [by rewrite Ec2, Ec1|]. split; [done|].
    split; [congruence|]. by eapply served_all.
Qed.

(** Allocation for a request that already has a table. *)
Lemma alloc_running_ok rid n N nmain enc c l :
  let ms := single_type_managers c in
  coord_inv ms (block_pool c) l → Forall (λ m, base_class (mclass m) = true) ms → 0 ≤ n →
  (∀ m, m ∈ ms → is_Some (num_cached_block m !! rid) ∨ n ≤ zlen (req_blocks rid m) * block_size m) →
  zsum (coord_needed l false rid N enc n) (zip ms (replicate (length ms) [])) ≤ zlen l →
  ∃ new c2 l2, coord_allocate_new_blocks rid N nmain enc c = Ok (new, c2) ∧
    c2 = with_state (single_type_managers c2) (block_pool c2) c ∧
    coord_inv (single_type_managers c2) (block_pool c2) l2 ∧
    pool_config (block_pool c2) = pool_config (block_pool c) ∧
    Forall3 (λ m bs m', extended rid m bs m' ∧ length bs = missing rid N enc m) ms new
      (single_type_managers c2).
Proof.
  intros ms Hinv Hbase Hn Hrun Hcap.
  assert (zsum (coord_needed l false rid N enc n) (zip ms (replicate (length ms) []))
    = Z.of_nat (sum_list_with (missing rid N enc) ms)) as Hz.
  { assert (∀ m, m ∈ ms → coord_needed l false rid N enc n (m, []) = Z.of_nat (missing rid N enc m)) as Hone.
    { intros m Hm. eapply running_need; [apply (mi_ok _ _ _ _ (proj2 Hinv m Hm))| |done|by apply Hrun].
      rewrite Forall_forall in Hbase. by apply Hbase. }
    clear -Hone. induction ms as [|m ms IH]; cbn; [done|].
    fold (zsum (coord_needed l false rid N enc n) (zip ms (replicate (length ms) []))).
    rewrite IH by (intros; apply Hone; by right). rewrite Hone by by left. lia. }
  rewrite Hz in Hcap.
  destruct (coord_allocate_new_ok rid N nmain enc c l Hinv Hbase) as (new & c2 & l2 & H1 & H2 & H3 & H4 & H5 & _).
  - fold ms. lia.
  - by exists new, c2, l2.
Qed.

(** ** Facts: caching in every manager *)

Lemma memo_extends_request p n r r' :
  memo_extends r r' → request_ok p n r →
  request_ok p n r' ∧ request_id r' = request_id r ∧ num_prompt_tokens r' = num_prompt_tokens r.
Proof.
  intros [[m ->] Hm] [H1 H2 H3]. split; [by split; destruct r|by destruct r].
Qed.

Lemma memo_extends_trans r1 r2 r3 : memo_extends r1 r2 → memo_extends r2 r3 → memo_extends r1 r3.
Proof. intros [H1 _] [H2 H3]. split; [by eapply same_but_memo_trans|done]. Qed.

(** Managers that support prefix caching by the base class. *)
Definition caching_class (cl : manager_class) : bool :=
  match cl with MambaManager _ _ | CrossAttentionManager => false | _ => true end.

Lemma coord_cache_ok r n c l :
  let ms := single_type_managers c in
  coord_inv ms (block_pool c) l → Forall (λ m, caching_class (mclass m) = true) ms →
  enable_caching (block_pool c) = true → 0 ≤ n → 0 < coord_scheduler_block_size c →
  request_ok (block_pool c) n r →
  (∀ m, m ∈ ms → n / block_size m ≤ zlen (req_blocks (request_id r) m)) →
  ∃ c' r' , coord_cache_blocks r n c = Ok (c', r') ∧
    c' = with_state (single_type_managers c') (block_pool c') c ∧
    coord_inv (single_type_managers c') (block_pool c') l ∧
    pool_config (block_pool c') = pool_config (block_pool c) ∧ memo_extends r r' ∧
    Forall2 (λ m m', mgr_static m' = mgr_static m ∧
      (∀ rid, req_blocks rid m' = req_blocks rid m) ∧
      (∀ rid, rid ≠ request_id r → num_cached_block m' !! rid = num_cached_block m !! rid))
      ms (single_type_managers c').
Proof.
  intros ms Hinv Hcl Hen Hn Hsbs Hr Hlen. unfold coord_cache_blocks. fold ms. cbv zeta.
  match goal with |- context [for_managers ?g _ _ _] =>
    destruct (coord_loop fst g (λ dn dn' _ '(p1, r1) l1, l1 = l ∧ memo_extends r r1 ∧
      Forall2 (λ m m', mgr_static m' = mgr_static m ∧ (∀ rid, req_blocks rid m' = req_blocks rid m) ∧
        (∀ rid, rid ≠ request_id r → num_cached_block m' !! rid = num_cached_block m !! rid)) dn dn')
      ms (block_pool c, r) l) as (u & ms' & [p' r'] & l' & -> & H1 & (-> & H2 & H3) & H4 & _)
  end.
  - done.
  - split; [done|]. split; [|constructor]. split; [apply same_but_memo_refl|apply (ro_memo _ _ _ Hr)].
  - intros dn m rest dn' u [p1 r1] l1 Hms Hl Hc1 Hcfg (-> & Hmemo & HF) f Hm. cbn [fst] in *.
    assert (m ∈ ms) as Hmin by (rewrite Hms; apply elem_of_app; right; by left).
    assert (caching_class (mclass m) = true) as Hcm by (rewrite Forall_forall in Hcl; by apply Hcl).
    destruct (memo_extends_request _ n r r1 Hmemo Hr) as (Hr1 & Hid & _).
    pose proof (mi_ok _ _ _ _ Hm) as Hok. pose proof (mgr_bs_pos _ _ Hok) as Hbs.
    set (al := n / coord_scheduler_block_size c * coord_scheduler_block_size c).
    assert (0 ≤ al ≤ n) as Hal.
    { unfold al. pose proof (Z.mul_div_le n (coord_scheduler_block_size c) Hsbs).
      pose proof (Z.div_pos n (coord_scheduler_block_size c) Hn Hsbs). nia. }
    set (k := match coord_kind c with
              | Hybrid _ _ => if use_eagle m && (al >? 0) then Z.min n (al + block_size m) else al
              | _ => n end).
    assert (0 ≤ k ≤ n) as Hk.
    { unfold k. destruct (coord_kind c); [lia|lia|]. destruct (_ && _); lia. }
    destruct (base_cache_ok f r1 k (retention_interval c) m p1 l Hm)
      as (m' & p2 & r2 & E & G1 & G2 & G3 & G4 & G5).
    + by destruct (mclass m).
    + unfold pool_config in Hcfg. congruence.
    + lia.
    + destruct Hr1 as [R1 R2 R3]. split; [done|done|]. unfold pool_config in Hcfg.
      replace (hash_block_size p1) with (hash_block_size (block_pool c)) by congruence.
      pose proof (mo_hbs _ _ Hok) as Hh. replace (hash_block_size p1) with (hash_block_size (block_pool c)) in Hh by congruence.
      pose proof (Z.div_le_mono k n _ Hh ltac:(lia)). lia.
    + rewrite Hid. specialize (Hlen m Hmin). pose proof (Z.div_le_mono k n _ Hbs ltac:(lia)). lia.
    + exists (), m', (p2, r2), l. cbn [fst].
      assert (mgr_cache_blocks r1 k (retention_interval c) m p1 = Ok (m', p2, r2)) as ->
        by (unfold mgr_cache_blocks; by destruct (mclass m)).
      split; [done|]. split; [done|]. split; [done|]. split; [done|].
      split; [by eapply memo_extends_trans|]. apply Forall2_app; [done|]. constructor; [|constructor].
      split; [apply (fr_static _ _ _ _ _ G2)|]. rewrite Hid in G5. done.
  - unfold mbind; cbn [result_bind]. eexists _, r'. split; [reflexivity|]. cbn. done.
Qed.

(** ** Facts: steps that move no reference *)

(** Pool bookkeeping that removes hashes at most. *)
Lemma coord_inv_pool ms p l p' :
  coord_inv ms p l → pool_wf p' l → pool_core p' = pool_core p →
  (∀ i, unhashed p i → unhashed p' i) → coord_inv ms p' l.
Proof.
  intros [Hwf Hinv] Hwf' Hcore Hun. split; [done|]. intros m Hm. destruct (Hinv m Hm) as [H1 H2 H3 H4 H5 H6].
  pose proof (pool_core_config _ _ Hcore) as Hcfg. split; try done.
  - by eapply mgr_ok_same.
  - intros i b Hb Hi. unfold pool_core in Hcore. injection Hcore as _ _ _ _ _ _ Eb.
    destruct (fmap_lookup_corr block_core _ _ i b Eb Hb) as (b0 & Hb0 & E0). unfold block_core in E0.
    replace (ref_cnt b) with (ref_cnt b0) by congruence. by apply H3.
  - intros rid b Hb. apply (pool_valid p l p' l b Hwf Hwf' Hcfg). by eapply H4.
  - intros rid j b Hen Hj Hb0 Hle. unfold pool_config in Hcfg. destruct (H6 rid j b) as [? ?]; try done; [congruence|].
    split; [done|]. by apply Hun.
Qed.

(** Managers that differ in what the invariant does not see. *)
Definition mgr_same m m' : Prop :=
  (∀ rid, req_blocks rid m' = req_blocks rid m) ∧
  (∀ i, table_occ (req_to_blocks m') i = table_occ (req_to_blocks m) i) ∧
  num_cached_block m' = num_cached_block m ∧ mgr_static m' = mgr_static m.

Lemma coord_inv_managers ms ms' p l :
  Forall2 mgr_same ms ms' → coord_inv ms p l → coord_inv ms' p l.
Proof.
  intros HF [Hwf Hinv]. split; [done|].
  assert (∀ i, total ms' i = total ms i) as Htot.
  { intros i. clear -HF. unfold total. induction HF as [|m m' ms ms' (_ & E & _) HF IH]; cbn; [done|]. by rewrite E, IH. }
  intros m' [j Hj]%list_elem_of_lookup. destruct (Forall2_lookup_r _ _ _ _ _ HF Hj) as (m & Hm & S1 & S2 & S3 & S4).
  apply (mgr_inv_frame_ext (others ms m)).
  - intros i. unfold others. by rewrite Htot, S2.
  - eapply mgr_inv_ext; [exact S1|exact S2|exact S3|exact S4|]. apply Hinv. by eapply list_elem_of_lookup_2.
Qed.

(** ** Facts: construction *)

(** A group the base-class managers can serve. *)
Definition group_ok (hbs scheduler_bs : Z) (caching : bool) (s : KVCacheSpec) : Prop :=
  0 < spec_block_size s ∧ spec_block_size s mod hbs = 0 ∧
  match spec_type s with
  | SlidingWindowSpec w | SlidingWindowMLASpec w => 1 ≤ w
  | ChunkedLocalAttentionSpec ch => 0 < ch
  | MambaSpec _ _ | SinkFullAttentionSpec _ => False
  | CrossAttentionSpec => caching = false
  | _ => True
  end.

(** A manager as it is built: configured for the pool, holding nothing. *)
Record mgr_new p m : Prop := {
  mn_ok : mgr_ok p m;
  mn_base : base_class (mclass m) = true;
  mn_class : enable_caching p = true → caching_class (mclass m) = true;
  mn_table : req_to_blocks m = ∅;
  mn_cached : num_cached_block m = ∅;
}.

Lemma coord_inv_new ms p :
  let l := seq 1 (Z.to_nat (num_gpu_blocks p) - 1) in
  (∀ i, held i = 0%nat) → pool_wf p l → Forall (mgr_new p) ms → coord_inv ms p l.
Proof.
  intros l Hz Hwf HF. split; [done|]. rewrite Forall_forall in HF. intros m Hm.
  assert (∀ i, total ms i = 0%nat) as Htot.
  { intros i. clear -HF. unfold total. induction ms as [|m ms IH]; cbn; [done|].
    rewrite IH by (intros; apply HF; by right). destruct (HF m) as [_ _ _ -> _]; [by left|].
    by rewrite table_occ_empty. }
  destruct (HF m Hm) as [Hok _ _ Ht Hc]. split; try done.
  - intros i b Hb Hi. unfold others. rewrite Hz, Htot, Ht, table_occ_empty. cbn.
    destruct (proj1 (wf_free _ _ (proj1 Hwf) i)) as (_ & b' & Hb' & Hr);
      [|rewrite Hb in Hb'; injection Hb' as <-; by rewrite Hr].
    pose proof (wf_len _ _ (proj1 Hwf)). apply lookup_lt_Some in Hb. apply elem_of_seq. lia.
  - intros rid b. unfold req_blocks. rewrite Ht, lookup_empty. by intros ?%not_elem_of_nil.
  - intros rid n. by rewrite Hc, lookup_empty.
  - intros rid j b _. unfold req_blocks. by rewrite Ht, lookup_empty.
Qed.

Lemma mgr_new_eagle p b m : mgr_new p m → mgr_new p (with_use_eagle b m).
Proof. intros [[O1 O2 O3 O4 O5 O6] B C T N]. split; [by split|done..]. Qed.

Lemma get_manager_new p spec mbt mml gid sbs dcp pcp zeroing :
  0 < hash_block_size p → 0 < dcp → 0 < pcp → 0 ≤ gid < 2 ^ 32 →
  sbs mod spec_block_size spec = 0 → group_ok (hash_block_size p) sbs (enable_caching p) spec →
  ∃ m, get_manager_for_kv_cache_spec spec mbt mml 0%nat (enable_caching p) gid sbs dcp pcp zeroing = Ok m ∧
    mgr_new p m.
Proof.
  intros Hh Hd Hp Hg Hs (Hbs & Hmod & Hty).
  assert (∃ k : nat, (0 < k)%nat ∧
    (if dcp * pcp >? 1 then spec_block_size spec * (dcp * pcp) else spec_block_size spec)
    = Z.of_nat k * hash_block_size p) as (k & Hk & Ek).
  { set (q := spec_block_size spec / hash_block_size p).
    assert (spec_block_size spec = q * hash_block_size p) as Eq.
    { unfold q. pose proof (Z.div_mod (spec_block_size spec) (hash_block_size p) ltac:(lia)). lia. }
    assert (0 < q) by nia. destruct (dcp * pcp >? 1).
    - exists (Z.to_nat (q * (dcp * pcp))). split; [nia|]. rewrite Z2Nat.id by nia. nia.
    - exists (Z.to_nat q). split; [lia|]. rewrite Z2Nat.id by lia. done. }
  unfold get_manager_for_kv_cache_spec. cbv zeta.
  assert (∃ cls, manager_class_for spec = Ok cls ∧ base_class cls = true ∧
    (enable_caching p = true → caching_class cls = true) ∧
    match cls with
    | SlidingWindowManager w => sliding_window_of spec = Some w ∧ 1 ≤ w ∧ sbs mod spec_block_size spec = 0
    | ChunkedLocalAttentionManager c => 0 < c
    | MambaManager _ _ => False
    | _ => True
    end) as (cls & -> & Hb & Hc & Hcl).
  { unfold manager_class_for, sliding_window_of.
    destruct (spec_type spec); try done;
      (eexists; split; [reflexivity|]; split; [reflexivity|]; split; [intros ?; try reflexivity; congruence|]; done). }
  unfold mbind; cbn [result_bind]. eexists. split; [reflexivity|]. split; [split|..]; try done.
  - by exists k.
  - cbn. by destruct cls.
Qed.

Lemma build_managers_new cfg groups i mbt mml p dcp pcp sbs :
  0 < hash_block_size p → 0 < dcp → 0 < pcp → Z.of_nat (i + length groups) ≤ 2 ^ 32 →
  Forall (λ g, sbs mod spec_block_size (group_spec g) = 0 ∧
               group_ok (hash_block_size p) sbs (enable_caching p) (group_spec g)) groups →
  ∃ ms, build_managers cfg groups i mbt mml 0%nat (enable_caching p) dcp pcp sbs = Ok ms ∧
    Forall (mgr_new p) ms ∧ length ms = length groups.
Proof.
  intros Hh Hd Hp. revert i. induction groups as [|g groups IH]; intros i Hi HF; cbn [build_managers].
  { by exists []. }
  apply Forall_cons in HF as [[Hs Hg] HF]. cbn in Hi.
  destruct (get_manager_new p (group_spec g) mbt mml (Z.of_nat i) sbs dcp pcp (needs_kv_cache_zeroing cfg))
    as (m & -> & Hm); try done; [lia|].
  unfold mbind at 1; cbn [result_bind].
  destruct (IH (S i)) as (ms & -> & HFm & Hl); [lia|done|]. unfold mbind; cbn [result_bind].
  exists (m :: ms). split; [done|]. split; [by constructor|]. cbn. by rewrite Hl.
Qed.

(** What the constructor of a coordinator establishes. *)
Definition coord_new (cfg : KVCacheConfig) caching sbs hbs c : Prop :=
  let p := block_pool c in
  pool_wf p (seq 1 (Z.to_nat (num_gpu_blocks p) - 1)) ∧ enable_caching p = caching ∧ hash_block_size p = hbs ∧
  num_gpu_blocks p = num_blocks cfg ∧ coord_scheduler_block_size c = sbs ∧ kv_cache_config c = cfg ∧
  Forall (mgr_new p) (single_type_managers c) ∧
  length (single_type_managers c) = length (kv_cache_groups cfg).

Record config_ok (cfg : KVCacheConfig) (caching : bool) (dcp pcp sbs hbs : Z) : Prop := {
  co_blocks : 0 < num_blocks cfg;
  co_hbs : 0 < hbs;
  co_sbs : 0 < sbs;
  co_dcp : 0 < dcp;
  co_pcp : 0 < pcp;
  co_groups : zlen (kv_cache_groups cfg) ≤ 2 ^ 32;
  co_group g : g ∈ kv_cache_groups cfg → group_ok hbs sbs caching (group_spec g);
}.

Lemma coord_init_new kind cfg mml mbt eagle caching events dcp pcp sbs hbs mc ret c :
  config_ok cfg caching dcp pcp sbs hbs →
  KVCacheCoordinator_init kind cfg mml mbt eagle caching events dcp pcp sbs hbs mc ret = Ok c →
  coord_new cfg caching sbs hbs c ∧ coord_kind c = kind.
Proof.
  intros [C1 C2 _ C3 C4 C5 C6]. unfold KVCacheCoordinator_init.
  destruct ((sbs mod hbs =? 0) && _) eqn:Ea; [|done]. cbn [require]. unfold mbind at 1; cbn [result_bind].
  destruct (pool_init_ok (Q:=Q) (num_blocks cfg) caching hbs events mc C1) as (p & -> & Hwf & Hcfg & _).
  unfold mbind at 1; cbn [result_bind]. unfold pool_config in Hcfg. injection Hcfg as E1 E2 E3 E4 E5.
  rewrite E4, <- E2.
  destruct (build_managers_new cfg (kv_cache_groups cfg) 0 mbt mml p dcp pcp sbs) as (ms & -> & HF & Hl).
  { lia. } { done. } { done. } { cbn. lia. }
  { apply andb_true_iff in Ea as [_ Ea]. apply Forall_forall. intros g Hg. split.
    - apply Is_true_true_2, forallb_True in Ea. rewrite Forall_forall in Ea.
      specialize (Ea g Hg). apply Is_true_true_1, Z.eqb_eq in Ea. done.
    - rewrite E2, E3. by apply C6. }
  unfold mbind at 1; cbn [result_bind].
  destruct (_validate_prefix_cache_retention_interval ret sbs cfg) as [u|]; [|done].
  unfold mbind; cbn [result_bind]. intros [= <-]. split; [|done].
  unfold coord_new. cbn. rewrite E1, E2, E3. done.
Qed.

Lemma mgr_new_imap p (g : nat → SingleTypeKVCacheManager → SingleTypeKVCacheManager) ms :
  (∀ i m, mgr_new p m → mgr_new p (g i m)) → Forall (mgr_new p) ms → Forall (mgr_new p) (imap g ms).
Proof.
  intros Hg HF. apply Forall_lookup. intros i m. rewrite list_lookup_imap, fmap_Some.
  intros (m0 & Hm0 & ->). rewrite Forall_lookup in HF. apply Hg. by eapply HF.
Qed.

Lemma get_coordinator_new cfg mml mbt eagle caching events dcp pcp sbs hbs mc ret c :
  config_ok cfg caching dcp pcp sbs hbs →
  get_kv_cache_coordinator cfg mml mbt eagle caching events dcp pcp sbs hbs mc ret = Ok c →
  coord_new cfg caching sbs hbs c.
Proof.
  intros Hcfg. unfold get_kv_cache_coordinator. destruct caching; cbn [negb]; cycle 1.
  { intros E. by apply (coord_init_new _ _ _ _ _ _ _ _ _ _ _ _ _ _ Hcfg) in E as [? _]. }
  assert (∀ kind c0 ms, KVCacheCoordinator_init kind cfg mml mbt eagle true events dcp pcp sbs hbs mc ret = Ok c0 →
    (Forall (mgr_new (block_pool c0)) (single_type_managers c0) → Forall (mgr_new (block_pool c0)) ms) →
    length ms = length (single_type_managers c0) →
    ∀ c, block_pool c = block_pool c0 → single_type_managers c = ms →
      coord_scheduler_block_size c = coord_scheduler_block_size c0 → kv_cache_config c = cfg →
      coord_new cfg true sbs hbs c) as Hfin.
  { intros kind c0 ms E Hms Hl c1 E1 E2 E3 E4.
    destruct (coord_init_new _ _ _ _ _ _ _ _ _ _ _ _ _ _ Hcfg E) as [(N1 & N2 & N3 & N4 & N5 & N6 & N7 & N8) _].
    unfold coord_new. rewrite E1, E2, E3, E4. split; [done|]. split; [done|]. split; [done|]. split; [done|].
    split; [done|]. split; [done|]. split; [by apply Hms|congruence]. }
  destruct (kv_cache_groups cfg) as [|g [|g2 gs]] eqn:Eg; cycle 1.
  { intros E. apply bind_Ok in E as (c0 & E0 & E). apply bind_Ok in E as (u & _ & [= <-]).
    eapply Hfin; [exact E0| | |reflexivity|reflexivity|reflexivity|].
    - intros HF. apply Forall_fmap. eapply Forall_impl; [exact HF|]. intros m. apply mgr_new_eagle.
    - cbn. by rewrite length_fmap.
    - cbn. unfold KVCacheCoordinator_init in E0. ok_inv. done. }
  all: intros E; apply bind_Ok in E as (c0 & E0 & E); apply bind_Ok in E as (u1 & _ & E);
    apply bind_Ok in E as (u2 & _ & E); apply bind_Ok in E as (u3 & _ & E);
    apply bind_Ok in E as ([gps ms] & E4 & [= <-]);
    unfold verify_and_split_kv_cache_groups in E4; apply bind_Ok in E4 as (gps0 & _ & E4);
    apply bind_Ok in E4 as (u4 & _ & [= <- <-]);
    (eapply Hfin; [exact E0| | |reflexivity|reflexivity| |reflexivity]).
  all: try (apply mgr_new_imap; intros i m Hm; case_decide; [by apply mgr_new_eagle|done]).
  all: try (cbn [single_type_managers]; by rewrite length_imap).
  all: try (cbn; destruct (coord_init_new _ _ _ _ _ _ _ _ _ _ _ _ _ _ Hcfg E0) as [(_ & _ & _ & _ & -> & _) _]; done).
Qed.

End CoordFacts.

#[export] Instance no_held : Held | 1000 := λ _, 0%nat.
