(* ===== verification/HybridHit.v ===== *)
(** * The hybrid cache hit search ([HybridKVCacheCoordinator.find_longest_cache_hit])

    The fixed-point search over several attention types returns: the candidate
    length never grows and is a multiple of the scheduler block size after the
    first group, so the loop ends, and then every group has a row of blocks of
    exactly the common length.  The search is sound when only the first group
    is full attention and EAGLE groups support the block drop; the last part
    of the file shows what it returns otherwise. *)

From S2P Require Import Prelude MathUtils Request BlockHash KVMetrics FreeQueue BlockPool.
From S2P Require Import SingleTypeManager ManagerInv Coordinator.

Local Open Scope Z_scope.

Section HybridHit.
Context {Q : Type} `{!FreeQueueOps Q} {env : PoolEnv}.
Implicit Types (p : BlockPool Q) (g : SpecGroup).
Context (p : BlockPool Q) (hashes : list bytes) (hbs sbs maxl : Z) (num_groups : nat).
Hypothesis Hwf : hash_wf p.
Hypothesis Hhbs : 0 < hbs.
Hypothesis Hsbs : 0 < sbs.
Hypothesis Hmax : 0 ≤ maxl.
Hypothesis Hhashes : maxl / hbs ≤ zlen hashes.

(** The hashes of a group, at the group's block size. *)
Definition group_hashes (spec : KVCacheSpec) : list bytes :=
  if decide (spec_block_size spec = hbs) then hashes
  else view_hash hashes (Z.to_nat (spec_block_size spec / hbs))
         <$> py_range 0 (zlen hashes / (spec_block_size spec / hbs)).
Definition group_hash (spec : KVCacheSpec) (j : nat) : bytes := default [] (group_hashes spec !! j).

Record spec_group_ok g : Prop := {
  so_bs : 0 < spec_block_size (sg_spec g);
  so_hbs : spec_block_size (sg_spec g) mod hbs = 0;
  so_sbs : sbs mod spec_block_size (sg_spec g) = 0;
  so_find : findable (sg_manager_cls g) (sg_spec g) (sg_use_eagle g) sbs;
  so_ids : sg_group_ids g ≠ [];
  so_range i : i ∈ sg_group_ids g → (i < num_groups)%nat ∧ Z.of_nat i < 2 ^ 32;
  so_nodup : NoDup (sg_group_ids g);
}.

Lemma group_hashes_ok g :
  spec_group_ok g →
  ∃ hl, _get_block_hashes hashes hbs (sg_spec g) = Ok hl ∧ hl_reads hl (group_hashes (sg_spec g)) ∧
    maxl / spec_block_size (sg_spec g) ≤ zlen (group_hashes (sg_spec g)).
Proof.
  intros [Hbs Hmod _ _ _ _ _]. unfold _get_block_hashes, group_hashes. set (bs := spec_block_size (sg_spec g)) in *.
  destruct (Z.eqb_spec bs hbs) as [->|Hne].
  { rewrite decide_True by done. exists (HashList hashes). split; [done|]. split; [apply hl_reads_list|done]. }
  rewrite decide_False by done. set (f := bs / hbs).
  assert (bs = f * hbs) as Ebs by (unfold f; pose proof (Z.div_mod bs hbs ltac:(lia)); lia).
  assert (0 < f) as Hf by nia.
  unfold BlockHashListWithBlockSize_init. rewrite (proj2 (Z.eqb_eq _ _) Hmod). cbn [require].
  unfold mbind; cbn [result_bind]. eexists. split; [reflexivity|]. fold f. split.
  - pose proof (hl_reads_view hashes (Z.to_nat f) ltac:(lia)) as H. rewrite Z2Nat.id in H by lia. exact H.
  - rewrite length_fmap. unfold py_range. rewrite length_seqZ. rewrite Z.sub_0_r.
    rewrite Z2Nat.id by (apply Z.div_pos; lia). rewrite Ebs, Z.mul_comm, <- Z.div_div by lia.
    by apply Z.div_le_mono.
Qed.

Lemma findable_drop cls spec e d al : findable cls spec e al → (d = true → e = true) → findable cls spec d al.
Proof.
  destruct cls; cbn; try done; intros H Hd.
  - destruct H as (H1 & H2 & -> & H4). destruct d; [by specialize (Hd eq_refl)|done].
  - destruct H as (H1 & ->). destruct d; [by specialize (Hd eq_refl)|done].
Qed.

Lemma aligned_multiple bs n : 0 < bs → sbs mod bs = 0 → aligned bs sbs n → (Z.of_nat n * bs) mod sbs = 0.
Proof. intros Hbs Hm [->|?]; [apply Z.mod_mul; lia|done]. Qed.

(** ** One group *)

(** The rows of a group in the list of all groups. *)
Definition rows_at (by_group : list (option (list nat))) g (P : Z → list nat → Prop) : Prop :=
  ∀ i, i ∈ sg_group_ids g → ∃ c, by_group !! i = Some (Some c) ∧ P (Z.of_nat i) c.

Lemma zip_assign_length ids cs bg : length (zip_assign ids cs bg) = length bg.
Proof. revert cs bg. induction ids as [|i ids IH]; intros [|c cs] bg; cbn; try done. by rewrite IH, length_insert. Qed.

Lemma zip_assign_other ids cs bg i : i ∉ ids → zip_assign ids cs bg !! i = bg !! i.
Proof.
  revert cs bg. induction ids as [|j ids IH]; intros [|c cs] bg Hi; cbn; try done.
  apply not_elem_of_cons in Hi as [Hne Hi]. rewrite IH by done. by rewrite list_lookup_insert_ne.
Qed.

Lemma zip_assign_rows (P : Z → list nat → Prop) ids cs bg :
  NoDup ids → (∀ i, i ∈ ids → (i < length bg)%nat) → Forall2 P (Z.of_nat <$> ids) cs →
  ∀ i, i ∈ ids → ∃ c, zip_assign ids cs bg !! i = Some (Some c) ∧ P (Z.of_nat i) c.
Proof.
  intros Hnd. revert cs bg. induction Hnd as [|j ids Hj Hnd IH]; intros cs bg Hlt HF i Hi; [by apply not_elem_of_nil in Hi|].
  cbn in HF. inversion HF as [|? c ? cs' Hc HF']; subst. cbn.
  destruct (decide (i = j)) as [->|Hne].
  - exists c. rewrite zip_assign_other by done. rewrite list_lookup_insert_eq; [done|]. apply Hlt. by left.
  - apply IH; [|done|]. { intros x Hx. rewrite length_insert. apply Hlt. by right. }
    by apply elem_of_cons in Hi as [|].
Qed.

(** A group that is searched: it keeps or reduces the candidate length, to a
    multiple of the scheduler block size, and leaves rows of that length. *)
Lemma group_step_search idx s g :
  spec_group_ok g → 0 ≤ curr_hit_length s ≤ maxl → length (hit_blocks_by_group s) = num_groups →
  (is_full_attention (sg_spec g) = true → ∃ i rest, sg_group_ids g = i :: rest ∧ hit_blocks_by_group s !! i = Some None) →
  ∃ s' n, hybrid_group_step hashes hbs sbs maxl p idx s g = Ok s' ∧
    curr_hit_length s' = Z.of_nat n * spec_block_size (sg_spec g) ∧
    curr_hit_length s' ≤ curr_hit_length s ∧ curr_hit_length s' mod sbs = 0 ∧
    length (hit_blocks_by_group s') = num_groups ∧
    (∀ i, i ∉ sg_group_ids g → hit_blocks_by_group s' !! i = hit_blocks_by_group s !! i) ∧
    rows_at (hit_blocks_by_group s') g (hit_row p (sg_spec g) (group_hash (sg_spec g)) n).
Proof.
  intros Hg Hcurr Hlen Hfirst. pose proof Hg as [Hbs Hmod Hs Hf Hne Hr Hnd].
  assert (∃ i0 ids, sg_group_ids g = i0 :: ids) as (i0 & ids & Ei) by (destruct (sg_group_ids g); [done|eauto]).
  unfold hybrid_group_step. assert (head (sg_group_ids g) = Some i0) as -> by (by rewrite Ei). cbn [of_option].
  unfold mbind at 1; cbn [result_bind].
  destruct (lookup_lt_is_Some_2 (hit_blocks_by_group s) i0) as [o Ho].
  { rewrite Hlen. apply Hr. rewrite Ei. by left. }
  rewrite Ho. cbn [of_option]. unfold mbind at 1; cbn [result_bind].
  assert (is_full_attention (sg_spec g) && bool_decide (is_Some o) = false) as ->.
  { destruct (is_full_attention (sg_spec g)); [|done]. destruct (Hfirst eq_refl) as (i & rest & Ei' & Hi).
    rewrite Ei in Ei'. injection Ei' as <- <-.
    rewrite Ho in Hi. injection Hi as ->. done. }
  set (bs := spec_block_size (sg_spec g)) in *.
  set (drop := sg_use_eagle g && bool_decide (idx ∉ eagle_verified s)).
  set (ml := if drop then Z.min (curr_hit_length s + bs) maxl else curr_hit_length s).
  assert (0 ≤ ml ≤ maxl) as Hml by (unfold ml; destruct drop; lia).
  destruct (group_hashes_ok g Hg) as (hl & -> & Hhl & Hk). unfold mbind at 1; cbn [result_bind].
  destruct (find_hit_ok (sg_manager_cls g) p hl (group_hashes (sg_spec g)) (Z.of_nat <$> sg_group_ids g)
              (sg_spec g) drop sbs ml) as (cs & n & E & Ha & [Hn Hd] & HF); try done.
  { split; [by rewrite Ei|]. apply Forall_fmap, Forall_forall. cbn. intros i Hi. destruct (Hr i Hi). lia. }
  { eapply findable_drop; [exact Hf|]. unfold drop. by destruct (sg_use_eagle g). }
  { lia. }
  { pose proof (Z.div_le_mono ml maxl bs Hbs ltac:(lia)). fold bs in Hk |- *. lia. }
  fold bs in Hn, Hd, Ha.
  rewrite E. unfold mbind at 1; cbn [result_bind].
  destruct (rows_first cs n) as (l & -> & Hl).
  { eapply rows_len_of; [|exact HF|by intros ? ? [? _]]. by rewrite Ei. }
  unfold mbind; cbn [result_bind]. rewrite Hl.
  eexists _, n. split; [reflexivity|]. cbn [curr_hit_length hit_blocks_by_group].
  assert (Z.of_nat n * bs ≤ curr_hit_length s) as Hle.
  { unfold ml in *. clearbody drop. destruct drop.
    - specialize (Hd eq_refl). pose proof (Z.mul_div_le (curr_hit_length s) bs Hbs).
      assert (Z.min (curr_hit_length s + bs) maxl / bs ≤ curr_hit_length s / bs + 1) as Hq.
      { replace (curr_hit_length s / bs + 1) with ((curr_hit_length s + 1 * bs) / bs) by (apply Z.div_add; lia).
        apply Z.div_le_mono; lia. }
      assert (0 ≤ curr_hit_length s / bs) by (apply Z.div_pos; lia). nia.
    - pose proof (Z.mul_div_le (curr_hit_length s) bs Hbs). assert (0 ≤ curr_hit_length s / bs) by (apply Z.div_pos; lia). nia. }
  split; [done|]. split; [done|]. split; [by apply aligned_multiple|].
  split; [by rewrite zip_assign_length|]. split.
  - intros i Hi. by apply zip_assign_other.
  - intros i Hi. apply zip_assign_rows; [done| |exact HF|done]. intros j Hj. rewrite Hlen. by apply Hr.
Qed.

(** ** One pass *)

Abbreviation row_of g n := (hit_row p (sg_spec g) (group_hash (sg_spec g)) n).

Lemma rows_at_same bg bg' g P :
  (∀ i, i ∈ sg_group_ids g → bg' !! i = bg !! i) → rows_at bg g P → rows_at bg' g P.
Proof. intros E H i Hi. rewrite E by done. by apply H. Qed.

(** A pass over groups that are all searched. *)
Lemma pass_search gs idx s :
  Forall spec_group_ok gs → Forall (λ g, is_full_attention (sg_spec g) = false) gs →
  NoDup (concat (sg_group_ids <$> gs)) →
  0 ≤ curr_hit_length s ≤ maxl → length (hit_blocks_by_group s) = num_groups →
  ∃ s', hybrid_pass hashes hbs sbs maxl p idx s gs = Ok s' ∧
    0 ≤ curr_hit_length s' ≤ curr_hit_length s ∧ (gs ≠ [] → curr_hit_length s' mod sbs = 0) ∧
    length (hit_blocks_by_group s') = num_groups ∧
    (∀ i, i ∉ concat (sg_group_ids <$> gs) → hit_blocks_by_group s' !! i = hit_blocks_by_group s !! i) ∧
    (∀ g, g ∈ gs → ∃ n, curr_hit_length s' ≤ Z.of_nat n * spec_block_size (sg_spec g) ≤ curr_hit_length s ∧
       rows_at (hit_blocks_by_group s') g (row_of g n)) ∧
    (∀ g, gs = [g] → ∃ n, curr_hit_length s' = Z.of_nat n * spec_block_size (sg_spec g) ∧
       rows_at (hit_blocks_by_group s') g (row_of g n)).
Proof.
  revert idx s. induction gs as [|g gs IH]; intros idx s HF Hnf Hnd Hc Hl; cbn [hybrid_pass].
  { exists s. split; [done|]. split; [lia|]. split; [done|]. split; [done|]. split; [done|].
    split; [by intros g ?%not_elem_of_nil|done]. }
  apply Forall_cons in HF as [Hg HF]. apply Forall_cons in Hnf as [Hng Hnf].
  cbn [fmap list_fmap concat] in Hnd. apply NoDup_app in Hnd as (_ & Hdisj & Hnd).
  destruct (group_step_search idx s g Hg Hc Hl) as (s1 & n & -> & En & Hle & Hmod & Hl1 & Hsame & Hrows); [congruence|].
  unfold mbind; cbn [result_bind]. pose proof (so_bs _ Hg) as Hbs.
  destruct (IH (S idx) s1 HF Hnf Hnd) as (s2 & E2 & Hc2 & Hmod2 & Hl2 & Hsame2 & Hrows2 & _); [lia|done|].
  rewrite E2. assert (gs = [] → s2 = s1) as Hlast by (intros ->; by injection E2).
  assert (rows_at (hit_blocks_by_group s2) g (row_of g n)) as Hrg.
  { eapply rows_at_same; [|exact Hrows]. intros i Hi. apply Hsame2. by apply Hdisj. }
  exists s2. split; [done|]. split; [lia|]. split.
  { intros _. destruct gs as [|g' gs]; [|by apply Hmod2].
    by rewrite (Hlast eq_refl). }
  split; [done|]. split.
  { intros i. cbn [fmap list_fmap concat]. rewrite not_elem_of_app. intros [H1 H2]. rewrite Hsame2, Hsame by done. done. }
  split.
  - intros g' [->|Hg']%elem_of_cons.
    + exists n. split; [lia|done].
    + destruct (Hrows2 g' Hg') as (n' & Hn' & Hr'). exists n'. split; [lia|done].
  - intros g' [= <- ->]. exists n. split; [|done]. by rewrite (Hlast eq_refl).
Qed.

(** ** The whole loop *)

Context (g0 : SpecGroup) (gs : list SpecGroup).
Hypothesis Hg0 : spec_group_ok g0.
Hypothesis Hgs : Forall spec_group_ok gs.
Hypothesis Hnofull : Forall (λ g, is_full_attention (sg_spec g) = false) gs.
Hypothesis Hdisjoint : NoDup (concat (sg_group_ids <$> (g0 :: gs))).
Hypothesis Hnonempty : gs ≠ [].

(** The rows a full-attention first group has after its only search. *)
Definition full_rows (bg : list (option (list nat))) (h : Z) : Prop :=
  ∃ n, h ≤ Z.of_nat n * spec_block_size (sg_spec g0) ∧ rows_at bg g0 (row_of g0 n).

(** Invariant of the loop at the start of a pass with candidate length [h]. *)
Definition loop_inv (h : Z) (bg : list (option (list nat))) : Prop :=
  0 ≤ h ≤ maxl ∧ length bg = num_groups ∧
  (is_full_attention (sg_spec g0) = true →
     (∀ i, i ∈ sg_group_ids g0 → bg !! i = Some None) ∨ (h mod sbs = 0 ∧ full_rows bg h)).

(** What a pass leaves for a candidate length [h]. *)
Definition pass_post (h : Z) (s' : hit_state) : Prop :=
  0 ≤ curr_hit_length s' ≤ h ∧ curr_hit_length s' mod sbs = 0 ∧
  length (hit_blocks_by_group s') = num_groups ∧
  (is_full_attention (sg_spec g0) = true → full_rows (hit_blocks_by_group s') (curr_hit_length s')) ∧
  (∀ g, g ∈ g0 :: gs → is_full_attention (sg_spec g) = false →
     ∃ n, curr_hit_length s' ≤ Z.of_nat n * spec_block_size (sg_spec g) ≤ h ∧
       rows_at (hit_blocks_by_group s') g (row_of g n)) ∧
  (∀ g, gs = [g] → ∃ n, curr_hit_length s' = Z.of_nat n * spec_block_size (sg_spec g) ∧
       rows_at (hit_blocks_by_group s') g (row_of g n)).

Lemma disjoint_tail :
  NoDup (concat (sg_group_ids <$> gs)) ∧ ∀ i, i ∈ sg_group_ids g0 → i ∉ concat (sg_group_ids <$> gs).
Proof. cbn [fmap list_fmap concat] in Hdisjoint. apply NoDup_app in Hdisjoint as (_ & H1 & H2). done. Qed.

(** The tail of a pass, after the first group has been dealt with. *)
Lemma pass_rest h s1 :
  0 ≤ curr_hit_length s1 ≤ h → h ≤ maxl → length (hit_blocks_by_group s1) = num_groups →
  (is_full_attention (sg_spec g0) = true → full_rows (hit_blocks_by_group s1) (curr_hit_length s1)) →
  (is_full_attention (sg_spec g0) = false → ∃ n,
     curr_hit_length s1 ≤ Z.of_nat n * spec_block_size (sg_spec g0) ≤ h ∧
     rows_at (hit_blocks_by_group s1) g0 (row_of g0 n)) →
  ∃ s', hybrid_pass hashes hbs sbs maxl p 1 s1 gs = Ok s' ∧ pass_post h s'.
Proof.
  intros Hc Hh Hl Hfull Hother. destruct disjoint_tail as [Hnd Hdis].
  destruct (pass_search gs 1 s1 Hgs Hnofull Hnd) as (s2 & E2 & Hc2 & Hmod2 & Hl2 & Hsame2 & Hrows2 & Hlast);
    [lia|done|]. exists s2. split; [done|].
  assert (∀ P, rows_at (hit_blocks_by_group s1) g0 P → rows_at (hit_blocks_by_group s2) g0 P) as Hkeep.
  { intros P. apply rows_at_same. intros i Hi. apply Hsame2. by apply Hdis. }
  split; [lia|]. split; [by apply Hmod2|]. split; [done|]. split; [|split; [|done]].
  - intros Hf. destruct (Hfull Hf) as (n & Hn & Hr). exists n. split; [lia|]. by apply Hkeep.
  - intros g Hg Hnf. apply elem_of_cons in Hg as [->|Hg].
    + destruct (Hother Hnf) as (n & Hn & Hr). exists n. split; [lia|]. by apply Hkeep.
    + destruct (Hrows2 g Hg) as (n & Hn & Hr). exists n. split; [lia|done].
Qed.

Lemma pass_all h longest bg ver :
  loop_inv h bg →
  ∃ s', hybrid_pass hashes hbs sbs maxl p 0 (mkHit h longest bg ver) (g0 :: gs) = Ok s' ∧ pass_post h s'.
Proof.
  intros (Hh & Hl & Hfull). cbn [hybrid_pass]. pose proof (so_bs _ Hg0) as Hbs.
  destruct (is_full_attention (sg_spec g0)) eqn:Ef; [destruct (Hfull eq_refl) as [Hnone|[Hmod (n & Hn & Hr)]]|].
  - destruct (group_step_search 0 (mkHit h longest bg ver) g0 Hg0 Hh Hl)
      as (s1 & n & -> & En & Hle & _ & Hl1 & _ & Hr).
    { intros _. destruct (sg_group_ids g0) as [|i ids] eqn:Ei; [by destruct (so_ids _ Hg0)|].
      exists i, ids. split; [done|]. apply Hnone. by left. }
    unfold mbind; cbn [result_bind]. apply pass_rest; [cbn in *; nia|lia|done| |congruence].
    intros _. exists n. split; [cbn in *; lia|done].
  - (* already searched: trim *)
    unfold hybrid_group_step. cbn [hit_blocks_by_group curr_hit_length longest_hit_length eagle_verified].
    destruct (sg_group_ids g0) as [|i ids] eqn:Ei; [by destruct (so_ids _ Hg0)|]. cbn [head of_option].
    unfold mbind at 2; cbn [result_bind].
    destruct (Hr i) as (c & Hc & _); [rewrite Ei; by left|]. rewrite Hc. cbn [of_option].
    unfold mbind; cbn [result_bind]. rewrite Ef. rewrite bool_decide_eq_true_2 by eauto. cbn [andb].
    assert (h / spec_block_size (sg_spec g0) * spec_block_size (sg_spec g0) = h) as ->.
    { pose proof (so_sbs _ Hg0) as Hs. apply Z.mod_divide in Hs; [|lia]. apply Z.mod_divide in Hmod; [|lia].
      destruct Hs as [a Ha], Hmod as [b Hb]. rewrite Hb, Ha, Z.mul_assoc, Z.div_mul by lia. done. }
    apply pass_rest; cbn; [lia|lia|done| |congruence]. intros _. by exists n.
  - destruct (group_step_search 0 (mkHit h longest bg ver) g0 Hg0 Hh Hl)
      as (s1 & n & -> & En & Hle & _ & Hl1 & _ & Hr); [congruence|].
    unfold mbind; cbn [result_bind]. apply pass_rest; [cbn in *; nia|lia|done|congruence|].
    intros _. exists n. split; [cbn in *; lia|done].
Qed.

(** The result of the loop: the final length and, for each group, its rows. *)
Definition loop_post (h : Z) (s : hit_state) : Prop :=
  0 ≤ h ≤ maxl ∧ h mod sbs = 0 ∧ length (hit_blocks_by_group s) = num_groups ∧
  (is_full_attention (sg_spec g0) = true → full_rows (hit_blocks_by_group s) h) ∧
  (∀ g, g ∈ g0 :: gs → is_full_attention (sg_spec g) = false →
     ∃ n, h = Z.of_nat n * spec_block_size (sg_spec g) ∧ rows_at (hit_blocks_by_group s) g (row_of g n)).

Lemma loop_ok fuel simple h longest bg ver :
  loop_inv h bg → (Z.to_nat h < fuel)%nat →
  (simple = true → is_full_attention (sg_spec g0) = true ∧ ∃ g, gs = [g]) →
  ∃ h' s, hybrid_loop fuel hashes hbs sbs maxl p (g0 :: gs) simple h longest bg ver = Ok (h', s) ∧
    loop_post h' s.
Proof.
  intros Hinv Hf Hsimple. revert h longest bg ver Hinv Hf.
  induction fuel as [|fuel IH]; intros h longest bg ver Hinv Hf; [lia|]. cbn [hybrid_loop].
  pose proof Hinv as (Hh & _ & _).
  destruct (pass_all h longest bg ver Hinv) as (s & -> & Hc & Hmod & Hl & Hfull & Hrows & Hlast).
  unfold mbind; cbn [result_bind].
  destruct (Z.geb_spec (curr_hit_length s) h) as [Hge|Hlt].
  { assert (curr_hit_length s = h) as Ec by lia. exists h, s. split; [done|].
    split; [lia|]. split; [by rewrite <- Ec|]. split; [done|]. split; [by rewrite <- Ec|].
    intros g Hg Hnf. destruct (Hrows g Hg Hnf) as (n & Hn & Hr). exists n. split; [lia|done]. }
  destruct simple.
  { destruct (Hsimple eq_refl) as [Hfu [g1 Eg]]. eexists _, s. split; [done|]. split; [lia|].
    split; [done|]. split; [done|]. split; [done|]. intros g Hg Hnf.
    rewrite Eg in Hg. apply elem_of_cons in Hg as [->|Hg]; [congruence|].
    apply list_elem_of_singleton in Hg as ->. by apply Hlast. }
  apply IH; [|lia]. split; [lia|]. split; [done|]. intros Hfu. right. split; [done|]. by apply Hfull.
Qed.

(** ** The result *)

Lemma hit_row_take spec H n k (gid : Z) c :
  is_full_attention spec = true → (k ≤ n)%nat → hit_row p spec H n gid c → hit_row p spec H k gid (take k c).
Proof.
  intros Hf Hk [Hl Hr]. split; [rewrite length_take; lia|]. intros j Hj.
  destruct (Hr j ltac:(lia)) as (b & Hb & Ho & Ha). exists b. rewrite lookup_take_lt by lia.
  split; [done|]. split; [done|]. intros _. apply Ha. unfold attended, is_full_attention in *.
  by destruct (spec_type spec).
Qed.

(** The rows of the result, all of the common length [h]. *)
Definition common_rows (h : Z) (rows : list (list nat)) : Prop :=
  length rows = num_groups ∧
  ∀ g i, g ∈ g0 :: gs → i ∈ sg_group_ids g →
    ∃ c, rows !! i = Some c ∧
      hit_row p (sg_spec g) (group_hash (sg_spec g)) (Z.to_nat (h / spec_block_size (sg_spec g))) (Z.of_nat i) c.

Lemma group_g0 g i : g ∈ g0 :: gs → i ∈ sg_group_ids g → i ∈ sg_group_ids g0 → g = g0.
Proof.
  intros [->|Hg]%elem_of_cons Hi Hi0; [done|]. destruct (proj2 disjoint_tail i Hi0).
  apply list_elem_of_In, in_concat. exists (sg_group_ids g). split; [|by apply list_elem_of_In].
  apply list_elem_of_In. by apply list_elem_of_fmap_2.
Qed.

Lemma hybrid_find_ok :
  ∃ rows h u,
    hybrid_find_longest_cache_hit hashes maxl hbs sbs (g0 :: gs) num_groups p = Ok (rows, h, u) ∧
    0 ≤ h ≤ maxl ∧ h mod sbs = 0 ∧ common_rows h rows.
Proof.
  unfold hybrid_find_longest_cache_hit. cbn [head of_option]. unfold mbind at 1; cbn [result_bind].
  set (simple := (zlen (g0 :: gs) =? 2) && is_full_attention (sg_spec g0)).
  destruct (loop_ok (S (S (Z.to_nat maxl))) simple maxl 0 (replicate num_groups None) ∅)
    as (h & s & -> & Hh & Hmod & Hl & Hfull & Hrows).
  { split; [lia|]. split; [apply length_replicate|]. intros _. left. intros i Hi.
    apply lookup_replicate_2. by apply (so_range _ Hg0). }
  { lia. }
  { unfold simple. intros [H1%Z.eqb_eq H2]%andb_true_iff. split; [done|]. destruct gs as [|g [|]]; cbn in H1; try lia. eauto. }
  unfold mbind; cbn [result_bind]. eexists _, h, _. split; [reflexivity|]. split; [done|]. split; [done|].
  assert (∀ g n, spec_group_ok g → h = Z.of_nat n * spec_block_size (sg_spec g) →
    Z.to_nat (h / spec_block_size (sg_spec g)) = n) as Hdiv.
  { intros g n Hg ->. pose proof (so_bs _ Hg). rewrite Z.div_mul by lia. lia. }
  assert (∀ g, g ∈ g0 :: gs → spec_group_ok g) as Hall.
  { intros g [->|Hg]%elem_of_cons; [done|]. rewrite Forall_forall in Hgs. auto. }
  destruct (is_full_attention (sg_spec g0)) eqn:Ef.
  - split; [by rewrite length_fmap, length_imap|]. intros g i Hg Hi.
    rewrite list_lookup_fmap, list_lookup_imap. case_decide as Hi0.
    + rewrite (group_g0 g i Hg Hi Hi0). destruct (Hfull eq_refl) as (n & Hn & Hr).
      destruct (Hr i Hi0) as (c & Hc & Hrow). rewrite Hc. cbn. eexists. split; [reflexivity|].
      apply hit_row_take with n; [done| |done]. pose proof (so_bs _ Hg0) as Hbs.
      pose proof (Z.div_le_mono _ _ _ Hbs Hn) as Hd. rewrite Z.div_mul in Hd by lia. lia.
    + assert (is_full_attention (sg_spec g) = false) as Hnf.
      { apply elem_of_cons in Hg as [->|Hg]; [done|]. rewrite Forall_forall in Hnofull. auto. }
      destruct (Hrows g Hg Hnf) as (n & Hn & Hr). destruct (Hr i Hi) as (c & Hc & Hrow).
      rewrite Hc. cbn. exists c. split; [done|]. by rewrite (Hdiv g n (Hall g Hg) Hn).
  - split; [by rewrite length_fmap|]. intros g i Hg Hi.
    assert (is_full_attention (sg_spec g) = false) as Hnf.
    { apply elem_of_cons in Hg as [->|Hg]; [done|]. rewrite Forall_forall in Hnofull. auto. }
    destruct (Hrows g Hg Hnf) as (n & Hn & Hr). destruct (Hr i Hi) as (c & Hc & Hrow).
    rewrite list_lookup_fmap, Hc. cbn. exists c. split; [done|]. by rewrite (Hdiv g n (Hall g Hg) Hn).
Qed.

End HybridHit.

(** ** Claims *)

Section HybridClaims.
Context {Q : Type} `{!FreeQueueOps Q} {env : PoolEnv}.

(** The groups of a hybrid search: only the first may be full attention, and
    no KV cache group occurs twice. *)
Record hybrid_ok (hbs sbs : Z) (num_groups : nat) (g0 : SpecGroup) (gs : list SpecGroup) : Prop := {
  hy_hbs : 0 < hbs;
  hy_sbs : 0 < sbs;
  hy_first : spec_group_ok hbs sbs num_groups g0;
  hy_rest : Forall (spec_group_ok hbs sbs num_groups) gs;
  hy_nofull : Forall (λ g, is_full_attention (sg_spec g) = false) gs;
  hy_disjoint : NoDup (concat (sg_group_ids <$> (g0 :: gs)));
  hy_two : gs ≠ [];
}.

(** C7: the hybrid cache hit search is sound and terminates.  Over one
    full-attention group at most and groups of other attention types, the
    fixed-point loop returns within its bound; the common hit length is within
    the allowed maximum and a multiple of the scheduler block size, and every
    group gets a row of blocks for exactly that length, in which each entry is
    the null block or carries the hash of its position, and each position the
    next token attends to carries it.  Groups of Mamba or chunked local attention
    are not flagged for EAGLE, and no second group is full attention
    ([hybrid_ok]); [mamba_eagle_hit_exceeds_full_row] and
    [second_full_group_not_truncated] show why. *)
Theorem hybrid_hit_sound (p : BlockPool Q) hashes hbs sbs max_length num_groups g0 gs
    (Hwf : hash_wf p) (Hok : hybrid_ok hbs sbs num_groups g0 gs)
    (Hmax : 0 ≤ max_length) (Hlen : max_length / hbs ≤ zlen hashes) :
  ∃ rows h uncached,
    hybrid_find_longest_cache_hit hashes max_length hbs sbs (g0 :: gs) num_groups p = Ok (rows, h, uncached) ∧
    0 ≤ h ≤ max_length ∧ h mod sbs = 0 ∧ length rows = num_groups ∧
    ∀ g i, g ∈ g0 :: gs → i ∈ sg_group_ids g →
      ∃ c, rows !! i = Some c ∧
        hit_row p (sg_spec g) (group_hash hashes hbs (sg_spec g))
          (Z.to_nat (h / spec_block_size (sg_spec g))) (Z.of_nat i) c.
Proof. destruct Hok. by apply hybrid_find_ok. Qed.

End HybridClaims.

(** ** Concrete searches *)

#[local] Existing Instance demo_env.

Definition hybrid_pool : BlockPool FreeKVCacheBlockQueue :=
  match BlockPool_init 6 true 2 true None with Ok p => p | Raise _ => demo_pool end.

Lemma hybrid_pool_wf : pool_wf hybrid_pool [1; 2; 3; 4; 5]%nat.
Proof.
  destruct (pool_init_ok (Q:=FreeKVCacheBlockQueue) 6 true 2 true None) as (p & E & Hwf & _); [lia|].
  unfold hybrid_pool. by rewrite E.
Qed.

(** The two full blocks of the request [toy [1;2;3;4;5]], cached for groups 0
    (blocks 1, 2) and 1 (blocks 3, 4). *)
Definition cache_pair (bs : list nat) (gid : Z) (p : BlockPool FreeKVCacheBlockQueue) :=
  match cache_full_blocks (toy [1; 2; 3; 4; 5]) bs (Z.of_nat 0) (Z.of_nat 2)
          (Z.of_nat 1 * hash_block_size p) gid None p with
  | Ok (p, _) => p
  | Raise _ => p
  end.
Definition hybrid_cached1 : BlockPool FreeKVCacheBlockQueue := cache_pair [1; 2]%nat 0 hybrid_pool.
Definition hybrid_cached : BlockPool FreeKVCacheBlockQueue := cache_pair [3; 4]%nat 1 hybrid_cached1.

Lemma cache_pair_wf (bs : list nat) gid p l :
  pool_wf p l → cacheable p (toy [1; 2; 3; 4; 5]) bs 0 2 1 gid None → pool_wf (cache_pair bs gid p) l.
Proof.
  intros Hwf Hca. destruct (cache_full_blocks_ok _ _ _ _ _ _ _ _ p Hwf Hca) as (p' & r & E & Hwf' & _).
  unfold cache_pair. by rewrite E.
Qed.

Lemma hybrid_cached_wf : pool_wf hybrid_cached [1; 2; 3; 4; 5]%nat.
Proof.
  apply cache_pair_wf; [apply cache_pair_wf; [apply hybrid_pool_wf|]|].
  all: split; try (vm_compute; done); try lia; try (cbn; lia); try (split; constructor).
  all: try (intros [|[|i]] [|[|j]] b; cbn; intros; simplify_eq; try done; lia).
  - intros b Hb. assert (b = 1%nat ∨ b = 2%nat) as [-> | ->] by set_solver; eexists; vm_compute; reflexivity.
  - intros i b blk Hi Hr [H0 _] Hb Hne. exfalso. apply Hne.
    destruct i as [|[|i]]; [| |lia]; injection Hi as <-; vm_compute in Hb; injection Hb as <-; reflexivity.
  - intros b Hb. assert (b = 3%nat ∨ b = 4%nat) as [-> | ->] by set_solver; eexists; vm_compute; reflexivity.
  - intros i b blk Hi Hr [H0 _] Hb Hne. exfalso. apply Hne.
    destruct i as [|[|i]]; [| |lia]; injection Hi as <-; vm_compute in Hb; injection Hb as <-; reflexivity.
Qed.

Definition full_group (eagle : bool) : SpecGroup := mkSpecGroup (demo_spec FullAttentionSpec) [0%nat] FullAttentionManager eagle.
Definition swa_group : SpecGroup := mkSpecGroup (demo_spec (SlidingWindowSpec 3)) [1%nat] (SlidingWindowManager 3) false.

Lemma demo_hybrid_ok (eagle : bool) : hybrid_ok 2 2 2 (full_group eagle) [swa_group].
Proof.
  split; try lia; try done.
  - split; try done. { intros i Hi. assert (i = 0%nat) as -> by set_solver. lia. } apply NoDup_singleton.
  - constructor; [|constructor]. split; try done.
    { intros i Hi. assert (i = 1%nat) as -> by set_solver. lia. } apply NoDup_singleton.
  - by repeat constructor.
  - cbn. repeat constructor; set_solver.
Qed.

Lemma hybrid_hit_sound_witness :
  hybrid_find_longest_cache_hit demo_hashes 5 2 2 [full_group true; swa_group] 2 hybrid_cached
    = Ok ([[1%nat]; [3%nat]], 2, 0) ∧
  ∃ rows h u,
    hybrid_find_longest_cache_hit demo_hashes 5 2 2 [full_group true; swa_group] 2 hybrid_cached = Ok (rows, h, u) ∧
    h mod 2 = 0 ∧ length rows = 2%nat.
Proof.
  split; [vm_compute; reflexivity|].
  destruct (hybrid_hit_sound hybrid_cached demo_hashes 2 2 5 2 (full_group true) [swa_group]
              (proj2 hybrid_cached_wf)) as (rows & h & u & E & _ & Hm & Hl & _).
  - apply demo_hybrid_ok.
  - lia.
  - vm_compute. discriminate.
  - exists rows, h, u. split; [exact E|]. split; [exact Hm|exact Hl].
Defined.

(** The EAGLE flag falls on all groups when no group is marked; the Mamba
    search does not drop the extra block it was allowed to match. *)
Definition mamba_group : SpecGroup := mkSpecGroup (demo_spec (MambaSpec true 0)) [1%nat] (MambaManager true 0) true.

(** with EAGLE on a full-attention and a Mamba group, the search reports a
    hit longer than the full-attention row it returns: two blocks of two
    tokens are cached for both groups, the full-attention row is cut to one
    block by the EAGLE drop, the Mamba row keeps the extra block, and the
    reported hit length of four tokens is the Mamba one. *)
Theorem mamba_eagle_hit_exceeds_full_row :
  ∃ full mamba u,
    hybrid_find_longest_cache_hit demo_hashes 5 2 2 [full_group true; mamba_group] 2 hybrid_cached
      = Ok ([full; mamba], 4, u) ∧
    zlen full * spec_block_size (sg_spec (full_group true)) = 2 ∧
    zlen mamba * spec_block_size (sg_spec mamba_group) = 4.
Proof. exists [1%nat], [0%nat; 4%nat], 0. vm_compute. done. Qed.

(** Two full-attention groups with different specs and a third group. *)
Definition full_group2 : SpecGroup := mkSpecGroup (mkSpec 2 FullAttentionSpec "fp8") [1%nat] FullAttentionManager false.
Definition swa_group2 : SpecGroup := mkSpecGroup (demo_spec (SlidingWindowSpec 3)) [2%nat] (SlidingWindowManager 3) false.

(** with two different full-attention specs only the first group's row is
    cut to the final hit length: when a third group has nothing cached, the
    search reports a hit of zero tokens and still returns the two cached
    blocks of the second full-attention group. *)
Theorem second_full_group_not_truncated :
  ∃ u, hybrid_find_longest_cache_hit demo_hashes 5 2 2 [full_group false; full_group2; swa_group2] 3 hybrid_cached
    = Ok ([[]; [3; 4]%nat; []], 0, u).
Proof. exists 4. vm_compute. done. Qed.
