(* ===== verification/CacheStats.v ===== *)
(** * Prefix cache statistics ([vllm/v1/metrics/stats.py])

    [PrefixCacheStats] counts queries and hits of one update; [CachingMetrics]
    aggregates the most recent updates in a window of requests.  The deque of
    observations is a list, oldest first.  The [while] loop that shrinks the
    window removes one observation per iteration, so the length of the deque
    bounds its iterations. *)

From S2P Require Import Prelude.

Local Open Scope Z_scope.

Record PrefixCacheStats := mkStats {
  st_reset : bool;
  st_requests : Z;
  st_queries : Z;
  st_hits : Z;
  preempted_requests : Z;
  preempted_queries : Z;
  preempted_hits : Z;
}.

Definition PrefixCacheStats_init : PrefixCacheStats := mkStats false 0 0 0 0 0 0.

Definition record (num_tokens num_hits : Z) (preempted : bool) (s : PrefixCacheStats) : PrefixCacheStats :=
  if preempted then
    mkStats (st_reset s) (st_requests s) (st_queries s) (st_hits s)
      (preempted_requests s + 1) (preempted_queries s + num_tokens) (preempted_hits s + num_hits)
  else
    mkStats (st_reset s) (st_requests s + 1) (st_queries s + num_tokens) (st_hits s + num_hits)
      (preempted_requests s) (preempted_queries s) (preempted_hits s).

Definition set_reset (s : PrefixCacheStats) : PrefixCacheStats :=
  mkStats true (st_requests s) (st_queries s) (st_hits s) (preempted_requests s)
    (preempted_queries s) (preempted_hits s).

Record CachingMetrics := mkMetrics {
  max_recent_requests : Z;
  aggregated_requests : Z;
  aggregated_query_total : Z;
  aggregated_query_hit : Z;
  query_queue : list (Z * Z * Z);
}.

Definition CachingMetrics_init (max_recent_requests : Z) : CachingMetrics :=
  mkMetrics max_recent_requests 0 0 0 [].

Definition caching_reset (c : CachingMetrics) : CachingMetrics :=
  mkMetrics (max_recent_requests c) 0 0 0 [].

(** [while len(queue) > 1 and aggregated_requests > max_recent_requests]. *)
Fixpoint shrink (fuel : nat) (c : CachingMetrics) : CachingMetrics :=
  match fuel, query_queue c with
  | S fuel, (r, q, h) :: (_ :: _) as rest =>
      if aggregated_requests c >? max_recent_requests c then
        shrink fuel (mkMetrics (max_recent_requests c) (aggregated_requests c - r)
          (aggregated_query_total c - q) (aggregated_query_hit c - h) (tail (query_queue c)))
      else c
  | _, _ => c
  end.

Definition observe (s : PrefixCacheStats) (c : CachingMetrics) : CachingMetrics :=
  let c := if st_reset s then caching_reset c else c in
  if st_requests s =? 0 then c else
  let c := mkMetrics (max_recent_requests c) (aggregated_requests c + st_requests s)
    (aggregated_query_total c + st_queries s) (aggregated_query_hit c + st_hits s)
    (query_queue c ++ [(st_requests s, st_queries s, st_hits s)]) in
  shrink (length (query_queue c)) c.

(** [hit_rate] as a fraction: (numerator, denominator). *)
Definition hit_rate (c : CachingMetrics) : Z * Z :=
  if aggregated_query_total c =? 0 then (0, 1)
  else (aggregated_query_hit c, aggregated_query_total c).

(** ** Facts *)

Definition zsum3 (q : list (Z * Z * Z)) : Z * Z * Z :=
  foldr (λ x acc, (x.1.1 + acc.1.1, x.1.2 + acc.1.2, x.2 + acc.2)) (0, 0, 0) q.

(** The aggregates are the sums over the window. *)
Definition metrics_wf (c : CachingMetrics) : Prop :=
  zsum3 (query_queue c) = (aggregated_requests c, aggregated_query_total c, aggregated_query_hit c).

Lemma zsum3_snoc q x :
  zsum3 (q ++ [x]) = ((zsum3 q).1.1 + x.1.1, (zsum3 q).1.2 + x.1.2, (zsum3 q).2 + x.2).
Proof.
  induction q as [|y q IH]; cbn; [f_equal; [f_equal|]; lia|]. fold (zsum3 (q ++ [x])) (zsum3 q).
  rewrite IH. cbn. f_equal; [f_equal|]; lia.
Qed.

(** The loop leaves a suffix of the window that satisfies the exit condition. *)
Lemma shrink_spec fuel c :
  metrics_wf c → (length (query_queue c) ≤ fuel)%nat →
  metrics_wf (shrink fuel c) ∧ max_recent_requests (shrink fuel c) = max_recent_requests c ∧
  suffix (query_queue (shrink fuel c)) (query_queue c) ∧
  ((length (query_queue (shrink fuel c)) ≤ 1)%nat ∨
   aggregated_requests (shrink fuel c) ≤ max_recent_requests c) ∧
  (query_queue c ≠ [] → last (query_queue (shrink fuel c)) = last (query_queue c)).
Proof.
  revert c. induction fuel as [|fuel IH]; intros c Hwf Hf.
  { cbn. split; [done|]. split; [done|]. split; [done|]. split; [left; lia|done]. }
  cbn [shrink]. destruct (query_queue c) as [|[[r q] h] rest] eqn:Eq.
  { rewrite Eq. split; [done|]. split; [done|]. split; [done|]. split; [left; cbn; lia|done]. }
  destruct rest as [|y rest].
  { rewrite Eq. split; [done|]. split; [done|]. split; [done|]. split; [left; cbn; lia|done]. }
  destruct (Z.gtb_spec (aggregated_requests c) (max_recent_requests c)) as [Hgt|Hle]; cycle 1.
  { rewrite Eq. split; [done|]. split; [done|]. split; [done|]. split; [by right|done]. }
  cbn [tail]. set (c1 := mkMetrics _ _ _ _ _).
  destruct (IH c1) as (H1 & H2 & H3 & H4 & H5).
  - unfold metrics_wf in *. rewrite Eq in Hwf. cbn in *. injection Hwf as E1 E2 E3.
    fold (zsum3 rest) in *. f_equal; [f_equal|]; lia.
  - cbn in *. lia.
  - split; [done|]. split; [done|]. split; [|split; [done|]].
    + cbn [query_queue c1] in H3. by apply suffix_cons_r.
    + intros _. rewrite H5 by done. done.
Qed.

(** The window of prefix cache metrics is exact.  After observing an
    update the aggregates are the sums of the observations in the window, the
    window ends with the update, and it holds more requests than the limit
    only if it consists of that one update. *)
Theorem observe_window s c (Hwf : metrics_wf c) (Hreq : st_requests s ≠ 0) :
  let c' := observe s c in
  metrics_wf c' ∧ last (query_queue c') = Some (st_requests s, st_queries s, st_hits s) ∧
  (length (query_queue c') = 1%nat ∨ aggregated_requests c' ≤ max_recent_requests c').
Proof.
  unfold observe. cbv zeta. rewrite (proj2 (Z.eqb_neq _ _) Hreq).
  set (c0 := if st_reset s then caching_reset c else c).
  assert (metrics_wf c0) as Hwf0 by (unfold c0; by destruct (st_reset s)).
  set (c1 := mkMetrics _ _ _ _ _).
  assert (metrics_wf c1) as Hwf1.
  { unfold metrics_wf in *. cbn. rewrite zsum3_snoc, Hwf0. done. }
  destruct (shrink_spec (length (query_queue c1)) c1 Hwf1 ltac:(lia)) as (H1 & H2 & H3 & H4 & H5).
  assert (last (query_queue (shrink (length (query_queue c1)) c1))
    = Some (st_requests s, st_queries s, st_hits s)) as Hlast.
  { rewrite H5; cbn; [by rewrite last_snoc|]. by destruct (query_queue c0). }
  split; [done|]. split; [done|]. rewrite H2. destruct H4 as [Hl|?]; [left|by right].
  destruct (query_queue (shrink _ c1)) as [|x [|]]; [done|done|cbn in Hl; lia].
Qed.

Lemma observe_window_witness :
  let s := record 10 4 false (record 6 6 false PrefixCacheStats_init) in
  let c := observe s (observe (record 8 0 false PrefixCacheStats_init) (CachingMetrics_init 2)) in
  query_queue c = [(2, 16, 10)] ∧ metrics_wf c.
Proof.
  split; [reflexivity|].
  apply (observe_window (record 10 4 false (record 6 6 false PrefixCacheStats_init))
           (observe (record 8 0 false PrefixCacheStats_init) (CachingMetrics_init 2))).
  - reflexivity.
  - discriminate.
Defined.
