(* ===== verification/KVCacheManager.v ===== *)
(** * The KV cache manager ([vllm/v1/core/kv_cache_manager.py])

    The interface of the KV cache to the scheduler: prefix cache lookup, slot
    allocation, caching, freeing and reset, on top of the coordinator.

    Correspondence.  [KVCacheBlocks] carries, next to the block ids per group,
    whether it is the manager's shared empty instance: [allocate_slots] tests
    the identity of that object.  [allocate_slots] is the whole method, every
    early return included; it also returns the request, whose memo table of
    prompt embedding hashes caching may fill.  [watermark] is a fraction
    [num/den]; the rounding of the floating-point product is not modelled.
    Logging and the warning for unknown groups in [take_events] are left out. *)

From S2P Require Import Prelude MathUtils Request BlockHash KVMetrics FreeQueue BlockPool.
From S2P Require Import SingleTypeManager ManagerInv Coordinator CacheStats.

Local Open Scope Z_scope.

(** ** Blocks handed to the scheduler *)

Record KVCacheBlocks := mkKVCacheBlocks {
  kb_blocks : list (list nat);
  kb_shared_empty : bool;
}.

(** [KVCacheBlocks.__add__] *)
Definition kb_add (a b : KVCacheBlocks) : KVCacheBlocks :=
  mkKVCacheBlocks (zip_with (++) (kb_blocks a) (kb_blocks b)) false.

(** [KVCacheBlocks.get_block_ids]; blocks are their ids. *)
Definition get_block_ids (allow_none : bool) (b : KVCacheBlocks) : option (list (list nat)) :=
  if allow_none && forallb (λ g, zlen g =? 0) (kb_blocks b) then None else Some (kb_blocks b).

(** [get_unhashed_block_ids] and its variant for all groups. *)
Definition unhashed_ids {Q} (p : BlockPool Q) (keep_null : bool) (bs : list nat) : result (list nat) :=
  foldM (λ ids b, blk ← get_block p b;
    Ok (if bool_decide (block_hash blk = None) && (keep_null || negb (is_null blk))
        then ids ++ [b] else ids)) [] bs.
Definition get_unhashed_block_ids {Q} (p : BlockPool Q) (b : KVCacheBlocks) : result (list nat) :=
  _ ← assert_ (zlen (kb_blocks b) =? 1);
  bs ← of_option IndexError (head (kb_blocks b));
  unhashed_ids p true bs.
Definition get_unhashed_block_ids_all_groups {Q} (p : BlockPool Q) (b : KVCacheBlocks)
    : result (list (list nat)) := mapR (unhashed_ids p false) (kb_blocks b).

Definition new_empty (b : KVCacheBlocks) : KVCacheBlocks :=
  mkKVCacheBlocks (replicate (length (kb_blocks b)) []) false.

(** ** Kinds of specs, for events ([vllm/v1/kv_cache_interface.py]) *)

Inductive KVCacheSpecKind :=
  | FULL_ATTENTION | MLA_ATTENTION | SLIDING_WINDOW | SLIDING_WINDOW_MLA | MAMBA
  | CHUNKED_LOCAL_ATTENTION | SINK_FULL_ATTENTION | CROSS_ATTENTION.

Definition get_kv_cache_spec_kind (s : KVCacheSpec) : KVCacheSpecKind :=
  match spec_type s with
  | SlidingWindowMLASpec _ => SLIDING_WINDOW_MLA
  | MLAAttentionSpec | HiddenStateCacheSpec => MLA_ATTENTION
  | SinkFullAttentionSpec _ => SINK_FULL_ATTENTION
  | FullAttentionSpec | TQFullAttentionSpec | RSWASpec _ => FULL_ATTENTION
  | ChunkedLocalAttentionSpec _ => CHUNKED_LOCAL_ATTENTION
  | SlidingWindowSpec _ => SLIDING_WINDOW
  | MambaSpec _ _ => MAMBA
  | CrossAttentionSpec => CROSS_ATTENTION
  end.

Definition get_kv_cache_spec_sliding_window (s : KVCacheSpec) : option Z := sliding_window_of s.

(** ** Manager *)

Record KVCacheManager (Q : Type) := mkKVCacheManager {
  max_model_len : Z;
  kvm_enable_caching : bool;
  log_stats : bool;
  prefix_cache_stats : option PrefixCacheStats;
  coordinator : KVCacheCoordinator Q;
  num_kv_cache_groups : nat;
  watermark_blocks : Z;
  kv_cache_event_metadata : list (KVCacheSpecKind * option Z);
}.
Arguments mkKVCacheManager {Q}.
Arguments max_model_len {Q}.
Arguments kvm_enable_caching {Q}.
Arguments log_stats {Q}.
Arguments prefix_cache_stats {Q}.
Arguments coordinator {Q}.
Arguments num_kv_cache_groups {Q}.
Arguments watermark_blocks {Q}.
Arguments kv_cache_event_metadata {Q}.

Section KVManager.
Context {Q : Type} `{!FreeQueueOps Q} {env : PoolEnv}.
Implicit Types (k : KVCacheManager Q) (c : KVCacheCoordinator Q).

Definition with_coordinator c k : KVCacheManager Q :=
  mkKVCacheManager (max_model_len k) (kvm_enable_caching k) (log_stats k) (prefix_cache_stats k) c
    (num_kv_cache_groups k) (watermark_blocks k) (kv_cache_event_metadata k).
Definition with_stats (s : option PrefixCacheStats) k : KVCacheManager Q :=
  mkKVCacheManager (max_model_len k) (kvm_enable_caching k) (log_stats k) s (coordinator k)
    (num_kv_cache_groups k) (watermark_blocks k) (kv_cache_event_metadata k).
Definition kv_pool k : BlockPool Q := block_pool (coordinator k).
Definition with_pool (p : BlockPool Q) k : KVCacheManager Q :=
  with_coordinator (with_state (single_type_managers (coordinator k)) p (coordinator k)) k.

Definition KVCacheManager_init (cfg : KVCacheConfig) (max_model_len scheduler_block_size hash_block_size : Z)
    (max_num_batched_tokens : option Z) (enable_caching use_eagle log_stats enable_kv_cache_events : bool)
    (dcp_world_size pcp_world_size : Z) (mc : option KVCacheMetricsCollector) (retention : option Z)
    (watermark_num watermark_den : Z) : result (KVCacheManager Q) :=
  c ← get_kv_cache_coordinator cfg max_model_len (default max_model_len max_num_batched_tokens)
        use_eagle enable_caching enable_kv_cache_events dcp_world_size pcp_world_size
        scheduler_block_size hash_block_size mc retention;
  _ ← assert_ (0 <=? watermark_num);
  Ok (mkKVCacheManager max_model_len enable_caching log_stats
        (if log_stats then Some PrefixCacheStats_init else None) c
        (length (kv_cache_groups cfg)) (watermark_num * num_blocks cfg / watermark_den)
        ((λ g, (get_kv_cache_spec_kind (group_spec g), get_kv_cache_spec_sliding_window (group_spec g)))
           <$> kv_cache_groups cfg)).

Definition empty_kv_cache_blocks k : KVCacheBlocks :=
  mkKVCacheBlocks (replicate (num_kv_cache_groups k) []) true.

Definition create_kv_cache_blocks (bss : list (list nat)) k : KVCacheBlocks :=
  if existsb (λ bs, negb (zlen bs =? 0)) bss then mkKVCacheBlocks bss false
  else empty_kv_cache_blocks k.

Definition make_prefix_cache_stats k : option PrefixCacheStats * KVCacheManager Q :=
  if negb (log_stats k) then (None, k)
  else (prefix_cache_stats k, with_stats (Some PrefixCacheStats_init) k).

Definition get_computed_blocks (r : Request) k : result (KVCacheBlocks * Z * KVCacheManager Q) :=
  if negb (kvm_enable_caching k) || skip_reading_prefix_cache r
  then Ok (empty_kv_cache_blocks k, 0, k) else
  let max_cache_hit_length := num_tokens r - 1 in
  '(computed_blocks, num_new_computed_tokens, c) ←
    coord_find_longest_cache_hit (block_hashes r) max_cache_hit_length (coordinator k);
  let k := with_coordinator c k in
  k ← (if log_stats k then
         s ← of_option AssertionError (prefix_cache_stats k);
         Ok (with_stats (Some (record (num_tokens r) num_new_computed_tokens
                                 (num_preemptions r >? 0) s)) k)
       else Ok k);
  Ok (create_kv_cache_blocks computed_blocks k, num_new_computed_tokens, k).

Definition allocate_slots (r : Request) (num_new_tokens num_new_computed_tokens : Z)
    (new_computed_blocks : option KVCacheBlocks)
    (num_lookahead_tokens num_external_computed_tokens : Z) (delay_cache_blocks : bool)
    (num_encoder_tokens : Z) (full_sequence_must_fit : bool) (reserved_blocks : Z)
    (has_scheduled_reqs : bool) k
    : result (option KVCacheBlocks * KVCacheManager Q * Request) :=
  _ ← require ValueError (negb ((num_new_tokens =? 0) && (num_external_computed_tokens =? 0)));
  let ncb := default (empty_kv_cache_blocks k) new_computed_blocks in
  let num_local_computed_tokens := num_computed_tokens r + num_new_computed_tokens in
  let total_computed_tokens :=
    Z.min (num_local_computed_tokens + num_external_computed_tokens) (max_model_len k) in
  let watermark :=
    if has_scheduled_reqs && (bool_decide (status r = WAITING) || bool_decide (status r = PREEMPTED))
    then watermark_blocks k else 0 in
  '(fits, c) ←
    (if full_sequence_must_fit then
       let full_num_tokens := Z.min (num_tokens r) (max_model_len k) in
       '(num_blocks_to_allocate, c) ←
         coord_get_num_blocks_to_allocate (request_id r) full_num_tokens (kb_blocks ncb)
           num_encoder_tokens total_computed_tokens full_num_tokens true (coordinator k);
       Ok (negb (num_blocks_to_allocate + watermark >? get_num_free_blocks (block_pool c)), c)
     else Ok (true, coordinator k));
  if negb fits then Ok (None, with_coordinator c k, r) else
  let num_tokens_main_model := total_computed_tokens + num_new_tokens in
  let num_tokens_need_slot :=
    Z.min (num_tokens_main_model + num_lookahead_tokens) (max_model_len k) in
  c ← coord_remove_skipped_blocks (request_id r) total_computed_tokens
        (Some (num_prompt_tokens r)) c;
  '(num_blocks_to_allocate, c) ←
    coord_get_num_blocks_to_allocate (request_id r) num_tokens_need_slot (kb_blocks ncb)
      num_encoder_tokens (num_local_computed_tokens + num_external_computed_tokens)
      num_tokens_main_model false c;
  let available_blocks := get_num_free_blocks (block_pool c) - reserved_blocks in
  if num_blocks_to_allocate + watermark >? available_blocks
  then Ok (None, with_coordinator c k, r) else
  c ← (if negb (kb_shared_empty ncb) || (num_external_computed_tokens >? 0) then
         coord_allocate_new_computed_blocks (request_id r) (kb_blocks ncb)
           num_local_computed_tokens num_external_computed_tokens c
       else Ok c);
  '(new_blocks, c) ← coord_allocate_new_blocks (request_id r) num_tokens_need_slot
                       num_tokens_main_model num_encoder_tokens c;
  if negb (kvm_enable_caching k) || delay_cache_blocks then
    let k := with_coordinator c k in Ok (Some (create_kv_cache_blocks new_blocks k), k, r)
  else
    let num_tokens_to_cache :=
      Z.min (total_computed_tokens + num_new_tokens) (num_tokens r) in
    '(c, r) ← coord_cache_blocks r num_tokens_to_cache c;
    let k := with_coordinator c k in Ok (Some (create_kv_cache_blocks new_blocks k), k, r).

Definition free (r : Request) k : result (KVCacheManager Q) :=
  c ← coord_free (request_id r) (coordinator k); Ok (with_coordinator c k).

Definition remove_skipped_blocks (request_id : string) (total_computed_tokens : Z)
    (num_prompt_tokens : option Z) k : result (KVCacheManager Q) :=
  c ← coord_remove_skipped_blocks request_id total_computed_tokens num_prompt_tokens (coordinator k);
  Ok (with_coordinator c k).

Definition pop_blocks_for_free (r : Request) k : list nat * KVCacheManager Q :=
  let '(bs, c) := coord_pop_blocks_for_free (request_id r) (coordinator k) in
  (bs, with_coordinator c k).

Definition kvm_evict_blocks (block_ids : list Z) k : result (KVCacheManager Q) :=
  p ← evict_blocks block_ids (kv_pool k); Ok (with_pool p k).

Definition kvm_reset_prefix_cache k : result (bool * KVCacheManager Q) :=
  let '(ok, p) := reset_prefix_cache (kv_pool k) in
  let k := with_pool p k in
  if negb ok then Ok (false, k) else
  if log_stats k then
    s ← of_option AssertionError (prefix_cache_stats k);
    Ok (true, with_stats (Some (set_reset s)) k)
  else Ok (true, k).

Definition kvm_get_num_common_prefix_blocks (running_request_id : string) k
    : result (list Z * KVCacheManager Q) :=
  '(ns, c) ← coord_get_num_common_prefix_blocks running_request_id (coordinator k);
  Ok (ns, with_coordinator c k).

(** Events with the annotation added to stored-block events. *)
Definition annotate (meta : list (KVCacheSpecKind * option Z)) (e : KVCacheEvent)
    : KVCacheEvent * option (KVCacheSpecKind * option Z) :=
  match e with
  | EvStored s =>
      if (bs_group_idx s <? 0) || (bs_group_idx s >=? zlen meta) then (e, None)
      else (e, meta !! Z.to_nat (bs_group_idx s))
  | _ => (e, None)
  end.

Definition kvm_take_events k
    : list (KVCacheEvent * option (KVCacheSpecKind * option Z)) * KVCacheManager Q :=
  let '(evs, p) := take_events (kv_pool k) in
  (annotate (kv_cache_event_metadata k) <$> evs, with_pool p k).

Definition get_blocks (request_id : string) k : KVCacheBlocks :=
  create_kv_cache_blocks (coord_get_blocks request_id (coordinator k)) k.

Definition kvm_get_block_ids (request_id : string) k : option (list (list nat)) :=
  get_block_ids false (get_blocks request_id k).

Definition usage k := get_usage (kv_pool k).

Definition kvm_cache_blocks (r : Request) (num_computed_tokens : Z) k
    : result (KVCacheManager Q * Request) :=
  if kvm_enable_caching k then
    '(c, r) ← coord_cache_blocks r num_computed_tokens (coordinator k);
    Ok (with_coordinator c k, r)
  else Ok (k, r).

Definition kvm_take_new_block_ids k : list nat * KVCacheManager Q :=
  let rs := take_new_block_ids <$> single_type_managers (coordinator k) in
  (concat (fst <$> rs),
   with_coordinator (with_state (snd <$> rs) (kv_pool k) (coordinator k)) k).

Definition kvm_new_step_starts k : KVCacheManager Q :=
  with_coordinator (coord_new_step_starts (coordinator k)) k.

End KVManager.

(** ** Facts *)

Section KVManagerFacts.
Context {Q : Type} `{!FreeQueueOps Q} `{!FreeQueueSpec Q} {env : PoolEnv} {kept : Held}.
Implicit Types (k : KVCacheManager Q) (c : KVCacheCoordinator Q) (l : list nat).

(** The invariant of the KV cache manager: [l] is the free list. *)
Record kv_inv k l : Prop := {
  ki_coord : coord_inv (single_type_managers (coordinator k)) (kv_pool k) l;
  ki_base : Forall (λ m, base_class (mclass m) = true) (single_type_managers (coordinator k));
  ki_caching : kvm_enable_caching k = enable_caching (kv_pool k);
  ki_class : kvm_enable_caching k = true →
    Forall (λ m, caching_class (mclass m) = true) (single_type_managers (coordinator k));
  ki_sbs : 0 < coord_scheduler_block_size (coordinator k);
  ki_hbs : 0 < hash_block_size (kv_pool k);
  ki_watermark : 0 ≤ watermark_blocks k;
  ki_groups : num_kv_cache_groups k = length (single_type_managers (coordinator k));
  ki_num : num_gpu_blocks (kv_pool k) = num_blocks (kv_cache_config (coordinator k));
  ki_len : length (single_type_managers (coordinator k)) =
           length (kv_cache_groups (kv_cache_config (coordinator k)));
}.

(** What no operation changes: all but the block tables, the pool contents,
    and the counters; statistics are not lost. *)
Definition kv_shell k :=
  let c := coordinator k in
  (max_model_len k, kvm_enable_caching k, log_stats k, num_kv_cache_groups k, watermark_blocks k,
   pool_config (kv_pool k), coord_kind c, kv_cache_config c, coord_scheduler_block_size c,
   eagle_group_ids c).
Record same_config k k' : Prop := {
  sc_shell : kv_shell k' = kv_shell k;
  sc_static : Forall2 (λ m m', mgr_static m' = mgr_static m)
    (single_type_managers (coordinator k)) (single_type_managers (coordinator k'));
  sc_stats : is_Some (prefix_cache_stats k) → is_Some (prefix_cache_stats k');
}.

Lemma static_refl (ms : list SingleTypeKVCacheManager) : Forall2 (λ m m', mgr_static m' = mgr_static m) ms ms.
Proof. induction ms; by constructor. Qed.

Lemma same_config_refl k : same_config k k.
Proof. split; [done|apply static_refl|done]. Qed.

Lemma same_config_stats k st : same_config k (with_stats (Some st) k).
Proof. split; [done|apply static_refl|by eexists]. Qed.

Lemma same_config_trans k1 k2 k3 : same_config k1 k2 → same_config k2 k3 → same_config k1 k3.
Proof.
  intros [E1 F1 S1] [E2 F2 S2]. split; [congruence| |auto].
  clear -F1 F2. revert F2. generalize (single_type_managers (coordinator k3)). induction F1; intros ms3 H2;
    inversion_clear H2; constructor; [congruence|auto].
Qed.

Lemma same_config_cfg k k' : same_config k k' → kv_cache_config (coordinator k') = kv_cache_config (coordinator k).
Proof. intros [E _ _]. unfold kv_shell in E. congruence. Qed.

(** A coordinator that an operation has moved on from [c]. *)
Lemma kv_inv_step k l c' l' :
  kv_inv k l →
  c' = with_state (single_type_managers c') (block_pool c') (coordinator k) →
  coord_inv (single_type_managers c') (block_pool c') l' →
  pool_config (block_pool c') = pool_config (kv_pool k) →
  Forall2 (λ m m', mgr_static m' = mgr_static m) (single_type_managers (coordinator k)) (single_type_managers c') →
  kv_inv (with_coordinator c' k) l' ∧ same_config k (with_coordinator c' k).
Proof.
  intros [H1 H2 H3 H4 H5 H7 H8 H6 H9 H10] Ec Hinv Hcfg Hst.
  assert (kv_cache_config c' = kv_cache_config (coordinator k)) as Ecfg by (by rewrite Ec).
  split; [|split; [|done|done]]; cycle 1.
  { unfold kv_shell. cbn [coordinator with_coordinator max_model_len kvm_enable_caching log_stats
      num_kv_cache_groups watermark_blocks kv_pool]. rewrite Ec at 2 3 4 5. unfold kv_pool in *. cbn. by rewrite Hcfg. }
  split; cbn; rewrite ?Ecfg.
  - done.
  - by eapply static_base.
  - unfold kv_pool, pool_config in *. cbn. congruence.
  - intros Hen. specialize (H4 Hen). clear -Hst H4. induction Hst as [|m m' ms ms' E HF IH]; [done|].
    inversion_clear H4. constructor; [|auto]. unfold mgr_static in E.
    by replace (mclass m') with (mclass m) by congruence.
  - rewrite Ec. done.
  - unfold kv_pool, pool_config in *. cbn. congruence.
  - done.
  - rewrite H6. by apply Forall2_length in Hst.
  - unfold kv_pool, pool_config in *. cbn. congruence.
  - rewrite <- H10. symmetry. by apply Forall2_length in Hst.
Qed.

Lemma get_free_len k l : kv_inv k l → get_num_free_blocks (kv_pool k) = zlen l.
Proof. intros Hk. destruct (ki_coord _ _ Hk) as [[Hc _] _]. apply (fq_rep_num _ _ (wf_queue _ _ Hc)). Qed.

(** ** Slot allocation *)

(** The request may gain memoised embedding hashes, all of them right. *)
Definition memo_grows (r r' : Request) : Prop :=
  same_but_memo r r' ∧ (memo_ok env_sha256 r → memo_ok env_sha256 r').
Lemma memo_grows_refl r : memo_grows r r.
Proof. split; [apply same_but_memo_refl|done]. Qed.
Lemma memo_extends_grows r r' : memo_extends r r' → memo_grows r r'.
Proof. by intros [? ?]. Qed.

(** What the scheduler passes: either no computed blocks for a request whose
    table covers its computed tokens, or a hit for a request without blocks. *)
Definition computed_ok rid (nlocal next : Z) (ncb : KVCacheBlocks) (ms : list SingleTypeKVCacheManager)
    (p : BlockPool Q) : Prop :=
  (kb_shared_empty ncb = true ∧ next = 0 ∧ kb_blocks ncb = replicate (length ms) [] ∧
   ∀ m, m ∈ ms → is_Some (num_cached_block m !! rid) ∨ nlocal ≤ zlen (req_blocks rid m) * block_size m) ∨
  ((kb_shared_empty ncb = false ∨ 0 < next) ∧ fresh_request rid nlocal next (kb_blocks ncb) ms p).

Lemma same_lengths_static rid ms ms' :
  Forall2 (same_lengths rid) ms ms' → Forall2 (λ m m', mgr_static m' = mgr_static m) ms ms'.
Proof. intros H. eapply Forall2_impl; [exact H|]. by intros m m' [? _]. Qed.

Lemma same_lengths_in rid ms ms' m' :
  Forall2 (same_lengths rid) ms ms' → m' ∈ ms' → ∃ m, m ∈ ms ∧ same_lengths rid m m'.
Proof.
  intros HF [j Hj]%list_elem_of_lookup. destruct (Forall2_lookup_r _ _ _ _ _ HF Hj) as (m & Hm & Hs).
  exists m. split; [by eapply list_elem_of_lookup_2|done].
Qed.

Lemma same_lengths_zip rid ms ms' (bss : list (list nat)) m' bs :
  Forall2 (same_lengths rid) ms ms' → (m', bs) ∈ zip ms' bss →
  ∃ m, (m, bs) ∈ zip ms bss ∧ same_lengths rid m m'.
Proof.
  intros HF [j Hj]%list_elem_of_lookup. apply lookup_zip_Some in Hj as [Hm' Hbs].
  destruct (Forall2_lookup_r _ _ _ _ _ HF Hm') as (m & Hm & Hs). exists m. split; [|done].
  eapply list_elem_of_lookup_2, lookup_zip_Some. done.
Qed.

Lemma same_lengths_bs rid m m' : same_lengths rid m m' →
  block_size m' = block_size m ∧ mclass m' = mclass m.
Proof. intros [H _]. unfold mgr_static in H. split; congruence. Qed.

Lemma computed_ok_same rid nlocal next ncb ms p l ms' p' l' :
  pool_wf p l → pool_wf p' l' → pool_config p' = pool_config p →
  (∀ i, unhashed p' i ↔ unhashed p i) → Forall2 (same_lengths rid) ms ms' →
  computed_ok rid nlocal next ncb ms p → computed_ok rid nlocal next ncb ms' p'.
Proof.
  intros Hwf Hwf' Hcfg Hun HF [(H1 & H2 & H3 & H4)|(H1 & [F1 F2 F3 F4 F5 F6 F7 F8])].
  - left. split; [done|]. split; [done|]. split; [by rewrite <- (Forall2_length _ _ _ HF)|].
    intros m' Hm'. destruct (same_lengths_in _ _ _ _ HF Hm') as (m & Hm & Hs).
    destruct (same_lengths_bs _ _ _ Hs) as [Ebs _]. destruct Hs as (_ & Hn & _ & Hl).
    rewrite Hn, Hl, Ebs. by apply H4.
  - right. split; [done|]. split; try done.
    + intros m' Hm'. destruct (same_lengths_in _ _ _ _ HF Hm') as (m & Hm & _ & Hn & _ & Hl).
      destruct (F1 m Hm) as [Hr Hc]. rewrite Hn. split; [|done]. rewrite Hr in Hl. by apply nil_length_inv.
    + by rewrite F2, (Forall2_length _ _ _ HF).
    + eapply Forall_impl; [exact F3|]. intros bs Hh b Hb. destruct (Hh b Hb) as [Hv Hu].
      split; [by apply (pool_valid p l p' l' b Hwf Hwf' Hcfg)|]. intros Hb0. rewrite Hun. by apply Hu.
    + unfold pool_config in Hcfg. intros Hen. apply F4. congruence.
    + apply Forall2_same_length_lookup_2; [by rewrite F2, (Forall2_length _ _ _ HF)|].
      intros j m' bs Hm' Hbs Hx. destruct (Forall2_lookup_r _ _ _ _ _ HF Hm') as (m & Hm & Hs).
      destruct (same_lengths_bs _ _ _ Hs) as [_ Ec].
      eapply (Forall2_lookup_lr _ _ _ _ _ _ F5 Hm Hbs). congruence.
    + intros m' bs Hz. destruct (same_lengths_zip _ _ _ _ _ _ HF Hz) as (m & Hz' & Hs).
      destruct (same_lengths_bs _ _ _ Hs) as [-> _]. by apply F6.
Qed.

Lemma computed_ok_len rid nlocal next ncb ms p :
  computed_ok rid nlocal next ncb ms p →
  length (kb_blocks ncb) = length ms ∧
  (∀ bs b, bs ∈ kb_blocks ncb → b ∈ bs → is_Some (blocks p !! b)) ∧
  (∀ m bs, (m, bs) ∈ zip ms (kb_blocks ncb) → is_Some (num_cached_block m !! rid) → bs = []).
Proof.
  intros [(_ & _ & -> & _)|(_ & [F1 F2 F3 _ _ _ _ _])].
  - split; [by rewrite length_replicate|]. split.
    + intros bs b [-> _]%elem_of_replicate. set_solver.
    + intros m bs [-> _]%elem_of_zip_r%elem_of_replicate. done.
  - split; [done|]. split.
    + intros bs b Hbs Hb. rewrite Forall_forall in F3. by apply (F3 bs Hbs b Hb).
    + intros m bs Hz%elem_of_zip_l [x Hx]. destruct (F1 m Hz). congruence.
Qed.

(** A table that covers [N] tokens, other requests untouched. *)
Definition covers rid (N enc : Z) m m' : Prop :=
  mgr_static m' = mgr_static m ∧
  (∀ rid', rid' ≠ rid → req_blocks rid' m' = req_blocks rid' m ∧
     num_cached_block m' !! rid' = num_cached_block m !! rid') ∧
  cdiv (slot_tokens N enc m) (block_size m) ≤ zlen (req_blocks rid m').

(** The two allocation calls, after the capacity check. *)
Lemma alloc_ok rid ncb nlocal next N nmain enc c l :
  let ms := single_type_managers c in
  coord_inv ms (block_pool c) l → Forall (λ m, base_class (mclass m) = true) ms →
  computed_ok rid nlocal next ncb ms (block_pool c) →
  0 ≤ nlocal → 0 ≤ next → nlocal + next ≤ N →
  zsum (coord_needed l false rid N enc (nlocal + next)) (zip ms (kb_blocks ncb)) ≤ zlen l →
  ∃ c1 new c2 l2,
    (if negb (kb_shared_empty ncb) || (next >? 0) then
       coord_allocate_new_computed_blocks rid (kb_blocks ncb) nlocal next c
     else Ok c) = Ok c1 ∧
    coord_allocate_new_blocks rid N nmain enc c1 = Ok (new, c2) ∧
    c2 = with_state (single_type_managers c2) (block_pool c2) c ∧
    coord_inv (single_type_managers c2) (block_pool c2) l2 ∧
    pool_config (block_pool c2) = pool_config (block_pool c) ∧
    Forall2 (covers rid N enc) ms (single_type_managers c2).
Proof.
  intros ms Hinv Hbase [(He & -> & Hbl & Hrun)|(Hor & Hfr)] Hloc Hext HN Hcap.
  - rewrite He. cbn [negb orb Z.gtb Z.compare]. rewrite Hbl, Z.add_0_r in Hcap.
    destruct (alloc_running_ok rid nlocal N nmain enc c l Hinv Hbase Hloc Hrun Hcap)
      as (new & c2 & l2 & E & Ec & H1 & H2 & H3).
    exists c, new, c2, l2. split; [done|]. split; [done|]. split; [done|]. split; [done|]. split; [done|].
    clear -H3. induction H3 as [|m bs m' ms' bss ms2 [(X1 & X2 & X3 & X4) Hl] HF IH]; constructor; [|done].
    split; [done|]. split; [intros rid' Hne; rewrite X2; by split; [apply X3|]|].
    rewrite X4, length_app, Hl. unfold missing. lia.
  - assert (negb (kb_shared_empty ncb) || (next >? 0) = true) as ->.
    { destruct Hor as [->|Hp]; [done|]. rewrite Z.gtb_ltb, (proj2 (Z.ltb_lt _ _) Hp). apply orb_true_r. }
    destruct (alloc_fresh_ok rid (kb_blocks ncb) nlocal next N nmain enc c l Hinv Hbase Hfr HN Hcap)
      as (c1 & new & c2 & l2 & E1 & E2 & Ec & H1 & H2 & H3).
    exists c1, new, c2, l2. split; [done|]. split; [done|]. split; [done|]. split; [done|]. split; [done|].
    clear -H3. induction H3 as [|m bs m' ms' bss ms2 [(X1 & X2 & X3) X4] HF IH]; constructor; done.
Qed.

(** The arguments of [allocate_slots] as the scheduler passes them. *)
Record alloc_pre (r : Request) (new ncomp : Z) (ncb : KVCacheBlocks) (look next : Z) k : Prop := {
  ap_new : 0 ≤ new;
  ap_look : 0 ≤ look;
  ap_ext : 0 ≤ next;
  ap_some : new ≠ 0 ∨ next ≠ 0;
  ap_local : 0 ≤ num_computed_tokens r + ncomp;
  ap_len : num_computed_tokens r + ncomp + next + new ≤ max_model_len k;
  ap_prompt : 0 ≤ num_prompt_tokens r;
  ap_computed : computed_ok (request_id r) (num_computed_tokens r + ncomp) next ncb
    (single_type_managers (coordinator k)) (kv_pool k);
  ap_request : kvm_enable_caching k = true → request_ok (kv_pool k) (num_tokens r) r;
}.

(** Slots up to which a step needs blocks, and the watermark that applies. *)
Definition need_slot (new look n mml : Z) : Z := Z.min (Z.min n mml + new + look) mml.
Definition watermark_for (r : Request) (sched : bool) k : Z :=
  if sched && (bool_decide (status r = WAITING) || bool_decide (status r = PREEMPTED))
  then watermark_blocks k else 0.

Lemma covers_static rid N enc ms ms' :
  Forall2 (covers rid N enc) ms ms' → Forall2 (λ m m', mgr_static m' = mgr_static m) ms ms'.
Proof. intros H. eapply Forall2_impl; [exact H|]. by intros m m' [? _]. Qed.

Lemma Forall2_compose {A B C} (P : A → B → Prop) (R : B → C → Prop) (S : A → C → Prop) xs ys zs :
  Forall2 P xs ys → Forall2 R ys zs → (∀ x y z, P x y → R y z → S x z) → Forall2 S xs zs.
Proof. intros H1 H2 H. revert zs H2. induction H1; intros zs H2; inversion_clear H2; constructor; eauto. Qed.

Lemma covers_pre rid N enc ms ms1 ms2 :
  Forall2 (same_lengths rid) ms ms1 → Forall2 (covers rid N enc) ms1 ms2 → Forall2 (covers rid N enc) ms ms2.
Proof.
  intros H1 H2. eapply Forall2_compose; [exact H1|exact H2|]. cbn.
  intros m m1 m2 Hs (C1 & C2 & C3). destruct (same_lengths_bs _ _ _ Hs) as [Eb Ec].
  destruct Hs as (S1 & S2 & S3 & S4). split; [congruence|]. split.
  - intros rid' Hne. destruct (C2 rid' Hne) as [-> ->]. by rewrite S3, S2.
  - unfold slot_tokens in *. by rewrite Ec, Eb in C3.
Qed.

(** The second half of [allocate_slots]: remove, check, allocate, cache. *)
Lemma allocate_rest r new ncomp ncb look next enc wm reserved k l :
  kv_inv k l → alloc_pre r new ncomp ncb look next k → 0 ≤ wm → 0 ≤ reserved →
  let rid := request_id r in
  let nlocal := num_computed_tokens r + ncomp in
  let n := nlocal + next in
  let N := need_slot new look n (max_model_len k) in
  ∃ c1 l1, coord_remove_skipped_blocks rid (Z.min n (max_model_len k)) (Some (num_prompt_tokens r)) (coordinator k) = Ok c1 ∧
    (kv_inv (with_coordinator c1 k) l1 ∧ same_config k (with_coordinator c1 k)) ∧
    Forall2 (same_lengths rid) (single_type_managers (coordinator k)) (single_type_managers c1) ∧
    let need := zsum (coord_needed l1 false rid N enc n) (zip (single_type_managers c1) (kb_blocks ncb)) in
    coord_get_num_blocks_to_allocate rid N (kb_blocks ncb) enc n (Z.min n (max_model_len k) + new) false c1 = Ok (need, c1) ∧
    get_num_free_blocks (block_pool c1) = zlen l1 ∧
    (need + wm ≤ zlen l1 - reserved →
     ∃ c2 blks c3 l3, (if negb (kb_shared_empty ncb) || (next >? 0) then
         coord_allocate_new_computed_blocks rid (kb_blocks ncb) nlocal next c1 else Ok c1) = Ok c2 ∧
       coord_allocate_new_blocks rid N (Z.min n (max_model_len k) + new) enc c2 = Ok (blks, c3) ∧
       (kv_inv (with_coordinator c3 k) l3 ∧ same_config k (with_coordinator c3 k)) ∧
       Forall2 (covers rid N enc) (single_type_managers (coordinator k)) (single_type_managers c3) ∧
       (kvm_enable_caching k = true →
        ∃ c4 r', coord_cache_blocks r (Z.min (Z.min n (max_model_len k) + new) (num_tokens r)) c3 = Ok (c4, r') ∧
          (kv_inv (with_coordinator c4 k) l3 ∧ same_config k (with_coordinator c4 k)) ∧ memo_grows r r' ∧
          Forall2 (covers rid N enc) (single_type_managers (coordinator k)) (single_type_managers c4))).
Proof.
  intros Hk [P1 P2 P3 P4 P5 P6 P7 P8 P9] Hwm Hres rid nlocal n N.
  assert (Z.min n (max_model_len k) = n) as Emin by (unfold n, nlocal; lia). rewrite Emin.
  assert (n ≤ N) as HnN by (unfold N, need_slot, n, nlocal; lia).
  destruct (coord_remove_skipped_ok rid n (Some (num_prompt_tokens r)) (coordinator k) l
              (ki_coord _ _ Hk) (ki_base _ _ Hk)) as (c1 & l1 & E1 & Ec1 & Hinv1 & Hcfg1 & [_ Hun1] & HF1).
  { by intros z [= <-]. }
  pose proof (kv_inv_step k l c1 l1 Hk Ec1 Hinv1 Hcfg1 (same_lengths_static _ _ _ HF1)) as [Hk1 Hsc1].
  pose proof (computed_ok_same rid nlocal next ncb _ _ l _ _ l1 (proj1 (ki_coord _ _ Hk)) (proj1 Hinv1)
    Hcfg1 Hun1 HF1 P8) as Hcomp1.
  destruct (computed_ok_len _ _ _ _ _ _ Hcomp1) as (L1 & L2 & L3).
  exists c1, l1. split; [done|]. split; [done|]. split; [done|]. split; [|split].
  - apply coord_need_ok; try done; [apply Hinv1|apply (ki_base _ _ Hk1)].
  - apply (get_free_len (with_coordinator c1 k) l1 Hk1).
  - intros Hcheck.
    destruct (alloc_ok rid ncb nlocal next N (n + new) enc c1 l1 Hinv1 (ki_base _ _ Hk1) Hcomp1 P5 P3 HnN)
      as (c2 & blks & c3 & l3 & E2 & E3 & Ec3 & Hinv3 & Hcfg3 & HF3); [fold n; lia|].
    assert (Forall2 (covers rid N enc) (single_type_managers (coordinator k)) (single_type_managers c3)) as HF.
    { by eapply covers_pre. }
    assert (kv_inv (with_coordinator c3 k) l3 ∧ same_config k (with_coordinator c3 k)) as [Hk3 Hsc3].
    { eapply kv_inv_step; [exact Hk| |done| |by eapply covers_static].
      - by rewrite Ec3, Ec1.
      - unfold kv_pool. congruence. }
    exists c2, blks, c3, l3. split; [done|]. split; [done|]. split; [done|]. split; [done|].
    intros Hen. set (nc := Z.min (n + new) (num_tokens r)).
    assert (0 ≤ nc ≤ N) as Hnc.
    { unfold nc, num_tokens. unfold N, need_slot. unfold n, nlocal in *. lia. }
    assert (pool_config (block_pool c3) = pool_config (kv_pool k)) as Hcfg by (unfold kv_pool; congruence).
    destruct (coord_cache_ok r nc c3 l3 Hinv3) as (c4 & r4 & E4 & Ec4 & Hinv4 & Hcfg4 & Hsame%memo_extends_grows & HF4).
    + exact (ki_class _ _ Hk3 Hen).
    + rewrite <- Hen, (ki_caching _ _ Hk). unfold pool_config in Hcfg. congruence.
    + lia.
    + exact (ki_sbs _ _ Hk3).
    + destruct (P9 Hen) as [R1 R2 R3]. split; [done|done|].
      replace (hash_block_size (block_pool c3)) with (hash_block_size (kv_pool k)) by (unfold pool_config in Hcfg; congruence).
      pose proof (Z.div_le_mono nc (num_tokens r) _ (ki_hbs _ _ Hk) ltac:(lia)). lia.
    + intros m3 [j Hj]%list_elem_of_lookup.
      destruct (Forall2_lookup_r _ _ _ _ _ HF Hj) as (m & Hm & Hst & _ & Hcov). fold rid.
      pose proof (mgr_bs_pos _ _ (mi_ok _ _ _ _ (proj2 Hinv3 m3 (list_elem_of_lookup_2 _ _ _ Hj)))) as Hbs.
      destruct (static_slots rid N enc m m3 Hst) as (Hcl & Eb & Es & _). rewrite <- Es, <- Eb in Hcov.
      pose proof (ki_class _ _ Hk3 Hen) as Hclass. rewrite Forall_forall in Hclass.
      specialize (Hclass m3 (list_elem_of_lookup_2 _ _ _ Hj)).
      unfold slot_tokens in Hcov. rewrite decide_False in Hcov by (intros Hx; by rewrite Hx in Hclass).
      pose proof (cdiv_ge_div N (block_size m3) Hbs). pose proof (Z.div_le_mono nc N _ Hbs ltac:(lia)). lia.
    + assert (Forall2 (covers rid N enc) (single_type_managers (coordinator k)) (single_type_managers c4)) as HFc.
      { eapply Forall2_compose; [exact HF|exact HF4|]. cbn. intros m m3 m4 (C1 & C2 & C3) (D1 & D2 & D3).
        split; [congruence|]. split; [|by rewrite D2]. intros rid' Hne. rewrite D2, D3 by done. by apply C2. }
      exists c4, r4. split; [done|]. split; [|done].
      eapply (kv_inv_step k l c4 l3 Hk); [by rewrite Ec4, Ec3, Ec1|done|congruence|by eapply covers_static].
Qed.

Lemma same_lengths_refl rid ms : Forall2 (same_lengths rid) ms ms.
Proof. induction ms; constructor; [|done]. done. Qed.

Lemma with_coordinator_id k : with_coordinator (coordinator k) k = k.
Proof. by destruct k. Qed.

(** The first capacity check, for the whole sequence. *)
Lemma full_check r new ncomp ncb look next enc k l :
  kv_inv k l → alloc_pre r new ncomp ncb look next k →
  let n := Z.min (num_computed_tokens r + ncomp + next) (max_model_len k) in
  let F := Z.min (num_tokens r) (max_model_len k) in
  coord_get_num_blocks_to_allocate (request_id r) F (kb_blocks ncb) enc n F true (coordinator k)
  = Ok (zsum (coord_needed l true (request_id r) F enc n)
          (zip (single_type_managers (coordinator k)) (kb_blocks ncb)), coordinator k).
Proof.
  intros Hk Hpre n F. destruct (computed_ok_len _ _ _ _ _ _ (ap_computed _ _ _ _ _ _ _ Hpre)) as (L1 & L2 & L3).
  apply coord_need_ok; try done; [apply (ki_coord _ _ Hk)|apply (ki_base _ _ Hk)].
Qed.

(** What a call of [allocate_slots] that returns [res] has done: on success
    every table of the request covers the slots needed and the other requests
    are untouched; on refusal the tables keep their lengths and the free
    blocks fell short of one of the two capacity checks. *)
Definition alloc_outcome (r : Request) (new ncomp : Z) (bss : list (list nat)) (look next enc : Z)
    (full : bool) (reserved : Z) (sched : bool) k l (res : option KVCacheBlocks) k' l' : Prop :=
  let rid := request_id r in
  let n := num_computed_tokens r + ncomp + next in
  let N := need_slot new look n (max_model_len k) in
  let F := Z.min (num_tokens r) (max_model_len k) in
  let wm := watermark_for r sched k in
  let ms := single_type_managers (coordinator k) in
  let ms' := single_type_managers (coordinator k') in
  match res with
  | Some _ => Forall2 (covers rid N enc) ms ms'
  | None => Forall2 (same_lengths rid) ms ms' ∧
      ((full = true ∧ zlen l < zsum (coord_needed l true rid F enc (Z.min n (max_model_len k))) (zip ms bss) + wm) ∨
       zlen l' - reserved < zsum (coord_needed l' false rid N enc n) (zip ms' bss) + wm)
  end.

Lemma allocate_slots_ok r new ncomp ncb look next delay enc full reserved sched k l
    (Hk : kv_inv k l)
    (Hpre : alloc_pre r new ncomp (default (empty_kv_cache_blocks k) ncb) look next k)
    (Hres : 0 ≤ reserved) :
  ∃ res k' r' l',
    allocate_slots r new ncomp ncb look next delay enc full reserved sched k = Ok (res, k', r') ∧
    (kv_inv k' l' ∧ same_config k k') ∧ memo_grows r r' ∧
    alloc_outcome r new ncomp (kb_blocks (default (empty_kv_cache_blocks k) ncb)) look next enc full
      reserved sched k l res k' l'.
Proof.
  set (bss := kb_blocks (default (empty_kv_cache_blocks k) ncb)). unfold alloc_outcome. cbv zeta.
  set (rid := request_id r). set (n := num_computed_tokens r + ncomp + next).
  set (N := need_slot new look n (max_model_len k)). set (F := Z.min (num_tokens r) (max_model_len k)).
  set (wm := watermark_for r sched k). unfold allocate_slots. cbv zeta. fold rid.
  set (b := default (empty_kv_cache_blocks k) ncb) in *.
  assert (negb ((new =? 0) && (next =? 0)) = true) as ->.
  { destruct (ap_some _ _ _ _ _ _ _ Hpre); destruct (Z.eqb_spec new 0), (Z.eqb_spec next 0); done. }
  cbn [require]. unfold mbind at 1; cbn [result_bind].
  change (if sched && (bool_decide (status r = WAITING) || bool_decide (status r = PREEMPTED))
          then watermark_blocks k else 0) with wm. change (kb_blocks b) with bss.
  assert (0 ≤ wm) as Hwm'.
  { pose proof (ki_watermark _ _ Hk). unfold wm, watermark_for. destruct (_ && _); lia. }
  set (need1 := zsum (coord_needed l true rid F enc (Z.min n (max_model_len k)))
                  (zip (single_type_managers (coordinator k)) bss)).
  assert ((if full then
       '(num_blocks_to_allocate, c) ←
         coord_get_num_blocks_to_allocate rid F bss enc (Z.min n (max_model_len k)) F true (coordinator k);
       Ok (negb (num_blocks_to_allocate + wm >? get_num_free_blocks (block_pool c)), c)
     else Ok (true, coordinator k))
     = Ok (negb full || (need1 + wm <=? zlen l), coordinator k)) as Hfirst.
  { destruct full; [|done]. unfold rid, bss, n, F. rewrite (full_check _ _ _ _ _ _ _ _ _ Hk Hpre).
    unfold mbind; cbn [result_bind negb orb]. change (get_num_free_blocks (block_pool (coordinator k)))
      with (get_num_free_blocks (kv_pool k)). rewrite (get_free_len k l Hk). rewrite Z.gtb_ltb, Z.leb_antisym. done. }
  fold n F in Hfirst |- *. rewrite Hfirst. unfold mbind at 1; cbn [result_bind].
  destruct (negb full || (need1 + wm <=? zlen l)) eqn:Efit; cbn [negb]; cycle 1.
  { eexists None, _, r, l. split; [reflexivity|]. rewrite with_coordinator_id. split; [split; [done|apply same_config_refl]|].
    split; [apply memo_grows_refl|]. split; [apply same_lengths_refl|]. left.
    destruct full; [|done]. cbn in Efit. zbool. fold need1. done. }
  destruct (allocate_rest r new ncomp b look next enc wm reserved k l Hk Hpre Hwm' Hres)
    as (c1 & l1 & E1 & Hk1 & HF1 & E2 & E3 & Hrest).
  change (Z.min (Z.min n (max_model_len k) + new + look) (max_model_len k)) with N.
  fold rid n in E1. rewrite E1. unfold mbind at 1; cbn [result_bind].
  fold rid n N bss in E2, Hrest. rewrite E2. unfold mbind at 1; cbn [result_bind]. rewrite E3.
  set (need := zsum (coord_needed l1 false rid N enc n) (zip (single_type_managers c1) bss)) in *.
  rewrite Z.gtb_ltb. destruct (Z.ltb_spec (zlen l1 - reserved) (need + wm)) as [Hlt|Hge].
  { eexists None, _, r, l1. split; [reflexivity|]. split; [done|]. split; [apply memo_grows_refl|].
    split; [done|]. right. done. }
  destruct (Hrest Hge) as (c2 & blks & c3 & l3 & E4 & E5 & Hk3 & HF3 & Hcache).
  rewrite E4. unfold mbind at 1; cbn [result_bind]. rewrite E5. unfold mbind at 1; cbn [result_bind].
  destruct (kvm_enable_caching k) eqn:Een; cbn [negb orb]; [destruct delay|]; cycle 1.
  - destruct (Hcache eq_refl) as (c4 & r' & -> & Hk4 & Hr & HF4). unfold mbind; cbn [result_bind].
    eexists (Some _), _, r', l3. split; [reflexivity|]. done.
  - eexists (Some _), _, r, l3. split; [reflexivity|]. split; [done|]. split; [apply memo_grows_refl|done].
  - eexists (Some _), _, r, l3. split; [reflexivity|]. split; [done|]. split; [apply memo_grows_refl|done].
Qed.

(** ** Reachable managers *)

Inductive kv_step : KVCacheManager Q → KVCacheManager Q → Prop :=
  | step_alloc r new ncomp ncb look next delay enc full reserved sched k res k' r' :
      alloc_pre r new ncomp (default (empty_kv_cache_blocks k) ncb) look next k → 0 ≤ reserved →
      allocate_slots r new ncomp ncb look next delay enc full reserved sched k = Ok (res, k', r') →
      kv_step k k'
  | step_free r k k' : free r k = Ok k' → kv_step k k'
  | step_remove rid n np k k' :
      (∀ x, np = Some x → 0 ≤ x) → remove_skipped_blocks rid n np k = Ok k' → kv_step k k'
  | step_cache r n k k' r' :
      0 ≤ n → (kvm_enable_caching k = true → request_ok (kv_pool k) n r) →
      (∀ m, m ∈ single_type_managers (coordinator k) → n / block_size m ≤ zlen (req_blocks (request_id r) m)) →
      kvm_cache_blocks r n k = Ok (k', r') → kv_step k k'
  | step_lookup r k b n k' : get_computed_blocks r k = Ok (b, n, k') → kv_step k k'
  | step_evict ids k k' :
      (∀ i, i ∈ ids → (i < length (blocks (kv_pool k)))%nat) →
      kvm_evict_blocks (Z.of_nat <$> ids) k = Ok k' → kv_step k k'
  | step_reset b k k' : kvm_reset_prefix_cache k = Ok (b, k') → kv_step k k'
  | step_events k : kv_step k (kvm_take_events k).2
  | step_new_ids k : kv_step k (kvm_take_new_block_ids k).2
  | step_new_step k : kv_step k (kvm_new_step_starts k)
  | step_stats k : kv_step k (make_prefix_cache_stats k).2
  | step_common rid ns k k' : kvm_get_num_common_prefix_blocks rid k = Ok (ns, k') → kv_step k k'.

(** A manager with the same coordinator state. *)
Lemma kv_inv_same k k' l :
  kv_inv k l → single_type_managers (coordinator k') = single_type_managers (coordinator k) →
  kv_pool k' = kv_pool k → coord_scheduler_block_size (coordinator k') = coord_scheduler_block_size (coordinator k) →
  kvm_enable_caching k' = kvm_enable_caching k → watermark_blocks k' = watermark_blocks k →
  num_kv_cache_groups k' = num_kv_cache_groups k → same_config k k' → kv_inv k' l ∧ same_config k k'.
Proof.
  intros [H1 H2 H3 H4 H5 H6 H7 H8 H9 H10] E1 E2 E3 E4 E5 E6 Hsc. split; [|done]. pose proof (same_config_cfg _ _ Hsc) as E7.
  split; rewrite ?E1, ?E2, ?E3, ?E4, ?E5, ?E6, ?E7; done.
Qed.

(** A manager whose pool lost hashes at most. *)
Lemma kv_inv_pool k l p' :
  kv_inv k l → pool_wf p' l → pool_core p' = pool_core (kv_pool k) →
  (∀ i, unhashed (kv_pool k) i → unhashed p' i) →
  kv_inv (with_pool p' k) l ∧ same_config k (with_pool p' k).
Proof.
  intros Hk Hwf Hcore Hun. eapply kv_inv_step; [exact Hk|done| | |].
  - cbn. by eapply coord_inv_pool; [apply (ki_coord _ _ Hk)|..].
  - cbn. by apply pool_core_config.
  - cbn. clear. induction (single_type_managers (coordinator k)); by constructor.
Qed.

Lemma kv_inv_managers k l ms' :
  kv_inv k l → Forall2 mgr_same (single_type_managers (coordinator k)) ms' →
  let k' := with_coordinator (with_state ms' (kv_pool k) (coordinator k)) k in
  kv_inv k' l ∧ same_config k k'.
Proof.
  intros Hk HF. eapply kv_inv_step; [exact Hk|done| |done|].
  - cbn. eapply coord_inv_managers; [exact HF|apply (ki_coord _ _ Hk)].
  - cbn. eapply Forall2_impl; [exact HF|]. by intros m m' (_ & _ & _ & ?).
Qed.

Lemma mgr_same_fmap (g : SingleTypeKVCacheManager → SingleTypeKVCacheManager) ms :
  (∀ m, mgr_same m (g m)) → Forall2 mgr_same ms (g <$> ms).
Proof. intros H. induction ms; cbn; constructor; auto. Qed.

Lemma free_inv r k l :
  kv_inv k l →
  ∃ k' l', free r k = Ok k' ∧ (kv_inv k' l' ∧ same_config k k') ∧ sublist l l' ∧
    Forall2 (λ m m', mgr_static m' = mgr_static m ∧
               req_to_blocks m' = delete (request_id r) (req_to_blocks m) ∧
               num_cached_block m' = delete (request_id r) (num_cached_block m))
      (single_type_managers (coordinator k)) (single_type_managers (coordinator k')).
Proof.
  intros Hk. unfold free.
  destruct (coord_free_ok (request_id r) (coordinator k) l (ki_coord _ _ Hk))
    as (c' & l' & -> & Ec & H1 & H2 & H3 & H4).
  unfold mbind; cbn [result_bind]. eexists _, l'. split; [reflexivity|]. split; [|split; [done|exact H4]].
  eapply kv_inv_step; [exact Hk|done|done|done|]. eapply Forall2_impl; [exact H4|]. by intros m m' [? _].
Qed.

Lemma for_managers_same {A} (g : nat → SingleTypeKVCacheManager → BlockPool Q →
      result (A * SingleTypeKVCacheManager * BlockPool Q)) i ms p as_ ms' p' :
  (∀ i m p a m' p', g i m p = Ok (a, m', p') → mgr_same m m' ∧ p' = p) →
  for_managers g i ms p = Ok (as_, ms', p') → Forall2 mgr_same ms ms' ∧ p' = p.
Proof.
  intros Hg. revert i p as_ ms'. induction ms as [|m ms IH]; intros i p as_ ms'; cbn [for_managers].
  { intros [= <- <- <-]. by split; [constructor|]. }
  intros E. apply bind_Ok in E as ([[a m1] p1] & E1 & E). apply bind_Ok in E as ([[as1 ms1] p2] & E2 & E).
  injection E as <- <- <-. destruct (Hg _ _ _ _ _ _ E1) as [? ->]. destruct (IH _ _ _ _ E2) as [? ->].
  by split; [constructor|].
Qed.

Lemma mgr_same_touch rid m : mgr_same m (touch_req rid m).
Proof.
  split; [intros; apply req_blocks_touch|]. split; [intros; apply table_occ_touch|].
  split; [apply touch_req_num|apply touch_req_static].
Qed.

Lemma common_prefix_same rid c ns c' :
  coord_get_num_common_prefix_blocks rid c = Ok (ns, c') →
  ∃ ms', Forall2 mgr_same (single_type_managers c) ms' ∧ c' = with_state ms' (block_pool c) c.
Proof.
  unfold coord_get_num_common_prefix_blocks.
  assert (∀ ns c', ('(ns, ms, p) ← for_managers (λ _ m p,
          '(n, m) ← mgr_get_num_common_prefix_blocks rid m p; Ok (n, m, p)) 0%nat
          (single_type_managers c) (block_pool c); Ok (ns, with_state ms p c)) = Ok (ns, c') →
    ∃ ms', Forall2 mgr_same (single_type_managers c) ms' ∧ c' = with_state ms' (block_pool c) c) as Hloop.
  { intros ns0 c0 E. apply bind_Ok in E as ([[ns1 ms1] p1] & E1 & E). injection E as <- <-.
    apply for_managers_same in E1 as [HF ->]; [by exists ms1|]. clear.
    intros _ m p a m' p' E. apply bind_Ok in E as ([n m1] & E1 & E). injection E as <- <- <-. split; [|done].
    unfold mgr_get_num_common_prefix_blocks in E1.
    destruct (mclass m); try (injection E1 as <- <-; done);
      (apply bind_Ok in E1 as (z & _ & E1); injection E1 as <- <-; apply mgr_same_touch). }
  destruct (coord_kind c); [|apply Hloop|apply Hloop]. intros [= <- <-].
  exists (single_type_managers c). split; [|by rewrite with_state_id]. clear.
  induction (single_type_managers c); by constructor.
Qed.

Lemma find_hit_same hs n c bss h c' :
  coord_find_longest_cache_hit hs n c = Ok (bss, h, c') →
  single_type_managers c' = single_type_managers c ∧ block_pool c' = block_pool c ∧
  coord_scheduler_block_size c' = coord_scheduler_block_size c ∧ kv_cache_config c' = kv_cache_config c ∧
  coord_kind c' = coord_kind c ∧ eagle_group_ids c' = eagle_group_ids c.
Proof.
  unfold coord_find_longest_cache_hit. destruct (coord_kind c) eqn:Ekind; rewrite <- ?Ekind.
  - by intros [= <- <- <-].
  - intros E. apply bind_Ok in E as (m & _ & E). apply bind_Ok in E as (hb & _ & E).
    apply bind_Ok in E as (x & _ & [= <- <- <-]). done.
  - intros E. apply bind_Ok in E as ([[x y] z] & _ & E). by injection E as <- <- <-.
Qed.

Lemma lookup_same r k b n k' :
  get_computed_blocks r k = Ok (b, n, k') →
  single_type_managers (coordinator k') = single_type_managers (coordinator k) ∧ kv_pool k' = kv_pool k ∧
  coord_scheduler_block_size (coordinator k') = coord_scheduler_block_size (coordinator k) ∧
  kvm_enable_caching k' = kvm_enable_caching k ∧ watermark_blocks k' = watermark_blocks k ∧
  num_kv_cache_groups k' = num_kv_cache_groups k ∧ max_model_len k' = max_model_len k ∧ same_config k k'.
Proof.
  unfold get_computed_blocks. destruct (_ || _); [intros [= <- <- <-]; pose proof (same_config_refl k); done|].
  intros E. apply bind_Ok in E as ([[bss h] c] & E1 & E). apply bind_Ok in E as (k1 & E2 & [= <- <- <-]).
  destruct (find_hit_same _ _ _ _ _ _ E1) as (H1 & H2 & H3 & H4 & H5 & H6).
  assert (same_config k (with_coordinator c k)) as Hsc.
  { split; [|cbn; rewrite H1; apply static_refl|done].
    unfold kv_shell, kv_pool. cbn. by rewrite H2, H3, H4, H5, H6. }
  destruct (log_stats (with_coordinator c k)).
  - apply bind_Ok in E2 as (s & _ & [= <-]). unfold kv_pool. cbn.
    pose proof (same_config_trans _ _ _ Hsc (same_config_stats _ (record (num_tokens r) h (num_preemptions r >? 0) s))).
    done.
  - injection E2 as <-. unfold kv_pool. cbn. done.
Qed.

Lemma kv_step_inv k k' : kv_step k k' → (∃ l, kv_inv k l) → ∃ l, kv_inv k' l ∧ same_config k k'.
Proof.
  intros Hstep [l Hk].
  destruct Hstep as [r new ncomp ncb look next delay enc full reserved sched k res k' r' Hpre Hres E
    |r k k' E|rid n np k k' Hnp E|r n k k' r' Hn Hr Hlen E|r k b n k' E|ids k k' Hids E|b k k' E|k|k|k|k|rid ns k k' E].
  - destruct (allocate_slots_ok r new ncomp ncb look next delay enc full reserved sched k l Hk Hpre Hres)
      as (res2 & k2 & r2 & l2 & E2 & Hk2 & _). rewrite E in E2. injection E2 as -> -> ->. eauto.
  - destruct (free_inv r k l Hk) as (k2 & l2 & E2 & Hk2 & _). rewrite E in E2. injection E2 as ->. eauto.
  - unfold remove_skipped_blocks in E.
    destruct (coord_remove_skipped_ok rid n np (coordinator k) l (ki_coord _ _ Hk) (ki_base _ _ Hk) Hnp)
      as (c' & l' & E1 & Ec & H1 & H2 & _ & H3).
    rewrite E1 in E. injection E as <-. exists l'. eapply kv_inv_step; [exact Hk|done|done|done|].
    by eapply same_lengths_static.
  - unfold kvm_cache_blocks in E. destruct (kvm_enable_caching k) eqn:Een; [|injection E as <- <-; exists l; split; [done|apply same_config_refl]].
    destruct (coord_cache_ok r n (coordinator k) l (ki_coord _ _ Hk) (ki_class _ _ Hk Een))
      as (c' & r2 & E1 & Ec & H1 & H2 & _ & H3); try done.
    + rewrite <- Een. symmetry. apply (ki_caching _ _ Hk).
    + apply (ki_sbs _ _ Hk).
    + by apply Hr.
    + rewrite E1 in E. injection E as <- <-. exists l. eapply kv_inv_step; [exact Hk|done|done|done|].
      eapply Forall2_impl; [exact H3|]. by intros m m' [? _].
  - destruct (lookup_same _ _ _ _ _ E) as (H1 & H2 & H3 & H4 & H5 & H6 & _ & H7). exists l. by eapply kv_inv_same.
  - unfold kvm_evict_blocks in E.
    destruct (evict_blocks_ok ids l (kv_pool k) (proj1 (ki_coord _ _ Hk)) Hids) as (p' & E1 & H1 & H2 & _ & H3).
    rewrite E1 in E. injection E as <-. exists l. apply kv_inv_pool; try done.
    intros i (blk & Hb & Hh). unfold unhashed. rewrite H3. case_decide; [|eauto]. rewrite Hb. cbn. eauto.
  - unfold kvm_reset_prefix_cache in E. pose proof (reset_ok l (kv_pool k) (proj1 (ki_coord _ _ Hk))) as Hr.
    assert (∃ ok p', reset_prefix_cache (kv_pool k) = (ok, p') ∧ kv_inv (with_pool p' k) l ∧ same_config k (with_pool p' k))
      as (ok & p' & Ep & Hk' & Hsc).
    { case_decide.
      - destruct Hr as (p' & -> & H1 & H2 & H3). exists true, p'. split; [done|]. apply kv_inv_pool; try done.
        intros i (blk & Hb & _).
        destruct (pool_valid (kv_pool k) l p' l i) as [[blk' Hb'] _]; [apply (ki_coord _ _ Hk)|done|by apply pool_core_config|eauto|].
        exists blk'. split; [done|]. destruct (block_hash blk') as [h|] eqn:Eh; [|done].
        specialize (H3 h i). assert (HashMap.contain (cached_block_hash_to_block p') h i = true); [|congruence].
        apply (wf_contain _ (proj2 H1)). exists blk'. split; [done|by left].
      - rewrite Hr. exists false, (kv_pool k). split; [done|]. apply kv_inv_pool; try done. apply (ki_coord _ _ Hk). }
    rewrite Ep in E. destruct ok; cbn [negb] in E; [|injection E as <- <-; eauto].
    destruct (log_stats (with_pool p' k)); [|injection E as <- <-; eauto].
    apply bind_Ok in E as (s & _ & [= <- <-]). exists l.
    destruct (kv_inv_same (with_pool p' k) (with_stats (Some (set_reset s)) (with_pool p' k)) l Hk') as [? Hst];
      try done; [apply same_config_stats|]. split; [done|]. by eapply same_config_trans.
  - exists l. unfold kvm_take_events, take_events. destruct (ki_coord _ _ Hk) as [[H1 H2] _].
    destruct (enable_kv_cache_events (kv_pool k)); cbn [snd].
    + apply kv_inv_pool; try done. split; [by apply (core_wf_same (kv_pool k))|by apply (hash_wf_same (kv_pool k))].
    + by apply kv_inv_pool.
  - exists l. unfold kvm_take_new_block_ids. cbn [snd]. rewrite <- list_fmap_compose.
    apply (kv_inv_managers k l); [done|]. by apply mgr_same_fmap.
  - exists l. unfold kvm_new_step_starts, coord_new_step_starts. apply (kv_inv_managers k l); [done|].
    apply mgr_same_fmap. intros m. unfold mgr_new_step_starts. by destruct (mclass m) eqn:Em.
  - exists l. unfold make_prefix_cache_stats. destruct (negb (log_stats k)).
    { split; [done|apply same_config_refl]. }
    apply (kv_inv_same k); try done. apply same_config_stats.
  - unfold kvm_get_num_common_prefix_blocks in E. apply bind_Ok in E as ([ns1 c1] & E1 & [= <- <-]).
    destruct (common_prefix_same _ _ _ _ E1) as (ms' & HF & ->). exists l. by apply (kv_inv_managers k l).
Qed.

End KVManagerFacts.
