(* ===== verification/KVDeferred.v ===== *)
(** * Deferred frees

    With [defer_block_free] the scheduler does not free the blocks of a finished request
    at once: [KVCacheManager.pop_blocks_for_free] takes them out of the block tables with
    their references, [Scheduler._free_request_blocks] queues them, and
    [Scheduler._drain_deferred_frees] returns the entries at the front of the queue to the
    pool.  The file models the manager together with this queue and shows that the
    references of queued blocks are accounted for. *)

From S2P Require Import Prelude MathUtils Request BlockHash KVMetrics FreeQueue BlockPool.
From S2P Require Import SingleTypeManager ManagerInv Coordinator HybridHit CacheStats.
From S2P Require Import KVCacheManager.

Local Open Scope Z_scope.

Section KVDeferred.
Context {Q : Type} `{!FreeQueueOps Q} `{!FreeQueueSpec Q} {env : PoolEnv}.
Implicit Types (k : KVCacheManager Q) (p : BlockPool Q) (l : list nat) (ds : list (list nat)).

(** ** Steps *)

(** The end of [_free_request_blocks]: requests without blocks are not queued. *)
Definition defer_free (r : Request) k ds : KVCacheManager Q * list (list nat) :=
  let '(bs, k) := pop_blocks_for_free r k in
  (k, match bs with [] => ds | _ => ds ++ [bs] end).

(** One iteration of [_drain_deferred_frees]. *)
Definition return_deferred (bs : list nat) k : result (KVCacheManager Q) :=
  p ← free_blocks (reverse bs) (kv_pool k); Ok (with_pool p k).

Inductive deferred_step : KVCacheManager Q * list (list nat) → KVCacheManager Q * list (list nat) → Prop :=
  | deferred_kv k k' ds : kv_step k k' → deferred_step (k, ds) (k', ds)
  | deferred_pop r k ds : deferred_step (k, ds) (defer_free r k ds)
  | deferred_return bs ds k k' : return_deferred bs k = Ok k' → deferred_step (k, bs :: ds) (k', ds).

(** ** The references of queued blocks *)

Definition queued ds : Held := λ i, occ i (concat ds).

Record deferred_inv k ds l : Prop := {
  dj_inv : kv_inv (kept := queued ds) k l;
  dj_valid b : b ∈ concat ds → is_Some (blocks (kv_pool k) !! b);
}.

(** The invariant only reads the reference counts of a manager through their sum. *)
Lemma mgr_inv_shift f f' m m' p p' l l' :
  mgr_inv f m p l → pool_wf p' l' → pool_config p' = pool_config p → mgr_static m' = mgr_static m →
  (∀ i, unhashed p i → unhashed p' i) →
  (∀ i b, blocks p' !! i = Some b → i ≠ 0%nat → ref_cnt b = Z.of_nat (f' i + table_occ (req_to_blocks m') i)) →
  (∀ rid, req_blocks rid m' = [] ∧ num_cached_block m' !! rid = None ∨
    req_blocks rid m' = req_blocks rid m ∧ num_cached_block m' !! rid = num_cached_block m !! rid) →
  (∀ i, (0 < table_occ (req_to_blocks m') i)%nat → (f i + table_occ (req_to_blocks m) i = 1)%nat →
    (f' i + table_occ (req_to_blocks m') i = 1)%nat) →
  mgr_inv f' m' p' l'.
Proof.
  intros [H1 H2 H3 H4 H5 H6] Hwf Hcfg Hst Hun Href Htab Hone. split; try done.
  - by eapply mgr_ok_same.
  - intros rid b Hb. apply (pool_valid p l p' l' b H1 Hwf Hcfg). destruct (Htab rid) as [[E _]|[E _]]; rewrite E in Hb; [by apply not_elem_of_nil in Hb|].
    by eapply H4.
  - intros rid n. destruct (Htab rid) as [[_ ->]|[-> ->]]; [done|]. apply H5.
  - intros rid j b Hen Hj Hb0 Hle. destruct (Htab rid) as [[E _]|[E1 E2]]; [by rewrite E in Hj|]. pose proof Hj as Hj'. rewrite E1 in Hj. rewrite E2 in Hle.
    destruct (H6 rid j b) as [Hs Hu]; try done; [unfold pool_config in Hcfg; congruence|]. split; [|by apply Hun]. apply Hone; [|done].
    pose proof (occ_le_table (req_to_blocks m') rid b) as Hge. assert (0 < occ b (req_blocks rid m'))%nat by (apply occ_pos; by eapply list_elem_of_lookup_2). unfold req_blocks in *. lia.
Qed.

(** ** Popping *)

Lemma pop_facts rid m :
  let m' := (mgr_pop_blocks_for_free rid m).2 in
  (mgr_pop_blocks_for_free rid m).1 = req_blocks rid m ∧ mgr_static m' = mgr_static m ∧
  (∀ i, table_occ (req_to_blocks m') i + occ i (req_blocks rid m) = table_occ (req_to_blocks m) i)%nat ∧
  ∀ rid', req_blocks rid' m' = [] ∧ num_cached_block m' !! rid' = None ∨
    req_blocks rid' m' = req_blocks rid' m ∧ num_cached_block m' !! rid' = num_cached_block m !! rid'.
Proof.
  assert (∀ m, let m' := (base_pop_blocks_for_free rid m).2 in
    (∀ i, table_occ (req_to_blocks m') i + occ i (req_blocks rid m) = table_occ (req_to_blocks m) i)%nat ∧
    ∀ rid', req_blocks rid' m' = [] ∧ num_cached_block m' !! rid' = None ∨
      req_blocks rid' m' = req_blocks rid' m ∧ num_cached_block m' !! rid' = num_cached_block m !! rid') as Hbase.
  { intros m0. cbn. split; [intros i; apply table_occ_delete|]. intros rid'. unfold req_blocks. cbn. destruct (decide (rid' = rid)) as [->|Hne].
    - left. by rewrite !lookup_delete_eq.
    - right. by rewrite !lookup_delete_ne. }
  unfold mgr_pop_blocks_for_free. destruct (mclass m) eqn:Em; try (split; [done|]; split; [done|]; apply (Hbase m)).
  match goal with |- context [if ?b then _ else _] => destruct b end; (split; [done|]; split; [done|]); [|apply (Hbase m)].
  exact (Hbase (with_last_state (delete rid (last_state_block_idx m)) (with_allocated_reqs (_allocated_block_reqs m ∖ {[rid]}) m))).
Qed.

Lemma pop_total rid (ms : list SingleTypeKVCacheManager) i :
  (occ i (concat ((mgr_pop_blocks_for_free rid <$> ms).*1)) + total ((mgr_pop_blocks_for_free rid <$> ms).*2) i = total ms i)%nat.
Proof.
  unfold total. induction ms as [|m ms IH]; [done|]. cbn. rewrite occ_app. destruct (pop_facts rid m) as (-> & _ & Ht & _). specialize (Ht i). cbn in IH. lia.
Qed.

Lemma defer_free_inv r k ds l : deferred_inv k ds l →
  let '(k', ds') := defer_free r k ds in deferred_inv k' ds' l ∧ same_config k k'.
Proof.
  intros [Hk Hval]. unfold defer_free, pop_blocks_for_free, coord_pop_blocks_for_free.
  set (ms := single_type_managers (coordinator k)). set (rid := request_id r). set (popped := mgr_pop_blocks_for_free rid <$> ms).
  set (bs := concat popped.*1). set (ds' := match bs with [] => ds | _ => ds ++ [bs] end).
  assert (∀ i, occ i (concat ds') = (occ i (concat ds) + occ i bs)%nat) as Hocc.
  { intros i. unfold ds'. destruct bs as [|b bs'] eqn:E; [rewrite occ_nil; lia|]. rewrite concat_app, occ_app. cbn [concat]. by rewrite app_nil_r. }
  assert (∀ b, b ∈ bs → is_Some (blocks (kv_pool k) !! b)) as Hbs.
  { intros b Hb%list_elem_of_In. apply in_concat in Hb as (row & Hrow & Hb). apply list_elem_of_In in Hrow, Hb. apply list_elem_of_fmap in Hrow as (x & -> & Hx). apply list_elem_of_fmap in Hx as (m & -> & Hm).
    destruct (pop_facts rid m) as (E & _). rewrite E in Hb. destruct (ki_coord _ _ Hk) as [_ Hinv]. by eapply (mi_valid _ _ _ _ (Hinv m Hm)). }
  destruct (ki_coord _ _ Hk) as [Hwf Hinv].
  assert (Forall2 (λ m m', mgr_static m' = mgr_static m) ms popped.*2) as Hst.
  { unfold popped. clear. induction ms as [|m ms IH]; [constructor|]. cbn. constructor; [apply pop_facts|exact IH]. }
  assert (coord_inv (kept := queued ds') popped.*2 (kv_pool k) l) as Hc'.
  { split; [done|]. intros m' Hm'. apply list_elem_of_fmap in Hm' as (x & -> & Hx). pose proof Hx as Hx'. apply list_elem_of_fmap in Hx' as (m & -> & Hm).
    destruct (pop_facts rid m) as (_ & Es & Ht & Htab). assert ((mgr_pop_blocks_for_free rid m).2 ∈ popped.*2) as Hin by (apply list_elem_of_fmap; eexists; done).
    set (m' := (mgr_pop_blocks_for_free rid m).2) in *.
    assert (∀ i, others (kept := queued ds') popped.*2 m' i + table_occ (req_to_blocks m') i = others (kept := queued ds) ms m i + table_occ (req_to_blocks m) i)%nat as Hsum.
    { intros i. pose proof (others_total (kept := queued ds') popped.*2 m' i Hin). pose proof (others_total (kept := queued ds) ms m i Hm).
      pose proof (pop_total rid ms i) as Hp. fold popped bs in Hp. specialize (Hocc i). unfold held, queued in *. lia. }
    eapply (mgr_inv_shift (others (kept := queued ds) ms m)); [by apply Hinv|done|done|done|done| |done|].
    - intros i b Hb Hi. rewrite Hsum. by apply (mi_ref _ _ _ _ (Hinv m Hm)).
    - intros i _ Hone. by rewrite Hsum. }
  destruct Hk as [_ K2 K3 K4 K5 K6 K7 K8 K9 K10].
  split; [split; [split; cbn|]|split; [done|exact Hst|done]].
  - exact Hc'.
  - by eapply static_base.
  - done.
  - intros Hen. specialize (K4 Hen). clear -Hst K4. fold ms in K4. induction Hst as [|m m' ms ms' E HF IH]; [done|].
    inversion_clear K4. constructor; [|auto]. unfold mgr_static in E. by replace (mclass m') with (mclass m) by congruence.
  - done.
  - done.
  - done.
  - rewrite K8. by apply Forall2_length in Hst.
  - done.
  - rewrite <- K10. symmetry. by apply Forall2_length in Hst.
  - intros b Hb. apply occ_pos in Hb. rewrite Hocc in Hb. destruct (decide (0 < occ b bs)%nat) as [H|H]; [apply Hbs; by apply occ_pos|]. apply Hval. apply occ_pos. lia.
Qed.

(** ** Returning *)

Lemma return_deferred_inv bs ds k l : kv_cache_groups (kv_cache_config (coordinator k)) ≠ [] → deferred_inv k (bs :: ds) l →
  ∃ k' l', return_deferred bs k = Ok k' ∧ deferred_inv k' ds l' ∧ same_config k k'.
Proof.
  intros Hne [Hk Hval]. unfold return_deferred. destruct (ki_coord _ _ Hk) as [Hwf Hinv]. set (ms := single_type_managers (coordinator k)) in *.
  assert (∃ m0, m0 ∈ ms) as [m0 Hm0].
  { pose proof (ki_len _ _ Hk) as Hl. fold ms in Hl. destruct ms as [|m ms']; [|exists m; by left]. by destruct (kv_cache_groups (kv_cache_config (coordinator k))). }
  assert (∀ i, (queued (bs :: ds) i = occ i bs + queued ds i)%nat) as Hq by (intros i; unfold queued; cbn; apply occ_app).
  destruct (free_blocks_ok (reverse bs) l (kv_pool k) Hwf) as (p' & wh & woh & E & Hwf' & [Hm Hb] & _).
  { intros b Hin. rewrite elem_of_reverse in Hin. destruct (Hval b) as [blk Hblk]; [cbn; apply elem_of_app; by left|]. exists blk. split; [done|]. intros Hb0.
    rewrite (mi_ref _ _ _ _ (Hinv m0 Hm0) b blk Hblk Hb0), others_total by done. unfold held. rewrite Hq, occ_reverse. lia. }
  rewrite E. unfold mbind; cbn [result_bind]. set (l' := woh ++ l ++ wh) in *. exists (with_pool p' k), l'. split; [done|].
  assert (pool_config p' = pool_config (kv_pool k)) as Hcfg by (unfold pool_meta, pool_config in *; congruence).
  assert (coord_inv (kept := queued ds) ms p' l') as Hc'.
  { split; [done|]. intros m Hmin. pose proof (λ i, others_total (kept := queued ds) ms m i Hmin) as Ho'. pose proof (λ i, others_total (kept := queued (bs :: ds)) ms m i Hmin) as Ho.
    eapply (mgr_inv_shift (others (kept := queued (bs :: ds)) ms m) _ m m); [by apply Hinv|done|done|done| | |by right|].
    - intros i. apply (unhashed_add_ref _ _ (λ i, - Z.of_nat (occ i (reverse bs)))). exact Hb.
    - intros i b Hi Hi0. rewrite Hb in Hi. destruct (blocks (kv_pool k) !! i) as [b0|] eqn:Eb; [|done]. injection Hi as <-. cbn.
      rewrite (mi_ref _ _ _ _ (Hinv m Hmin) i b0 Eb Hi0), Ho, Ho'. unfold held. rewrite Hq, occ_reverse. lia.
    - intros i Hpos. rewrite Ho, Ho'. unfold held. rewrite Hq. pose proof (sum_list_with_ge (λ m, table_occ (req_to_blocks m) i) m ms Hmin) as Hge. cbn in Hge. unfold total. lia. }
  destruct Hk as [_ K2 K3 K4 K5 K6 K7 K8 K9 K10]. unfold kv_pool, pool_config in *.
  split; [split; [split; cbn|]|split; [unfold kv_shell, kv_pool, pool_config; cbn; congruence|apply static_refl|done]]; unfold kv_pool; cbn; try done; try congruence.
  intros b Hin. apply (pool_valid (kv_pool k) l p' l' b Hwf Hwf' Hcfg). apply Hval. cbn. apply elem_of_app. by right.
Qed.

(** ** All steps *)

Lemma deferred_step_inv x y : deferred_step x y → kv_cache_groups (kv_cache_config (coordinator x.1)) ≠ [] →
  (∃ l, deferred_inv x.1 x.2 l) → ∃ l, deferred_inv y.1 y.2 l ∧ same_config x.1 y.1.
Proof.
  intros Hs Hne [l [Hk Hval]]. destruct Hs as [k k' ds Hs|r k ds|bs ds k k' E]; cbn [fst snd] in *.
  - destruct (kv_step_inv (kept := queued ds) k k' Hs (ex_intro _ l Hk)) as (l' & Hk' & Hsame). exists l'. split; [|done]. split; [done|]. intros b Hb.
    destruct (ki_coord _ _ Hk) as [Hwf _], (ki_coord _ _ Hk') as [Hwf' _]. apply (pool_valid (kv_pool k) l (kv_pool k') l' b Hwf Hwf'); [|by apply Hval]. destruct Hsame as [Hsh _ _]. unfold kv_shell in Hsh. congruence.
  - pose proof (defer_free_inv r k ds l (Build_deferred_inv _ _ _ Hk Hval)) as H. destruct (defer_free r k ds) as [k' ds']. by exists l.
  - destruct (return_deferred_inv bs ds k l Hne (Build_deferred_inv _ _ _ Hk Hval)) as (k2 & l' & E2 & H). rewrite E in E2. injection E2 as <-. by exists l'.
Qed.
Lemma deferred_steps_inv x y : rtc deferred_step x y → kv_cache_groups (kv_cache_config (coordinator x.1)) ≠ [] →
  (∃ l, deferred_inv x.1 x.2 l) → ∃ l, deferred_inv y.1 y.2 l ∧ same_config x.1 y.1.
Proof.
  induction 1 as [x|x y z Hs _ IH]; intros Hne Hx; [destruct Hx as [l Hx]; exists l; split; [done|apply same_config_refl]|].
  destruct (deferred_step_inv _ _ Hs Hne Hx) as (l1 & H1 & E1). destruct IH as (l2 & H2 & E2); [by rewrite (same_config_cfg _ _ E1)|by exists l1|].
  exists l2. split; [done|]. by eapply same_config_trans.
Qed.
End KVDeferred.
