(* ===== verification/KVReachable.v ===== *)
(** * Reachable KV cache managers

    The manager as the scheduler sees it over time: it is built by
    [KVCacheManager.__init__] and moved by any sequence of its operations
    ([kv_step]), deferred frees included ([deferred_step]).  The file shows that block ownership holds in every reachable
    manager, and that a lookup hands [allocate_slots] what it needs. *)

From S2P Require Import Prelude MathUtils Request BlockHash KVMetrics FreeQueue BlockPool.
From S2P Require Import SingleTypeManager ManagerInv Coordinator HybridHit CacheStats.
From S2P Require Import KVCacheManager KVDeferred.

Local Open Scope Z_scope.

Section KVReachable.
Context {Q : Type} `{!FreeQueueOps Q} `{!FreeQueueSpec Q} {env : PoolEnv}.
Implicit Types (k : KVCacheManager Q) (c : KVCacheCoordinator Q) (p : BlockPool Q) (l : list nat).

(** ** Construction and reachability *)

Lemma kv_init_inv cfg mml sbs hbs mbt caching eagle stats events dcp pcp mc ret wn wd k :
  config_ok cfg caching dcp pcp sbs hbs → 0 < wd →
  KVCacheManager_init cfg mml sbs hbs mbt caching eagle stats events dcp pcp mc ret wn wd = Ok k →
  kv_inv k (seq 1 (Z.to_nat (num_blocks cfg) - 1)) ∧ kv_cache_config (coordinator k) = cfg.
Proof.
  intros Hcfg Hwd E. unfold KVCacheManager_init in E. apply bind_Ok in E as (c & Ec & E).
  apply bind_Ok in E as (u & Ew & [= <-]).
  destruct (get_coordinator_new _ _ _ _ _ _ _ _ _ _ _ _ _ Hcfg Ec) as (H1 & H2 & H3 & H4 & H5 & H6 & H7 & H8).
  cbn [coordinator]. split; [|done]. rewrite <- H4. split; cbn.
  - apply coord_inv_new; [done|done|done].
  - eapply Forall_impl; [exact H7|]. intros m Hm. apply Hm.
  - by rewrite <- H2.
  - intros Hen. eapply Forall_impl; [exact H7|]. intros m Hm. apply (mn_class _ _ Hm). by rewrite H2.
  - rewrite H5. apply Hcfg.
  - unfold kv_pool. cbn. rewrite H3. apply Hcfg.
  - unfold assert_ in Ew. destruct (0 <=? wn) eqn:Ewn; [|done]. zbool. pose proof (co_blocks _ _ _ _ _ _ Hcfg).
    rewrite H4. apply Z.div_pos; nia.
  - by rewrite H8.
  - unfold kv_pool. cbn. congruence.
  - congruence.
Qed.

Context {kept : Held}.

(** No table holds the block. *)
Definition unowned k (i : nat) : Prop :=
  ∀ m rid, m ∈ single_type_managers (coordinator k) → i ∉ req_blocks rid m.

Lemma table_occ_zero (t : gmap string (list nat)) i :
  table_occ t i = 0%nat ↔ ∀ rid, i ∉ default [] (t !! rid).
Proof.
  split.
  - intros H rid Hi. pose proof (occ_le_table t rid i). apply occ_pos in Hi. unfold default in *. lia.
  - intros H. induction t as [|rid bs t Hrid IH] using map_ind; [apply table_occ_empty|].
    pose proof (table_occ_insert t rid bs i) as E. rewrite Hrid in E. cbn in E. rewrite occ_nil in E.
    assert (occ i bs = 0%nat) as E0.
    { destruct (decide (occ i bs = 0%nat)) as [|Hne]; [done|]. exfalso. apply (H rid).
      rewrite lookup_insert_eq. cbn. apply occ_pos. lia. }
    rewrite IH in E; [lia|]. intros rid' Hi. destruct (decide (rid' = rid)) as [->|Hne].
    + rewrite Hrid in Hi. by apply not_elem_of_nil in Hi.
    + apply (H rid'). by rewrite lookup_insert_ne.
Qed.

Lemma total_zero k i : total (single_type_managers (coordinator k)) i = 0%nat ↔ unowned k i.
Proof.
  unfold total, unowned. induction (single_type_managers (coordinator k)) as [|m ms IH]; cbn.
  { split; [|done]. by intros _ m rid ?%not_elem_of_nil. }
  rewrite Nat.eq_add_0, IH, table_occ_zero. split.
  - intros [H1 H2] m' rid [->|Hm]%elem_of_cons; [apply H1|by apply H2].
  - intros H. split; [intros rid; apply (H m rid); by left|]. intros m' rid Hm. apply H. by right.
Qed.

(** What the invariant says about ownership, in terms of the tables. *)
Lemma kv_ownership k l :
  kv_inv k l → kv_cache_groups (kv_cache_config (coordinator k)) ≠ [] →
  let ms := single_type_managers (coordinator k) in
  let n := num_blocks (kv_cache_config (coordinator k)) in
  (∀ i b, blocks (kv_pool k) !! i = Some b → i ≠ 0%nat → ref_cnt b = Z.of_nat (held i + total ms i)) ∧
  (∀ i, i ∈ l ↔ 0 < Z.of_nat i < n ∧ unowned k i ∧ held i = 0%nat).
Proof.
  intros Hk Hne ms n. destruct (ki_coord _ _ Hk) as [[Hcore _] Hinv].
  assert (∀ i b, blocks (kv_pool k) !! i = Some b → i ≠ 0%nat → ref_cnt b = Z.of_nat (held i + total ms i)) as Href.
  { intros i b Hb Hi. pose proof (ki_len _ _ Hk) as Hl. unfold ms in *.
    destruct (single_type_managers (coordinator k)) as [|m ms'] eqn:Em;
      [by destruct (kv_cache_groups (kv_cache_config (coordinator k)))|].
    rewrite (mi_ref _ _ _ _ (Hinv m ltac:(by left)) i b Hb Hi). f_equal. apply others_total. by left. }
  split; [done|]. intros i. rewrite (wf_free _ _ Hcore), <- total_zero. fold ms.
  pose proof (wf_len _ _ Hcore) as Hlen. rewrite (ki_num _ _ Hk) in Hlen. fold n in Hlen. split.
  - intros [Hi (b & Hb & Hr)]. pose proof (lookup_lt_Some _ _ _ Hb). rewrite (Href i b Hb Hi) in Hr. lia.
  - intros (Hi & Ht & Hh). split; [lia|]. destruct (lookup_lt_is_Some_2 (blocks (kv_pool k)) i ltac:(lia)) as [b Hb].
    exists b. split; [done|]. rewrite (Href i b Hb ltac:(lia)). lia.
Qed.

Lemma kv_all_free k l :
  kv_inv k l → kv_cache_groups (kv_cache_config (coordinator k)) ≠ [] → (∀ i, unowned k i ∧ held i = 0%nat) →
  zlen l = num_blocks (kv_cache_config (coordinator k)) - 1.
Proof.
  intros Hk Hne Hall. destruct (kv_ownership k l Hk Hne) as [_ Hl].
  destruct (ki_coord _ _ Hk) as [[Hcore _] _]. pose proof (wf_pos _ _ Hcore) as Hpos.
  rewrite (ki_num _ _ Hk) in Hpos. set (n := num_blocks (kv_cache_config (coordinator k))) in *.
  assert (l ≡ₚ seq 1 (Z.to_nat n - 1)) as Hp.
  { apply NoDup_Permutation; [eapply fq_rep_nodup, (wf_queue _ _ Hcore)|apply NoDup_seq|].
    intros i. rewrite Hl, elem_of_seq. split; [lia|]. intros. split; [lia|apply Hall]. }
  apply Permutation_length in Hp. rewrite length_seq in Hp. lia.
Qed.

(** ** Lookups *)

(** The searches of the coordinator, for the supported group layouts. *)
Definition search_ok k : Prop :=
  let c := coordinator k in
  let ms := single_type_managers c in
  match coord_kind c with
  | NoPrefixCache => True
  | Unitary spec bs dcp pcp =>
      dcp = 1 ∧ pcp = 1 ∧ bs = spec_block_size spec ∧ bs = hash_block_size (kv_pool k) ∧
      ∃ m, ms = [m] ∧ block_size m = bs ∧
        findable (mclass m) spec (bool_decide (0%nat ∈ eagle_group_ids c)) bs
  | Hybrid hbs groups =>
      hbs = hash_block_size (kv_pool k) ∧ length (kv_cache_groups (kv_cache_config c)) = length ms ∧
      ∃ g0 gs, groups = g0 :: gs ∧
        hybrid_ok hbs (coord_scheduler_block_size c) (length ms) g0 gs ∧
        ∀ i m, ms !! i = Some m →
          ∃ g, g ∈ groups ∧ i ∈ sg_group_ids g ∧ spec_block_size (sg_spec g) = block_size m
  end.

Lemma owns_hashed p i key : hash_wf p → owns p i key → is_Some (blocks p !! i) ∧ ¬ unhashed p i.
Proof.
  intros Hwf (b & Hb & Ho). split; [eauto|]. intros (b' & Hb' & Hn). rewrite Hb in Hb'. injection Hb' as <-.
  destruct Ho as [Ho|Ho]; [congruence|]. destruct (cached_block_hashes_by_block p !! i) as [ks|] eqn:E.
  - destruct (wf_by_block _ Hwf _ _ E) as (b2 & h & Hb2 & Hh & _). congruence.
  - cbn in Ho. set_solver.
Qed.

Lemma hit_row_ok p l spec H n g row : pool_wf p l → hit_row p spec H n g row → hit_ok p row.
Proof.
  intros [Hcore Hwf] [Hl Hr] b [j Hj]%list_elem_of_lookup.
  destruct (Hr j) as (b' & Hb' & Ho & _); [rewrite <- Hl; by eapply lookup_lt_Some|].
  rewrite Hj in Hb'. injection Hb' as <-. destruct Ho as [->|Ho].
  - rewrite (wf_null _ _ Hcore). split; [|done]. apply lookup_lt_is_Some.
    pose proof (wf_len _ _ Hcore). pose proof (wf_pos _ _ Hcore). lia.
  - destruct (owns_hashed p b _ Hwf Ho). done.
Qed.

(** The result of a search: one row per manager, of exactly the hit length. *)
Definition rows_ok k (h : Z) (rows : list (list nat)) : Prop :=
  Forall2 (λ m bs, hit_ok (kv_pool k) bs ∧ zlen bs * block_size m = h)
    (single_type_managers (coordinator k)) rows.

Lemma unitary_search k l hashes n spec bs m :
  kv_inv k l → 0 ≤ n → n / bs ≤ zlen hashes → bs = spec_block_size spec → bs = hash_block_size (kv_pool k) →
  single_type_managers (coordinator k) = [m] → block_size m = bs →
  findable (mclass m) spec (bool_decide (0%nat ∈ eagle_group_ids (coordinator k))) bs →
  coord_kind (coordinator k) = Unitary spec bs 1 1 →
  ∃ rows h c, coord_find_longest_cache_hit hashes n (coordinator k) = Ok (rows, h, c) ∧
    0 ≤ h ≤ n ∧ rows_ok k h rows.
Proof.
  intros Hk Hn Hlen Ebs Ehbs Em Em2 Hf Ekind. unfold coord_find_longest_cache_hit. rewrite Ekind, Em.
  cbn [head of_option]. unfold mbind at 1; cbn [result_bind]. pose proof (ki_hbs _ _ Hk) as Hpos.
  destruct (ki_coord _ _ Hk) as [Hwf _].
  destruct (find_hit_ok (mclass m) (kv_pool k) (HashList hashes) hashes [0] spec
              (bool_decide (0%nat ∈ eagle_group_ids (coordinator k))) bs n)
    as (cs & q & E & _ & [Hq _] & HF); try done; try lia.
  { apply Hwf. } { split; [done|]. constructor; [lia|constructor]. } { apply hl_reads_list. }
  { rewrite <- Ebs. lia. }
  unfold kv_pool in E. rewrite E. unfold mbind; cbn [result_bind].
  inversion HF as [|g c0 gs' cs' Hrow HF' Eg Ecs]; subst g cs gs'. inversion HF'; subst cs'. cbn [first_list head of_option].
  cbn. eexists _, _, _. split; [reflexivity|]. destruct Hrow as [Hl Hr].
  rewrite <- Ebs in Hq. pose proof (Z.mul_div_le n bs ltac:(lia)). pose proof (Z.div_pos n bs Hn ltac:(lia)).
  split; [rewrite Hl; nia|]. unfold rows_ok. rewrite Em. constructor; [|constructor]. split; [|by rewrite Em2].
  exact (hit_row_ok _ _ _ _ _ _ _ Hwf (conj Hl Hr)).
Qed.

Lemma hybrid_search k l hashes n hbs g0 gs :
  let ms := single_type_managers (coordinator k) in
  let sbs := coord_scheduler_block_size (coordinator k) in
  kv_inv k l → 0 ≤ n → n / hbs ≤ zlen hashes →
  length (kv_cache_groups (kv_cache_config (coordinator k))) = length ms →
  hybrid_ok hbs sbs (length ms) g0 gs →
  (∀ i m, ms !! i = Some m → ∃ g, g ∈ g0 :: gs ∧ i ∈ sg_group_ids g ∧ spec_block_size (sg_spec g) = block_size m) →
  coord_kind (coordinator k) = Hybrid hbs (g0 :: gs) →
  ∃ rows h c, coord_find_longest_cache_hit hashes n (coordinator k) = Ok (rows, h, c) ∧
    0 ≤ h ≤ n ∧ rows_ok k h rows.
Proof.
  intros ms sbs Hk Hn Hlen El [Y1 Y2 Y3 Y4 Y5 Y6 Y7] Hcov Ekind. unfold coord_find_longest_cache_hit.
  rewrite Ekind, El. destruct (ki_coord _ _ Hk) as [Hwf _].
  destruct (hybrid_find_ok (kv_pool k) hashes hbs sbs n (length ms) (proj2 Hwf) Y1 Y2 Hn Hlen g0 gs Y3 Y4 Y5 Y6 Y7)
    as (rows & h & u & E & Hh & Hmod & Hl & Hrows).
  unfold kv_pool in E. fold sbs ms. rewrite E. unfold mbind; cbn [result_bind]. eexists _, _, _.
  split; [reflexivity|]. split; [done|]. apply Forall2_same_length_lookup_2; [done|].
  intros i m bs Hm Hbs. destruct (Hcov i m Hm) as (g & Hg & Hi & Eg).
  destruct (Hrows g i Hg Hi) as (c & Hc & Hrow). rewrite Hbs in Hc. injection Hc as <-.
  split; [by eapply hit_row_ok|]. destruct Hrow as [Hlr _]. rewrite Hlr, <- Eg.
  assert (spec_group_ok hbs sbs (length ms) g) as Hgo.
  { apply elem_of_cons in Hg as [->|Hg]; [done|]. rewrite Forall_forall in Y4. auto. }
  pose proof (so_bs _ _ _ _ Hgo) as Hpos. pose proof (so_sbs _ _ _ _ Hgo) as Hs.
  apply Z.mod_divide in Hs; [|lia]. apply Z.mod_divide in Hmod; [|lia]. destruct Hs as [a Ha], Hmod as [b Hb].
  rewrite Z2Nat.id by (apply Z.div_pos; lia). rewrite Hb, Ha, Z.mul_assoc, Z.div_mul by lia. done.
Qed.

(** Blocks found by a search may be handed to a request without blocks. *)
Lemma rows_computed k l rid rows h next :
  kv_inv k l → kvm_enable_caching k = true → 0 ≤ h → 0 ≤ next → rows_ok k h rows →
  (∀ m, m ∈ single_type_managers (coordinator k) → req_blocks rid m = [] ∧ num_cached_block m !! rid = None) →
  computed_ok rid h next (create_kv_cache_blocks rows k) (single_type_managers (coordinator k)) (kv_pool k).
Proof.
  intros Hk Hen Hh Hnext HF Hfresh. set (ms := single_type_managers (coordinator k)) in *.
  assert (fresh_request rid h next rows ms (kv_pool k)) as Hfr.
  { split; try done.
    - symmetry. by apply Forall2_length in HF.
    - apply Forall_forall. intros bs [j Hj]%list_elem_of_lookup.
      destruct (Forall2_lookup_r _ _ _ _ _ HF Hj) as (m & _ & Ho & _). done.
    - intros Hc. rewrite <- (ki_caching _ _ Hk) in Hc. congruence.
    - apply Forall2_same_length_lookup_2; [by apply Forall2_length in HF|]. intros j m bs Hm _ Hx.
      pose proof (ki_class _ _ Hk Hen) as Hc. rewrite Forall_lookup in Hc. specialize (Hc j m Hm). by rewrite Hx in Hc.
    - intros m bs [j Hj]%list_elem_of_lookup. apply lookup_zip_Some in Hj as [Hm Hb].
      destruct (Forall2_lookup_lr _ _ _ _ _ _ HF Hm Hb) as [_ E]. lia. }
  unfold create_kv_cache_blocks. destruct (existsb _ rows) eqn:Eex.
  { right. split; [by left|done]. }
  assert (rows = replicate (length ms) []) as Erows.
  { unfold ms. rewrite (Forall2_length _ _ _ HF). clear -Eex.
    induction rows as [|bs rows IH]; [done|]. cbn in Eex. apply orb_false_iff in Eex as [E1 E2]. cbn. f_equal; [|auto].
    destruct bs; [done|]. zbool. cbn in E1. lia. }
  destruct (decide (next = 0)) as [->|Hnz]; cycle 1.
  { right. split; [right; lia|]. cbn. rewrite (ki_groups _ _ Hk). fold ms. by rewrite <- Erows. }
  left. split; [done|]. split; [done|]. split; [cbn; by rewrite (ki_groups _ _ Hk)|].
  intros m Hm. right. destruct (Hfresh m Hm) as [-> _]. cbn.
  apply list_elem_of_lookup in Hm as [j Hj]. destruct (Forall2_lookup_l _ _ _ _ _ HF Hj) as (bs & Hb & _ & E).
  rewrite Erows in Hb. apply lookup_replicate in Hb as [-> _]. cbn in E. lia.
Qed.

Lemma fresh_empty rid next ms p :
  0 ≤ next → (∀ m, m ∈ ms → req_blocks rid m = [] ∧ num_cached_block m !! rid = None) →
  fresh_request rid 0 next (replicate (length ms) []) ms p.
Proof.
  intros Hn Hfresh. split; try done.
  - apply length_replicate.
  - apply Forall_replicate. by intros b ?%not_elem_of_nil.
  - intros _. by apply Forall_replicate.
  - clear. induction ms; cbn; constructor; done.
  - intros m bs [-> _]%elem_of_zip_r%elem_of_replicate. cbn. lia.
Qed.

(** A request that waits for its first blocks. *)
Record lookup_pre (r : Request) k : Prop := {
  lp_fresh m : m ∈ single_type_managers (coordinator k) →
    req_blocks (request_id r) m = [] ∧ num_cached_block m !! request_id r = None;
  lp_zero : num_computed_tokens r = 0;
  lp_tokens : 1 ≤ num_tokens r;
  lp_request : kvm_enable_caching k = true → request_ok (kv_pool k) (num_tokens r) r;
  lp_stats : log_stats k = true → is_Some (prefix_cache_stats k);
}.

Lemma search_found r k l :
  kv_inv k l → search_ok k → lookup_pre r k → kvm_enable_caching k = true →
  ∃ rows h c, coord_find_longest_cache_hit (block_hashes r) (num_tokens r - 1) (coordinator k) = Ok (rows, h, c) ∧
    0 ≤ h ≤ num_tokens r - 1 ∧ rows_ok k h rows.
Proof.
  intros Hk Hs [L1 L2 L3 L4 L5] Hen. unfold search_ok in Hs. pose proof (ki_hbs _ _ Hk) as Hpos.
  assert ((num_tokens r - 1) / hash_block_size (kv_pool k) ≤ zlen (block_hashes r)) as Hlen.
  { pose proof (ro_hashes _ _ _ (L4 Hen)). pose proof (Z.div_le_mono (num_tokens r - 1) (num_tokens r) _ Hpos ltac:(lia)). lia. }
  destruct (coord_kind (coordinator k)) as [|spec bs dcp pcp|hbs groups] eqn:Ek.
  - unfold coord_find_longest_cache_hit. rewrite Ek. eexists _, 0, _. split; [reflexivity|]. split; [lia|].
    unfold rows_ok. clear. induction (single_type_managers (coordinator k)); cbn; constructor; [|done].
    split; [|done]. by intros b ?%not_elem_of_nil.
  - destruct Hs as (-> & -> & E1 & E2 & m & E3 & E4 & E5).
    destruct (unitary_search k l (block_hashes r) (num_tokens r - 1) spec bs m) as (rows & h & c & H); try done;
      [lia|by rewrite E2|]. eauto.
  - destruct Hs as (-> & E1 & g0 & gs & -> & Hok & Hcov).
    destruct (hybrid_search k l (block_hashes r) (num_tokens r - 1) _ g0 gs Hk ltac:(lia) Hlen E1 Hok Hcov Ek)
      as (rows & h & c & H). eauto.
Qed.

Lemma lookup_ok r k l next :
  kv_inv k l → search_ok k → lookup_pre r k → 0 ≤ next →
  ∃ b h k1, get_computed_blocks r k = Ok (b, h, k1) ∧ (kv_inv k1 l ∧ max_model_len k1 = max_model_len k) ∧
    (single_type_managers (coordinator k1) = single_type_managers (coordinator k) ∧ kv_pool k1 = kv_pool k) ∧
    0 ≤ h < num_tokens r ∧
    computed_ok (request_id r) h next b (single_type_managers (coordinator k1)) (kv_pool k1) ∧
    kvm_enable_caching k1 = kvm_enable_caching k.
Proof.
  intros Hk Hs Hpre Hnext. pose proof Hpre as [L1 L2 L3 L4 L5].
  assert (∃ b h k1, get_computed_blocks r k = Ok (b, h, k1) ∧ 0 ≤ h < num_tokens r ∧
    computed_ok (request_id r) h next b (single_type_managers (coordinator k)) (kv_pool k))
    as (b & h & k1 & E & Hh & Hc).
  { unfold get_computed_blocks. destruct (negb (kvm_enable_caching k) || skip_reading_prefix_cache r) eqn:Eskip.
    - eexists _, 0, k. split; [reflexivity|]. split; [lia|].
      destruct (decide (next = 0)) as [->|Hnz]; [left|right].
      + split; [done|]. split; [done|]. split; [cbn; by rewrite (ki_groups _ _ Hk)|].
        intros m Hm. right. destruct (L1 m Hm) as [-> _]. done.
      + split; [right; lia|]. cbn. rewrite (ki_groups _ _ Hk). by apply fresh_empty.
    - apply orb_false_iff in Eskip as [Een _]. apply negb_false_iff in Een.
      destruct (search_found r k l Hk Hs Hpre Een) as (rows & h & c & Ef & Hh & Hrows).
      rewrite Ef. unfold mbind at 1; cbn [result_bind].
      assert (∃ s, (if log_stats (with_coordinator c k) then
         s ← of_option AssertionError (prefix_cache_stats (with_coordinator c k));
         Ok (with_stats (Some (record (num_tokens r) h (num_preemptions r >? 0) s)) (with_coordinator c k))
       else Ok (with_coordinator c k)) = Ok (with_stats s (with_coordinator c k))) as [st ->].
      { cbn. destruct (log_stats k) eqn:El.
        - destruct (L5 eq_refl) as [s0 ->]. cbn. eauto.
        - exists (prefix_cache_stats k). by destruct k. }
      unfold mbind; cbn [result_bind]. eexists _, h, _. split; [reflexivity|]. split; [lia|].
      apply (rows_computed k l _ rows h next Hk Een); try done; lia. }
  exists b, h, k1. split; [done|].
  destruct (lookup_same _ _ _ _ _ E) as (H1 & H2 & H3 & H4 & H5 & H6 & H7 & H8).
  rewrite H1, H2. split; [split; [by apply (kv_inv_same k)|done]|]. done.
Qed.

End KVReachable.

(** ** Claims *)

Section KVClaims.
Context {Q : Type} `{!FreeQueueOps Q} `{!FreeQueueSpec Q} {env : PoolEnv}.
Implicit Types (k : KVCacheManager Q) (l : list nat).

(** C2: block ownership holds in every reachable KV cache manager.  From the
    constructor, after any sequence of allocations, frees, removals of skipped
    blocks, caching, lookups, evictions, resets and bookkeeping calls, and of
    deferred frees (blocks popped from the tables and queued by the scheduler,
    entries of the queue returned to the pool in order): the reference count of
    every block is the number of its occurrences in the block tables of all
    groups and in the queue, the free list holds exactly the blocks (other than
    the null block) that neither a table nor the queue holds, the free counter
    is its length, a key of the prefix cache leads to a block exactly when that
    block carries the key, and when no request holds blocks and the queue is
    empty, all blocks but the null block are free again: no block leaks and none
    is freed twice.  The first entry of the queue can always be returned.  The
    groups are those of the base-class managers ([config_ok]): no Mamba and no
    sink attention groups, cross attention only without caching. *)
Theorem kv_reachable_ownership cfg mml sbs hbs mbt caching eagle stats events dcp pcp mc ret wn wd k0 k ds
    (Hcfg : config_ok cfg caching dcp pcp sbs hbs) (Hne : kv_cache_groups cfg ≠ []) (Hwd : 0 < wd)
    (Hinit : KVCacheManager_init cfg mml sbs hbs mbt caching eagle stats events dcp pcp mc ret wn wd = Ok k0)
    (Hreach : rtc deferred_step (k0, []) (k, ds)) :
  let p := kv_pool k in
  ∃ l, fq_rep (free_block_queue p) l ∧ get_num_free_blocks p = zlen l ∧
    (∀ i b, blocks p !! i = Some b → i ≠ null_block p →
       ref_cnt b = Z.of_nat (total (single_type_managers (coordinator k)) i + occ i (concat ds))) ∧
    (∀ i, i ∈ l ↔ 0 < Z.of_nat i < num_blocks cfg ∧ unowned k i ∧ i ∉ concat ds) ∧
    (∀ key i, HashMap.contain (cached_block_hash_to_block p) key i = true ↔ owns p i key) ∧
    ((∀ i, unowned k i) → ds = [] → get_num_free_blocks p = num_blocks cfg - 1) ∧
    (∀ bs ds', ds = bs :: ds' → ∃ k', return_deferred bs k = Ok k').
Proof.
  intros p. destruct (kv_init_inv _ _ _ _ _ _ _ _ _ _ _ _ _ _ _ _ Hcfg Hwd Hinit) as [Hk0 Ecfg]. rewrite <- Ecfg in Hne.
  destruct (deferred_steps_inv (k0, []) (k, ds) Hreach Hne) as (l & [Hk Hval] & Hsame%same_config_cfg).
  { eexists. split; [exact Hk0|]. by intros b ?%not_elem_of_nil. }
  cbn [fst snd] in *. rewrite <- Hsame in Ecfg, Hne. rewrite <- Ecfg. destruct (kv_ownership (kept := queued ds) k l Hk Hne) as [Href Hfree].
  destruct (ki_coord _ _ Hk) as [[Hcore Hhash] _]. exists l. split; [apply (wf_queue _ _ Hcore)|].
  split; [by apply (get_free_len (kept := queued ds))|]. unfold held, queued in Href, Hfree.
  split; [unfold p; rewrite (wf_null _ _ Hcore); intros i b Hb Hi; rewrite (Href i b Hb Hi); f_equal; lia|].
  split; [intros i; by rewrite Hfree, occ_0|]. split; [apply (wf_contain _ Hhash)|]. split.
  - intros Hall ->. unfold p. rewrite (get_free_len (kept := queued []) k l Hk). apply (kv_all_free (kept := queued [])); done.
  - intros bs ds' ->. destruct (return_deferred_inv bs ds' k l Hne (Build_deferred_inv _ _ _ Hk Hval)) as (k' & _ & E & _). by exists k'.
Qed.

Context {kept : Held}.

(** C5: slot allocation never fails half-way.  For the requests the scheduler
    passes, [allocate_slots] always returns: if it allocates, every group's
    table of the request covers the computed, new and lookahead tokens (the
    encoder tokens for cross attention) and no other request is touched; if it
    refuses, the tables keep their lengths (only blocks that the request no
    longer attends to were released) and the free blocks are fewer than the
    blocks needed plus the watermark and the reservation.  In both cases the
    ownership invariant holds again, and the request is changed in its memo
    table of embedding hashes at most. *)
Theorem allocate_slots_spec r new ncomp ncb look next delay enc full reserved sched k l
    (Hk : kv_inv k l)
    (Hpre : alloc_pre r new ncomp (default (empty_kv_cache_blocks k) ncb) look next k)
    (Hres : 0 ≤ reserved) :
  ∃ res k' r' l',
    allocate_slots r new ncomp ncb look next delay enc full reserved sched k = Ok (res, k', r') ∧
    kv_inv k' l' ∧ same_but_memo r r' ∧
    alloc_outcome r new ncomp (kb_blocks (default (empty_kv_cache_blocks k) ncb)) look next enc full
      reserved sched k l res k' l'.
Proof.
  destruct (allocate_slots_ok r new ncomp ncb look next delay enc full reserved sched k l Hk Hpre Hres)
    as (res & k' & r' & l' & E & [Hk' _] & [Hr _] & H). by exists res, k', r', l'.
Qed.

(** C6: a prefix cache hit can always be handed to slot allocation.  For a
    waiting request without blocks, [get_computed_blocks] returns a hit shorter
    than the request, without changing tables or pool, and [allocate_slots]
    called with that hit returns: it either gives the request tables that cover
    its tokens, adopting the hit blocks, or refuses for lack of free blocks.
    The layouts are those of [search_ok]: without context parallelism, with one
    group, or several of which at most the first is full attention, no EAGLE on
    Mamba or chunked local attention groups, and no cross attention. *)
Theorem lookup_then_allocate r new look next delay enc full reserved sched k l
    (Hk : kv_inv k l) (Hs : search_ok k) (Hr : lookup_pre r k)
    (Hnew : 0 < new) (Hlook : 0 ≤ look) (Hnext : 0 ≤ next) (Hprompt : 0 ≤ num_prompt_tokens r)
    (Hres : 0 ≤ reserved) :
  ∃ b h k1, get_computed_blocks r k = Ok (b, h, k1) ∧ 0 ≤ h < num_tokens r ∧
    kv_pool k1 = kv_pool k ∧ single_type_managers (coordinator k1) = single_type_managers (coordinator k) ∧
    (h + next + new ≤ max_model_len k →
     ∃ res k' r' l',
       allocate_slots r new h (Some b) look next delay enc full reserved sched k1 = Ok (res, k', r') ∧
       kv_inv k' l' ∧ alloc_outcome r new h (kb_blocks b) look next enc full reserved sched k1 l res k' l').
Proof.
  destruct (lookup_ok r k l next Hk Hs Hr Hnext) as (b & h & k1 & E & [Hk1 Emml] & [Ems Ep] & Hh & Hc & Een).
  exists b, h, k1. split; [done|]. split; [done|]. split; [done|]. split; [done|]. intros Hlen.
  destruct (allocate_slots_ok r new h (Some b) look next delay enc full reserved sched k1 l Hk1)
    as (res & k' & r' & l' & E' & [Hk' _] & _ & H); [|done|by exists res, k', r', l'].
  split; cbn [default from_option id]; rewrite ?(lp_zero _ _ Hr), ?Emml; try lia; [done|].
  rewrite Een, Ep. apply (lp_request _ _ Hr).
Qed.

(** C8: freeing a request returns exactly its own blocks.  [free] always
    succeeds; the request disappears from the tables of every group, the other
    requests keep theirs, blocks that were free stay free and in order, and the
    free blocks are then exactly those that no remaining request holds and that
    are not kept for a deferred free. *)
Theorem free_spec r k l
    (Hk : kv_inv k l) (Hne : kv_cache_groups (kv_cache_config (coordinator k)) ≠ []) :
  ∃ k' l', free r k = Ok k' ∧ kv_inv k' l' ∧ sublist l l' ∧
    Forall2 (λ m m', req_to_blocks m' = delete (request_id r) (req_to_blocks m) ∧
                     num_cached_block m' = delete (request_id r) (num_cached_block m))
      (single_type_managers (coordinator k)) (single_type_managers (coordinator k')) ∧
    ∀ i, i ∈ l' ↔ 0 < Z.of_nat i < num_blocks (kv_cache_config (coordinator k)) ∧ unowned k' i ∧ held i = 0%nat.
Proof.
  destruct (free_inv r k l Hk) as (k' & l' & E & [Hk' Hc] & Hsub & HF). exists k', l'.
  split; [done|]. split; [done|]. split; [done|]. apply same_config_cfg in Hc. split.
  - eapply Forall2_impl; [exact HF|]. by intros m m' [_ ?].
  - rewrite <- Hc. apply kv_ownership; [done|by rewrite Hc].
Qed.

End KVClaims.

(** ** Witnesses: a full-attention and a sliding-window group over ten blocks *)

#[local] Existing Instance demo_env.

Abbreviation demo_manager := (KVCacheManager FreeKVCacheBlockQueue).

Definition demo_cfg : KVCacheConfig :=
  mkConfig 10 [mkGroup (demo_spec FullAttentionSpec) false; mkGroup (demo_spec (SlidingWindowSpec 3)) false].
Definition demo_default : demo_manager :=
  mkKVCacheManager 16 true true None
    (mkCoordinator NoPrefixCache demo_cfg true 2 demo_pool [] [] None 0) 2 0 [].
Definition demo_init : result demo_manager :=
  KVCacheManager_init demo_cfg 16 2 2 None true false true false 1 1 None None 1 10.
Definition demo_kv0 : demo_manager := match demo_init with Ok k => k | Raise _ => demo_default end.

(** Computed states are compared by name. *)
Strategy 1000 [demo_kv0].

Lemma demo_init_ok :
  KVCacheManager_init demo_cfg 16 2 2 None true false true false 1 1 None None 1 10 = Ok demo_kv0.
Proof. vm_compute. reflexivity. Qed.

Lemma demo_config_ok : config_ok demo_cfg true 1 1 2 2.
Proof.
  split; try (cbn; lia). intros g Hg. assert (g ∈ kv_cache_groups demo_cfg) as Hg' by done. cbn in Hg'.
  apply elem_of_cons in Hg' as [->|Hg']; [by split|]. apply list_elem_of_singleton in Hg' as ->. by split.
Qed.

Lemma demo_kv0_inv : kv_inv demo_kv0 (seq 1 9).
Proof.
  exact (proj1 (kv_init_inv _ _ _ _ _ _ _ _ _ _ _ _ _ _ _ demo_kv0 demo_config_ok (eq_refl : 0 < 10) demo_init_ok)).
Qed.

(** A request of five tokens takes its slots. *)
Definition demo_request : Request := toy [1; 2; 3; 4; 5].
Definition demo_alloc : result (option KVCacheBlocks * demo_manager * Request) :=
  allocate_slots demo_request 5 0 None 0 0 false 0 true 0 false demo_kv0.
Definition demo_kv1 : demo_manager := match demo_alloc with Ok (_, k, _) => k | Raise _ => demo_default end.

Strategy 1000 [demo_kv1].

Lemma demo_alloc_pre :
  alloc_pre demo_request 5 0 (default (empty_kv_cache_blocks demo_kv0) None) 0 0 demo_kv0.
Proof.
  split; try (vm_compute; lia); try (vm_compute; done); try (by left).
  - left. split; [done|]. split; [done|]. split; [done|]. intros m Hm. right.
    destruct (ki_coord _ _ demo_kv0_inv) as [_ Hinv]. pose proof (mgr_bs_pos _ _ (mi_ok _ _ _ _ (Hinv m Hm))).
    change (num_computed_tokens demo_request + 0) with 0. lia.
  - intros _. split; [split; constructor|vm_compute; done|vm_compute; done].
Qed.

Lemma allocate_slots_spec_witness :
  ∃ res k' r' l', demo_alloc = Ok (res, k', r') ∧ kv_inv k' l' ∧
    res = Some (mkKVCacheBlocks [[1; 2; 3]; [4; 5; 6]]%nat false).
Proof.
  destruct (allocate_slots_spec demo_request 5 0 None 0 0 false 0 true 0 false demo_kv0 (seq 1 9)
              demo_kv0_inv demo_alloc_pre ltac:(lia)) as (res & k' & r' & l' & E & Hk & _).
  exists res, k', r', l'. split; [exact E|]. split; [exact Hk|].
  assert (fst <$> (fst <$> demo_alloc) = Ok res) as H by (unfold demo_alloc; rewrite E; reflexivity).
  vm_compute in H. injection H as <-. reflexivity.
Defined.

Lemma demo_alloc_ok : ∃ res r', demo_alloc = Ok (res, demo_kv1, r') ∧ ∃ l, kv_inv demo_kv1 l.
Proof.
  destruct (allocate_slots_ok demo_request 5 0 None 0 0 false 0 true 0 false demo_kv0 (seq 1 9)
              demo_kv0_inv demo_alloc_pre ltac:(lia)) as (res & k' & r' & l' & E & [Hk _] & _).
  assert (k' = demo_kv1) as -> by (unfold demo_kv1, demo_alloc; by rewrite E). exists res, r'. split; [exact E|eauto].
Qed.

Lemma kv_reachable_ownership_witness :
  let '(k, ds) := defer_free demo_request demo_kv1 [] in
  ds = [[1; 2; 3; 4; 5; 6]]%nat ∧ get_num_free_blocks (kv_pool k) = 3 ∧
  (∃ l, fq_rep (free_block_queue (kv_pool k)) l ∧
    ∀ i, i ∈ l ↔ 0 < Z.of_nat i < 10 ∧ unowned k i ∧ i ∉ concat ds) ∧
  ∃ k', return_deferred [1; 2; 3; 4; 5; 6]%nat k = Ok k'.
Proof.
  destruct (defer_free demo_request demo_kv1 []) as [k ds] eqn:Ed.
  assert (ds = [[1; 2; 3; 4; 5; 6]]%nat) as -> by (apply (f_equal snd) in Ed; vm_compute in Ed; by subst ds).
  split; [reflexivity|]. pose proof (f_equal fst Ed) as Ek. cbn [fst] in Ek.
  split; [rewrite <- Ek; vm_compute; reflexivity|].
  destruct (kv_reachable_ownership demo_cfg 16 2 2 None true false true false 1 1 None None 1 10 demo_kv0 k [[1; 2; 3; 4; 5; 6]]%nat)
    as (l & H1 & _ & _ & H2 & _ & _ & H3).
  - exact demo_config_ok.
  - discriminate.
  - lia.
  - exact demo_init_ok.
  - destruct demo_alloc_ok as (res & r' & E & _). unfold demo_alloc in E. eapply rtc_l.
    + apply deferred_kv. exact (step_alloc demo_request 5 0 None 0 0 false 0 true 0 false demo_kv0 res demo_kv1 r' demo_alloc_pre
             (Z.le_refl 0) E).
    + apply rtc_once. rewrite <- Ed. apply deferred_pop.
  - split; [exists l; split; [exact H1|exact H2]|]. apply (H3 _ []). reflexivity.
Defined.

(** The request is freed; its cached blocks serve the next one. *)
Definition demo_kv2 : demo_manager := match free demo_request demo_kv1 with Ok k => k | Raise _ => demo_default end.

Strategy 1000 [demo_kv2].

Lemma free_spec_witness : ∃ l', free demo_request demo_kv1 = Ok demo_kv2 ∧ kv_inv demo_kv2 l'.
Proof.
  destruct demo_alloc_ok as (res & r' & _ & l & Hk).
  destruct (free_spec demo_request demo_kv1 l Hk) as (k' & l' & E & Hk' & _).
  - vm_compute. discriminate.
  - assert (k' = demo_kv2) as -> by (unfold demo_kv2; rewrite E; reflexivity). exists l'. split; [exact E|exact Hk'].
Defined.

Lemma demo_kv2_inv : ∃ l, kv_inv demo_kv2 l.
Proof.
  destruct demo_alloc_ok as (res & r' & _ & l & Hk). destruct (free_inv demo_request demo_kv1 l Hk) as (k' & l' & E & [Hk' _] & _).
  assert (k' = demo_kv2) as -> by (unfold demo_kv2; by rewrite E). eauto.
Qed.

Definition demo_next : Request := toy [1; 2; 3; 4; 5; 6].

Lemma demo_search_ok : search_ok demo_kv2.
Proof.
  unfold search_ok.
  assert (coord_kind (coordinator demo_kv2) = Hybrid 2 [full_group false; swa_group]) as -> by (vm_compute; reflexivity).
  split; [vm_compute; reflexivity|]. split; [vm_compute; reflexivity|].
  assert (coord_scheduler_block_size (coordinator demo_kv2) = 2) as -> by (vm_compute; reflexivity).
  assert (length (single_type_managers (coordinator demo_kv2)) = 2%nat) as -> by (vm_compute; reflexivity).
  exists (full_group false), [swa_group]. split; [done|]. split; [exact (demo_hybrid_ok false)|].
  assert (block_size <$> single_type_managers (coordinator demo_kv2) = [2; 2]) as Hbs by (vm_compute; reflexivity).
  intros i m Hm. pose proof (list_lookup_fmap block_size (single_type_managers (coordinator demo_kv2)) i) as E.
  rewrite Hbs, Hm in E. clear Hbs Hm. destruct i as [|[|i]]; cbn in E; [..|discriminate]; injection E as <-.
  - exists (full_group false). split; [by left|]. split; [by left|done].
  - exists swa_group. split; [by right; left|]. split; [by left|done].
Qed.

Lemma demo_lookup_pre : lookup_pre demo_next demo_kv2.
Proof.
  split; try (vm_compute; done).
  - assert (Forall (λ m, req_blocks "r" m = [] ∧ num_cached_block m !! "r" = None)
              (single_type_managers (coordinator demo_kv2))) as HF by (vm_compute; repeat constructor).
    rewrite Forall_forall in HF. exact HF.
  - intros _. split; [split; constructor|vm_compute; done|vm_compute; done].
  - intros _. eexists. vm_compute. reflexivity.
Qed.

Lemma lookup_then_allocate_witness :
  ∃ b h k1, get_computed_blocks demo_next demo_kv2 = Ok (b, h, k1) ∧ h = 4 ∧
    ∃ res k' r', allocate_slots demo_next 2 h (Some b) 0 0 false 0 false 0 false k1 = Ok (res, k', r').
Proof.
  destruct demo_kv2_inv as [l Hk].
  destruct (lookup_then_allocate demo_next 2 0 0 false 0 false 0 false demo_kv2 l Hk demo_search_ok demo_lookup_pre)
    as (b & h & k1 & E & Hh & _ & _ & H); try lia; [vm_compute; discriminate|].
  exists b, h, k1. split; [exact E|].
  assert (snd <$> (fst <$> get_computed_blocks demo_next demo_kv2) = Ok h) as Eh by (rewrite E; reflexivity).
  vm_compute in Eh. injection Eh as <-. split; [reflexivity|].
  destruct H as (res & k' & r' & l' & E' & _); [vm_compute; discriminate|]. exists res, k', r'. exact E'.
Defined.
