(* ===== verification/EncoderCache.v ===== *)
(** * The encoder cache ([vllm/v1/core/encoder_cache_manager.py])

    Bookkeeping of the outputs of multi-modal encoders: which inputs are in
    the cache, which requests reference them, and how many embeddings still
    fit.  Entries without references stay until [can_allocate] evicts them,
    oldest first.

    Correspondence.  [cached] and [request_cached_ids] are maps to finite
    sets; the [OrderedDict] [freeable] is a list of pairs in insertion order,
    where assigning an existing key keeps its place.  The eviction loop runs
    with the number of freeable entries as fuel.  [free] iterates over a set
    of input ids; Python leaves the order of that iteration open, and the facts
    about [free_inputs] hold for any order. *)

From S2P Require Import Prelude Request.

Local Open Scope Z_scope.

(** ** Ordered dictionaries *)

Abbreviation odict := (list (string * Z)).

Fixpoint od_get (k : string) (d : odict) : option Z :=
  match d with
  | [] => None
  | (k', v) :: d => if String.eqb k k' then Some v else od_get k d
  end.
Definition od_delete (k : string) (d : odict) : odict :=
  filter (λ kv, kv.1 ≠ k) d.
Definition od_pop (k : string) (d : odict) : result (Z * odict) :=
  v ← of_option KeyError (od_get k d); Ok (v, od_delete k d).
Definition od_set (k : string) (v : Z) (d : odict) : odict :=
  match od_get k d with
  | Some _ => (λ kv, if String.eqb k kv.1 then (k, v) else kv) <$> d
  | None => d ++ [(k, v)]
  end.

(** ** The manager *)

Record EncoderCacheManager := mkEncoderCache {
  cache_size : Z;
  num_free_slots : Z;
  num_freeable_slots : Z;
  cached : gmap string (gset string);
  request_cached_ids : gmap string (gset Z);
  freeable : odict;
  freed : list string;
}.

Definition EncoderCacheManager_init (cache_size : Z) : EncoderCacheManager :=
  mkEncoderCache cache_size cache_size cache_size ∅ ∅ [] [].

Implicit Types (e : EncoderCacheManager) (r : Request).

Definition reset e : EncoderCacheManager :=
  mkEncoderCache (cache_size e) (cache_size e) (cache_size e) ∅ ∅ [] [].

(** [cached[h].add(rid)] and [request_cached_ids.setdefault(rid, set()).add(i)] *)
Definition add_reference (rid : string) (i : Z) (h : string) e : EncoderCacheManager :=
  mkEncoderCache (cache_size e) (num_free_slots e) (num_freeable_slots e)
    (<[h := {[ rid ]} ∪ default ∅ (cached e !! h)]> (cached e))
    (<[rid := {[ i ]} ∪ default ∅ (request_cached_ids e !! rid)]> (request_cached_ids e))
    (freeable e) (freed e).

Definition check_and_update_cache r (input_id : Z) e : result (bool * EncoderCacheManager) :=
  f ← py_get (mm_features r) input_id;
  let mm_hash := identifier f in
  match cached e !! mm_hash with
  | None => Ok (false, e)
  | Some refs =>
      e ← (if decide (refs = ∅) then
             '(num_encoder_embeds, fr) ← od_pop mm_hash (freeable e);
             Ok (mkEncoderCache (cache_size e) (num_free_slots e)
                   (num_freeable_slots e - num_encoder_embeds) (cached e) (request_cached_ids e) fr
                   (freed e))
           else Ok e);
      Ok (true, add_reference (request_id r) input_id mm_hash e)
  end.

(** [while num_embeds > self.num_free_slots] *)
Fixpoint evict_until (fuel : nat) (num_embeds : Z) e : result EncoderCacheManager :=
  if num_embeds >? num_free_slots e then
    match fuel with
    | O => Raise OutOfFuel
    | S fuel =>
        '(mm_hash, num_free_embeds) ← of_option KeyError (head (freeable e));
        _ ← of_option KeyError (cached e !! mm_hash);
        evict_until fuel num_embeds
          (mkEncoderCache (cache_size e) (num_free_slots e + num_free_embeds) (num_freeable_slots e)
             (delete mm_hash (cached e)) (request_cached_ids e) (tail (freeable e))
             (freed e ++ [mm_hash]))
    end
  else Ok e.

Definition can_allocate r (input_id encoder_compute_budget num_embeds_to_schedule : Z) e
    : result (bool * EncoderCacheManager) :=
  num_embeds ← get_num_encoder_embeds r input_id;
  if num_embeds >? encoder_compute_budget then Ok (false, e) else
  let num_embeds := num_embeds + num_embeds_to_schedule in
  if num_embeds <=? num_free_slots e then Ok (true, e) else
  if num_embeds >? num_freeable_slots e then Ok (false, e) else
  e ← evict_until (S (length (freeable e))) num_embeds e;
  Ok (true, e).

Definition allocate r (input_id : Z) e : result EncoderCacheManager :=
  f ← py_get (mm_features r) input_id;
  let mm_hash := identifier f in
  num_encoder_embeds ← get_num_encoder_embeds r input_id;
  _ ← assert_ (num_free_slots e >=? num_encoder_embeds);
  _ ← assert_ (num_freeable_slots e >=? num_encoder_embeds);
  let e := add_reference (request_id r) input_id mm_hash e in
  Ok (mkEncoderCache (cache_size e) (num_free_slots e - num_encoder_embeds)
        (num_freeable_slots e - num_encoder_embeds) (cached e) (request_cached_ids e) (freeable e)
        (freed e)).

Definition get_cached_input_ids r e : gset Z := default ∅ (request_cached_ids e !! request_id r).

(** [request_cached_ids[req_id].discard(input_id)], dropping an empty set. *)
Definition discard_input (rid : string) (i : Z) (ids : gmap string (gset Z)) : gmap string (gset Z) :=
  match ids !! rid with
  | None => ids
  | Some s => if decide (s ∖ {[ i ]} = ∅) then delete rid ids else <[rid := s ∖ {[ i ]}]> ids
  end.

Definition free_encoder_input r (input_id : Z) e : result EncoderCacheManager :=
  let req_id := request_id r in
  f ← py_get (mm_features r) input_id;
  let mm_hash := identifier f in
  let ids := discard_input req_id input_id (request_cached_ids e) in
  let refs := default ∅ (cached e !! mm_hash) in
  if decide (refs = ∅) then
    Ok (mkEncoderCache (cache_size e) (num_free_slots e) (num_freeable_slots e) (cached e) ids
          (freeable e) (freed e))
  else
    let refs := refs ∖ {[ req_id ]} in
    let c := <[mm_hash := refs]> (cached e) in
    if decide (refs = ∅) then
      num_encoder_embeds ← get_num_encoder_embeds r input_id;
      Ok (mkEncoderCache (cache_size e) (num_free_slots e) (num_freeable_slots e + num_encoder_embeds)
            c ids (od_set mm_hash num_encoder_embeds (freeable e)) (freed e))
    else
      Ok (mkEncoderCache (cache_size e) (num_free_slots e) (num_freeable_slots e) c ids (freeable e)
            (freed e)).

Definition free_inputs r (ids : list Z) e : result EncoderCacheManager :=
  foldM (λ e i, free_encoder_input r i e) e ids.
Definition free r e : result EncoderCacheManager := free_inputs r (elements (get_cached_input_ids r e)) e.

Definition get_freed_mm_hashes e : list string * EncoderCacheManager :=
  (freed e, mkEncoderCache (cache_size e) (num_free_slots e) (num_freeable_slots e) (cached e)
              (request_cached_ids e) (freeable e) []).

(** ** Budgets *)

(** [compute_mm_encoder_budget]; the fields of [SchedulerConfig] it reads are
    arguments, [items] the values of [mm_max_toks_per_item]. *)
Definition compute_mm_encoder_budget (disable_chunked_mm_input : bool) (max_num_batched_tokens
    max_num_encoder_input_tokens encoder_cache_size : Z) (items : list Z) : result (Z * Z) :=
  match items with
  | [] => Ok (0, 0)
  | x :: xs =>
      let max_tokens_per_mm_item := fold_left Z.max xs x in
      if disable_chunked_mm_input && (max_tokens_per_mm_item >? max_num_batched_tokens)
      then Raise ValueError
      else Ok (Z.max max_num_encoder_input_tokens max_tokens_per_mm_item,
               Z.max encoder_cache_size max_tokens_per_mm_item)
  end.

(** ** Encoder-decoder models *)

Record EncoderDecoderCacheManager := mkEncDec {
  ed_cache_size : Z;
  ed_num_free_slots : Z;
  allocated : list string;
  to_free : list string;
}.
Implicit Types (ed : EncoderDecoderCacheManager).

Definition EncoderDecoderCacheManager_init (cache_size : Z) : EncoderDecoderCacheManager :=
  mkEncDec cache_size cache_size [] [].
Definition ed_reset ed : EncoderDecoderCacheManager := mkEncDec (ed_cache_size ed) (ed_cache_size ed) [] [].
Definition ed_check_and_update_cache r (input_id : Z) ed : bool := false.
Definition ed_can_allocate r (input_id encoder_compute_budget num_embeds_to_schedule : Z) ed : result bool :=
  n ← get_num_encoder_embeds r input_id;
  if n >? encoder_compute_budget then Ok false
  else Ok (n + num_embeds_to_schedule <=? ed_num_free_slots ed).
Definition ed_allocate r (input_id : Z) ed : result EncoderDecoderCacheManager :=
  n ← get_num_encoder_embeds r input_id;
  f ← py_get (mm_features r) input_id;
  Ok (mkEncDec (ed_cache_size ed) (ed_num_free_slots ed - n) (allocated ed ++ [identifier f]) (to_free ed)).
Definition ed_free_encoder_input r (input_id : Z) ed : result EncoderDecoderCacheManager :=
  n ← get_num_encoder_embeds r input_id;
  Ok (mkEncDec (ed_cache_size ed) (ed_num_free_slots ed + n) (allocated ed) (to_free ed)).
Definition ed_free r ed : result EncoderDecoderCacheManager :=
  foldM (λ ed i, ed_free_encoder_input r i ed) ed (py_range 0 (zlen (mm_features r))).
Definition ed_get_cached_input_ids r : list Z := py_range 0 (zlen (mm_features r)).
Definition ed_get_freed_mm_hashes ed : list string * EncoderDecoderCacheManager :=
  (to_free ed, mkEncDec (ed_cache_size ed) (ed_num_free_slots ed) [] (allocated ed)).

(** ** Facts: ordered dictionaries *)

Definition od_sum (d : odict) : Z := foldr (λ kv acc, kv.2 + acc) 0 d.
#[global] Arguments od_sum : simpl never.

Lemma od_sum_cons x d : od_sum (x :: d) = x.2 + od_sum d.
Proof. done. Qed.

Lemma od_sum_app d1 d2 : od_sum (d1 ++ d2) = od_sum d1 + od_sum d2.
Proof. induction d1 as [|x d1 IH]; cbn; [done|]. rewrite !od_sum_cons, IH. lia. Qed.

Lemma od_sum_nonneg d : (∀ kn, kn ∈ d → 0 ≤ kn.2) → 0 ≤ od_sum d.
Proof.
  induction d as [|x d IH]; intros Hall; [done|]. rewrite od_sum_cons. pose proof (Hall x ltac:(by left)).
  assert (0 ≤ od_sum d); [apply IH; intros; apply Hall; by right|lia].
Qed.

Lemma od_get_elem k (d : odict) v : NoDup d.*1 → od_get k d = Some v ↔ (k, v) ∈ d.
Proof.
  induction d as [|[k' v'] d IH]; cbn; intros Hnd.
  { split; [done|]. by intros ?%not_elem_of_nil. }
  apply NoDup_cons in Hnd as [Hk Hnd]. rewrite elem_of_cons. destruct (String.eqb_spec k k') as [->|Hne].
  - split; [intros [= ->]; by left|]. intros [[= ->]|Hin]; [done|]. destruct Hk.
    apply list_elem_of_fmap. by exists (k', v).
  - rewrite IH by done. split; [by right|]. intros [[= -> ->]|]; done.
Qed.

Lemma od_get_None k (d : odict) : od_get k d = None ↔ k ∉ d.*1.
Proof.
  induction d as [|[k' v'] d IH]; cbn; [split; [intros _; apply not_elem_of_nil|done]|].
  rewrite not_elem_of_cons. destruct (String.eqb_spec k k') as [->|Hne]; [|rewrite IH]; split; try done.
  - by intros [].
  - by intros [].
Qed.

Lemma od_delete_elem k (d : odict) h n : (h, n) ∈ od_delete k d ↔ (h, n) ∈ d ∧ h ≠ k.
Proof. unfold od_delete. rewrite list_elem_of_filter. cbn. naive_solver. Qed.

Lemma od_delete_sublist k (d : odict) : sublist (od_delete k d) d.
Proof. apply sublist_filter. Qed.

Lemma od_delete_nodup k (d : odict) : NoDup d.*1 → NoDup (od_delete k d).*1.
Proof. intros H. eapply sublist_NoDup; [exact H|]. apply fmap_sublist, od_delete_sublist. Qed.

Lemma od_delete_notin k (d : odict) : k ∉ d.*1 → od_delete k d = d.
Proof.
  unfold od_delete. induction d as [|[k' v'] d IH]; [done|]. cbn [fmap list_fmap fst].
  rewrite not_elem_of_cons. intros [Hne Hd]. rewrite filter_cons_True by (cbn; congruence). by rewrite IH.
Qed.

Lemma od_delete_sum k (d : odict) v : NoDup d.*1 → (k, v) ∈ d → od_sum (od_delete k d) = od_sum d - v.
Proof.
  induction d as [|[k' v'] d IH]; intros Hnd Hin; [by apply not_elem_of_nil in Hin|].
  cbn in Hnd. apply NoDup_cons in Hnd as [Hk Hnd]. unfold od_delete.
  apply elem_of_cons in Hin as [[= -> ->]|Hin].
  - rewrite filter_cons_False by (cbn; congruence). fold (od_delete k' d). rewrite od_delete_notin by done.
    rewrite od_sum_cons. cbn. lia.
  - assert (k' ≠ k) as Hne by (intros ->; apply Hk, list_elem_of_fmap; by exists (k, v)).
    rewrite filter_cons_True by done. fold (od_delete k d). rewrite !od_sum_cons, IH by done. lia.
Qed.

Lemma od_set_new k v (d : odict) : k ∉ d.*1 → od_set k v d = d ++ [(k, v)].
Proof. intros H%od_get_None. unfold od_set. by rewrite H. Qed.

(** ** Facts: the invariant of the cache *)

Section EncoderFacts.
(** The size of an entry is determined by its hash, and the inputs of a
    request by its id. *)
Context (size : string → Z) (features : string → list MultiModalFeatureSpec).

Record known r : Prop := {
  kn_features : mm_features r = features (request_id r);
  kn_size f : f ∈ mm_features r → get_num_embeds (mm_position f) = size (identifier f) ∧ 0 ≤ size (identifier f);
}.

(** The embeddings held by a set of entries. *)
Definition weight {A} (c : gmap string A) : Z := map_fold (λ h _ acc, size h + acc) 0 c.

Lemma weight_insert {A} (c : gmap string A) h x : c !! h = None → weight (<[h := x]> c) = size h + weight c.
Proof. intros H. unfold weight. rewrite map_fold_insert_L; [done| |done]. intros; lia. Qed.

Lemma weight_delete {A} (c : gmap string A) h x : c !! h = Some x → weight (delete h c) = weight c - size h.
Proof. intros H. unfold weight. rewrite (map_fold_delete_L _ _ h x c); [lia| |done]. intros; lia. Qed.

Lemma weight_update {A} (c : gmap string A) h x y : c !! h = Some x → weight (<[h := y]> c) = weight c.
Proof.
  intros H. rewrite <- insert_delete_eq, weight_insert by apply lookup_delete_eq.
  rewrite (weight_delete c h x) by done. lia.
Qed.

Record ec_wf e : Prop := {
  ew_size h : is_Some (cached e !! h) → 0 ≤ size h;
  ew_free : num_free_slots e = cache_size e - weight (cached e);
  ew_pos : 0 ≤ num_free_slots e;
  ew_freeable : num_freeable_slots e = num_free_slots e + od_sum (freeable e);
  ew_keys h n : (h, n) ∈ freeable e ↔ cached e !! h = Some ∅ ∧ n = size h;
  ew_nodup : NoDup (freeable e).*1;
  ew_refs rid h : rid ∈ default ∅ (cached e !! h) →
    ∃ i f, i ∈ default ∅ (request_cached_ids e !! rid) ∧ py_get (features rid) i = Ok f ∧ identifier f = h;
  ew_ids rid i : i ∈ default ∅ (request_cached_ids e !! rid) → 0 ≤ i ∧ ∃ f, py_get (features rid) i = Ok f;
}.

Lemma ec_wf_init n : 0 ≤ n → ec_wf (EncoderCacheManager_init n).
Proof.
  intros Hn. split; cbn; try done.
  - intros h [? ?]. by rewrite lookup_empty in H.
  - rewrite (map_fold_empty _ 0 : weight ∅ = 0). lia.
  - unfold od_sum; cbn; lia.
  - intros h k. split; [by intros ?%not_elem_of_nil|]. intros [H _]. by rewrite lookup_empty in H.
  - constructor.
Qed.

Lemma freeable_key e h : ec_wf e → h ∈ (freeable e).*1 → cached e !! h = Some ∅.
Proof. intros Hw [[k n] [-> H]]%list_elem_of_fmap. cbn. by apply (ew_keys _ Hw) in H as [? _]. Qed.

Lemma free_le_freeable e : ec_wf e → num_free_slots e ≤ num_freeable_slots e.
Proof.
  intros [W1 W2 W3 W4 W5 W6 W7 W8]. rewrite W4. assert (0 ≤ od_sum (freeable e)); [|lia].
  apply od_sum_nonneg. intros [k n] [Hk ->]%W5. apply W1. eauto.
Qed.

(** The embeddings of an input of a known request. *)
Lemma embeds_known r i f :
  known r → 0 ≤ i → py_get (mm_features r) i = Ok f →
  get_num_encoder_embeds r i = Ok (size (identifier f)) ∧ 0 ≤ size (identifier f).
Proof.
  intros Hr Hi E. pose proof E as E'. apply py_get_nonneg in E'; [|done].
  destruct (kn_size _ Hr f (list_elem_of_lookup_2 _ _ _ E')) as [Es Hs]. split; [|done].
  unfold get_num_encoder_embeds. apply lookup_lt_Some in E'.
  rewrite (proj2 (Z.ltb_lt i (zlen (mm_features r)))) by lia. cbn [require]. unfold mbind; cbn [result_bind].
  rewrite E. cbn. by rewrite Es.
Qed.

(** Referencing an entry that is referenced already, or new. *)
Lemma add_reference_refs rid i h f e :
  (∀ rid' h', rid' ∈ default ∅ (cached e !! h') →
     ∃ i f, i ∈ default ∅ (request_cached_ids e !! rid') ∧ py_get (features rid') i = Ok f ∧ identifier f = h') →
  py_get (features rid) i = Ok f → identifier f = h →
  ∀ rid' h', rid' ∈ default ∅ (cached (add_reference rid i h e) !! h') →
    ∃ i' f', i' ∈ default ∅ (request_cached_ids (add_reference rid i h e) !! rid') ∧
      py_get (features rid') i' = Ok f' ∧ identifier f' = h'.
Proof.
  intros Hrefs Hf Eh rid' h'. cbn. intros Hin.
  assert (rid' ∈ default ∅ (cached e !! h') ∨ (rid' = rid ∧ h' = h)) as [Hold|[-> ->]].
  { destruct (decide (h' = h)) as [->|Hne]; [rewrite lookup_insert_eq in Hin; cbn in Hin; set_solver|].
    rewrite lookup_insert_ne in Hin by done. by left. }
  - destruct (Hrefs rid' h' Hold) as (i' & f' & Hi' & Hp & Hid). exists i', f'. split; [|done].
    destruct (decide (rid' = rid)) as [->|Hne]; [rewrite lookup_insert_eq; cbn; set_solver|].
    by rewrite lookup_insert_ne.
  - exists i, f. split; [|done]. rewrite lookup_insert_eq. cbn. set_solver.
Qed.

Lemma add_reference_ids rid i h e rid' i' :
  i' ∈ default ∅ (request_cached_ids (add_reference rid i h e) !! rid') →
  i' ∈ default ∅ (request_cached_ids e !! rid') ∨ (rid' = rid ∧ i' = i).
Proof.
  cbn. destruct (decide (rid' = rid)) as [->|Hne]; [rewrite lookup_insert_eq; cbn; set_solver|].
  rewrite lookup_insert_ne by done. by left.
Qed.

Lemma check_ok r i f e :
  known r → ec_wf e → 0 ≤ i → py_get (mm_features r) i = Ok f →
  ∃ e', check_and_update_cache r i e = Ok (bool_decide (is_Some (cached e !! identifier f)), e') ∧ ec_wf e' ∧
    num_free_slots e' = num_free_slots e ∧
    (is_Some (cached e !! identifier f) → request_id r ∈ default ∅ (cached e' !! identifier f)) ∧
    (∀ h, h ≠ identifier f → cached e' !! h = cached e !! h).
Proof.
  intros Hr Hw Hi Hf. set (h := identifier f). unfold check_and_update_cache. rewrite Hf.
  unfold mbind at 1; cbn [result_bind]. fold h. pose proof Hw as [W1 W2 W3 W4 W5 W6 W7 W8].
  destruct (cached e !! h) as [refs|] eqn:Ec; cycle 1.
  { exists e. rewrite bool_decide_eq_false_2 by (by intros [? ?]). split; [done|]. split; [done|].
    split; [done|]. split; [by intros [? ?]|done]. }
  rewrite bool_decide_eq_true_2 by eauto. rewrite (kn_features _ Hr) in Hf.
  assert (∃ e1, (if decide (refs = ∅) then
             '(num_encoder_embeds, fr) ← od_pop h (freeable e);
             Ok (mkEncoderCache (cache_size e) (num_free_slots e)
                   (num_freeable_slots e - num_encoder_embeds) (cached e) (request_cached_ids e) fr (freed e))
           else Ok e) = Ok e1 ∧
     (cache_size e1, num_free_slots e1, cached e1, request_cached_ids e1)
       = (cache_size e, num_free_slots e, cached e, request_cached_ids e) ∧
     num_freeable_slots e1 = num_free_slots e + od_sum (freeable e1) ∧
     freeable e1 = od_delete h (freeable e)) as (e1 & -> & [= E1 E2 E3 E4] & E5 & E6).
  { case_decide as Hempty.
    - assert ((h, size h) ∈ freeable e) as Hin by (apply W5; split; [congruence|done]).
      unfold od_pop. rewrite (proj2 (od_get_elem h _ (size h) W6) Hin). cbn [of_option].
      unfold mbind; cbn [result_bind]. eexists. split; [reflexivity|]. split; [done|]. cbn.
      rewrite (od_delete_sum h _ (size h)) by done. split; [lia|done].
    - exists e. split; [done|]. split; [done|]. split; [done|]. symmetry. apply od_delete_notin.
      intros Hk. apply (freeable_key e h Hw) in Hk. congruence. }
  unfold mbind; cbn [result_bind]. eexists. split; [reflexivity|].
  split; [split|split; [done|split]]; cbn; rewrite ?E1, ?E2, ?E3, ?E4, ?E5, ?E6; try done.
  - intros h' Hs. destruct (decide (h' = h)) as [->|Hne]; [apply W1; eauto|].
    rewrite lookup_insert_ne in Hs by done. auto.
  - rewrite (weight_update _ h refs) by done. lia.
  - intros h' n. rewrite od_delete_elem, W5. destruct (decide (h' = h)) as [->|Hne].
    + rewrite lookup_insert_eq. split; [by intros [_ ?]|]. intros [[= Hx] _]. exfalso. set_solver.
    + rewrite lookup_insert_ne by done. naive_solver.
  - by apply od_delete_nodup.
  - intros rid' h' Hin. pose proof (add_reference_refs (request_id r) i h f e W7 Hf eq_refl rid' h') as H.
    cbn in H. auto.
  - intros rid' i' [Hin|[-> ->]]%(add_reference_ids _ _ h e); eauto.
  - intros _. rewrite lookup_insert_eq. cbn. set_solver.
  - intros h' Hne. by rewrite lookup_insert_ne.
Qed.

Lemma allocate_ok r i f e :
  known r → ec_wf e → 0 ≤ i → py_get (mm_features r) i = Ok f → cached e !! identifier f = None →
  size (identifier f) ≤ num_free_slots e →
  ∃ e', allocate r i e = Ok e' ∧ ec_wf e' ∧
    num_free_slots e' = num_free_slots e - size (identifier f) ∧
    cached e' = <[identifier f := {[ request_id r ]}]> (cached e).
Proof.
  intros Hr Hw Hi Hf Hnone Hfit. destruct (embeds_known r i f Hr Hi Hf) as [En Hs].
  pose proof Hw as [W1 W2 W3 W4 W5 W6 W7 W8]. unfold allocate. rewrite Hf. unfold mbind at 1; cbn [result_bind].
  rewrite En. unfold mbind at 1; cbn [result_bind]. set (h := identifier f) in *.
  pose proof (free_le_freeable e Hw) as Hle.
  rewrite !Z.geb_leb, !(proj2 (Z.leb_le _ _)) by lia. cbn [require]. unfold mbind; cbn [result_bind].
  eexists. split; [reflexivity|]. cbn. rewrite Hnone. cbn. rewrite union_empty_r_L.
  split; [split|done]; cbn; rewrite ?Hnone; cbn; rewrite ?union_empty_r_L; try done.
  - intros h' Hs'. destruct (decide (h' = h)) as [->|Hne]; [done|]. rewrite lookup_insert_ne in Hs' by done. auto.
  - rewrite weight_insert by done. lia.
  - lia.
  - lia.
  - intros h' n. rewrite W5. destruct (decide (h' = h)) as [->|Hne].
    + rewrite lookup_insert_eq, Hnone. split; intros [H _]; [done|]. injection H as H. set_solver.
    + by rewrite lookup_insert_ne.
  - intros rid' h' Hin. rewrite (kn_features _ Hr) in Hf.
    pose proof (add_reference_refs (request_id r) i h f e W7 Hf eq_refl rid' h') as H. cbn in H.
    rewrite Hnone in H. cbn in H. rewrite union_empty_r_L in H. auto.
  - rewrite (kn_features _ Hr) in Hf. intros rid' i' [Hin|[-> ->]]%(add_reference_ids _ _ h e); eauto.
Qed.

(** Eviction of unreferenced entries: the oldest ones, no more than needed. *)
Record evicted (n : Z) e (ev : odict) e' : Prop := {
  ev_wf : ec_wf e';
  ev_fits : n ≤ num_free_slots e';
  ev_oldest : freeable e = ev ++ freeable e';
  ev_freed : freed e' = freed e ++ ev.*1;
  ev_free : num_free_slots e' = num_free_slots e + od_sum ev;
  ev_freeable : num_freeable_slots e' = num_freeable_slots e;
  ev_cached h : cached e' !! h = if decide (h ∈ ev.*1) then None else cached e !! h;
  ev_least ev1 x : ev = ev1 ++ [x] → num_free_slots e + od_sum ev1 < n;
}.

Lemma evict_one_wf e h k fr :
  ec_wf e → freeable e = (h, k) :: fr →
  is_Some (cached e !! h) ∧
  ec_wf (mkEncoderCache (cache_size e) (num_free_slots e + k) (num_freeable_slots e)
           (delete h (cached e)) (request_cached_ids e) fr (freed e ++ [h])).
Proof.
  intros [W1 W2 W3 W4 W5 W6 W7 W8] Efr.
  destruct (proj1 (W5 h k)) as [Hh ->]; [rewrite Efr; by left|].
  assert (0 ≤ size h) as Hs by eauto. rewrite Efr in W6. apply NoDup_cons in W6 as [Hnot Hnd].
  split; [eauto|]. split; cbn; try done.
  - intros h' Hs'. destruct (decide (h' = h)) as [->|Hne]; [done|]. rewrite lookup_delete_ne in Hs' by done. auto.
  - rewrite (weight_delete _ h ∅) by done. lia.
  - lia.
  - rewrite W4, Efr, od_sum_cons. cbn. lia.
  - intros h' n'. destruct (decide (h' = h)) as [->|Hne].
    + rewrite lookup_delete_eq. split; [|by intros [? _]]. intros Hin. destruct Hnot.
      apply list_elem_of_fmap. by exists (h, n').
    + rewrite lookup_delete_ne by done. rewrite <- W5, Efr, elem_of_cons. naive_solver.
  - intros rid' h' Hin. destruct (decide (h' = h)) as [->|Hne]; [rewrite lookup_delete_eq in Hin; set_solver|].
    rewrite lookup_delete_ne in Hin by done. by apply W7.
Qed.

Lemma evict_ok fuel n e :
  ec_wf e → n ≤ num_freeable_slots e → (length (freeable e) < fuel)%nat →
  ∃ e' ev, evict_until fuel n e = Ok e' ∧ evicted n e ev e'.
Proof.
  revert e. induction fuel as [|fuel IH]; intros e Hw Hn Hf; [lia|]. cbn [evict_until].
  rewrite Z.gtb_ltb. destruct (Z.ltb_spec (num_free_slots e) n) as [Hlt|Hge]; cycle 1.
  { exists e, []. split; [done|]. split; try done; rewrite ?app_nil_r; try done.
    - by rewrite Z.add_0_r.
    - intros ev1 x E. by destruct ev1. }
  destruct (freeable e) as [|[h k] fr] eqn:Efr.
  { rewrite (ew_freeable _ Hw), Efr in Hn. change (od_sum []) with 0 in Hn. lia. }
  cbn [head of_option tail]. unfold mbind at 1; cbn [result_bind].
  destruct (evict_one_wf e h k fr Hw Efr) as [[refs Hh] Hw']. rewrite Hh. cbn [of_option].
  unfold mbind; cbn [result_bind]. destruct (IH _ Hw') as (e' & ev & -> & [V1 V2 V3 V4 V5 V6 V7 V8]);
    [done|cbn in *; lia|]. cbn in *. exists e', ((h, k) :: ev). split; [done|]. split; try done.
  - by rewrite Efr, V3.
  - rewrite V4, <- app_assoc. done.
  - rewrite od_sum_cons. cbn. lia.
  - intros h'. rewrite V7. cbn [fmap list_fmap fst]. destruct (decide (h' = h)) as [->|Hne].
    + rewrite lookup_delete_eq. rewrite (decide_True (P := h ∈ h :: ev.*1)) by (by left). by case_decide.
    + rewrite lookup_delete_ne by done. repeat case_decide; try done; set_solver.
  - intros [|y ev1] x [= <- Eev]; [rewrite Z.add_0_r; lia|]. specialize (V8 _ _ Eev). rewrite od_sum_cons. cbn. lia.
Qed.

Lemma can_allocate_ok r i f budget sched e :
  known r → ec_wf e → 0 ≤ i → py_get (mm_features r) i = Ok f →
  let n := size (identifier f) in
  ∃ b e' ev, can_allocate r i budget sched e = Ok (b, e') ∧ ec_wf e' ∧
    (b = true ↔ n ≤ budget ∧ n + sched ≤ num_freeable_slots e) ∧
    (b = false → e' = e) ∧ (b = true → evicted (n + sched) e ev e').
Proof.
  intros Hr Hw Hi Hf n. destruct (embeds_known r i f Hr Hi Hf) as [En Hs]. fold n in En, Hs.
  unfold can_allocate. rewrite En. unfold mbind at 1; cbn [result_bind].
  rewrite Z.gtb_ltb. destruct (Z.ltb_spec budget n).
  { exists false, e, []. split; [done|]. split; [done|]. split; [split; [done|lia]|done]. }
  pose proof (free_le_freeable e Hw) as Hle.
  destruct (Z.leb_spec (n + sched) (num_free_slots e)) as [Hfit|Hno].
  { exists true, e, []. split; [done|]. split; [done|]. split; [split; [lia|done]|]. split; [done|]. intros _.
    split; try done; rewrite ?app_nil_r; try done.
    - by rewrite Z.add_0_r.
    - intros ev1 x E. by destruct ev1. }
  rewrite Z.gtb_ltb. destruct (Z.ltb_spec (num_freeable_slots e) (n + sched)).
  { exists false, e, []. split; [done|]. split; [done|]. split; [split; [done|lia]|done]. }
  destruct (evict_ok (S (length (freeable e))) (n + sched) e Hw) as (e' & ev & -> & Hev); [lia|lia|].
  unfold mbind; cbn [result_bind]. exists true, e', ev. split; [done|]. split; [apply Hev|].
  split; [split; [lia|done]|done].
Qed.

(** Releasing references. *)
Lemma discard_input_elem rid i ids rid' i' :
  i' ∈ default ∅ (discard_input rid i ids !! rid') ↔
  i' ∈ default ∅ (ids !! rid') ∧ ¬ (rid' = rid ∧ i' = i).
Proof.
  unfold discard_input. destruct (ids !! rid) as [s0|] eqn:E; cycle 1.
  { split; [|by intros [? _]]. intros H. split; [done|]. intros [-> _]. rewrite E in H. set_solver. }
  destruct (decide (rid' = rid)) as [->|Hne].
  - rewrite E. cbn. case_decide as Hs; [rewrite lookup_delete_eq|rewrite lookup_insert_eq]; cbn; set_solver.
  - case_decide; [rewrite lookup_delete_ne by done|rewrite lookup_insert_ne by done]; naive_solver.
Qed.

Lemma free_input_ok r i f e :
  known r → ec_wf e → 0 ≤ i → py_get (mm_features r) i = Ok f →
  ∃ e', free_encoder_input r i e = Ok e' ∧ ec_wf e' ∧ num_free_slots e' = num_free_slots e ∧
    request_cached_ids e' = discard_input (request_id r) i (request_cached_ids e) ∧
    (∀ h, cached e' !! h = if decide (h = identifier f)
                          then (λ s, s ∖ {[ request_id r ]}) <$> cached e !! h else cached e !! h).
Proof.
  intros Hr Hw Hi Hf. destruct (embeds_known r i f Hr Hi Hf) as [En Hs]. unfold free_encoder_input.
  rewrite Hf. unfold mbind at 1; cbn [result_bind]. set (h := identifier f) in *. set (rid := request_id r).
  pose proof Hw as [W1 W2 W3 W4 W5 W6 W7 W8]. rewrite (kn_features _ Hr) in Hf.
  assert (∀ c' : gmap string (gset string), (∀ rid' h', rid' ∈ default ∅ (c' !! h') → rid' ∈ default ∅ (cached e !! h') ∧ (h' = h → rid' ≠ rid)) →
    ∀ rid' h', rid' ∈ default ∅ (c' !! h') →
    ∃ i' f', i' ∈ default ∅ (discard_input rid i (request_cached_ids e) !! rid') ∧
      py_get (features rid') i' = Ok f' ∧ identifier f' = h') as Hrefs.
  { intros c' Hc rid' h' Hin. destruct (Hc rid' h' Hin) as [Hold Hne].
    destruct (W7 rid' h' Hold) as (i' & f' & Hi' & Hp & Hid). exists i', f'. split; [|done].
    apply discard_input_elem. split; [done|]. intros [-> ->]. apply Hne; [|done].
    unfold rid in Hp. rewrite Hf in Hp. injection Hp as <-. by rewrite <- Hid. }
  assert (∀ rid' i', i' ∈ default ∅ (discard_input rid i (request_cached_ids e) !! rid') →
    0 ≤ i' ∧ ∃ f', py_get (features rid') i' = Ok f') as Hids.
  { intros rid' i' [Hin _]%discard_input_elem. by apply W8. }
  case_decide as Hempty; [|case_decide as Hempty2].
  - eexists. split; [reflexivity|]. split; [split; cbn; try done|split; [done|split; [done|]]].
    + apply Hrefs. intros rid' h' Hin. split; [done|]. intros ->. rewrite Hempty in Hin. set_solver.
    + intros h'. case_decide as Heq; [|done]. subst h'. cbn. destruct (cached e !! h) as [s|]; [|done].
      cbn in *. subst s. f_equal. set_solver.
  - rewrite En. unfold mbind; cbn [result_bind].
    destruct (cached e !! h) as [s|] eqn:Ec; [cbn in *|done].
    assert (h ∉ (freeable e).*1) as Hnot by (intros Hk; apply (freeable_key e h Hw) in Hk; congruence).
    eexists. split; [reflexivity|]. rewrite od_set_new by done.
    split; [split; cbn; try done|split; [done|split; [done|]]].
    + intros h' Hs'. destruct (decide (h' = h)) as [->|Hne]; [done|]. rewrite lookup_insert_ne in Hs' by done. auto.
    + rewrite (weight_update _ h s) by done. lia.
    + rewrite od_sum_app, od_sum_cons, W4. cbn. change (od_sum []) with 0. lia.
    + intros h' n. rewrite elem_of_app, list_elem_of_singleton, W5. destruct (decide (h' = h)) as [->|Hne].
      * rewrite lookup_insert_eq, Hempty2, Ec. naive_solver.
      * rewrite lookup_insert_ne by done. naive_solver.
    + rewrite fmap_app. apply NoDup_app. split; [done|]. split; [|apply NoDup_singleton].
      intros x Hx [= ->]%list_elem_of_singleton. done.
    + apply Hrefs. intros rid' h' Hin. destruct (decide (h' = h)) as [->|Hne].
      * rewrite lookup_insert_eq, Hempty2 in Hin. set_solver.
      * rewrite lookup_insert_ne in Hin by done. done.
    + intros h'. cbn. case_decide as Heq; [subst h'; by rewrite lookup_insert_eq, Ec|by rewrite lookup_insert_ne].
  - destruct (cached e !! h) as [s|] eqn:Ec; [cbn in *|done].
    eexists. split; [reflexivity|]. split; [split; cbn; try done|split; [done|split; [done|]]].
    + intros h' Hs'. destruct (decide (h' = h)) as [->|Hne]; [done|]. rewrite lookup_insert_ne in Hs' by done. auto.
    + rewrite (weight_update _ h s) by done. lia.
    + intros h' n. rewrite W5. destruct (decide (h' = h)) as [->|Hne].
      * rewrite lookup_insert_eq, Ec. split; intros [H _]; injection H as H; done.
      * by rewrite lookup_insert_ne.
    + apply Hrefs. intros rid' h' Hin. destruct (decide (h' = h)) as [->|Hne].
      * rewrite lookup_insert_eq in Hin. rewrite Ec. cbn in *. set_solver.
      * rewrite lookup_insert_ne in Hin by done. done.
    + intros h'. cbn. case_decide as Heq; [subst h'; by rewrite lookup_insert_eq, Ec|by rewrite lookup_insert_ne].
Qed.

(** [free] releases the inputs in any order. *)
Lemma free_inputs_ok r ids e :
  known r → ec_wf e → (∀ i, i ∈ ids → i ∈ get_cached_input_ids r e) →
  ∃ e', free_inputs r ids e = Ok e' ∧ ec_wf e' ∧ num_free_slots e' = num_free_slots e ∧
    (∀ i, i ∈ get_cached_input_ids r e' ↔ i ∈ get_cached_input_ids r e ∧ i ∉ ids) ∧
    (∀ rid h, rid ≠ request_id r → rid ∈ default ∅ (cached e' !! h) ↔ rid ∈ default ∅ (cached e !! h)).
Proof.
  intros Hr Hw Hids. unfold free_inputs.
  destruct (foldM_ind (λ dn e', ec_wf e' ∧ num_free_slots e' = num_free_slots e ∧
      (∀ i, i ∈ get_cached_input_ids r e' ↔ i ∈ get_cached_input_ids r e ∧ i ∉ dn) ∧
      (∀ rid h, rid ≠ request_id r → rid ∈ default ∅ (cached e' !! h) ↔ rid ∈ default ∅ (cached e !! h)))
    (λ e i, free_encoder_input r i e) e ids) as (e' & E & H).
  - split; [done|]. split; [done|]. split; [|done]. intros i. set_solver.
  - intros dn i rest e1 El (Hw1 & Hn1 & Hi1 & Hc1).
    assert (i ∈ get_cached_input_ids r e) as Hin by (apply Hids; rewrite El; set_solver).
    destruct (ew_ids _ Hw (request_id r) i Hin) as [Hi0 [f Hf]]. rewrite <- (kn_features _ Hr) in Hf.
    destruct (free_input_ok r i f e1 Hr Hw1 Hi0 Hf) as (e2 & -> & Hw2 & Hn2 & Hid2 & Hc2). exists e2.
    split; [done|]. split; [done|]. split; [lia|]. split.
    + intros i'. unfold get_cached_input_ids at 1. rewrite Hid2, discard_input_elem.
      change (default ∅ (request_cached_ids e1 !! request_id r)) with (get_cached_input_ids r e1).
      rewrite Hi1. set_solver.
    + intros rid h Hne. rewrite Hc2, <- Hc1 by done. case_decide as Heq; [|done].
      destruct (cached e1 !! h); cbn; set_solver.
  - exists e'. split; [exact E|exact H].
Qed.

Lemma free_ok r e :
  known r → ec_wf e →
  ∃ e', free r e = Ok e' ∧ ec_wf e' ∧ num_free_slots e' = num_free_slots e ∧
    (∀ h, request_id r ∉ default ∅ (cached e' !! h)) ∧
    (∀ rid h, rid ≠ request_id r → rid ∈ default ∅ (cached e' !! h) ↔ rid ∈ default ∅ (cached e !! h)).
Proof.
  intros Hr Hw. unfold free.
  destruct (free_inputs_ok r (elements (get_cached_input_ids r e)) e Hr Hw) as (e' & E & Hw' & Hn & Hi & Hc).
  { intros i. by rewrite elem_of_elements. }
  exists e'. split; [done|]. split; [done|]. split; [done|]. split; [|done].
  intros h Hin. destruct (ew_refs _ Hw' _ _ Hin) as (i & f & Hi' & _). apply Hi in Hi' as [H1 H2].
  apply H2. by apply elem_of_elements.
Qed.

(** ** Reachable caches *)

Inductive ec_step : EncoderCacheManager → EncoderCacheManager → Prop :=
  | es_check r i f b e e' :
      known r → 0 ≤ i → py_get (mm_features r) i = Ok f → check_and_update_cache r i e = Ok (b, e') → ec_step e e'
  | es_can r i f budget sched b e e' :
      known r → 0 ≤ i → py_get (mm_features r) i = Ok f → can_allocate r i budget sched e = Ok (b, e') → ec_step e e'
  | es_allocate r i f e e' :
      known r → 0 ≤ i → py_get (mm_features r) i = Ok f → cached e !! identifier f = None →
      allocate r i e = Ok e' → ec_step e e'
  | es_free_input r i f e e' :
      known r → 0 ≤ i → py_get (mm_features r) i = Ok f → free_encoder_input r i e = Ok e' → ec_step e e'
  | es_free r e e' : known r → free r e = Ok e' → ec_step e e'
  | es_freed e : ec_step e (get_freed_mm_hashes e).2
  | es_reset e : 0 ≤ cache_size e → ec_step e (reset e).

Lemma allocate_fits r i f e e' :
  known r → 0 ≤ i → py_get (mm_features r) i = Ok f → allocate r i e = Ok e' →
  size (identifier f) ≤ num_free_slots e.
Proof.
  intros Hr Hi Hf E. destruct (embeds_known r i f Hr Hi Hf) as [En _]. unfold allocate in E.
  rewrite Hf, En in E. unfold mbind in E; cbn [result_bind] in E.
  rewrite !Z.geb_leb in E. destruct (size (identifier f) <=? num_free_slots e) eqn:El; [|done]. by zbool.
Qed.

Lemma ec_step_wf e e' : ec_step e e' → ec_wf e → ec_wf e'.
Proof.
  intros [r i f b e1 e2 Hr Hi Hf E|r i f bu sc b e1 e2 Hr Hi Hf E|r i f e1 e2 Hr Hi Hf Hn E
    |r i f e1 e2 Hr Hi Hf E|r e1 e2 Hr E|e1|e1 Hc] Hw.
  - destruct (check_ok r i f e1 Hr Hw Hi Hf) as (e3 & E3 & H & _). congruence.
  - destruct (can_allocate_ok r i f bu sc e1 Hr Hw Hi Hf) as (b3 & e3 & ev & E3 & H & _). congruence.
  - pose proof (allocate_fits r i f e1 e2 Hr Hi Hf E).
    destruct (allocate_ok r i f e1 Hr Hw Hi Hf Hn) as (e3 & E3 & H3 & _); [done|congruence].
  - destruct (free_input_ok r i f e1 Hr Hw Hi Hf) as (e3 & E3 & H & _). congruence.
  - destruct (free_ok r e1 Hr Hw) as (e3 & E3 & H & _). congruence.
  - destruct Hw. by split.
  - apply (ec_wf_init (cache_size e1) Hc).
Qed.

Lemma evict_cache_size fuel n e e' : evict_until fuel n e = Ok e' → cache_size e' = cache_size e.
Proof.
  revert e. induction fuel as [|fuel IH]; intros e; cbn [evict_until]; destruct (_ >? _); try done;
    try (by intros [= <-]).
  intros E. apply bind_Ok in E as ([h k] & _ & E). apply bind_Ok in E as (c & _ & E). by apply IH in E.
Qed.

Lemma free_input_cache_size r i e e' : free_encoder_input r i e = Ok e' → cache_size e' = cache_size e.
Proof.
  unfold free_encoder_input. intros E. apply bind_Ok in E as (f & _ & E). case_decide; [by injection E as <-|].
  case_decide; [|by injection E as <-]. apply bind_Ok in E as (n & _ & E). by injection E as <-.
Qed.

Lemma ec_step_cache_size e e' : ec_step e e' → cache_size e' = cache_size e.
Proof.
  intros [r i f b e1 e2 _ _ _ E|r i f bu sc b e1 e2 _ _ _ E|r i f e1 e2 _ _ _ _ E
    |r i f e1 e2 _ _ _ E|r e1 e2 _ E|e1|e1 Hc]; try done.
  - unfold check_and_update_cache in E. apply bind_Ok in E as (f' & _ & E).
    destruct (cached e1 !! identifier f'); [|by injection E as _ <-]. apply bind_Ok in E as (e3 & E3 & [= _ <-]).
    cbn. case_decide; [|by injection E3 as <-]. apply bind_Ok in E3 as ([k fr] & _ & E3). by injection E3 as <-.
  - unfold can_allocate in E. apply bind_Ok in E as (n & _ & E). destruct (_ >? _); [by injection E as _ <-|].
    destruct (_ <=? _); [by injection E as _ <-|]. destruct (_ >? _); [by injection E as _ <-|].
    apply bind_Ok in E as (e3 & E3 & [= _ <-]). by eapply evict_cache_size.
  - unfold allocate in E. apply bind_Ok in E as (f' & _ & E). apply bind_Ok in E as (n & _ & E).
    apply bind_Ok in E as (u & _ & E). apply bind_Ok in E as (u' & _ & [= <-]). done.
  - by eapply free_input_cache_size.
  - unfold free, free_inputs in E. apply (foldM_inv (λ e, cache_size e = cache_size e1) _ _ _ _ E); [done|].
    intros i e3 e4 _ Ei. rewrite (free_input_cache_size _ _ _ _ Ei). done.
Qed.

(** C36: the accounting of the encoder cache is exact in every reachable state.
    With entry sizes determined by the hash, after any sequence of lookups,
    capacity checks, allocations of inputs that are not cached, releases and
    resets: the free slots are the capacity minus the embeddings of all cached
    entries and never negative, the freeable slots are the free ones plus those
    of the unreferenced entries, and the eviction list holds exactly the
    unreferenced entries, once each, with their sizes. *)
Theorem encoder_cache_accounting n e (Hn : 0 ≤ n)
    (Hreach : rtc ec_step (EncoderCacheManager_init n) e) :
  0 ≤ num_free_slots e ∧ num_free_slots e = n - weight (cached e) ∧
  num_freeable_slots e = num_free_slots e + od_sum (freeable e) ∧
  NoDup (freeable e).*1 ∧
  ∀ h k, (h, k) ∈ freeable e ↔ cached e !! h = Some ∅ ∧ k = size h.
Proof.
  assert (ec_wf e ∧ cache_size e = n) as [[W1 W2 W3 W4 W5 W6 W7 W8] Ec].
  { pose proof (ec_wf_init n Hn) as H0. assert (cache_size (EncoderCacheManager_init n) = n) as H1 by done.
    revert H0 H1. generalize (EncoderCacheManager_init n) as e0, Hreach. clear Hreach.
    induction 1 as [e0|e0 e1 e2 Hs _ IH]; intros H0 H1; [done|].
    apply IH; [by eapply ec_step_wf|]. by rewrite (ec_step_cache_size _ _ Hs). }
  rewrite <- Ec. done.
Qed.

(** The capacity check of the encoder cache is exact, and the allocation
    it admits cannot fail.  [can_allocate] answers yes exactly when the input
    fits the compute budget and, with the embeddings already scheduled, the
    free and reclaimable slots; it then evicts unreferenced entries only,
    oldest first and no more than needed, and reports them as freed; a no
    changes nothing.  After a yes, [allocate] passes its assertions. *)
Theorem can_allocate_spec r i f budget sched e
    (Hr : known r) (Hw : ec_wf e) (Hi : 0 ≤ i) (Hf : py_get (mm_features r) i = Ok f) (Hs : 0 ≤ sched) :
  let n := size (identifier f) in
  ∃ b e' ev, can_allocate r i budget sched e = Ok (b, e') ∧
    (b = true ↔ n ≤ budget ∧ n + sched ≤ num_freeable_slots e) ∧
    (b = false → e' = e) ∧
    (b = true → evicted (n + sched) e ev e' ∧
       (cached e' !! identifier f = None → ∃ e'', allocate r i e' = Ok e'' ∧ ec_wf e'')).
Proof.
  intros n. destruct (can_allocate_ok r i f budget sched e Hr Hw Hi Hf) as (b & e' & ev & E & Hw' & H1 & H2 & H3).
  exists b, e', ev. split; [done|]. split; [done|]. split; [done|]. intros Hb. specialize (H3 Hb). split; [done|].
  intros Hnone. pose proof (ev_fits _ _ _ _ H3).
  destruct (allocate_ok r i f e' Hr Hw' Hi Hf Hnone) as (e'' & E'' & Hw'' & _); [fold n; lia|eauto].
Qed.

(** Freeing a request releases all of its encoder inputs and no one
    else's: afterwards no cached entry refers to it, the references of the
    other requests are as before, and no slot is taken. *)
Theorem encoder_free_spec r e (Hr : known r) (Hw : ec_wf e) :
  ∃ e', free r e = Ok e' ∧ ec_wf e' ∧ num_free_slots e' = num_free_slots e ∧
    (∀ h, request_id r ∉ default ∅ (cached e' !! h)) ∧
    (∀ rid h, rid ≠ request_id r → rid ∈ default ∅ (cached e' !! h) ↔ rid ∈ default ∅ (cached e !! h)).
Proof. by apply free_ok. Qed.

End EncoderFacts.

(** ** Facts: budgets and encoder-decoder models *)

Lemma fold_max_ge (xs : list Z) x y : y = x ∨ y ∈ xs → y ≤ fold_left Z.max xs x.
Proof.
  revert x y. induction xs as [|z xs IH]; intros x y H; cbn.
  - destruct H as [->|H]; [done|]. by apply not_elem_of_nil in H.
  - destruct H as [->|[->|H]%elem_of_cons].
    + etransitivity; [|apply (IH (Z.max x z) (Z.max x z)); by left]. lia.
    + etransitivity; [|apply (IH (Z.max x z) (Z.max x z)); by left]. lia.
    + apply IH. by right.
Qed.

(** Each single item fits both budgets of the result. *)
Lemma budget_fits_items disable batched compute space items cb sb :
  compute_mm_encoder_budget disable batched compute space items = Ok (cb, sb) →
  ∀ x, x ∈ items → x ≤ cb ∧ x ≤ sb ∧ (disable = true → x ≤ batched).
Proof.
  unfold compute_mm_encoder_budget. destruct items as [|y ys]; [by intros _ x ?%not_elem_of_nil|].
  destruct (_ && _) eqn:Ed; [done|]. intros [= <- <-] x Hx.
  pose proof (fold_max_ge ys y x ltac:(by apply elem_of_cons)). split; [lia|]. split; [lia|]. intros ->.
  cbn in Ed. rewrite Z.gtb_ltb in Ed. zbool. lia.
Qed.

(** ** Witnesses: one request with two images of three embeddings, a cache of
    four slots *)

Definition demo_features : list MultiModalFeatureSpec :=
  [mkFeature "a" (mkRange 0 3 None); mkFeature "b" (mkRange 3 3 None)].
Definition demo_mm : result Request :=
  Request_init None "r" 0 (Some [1; 1; 1; 1; 1; 1]) (Some (mkSampling (Some 8) 0 None [] None None)) None 0 0
    None demo_features None None 0 false false.
Definition demo_size (_ : string) : Z := 3.

Lemma demo_mm_ok : ∃ r, demo_mm = Ok r ∧ mm_features r = demo_features ∧ known demo_size (λ _, demo_features) r.
Proof.
  destruct demo_mm as [r|] eqn:E; vm_compute in E; [|discriminate]. injection E as <-.
  eexists. split; [reflexivity|]. split; [reflexivity|]. split; [reflexivity|]. cbn.
  intros f [->|[->|?%not_elem_of_nil]%elem_of_cons]%elem_of_cons; done.
Qed.

(** The first image was cached and released; the second one evicts it. *)
Definition demo_cache : EncoderCacheManager :=
  mkEncoderCache 4 1 4 {["a" := ∅]} ∅ [("a", 3)] [].

Lemma demo_cache_wf : ec_wf demo_size (λ _, demo_features) demo_cache.
Proof.
  split; cbn; try done.
  - intros h n. rewrite list_elem_of_singleton, lookup_singleton_Some. naive_solver.
  - apply NoDup_singleton.
  - intros rid h. destruct (decide (h = "a")) as [->|Hne].
    + rewrite lookup_singleton_eq. cbn. set_solver.
    + rewrite lookup_singleton_ne by done. set_solver.
Qed.

Lemma can_allocate_spec_witness :
  ∃ r e', demo_mm = Ok r ∧ can_allocate r 1 8 0 demo_cache = Ok (true, e') ∧ freed e' = ["a"].
Proof.
  destruct demo_mm_ok as (r & E & Ef & Hr). exists r.
  destruct (can_allocate_spec demo_size (λ _, demo_features) r 1 (mkFeature "b" (mkRange 3 3 None)) 8 0 demo_cache)
    as (b & e' & ev & Ec & Hb & _ & Hev).
  - exact Hr.
  - exact demo_cache_wf.
  - lia.
  - rewrite Ef. reflexivity.
  - lia.
  - assert (b = true) as -> by (apply Hb; cbn; unfold demo_size; lia). exists e'. split; [exact E|]. split; [exact Ec|].
    destruct (Hev eq_refl) as [Hv _]. rewrite (ev_freed _ _ _ _ _ _ Hv). pose proof (ev_fits _ _ _ _ _ _ Hv) as Hfit.
    pose proof (ev_oldest _ _ _ _ _ _ Hv) as Ho. rewrite (ev_free _ _ _ _ _ _ Hv) in Hfit. cbn in *.
    destruct ev as [|x ev]; [exfalso; revert Hfit; vm_compute; auto|]. injection Ho as <- Ho.
    destruct ev; [reflexivity|discriminate].
Defined.

Lemma encoder_cache_accounting_witness :
  ∃ r e, demo_mm = Ok r ∧ allocate r 0 (EncoderCacheManager_init 4) = Ok e ∧
    num_free_slots e = 4 - weight demo_size (cached e).
Proof.
  destruct demo_mm_ok as (r & E & Ef & Hr).
  destruct (allocate_ok demo_size (λ _, demo_features) r 0 (mkFeature "a" (mkRange 0 3 None))
              (EncoderCacheManager_init 4) Hr) as (e & Ea & _).
  - apply ec_wf_init. lia.
  - lia.
  - rewrite Ef. reflexivity.
  - reflexivity.
  - cbn. unfold demo_size. lia.
  - exists r, e. split; [exact E|]. split; [exact Ea|].
    destruct (encoder_cache_accounting demo_size (λ _, demo_features) 4 e) as (_ & H & _).
    + lia.
    + apply rtc_once.
      eapply (es_allocate _ _ r 0 (mkFeature "a" (mkRange 0 3 None)) _ e Hr (Z.le_refl 0)); [|reflexivity|exact Ea].
      rewrite Ef. reflexivity.
    + exact H.
Defined.

Lemma encoder_free_spec_witness :
  ∃ r e', demo_mm = Ok r ∧ free r demo_cache = Ok e' ∧ num_free_slots e' = 1.
Proof.
  destruct demo_mm_ok as (r & E & _ & Hr). exists r.
  destruct (encoder_free_spec demo_size (λ _, demo_features) r demo_cache Hr demo_cache_wf) as (e' & H1 & _ & H2 & _).
  exists e'. split; [exact E|]. split; [exact H1|exact H2].
Defined.
