(* ===== verification/Heapq.v ===== *)
(** * Python's [heapq]

    The binary heap of the standard library module [heapq], as the priority
    queue of waiting requests uses it: [heappush], [heappop], [heapify] and the
    two sift routines, over a list and the comparison [lt] (the [__lt__] of the
    elements).  The sift routines move a hole through the list; the item being
    placed is held aside until the hole has found its position.

    Facts.  For a comparison whose negation is a total preorder: the routines
    return, permute the elements and restore the heap order, so the root is a
    least element. *)

From Stdlib Require Import Sorted.
From S2P Require Import Prelude.

Local Open Scope nat_scope.

Section Heapq.
Context {A : Type} (lt : A → A → bool).
Implicit Types (heap h : list A).

Definition parent (i : nat) : nat := (i - 1) / 2.

(** [_siftdown]: towards the root, not above [startpos]. *)
Fixpoint siftdown_loop (fuel : nat) (startpos pos : nat) (newitem : A) heap : result (list A) :=
  match fuel with
  | O => Raise OutOfFuel
  | S fuel =>
      if startpos <? pos then
        let parentpos := parent pos in
        par ← of_option IndexError (heap !! parentpos);
        if lt newitem par then siftdown_loop fuel startpos parentpos newitem (<[pos := par]> heap)
        else Ok (<[pos := newitem]> heap)
      else Ok (<[pos := newitem]> heap)
  end.
Definition _siftdown (startpos pos : nat) heap : result (list A) :=
  newitem ← of_option IndexError (heap !! pos);
  siftdown_loop (S pos) startpos pos newitem heap.

(** [_siftup]: move the hole to a leaf along the smaller children, then let
    the item rise again. *)
Fixpoint siftup_loop (fuel : nat) (pos : nat) heap : result (nat * list A) :=
  match fuel with
  | O => Raise OutOfFuel
  | S fuel =>
      let endpos := length heap in
      let childpos := 2 * pos + 1 in
      if childpos <? endpos then
        let rightpos := childpos + 1 in
        cl ← of_option IndexError (heap !! childpos);
        childpos ← (if rightpos <? endpos then
                      cr ← of_option IndexError (heap !! rightpos);
                      Ok (if negb (lt cl cr) then rightpos else childpos)
                    else Ok childpos);
        c ← of_option IndexError (heap !! childpos);
        siftup_loop fuel childpos (<[pos := c]> heap)
      else Ok (pos, heap)
  end.
Definition _siftup (pos : nat) heap : result (list A) :=
  newitem ← of_option IndexError (heap !! pos);
  '(leaf, heap) ← siftup_loop (S (length heap)) pos heap;
  _siftdown pos leaf (<[leaf := newitem]> heap).

Definition heappush heap (item : A) : result (list A) :=
  let heap := heap ++ [item] in _siftdown 0 (length heap - 1) heap.

Definition heappop heap : result (A * list A) :=
  lastelt ← of_option IndexError (last heap);
  let heap := take (length heap - 1) heap in
  match heap with
  | [] => Ok (lastelt, [])
  | returnitem :: _ => heap ← _siftup 0 (<[0 := lastelt]> heap); Ok (returnitem, heap)
  end.

Definition heapify heap : result (list A) :=
  foldM (λ heap i, _siftup i heap) heap (reverse (seq 0 (length heap / 2))).

(** [while heap: yield heappop(heap)] *)
Fixpoint heap_drain (fuel : nat) heap : result (list A) :=
  match heap with
  | [] => Ok []
  | _ => match fuel with
         | O => Raise OutOfFuel
         | S fuel => '(x, heap) ← heappop heap; xs ← heap_drain fuel heap; Ok (x :: xs)
         end
  end.

(** ** Facts *)

Definition le (a b : A) : Prop := lt b a = false.
Hypothesis le_trans : ∀ a b c, le a b → le b c → le a c.
Hypothesis lt_le : ∀ a b, lt a b = true → le a b.

Lemma le_refl a : le a a.
Proof. unfold le. destruct (lt a a) eqn:E; [|done]. pose proof (lt_le _ _ E) as H. unfold le in H. congruence. Qed.

Definition edge h (i : nat) : Prop :=
  ∀ a b, h !! parent i = Some a → h !! i = Some b → le a b.

(** Heap order of the edges at and below position [s]. *)
Definition heap_from (s : nat) h : Prop := ∀ i, 0 < i → s ≤ parent i → edge h i.
Definition is_heap h : Prop := heap_from 0 h.

Definition grand h (pos : nat) : Prop :=
  ∀ j a b, 0 < j → parent j = pos → h !! parent pos = Some a → h !! j = Some b → le a b.

(** Order but for the edge above [pos], respectively for all edges at [pos]. *)
Definition hole_up (s pos : nat) h : Prop :=
  (∀ i, 0 < i → s ≤ parent i → i ≠ pos → edge h i) ∧ (s < pos → grand h pos).
Definition hole (s pos : nat) h : Prop :=
  (∀ i, 0 < i → s ≤ parent i → i ≠ pos → parent i ≠ pos → edge h i) ∧ (s < pos → grand h pos).

Lemma parent_lt i : 0 < i → parent i < i.
Proof. intros. unfold parent. apply Nat.Div0.div_lt_upper_bound; lia. Qed.

Lemma parent_child i : 0 < i → i = 2 * parent i + 1 ∨ i = 2 * parent i + 2.
Proof. intros. unfold parent. pose proof (Nat.div_mod (i - 1) 2). pose proof (Nat.mod_upper_bound (i - 1) 2). lia. Qed.

Lemma child_parent p i : i = 2 * p + 1 ∨ i = 2 * p + 2 → parent i = p.
Proof.
  unfold parent. intros [-> | ->].
  - replace (2 * p + 1 - 1) with (p * 2) by lia. apply Nat.div_mul. lia.
  - symmetry. apply (Nat.div_unique _ 2 p 1); lia.
Qed.

(** Positions in the subtree of [s]. *)
Inductive below (s : nat) : nat → Prop :=
  | below_refl : below s s
  | below_child i : 0 < i → below s (parent i) → below s i.

Lemma below_le s i : below s i → s ≤ i.
Proof. induction 1 as [|i Hi _ IH]; [done|]. pose proof (parent_lt i Hi). lia. Qed.

Lemma below_up s i : below s i → s < i → below s (parent i) ∧ s ≤ parent i.
Proof. intros [|j Hj Hb] Hs; [lia|]. split; [done|by apply below_le]. Qed.

(** Moving the item one step up. *)
Lemma swap_up s pos x par h :
  s < pos → below s pos → pos < length h → h !! parent pos = Some par → lt x par = true →
  hole_up s pos (<[pos := x]> h) →
  <[parent pos := x]> (<[pos := par]> h) ≡ₚ <[pos := x]> h ∧
  hole_up s (parent pos) (<[parent pos := x]> (<[pos := par]> h)).
Proof.
  intros H0 Hbel Hlt Hpar Hx [He Hg]. destruct (below_up s pos Hbel H0) as [Hbel' Hs].
  pose proof (parent_lt pos ltac:(lia)) as Hpp. set (pp := parent pos) in *.
  set (F := <[pos := x]> h) in *.
  assert (F !! pos = Some x) as HFp by (by apply list_lookup_insert_eq).
  assert (F !! pp = Some par) as HFpp by (unfold F; rewrite list_lookup_insert_ne by lia; done).
  assert (<[pp := x]> (<[pos := par]> h) = <[pp := x]> (<[pos := par]> F)) as E
    by (unfold F; by rewrite list_insert_insert_eq).
  rewrite E. split; [by apply Permutation_insert_swap|].
  set (F' := <[pp := x]> (<[pos := par]> F)).
  assert (F' !! pos = Some par) as H1.
  { unfold F'. rewrite list_lookup_insert_ne by lia. apply list_lookup_insert_eq. unfold F. rewrite length_insert. lia. }
  assert (F' !! pp = Some x) as H2.
  { unfold F'. apply list_lookup_insert_eq. unfold F. rewrite !length_insert. lia. }
  assert (∀ i, i ≠ pos → i ≠ pp → F' !! i = F !! i) as H3.
  { intros i Hi1 Hi2. unfold F'. by rewrite !list_lookup_insert_ne by done. }
  assert (le x par) as Hle by (by apply lt_le).
  split.
  - intros i Hi Hsi Hne a b Ha Hb. destruct (decide (i = pos)) as [->|Hip].
    + fold pp in Ha. rewrite H2 in Ha. rewrite H1 in Hb. simplify_eq. done.
    + rewrite (H3 i Hip Hne) in Hb. destruct (decide (parent i = pos)) as [Ep|Hpi].
      * rewrite Ep, H1 in Ha. injection Ha as <-. apply (Hg ltac:(lia) i par b Hi Ep); [|done]. fold pp. done.
      * destruct (decide (parent i = pp)) as [Ep|Hpi2].
        -- rewrite Ep, H2 in Ha. injection Ha as <-. eapply le_trans; [exact Hle|].
           apply (He i Hi Hsi Hip); [by rewrite Ep|done].
        -- rewrite H3 in Ha by done. by apply (He i Hi Hsi Hip).
  - intros Hspp j a b Hj Ej Ha Hb. assert (0 < pp) as Hpp0 by lia. pose proof (parent_lt pp Hpp0).
    assert (F !! parent pp = Some a) as Ha' by (rewrite H3 in Ha by lia; done).
    destruct (below_up s pp Hbel' Hspp) as [_ Hsp].
    assert (le a par) as Hap by (apply (He pp Hpp0 Hsp ltac:(lia)); done).
    destruct (decide (j = pos)) as [->|Hjp].
    + rewrite H1 in Hb. by injection Hb as <-.
    + rewrite H3 in Hb by (try done; pose proof (parent_lt j Hj); lia).
      eapply le_trans; [exact Hap|]. apply (He j Hj ltac:(lia) Hjp); [by rewrite Ej|done].
Qed.

Lemma siftdown_loop_ok fuel s pos x h :
  pos < fuel → below s pos → pos < length h → hole_up s pos (<[pos := x]> h) →
  ∃ h', siftdown_loop fuel s pos x h = Ok h' ∧ h' ≡ₚ <[pos := x]> h ∧ heap_from s h'.
Proof.
  revert pos h. induction fuel as [|fuel IH]; intros pos h Hf Hb Hl Hh; [lia|]. cbn [siftdown_loop].
  destruct (Nat.ltb_spec s pos) as [Hs|Hs]; cycle 1.
  { eexists. split; [reflexivity|]. split; [done|]. pose proof (below_le s pos Hb). assert (pos = s) as -> by lia.
    destruct Hh as [He _]. intros i Hi Hsi. apply He; [done|done|]. intros ->. pose proof (parent_lt s Hi). lia. }
  pose proof (parent_lt pos ltac:(lia)) as Hpp.
  destruct (lookup_lt_is_Some_2 h (parent pos) ltac:(lia)) as [par Hpar]. rewrite Hpar. cbn [of_option].
  unfold mbind; cbn [result_bind]. destruct (lt x par) eqn:Ex.
  - destruct (swap_up s pos x par h Hs Hb Hl Hpar Ex Hh) as [Hp Hh']. destruct (below_up s pos Hb Hs) as [Hb' _].
    destruct (IH (parent pos) (<[pos := par]> h)) as (h' & -> & Hp' & Hheap); [lia|done|by rewrite length_insert; lia|done|].
    exists h'. split; [done|]. split; [by rewrite Hp'|done].
  - eexists. split; [reflexivity|]. split; [done|]. destruct Hh as [He _]. intros i Hi Hsi.
    destruct (decide (i = pos)) as [->|Hne]; [|by apply He]. intros a b Ha Hb'.
    rewrite list_lookup_insert_eq in Hb' by done. rewrite list_lookup_insert_ne in Ha by lia. simplify_eq. exact Ex.
Qed.

Lemma siftdown_ok s pos x h :
  below s pos → h !! pos = Some x → hole_up s pos h →
  ∃ h', _siftdown s pos h = Ok h' ∧ h' ≡ₚ h ∧ heap_from s h'.
Proof.
  intros Hb Hx Hh. unfold _siftdown. rewrite Hx. cbn [of_option]. unfold mbind; cbn [result_bind].
  destruct (siftdown_loop_ok (S pos) s pos x h) as (h' & E & Hp & Hheap); rewrite ?list_insert_id in *; eauto.
  by eapply lookup_lt_Some.
Qed.

(** Moving the hole one step down, to the smaller child [c]. *)
Lemma swap_down s pos c x v h :
  s ≤ pos → parent c = pos → 0 < c → h !! c = Some v → pos < length h →
  (∀ j b, 0 < j → parent j = pos → h !! j = Some b → le v b) →
  hole s pos h →
  <[c := x]> (<[pos := v]> h) ≡ₚ <[pos := x]> h ∧ hole s c (<[pos := v]> h).
Proof.
  intros Hs Ec Hc Hv Hl Hmin [He Hg]. pose proof (parent_lt c Hc). split.
  { replace (<[pos := v]> h) with (<[pos := v]> (<[pos := x]> h)) by apply list_insert_insert_eq.
    apply Permutation_insert_swap; [by apply list_lookup_insert_eq|by rewrite list_lookup_insert_ne by lia]. }
  split.
  - intros i Hi Hsi Hne Hpi a b Ha Hb. destruct (decide (i = pos)) as [->|Hip].
    + rewrite list_lookup_insert_eq in Hb by done. injection Hb as <-. pose proof (parent_lt pos Hi).
      rewrite list_lookup_insert_ne in Ha by lia. apply (Hg ltac:(lia) c a v Hc Ec Ha Hv).
    + rewrite list_lookup_insert_ne in Hb by done. destruct (decide (parent i = pos)) as [Ep|Hpp].
      * rewrite Ep, list_lookup_insert_eq in Ha by done. injection Ha as <-. by apply (Hmin i).
      * rewrite list_lookup_insert_ne in Ha by done. by apply (He i Hi Hsi Hip Hpp).
  - intros _ j a b Hj Ej Ha Hb. rewrite Ec, list_lookup_insert_eq in Ha by done. injection Ha as <-.
    pose proof (parent_lt j Hj). rewrite list_lookup_insert_ne in Hb by lia.
    apply (He j Hj ltac:(lia) ltac:(lia) ltac:(lia)); [by rewrite Ej|done].
Qed.

Lemma siftup_loop_ok fuel s pos x h :
  length h - pos < fuel → below s pos → pos < length h → hole s pos h →
  ∃ leaf h', siftup_loop fuel pos h = Ok (leaf, h') ∧ length h' = length h ∧
    below s leaf ∧ leaf < length h ∧ hole_up s leaf (<[leaf := x]> h') ∧ <[leaf := x]> h' ≡ₚ <[pos := x]> h.
Proof.
  revert pos h. induction fuel as [|fuel IH]; intros pos h Hf Hb Hl Hh; [lia|]. cbn [siftup_loop].
  pose proof (below_le s pos Hb) as Hsp.
  destruct (Nat.ltb_spec (2 * pos + 1) (length h)) as [Hc|Hc]; cycle 1.
  { exists pos, h. split; [done|]. split; [done|]. split; [done|]. split; [done|]. split; [|done].
    destruct Hh as [He Hg]. split.
    - intros i Hi Hsi Hne a b Ha Hb'. rewrite list_lookup_insert_ne in Hb' by done.
      apply lookup_lt_Some in Hb' as Hil. pose proof (parent_child i Hi).
      rewrite list_lookup_insert_ne in Ha by lia. apply (He i Hi Hsi Hne); [lia|done..].
    - intros _ j a b Hj Ej _ Hb'. apply lookup_lt_Some in Hb'. rewrite length_insert in Hb'.
      pose proof (parent_child j Hj). lia. }
  destruct (lookup_lt_is_Some_2 h (2 * pos + 1) Hc) as [cl Hcl]. rewrite Hcl. cbn [of_option].
  unfold mbind at 1; cbn [result_bind].
  assert (∃ c v, (if 2 * pos + 1 + 1 <? length h then
                    cr ← of_option IndexError (h !! (2 * pos + 1 + 1));
                    Ok (if negb (lt cl cr) then 2 * pos + 1 + 1 else 2 * pos + 1)
                  else Ok (2 * pos + 1)) = Ok c ∧ parent c = pos ∧ pos < c ∧ h !! c = Some v ∧
    ∀ j b, 0 < j → parent j = pos → h !! j = Some b → le v b) as (c & v & -> & Ec & Hpc & Hv & Hmin).
  { destruct (Nat.ltb_spec (2 * pos + 1 + 1) (length h)) as [Hr|Hr].
    - destruct (lookup_lt_is_Some_2 h (2 * pos + 1 + 1) Hr) as [cr Hcr]. rewrite Hcr. cbn [of_option].
      unfold mbind; cbn [result_bind]. destruct (lt cl cr) eqn:Elt; cbn [negb].
      + exists (2 * pos + 1), cl. split; [done|]. split; [apply child_parent; by left|]. split; [lia|]. split; [done|].
        intros j b Hj Ej Hb'. destruct (parent_child j Hj) as [E|E]; rewrite Ej in E; subst j.
        * rewrite Hcl in Hb'. injection Hb' as <-. apply le_refl.
        * replace (2 * pos + 2) with (2 * pos + 1 + 1) in Hb' by lia. rewrite Hcr in Hb'. injection Hb' as <-.
          by apply lt_le.
      + exists (2 * pos + 1 + 1), cr. split; [done|]. split; [apply child_parent; right; lia|]. split; [lia|]. split; [done|].
        intros j b Hj Ej Hb'. destruct (parent_child j Hj) as [E|E]; rewrite Ej in E; subst j.
        * rewrite Hcl in Hb'. injection Hb' as <-. exact Elt.
        * replace (2 * pos + 2) with (2 * pos + 1 + 1) in Hb' by lia. rewrite Hcr in Hb'. injection Hb' as <-.
          apply le_refl.
    - exists (2 * pos + 1), cl. split; [done|]. split; [apply child_parent; by left|]. split; [lia|]. split; [done|].
      intros j b Hj Ej Hb'. destruct (parent_child j Hj) as [E|E]; rewrite Ej in E; subst j.
      + rewrite Hcl in Hb'. injection Hb' as <-. apply le_refl.
      + apply lookup_lt_Some in Hb'. lia. }
  unfold mbind at 1; cbn [result_bind]. rewrite Hv. cbn [of_option]. unfold mbind; cbn [result_bind].
  destruct (swap_down s pos c x v h Hsp Ec ltac:(lia) Hv Hl Hmin Hh) as [Hp Hh'].
  apply lookup_lt_Some in Hv as Hcl'.
  destruct (IH c (<[pos := v]> h)) as (leaf & h' & -> & L1 & L2 & L3 & L4 & L5).
  - rewrite length_insert. lia.
  - apply below_child; [lia|by rewrite Ec].
  - by rewrite length_insert.
  - done.
  - rewrite length_insert in L1, L3. exists leaf, h'. split; [done|]. split; [done|]. split; [done|]. split; [done|].
    split; [done|]. by rewrite L5.
Qed.

Lemma siftup_ok s h :
  s < length h → heap_from (S s) h → ∃ h', _siftup s h = Ok h' ∧ h' ≡ₚ h ∧ heap_from s h'.
Proof.
  intros Hs Hh. unfold _siftup. destruct (lookup_lt_is_Some_2 h s Hs) as [x Hx]. rewrite Hx. cbn [of_option].
  unfold mbind at 1; cbn [result_bind].
  destruct (siftup_loop_ok (S (length h)) s s x h) as (leaf & h' & -> & L1 & L2 & L3 & L4 & L5).
  - lia.
  - constructor.
  - done.
  - split; [|lia]. intros i Hi Hsi _ Hpi. apply Hh; [done|lia].
  - unfold mbind; cbn [result_bind]. rewrite (list_insert_id h s x Hx) in L5.
    destruct (siftdown_ok s leaf x (<[leaf := x]> h') L2) as (h2 & -> & P2 & H2); [|done|].
    + apply list_lookup_insert_eq. lia.
    + exists h2. split; [done|]. split; [by rewrite P2|done].
Qed.

Lemma root_least h x i y : is_heap h → h !! 0 = Some x → h !! i = Some y → le x y.
Proof.
  intros Hh Hx. revert y. induction i as [i IH] using lt_wf_ind. intros y Hy.
  destruct (decide (i = 0)) as [->|Hi]; [rewrite Hx in Hy; injection Hy as <-; apply le_refl|].
  pose proof (parent_lt i ltac:(lia)) as Hp. apply lookup_lt_Some in Hy as Hl.
  destruct (lookup_lt_is_Some_2 h (parent i) ltac:(lia)) as [z Hz].
  eapply le_trans; [by apply (IH (parent i) Hp z)|]. by apply (Hh i ltac:(lia) ltac:(lia)).
Qed.

Lemma heappush_ok h x : is_heap h → ∃ h', heappush h x = Ok h' ∧ h' ≡ₚ x :: h ∧ is_heap h'.
Proof.
  intros Hh. unfold heappush. rewrite length_app. cbn [length]. replace (length h + 1 - 1) with (length h) by lia.
  destruct (siftdown_ok 0 (length h) x (h ++ [x])) as (h' & E & Hp & Hheap).
  - clear. induction (length h) as [n IH] using lt_wf_ind. destruct n as [|n]; [constructor|].
    apply below_child; [lia|]. apply IH. apply parent_lt. lia.
  - rewrite lookup_app_r, Nat.sub_diag by done. done.
  - split.
    + intros i Hi _ Hne a b Ha Hb. apply lookup_lt_Some in Hb as Hl. rewrite length_app in Hl. cbn in Hl.
      pose proof (parent_lt i Hi). rewrite lookup_app_l in Ha, Hb by lia. by apply (Hh i Hi ltac:(lia)).
    + intros _ j a b Hj Ej _ Hb. apply lookup_lt_Some in Hb. rewrite length_app in Hb. cbn in Hb.
      pose proof (parent_child j Hj). lia.
  - exists h'. split; [done|]. split; [|done]. rewrite Hp. by rewrite Permutation_app_comm.
Qed.

Lemma heap_from_all h : heap_from (length h / 2) h.
Proof.
  intros i Hi Hs a b _ Hb. apply lookup_lt_Some in Hb. pose proof (parent_child i Hi).
  pose proof (Nat.div_mod (length h) 2 ltac:(lia)). pose proof (Nat.mod_upper_bound (length h) 2 ltac:(lia)). lia.
Qed.

Lemma heapify_ok h : ∃ h', heapify h = Ok h' ∧ h' ≡ₚ h ∧ is_heap h'.
Proof.
  unfold heapify, is_heap. pose proof (heap_from_all h) as Hh.
  assert (length h / 2 ≤ length h) as Hn by (apply Nat.Div0.div_le_upper_bound; lia). revert Hh Hn.
  generalize (length h / 2) as n. intros n. revert h. induction n as [|n IH]; intros h Hh Hn.
  { by exists h. }
  rewrite seq_S, reverse_snoc. cbn [foldM].
  destruct (siftup_ok n h ltac:(lia) Hh) as (h1 & E1 & P1 & H1). cbn [Nat.add] in *. rewrite E1. unfold mbind; cbn [result_bind].
  destruct (IH h1 H1) as (h2 & E2 & P2 & H2); [rewrite P1; lia|]. exists h2. split; [done|]. split; [by rewrite P2|done].
Qed.

Lemma heappop_ok h : is_heap h → h ≠ [] →
  ∃ x h', heappop h = Ok (x, h') ∧ h ≡ₚ x :: h' ∧ is_heap h' ∧ ∀ y, y ∈ h' → le x y.
Proof.
  intros Hh Hne. destruct (exists_last Hne) as (h0 & z & ->). unfold heappop. rewrite last_snoc. cbn [of_option].
  unfold mbind at 1; cbn [result_bind]. rewrite length_app. cbn [length].
  replace (length h0 + 1 - 1) with (length h0) by lia. rewrite take_app_length.
  destruct h0 as [|x t].
  { exists z, []. split; [done|]. split; [done|]. split; [|by intros y ?%not_elem_of_nil].
    intros i _ _ a b Ha. by rewrite lookup_nil in Ha. }
  cbn [insert list_insert]. destruct (siftup_ok 0 (z :: t)) as (h' & E & Hp & Hheap).
  - cbn. lia.
  - intros i Hi Hsi a b Ha Hb. apply (Hh i Hi ltac:(lia)).
    + destruct (parent i) as [|j]; [lia|]. cbn in Ha |- *. apply lookup_app_l_Some. done.
    + destruct i as [|j]; [lia|]. cbn in Hb |- *. apply lookup_app_l_Some. done.
  - cbn [insert list_insert]. change (<[0 := z]> (x :: t)) with (z :: t). rewrite E. unfold mbind; cbn [result_bind].
    exists x, h'. split; [done|]. assert (((x :: t) ++ [z]) ≡ₚ x :: h') as Hperm.
    { rewrite Hp. cbn. by rewrite Permutation_app_comm. }
    split; [done|]. split; [done|]. intros y Hy.
    assert (y ∈ (x :: t) ++ [z]) as [i Hi]%list_elem_of_lookup by (rewrite Hperm; by right).
    by eapply (root_least ((x :: t) ++ [z]) x i).
Qed.

(** Draining a heap yields its elements in order. *)
Lemma heap_drain_ok fuel h :
  is_heap h → length h ≤ fuel → ∃ l, heap_drain fuel h = Ok l ∧ l ≡ₚ h ∧ StronglySorted le l.
Proof.
  revert h. induction fuel as [|fuel IH]; intros h Hh Hf.
  { destruct h; [|cbn in Hf; lia]. exists []. split; [done|]. split; [done|constructor]. }
  destruct h as [|x0 h0]; [exists []; split; [done|split; [done|constructor]]|].
  cbn [heap_drain]. set (h := x0 :: h0) in *.
  destruct (heappop_ok h Hh) as (x & h' & -> & Hp & Hh' & Hmin); [done|]. unfold mbind; cbn [result_bind].
  destruct (IH h' Hh') as (l & -> & Hpl & Hs); [apply Permutation_length in Hp; cbn in Hp, Hf; lia|].
  exists (x :: l). split; [done|]. split; [by rewrite Hpl, Hp|]. constructor; [done|].
  rewrite Hpl. by apply Forall_forall.
Qed.

End Heapq.
