(* ===== verification/RequestQueue.v ===== *)
(** * Queues of waiting requests ([vllm/v1/core/sched/request_queue.py])

    The two scheduling policies behind one interface: first come first served
    on a [deque], and priority on a [heapq] heap ordered by [Request.__lt__].

    Correspondence.  The abstract class [RequestQueue] is the class
    [RequestQueueOps]; its laws, in terms of the sequence of requests in policy
    order, are the class [RequestQueueSpec], with one instance per policy.
    [Request] defines no [__eq__], so membership tests compare objects, which
    are told apart by [py_id].  A queue passed as an argument is represented by
    the sequence its iteration yields. *)

From Stdlib Require Import Sorted.
From S2P Require Import Prelude Request Heapq.

Inductive SchedulingPolicy := FCFS | PRIORITY.

Definition same_object (a b : Request) : bool := Nat.eqb (py_id a) (py_id b).
Definition among (rs : list Request) (r : Request) : bool := existsb (same_object r) rs.

(** ** The interface *)

Class RequestQueueOps (Q : Type) := {
  rq_new : Q;
  add_request : Request → Q → result Q;
  pop_request : Q → result (Request * Q);
  peek_request : Q → result Request;
  prepend_request : Request → Q → result Q;
  prepend_requests : list Request → Q → result Q;
  remove_request : Request → Q → result Q;
  remove_requests : list Request → Q → result Q;
  queue_bool : Q → bool;
  queue_len : Q → Z;
  queue_iter : Q → result (list Request);
}.

(** [list.remove] and [deque.remove] *)
Fixpoint list_remove (r : Request) (l : list Request) : result (list Request) :=
  match l with
  | [] => Raise ValueError
  | x :: l => if same_object r x then Ok l else l' ← list_remove r l; Ok (x :: l')
  end.

(** [[r for r in l if r not in rs]] *)
Definition drop_all (rs l : list Request) : list Request :=
  List.filter (λ r, negb (among rs r)) l.

(** ** First come, first served *)

Record FCFSRequestQueue := mkFCFS { deque : list Request }.

#[export] Instance fcfs_ops : RequestQueueOps FCFSRequestQueue := {
  rq_new := mkFCFS [];
  add_request r q := Ok (mkFCFS (deque q ++ [r]));
  pop_request q := match deque q with [] => Raise IndexError | r :: l => Ok (r, mkFCFS l) end;
  peek_request q := match deque q with [] => Raise IndexError | r :: _ => Ok r end;
  prepend_request r q := Ok (mkFCFS (r :: deque q));
  prepend_requests rs q := Ok (mkFCFS (reverse rs ++ deque q));
  remove_request r q := l ← list_remove r (deque q); Ok (mkFCFS l);
  remove_requests rs q := Ok (mkFCFS (drop_all rs (deque q)));
  queue_bool q := (zlen (deque q) >? 0)%Z;
  queue_len q := zlen (deque q);
  queue_iter q := Ok (deque q);
}.

(** ** Priority *)

Record PriorityRequestQueue := mkPriority { _heap : list Request }.

Definition heap_add (r : Request) (q : PriorityRequestQueue) : result PriorityRequestQueue :=
  h ← heappush request_lt q.(_heap) r; Ok (mkPriority h).

#[export] Instance priority_ops : RequestQueueOps PriorityRequestQueue := {
  rq_new := mkPriority [];
  add_request := heap_add;
  pop_request q :=
    match q.(_heap) with
    | [] => Raise IndexError
    | _ => '(r, h) ← heappop request_lt q.(_heap); Ok (r, mkPriority h)
    end;
  peek_request q := match q.(_heap) with [] => Raise IndexError | r :: _ => Ok r end;
  prepend_request := heap_add;
  prepend_requests rs q := foldM (λ q r, heap_add r q) q rs;
  remove_request r q := l ← list_remove r q.(_heap); h ← heapify request_lt l; Ok (mkPriority h);
  remove_requests rs q := h ← heapify request_lt (drop_all rs q.(_heap)); Ok (mkPriority h);
  queue_bool q := match q.(_heap) with [] => false | _ => true end;
  queue_len q := zlen q.(_heap);
  queue_iter q := heap_drain request_lt (length q.(_heap)) q.(_heap);
}.

Inductive RequestQueue :=
  | FCFSQueue (q : FCFSRequestQueue)
  | PriorityQueue (q : PriorityRequestQueue).

Definition create_request_queue (policy : SchedulingPolicy) : RequestQueue :=
  match policy with
  | PRIORITY => PriorityQueue rq_new
  | FCFS => FCFSQueue rq_new
  end.

(** ** Laws of the interface *)

(** [rq_rep q l]: [q] holds the distinct requests [l], in policy order. *)
Class RequestQueueSpec (Q : Type) `{!RequestQueueOps Q} := {
  rq_rep : Q → list Request → Prop;
  rq_distinct q l : rq_rep q l → NoDup (py_id <$> l);
  rq_rep_new : rq_rep rq_new [];
  rq_add q l r : rq_rep q l → py_id r ∉ py_id <$> l →
    ∃ q' l', add_request r q = Ok q' ∧ rq_rep q' l' ∧ l' ≡ₚ r :: l;
  rq_prepend q l r : rq_rep q l → py_id r ∉ py_id <$> l →
    ∃ q' l', prepend_request r q = Ok q' ∧ rq_rep q' l' ∧ l' ≡ₚ r :: l;
  rq_prepend_all q l rs : rq_rep q l → NoDup (py_id <$> rs ++ l) →
    ∃ q' l', prepend_requests rs q = Ok q' ∧ rq_rep q' l' ∧ l' ≡ₚ rs ++ l;
  rq_pop q r l : rq_rep q (r :: l) → ∃ q', pop_request q = Ok (r, q') ∧ rq_rep q' l;
  rq_pop_empty q : rq_rep q [] → pop_request q = Raise IndexError;
  rq_peek q r l : rq_rep q (r :: l) → peek_request q = Ok r;
  rq_peek_empty q : rq_rep q [] → peek_request q = Raise IndexError;
  rq_remove q l1 r l2 : rq_rep q (l1 ++ r :: l2) → ∃ q', remove_request r q = Ok q' ∧ rq_rep q' (l1 ++ l2);
  rq_remove_all q l rs : rq_rep q l → ∃ q', remove_requests rs q = Ok q' ∧ rq_rep q' (drop_all rs l);
  rq_iter q l : rq_rep q l → queue_iter q = Ok l;
  rq_length q l : rq_rep q l → queue_len q = zlen l ∧ queue_bool q = bool_decide (l ≠ []);
}.

(** ** Facts: removal *)

Lemma same_object_spec a b : same_object a b = true ↔ py_id a = py_id b.
Proof. apply Nat.eqb_eq. Qed.

Lemma distinct_app_remove l1 r l2 :
  NoDup (py_id <$> l1 ++ r :: l2) → NoDup (py_id <$> l1 ++ l2) ∧ py_id r ∉ py_id <$> l1 ++ l2.
Proof.
  assert (l1 ++ r :: l2 ≡ₚ r :: l1 ++ l2) as -> by (by rewrite Permutation_middle).
  cbn. by intros [? ?]%NoDup_cons.
Qed.

Lemma list_remove_ok l1 r l2 : py_id r ∉ py_id <$> l1 → list_remove r (l1 ++ r :: l2) = Ok (l1 ++ l2).
Proof.
  induction l1 as [|x l1 IH]; intros Hr; cbn.
  - unfold same_object. by rewrite Nat.eqb_refl.
  - cbn in Hr. apply not_elem_of_cons in Hr as [Hne Hr].
    destruct (same_object r x) eqn:E; [by apply same_object_spec in E|]. by rewrite IH.
Qed.

(** Removal finds the object wherever it is. *)
Lemma list_remove_perm r l l' :
  NoDup (py_id <$> l) → l ≡ₚ r :: l' → ∃ l'', list_remove r l = Ok l'' ∧ l'' ≡ₚ l'.
Proof.
  intros Hnd Hp. assert (r ∈ l) as Hin by (rewrite Hp; by left).
  apply list_elem_of_split in Hin as (l1 & l2 & ->).
  destruct (distinct_app_remove l1 r l2 Hnd) as [_ Hr].
  exists (l1 ++ l2). split; [apply list_remove_ok; rewrite fmap_app in Hr; set_solver|].
  apply (Permutation_cons_inv (a := r)). rewrite <- Hp. by rewrite Permutation_middle.
Qed.

Lemma drop_all_sublist rs l : sublist (drop_all rs l) l.
Proof.
  unfold drop_all. induction l as [|x l IH]; cbn; [done|]. destruct (negb (among rs x)); by constructor.
Qed.

Lemma drop_all_perm rs l l' : l ≡ₚ l' → drop_all rs l ≡ₚ drop_all rs l'.
Proof.
  unfold drop_all. induction 1 as [|x l l' _ IH|x y l|l1 l2 l3 _ IH1 _ IH2]; cbn.
  - done.
  - destruct (negb (among rs x)); by rewrite ?IH.
  - destruct (negb (among rs x)), (negb (among rs y)); done || by constructor.
  - by rewrite IH1.
Qed.

(** ** Facts: the order of requests *)

Abbreviation request_le := (le request_lt).

Definition same_key (a b : Request) : Prop :=
  priority a = priority b ∧ arrival_time a = arrival_time b ∧ request_id a = request_id b ∧ py_id a = py_id b.

Lemma request_lt_cases a b : request_lt a b = true ∨ same_key a b ∨ request_lt b a = true.
Proof.
  destruct (decide (py_id a = py_id b)) as [Ei|Hne]; cycle 1.
  { destruct (request_lt_total a b Hne); auto. }
  destruct (decide (same_key a b)) as [|Hk]; [auto|]. unfold same_key in Hk. rewrite !request_lt_iff.
  destruct (Z.lt_total (priority a) (priority b)) as [?|[E1|?]]; [tauto| |tauto].
  destruct (Z.lt_total (arrival_time a) (arrival_time b)) as [?|[E2|?]]; [tauto| |intuition lia].
  destruct (decide (request_id a = request_id b)) as [E3|H3]; [tauto|].
  destruct (string_ltb_total _ _ H3) as [H%string_ltb_lt|H%string_ltb_lt]; intuition lia.
Qed.

Lemma same_key_lt a b c : same_key a b → request_lt a c = request_lt b c ∧ request_lt c a = request_lt c b.
Proof. intros (E1 & E2 & E3 & E4). unfold request_lt. by rewrite E1, E2, E3, E4. Qed.

Lemma request_le_iff a b : request_le a b ↔ request_lt a b = true ∨ same_key a b.
Proof.
  unfold le. split.
  - intros H. destruct (request_lt_cases a b) as [|[|?]]; [auto|auto|congruence].
  - intros [H|H].
    + destruct (request_lt b a) eqn:E; [|done]. pose proof (request_lt_trans _ _ _ H E) as Hx.
      by rewrite request_lt_irrefl in Hx.
    + destruct (same_key_lt a b b H) as [_ ->]. apply request_lt_irrefl.
Qed.

Lemma request_le_trans a b c : request_le a b → request_le b c → request_le a c.
Proof.
  rewrite !request_le_iff. intros [H1|H1] [H2|H2].
  - left. by eapply request_lt_trans.
  - left. destruct (same_key_lt b c a H2) as [_ <-]. done.
  - left. destruct (same_key_lt a b c H1) as [-> _]. done.
  - right. unfold same_key in *. intuition congruence.
Qed.

Lemma request_lt_le a b : request_lt a b = true → request_le a b.
Proof. intros. apply request_le_iff. by left. Qed.

Lemma request_le_antisym a b : request_le a b → request_le b a → py_id a = py_id b.
Proof.
  rewrite !request_le_iff. intros [H1|(_ & _ & _ & ?)] [H2|(_ & _ & _ & ?)]; try done.
  pose proof (request_lt_trans _ _ _ H1 H2) as Hx. by rewrite request_lt_irrefl in Hx.
Qed.

Lemma distinct_inj (l : list Request) a b : NoDup (py_id <$> l) → a ∈ l → b ∈ l → py_id a = py_id b → a = b.
Proof.
  intros Hnd [i Hi]%list_elem_of_lookup [j Hj]%list_elem_of_lookup E.
  assert (i = j) as ->; [|congruence]. eapply NoDup_lookup; [exact Hnd|..]; rewrite list_lookup_fmap.
  - by rewrite Hi.
  - by rewrite Hj, E.
Qed.

(** Distinct requests have one sorted sequence. *)
Lemma sorted_unique l1 l2 :
  NoDup (py_id <$> l1) → l1 ≡ₚ l2 → StronglySorted request_le l1 → StronglySorted request_le l2 → l1 = l2.
Proof.
  revert l2. induction l1 as [|a l1 IH]; intros l2 Hnd Hp Hs1 Hs2.
  { apply Permutation_nil_l in Hp. done. }
  destruct l2 as [|b l2]; [symmetry in Hp; by apply Permutation_nil_l in Hp|].
  apply StronglySorted_inv in Hs1 as [Hs1 Hf1]. apply StronglySorted_inv in Hs2 as [Hs2 Hf2].
  rewrite Forall_forall in Hf1, Hf2.
  assert (a = b) as ->.
  { apply (distinct_inj (a :: l1) a b Hnd); [by left|rewrite Hp; by left|].
    assert (a ∈ b :: l2) as [->|Ha]%elem_of_cons by (rewrite <- Hp; by left); [done|].
    assert (b ∈ a :: l1) as [->|Hb]%elem_of_cons by (rewrite Hp; by left); [done|].
    apply request_le_antisym; auto. }
  f_equal. cbn in Hnd. apply NoDup_cons in Hnd as [_ Hnd]. apply IH; try done. by apply Permutation_cons_inv in Hp.
Qed.

(** ** The instances *)

#[export] Instance fcfs_spec : RequestQueueSpec FCFSRequestQueue.
Proof.
  refine {| rq_rep q l := deque q = l ∧ NoDup (py_id <$> l) |}.
  - by intros q l [_ ?].
  - split; [done|constructor].
  - intros q l r [<- Hnd] Hr. eexists _, _. split; [reflexivity|]. cbn. split; [split; [reflexivity|]|].
    + rewrite fmap_app. apply NoDup_app. split; [done|]. split; [|apply NoDup_singleton].
      intros x Hx ->%list_elem_of_singleton. done.
    + by rewrite Permutation_app_comm.
  - intros q l r [<- Hnd] Hr. eexists _, _. split; [reflexivity|]. split; [split; [reflexivity|]|done].
    cbn. by apply NoDup_cons.
  - intros q l rs [<- Hnd] Hrs. eexists _, (reverse rs ++ deque q). split; [reflexivity|].
    split; [split; [done|]|]; by rewrite reverse_Permutation.
  - intros q r l [E Hnd]. cbn. rewrite E. eexists. split; [reflexivity|]. split; [done|]. by apply NoDup_cons in Hnd as [_ ?].
  - intros q [E _]. cbn. by rewrite E.
  - intros q r l [E _]. cbn. by rewrite E.
  - intros q [E _]. cbn. by rewrite E.
  - intros q l1 r l2 [E Hnd]. destruct (distinct_app_remove _ _ _ Hnd) as [Hnd' Hr]. cbn. rewrite E.
    rewrite list_remove_ok by (rewrite fmap_app in Hr; set_solver). cbn. eauto.
  - intros q l rs [<- Hnd]. eexists. split; [reflexivity|]. split; [done|].
    eapply sublist_NoDup; [exact Hnd|]. apply fmap_sublist, drop_all_sublist.
  - by intros q l [<- _].
  - intros q l [<- _]. split; [done|]. cbn. by destruct (deque q).
Defined.

(** A heap holds its requests in the order of its draining. *)
Definition heap_rep (q : PriorityRequestQueue) (l : list Request) : Prop :=
  is_heap request_lt q.(_heap) ∧ l ≡ₚ q.(_heap) ∧ StronglySorted request_le l ∧ NoDup (py_id <$> l).

Lemma heap_rep_exists h : is_heap request_lt h → NoDup (py_id <$> h) → ∃ l, heap_rep (mkPriority h) l ∧ l ≡ₚ h.
Proof.
  intros Hh Hnd. destruct (heap_drain_ok request_lt request_le_trans request_lt_le (length h) h Hh)
    as (l & _ & Hp & Hs); [done|]. exists l. split; [|done]. split; [done|]. split; [done|]. split; [done|].
  by rewrite Hp.
Qed.

Lemma heap_add_ok q l r : heap_rep q l → py_id r ∉ py_id <$> l →
  ∃ q' l', heap_add r q = Ok q' ∧ heap_rep q' l' ∧ l' ≡ₚ r :: l.
Proof.
  intros (Hh & Hp & Hs & Hnd) Hr. unfold heap_add.
  destruct (heappush_ok request_lt request_le_trans request_lt_le _ r Hh) as (h' & -> & Hp' & Hh').
  unfold mbind; cbn [result_bind].
  assert (h' ≡ₚ r :: l) as Hperm by (by rewrite Hp', Hp).
  destruct (heap_rep_exists h' Hh') as (l' & Hrep & Hl'); [rewrite Hperm; by apply NoDup_cons|].
  exists (mkPriority h'), l'. split; [done|]. split; [done|]. by rewrite Hl'.
Qed.

Lemma sorted_sublist (l l' : list Request) : sublist l' l → StronglySorted request_le l → StronglySorted request_le l'.
Proof.
  induction 1 as [|x l1 l2 Hsub IH|x l1 l2 Hsub IH]; intros Hs; [constructor|..];
    apply StronglySorted_inv in Hs as [Hs Hf]; [|auto]. constructor; [auto|].
  rewrite Forall_forall in Hf |- *. intros y Hy. apply Hf. by eapply elem_of_sublist.
Qed.

(** A rebuilt heap over the remaining requests. *)
Lemma heapify_rep l' h0 l : StronglySorted request_le l → NoDup (py_id <$> l) → sublist l' l → h0 ≡ₚ l' →
  ∃ h, heapify request_lt h0 = Ok h ∧ heap_rep (mkPriority h) l'.
Proof.
  intros Hs Hnd Hsub Hp. destruct (heapify_ok request_lt request_le_trans request_lt_le h0) as (h & -> & Hph & Hh).
  exists h. split; [done|]. split; [done|]. split; [cbn; by rewrite Hph|]. split; [by eapply sorted_sublist|].
  eapply sublist_NoDup; [exact Hnd|]. by apply fmap_sublist.
Qed.

Lemma heap_rep_nil q : heap_rep q [] → q.(_heap) = [].
Proof. intros (_ & Hp & _). symmetry in Hp. by apply Permutation_nil_r in Hp. Qed.

#[export] Instance priority_spec : RequestQueueSpec PriorityRequestQueue.
Proof.
  refine {| rq_rep := heap_rep |}.
  - by intros q l (_ & _ & _ & ?).
  - split; [intros i _ _ a b Ha; done|]. split; [done|]. split; constructor.
  - intros q l r. apply heap_add_ok.
  - intros q l r. apply heap_add_ok.
  - intros q l rs. revert q l. induction rs as [|r rs IH]; intros q l Hq Hnd; [by exists q, l|].
    cbn in Hnd. apply NoDup_cons in Hnd as [Hr Hnd]. rewrite fmap_app in Hr.
    destruct (heap_add_ok q l r Hq) as (q1 & l1 & Eq & Hq1 & Hp1); [set_solver|].
    destruct (IH q1 l1 Hq1) as (q' & l' & E' & Hq' & Hp').
    { assert (rs ++ l1 ≡ₚ r :: rs ++ l) as -> by (by rewrite Hp1, <- Permutation_middle).
      cbn. apply NoDup_cons. split; [by rewrite fmap_app|done]. }
    exists q', l'. cbn [prepend_requests priority_ops foldM] in *. rewrite Eq. unfold mbind; cbn [result_bind].
    split; [done|]. split; [done|]. rewrite Hp', Hp1. by rewrite <- Permutation_middle.
  - intros q r l (Hh & Hp & Hs & Hnd). cbn.
    destruct (q.(_heap)) as [|r0 h0] eqn:Eh; [by apply Permutation_nil_r in Hp|]. rewrite <- Eh in *.
    destruct (heappop_ok request_lt request_le_trans request_lt_le _ Hh) as (x & h' & -> & Hp' & Hh' & Hmin); [by rewrite Eh|].
    unfold mbind; cbn [result_bind].
    destruct (heap_drain_ok request_lt request_le_trans request_lt_le (length h') h' Hh') as (l' & _ & Hpl & Hs'); [done|].
    assert (r :: l = x :: l') as [= -> ->].
    { apply sorted_unique; [done|by rewrite Hp, Hp', Hpl|done|]. constructor; [done|].
      rewrite Hpl. by apply Forall_forall. }
    exists (mkPriority h'). split; [done|]. split; [done|]. split; [done|]. split; [done|].
    by apply NoDup_cons in Hnd as [_ ?].
  - intros q Hr. cbn. by rewrite (heap_rep_nil q Hr).
  - intros q r l (Hh & Hp & Hs & Hnd). cbn.
    destruct (q.(_heap)) as [|r0 h0] eqn:Eh; [by apply Permutation_nil_r in Hp|]. f_equal.
    apply (distinct_inj (r :: l) r0 r Hnd); [rewrite Hp; by left|by left|].
    apply StronglySorted_inv in Hs as [_ Hf]. rewrite Forall_forall in Hf.
    assert (r ∈ r0 :: h0) as [i Hi]%list_elem_of_lookup by (rewrite <- Hp; by left).
    pose proof (root_least request_lt request_le_trans request_lt_le _ r0 i r Hh eq_refl Hi) as Hle.
    assert (r0 ∈ r :: l) as [->|Hin]%elem_of_cons by (rewrite Hp; by left); [done|].
    apply request_le_antisym; auto.
  - intros q Hr. cbn. by rewrite (heap_rep_nil q Hr).
  - intros q l1 r l2 (Hh & Hp & Hs & Hnd). cbn [remove_request priority_ops].
    assert (q.(_heap) ≡ₚ r :: l1 ++ l2) as Hp' by (by rewrite <- Hp, Permutation_middle).
    destruct (list_remove_perm r q.(_heap) (l1 ++ l2)) as (l'' & -> & Hp''); [by rewrite <- Hp|done|].
    unfold mbind at 1; cbn [result_bind].
    destruct (heapify_rep (l1 ++ l2) l'' (l1 ++ r :: l2) Hs Hnd) as (h & -> & Hrep); [|done|].
    + apply sublist_app; [done|]. by constructor.
    + unfold mbind; cbn [result_bind]. eauto.
  - intros q l rs (Hh & Hp & Hs & Hnd). cbn [remove_requests priority_ops].
    destruct (heapify_rep (drop_all rs l) (drop_all rs q.(_heap)) l Hs Hnd) as (h & -> & Hrep).
    + apply drop_all_sublist.
    + apply drop_all_perm. by rewrite Hp.
    + unfold mbind; cbn [result_bind]. eauto.
  - intros q l (Hh & Hp & Hs & Hnd). cbn [queue_iter priority_ops].
    destruct (heap_drain_ok request_lt request_le_trans request_lt_le (length q.(_heap)) _ Hh) as (l' & -> & Hpl & Hs'); [done|].
    f_equal. symmetry. apply sorted_unique; [done|by rewrite Hp, Hpl|done|done].
  - intros q l (Hh & Hp & Hs & Hnd). cbn. split; [by rewrite Hp|].
    destruct (q.(_heap)) as [|r0 h0] eqn:Eh.
    + apply Permutation_nil_r in Hp as ->. done.
    + symmetry. apply bool_decide_eq_true_2. intros ->. symmetry in Hp. by apply Permutation_nil_r in Hp.
Defined.

(** ** Claims *)

(** Popping until the queue is empty. *)
Fixpoint drain {Q} `{!RequestQueueOps Q} (fuel : nat) (q : Q) : result (list Request) :=
  if queue_bool q then
    match fuel with
    | O => Raise OutOfFuel
    | S fuel => '(r, q) ← pop_request q; l ← drain fuel q; Ok (r :: l)
    end
  else Ok [].

(** Under either policy the queue is emptied in iteration order.  For any
    implementation of the queue interface that satisfies its laws, repeatedly
    popping a queue of distinct requests returns them in exactly the order in
    which iterating over it yields them, and then the queue is empty. *)
Theorem pop_order_is_iteration_order {Q} `{!RequestQueueOps Q} `{!RequestQueueSpec Q} (q : Q) l
    (Hq : rq_rep q l) :
  queue_iter q = Ok l ∧ drain (length l) q = Ok l.
Proof.
  split; [by apply rq_iter|]. revert q Hq. induction l as [|r l IH]; intros q Hq; cbn [drain length].
  - destruct (rq_length _ _ Hq) as [_ ->]. done.
  - destruct (rq_length _ _ Hq) as [_ ->]. rewrite bool_decide_eq_true_2 by done.
    destruct (rq_pop _ _ _ Hq) as (q' & -> & Hq'). unfold mbind; cbn [result_bind]. by rewrite (IH q' Hq').
Qed.

(** C35: the priority queue implements a sorted sequence.  A heap built by the
    queue's operations over distinct requests represents them sorted by
    [Request.__lt__]: iterating yields that order, peeking and popping give its
    first, least request (and raise [IndexError] on an empty queue), adding
    inserts a request at its place, and removing one or several requests leaves
    the others in order. *)
Theorem priority_queue_spec (q : PriorityRequestQueue) l (Hq : rq_rep q l) :
  queue_iter q = Ok l ∧ StronglySorted request_le l ∧
  match l with
  | [] => pop_request q = Raise IndexError ∧ peek_request q = Raise IndexError
  | r :: l' => peek_request q = Ok r ∧ (∀ r', r' ∈ l' → request_lt r r' = true) ∧
      ∃ q', pop_request q = Ok (r, q') ∧ rq_rep q' l'
  end ∧
  (∀ r, py_id r ∉ py_id <$> l → ∃ q' l', add_request r q = Ok q' ∧ rq_rep q' l' ∧ l' ≡ₚ r :: l) ∧
  (∀ l1 r l2, l = l1 ++ r :: l2 → ∃ q', remove_request r q = Ok q' ∧ rq_rep q' (l1 ++ l2)) ∧
  (∀ rs, ∃ q', remove_requests rs q = Ok q' ∧ rq_rep q' (drop_all rs l)).
Proof.
  split; [by apply rq_iter|]. split; [apply Hq|]. split; [|split; [|split]].
  - destruct l as [|r l']; [by split; [apply rq_pop_empty|apply rq_peek_empty]|].
    split; [by eapply rq_peek|]. split; [|by apply rq_pop].
    intros r' Hr'. destruct Hq as (_ & _ & Hs & Hnd). apply StronglySorted_inv in Hs as [_ Hf].
    rewrite Forall_forall in Hf. specialize (Hf r' Hr'). apply request_le_iff in Hf as [|(_ & _ & _ & E)]; [done|].
    cbn in Hnd. apply NoDup_cons in Hnd as [Hx _]. destruct Hx. rewrite E. by apply list_elem_of_fmap_2.
  - intros r Hr. by apply rq_add.
  - intros l1 r l2 ->. by apply rq_remove.
  - intros rs. by apply rq_remove_all.
Qed.

(** ** Witnesses: three requests of different priority *)

Definition demo_waiting (id : nat) (prio : Z) : Request :=
  mkRequest "r" 0 prio 0 id None None None false WAITING None 0 None None ∅ 0 [] [] 0 0 0
    0 [] 0 None [] false 0 [] false false None None.
Definition demo_heap : PriorityRequestQueue :=
  mkPriority [demo_waiting 2 1; demo_waiting 1 5; demo_waiting 3 3].
Definition demo_order : list Request := [demo_waiting 2 1; demo_waiting 3 3; demo_waiting 1 5].

Lemma demo_heap_rep : rq_rep demo_heap demo_order.
Proof.
  split; [|split; [|split]].
  - intros [|[|[|i]]] Hi _ a b Ha Hb; cbn in *; try lia; try done; simplify_eq; reflexivity.
  - cbn. apply perm_skip, perm_swap.
  - repeat constructor.
  - cbn. repeat constructor; set_solver.
Qed.

Lemma priority_queue_spec_witness :
  queue_iter demo_heap = Ok demo_order ∧ peek_request demo_heap = Ok (demo_waiting 2 1).
Proof.
  destruct (priority_queue_spec demo_heap demo_order demo_heap_rep) as (H1 & _ & [H2 _] & _).
  split; [exact H1|exact H2].
Defined.

Lemma pop_order_is_iteration_order_witness : drain 3 demo_heap = Ok demo_order.
Proof. exact (proj2 (pop_order_is_iteration_order demo_heap demo_order demo_heap_rep)). Defined.
