(* ===== verification/SchedUtils.v ===== *)
(** * Scheduler utilities ([vllm/v1/core/sched/utils.py])

    Stop conditions of a request (end of sequence, stop tokens, length,
    repetition) and the removal of finished requests from a list.

    Correspondence.  A [for] loop with an early [return False] is [all_of].
    [remove_all] returns the value of the call together with the argument list
    as it is afterwards: with a single item the list is changed in place.
    [items_to_remove] is a set, given by its elements. *)

From S2P Require Import Prelude Request.

Local Open Scope Z_scope.

(** [for x in l: if not f(x): return False] followed by [return True] *)
Fixpoint all_of {A} (f : A → result bool) (l : list A) : result bool :=
  match l with
  | [] => Ok true
  | x :: l => b ← f x; if (b : bool) then all_of f l else Ok false
  end.

Definition _has_repeating_pattern (token_ids : list Z) (pattern_len repetition_min_count : Z)
    : result bool :=
  all_of (λ n,
    target_token ← py_get token_ids (- n);
    all_of (λ m,
      t ← py_get token_ids (- (pattern_len * m + n));
      Ok (t =? target_token)) (py_range 1 repetition_min_count))
    (py_range 1 (pattern_len + 1)).

(** The loop over the pattern lengths. *)
Fixpoint repetition_loop (token_ids : list Z) (min_count : Z) (lens : list Z) : result bool :=
  match lens with
  | [] => Ok false
  | pattern_len :: lens =>
      if pattern_len * min_count >? zlen token_ids then Ok false else
      b ← _has_repeating_pattern token_ids pattern_len min_count;
      if (b : bool) then Ok true else repetition_loop token_ids min_count lens
  end.

Definition check_sequence_repetition (token_ids : list Z) (params : RepetitionDetectionParams)
    : result bool :=
  let max_size := max_pattern_size params in
  let min_size := min_pattern_size params in
  let count := min_count params in
  let min_size := if min_size <=? 0 then 1 else min_size in
  if (max_size <=? 0) || (count <? 2) || (min_size >? max_size) then Ok false else
  repetition_loop token_ids count (py_range min_size (max_size + 1)).

(** [list.remove], with the [ValueError] suppressed *)
Fixpoint remove_first {A} (eqb : A → A → bool) (x : A) (l : list A) : list A :=
  match l with
  | [] => []
  | y :: l => if eqb x y then l else y :: remove_first eqb x l
  end.

Definition remove_all {A} (eqb : A → A → bool) (lst items_to_remove : list A) : list A * list A :=
  match items_to_remove with
  | [] => (lst, lst)
  | [item] => let l := remove_first eqb item lst in (l, l)
  | _ => (List.filter (λ x, negb (existsb (eqb x) items_to_remove)) lst, lst)
  end.

Definition check_stop (r : Request) (max_model_len : Z) : result (bool * Request) :=
  _ ← assert_ (bool_decide (pooling_params r = None));
  sp ← of_option AssertionError (sampling_params r);
  if num_output_tokens r <? sp_min_tokens sp then Ok (false, r) else
  last_token_id ← py_get (r.(_output_token_ids)) (-1);
  if bool_decide (sp_eos_token_id sp = Some last_token_id) then
    Ok (true, with_status FINISHED_STOPPED r)
  else if existsb (Z.eqb last_token_id) (sp_stop_token_ids sp) then
    Ok (true, with_stop_reason (Some (StopToken last_token_id)) (with_status FINISHED_STOPPED r))
  else if (num_tokens r >=? max_model_len) || (num_output_tokens r >=? max_tokens r) then
    Ok (true, with_status FINISHED_LENGTH_CAPPED r)
  else
    rep ← match sp_repetition_detection sp with
          | None => Ok false
          | Some params => check_sequence_repetition (r.(_output_token_ids)) params
          end;
    if (rep : bool) then
      Ok (true, with_stop_reason (Some (StopText "repetition_detected"))
                  (with_status FINISHED_REPETITION r))
    else Ok (false, r).

(** ** Facts: repeated patterns *)

Lemma all_of_ok {A} (f : A → result bool) (g : A → bool) l :
  (∀ x, x ∈ l → f x = Ok (g x)) → all_of f l = Ok (forallb g l).
Proof.
  induction l as [|x l IH]; intros H; cbn; [done|]. rewrite (H x) by (by left). unfold mbind; cbn [result_bind].
  destruct (g x); [|done]. apply IH. intros y Hy. apply H. by right.
Qed.

(** Counting from the end is indexing the reversed list. *)
Lemma py_get_end {A} (l : list A) (n : Z) :
  1 ≤ n ≤ zlen l → ∃ x, py_get l (- n) = Ok x ∧ reverse l !! Z.to_nat (n - 1) = Some x.
Proof.
  intros Hn. destruct (lookup_lt_is_Some_2 l (Z.to_nat (zlen l - n))) as [x Hx]; [lia|].
  exists x. split.
  - unfold py_get. rewrite !(proj2 (Z.ltb_lt (- n) 0)) by lia. rewrite (proj2 (Z.ltb_ge (zlen l + - n) 0)) by lia.
    replace (zlen l + - n) with (zlen l - n) by lia. by rewrite Hx.
  - rewrite reverse_lookup by lia. rewrite <- Hx. f_equal. lia.
Qed.

(** [reverse l] repeats its first [L] elements [c] times. *)
Definition periodic {A} (L c : nat) (R : list A) : Prop :=
  ∀ j m, (j < L)%nat → (m < c)%nat → R !! (L * m + j)%nat = R !! j.

Lemma periodic_concat {A} L c (R : list A) :
  (L * c ≤ length R)%nat → periodic L c R ↔ take (L * c) R = concat (replicate c (take L R)).
Proof.
  intros Hl. split.
  - intros HP. induction c as [|c IH]; [by rewrite Nat.mul_0_r|].
    rewrite replicate_S_end, concat_app. cbn. rewrite app_nil_r, <- IH;
      [|lia|intros j m Hj Hm; apply HP; lia].
    replace (L * S c)%nat with (L * c + L)%nat by lia. rewrite <- take_take_drop. f_equal.
    apply list_eq. intros j. destruct (decide (j < L)%nat) as [Hj|Hj].
    + rewrite !lookup_take_lt by done. rewrite lookup_drop. apply HP; lia.
    + rewrite !lookup_take_ge by lia. done.
  - intros E j m Hj Hm. transitivity (take (L * c) R !! (L * m + j)%nat); [rewrite lookup_take_lt by nia; done|].
    rewrite E. clear E. revert m Hm. induction c as [|c IH]; intros m Hm; [lia|].
    cbn [replicate concat]. destruct m as [|m].
    + rewrite Nat.mul_0_r. cbn. rewrite lookup_app_l by (rewrite length_take; lia). by rewrite lookup_take_lt.
    + rewrite lookup_app_r by (rewrite length_take; lia). rewrite length_take.
      replace (L * S m + j - L `min` length R)%nat with (L * m + j)%nat by lia. apply IH; lia.
Qed.

Lemma reverse_concat_replicate {A} c (q : list A) :
  reverse (concat (replicate c q)) = concat (replicate c (reverse q)).
Proof.
  induction c as [|c IH]; [done|]. rewrite replicate_S_end at 1. rewrite concat_app, reverse_app. cbn.
  by rewrite app_nil_r, IH.
Qed.

(** The list ends with [c] copies of a pattern of length [L]. *)
Definition ends_repeating (L : Z) (c : Z) (ids : list Z) : Prop :=
  ∃ pre pat, zlen pat = L ∧ ids = pre ++ concat (replicate (Z.to_nat c) pat).

Lemma length_concat_replicate {A} c (q : list A) : length (concat (replicate c q)) = (c * length q)%nat.
Proof. induction c as [|c IH]; [done|]. cbn. rewrite length_app, IH. lia. Qed.

Lemma ends_periodic L c ids :
  0 < L → 0 < c → L * c ≤ zlen ids →
  ends_repeating L c ids ↔ periodic (Z.to_nat L) (Z.to_nat c) (reverse ids).
Proof.
  intros HL Hc Hl. rewrite periodic_concat by (rewrite length_reverse; nia). split.
  - intros (pre & pat & Hp & ->). rewrite reverse_app, reverse_concat_replicate.
    assert (length (concat (replicate (Z.to_nat c) (reverse pat))) = (Z.to_nat L * Z.to_nat c)%nat) as Hlen
      by (rewrite length_concat_replicate, length_reverse; lia).
    rewrite take_app_le by lia. rewrite take_ge by lia.
    destruct (Z.to_nat c) as [|c'] eqn:Ec; [done|]. cbn [replicate concat].
    rewrite <- app_assoc, take_app_le by (rewrite length_reverse; lia).
    rewrite (take_ge (reverse pat)) by (rewrite length_reverse; lia). done.
  - intros E. exists (take (Z.to_nat (zlen ids - L * c)) ids), (reverse (take (Z.to_nat L) (reverse ids))).
    assert (L ≤ L * c) by nia. split; [rewrite length_reverse, length_take, length_reverse; lia|].
    rewrite <- reverse_concat_replicate, <- E, reverse_take, reverse_involutive.
    rewrite <- (take_drop (Z.to_nat (zlen ids - L * c)) ids) at 1. f_equal. f_equal. rewrite length_reverse. nia.
Qed.

Lemma forallb_py_range (g : Z → bool) a b :
  forallb g (py_range a b) = true ↔ ∀ x, a ≤ x < b → g x = true.
Proof.
  rewrite forallb_forall. unfold py_range. split; intros H x Hx.
  - apply H. apply list_elem_of_In, elem_of_seqZ. lia.
  - apply H. apply list_elem_of_In, elem_of_seqZ in Hx. lia.
Qed.

Lemma has_pattern_ok ids L c :
  0 < L → 0 < c → L * c ≤ zlen ids →
  ∃ b, _has_repeating_pattern ids L c = Ok b ∧ (b = true ↔ ends_repeating L c ids).
Proof.
  intros HL Hc Hlen. set (R := reverse ids). set (at_ n := default 0 (R !! Z.to_nat (n - 1))).
  assert (∀ n, 1 ≤ n ≤ zlen ids → py_get ids (- n) = Ok (at_ n)) as Hat.
  { intros n Hn. destruct (py_get_end ids n Hn) as (x & -> & Hx). unfold at_, R. by rewrite Hx. }
  unfold _has_repeating_pattern.
  rewrite (all_of_ok _ (λ n, forallb (λ m, at_ (L * m + n) =? at_ n) (py_range 1 c))); cycle 1.
  { intros n Hn. unfold py_range in Hn. apply elem_of_seqZ in Hn. rewrite Hat by nia.
    unfold mbind; cbn [result_bind]. apply all_of_ok. intros m Hm. unfold py_range in Hm. apply elem_of_seqZ in Hm.
    by rewrite Hat by nia. }
  eexists. split; [reflexivity|]. rewrite ends_periodic by done. rewrite forallb_py_range. fold R.
  assert (∀ i, (i < length ids)%nat → R !! i = Some (at_ (Z.of_nat i + 1))) as Hlook.
  { intros i Hi. destruct (lookup_lt_is_Some_2 R i) as [x Hx]; [unfold R; by rewrite length_reverse|].
    unfold at_. replace (Z.to_nat (Z.of_nat i + 1 - 1)) with i by lia. by rewrite Hx. }
  split.
  - intros H j m Hj Hm. destruct m as [|m]; [by rewrite Nat.mul_0_r|].
    assert (L * (Z.of_nat m + 1) + Z.of_nat j + 1 ≤ L * c) as Hb by nia.
    specialize (H (Z.of_nat j + 1) ltac:(lia)). rewrite forallb_py_range in H.
    specialize (H (Z.of_nat m + 1) ltac:(lia)). zbool.
    rewrite !Hlook by nia. f_equal. rewrite <- H. f_equal. nia.
  - intros HP n Hn. apply forallb_py_range. intros m Hm. apply Z.eqb_eq.
    assert (L * m + n ≤ L * c) as Hb by nia.
    specialize (HP (Z.to_nat (n - 1)) (Z.to_nat m) ltac:(lia) ltac:(lia)).
    rewrite !Hlook in HP by nia. injection HP as HP. replace (L * m + n) with
      (Z.of_nat (Z.to_nat L * Z.to_nat m + Z.to_nat (n - 1)) + 1) by nia.
    rewrite HP. f_equal. lia.
Qed.

Lemma ends_repeating_len L c ids : 0 < c → ends_repeating L c ids → L * c ≤ zlen ids.
Proof.
  intros Hc (pre & pat & Hp & ->). rewrite length_app, length_concat_replicate. nia.
Qed.

(** The loop over increasing lengths finds a repetition if there is one. *)
Lemma repetition_loop_ok ids c lo n :
  0 < lo → 0 < c →
  ∃ b, repetition_loop ids c (seqZ lo n) = Ok b ∧
    (b = true ↔ ∃ L, lo ≤ L < lo + n ∧ ends_repeating L c ids).
Proof.
  intros Hlo Hc. destruct (decide (n ≤ 0)) as [Hn|Hn].
  { rewrite seqZ_nil by lia. exists false. split; [done|]. split; [done|]. intros (L & HL & _). lia. }
  replace n with (Z.of_nat (Z.to_nat n)) by lia. generalize (Z.to_nat n) as k. clear Hn. intros k.
  revert lo Hlo. induction k as [|k IH]; intros lo Hlo.
  { exists false. split; [done|]. split; [done|]. intros (L & HL & _). lia. }
  rewrite seqZ_cons by lia. cbn [repetition_loop]. rewrite Z.gtb_ltb.
  destruct (Z.ltb_spec (zlen ids) (lo * c)) as [Hlt|Hge].
  { exists false. split; [done|]. split; [done|]. intros (L & HL & He). apply ends_repeating_len in He; [nia|done]. }
  destruct (has_pattern_ok ids lo c Hlo Hc Hge) as (b & -> & Hb). unfold mbind; cbn [result_bind].
  destruct b.
  { exists true. split; [done|]. split; [|done]. intros _. exists lo. split; [lia|by apply Hb]. }
  destruct (IH (Z.succ lo)) as (b' & E & Hb'); [lia|].
  replace (Z.pred (Z.of_nat (S k))) with (Z.of_nat k) by lia. exists b'. split; [done|]. rewrite Hb'. split.
  - intros (L & HL & He). exists L. split; [lia|done].
  - intros (L & HL & He). exists L. destruct (decide (L = lo)) as [->|Hne]; [|split; [lia|done]].
    apply Hb in He. discriminate.
Qed.

Lemma check_sequence_ok (ids : list Z) (params : RepetitionDetectionParams) :
  ∃ b, check_sequence_repetition ids params = Ok b ∧
    (b = true ↔ 2 ≤ min_count params ∧
       ∃ L, 1 ≤ L ∧ min_pattern_size params ≤ L ≤ max_pattern_size params ∧
         ends_repeating L (min_count params) ids).
Proof.
  unfold check_sequence_repetition. destruct params as [hi lo c]; cbn.
  set (lo' := if lo <=? 0 then 1 else lo).
  assert (lo' = Z.max 1 lo) as El by (unfold lo'; destruct (Z.leb_spec lo 0); lia).
  destruct ((hi <=? 0) || (c <? 2) || (lo' >? hi)) eqn:Eg.
  { exists false. split; [done|]. split; [done|]. intros (Hc & L & HL & Hr & _).
    rewrite !orb_true_iff, Z.gtb_ltb, Z.leb_le, !Z.ltb_lt in Eg. lia. }
  rewrite !orb_false_iff, Z.gtb_ltb in Eg. destruct Eg as [[E1 E2] E3]. zbool.
  destruct (repetition_loop_ok ids c lo' (hi + 1 - lo')) as (b & E & Hb); [lia|lia|].
  exists b. split; [exact E|]. rewrite Hb. split.
  - intros (L & HL & He). split; [lia|]. exists L. split; [lia|]. split; [lia|done].
  - intros (_ & L & HL & Hr & He). exists L. split; [lia|done].
Qed.

(** C38: repetition detection is exact.  [check_sequence_repetition] always
    returns; it answers yes exactly when detection is enabled (at least two
    repetitions of a pattern of positive size) and the generated tokens end
    with [min_count] copies of some pattern whose length lies between the
    configured bounds (a minimum of zero or less counts as one). *)
Theorem check_sequence_repetition_exact (ids : list Z) (params : RepetitionDetectionParams) :
  ∃ b, check_sequence_repetition ids params = Ok b ∧
    (b = true ↔ 2 ≤ min_count params ∧
       ∃ L, 1 ≤ L ∧ min_pattern_size params ≤ L ≤ max_pattern_size params ∧
         ends_repeating L (min_count params) ids).
Proof. apply check_sequence_ok. Qed.

(** ** Facts: removal and stopping *)

Lemma remove_all_filter {A} (eqb : A → A → bool) (lst items : list A) :
  (∀ x y, eqb x y = true ↔ x = y) → NoDup lst →
  (remove_all eqb lst items).1 = List.filter (λ x, negb (existsb (eqb x) items)) lst.
Proof.
  intros Heq Hnd. destruct items as [|x [|y items]]; cbn.
  - symmetry. clear Hnd. induction lst as [|z lst IH]; cbn; [done|]. by rewrite IH.
  - induction Hnd as [|z lst Hz Hnd IH]; cbn; [done|].
    rewrite orb_false_r. destruct (eqb x z) eqn:E.
    + apply Heq in E as ->. rewrite (proj2 (Heq z z) eq_refl). cbn. clear IH Hnd.
      induction lst as [|w lst IH]; cbn; [done|]. apply not_elem_of_cons in Hz as [Hne Hz].
      rewrite orb_false_r. destruct (eqb w z) eqn:E; [apply Heq in E; congruence|]. cbn. f_equal. by apply IH.
    + destruct (eqb z x) eqn:E2; [apply Heq in E2 as ->; by rewrite (proj2 (Heq x x) eq_refl) in E|].
      cbn. by rewrite IH.
  - done.
Qed.

(** removing requests from a list of distinct requests keeps exactly the
    others, in order, whether the fast path for one item or the general path
    is taken; the argument list itself changes on the fast path only. *)
Theorem remove_all_spec {A} (eqb : A → A → bool) (lst items : list A)
    (Heq : ∀ x y, eqb x y = true ↔ x = y) (Hnd : NoDup lst) :
  (remove_all eqb lst items).1 = List.filter (λ x, negb (existsb (eqb x) items)) lst ∧
  (remove_all eqb lst items).2 = (if decide (length items = 1%nat) then (remove_all eqb lst items).1 else lst).
Proof.
  split; [by apply remove_all_filter|]. by destruct items as [|x [|y items]].
Qed.

Lemma check_stop_ok (r : Request) (sp : SamplingParams) (max_model_len t : Z)
    (Hpool : pooling_params r = None) (Hsp : sampling_params r = Some sp)
    (Hlast : last (r.(_output_token_ids)) = Some t) :
  let enough := sp_min_tokens sp ≤ num_output_tokens r in
  let token := sp_eos_token_id sp = Some t ∨ t ∈ sp_stop_token_ids sp in
  let full := max_model_len ≤ num_tokens r ∨ max_tokens r ≤ num_output_tokens r in
  let repeats := ∃ params, sp_repetition_detection sp = Some params ∧
    check_sequence_repetition (r.(_output_token_ids)) params = Ok true in
  ∃ stop r', check_stop r max_model_len = Ok (stop, r') ∧
    (stop = true ↔ enough ∧ (token ∨ full ∨ repeats)) ∧
    (stop = false → r' = r) ∧
    (stop = true → is_finished r' = true ∧ (∃ st sr, r' = with_stop_reason sr (with_status st r)) ∧
       (status r' = FINISHED_STOPPED ↔ token) ∧
       (status r' = FINISHED_LENGTH_CAPPED ↔ ¬ token ∧ full) ∧
       (status r' = FINISHED_REPETITION ↔ ¬ token ∧ ¬ full ∧ repeats)).
Proof.
  intros enough token full repeats. unfold check_stop. rewrite bool_decide_eq_true_2 by done. cbn [require].
  unfold mbind at 1; cbn [result_bind]. rewrite Hsp. cbn [of_option]. unfold mbind at 1; cbn [result_bind].
  destruct (Z.ltb_spec (num_output_tokens r) (sp_min_tokens sp)) as [Hmin|Hmin].
  { exists false, r. split; [done|]. split; [split; [done|unfold enough; lia]|done]. }
  assert (py_get (r.(_output_token_ids)) (-1) = Ok t) as ->.
  { destruct (py_get_end (r.(_output_token_ids)) 1) as (x & E & Hx).
    - destruct (r.(_output_token_ids)); [done|]. cbn. lia.
    - change (-1) with (- (1)). rewrite E. f_equal. rewrite <- head_lookup, head_reverse in Hx. congruence. }
  unfold mbind at 1; cbn [result_bind].
  assert (existsb (Z.eqb t) (sp_stop_token_ids sp) = bool_decide (t ∈ sp_stop_token_ids sp)) as ->.
  { apply eq_bool_prop_intro. rewrite bool_decide_spec, Is_true_true, existsb_exists. split.
    - intros (x & Hx & ->%Z.eqb_eq). by apply list_elem_of_In.
    - intros Hx. exists t. split; [by apply list_elem_of_In|apply Z.eqb_refl]. }
  assert (((num_tokens r >=? max_model_len) || (num_output_tokens r >=? max_tokens r)) = true ↔ full) as Hfull.
  { rewrite orb_true_iff, !Z.geb_leb, !Z.leb_le. done. }
  assert (∃ rep, match sp_repetition_detection sp with
                 | None => Ok false
                 | Some params => check_sequence_repetition (r.(_output_token_ids)) params
                 end = Ok rep ∧ (rep = true ↔ repeats)) as (rep & -> & Hrep).
  { unfold repeats. destruct (sp_repetition_detection sp) as [params|].
    - destruct (check_sequence_ok (r.(_output_token_ids)) params) as (b & E & _). rewrite E.
      exists b. split; [done|]. split; [intros ->; by exists params|]. intros (q & [= <-] & E'). congruence.
    - exists false. split; [done|]. split; [done|]. by intros (q & ? & _). }
  destruct (bool_decide_reflect (sp_eos_token_id sp = Some t)) as [Heos|Heos];
    [|destruct (bool_decide_reflect (t ∈ sp_stop_token_ids sp)) as [Hst|Hst];
      [|destruct (_ || _) eqn:Ef; [|unfold mbind; cbn [result_bind]; destruct rep]]].
  all: eexists _, _; split; [reflexivity|].
  all: (split; [unfold token, enough; intuition congruence|]; split; [done|]).
  all: try done; intros _; cbn; unfold token.
  all: (split; [done|]; split; [first [by eexists _, _|eexists _, (stop_reason r); by destruct r]|split; [|split]]).
  all: try (rewrite <- Hfull; clear Hfull); try (rewrite <- Hrep; clear Hrep); intuition congruence.
Qed.

(** C37: the stop check stops exactly when it should, for a stated reason.
    For a generating request with at least one output token the call returns;
    a request that does not stop is unchanged; one that stops gets a finished
    status; it never stops before [min_tokens] outputs and, from then on,
    always stops at the maximum model length or at [max_tokens]; and the status
    is [FINISHED_STOPPED] exactly for an end-of-sequence or stop token, which
    take precedence over the length limits, which take precedence over
    repetition. *)
Theorem check_stop_spec (r : Request) (sp : SamplingParams) (max_model_len t : Z)
    (Hpool : pooling_params r = None) (Hsp : sampling_params r = Some sp)
    (Hlast : last (r.(_output_token_ids)) = Some t) :
  let enough := sp_min_tokens sp ≤ num_output_tokens r in
  let token := sp_eos_token_id sp = Some t ∨ t ∈ sp_stop_token_ids sp in
  let full := max_model_len ≤ num_tokens r ∨ max_tokens r ≤ num_output_tokens r in
  let repeats := ∃ params, sp_repetition_detection sp = Some params ∧
    check_sequence_repetition (r.(_output_token_ids)) params = Ok true in
  ∃ stop r', check_stop r max_model_len = Ok (stop, r') ∧
    (stop = true ↔ enough ∧ (token ∨ full ∨ repeats)) ∧
    (stop = false → r' = r) ∧
    (stop = true → is_finished r' = true ∧ (∃ st sr, r' = with_stop_reason sr (with_status st r)) ∧
       (status r' = FINISHED_STOPPED ↔ token) ∧
       (status r' = FINISHED_LENGTH_CAPPED ↔ ¬ token ∧ full) ∧
       (status r' = FINISHED_REPETITION ↔ ¬ token ∧ ¬ full ∧ repeats)).
Proof. by apply check_stop_ok. Qed.

(** ** Witnesses *)

Lemma remove_all_spec_witness :
  remove_all Nat.eqb [1; 2; 3]%nat [2%nat] = ([1; 3]%nat, [1; 3]%nat) ∧
  (remove_all Nat.eqb [1; 2; 3]%nat [2%nat]).1 = List.filter (λ x, negb (existsb (Nat.eqb x) [2%nat])) [1; 2; 3]%nat.
Proof.
  split; [reflexivity|].
  destruct (remove_all_spec Nat.eqb [1; 2; 3]%nat [2%nat] Nat.eqb_eq) as [H _]; [|exact H].
  repeat constructor; set_solver.
Defined.

(** A request that has generated the tokens 7, 8, 7, 8. *)
Definition demo_generating : Request :=
  mkRequest "r" 0 0 0 0 (Some (mkSampling (Some 8) 0 None [] (Some (mkRepetition 2 1 2)) None)) None None false
    RUNNING None 8 None None ∅ 1 [7; 8; 7; 8] [5; 7; 8; 7; 8] 0 0 0 0 [] 0 None [] false 0 [] false false None None.

Lemma check_stop_spec_witness :
  ∃ r', check_stop demo_generating 100 = Ok (true, r') ∧ status r' = FINISHED_REPETITION ∧ is_finished r' = true.
Proof.
  destruct (check_stop_spec demo_generating (mkSampling (Some 8) 0 None [] (Some (mkRepetition 2 1 2)) None) 100 8
              eq_refl eq_refl eq_refl) as (stop & r' & E & _ & _ & H).
  assert (stop = true) as -> by (vm_compute in E; injection E as <- _; reflexivity).
  exists r'. split; [exact E|]. split; [|apply (H eq_refl)].
  vm_compute in E. injection E as <-. reflexivity.
Defined.
