(* ===== verification/SchedState.v ===== *)
(** * The state of the scheduler ([vllm/v1/core/sched/scheduler.py])

    The attributes of [Scheduler], the configuration values it reads, the data
    it exchanges with the workers ([sched/output.py]), and the external
    components it calls.

    Correspondence.  Request objects are shared by the dictionary of requests,
    the list of running requests, the waiting queues and the sets of the
    scheduler, and they are mutated through all of them.  The objects are
    therefore kept in one store, [objects], indexed by their identity [py_id],
    and everything else holds references.  The entries of the waiting queues
    are the requests as they were queued: a queue looks only at the identity of
    its entries and at the attributes [__lt__] compares, and the request itself
    is read from the store when an entry is taken out.  Of the attributes that
    [__lt__] compares only [arrival_time] is ever assigned to a queued request;
    that assignment is made visible in the queues by [queue_alias].

    The KV connector, the encoder cache connector and the structured output
    manager wrap code outside the repository (transfer libraries and grammar
    engines).  They are type classes over an opaque state; a connector that is
    not configured is [None].  Metadata that a connector prepares for its
    workers is not represented.  Left out are logging, request events,
    log probabilities, routed-expert capturing and performance statistics. *)

From S2P Require Import Prelude MathUtils Request BlockHash KVMetrics FreeQueue BlockPool.
From S2P Require Import SingleTypeManager Coordinator CacheStats KVCacheManager EncoderCache.
From S2P Require Import Heapq RequestQueue SchedUtils PyDict.

Local Open Scope Z_scope.

(** ** Waiting queues see their entries through references *)

Class QueueAlias (WQ : Type) := queue_alias : Request → WQ → WQ.
Definition alias_entry (r x : Request) : Request := if same_object x r then r else x.
#[export] Instance fcfs_alias : QueueAlias FCFSRequestQueue := λ r q,
  mkFCFS (alias_entry r <$> RequestQueue.deque q).
#[export] Instance priority_alias : QueueAlias PriorityRequestQueue := λ r q,
  mkPriority (alias_entry r <$> q.(_heap)).

(** ** Encoder caches: the two classes behind one attribute *)

Inductive encoder_cache :=
  | EncCache (e : EncoderCacheManager)
  | EncDecCache (ed : EncoderDecoderCacheManager).

Definition enc_check_and_update (r : Request) (i : Z) (c : encoder_cache)
    : result (bool * encoder_cache) :=
  match c with
  | EncCache e => '(b, e) ← check_and_update_cache r i e; Ok (b, EncCache e)
  | EncDecCache ed => Ok (ed_check_and_update_cache r i ed, c)
  end.
Definition enc_can_allocate (r : Request) (i budget to_schedule : Z) (c : encoder_cache)
    : result (bool * encoder_cache) :=
  match c with
  | EncCache e => '(b, e) ← can_allocate r i budget to_schedule e; Ok (b, EncCache e)
  | EncDecCache ed => b ← ed_can_allocate r i budget to_schedule ed; Ok (b, c)
  end.
Definition enc_allocate (r : Request) (i : Z) (c : encoder_cache) : result encoder_cache :=
  match c with
  | EncCache e => e ← EncoderCache.allocate r i e; Ok (EncCache e)
  | EncDecCache ed => ed ← ed_allocate r i ed; Ok (EncDecCache ed)
  end.
Definition enc_free (r : Request) (c : encoder_cache) : result encoder_cache :=
  match c with
  | EncCache e => e ← EncoderCache.free r e; Ok (EncCache e)
  | EncDecCache ed => ed ← ed_free r ed; Ok (EncDecCache ed)
  end.
Definition enc_free_encoder_input (r : Request) (i : Z) (c : encoder_cache) : result encoder_cache :=
  match c with
  | EncCache e => e ← free_encoder_input r i e; Ok (EncCache e)
  | EncDecCache ed => ed ← ed_free_encoder_input r i ed; Ok (EncDecCache ed)
  end.
Definition enc_get_cached_input_ids (r : Request) (c : encoder_cache) : list Z :=
  match c with
  | EncCache e => elements (get_cached_input_ids r e)
  | EncDecCache _ => ed_get_cached_input_ids r
  end.
Definition enc_get_freed_mm_hashes (c : encoder_cache) : list string * encoder_cache :=
  match c with
  | EncCache e => let '(l, e) := get_freed_mm_hashes e in (l, EncCache e)
  | EncDecCache ed => let '(l, ed) := ed_get_freed_mm_hashes ed in (l, EncDecCache ed)
  end.
Definition enc_reset (c : encoder_cache) : encoder_cache :=
  match c with
  | EncCache e => EncCache (EncoderCache.reset e)
  | EncDecCache ed => EncDecCache (ed_reset ed)
  end.

(** ** Data for the workers ([sched/output.py]) *)

(** [NewRequestData]; the parameters that are passed through unchanged stay
    in the request. *)
Record NewRequestData := mkNewRequestData {
  nr_req_id : string;
  nr_prompt_token_ids : option (list Z);
  nr_mm_features : list MultiModalFeatureSpec;
  nr_block_ids : list (list nat);
  nr_num_computed_tokens : Z;
  nr_lora_request : option LoRARequest;
  nr_prefill_token_ids : option (list Z);
}.
Definition NewRequestData_from_request (r : Request) (block_ids : list (list nat))
    (prefill_token_ids : option (list Z)) : NewRequestData :=
  mkNewRequestData (request_id r) (prompt_token_ids r) (mm_features r) block_ids
    (num_computed_tokens r) (lora_request r) prefill_token_ids.

Record CachedRequestData := mkCachedRequestData {
  cr_req_ids : list string;
  cr_resumed_req_ids : gset string;
  cr_new_token_ids : list (list Z);
  cr_all_token_ids : dict (list Z);
  cr_new_block_ids : list (option (list (list nat)));
  cr_num_computed_tokens : list Z;
  cr_num_output_tokens : list Z;
}.

Record SchedulerOutput := mkSchedulerOutput {
  scheduled_new_reqs : list NewRequestData;
  scheduled_cached_reqs : CachedRequestData;
  num_scheduled_tokens : dict Z;
  total_num_scheduled_tokens : Z;
  scheduled_spec_decode_tokens : dict (list Z);
  scheduled_encoder_inputs : dict (list Z);
  num_common_prefix_blocks : list Z;
  out_preempted_req_ids : gset string;
  out_finished_req_ids : gset string;
  free_encoder_mm_hashes : list string;
  new_block_ids_to_zero : option (list nat);
  num_spec_tokens_to_schedule : Z;
  has_structured_output_requests : bool;
  pending_structured_output_tokens : bool;
  num_invalid_spec_tokens : option (dict Z);
}.

(** What the workers return ([vllm/v1/outputs.py]). *)
Record KVConnectorOutput := mkKVConnectorOutput {
  finished_sending : list string;
  finished_recving : list string;
  invalid_block_ids : gset nat;
}.
Record ModelRunnerOutput := mkModelRunnerOutput {
  req_id_to_index : gmap string Z;
  sampled_token_ids : list (list Z);
  prompt_logprobs : gset string;
  pooler_output : list (option bytes);
  kv_connector_output : option KVConnectorOutput;
}.
Record DraftTokenIds := mkDraftTokenIds {
  draft_req_ids : list string;
  draft_token_ids : list (list Z);
}.
Record EngineCoreOutput := mkEngineCoreOutput {
  eo_request_id : string;
  eo_new_token_ids : list Z;
  eo_finish_reason : option FinishReason;
  eo_pooling_output : option bytes;
  eo_stop_reason : option StopReason;
  eo_prefill_stats : option PrefillStats;
  eo_kv_transfer_params : option string;
}.

(** ** External components *)

(** The scheduler side of a KV connector. *)
Class KVConnector (C : Type) := {
  get_num_new_matched_tokens : Request → Z → C → option Z * bool * C;
  update_state_after_alloc : Request → KVCacheBlocks → Z → C → C;
  on_new_request : Request → C → C;
  supports_hma : C → bool;
  request_finished : Request → list nat → C → bool * option string * C;
  request_finished_all_groups : Request → list (list nat) → C → bool * option string * C;
  update_connector_output : KVConnectorOutput → C → C;
  build_connector_meta : SchedulerOutput → C → C;
  connector_take_events : C → list KVCacheEvent * C;
  reset_cache : C → option bool * C;
  has_pending_push_work : C → bool;
}.

(** The scheduler side of an encoder cache connector. *)
Class ECConnector (E : Type) := {
  ensure_cache_available : Request → Z → E → bool * E;
  has_cache_item : string → E → bool;
  ec_update_state_after_alloc : Request → Z → E → E;
  ec_build_connector_meta : SchedulerOutput → E → E;
}.

(** The structured output manager with the grammars of all requests. *)
Class StructuredOutput (G : Type) := {
  grammar_ready : Request → G → bool;
  should_advance : Request → G → bool * G;
  trim_reasoning_for_advance : Request → list Z → G → list Z;
  accept_tokens : string → list Z → G → bool * G;
  validate_tokens : string → list Z → G → list Z;
  grammar_bitmask : list string → dict (list Z) → G → bytes;
}.

(** ** Configuration *)

Inductive PauseState := UNPAUSED | PAUSED_NEW | PAUSED_ALL.
#[export] Instance pause_state_eq_dec : EqDecision PauseState.
Proof. solve_decision. Defined.
#[export] Instance policy_eq_dec : EqDecision SchedulingPolicy.
Proof. solve_decision. Defined.

Record SchedulerConfig := mkSchedulerConfig {
  policy : SchedulingPolicy;
  max_num_running_reqs : Z;
  max_num_scheduled_tokens : Z;
  sched_max_model_len : Z;
  long_prefill_token_threshold : Z;
  enable_chunked_prefill : bool;
  disable_chunked_mm_input : bool;
  scheduler_reserve_full_isl : bool;
  max_num_encoder_input_tokens : Z;
  is_encoder_decoder : bool;
  num_sampled_tokens_per_step : Z;
  num_spec_tokens : Z;
  num_lookahead_tokens : Z;
  dynamic_sd_lookup : option (list Z);
  sched_use_eagle : bool;
  max_loras : option Z;
  sched_block_size : Z;
  cache_config_block_size : Z;
  sched_has_mamba_layers : bool;
  need_mamba_block_aligned_split : bool;
  sched_needs_kv_cache_zeroing : bool;
  use_v2_model_runner : bool;
  pp_size : Z;
  async_scheduling : bool;
  defer_block_free : bool;
  recompute_kv_load_failures : bool;
  sched_log_stats : bool;
  num_groups : nat;
  block_hasher : block_hasher_t;
}.

(** ** State *)

Record Scheduler (Q WQ C E G : Type) := mkScheduler {
  objects : gmap nat Request;
  requests : dict nat;
  waiting : WQ;
  skipped_waiting : WQ;
  running : list nat;
  finished_req_ids : gset string;
  finished_req_ids_dict : option (gmap Z (gset string));
  prev_step_scheduled_req_ids : gset string;
  reset_preempted_req_ids : gset string;
  num_waiting_for_streaming_input : Z;
  finished_recving_kv_req_ids : gset string;
  failed_recving_kv_req_ids : gset string;
  encoder_cache_manager : encoder_cache;
  kv_cache_manager : KVCacheManager Q;
  connector : option C;
  connector_prefix_cache_stats : option PrefixCacheStats;
  ec_connector : option E;
  structured_output_manager : G;
  current_step : Z;
  prefill_capacity_bound : bool;
  sched_step_seq : Z;
  processed_step_seq : Z;
  deferred_frees : list (Z * list nat);
  _pause_state : PauseState;
  _inflight_prefills : gset nat;
  _spec_token_placeholders : list Z;
}.
Arguments mkScheduler {Q} {WQ} {C} {E} {G}.
Arguments objects {Q} {WQ} {C} {E} {G}.
Arguments requests {Q} {WQ} {C} {E} {G}.
Arguments waiting {Q} {WQ} {C} {E} {G}.
Arguments skipped_waiting {Q} {WQ} {C} {E} {G}.
Arguments running {Q} {WQ} {C} {E} {G}.
Arguments finished_req_ids {Q} {WQ} {C} {E} {G}.
Arguments finished_req_ids_dict {Q} {WQ} {C} {E} {G}.
Arguments prev_step_scheduled_req_ids {Q} {WQ} {C} {E} {G}.
Arguments reset_preempted_req_ids {Q} {WQ} {C} {E} {G}.
Arguments num_waiting_for_streaming_input {Q} {WQ} {C} {E} {G}.
Arguments finished_recving_kv_req_ids {Q} {WQ} {C} {E} {G}.
Arguments failed_recving_kv_req_ids {Q} {WQ} {C} {E} {G}.
Arguments encoder_cache_manager {Q} {WQ} {C} {E} {G}.
Arguments kv_cache_manager {Q} {WQ} {C} {E} {G}.
Arguments connector {Q} {WQ} {C} {E} {G}.
Arguments connector_prefix_cache_stats {Q} {WQ} {C} {E} {G}.
Arguments ec_connector {Q} {WQ} {C} {E} {G}.
Arguments structured_output_manager {Q} {WQ} {C} {E} {G}.
Arguments current_step {Q} {WQ} {C} {E} {G}.
Arguments prefill_capacity_bound {Q} {WQ} {C} {E} {G}.
Arguments sched_step_seq {Q} {WQ} {C} {E} {G}.
Arguments processed_step_seq {Q} {WQ} {C} {E} {G}.
Arguments deferred_frees {Q} {WQ} {C} {E} {G}.
Arguments _pause_state {Q} {WQ} {C} {E} {G}.
Arguments _inflight_prefills {Q} {WQ} {C} {E} {G}.
Arguments _spec_token_placeholders {Q} {WQ} {C} {E} {G}.

(** Attribute assignments. *)
Definition set_objects {Q WQ C E G} (x : gmap nat Request) (s : Scheduler Q WQ C E G) : Scheduler Q WQ C E G :=
  mkScheduler x (s.(requests)) (s.(waiting)) (s.(skipped_waiting)) (s.(running))
    (s.(finished_req_ids)) (s.(finished_req_ids_dict)) (s.(prev_step_scheduled_req_ids))
    (s.(reset_preempted_req_ids)) (s.(num_waiting_for_streaming_input))
    (s.(finished_recving_kv_req_ids)) (s.(failed_recving_kv_req_ids))
    (s.(encoder_cache_manager)) (s.(kv_cache_manager)) (s.(connector))
    (s.(connector_prefix_cache_stats)) (s.(ec_connector)) (s.(structured_output_manager))
    (s.(current_step)) (s.(prefill_capacity_bound)) (s.(sched_step_seq))
    (s.(processed_step_seq)) (s.(deferred_frees)) (s.(_pause_state)) (s.(_inflight_prefills))
    (s.(_spec_token_placeholders)).
Definition set_requests {Q WQ C E G} (x : dict nat) (s : Scheduler Q WQ C E G) : Scheduler Q WQ C E G :=
  mkScheduler (s.(objects)) x (s.(waiting)) (s.(skipped_waiting)) (s.(running))
    (s.(finished_req_ids)) (s.(finished_req_ids_dict)) (s.(prev_step_scheduled_req_ids))
    (s.(reset_preempted_req_ids)) (s.(num_waiting_for_streaming_input))
    (s.(finished_recving_kv_req_ids)) (s.(failed_recving_kv_req_ids))
    (s.(encoder_cache_manager)) (s.(kv_cache_manager)) (s.(connector))
    (s.(connector_prefix_cache_stats)) (s.(ec_connector)) (s.(structured_output_manager))
    (s.(current_step)) (s.(prefill_capacity_bound)) (s.(sched_step_seq))
    (s.(processed_step_seq)) (s.(deferred_frees)) (s.(_pause_state)) (s.(_inflight_prefills))
    (s.(_spec_token_placeholders)).
Definition set_waiting {Q WQ C E G} (x : WQ) (s : Scheduler Q WQ C E G) : Scheduler Q WQ C E G :=
  mkScheduler (s.(objects)) (s.(requests)) x (s.(skipped_waiting)) (s.(running))
    (s.(finished_req_ids)) (s.(finished_req_ids_dict)) (s.(prev_step_scheduled_req_ids))
    (s.(reset_preempted_req_ids)) (s.(num_waiting_for_streaming_input))
    (s.(finished_recving_kv_req_ids)) (s.(failed_recving_kv_req_ids))
    (s.(encoder_cache_manager)) (s.(kv_cache_manager)) (s.(connector))
    (s.(connector_prefix_cache_stats)) (s.(ec_connector)) (s.(structured_output_manager))
    (s.(current_step)) (s.(prefill_capacity_bound)) (s.(sched_step_seq))
    (s.(processed_step_seq)) (s.(deferred_frees)) (s.(_pause_state)) (s.(_inflight_prefills))
    (s.(_spec_token_placeholders)).
Definition set_skipped_waiting {Q WQ C E G} (x : WQ) (s : Scheduler Q WQ C E G) : Scheduler Q WQ C E G :=
  mkScheduler (s.(objects)) (s.(requests)) (s.(waiting)) x (s.(running))
    (s.(finished_req_ids)) (s.(finished_req_ids_dict)) (s.(prev_step_scheduled_req_ids))
    (s.(reset_preempted_req_ids)) (s.(num_waiting_for_streaming_input))
    (s.(finished_recving_kv_req_ids)) (s.(failed_recving_kv_req_ids))
    (s.(encoder_cache_manager)) (s.(kv_cache_manager)) (s.(connector))
    (s.(connector_prefix_cache_stats)) (s.(ec_connector)) (s.(structured_output_manager))
    (s.(current_step)) (s.(prefill_capacity_bound)) (s.(sched_step_seq))
    (s.(processed_step_seq)) (s.(deferred_frees)) (s.(_pause_state)) (s.(_inflight_prefills))
    (s.(_spec_token_placeholders)).
Definition set_running {Q WQ C E G} (x : list nat) (s : Scheduler Q WQ C E G) : Scheduler Q WQ C E G :=
  mkScheduler (s.(objects)) (s.(requests)) (s.(waiting)) (s.(skipped_waiting)) x
    (s.(finished_req_ids)) (s.(finished_req_ids_dict)) (s.(prev_step_scheduled_req_ids))
    (s.(reset_preempted_req_ids)) (s.(num_waiting_for_streaming_input))
    (s.(finished_recving_kv_req_ids)) (s.(failed_recving_kv_req_ids))
    (s.(encoder_cache_manager)) (s.(kv_cache_manager)) (s.(connector))
    (s.(connector_prefix_cache_stats)) (s.(ec_connector)) (s.(structured_output_manager))
    (s.(current_step)) (s.(prefill_capacity_bound)) (s.(sched_step_seq))
    (s.(processed_step_seq)) (s.(deferred_frees)) (s.(_pause_state)) (s.(_inflight_prefills))
    (s.(_spec_token_placeholders)).
Definition set_finished_req_ids {Q WQ C E G} (x : gset string) (s : Scheduler Q WQ C E G) : Scheduler Q WQ C E G :=
  mkScheduler (s.(objects)) (s.(requests)) (s.(waiting)) (s.(skipped_waiting)) (s.(running)) x
    (s.(finished_req_ids_dict)) (s.(prev_step_scheduled_req_ids))
    (s.(reset_preempted_req_ids)) (s.(num_waiting_for_streaming_input))
    (s.(finished_recving_kv_req_ids)) (s.(failed_recving_kv_req_ids))
    (s.(encoder_cache_manager)) (s.(kv_cache_manager)) (s.(connector))
    (s.(connector_prefix_cache_stats)) (s.(ec_connector)) (s.(structured_output_manager))
    (s.(current_step)) (s.(prefill_capacity_bound)) (s.(sched_step_seq))
    (s.(processed_step_seq)) (s.(deferred_frees)) (s.(_pause_state)) (s.(_inflight_prefills))
    (s.(_spec_token_placeholders)).
Definition set_finished_req_ids_dict {Q WQ C E G} (x : option (gmap Z (gset string))) (s : Scheduler Q WQ C E G) : Scheduler Q WQ C E G :=
  mkScheduler (s.(objects)) (s.(requests)) (s.(waiting)) (s.(skipped_waiting)) (s.(running))
    (s.(finished_req_ids)) x (s.(prev_step_scheduled_req_ids)) (s.(reset_preempted_req_ids))
    (s.(num_waiting_for_streaming_input)) (s.(finished_recving_kv_req_ids))
    (s.(failed_recving_kv_req_ids)) (s.(encoder_cache_manager)) (s.(kv_cache_manager))
    (s.(connector)) (s.(connector_prefix_cache_stats)) (s.(ec_connector))
    (s.(structured_output_manager)) (s.(current_step)) (s.(prefill_capacity_bound))
    (s.(sched_step_seq)) (s.(processed_step_seq)) (s.(deferred_frees)) (s.(_pause_state))
    (s.(_inflight_prefills)) (s.(_spec_token_placeholders)).
Definition set_prev_step_scheduled_req_ids {Q WQ C E G} (x : gset string) (s : Scheduler Q WQ C E G) : Scheduler Q WQ C E G :=
  mkScheduler (s.(objects)) (s.(requests)) (s.(waiting)) (s.(skipped_waiting)) (s.(running))
    (s.(finished_req_ids)) (s.(finished_req_ids_dict)) x (s.(reset_preempted_req_ids))
    (s.(num_waiting_for_streaming_input)) (s.(finished_recving_kv_req_ids))
    (s.(failed_recving_kv_req_ids)) (s.(encoder_cache_manager)) (s.(kv_cache_manager))
    (s.(connector)) (s.(connector_prefix_cache_stats)) (s.(ec_connector))
    (s.(structured_output_manager)) (s.(current_step)) (s.(prefill_capacity_bound))
    (s.(sched_step_seq)) (s.(processed_step_seq)) (s.(deferred_frees)) (s.(_pause_state))
    (s.(_inflight_prefills)) (s.(_spec_token_placeholders)).
Definition set_reset_preempted_req_ids {Q WQ C E G} (x : gset string) (s : Scheduler Q WQ C E G) : Scheduler Q WQ C E G :=
  mkScheduler (s.(objects)) (s.(requests)) (s.(waiting)) (s.(skipped_waiting)) (s.(running))
    (s.(finished_req_ids)) (s.(finished_req_ids_dict)) (s.(prev_step_scheduled_req_ids)) x
    (s.(num_waiting_for_streaming_input)) (s.(finished_recving_kv_req_ids))
    (s.(failed_recving_kv_req_ids)) (s.(encoder_cache_manager)) (s.(kv_cache_manager))
    (s.(connector)) (s.(connector_prefix_cache_stats)) (s.(ec_connector))
    (s.(structured_output_manager)) (s.(current_step)) (s.(prefill_capacity_bound))
    (s.(sched_step_seq)) (s.(processed_step_seq)) (s.(deferred_frees)) (s.(_pause_state))
    (s.(_inflight_prefills)) (s.(_spec_token_placeholders)).
Definition set_num_waiting_for_streaming_input {Q WQ C E G} (x : Z) (s : Scheduler Q WQ C E G) : Scheduler Q WQ C E G :=
  mkScheduler (s.(objects)) (s.(requests)) (s.(waiting)) (s.(skipped_waiting)) (s.(running))
    (s.(finished_req_ids)) (s.(finished_req_ids_dict)) (s.(prev_step_scheduled_req_ids))
    (s.(reset_preempted_req_ids)) x (s.(finished_recving_kv_req_ids))
    (s.(failed_recving_kv_req_ids)) (s.(encoder_cache_manager)) (s.(kv_cache_manager))
    (s.(connector)) (s.(connector_prefix_cache_stats)) (s.(ec_connector))
    (s.(structured_output_manager)) (s.(current_step)) (s.(prefill_capacity_bound))
    (s.(sched_step_seq)) (s.(processed_step_seq)) (s.(deferred_frees)) (s.(_pause_state))
    (s.(_inflight_prefills)) (s.(_spec_token_placeholders)).
Definition set_finished_recving_kv_req_ids {Q WQ C E G} (x : gset string) (s : Scheduler Q WQ C E G) : Scheduler Q WQ C E G :=
  mkScheduler (s.(objects)) (s.(requests)) (s.(waiting)) (s.(skipped_waiting)) (s.(running))
    (s.(finished_req_ids)) (s.(finished_req_ids_dict)) (s.(prev_step_scheduled_req_ids))
    (s.(reset_preempted_req_ids)) (s.(num_waiting_for_streaming_input)) x
    (s.(failed_recving_kv_req_ids)) (s.(encoder_cache_manager)) (s.(kv_cache_manager))
    (s.(connector)) (s.(connector_prefix_cache_stats)) (s.(ec_connector))
    (s.(structured_output_manager)) (s.(current_step)) (s.(prefill_capacity_bound))
    (s.(sched_step_seq)) (s.(processed_step_seq)) (s.(deferred_frees)) (s.(_pause_state))
    (s.(_inflight_prefills)) (s.(_spec_token_placeholders)).
Definition set_failed_recving_kv_req_ids {Q WQ C E G} (x : gset string) (s : Scheduler Q WQ C E G) : Scheduler Q WQ C E G :=
  mkScheduler (s.(objects)) (s.(requests)) (s.(waiting)) (s.(skipped_waiting)) (s.(running))
    (s.(finished_req_ids)) (s.(finished_req_ids_dict)) (s.(prev_step_scheduled_req_ids))
    (s.(reset_preempted_req_ids)) (s.(num_waiting_for_streaming_input))
    (s.(finished_recving_kv_req_ids)) x (s.(encoder_cache_manager)) (s.(kv_cache_manager))
    (s.(connector)) (s.(connector_prefix_cache_stats)) (s.(ec_connector))
    (s.(structured_output_manager)) (s.(current_step)) (s.(prefill_capacity_bound))
    (s.(sched_step_seq)) (s.(processed_step_seq)) (s.(deferred_frees)) (s.(_pause_state))
    (s.(_inflight_prefills)) (s.(_spec_token_placeholders)).
Definition set_encoder_cache_manager {Q WQ C E G} (x : encoder_cache) (s : Scheduler Q WQ C E G) : Scheduler Q WQ C E G :=
  mkScheduler (s.(objects)) (s.(requests)) (s.(waiting)) (s.(skipped_waiting)) (s.(running))
    (s.(finished_req_ids)) (s.(finished_req_ids_dict)) (s.(prev_step_scheduled_req_ids))
    (s.(reset_preempted_req_ids)) (s.(num_waiting_for_streaming_input))
    (s.(finished_recving_kv_req_ids)) (s.(failed_recving_kv_req_ids)) x (s.(kv_cache_manager))
    (s.(connector)) (s.(connector_prefix_cache_stats)) (s.(ec_connector))
    (s.(structured_output_manager)) (s.(current_step)) (s.(prefill_capacity_bound))
    (s.(sched_step_seq)) (s.(processed_step_seq)) (s.(deferred_frees)) (s.(_pause_state))
    (s.(_inflight_prefills)) (s.(_spec_token_placeholders)).
Definition set_kv_cache_manager {Q WQ C E G} (x : KVCacheManager Q) (s : Scheduler Q WQ C E G) : Scheduler Q WQ C E G :=
  mkScheduler (s.(objects)) (s.(requests)) (s.(waiting)) (s.(skipped_waiting)) (s.(running))
    (s.(finished_req_ids)) (s.(finished_req_ids_dict)) (s.(prev_step_scheduled_req_ids))
    (s.(reset_preempted_req_ids)) (s.(num_waiting_for_streaming_input))
    (s.(finished_recving_kv_req_ids)) (s.(failed_recving_kv_req_ids))
    (s.(encoder_cache_manager)) x (s.(connector)) (s.(connector_prefix_cache_stats))
    (s.(ec_connector)) (s.(structured_output_manager)) (s.(current_step))
    (s.(prefill_capacity_bound)) (s.(sched_step_seq)) (s.(processed_step_seq))
    (s.(deferred_frees)) (s.(_pause_state)) (s.(_inflight_prefills))
    (s.(_spec_token_placeholders)).
Definition set_connector {Q WQ C E G} (x : option C) (s : Scheduler Q WQ C E G) : Scheduler Q WQ C E G :=
  mkScheduler (s.(objects)) (s.(requests)) (s.(waiting)) (s.(skipped_waiting)) (s.(running))
    (s.(finished_req_ids)) (s.(finished_req_ids_dict)) (s.(prev_step_scheduled_req_ids))
    (s.(reset_preempted_req_ids)) (s.(num_waiting_for_streaming_input))
    (s.(finished_recving_kv_req_ids)) (s.(failed_recving_kv_req_ids))
    (s.(encoder_cache_manager)) (s.(kv_cache_manager)) x (s.(connector_prefix_cache_stats))
    (s.(ec_connector)) (s.(structured_output_manager)) (s.(current_step))
    (s.(prefill_capacity_bound)) (s.(sched_step_seq)) (s.(processed_step_seq))
    (s.(deferred_frees)) (s.(_pause_state)) (s.(_inflight_prefills))
    (s.(_spec_token_placeholders)).
Definition set_connector_prefix_cache_stats {Q WQ C E G} (x : option PrefixCacheStats) (s : Scheduler Q WQ C E G) : Scheduler Q WQ C E G :=
  mkScheduler (s.(objects)) (s.(requests)) (s.(waiting)) (s.(skipped_waiting)) (s.(running))
    (s.(finished_req_ids)) (s.(finished_req_ids_dict)) (s.(prev_step_scheduled_req_ids))
    (s.(reset_preempted_req_ids)) (s.(num_waiting_for_streaming_input))
    (s.(finished_recving_kv_req_ids)) (s.(failed_recving_kv_req_ids))
    (s.(encoder_cache_manager)) (s.(kv_cache_manager)) (s.(connector)) x (s.(ec_connector))
    (s.(structured_output_manager)) (s.(current_step)) (s.(prefill_capacity_bound))
    (s.(sched_step_seq)) (s.(processed_step_seq)) (s.(deferred_frees)) (s.(_pause_state))
    (s.(_inflight_prefills)) (s.(_spec_token_placeholders)).
Definition set_ec_connector {Q WQ C E G} (x : option E) (s : Scheduler Q WQ C E G) : Scheduler Q WQ C E G :=
  mkScheduler (s.(objects)) (s.(requests)) (s.(waiting)) (s.(skipped_waiting)) (s.(running))
    (s.(finished_req_ids)) (s.(finished_req_ids_dict)) (s.(prev_step_scheduled_req_ids))
    (s.(reset_preempted_req_ids)) (s.(num_waiting_for_streaming_input))
    (s.(finished_recving_kv_req_ids)) (s.(failed_recving_kv_req_ids))
    (s.(encoder_cache_manager)) (s.(kv_cache_manager)) (s.(connector))
    (s.(connector_prefix_cache_stats)) x (s.(structured_output_manager)) (s.(current_step))
    (s.(prefill_capacity_bound)) (s.(sched_step_seq)) (s.(processed_step_seq))
    (s.(deferred_frees)) (s.(_pause_state)) (s.(_inflight_prefills))
    (s.(_spec_token_placeholders)).
Definition set_structured_output_manager {Q WQ C E G} (x : G) (s : Scheduler Q WQ C E G) : Scheduler Q WQ C E G :=
  mkScheduler (s.(objects)) (s.(requests)) (s.(waiting)) (s.(skipped_waiting)) (s.(running))
    (s.(finished_req_ids)) (s.(finished_req_ids_dict)) (s.(prev_step_scheduled_req_ids))
    (s.(reset_preempted_req_ids)) (s.(num_waiting_for_streaming_input))
    (s.(finished_recving_kv_req_ids)) (s.(failed_recving_kv_req_ids))
    (s.(encoder_cache_manager)) (s.(kv_cache_manager)) (s.(connector))
    (s.(connector_prefix_cache_stats)) (s.(ec_connector)) x (s.(current_step))
    (s.(prefill_capacity_bound)) (s.(sched_step_seq)) (s.(processed_step_seq))
    (s.(deferred_frees)) (s.(_pause_state)) (s.(_inflight_prefills))
    (s.(_spec_token_placeholders)).
Definition set_current_step {Q WQ C E G} (x : Z) (s : Scheduler Q WQ C E G) : Scheduler Q WQ C E G :=
  mkScheduler (s.(objects)) (s.(requests)) (s.(waiting)) (s.(skipped_waiting)) (s.(running))
    (s.(finished_req_ids)) (s.(finished_req_ids_dict)) (s.(prev_step_scheduled_req_ids))
    (s.(reset_preempted_req_ids)) (s.(num_waiting_for_streaming_input))
    (s.(finished_recving_kv_req_ids)) (s.(failed_recving_kv_req_ids))
    (s.(encoder_cache_manager)) (s.(kv_cache_manager)) (s.(connector))
    (s.(connector_prefix_cache_stats)) (s.(ec_connector)) (s.(structured_output_manager)) x
    (s.(prefill_capacity_bound)) (s.(sched_step_seq)) (s.(processed_step_seq))
    (s.(deferred_frees)) (s.(_pause_state)) (s.(_inflight_prefills))
    (s.(_spec_token_placeholders)).
Definition set_prefill_capacity_bound {Q WQ C E G} (x : bool) (s : Scheduler Q WQ C E G) : Scheduler Q WQ C E G :=
  mkScheduler (s.(objects)) (s.(requests)) (s.(waiting)) (s.(skipped_waiting)) (s.(running))
    (s.(finished_req_ids)) (s.(finished_req_ids_dict)) (s.(prev_step_scheduled_req_ids))
    (s.(reset_preempted_req_ids)) (s.(num_waiting_for_streaming_input))
    (s.(finished_recving_kv_req_ids)) (s.(failed_recving_kv_req_ids))
    (s.(encoder_cache_manager)) (s.(kv_cache_manager)) (s.(connector))
    (s.(connector_prefix_cache_stats)) (s.(ec_connector)) (s.(structured_output_manager))
    (s.(current_step)) x (s.(sched_step_seq)) (s.(processed_step_seq)) (s.(deferred_frees))
    (s.(_pause_state)) (s.(_inflight_prefills)) (s.(_spec_token_placeholders)).
Definition set_sched_step_seq {Q WQ C E G} (x : Z) (s : Scheduler Q WQ C E G) : Scheduler Q WQ C E G :=
  mkScheduler (s.(objects)) (s.(requests)) (s.(waiting)) (s.(skipped_waiting)) (s.(running))
    (s.(finished_req_ids)) (s.(finished_req_ids_dict)) (s.(prev_step_scheduled_req_ids))
    (s.(reset_preempted_req_ids)) (s.(num_waiting_for_streaming_input))
    (s.(finished_recving_kv_req_ids)) (s.(failed_recving_kv_req_ids))
    (s.(encoder_cache_manager)) (s.(kv_cache_manager)) (s.(connector))
    (s.(connector_prefix_cache_stats)) (s.(ec_connector)) (s.(structured_output_manager))
    (s.(current_step)) (s.(prefill_capacity_bound)) x (s.(processed_step_seq))
    (s.(deferred_frees)) (s.(_pause_state)) (s.(_inflight_prefills))
    (s.(_spec_token_placeholders)).
Definition set_processed_step_seq {Q WQ C E G} (x : Z) (s : Scheduler Q WQ C E G) : Scheduler Q WQ C E G :=
  mkScheduler (s.(objects)) (s.(requests)) (s.(waiting)) (s.(skipped_waiting)) (s.(running))
    (s.(finished_req_ids)) (s.(finished_req_ids_dict)) (s.(prev_step_scheduled_req_ids))
    (s.(reset_preempted_req_ids)) (s.(num_waiting_for_streaming_input))
    (s.(finished_recving_kv_req_ids)) (s.(failed_recving_kv_req_ids))
    (s.(encoder_cache_manager)) (s.(kv_cache_manager)) (s.(connector))
    (s.(connector_prefix_cache_stats)) (s.(ec_connector)) (s.(structured_output_manager))
    (s.(current_step)) (s.(prefill_capacity_bound)) (s.(sched_step_seq)) x
    (s.(deferred_frees)) (s.(_pause_state)) (s.(_inflight_prefills))
    (s.(_spec_token_placeholders)).
Definition set_deferred_frees {Q WQ C E G} (x : list (Z * list nat)) (s : Scheduler Q WQ C E G) : Scheduler Q WQ C E G :=
  mkScheduler (s.(objects)) (s.(requests)) (s.(waiting)) (s.(skipped_waiting)) (s.(running))
    (s.(finished_req_ids)) (s.(finished_req_ids_dict)) (s.(prev_step_scheduled_req_ids))
    (s.(reset_preempted_req_ids)) (s.(num_waiting_for_streaming_input))
    (s.(finished_recving_kv_req_ids)) (s.(failed_recving_kv_req_ids))
    (s.(encoder_cache_manager)) (s.(kv_cache_manager)) (s.(connector))
    (s.(connector_prefix_cache_stats)) (s.(ec_connector)) (s.(structured_output_manager))
    (s.(current_step)) (s.(prefill_capacity_bound)) (s.(sched_step_seq))
    (s.(processed_step_seq)) x (s.(_pause_state)) (s.(_inflight_prefills))
    (s.(_spec_token_placeholders)).
Definition set_pause_state {Q WQ C E G} (x : PauseState) (s : Scheduler Q WQ C E G) : Scheduler Q WQ C E G :=
  mkScheduler (s.(objects)) (s.(requests)) (s.(waiting)) (s.(skipped_waiting)) (s.(running))
    (s.(finished_req_ids)) (s.(finished_req_ids_dict)) (s.(prev_step_scheduled_req_ids))
    (s.(reset_preempted_req_ids)) (s.(num_waiting_for_streaming_input))
    (s.(finished_recving_kv_req_ids)) (s.(failed_recving_kv_req_ids))
    (s.(encoder_cache_manager)) (s.(kv_cache_manager)) (s.(connector))
    (s.(connector_prefix_cache_stats)) (s.(ec_connector)) (s.(structured_output_manager))
    (s.(current_step)) (s.(prefill_capacity_bound)) (s.(sched_step_seq))
    (s.(processed_step_seq)) (s.(deferred_frees)) x (s.(_inflight_prefills))
    (s.(_spec_token_placeholders)).
Definition set_inflight_prefills {Q WQ C E G} (x : gset nat) (s : Scheduler Q WQ C E G) : Scheduler Q WQ C E G :=
  mkScheduler (s.(objects)) (s.(requests)) (s.(waiting)) (s.(skipped_waiting)) (s.(running))
    (s.(finished_req_ids)) (s.(finished_req_ids_dict)) (s.(prev_step_scheduled_req_ids))
    (s.(reset_preempted_req_ids)) (s.(num_waiting_for_streaming_input))
    (s.(finished_recving_kv_req_ids)) (s.(failed_recving_kv_req_ids))
    (s.(encoder_cache_manager)) (s.(kv_cache_manager)) (s.(connector))
    (s.(connector_prefix_cache_stats)) (s.(ec_connector)) (s.(structured_output_manager))
    (s.(current_step)) (s.(prefill_capacity_bound)) (s.(sched_step_seq))
    (s.(processed_step_seq)) (s.(deferred_frees)) (s.(_pause_state)) x
    (s.(_spec_token_placeholders)).
Definition set_spec_token_placeholders {Q WQ C E G} (x : list Z) (s : Scheduler Q WQ C E G) : Scheduler Q WQ C E G :=
  mkScheduler (s.(objects)) (s.(requests)) (s.(waiting)) (s.(skipped_waiting)) (s.(running))
    (s.(finished_req_ids)) (s.(finished_req_ids_dict)) (s.(prev_step_scheduled_req_ids))
    (s.(reset_preempted_req_ids)) (s.(num_waiting_for_streaming_input))
    (s.(finished_recving_kv_req_ids)) (s.(failed_recving_kv_req_ids))
    (s.(encoder_cache_manager)) (s.(kv_cache_manager)) (s.(connector))
    (s.(connector_prefix_cache_stats)) (s.(ec_connector)) (s.(structured_output_manager))
    (s.(current_step)) (s.(prefill_capacity_bound)) (s.(sched_step_seq))
    (s.(processed_step_seq)) (s.(deferred_frees)) (s.(_pause_state)) (s.(_inflight_prefills))
    x.
