(* ===== verification/Scheduler.v ===== *)
(** * Operations of the scheduler ([vllm/v1/core/sched/scheduler.py])

    Everything but the two large methods [schedule] ([Schedule]) and
    [update_from_output] ([UpdateOutput]): queues, admission of requests,
    preemption, freeing with and without deferral, streaming sessions, encoder
    inputs, resets and counters.

    Correspondence.  An operation takes the scheduler and returns the new one;
    an argument of class [Request] is a reference into [objects].  Reading a
    reference that the store does not hold would be [KeyError]; there is no such
    reference in a well-formed scheduler. *)

From S2P Require Import Prelude MathUtils Request BlockHash KVMetrics FreeQueue BlockPool.
From S2P Require Import SingleTypeManager Coordinator CacheStats KVCacheManager EncoderCache.
From S2P Require Import Heapq RequestQueue SchedUtils PyDict SchedState.

Local Open Scope Z_scope.

(** [bisect.bisect_left(a, x, key=key)] for keys of the elements.  Each
    iteration at least halves [hi - lo], so the length of the list bounds the
    number of iterations. *)
Fixpoint bisect_loop (keys : list Z) (x : Z) (fuel : nat) (lo hi : Z) : result Z :=
  if lo <? hi then
    match fuel with
    | O => Raise OutOfFuel
    | S fuel =>
        let mid := (lo + hi) / 2 in
        k ← py_get keys mid;
        if k <? x then bisect_loop keys x fuel (mid + 1) hi else bisect_loop keys x fuel lo mid
    end
  else Ok lo.
Definition bisect_left (keys : list Z) (x : Z) : result Z :=
  bisect_loop keys x (length keys) 0 (zlen keys).

(** [get_mm_features_in_window] ([vllm/multimodal/utils.py]) *)
Definition get_mm_features_in_window (mm_features : list MultiModalFeatureSpec) (start end_ : Z)
    : result (Z * Z) :=
  lo ← bisect_left ((λ f, offset (mm_position f) + length_ (mm_position f)) <$> mm_features) (start + 1);
  hi ← bisect_left ((λ f, offset (mm_position f)) <$> mm_features) end_;
  Ok (lo, hi).

Section Scheduler.
Context {Q : Type} `{!FreeQueueOps Q} {env : PoolEnv}.
Context {WQ : Type} `{!RequestQueueOps WQ} `{!QueueAlias WQ}.
Context {C E G : Type} `{!KVConnector C} `{!ECConnector E} `{!StructuredOutput G}.
Context (cfg : SchedulerConfig).
Abbreviation sched := (Scheduler Q WQ C E G).
Implicit Types (s : sched) (r : Request) (i : nat).

(** ** Objects *)

Definition deref i s : result Request := of_option KeyError (objects s !! i).
Definition store r s : sched := set_objects (<[py_id r := r]> (objects s)) s.

(** [__init__], for the attributes of the state: the KV cache manager, the
    connectors and the structured output manager are built before.  The list
    of placeholders is an attribute of [AsyncScheduler]. *)
Definition Scheduler_init (k : KVCacheManager Q) (encoder_cache_size : Z) (c : option C) (ec : option E)
    (g : G) (include_finished_set : bool) : sched :=
  let stats := match c with
               | Some _ => if sched_log_stats cfg then Some PrefixCacheStats_init else None
               | None => None
               end in
  let enc := if is_encoder_decoder cfg then EncDecCache (EncoderDecoderCacheManager_init encoder_cache_size)
             else EncCache (EncoderCacheManager_init encoder_cache_size) in
  mkScheduler ∅ [] rq_new rq_new [] ∅ (if include_finished_set then Some ∅ else None) ∅ ∅ 0 ∅ ∅ enc k c
    stats ec g 0 false 0 0 [] UNPAUSED ∅ (replicate (Z.to_nat (num_spec_tokens cfg)) (-1)).

(** ** Queues *)

Definition _is_blocked_waiting_status (st : RequestStatus) : bool :=
  bool_decide (st = WAITING_FOR_STRUCTURED_OUTPUT_GRAMMAR) || bool_decide (st = WAITING_FOR_REMOTE_KVS)
  || bool_decide (st = WAITING_FOR_STREAMING_REQ).

Definition _enqueue_waiting_request r s : result sched :=
  if _is_blocked_waiting_status (status r)
  then q ← add_request r (skipped_waiting s); Ok (set_skipped_waiting q s)
  else q ← add_request r (waiting s); Ok (set_waiting q s).

Inductive queue_name := Waiting | Skipped.
Definition get_queue (n : queue_name) s : WQ :=
  match n with Waiting => waiting s | Skipped => skipped_waiting s end.
Definition set_queue (n : queue_name) (q : WQ) s : sched :=
  match n with Waiting => set_waiting q s | Skipped => set_skipped_waiting q s end.

Definition _select_waiting_queue_for_scheduling s : result (option queue_name) :=
  match policy cfg with
  | FCFS =>
      Ok (if queue_bool (skipped_waiting s) then Some Skipped
          else if queue_bool (waiting s) then Some Waiting else None)
  | PRIORITY =>
      if queue_bool (waiting s) && queue_bool (skipped_waiting s) then
        waiting_req ← peek_request (waiting s);
        skipped_req ← peek_request (skipped_waiting s);
        Ok (Some (if request_lt waiting_req skipped_req then Waiting else Skipped))
      else
        Ok (if queue_bool (waiting s) then Some Waiting
            else if queue_bool (skipped_waiting s) then Some Skipped else None)
  end.

Definition get_request_counts s : Z * Z :=
  (zlen (running s), queue_len (waiting s) + queue_len (skipped_waiting s)).

Definition get_num_unfinished_requests s : Z :=
  match s.(_pause_state) with
  | PAUSED_ALL => 0
  | PAUSED_NEW => zlen (running s)
  | UNPAUSED =>
      queue_len (waiting s) + queue_len (skipped_waiting s) - num_waiting_for_streaming_input s
      + zlen (running s)
  end.

Definition has_finished_requests s : bool :=
  if negb (bool_decide (finished_req_ids s = ∅)) then true else
  match connector s with
  | None => false
  | Some _ =>
      zlen (requests s) >?
        queue_len (waiting s) + queue_len (skipped_waiting s) + zlen (running s)
  end.

(** [has_unfinished_requests] is the default of the interface. *)
Definition has_requests s : bool :=
  (get_num_unfinished_requests s >? 0) || has_finished_requests s
  || match connector s with None => false | Some c => has_pending_push_work c end.

Definition set_pause (p : PauseState) s : sched := set_pause_state p s.

(** ** Freeing *)

Definition _free_request_blocks r s : result sched :=
  if negb (defer_block_free cfg) || (last_sched_seq r <=? processed_step_seq s) then
    k ← KVCacheManager.free r (kv_cache_manager s); Ok (set_kv_cache_manager k s)
  else
    let '(blocks, k) := pop_blocks_for_free r (kv_cache_manager s) in
    let s := set_kv_cache_manager k s in
    match blocks with
    | [] => Ok s
    | _ => Ok (set_deferred_frees (deferred_frees s ++ [(sched_step_seq s, blocks)]) s)
    end.

(** The [while] loop pops one entry per iteration. *)
Fixpoint drain_loop (entries : list (Z * list nat)) s : result sched :=
  match entries with
  | [] => Ok (set_deferred_frees [] s)
  | (fence, blocks) :: rest =>
      if fence >? processed_step_seq s then Ok (set_deferred_frees entries s) else
      p ← free_blocks (reverse blocks) (kv_pool (kv_cache_manager s));
      drain_loop rest (set_kv_cache_manager (with_pool p (kv_cache_manager s)) s)
  end.
Definition _drain_deferred_frees s : result sched := drain_loop (deferred_frees s) s.

(** The connector decides whether the blocks of a finished request are kept. *)
Definition _connector_finished r s : result (bool * option string * sched) :=
  match connector s with
  | None => Ok (false, None, s)
  | Some c =>
      k ← KVCacheManager.remove_skipped_blocks (request_id r) (num_computed_tokens r)
            (Some (num_prompt_tokens r)) (kv_cache_manager s);
      let s := set_kv_cache_manager k s in
      block_ids ← of_option AssertionError (kvm_get_block_ids (request_id r) k);
      if negb (supports_hma c) then
        _ ← assert_ (Nat.eqb (num_groups cfg) 1);
        bs ← py_get block_ids 0;
        let '(delay, params, c) := request_finished r bs c in
        Ok (delay, params, set_connector (Some c) s)
      else
        let '(delay, params, c) := request_finished_all_groups r block_ids c in
        Ok (delay, params, set_connector (Some c) s)
  end.

Definition _free_blocks r s : result sched :=
  _ ← assert_ (is_finished r);
  s ← _free_request_blocks r s;
  _ ← of_option KeyError (dict_get (request_id r) (requests s));
  Ok (set_requests (dict_del (request_id r) (requests s)) s).

Definition _free_request r (delay_free_blocks : bool) s : result (option string * sched) :=
  _ ← assert_ (is_finished r);
  let s := set_inflight_prefills (s.(_inflight_prefills) ∖ {[ py_id r ]}) s in
  '(connector_delay_free_blocks, kv_xfer_params, s) ← _connector_finished r s;
  e ← enc_free r (encoder_cache_manager s);
  let s := set_encoder_cache_manager e s in
  let s := set_finished_req_ids ({[ request_id r ]} ∪ finished_req_ids s) s in
  let s := match finished_req_ids_dict s with
           | None => s
           | Some d =>
               let old := default ∅ (d !! client_index r) in
               set_finished_req_ids_dict (Some (<[client_index r := {[ request_id r ]} ∪ old]> d)) s
           end in
  s ← (if delay_free_blocks || connector_delay_free_blocks then Ok s else _free_blocks r s);
  Ok (kv_xfer_params, s).

(** ** Preemption *)

Definition _preempt_request i s : result sched :=
  r ← deref i s;
  _ ← assert_ (bool_decide (status r = RUNNING));
  s ← _free_request_blocks r s;
  e ← enc_free r (encoder_cache_manager s);
  let s := set_encoder_cache_manager e s in
  let s := set_inflight_prefills (s.(_inflight_prefills) ∖ {[ i ]}) s in
  let r := with_num_computed_tokens 0 (with_status PREEMPTED r) in
  let r := with_spec_token_ids [] r in
  let r := with_num_preemptions (num_preemptions r + 1) r in
  let s := store r s in
  q ← prepend_request r (waiting s);
  let s := set_waiting q s in
  Ok (set_reset_preempted_req_ids ({[ request_id r ]} ∪ reset_preempted_req_ids s) s).

(** ** Streaming sessions *)

Definition shift_feature (base : Z) (f : MultiModalFeatureSpec) : MultiModalFeatureSpec :=
  let p := mm_position f in
  mkFeature (identifier f) (mkRange (offset p + base) (length_ p) (is_embed p)).

Definition _update_request_as_session i (update : StreamingUpdate) s : result sched :=
  r ← deref i s;
  let n := num_computed_tokens r in
  let kept_output_tokens := py_slice (r.(_all_token_ids)) (num_prompt_tokens r) n in
  let r := with_all_token_ids (py_upto (r.(_all_token_ids)) n) r in
  let r := with_output_token_ids [] r in
  prompt ← of_option AssertionError (prompt_token_ids r);
  let prompt := prompt ++ kept_output_tokens in
  let r := match su_mm_features update with
           | [] => r
           | fs => with_mm_features (mm_features r ++ (shift_feature (num_tokens r) <$> fs)) r
           end in
  let new := default [] (su_prompt_token_ids update) in
  let r := with_all_token_ids (r.(_all_token_ids) ++ new) r in
  let prompt := prompt ++ new in
  let r := with_prompt_token_ids (Some prompt) r in
  r ← update_block_hashes (block_hasher cfg) r;
  let r := with_num_prompt_tokens (zlen prompt) r in
  let r := with_arrival_time (su_arrival_time update) r in
  let r := with_sampling_params (su_sampling_params update) r in
  let s := if bool_decide (status r = WAITING_FOR_STREAMING_REQ)
           then set_num_waiting_for_streaming_input (num_waiting_for_streaming_input s - 1) s else s in
  let r := with_status WAITING r in
  let s := store r s in
  Ok (set_skipped_waiting (queue_alias r (skipped_waiting s))
        (set_waiting (queue_alias r (waiting s)) s)).

Definition _handle_stopped_request i s : result (bool * sched) :=
  r ← deref i s;
  if negb (resumable r) then Ok (true, s) else
  match streaming_queue r with
  | Some (update :: rest) =>
      let s := store (with_streaming_queue (Some rest) r) s in
      match update with
      | None => Ok (true, s)
      | Some u =>
          s ← _update_request_as_session i u s;
          r ← deref i s;
          s ← _enqueue_waiting_request r s; Ok (false, s)
      end
  | _ =>
      let r := with_status WAITING_FOR_STREAMING_REQ r in
      let s := store r s in
      let s := set_num_waiting_for_streaming_input (num_waiting_for_streaming_input s + 1) s in
      s ← _enqueue_waiting_request r s; Ok (false, s)
  end.

(** ** Requests from outside *)

(** The first pass of [finish_requests]: the requests to finish, those among
    them that run, and those that wait. *)
Record finish_lists := mkFinishLists {
  fl_valid : list nat;
  fl_running : list nat;
  fl_waiting : list Request;
}.
Definition collect_finish (acc : finish_lists * sched) (req_id : string)
    : result (finish_lists * sched) :=
  let '(f, s) := acc in
  match dict_get req_id (requests s) with
  | None => Ok acc
  | Some i =>
      r ← deref i s;
      if is_finished r then Ok acc else
      let valid := fl_valid f ++ [i] in
      if bool_decide (status r = RUNNING)
      then Ok (mkFinishLists valid (fl_running f ++ [i]) (fl_waiting f), s)
      else
        let s := if bool_decide (status r = WAITING_FOR_STREAMING_REQ)
                 then set_num_waiting_for_streaming_input (num_waiting_for_streaming_input s - 1) s
                 else s in
        Ok (mkFinishLists valid (fl_running f) (fl_waiting f ++ [r]), s)
  end.

(** The second pass: set the status and free. *)
Definition finish_one (finished_status : RequestStatus) s i : result sched :=
  r ← deref i s;
  let remote := bool_decide (status r = WAITING_FOR_REMOTE_KVS) in
  let delay_free_blocks :=
    remote && negb (bool_decide (request_id r ∈ finished_recving_kv_req_ids s)) in
  let s := if remote then
             set_failed_recving_kv_req_ids (failed_recving_kv_req_ids s ∖ {[ request_id r ]})
               (set_finished_recving_kv_req_ids (finished_recving_kv_req_ids s ∖ {[ request_id r ]}) s)
           else s in
  let r := with_status finished_status r in
  let s := store r s in
  '(_, s) ← _free_request r delay_free_blocks s; Ok s.

(** [request_ids] is [None] for all requests; a collection of ids becomes a
    set, whose elements are listed without repetition. *)
Definition finish_requests (request_ids : option (list string)) (finished_status : RequestStatus) s
    : result (list (string * Z) * sched) :=
  _ ← assert_ (is_finished_status finished_status);
  let ids := match request_ids with Some ids => remove_dups ids | None => (requests s).*1 end in
  '(f, s) ← foldM collect_finish (mkFinishLists [] [] [], s) ids;
  let s := match fl_running f with
           | [] => s
           | rs => set_running (fst (remove_all Nat.eqb (running s) rs)) s
           end in
  s ← match fl_waiting f with
      | [] => Ok s
      | rs =>
          w ← remove_requests rs (waiting s);
          sk ← remove_requests rs (skipped_waiting s);
          Ok (set_skipped_waiting sk (set_waiting w s))
      end;
  s ← foldM (finish_one finished_status) s (fl_valid f);
  aborted ← mapR (λ i, r ← deref i s; Ok (request_id r, client_index r)) (fl_valid f);
  Ok (aborted, s).

Definition add_request r s : result sched :=
  match dict_get (request_id r) (requests s) with
  | Some i =>
      existing ← deref i s;
      let update := StreamingUpdate_from_request r in
      if negb (bool_decide (status existing = WAITING_FOR_STREAMING_REQ)) then
        queue ← of_option AssertionError (streaming_queue existing);
        Ok (store (with_streaming_queue (Some (queue ++ [update])) existing) s)
      else
        match update with
        | Some u => _update_request_as_session i u s
        | None => '(_, s) ← finish_requests (Some [request_id r]) FINISHED_ABORTED s; Ok s
        end
  | None =>
      let r := if resumable r then with_streaming_queue (Some []) r else r in
      let s := store r s in
      s ← _enqueue_waiting_request r s;
      let s := set_requests (dict_set (request_id r) (py_id r) (requests s)) s in
      Ok match connector s with
         | None => s
         | Some c => set_connector (Some (on_new_request r c)) s
         end
  end.

(** ** Encoder inputs *)

(** Why the loop over encoder inputs ends, and what it has decided so far. *)
Record encoder_plan := mkEncoderPlan {
  ep_inputs : list Z;
  ep_num_new_tokens : Z;
  ep_budget : Z;
  ep_external : list Z;
  ep_hashes : list string;
  ep_num_embeds : Z;
}.

Section EncoderInputs.
Variables (r : Request) (num_computed_tokens shift_computed_tokens : Z).

(** One iteration; the boolean is false for [break]. *)
Definition schedule_encoder_input (p : encoder_plan) (input : Z) s
    : result (bool * encoder_plan * sched) :=
  mm_feature ← py_get (mm_features r) input;
  let pos := mm_position mm_feature in
  let start_pos := offset pos in
  let num_encoder_tokens := length_ pos in
  let num_encoder_embeds := get_num_embeds pos in
  let item_identifier := identifier mm_feature in
  let num_new_tokens := ep_num_new_tokens p in
  let stop_at n :=
    mkEncoderPlan (ep_inputs p) n (ep_budget p) (ep_external p) (ep_hashes p) (ep_num_embeds p) in
  if is_encoder_decoder cfg && (num_computed_tokens >? 0) then
    _ ← assert_ (start_pos =? 0); Ok (true, p, s)
  else if negb (is_encoder_decoder cfg) && bool_decide (item_identifier ∈ ep_hashes p) then
    Ok (true, p, s)
  else
    '(hit, s) ← (if is_encoder_decoder cfg then Ok (false, s) else
                   '(b, e) ← enc_check_and_update r input (encoder_cache_manager s);
                   Ok (b, set_encoder_cache_manager e s));
    if (hit : bool) then Ok (true, p, s) else
    if disable_chunked_mm_input cfg && (num_computed_tokens <? start_pos)
       && (num_computed_tokens + num_new_tokens <? start_pos + num_encoder_tokens) then
      Ok (false, stop_at (Z.max 0 (start_pos - (num_computed_tokens + shift_computed_tokens))), s)
    else
      '(can, e) ← enc_can_allocate r input (ep_budget p) (ep_num_embeds p) (encoder_cache_manager s);
      let s := set_encoder_cache_manager e s in
      if negb can then
        Ok (false, stop_at (if num_computed_tokens + shift_computed_tokens <? start_pos
                            then start_pos - (num_computed_tokens + shift_computed_tokens) else 0), s)
      else
        let start_idx_rel := Z.max 0 (num_computed_tokens - start_pos) in
        let end_idx_rel := Z.min num_encoder_tokens (num_computed_tokens + num_new_tokens - start_pos) in
        '(curr_embeds_start, curr_embeds_end) ←
          get_embeds_indices_in_range pos start_idx_rel end_idx_rel;
        if curr_embeds_end - curr_embeds_start =? 0 then Ok (true, p, s) else
        if match ec_connector s with None => false | Some c => has_cache_item item_identifier c end then
          Ok (true, mkEncoderPlan (ep_inputs p) num_new_tokens (ep_budget p) (ep_external p ++ [input])
                      (item_identifier :: ep_hashes p) (ep_num_embeds p + num_encoder_embeds), s)
        else
          Ok (true, mkEncoderPlan (ep_inputs p ++ [input]) num_new_tokens (ep_budget p - num_encoder_embeds)
                      (ep_external p) (item_identifier :: ep_hashes p)
                      (ep_num_embeds p + num_encoder_embeds), s)
  .

Fixpoint schedule_encoder_loop (p : encoder_plan) (inputs : list Z) s : result (encoder_plan * sched) :=
  match inputs with
  | [] => Ok (p, s)
  | x :: inputs =>
      '(go, p, s) ← schedule_encoder_input p x s;
      if (go : bool) then schedule_encoder_loop p inputs s else Ok (p, s)
  end.
End EncoderInputs.

Definition _try_schedule_encoder_inputs r (num_computed_tokens num_new_tokens encoder_compute_budget
    shift_computed_tokens : Z) s : result (list Z * Z * Z * list Z * sched) :=
  if (num_new_tokens =? 0) || negb (has_encoder_inputs r)
  then Ok ([], num_new_tokens, encoder_compute_budget, [], s) else
  _ ← assert_ (zlen (mm_features r) >? 0);
  '(lo, hi) ← get_mm_features_in_window (mm_features r) num_computed_tokens
                (num_computed_tokens + num_new_tokens + shift_computed_tokens);
  let lo := if is_encoder_decoder cfg then 0 else lo in
  '(p, s) ← schedule_encoder_loop r num_computed_tokens shift_computed_tokens
              (mkEncoderPlan [] num_new_tokens encoder_compute_budget [] [] 0) (py_range lo hi) s;
  Ok (ep_inputs p, ep_num_new_tokens p, ep_budget p, ep_external p, s).

(** The loops that allocate the planned inputs. *)
Definition allocate_encoder_input r s (input : Z) : result sched :=
  e ← enc_allocate r input (encoder_cache_manager s);
  let s := set_encoder_cache_manager e s in
  Ok match ec_connector s with
     | None => s
     | Some c => set_ec_connector (Some (ec_update_state_after_alloc r input c)) s
     end.
Definition allocate_encoder_inputs r (inputs : list Z) s : result sched :=
  foldM (allocate_encoder_input r) s inputs.

(** Whether an input is past every token that can still be read. *)
Definition free_computed_input r s (input_id : Z) : result sched :=
  mm_feature ← py_get (mm_features r) input_id;
  let start_pos := offset (mm_position mm_feature) in
  let num_tokens := length_ (mm_position mm_feature) in
  let spec_lookahead := if sched_use_eagle cfg then 1 else 0 in
  if (is_encoder_decoder cfg && (num_computed_tokens r >? 0))
     || (start_pos + num_tokens + spec_lookahead <=? num_computed_tokens r - num_output_placeholders r)
  then e ← enc_free_encoder_input r input_id (encoder_cache_manager s);
       Ok (set_encoder_cache_manager e s)
  else Ok s.
Definition _free_encoder_inputs r s : result sched :=
  foldM (free_computed_input r) s (enc_get_cached_input_ids r (encoder_cache_manager s)).

(** ** Splitting prefills for Mamba *)

Definition _mamba_block_aligned_split r (num_new_tokens num_new_local_computed_tokens
    num_external_computed_tokens num_uncached_common_prefix_tokens : Z) : Z :=
  let computed :=
    num_computed_tokens r + num_new_local_computed_tokens + num_external_computed_tokens in
  if computed <? Z.max (num_prompt_tokens r) (num_tokens r - 1) then
    let block_size := cache_config_block_size cfg in
    let last_cache_position := num_tokens r - num_tokens r mod block_size in
    let last_cache_position :=
      if sched_use_eagle cfg then Z.max (last_cache_position - block_size) 0 else last_cache_position in
    let after_sched := computed + num_new_tokens in
    let num_new_tokens :=
      if after_sched <? last_cache_position then num_new_tokens / block_size * block_size
      else if (computed <? last_cache_position) && (last_cache_position <? after_sched)
      then last_cache_position - computed
      else num_new_tokens in
    if (num_uncached_common_prefix_tokens >=? block_size)
       && (num_new_tokens >? num_uncached_common_prefix_tokens)
    then num_uncached_common_prefix_tokens / block_size * block_size
    else num_new_tokens
  else num_new_tokens.

(** ** Blocks that in-flight prefills still need *)

Definition _request_remaining_blocks r s : result (Z * sched) :=
  let full_num_tokens := Z.min (num_tokens r) (sched_max_model_len cfg) in
  let k := kv_cache_manager s in
  '(n, c) ← coord_get_num_blocks_to_allocate (request_id r) full_num_tokens
              (kb_blocks (empty_kv_cache_blocks k)) 0 (num_computed_tokens r) full_num_tokens true
              (coordinator k);
  Ok (n, set_kv_cache_manager (with_coordinator c k) s).

Definition _inflight_prefill_reserved_blocks s : result (Z * sched) :=
  foldM (λ '(n, s) i, r ← deref i s; '(m, s) ← _request_remaining_blocks r s; Ok (n + m, s))
    (0, s) (elements (s.(_inflight_prefills))).

(** ** Blocked requests *)

Definition _update_waiting_for_remote_kv i s : result sched :=
  r ← deref i s;
  _ ← assert_ (bool_decide (is_Some (connector s)));
  s ← (if bool_decide (request_id r ∈ failed_recving_kv_req_ids s) then
         s ← (if negb (num_computed_tokens r =? 0) then
                '(k, r) ← kvm_cache_blocks r (num_computed_tokens r) (kv_cache_manager s);
                Ok (store r (set_kv_cache_manager k s))
              else
                k ← KVCacheManager.free r (kv_cache_manager s); Ok (set_kv_cache_manager k s));
         Ok (set_failed_recving_kv_req_ids (failed_recving_kv_req_ids s ∖ {[ request_id r ]}) s)
       else
         '(k, r) ← kvm_cache_blocks r (num_computed_tokens r) (kv_cache_manager s);
         let r := if num_computed_tokens r =? num_tokens r
                  then with_num_computed_tokens (num_tokens r - 1) r else r in
         Ok (store r (set_kv_cache_manager k s)));
  _ ← require KeyError (bool_decide (request_id r ∈ finished_recving_kv_req_ids s));
  Ok (set_finished_recving_kv_req_ids (finished_recving_kv_req_ids s ∖ {[ request_id r ]}) s).

Definition _try_promote_blocked_waiting_request i s : result (bool * sched) :=
  r ← deref i s;
  match status r with
  | WAITING_FOR_REMOTE_KVS =>
      if negb (bool_decide (request_id r ∈ finished_recving_kv_req_ids s)) then Ok (false, s) else
      s ← _update_waiting_for_remote_kv i s;
      r ← deref i s;
      Ok (true, store (with_status (if num_preemptions r =? 0 then WAITING else PREEMPTED) r) s)
  | WAITING_FOR_STRUCTURED_OUTPUT_GRAMMAR =>
      if negb (has_structured_output r && grammar_ready r (structured_output_manager s))
      then Ok (false, s)
      else Ok (true, store (with_status WAITING r) s)
  | WAITING_FOR_STREAMING_REQ =>
      _ ← assert_ match streaming_queue r with Some (_ :: _) => false | _ => true end;
      Ok (false, s)
  | _ => Raise AssertionError
  end.

(** ** Resets *)

(** [self.running.pop()] *)
Definition pop_last {A} (l : list A) : result (A * list A) :=
  x ← of_option IndexError (last l); Ok (x, removelast l).

(** The loop that preempts all running requests, last one first. *)
Fixpoint preempt_all (n : nat) s : result sched :=
  match running s with
  | [] => Ok s
  | _ =>
      match n with
      | O => Raise OutOfFuel
      | S n =>
          '(i, rest) ← pop_last (running s);
          s ← _preempt_request i (set_running rest s);
          r ← deref i s;
          let r := with_async_tokens_to_discard (num_output_placeholders r) r in
          preempt_all n (store (with_num_output_placeholders 0 r) s)
      end
  end.

Definition reset_connector_cache s : result (bool * sched) :=
  match connector s with
  | None => Ok (true, s)
  | Some c =>
      let '(b, c) := reset_cache c in
      let s := set_connector (Some c) s in
      if bool_decide (b = Some false) then Ok (false, s) else
      if sched_log_stats cfg then
        st ← of_option AssertionError (connector_prefix_cache_stats s);
        Ok (true, set_connector_prefix_cache_stats (Some (set_reset st)) s)
      else Ok (true, s)
  end.

Definition reset_prefix_cache (reset_running_requests reset_connector : bool) s : result (bool * sched) :=
  s ← (if reset_running_requests then
         s ← preempt_all (length (running s)) s;
         Ok (set_prev_step_scheduled_req_ids ∅ s)
       else Ok s);
  '(reset_successful, k) ← kvm_reset_prefix_cache (kv_cache_manager s);
  let s := set_kv_cache_manager k s in
  _ ← require RuntimeError (negb (reset_running_requests && negb reset_successful));
  if reset_connector then
    '(b, s) ← reset_connector_cache s; Ok (b && reset_successful, s)
  else Ok (reset_successful, s).

Definition reset_encoder_cache s : sched :=
  set_encoder_cache_manager (enc_reset (encoder_cache_manager s)) s.

(** ** Draft tokens *)

Definition update_draft_token s (d : string * list Z) : result sched :=
  let '(req_id, drafts) := d in
  match dict_get req_id (requests s) with
  | None => Ok s
  | Some i =>
      r ← deref i s;
      if is_finished r then Ok s else
      if is_prefill_chunk r then
        Ok (match spec_token_ids r with [] => s | _ => store (with_spec_token_ids [] r) s end)
      else
        let '(advance, g) := should_advance r (structured_output_manager s) in
        let s := set_structured_output_manager g s in
        let drafts := if (advance : bool) then validate_tokens req_id drafts g else drafts in
        Ok (store (with_spec_token_ids drafts r) s)
  end.
Definition update_draft_token_ids (d : DraftTokenIds) s : result sched :=
  foldM update_draft_token s (zip (draft_req_ids d) (draft_token_ids d)).

End Scheduler.
