(* ===== verification/Schedule.v ===== *)
(** * A scheduling step ([Scheduler.schedule] and [_update_after_schedule])

    The local variables of the method are the record [Step].  A loop body
    returns whether the loop goes on ([true]) or breaks ([false]).  The loop
    over running requests, the preemption loop inside it and the loop over
    waiting requests have bounds: every iteration of the first passes one
    running request or removes it, every iteration of the second removes one
    running request, and every iteration of the third takes one request out of
    the waiting queues. *)

From S2P Require Import Prelude MathUtils Request BlockHash KVMetrics FreeQueue BlockPool.
From S2P Require Import SingleTypeManager Coordinator CacheStats KVCacheManager EncoderCache.
From S2P Require Import Heapq RequestQueue SchedUtils PyDict SchedState Scheduler.

Local Open Scope Z_scope.

Record Step (Q WQ C E G : Type) := mkStep {
  sch : Scheduler Q WQ C E G;
  req_index : Z;
  token_budget : Z;
  encoder_compute_budget : Z;
  new_reqs : list nat;
  resumed_reqs : list nat;
  running_reqs : list nat;
  preempted_reqs : list nat;
  req_to_new_blocks : dict KVCacheBlocks;
  tokens_of : dict Z;
  spec_tokens_of : dict (list Z);
  encoder_inputs_of : dict (list Z);
  prefill_scheduled : bool;
  scheduled_loras : gset Z;
  step_skipped_waiting : WQ;
}.
Arguments mkStep {Q} {WQ} {C} {E} {G}.
Arguments sch {Q} {WQ} {C} {E} {G}.
Arguments req_index {Q} {WQ} {C} {E} {G}.
Arguments token_budget {Q} {WQ} {C} {E} {G}.
Arguments encoder_compute_budget {Q} {WQ} {C} {E} {G}.
Arguments new_reqs {Q} {WQ} {C} {E} {G}.
Arguments resumed_reqs {Q} {WQ} {C} {E} {G}.
Arguments running_reqs {Q} {WQ} {C} {E} {G}.
Arguments preempted_reqs {Q} {WQ} {C} {E} {G}.
Arguments req_to_new_blocks {Q} {WQ} {C} {E} {G}.
Arguments tokens_of {Q} {WQ} {C} {E} {G}.
Arguments spec_tokens_of {Q} {WQ} {C} {E} {G}.
Arguments encoder_inputs_of {Q} {WQ} {C} {E} {G}.
Arguments prefill_scheduled {Q} {WQ} {C} {E} {G}.
Arguments scheduled_loras {Q} {WQ} {C} {E} {G}.
Arguments step_skipped_waiting {Q} {WQ} {C} {E} {G}.

(** Attribute assignments. *)
Definition put_sch {Q WQ C E G} (x : Scheduler Q WQ C E G) (s : Step Q WQ C E G) : Step Q WQ C E G :=
  mkStep x (s.(req_index)) (s.(token_budget)) (s.(encoder_compute_budget)) (s.(new_reqs))
    (s.(resumed_reqs)) (s.(running_reqs)) (s.(preempted_reqs)) (s.(req_to_new_blocks))
    (s.(tokens_of)) (s.(spec_tokens_of)) (s.(encoder_inputs_of)) (s.(prefill_scheduled))
    (s.(scheduled_loras)) (s.(step_skipped_waiting)).
Definition put_req_index {Q WQ C E G} (x : Z) (s : Step Q WQ C E G) : Step Q WQ C E G :=
  mkStep (s.(sch)) x (s.(token_budget)) (s.(encoder_compute_budget)) (s.(new_reqs))
    (s.(resumed_reqs)) (s.(running_reqs)) (s.(preempted_reqs)) (s.(req_to_new_blocks))
    (s.(tokens_of)) (s.(spec_tokens_of)) (s.(encoder_inputs_of)) (s.(prefill_scheduled))
    (s.(scheduled_loras)) (s.(step_skipped_waiting)).
Definition put_token_budget {Q WQ C E G} (x : Z) (s : Step Q WQ C E G) : Step Q WQ C E G :=
  mkStep (s.(sch)) (s.(req_index)) x (s.(encoder_compute_budget)) (s.(new_reqs))
    (s.(resumed_reqs)) (s.(running_reqs)) (s.(preempted_reqs)) (s.(req_to_new_blocks))
    (s.(tokens_of)) (s.(spec_tokens_of)) (s.(encoder_inputs_of)) (s.(prefill_scheduled))
    (s.(scheduled_loras)) (s.(step_skipped_waiting)).
Definition put_encoder_compute_budget {Q WQ C E G} (x : Z) (s : Step Q WQ C E G) : Step Q WQ C E G :=
  mkStep (s.(sch)) (s.(req_index)) (s.(token_budget)) x (s.(new_reqs)) (s.(resumed_reqs))
    (s.(running_reqs)) (s.(preempted_reqs)) (s.(req_to_new_blocks)) (s.(tokens_of))
    (s.(spec_tokens_of)) (s.(encoder_inputs_of)) (s.(prefill_scheduled)) (s.(scheduled_loras))
    (s.(step_skipped_waiting)).
Definition put_new_reqs {Q WQ C E G} (x : list nat) (s : Step Q WQ C E G) : Step Q WQ C E G :=
  mkStep (s.(sch)) (s.(req_index)) (s.(token_budget)) (s.(encoder_compute_budget)) x
    (s.(resumed_reqs)) (s.(running_reqs)) (s.(preempted_reqs)) (s.(req_to_new_blocks))
    (s.(tokens_of)) (s.(spec_tokens_of)) (s.(encoder_inputs_of)) (s.(prefill_scheduled))
    (s.(scheduled_loras)) (s.(step_skipped_waiting)).
Definition put_resumed_reqs {Q WQ C E G} (x : list nat) (s : Step Q WQ C E G) : Step Q WQ C E G :=
  mkStep (s.(sch)) (s.(req_index)) (s.(token_budget)) (s.(encoder_compute_budget))
    (s.(new_reqs)) x (s.(running_reqs)) (s.(preempted_reqs)) (s.(req_to_new_blocks))
    (s.(tokens_of)) (s.(spec_tokens_of)) (s.(encoder_inputs_of)) (s.(prefill_scheduled))
    (s.(scheduled_loras)) (s.(step_skipped_waiting)).
Definition put_running_reqs {Q WQ C E G} (x : list nat) (s : Step Q WQ C E G) : Step Q WQ C E G :=
  mkStep (s.(sch)) (s.(req_index)) (s.(token_budget)) (s.(encoder_compute_budget))
    (s.(new_reqs)) (s.(resumed_reqs)) x (s.(preempted_reqs)) (s.(req_to_new_blocks))
    (s.(tokens_of)) (s.(spec_tokens_of)) (s.(encoder_inputs_of)) (s.(prefill_scheduled))
    (s.(scheduled_loras)) (s.(step_skipped_waiting)).
Definition put_preempted_reqs {Q WQ C E G} (x : list nat) (s : Step Q WQ C E G) : Step Q WQ C E G :=
  mkStep (s.(sch)) (s.(req_index)) (s.(token_budget)) (s.(encoder_compute_budget))
    (s.(new_reqs)) (s.(resumed_reqs)) (s.(running_reqs)) x (s.(req_to_new_blocks))
    (s.(tokens_of)) (s.(spec_tokens_of)) (s.(encoder_inputs_of)) (s.(prefill_scheduled))
    (s.(scheduled_loras)) (s.(step_skipped_waiting)).
Definition put_req_to_new_blocks {Q WQ C E G} (x : dict KVCacheBlocks) (s : Step Q WQ C E G) : Step Q WQ C E G :=
  mkStep (s.(sch)) (s.(req_index)) (s.(token_budget)) (s.(encoder_compute_budget))
    (s.(new_reqs)) (s.(resumed_reqs)) (s.(running_reqs)) (s.(preempted_reqs)) x
    (s.(tokens_of)) (s.(spec_tokens_of)) (s.(encoder_inputs_of)) (s.(prefill_scheduled))
    (s.(scheduled_loras)) (s.(step_skipped_waiting)).
Definition put_tokens_of {Q WQ C E G} (x : dict Z) (s : Step Q WQ C E G) : Step Q WQ C E G :=
  mkStep (s.(sch)) (s.(req_index)) (s.(token_budget)) (s.(encoder_compute_budget))
    (s.(new_reqs)) (s.(resumed_reqs)) (s.(running_reqs)) (s.(preempted_reqs))
    (s.(req_to_new_blocks)) x (s.(spec_tokens_of)) (s.(encoder_inputs_of))
    (s.(prefill_scheduled)) (s.(scheduled_loras)) (s.(step_skipped_waiting)).
Definition put_spec_tokens_of {Q WQ C E G} (x : dict (list Z)) (s : Step Q WQ C E G) : Step Q WQ C E G :=
  mkStep (s.(sch)) (s.(req_index)) (s.(token_budget)) (s.(encoder_compute_budget))
    (s.(new_reqs)) (s.(resumed_reqs)) (s.(running_reqs)) (s.(preempted_reqs))
    (s.(req_to_new_blocks)) (s.(tokens_of)) x (s.(encoder_inputs_of)) (s.(prefill_scheduled))
    (s.(scheduled_loras)) (s.(step_skipped_waiting)).
Definition put_encoder_inputs_of {Q WQ C E G} (x : dict (list Z)) (s : Step Q WQ C E G) : Step Q WQ C E G :=
  mkStep (s.(sch)) (s.(req_index)) (s.(token_budget)) (s.(encoder_compute_budget))
    (s.(new_reqs)) (s.(resumed_reqs)) (s.(running_reqs)) (s.(preempted_reqs))
    (s.(req_to_new_blocks)) (s.(tokens_of)) (s.(spec_tokens_of)) x (s.(prefill_scheduled))
    (s.(scheduled_loras)) (s.(step_skipped_waiting)).
Definition put_prefill_scheduled {Q WQ C E G} (x : bool) (s : Step Q WQ C E G) : Step Q WQ C E G :=
  mkStep (s.(sch)) (s.(req_index)) (s.(token_budget)) (s.(encoder_compute_budget))
    (s.(new_reqs)) (s.(resumed_reqs)) (s.(running_reqs)) (s.(preempted_reqs))
    (s.(req_to_new_blocks)) (s.(tokens_of)) (s.(spec_tokens_of)) (s.(encoder_inputs_of)) x
    (s.(scheduled_loras)) (s.(step_skipped_waiting)).
Definition put_scheduled_loras {Q WQ C E G} (x : gset Z) (s : Step Q WQ C E G) : Step Q WQ C E G :=
  mkStep (s.(sch)) (s.(req_index)) (s.(token_budget)) (s.(encoder_compute_budget))
    (s.(new_reqs)) (s.(resumed_reqs)) (s.(running_reqs)) (s.(preempted_reqs))
    (s.(req_to_new_blocks)) (s.(tokens_of)) (s.(spec_tokens_of)) (s.(encoder_inputs_of))
    (s.(prefill_scheduled)) x (s.(step_skipped_waiting)).
Definition put_step_skipped_waiting {Q WQ C E G} (x : WQ) (s : Step Q WQ C E G) : Step Q WQ C E G :=
  mkStep (s.(sch)) (s.(req_index)) (s.(token_budget)) (s.(encoder_compute_budget))
    (s.(new_reqs)) (s.(resumed_reqs)) (s.(running_reqs)) (s.(preempted_reqs))
    (s.(req_to_new_blocks)) (s.(tokens_of)) (s.(spec_tokens_of)) (s.(encoder_inputs_of))
    (s.(prefill_scheduled)) (s.(scheduled_loras)) x.

(** What is known about the cached tokens of a waiting request. *)
Record computed_tokens := mkComputed {
  ct_blocks : KVCacheBlocks;
  ct_local : Z;
  ct_external : Z;
  ct_load_kv_async : bool;
  ct_uncached_prefix : Z;
  ct_total : Z;
  ct_queries : Z;
  ct_hits : Z;
}.

(** The tokens and encoder inputs a waiting request gets. *)
Record token_plan := mkTokenPlan {
  tp_num_new_tokens : Z;
  tp_encoder_inputs : list Z;
  tp_encoder_budget : Z;
  tp_external_inputs : list Z;
  tp_pad_spec_decode : bool;
}.

Section Schedule.
Context {Q : Type} `{!FreeQueueOps Q} {env : PoolEnv}.
Context {WQ : Type} `{!RequestQueueOps WQ} `{!QueueAlias WQ}.
Context {C E G : Type} `{!KVConnector C} `{!ECConnector E} `{!StructuredOutput G}.
Context (cfg : SchedulerConfig).
Abbreviation sched := (Scheduler Q WQ C E G).
Abbreviation step := (Step Q WQ C E G).
Implicit Types (s : sched) (l : step) (r : Request) (i : nat).

(** An action on the scheduler inside a step. *)
Definition on_sched (f : sched → result sched) l : result step :=
  s ← f (sch l); Ok (put_sch s l).
Definition store_in r l : step := put_sch (store r (sch l)) l.

(** ** Preemption *)

(** [max(self.running, key=lambda r: (r.priority, r.arrival_time))]: the first
    of the greatest elements. *)
Definition key_gt (a b : Request) : bool :=
  (priority a >? priority b) || ((priority a =? priority b) && (arrival_time a >? arrival_time b)).
Definition max_by_priority (refs : list nat) s : result nat :=
  match refs with
  | [] => Raise ValueError
  | i :: refs =>
      foldM (λ best j, a ← deref j s; b ← deref best s; Ok (if key_gt a b then j else best)) i refs
  end.

(** Undo what this step has scheduled for a request that is preempted. *)
Definition unschedule i l : result step :=
  r ← deref i (sch l);
  let id := request_id r in
  let l := put_running_reqs (remove_first Nat.eqb i (running_reqs l)) l in
  '(n, d) ← dict_pop id (tokens_of l);
  let l := put_token_budget (token_budget l + n) (put_tokens_of d l) in
  '(_, d) ← dict_pop id (req_to_new_blocks l);
  let l := put_req_to_new_blocks d l in
  let l := put_spec_tokens_of (dict_del id (spec_tokens_of l)) l in
  let inputs := default [] (dict_get id (encoder_inputs_of l)) in
  let l := put_encoder_inputs_of (dict_del id (encoder_inputs_of l)) l in
  ns ← mapR (get_num_encoder_embeds r) inputs;
  let l := put_encoder_compute_budget (encoder_compute_budget l + foldr Z.add 0 ns) l in
  Ok (put_req_index (req_index l - 1) l).

(** Preempt the lowest-priority request; returns it. *)
Definition preempt_lowest l : result (nat * step) :=
  '(i, l) ←
    match policy cfg with
    | PRIORITY =>
        i ← max_by_priority (running (sch l)) (sch l);
        let l := put_sch (set_running (remove_first Nat.eqb i (running (sch l))) (sch l)) l in
        l ← (if bool_decide (i ∈ running_reqs l) then unschedule i l else Ok l);
        Ok (i, l)
    | FCFS =>
        '(i, rest) ← pop_last (running (sch l));
        Ok (i, put_sch (set_running rest (sch l)) l)
    end;
  l ← on_sched (_preempt_request cfg i) l;
  Ok (i, put_preempted_reqs (preempted_reqs l ++ [i]) l).

(** Allocate slots for a running request, preempting others, and at last the
    request itself, until they fit. *)
Fixpoint allocate_or_preempt (fuel : nat) i (num_new_tokens : Z) l
    : result (option KVCacheBlocks * step) :=
  r ← deref i (sch l);
  '(new_blocks, k, r) ← allocate_slots r num_new_tokens 0 None (num_lookahead_tokens cfg) 0 false 0
                          false 0 true (kv_cache_manager (sch l));
  let l := store_in r (put_sch (set_kv_cache_manager k (sch l)) l) in
  match new_blocks with
  | Some b => Ok (Some b, l)
  | None =>
      match fuel with
      | O => Raise OutOfFuel
      | S fuel =>
          '(j, l) ← preempt_lowest l;
          if Nat.eqb j i then Ok (None, l) else allocate_or_preempt fuel i num_new_tokens l
      end
  end.

(** ** Running requests *)

(** Conditions under which a running request is passed over. *)
Definition reached_max_tokens r : bool :=
  (num_output_placeholders r >? 0) &&
  (num_computed_tokens r + 2 - num_output_placeholders r >=? num_prompt_tokens r + max_tokens r).

(** The tokens a running request would like to have. *)
Definition running_num_new_tokens r l : Z :=
  let n := num_tokens_with_spec r + num_output_placeholders r - num_computed_tokens r in
  let threshold := long_prefill_token_threshold cfg in
  let n := if (0 <? threshold) && (threshold <? n) then threshold else n in
  let n := Z.min n (token_budget l) in
  Z.min n (sched_max_model_len cfg - num_computed_tokens r - num_sampled_tokens_per_step cfg).

(** The draft tokens that fit into the scheduled tokens. *)
Definition take_spec_tokens i (num_new_tokens : Z) l : result step :=
  r ← deref i (sch l);
  match spec_token_ids r with
  | [] => Ok l
  | spec =>
      let n := num_new_tokens + num_computed_tokens r - num_tokens r - num_output_placeholders r in
      let l := if n >? 0 then
                 let spec := if zlen spec >? n then py_upto spec n else spec in
                 put_spec_tokens_of (dict_set (request_id r) spec (spec_tokens_of l)) l
               else l in
      Ok (store_in (with_spec_token_ids [] r) l)
  end.

(** Encoder inputs of a scheduled request. *)
Definition take_encoder_inputs i (inputs external : list Z) (new_budget : Z) l : result step :=
  r ← deref i (sch l);
  l ← match inputs with
      | [] => Ok l
      | _ =>
          let l := put_encoder_inputs_of (dict_set (request_id r) inputs (encoder_inputs_of l)) l in
          l ← on_sched (allocate_encoder_inputs r inputs) l;
          Ok (put_encoder_compute_budget new_budget l)
      end;
  match external with
  | [] => Ok l
  | _ => on_sched (allocate_encoder_inputs r external) l
  end.

Definition next_index l : step := put_req_index (req_index l + 1) l.

Definition encoder_shift : Z := if sched_use_eagle cfg then 1 else 0.

Definition running_body (defer_prefills : bool) l : result (bool * step) :=
  i ← py_get (running (sch l)) (req_index l);
  r ← deref i (sch l);
  if reached_max_tokens r then Ok (true, next_index l) else
  if current_step (sch l) <? next_decode_eligible_step r then Ok (true, next_index l) else
  if defer_prefills && is_prefill_chunk r then Ok (true, next_index l) else
  let num_new_tokens := running_num_new_tokens r l in
  '(inputs, num_new_tokens, new_budget, external, s) ←
    (if has_encoder_inputs r then
       _try_schedule_encoder_inputs cfg r (num_computed_tokens r) num_new_tokens
         (encoder_compute_budget l) encoder_shift (sch l)
     else Ok ([], num_new_tokens, encoder_compute_budget l, [], sch l));
  let l := put_sch s l in
  let num_new_tokens :=
    if need_mamba_block_aligned_split cfg then _mamba_block_aligned_split cfg r num_new_tokens 0 0 0
    else num_new_tokens in
  if num_new_tokens =? 0 then Ok (true, next_index l) else
  '(new_blocks, l) ← allocate_or_preempt (length (running (sch l))) i num_new_tokens l;
  match new_blocks with
  | None => Ok (false, l)
  | Some blocks =>
      let l := put_running_reqs (running_reqs l ++ [i]) l in
      let l := put_prefill_scheduled (prefill_scheduled l || is_prefill_chunk r) l in
      let l := put_req_to_new_blocks (dict_set (request_id r) blocks (req_to_new_blocks l)) l in
      let l := put_tokens_of (dict_set (request_id r) num_new_tokens (tokens_of l)) l in
      let l := put_token_budget (token_budget l - num_new_tokens) l in
      let l := next_index l in
      l ← take_spec_tokens i num_new_tokens l;
      l ← take_encoder_inputs i inputs external new_budget l;
      Ok (true, l)
  end.

Fixpoint running_loop (fuel : nat) (defer_prefills : bool) l : result step :=
  if (req_index l <? zlen (running (sch l))) && (token_budget l >? 0) then
    match fuel with
    | O => Raise OutOfFuel
    | S fuel =>
        '(go, l) ← running_body defer_prefills l;
        if (go : bool) then running_loop fuel defer_prefills l else Ok l
    end
  else Ok l.

(** The LoRAs of the scheduled running requests. *)
Definition running_loras l : result (gset Z) :=
  foldM (λ X i, r ← deref i (sch l);
    Ok match lora_request r with
       | Some lr => if lora_int_id lr >? 0 then {[ lora_int_id lr ]} ∪ X else X
       | None => X
       end) ∅ (running_reqs l).

Definition record_running_loras l : result step :=
  match max_loras cfg with
  | None => Ok (put_scheduled_loras ∅ l)
  | Some m =>
      X ← running_loras l;
      _ ← assert_ (Z.of_nat (size X) <=? m);
      Ok (put_scheduled_loras X l)
  end.

(** ** Waiting requests *)

(** Move the head of a queue to the requests skipped in this step. *)
Definition skip_head (n : queue_name) l : result step :=
  '(x, q) ← pop_request (get_queue n (sch l));
  let l := put_sch (set_queue n q (sch l)) l in
  sk ← prepend_request x (step_skipped_waiting l);
  Ok (put_step_skipped_waiting sk l).

Definition lora_exceeded r l : bool :=
  match max_loras cfg, lora_request r with
  | Some m, Some lr =>
      (Z.of_nat (size (scheduled_loras l)) =? m) && negb (bool_decide (lora_int_id lr ∈ scheduled_loras l))
  | _, _ => false
  end.

(** Locally cached tokens. *)
Definition local_computed r s : result (KVCacheBlocks * Z * sched) :=
  let k := kv_cache_manager s in
  match connector s, coord_kind (coordinator k) with
  | Some _, Hybrid hbs groups =>
      if sched_has_mamba_layers cfg then
        '(computed, per_group_hits) ←
          hybrid_find_longest_cache_hit_per_group (block_hashes r) (num_tokens r - 1) hbs
            (coord_scheduler_block_size (coordinator k)) groups (num_kv_cache_groups k) (kv_pool k);
        n ← match per_group_hits with
            | [] => Raise ValueError
            | x :: xs => Ok (fold_left Z.max xs x)
            end;
        k' ← (if log_stats k then
                st ← of_option AssertionError (prefix_cache_stats k);
                Ok (with_stats (Some (record (num_tokens r) n (num_preemptions r >? 0) st)) k)
              else Ok k);
        Ok (create_kv_cache_blocks computed k, n, set_kv_cache_manager k' s)
      else
        '(b, n, k) ← get_computed_blocks r k; Ok (b, n, set_kv_cache_manager k s)
  | _, _ => '(b, n, k) ← get_computed_blocks r k; Ok (b, n, set_kv_cache_manager k s)
  end.

(** Tokens a KV connector can provide; [None] when it cannot tell yet. *)
Definition external_computed r (local : Z) s : result (option (Z * bool * Z * Z) * sched) :=
  match connector s with
  | None => Ok (Some (0, false, 0, 0), s)
  | Some c =>
      let '(ext, load_kv_async, c) := get_num_new_matched_tokens r local c in
      let s := set_connector (Some c) s in
      match ext with
      | None => Ok (None, s)
      | Some n => Ok (Some (n, load_kv_async, num_tokens r - local, n), s)
      end
  end.

(** Whether prefetches of the encoder cache connector are still pending. *)
Definition encoder_pending r (computed : Z) s : bool * sched :=
  match ec_connector s, mm_features r with
  | Some c, _ :: _ =>
      let '(ok, c) := ensure_cache_available r computed c in (negb ok, set_ec_connector (Some c) s)
  | _, _ => (false, s)
  end.

(** Already-cached tokens of a waiting request; [None] to skip it. *)
Definition lookup_computed i s : result (option computed_tokens * sched) :=
  r ← deref i s;
  if num_computed_tokens r =? 0 then
    '(blocks, local, s) ← local_computed r s;
    let uncached := if sched_has_mamba_layers cfg
                    then num_uncached_common_prefix_tokens (coordinator (kv_cache_manager s)) else 0 in
    '(ext, s) ← external_computed r local s;
    match ext with
    | None => Ok (None, s)
    | Some (external, load_kv_async, queries, hits) =>
        let total := local + external in
        _ ← assert_ (total <=? num_tokens r);
        let '(pending, s) := encoder_pending r total s in
        if (pending : bool) then Ok (None, s) else
        s ← match prefill_stats r with
            | None => Ok s
            | Some _ =>
                _ ← assert_ (total <=? num_prompt_tokens r);
                p ← PrefillStats_set (num_prompt_tokens r) local external;
                Ok (store (with_prefill_stats (Some p) r) s)
            end;
        Ok (Some (mkComputed blocks local external load_kv_async uncached total queries hits), s)
    end
  else
    Ok (Some (mkComputed (empty_kv_cache_blocks (kv_cache_manager s)) 0 0 false 0
                (num_computed_tokens r) 0 0), s).

(** The number of tokens for a waiting request; [None] to stop the loop. *)
Definition waiting_num_new_tokens (defer_prefills : bool) r (computed : Z) l : option (Z * bool) :=
  if defer_prefills && (computed <? num_tokens r - 1) then None else
  let n := num_tokens r - computed in
  let pad := (num_spec_tokens cfg >? 0) && bool_decide (dynamic_sd_lookup cfg = None) && (n =? 1)
             && (negb (bool_decide (running_reqs l = [])) && negb (prefill_scheduled l)) in
  let n := if pad then 1 + num_spec_tokens cfg else n in
  if pad && ((n >? token_budget l) || (computed + n >? sched_max_model_len cfg)) then None else
  let threshold := long_prefill_token_threshold cfg in
  let n := if (0 <? threshold) && (threshold <? n) then threshold else n in
  if negb (enable_chunked_prefill cfg) && (n >? token_budget l) then None else
  Some (Z.min n (token_budget l), pad).

Definition plan_tokens (defer_prefills : bool) i (ct : computed_tokens) l
    : result (option token_plan * step) :=
  r ← deref i (sch l);
  '(plan, l) ←
    (if ct_load_kv_async ct then
       _ ← assert_ (ct_external ct >? 0);
       Ok (Some (mkTokenPlan 0 [] (encoder_compute_budget l) [] false), l)
     else
       match waiting_num_new_tokens defer_prefills r (ct_total ct) l with
       | None => Ok (None, l)
       | Some (n, pad) =>
           _ ← assert_ (n >? 0);
           if has_encoder_inputs r then
             '(inputs, n, budget, external, s) ←
               _try_schedule_encoder_inputs cfg r (ct_total ct) n (encoder_compute_budget l)
                 encoder_shift (sch l);
             let l := put_sch s l in
             if n =? 0 then Ok (None, l) else Ok (Some (mkTokenPlan n inputs budget external pad), l)
           else Ok (Some (mkTokenPlan n [] (encoder_compute_budget l) [] pad), l)
       end);
  match plan with
  | None => Ok (None, l)
  | Some p =>
      if need_mamba_block_aligned_split cfg && negb (ct_load_kv_async ct) then
        let n := _mamba_block_aligned_split cfg r (tp_num_new_tokens p) (ct_local ct) (ct_external ct)
                   (ct_uncached_prefix ct) in
        if n =? 0 then Ok (None, l) else
        Ok (Some (mkTokenPlan n (tp_encoder_inputs p) (tp_encoder_budget p) (tp_external_inputs p)
                    (tp_pad_spec_decode p)), l)
      else Ok (Some p, l)
  end.

(** Slots for a waiting request. *)
Definition allocate_waiting i (ct : computed_tokens) (p : token_plan) s
    : result (option KVCacheBlocks * sched) :=
  r ← deref i s;
  let lookahead := if ct_load_kv_async ct && sched_use_eagle cfg then 0 else num_lookahead_tokens cfg in
  num_encoder_tokens ←
    (if is_encoder_decoder cfg && has_encoder_inputs r then
       ns ← mapR (get_num_encoder_embeds r) (tp_encoder_inputs p); Ok (foldr Z.add 0 ns)
     else Ok 0);
  '(reserved_blocks, s) ←
    (if ct_load_kv_async ct then _inflight_prefill_reserved_blocks cfg s else Ok (0, s));
  '(new_blocks, k, r) ←
    allocate_slots r (tp_num_new_tokens p) (ct_local ct) (Some (ct_blocks ct)) lookahead
      (ct_external ct) (ct_load_kv_async ct) num_encoder_tokens (scheduler_reserve_full_isl cfg)
      reserved_blocks (negb (bool_decide (running s = []))) (kv_cache_manager s);
  Ok (new_blocks, store r (set_kv_cache_manager k s)).

(** The connector learns about the allocation. *)
Definition notify_connector i (ct : computed_tokens) s : result sched :=
  match connector s with
  | None => Ok s
  | Some c =>
      r ← deref i s;
      let c := update_state_after_alloc r (get_blocks (request_id r) (kv_cache_manager s))
                 (ct_external ct) c in
      let s := set_connector (Some c) s in
      Ok match connector_prefix_cache_stats s with
         | Some st =>
             if ct_queries ct =? 0 then s else
             set_connector_prefix_cache_stats
               (Some (record (ct_queries ct) (ct_hits ct) (num_preemptions r >? 0) st)) s
         | None => s
         end
  end.

(** The request starts to run. *)
Definition start_running i (ct : computed_tokens) (p : token_plan) l : result step :=
  let l := put_sch (set_running (running (sch l) ++ [i]) (sch l)) l in
  r ← deref i (sch l);
  l ← match status r with
      | WAITING => Ok (put_new_reqs (new_reqs l ++ [i]) l)
      | PREEMPTED => Ok (put_resumed_reqs (resumed_reqs l ++ [i]) l)
      | _ => Raise RuntimeError
      end;
  let l := match max_loras cfg, lora_request r with
           | Some _, Some lr => put_scheduled_loras ({[ lora_int_id lr ]} ∪ scheduled_loras l) l
           | _, _ => l
           end in
  let id := request_id r in
  let n := tp_num_new_tokens p in
  let l := put_req_to_new_blocks
             (dict_set id (get_blocks id (kv_cache_manager (sch l))) (req_to_new_blocks l)) l in
  let l := put_tokens_of (dict_set id n (tokens_of l)) l in
  let l := put_token_budget (token_budget l - n) l in
  let l := store_in (with_num_computed_tokens (ct_total ct) (with_status RUNNING r)) l in
  let l := if tp_pad_spec_decode p then
             put_spec_tokens_of
               (dict_set id (replicate (Z.to_nat (num_spec_tokens cfg)) (-1)) (spec_tokens_of l)) l
           else l in
  let l := if ct_total ct + n <? num_tokens r then
             put_sch (set_inflight_prefills ({[ i ]} ∪ (sch l).(_inflight_prefills)) (sch l)) l
           else l in
  take_encoder_inputs i (tp_encoder_inputs p) (tp_external_inputs p) (tp_encoder_budget p) l.

(** The request waits for its KV cache to be loaded. *)
Definition start_loading i (ct : computed_tokens) (x : Request) l : result step :=
  r ← deref i (sch l);
  sk ← prepend_request x (step_skipped_waiting l);
  let l := put_step_skipped_waiting sk l in
  let l := store_in (with_num_computed_tokens (ct_total ct) (with_status WAITING_FOR_REMOTE_KVS r)) l in
  Ok (put_sch (set_inflight_prefills ({[ i ]} ∪ (sch l).(_inflight_prefills)) (sch l)) l).

Definition waiting_body (defer_prefills : bool) l : result (bool * step) :=
  let num_running := zlen (running (sch l)) + num_waiting_for_streaming_input (sch l) in
  if num_running >=? max_num_running_reqs cfg then Ok (false, l) else
  n ← (n ← _select_waiting_queue_for_scheduling cfg (sch l); of_option AssertionError n);
  entry ← peek_request (get_queue n (sch l));
  let i := py_id entry in
  r ← deref i (sch l);
  '(promoted, s) ←
    (if _is_blocked_waiting_status (status r)
     then _try_promote_blocked_waiting_request i (sch l) else Ok (true, sch l));
  let l := put_sch s l in
  if negb promoted then l ← skip_head n l; Ok (true, l) else
  if lora_exceeded r l then l ← skip_head n l; Ok (true, l) else
  '(ct, s) ← lookup_computed i (sch l);
  let l := put_sch s l in
  match ct with
  | None => l ← skip_head n l; Ok (true, l)
  | Some ct =>
      '(p, l) ← plan_tokens defer_prefills i ct l;
      match p with
      | None => Ok (false, l)
      | Some p =>
          '(new_blocks, s) ← allocate_waiting i ct p (sch l);
          let l := put_sch s l in
          match new_blocks with
          | None =>
              r ← deref i (sch l);
              l ← (if has_encoder_inputs r then
                     on_sched (λ s, e ← enc_free r (encoder_cache_manager s);
                                    Ok (set_encoder_cache_manager e s)) l
                   else Ok l);
              Ok (false, l)
          | Some _ =>
              l ← on_sched (notify_connector i ct) l;
              '(x, q) ← pop_request (get_queue n (sch l));
              let l := put_sch (set_queue n q (sch l)) l in
              l ← (if ct_load_kv_async ct then start_loading i ct x l else start_running i ct p l);
              Ok (true, l)
          end
      end
  end.

Fixpoint waiting_loop (fuel : nat) (defer_prefills : bool) l : result step :=
  if (queue_bool (waiting (sch l)) || queue_bool (skipped_waiting (sch l))) && (token_budget l >? 0) then
    match fuel with
    | O => Raise OutOfFuel
    | S fuel =>
        '(go, l) ← waiting_body defer_prefills l;
        if (go : bool) then waiting_loop fuel defer_prefills l else Ok l
    end
  else Ok l.

Definition schedule_waiting (defer_prefills : bool) l : result step :=
  if bool_decide (preempted_reqs l = []) && bool_decide ((sch l).(_pause_state) = UNPAUSED) then
    let l := put_step_skipped_waiting rq_new l in
    let fuel := Z.to_nat (queue_len (waiting (sch l)) + queue_len (skipped_waiting (sch l))) in
    l ← waiting_loop fuel defer_prefills l;
    l ← (if queue_bool (step_skipped_waiting l) then
           xs ← queue_iter (step_skipped_waiting l);
           q ← prepend_requests xs (skipped_waiting (sch l));
           Ok (put_sch (set_skipped_waiting q (sch l)) l)
         else Ok l);
    Ok (if negb defer_prefills
        then put_sch (set_prefill_capacity_bound (queue_bool (waiting (sch l))) (sch l)) l else l)
  else Ok l.

(** ** The output *)

Definition sum_values (d : dict Z) : Z := foldr (λ kv acc, kv.2 + acc) 0 d.

Definition check_constraints l : result Z :=
  let total := sum_values (tokens_of l) in
  _ ← assert_ (total <=? max_num_scheduled_tokens cfg);
  _ ← assert_ (token_budget l >=? 0);
  _ ← assert_ (zlen (running (sch l)) <=? max_num_running_reqs cfg);
  _ ← assert_ (zlen (new_reqs l) + zlen (resumed_reqs l) + zlen (running_reqs l) <=? zlen (running (sch l)));
  Ok total.

Definition common_prefix_blocks l : result (list Z * step) :=
  match running (sch l) with
  | [] => Ok (replicate (num_groups cfg) 0, l)
  | i :: _ =>
      r ← deref i (sch l);
      '(ns, k) ← kvm_get_num_common_prefix_blocks (request_id r) (kv_cache_manager (sch l));
      Ok (ns, put_sch (set_kv_cache_manager k (sch l)) l)
  end.

Definition new_request_data l (with_tokens : bool) i : result NewRequestData :=
  r ← deref i (sch l);
  b ← of_option KeyError (dict_get (request_id r) (req_to_new_blocks l));
  ids ← of_option AssertionError (get_block_ids false b);
  Ok (NewRequestData_from_request r ids (if with_tokens then Some (r.(_all_token_ids)) else None)).

Definition cached_request_data l (acc : CachedRequestData) (x : bool * nat) : result CachedRequestData :=
  let '(resumed, i) := x in
  r ← deref i (sch l);
  let id := request_id r in
  tokens ← (if (pp_size cfg >? 1) && negb (async_scheduling cfg) then
              n ← of_option KeyError (dict_get id (tokens_of l));
              let n := n - zlen (default [] (dict_get id (spec_tokens_of l))) in
              Ok [py_slice (r.(_all_token_ids)) (num_computed_tokens r) (num_computed_tokens r + n)]
            else Ok []);
  let all := if negb (use_v2_model_runner cfg)
                && negb (bool_decide (id ∈ prev_step_scheduled_req_ids (sch l)))
             then dict_set id (r.(_all_token_ids)) (cr_all_token_ids acc) else cr_all_token_ids acc in
  b ← of_option KeyError (dict_get id (req_to_new_blocks l));
  Ok (mkCachedRequestData (cr_req_ids acc ++ [id])
        (if resumed : bool then {[ id ]} ∪ cr_resumed_req_ids acc else cr_resumed_req_ids acc)
        (cr_new_token_ids acc ++ tokens) all (cr_new_block_ids acc ++ [get_block_ids true b])
        (cr_num_computed_tokens acc ++ [num_computed_tokens r])
        (cr_num_output_tokens acc ++ [num_output_tokens r + num_output_placeholders r])).
Definition _make_cached_request_data (running_reqs resumed_reqs : list nat) l : result CachedRequestData :=
  foldM (cached_request_data l) (mkCachedRequestData [] ∅ [] [] [] [] [])
    ((pair false <$> running_reqs) ++ (pair true <$> resumed_reqs)).

(** ** After the step *)

Definition advance_request (acc : bool * sched) (x : string * Z) : result (bool * sched) :=
  let '(structured, s) := acc in
  let '(req_id, n) := x in
  i ← of_option KeyError (dict_get req_id (requests s));
  r ← deref i s;
  let r := with_num_computed_tokens (num_computed_tokens r + n) r in
  let r := if defer_block_free cfg then with_last_sched_seq (sched_step_seq s) r else r in
  let r := with_is_prefill_chunk (num_computed_tokens r <? num_tokens r + num_output_placeholders r) r in
  let s := store r s in
  let s := if is_prefill_chunk r then s
           else set_inflight_prefills (s.(_inflight_prefills) ∖ {[ i ]}) s in
  Ok (structured || (use_structured_output r && negb (is_prefill_chunk r)), s).

Definition with_structured (has pending : bool) (o : SchedulerOutput) : SchedulerOutput :=
  mkSchedulerOutput (scheduled_new_reqs o) (scheduled_cached_reqs o) (num_scheduled_tokens o)
    (total_num_scheduled_tokens o) (scheduled_spec_decode_tokens o) (scheduled_encoder_inputs o)
    (num_common_prefix_blocks o) (out_preempted_req_ids o) (out_finished_req_ids o)
    (free_encoder_mm_hashes o) (new_block_ids_to_zero o) (num_spec_tokens_to_schedule o)
    has pending (num_invalid_spec_tokens o).

Definition base_update_after_schedule (o : SchedulerOutput) s : result (SchedulerOutput * sched) :=
  '(structured, s) ← foldM advance_request (has_structured_output_requests o, s) (num_scheduled_tokens o);
  Ok (with_structured structured (pending_structured_output_tokens o) o,
      set_reset_preempted_req_ids ∅ (set_finished_req_ids ∅ s)).

(** [AsyncScheduler._update_after_schedule]: output placeholders for the
    tokens that are still being computed. *)
Definition add_placeholders (o : SchedulerOutput) (acc : bool * sched) (x : string * Z)
    : result (bool * sched) :=
  let '(pending, s) := acc in
  let '(req_id, _) := x in
  i ← of_option KeyError (dict_get req_id (requests s));
  r ← deref i s;
  if is_prefill_chunk r then Ok acc else
  let pending := pending || (use_structured_output r && (num_output_placeholders r >? 0)) in
  let cur_num_spec_tokens := zlen (default [] (dict_get req_id (scheduled_spec_decode_tokens o))) in
  let r := with_num_output_placeholders
             (num_output_placeholders r + (num_sampled_tokens_per_step cfg + cur_num_spec_tokens)) r in
  let r := with_spec_token_ids (s.(_spec_token_placeholders)) r in
  let r := if use_v2_model_runner cfg
           then with_next_decode_eligible_step (current_step s + pp_size cfg) r else r in
  Ok (pending, store r s).

Definition async_update_after_schedule (o : SchedulerOutput) s : result (SchedulerOutput * sched) :=
  '(o, s) ← base_update_after_schedule o s;
  let s := set_spec_token_placeholders
             (replicate (Z.to_nat (num_spec_tokens_to_schedule o)) (-1)) s in
  '(pending, s) ← foldM (add_placeholders o) (pending_structured_output_tokens o, s)
                    (num_scheduled_tokens o);
  Ok (with_structured (has_structured_output_requests o) pending o, s).

Definition _update_after_schedule (o : SchedulerOutput) s : result (SchedulerOutput * sched) :=
  if async_scheduling cfg then async_update_after_schedule o s else base_update_after_schedule o s.

(** ** The method *)

Definition start_step s : step :=
  let budget := match s.(_pause_state) with PAUSED_ALL => 0 | _ => max_num_scheduled_tokens cfg end in
  mkStep s 0 budget (max_num_encoder_input_tokens cfg) [] [] [] [] [] [] [] [] false ∅ rq_new.

Definition make_output (total : Z) (ns : list Z) l : result (SchedulerOutput * sched) :=
  let v2 := use_v2_model_runner cfg in
  new_reqs_data ← mapR (new_request_data l v2)
                    (if v2 then new_reqs l ++ resumed_reqs l else new_reqs l);
  cached ← _make_cached_request_data (running_reqs l) (if v2 then [] else resumed_reqs l) l;
  let s := sch l in
  let s := if v2 then s else set_prev_step_scheduled_req_ids (list_to_set (tokens_of l).*1) s in
  let '(new_ids, k) := kvm_take_new_block_ids (kv_cache_manager s) in
  let s := set_kv_cache_manager k s in
  let to_zero := if sched_needs_kv_cache_zeroing cfg
                 then match new_ids with [] => None | _ => Some new_ids end else None in
  k ← match dynamic_sd_lookup cfg with
      | Some lookup =>
          if zlen (tokens_of l) >? 0 then py_get lookup (zlen (tokens_of l)) else Ok (num_spec_tokens cfg)
      | None => Ok (num_spec_tokens cfg)
      end;
  let '(freed, e) := enc_get_freed_mm_hashes (encoder_cache_manager s) in
  let s := set_encoder_cache_manager e s in
  let o := mkSchedulerOutput new_reqs_data cached (tokens_of l) total (spec_tokens_of l)
             (encoder_inputs_of l) ns (reset_preempted_req_ids s) (finished_req_ids s) freed to_zero k
             false false None in
  let s := match connector s with
           | None => s
           | Some c => set_connector (Some (build_connector_meta o c)) s
           end in
  let s := match ec_connector s with
           | None => s
           | Some c => set_ec_connector (Some (ec_build_connector_meta o c)) s
           end in
  let s := if defer_block_free cfg && (total >? 0)
           then set_sched_step_seq (sched_step_seq s + 1) s else s in
  _update_after_schedule o s.

Definition schedule (throttle_prefills : bool) s : result (SchedulerOutput * sched) :=
  let s := set_current_step (current_step s + 1) s in
  let s := set_kv_cache_manager (kvm_new_step_starts (kv_cache_manager s)) s in
  decoding ← mapR (λ i, r ← deref i s; Ok (negb (is_prefill_chunk r))) (running s);
  let defer_prefills := throttle_prefills && negb (prefill_capacity_bound s) && existsb id decoding in
  l ← running_loop (length (running s)) defer_prefills (start_step s);
  l ← record_running_loras l;
  l ← schedule_waiting defer_prefills l;
  total ← check_constraints l;
  '(ns, l) ← common_prefix_blocks l;
  make_output total ns l.

End Schedule.
