(* ===== verification/UpdateOutput.v ===== *)
(** * Processing the output of a step ([Scheduler.update_from_output])

    Sampled tokens are appended to their requests, stop conditions are checked,
    stopped requests are freed or wait for their next streaming input, and KV
    loads that failed or finished are handled.  Also here: the overrides of
    [AsyncScheduler], draft tokens for a scheduled step, and statistics.

    Correspondence.  [outputs] maps client indices to lists of outputs; the sets
    of finished requests of other clients and the statistics are separate
    results.  A loop with an accumulator is [foldM]. *)

From S2P Require Import Prelude MathUtils Request BlockHash KVMetrics FreeQueue BlockPool.
From S2P Require Import SingleTypeManager Coordinator CacheStats KVCacheManager EncoderCache.
From S2P Require Import Heapq RequestQueue SchedUtils PyDict SchedState Scheduler.

Local Open Scope Z_scope.

(** The statistics of a step that depend on scheduler state. *)
Record SchedulerStats := mkSchedulerStats {
  ss_num_running_reqs : Z;
  ss_num_waiting_reqs : Z;
  ss_num_skipped_waiting_reqs : Z;
  ss_kv_cache_usage : Z * Z;
  ss_prefix_cache_stats : PrefixCacheStats;
  ss_connector_prefix_cache_stats : option PrefixCacheStats;
  ss_kv_cache_eviction_events : list KVCacheEvictionEvent;
}.

Record EngineCoreOutputs := mkEngineCoreOutputs {
  ec_outputs : gmap Z (list EngineCoreOutput);
  ec_finished_requests : gmap Z (gset string);
  ec_scheduler_stats : option SchedulerStats;
  ec_events : list (KVCacheEvent * option (KVCacheSpecKind * option Z));
  ec_connector_events : list KVCacheEvent;
}.

(** The scan for invalid blocks: what it has found over all requests, and for
    the request at hand. *)
Record invalid_scan := mkInvalidScan {
  is_affected_ids : list string;
  is_total_tokens : Z;
  is_to_evict : gset nat;
  is_marked : gset nat;
}.
Record request_scan := mkRequestScan {
  rs_affected : bool;
  rs_marked_block : bool;
  rs_computed : Z;
  rs_tokens : Z;
  rs_evict : gset nat;
  rs_marked : gset nat;
}.

Section UpdateOutput.
Context {Q : Type} `{!FreeQueueOps Q} {env : PoolEnv}.
Context {WQ : Type} `{!RequestQueueOps WQ} `{!QueueAlias WQ}.
Context {C E G : Type} `{!KVConnector C} `{!ECConnector E} `{!StructuredOutput G}.
Context (cfg : SchedulerConfig).
Abbreviation sched := (Scheduler Q WQ C E G).
Implicit Types (s : sched) (r : Request) (i : nat).

(** ** Sampled tokens *)

(** Append the tokens one by one until a stop condition holds; the tokens after
    it are dropped. *)
Fixpoint append_and_check (kept new_token_ids : list Z) r : result (list Z * bool * Request) :=
  match new_token_ids with
  | [] => Ok (kept, false, r)
  | t :: rest =>
      r ← append_output_token_ids (block_hasher cfg) [t] r;
      '(stopped, r) ← check_stop r (sched_max_model_len cfg);
      if (stopped : bool) then Ok (kept ++ [t], true, r) else append_and_check (kept ++ [t]) rest r
  end.

Definition base_update_request_with_output i (new_token_ids : list Z) s
    : result (list Z * bool * sched) :=
  r ← deref i s;
  '(kept, stopped, r) ← append_and_check [] new_token_ids r;
  Ok (kept, stopped, store r s).

(** [AsyncScheduler._update_request_with_output] *)
Definition async_update_request_with_output i (new_token_ids : list Z) s
    : result (list Z * bool * sched) :=
  r ← deref i s;
  if async_tokens_to_discard r >? 0 then
    Ok ([], false, store (with_async_tokens_to_discard (async_tokens_to_discard r - 1) r) s)
  else
    let status_before_update := status r in
    '(kept, stopped, s) ← base_update_request_with_output i new_token_ids s;
    r ← deref i s;
    let r := with_num_output_placeholders (num_output_placeholders r - zlen kept) r in
    let s := store r s in
    _ ← assert_ (num_output_placeholders r >=? 0);
    s ← (if bool_decide (status_before_update = RUNNING) then
           '(k, r) ← kvm_cache_blocks r (num_computed_tokens r - num_output_placeholders r)
                       (kv_cache_manager s);
           Ok (store r (set_kv_cache_manager k s))
         else Ok s);
    Ok (kept, stopped, s).

Definition _update_request_with_output i (new_token_ids : list Z) s : result (list Z * bool * sched) :=
  if async_scheduling cfg then async_update_request_with_output i new_token_ids s
  else base_update_request_with_output i new_token_ids s.

(** ** Failed and finished KV loads *)

(** One block of the request being scanned, at index [idx]. *)
Definition scan_block (req_block_ids : list nat) (computed : Z) (invalid : gset nat) (evict : bool)
    (a : request_scan) (x : nat * nat) : request_scan :=
  let '(idx, block_id) := x in
  if negb (bool_decide (block_id ∈ invalid)) then a else
  if bool_decide (block_id ∈ rs_marked a) then
    mkRequestScan true (rs_marked_block a) (rs_computed a) (rs_tokens a) (rs_evict a) (rs_marked a)
  else
    let marked := {[ block_id ]} ∪ rs_marked a in
    if rs_marked_block a then
      mkRequestScan true true (rs_computed a) (rs_tokens a) (rs_evict a) marked
    else
      let n := Z.of_nat idx * sched_block_size cfg in
      mkRequestScan true true n (rs_tokens a + (computed - n))
        (if evict then list_to_set (drop idx req_block_ids) ∪ rs_evict a else rs_evict a) marked.

Definition scan_request (invalid : gset nat) (scheduled : dict Z) (evict : bool)
    (acc : invalid_scan * sched) i : result (invalid_scan * sched) :=
  let '(a, s) := acc in
  r ← deref i s;
  let req_id := request_id r in
  ids ← of_option ValueError (kvm_get_block_ids req_id (kv_cache_manager s));
  req_block_ids ← match ids with [bs] => Ok bs | _ => Raise ValueError end;
  let computed := num_computed_tokens r - default 0 (dict_get req_id scheduled) in
  let num_blocks := (computed + sched_block_size cfg - 1) / sched_block_size cfg in
  let candidates := take (Z.to_nat num_blocks) (imap pair req_block_ids) in
  let b := foldl (scan_block req_block_ids computed invalid evict)
             (mkRequestScan false false (num_computed_tokens r) 0 ∅ (is_marked a)) candidates in
  if rs_affected b then
    let '(n, t) := if rs_marked_block b then (rs_computed b, rs_tokens b)
                   else (computed, num_computed_tokens r - computed) in
    Ok (mkInvalidScan (is_affected_ids a ++ [req_id]) (is_total_tokens a + t)
          (rs_evict b ∪ is_to_evict a) (rs_marked b),
        store (with_num_computed_tokens n r) s)
  else Ok (mkInvalidScan (is_affected_ids a) (is_total_tokens a) (is_to_evict a) (rs_marked b), s).

Definition _update_requests_with_invalid_blocks (refs : list nat) (invalid : gset nat)
    (scheduled : dict Z) (evict : bool) s : result (list string * Z * gset nat * sched) :=
  '(a, s) ← foldM (scan_request invalid scheduled evict) (mkInvalidScan [] 0 ∅ ∅, s) refs;
  Ok (is_affected_ids a, is_total_tokens a, is_to_evict a, s).

Definition _handle_invalid_blocks (invalid : gset nat) (scheduled : dict Z) s
    : result (list string * sched) :=
  entries ← queue_iter (skipped_waiting s);
  async_load_reqs ← foldM (λ acc x, r ← deref (py_id x) s;
    Ok (if bool_decide (status r = WAITING_FOR_REMOTE_KVS) then acc ++ [py_id x] else acc)) [] entries;
  '(async_failed, _, _, s) ←
    _update_requests_with_invalid_blocks async_load_reqs invalid scheduled false s;
  '(sync_failed, _, to_evict, s) ←
    _update_requests_with_invalid_blocks (running s) invalid scheduled true s;
  if zlen async_failed + zlen sync_failed =? 0 then Ok ([], s) else
  s ← (if negb (bool_decide (to_evict = ∅)) && negb (recompute_kv_load_failures cfg) then
         k ← kvm_evict_blocks (Z.of_nat <$> elements to_evict) (kv_cache_manager s);
         Ok (set_kv_cache_manager k s)
       else Ok s);
  if negb (recompute_kv_load_failures cfg)
  then Ok (remove_dups (async_failed ++ sync_failed), s)
  else Ok (sync_failed,
           set_failed_recving_kv_req_ids
             (list_to_set async_failed ∪ failed_recving_kv_req_ids s) s).

Definition finish_recving s (req_id : string) : result sched :=
  i ← of_option AssertionError (dict_get req_id (requests s));
  r ← deref i s;
  if bool_decide (status r = WAITING_FOR_REMOTE_KVS)
  then Ok (set_finished_recving_kv_req_ids ({[ req_id ]} ∪ finished_recving_kv_req_ids s) s)
  else _ ← assert_ (is_finished r); _free_blocks cfg r s.
Definition finish_sending s (req_id : string) : result sched :=
  i ← of_option AssertionError (dict_get req_id (requests s));
  r ← deref i s; _free_blocks cfg r s.
Definition _update_from_kv_xfer_finished (o : KVConnectorOutput) s : result sched :=
  let s := match connector s with
           | None => s
           | Some c => set_connector (Some (update_connector_output o c)) s
           end in
  s ← foldM finish_recving s (finished_recving o);
  foldM finish_sending s (finished_sending o).

(** ** One scheduled request *)

(** Rejected draft tokens do not count as computed. *)
Definition reject_drafts (generated : list Z) (drafts : option (list Z)) r : Request :=
  match drafts with
  | Some (_ :: _ as spec) =>
      if (negb (bool_decide (generated = [])) || (num_sampled_tokens_per_step cfg =? 0))
         && (async_tokens_to_discard r =? 0) then
        let num_accepted := Z.max (zlen generated - num_sampled_tokens_per_step cfg) 0 in
        let num_rejected := zlen spec - num_accepted in
        let r := if num_computed_tokens r >? 0
                 then with_num_computed_tokens (num_computed_tokens r - num_rejected) r else r in
        if num_output_placeholders r >? 0
        then with_num_output_placeholders (num_output_placeholders r - num_rejected) r else r
      else r
  | _ => r
  end.

(** Advance the grammar; a rejected token ends the request. *)
Definition advance_grammar i (new_token_ids : list Z) (stopped : bool) s : result (bool * sched) :=
  match new_token_ids with
  | [] => Ok (stopped, s)
  | _ =>
      r ← deref i s;
      let '(advance, g) := should_advance r (structured_output_manager s) in
      let s := set_structured_output_manager g s in
      if negb advance then Ok (stopped, s) else
      _ ← assert_ (has_structured_output r);
      _ ← assert_ (grammar_ready r g);
      match trim_reasoning_for_advance r new_token_ids g with
      | [] => Ok (stopped, s)
      | toks =>
          let '(ok, g) := accept_tokens (request_id r) toks g in
          let s := set_structured_output_manager g s in
          if (ok : bool) then Ok (stopped, s)
          else Ok (true, store (with_resumable false (with_status FINISHED_ERROR r)) s)
      end
  end.

(** The outputs so far, and the requests that stopped while running and while
    preempted. *)
Record update_acc := mkUpdateAcc {
  ua_outputs : gmap Z (list EngineCoreOutput);
  ua_stopped_running : list nat;
  ua_stopped_preempted : list nat;
}.

(** A stopped request: finished and freed, or waiting for more input. *)
Definition stop_request i (status_before : RequestStatus) (a : update_acc) s
    : result (option FinishReason * option string * update_acc * sched) :=
  r ← deref i s;
  let finish_reason := get_finished_reason r in
  '(finished, s) ← _handle_stopped_request cfg i s;
  '(params, s) ← (if (finished : bool) then r ← deref i s; _free_request cfg r false s else Ok (None, s));
  let a := if bool_decide (status_before = RUNNING)
           then mkUpdateAcc (ua_outputs a) (ua_stopped_running a ++ [i]) (ua_stopped_preempted a)
           else mkUpdateAcc (ua_outputs a) (ua_stopped_running a) (ua_stopped_preempted a ++ [i]) in
  Ok (finish_reason, params, a, s).

Definition add_output (client : Z) (o : EngineCoreOutput) (a : update_acc) : update_acc :=
  mkUpdateAcc (<[client := default [] (ua_outputs a !! client) ++ [o]]> (ua_outputs a))
    (ua_stopped_running a) (ua_stopped_preempted a).

Definition update_one (so : SchedulerOutput) (mo : ModelRunnerOutput) (failed : list string)
    (acc : update_acc * sched) (x : string * Z) : result (update_acc * sched) :=
  let '(a, s) := acc in
  let '(req_id, num_tokens_scheduled) := x in
  _ ← assert_ (num_tokens_scheduled >? 0);
  if bool_decide (req_id ∈ failed) then Ok acc else
  match dict_get req_id (requests s) with
  | None => Ok acc
  | Some i =>
      r ← deref i s;
      if is_finished r then Ok acc else
      req_index ← of_option KeyError (req_id_to_index mo !! req_id);
      generated ← match sampled_token_ids mo with [] => Ok [] | l => py_get l req_index end;
      let r := reject_drafts generated (dict_get req_id (scheduled_spec_decode_tokens so)) r in
      let s := store r s in
      s ← (if has_encoder_inputs r then _free_encoder_inputs cfg r s else Ok s);
      pooled ← match pooler_output mo with [] => Ok None | l => py_get l req_index end;
      let status_before_stop := status r in
      '(new_token_ids, stopped, s) ←
        match generated with
        | _ :: _ => _update_request_with_output i generated s
        | [] =>
            if bool_decide (is_Some (pooling_params r)) && bool_decide (is_Some pooled)
            then Ok ([], true, store (with_status FINISHED_STOPPED r) s)
            else Ok ([], false, s)
        end;
      '(stopped, s) ← advance_grammar i new_token_ids stopped s;
      '(finish_reason, params, a, s) ←
        (if (stopped : bool) then stop_request i status_before_stop a s else Ok (None, None, a, s));
      r ← deref i s;
      if negb (bool_decide (new_token_ids = [])) || bool_decide (is_Some pooled)
         || bool_decide (is_Some params) || stopped then
        let '(stats, r) := take_prefill_stats r in
        Ok (add_output (client_index r)
              (mkEngineCoreOutput req_id new_token_ids finish_reason pooled (stop_reason r) stats params) a,
            store r s)
      else
        _ ← assert_ (negb (bool_decide (req_id ∈ prompt_logprobs mo)));
        Ok (a, s)
  end.

(** ** Statistics *)

Definition make_stats s : result (option SchedulerStats * sched) :=
  if negb (sched_log_stats cfg) then Ok (None, s) else
  let '(st, k) := make_prefix_cache_stats (kv_cache_manager s) in
  let s := set_kv_cache_manager k s in
  prefix ← of_option AssertionError st;
  let conn := connector_prefix_cache_stats s in
  let s := match conn with
           | None => s
           | Some _ => set_connector_prefix_cache_stats (Some PrefixCacheStats_init) s
           end in
  let p := kv_pool (kv_cache_manager s) in
  let '(events, s) :=
    match metrics_collector p with
    | None => ([], s)
    | Some m =>
        let '(ev, m) := drain_events m in
        (ev, set_kv_cache_manager (with_pool (with_metrics (Some m) p) (kv_cache_manager s)) s)
    end in
  Ok (Some (mkSchedulerStats (zlen (running s)) (queue_len (waiting s)) (queue_len (skipped_waiting s))
              (usage (kv_cache_manager s)) prefix conn events), s).

(** ** The method *)

(** The outputs of requests whose KV load failed. *)
Definition fail_outputs (failed : list nat) (a : update_acc) s : result update_acc :=
  foldM (λ a i, r ← deref i s;
    Ok (add_output (client_index r)
          (mkEngineCoreOutput (request_id r) [] (get_finished_reason r) None None None None) a)) a failed.

Definition update_from_output (so : SchedulerOutput) (mo : ModelRunnerOutput) s
    : result (EngineCoreOutputs * sched) :=
  s ← (if defer_block_free cfg && (total_num_scheduled_tokens so >? 0) then
         _drain_deferred_frees (set_processed_step_seq (processed_step_seq s + 1) s)
       else Ok s);
  '(failed, s) ←
    match kv_connector_output mo with
    | Some o =>
        if bool_decide (invalid_block_ids o = ∅) then Ok ([], s)
        else _handle_invalid_blocks (invalid_block_ids o) (num_scheduled_tokens so) s
    | None => Ok ([], s)
    end;
  '(a, s) ← foldM (update_one so mo failed) (mkUpdateAcc ∅ [] [], s) (num_scheduled_tokens so);
  let s := match ua_stopped_running a with
           | [] => s
           | rs => set_running (fst (remove_all Nat.eqb (running s) rs)) s
           end in
  s ← match ua_stopped_preempted a with
      | [] => Ok s
      | refs =>
          rs ← mapR (λ i, deref i s) refs;
          q ← remove_requests rs (waiting s);
          Ok (set_waiting q s)
      end;
  '(a, s) ←
    (if negb (bool_decide (failed = [])) && negb (recompute_kv_load_failures cfg) then
       refs ← mapR (λ id, of_option KeyError (dict_get id (requests s))) failed;
       '(_, s) ← finish_requests cfg (Some failed) FINISHED_ERROR s;
       a ← fail_outputs refs a s;
       Ok (a, s)
     else Ok (a, s));
  s ← match kv_connector_output mo with
      | Some o => _update_from_kv_xfer_finished o s
      | None => Ok s
      end;
  let '(events, k) := kvm_take_events (kv_cache_manager s) in
  let s := set_kv_cache_manager k s in
  let '(connector_events, s) :=
    match connector s with
    | None => ([], s)
    | Some c => let '(ev, c) := connector_take_events c in (ev, set_connector (Some c) s)
    end in
  let finished := default ∅ (finished_req_ids_dict s) in
  let s := match finished_req_ids_dict s with
           | None => s
           | Some _ => set_finished_req_ids_dict (Some ∅) s
           end in
  '(stats, s) ← make_stats s;
  Ok (mkEngineCoreOutputs (ua_outputs a) finished stats events connector_events, s).

(** ** Draft tokens of a scheduled step *)

Definition trim_draft (acc : dict (list Z) * dict Z * sched) (d : string * list Z)
    : result (dict (list Z) * dict Z * sched) :=
  let '(spec, invalid, s) := acc in
  let '(req_id, drafts) := d in
  match dict_get req_id (requests s) with
  | None => Ok acc
  | Some i =>
      r ← deref i s;
      if is_finished r then Ok acc else
      match dict_get req_id spec with
      | Some (_ :: _ as placeholders) =>
          let orig := zlen placeholders in
          let drafts := py_upto drafts orig in
          let '(advance, g) := should_advance r (structured_output_manager s) in
          let s := set_structured_output_manager g s in
          drafts ← (if (advance : bool) then
                      _ ← assert_ (has_structured_output r && grammar_ready r g);
                      Ok (validate_tokens req_id drafts g)
                    else Ok drafts);
          let n := orig - zlen drafts in
          let invalid := if n =? 0 then invalid else dict_set req_id n invalid in
          Ok (dict_set req_id (drafts ++ replicate (Z.to_nat n) (-1)) spec, invalid, s)
      | _ => Ok acc
      end
  end.
Definition update_draft_token_ids_in_output (d : DraftTokenIds) (so : SchedulerOutput) s
    : result (SchedulerOutput * sched) :=
  '(spec, invalid, s) ← foldM trim_draft (scheduled_spec_decode_tokens so, [], s)
                          (zip (draft_req_ids d) (draft_token_ids d));
  Ok (mkSchedulerOutput (scheduled_new_reqs so) (scheduled_cached_reqs so) (num_scheduled_tokens so)
        (total_num_scheduled_tokens so) spec (scheduled_encoder_inputs so) (num_common_prefix_blocks so)
        (out_preempted_req_ids so) (out_finished_req_ids so) (free_encoder_mm_hashes so)
        (new_block_ids_to_zero so) (num_spec_tokens_to_schedule so) (has_structured_output_requests so)
        (pending_structured_output_tokens so) (Some invalid), s).

(** ** Grammar bitmasks *)

Definition get_grammar_bitmask (so : SchedulerOutput) s : result (option (list string * bytes)) :=
  if negb (has_structured_output_requests so) then Ok None else
  ids ← foldM (λ acc x,
    match dict_get x.1 (requests s) with
    | None => Ok acc
    | Some i => r ← deref i s;
        Ok (if use_structured_output r && negb (is_prefill_chunk r) then acc ++ [x.1] else acc)
    end) [] (num_scheduled_tokens so);
  match ids with
  | [] => Ok None
  | _ => Ok (Some (ids, grammar_bitmask ids (scheduled_spec_decode_tokens so) (structured_output_manager s)))
  end.

End UpdateOutput.
