(* ===== verification/KVContract.v ===== *)
(** * What the KV cache promises to the scheduler

    The scheduler knows two things about the KV cache of a request: it holds no
    blocks ([kv_fresh]), or its blocks cover the tokens computed so far
    ([kv_holds]).  The lemmas of this file state the calls the scheduler makes
    in these terms: they return, they keep the manager in order ([kv_ready]),
    and they touch no other request ([kv_only]).  Clients use nothing else. *)

From S2P Require Import Prelude MathUtils Request BlockHash KVMetrics FreeQueue BlockPool.
From S2P Require Import SingleTypeManager ManagerInv Coordinator HybridHit CacheStats.
From S2P Require Import KVCacheManager KVReachable.

Local Open Scope Z_scope.

Section KVContract.
Context {Q : Type} `{!FreeQueueOps Q} `{!FreeQueueSpec Q} {env : PoolEnv}.
Implicit Types (k : KVCacheManager Q) (r : Request) (rid : string).

Abbreviation tables k := (single_type_managers (coordinator k)).

Record kv_ready k : Prop := {
  kr_inv : ∃ l, kv_inv k l;
  kr_search : search_ok k;
  kr_stats : log_stats k = true → is_Some (prefix_cache_stats k);
  kr_cross : Forall (λ m, mclass m ≠ CrossAttentionManager) (tables k);
}.

Definition kv_fresh k rid : Prop :=
  ∀ m, m ∈ tables k → req_blocks rid m = [] ∧ num_cached_block m !! rid = None.
Definition kv_holds k rid (n : Z) : Prop :=
  ∀ m, m ∈ tables k → n ≤ zlen (req_blocks rid m) * block_size m.

(** Only the tables of [rid] change. *)
Definition kv_only rid k k' : Prop :=
  same_config k k' ∧
  Forall2 (λ m m', ∀ rid', rid' ≠ rid → req_blocks rid' m' = req_blocks rid' m ∧
                     num_cached_block m' !! rid' = num_cached_block m !! rid') (tables k) (tables k').

(** The hashes caching will read. *)
Definition hashed k r : Prop :=
  kvm_enable_caching k = true → request_ok (kv_pool k) (num_tokens r) r.

(** ** Transport *)

Lemma only_refl rid k : kv_only rid k k.
Proof. split; [apply same_config_refl|]. by induction (tables k); constructor. Qed.

Lemma only_trans rid k1 k2 k3 : kv_only rid k1 k2 → kv_only rid k2 k3 → kv_only rid k1 k3.
Proof.
  intros [C1 F1] [C2 F2]. split; [by eapply same_config_trans|]. eapply Forall2_compose; [exact F1|exact F2|].
  intros m m' m'' H1 H2 rid' Hne. by destruct (H1 rid' Hne) as [<- <-], (H2 rid' Hne) as [<- <-].
Qed.

Lemma same_config_bs k k' j m m' :
  same_config k k' → tables k !! j = Some m → tables k' !! j = Some m' →
  block_size m' = block_size m ∧ mclass m' = mclass m.
Proof.
  intros [_ HF _] Hm Hm'. pose proof (Forall2_lookup_lr _ _ _ _ _ _ HF Hm Hm') as E.
  unfold mgr_static in E. split; congruence.
Qed.

Lemma only_fresh rid k k' rid' : kv_only rid k k' → rid' ≠ rid → kv_fresh k rid' → kv_fresh k' rid'.
Proof.
  intros [_ HF] Hne Hf m' [j Hj]%list_elem_of_lookup.
  destruct (Forall2_lookup_r _ _ _ _ _ HF Hj) as (m & Hm & H). destruct (H rid' Hne) as [-> ->].
  apply Hf. by eapply list_elem_of_lookup_2.
Qed.

Lemma only_holds rid k k' rid' n : kv_only rid k k' → rid' ≠ rid → kv_holds k rid' n → kv_holds k' rid' n.
Proof.
  intros [Hc HF] Hne Hf m' [j Hj]%list_elem_of_lookup.
  destruct (Forall2_lookup_r _ _ _ _ _ HF Hj) as (m & Hm & H). destruct (H rid' Hne) as [-> _].
  destruct (same_config_bs _ _ _ _ _ Hc Hm Hj) as [-> _]. apply Hf. by eapply list_elem_of_lookup_2.
Qed.

(** A call that changes no table of any request. *)
Definition kv_quiet k k' : Prop := ∀ rid, kv_only rid k k'.

Lemma quiet_fresh k k' rid : kv_quiet k k' → kv_fresh k rid → kv_fresh k' rid.
Proof. intros H. destruct (decide (rid = "")) as [->|]; [apply (only_fresh "x")|apply (only_fresh "")]; done. Qed.
Lemma quiet_holds k k' rid n : kv_quiet k k' → kv_holds k rid n → kv_holds k' rid n.
Proof. intros H. destruct (decide (rid = "")) as [->|]; [apply (only_holds "x")|apply (only_holds "")]; done. Qed.

Lemma shell_caching k k' : same_config k k' →
  kvm_enable_caching k' = kvm_enable_caching k ∧ max_model_len k' = max_model_len k ∧ log_stats k' = log_stats k ∧
  hash_block_size (kv_pool k') = hash_block_size (kv_pool k) ∧ length (tables k') = length (tables k).
Proof.
  intros [E HF _]. unfold kv_shell, pool_config in E. split_and!; try congruence.
  symmetry. by apply Forall2_length in HF.
Qed.

(** Only the inputs of the hash chain matter. *)
Definition hash_view r :=
  (mm_features r, prompt_embeds r, r.(_prompt_embeds_per_block_hashes), num_tokens r, block_hashes r).

Lemma search_config k k' : same_config k k' → search_ok k → search_ok k'.
Proof.
  intros Hc. pose proof (shell_caching _ _ Hc) as (_ & _ & _ & E1 & E2).
  assert (coord_kind (coordinator k') = coord_kind (coordinator k) ∧
    kv_cache_config (coordinator k') = kv_cache_config (coordinator k) ∧
    coord_scheduler_block_size (coordinator k') = coord_scheduler_block_size (coordinator k) ∧
    eagle_group_ids (coordinator k') = eagle_group_ids (coordinator k)) as (E3 & E4 & E5 & E6).
  { destruct Hc as [E _ _]. unfold kv_shell in E. split_and!; congruence. }
  unfold search_ok. rewrite E1, E2, E3, E4, E5, E6.
  destruct (coord_kind (coordinator k)) as [|spec bs dcp pcp|hbs groups]; [done| |].
  - intros (H1 & H2 & H3 & H4 & m & Em & H5 & H6). split_and!; try done.
    destruct (sc_static _ _ Hc) as [|m0 m' ms ms' E HF]; [discriminate|]. injection Em as -> ->.
    inversion HF; subst. exists m'. split; [done|]. unfold mgr_static in E.
    replace (block_size m') with (block_size m) by congruence. by replace (mclass m') with (mclass m) by congruence.
  - intros (H1 & H2 & g0 & gs & H3 & H4 & H5). split_and!; try done. exists g0, gs. split_and!; try done.
    intros j m' Hj. destruct (Forall2_lookup_r _ _ _ _ _ (sc_static _ _ Hc) Hj) as (m & Hm & E).
    destruct (same_config_bs _ _ _ _ _ Hc Hm Hj) as [-> _]. by apply H5.
Qed.

Lemma ready_config k k' : same_config k k' → (∃ l, kv_inv k' l) → kv_ready k → kv_ready k'.
Proof.
  intros Hc Hl [_ H2 H3 H4]. destruct (shell_caching _ _ Hc) as (_ & _ & E & _). split; [done| | |].
  - by eapply search_config.
  - rewrite E. intros Hls. apply (sc_stats _ _ Hc). auto.
  - rewrite Forall_lookup in H4 |- *. intros j m' Hj.
    destruct (Forall2_lookup_r _ _ _ _ _ (sc_static _ _ Hc) Hj) as (m & Hm & E').
    destruct (same_config_bs _ _ _ _ _ Hc Hm Hj) as [_ ->]. by eapply H4.
Qed.

(** ** The calls *)

Lemma free_promise r k :
  kv_ready k →
  ∃ k', free r k = Ok k' ∧ kv_ready k' ∧ kv_only (request_id r) k k' ∧ kv_fresh k' (request_id r).
Proof.
  intros Hk. destruct (kr_inv _ Hk) as [l Hl].
  destruct (free_inv r k l Hl) as (k' & l' & E & [Hl' Hc] & _ & HF). exists k'. split; [done|].
  split; [by eapply ready_config; eauto|]. split.
  - split; [done|]. eapply Forall2_impl; [exact HF|]. intros m m' (_ & H1 & H2) rid' Hne.
    unfold req_blocks. rewrite H1, H2, !lookup_delete_ne by done. done.
  - intros m' [j Hj]%list_elem_of_lookup. destruct (Forall2_lookup_r _ _ _ _ _ HF Hj) as (m & _ & _ & H1 & H2).
    unfold req_blocks. by rewrite H1, H2, !lookup_delete_eq.
Qed.

Lemma managers_quiet k ms' :
  kv_ready k → Forall2 mgr_same (tables k) ms' →
  let k' := with_coordinator (with_state ms' (kv_pool k) (coordinator k)) k in
  kv_ready k' ∧ kv_quiet k k'.
Proof.
  intros Hk HF k'. destruct (kr_inv _ Hk) as [l Hl]. destruct (kv_inv_managers k l ms' Hl HF) as [Hl' Hc].
  split; [eapply ready_config; eauto|]. intros rid. split; [done|].
  eapply Forall2_impl; [exact HF|]. intros m m' (H1 & _ & H2 & _) rid' _. by rewrite H1, H2.
Qed.

Lemma new_step_promise k : kv_ready k → kv_ready (kvm_new_step_starts k) ∧ kv_quiet k (kvm_new_step_starts k).
Proof.
  intros Hk. apply (managers_quiet k); [done|]. apply mgr_same_fmap. intros m.
  unfold mgr_new_step_starts. by destruct (mclass m).
Qed.

Lemma new_ids_promise k :
  kv_ready k → kv_ready (kvm_take_new_block_ids k).2 ∧ kv_quiet k (kvm_take_new_block_ids k).2.
Proof.
  intros Hk. unfold kvm_take_new_block_ids. cbn [snd]. rewrite <- list_fmap_compose.
  apply (managers_quiet k); [done|]. by apply mgr_same_fmap.
Qed.

(** A pool that lost hashes at most. *)
Lemma pool_quiet k l p' :
  kv_ready k → kv_inv k l → pool_wf p' l → pool_core p' = pool_core (kv_pool k) →
  (∀ i, unhashed (kv_pool k) i → unhashed p' i) → kv_ready (with_pool p' k) ∧ kv_quiet k (with_pool p' k).
Proof.
  intros Hk Hl Hwf Hc Hu. destruct (kv_inv_pool k l p' Hl Hwf Hc Hu) as [Hl' Hsc].
  split; [eapply ready_config; eauto|]. intros rid. split; [done|]. cbn. by induction (tables k); constructor.
Qed.

Lemma events_promise k : kv_ready k → kv_ready (kvm_take_events k).2 ∧ kv_quiet k (kvm_take_events k).2.
Proof.
  intros Hk. destruct (kr_inv _ Hk) as [l Hl]. destruct (ki_coord _ _ Hl) as [[H1 H2] _].
  unfold kvm_take_events, take_events. destruct (enable_kv_cache_events (kv_pool k)); cbn [snd]; apply (pool_quiet k l); try done.
  split; [by apply (core_wf_same (kv_pool k))|by apply (hash_wf_same (kv_pool k))].
Qed.

Lemma metrics_promise k m :
  kv_ready k → let k' := with_pool (with_metrics m (kv_pool k)) k in kv_ready k' ∧ kv_quiet k k'.
Proof.
  intros Hk. destruct (kr_inv _ Hk) as [l Hl]. destruct (ki_coord _ _ Hl) as [[H1 H2] _].
  apply (pool_quiet k l); try done.
  split; [by apply (core_wf_same (kv_pool k))|by apply (hash_wf_same (kv_pool k))].
Qed.

Lemma stats_promise k :
  kv_ready k → log_stats k = true → ∃ st k', make_prefix_cache_stats k = (Some st, k') ∧ kv_ready k' ∧ kv_quiet k k'.
Proof.
  intros Hk Hls. unfold make_prefix_cache_stats. rewrite Hls. cbn [negb]. destruct (kr_stats _ Hk Hls) as [st ->].
  eexists _, _. split; [reflexivity|]. destruct (kr_inv _ Hk) as [l Hl].
  destruct (kv_inv_same k (with_stats (Some PrefixCacheStats_init) k) l Hl) as [Hl' Hsc]; try done; [apply same_config_stats|].
  split; [eapply ready_config; eauto|]. intros rid. split; [done|]. cbn. by induction (tables k); constructor.
Qed.

Lemma count_common_ok (p : BlockPool Q) n bs :
  (∀ b, b ∈ bs → is_Some (blocks p !! b)) → ∃ z, count_common p n bs = Ok z.
Proof.
  induction bs as [|b bs IH]; intros H; cbn [count_common]; [eauto|].
  destruct (H b) as [blk Hb]; [by left|]. unfold get_block. rewrite Hb. unfold mbind; cbn [of_option result_bind].
  destruct (ref_cnt blk =? n); [|eauto]. destruct IH as [z ->]; [set_solver|]. eauto.
Qed.

Lemma for_managers_total {A} (g : nat → SingleTypeKVCacheManager → BlockPool Q →
      result (A * SingleTypeKVCacheManager * BlockPool Q)) i ms p :
  (∀ i m, m ∈ ms → ∃ a m', g i m p = Ok (a, m', p)) → ∃ as_ ms', for_managers g i ms p = Ok (as_, ms', p).
Proof.
  revert i. induction ms as [|m ms IH]; intros i H; cbn [for_managers]; [eauto|].
  destruct (H i m) as (a & m' & ->); [by left|]. unfold mbind; cbn [result_bind].
  destruct (IH (i + 1)%nat) as (as_ & ms' & ->); [intros; apply H; by right|]. eauto.
Qed.

Lemma common_prefix_promise rid k :
  kv_ready k →
  ∃ ns k', kvm_get_num_common_prefix_blocks rid k = Ok (ns, k') ∧ kv_ready k' ∧ kv_quiet k k'.
Proof.
  intros Hk. destruct (kr_inv _ Hk) as [l Hl]. destruct (ki_coord _ _ Hl) as [_ Hms].
  assert (∃ ns c', coord_get_num_common_prefix_blocks rid (coordinator k) = Ok (ns, c')) as (ns & c' & E).
  { unfold coord_get_num_common_prefix_blocks. destruct (coord_kind (coordinator k)); [eauto| |];
    (match goal with |- context [for_managers ?g ?i ?ms ?p] => destruct (for_managers_total g i ms p) as (x & ms' & ->) end;
      [|unfold mbind; cbn [result_bind]; eauto]);
    intros i m Hm; unfold mgr_get_num_common_prefix_blocks; destruct (mclass m); eauto;
    (edestruct (count_common_ok (kv_pool k)) as [z Hz]; [|unfold kv_pool in Hz; rewrite Hz; eauto]);
    intros b Hb; rewrite req_blocks_touch in Hb; by apply (mi_valid _ _ _ _ (Hms m Hm) rid). }
  unfold kvm_get_num_common_prefix_blocks. rewrite E. unfold mbind; cbn [result_bind].
  eexists _, _. split; [reflexivity|]. destruct (common_prefix_same _ _ _ _ E) as (ms' & HF & ->).
  by apply (managers_quiet k).
Qed.

Lemma covers_only rid N enc k k' :
  same_config k k' → Forall2 (covers rid N enc) (tables k) (tables k') → kv_only rid k k'.
Proof.
  intros Hc HF. split; [done|]. eapply Forall2_impl; [exact HF|]. intros m m' (_ & H & _) rid' Hne. by apply H.
Qed.

Lemma lengths_only rid k k' :
  same_config k k' → Forall2 (same_lengths rid) (tables k) (tables k') → kv_only rid k k'.
Proof.
  intros Hc HF. split; [done|]. eapply Forall2_impl; [exact HF|]. intros m m' (_ & H1 & H2 & _) rid' Hne.
  rewrite H1. by rewrite H2.
Qed.

Lemma covers_holds rid N enc k k' n :
  kv_ready k → Forall2 (covers rid N enc) (tables k) (tables k') → n ≤ N → kv_holds k' rid n.
Proof.
  intros Hk HF Hn m' [j Hj]%list_elem_of_lookup.
  destruct (Forall2_lookup_r _ _ _ _ _ HF Hj) as (m & Hm & Hst & _ & Hcov).
  pose proof (kr_cross _ Hk) as Hx. rewrite Forall_lookup in Hx. specialize (Hx j m Hm).
  unfold slot_tokens in Hcov. rewrite decide_False in Hcov by done.
  destruct (kr_inv _ Hk) as [l Hl]. destruct (ki_coord _ _ Hl) as [_ Hms].
  pose proof (mgr_bs_pos _ _ (mi_ok _ _ _ _ (Hms m (list_elem_of_lookup_2 _ _ _ Hm)))) as Hbs.
  unfold mgr_static in Hst. replace (block_size m') with (block_size m) by congruence.
  pose proof (cdiv_bounds N (block_size m) Hbs). nia.
Qed.

Lemma lengths_holds rid k k' n :
  same_config k k' → Forall2 (same_lengths rid) (tables k) (tables k') → kv_holds k rid n → kv_holds k' rid n.
Proof.
  intros Hc HF Hh m' [j Hj]%list_elem_of_lookup.
  destruct (Forall2_lookup_r _ _ _ _ _ HF Hj) as (m & Hm & _ & H1 & _ & H2).
  destruct (same_config_bs _ _ _ _ _ Hc Hm Hj) as [-> _]. rewrite H2.
  apply Hh. by eapply list_elem_of_lookup_2.
Qed.

Lemma lengths_fresh rid k k' :
  Forall2 (same_lengths rid) (tables k) (tables k') → kv_fresh k rid → kv_fresh k' rid.
Proof.
  intros HF Hh m' [j Hj]%list_elem_of_lookup.
  destruct (Forall2_lookup_r _ _ _ _ _ HF Hj) as (m & Hm & _ & H1 & _ & H2).
  destruct (Hh m (list_elem_of_lookup_2 _ _ _ Hm)) as [E1 E2]. rewrite H1, E2. split; [|done].
  rewrite E1 in H2. by apply nil_length_inv.
Qed.

(** The outcome of an allocation for [r], up to [n] tokens: it succeeds and
    the tables cover them, or it fails and [P] still holds. *)
Definition alloc_promise r (n : Z) (P : KVCacheManager Q → Prop) k (res : option KVCacheBlocks) k' r' : Prop :=
  kv_ready k' ∧ kv_only (request_id r) k k' ∧ memo_grows r r' ∧
  match res with Some _ => kv_holds k' (request_id r) n | None => P k' end.

Lemma alloc_running_promise r new look k :
  kv_ready k → hashed k r → kv_holds k (request_id r) (num_computed_tokens r) →
  0 < new → 0 ≤ look → 0 ≤ num_computed_tokens r → 0 ≤ num_prompt_tokens r →
  num_computed_tokens r + new ≤ max_model_len k →
  ∃ res k' r', allocate_slots r new 0 None look 0 false 0 false 0 true k = Ok (res, k', r') ∧
    alloc_promise r (num_computed_tokens r + new) (λ k', kv_holds k' (request_id r) (num_computed_tokens r))
      k res k' r'.
Proof.
  intros Hk Hh Hold Hnew Hlook Hc Hp Hlen. destruct (kr_inv _ Hk) as [l Hl].
  destruct (allocate_slots_ok r new 0 None look 0 false 0 false 0 true k l Hl)
    as (res & k' & r' & l' & E & [Hl' Hsc] & Hr & Hout); [|done|].
  { split; try lia; [|done]. cbn [default from_option id]. rewrite Z.add_0_r. left.
    split; [done|]. split; [done|]. split; [cbn; by rewrite (ki_groups _ _ Hl)|]. intros m Hm. right. by apply Hold. }
  exists res, k', r'. split; [done|]. split; [by eapply ready_config; eauto|].
  unfold alloc_outcome in Hout. cbv zeta in Hout. rewrite !Z.add_0_r in Hout. destruct res as [b|].
  - split; [by eapply covers_only|]. split; [done|]. eapply covers_holds; [exact Hk|exact Hout|].
    unfold need_slot. lia.
  - destruct Hout as [HF _]. split; [by apply lengths_only|]. split; [done|]. by eapply lengths_holds.
Qed.

(** A waiting request: the lookup, and the allocation that uses its result. *)
Lemma lookup_promise r k :
  kv_ready k → hashed k r → kv_fresh k (request_id r) → num_computed_tokens r = 0 → 1 ≤ num_tokens r →
  ∃ b h k1, get_computed_blocks r k = Ok (b, h, k1) ∧ kv_ready k1 ∧ kv_quiet k k1 ∧
    0 ≤ h < num_tokens r ∧ computed_ok (request_id r) h 0 b (tables k1) (kv_pool k1).
Proof.
  intros Hk Hh Hf Hz Hn. destruct (kr_inv _ Hk) as [l Hl].
  destruct (lookup_ok r k l 0 Hl (kr_search _ Hk)) as (b & h & k1 & E & [Hl1 _] & [Ems _] & Hhit & Hc & _);
    [by split; try done; apply (kr_stats _ Hk)|done|].
  exists b, h, k1. split; [done|]. destruct (lookup_same _ _ _ _ _ E) as (_ & _ & _ & _ & _ & _ & _ & Hsc).
  split; [by eapply ready_config; eauto|]. split; [|done]. intros rid. split; [done|]. rewrite Ems.
  apply Forall2_same_length_lookup_2; [done|]. intros j m m' Hm Hm'. by simplify_eq.
Qed.

Lemma alloc_waiting_promise r new h b look full busy k :
  kv_ready k → hashed k r → num_computed_tokens r + h ≤ max_model_len k - new →
  computed_ok (request_id r) (num_computed_tokens r + h) 0 b (tables k) (kv_pool k) →
  0 < new → 0 ≤ look → 0 ≤ num_computed_tokens r + h → 0 ≤ num_prompt_tokens r →
  ∃ res k' r', allocate_slots r new h (Some b) look 0 false 0 full 0 busy k = Ok (res, k', r') ∧
    alloc_promise r (num_computed_tokens r + h + new)
      (λ k', Forall2 (same_lengths (request_id r)) (tables k) (tables k')) k res k' r'.
Proof.
  intros Hk Hh Hlen Hc Hnew Hlook Hn Hp. destruct (kr_inv _ Hk) as [l Hl].
  destruct (allocate_slots_ok r new h (Some b) look 0 false 0 full 0 busy k l Hl)
    as (res & k' & r' & l' & E & [Hl' Hsc] & Hr & Hout); [|done|].
  { split; try lia; done. }
  exists res, k', r'. split; [done|]. split; [by eapply ready_config; eauto|].
  unfold alloc_outcome in Hout. cbv zeta in Hout. rewrite !Z.add_0_r in Hout. destruct res as [bs|].
  - split; [by eapply covers_only|]. split; [done|]. eapply covers_holds; [exact Hk|exact Hout|].
    unfold need_slot. lia.
  - destruct Hout as [HF _]. split; [by apply lengths_only|]. by split.
Qed.

End KVContract.
