(* ===== verification/SchedInv.v ===== *)
(** * The invariant of the scheduler

    Every request of a scheduler is in exactly one place: it runs, or it waits
    in one of the queues.  A running request has blocks for the tokens computed
    so far; a waiting one has none.  [live_inv] states this over the parts of
    the state that matter (the objects, the dictionary of requests, the KV cache
    manager, the running and the waiting references), so that one lemma,
    [live_update], covers every operation that changes or moves a single
    request.

    Scope: text-only requests without speculative decoding, streaming input,
    KV or encoder cache connectors. *)

From S2P Require Import Prelude MathUtils Request BlockHash KVMetrics FreeQueue BlockPool.
From S2P Require Import SingleTypeManager ManagerInv Coordinator HybridHit CacheStats KVCacheManager.
From S2P Require Import KVReachable KVContract EncoderCache Heapq RequestQueue SchedUtils.
From S2P Require Import PyDict SchedState Scheduler.

Local Open Scope Z_scope.

(** ** Interface: block hashes of a growing request

    The scheduler appends tokens to requests; the KV cache reads their block
    hashes.  What it needs of the block hasher is that the hashes of a text-only
    request keep up with its tokens. *)

Definition chain_view (r : Request) :=
  (hash_view r, r.(_all_token_ids), lora_request r, cache_salt r).

(** [r'] is [r] with [toks] appended, new hashes and a larger digest memo. *)
Definition extended (toks : list Z) (r r' : Request) : Prop :=
  ∃ hs m, r' = with_block_hashes hs (with_prompt_embeds_per_block_hashes m
    (with_all_token_ids (r.(_all_token_ids) ++ toks) (with_output_token_ids (r.(_output_token_ids) ++ toks) r))).

Class HashChain {Q : Type} `{!FreeQueueOps Q} {env : PoolEnv} (h : block_hasher_t) := {
  chain_kv : KVCacheManager Q → Prop;
  chain_ok : Request → Prop;
  chain_config k k' : same_config k k' → chain_kv k → chain_kv k';
  chain_same r r' : chain_view r' = chain_view r → chain_ok r → chain_ok r';
  chain_grows r r' : memo_grows r r' → chain_ok r → chain_ok r';
  chain_hashed k r : chain_kv k → mm_features r = [] → chain_ok r → hashed k r;
  chain_append r toks : mm_features r = [] → chain_ok r →
    ∃ r', append_output_token_ids h toks r = Ok r' ∧ extended toks r r' ∧ chain_ok r';
}.

(** ** The invariant *)

Section Invariant.
Context {Q : Type} `{!FreeQueueOps Q} `{!FreeQueueSpec Q} {env : PoolEnv}.
Context (cfg : SchedulerConfig) `{!HashChain (Q := Q) (block_hasher cfg)}.
Implicit Types (k : KVCacheManager Q) (r : Request) (i j : nat) (objs : gmap nat Request).

(** A request in the scope of this file. *)
Record request_fits r : Prop := {
  rf_text : mm_features r = [];
  rf_chain : chain_ok r;
  rf_prompt : 0 ≤ num_prompt_tokens r;
  rf_tokens : 1 ≤ num_tokens r ≤ sched_max_model_len cfg - num_sampled_tokens_per_step cfg;
  rf_spec : spec_token_ids r = [];
  rf_placeholders : 0 ≤ num_output_placeholders r;
  rf_stats : is_Some (prefill_stats r) → num_tokens r ≤ num_prompt_tokens r;
  rf_count : num_tokens r = num_prompt_tokens r + num_output_tokens r;
  rf_sampling : ∃ sp, sampling_params r = Some sp ∧
    num_prompt_tokens r + sp_min_tokens sp ≤ sched_max_model_len cfg;
  rf_pooling : pooling_params r = None;
  rf_final : resumable r = false;
}.

Record running_ok k r : Prop := {
  ro_fits : request_fits r;
  ro_status : status r = RUNNING;
  ro_computed : 0 ≤ num_computed_tokens r ≤ num_tokens r + num_output_placeholders r;
  ro_len : num_computed_tokens r ≤ sched_max_model_len cfg - num_sampled_tokens_per_step cfg;
  ro_holds : kv_holds k (request_id r) (num_computed_tokens r);
}.

Record waiting_ok k r : Prop := {
  wo_fits : request_fits r;
  wo_status : status r ∈ [WAITING; PREEMPTED; WAITING_FOR_STRUCTURED_OUTPUT_GRAMMAR];
  wo_computed : num_computed_tokens r = 0;
  wo_fresh : kv_fresh k (request_id r);
}.

Record live_inv objs (reqs : dict nat) k (run ws : list nat) : Prop := {
  lv_objs i r : objs !! i = Some r → py_id r = i;
  lv_dict id i : dict_get id reqs = Some i → i ∈ run ++ ws ∧ ∃ r, objs !! i = Some r ∧ request_id r = id;
  lv_ids i r : i ∈ run ++ ws → objs !! i = Some r → dict_get (request_id r) reqs = Some i;
  lv_keys : NoDup reqs.*1;
  lv_nodup : NoDup (run ++ ws);
  lv_run i : i ∈ run → ∃ r, objs !! i = Some r ∧ running_ok k r;
  lv_wait i : i ∈ ws → ∃ r, objs !! i = Some r ∧ waiting_ok k r;
  lv_kv : kv_ready k;
  lv_mml : max_model_len k = sched_max_model_len cfg;
  lv_chain : chain_kv k;
  lv_log : log_stats k = sched_log_stats cfg;
  lv_fresh id : dict_get id reqs = None → kv_fresh k id;
}.

(** ** Transport *)

Lemma fits_hashed k r : chain_kv k → request_fits r → hashed k r.
Proof. intros Hk [H1 H2 _ _ _ _ _ _ _ _ _]. by apply chain_hashed. Qed.

(** The attributes a request must keep to stay in scope. *)
Definition fits_view r :=
  (chain_view r, num_prompt_tokens r, num_output_tokens r, spec_token_ids r,
   (sampling_params r, pooling_params r, resumable r)).
Lemma fits_change r r' :
  fits_view r' = fits_view r → 0 ≤ num_output_placeholders r' →
  (is_Some (prefill_stats r') → is_Some (prefill_stats r)) → request_fits r → request_fits r'.
Proof.
  intros Ev Hpl Hst [F1 F2 F3 F4 F5 F6 F7 F8 F9 F10 F11]. pose proof (chain_same r r') as Hch.
  unfold fits_view in Ev. assert (chain_view r' = chain_view r) as Ec by congruence. specialize (Hch Ec F2).
  unfold chain_view, hash_view in Ev. injection Ev as Em _ _ Et _ _ _ _ Ep Eo Es Esp Epo Er.
  split; rewrite ?Em, ?Ep, ?Eo, ?Es, ?Esp, ?Epo, ?Er, ?Et; auto.
Qed.

Lemma running_only rid k k' r :
  kv_only rid k k' → request_id r ≠ rid → running_ok k r → running_ok k' r.
Proof.
  intros Ho Hne [H1 H2 H3 H4 H5]. split; try done. by eapply only_holds.
Qed.

Lemma waiting_only rid k k' r :
  kv_only rid k k' → request_id r ≠ rid → waiting_ok k r → waiting_ok k' r.
Proof.
  intros Ho Hne [H1 H2 H3 H4]. split; try done. by eapply only_fresh.
Qed.

Lemma running_quiet k k' r : kv_quiet k k' → running_ok k r → running_ok k' r.
Proof.
  intros Hq [H1 H2 H3 H4 H5]. split; try done. by eapply quiet_holds.
Qed.

Lemma waiting_quiet k k' r : kv_quiet k k' → waiting_ok k r → waiting_ok k' r.
Proof.
  intros Hq [H1 H2 H3 H4]. split; try done. by eapply quiet_fresh.
Qed.

(** Objects in different places have different ids. *)
Lemma live_inj objs reqs k run ws i j ri rj :
  live_inv objs reqs k run ws → i ∈ run ++ ws → j ∈ run ++ ws →
  objs !! i = Some ri → objs !! j = Some rj → request_id ri = request_id rj → i = j.
Proof.
  intros Hl Hi Hj Ei Ej Eid. pose proof (lv_ids _ _ _ _ _ Hl i ri Hi Ei) as H1.
  pose proof (lv_ids _ _ _ _ _ Hl j rj Hj Ej) as H2. rewrite Eid in H1. congruence.
Qed.

Lemma live_object objs reqs k run ws i :
  live_inv objs reqs k run ws → i ∈ run ++ ws → ∃ r, objs !! i = Some r.
Proof.
  intros Hl [Hi|Hi]%elem_of_app; [destruct (lv_run _ _ _ _ _ Hl i Hi) as (r & ? & _)
    |destruct (lv_wait _ _ _ _ _ Hl i Hi) as (r & ? & _)]; eauto.
Qed.

(** The one step of the invariant: request [i] changes to [r'], its blocks
    change, and it may move; all others stay as and where they are. *)
Lemma live_update objs reqs k run ws i r r' k' run' ws' :
  live_inv objs reqs k run ws → i ∈ run ++ ws → objs !! i = Some r →
  request_id r' = request_id r → py_id r' = i →
  kv_ready k' → kv_only (request_id r) k k' →
  run' ++ ws' ≡ₚ run ++ ws → (∀ j, j ≠ i → j ∈ run' → j ∈ run) → (∀ j, j ≠ i → j ∈ ws' → j ∈ ws) →
  (i ∈ run' → running_ok k' r') → (i ∈ ws' → waiting_ok k' r') →
  live_inv (<[i := r']> objs) reqs k' run' ws'.
Proof.
  intros Hl Hi Ei Eid Epy Hk' Ho Hp Hrun Hws Hr Hw.
  assert (∀ j rj, j ≠ i → j ∈ run ++ ws → objs !! j = Some rj → request_id rj ≠ request_id r) as Hne.
  { intros j rj Hj Hjin Ej E. apply Hj. by eapply (live_inj objs reqs k run ws). }
  split.
  - intros j rj. destruct (decide (i = j)) as [<-|Hj].
    + rewrite lookup_insert_eq. by intros [= <-].
    + rewrite lookup_insert_ne by done. apply (lv_objs _ _ _ _ _ Hl).
  - intros id j Hj. rewrite Hp. destruct (lv_dict _ _ _ _ _ Hl id j Hj) as (Hin & rj & Ej & <-). split; [done|].
    destruct (decide (i = j)) as [<-|Hij].
    + exists r'. rewrite lookup_insert_eq. split; [done|]. congruence.
    + exists rj. by rewrite lookup_insert_ne.
  - intros j rj Hjin. rewrite Hp in Hjin. destruct (decide (i = j)) as [<-|Hj].
    + rewrite lookup_insert_eq. intros [= <-]. rewrite Eid. by apply (lv_ids _ _ _ _ _ Hl).
    + rewrite lookup_insert_ne by done. by apply (lv_ids _ _ _ _ _ Hl).
  - apply (lv_keys _ _ _ _ _ Hl).
  - rewrite Hp. apply (lv_nodup _ _ _ _ _ Hl).
  - intros j Hj. destruct (decide (i = j)) as [<-|Hij].
    + exists r'. rewrite lookup_insert_eq. auto.
    + destruct (lv_run _ _ _ _ _ Hl j (Hrun j (not_eq_sym Hij) Hj)) as (rj & Ej & Hok). exists rj.
      rewrite lookup_insert_ne by done. split; [done|]. eapply running_only; [exact Ho| |done].
      apply (Hne j); [done| |done]. rewrite <- Hp. apply elem_of_app. by left.
  - intros j Hj. destruct (decide (i = j)) as [<-|Hij].
    + exists r'. rewrite lookup_insert_eq. auto.
    + destruct (lv_wait _ _ _ _ _ Hl j (Hws j (not_eq_sym Hij) Hj)) as (rj & Ej & Hok). exists rj.
      rewrite lookup_insert_ne by done. split; [done|]. eapply waiting_only; [exact Ho| |done].
      apply (Hne j); [done| |done]. rewrite <- Hp. apply elem_of_app. by right.
  - done.
  - destruct (shell_caching _ _ (proj1 Ho)) as (_ & -> & _). apply (lv_mml _ _ _ _ _ Hl).
  - eapply chain_config; [apply Ho|apply (lv_chain _ _ _ _ _ Hl)].
  - destruct (shell_caching _ _ (proj1 Ho)) as (_ & _ & -> & _). apply (lv_log _ _ _ _ _ Hl).
  - intros id Hid. eapply only_fresh; [exact Ho| |by apply (lv_fresh _ _ _ _ _ Hl)].
    intros ->. rewrite (lv_ids _ _ _ _ _ Hl i r Hi Ei) in Hid. done.
Qed.

(** Request [i] leaves: its blocks are freed and its entry is deleted. *)
Lemma live_remove objs reqs k run ws i r r' k' run' ws' :
  live_inv objs reqs k run ws → objs !! i = Some r → py_id r' = i →
  kv_ready k' → kv_only (request_id r) k k' → kv_fresh k' (request_id r) →
  run ++ ws ≡ₚ i :: run' ++ ws' → (∀ j, j ∈ run' → j ∈ run) → (∀ j, j ∈ ws' → j ∈ ws) →
  live_inv (<[i := r']> objs) (dict_del (request_id r) reqs) k' run' ws'.
Proof.
  intros Hl Ei Epy Hk' Ho Hfr Hp Hrun Hws.
  assert (i ∈ run ++ ws) as Hi by (rewrite Hp; by left).
  pose proof (lv_nodup _ _ _ _ _ Hl) as Hnd. rewrite Hp in Hnd. apply NoDup_cons in Hnd as [Hni Hnd].
  assert (∀ j, j ∈ run' ++ ws' → j ≠ i ∧ j ∈ run ++ ws) as Hin.
  { intros j Hj. split; [by intros ->|]. rewrite Hp. by right. }
  assert (∀ j rj, j ∈ run' ++ ws' → objs !! j = Some rj → request_id rj ≠ request_id r) as Hne.
  { intros j rj Hj Ej Eq. destruct (Hin j Hj) as [Hji Hj']. apply Hji. by eapply (live_inj objs reqs k run ws). }
  split.
  - intros j rj. destruct (decide (i = j)) as [<-|Hj].
    + rewrite lookup_insert_eq. by intros [= <-].
    + rewrite lookup_insert_ne by done. apply (lv_objs _ _ _ _ _ Hl).
  - intros id j. rewrite dict_get_del by apply (lv_keys _ _ _ _ _ Hl). case_decide as Hid; [done|]. intros Hj.
    destruct (lv_dict _ _ _ _ _ Hl id j Hj) as (Hjin & rj & Ej & <-). rewrite Hp in Hjin.
    apply elem_of_cons in Hjin as [->|Hjin]; [congruence|]. split; [done|]. exists rj.
    rewrite lookup_insert_ne; [done|]. intros ->. by destruct (Hin _ Hjin).
  - intros j rj Hj. destruct (Hin j Hj) as [Hji Hj']. rewrite lookup_insert_ne by done. intros Ej.
    rewrite dict_get_del, decide_False by (apply (lv_keys _ _ _ _ _ Hl) || by apply (Hne j)).
    by apply (lv_ids _ _ _ _ _ Hl).
  - by apply dict_del_nodup, (lv_keys _ _ _ _ _ Hl).
  - done.
  - intros j Hj. destruct (lv_run _ _ _ _ _ Hl j (Hrun j Hj)) as (rj & Ej & Hok). exists rj.
    assert (j ∈ run' ++ ws') as Hj' by (apply elem_of_app; by left).
    rewrite lookup_insert_ne by (intros ->; by destruct (Hin _ Hj')). split; [done|].
    eapply running_only; [exact Ho| |done]. by apply (Hne j).
  - intros j Hj. destruct (lv_wait _ _ _ _ _ Hl j (Hws j Hj)) as (rj & Ej & Hok). exists rj.
    assert (j ∈ run' ++ ws') as Hj' by (apply elem_of_app; by right).
    rewrite lookup_insert_ne by (intros ->; by destruct (Hin _ Hj')). split; [done|].
    eapply waiting_only; [exact Ho| |done]. by apply (Hne j).
  - done.
  - destruct (shell_caching _ _ (proj1 Ho)) as (_ & -> & _). apply (lv_mml _ _ _ _ _ Hl).
  - eapply chain_config; [apply Ho|apply (lv_chain _ _ _ _ _ Hl)].
  - destruct (shell_caching _ _ (proj1 Ho)) as (_ & _ & -> & _). apply (lv_log _ _ _ _ _ Hl).
  - intros id. rewrite dict_get_del by apply (lv_keys _ _ _ _ _ Hl). case_decide as Hid; [by subst|]. intros Hn.
    eapply only_fresh; [exact Ho|done|by apply (lv_fresh _ _ _ _ _ Hl)].
Qed.

(** A new request with an unused id waits. *)
Lemma live_add objs reqs k run ws r :
  live_inv objs reqs k run ws → objs !! py_id r = None → dict_get (request_id r) reqs = None → waiting_ok k r →
  live_inv (<[py_id r := r]> objs) (dict_set (request_id r) (py_id r) reqs) k run (py_id r :: ws).
Proof.
  intros Hl Hnew Hid Hw.
  assert (∀ j, j ∈ run ++ ws → j ≠ py_id r) as Hne.
  { intros j Hj ->. destruct (live_object _ _ _ _ _ _ Hl Hj). congruence. }
  assert (run ++ py_id r :: ws ≡ₚ py_id r :: run ++ ws) as Hp by (by rewrite <- Permutation_middle).
  split; try apply Hl.
  - intros j rj. destruct (decide (py_id r = j)) as [<-|Hj].
    + rewrite lookup_insert_eq. by intros [= <-].
    + rewrite lookup_insert_ne by done. apply (lv_objs _ _ _ _ _ Hl).
  - intros id j. rewrite dict_get_set, Hp. case_decide as Hd.
    + intros [= <-]. split; [by left|]. exists r. by rewrite lookup_insert_eq.
    + intros Hj. destruct (lv_dict _ _ _ _ _ Hl id j Hj) as (Hin & rj & Ej & <-). split; [by right|]. exists rj.
      by rewrite lookup_insert_ne by (symmetry; auto).
  - intros j rj. rewrite Hp, dict_get_set. intros [->|Hj]%elem_of_cons.
    + rewrite lookup_insert_eq. intros [= <-]. by rewrite decide_True.
    + rewrite lookup_insert_ne by (symmetry; auto). intros Ej. pose proof (lv_ids _ _ _ _ _ Hl j rj Hj Ej) as Hd.
      rewrite decide_False; [done|]. congruence.
  - apply dict_set_nodup; [done|]. apply (lv_keys _ _ _ _ _ Hl).
  - rewrite Hp. apply NoDup_cons. split; [by intros ?%Hne|]. apply (lv_nodup _ _ _ _ _ Hl).
  - intros j Hj. destruct (lv_run _ _ _ _ _ Hl j Hj) as (rj & Ej & Hok). exists rj.
    rewrite lookup_insert_ne; [done|]. symmetry. apply Hne, elem_of_app. by left.
  - intros j [->|Hj]%elem_of_cons; [exists r; by rewrite lookup_insert_eq|].
    destruct (lv_wait _ _ _ _ _ Hl j Hj) as (rj & Ej & Hok). exists rj.
    rewrite lookup_insert_ne; [done|]. symmetry. apply Hne, elem_of_app. by right.
  - intros id. rewrite dict_get_set. case_decide; [done|]. apply (lv_fresh _ _ _ _ _ Hl).
Qed.

(** An object that is nowhere does not matter. *)
Lemma live_garbage objs reqs k run ws r :
  live_inv objs reqs k run ws → py_id r ∉ run ++ ws → live_inv (<[py_id r := r]> objs) reqs k run ws.
Proof.
  intros Hl Hn. assert (∀ j, j ∈ run ++ ws → py_id r ≠ j) as Hne by (by intros j Hj <-).
  split; try apply Hl.
  - intros j rj. destruct (decide (py_id r = j)) as [<-|Hj].
    + rewrite lookup_insert_eq. by intros [= <-].
    + rewrite lookup_insert_ne by done. apply (lv_objs _ _ _ _ _ Hl).
  - intros id j Hj. destruct (lv_dict _ _ _ _ _ Hl id j Hj) as (Hin & rj & Ej & <-). split; [done|]. exists rj.
    by rewrite lookup_insert_ne by auto.
  - intros j rj Hj. rewrite lookup_insert_ne by auto. by apply (lv_ids _ _ _ _ _ Hl).
  - intros j Hj. rewrite lookup_insert_ne by (apply Hne, elem_of_app; by left). by apply (lv_run _ _ _ _ _ Hl).
  - intros j Hj. rewrite lookup_insert_ne by (apply Hne, elem_of_app; by right). by apply (lv_wait _ _ _ _ _ Hl).
Qed.

Lemma live_quiet objs reqs k k' run ws :
  live_inv objs reqs k run ws → kv_ready k' → kv_quiet k k' → live_inv objs reqs k' run ws.
Proof.
  intros [H1 H2 H3 H4 H5 H6 H7 H8 H9 H10 H11 H12] Hk' Hq. split; try done.
  - intros i Hi. destruct (H6 i Hi) as (r & Hr & Ho). exists r. split; [done|]. by eapply running_quiet.
  - intros i Hi. destruct (H7 i Hi) as (r & Hr & Ho). exists r. split; [done|]. by eapply waiting_quiet.
  - destruct (shell_caching _ _ (proj1 (Hq ""))) as (_ & -> & _). done.
  - eapply chain_config; [apply (Hq "")|done].
  - destruct (shell_caching _ _ (proj1 (Hq ""))) as (_ & _ & -> & _). done.
  - intros id Hid. by eapply quiet_fresh; [|apply H12].
Qed.

(** Only the sets of running and waiting requests matter, not their order. *)
#[export] Instance live_proper objs reqs k :
  Proper ((≡ₚ) ==> (≡ₚ) ==> iff) (live_inv objs reqs k).
Proof.
  assert (∀ run run' ws ws', run ≡ₚ run' → ws ≡ₚ ws' →
    live_inv objs reqs k run ws → live_inv objs reqs k run' ws') as H.
  { intros run run' ws ws' Hr Hw [H1 H2 H3 H4 H5 H6 H7 H8 H9 H10 H11 H12].
    split; try done; intros *; rewrite <- ?Hr, <- ?Hw; auto. }
  intros run run' Hr ws ws' Hw. split; by apply H.
Qed.

End Invariant.

(** ** The block hasher keeps the chain *)

Section Hasher.
Context {Q : Type} `{!FreeQueueOps Q} {env : PoolEnv}.
Context (hash_function : hash_input → bytes) (NONE_HASH : bytes) (hbs : Z) (Hhbs : 0 < hbs).
Abbreviation hasher := (Some (request_block_hasher env_sha256 hash_function NONE_HASH hbs)).
Implicit Types (k : KVCacheManager Q) (r : Request).

Definition hasher_ok r : Prop :=
  block_hashes_ok env_sha256 hash_function NONE_HASH hbs r ∧ memo_ok env_sha256 r.

Lemma hasher_same r r' : chain_view r' = chain_view r → hasher_ok r → hasher_ok r'.
Proof.
  unfold chain_view, hash_view. intros Ev [Hb Hm]. injection Ev as E1 E2 E3 E4 E5 E6 E7 E8. split.
  - unfold block_hashes_ok, num_full_blocks in *. rewrite E4, E5, Hb. apply chain_hashes_ext. intros j _.
    unfold block_tokens, block_keys, block_extra_keys, embeds_keys, _gen_lora_extra_hash_keys, cache_salt_keys.
    by rewrite E1, E2, E6, E7, E8.
  - unfold memo_ok in *. by rewrite E2, E3.
Qed.

Lemma hasher_grows r r' : memo_grows r r' → hasher_ok r → hasher_ok r'.
Proof.
  intros [Hs Hm] [Hb Hmo]. split; [|auto]. unfold block_hashes_ok in *.
  rewrite (chain_hashes_memo _ _ _ _ r r' _ _ _ Hs). destruct Hs as [m ->]. exact Hb.
Qed.

#[export] Instance hasher_chain : HashChain (Q := Q) hasher.
Proof.
  refine {| chain_kv k := kvm_enable_caching k = true → hash_block_size (kv_pool k) = hbs; chain_ok := hasher_ok |}.
  - intros k k' Hc. destruct (shell_caching _ _ Hc) as (-> & _ & _ & -> & _). done.
  - apply hasher_same.
  - apply hasher_grows.
  - intros k r Hk Hmm [Hb Hm] Hen. split; [rewrite Hmm; split; constructor|done|].
    rewrite (Hk Hen), Hb, length_chain_hashes. unfold num_full_blocks. lia.
  - intros r toks Hmm [Hb Hm].
    destruct (append_update_spec env_sha256 hash_function NONE_HASH hbs Hhbs r toks) as (r' & H1 & _ & _ & H2 & H3 & _ & H4); try done.
    + rewrite Hmm. split; constructor.
    + right. rewrite Hmm. constructor.
    + exists r'. done.
Defined.

(** Without a hasher nothing is cached. *)
#[export] Instance no_hasher_chain : HashChain (Q := Q) None.
Proof.
  refine {| chain_kv k := kvm_enable_caching k = false; chain_ok _ := True |}; try done.
  - intros k k' Hc. by destruct (shell_caching _ _ Hc) as (-> & _).
  - intros k r Hk _ _ Hen. congruence.
  - intros r toks _ _. eexists. split; [reflexivity|]. split; [|done]. by eexists (block_hashes r), (r.(_prompt_embeds_per_block_hashes)).
Defined.
End Hasher.
