(* ===== verification/ScheduleInv.v ===== *)
(** * A scheduling step keeps its limits

    [schedule] returns from every state in order: its assertions hold, no
    lookup fails, and its loops end.  The running loop keeps [step_inv]: what
    has been scheduled so far runs, has blocks for its tokens and is accounted
    for in the token budget. *)

From S2P Require Import Prelude MathUtils Request BlockHash KVMetrics FreeQueue BlockPool.
From S2P Require Import SingleTypeManager ManagerInv Coordinator HybridHit CacheStats KVCacheManager.
From S2P Require Import KVReachable KVContract EncoderCache Heapq RequestQueue SchedUtils.
From S2P Require Import PyDict SchedState Scheduler Schedule SchedInv.

Local Open Scope Z_scope.

(** ** Facts: sums over dictionaries *)

Lemma sum_values_app d1 d2 : sum_values (d1 ++ d2) = sum_values d1 + sum_values d2.
Proof. unfold sum_values. induction d1 as [|x d1 IH]; cbn; [done|]. rewrite IH. lia. Qed.

Lemma sum_values_set d id n : dict_get id d = None → sum_values (dict_set id n d) = sum_values d + n.
Proof. intros H. rewrite dict_set_new, sum_values_app by done. cbn. lia. Qed.

Lemma sum_values_del d id n : dict_get id d = Some n → sum_values (dict_del id d) = sum_values d - n.
Proof. intros (d1 & d2 & -> & ->)%dict_del_split. rewrite !sum_values_app. cbn. unfold sum_values. lia. Qed.

Lemma sum_values_nonneg d : (∀ id n, (id, n) ∈ d → 0 ≤ n) → 0 ≤ sum_values d.
Proof.
  induction d as [|[id n] d IH]; intros H; cbn; [done|].
  pose proof (H id n ltac:(by left)). assert (0 ≤ sum_values d) by (apply IH; intros; eapply H; by right).
  unfold sum_values in *. lia.
Qed.

(** ** Aligned splits *)

Lemma floor_multiple n b : 0 ≤ n → 0 < b → 0 ≤ n / b * b ≤ n.
Proof. intros. pose proof (Z.mul_div_le n b). pose proof (Z.div_pos n b). nia. Qed.

Lemma split_bounds cfg r n local external uncached :
  0 ≤ n → 0 < cache_config_block_size cfg →
  0 ≤ _mamba_block_aligned_split cfg r n local external uncached ≤ n.
Proof.
  intros Hn Hb. unfold _mamba_block_aligned_split. set (c := num_computed_tokens r + local + external).
  destruct (c <? _); [|lia].
  set (last := if sched_use_eagle cfg then _ else _).
  set (n1 := if c + n <? last then _ else _).
  assert (0 ≤ n1 ≤ n) as H1.
  { unfold n1. pose proof (floor_multiple n _ Hn Hb). destruct (c + n <? last); [done|].
    destruct (c <? last) eqn:E1, (last <? c + n) eqn:E2; cbn; zbool; lia. }
  destruct (_ >=? _) eqn:E1, (n1 >? uncached) eqn:E2; cbn [andb]; zbool; try lia.
  pose proof (floor_multiple uncached _ ltac:(lia) Hb). lia.
Qed.

(** ** Configurations and states in scope *)

Record plain_config (cfg : SchedulerConfig) : Prop := {
  pc_defer : defer_block_free cfg = false;
  pc_lora : max_loras cfg = None;
  pc_spec : num_spec_tokens cfg = 0;
  pc_dynamic : dynamic_sd_lookup cfg = None;
  pc_lookahead : 0 ≤ num_lookahead_tokens cfg;
  pc_sampled : 0 ≤ num_sampled_tokens_per_step cfg ≤ 1;
  pc_budget : 0 ≤ max_num_scheduled_tokens cfg;
  pc_block : 0 < cache_config_block_size cfg;
}.

Section ScheduleInv.
Context {Q : Type} `{!FreeQueueOps Q} `{!FreeQueueSpec Q} {env : PoolEnv}.
Context {WQ : Type} `{!RequestQueueOps WQ} `{!RequestQueueSpec WQ} `{!QueueAlias WQ}.
Context {C E G : Type} `{!KVConnector C} `{!ECConnector E} `{!StructuredOutput G}.
Context (cfg : SchedulerConfig) (Hcfg : plain_config cfg) `{!HashChain (Q := Q) (block_hasher cfg)}.
Abbreviation sched := (Scheduler Q WQ C E G).
Abbreviation step := (Step Q WQ C E G).
Implicit Types (s : sched) (l : step) (r : Request) (i j : nat) (wl sl kl : list Request).

(** No connectors, no cached encoder outputs, no paused streaming sessions. *)
Record env_ok s : Prop := {
  en_connector : connector s = None;
  en_ec : ec_connector s = None;
  en_encoder : ∃ e, encoder_cache_manager s = EncCache e ∧ request_cached_ids e = ∅;
  en_streaming : num_waiting_for_streaming_input s = 0;
}.

Abbreviation live s := (live_inv cfg (objects s) (requests s) (kv_cache_manager s)).

Lemma deref_ok i s r : objects s !! i = Some r → deref i s = Ok r.
Proof. unfold deref. by intros ->. Qed.

Lemma enc_free_ok r s : env_ok s → enc_free r (encoder_cache_manager s) = Ok (encoder_cache_manager s).
Proof.
  intros [_ _ (e & -> & He) _]. unfold enc_free, EncoderCache.free, get_cached_input_ids.
  rewrite He, lookup_empty. done.
Qed.

Lemma free_request_blocks_ok r s :
  kv_ready (kv_cache_manager s) →
  ∃ k', _free_request_blocks cfg r s = Ok (set_kv_cache_manager k' s) ∧ kv_ready k' ∧
    kv_only (request_id r) (kv_cache_manager s) k' ∧ kv_fresh k' (request_id r).
Proof.
  intros Hk. unfold _free_request_blocks. rewrite (pc_defer _ Hcfg). cbn [negb orb].
  destruct (free_promise r _ Hk) as (k' & -> & H). unfold mbind; cbn [result_bind]. eauto.
Qed.

(** ** Preemption *)

(** A preempted request is what it was, without computed tokens. *)
Definition preempted r : Request :=
  with_num_preemptions (num_preemptions r + 1)
    (with_spec_token_ids [] (with_num_computed_tokens 0 (with_status PREEMPTED r))).

Lemma preempt_ok s i r run ws wl :
  env_ok s → live s (i :: run) ws → objects s !! i = Some r →
  rq_rep (waiting s) wl → i ∉ py_id <$> wl →
  ∃ k' q X Y wl',
    _preempt_request cfg i s =
      Ok (set_reset_preempted_req_ids Y (set_waiting q (store (preempted r)
            (set_inflight_prefills X (set_encoder_cache_manager (encoder_cache_manager s)
               (set_kv_cache_manager k' s)))))) ∧
    kv_only (request_id r) (kv_cache_manager s) k' ∧
    live_inv cfg (<[i := preempted r]> (objects s)) (requests s) k' run (i :: ws) ∧
    rq_rep q wl' ∧ wl' ≡ₚ preempted r :: wl.
Proof.
  intros Henv Hl Hi Hq Hnew. unfold _preempt_request, deref. rewrite Hi. unfold mbind at 1; cbn [of_option result_bind].
  destruct (lv_run _ _ _ _ _ _ Hl i) as (r0 & Hr0 & Hok); [by left|]. rewrite Hi in Hr0. injection Hr0 as <-.
  rewrite (bool_decide_eq_true_2 _ (ro_status _ _ _ Hok)). cbn [require]. unfold mbind at 1; cbn [result_bind].
  destruct (free_request_blocks_ok r s (lv_kv _ _ _ _ _ _ Hl)) as (k' & -> & Hk' & Ho & Hf).
  unfold mbind at 1; cbn [result_bind]. cbn [encoder_cache_manager set_kv_cache_manager].
  rewrite (enc_free_ok r s Henv). unfold mbind at 1; cbn [result_bind]. cbv zeta.
  change (with_num_preemptions _ _) with (preempted r).
  assert (py_id r = i) as Epy by by apply (lv_objs _ _ _ _ _ _ Hl).
  destruct (rq_prepend (waiting s) wl (preempted r) Hq) as (q & wl' & Eq & Hq' & Hp).
  { by replace (py_id (preempted r)) with i by (by destruct r). }
  cbn [waiting store set_objects set_inflight_prefills set_encoder_cache_manager set_kv_cache_manager].
  rewrite Eq. unfold mbind; cbn [result_bind]. eexists k', q, _, _, wl'. split; [reflexivity|].
  split; [done|]. split; [|done].
  eapply (live_update cfg _ _ _ _ _ i r); try done.
  - apply elem_of_app. left. by left.
  - by rewrite <- Permutation_middle.
  - intros j Hj Hjr. by right.
  - intros j Hj [?|?]%elem_of_cons; [done|done].
  - intros Hir. pose proof (lv_nodup _ _ _ _ _ _ Hl) as [Hni _]%NoDup_cons. destruct Hni. apply elem_of_app. by left.
  - intros _. pose proof (ro_fits _ _ _ Hok) as Hfit. split.
    + apply (fits_change cfg r); [|by apply (rf_placeholders _ _ Hfit)|done|done].
      unfold fits_view. cbn. by rewrite (rf_spec _ _ Hfit).
    + cbn. set_solver.
    + done.
    + by destruct r.
Qed.

(** ** Accounting of scheduled requests *)

(** Request [j] has [n] tokens in this step and blocks for them. *)
Definition scheduled_ok (objs : gmap nat Request) (k : KVCacheManager Q) (toks : dict Z)
    (blks : dict KVCacheBlocks) j : Prop :=
  ∃ r n b, objs !! j = Some r ∧ dict_get (request_id r) toks = Some n ∧
    dict_get (request_id r) blks = Some b ∧ 0 < n ∧
    num_computed_tokens r + n ≤ num_tokens r + num_output_placeholders r ∧
    num_computed_tokens r + n ≤ sched_max_model_len cfg - num_sampled_tokens_per_step cfg ∧
    kv_holds k (request_id r) (num_computed_tokens r + n).

Record account (B : Z) objs k (did : list nat) toks blks (budget : Z) : Prop := {
  ac_ok j : j ∈ did → scheduled_ok objs k toks blks j;
  ac_keys id n : dict_get id toks = Some n →
    ∃ j r, j ∈ did ∧ objs !! j = Some r ∧ request_id r = id;
  ac_nodup : NoDup did;
  ac_toks : NoDup toks.*1;
  ac_blks : NoDup blks.*1;
  ac_len : length toks = length did;
  ac_sum : budget + sum_values toks = B;
  ac_pos : 0 ≤ budget;
}.

Implicit Types (objs : gmap nat Request) (k : KVCacheManager Q) (did : list nat).

(** The ids of scheduled requests differ from that of [r]. *)
Definition other_ids objs did r : Prop :=
  ∀ j rj, j ∈ did → objs !! j = Some rj → request_id rj ≠ request_id r.

Lemma account_other B objs k did toks blks budget i r r' k' :
  account B objs k did toks blks budget → i ∉ did → other_ids objs did r →
  kv_only (request_id r) k k' → account B (<[i := r']> objs) k' did toks blks budget.
Proof.
  intros [H1 H2 H3 H4 H5 H6 H7 H8] Hi Hids Ho. split; try done.
  - intros j Hj. destruct (H1 j Hj) as (rj & n & b & Ej & E1 & E2 & P1 & P2 & P3 & P4).
    exists rj, n, b. rewrite lookup_insert_ne by (intros ->; done). split_and!; try done.
    eapply only_holds; [exact Ho| |done]. by apply (Hids j).
  - intros id n Eg. destruct (H2 id n Eg) as (j & rj & Hj & Ej & Eid). exists j, rj.
    by rewrite lookup_insert_ne by (intros ->; done).
Qed.

Lemma account_quiet B objs k did toks blks budget k' :
  account B objs k did toks blks budget → kv_quiet k k' → account B objs k' did toks blks budget.
Proof.
  intros [H1 H2 H3 H4 H5 H6 H7 H8] Hq. split; try done.
  intros j Hj. destruct (H1 j Hj) as (rj & n & b & Ej & E1 & E2 & P1 & P2 & P3 & P4).
  exists rj, n, b. split_and!; try done. by eapply quiet_holds.
Qed.

Lemma account_fresh B objs k did toks blks budget r :
  account B objs k did toks blks budget → other_ids objs did r → dict_get (request_id r) toks = None.
Proof.
  intros Ha Hids. destruct (dict_get _ toks) as [n|] eqn:Eg; [|done].
  destruct (ac_keys _ _ _ _ _ _ _ Ha _ _ Eg) as (j & rj & Hj & Ej & Eid). by destruct (Hids j rj Hj Ej).
Qed.

Lemma account_add B objs k did toks blks budget i r n b did' :
  account B objs k did toks blks budget → i ∉ did → objs !! i = Some r → other_ids objs did r →
  0 < n ≤ budget → num_computed_tokens r + n ≤ num_tokens r + num_output_placeholders r →
  num_computed_tokens r + n ≤ sched_max_model_len cfg - num_sampled_tokens_per_step cfg →
  kv_holds k (request_id r) (num_computed_tokens r + n) → did' ≡ₚ i :: did →
  account B objs k did' (dict_set (request_id r) n toks) (dict_set (request_id r) b blks) (budget - n).
Proof.
  intros Ha Hi Ei Hids Hn H1 H2 H3 Hp. pose proof (account_fresh _ _ _ _ _ _ _ _ Ha Hids) as Hfresh.
  destruct Ha as [A1 A2 A3 A4 A5 A6 A7 A8]. split.
  - intros j. rewrite Hp. intros [->|Hj]%elem_of_cons.
    + exists r, n, b. rewrite !dict_get_set, !decide_True by done. split_and!; done || lia.
    + destruct (A1 j Hj) as (rj & nj & bj & Ej & E1 & E2 & P). exists rj, nj, bj.
      by rewrite !dict_get_set, !decide_False by (by apply (Hids j)).
  - intros id m. rewrite dict_get_set. case_decide as Hid.
    + intros _. exists i, r. rewrite Hp. split; [by left|]. by subst.
    + intros Eg. destruct (A2 id m Eg) as (j & rj & Hj & Ej). exists j, rj. rewrite Hp. split; [by right|done].
  - rewrite Hp. by apply NoDup_cons.
  - by apply dict_set_nodup.
  - destruct (dict_get (request_id r) blks) as [b0|] eqn:Eb; [|by apply dict_set_nodup].
    assert ((dict_set (request_id r) b blks).*1 = blks.*1) as ->; [|done]. clear -Eb.
    induction blks as [|[id x] d IH]; cbn in *; [done|]. destruct (String.eqb_spec (request_id r) id) as [<-|]; [done|].
    cbn. by rewrite IH.
  - rewrite dict_set_new, Hp by done. rewrite length_app. cbn. lia.
  - rewrite sum_values_set by done. lia.
  - lia.
Qed.

Lemma account_del B objs k did toks blks budget i r n did' :
  account B objs k did toks blks budget → did ≡ₚ i :: did' → objs !! i = Some r →
  dict_get (request_id r) toks = Some n →
  other_ids objs did' r →
  account B objs k did' (dict_del (request_id r) toks) (dict_del (request_id r) blks) (budget + n).
Proof.
  intros [A1 A2 A3 A4 A5 A6 A7 A8] Hp Ei En Hids. split.
  - intros j Hj. destruct (A1 j) as (rj & nj & bj & Ej & E1 & E2 & P); [rewrite Hp; by right|].
    exists rj, nj, bj. rewrite !dict_get_del, !decide_False by (done || by apply (Hids j)). done.
  - intros id m. rewrite dict_get_del by done. case_decide as Hid; [done|]. intros Eg.
    destruct (A2 id m Eg) as (j & rj & Hj & Ej & Eid). exists j, rj. split; [|done].
    rewrite Hp in Hj. apply elem_of_cons in Hj as [->|]; [|done]. rewrite Ei in Ej. injection Ej as ->. by subst.
  - rewrite Hp in A3. by apply NoDup_cons in A3 as [_ ?].
  - by apply dict_del_nodup.
  - by apply dict_del_nodup.
  - rewrite Hp in A6. cbn in A6. destruct (dict_del_split _ _ _ En) as (d1 & d2 & -> & ->).
    rewrite length_app in A6 |- *. cbn in A6. lia.
  - rewrite (sum_values_del _ _ n) by done. lia.
  - destruct (A1 i) as (r0 & n0 & b0 & E0 & E1 & _ & P & _); [rewrite Hp; by left|].
    rewrite Ei in E0. injection E0 as <-. rewrite En in E1. injection E1 as <-. lia.
Qed.

(** ** The loop over running requests *)

Record run_inv (B : Z) l wl sl : Prop := {
  ri_env : env_ok (sch l);
  ri_live : live (sch l) (running (sch l)) (py_id <$> wl ++ sl);
  ri_wrep : rq_rep (waiting (sch l)) wl;
  ri_srep : rq_rep (skipped_waiting (sch l)) sl;
  ri_acc : account B (objects (sch l)) (kv_cache_manager (sch l)) (running_reqs l) (tokens_of l)
             (req_to_new_blocks l) (token_budget l);
  ri_new : new_reqs l = [] ∧ resumed_reqs l = [] ∧ spec_tokens_of l = [];
  ri_enc : encoder_inputs_of l = [];
  ri_max : zlen (running (sch l)) ≤ max_num_running_reqs cfg;
}.

(** The requests behind the index have not been looked at. *)
Definition splits l (A T : list nat) : Prop :=
  running (sch l) = A ++ T ∧ zlen A ≤ req_index l ∧ ∀ j, j ∈ running_reqs l → j ∈ A.

(** The bound on the iterations that are left. *)
Definition left_ l : Z := zlen (running (sch l)) - req_index l.

Lemma remove_first_perm i (xs : list nat) : i ∈ xs → xs ≡ₚ i :: remove_first Nat.eqb i xs.
Proof.
  induction xs as [|x xs IH]; intros Hi; [by apply not_elem_of_nil in Hi|]. cbn [remove_first].
  destruct (Nat.eqb_spec i x) as [->|Hne]; [done|]. apply elem_of_cons in Hi as [?|Hi]; [done|].
  rewrite Permutation_swap. by rewrite <- IH.
Qed.

Lemma remove_first_app i (xs ys : list nat) :
  remove_first Nat.eqb i (xs ++ ys) =
  if decide (i ∈ xs) then remove_first Nat.eqb i xs ++ ys else xs ++ remove_first Nat.eqb i ys.
Proof.
  induction xs as [|x xs IH]; cbn; [by rewrite decide_False by apply not_elem_of_nil|].
  destruct (Nat.eqb_spec i x) as [->|Hne]; [by rewrite decide_True by (by left)|].
  rewrite IH. destruct (decide (i ∈ xs)), (decide (i ∈ x :: xs)) as [Hin|Hin]; try done; try set_solver.
Qed.

Lemma remove_first_sublist i (xs : list nat) : sublist (remove_first Nat.eqb i xs) xs.
Proof. induction xs as [|x xs IH]; cbn; [done|]. destruct (Nat.eqb i x); by constructor. Qed.

Lemma sublist_head i (xs ys : list nat) : sublist ys (i :: xs) → i ∈ ys → i ∉ xs → ∃ zs, ys = i :: zs.
Proof.
  intros Hs Hi Hn. apply sublist_cons_r in Hs as [Hs|(zs & -> & _)]; [|eauto].
  destruct Hn. by eapply elem_of_submseteq; [exact Hi|apply sublist_submseteq].
Qed.

Lemma max_by_priority_ok (xs : list nat) s :
  xs ≠ [] → (∀ j, j ∈ xs → is_Some (objects s !! j)) → ∃ j, max_by_priority xs s = Ok j ∧ j ∈ xs.
Proof.
  destruct xs as [|i xs]; [done|]. intros _ Hobj. unfold max_by_priority.
  assert (∀ best ys, best ∈ i :: xs → (∀ j, j ∈ ys → j ∈ i :: xs) →
    ∃ j, foldM (λ best j, a ← deref j s; b ← deref best s; Ok (if key_gt a b then j else best)) best ys = Ok j ∧ j ∈ i :: xs)
    as H; [|apply H; [by left|intros; by right]].
  intros best ys. revert best. induction ys as [|y ys IH]; intros best Hb Hys; cbn [foldM]; [eauto|].
  destruct (Hobj y) as [ry Ey]; [apply Hys; by left|]. destruct (Hobj best Hb) as [rb Eb].
  rewrite (deref_ok y s ry Ey), (deref_ok best s rb Eb). unfold mbind at 1 2 3; cbn [result_bind].
  apply IH; [|intros; apply Hys; by right]. destruct (key_gt ry rb); [apply Hys; by left|done].
Qed.

Lemma live_other_ids s run ws i r did :
  live s run ws → i ∈ run ++ ws → objects s !! i = Some r → (∀ j, j ∈ did → j ∈ run ++ ws) → i ∉ did →
  other_ids (objects s) did r.
Proof.
  intros Hl Hi Ei Hdid Hn j rj Hj Ej Eid. apply Hn. replace i with j; [done|].
  by eapply (live_inj cfg _ _ _ _ _ j i rj r Hl); eauto.
Qed.

Lemma unschedule_ok B l wl sl j r A T :
  run_inv B l wl sl → (∀ i, i ∈ running_reqs l → i ∈ running (sch l)) →
  j ∈ running_reqs l → objects (sch l) !! j = Some r →
  (** the list of running requests has lost [j] already *)
  let l0 := put_sch (set_running (A ++ T) (sch l)) l in
  ∃ l', unschedule j l0 = Ok l' ∧ sch l' = sch l0 ∧ running_reqs l ≡ₚ j :: running_reqs l' ∧
    req_index l' = req_index l - 1 ∧ preempted_reqs l' = preempted_reqs l ∧
    new_reqs l' = new_reqs l ∧ resumed_reqs l' = resumed_reqs l ∧ encoder_inputs_of l' = [] ∧ spec_tokens_of l' = [] ∧
    token_budget l ≤ token_budget l' ∧
    account B (objects (sch l)) (kv_cache_manager (sch l)) (running_reqs l') (tokens_of l')
      (req_to_new_blocks l') (token_budget l').
Proof.
  intros Hinv Hsub Hj Ej l0. pose proof (ri_acc _ _ _ _ Hinv) as Ha.
  destruct (ac_ok _ _ _ _ _ _ _ Ha j Hj) as (r0 & n & b & E0 & En & Eb & Hn & _).
  rewrite Ej in E0. injection E0 as <-. pose proof (remove_first_perm j _ Hj) as Hp.
  unfold unschedule, deref. cbn [sch l0 put_sch objects set_running]. rewrite Ej.
  unfold mbind at 1; cbn [of_option result_bind]. unfold dict_pop.
  cbn [tokens_of put_running_reqs put_sch l0]. rewrite En. cbn [of_option]. unfold mbind at 1 2; cbn [result_bind].
  cbn [req_to_new_blocks put_token_budget put_tokens_of put_running_reqs put_sch l0]. rewrite Eb. cbn [of_option].
  unfold mbind at 1 2; cbn [result_bind].
  cbn [encoder_inputs_of put_req_to_new_blocks put_spec_tokens_of put_token_budget put_tokens_of put_running_reqs put_sch l0].
  rewrite (ri_enc _ _ _ _ Hinv). cbn [dict_get default from_option mapR]. unfold mbind; cbn [result_bind].
  eexists. split; [reflexivity|]. split; [done|]. split; [exact Hp|]. split; [done|]. split; [done|].
  split; [done|]. split; [done|]. split; [done|]. split; [cbn; by destruct (ri_new _ _ _ _ Hinv) as (_ & _ & ->)|].
  split; [cbn; lia|]. eapply (account_del B _ _ _ _ _ _ j r n); [exact Ha|exact Hp|exact Ej|exact En|].
  eapply live_other_ids; [apply (ri_live _ _ _ _ Hinv)| |exact Ej| |].
  - apply elem_of_app. left. auto.
  - intros i Hi. apply elem_of_app. left. apply Hsub. rewrite Hp. by right.
  - pose proof (ac_nodup _ _ _ _ _ _ _ Ha) as Hnd. rewrite Hp in Hnd. by apply NoDup_cons in Hnd as [? _].
Qed.

(** Once [j] has left the running list and what was scheduled for it is
    undone, it moves to the waiting queue. *)
Lemma preempt_tail B l wl sl j :
  env_ok (sch l) → live (sch l) (j :: running (sch l)) (py_id <$> wl ++ sl) →
  rq_rep (waiting (sch l)) wl → rq_rep (skipped_waiting (sch l)) sl →
  account B (objects (sch l)) (kv_cache_manager (sch l)) (running_reqs l) (tokens_of l)
    (req_to_new_blocks l) (token_budget l) →
  (∀ x, x ∈ running_reqs l → x ∈ running (sch l)) →
  new_reqs l = [] ∧ resumed_reqs l = [] ∧ spec_tokens_of l = [] → encoder_inputs_of l = [] →
  zlen (running (sch l)) ≤ max_num_running_reqs cfg →
  ∃ l' wl', (l ← on_sched (_preempt_request cfg j) l; Ok (j, put_preempted_reqs (preempted_reqs l ++ [j]) l)) = Ok (j, l') ∧
    run_inv B l' wl' sl ∧ running (sch l') = running (sch l) ∧ running_reqs l' = running_reqs l ∧
    req_index l' = req_index l ∧ preempted_reqs l' = preempted_reqs l ++ [j] ∧ token_budget l' = token_budget l ∧
    (∀ i, i ≠ j → objects (sch l') !! i = objects (sch l) !! i).
Proof.
  intros Henv Hl Hw Hs Ha Hsub Hnew Henc Hmax. unfold on_sched.
  destruct (lv_run _ _ _ _ _ _ Hl j) as (r & Ej & _); [by left|].
  pose proof (lv_nodup _ _ _ _ _ _ Hl) as Hnd. cbn in Hnd. apply NoDup_cons in Hnd as [Hjn Hnd].
  assert (j ∉ running_reqs l) as Hjr.
  { intros Hj. apply Hjn. apply elem_of_app. left. auto. }
  destruct (preempt_ok (sch l) j r _ _ wl Henv Hl Ej Hw) as (k' & q & X & Y & wl' & -> & Ho & Hl' & Hq & Hp).
  { intros Hj. apply Hjn. rewrite fmap_app. set_solver. }
  assert (py_id r = j) as Epy by (by apply (lv_objs _ _ _ _ _ _ Hl)).
  unfold mbind; cbn [result_bind]. eexists _, wl'. split; [reflexivity|]. split; [|split_and!; try done].
  2:{ intros i Hij. cbn. by rewrite Epy, lookup_insert_ne. }
  split; cbn; rewrite ?Epy; try done.
  - destruct Henv. by split.
  - assert (py_id <$> wl' ++ sl ≡ₚ j :: (py_id <$> wl ++ sl)) as ->; [|done].
    rewrite Hp. cbn. by rewrite Epy.
  - eapply account_other; [exact Ha|done| |exact Ho].
    eapply live_other_ids; [exact Hl|by left|exact Ej| |done].
    intros x Hx. right. apply elem_of_app. left. auto.
Qed.

Lemma preempt_lowest_ok B l wl sl i A T :
  run_inv B l wl sl → splits l A T → i ∈ T →
  ∃ j l' wl' A' T', preempt_lowest cfg l = Ok (j, l') ∧ run_inv B l' wl' sl ∧ splits l' A' T' ∧
    running (sch l) ≡ₚ j :: running (sch l') ∧ preempted_reqs l' = preempted_reqs l ++ [j] ∧
    (j ≠ i → i ∈ T') ∧ sublist T' T ∧ left_ l' ≤ left_ l ∧ token_budget l ≤ token_budget l' ∧
    (∀ x, x ≠ j → objects (sch l') !! x = objects (sch l) !! x).
Proof.
  intros Hinv (Erun & HA & Hsub) Hi. pose proof Hinv as [Henv Hl Hw Hs Ha Hnew Henc Hmax].
  assert (∀ x, x ∈ running_reqs l → x ∈ running (sch l)) as Hin.
  { intros x Hx. rewrite Erun. apply elem_of_app. left. auto. }
  pose proof (lv_nodup _ _ _ _ _ _ Hl) as Hnd. apply NoDup_app in Hnd as (Hrun & _ & _).
  pose proof Hrun as HndAT. rewrite Erun in HndAT. apply NoDup_app in HndAT as (HndA & HAT & HndT).
  unfold preempt_lowest. destruct (policy cfg) eqn:Epol.
  - (* FCFS *)
    destruct (exists_last (l := T)) as (T0 & j & ->); [by intros ->; apply not_elem_of_nil in Hi|].
    unfold pop_last. rewrite Erun, app_assoc, last_snoc, removelast_last. cbn [of_option]. mrun.
    assert (running (sch l) ≡ₚ j :: A ++ T0) as Hp by (by rewrite Erun, app_assoc, <- Permutation_cons_append).
    destruct (preempt_tail B (put_sch (set_running (A ++ T0) (sch l)) l) wl sl j)
      as (l' & wl' & -> & Hinv' & R1 & R2 & R3 & R4 & R5 & R6); cbn; try done.
    { destruct Henv. by split. }
    { by rewrite <- Hp. }
    { intros x Hx. apply elem_of_app. left. auto. }
    { rewrite Hp in Hmax. cbn in Hmax. lia. }
    cbn in R1, R2, R3, R4, R5, R6. exists j, l', wl', A, T0. split; [done|]. split; [done|].
    split; [split_and!; [done|lia|by rewrite R2]|]. split; [by rewrite R1, <- Permutation_cons_append|]. split; [done|].
    split; [set_solver|]. split; [by apply sublist_inserts_r|]. unfold left_. rewrite R1, R3, Hp. split; [cbn; lia|]. split; [lia|done].
  - (* PRIORITY *)
    destruct (max_by_priority_ok (running (sch l)) (sch l)) as (j & -> & Hj).
    { rewrite Erun. intros [-> ->]%app_nil. by apply not_elem_of_nil in Hi. }
    { intros x Hx. destruct (lv_run _ _ _ _ _ _ Hl x Hx) as (r & -> & _). by eexists. }
    mrun. pose proof (remove_first_perm j _ Hj) as Hp.
    destruct (lv_run _ _ _ _ _ _ Hl j Hj) as (r & Ej & _).
    rewrite Erun, remove_first_app in Hp |- *. rewrite Erun in Hj.
    cbn [running_reqs put_sch]. case_bool_decide as Hsched.
    + (* [j] was scheduled in this step *)
      pose proof (Hsub j Hsched) as HjA. rewrite decide_True in Hp |- * by done.
      pose proof (remove_first_perm j _ HjA) as HpA. set (A' := remove_first Nat.eqb j A) in *.
      destruct (unschedule_ok B l wl sl j r A' T Hinv Hin Hsched Ej)
        as (l1 & -> & E1 & Hrr & E2 & E3 & E4 & E5 & E6 & Esp & E7 & Ha1).
      mrun.
      assert (∀ x, x ∈ running_reqs l1 → x ∈ A') as Hsub1.
      { intros x Hx. assert (x ∈ A) as HxA by (apply Hsub; rewrite Hrr; by right).
        rewrite HpA in HxA. apply elem_of_cons in HxA as [->|]; [|done].
        pose proof (ac_nodup _ _ _ _ _ _ _ Ha) as Hnd. rewrite Hrr in Hnd. by apply NoDup_cons in Hnd as [? _]. }
      destruct (preempt_tail B l1 wl sl j) as (l' & wl' & -> & Hinv' & R1 & R2 & R3 & R4 & R5 & R6);
        rewrite ?E1; cbn; try done.
      { destruct Henv. by split. }
      { by rewrite <- Hp, <- Erun. }
      { intros x Hx. apply elem_of_app. left. auto. }
      { rewrite E4, E5, Esp. by destruct Hnew as (-> & -> & _). }
      { rewrite Erun, Hp in Hmax. cbn in Hmax. lia. }
      rewrite E1 in R1, R6. cbn in R1, R6. exists j, l', wl', A', T. split; [done|]. split; [done|].
      assert (zlen A = zlen A' + 1) as ElA by (rewrite HpA; cbn; lia).
      split; [split_and!; [done|lia|by rewrite R2]|]. split; [by rewrite R1|]. split; [by rewrite R4, E3|].
      split; [done|]. split; [done|]. unfold left_. rewrite R1, R3, E2, Erun, Hp. split; [cbn; lia|]. split; [lia|done].
    + (* [j] was not scheduled in this step *)
      mrun.
      set (A' := if decide (j ∈ A) then remove_first Nat.eqb j A else A).
      set (T' := if decide (j ∈ A) then T else remove_first Nat.eqb j T).
      assert ((if decide (j ∈ A) then remove_first Nat.eqb j A ++ T else A ++ remove_first Nat.eqb j T) = A' ++ T')
        as Ecut by (unfold A', T'; by case_decide).
      rewrite Ecut in Hp |- *.
      assert (zlen A' ≤ zlen A) as HlA.
      { unfold A'. case_decide as HjA; [|lia]. rewrite (remove_first_perm j A HjA) at 2. cbn. lia. }
      assert (∀ x, x ∈ running_reqs l → x ∈ A') as Hsub1.
      { intros x Hx. specialize (Hsub x Hx). unfold A'. case_decide as HjA; [|done].
        rewrite (remove_first_perm j A HjA) in Hsub. apply elem_of_cons in Hsub as [->|]; done. }
      destruct (preempt_tail B (put_sch (set_running (A' ++ T') (sch l)) l) wl sl j)
        as (l' & wl' & -> & Hinv' & R1 & R2 & R3 & R4 & R5 & R6); cbn; try done.
      { destruct Henv. by split. }
      { by rewrite <- Hp, <- Erun. }
      { intros x Hx. apply elem_of_app. left. auto. }
      { rewrite Erun, Hp in Hmax. cbn in Hmax. lia. }
      cbn in R1, R2, R3, R4, R5, R6. exists j, l', wl', A', T'. split; [done|]. split; [done|].
      split; [split_and!; [done|lia|by rewrite R2]|]. split; [by rewrite R1|]. split; [done|].
      split; [|split; [unfold T'; case_decide; [done|apply remove_first_sublist]|]];
        [|unfold left_; rewrite R1, R3, Erun, Hp; split; [cbn; lia|]; split; [lia|done]].
      intros Hne. unfold T'. case_decide as HjA; [done|].
      apply elem_of_app in Hj as [?|HjT]; [done|]. rewrite (remove_first_perm j T HjT) in Hi. set_solver.
Qed.

Lemma holds_mono k rid n m : kv_holds k rid m → n ≤ m → kv_holds k rid n.
Proof. intros H Hn t Ht. specialize (H t Ht). lia. Qed.

Lemma fits_grows r r' : memo_grows r r' → request_fits cfg r → request_fits cfg r'.
Proof.
  intros Hg [F1 F2 F3 F4 F5 F6 F7 F8 F9 F10 F11]. pose proof (chain_grows r r' Hg F2) as Hh.
  destruct Hg as [[m ->] _]. by split.
Qed.

Lemma running_grows k k' r r' :
  memo_grows r r' → same_config k k' → kv_holds k' (request_id r) (num_computed_tokens r) →
  running_ok cfg k r → running_ok cfg k' r'.
Proof.
  intros Hg Hc Hh [F S1 S2 S3 S4]. pose proof (fits_grows r r' Hg F) as F'.
  destruct Hg as [[m ->] _]. by split.
Qed.

(** The allocation of slots for request [i], whether it succeeds or not. *)
Lemma allocated_inv B l wl sl i r k' r' A T :
  run_inv B l wl sl → splits l A T → i ∈ T → objects (sch l) !! i = Some r →
  kv_ready k' → kv_only (request_id r) (kv_cache_manager (sch l)) k' → memo_grows r r' →
  kv_holds k' (request_id r) (num_computed_tokens r) →
  run_inv B (store_in r' (put_sch (set_kv_cache_manager k' (sch l)) l)) wl sl ∧ py_id r' = i ∧ i ∉ running_reqs l.
Proof.
  intros [Henv Hl Hw Hs Ha Hnew Henc Hmax] (Erun & HA & Hsub) HiT Ei Hk' Ho Hg Hh.
  assert (i ∈ running (sch l)) as Hi by (rewrite Erun; apply elem_of_app; by right).
  assert (py_id r' = i) as Epy.
  { rewrite <- (lv_objs _ _ _ _ _ _ Hl i r Ei). by destruct Hg as [[m ->] _]. }
  assert (i ∉ running_reqs l) as Hin.
  { intros H. specialize (Hsub i H). pose proof (lv_nodup _ _ _ _ _ _ Hl) as Hnd.
    apply NoDup_app in Hnd as (Hnd & _). rewrite Erun in Hnd. apply NoDup_app in Hnd as (_ & Hd & _). by apply (Hd i). }
  split; [|done]. split; cbn; rewrite ?Epy; try done.
  - destruct Henv. by split.
  - eapply (live_update cfg _ _ _ _ _ i r); try done.
    + apply elem_of_app. by left.
    + by destruct Hg as [[m ->] _].
    + intros _. destruct (lv_run _ _ _ _ _ _ Hl i Hi) as (r0 & E0 & Hok). rewrite Ei in E0. injection E0 as <-.
      eapply running_grows; [exact Hg|apply Ho|done|exact Hok].
    + intros Hw'. pose proof (lv_nodup _ _ _ _ _ _ Hl) as Hnd. apply NoDup_app in Hnd as (_ & Hd & _). by destruct (Hd i).
  - eapply account_other; [exact Ha|done| |exact Ho].
    eapply live_other_ids; [exact Hl|apply elem_of_app; by left|exact Ei| |done].
    intros x Hx. apply elem_of_app. left. rewrite Erun. apply elem_of_app. left. auto.
Qed.

Lemma allocate_or_preempt_ok B fuel i r n l wl sl A T :
  run_inv B l wl sl → splits l A T → i ∈ T → objects (sch l) !! i = Some r → 0 < n →
  num_computed_tokens r + n ≤ sched_max_model_len cfg → (length (running (sch l)) ≤ fuel)%nat →
  ∃ res l' wl' A' T', allocate_or_preempt cfg fuel i n l = Ok (res, l') ∧ run_inv B l' wl' sl ∧
    splits l' A' T' ∧ sublist T' T ∧ left_ l' ≤ left_ l ∧ token_budget l ≤ token_budget l' ∧
    match res with
    | Some _ => i ∈ T' ∧ i ∉ running_reqs l' ∧ ∃ r', objects (sch l') !! i = Some r' ∧ memo_grows r r' ∧
        kv_holds (kv_cache_manager (sch l')) (request_id r) (num_computed_tokens r + n)
    | None => True
    end.
Proof.
  revert r l wl A T. induction fuel as [|fuel IH]; intros r l wl A T Hinv Hsp HiT Ei Hn Hlen Hfuel.
  { destruct Hsp as (Erun & _). rewrite Erun in Hfuel. destruct T; [by apply not_elem_of_nil in HiT|].
    rewrite length_app in Hfuel. cbn in Hfuel. lia. }
  pose proof (ri_live _ _ _ _ Hinv) as Hl. cbn [allocate_or_preempt]. rewrite (deref_ok _ _ _ Ei). mrun.
  assert (i ∈ running (sch l)) as Hi by (destruct Hsp as [-> _]; apply elem_of_app; by right).
  destruct (lv_run _ _ _ _ _ _ Hl i Hi) as (r0 & E0 & Hok). rewrite Ei in E0. injection E0 as <-.
  destruct Hok as [Hfit Hst Hcomp Hml Hh].
  destruct (alloc_running_promise r n (num_lookahead_tokens cfg) (kv_cache_manager (sch l)))
    as (res & k' & r' & -> & Hk' & Ho & Hg & Hres).
  { apply (lv_kv _ _ _ _ _ _ Hl). } { apply (fits_hashed cfg); [apply (lv_chain _ _ _ _ _ _ Hl)|done]. } { done. } { done. }
  { apply (pc_lookahead _ Hcfg). } { lia. } { apply (rf_prompt _ _ Hfit). }
  { by rewrite (lv_mml _ _ _ _ _ _ Hl). }
  mrun. destruct (allocated_inv B l wl sl i r k' r' A T Hinv Hsp HiT Ei Hk' Ho Hg) as (Hinv1 & Epy & Hni).
  { destruct res; [eapply holds_mono; [exact Hres|lia]|exact Hres]. }
  set (l1 := store_in r' (put_sch (set_kv_cache_manager k' (sch l)) l)) in *.
  assert (objects (sch l1) !! i = Some r') as Ei1 by (cbn; rewrite Epy; apply lookup_insert_eq).
  assert (splits l1 A T) as Hsp1 by done.
  destruct res as [b|].
  { exists (Some b), l1, wl, A, T. split; [done|]. split; [done|]. split; [done|]. split; [done|].
    split; [done|]. split; [cbn; lia|]. split; [done|]. split; [done|]. exists r'. by split. }
  destruct (preempt_lowest_ok B l1 wl sl i A T Hinv1 Hsp1 HiT)
    as (j & l2 & wl2 & A2 & T2 & -> & Hinv2 & Hsp2 & Hp & Hpre & Hi2 & Hsub2 & Hleft & Hbud & Hobj).
  mrun. change (left_ l1) with (left_ l) in Hleft. change (token_budget l1) with (token_budget l) in Hbud.
  destruct (Nat.eqb_spec j i) as [->|Hne].
  { exists None, l2, wl2, A2, T2. done. }
  assert (r' = with_prompt_embeds_per_block_hashes (r'.(_prompt_embeds_per_block_hashes)) r) as Er.
  { destruct Hg as [[m ->] _]. done. }
  destruct (IH r' l2 wl2 A2 T2) as (res & l' & wl' & A' & T' & -> & H1 & H2 & H0 & H3 & H4 & H5); try done.
  { by apply Hi2. }
  { rewrite Hobj by done. exact Ei1. }
  { rewrite Er. cbn. done. }
  { cbn in Hp. rewrite Hp in Hfuel. cbn in Hfuel. lia. }
  exists res, l', wl', A', T'. split; [done|]. split; [done|]. split; [done|]. split; [by etrans|].
  split; [lia|]. split; [lia|]. destruct res; [|done]. destruct H5 as (H5 & H6 & r2 & E2 & Hg2 & Hh2). split; [done|]. split; [done|]. exists r2.
  split; [done|]. rewrite Er in Hh2. cbn in Hh2. split; [|done].
  destruct Hg as [[m1 G1] G2], Hg2 as [[m2 G3] G4]. split; [|auto].
  eapply same_but_memo_trans; by eexists.
Qed.

(** ** One iteration *)

Lemma running_tokens_ok r l :
  running_ok cfg (kv_cache_manager (sch l)) r → 0 < token_budget l →
  let n := running_num_new_tokens cfg r l in
  0 ≤ n ≤ token_budget l ∧ num_computed_tokens r + n ≤ num_tokens r + num_output_placeholders r ∧
  num_computed_tokens r + n ≤ sched_max_model_len cfg - num_sampled_tokens_per_step cfg.
Proof.
  intros [Hfit _ Hc Hm _] Hb n. pose proof (rf_spec _ _ Hfit) as Hsp. pose proof (rf_placeholders _ _ Hfit) as Hpl. unfold n, running_num_new_tokens, num_tokens_with_spec.
  rewrite Hsp. fold (num_tokens r). change (zlen (@nil Z)) with 0. clear n.
  set (m := if _ && _ then _ else _).
  assert (0 ≤ m ≤ num_tokens r + num_output_placeholders r - num_computed_tokens r) as Hm'; [|lia].
  unfold m. case (Z.ltb_spec 0 (long_prefill_token_threshold cfg)), (Z.ltb_spec (long_prefill_token_threshold cfg)
    (num_tokens r + 0 + num_output_placeholders r - num_computed_tokens r)); cbn [andb]; lia.
Qed.

(** Moving on keeps the invariant. *)
Lemma next_inv B l wl sl A T :
  run_inv B l wl sl → splits l A T → run_inv B (next_index l) wl sl ∧ splits (next_index l) A T.
Proof. intros [] (H1 & H2 & H3). split; [by split|]. split_and!; [done|cbn; lia|done]. Qed.

Lemma scheduled_inv B l wl sl A T i r n b pf :
  run_inv B l wl sl → splits l A (i :: T) → objects (sch l) !! i = Some r → i ∉ running_reqs l →
  0 < n ≤ token_budget l → num_computed_tokens r + n ≤ num_tokens r + num_output_placeholders r →
  num_computed_tokens r + n ≤ sched_max_model_len cfg - num_sampled_tokens_per_step cfg →
  kv_holds (kv_cache_manager (sch l)) (request_id r) (num_computed_tokens r + n) →
  let l' := next_index (put_token_budget (token_budget l - n)
              (put_tokens_of (dict_set (request_id r) n (tokens_of l))
                (put_req_to_new_blocks (dict_set (request_id r) b (req_to_new_blocks l))
                  (put_prefill_scheduled pf (put_running_reqs (running_reqs l ++ [i]) l))))) in
  run_inv B l' wl sl ∧ splits l' (A ++ [i]) T.
Proof.
  intros [Henv Hl Hw Hs Ha Hnew Henc Hmax] (Erun & HA & Hsub) Ei Hni Hn H1 H2 Hh l'. split.
  - split; try done. cbn. apply (account_add B _ _ (running_reqs l) _ _ _ i); try done.
    + eapply live_other_ids; [exact Hl| |exact Ei| |done].
      * apply elem_of_app. left. rewrite Erun. set_solver.
      * intros j Hj. apply elem_of_app. left. rewrite Erun. apply elem_of_app. left. auto.
    + by rewrite <- Permutation_cons_append.
  - split_and!.
    + cbn. by rewrite Erun, <- app_assoc.
    + change (zlen (A ++ [i]) ≤ req_index l + 1). rewrite length_app. cbn [length]. lia.
    + cbn. set_solver.
Qed.

Lemma running_body_ok B defer l wl sl A T :
  run_inv B l wl sl → splits l A T → req_index l < zlen (running (sch l)) → 0 < token_budget l →
  ∃ go l' wl' A' T', running_body cfg defer l = Ok (go, l') ∧ run_inv B l' wl' sl ∧ splits l' A' T' ∧
    (go = true → left_ l' < left_ l).
Proof.
  intros Hinv Hsp0 Hidx Hbud.
  (* the split at the index *)
  assert (∃ A0 i T0, splits l A0 (i :: T0) ∧ zlen A0 = req_index l) as (A0 & i & T0 & Hsp & EA).
  { destruct Hsp0 as (Erun & HA & Hsub). assert (0 ≤ zlen A) by lia.
    destruct (lookup_lt_is_Some_2 (running (sch l)) (Z.to_nat (req_index l))) as [i Hi]; [lia|].
    exists (take (Z.to_nat (req_index l)) (running (sch l))), i, (drop (S (Z.to_nat (req_index l))) (running (sch l))).
    pose proof (take_drop_middle _ _ _ Hi) as Hm. assert (zlen (take (Z.to_nat (req_index l)) (running (sch l))) = req_index l) as El.
    { rewrite length_take. lia. }
    split; [|done]. split; [done|]. split; [lia|]. intros j Hj. specialize (Hsub j Hj). rewrite Erun, take_app.
    apply elem_of_app. left. rewrite take_ge by lia. done. }
  clear A T Hsp0. unfold running_body.
  assert (py_get (running (sch l)) (req_index l) = Ok i) as ->.
  { destruct Hsp as (-> & _). rewrite <- EA. apply py_get_nat. by rewrite list_lookup_middle. }
  mrun. pose proof (ri_live _ _ _ _ Hinv) as Hl.
  assert (i ∈ running (sch l)) as Hi by (destruct Hsp as [-> _]; set_solver).
  destruct (lv_run _ _ _ _ _ _ Hl i Hi) as (r & Ei & Hok). rewrite (deref_ok _ _ _ Ei). mrun.
  pose proof (next_inv _ _ _ _ _ _ Hinv Hsp) as [Hnext Hnsp].
  assert (left_ (next_index l) < left_ l) as Hnl by (unfold left_; cbn; lia).
  assert (∀ x, x = Ok (true, next_index l) → ∃ go l' wl' A' T', x = Ok (go, l') ∧ run_inv B l' wl' sl ∧
    splits l' A' T' ∧ (go = true → left_ l' < left_ l)) as Hskip.
  { intros x ->. exists true, (next_index l), wl, A0, (i :: T0). done. }
  destruct (reached_max_tokens r); [by apply Hskip|]. destruct (_ <? _); [by apply Hskip|].
  destruct (defer && _); [by apply Hskip|]. pose proof (ro_fits _ _ _ Hok) as Hfit.
  assert (has_encoder_inputs r = false) as -> by (unfold has_encoder_inputs, num_encoder_inputs; by rewrite (rf_text _ _ Hfit)).
  mrun. replace (put_sch (sch l) l) with l by (by destruct l).
  pose proof (running_tokens_ok r l Hok Hbud) as Hn0. cbv zeta in Hn0.
  set (n := if need_mamba_block_aligned_split cfg then _ else _).
  assert (0 ≤ n ≤ running_num_new_tokens cfg r l) as Hn.
  { unfold n. destruct (need_mamba_block_aligned_split cfg); [|lia]. apply split_bounds; [lia|apply (pc_block _ Hcfg)]. }
  destruct (n =? 0) eqn:En; zbool; [by apply Hskip|]. pose proof (pc_sampled _ Hcfg) as Hsam.
  destruct (allocate_or_preempt_ok B (length (running (sch l))) i r n l wl sl A0 (i :: T0))
    as (res & l1 & wl1 & A1 & T1 & -> & Hinv1 & Hsp1 & Hsub1 & Hleft1 & Hbud1 & Hres); try done; [by left|lia|lia|].
  mrun. destruct res as [b|]; [|by exists false, l1, wl1, A1, T1].
  destruct Hres as (HiT & Hni & r' & Er' & Hg & Hh).
  assert (i ∉ T0) as HiT0.
  { pose proof (lv_nodup _ _ _ _ _ _ Hl) as Hnd. apply NoDup_app in Hnd as (Hnd & _). destruct Hsp as [Erun _].
    rewrite Erun in Hnd. apply NoDup_app in Hnd as (_ & _ & Hnd). by apply NoDup_cons in Hnd as [? _]. }
  destruct (sublist_head _ _ _ Hsub1 HiT HiT0) as [T2 ->].
  assert (request_id r' = request_id r ∧ num_computed_tokens r' = num_computed_tokens r ∧ num_tokens r' = num_tokens r ∧
    num_output_placeholders r' = num_output_placeholders r ∧ spec_token_ids r' = spec_token_ids r) as (E1 & E2 & E3 & E4 & E5).
  { by destruct Hg as [[m ->] _]. }
  destruct (scheduled_inv B l1 wl1 sl A1 T2 i r' n b (prefill_scheduled l1 || is_prefill_chunk r)) as [Hinv2 Hsp2];
    try done; rewrite ?E1, ?E2, ?E3, ?E4; try lia; [done|]. rewrite E1 in Hinv2, Hsp2.
  match type of Hinv2 with run_inv _ ?x _ _ => set (l2 := x) in * end.
  assert (take_spec_tokens i n l2 = Ok l2) as Es.
  { unfold take_spec_tokens. rewrite (deref_ok _ _ r') by done. mrun. by rewrite E5, (rf_spec _ _ Hfit). }
  assert (take_encoder_inputs i [] [] (encoder_compute_budget l) l2 = Ok l2) as Ee.
  { unfold take_encoder_inputs. rewrite (deref_ok _ _ r') by done. by mrun. }
  cbv zeta. fold l2.
  exists true, l2, wl1, (A1 ++ [i]), T2. split; [|split; [done|split; [done|intros _; unfold left_ in *; cbn; lia]]].
  transitivity (l0 ← take_spec_tokens i n l2; l3 ← take_encoder_inputs i [] [] (encoder_compute_budget l) l0; Ok (true, l3)); [done|].
  rewrite Es. mrun. rewrite Ee. by mrun.
Qed.

(** The loop ends within [left_ l] iterations. *)
Lemma running_loop_ok B fuel defer l wl sl A T :
  run_inv B l wl sl → splits l A T → left_ l ≤ Z.of_nat fuel →
  ∃ l' wl' A' T', running_loop cfg fuel defer l = Ok l' ∧ run_inv B l' wl' sl ∧ splits l' A' T'.
Proof.
  revert l wl A T. induction fuel as [|fuel IH]; intros l wl A T Hinv Hsp Hf; cbn [running_loop];
    (destruct (_ && _) eqn:Ego; [|by exists l, wl, A, T]); apply andb_true_iff in Ego as [E1 E2].
  - unfold left_ in Hf. zbool. lia.
  - destruct (running_body_ok B defer l wl sl A T Hinv Hsp) as (go & l1 & wl1 & A1 & T1 & -> & Hinv1 & Hsp1 & Hgo);
      [zbool; lia|zbool; lia|].
    mrun. destruct go; [|by exists l1, wl1, A1, T1]. apply (IH l1 wl1 A1 T1); [done|done|]. specialize (Hgo eq_refl). lia.
Qed.

End ScheduleInv.
