(* ===== verification/WaitingInv.v ===== *)
(** * The loop over waiting requests

    Every iteration takes one request out of the two waiting queues: the
    request starts to run, or it is put aside for this step.  The lemmas follow
    the parts of the loop body: promotion of a blocked request, the lookup of
    its cached tokens, the number of tokens it gets, and the slots for them. *)

From S2P Require Import Prelude MathUtils Request BlockHash KVMetrics FreeQueue BlockPool.
From S2P Require Import SingleTypeManager ManagerInv Coordinator HybridHit CacheStats KVCacheManager.
From S2P Require Import KVReachable KVContract EncoderCache Heapq RequestQueue SchedUtils.
From S2P Require Import PyDict SchedState Scheduler Schedule SchedInv ScheduleInv.

Local Open Scope Z_scope.

#[export] Instance queue_name_eq : EqDecision queue_name.
Proof. solve_decision. Defined.

(** The contents of the two queues. *)
Abbreviation queue_lists := (queue_name → list Request).
Definition queued (ql : queue_lists) : list Request := ql Waiting ++ ql Skipped.
Definition upd (n : queue_name) (xs : list Request) (ql : queue_lists) : queue_lists :=
  λ m, if decide (m = n) then xs else ql m.

Lemma queued_pop n x xs ql : ql n = x :: xs → queued ql ≡ₚ x :: queued (upd n xs ql).
Proof.
  intros E. unfold queued, upd. destruct n; rewrite E; cbn; [done|]. by rewrite <- Permutation_middle.
Qed.

Section WaitingInv.
Context {Q : Type} `{!FreeQueueOps Q} `{!FreeQueueSpec Q} {env : PoolEnv}.
Context {WQ : Type} `{!RequestQueueOps WQ} `{!RequestQueueSpec WQ} `{!QueueAlias WQ}.
Context {C E G : Type} `{!KVConnector C} `{!ECConnector E} `{!StructuredOutput G}.
Context (cfg : SchedulerConfig) (Hcfg : plain_config cfg) `{!HashChain (Q := Q) (block_hasher cfg)}.
Abbreviation sched := (Scheduler Q WQ C E G).
Abbreviation step := (Step Q WQ C E G).
Implicit Types (s : sched) (l : step) (r : Request) (i j : nat) (ql : queue_lists) (kl : list Request).
Implicit Types (objs : gmap nat Request) (k : KVCacheManager Q) (did ex : list nat).

(** The state of the scheduler: the requests of the queues and those of [ex]
    wait. *)
Record sched_ok s ql ex : Prop := {
  so_env : env_ok s;
  so_live : live_inv cfg (objects s) (requests s) (kv_cache_manager s) (running s) ((py_id <$> queued ql) ++ ex);
  so_reps n : rq_rep (get_queue n s) (ql n);
}.

(** ** Changes of one waiting request *)

Lemma wait_touch_ok s ql ex i r r' k' :
  sched_ok s ql ex → i ∈ (py_id <$> queued ql) ++ ex → objects s !! i = Some r →
  request_id r' = request_id r → py_id r' = i → kv_ready k' → kv_only (request_id r) (kv_cache_manager s) k' →
  waiting_ok cfg k' r' → sched_ok (store r' (set_kv_cache_manager k' s)) ql ex.
Proof.
  intros [Henv Hl Hr] Hi Ei Eid Epy Hk Ho Hw. split.
  - destruct Henv. by split.
  - cbn. rewrite Epy. eapply (live_update cfg _ _ _ _ _ i r); try done; [apply elem_of_app; by right|].
    intros Hrun. pose proof (lv_nodup _ _ _ _ _ _ Hl) as Hnd. apply NoDup_app in Hnd as (_ & Hd & _). by destruct (Hd i).
  - intros n. specialize (Hr n). by destruct n.
Qed.

Lemma touch_account B s ql ex did toks blks bud i r r' k' :
  sched_ok s ql ex → i ∈ (py_id <$> queued ql) ++ ex → objects s !! i = Some r → py_id r' = i →
  (∀ j, j ∈ did → j ∈ running s) → kv_only (request_id r) (kv_cache_manager s) k' →
  account cfg B (objects s) (kv_cache_manager s) did toks blks bud →
  account cfg B (objects (store r' (set_kv_cache_manager k' s))) k' did toks blks bud.
Proof.
  intros [_ Hl _] Hi Ei Epy Hsub Ho Ha. cbn. rewrite Epy.
  assert (i ∉ did) as Hni.
  { intros Hd%Hsub. pose proof (lv_nodup _ _ _ _ _ _ Hl) as Hnd. apply NoDup_app in Hnd as (_ & Hx & _). by destruct (Hx i). }
  eapply account_other; [exact Ha|done| |exact Ho].
  eapply live_other_ids; [exact Hl|apply elem_of_app; by right|exact Ei| |done].
  intros j Hj. apply elem_of_app. left. auto.
Qed.

(** Storing what is there changes nothing. *)
Lemma store_same s r : objects s !! py_id r = Some r → store r s = s.
Proof. intros H. unfold store. rewrite insert_id by done. by destruct s. Qed.
Lemma set_kv_same s : set_kv_cache_manager (kv_cache_manager s) s = s.
Proof. by destruct s. Qed.

(** ** Selection *)

Lemma select_ok s ql ex :
  sched_ok s ql ex → queued ql ≠ [] →
  ∃ n x xs, _select_waiting_queue_for_scheduling cfg s = Ok (Some n) ∧ ql n = x :: xs ∧
    peek_request (get_queue n s) = Ok x.
Proof.
  intros [_ _ Hr] Hne. pose proof (Hr Waiting) as Hw. pose proof (Hr Skipped) as Hs. cbn [get_queue] in Hw, Hs.
  destruct (rq_length _ _ Hw) as [_ Bw], (rq_length _ _ Hs) as [_ Bs]. unfold queued in Hne.
  assert (∀ n x xs, ql n = x :: xs → peek_request (get_queue n s) = Ok x) as Hpk.
  { intros n x xs En. specialize (Hr n). rewrite En in Hr. by eapply rq_peek. }
  unfold _select_waiting_queue_for_scheduling. rewrite Bw, Bs.
  destruct (ql Waiting) as [|w ws] eqn:Ew, (ql Skipped) as [|y ys] eqn:Ey; [done| | |];
    rewrite ?bool_decide_eq_true_2, ?(bool_decide_eq_false_2 ([] ≠ [])) by (done || auto); cbn [andb].
  - exists Skipped, y, ys. destruct (policy cfg); eauto.
  - exists Waiting, w, ws. destruct (policy cfg); eauto.
  - destruct (policy cfg); [exists Skipped, y, ys; eauto|].
    rewrite (Hpk Waiting _ _ Ew : peek_request (waiting s) = Ok w),
      (Hpk Skipped _ _ Ey : peek_request (skipped_waiting s) = Ok y). mrun.
    destruct (request_lt w y); [exists Waiting, w, ws|exists Skipped, y, ys]; eauto.
Qed.

(** ** Promotion *)

Lemma waiting_change k r r' :
  fits_view r' = fits_view r → request_id r' = request_id r →
  num_output_placeholders r' = num_output_placeholders r →
  (is_Some (prefill_stats r') → is_Some (prefill_stats r)) →
  status r' ∈ [WAITING; PREEMPTED; WAITING_FOR_STRUCTURED_OUTPUT_GRAMMAR] →
  num_computed_tokens r' = num_computed_tokens r → waiting_ok cfg k r → waiting_ok cfg k r'.
Proof.
  intros Hv E1 E2 Hst E5 E6 [F W2 W3 W4]. pose proof (rf_placeholders _ _ F) as Hpl.
  split; [|done|congruence|by rewrite E1]. apply (fits_change cfg r); try done. by rewrite E2.
Qed.

Lemma promote_ok i s r k :
  objects s !! i = Some r → waiting_ok cfg k r → py_id r = i →
  ∃ b s1, (if _is_blocked_waiting_status (status r)
           then _try_promote_blocked_waiting_request i s else Ok (true, s)) = Ok (b, s1) ∧
    if (b : bool) then ∃ st, s1 = store (with_status st r) s ∧ st ∈ [WAITING; PREEMPTED] else s1 = s.
Proof.
  intros Ei Hw Epy. pose proof (wo_status _ _ _ Hw) as Hst. rewrite !elem_of_cons, elem_of_nil in Hst.
  assert (∀ st, status r = st → store (with_status st r) s = s) as Hsame.
  { intros st Es. assert (with_status st r = r) as -> by (destruct r; cbn in *; by subst). apply store_same. by rewrite Epy. }
  unfold _is_blocked_waiting_status, _try_promote_blocked_waiting_request.
  destruct Hst as [Es|[Es|[Es|[]]]]; rewrite Es; cbn.
  - exists true, s. split; [done|]. exists WAITING. rewrite Hsame by done. set_solver.
  - exists true, s. split; [done|]. exists PREEMPTED. rewrite Hsame by done. set_solver.
  - rewrite (deref_ok _ _ _ Ei). mrun. rewrite Es. destruct (negb _); [by exists false, s|].
    exists true. eexists. split; [reflexivity|]. exists WAITING. split; [done|set_solver].
Qed.

(** ** Cached tokens *)

Record computed_fits k r (ct : computed_tokens) : Prop := {
  cf_external : ct_external ct = 0;
  cf_sync : ct_load_kv_async ct = false;
  cf_total : ct_total ct = ct_local ct;
  cf_range : 0 ≤ ct_local ct < num_tokens r;
  cf_blocks : computed_ok (request_id r) (ct_local ct) 0 (ct_blocks ct)
                (single_type_managers (coordinator k)) (kv_pool k);
}.

Lemma lookup_computed_ok i s r :
  env_ok s → objects s !! i = Some r → py_id r = i → kv_ready (kv_cache_manager s) → chain_kv (kv_cache_manager s) →
  waiting_ok cfg (kv_cache_manager s) r →
  ∃ ct k' p, lookup_computed cfg i s = Ok (Some ct, store (with_prefill_stats p r) (set_kv_cache_manager k' s)) ∧
    kv_ready k' ∧ kv_quiet (kv_cache_manager s) k' ∧ (is_Some p → is_Some (prefill_stats r)) ∧ computed_fits k' r ct.
Proof.
  intros Henv Ei Epy Hk Hch [Hfit Hst Hc Hf]. pose proof (rf_stats _ _ Hfit) as F7. pose proof (rf_tokens _ _ Hfit) as F4.
  pose proof (fits_hashed cfg _ _ Hch Hfit) as F2. unfold lookup_computed.
  rewrite (deref_ok _ _ _ Ei). mrun. rewrite Hc. cbn [Z.eqb].
  destruct (lookup_promise r _ Hk F2 Hf Hc) as (b & h & k1 & El & Hk1 & Hq & Hh & Hco); [lia|].
  assert (local_computed cfg r s = Ok (b, h, set_kv_cache_manager k1 s)) as ->.
  { unfold local_computed. rewrite (en_connector _ Henv), El. by mrun. }
  mrun. set (s1 := set_kv_cache_manager k1 s). unfold external_computed.
  change (connector s1) with (connector s). rewrite (en_connector _ Henv). mrun.
  rewrite Z.add_0_r, (proj2 (Z.leb_le h (num_tokens r))) by lia. cbn [require]. mrun.
  unfold encoder_pending. change (ec_connector s1) with (ec_connector s). rewrite (en_ec _ Henv).
  set (ct := mkComputed _ _ _ _ _ _ _ _).
  assert (computed_fits k1 r ct) as Hct by (split; done).
  destruct (prefill_stats r) as [ps|] eqn:Eps; cycle 1.
  - mrun. exists ct, k1, None. split; [|done]. do 2 f_equal.
    symmetry. rewrite <- Eps. assert (with_prefill_stats (prefill_stats r) r = r) as -> by (by destruct r).
    apply store_same. cbn. by rewrite Epy.
  - assert (h ≤ num_prompt_tokens r) as Hle by (specialize (F7 (mk_is_Some _ _ eq_refl)); lia).
    unfold PrefillStats_set. rewrite Z.add_0_r, (proj2 (Z.leb_le h (num_prompt_tokens r))) by done.
    cbn [require]. mrun. exists ct, k1. eexists. split; [reflexivity|]. split_and!; eauto.
Qed.

(** ** Tokens *)

Record plan_fits l r (ct : computed_tokens) (p : token_plan) : Prop := {
  pf_tokens : 0 < tp_num_new_tokens p ≤ token_budget l;
  pf_prompt : ct_total ct + tp_num_new_tokens p ≤ num_tokens r;
  pf_inputs : tp_encoder_inputs p = [] ∧ tp_external_inputs p = [];
  pf_pad : tp_pad_spec_decode p = false;
}.

Lemma text_only r : request_fits cfg r → has_encoder_inputs r = false.
Proof. intros H. unfold has_encoder_inputs, num_encoder_inputs. by rewrite (rf_text _ _ H). Qed.

Lemma waiting_tokens_ok defer r h l n pad :
  0 ≤ h < num_tokens r → 0 < token_budget l →
  waiting_num_new_tokens cfg defer r h l = Some (n, pad) →
  0 < n ≤ token_budget l ∧ h + n ≤ num_tokens r ∧ pad = false.
Proof.
  intros Hh Hb. unfold waiting_num_new_tokens. rewrite (pc_spec _ Hcfg). cbn [Z.gtb Z.compare andb].
  destruct (defer && _); [done|].
  assert (∀ x, x = (if (0 <? long_prefill_token_threshold cfg) && (long_prefill_token_threshold cfg <? num_tokens r - h)
    then long_prefill_token_threshold cfg else num_tokens r - h) → 0 < x ≤ num_tokens r - h) as Hx.
  { intros x ->. case (Z.ltb_spec 0 (long_prefill_token_threshold cfg)),
      (Z.ltb_spec (long_prefill_token_threshold cfg) (num_tokens r - h)); cbn [andb]; lia. }
  specialize (Hx _ eq_refl). destruct (negb _ && _); [done|]. intros [= <- <-]. lia.
Qed.

Lemma plan_tokens_ok defer i ct r k l :
  objects (sch l) !! i = Some r → request_fits cfg r → computed_fits k r ct → 0 < token_budget l →
  ∃ res, plan_tokens cfg defer i ct l = Ok (res, l) ∧
    match res with Some p => plan_fits l r ct p | None => True end.
Proof.
  intros Ei Hfit [Hext Hsync Htot Hr _] Hb. unfold plan_tokens. rewrite (deref_ok _ _ _ Ei). mrun.
  rewrite Hsync. destruct (waiting_num_new_tokens _ _ _ _ _) as [[n pad]|] eqn:En; [|mrun; by exists None].
  rewrite Htot in En. destruct (waiting_tokens_ok _ _ _ _ _ _ Hr Hb En) as (Hn & Hle & ->).
  rewrite Z.gtb_ltb, (proj2 (Z.ltb_lt 0 n)) by lia. cbn [require]. mrun. rewrite text_only by done. mrun.
  cbn [negb andb tp_num_new_tokens]. destruct (_ && _); [|eexists; split; [reflexivity|split; cbn; rewrite ?Htot; auto; lia]].
  pose proof (split_bounds cfg r n (ct_local ct) (ct_external ct) (ct_uncached_prefix ct)) as Hs.
  specialize (Hs ltac:(lia) (pc_block _ Hcfg)). destruct (_ =? 0) eqn:Ez; zbool; [by exists None|].
  eexists. split; [reflexivity|]. split; cbn; rewrite ?Htot; auto; lia.
Qed.

(** ** Slots *)

Lemma allocate_waiting_ok i s r l ct p :
  objects s !! i = Some r → kv_ready (kv_cache_manager s) → chain_kv (kv_cache_manager s) →
  waiting_ok cfg (kv_cache_manager s) r → max_model_len (kv_cache_manager s) = sched_max_model_len cfg →
  computed_fits (kv_cache_manager s) r ct → plan_fits l r ct p →
  ∃ res k' r', allocate_waiting cfg i ct p s = Ok (res, store r' (set_kv_cache_manager k' s)) ∧
    alloc_promise r (ct_total ct + tp_num_new_tokens p) (λ k', kv_fresh k' (request_id r))
      (kv_cache_manager s) res k' r'.
Proof.
  intros Ei Hk Hch [Hfit Hst Hc Hf] Hmml [Hext Hsync Htot Hr Hco] [Hn Hle [Hin Hexi] Hpad]. unfold allocate_waiting.
  rewrite (deref_ok _ _ _ Ei). mrun. rewrite text_only, andb_false_r by done. mrun.
  rewrite Hsync. cbn [andb]. mrun. rewrite Hext.
  pose proof (rf_tokens _ _ Hfit) as Ht. pose proof (pc_sampled _ Hcfg) as Hs.
  destruct (alloc_waiting_promise r (tp_num_new_tokens p) (ct_local ct) (ct_blocks ct) (num_lookahead_tokens cfg)
    (scheduler_reserve_full_isl cfg) (negb (bool_decide (running s = []))) (kv_cache_manager s))
    as (res & k' & r' & -> & Hk' & Ho & Hg & Hres); rewrite ?Hc, ?Z.add_0_l; try done || lia.
  { by apply (fits_hashed cfg). } { apply (pc_lookahead _ Hcfg). } { apply (rf_prompt _ _ Hfit). }
  mrun. exists res, k', r'. split; [done|]. split; [done|]. split; [done|]. split; [done|].
  destruct res; [|by eapply lengths_fresh]. by rewrite Hc, Z.add_0_l, <- Htot in Hres.
Qed.

(** ** The invariant of the loop *)

(** The requests scheduled in this step. *)
Definition did l : list nat := running_reqs l ++ new_reqs l ++ resumed_reqs l.

Record wait_inv (B : Z) l ql kl : Prop := {
  wi_sched : sched_ok (sch l) ql (py_id <$> kl);
  wi_krep : rq_rep (step_skipped_waiting l) kl;
  wi_acc : account cfg B (objects (sch l)) (kv_cache_manager (sch l)) (did l) (tokens_of l)
             (req_to_new_blocks l) (token_budget l);
  wi_sub j : j ∈ did l → j ∈ running (sch l);
  wi_enc : encoder_inputs_of l = [] ∧ spec_tokens_of l = [];
  wi_max : zlen (running (sch l)) ≤ max_num_running_reqs cfg;
}.

Lemma wait_object B l ql kl n x xs :
  wait_inv B l ql kl → ql n = x :: xs →
  ∃ r, objects (sch l) !! py_id x = Some r ∧ py_id r = py_id x ∧ waiting_ok cfg (kv_cache_manager (sch l)) r ∧
    py_id x ∈ (py_id <$> queued ql) ++ (py_id <$> kl).
Proof.
  intros [[_ Hl _] _ _ _ _ _] En. assert (py_id x ∈ (py_id <$> queued ql) ++ (py_id <$> kl)) as Hin.
  { apply elem_of_app. left. rewrite (queued_pop n x xs ql En). cbn. by left. }
  destruct (lv_wait _ _ _ _ _ _ Hl _ Hin) as (r & Er & Hw). exists r. split_and!; try done.
  by apply (lv_objs _ _ _ _ _ _ Hl).
Qed.

(** The request at hand changes. *)
Lemma wait_touch B l ql kl i r r' k' :
  wait_inv B l ql kl → i ∈ (py_id <$> queued ql) ++ (py_id <$> kl) → objects (sch l) !! i = Some r →
  request_id r' = request_id r → py_id r' = i → kv_ready k' → kv_only (request_id r) (kv_cache_manager (sch l)) k' →
  waiting_ok cfg k' r' → wait_inv B (put_sch (store r' (set_kv_cache_manager k' (sch l))) l) ql kl.
Proof.
  intros [Hs Hk Ha Hsub Henc Hmax] Hi Ei Eid Epy Hk' Ho Hw. split; try done.
  - by eapply (wait_touch_ok (sch l) ql _ i r).
  - by eapply (touch_account B (sch l) ql _ (did l) _ _ _ i r).
Qed.

Lemma pop_reps s ql n x xs :
  (∀ m, rq_rep (get_queue m s) (ql m)) → ql n = x :: xs →
  ∃ q, pop_request (get_queue n s) = Ok (x, q) ∧ ∀ m, rq_rep (get_queue m (set_queue n q s)) (upd n xs ql m).
Proof.
  intros Hr En. pose proof (Hr n) as Hn. rewrite En in Hn. destruct (rq_pop _ _ _ Hn) as (q & E1 & E2).
  exists q. split; [done|]. intros m. specialize (Hr m). unfold upd. by destruct n, m; cbn in *.
Qed.

Lemma set_queue_same n q s :
  objects (set_queue n q s) = objects s ∧ requests (set_queue n q s) = requests s ∧
  kv_cache_manager (set_queue n q s) = kv_cache_manager s ∧ running (set_queue n q s) = running s ∧
  (env_ok s → env_ok (set_queue n q s)).
Proof. destruct n; split_and!; try done; intros []; by split. Qed.

Lemma skip_head_ok B l ql kl n x xs :
  wait_inv B l ql kl → ql n = x :: xs →
  ∃ l' kl', skip_head n l = Ok l' ∧ wait_inv B l' (upd n xs ql) kl' ∧ running (sch l') = running (sch l).
Proof.
  intros [[Henv Hl Hr] Hk Ha Hsub Henc Hmax] En. pose proof (queued_pop n x xs ql En) as Hp. unfold skip_head.
  destruct (pop_reps _ _ _ _ _ Hr En) as (q & -> & Hr'). mrun.
  destruct (rq_prepend (step_skipped_waiting l) kl x Hk) as (sk & kl' & Esk & Hk' & Hp').
  { pose proof (lv_nodup _ _ _ _ _ _ Hl) as Hnd. apply NoDup_app in Hnd as (_ & _ & Hnd).
    rewrite Hp in Hnd. cbn in Hnd. apply NoDup_cons in Hnd as [Hni _]. set_solver. }
  cbn [step_skipped_waiting put_sch]. rewrite Esk. mrun. eexists _, kl'. split; [reflexivity|]. split; [|by destruct n].
  destruct (set_queue_same n q (sch l)) as (E1 & E2 & E3 & E4 & Henv'). specialize (Henv' Henv).
  split; cbn; rewrite ?E1, ?E3, ?E4; try done. split; rewrite ?E1, ?E2, ?E3, ?E4; try done.
  assert ((py_id <$> queued (upd n xs ql)) ++ (py_id <$> kl') ≡ₚ (py_id <$> queued ql) ++ (py_id <$> kl)) as ->; [|done].
  rewrite Hp, Hp'. cbn. by rewrite <- Permutation_middle.
Qed.

(** ** A waiting request starts to run *)

(** What [start_running] does to a text-only request. *)
Definition launched r (ct : computed_tokens) : Request :=
  with_num_computed_tokens (ct_total ct) (with_status RUNNING r).

Lemma did_snoc i (xs ys zs : list nat) :
  xs ++ (ys ++ [i]) ++ zs ≡ₚ i :: xs ++ ys ++ zs ∧ xs ++ ys ++ (zs ++ [i]) ≡ₚ i :: xs ++ ys ++ zs.
Proof.
  split; [rewrite <- app_assoc; cbn|rewrite <- Permutation_cons_append]; by rewrite <- !Permutation_middle.
Qed.

Lemma start_running_eq i r ct p l :
  objects (sch l) !! i = Some r → py_id r = i → status r ∈ [WAITING; PREEMPTED] →
  tp_encoder_inputs p = [] ∧ tp_external_inputs p = [] → tp_pad_spec_decode p = false →
  ∃ l' X, start_running cfg i ct p l = Ok l' ∧
    sch l' = set_inflight_prefills X (store (launched r ct) (set_running (running (sch l) ++ [i]) (sch l))) ∧
    did l' ≡ₚ i :: did l ∧ step_skipped_waiting l' = step_skipped_waiting l ∧
    tokens_of l' = dict_set (request_id r) (tp_num_new_tokens p) (tokens_of l) ∧
    (∃ b, req_to_new_blocks l' = dict_set (request_id r) b (req_to_new_blocks l)) ∧
    token_budget l' = token_budget l - tp_num_new_tokens p ∧ encoder_inputs_of l' = encoder_inputs_of l ∧
    spec_tokens_of l' = spec_tokens_of l.
Proof.
  intros Ei Epy Hst [Hin Hex] Hpad. unfold start_running.
  rewrite (deref_ok _ (sch (put_sch _ _)) r) by done. mrun. rewrite Hin, Hex, Hpad, (pc_lora _ Hcfg).
  assert (∀ i l, objects (sch l) !! i = Some (launched r ct) → take_encoder_inputs i [] [] (tp_encoder_budget p) l = Ok l) as Ht.
  { intros i' l' Hl'. unfold take_encoder_inputs. rewrite (deref_ok _ _ _ Hl'). by mrun. }
  rewrite !elem_of_cons, elem_of_nil in Hst. destruct l as [s v1 v2 v3 v4 v5 v6 v7 v8 v9 v10 v11 v12 v13 v14].
  destruct Hst as [Es|[Es|[]]]; rewrite Es; mrun;
    cbv beta iota zeta delta [sch put_sch store_in put_spec_tokens_of put_token_budget put_tokens_of put_req_to_new_blocks
      put_new_reqs put_resumed_reqs put_scheduled_loras running_reqs new_reqs resumed_reqs token_budget tokens_of
      req_to_new_blocks step_skipped_waiting encoder_inputs_of req_index encoder_compute_budget preempted_reqs
      spec_tokens_of prefill_scheduled scheduled_loras];
    (destruct (_ <? _); (rewrite Ht; [|cbn; rewrite Epy; apply lookup_insert_eq]));
    [eexists _, _|eexists _, (s.(_inflight_prefills))|eexists _, _|eexists _, (s.(_inflight_prefills))];
    (split; [reflexivity|]; split; [reflexivity|]; split; [apply did_snoc|]; eauto 10).
Qed.

Lemma running_launched k k' r r' ct n :
  waiting_ok cfg k r → memo_grows r r' → same_config k k' →
  0 ≤ ct_total ct → 0 < n → ct_total ct + n ≤ num_tokens r → kv_holds k' (request_id r) (ct_total ct + n) →
  running_ok cfg k' (launched r' ct).
Proof.
  intros [Hfit _ _ _] Hg Hc H0 Hn Hle Hh.
  pose proof (fits_grows cfg r r' Hg Hfit) as F. pose proof (rf_tokens _ _ F) as F4. pose proof (rf_placeholders _ _ F) as F6.
  assert (request_fits cfg (launched r' ct)) as F' by (by apply (fits_change cfg r')).
  destruct Hg as [[m ->] _]. unfold launched in *. split; cbn in *.
  - done.
  - done.
  - change (num_tokens (with_num_computed_tokens _ _)) with (num_tokens r). lia.
  - change (num_tokens (with_prompt_embeds_per_block_hashes _ _)) with (num_tokens r) in F4. lia.
  - eapply holds_mono; [exact Hh|lia].
Qed.

(** The request at the head of queue [n] has its slots: it leaves the queue and
    runs. *)
Lemma launch_ok B l ql kl n x xs r k' r' ct p :
  wait_inv B l ql kl → ql n = x :: xs → objects (sch l) !! py_id x = Some r →
  status r ∈ [WAITING; PREEMPTED] → plan_fits l r ct p → 0 ≤ ct_total ct →
  kv_ready k' → kv_only (request_id r) (kv_cache_manager (sch l)) k' → memo_grows r r' →
  kv_holds k' (request_id r) (ct_total ct + tp_num_new_tokens p) →
  zlen (running (sch l)) < max_num_running_reqs cfg →
  let l1 := put_sch (store r' (set_kv_cache_manager k' (sch l))) l in
  ∃ q l', pop_request (get_queue n (sch l1)) = Ok (x, q) ∧
    start_running cfg (py_id x) ct p (put_sch (set_queue n q (sch l1)) l1) = Ok l' ∧ wait_inv B l' (upd n xs ql) kl.
Proof.
  intros Hinv En Ei Hst [Hn Hle Hin Hpad] Htot Hk' Ho Hg Hh Hlt l1.
  destruct (wait_object B l ql kl n x xs Hinv En) as (r0 & E0 & Epy & Hw & Hq). rewrite Ei in E0. injection E0 as <-.
  destruct Hinv as [[Henv Hl Hr] Hk Ha Hsub Henc Hmax]. set (i := py_id x) in *.
  assert (py_id r' = i ∧ status r' = status r ∧ request_id r' = request_id r ∧ num_tokens r' = num_tokens r)
    as (Epy' & Est & Eid & Ent) by (by destruct Hg as [[m ->] _]).
  destruct (pop_reps (sch l1) ql n x xs) as (q & Eq & Hr'); [intros m; specialize (Hr m); by destruct m|done|].
  exists q. destruct (set_queue_same n q (sch l1)) as (E1 & E2 & E3 & E4 & Henv').
  set (l2 := put_sch (set_queue n q (sch l1)) l1).
  destruct (start_running_eq i r' ct p l2) as (l' & X & Es & Esch & Hdid & Esk & Etok & (b & Eblk) & Ebud & Een & Esp); try done.
  { change (sch l2) with (set_queue n q (sch l1)). rewrite E1. cbn. rewrite Epy'. apply lookup_insert_eq. } { by rewrite Est. }
  exists l'. split; [done|]. split; [done|]. change (sch l2) with (set_queue n q (sch l1)) in Esch.
  assert (i ∉ running (sch l)) as Hni.
  { intros Hrun. pose proof (lv_nodup _ _ _ _ _ _ Hl) as Hnd. apply NoDup_app in Hnd as (_ & Hd & _). by destruct (Hd i). }
  assert (running_ok cfg k' (launched r' ct)) as Hrun by (by eapply running_launched; eauto; [apply Ho|lia]).
  assert (Eobj : objects (sch l') = <[i := launched r' ct]> (objects (sch l))).
  { rewrite Esch. cbn [objects set_inflight_prefills store set_objects set_running]. rewrite E1. cbn.
    rewrite Epy'. apply insert_insert_eq. }
  assert (Ekv : kv_cache_manager (sch l') = k') by (rewrite Esch; by destruct n).
  assert (Erun : running (sch l') = running (sch l) ++ [i]) by (rewrite Esch; by destruct n).
  change (token_budget l2) with (token_budget l) in Ebud. change (tokens_of l2) with (tokens_of l) in Etok.
  change (req_to_new_blocks l2) with (req_to_new_blocks l) in Eblk. change (did l2) with (did l) in Hdid.
  split.
  - split.
    + rewrite Esch. destruct Henv'; [destruct Henv; by split|]. by split.
    + rewrite Eobj, Ekv, Erun. assert (requests (sch l') = requests (sch l)) as -> by (rewrite Esch; by destruct n).
      pose proof (queued_pop n x xs ql En) as Hp.
      eapply (live_update cfg _ _ _ _ _ i r); try done.
      * apply elem_of_app. by right.
      * rewrite Hp. cbn. rewrite <- Permutation_cons_append. cbn. by rewrite <- Permutation_middle.
      * by intros j Hj [?|?%list_elem_of_singleton]%elem_of_app.
      * intros j Hj. rewrite Hp. cbn. intros Hin'. by right.
      * intros Hw'. exfalso. pose proof (lv_nodup _ _ _ _ _ _ Hl) as Hnd. apply NoDup_app in Hnd as (_ & _ & Hnd).
        rewrite Hp in Hnd. cbn in Hnd. by apply NoDup_cons in Hnd as [? _].
    + intros m. specialize (Hr' m). rewrite Esch. by destruct m.
  - by rewrite Esk.
  - rewrite Eobj, Ekv, Etok, Eblk, Ebud.
    assert (Hoth : other_ids (objects (sch l)) (did l) r).
    { eapply live_other_ids; [exact Hl|apply elem_of_app; by right|exact Ei| |by intros ?%Hsub].
      intros j Hj. apply elem_of_app. left. auto. }
    change (request_id r') with (request_id (launched r' ct)).
    apply (account_add cfg B _ k' (did l) _ _ _ i); try done.
    + eapply account_other; [exact Ha|by intros ?%Hsub|exact Hoth|exact Ho].
    + by intros ?%Hsub.
    + apply lookup_insert_eq.
    + intros j rj Hj. rewrite lookup_insert_ne by (intros ->; auto). cbn. rewrite Eid. by apply Hoth.
    + pose proof (rf_placeholders _ _ (ro_fits _ _ _ Hrun)) as Hpl. cbn in Hpl |- *.
      change (num_tokens (launched r' ct)) with (num_tokens r'). lia.
    + pose proof (rf_tokens _ _ (wo_fits _ _ _ Hw)) as Ht. cbn. lia.
    + cbn. by rewrite Eid.
  - intros j. rewrite Hdid, Erun. intros [->|Hj%Hsub]%elem_of_cons; apply elem_of_app; [right; by left|by left].
  - by rewrite Een, Esp.
  - rewrite Erun, length_app. cbn [length]. lia.
Qed.

(** ** The loop *)

Lemma waiting_body_ok B defer l ql kl :
  wait_inv B l ql kl → queued ql ≠ [] → 0 < token_budget l →
  ∃ go l' ql' kl', waiting_body cfg defer l = Ok (go, l') ∧ wait_inv B l' ql' kl' ∧
    (go = true → (length (queued ql') < length (queued ql))%nat).
Proof.
  intros Hinv Hne Hb. unfold waiting_body. pose proof (wi_sched _ _ _ _ Hinv) as Hs.
  rewrite (en_streaming _ (so_env _ _ _ Hs)), Z.add_0_r.
  destruct (_ >=? _) eqn:Efull; [by exists false, l, ql, kl|].
  assert (zlen (running (sch l)) < max_num_running_reqs cfg) as Hlt by (zbool; lia).
  destruct (select_ok _ _ _ Hs Hne) as (n & x & xs & -> & En & Hpk). mrun. cbn [of_option]. mrun. rewrite Hpk. mrun.
  pose proof (queued_pop n x xs ql En) as Hp. apply Permutation_length in Hp. cbn [length] in Hp.
  destruct (wait_object B l ql kl n x xs Hinv En) as (r & Ei & Epy & Hw & Hq). rewrite (deref_ok _ _ _ Ei). mrun.
  destruct (promote_ok _ _ _ _ Ei Hw Epy) as (b & s1 & -> & Hb1). mrun. destruct b; cycle 1.
  { (* still blocked *)
    subst s1. replace (put_sch (sch l) l) with l by (by destruct l). cbn [negb].
    destruct (skip_head_ok B l ql kl n x xs Hinv En) as (l' & kl' & -> & Hinv' & _). mrun.
    exists true, l', (upd n xs ql), kl'. split; [done|]. split; [done|]. intros _. lia. }
  cbn [negb]. destruct Hb1 as (st & -> & Hst).
  (* promoted *)
  set (r1 := with_status st r). set (l1 := put_sch (store r1 (sch l)) l).
  pose proof (so_live _ _ _ Hs) as Hl.
  assert (waiting_ok cfg (kv_cache_manager (sch l)) r1) as Hw1.
  { eapply waiting_change; [..|exact Hw]; try done. cbn. set_solver. }
  assert (wait_inv B l1 ql kl) as Hinv1.
  { pose proof (wait_touch B l ql kl _ r r1 (kv_cache_manager (sch l)) Hinv Hq Ei eq_refl Epy
      (lv_kv _ _ _ _ _ _ Hl) (only_refl _ _) Hw1) as H. by rewrite set_kv_same in H. }
  assert (objects (sch l1) !! py_id x = Some r1) as Ei1 by (cbn; rewrite Epy; apply lookup_insert_eq).
  assert (lora_exceeded cfg r l1 = false) as -> by (unfold lora_exceeded; by rewrite (pc_lora _ Hcfg)).
  (* cached tokens *)
  pose proof (so_live _ _ _ (wi_sched _ _ _ _ Hinv1)) as Hl1.
  destruct (lookup_computed_ok (py_id x) (sch l1) r1) as (ct & k2 & p2 & -> & Hk2 & Hq2 & Hp2 & Hct); try done.
  { apply (so_env _ _ _ (wi_sched _ _ _ _ Hinv1)). } { apply (lv_kv _ _ _ _ _ _ Hl1). } { apply (lv_chain _ _ _ _ _ _ Hl1). }
  mrun. set (r2 := with_prefill_stats p2 r1). set (l2 := put_sch _ l1).
  assert (waiting_ok cfg k2 r2) as Hw2.
  { eapply waiting_quiet; [exact Hq2|]. eapply waiting_change; [..|exact Hw1]; try done. cbn. set_solver. }
  assert (wait_inv B l2 ql kl) as Hinv2 by (by apply (wait_touch B l1 ql kl (py_id x) r1 r2 k2)).
  assert (objects (sch l2) !! py_id x = Some r2) as Ei2 by (cbn; rewrite Epy; apply lookup_insert_eq).
  assert (computed_fits (kv_cache_manager (sch l2)) r2 ct) as Hct2 by (destruct Hct; by split).
  (* tokens *)
  destruct (plan_tokens_ok defer (py_id x) ct r2 k2 l2) as (res & -> & Hres); try done; [apply (wo_fits _ _ _ Hw2)|].
  mrun. destruct res as [p|]; [|by exists false, l2, ql, kl].
  (* slots *)
  pose proof (so_live _ _ _ (wi_sched _ _ _ _ Hinv2)) as Hl2.
  destruct (allocate_waiting_ok (py_id x) (sch l2) r2 l2 ct p) as (res & k3 & r3 & -> & Hk3 & Ho3 & Hg3 & Hres3); try done.
  { apply (lv_chain _ _ _ _ _ _ Hl2). } { apply (lv_mml _ _ _ _ _ _ Hl2). }
  mrun. set (l3 := put_sch _ l2).
  assert (request_id r3 = request_id r2 ∧ py_id r3 = py_id x) as [Eid3 Epy3].
  { destruct Hg3 as [[m ->] _]. split; [done|]. exact Epy. }
  destruct res as [bl|]; cycle 1.
  { assert (objects (sch l3) !! py_id x = Some r3) as Ei3 by (cbn; rewrite Epy3; apply lookup_insert_eq).
    assert (waiting_ok cfg k3 r3) as Hw3.
    { destruct Hw2 as [F W1 W2 W3]. split; [|by destruct Hg3 as [[m ->] _]..].
      by eapply fits_grows. }
    rewrite (deref_ok _ _ _ Ei3). mrun. rewrite text_only by apply (wo_fits _ _ _ Hw3). mrun.
    exists false, l3, ql, kl. split; [done|]. split; [|done]. by apply (wait_touch B l2 ql kl (py_id x) r2). }
  assert (on_sched (notify_connector (py_id x) ct) l3 = Ok l3) as ->.
  { unfold on_sched, notify_connector.
    assert (connector (sch l3) = None) as -> by apply (en_connector _ (so_env _ _ _ Hs)). rewrite bind_ret. by destruct l. }
  mrun. destruct (launch_ok B l2 ql kl n x xs r2 k3 r3 ct p) as (q & l' & Epop & Estart & Hinv'); try done.
  { rewrite (cf_total _ _ _ Hct). apply (cf_range _ _ _ Hct). }
  fold l3 in Epop, Estart. rewrite Epop. mrun. rewrite (cf_sync _ _ _ Hct), Estart. mrun.
  exists true, l', (upd n xs ql), kl. split; [done|]. split; [done|]. intros _. lia.
Qed.

Lemma waiting_loop_ok B fuel defer l ql kl :
  wait_inv B l ql kl → (length (queued ql) ≤ fuel)%nat →
  ∃ l' ql' kl', waiting_loop cfg fuel defer l = Ok l' ∧ wait_inv B l' ql' kl'.
Proof.
  revert l ql kl. induction fuel as [|fuel IH]; intros l ql kl Hinv Hf; cbn [waiting_loop];
    (destruct (_ && _) eqn:Ego; [|by exists l, ql, kl]); apply andb_true_iff in Ego as [E1 E2];
    (assert (queued ql ≠ []) as Hne; [intros Hq|]).
  1,3: pose proof (so_reps _ _ _ (wi_sched _ _ _ _ Hinv)) as Hr; unfold queued in Hq; apply app_nil in Hq as [Hq1 Hq2];
    destruct (rq_length _ _ (Hr Waiting)) as [_ Bw], (rq_length _ _ (Hr Skipped)) as [_ Bs];
    cbn [get_queue] in Bw, Bs; rewrite Hq1 in Bw; rewrite Hq2 in Bs; by rewrite Bw, Bs in E1.
  { destruct (queued ql); [done|]. cbn in Hf. lia. }
  destruct (waiting_body_ok B defer l ql kl Hinv Hne) as (go & l1 & ql1 & kl1 & -> & Hinv1 & Hgo); [zbool; lia|].
  mrun. destruct go; [|by exists l1, ql1, kl1]. apply (IH l1 ql1 kl1 Hinv1). specialize (Hgo eq_refl). lia.
Qed.

End WaitingInv.
