(* ===== verification/ScheduleOk.v ===== *)
(** * A scheduling step from start to end

    The parts of [schedule] put together: the loop over running requests, the
    loop over waiting requests, the assertions at the end, the output and the
    update of the scheduled requests.  [sched_inv] is the invariant between
    calls. *)

From S2P Require Import Prelude MathUtils Request BlockHash KVMetrics FreeQueue BlockPool.
From S2P Require Import SingleTypeManager ManagerInv Coordinator HybridHit CacheStats KVCacheManager.
From S2P Require Import KVReachable KVContract EncoderCache Heapq RequestQueue SchedUtils.
From S2P Require Import PyDict SchedState Scheduler Schedule SchedInv ScheduleInv WaitingInv.

Local Open Scope Z_scope.

Section ScheduleOk.
Context {Q : Type} `{!FreeQueueOps Q} `{!FreeQueueSpec Q} {env : PoolEnv}.
Context {WQ : Type} `{!RequestQueueOps WQ} `{!RequestQueueSpec WQ} `{!QueueAlias WQ}.
Context {C E G : Type} `{!KVConnector C} `{!ECConnector E} `{!StructuredOutput G}.
Context (cfg : SchedulerConfig) (Hcfg : plain_config cfg) `{!HashChain (Q := Q) (block_hasher cfg)}.
Abbreviation sched := (Scheduler Q WQ C E G).
Abbreviation step := (Step Q WQ C E G).
Implicit Types (s : sched) (l : step) (r : Request) (i j : nat) (ql : queue_lists) (kl wl sl : list Request).
Implicit Types (objs : gmap nat Request) (k : KVCacheManager Q) (ex : list nat) (o : SchedulerOutput).

(** ** After the loops *)

Record step_ok (B : Z) l ql : Prop := {
  sk_sched : sched_ok cfg (sch l) ql [];
  sk_acc : account cfg B (objects (sch l)) (kv_cache_manager (sch l)) (did l) (tokens_of l)
             (req_to_new_blocks l) (token_budget l);
  sk_sub j : j ∈ did l → j ∈ running (sch l);
  sk_enc : encoder_inputs_of l = [] ∧ spec_tokens_of l = [];
  sk_max : zlen (running (sch l)) ≤ max_num_running_reqs cfg;
}.

Definition two_lists wl sl : queue_lists := λ n, match n with Waiting => wl | Skipped => sl end.

Lemma run_step B l wl sl A T : run_inv cfg B l wl sl → splits l A T → step_ok B l (two_lists wl sl).
Proof.
  intros [Henv Hl Hw Hs Ha (Hn & Hr & Hsp) Henc Hmax] (Erun & _ & Hsub).
  assert (did l = running_reqs l) as Ed by (unfold did; by rewrite Hn, Hr, !app_nil_r).
  split; try done; rewrite ?Ed; try done.
  - split; [done| |by intros []]. rewrite app_nil_r. done.
  - intros j Hj. rewrite Erun. apply elem_of_app. left. auto.
Qed.

Lemma schedule_waiting_ok B defer l ql :
  step_ok B l ql → ∃ l' ql', schedule_waiting cfg defer l = Ok l' ∧ step_ok B l' ql'.
Proof.
  intros Hok. unfold schedule_waiting. destruct (_ && _); [|by exists l, ql].
  destruct Hok as [Hs Ha Hsub Henc Hmax]. set (l1 := put_step_skipped_waiting rq_new l).
  assert (wait_inv cfg B l1 ql []) as Hinv by (split; try done; apply rq_rep_new).
  match goal with |- context [waiting_loop _ ?f _ _] => destruct (waiting_loop_ok cfg Hcfg B f defer l1 ql [] Hinv)
    as (l2 & ql2 & kl & -> & [Hs2 Hk2 Ha2 Hsub2 Henc2 Hmax2]) end.
  { pose proof (so_reps _ _ _ _ Hs) as Hr. destruct (rq_length _ _ (Hr Waiting)) as [Ew _], (rq_length _ _ (Hr Skipped)) as [Es _].
    change (get_queue Waiting (sch l)) with (waiting (sch l1)) in Ew.
    change (get_queue Skipped (sch l)) with (skipped_waiting (sch l1)) in Es.
    rewrite Ew, Es. unfold queued. rewrite length_app. lia. }
  mrun. destruct (rq_length _ _ Hk2) as [_ Bk]. rewrite Bk.
  assert (∃ l3 ql3, (if bool_decide (kl ≠ []) then
      xs ← queue_iter (step_skipped_waiting l2); q ← prepend_requests xs (skipped_waiting (sch l2));
      Ok (put_sch (set_skipped_waiting q (sch l2)) l2) else Ok l2) = Ok l3 ∧ step_ok B l3 ql3) as (l3 & ql3 & -> & Hok3).
  { case_bool_decide as Hne; cycle 1.
    { exists l2, ql2. split; [done|]. destruct kl; [split; [exact Hs2|done..]|]. done. }
    rewrite (rq_iter _ _ Hk2). mrun. destruct Hs2 as [Henv2 Hl2 Hr2].
    destruct (rq_prepend_all (skipped_waiting (sch l2)) (ql2 Skipped) kl (Hr2 Skipped)) as (q & xs & -> & Hq & Hp).
    { pose proof (lv_nodup _ _ _ _ _ _ Hl2) as Hnd. apply NoDup_app in Hnd as (_ & _ & Hnd).
      unfold queued in Hnd. rewrite fmap_app, <- app_assoc in Hnd. apply NoDup_app in Hnd as (_ & _ & Hnd).
      by rewrite fmap_app, Permutation_app_comm. }
    mrun. eexists _, (upd Skipped xs ql2). split; [reflexivity|]. split; cbn; try done. split; cbn.
    - destruct Henv2. by split.
    - rewrite app_nil_r. unfold queued, upd in *. cbn.
      assert (py_id <$> ql2 Waiting ++ xs ≡ₚ (py_id <$> ql2 Waiting ++ ql2 Skipped) ++ (py_id <$> kl)) as ->; [|done].
      rewrite Hp, !fmap_app, <- app_assoc. f_equiv. apply Permutation_app_comm.
    - intros n. specialize (Hr2 n). unfold upd. by destruct n. }
  mrun. eexists _, ql3. split; [reflexivity|]. destruct defer; [done|]. cbn [negb].
  destruct Hok3 as [[Henv Hl Hr] ? ? ? ?]. split; try done. split; [destruct Henv; by split|done|].
  intros n. specialize (Hr n). by destruct n.
Qed.

(** ** The assertions *)

Lemma check_constraints_ok B l ql :
  step_ok B l ql → B ≤ max_num_scheduled_tokens cfg → check_constraints cfg l = Ok (sum_values (tokens_of l)).
Proof.
  intros [Hs Ha Hsub Henc Hmax] HB. pose proof (ac_sum _ _ _ _ _ _ _ _ Ha) as Esum.
  pose proof (ac_pos _ _ _ _ _ _ _ _ Ha) as Hpos. unfold check_constraints.
  rewrite (proj2 (Z.leb_le (sum_values (tokens_of l)) (max_num_scheduled_tokens cfg))) by lia. cbn [require]. mrun.
  rewrite Z.geb_leb, (proj2 (Z.leb_le 0 (token_budget l))) by lia. cbn [require]. mrun.
  rewrite (proj2 (Z.leb_le (zlen (running (sch l))) _)) by lia. cbn [require]. mrun.
  assert ((length (did l) ≤ length (running (sch l)))%nat) as Hlen.
  { apply submseteq_length, NoDup_submseteq; [apply (ac_nodup _ _ _ _ _ _ _ _ Ha)|exact Hsub]. }
  unfold did in Hlen. rewrite !length_app in Hlen. rewrite (proj2 (Z.leb_le _ _)) by lia. cbn [require]. by mrun.
Qed.

(** A quiet change of the KV cache manager. *)
Lemma sched_quiet s ql ex k' :
  sched_ok cfg s ql ex → kv_ready k' → kv_quiet (kv_cache_manager s) k' → sched_ok cfg (set_kv_cache_manager k' s) ql ex.
Proof.
  intros [Henv Hl Hr] Hk Hq. split.
  - destruct Henv. by split.
  - cbn. by eapply live_quiet.
  - intros n. specialize (Hr n). by destruct n.
Qed.

Lemma step_quiet B l ql k' :
  step_ok B l ql → kv_ready k' → kv_quiet (kv_cache_manager (sch l)) k' →
  step_ok B (put_sch (set_kv_cache_manager k' (sch l)) l) ql.
Proof.
  intros [Hs Ha Hsub Henc Hmax] Hk Hq. split; try done; [by apply sched_quiet|]. cbn. by eapply account_quiet.
Qed.

Lemma common_prefix_blocks_ok B l ql :
  step_ok B l ql → ∃ ns k', common_prefix_blocks cfg l = Ok (ns, put_sch (set_kv_cache_manager k' (sch l)) l) ∧
    step_ok B (put_sch (set_kv_cache_manager k' (sch l)) l) ql.
Proof.
  intros Hok. pose proof (so_live _ _ _ _ (sk_sched _ _ _ Hok)) as Hl. unfold common_prefix_blocks.
  destruct (running (sch l)) as [|i run] eqn:Erun.
  - eexists _, (kv_cache_manager (sch l)). replace (put_sch _ l) with l by (destruct l as [s]; by destruct s). done.
  - destruct (lv_run _ _ _ _ _ _ Hl i) as (r & Er & _); [by left|]. rewrite (deref_ok _ _ _ Er). mrun.
    destruct (common_prefix_promise (request_id r) _ (lv_kv _ _ _ _ _ _ Hl)) as (ns & k' & -> & Hk' & Hq). mrun.
    exists ns, k'. split; [done|]. by apply step_quiet.
Qed.

(** ** Changes of one running request *)

Definition sched_view s :=
  (objects s, requests s, kv_cache_manager s, running s, (waiting s, skipped_waiting s)).
Lemma sched_ext s s' ql ex : env_ok s' → sched_view s' = sched_view s → sched_ok cfg s ql ex → sched_ok cfg s' ql ex.
Proof.
  unfold sched_view. intros He Ev [_ Hl Hr]. injection Ev as E1 E2 E3 E4 E5 E6. split; [done|by rewrite E1, E2, E3, E4|].
  intros n. specialize (Hr n). destruct n; cbn in *; congruence.
Qed.

Lemma touch_running s ql ex i r r' :
  sched_ok cfg s ql ex → i ∈ running s → objects s !! i = Some r → request_id r' = request_id r → py_id r' = i →
  running_ok cfg (kv_cache_manager s) r' → sched_ok cfg (store r' s) ql ex.
Proof.
  intros [Henv Hl Hr] Hi Ei Eid Epy Hok. split.
  - destruct Henv. by split.
  - cbn. rewrite Epy. eapply (live_update cfg _ _ _ _ _ i r); try done; [apply elem_of_app; by left|apply (lv_kv _ _ _ _ _ _ Hl)|apply only_refl|].
    intros Hw. pose proof (lv_nodup _ _ _ _ _ _ Hl) as Hnd. apply NoDup_app in Hnd as (_ & Hd & _). by destruct (Hd i).
  - intros n. specialize (Hr n). by destruct n.
Qed.

(** The request with id [id] runs, and [R] holds of it. *)
Definition entry (R : Request → Z → Prop) s (x : string * Z) : Prop :=
  ∃ i r, dict_get x.1 (requests s) = Some i ∧ i ∈ running s ∧ objects s !! i = Some r ∧ request_id r = x.1 ∧ R r x.2.

Lemma entry_store (R : Request → Z → Prop) s i r r' x y :
  objects s !! i = Some r → request_id r = x → py_id r' = i → y.1 ≠ x → entry R s y → entry R (store r' s) y.
Proof.
  intros Ei Eid Epy Hne (j & rj & E1 & E2 & E3 & E4 & HR). exists j, rj. cbn. rewrite Epy.
  split; [done|]. split; [done|]. rewrite lookup_insert_ne; [done|]. intros ->. congruence.
Qed.
Lemma entry_ext (R : Request → Z → Prop) s s' y : sched_view s' = sched_view s → entry R s y → entry R s' y.
Proof. unfold sched_view, entry. intros Ev. injection Ev as E1 E2 E3 E4 E5 E6. by rewrite E1, E2, E4. Qed.

Definition to_advance k r (n : Z) : Prop :=
  0 < n ∧ num_computed_tokens r + n ≤ num_tokens r + num_output_placeholders r ∧
  num_computed_tokens r + n ≤ sched_max_model_len cfg - num_sampled_tokens_per_step cfg ∧
  kv_holds k (request_id r) (num_computed_tokens r + n).
Definition advanced r (n : Z) : Prop := 0 < n ≤ num_computed_tokens r.

Lemma account_entries B l ql x :
  step_ok B l ql → x ∈ tokens_of l → entry (to_advance (kv_cache_manager (sch l))) (sch l) x.
Proof.
  intros [Hs Ha Hsub _ _] Hx. pose proof (so_live _ _ _ _ Hs) as Hl. destruct x as [id n].
  assert (dict_get id (tokens_of l) = Some n) as En by (apply dict_get_nodup; [apply (ac_toks _ _ _ _ _ _ _ _ Ha)|done]).
  destruct (ac_keys _ _ _ _ _ _ _ _ Ha _ _ En) as (i & r & Hi & Ei & <-).
  destruct (ac_ok _ _ _ _ _ _ _ _ Ha i Hi) as (r0 & n0 & b & E0 & E1 & E2 & P1 & P2 & P3 & P4).
  rewrite Ei in E0. injection E0 as <-. cbn [fst] in *. rewrite En in E1. injection E1 as <-.
  exists i, r. split; [|split; [auto|done]]. apply (lv_ids _ _ _ _ _ _ Hl); [|done]. apply elem_of_app. left. auto.
Qed.

(** ** The update of the scheduled requests *)

Lemma running_advance k r n b :
  running_ok cfg k r → to_advance k r n →
  running_ok cfg k (with_is_prefill_chunk b (with_num_computed_tokens (num_computed_tokens r + n) r)).
Proof.
  intros [F S2 S3 S4 S5] (P1 & P2 & P3 & P4). pose proof (rf_placeholders _ _ F) as F6.
  split; try done; [by apply (fits_change cfg r)|]. cbn in *. change (num_tokens (with_is_prefill_chunk _ _)) with (num_tokens r). lia.
Qed.

Lemma advance_request_ok b s ql x :
  sched_ok cfg s ql [] → entry (to_advance (kv_cache_manager s)) s x →
  ∃ b' s', advance_request cfg (b, s) x = Ok (b', s') ∧ sched_ok cfg s' ql [] ∧ running s' = running s ∧
    kv_cache_manager s' = kv_cache_manager s ∧ entry advanced s' x ∧
    ∀ (R : Request → Z → Prop) y, y.1 ≠ x.1 → entry R s y → entry R s' y.
Proof.
  intros Hs (i & r & Ed & Hi & Ei & Eid & Hadv). destruct x as [id n]. cbn [fst snd] in *.
  pose proof (so_live _ _ _ _ Hs) as Hl. destruct (lv_run _ _ _ _ _ _ Hl i Hi) as (r0 & E0 & Hok).
  rewrite Ei in E0. injection E0 as <-. pose proof (lv_objs _ _ _ _ _ _ Hl i r Ei) as Epy.
  unfold advance_request. rewrite Ed. cbn [of_option]. mrun. rewrite (deref_ok _ _ _ Ei). mrun. rewrite (pc_defer _ Hcfg).
  set (r' := with_is_prefill_chunk _ _).
  assert (running_ok cfg (kv_cache_manager s) r') as Hok' by (by apply running_advance).
  assert (sched_ok cfg (store r' s) ql []) as Hs1 by (by apply (touch_running s ql [] i r)).
  set (s' := if is_prefill_chunk r' then _ else _).
  assert (sched_view s' = sched_view (store r' s)) as Ev by (unfold s'; by destruct (is_prefill_chunk r')).
  assert (env_ok s') as He by (pose proof (so_env _ _ _ _ Hs) as [? ? ? ?]; unfold s'; destruct (is_prefill_chunk r'); by split).
  eexists _, s'. split; [reflexivity|]. split; [by apply (sched_ext (store r' s))|]. split_and!.
  - unfold s'. by destruct (is_prefill_chunk r').
  - unfold s'. by destruct (is_prefill_chunk r').
  - apply (entry_ext _ (store r' s)); [done|]. exists i, r'. split_and!; try done.
    + cbn. rewrite Epy. apply lookup_insert_eq.
    + cbn. pose proof (ro_computed _ _ _ Hok). destruct Hadv. split; cbn; lia.
  - intros R y Hne Hy. apply (entry_ext _ (store r' s)); [done|]. by apply (entry_store R s i r r' id).
Qed.

Lemma advance_all_ok toks b s ql :
  NoDup toks.*1 → sched_ok cfg s ql [] → (∀ x, x ∈ toks → entry (to_advance (kv_cache_manager s)) s x) →
  ∃ b' s', foldM (advance_request cfg) (b, s) toks = Ok (b', s') ∧ sched_ok cfg s' ql [] ∧ running s' = running s ∧
    (∀ x, x ∈ toks → entry advanced s' x) ∧
    (∀ (R : Request → Z → Prop) y, y.1 ∉ toks.*1 → entry R s y → entry R s' y).
Proof.
  revert b s. induction toks as [|x toks IH]; intros b s Hnd Hs Hall; cbn [foldM].
  { exists b, s. split_and!; try done. by intros x ?%not_elem_of_nil. }
  cbn in Hnd. apply NoDup_cons in Hnd as [Hx Hnd].
  destruct (advance_request_ok b s ql x Hs) as (b1 & s1 & -> & Hs1 & Er1 & Ek1 & Hadv & Hoth); [apply Hall; by left|].
  mrun. destruct (IH b1 s1 Hnd Hs1) as (b' & s' & -> & Hs' & Er' & Hall' & Hoth').
  { intros y Hy. rewrite Ek1. apply Hoth; [|apply Hall; by right]. intros Eq. apply Hx. rewrite <- Eq. by apply list_elem_of_fmap_2. }
  exists b', s'. split; [done|]. split; [done|]. split; [congruence|]. split.
  - intros y [->|Hy]%elem_of_cons; [|auto]. by apply Hoth'.
  - intros R y Hy Hr. cbn in Hy. apply not_elem_of_cons in Hy as [Hy1 Hy2]. by apply Hoth', Hoth.
Qed.

(** The asynchronous scheduler adds placeholders for sampled tokens. *)
Lemma add_placeholders_ok o b s ql x :
  sched_ok cfg s ql [] → entry advanced s x → s.(_spec_token_placeholders) = [] →
  ∃ b' s', add_placeholders cfg o (b, s) x = Ok (b', s') ∧ sched_ok cfg s' ql [] ∧ running s' = running s ∧
    s'.(_spec_token_placeholders) = [] ∧ ∀ y, entry advanced s y → entry advanced s' y.
Proof.
  intros Hs Hent Hph. pose proof Hent as (i & r & Ed & Hi & Ei & Eid & Hadv). destruct x as [id n]. cbn [fst snd] in *.
  pose proof (so_live _ _ _ _ Hs) as Hl. destruct (lv_run _ _ _ _ _ _ Hl i Hi) as (r0 & E0 & Hok).
  rewrite Ei in E0. injection E0 as <-. pose proof (lv_objs _ _ _ _ _ _ Hl i r Ei) as Epy.
  unfold add_placeholders. rewrite Ed. cbn [of_option]. mrun. rewrite (deref_ok _ _ _ Ei). mrun.
  destruct (is_prefill_chunk r); [by exists b, s|]. rewrite Hph.
  set (r' := if use_v2_model_runner cfg then _ else _).
  assert (request_id r' = request_id r ∧ py_id r' = i ∧ num_computed_tokens r' = num_computed_tokens r) as (E1 & E2 & E3).
  { unfold r'. by destruct (use_v2_model_runner cfg). }
  assert (running_ok cfg (kv_cache_manager s) r') as Hok'.
  { destruct Hok as [F S2 S3 S4 S5]. pose proof (pc_sampled _ Hcfg). pose proof (rf_placeholders _ _ F) as F6.
    assert (num_output_placeholders r ≤ num_output_placeholders r') as Hle by (unfold r'; destruct (use_v2_model_runner cfg); cbn; lia).
    assert (num_tokens r' = num_tokens r) as Ent by (unfold r'; by destruct (use_v2_model_runner cfg)).
    split; rewrite ?E1, ?E3, ?Ent; try done || lia; [|unfold r'; by destruct (use_v2_model_runner cfg)].
    apply (fits_change cfg r); [|lia|unfold r'; by destruct (use_v2_model_runner cfg)|done].
    unfold r', fits_view. rewrite (rf_spec _ _ F). by destruct (use_v2_model_runner cfg). }
  eexists _, (store r' s). split; [reflexivity|]. split; [by apply (touch_running s ql [] i r)|]. split_and!; try done.
  intros y (j & rj & G1 & G2 & G3 & G4 & G5). destruct (decide (j = i)) as [->|Hji].
  - rewrite Ei in G3. injection G3 as <-. exists i, r'. cbn. rewrite E2, lookup_insert_eq. split_and!; try done; [congruence|].
    unfold advanced. by rewrite E3.
  - exists j, rj. cbn. rewrite E2, lookup_insert_ne by done. done.
Qed.

Lemma placeholders_all_ok o toks b s ql :
  sched_ok cfg s ql [] → (∀ x, x ∈ toks → entry advanced s x) → s.(_spec_token_placeholders) = [] →
  ∃ b' s', foldM (add_placeholders cfg o) (b, s) toks = Ok (b', s') ∧ sched_ok cfg s' ql [] ∧ running s' = running s ∧
    ∀ y, entry advanced s y → entry advanced s' y.
Proof.
  revert b s. induction toks as [|x toks IH]; intros b s Hs Hall Hph; cbn [foldM]; [by exists b, s|].
  destruct (add_placeholders_ok o b s ql x Hs) as (b1 & s1 & -> & Hs1 & Er & Hph1 & Hent); [apply Hall; by left|done|].
  mrun. destruct (IH b1 s1 Hs1) as (b' & s' & -> & Hs' & Er' & Hent'); [|done|].
  - intros y Hy. apply Hent, Hall. by right.
  - exists b', s'. split_and!; try done; [congruence|auto].
Qed.

(** The set of ids and the placeholders are not part of the invariant. *)
Lemma env_view s s' :
  connector s' = connector s → ec_connector s' = ec_connector s → encoder_cache_manager s' = encoder_cache_manager s →
  num_waiting_for_streaming_input s' = num_waiting_for_streaming_input s → env_ok s → env_ok s'.
Proof. intros E1 E2 E3 E4 []. split; by rewrite ?E1, ?E2, ?E3, ?E4. Qed.

Lemma update_after_schedule_ok o s ql :
  NoDup (num_scheduled_tokens o).*1 → sched_ok cfg s ql [] → num_spec_tokens_to_schedule o = 0 →
  (∀ x, x ∈ num_scheduled_tokens o → entry (to_advance (kv_cache_manager s)) s x) →
  ∃ h p s', _update_after_schedule cfg o s = Ok (with_structured h p o, s') ∧ sched_ok cfg s' ql [] ∧
    running s' = running s ∧ ∀ x, x ∈ num_scheduled_tokens o → entry advanced s' x.
Proof.
  intros Hnd Hs Hk Hall.
  assert (∃ h s', base_update_after_schedule cfg o s = Ok (with_structured h (pending_structured_output_tokens o) o, s') ∧
    sched_ok cfg s' ql [] ∧ running s' = running s ∧ ∀ x, x ∈ num_scheduled_tokens o → entry advanced s' x)
    as (h & s1 & Eb & Hs1 & Er1 & Hadv).
  { unfold base_update_after_schedule.
    destruct (advance_all_ok (num_scheduled_tokens o) (has_structured_output_requests o) s ql Hnd Hs Hall)
      as (h & s1 & -> & Hs1 & Er1 & Hadv & _). mrun.
    eexists h, _. split; [reflexivity|]. split; [|split; [done|]].
    - eapply (sched_ext s1); [|done|done]. by apply (env_view s1), (so_env _ _ _ _ Hs1).
    - intros x Hx. by apply (entry_ext _ s1), Hadv. }
  unfold _update_after_schedule. destruct (async_scheduling cfg); cycle 1.
  { eexists h, _, s1. by rewrite Eb. }
  unfold async_update_after_schedule. rewrite Eb. mrun.
  change (num_spec_tokens_to_schedule (with_structured _ _ o)) with (num_spec_tokens_to_schedule o). rewrite Hk.
  change (replicate (Z.to_nat 0) (-1)) with (@nil Z). set (s2 := set_spec_token_placeholders [] s1).
  change (num_scheduled_tokens (with_structured _ _ o)) with (num_scheduled_tokens o).
  destruct (placeholders_all_ok (with_structured h (pending_structured_output_tokens o) o) (num_scheduled_tokens o)
    (pending_structured_output_tokens (with_structured h (pending_structured_output_tokens o) o)) s2 ql)
    as (p & s3 & -> & Hs3 & Er3 & Hent).
  - eapply (sched_ext s1); [|done|done]. by apply (env_view s1), (so_env _ _ _ _ Hs1).
  - intros x Hx. by apply (entry_ext _ s1), Hadv.
  - done.
  - mrun. eexists h, p, s3. split; [reflexivity|]. split; [done|]. split; [by rewrite Er3|].
    intros x Hx. by apply Hent, (entry_ext _ s1), Hadv.
Qed.

(** ** The output *)

Lemma new_data_ok B l ql v2 i : step_ok B l ql → i ∈ did l → ∃ d, new_request_data l v2 i = Ok d.
Proof.
  intros [_ Ha _ _ _] Hi. destruct (ac_ok _ _ _ _ _ _ _ _ Ha i Hi) as (r & n & b & Ei & _ & Eb & _).
  unfold new_request_data. rewrite (deref_ok _ _ _ Ei). mrun. rewrite Eb. cbn [of_option]. mrun. eauto.
Qed.

Lemma cached_data_ok B l ql acc x : step_ok B l ql → x.2 ∈ did l → ∃ acc', cached_request_data cfg l acc x = Ok acc'.
Proof.
  intros [_ Ha _ _ _] Hi. destruct (ac_ok _ _ _ _ _ _ _ _ Ha _ Hi) as (r & n & b & Ei & En & Eb & _).
  unfold cached_request_data. destruct x as [resumed i]. cbn [snd] in *. rewrite (deref_ok _ _ _ Ei). mrun. rewrite En, Eb.
  cbn [of_option]. destruct ((pp_size cfg >? 1) && _); mrun; cbn [of_option]; mrun; eauto.
Qed.

Lemma freed_hashes_ok s : env_ok s → env_ok (set_encoder_cache_manager (enc_get_freed_mm_hashes (encoder_cache_manager s)).2 s).
Proof. intros [E1 E2 (e & Ee & He) E4]. split; try done. cbn. rewrite Ee. cbn. by eexists. Qed.

Lemma make_output_ok B total ns l ql :
  step_ok B l ql → total = sum_values (tokens_of l) →
  ∃ o s', make_output cfg total ns l = Ok (o, s') ∧ sched_ok cfg s' ql [] ∧ running s' = running (sch l) ∧
    num_scheduled_tokens o = tokens_of l ∧ total_num_scheduled_tokens o = total ∧
    scheduled_spec_decode_tokens o = [] ∧
    ∀ x, x ∈ tokens_of l → entry advanced s' x.
Proof.
  intros Hok ->. unfold make_output. pose proof Hok as [Hs Ha Hsub _ _].
  destruct (mapR_total (new_request_data l (use_v2_model_runner cfg))
    (if use_v2_model_runner cfg then new_reqs l ++ resumed_reqs l else new_reqs l)) as [nd ->].
  { intros i Hi. eapply new_data_ok; [exact Hok|]. unfold did. destruct (use_v2_model_runner cfg); set_solver. }
  mrun. unfold _make_cached_request_data.
  match goal with |- context [foldM (cached_request_data cfg l) ?a ?xs] =>
    destruct (foldM_total (cached_request_data cfg l) xs a) as [cd ->] end.
  { intros acc x Hx. eapply cached_data_ok; [exact Hok|].
    apply elem_of_app in Hx as [(i & -> & Hi)%list_elem_of_fmap|(i & -> & Hi)%list_elem_of_fmap]; cbn; unfold did;
      [set_solver|]. destruct (use_v2_model_runner cfg); set_solver. }
  mrun. set (s1 := if use_v2_model_runner cfg then sch l else _).
  assert (sched_ok cfg s1 ql [] ∧ running s1 = running (sch l) ∧ kv_cache_manager s1 = kv_cache_manager (sch l) ∧
    sched_view s1 = sched_view (sch l)) as (Hs1 & Er1 & Ek1 & Ev1).
  { unfold s1. destruct (use_v2_model_runner cfg); [done|]. split_and!; try done.
    eapply (sched_ext (sch l)); [|done|done]. by apply (env_view (sch l)), (so_env _ _ _ _ Hs). }
  pose proof (new_ids_promise _ (lv_kv _ _ _ _ _ _ (so_live _ _ _ _ Hs1))) as [Hk2 Hq2].
  destruct (kvm_take_new_block_ids (kv_cache_manager s1)) as [ids k2] eqn:Ek2. cbn [snd] in Hk2, Hq2.
  pose proof (sched_quiet s1 ql [] k2 Hs1 Hk2 Hq2) as Hs2. set (s2 := set_kv_cache_manager k2 s1) in *.
  rewrite (pc_dynamic _ Hcfg), (pc_spec _ Hcfg), (pc_defer _ Hcfg). mrun.
  pose proof (freed_hashes_ok s2 (so_env _ _ _ _ Hs2)) as He3.
  destruct (enc_get_freed_mm_hashes (encoder_cache_manager s2)) as [freed e3]. cbn [snd] in He3.
  set (s3 := set_encoder_cache_manager e3 s2) in *.
  assert (sched_ok cfg s3 ql []) as Hs3 by (by eapply (sched_ext s2)).
  rewrite (en_connector _ He3), (en_ec _ He3). cbn [andb].
  set (o := mkSchedulerOutput _ _ _ _ _ _ _ _ _ _ _ _ _ _ _).
  destruct (update_after_schedule_ok o s3 ql) as (h & p & s' & -> & Hs' & Er' & Hadv).
  - apply (ac_toks _ _ _ _ _ _ _ _ Ha).
  - done.
  - done.
  - intros x Hx. destruct (account_entries B l ql x Hok Hx) as (i & r & D1 & D2 & D3 & D4 & D5 & D6 & D7 & D8).
    unfold sched_view in Ev1. injection Ev1 as V1 V2 V3 V4 V5 V6.
    exists i, r. cbn. rewrite V1, V2, V4. split_and!; try done. split_and!; try done. rewrite Ek1 in Hq2. by eapply quiet_holds.
  - eexists _, s'. split; [reflexivity|]. split; [done|]. split; [by rewrite Er'|].
    split; [done|]. split; [done|]. split; [apply (sk_enc _ _ _ Hok)|done].
Qed.

(** ** The invariant between calls, and the step *)

Definition sched_inv s : Prop :=
  ∃ ql, sched_ok cfg s ql [] ∧ zlen (running s) ≤ max_num_running_reqs cfg.

Lemma start_inv s ql :
  sched_ok cfg s ql [] → zlen (running s) ≤ max_num_running_reqs cfg →
  ∃ B, B ≤ max_num_scheduled_tokens cfg ∧ run_inv cfg B (start_step cfg s) (ql Waiting) (ql Skipped) ∧
    splits (start_step cfg s) [] (running s).
Proof.
  intros [Henv Hl Hr] Hmax. pose proof (pc_budget _ Hcfg) as Hb.
  set (B := match s.(_pause_state) with PAUSED_ALL => 0 | _ => max_num_scheduled_tokens cfg end).
  exists B. assert (0 ≤ B ≤ max_num_scheduled_tokens cfg) as HB by (unfold B; destruct (s.(_pause_state)); lia).
  split; [lia|]. split; [|split_and!; [done|done|by intros j ?%not_elem_of_nil]].
  split; try done; [|apply (Hr Waiting)|apply (Hr Skipped)|].
  - cbn. by rewrite app_nil_r in Hl.
  - split; cbn; try done; try constructor; try lia. by intros j ?%not_elem_of_nil.
Qed.

(** What a step reports about its tokens. *)
Record output_ok (o : SchedulerOutput) s : Prop := {
  oo_total : total_num_scheduled_tokens o = sum_values (num_scheduled_tokens o);
  oo_budget : 0 ≤ total_num_scheduled_tokens o ≤ max_num_scheduled_tokens cfg;
  oo_spec : scheduled_spec_decode_tokens o = [];
  oo_keys : NoDup (num_scheduled_tokens o).*1;
  oo_entries id n : (id, n) ∈ num_scheduled_tokens o →
    ∃ i r, i ∈ running s ∧ objects s !! i = Some r ∧ request_id r = id ∧ 0 < n ≤ num_computed_tokens r ∧
      kv_holds (kv_cache_manager s) id (num_computed_tokens r);
}.

Lemma schedule_steps throttle s :
  sched_inv s → ∃ o s', schedule cfg throttle s = Ok (o, s') ∧ sched_inv s' ∧ output_ok o s'.
Proof.
  intros (ql & Hs & Hmax). unfold schedule.
  set (s1 := set_kv_cache_manager _ (set_current_step _ s)).
  assert (sched_ok cfg s1 ql []) as Hs1.
  { destruct (new_step_promise _ (lv_kv _ _ _ _ _ _ (so_live _ _ _ _ Hs))) as [Hk Hq].
    apply sched_quiet; [|done|done]. eapply (sched_ext s); [|done|done]. by apply (env_view s), (so_env _ _ _ _ Hs). }
  change (running s) with (running s1) in Hmax. pose proof (so_live _ _ _ _ Hs1) as Hl.
  destruct (mapR_total (λ i, r ← deref i s1; Ok (negb (is_prefill_chunk r))) (running s1)) as [dec ->].
  { intros i Hi. destruct (lv_run _ _ _ _ _ _ Hl i Hi) as (r & Ei & _). rewrite (deref_ok _ _ _ Ei). mrun. eauto. }
  mrun. set (defer := throttle && _ && _).
  destruct (start_inv s1 ql Hs1 Hmax) as (B & HB & Hrun & Hsp).
  destruct (running_loop_ok cfg Hcfg B (length (running s1)) defer _ _ _ _ _ Hrun Hsp)
    as (l1 & wl & A & T & -> & Hrun1 & Hsp1); [unfold left_; cbn; lia|].
  mrun. unfold record_running_loras. rewrite (pc_lora _ Hcfg). mrun.
  assert (step_ok B (put_scheduled_loras ∅ l1) (two_lists wl (ql Skipped))) as Hok by (destruct (run_step _ _ _ _ _ _ Hrun1 Hsp1); by split).
  destruct (schedule_waiting_ok B defer _ _ Hok) as (l2 & ql2 & -> & Hok2). mrun.
  rewrite (check_constraints_ok B l2 ql2 Hok2 HB). mrun.
  destruct (common_prefix_blocks_ok B l2 ql2 Hok2) as (ns & k3 & -> & Hok3). mrun.
  set (l3 := put_sch _ l2) in *.
  destruct (make_output_ok B (sum_values (tokens_of l2)) ns l3 ql2 Hok3 eq_refl) as (o & s' & -> & Hs' & Er' & Et & Etot & Esp & Hent).
  exists o, s'. split; [done|]. split.
  { exists ql2. split; [done|]. rewrite Er'. apply (sk_max _ _ _ Hok3). }
  pose proof (sk_acc _ _ _ Hok3) as Ha. pose proof (ac_sum _ _ _ _ _ _ _ _ Ha) as Esum.
  pose proof (ac_pos _ _ _ _ _ _ _ _ Ha) as Hpos. change (tokens_of l3) with (tokens_of l2) in *.
  split; rewrite ?Etot, ?Et.
  - done.
  - split; [|lia]. apply sum_values_nonneg. intros id n Hin. destruct (Hent _ Hin) as (i & r & _ & _ & _ & _ & Hn). cbn in Hn.
    destruct Hn. lia.
  - done.
  - apply (ac_toks _ _ _ _ _ _ _ _ Ha).
  - intros id n Hin. destruct (Hent _ Hin) as (i & r & _ & Hi & Ei & Eid & Hn). cbn in Eid. subst id. exists i, r. split_and!; try done; try apply Hn.
    destruct (lv_run _ _ _ _ _ _ (so_live _ _ _ _ Hs') i Hi) as (r0 & E0 & Hr0). rewrite Ei in E0. injection E0 as <-.
    apply (ro_holds _ _ _ Hr0).
Qed.

End ScheduleOk.
