(* ===== verification/UpdateInv.v ===== *)
(** * Processing the output of a step keeps the invariant

    [update_from_output] returns for every output of the model that answers a
    scheduled step, and the invariant of the scheduler holds again: sampled
    tokens are appended, a request that stops is freed and leaves.

    Scope: that of [SchedInv], in the synchronous scheduler, where a step is
    processed before the next one is scheduled. *)

From S2P Require Import Prelude MathUtils Request BlockHash KVMetrics FreeQueue BlockPool.
From S2P Require Import SingleTypeManager ManagerInv Coordinator HybridHit CacheStats KVCacheManager.
From S2P Require Import KVReachable KVContract EncoderCache Heapq RequestQueue SchedUtils.
From S2P Require Import PyDict SchedState Scheduler Schedule UpdateOutput SchedInv ScheduleInv WaitingInv ScheduleOk.

Local Open Scope Z_scope.

(** What [should_advance] asserts of a request whose grammar advances. *)
Class StructuredOutputSpec (G : Type) `{!StructuredOutput G} :=
  so_advance r (g g' : G) : should_advance r g = (true, g') → has_structured_output r = true ∧ grammar_ready r g' = true.

Section UpdateInv.
Context {Q : Type} `{!FreeQueueOps Q} `{!FreeQueueSpec Q} {env : PoolEnv}.
Context {WQ : Type} `{!RequestQueueOps WQ} `{!RequestQueueSpec WQ} `{!QueueAlias WQ}.
Context {C E G : Type} `{!KVConnector C} `{!ECConnector E} `{!StructuredOutput G} `{!StructuredOutputSpec G}.
Context (cfg : SchedulerConfig) (Hcfg : plain_config cfg) `{!HashChain (Q := Q) (block_hasher cfg)}.
Context (Hsync : async_scheduling cfg = false).
Abbreviation sched := (Scheduler Q WQ C E G).
Implicit Types (s : sched) (r : Request) (i j : nat) (ql : queue_lists).
Implicit Types (objs : gmap nat Request) (k : KVCacheManager Q) (run ws st rem : list nat).

(** ** Sampled tokens *)

(** In scope, but its prefill statistics may be out of date. *)
Definition fits0 r : Prop := request_fits cfg (with_prefill_stats None r).

Lemma fits_fits0 r : request_fits cfg r → fits0 r.
Proof. intros H. pose proof (rf_placeholders _ _ H). apply (fits_change cfg r); try done. by intros [? ?]. Qed.

(** What appending tokens does not change. *)
Definition token_frame r :=
  (request_id r, py_id r, num_computed_tokens r, num_output_placeholders r, resumable r, mm_features r,
   (sampling_params r, pooling_params r, client_index r)).

Lemma extended_facts toks r r' :
  extended toks r r' → token_frame r' = token_frame r ∧ status r' = status r ∧ num_tokens r' = num_tokens r + zlen toks ∧
    r'.(_output_token_ids) = r.(_output_token_ids) ++ toks ∧ num_output_tokens r' = num_output_tokens r + zlen toks ∧
    num_prompt_tokens r' = num_prompt_tokens r ∧ spec_token_ids r' = spec_token_ids r.
Proof.
  intros (hs & m & ->). split_and!; try done; unfold num_tokens, num_output_tokens; cbn; rewrite length_app; lia.
Qed.

Lemma append_one t r :
  fits0 r → ∃ r1, append_output_token_ids (block_hasher cfg) [t] r = Ok r1 ∧ extended [t] r r1 ∧
    chain_ok (with_prefill_stats None r1).
Proof.
  intros H. destruct (chain_append r [t]) as (r1 & E1 & Hx & Hc); [apply (rf_text _ _ H)| |].
  - by apply (chain_same (with_prefill_stats None r)), (rf_chain _ _ H).
  - exists r1. split; [done|]. split; [done|]. by apply (chain_same r1).
Qed.

Lemma append_check_one t r :
  fits0 r → ∃ r1 b r', append_output_token_ids (block_hasher cfg) [t] r = Ok r1 ∧
    check_stop r1 (sched_max_model_len cfg) = Ok (b, r') ∧ token_frame r' = token_frame r ∧ num_tokens r ≤ num_tokens r' ∧
    if (b : bool) then is_finished r' = true else fits0 r' ∧ status r' = status r.
Proof.
  intros H. destruct (append_one t r H) as (r1 & E1 & Hx & Hc). destruct (extended_facts _ _ _ Hx) as (X1 & X2 & X3 & X4 & X5 & X6 & X7).
  destruct H as [F1 F2 F3 F4 F5 F6 F7 F8 (sp & F9 & F9') F10 F11]. cbn in *.
  change (num_tokens (with_prefill_stats None r)) with (num_tokens r) in *.
  change (num_output_tokens (with_prefill_stats None r)) with (num_output_tokens r) in *.
  unfold token_frame in X1. injection X1 as Y1 Y2 Y3 Y4 Y5 Y6 Y7 Y8 Y9.
  destruct (check_stop_ok r1 sp (sched_max_model_len cfg) t) as (b & r' & Ec & Hstop & Hno & Hyes); [congruence|congruence|by rewrite X4, last_snoc|].
  exists r1, b, r'. split; [done|]. split; [done|]. destruct b.
  - destruct (Hyes eq_refl) as (Hfin & (st & sr & ->) & _). split; [unfold token_frame; cbn; congruence|].
    split; [|done]. change (num_tokens (with_stop_reason _ _)) with (num_tokens r1). cbn [length] in X3. lia.
  - rewrite (Hno eq_refl) in *. split; [unfold token_frame; congruence|]. cbn [length] in X3, X5. split; [lia|]. split; [|done].
    assert (num_tokens r1 < sched_max_model_len cfg) as Hlt.
    { destruct (Z.lt_ge_cases (num_tokens r1) (sched_max_model_len cfg)) as [|Hge]; [done|].
      exfalso. assert (false = true) as Habs; [|done]. apply Hstop. split; [lia|]. right. left. by left. }
    pose proof (pc_sampled _ Hcfg) as Hs.
    split; cbn; change (num_tokens (with_prefill_stats None r1)) with (num_tokens r1);
      change (num_output_tokens (with_prefill_stats None r1)) with (num_output_tokens r1);
      rewrite ?Y4, ?Y5, ?Y6, ?Y8, ?X6, ?X7; try done || lia.
    exists sp. split; [congruence|done].
Qed.

Lemma append_and_check_ok toks kept r :
  fits0 r → ∃ kept' b r', append_and_check cfg kept toks r = Ok (kept', b, r') ∧ token_frame r' = token_frame r ∧
    num_tokens r ≤ num_tokens r' ∧ (kept ≠ [] ∨ toks ≠ [] → kept' ≠ []) ∧
    if (b : bool) then is_finished r' = true else fits0 r' ∧ status r' = status r.
Proof.
  revert kept r. induction toks as [|t toks IH]; intros kept r H; cbn [append_and_check].
  { exists kept, false, r. split_and!; try done. by intros [?|?]. }
  destruct (append_check_one t r H) as (r1 & b & r' & -> & Ec & Hf & Hn & Hb). mrun. rewrite Ec. mrun. destruct b.
  { exists (kept ++ [t]), true, r'. split_and!; try done. intros _ Hx. by destruct kept. }
  destruct Hb as [Hfit Hst]. destruct (IH (kept ++ [t]) r' Hfit) as (kept' & b & r2 & -> & Hf2 & Hn2 & Hk & Hb2).
  exists kept', b, r2. split; [done|]. split; [congruence|]. split; [lia|]. split.
  - intros _. apply Hk. left. intros Hx. by destruct kept.
  - destruct b; [done|]. destruct Hb2. split; [done|congruence].
Qed.

(** ** Stopped requests *)

(** A finished request is freed: [live] is the state before its status changed. *)
Lemma free_request_ok s r r0 i objs run ws run' ws' :
  env_ok s → live_inv cfg objs (requests s) (kv_cache_manager s) run ws → objs !! i = Some r0 →
  objects s = <[i := r]> objs → py_id r = i → request_id r = request_id r0 → is_finished r = true →
  run ++ ws ≡ₚ i :: run' ++ ws' → (∀ j, j ∈ run' → j ∈ run) → (∀ j, j ∈ ws' → j ∈ ws) →
  ∃ s', _free_request cfg r false s = Ok (None, s') ∧ env_ok s' ∧
    live_inv cfg (objects s') (requests s') (kv_cache_manager s') run' ws' ∧
    objects s' = objects s ∧ requests s' = dict_del (request_id r) (requests s) ∧
    running s' = running s ∧ waiting s' = waiting s ∧ skipped_waiting s' = skipped_waiting s.
Proof.
  intros Henv Hl E0 Eo Epy Eid Hfin Hp Hr Hw. unfold _free_request. rewrite Hfin. cbn [require]. mrun.
  unfold _connector_finished. cbn [connector set_inflight_prefills]. rewrite (en_connector _ Henv). mrun.
  change (encoder_cache_manager (set_inflight_prefills _ s)) with (encoder_cache_manager s).
  rewrite (enc_free_ok r s Henv). mrun. cbn [orb].
  set (s1 := match finished_req_ids_dict _ with None => _ | Some _ => _ end).
  assert (env_ok s1 ∧ objects s1 = objects s ∧ requests s1 = requests s ∧ kv_cache_manager s1 = kv_cache_manager s ∧
    running s1 = running s ∧ waiting s1 = waiting s ∧ skipped_waiting s1 = skipped_waiting s)
    as (Henv1 & V1 & V2 & V3 & V4 & V5 & V6).
  { unfold s1. destruct (finished_req_ids_dict _); split_and!; try done; by apply (env_view s). }
  unfold _free_blocks. rewrite Hfin. cbn [require]. mrun.
  destruct (free_request_blocks_ok cfg Hcfg r s1) as (k' & -> & Hk' & Ho & Hf); [rewrite V3; apply (lv_kv _ _ _ _ _ _ Hl)|].
  mrun. cbn [requests set_kv_cache_manager]. rewrite V2.
  assert (i ∈ run ++ ws) as Hi by (rewrite Hp; by left).
  rewrite Eid, (lv_ids _ _ _ _ _ _ Hl i r0 Hi E0). cbn [of_option]. mrun.
  eexists. split; [reflexivity|]. split; [by apply (env_view s1)|]. split; [|done].
  cbn. rewrite V1, Eo. rewrite V3, Eid in Ho. rewrite Eid in Hf. by eapply (live_remove cfg objs _ _ run ws i r0).
Qed.

(** ** One scheduled request *)

Lemma advance_grammar_ok i toks b s r :
  objects s !! i = Some r → py_id r = i →
  ∃ b' g r', advance_grammar i toks b s = Ok (b', set_structured_output_manager g (store r' s)) ∧
    (b' = b ∧ r' = r ∨ b' = true ∧ r' = with_resumable false (with_status FINISHED_ERROR r)).
Proof.
  intros Ei Epy. assert (store r s = s) as Hsame by (apply store_same; by rewrite Epy).
  assert (∀ g, ∃ b' g' r', Ok (b, set_structured_output_manager g s) = Ok (b', set_structured_output_manager g' (store r' s)) ∧
    (b' = b ∧ r' = r ∨ b' = true ∧ r' = with_resumable false (with_status FINISHED_ERROR r))) as Hkeep.
  { intros g. exists b, g, r. rewrite Hsame. auto. }
  unfold advance_grammar. destruct toks as [|t toks].
  { specialize (Hkeep (structured_output_manager s)). by replace (set_structured_output_manager _ s) with s in Hkeep by (by destruct s). }
  rewrite (deref_ok _ _ _ Ei). mrun. destruct (should_advance r _) as [adv g] eqn:Eadv. destruct adv; [|apply Hkeep].
  destruct (so_advance _ _ _ Eadv) as [-> ->]. cbn [require negb]. mrun.
  destruct (trim_reasoning_for_advance r (t :: toks) g) as [|t' toks']; [apply Hkeep|].
  destruct (accept_tokens (request_id r) (t' :: toks') g) as [ok g']. destruct ok.
  - apply (Hkeep g').
  - exists true, g', (with_resumable false (with_status FINISHED_ERROR r)). split; [done|]. by right.
Qed.

Record upd_inv s0 s ql st rem : Prop := {
  ui_env : env_ok s;
  ui_live : live_inv cfg (objects s) (requests s) (kv_cache_manager s) rem (py_id <$> queued ql);
  ui_reps n : rq_rep (get_queue n s) (ql n);
  ui_run : running s = running s0;
  ui_nodup : NoDup (running s0);
  ui_perm : running s0 ≡ₚ st ++ rem;
  ui_dict id i : dict_get id (requests s) = Some i → dict_get id (requests s0) = Some i;
}.

(** The model has an answer for the scheduled request [id]. *)
Definition answers (mo : ModelRunnerOutput) (id : string) : Prop :=
  ∃ idx toks, req_id_to_index mo !! id = Some idx ∧
    match sampled_token_ids mo with [] => Ok [] | l => py_get l idx end = Ok toks.
Record model_ok (so : SchedulerOutput) (mo : ModelRunnerOutput) : Prop := {
  mo_answers id n : (id, n) ∈ num_scheduled_tokens so → answers mo id;
  mo_pooler : pooler_output mo = [];
  mo_logprobs : prompt_logprobs mo = ∅;
  mo_connector : kv_connector_output mo = None;
}.

(** The scheduled step is one of this scheduler: what it scheduled and is still
    known runs. *)
Record step_of (so : SchedulerOutput) s : Prop := {
  sf_spec : scheduled_spec_decode_tokens so = [];
  sf_pos id n : (id, n) ∈ num_scheduled_tokens so → 0 < n;
  sf_run id n i : (id, n) ∈ num_scheduled_tokens so → dict_get id (requests s) = Some i → i ∈ running s;
}.

(** A running request gets new tokens and goes on. *)
Lemma go_on s0 s ql st rem i r r' g :
  upd_inv s0 s ql st rem → i ∈ rem → objects s !! i = Some r → running_ok cfg (kv_cache_manager s) r →
  token_frame r' = token_frame r → num_tokens r ≤ num_tokens r' → status r' = status r → fits0 r' →
  upd_inv s0 (store (with_prefill_stats None r') (set_structured_output_manager g (store r' s))) ql st rem.
Proof.
  intros [Henv Hl Hr Hrun Hnd0 Hp Hd] Hi Ei [Hfit R2 R3 R4 R5] Hf Hn Est Hfit'.
  unfold token_frame in Hf. injection Hf as Y1 Y2 Y3 Y4 Y5 Y6 Y7 Y8 Y9.
  assert (py_id r = i) as Epy by (by apply (lv_objs _ _ _ _ _ _ Hl)).
  split; try done.
  - by apply (env_view s).
  - cbn. rewrite Y2, Epy, insert_insert_eq.
    eapply (live_update cfg _ _ _ _ _ i r); try done; [apply elem_of_app; by left|cbn; congruence|apply (lv_kv _ _ _ _ _ _ Hl)|apply only_refl| |].
    + intros _. split; [done|cbn; congruence|..]; cbn; change (num_tokens (with_prefill_stats None r')) with (num_tokens r');
        rewrite ?Y1, ?Y3, ?Y4; try done || lia.
    + intros Hw. pose proof (lv_nodup _ _ _ _ _ _ Hl) as Hnd. apply NoDup_app in Hnd as (_ & Hx & _). by destruct (Hx i).
Qed.

(** A running request has finished: it is freed. *)
Lemma stop_ok s0 s ql st rem i r r' g a :
  upd_inv s0 s ql st rem → i ∈ rem → objects s !! i = Some r →
  request_id r' = request_id r → py_id r' = i → resumable r' = false → is_finished r' = true →
  let s1 := set_structured_output_manager g (store r' s) in
  ∃ fr s' rem', stop_request cfg i RUNNING a s1 =
      Ok (fr, None, mkUpdateAcc (ua_outputs a) (ua_stopped_running a ++ [i]) (ua_stopped_preempted a), s') ∧
    objects s' !! i = Some r' ∧ (∀ r2, py_id r2 = i → upd_inv s0 (store r2 s') ql (st ++ [i]) rem').
Proof.
  intros [Henv Hl Hr Hrun Hnd0 Hp Hd] Hi Ei Eid Epy Hres Hfin s1.
  assert (objects s1 !! i = Some r') as Ei1 by (cbn; rewrite Epy; apply lookup_insert_eq).
  unfold stop_request, _handle_stopped_request. rewrite (deref_ok _ _ _ Ei1). mrun. rewrite Hres. cbn [negb]. mrun. rewrite (deref_ok _ _ _ Ei1). mrun.
  apply list_elem_of_split in Hi as (rem1 & rem2 & ->).
  destruct (free_request_ok s1 r' r i (objects s) (rem1 ++ i :: rem2) (py_id <$> queued ql) (rem1 ++ rem2) (py_id <$> queued ql))
    as (s' & -> & Henv' & Hl' & E1 & E2 & E3 & E4 & E5); try done.
  { by apply (env_view s). } { cbn. by rewrite Epy. } { by rewrite <- Permutation_middle. } { set_solver. }
  mrun. rewrite bool_decide_eq_true_2 by done.
  eexists _, s', (rem1 ++ rem2). split; [reflexivity|]. split; [by rewrite E1|]. intros r2 Er2. split.
  - by apply (env_view s').
  - cbn. apply live_garbage; [done|]. rewrite Er2. pose proof (lv_nodup _ _ _ _ _ _ Hl) as Hnd.
    rewrite <- Permutation_middle in Hnd. cbn in Hnd. by apply NoDup_cons in Hnd as [? _].
  - intros n. specialize (Hr n). destruct n; cbn in *; [by rewrite E4|by rewrite E5].
  - cbn. by rewrite E3.
  - done.
  - rewrite Hp, <- app_assoc. cbn. by rewrite <- !Permutation_middle.
  - cbn. rewrite E2. intros id j Hj. apply Hd. change (requests s1) with (requests s) in Hj.
    rewrite dict_get_del in Hj by apply (lv_keys _ _ _ _ _ _ Hl). by case_decide.
Qed.

Lemma take_stats_eq r : (take_prefill_stats r).2 = with_prefill_stats None r.
Proof. unfold take_prefill_stats. destruct (prefill_stats r) eqn:Ep; [done|]. cbn. destruct r; cbn in *; by subst. Qed.

Lemma base_update_ok i s r toks :
  objects s !! i = Some r → fits0 r → toks ≠ [] →
  ∃ kept b r', base_update_request_with_output cfg i toks s = Ok (kept, b, store r' s) ∧ token_frame r' = token_frame r ∧
    num_tokens r ≤ num_tokens r' ∧ kept ≠ [] ∧
    if (b : bool) then is_finished r' = true else fits0 r' ∧ status r' = status r.
Proof.
  intros Ei Hf Hne. unfold base_update_request_with_output. rewrite (deref_ok _ _ _ Ei). mrun.
  destruct (append_and_check_ok toks [] r Hf) as (kept & b & r' & -> & H1 & H2 & H3 & H4). mrun.
  exists kept, b, r'. split_and!; auto.
Qed.

(** The rest of an iteration, once tokens have been appended. *)
Lemma settle_ok s0 s ql st rem i r r1 (b : bool) a kept :
  upd_inv s0 s ql st rem → i ∈ rem → objects s !! i = Some r → running_ok cfg (kv_cache_manager s) r →
  token_frame r1 = token_frame r → num_tokens r ≤ num_tokens r1 →
  (if b then is_finished r1 = true else fits0 r1 ∧ status r1 = status r) →
  ua_stopped_running a = st → ua_stopped_preempted a = [] →
  ∃ b' s2 fr a2 s3 r3, advance_grammar i kept b (store r1 s) = Ok (b', s2) ∧
    (if b' then stop_request cfg i RUNNING a s2 else Ok (None, None, a, s2)) = Ok (fr, None, a2, s3) ∧
    objects s3 !! i = Some r3 ∧ py_id r3 = i ∧ ∃ st' rem', ua_stopped_running a2 = st' ∧ ua_stopped_preempted a2 = [] ∧
      upd_inv s0 (store (with_prefill_stats None r3) s3) ql st' rem'.
Proof.
  intros Hinv Hi Ei Hok Hf Hn Hb Ha1 Ha2. pose proof (ui_live _ _ _ _ _ Hinv) as Hl.
  assert (py_id r = i) as Epy by (by apply (lv_objs _ _ _ _ _ _ Hl)).
  pose proof Hf as Hf'. unfold token_frame in Hf'. injection Hf' as Y1 Y2 Y3 Y4 Y5 Y6 Y7 Y8 Y9.
  assert (py_id r1 = i) as Epy1 by congruence.
  assert (objects (store r1 s) !! i = Some r1) as Ei1 by (cbn; rewrite Epy1; apply lookup_insert_eq).
  destruct (advance_grammar_ok i kept b (store r1 s) r1 Ei1 Epy1) as (b' & g & r2 & -> & Hr2).
  assert (set_structured_output_manager g (store r2 (store r1 s)) = set_structured_output_manager g (store r2 s) ∧
    py_id r2 = i ∧ request_id r2 = request_id r) as (Es & Epy2 & Eid2).
  { assert (py_id r2 = i ∧ request_id r2 = request_id r) as [Ex Ey] by (destruct Hr2 as [[_ ->]|[_ ->]]; split; done || cbn; congruence).
    split; [|done]. unfold store. cbn. rewrite Ex, Epy1, insert_insert_eq. done. }
  rewrite Es. destruct b'.
  - (* it stops *)
    assert (is_finished r2 = true ∧ resumable r2 = false) as [Hfin Hres].
    { pose proof (rf_final _ _ (ro_fits _ _ _ Hok)) as Hrf. destruct Hr2 as [[<- ->]|[_ ->]]; [|done]. split; [done|congruence]. }
    destruct (stop_ok s0 s ql st rem i r r2 g a Hinv Hi Ei Eid2 Epy2 Hres Hfin) as (fr & s' & rem' & Estop & Ei' & Hstop).
    eexists true, _, fr, _, s', r2. split; [reflexivity|]. split; [exact Estop|]. split; [done|]. split; [done|].
    exists (st ++ [i]), rem'. split; [cbn; by rewrite Ha1|]. split; [done|]. by apply Hstop.
  - (* it goes on *)
    destruct Hr2 as [[<- ->]|[? _]]; [|done]. destruct Hb as [Hfit Hst].
    eexists false, _, None, a, _, r1. split; [reflexivity|]. split; [reflexivity|]. split; [done|]. split; [done|].
    exists st, rem. split; [done|]. split; [done|]. by eapply (go_on s0 s ql st rem i r r1 g).
Qed.

Lemma update_one_ok so mo s0 s ql st rem a x :
  upd_inv s0 s ql st rem → ua_stopped_running a = st → ua_stopped_preempted a = [] →
  model_ok so mo → step_of so s0 → x ∈ num_scheduled_tokens so →
  (∀ i, dict_get x.1 (requests s0) = Some i → i ∉ py_id <$> queued ql) →
  ∃ a' s' st' rem', update_one cfg so mo [] (a, s) x = Ok (a', s') ∧ upd_inv s0 s' ql st' rem' ∧
    ua_stopped_running a' = st' ∧ ua_stopped_preempted a' = [].
Proof.
  intros Hinv Ha1 Ha2 [Hans Hpool Hlog Hconn] [Hspec Hpos _] Hx Hq. destruct x as [id n]. cbn [fst] in Hq.
  pose proof (Hpos id n Hx) as Hn. destruct (Hans id n Hx) as (idx & toks & Eidx & Etoks). unfold update_one.
  rewrite Z.gtb_ltb, (proj2 (Z.ltb_lt 0 n)) by done. cbn [require]. mrun.
  rewrite bool_decide_eq_false_2 by apply not_elem_of_nil.
  destruct (dict_get id (requests s)) as [i|] eqn:Ed; [|by exists a, s, st, rem].
  pose proof (ui_live _ _ _ _ _ Hinv) as Hl. destruct (lv_dict _ _ _ _ _ _ Hl id i Ed) as (Hin & r & Ei & Eid).
  assert (i ∈ rem) as Hi.
  { apply elem_of_app in Hin as [?|Hw]; [done|]. by destruct (Hq i (ui_dict _ _ _ _ _ Hinv _ _ Ed)). }
  destruct (lv_run _ _ _ _ _ _ Hl i Hi) as (r0 & E0 & Hok). rewrite Ei in E0. injection E0 as <-.
  assert (py_id r = i) as Epy by (by apply (lv_objs _ _ _ _ _ _ Hl)). pose proof (ro_fits _ _ _ Hok) as Hfit.
  rewrite (deref_ok _ _ _ Ei). mrun.
  assert (is_finished r = false) as -> by (unfold is_finished; by rewrite (ro_status _ _ _ Hok)).
  rewrite Eidx. cbn [of_option]. mrun. rewrite Etoks. mrun. rewrite Hspec. cbn [dict_get reject_drafts].
  rewrite (text_only cfg r Hfit). mrun. rewrite Hpool. mrun.
  rewrite (store_same s r) by (by rewrite Epy). rewrite (ro_status _ _ _ Hok). destruct toks as [|t toks].
  - (* nothing sampled *)
    rewrite (rf_pooling _ _ Hfit). rewrite (bool_decide_eq_false_2 (is_Some None)) by (by intros [? ?]). rewrite ?andb_false_r. mrun.
    unfold advance_grammar. mrun. rewrite (deref_ok _ _ _ Ei). mrun. cbn [bool_decide negb orb].
    rewrite (bool_decide_eq_true_2 ([] = [])) by done. rewrite !(bool_decide_eq_false_2 (is_Some None)) by (by intros [? ?]).
    cbn [negb orb]. rewrite bool_decide_eq_false_2 by (rewrite Hlog; set_solver). cbn [negb require]. mrun.
    by exists a, s, st, rem.
  - unfold _update_request_with_output. rewrite Hsync.
    destruct (base_update_ok i s r (t :: toks) Ei (fits_fits0 r Hfit)) as (kept & b & r1 & -> & Hf & Hnt & Hk & Hb); [done|].
    mrun. destruct (settle_ok s0 s ql st rem i r r1 b a kept) as (b' & s2 & fr & a2 & s3 & r3 & -> & Est & Ei3 & Epy3 & st' & rem' & B1 & B2 & Hinv'); try done.
    mrun. rewrite Est. mrun. rewrite (deref_ok _ _ _ Ei3). mrun. rewrite (bool_decide_eq_false_2 (kept = [])) by done. cbn [negb orb].
    destruct (take_prefill_stats r3) as [ps r4] eqn:Ets. pose proof (take_stats_eq r3) as E4. rewrite Ets in E4. cbn [snd] in E4. subst r4.
    eexists _, _, st', rem'. split; [reflexivity|]. split; [done|]. done.
Qed.

Lemma update_all_ok so mo s0 ql toks s st rem a :
  upd_inv s0 s ql st rem → ua_stopped_running a = st → ua_stopped_preempted a = [] → model_ok so mo → step_of so s0 →
  (∀ x, x ∈ toks → x ∈ num_scheduled_tokens so ∧
     ∀ i, dict_get x.1 (requests s0) = Some i → i ∉ py_id <$> queued ql) →
  ∃ a' s' st' rem', foldM (update_one cfg so mo []) (a, s) toks = Ok (a', s') ∧ upd_inv s0 s' ql st' rem' ∧
    ua_stopped_running a' = st' ∧ ua_stopped_preempted a' = [].
Proof.
  revert s st rem a. induction toks as [|x toks IH]; intros s st rem a Hinv Ha1 Ha2 Hmo Hso Hall; cbn [foldM].
  { by exists a, s, st, rem. }
  destruct (Hall x) as [Hx Hq]; [by left|].
  destruct (update_one_ok so mo s0 s ql st rem a x Hinv Ha1 Ha2 Hmo Hso Hx Hq) as (a1 & s1 & st1 & rem1 & -> & Hinv1 & B1 & B2).
  mrun. apply (IH s1 st1 rem1 a1); try done. intros y Hy. apply Hall. by right.
Qed.

(** The stopped requests leave the list of running requests. *)
Lemma remove_all_perm (xs st rem : list nat) : NoDup xs → xs ≡ₚ st ++ rem → (remove_all Nat.eqb xs st).1 ≡ₚ rem.
Proof.
  intros Hnd Hp. rewrite remove_all_filter by (done || apply Nat.eqb_eq). pose proof Hnd as Hnd'. rewrite Hp in Hnd'.
  apply NoDup_app in Hnd' as (_ & Hdis & Hrem). apply NoDup_Permutation; [by apply NoDup_ListNoDup, List.NoDup_filter, NoDup_ListNoDup|done|].
  intros x. rewrite list_elem_of_In, List.filter_In, <- list_elem_of_In, Hp, elem_of_app, negb_true_iff.
  assert (existsb (Nat.eqb x) st = true ↔ x ∈ st) as Hex.
  { rewrite existsb_exists. split; [intros (y & Hy & ->%Nat.eqb_eq); by apply list_elem_of_In|].
    intros Hx. exists x. split; [by apply list_elem_of_In|apply Nat.eqb_refl]. }
  destruct (existsb (Nat.eqb x) st); naive_solver.
Qed.

Lemma leave_ok s0 s ql st rem :
  upd_inv s0 s ql st rem →
  ∃ run', match st with [] => s | x :: xs => set_running (fst (remove_all Nat.eqb (running s) (x :: xs))) s end = set_running run' s ∧
    sched_ok cfg (set_running run' s) ql [] ∧ (length run' ≤ length (running s0))%nat.
Proof.
  intros [Henv Hl Hr Erun Hnd Hp Hd].
  assert (∃ run', match st with [] => s | x :: xs => set_running (fst (remove_all Nat.eqb (running s) (x :: xs))) s end
    = set_running run' s ∧ run' ≡ₚ rem) as (run' & Eq & Hrem).
  { destruct st as [|x xs]; [exists (running s); split; [by destruct s|by rewrite Erun, Hp]|].
    eexists. split; [reflexivity|]. apply remove_all_perm; by rewrite Erun. }
  exists run'. split; [done|]. split; [|rewrite Hp, Hrem, length_app; lia]. split.
  - by apply (env_view s).
  - cbn. rewrite app_nil_r. by rewrite Hrem.
  - intros n. specialize (Hr n). by destruct n.
Qed.

(** ** Statistics *)

Lemma make_stats_ok s ql :
  sched_ok cfg s ql [] → ∃ res k' X, make_stats cfg s = Ok (res, set_connector_prefix_cache_stats X (set_kv_cache_manager k' s)) ∧
    kv_ready k' ∧ kv_quiet (kv_cache_manager s) k'.
Proof.
  intros Hs. pose proof (so_live _ _ _ _ Hs) as Hl. pose proof (lv_kv _ _ _ _ _ _ Hl) as Hk. unfold make_stats.
  destruct (sched_log_stats cfg) eqn:Els; cbn [negb]; cycle 1.
  { exists None, (kv_cache_manager s), (connector_prefix_cache_stats s). split; [by destruct s|]. split; [done|].
    intros rid. apply only_refl. }
  destruct (stats_promise _ Hk) as (st & k1 & -> & Hk1 & Hq1); [by rewrite (lv_log _ _ _ _ _ _ Hl)|]. cbn [of_option]. mrun.
  set (s1 := match connector_prefix_cache_stats _ with None => _ | Some _ => _ end).
  assert (∃ X, s1 = set_connector_prefix_cache_stats X (set_kv_cache_manager k1 s)) as [X ->].
  { unfold s1. destruct (connector_prefix_cache_stats _); [by eexists|]. exists (connector_prefix_cache_stats s). by destruct s. }
  destruct (metrics_collector _) as [m|] eqn:Em.
  - destruct (drain_events m) as [ev m']. destruct (metrics_promise k1 (Some m') Hk1) as [Hk2 Hq2].
    eexists _, _, X. split; [reflexivity|]. split; [done|]. intros rid. by eapply only_trans.
  - eexists _, k1, X. done.
Qed.

(** ** The method *)

Lemma update_steps so mo s :
  sched_inv cfg s → model_ok so mo → step_of so s →
  ∃ eo s', update_from_output cfg so mo s = Ok (eo, s') ∧ sched_inv cfg s'.
Proof.
  intros (ql & Hs & Hmax) Hmo Hso. pose proof (sf_run _ _ Hso) as Hrun. pose proof Hs as [Henv Hl Hr]. rewrite app_nil_r in Hl. unfold update_from_output.
  rewrite (pc_defer _ Hcfg). cbn [andb]. mrun. rewrite (mo_connector _ _ Hmo). mrun.
  pose proof (lv_nodup _ _ _ _ _ _ Hl) as Hnd. apply NoDup_app in Hnd as (Hnd & Hdis & _).
  destruct (update_all_ok so mo s ql (num_scheduled_tokens so) s [] (running s) (mkUpdateAcc ∅ [] []))
    as (a & s1 & st & rem & -> & Hinv & B1 & B2); try done.
  { intros [id n] Hx. split; [done|]. intros i Hi. apply Hdis. by eapply Hrun. }
  mrun. rewrite B1, B2. destruct (leave_ok s s1 ql st rem Hinv) as (run' & -> & Hs2 & Hlen). mrun.
  rewrite bool_decide_eq_true_2 by done. cbn [negb andb]. mrun.
  set (s2 := set_running run' s1) in *.
  destruct (events_promise _ (lv_kv _ _ _ _ _ _ (so_live _ _ _ _ Hs2))) as [Hk3 Hq3].
  destruct (kvm_take_events (kv_cache_manager s2)) as [events k3]. cbn [snd] in Hk3, Hq3.
  pose proof (sched_quiet cfg s2 ql [] k3 Hs2 Hk3 Hq3) as Hs3. set (s3 := set_kv_cache_manager k3 s2) in *.
  rewrite (en_connector _ (so_env _ _ _ _ Hs3)).
  set (s4 := match finished_req_ids_dict s3 with None => _ | Some _ => _ end).
  assert (sched_ok cfg s4 ql [] ∧ running s4 = run') as [Hs4 Er4].
  { unfold s4. destruct (finished_req_ids_dict s3); [|done]. split; [|done].
    eapply (sched_ext cfg s3); [|done|done]. by apply (env_view s3), (so_env _ _ _ _ Hs3). }
  destruct (make_stats_ok s4 ql Hs4) as (stats & k5 & X & -> & Hk5 & Hq5). mrun.
  eexists _, _. split; [reflexivity|]. exists ql. split; [|cbn; rewrite Er4; lia].
  pose proof (sched_quiet cfg s4 ql [] k5 Hs4 Hk5 Hq5) as Hs5.
  eapply (sched_ext cfg (set_kv_cache_manager k5 s4)); [|done|done]. by apply (env_view (set_kv_cache_manager k5 s4)), (so_env _ _ _ _ Hs5).
Qed.

End UpdateInv.
