(* ===== verification/Lifecycle.v ===== *)
(** * The life of a scheduler

    Requests come in ([add_request]), are scheduled ([schedule]), get the tokens
    the model sampled ([update_from_output]) and are finished, by themselves or
    from outside ([finish_requests]).  [engine_step] is the step relation of
    these calls in the order the engine makes them; no call of a reachable
    scheduler raises, and the invariant holds throughout. *)

From S2P Require Import Prelude MathUtils Request BlockHash KVMetrics FreeQueue BlockPool.
From S2P Require Import SingleTypeManager ManagerInv Coordinator HybridHit CacheStats KVCacheManager.
From S2P Require Import KVReachable KVContract EncoderCache Heapq RequestQueue SchedUtils.
From S2P Require Import PyDict SchedState Scheduler Schedule UpdateOutput SchedInv ScheduleInv WaitingInv.
From S2P Require Import ScheduleOk UpdateInv.

Local Open Scope Z_scope.

Section Lifecycle.
Context {Q : Type} `{!FreeQueueOps Q} `{!FreeQueueSpec Q} {env : PoolEnv}.
Context {WQ : Type} `{!RequestQueueOps WQ} `{!RequestQueueSpec WQ} `{!QueueAlias WQ}.
Context {C E G : Type} `{!KVConnector C} `{!ECConnector E} `{!StructuredOutput G} `{!StructuredOutputSpec G}.
Context (cfg : SchedulerConfig) (Hcfg : plain_config cfg) `{!HashChain (Q := Q) (block_hasher cfg)}.
Abbreviation sched := (Scheduler Q WQ C E G).
Implicit Types (s : sched) (r : Request) (i j : nat) (ql : queue_lists).
Implicit Types (objs : gmap nat Request) (k : KVCacheManager Q) (run ws vs : list nat).

(** ** Construction *)

Record kv_start k : Prop := {
  ks_ready : kv_ready k;
  ks_fresh id : kv_fresh k id;
  ks_mml : max_model_len k = sched_max_model_len cfg;
  ks_chain : chain_kv k;
  ks_log : log_stats k = sched_log_stats cfg;
}.

Lemma init_inv k size g b :
  kv_start k → is_encoder_decoder cfg = false → 0 ≤ max_num_running_reqs cfg →
  sched_inv cfg (Scheduler_init cfg k size None None g b : sched).
Proof.
  intros [K1 K2 K3 K4 K5] Henc Hmax. exists (λ _, []). split; [|done]. split.
  - split; cbn; try done. rewrite Henc. by eexists.
  - split; cbn; try done.
    all: first [constructor|by intros i ?%not_elem_of_nil].
  - intros []; apply rq_rep_new.
Qed.

(** ** New requests *)

Record new_request s r : Prop := {
  nr_object : objects s !! py_id r = None;
  nr_id : dict_get (request_id r) (requests s) = None;
  nr_fits : request_fits cfg r;
  nr_status : status r ∈ [WAITING; WAITING_FOR_STRUCTURED_OUTPUT_GRAMMAR];
  nr_computed : num_computed_tokens r = 0;
}.

Lemma enqueue_ok s ql r :
  (∀ n, rq_rep (get_queue n s) (ql n)) → py_id r ∉ py_id <$> queued ql →
  ∃ n q xs, _enqueue_waiting_request r s = Ok (set_queue n q s) ∧ xs ≡ₚ r :: ql n ∧
    (∀ m, rq_rep (get_queue m (set_queue n q s)) (upd n xs ql m)) ∧ queued (upd n xs ql) ≡ₚ r :: queued ql.
Proof.
  intros Hr Hn. unfold _enqueue_waiting_request.
  assert (∀ n, ∃ q xs, RequestQueue.add_request r (get_queue n s) = Ok q ∧ xs ≡ₚ r :: ql n ∧
    (∀ m, rq_rep (get_queue m (set_queue n q s)) (upd n xs ql m)) ∧ queued (upd n xs ql) ≡ₚ r :: queued ql) as Hadd.
  { intros n. destruct (rq_add (get_queue n s) (ql n) r (Hr n)) as (q & xs & Eq & Hq & Hp).
    { unfold queued in Hn. rewrite fmap_app in Hn. destruct n; set_solver. }
    exists q, xs. split; [done|]. split; [done|]. split.
    - intros m. specialize (Hr m). unfold upd. by destruct n, m; cbn in *.
    - unfold queued, upd. destruct n; repeat case_decide; try done; rewrite Hp; [done|]. by rewrite <- Permutation_middle. }
  destruct (_is_blocked_waiting_status (status r)).
  - destruct (Hadd Skipped) as (q & xs & Eq & H). cbn in Eq. rewrite Eq. mrun. by exists Skipped, q, xs.
  - destruct (Hadd Waiting) as (q & xs & Eq & H). cbn in Eq. rewrite Eq. mrun. by exists Waiting, q, xs.
Qed.

Lemma add_ok s r : sched_inv cfg s → new_request s r →
  ∃ s', Scheduler.add_request cfg r s = Ok s' ∧ sched_inv cfg s' ∧ running s' = running s ∧
    requests s' = dict_set (request_id r) (py_id r) (requests s).
Proof.
  intros (ql & [Henv Hl Hr] & Hmax) [N1 N2 N3 N4 N5]. rewrite app_nil_r in Hl. unfold Scheduler.add_request. rewrite N2, (rf_final _ _ N3).
  assert (py_id r ∉ py_id <$> queued ql) as Hn.
  { intros Hin. destruct (lv_wait _ _ _ _ _ _ Hl _ Hin) as (r0 & E0 & _). congruence. }
  destruct (enqueue_ok (store r s) ql r) as (n & q & xs & -> & Hp & Hreps & Hq); [intros m; specialize (Hr m); by destruct m|done|].
  mrun. destruct (set_queue_same n q (store r s)) as (E1 & E2 & E3 & E4 & Henv').
  assert (env_ok (set_queue n q (store r s))) as He by (apply Henv'; by apply (env_view s)).
  set (s1 := set_queue n q (store r s)) in *. cbn [connector set_requests]. rewrite (en_connector _ He).
  eexists. split; [reflexivity|]. split; [|cbn; by rewrite E2, E4].
  exists (upd n xs ql). split; [|by cbn; rewrite E4]. split.
  - by apply (env_view s1).
  - cbn. rewrite E1, E2, E3, E4, app_nil_r. cbn. assert (py_id <$> queued (upd n xs ql) ≡ₚ py_id r :: (py_id <$> queued ql)) as -> by (by rewrite Hq).
    apply live_add; try done. split; try done; [set_solver|]. by apply (lv_fresh _ _ _ _ _ _ Hl).
  - intros m. specialize (Hreps m). by destruct m.
Qed.

(** ** Finished requests *)

Lemma filter_out (xs : list nat) v : NoDup xs → v ∈ xs → xs ≡ₚ v :: filter (λ j, j ≠ v) xs.
Proof.
  intros Hnd Hv. apply NoDup_Permutation; [done|apply NoDup_cons; split; [rewrite list_elem_of_filter; naive_solver|by apply NoDup_filter]|].
  intros x. rewrite elem_of_cons, list_elem_of_filter. destruct (decide (x = v)); naive_solver.
Qed.

Lemma finish_one_ok st s i run ws :
  is_finished_status st = true → env_ok s → live_inv cfg (objects s) (requests s) (kv_cache_manager s) run ws → i ∈ run ++ ws →
  ∃ s', finish_one cfg st s i = Ok s' ∧ env_ok s' ∧
    live_inv cfg (objects s') (requests s') (kv_cache_manager s') (filter (λ j, j ≠ i) run) (filter (λ j, j ≠ i) ws) ∧
    running s' = running s ∧ waiting s' = waiting s ∧ skipped_waiting s' = skipped_waiting s ∧
    (∀ j, is_Some (objects s !! j) → is_Some (objects s' !! j)) ∧
    (∀ id j, dict_get id (requests s') = Some j → dict_get id (requests s) = Some j).
Proof.
  intros Hst Henv Hl Hi. destruct (live_object cfg _ _ _ _ _ _ Hl Hi) as [r Ei]. unfold finish_one. rewrite (deref_ok _ _ _ Ei). mrun.
  assert (bool_decide (status r = WAITING_FOR_REMOTE_KVS) = false) as ->.
  { apply bool_decide_eq_false_2. intros Hs. apply elem_of_app in Hi as [Hr|Hw].
    - destruct (lv_run _ _ _ _ _ _ Hl i Hr) as (r0 & E0 & Hok). rewrite Ei in E0. injection E0 as <-. pose proof (ro_status _ _ _ Hok). congruence.
    - destruct (lv_wait _ _ _ _ _ _ Hl i Hw) as (r0 & E0 & Hok). rewrite Ei in E0. injection E0 as <-.
      pose proof (wo_status _ _ _ Hok) as Hx. rewrite Hs in Hx. set_solver. }
  cbn [andb]. assert (py_id r = i) as Epy by (by apply (lv_objs _ _ _ _ _ _ Hl)).
  destruct (free_request_ok cfg Hcfg (store (with_status st r) s) (with_status st r) r i (objects s) run ws
    (filter (λ j, j ≠ i) run) (filter (λ j, j ≠ i) ws)) as (s' & -> & Henv' & Hl' & E1 & E2 & E3 & E4 & E5); try done.
  - by apply (env_view s).
  - cbn. by rewrite Epy.
  - rewrite <- filter_app. apply filter_out; [apply (lv_nodup _ _ _ _ _ _ Hl)|done].
  - intros j. rewrite list_elem_of_filter. naive_solver.
  - intros j. rewrite list_elem_of_filter. naive_solver.
  - mrun. exists s'. split_and!; try done.
    + intros j Hj. rewrite E1. cbn. rewrite Epy. destruct (decide (i = j)) as [<-|]; [by rewrite lookup_insert_eq|by rewrite lookup_insert_ne].
    + rewrite E2. cbn. intros id j. rewrite dict_get_del by apply (lv_keys _ _ _ _ _ _ Hl). by case_decide.
Qed.

Lemma finish_all_ok st vs s run ws :
  is_finished_status st = true → env_ok s → live_inv cfg (objects s) (requests s) (kv_cache_manager s) run ws →
  NoDup vs → (∀ j, j ∈ vs → j ∈ run ++ ws) →
  ∃ s', foldM (finish_one cfg st) s vs = Ok s' ∧ env_ok s' ∧
    live_inv cfg (objects s') (requests s') (kv_cache_manager s') (filter (λ j, j ∉ vs) run) (filter (λ j, j ∉ vs) ws) ∧
    running s' = running s ∧ waiting s' = waiting s ∧ skipped_waiting s' = skipped_waiting s ∧
    (∀ j, is_Some (objects s !! j) → is_Some (objects s' !! j)) ∧
    (∀ id j, dict_get id (requests s') = Some j → dict_get id (requests s) = Some j).
Proof.
  intros Hst. revert s run ws. induction vs as [|v vs IH]; intros s run ws Henv Hl Hnd Hvs; cbn [foldM].
  { exists s. split_and!; try done.
    assert (∀ xs : list nat, filter (λ j, j ∉ []) xs = xs) as Hf; [|by rewrite !Hf].
    intros xs. induction xs as [|x xs IHx]; [done|]. rewrite filter_cons_True by apply not_elem_of_nil. by rewrite IHx. }
  apply NoDup_cons in Hnd as [Hv Hnd].
  destruct (finish_one_ok st s v run ws Hst Henv Hl) as (s1 & -> & Henv1 & Hl1 & E1 & E2 & E3 & Hob1 & Hd1); [apply Hvs; by left|].
  mrun. destruct (IH s1 _ _ Henv1 Hl1 Hnd) as (s' & -> & Henv' & Hl' & E1' & E2' & E3' & Hob' & Hd').
  { intros j Hj. rewrite <- filter_app, list_elem_of_filter. split; [by intros ->|]. apply Hvs. by right. }
  exists s'. split_and!; try congruence; auto.
  assert (∀ xs : list nat, filter (λ j, j ∉ v :: vs) xs = filter (λ j, j ∉ vs) (filter (λ j, j ≠ v) xs)) as Hf; [|by rewrite !Hf].
  intros xs. rewrite list_filter_filter. apply list_filter_iff. intros x. rewrite not_elem_of_cons. tauto.
Qed.

(** The first pass: nothing but the lists is computed. *)
Lemma collect_ok s run ws ids f :
  live_inv cfg (objects s) (requests s) (kv_cache_manager s) run ws →
  ∃ vs f', foldM collect_finish (f, s) ids = Ok (f', s) ∧ vs = omap (λ id, dict_get id (requests s)) ids ∧
    fl_valid f' = fl_valid f ++ vs ∧ fl_running f' = fl_running f ++ filter (λ i, i ∈ run) vs ∧
    py_id <$> fl_waiting f' = (py_id <$> fl_waiting f) ++ filter (λ i, i ∉ run) vs.
Proof.
  intros Hl. revert f. induction ids as [|id ids IH]; intros f; cbn [foldM].
  { exists [], f. by rewrite !app_nil_r. }
  cbn [collect_finish omap list_omap]. destruct (dict_get id (requests s)) as [i|] eqn:Ed; cycle 1.
  { mrun. destruct (IH f) as (vs & f' & -> & -> & H). eauto. }
  destruct (lv_dict _ _ _ _ _ _ Hl id i Ed) as (Hin & r & Ei & _). rewrite (deref_ok _ _ _ Ei). mrun.
  assert (py_id r = i) as Epy by (by apply (lv_objs _ _ _ _ _ _ Hl)).
  destruct (decide (i ∈ run)) as [Hr|Hr].
  - destruct (lv_run _ _ _ _ _ _ Hl i Hr) as (r0 & E0 & Hok). rewrite Ei in E0. injection E0 as <-.
    assert (is_finished r = false ∧ bool_decide (status r = RUNNING) = true) as (-> & ->)
      by (unfold is_finished; by rewrite (ro_status _ _ _ Hok)).
    mrun. match goal with |- context [foldM _ (?g, _) _] => destruct (IH g) as (vs & f' & -> & -> & H1 & H2 & H3) end.
    eexists _, f'. split; [done|]. split; [reflexivity|]. cbn [fl_valid fl_running fl_waiting] in *. rewrite !filter_cons, decide_True, (decide_False (P := i ∉ run)) by auto.
    rewrite H1, H2, H3, <- !app_assoc. done.
  - apply elem_of_app in Hin as [?|Hw]; [done|].
    destruct (lv_wait _ _ _ _ _ _ Hl i Hw) as (r0 & E0 & Hok). rewrite Ei in E0. injection E0 as <-.
    pose proof (wo_status _ _ _ Hok) as Hst. rewrite !elem_of_cons, elem_of_nil in Hst.
    assert (is_finished r = false ∧ bool_decide (status r = RUNNING) = false ∧ bool_decide (status r = WAITING_FOR_STREAMING_REQ) = false)
      as (-> & -> & ->) by (unfold is_finished; destruct Hst as [->|[->|[->|[]]]]; done).
    mrun. match goal with |- context [foldM _ (?g, _) _] => destruct (IH g) as (vs & f' & -> & -> & H1 & H2 & H3) end.
    eexists _, f'. split; [done|]. split; [reflexivity|]. cbn [fl_valid fl_running fl_waiting] in *. rewrite !filter_cons, decide_False, (decide_True (P := i ∉ run)) by auto.
    rewrite H1, H2, H3, fmap_app, <- !app_assoc. cbn. by rewrite Epy.
Qed.

Lemma found_nodup s run ws ids :
  live_inv cfg (objects s) (requests s) (kv_cache_manager s) run ws → NoDup ids →
  NoDup (omap (λ id, dict_get id (requests s)) ids) ∧
  ∀ j, j ∈ omap (λ id, dict_get id (requests s)) ids ↔ ∃ id, id ∈ ids ∧ dict_get id (requests s) = Some j.
Proof.
  intros Hl Hnd. split; [|intros j; apply list_elem_of_omap].
  induction Hnd as [|id ids Hid Hnd IH]; [constructor|]. cbn. destruct (dict_get id (requests s)) as [i|] eqn:Ed; [|done].
  apply NoDup_cons. split; [|done]. intros (id' & Hin & Ed')%list_elem_of_omap.
  destruct (lv_dict _ _ _ _ _ _ Hl _ _ Ed) as (_ & r & Er & <-), (lv_dict _ _ _ _ _ _ Hl _ _ Ed') as (_ & r' & Er' & <-).
  rewrite Er in Er'. by injection Er' as <-.
Qed.

(** The queues lose the requests that are finished. *)
Lemma drop_all_ids (rs xs : list Request) : py_id <$> drop_all rs xs = filter (λ j, j ∉ py_id <$> rs) (py_id <$> xs).
Proof.
  assert (∀ x, among rs x = true ↔ py_id x ∈ py_id <$> rs) as Ham.
  { intros x. unfold among. rewrite existsb_exists, list_elem_of_fmap. setoid_rewrite <- list_elem_of_In.
    setoid_rewrite same_object_spec. naive_solver. }
  unfold drop_all. induction xs as [|x xs IH]; [done|]. cbn [List.filter]. rewrite fmap_cons, filter_cons.
  pose proof (Ham x) as Hx. destruct (among rs x); cbn [negb].
  - rewrite decide_False by naive_solver. done.
  - rewrite decide_True by (intros ?%Hx; done). cbn. by rewrite IH.
Qed.

Lemma filter_same (P R : nat → Prop) `{!∀ x, Decision (P x)} `{!∀ x, Decision (R x)} (xs : list nat) :
  (∀ x, x ∈ xs → P x ↔ R x) → filter P xs = filter R xs.
Proof.
  induction xs as [|x xs IH]; intros Hiff; [done|]. rewrite !filter_cons, IH by (intros; apply Hiff; by right).
  pose proof (Hiff x ltac:(by left)). repeat case_decide; naive_solver.
Qed.

(** Removing references from the running list and requests from the queues. *)
Lemma drop_ok s ql vs (rs : list nat) (rw : list Request) :
  sched_ok cfg s ql [] → rs = filter (λ i, i ∈ running s) vs → py_id <$> rw = filter (λ i, i ∉ running s) vs → NoDup vs →
  ∃ s1 s2 run' ql', match rs with [] => s | x :: xs => set_running (fst (remove_all Nat.eqb (running s) (x :: xs))) s end = s1 ∧
    match rw with
    | [] => Ok s1
    | x :: xs => w ← remove_requests (x :: xs) (waiting s1); sk ← remove_requests (x :: xs) (skipped_waiting s1);
                 Ok (set_skipped_waiting sk (set_waiting w s1))
    end = Ok s2 ∧ env_ok s2 ∧ sched_view s2 = (objects s, requests s, kv_cache_manager s, run', (waiting s2, skipped_waiting s2)) ∧
    (∀ n, rq_rep (get_queue n s2) (ql' n)) ∧ run' ≡ₚ filter (λ j, j ∉ vs) (running s) ∧
    py_id <$> queued ql' = filter (λ j, j ∉ vs) (py_id <$> queued ql).
Proof.
  intros [Henv Hl Hr] Ers Erw Hnd. rewrite app_nil_r in Hl. pose proof (lv_nodup _ _ _ _ _ _ Hl) as Hnd'.
  apply NoDup_app in Hnd' as (Hndr & Hdis & _).
  assert (∃ run', match rs with [] => s | x :: xs => set_running (fst (remove_all Nat.eqb (running s) (x :: xs))) s end = set_running run' s ∧
    run' ≡ₚ filter (λ j, j ∉ vs) (running s)) as (run' & -> & Hrun').
  { assert (running s ≡ₚ rs ++ filter (λ j, j ∉ vs) (running s)) as Hp.
    { apply NoDup_Permutation; [done| |].
      - apply NoDup_app. split; [rewrite Ers; by apply NoDup_filter|]. split; [|by apply NoDup_filter].
        intros j. rewrite Ers, !list_elem_of_filter. naive_solver.
      - intros j. rewrite elem_of_app, Ers, !list_elem_of_filter. destruct (decide (j ∈ vs)); naive_solver. }
    destruct rs as [|x xs]; [exists (running s); split; [by destruct s|done]|].
    eexists. split; [reflexivity|]. by apply remove_all_perm. }
  set (s1 := set_running run' s).
  assert (∀ xs, (∀ j, j ∈ py_id <$> xs → j ∉ running s) →
    py_id <$> drop_all rw xs = filter (λ j, j ∉ vs) (py_id <$> xs)) as Hdrop.
  { intros xs Hxs. rewrite drop_all_ids, Erw. apply filter_same. intros j Hj%Hxs. rewrite list_elem_of_filter. tauto. }
  assert (∀ n j, j ∈ py_id <$> ql n → j ∉ running s) as Hout.
  { intros n j Hj Hjr. apply (Hdis j Hjr). unfold queued. rewrite fmap_app, elem_of_app. destruct n; auto. }
  destruct rw as [|x xs].
  - eexists s1, s1, run', ql. split; [done|]. split; [done|]. split; [by apply (env_view s)|]. split; [done|].
    split; [intros n; specialize (Hr n); by destruct n|]. split; [done|].
    unfold queued. rewrite fmap_app, filter_app, <- !Hdrop by (apply (Hout Waiting) || apply (Hout Skipped)).
    assert (∀ zs, drop_all [] zs = zs) as Hid; [|by rewrite !Hid].
    intros zs. unfold drop_all. induction zs as [|z zs IH]; [done|]. cbn. f_equal. exact IH.
  - destruct (rq_remove_all (waiting s1) (ql Waiting) (x :: xs) (Hr Waiting)) as (w & Ew & Hw).
    destruct (rq_remove_all (skipped_waiting s1) (ql Skipped) (x :: xs) (Hr Skipped)) as (sk & Esk & Hsk).
    exists s1, (set_skipped_waiting sk (set_waiting w s1)), run', (λ n, drop_all (x :: xs) (ql n)).
    split; [done|]. split; [rewrite Ew; mrun; rewrite Esk; by mrun|].
    split; [by apply (env_view s)|]. split; [done|]. split; [by intros []|]. split; [done|].
    unfold queued. rewrite !fmap_app, filter_app, <- !Hdrop by (apply (Hout Waiting) || apply (Hout Skipped)). done.
Qed.

Lemma finish_ok s ids st :
  is_finished_status st = true → sched_inv cfg s →
  ∃ aborted s', finish_requests cfg ids st s = Ok (aborted, s') ∧ sched_inv cfg s' ∧
    (∀ id, match ids with Some l => id ∈ l | None => True end → dict_get id (requests s') = None) ∧
    (∀ id j, dict_get id (requests s') = Some j → dict_get id (requests s) = Some j ∧ (j ∈ running s → j ∈ running s')).
Proof.
  intros Hst (ql & Hs & Hmax). unfold finish_requests. rewrite Hst. cbn [require]. mrun.
  set (all := match ids with Some l => remove_dups l | None => _ end).
  pose proof (so_live _ _ _ _ Hs) as Hl. rewrite app_nil_r in Hl.
  assert (NoDup all) as Hnd by (unfold all; destruct ids; [apply NoDup_remove_dups|apply (lv_keys _ _ _ _ _ _ Hl)]).
  destruct (collect_ok s _ _ all (mkFinishLists [] [] []) Hl) as (vs & f & -> & Evs & Ev & Er & Ew). mrun.
  cbn [fl_valid fl_running fl_waiting fmap list_fmap app] in Ev, Er, Ew.
  destruct (found_nodup s _ _ all Hl Hnd) as [Hndv Hvs]. rewrite <- Evs in Hndv, Hvs.
  destruct (drop_ok s ql vs (fl_running f) (fl_waiting f) Hs Er Ew Hndv) as (s1 & s2 & run' & ql' & E1 & E2 & He2 & Ev2 & Hr2 & Hrun' & Hq').
  rewrite E1, E2. mrun. unfold sched_view in Ev2. injection Ev2 as V1 V2 V3 V4.
  destruct (finish_all_ok st vs s2 (running s) (py_id <$> queued ql) Hst He2) as (s3 & E3 & He3 & Hl3 & R1 & R2 & R3 & Hob & Hd);
    [by rewrite V1, V2, V3|done| |].
  { intros j (id & _ & Hj)%Hvs. by apply (lv_dict _ _ _ _ _ _ Hl id). }
  rewrite Ev, E3. mrun.
  destruct (mapR_total (λ i, r ← deref i s3; Ok (request_id r, client_index r)) vs) as [ab ->].
  { intros j (id & _ & Hj)%Hvs. destruct (lv_dict _ _ _ _ _ _ Hl id j Hj) as (_ & r & Er0 & _).
    destruct (Hob j) as [r' Er']; [by rewrite V1, Er0|]. rewrite (deref_ok _ _ _ Er'). mrun. eauto. }
  mrun. exists ab, s3. split; [done|]. rewrite V2 in Hd.
  assert (∀ id j, dict_get id (requests s3) = Some j → j ∉ vs) as Hnot.
  { intros id j Hj. destruct (lv_dict _ _ _ _ _ _ Hl3 id j Hj) as (Hin & _). rewrite <- filter_app, list_elem_of_filter in Hin. apply Hin. }
  split; [|split].
  - exists ql'. split.
    + split; [done|rewrite R1, V4, Hrun', app_nil_r, Hq'; done|]. intros n. specialize (Hr2 n). destruct n; cbn in *; by rewrite ?R2, ?R3.
    + rewrite R1, V4, Hrun'. pose proof (length_filter (λ j, j ∉ vs) (running s)). lia.
  - intros id Hid. destruct (dict_get id (requests s3)) as [j|] eqn:Ej; [|done]. exfalso. apply (Hnot id j Ej), Hvs. exists id.
    specialize (Hd id j Ej). split; [|done]. unfold all. destruct ids; [by apply elem_of_remove_dups|]. apply dict_get_key. by eexists.
  - intros id j Hj. split; [by apply Hd|]. intros Hjr. rewrite R1, V4, Hrun', list_elem_of_filter. split; [by eapply Hnot|done].
Qed.

(** ** The step relation of the engine *)

(** The scheduler, and the step whose output is not processed yet. *)
Abbreviation engine := (sched * option SchedulerOutput)%type.

Inductive engine_step : engine → engine → Prop :=
  | engine_add r s p s' :
      new_request s r → (∀ o, p = Some o → request_id r ∉ (num_scheduled_tokens o).*1) →
      Scheduler.add_request cfg r s = Ok s' → engine_step (s, p) (s', p)
  | engine_finish ids st s p aborted s' :
      is_finished_status st = true → finish_requests cfg ids st s = Ok (aborted, s') →
      engine_step (s, p) (s', p)
  | engine_schedule throttle s o s' :
      schedule cfg throttle s = Ok (o, s') → engine_step (s, None) (s', Some o)
  | engine_update mo s o eo s' :
      model_ok o mo → update_from_output cfg o mo s = Ok (eo, s') → engine_step (s, Some o) (s', None).

Definition engine_inv (x : engine) : Prop :=
  sched_inv cfg x.1 ∧ ∀ o, x.2 = Some o → step_of o x.1.

Context (Hsync : async_scheduling cfg = false).

Lemma output_step o s : sched_inv cfg s → output_ok cfg o s → step_of o s.
Proof.
  intros (ql & Hs & _) [O1 O2 O3 O4 O5]. split; [done|..].
  - intros id n Hin. destruct (O5 id n Hin) as (i & r & _ & _ & _ & Hn & _). lia.
  - intros id n i Hin Hi. destruct (O5 id n Hin) as (j & r & Hj & Ej & <- & _).
    pose proof (so_live _ _ _ _ Hs) as Hl.
    rewrite (lv_ids _ _ _ _ _ _ Hl j r) in Hi; [by injection Hi as <-|apply elem_of_app; by left|done].
Qed.

Lemma engine_step_inv x y : engine_step x y → engine_inv x → engine_inv y.
Proof.
  intros Hstep [Hs Hp]. destruct Hstep as [r s p s' Hnew Hid E0|ids st s p ab s' Hst E0|throttle s o s' E0|mo s o eo s' Hmo E0]; cbn [fst snd] in *.
  - destruct (add_ok s r Hs Hnew) as (s1 & E1 & Hs1 & Hrun & Hreq). rewrite E0 in E1. injection E1 as <-.
    split; [done|]. cbn. intros o Ho. destruct (Hp o Ho) as [S1 S2 S3]. split; [done|done|].
    intros id n i Hin. rewrite Hreq, Hrun, dict_get_set. case_decide as Hd; [|by apply (S3 id n)].
    subst id. exfalso. apply (Hid o Ho). by apply (list_elem_of_fmap_2 fst) in Hin.
  - destruct (finish_ok s ids st Hst Hs) as (ab1 & s1 & E1 & Hs1 & _ & Hd). rewrite E0 in E1. injection E1 as <- <-.
    split; [done|]. cbn. intros o Ho. destruct (Hp o Ho) as [S1 S2 S3]. split; [done|done|].
    intros id n i Hin Hi. destruct (Hd id i Hi) as [Hi' Hrun]. apply Hrun. by eapply S3.
  - destruct (schedule_steps cfg Hcfg throttle s Hs) as (o1 & s1 & E1 & Hs1 & Ho1). rewrite E0 in E1. injection E1 as <- <-.
    split; [done|]. cbn. intros o2 [= <-]. by apply output_step.
  - destruct (update_steps cfg Hcfg Hsync o mo s Hs Hmo (Hp o eq_refl)) as (eo1 & s1 & E1 & Hs1). rewrite E0 in E1. injection E1 as <- <-.
    by split.
Qed.

Lemma engine_reachable x y : rtc engine_step x y → engine_inv x → engine_inv y.
Proof. induction 1; [done|]. intros H1. eauto using engine_step_inv. Qed.

(** What the next calls do in a state that satisfies the invariant. *)
Lemma engine_progress s p :
  engine_inv (s, p) →
  (∀ r, new_request s r → ∃ s', Scheduler.add_request cfg r s = Ok s') ∧
  (∀ ids st, is_finished_status st = true → ∃ aborted s', finish_requests cfg ids st s = Ok (aborted, s')) ∧
  match p with
  | None => ∀ throttle, ∃ o s', schedule cfg throttle s = Ok (o, s') ∧ output_ok cfg o s'
  | Some o => ∀ mo, model_ok o mo → ∃ eo s', update_from_output cfg o mo s = Ok (eo, s')
  end.
Proof.
  intros [Hs Hp]. cbn [fst snd] in *. split; [|split].
  - intros r Hr. destruct (add_ok s r Hs Hr) as (s' & H1 & _). eauto.
  - intros ids st Hst. destruct (finish_ok s ids st Hst Hs) as (ab & s' & H1 & _). eauto.
  - destruct p as [o|].
    + intros mo Hmo. destruct (update_steps cfg Hcfg Hsync o mo s Hs Hmo (Hp o eq_refl)) as (eo & s' & H1 & _). eauto.
    + intros throttle. destruct (schedule_steps cfg Hcfg throttle s Hs) as (o & s' & H1 & _ & H2). eauto.
Qed.

End Lifecycle.

(** ** Claims *)

(** C1: The engine runs without exceptions.  A scheduler starts empty over a fresh
    KV cache; requests are added, finished from outside, scheduled, and get the
    tokens of the model, in any order in which a step is processed before the
    next one is scheduled.  In every state that is reached so, all calls the
    engine can make next return: adding a new request, finishing any requests
    with a finished status, scheduling when no step is pending, processing the
    pending step with any tokens the model sampled.  No assertion fails, no
    lookup misses, no loop runs out of iterations, and what is scheduled
    respects the token budget and has its KV cache blocks.  The scope: synchronous scheduling; no
    LoRA limit, no speculative decoding and no deferred frees ([plain_config]); no
    KV or encoder connector; a decoder-only model; text-only sampling requests
    that are not resumable and fit the model length ([new_request]); KV cache
    groups that the prefix cache search supports ([kv_start], [search_ok]). *)
Theorem engine_never_raises {Q} `{!FreeQueueOps Q} `{!FreeQueueSpec Q} {env : PoolEnv}
    {WQ} `{!RequestQueueOps WQ} `{!RequestQueueSpec WQ} `{!QueueAlias WQ}
    {C E G} `{!KVConnector C} `{!ECConnector E} `{!StructuredOutput G} `{!StructuredOutputSpec G}
    (cfg : SchedulerConfig) `{!HashChain (Q := Q) (block_hasher cfg)} (k : KVCacheManager Q) (size : Z) (g : G) (b : bool)
    (s : Scheduler Q WQ C E G) (p : option SchedulerOutput)
    (Hcfg : plain_config cfg) (Hsync : async_scheduling cfg = false) (Henc : is_encoder_decoder cfg = false)
    (Hmax : 0 ≤ max_num_running_reqs cfg) (Hk : kv_start cfg k)
    (Hreach : rtc (engine_step cfg) (Scheduler_init cfg k size None None g b, None) (s, p)) :
  (∀ r, new_request cfg s r → ∃ s', Scheduler.add_request cfg r s = Ok s') ∧
  (∀ ids st, is_finished_status st = true → ∃ aborted s', finish_requests cfg ids st s = Ok (aborted, s')) ∧
  match p with
  | None => ∀ throttle, ∃ o s', schedule cfg throttle s = Ok (o, s') ∧ output_ok cfg o s'
  | Some o => ∀ mo, model_ok o mo → ∃ eo s', update_from_output cfg o mo s = Ok (eo, s')
  end.
Proof.
  apply engine_progress; [done|done|]. eapply (engine_reachable cfg Hcfg Hsync); [exact Hreach|].
  split; [by apply init_inv|done].
Qed.

(** C3: Every request is in one place.  In every reachable state of the engine the
    dictionary of requests, the running list and the two waiting queues agree:
    each known request is exactly once in one of the three; the running ones
    have status [RUNNING], computed tokens within their length and the model
    length, and blocks that cover the computed tokens; the waiting ones have
    nothing computed and hold no blocks; ids that are not known hold no blocks;
    and at most [max_num_running_reqs] requests run.  The scope: synchronous scheduling; no
    LoRA limit, no speculative decoding and no deferred frees ([plain_config]); no
    KV or encoder connector; a decoder-only model; text-only sampling requests
    that are not resumable and fit the model length ([new_request]); KV cache
    groups that the prefix cache search supports ([kv_start], [search_ok]). *)
Theorem engine_requests_placed {Q} `{!FreeQueueOps Q} `{!FreeQueueSpec Q} {env : PoolEnv}
    {WQ} `{!RequestQueueOps WQ} `{!RequestQueueSpec WQ} `{!QueueAlias WQ}
    {C E G} `{!KVConnector C} `{!ECConnector E} `{!StructuredOutput G} `{!StructuredOutputSpec G}
    (cfg : SchedulerConfig) `{!HashChain (Q := Q) (block_hasher cfg)} (k : KVCacheManager Q) (size : Z) (g : G) (b : bool)
    (s : Scheduler Q WQ C E G) (p : option SchedulerOutput)
    (Hcfg : plain_config cfg) (Hsync : async_scheduling cfg = false) (Henc : is_encoder_decoder cfg = false)
    (Hmax : 0 ≤ max_num_running_reqs cfg) (Hk : kv_start cfg k)
    (Hreach : rtc (engine_step cfg) (Scheduler_init cfg k size None None g b, None) (s, p)) :
  zlen (running s) ≤ max_num_running_reqs cfg ∧
  ∃ wl sl, queue_iter (waiting s) = Ok wl ∧ queue_iter (skipped_waiting s) = Ok sl ∧
    (let places := running s ++ (py_id <$> wl) ++ (py_id <$> sl) in
     NoDup places ∧ NoDup (requests s).*1 ∧
     (∀ i, i ∈ places ↔ ∃ id, dict_get id (requests s) = Some i) ∧
     (∀ i r, i ∈ places → objects s !! i = Some r → dict_get (request_id r) (requests s) = Some i)) ∧
    (∀ i, i ∈ running s → ∃ r, objects s !! i = Some r ∧ status r = RUNNING ∧
       0 ≤ num_computed_tokens r ≤ num_tokens r + num_output_placeholders r ∧
       num_computed_tokens r ≤ sched_max_model_len cfg ∧
       kv_holds (kv_cache_manager s) (request_id r) (num_computed_tokens r)) ∧
    (∀ i, i ∈ (py_id <$> wl) ++ (py_id <$> sl) → ∃ r, objects s !! i = Some r ∧ num_computed_tokens r = 0 ∧
       kv_fresh (kv_cache_manager s) (request_id r)) ∧
    (∀ id, dict_get id (requests s) = None → kv_fresh (kv_cache_manager s) id).
Proof.
  assert (engine_inv cfg (s, p)) as [(ql & [Henv Hl Hr] & Hlen) _].
  { eapply (engine_reachable cfg Hcfg Hsync); [exact Hreach|]. split; [by apply init_inv|done]. }
  cbn [fst] in *. split; [done|]. rewrite app_nil_r in Hl. exists (ql Waiting), (ql Skipped).
  split; [apply rq_iter, (Hr Waiting)|]. split; [apply rq_iter, (Hr Skipped)|].
  unfold queued in Hl. rewrite fmap_app in Hl. destruct Hl as [L1 L2 L3 L4 L5 L6 L7 L8 L9 L10 L11 L12].
  pose proof (pc_sampled _ Hcfg) as Hsam. split; [split; [done|split; [done|split]]|split; [|split]]; try done.
  - intros i. split; [|intros (id & Hid); by apply (L2 id)]. intros Hi.
    assert (∃ r, objects s !! i = Some r) as [r Er].
    { apply elem_of_app in Hi as [Hi|Hi]; [destruct (L6 i Hi) as (r & ? & _)|destruct (L7 i Hi) as (r & ? & _)]; eauto. }
    exists (request_id r). by apply L3.
  - intros i Hi. destruct (L6 i Hi) as (r & Er & [R1 R2 R3 R4 R5]). exists r. split_and!; done || lia.
  - intros i Hi. destruct (L7 i Hi) as (r & Er & [W1 W2 W3 W4]). by exists r.
Qed.

(** C4: A scheduling step keeps its limits, under both schedulers.  From every state
    that satisfies the invariant of the scheduler (also with several steps in
    flight, and with the placeholders of the asynchronous scheduler), [schedule]
    returns; the invariant holds again; the reported total is the sum of the
    scheduled tokens and within [max_num_scheduled_tokens]; every scheduled
    request is reported once, with at least one token, runs, and has blocks for
    all tokens computed once the step is done; no draft tokens are scheduled.
    The scope: no LoRA limit, no speculative decoding and no deferred frees
    ([plain_config]; with a LoRA limit an assertion can fail, see
    [SchedFindings.lora_limit_assertion_fails]), and the invariant describes
    schedulers without connectors, encoder inputs and streaming sessions whose
    requests are text-only sampling requests ([sched_inv]). *)
Theorem schedule_respects_limits {Q} `{!FreeQueueOps Q} `{!FreeQueueSpec Q} {env : PoolEnv}
    {WQ} `{!RequestQueueOps WQ} `{!RequestQueueSpec WQ} `{!QueueAlias WQ}
    {C E G} `{!KVConnector C} `{!ECConnector E} `{!StructuredOutput G}
    (cfg : SchedulerConfig) `{!HashChain (Q := Q) (block_hasher cfg)} (throttle : bool) (s : Scheduler Q WQ C E G)
    (Hcfg : plain_config cfg) (Hs : sched_inv cfg s) :
  ∃ o s', schedule cfg throttle s = Ok (o, s') ∧ sched_inv cfg s' ∧
    total_num_scheduled_tokens o = sum_values (num_scheduled_tokens o) ∧
    0 ≤ total_num_scheduled_tokens o ≤ max_num_scheduled_tokens cfg ∧
    scheduled_spec_decode_tokens o = [] ∧ NoDup (num_scheduled_tokens o).*1 ∧
    ∀ id n, (id, n) ∈ num_scheduled_tokens o →
      ∃ i r, i ∈ running s' ∧ objects s' !! i = Some r ∧ request_id r = id ∧ 1 ≤ n ≤ num_computed_tokens r ∧
        kv_holds (kv_cache_manager s') id (num_computed_tokens r).
Proof.
  destruct (schedule_steps cfg Hcfg throttle s Hs) as (o & s' & H1 & H2 & [O1 O2 O3 O4 O5]).
  exists o, s'. split_and!; try done || lia. intros id n Hin.
  destruct (O5 id n Hin) as (i & r & P1 & P2 & P3 & P4 & P5). exists i, r. split_and!; done || lia.
Qed.
