(* ===== verification/SchedDemo.v ===== *)
(** * Witnesses for the scheduler

    A scheduler over the KV cache of [KVReachable]'s witnesses, with two
    requests: the hypotheses of the claims about the scheduler hold for it, and
    its steps are computed. *)

From S2P Require Import Prelude MathUtils Request BlockHash KVMetrics FreeQueue BlockPool.
From S2P Require Import SingleTypeManager ManagerInv Coordinator HybridHit CacheStats KVCacheManager.
From S2P Require Import KVReachable KVContract EncoderCache Heapq RequestQueue SchedUtils.
From S2P Require Import PyDict SchedState Scheduler Schedule UpdateOutput SchedInv ScheduleInv WaitingInv.
From S2P Require Import ScheduleOk UpdateInv Lifecycle.

Local Open Scope Z_scope.
#[local] Existing Instance demo_env.

(** No connectors and no grammars. *)
#[export] Instance demo_connector : KVConnector unit := {
  get_num_new_matched_tokens _ _ c := (Some 0, false, c);
  update_state_after_alloc _ _ _ c := c; on_new_request _ c := c; supports_hma _ := true;
  request_finished _ _ c := (false, None, c); request_finished_all_groups _ _ c := (false, None, c);
  update_connector_output _ c := c; build_connector_meta _ c := c; connector_take_events c := ([], c);
  reset_cache c := (None, c); has_pending_push_work _ := false }.
#[export] Instance demo_ec : ECConnector unit := {
  ensure_cache_available _ _ c := (true, c); has_cache_item _ _ := false;
  ec_update_state_after_alloc _ _ c := c; ec_build_connector_meta _ c := c }.
#[export] Instance demo_grammars : StructuredOutput unit := {
  grammar_ready _ _ := true; should_advance _ g := (false, g); trim_reasoning_for_advance _ l _ := l;
  accept_tokens _ _ g := (true, g); validate_tokens _ l _ := l; grammar_bitmask _ _ _ := [] }.
#[export] Instance demo_grammars_spec : StructuredOutputSpec unit.
Proof. intros r g g' H. discriminate H. Defined.

Definition demo_hasher : block_hasher_t := Some (request_block_hasher env_sha256 toy_hash [Byte.x00] 2).

(** Four requests at a time, [budget] tokens per step, 16 tokens per request. *)
Definition demo_sched_cfg (p : SchedulingPolicy) (loras : option Z) (budget : Z) (async : bool) : SchedulerConfig :=
  mkSchedulerConfig p 4 budget 16 0 true false false 0 false 1 0 0 None false loras 2 2 false false false false 1 async
    false true true 2 demo_hasher.
Abbreviation demo_sync := (demo_sched_cfg FCFS None 4 false).

#[export] Instance demo_chain p loras budget async :
  HashChain (Q := FreeKVCacheBlockQueue) (block_hasher (demo_sched_cfg p loras budget async)) :=
  hasher_chain toy_hash [Byte.x00] 2 (eq_refl : 0 < 2).

Abbreviation demo_sched := (Scheduler FreeKVCacheBlockQueue FCFSRequestQueue unit unit unit).
Definition demo_s0 (cfg : SchedulerConfig) : demo_sched := Scheduler_init cfg demo_kv0 0 None None tt false.

Definition demo_req (id : string) (n : nat) (toks : list Z) (lora : option LoRARequest) (min max : Z) : Request :=
  match Request_init demo_hasher id n (Some toks) (Some (mkSampling (Some max) min None [] None None)) None 0
          (Z.of_nat n) None [] lora None 0 false false with
  | Ok r => r
  | Raise _ => demo_request
  end.

Lemma demo_plain async : plain_config (demo_sched_cfg FCFS None 4 async).
Proof. by split. Qed.

Lemma demo_kv0_ready : kv_ready demo_kv0.
Proof.
  split.
  - exists (seq 1 9). exact demo_kv0_inv.
  - unfold search_ok.
    assert (coord_kind (coordinator demo_kv0) = Hybrid 2 [full_group false; swa_group]) as -> by (vm_compute; reflexivity).
    split; [vm_compute; reflexivity|]. split; [vm_compute; reflexivity|].
    assert (coord_scheduler_block_size (coordinator demo_kv0) = 2) as -> by (vm_compute; reflexivity).
    assert (length (single_type_managers (coordinator demo_kv0)) = 2%nat) as -> by (vm_compute; reflexivity).
    exists (full_group false), [swa_group]. split; [done|]. split; [exact (demo_hybrid_ok false)|].
    assert (block_size <$> single_type_managers (coordinator demo_kv0) = [2; 2]) as Hbs by (vm_compute; reflexivity).
    intros i m Hm. pose proof (list_lookup_fmap block_size (single_type_managers (coordinator demo_kv0)) i) as E.
    rewrite Hbs, Hm in E. clear Hbs Hm. destruct i as [|[|i]]; cbn in E; [..|discriminate]; injection E as <-.
    + exists (full_group false). split; [by left|]. split; [by left|done].
    + exists swa_group. split; [by right; left|]. split; [by left|done].
  - intros _. eexists. vm_compute. reflexivity.
  - vm_compute. repeat constructor; discriminate.
Qed.

Lemma demo_kv_start async : kv_start (demo_sched_cfg FCFS None 4 async) demo_kv0.
Proof.
  split; [exact demo_kv0_ready| |vm_compute; reflexivity|intros _; vm_compute; reflexivity|vm_compute; reflexivity].
  intros id m Hm. assert (Forall (λ m, req_to_blocks m = ∅ ∧ num_cached_block m = ∅) (single_type_managers (coordinator demo_kv0)))
    as HF by (vm_compute; repeat constructor).
  rewrite Forall_forall in HF. destruct (HF m Hm) as [E1 E2]. unfold req_blocks. rewrite E1, E2, !lookup_empty. done.
Qed.

(** ** A step of the engine *)

Definition demo_a : Request := demo_req "a" 1 [1; 2; 3] None 0 8.

Lemma demo_a_fits async : request_fits (demo_sched_cfg FCFS None 4 async) demo_a.
Proof.
  assert (hasher_ok toy_hash [Byte.x00] 2 demo_a) as Hh.
  { split; [vm_compute; reflexivity|]. intros s e h Hm. vm_compute in Hm. discriminate Hm. }
  split; [reflexivity|exact Hh|vm_compute; discriminate|vm_compute; split; discriminate|reflexivity
    |vm_compute; discriminate|intros _; vm_compute; discriminate|reflexivity| |reflexivity|reflexivity].
  eexists. split; [reflexivity|vm_compute; discriminate].
Qed.

Lemma demo_a_new async : new_request (demo_sched_cfg FCFS None 4 async) (demo_s0 (demo_sched_cfg FCFS None 4 async)) demo_a.
Proof. split; [reflexivity|reflexivity|exact (demo_a_fits async)|by left|reflexivity]. Qed.

Lemma demo_s0_inv async : sched_inv (demo_sched_cfg FCFS None 4 async) (demo_s0 (demo_sched_cfg FCFS None 4 async)).
Proof. apply init_inv; [apply demo_kv_start|done|done]. Qed.

Definition demo_s1 : demo_sched :=
  match Scheduler.add_request demo_sync demo_a (demo_s0 demo_sync) with Ok s => s | Raise _ => demo_s0 demo_sync end.
Definition demo_o2 : option SchedulerOutput :=
  match schedule demo_sync false demo_s1 with Ok (o, _) => Some o | Raise _ => None end.
Definition demo_s2 : demo_sched :=
  match schedule demo_sync false demo_s1 with Ok (_, s) => s | Raise _ => demo_s0 demo_sync end.

Strategy 1000 [demo_s1 demo_s2].

Lemma demo_reach : rtc (engine_step demo_sync) (demo_s0 demo_sync, None) (demo_s2, demo_o2).
Proof.
  destruct (add_ok demo_sync (demo_plain false) (demo_s0 demo_sync) demo_a (demo_s0_inv false) (demo_a_new false)) as (s1 & E1 & Hs1 & _).
  assert (demo_s1 = s1) as Eq1 by (unfold demo_s1; by rewrite E1).
  destruct (schedule_steps demo_sync (demo_plain false) false s1 Hs1) as (o & s2 & E2 & _ & _).
  assert (demo_s2 = s2 ∧ demo_o2 = Some o) as [Eq2 Eq3] by (unfold demo_s2, demo_o2; by rewrite Eq1, E2).
  rewrite Eq2, Eq3. eapply rtc_l; [eapply (engine_add demo_sync demo_a _ None s1 (demo_a_new false)); [done|exact E1]|].
  apply rtc_once. by eapply engine_schedule.
Qed.

(** The model samples token 9. *)
Definition demo_answer : ModelRunnerOutput := mkModelRunnerOutput {["a" := 0]} [[9]] ∅ [] None.

Lemma engine_never_raises_witness :
  (num_scheduled_tokens <$> demo_o2) = Some [("a", 3)] ∧
  ∀ o, demo_o2 = Some o → ∃ eo s', update_from_output demo_sync o demo_answer demo_s2 = Ok (eo, s').
Proof.
  split; [vm_compute; reflexivity|]. intros o Ho.
  pose proof (engine_never_raises demo_sync demo_kv0 0 tt false demo_s2 demo_o2 (demo_plain false) eq_refl eq_refl
    ltac:(vm_compute; discriminate) (demo_kv_start false) demo_reach) as (_ & _ & H). rewrite Ho in H. apply H.
  assert (num_scheduled_tokens <$> demo_o2 = Some [("a", 3)]) as E by (vm_compute; reflexivity).
  rewrite Ho in E. injection E as E. clear H. split; [|reflexivity..]. intros id n. rewrite E. intros [= -> ->]%list_elem_of_singleton.
  exists 0, [9]. split; vm_compute; reflexivity.
Defined.

Lemma engine_requests_placed_witness :
  running demo_s2 = [1%nat] ∧ ∃ r, objects demo_s2 !! 1%nat = Some r ∧ status r = RUNNING ∧ num_computed_tokens r = 3 ∧
    kv_holds (kv_cache_manager demo_s2) (request_id r) (num_computed_tokens r).
Proof.
  assert (running demo_s2 = [1%nat]) as E by (vm_compute; reflexivity). split; [exact E|].
  destruct (engine_requests_placed demo_sync demo_kv0 0 tt false demo_s2 demo_o2 (demo_plain false) eq_refl eq_refl
    ltac:(vm_compute; discriminate) (demo_kv_start false) demo_reach) as (_ & wl & sl & _ & _ & _ & H & _).
  destruct (H 1%nat) as (r & E1 & E2 & _ & _ & E3); [rewrite E; by left|]. exists r. split; [exact E1|]. split; [exact E2|].
  split; [|exact E3]. assert (num_computed_tokens <$> objects demo_s2 !! 1%nat = Some 3) as E4 by (vm_compute; reflexivity).
  rewrite E1 in E4. injection E4 as E4. exact E4.
Defined.

(** An asynchronous scheduler with one waiting request. *)
Abbreviation demo_async := (demo_sched_cfg FCFS None 4 true).
Definition demo_async_s1 : demo_sched :=
  match Scheduler.add_request demo_async demo_a (demo_s0 demo_async) with Ok s => s | Raise _ => demo_s0 demo_async end.
Strategy 1000 [demo_async_s1].

Lemma schedule_respects_limits_witness :
  ∃ o s', schedule demo_async false demo_async_s1 = Ok (o, s') ∧ 0 ≤ total_num_scheduled_tokens o ≤ 4 ∧
    num_scheduled_tokens o = [("a", 3)].
Proof.
  destruct (add_ok demo_async (demo_plain true) (demo_s0 demo_async) demo_a (demo_s0_inv true) (demo_a_new true)) as (s1 & E1 & Hs1 & _).
  assert (demo_async_s1 = s1) as Eq1 by (unfold demo_async_s1; by rewrite E1). rewrite <- Eq1 in Hs1.
  destruct (schedule_respects_limits demo_async false demo_async_s1 (demo_plain true) Hs1)
    as (o & s' & H1 & _ & _ & H2 & _). exists o, s'. split; [exact H1|]. split; [exact H2|].
  assert (match schedule demo_async false demo_async_s1 with Ok (o, _) => num_scheduled_tokens o | Raise _ => [] end = [("a", 3)]) as E
    by (vm_compute; reflexivity).
  rewrite H1 in E. exact E.
Defined.
