(* ===== verification/SchedClaims.v ===== *)
(** * Claims about the parts of the scheduler

    Bisection over multi-modal inputs, block-aligned splits of prefills, the
    bound on sampled tokens, and the calls that are refused. *)

From Stdlib Require Import Sorted.
From S2P Require Import Prelude MathUtils Request BlockHash KVMetrics FreeQueue BlockPool.
From S2P Require Import SingleTypeManager ManagerInv Coordinator HybridHit CacheStats KVCacheManager.
From S2P Require Import KVReachable KVContract EncoderCache Heapq RequestQueue SchedUtils.
From S2P Require Import PyDict SchedState Scheduler Schedule UpdateOutput SchedInv ScheduleInv WaitingInv.
From S2P Require Import ScheduleOk UpdateInv Lifecycle SchedDemo.

Local Open Scope Z_scope.

(** ** Bisection *)

(** Non-decreasing keys. *)
Definition non_decreasing (keys : list Z) : Prop :=
  ∀ (i j : nat) x y, (i ≤ j)%nat → keys !! i = Some x → keys !! j = Some y → x ≤ y.

(** [bisect_left] returns the number of keys below [x], in at most as many
    iterations as there are keys. *)
Lemma bisect_loop_ok keys x fuel lo hi :
  non_decreasing keys → 0 ≤ lo ≤ hi → hi ≤ zlen keys → hi - lo ≤ Z.of_nat fuel →
  (∀ i y, Z.of_nat i < lo → keys !! i = Some y → y < x) → (∀ i y, hi ≤ Z.of_nat i → keys !! i = Some y → x ≤ y) →
  ∃ p, bisect_loop keys x fuel lo hi = Ok p ∧ 0 ≤ p ≤ zlen keys ∧
    ∀ i y, keys !! i = Some y → y < x ↔ Z.of_nat i < p.
Proof.
  intros Hs. revert lo hi. induction fuel as [|fuel IH]; intros lo hi Hlo Hhi Hf Hl Hr; cbn [bisect_loop];
    (destruct (Z.ltb_spec lo hi) as [Hlt|Hge];
      [|exists lo; split; [done|]; split; [lia|]; intros i y Hi; split; [|intros; eauto];
        intros Hy; destruct (Z.lt_ge_cases (Z.of_nat i) lo) as [|Hx]; [done|]; assert (x ≤ y) by (eapply Hr; [|exact Hi]; lia); lia]).
  { lia. }
  pose proof (Z.div_lt_upper_bound (lo + hi) 2 hi ltac:(lia) ltac:(lia)) as Hm2.
  pose proof (Z.div_le_lower_bound (lo + hi) 2 lo ltac:(lia) ltac:(lia)) as Hm1.
  set (mid := (lo + hi) / 2) in *.
  destruct (lookup_lt_is_Some_2 keys (Z.to_nat mid)) as [y Hy]; [lia|].
  rewrite (proj2 (py_get_nonneg keys mid y ltac:(lia)) Hy). mrun.
  destruct (Z.ltb_spec y x) as [Hyx|Hyx]; apply IH; try lia; try done.
  - intros i z Hi Hz. pose proof (Hs i (Z.to_nat mid) z y ltac:(lia) Hz Hy). lia.
  - intros i z Hi Hz. pose proof (Hs (Z.to_nat mid) i y z ltac:(lia) Hy Hz). lia.
Qed.

Lemma bisect_left_ok keys x :
  non_decreasing keys → ∃ p, bisect_left keys x = Ok p ∧ 0 ≤ p ≤ zlen keys ∧
    ∀ i y, keys !! i = Some y → y < x ↔ Z.of_nat i < p.
Proof.
  intros Hs. apply bisect_loop_ok; try done; try lia.
  intros i y Hi Hy. apply lookup_lt_Some in Hy. lia.
Qed.

(** The inputs a prefill window needs are found by two bisections.  For inputs
    whose starts and whose ends do not decrease, [get_mm_features_in_window]
    returns the half-open range of exactly the inputs that overlap the window:
    those that end after its start and start before its end. *)
Theorem mm_window_exact (fs : list MultiModalFeatureSpec) (start end_ : Z)
    (Hends : non_decreasing ((λ f, offset (mm_position f) + length_ (mm_position f)) <$> fs))
    (Hstarts : non_decreasing ((λ f, offset (mm_position f)) <$> fs)) :
  ∃ lo hi, get_mm_features_in_window fs start end_ = Ok (lo, hi) ∧ 0 ≤ lo ≤ zlen fs ∧ 0 ≤ hi ≤ zlen fs ∧
    ∀ i f, fs !! i = Some f →
      (lo ≤ Z.of_nat i < hi ↔
       start < offset (mm_position f) + length_ (mm_position f) ∧ offset (mm_position f) < end_).
Proof.
  unfold get_mm_features_in_window.
  destruct (bisect_left_ok _ (start + 1) Hends) as (lo & -> & Hlo & Elo). mrun.
  destruct (bisect_left_ok _ end_ Hstarts) as (hi & -> & Hhi & Ehi). mrun.
  rewrite length_fmap in Hlo, Hhi. exists lo, hi. split; [done|]. split; [done|]. split; [done|]. intros i f Hf.
  specialize (Elo i (offset (mm_position f) + length_ (mm_position f))). rewrite list_lookup_fmap, Hf in Elo.
  specialize (Ehi i (offset (mm_position f))). rewrite list_lookup_fmap, Hf in Ehi.
  specialize (Elo eq_refl). specialize (Ehi eq_refl). lia.
Qed.

Lemma mm_window_exact_witness :
  ∃ lo hi, get_mm_features_in_window [mkFeature "x" (mkRange 0 4 None); mkFeature "y" (mkRange 6 2 None)] 4 7 = Ok (lo, hi) ∧
    lo = 1 ∧ hi = 2.
Proof.
  destruct (mm_window_exact [mkFeature "x" (mkRange 0 4 None); mkFeature "y" (mkRange 6 2 None)] 4 7) as (lo & hi & H & _).
  - intros [|[|i]] [|[|j]] x y Hij Hx Hy; cbn in *; simplify_eq; lia.
  - intros [|[|i]] [|[|j]] x y Hij Hx Hy; cbn in *; simplify_eq; lia.
  - exists lo, hi. split; [exact H|]. vm_compute in H. by injection H as <- <-.
Defined.

(** ** Aligned splits *)

(** Prefills of a Mamba model stop at block boundaries.  The split never gives
    a request more than it asks for, and a request that starts at a block
    boundary before the last position whose state is cached ends at a block
    boundary again (at that position at the latest, unless it gets nothing). *)
Theorem mamba_split_aligned (cfg : SchedulerConfig) (r : Request) (n local external uncached : Z)
    (Hb : 0 < cache_config_block_size cfg) (Hn : 0 ≤ n) :
  let b := cache_config_block_size cfg in
  let computed := num_computed_tokens r + local + external in
  let full := num_tokens r - num_tokens r mod b in
  let last := if sched_use_eagle cfg then Z.max (full - b) 0 else full in
  let n' := _mamba_block_aligned_split cfg r n local external uncached in
  0 ≤ n' ≤ n ∧
  ((b | computed) → computed < last → computed < Z.max (num_prompt_tokens r) (num_tokens r - 1) →
   (b | computed + n') ∧ computed + n' ≤ last).
Proof.
  intros b computed full last n'. split; [by apply split_bounds|]. intros Hc Hlast Hpre.
  assert ((b | full)) as Hfull.
  { exists (num_tokens r / b). unfold full. pose proof (Z.div_mod (num_tokens r) b). lia. }
  assert ((b | last)) as Hdl.
  { unfold last. destruct (sched_use_eagle cfg); [|done].
    destruct (Z.max_spec (full - b) 0) as [[_ ->]|[_ ->]]; [apply Z.divide_0_r|]. apply Z.divide_sub_r; [done|apply Z.divide_refl]. }
  unfold n', _mamba_block_aligned_split. fold b computed full. rewrite (proj2 (Z.ltb_lt computed _)) by done.
  change (if sched_use_eagle cfg then Z.max (full - b) 0 else full) with last.
  set (n1 := if computed + n <? last then _ else _).
  assert ((b | computed + n1) ∧ computed + n1 ≤ last) as [Hd1 Hle1].
  { unfold n1. destruct (Z.ltb_spec (computed + n) last) as [H1|H1].
    - pose proof (floor_multiple n b Hn Hb). split; [|lia]. apply Z.divide_add_r; [done|]. apply Z.divide_factor_r.
    - rewrite (proj2 (Z.ltb_lt computed last)) by done. cbn [andb]. destruct (Z.ltb_spec last (computed + n)).
      + replace (computed + (last - computed)) with last by lia. done.
      + replace (computed + n) with last by lia. done. }
  destruct (Z.geb_spec uncached b) as [H1|H1]; [|done]. destruct (Z.gtb_spec n1 uncached) as [H2|H2]; cbn [andb]; [|done].
  pose proof (floor_multiple uncached b ltac:(lia) Hb). split; [|lia].
  apply Z.divide_add_r; [done|]. apply Z.divide_factor_r.
Qed.

Lemma mamba_split_aligned_witness :
  let cfg := demo_sched_cfg FCFS None 4 false in
  0 < cache_config_block_size cfg ∧ 0 ≤ _mamba_block_aligned_split cfg (toy [1; 2; 3; 4; 5]) 3 0 0 0 ≤ 3 ∧
  _mamba_block_aligned_split cfg (toy [1; 2; 3; 4; 5]) 3 0 0 0 = 2.
Proof.
  intros cfg. split; [reflexivity|]. split; [|vm_compute; reflexivity].
  exact (proj1 (mamba_split_aligned cfg (toy [1; 2; 3; 4; 5]) 3 0 0 0 eq_refl ltac:(lia))).
Defined.

(** ** Sampling ends *)

Section Sampling.
Context {Q : Type} `{!FreeQueueOps Q} `{!FreeQueueSpec Q} {env : PoolEnv}.
Context (cfg : SchedulerConfig) (Hcfg : plain_config cfg) `{!HashChain (Q := Q) (block_hasher cfg)}.
Implicit Types (r : Request).

(** One token: the request stops, or it has room for another one. *)
Lemma append_check_room t r sp :
  fits0 cfg r → sampling_params r = Some sp → sp_min_tokens sp ≤ max_tokens r →
  ∃ r1 b r', append_output_token_ids (block_hasher cfg) [t] r = Ok r1 ∧
    check_stop r1 (sched_max_model_len cfg) = Ok (b, r') ∧
    r'.(_output_token_ids) = r.(_output_token_ids) ++ [t] ∧
    (if (b : bool) then is_finished r' = true
     else fits0 cfg r' ∧ sampling_params r' = Some sp ∧ max_tokens r' = max_tokens r ∧ num_output_tokens r' < max_tokens r).
Proof.
  intros Hf Hsp Hmin. destruct (append_check_one cfg Hcfg t r Hf) as (r1 & b & r' & E1 & E2 & Hfr & _ & Hb).
  destruct (append_one cfg t r Hf) as (r1' & E1' & (hs & m & Hx) & _). rewrite E1 in E1'. injection E1' as <-.
  assert (r1.(_output_token_ids) = r.(_output_token_ids) ++ [t] ∧ max_tokens r1 = max_tokens r ∧ sampling_params r1 = Some sp ∧
    pooling_params r1 = None) as (X1 & X2 & X3 & X4).
  { rewrite Hx. split_and!; try done. apply (rf_pooling _ _ Hf). }
  destruct (check_stop_ok r1 sp (sched_max_model_len cfg) t) as (b2 & r2 & E3 & Hstop & Hno & Hyes); [done|done|by rewrite X1, last_snoc|].
  rewrite E2 in E3. injection E3 as <- <-. exists r1, b, r'. split; [done|]. split; [done|]. destruct b.
  - destruct (Hyes eq_refl) as (Hfin & (st & sr & ->) & _). split; [exact X1|done].
  - rewrite (Hno eq_refl) in *. split; [exact X1|]. destruct Hb as [Hb _]. split; [done|]. split; [done|]. split; [done|].
    destruct (Z.lt_ge_cases (num_output_tokens r1) (max_tokens r)) as [|Hge]; [done|]. exfalso.
    assert (false = true); [|done]. apply Hstop. split; [lia|]. right. left. right. lia.
Qed.

Lemma append_and_check_room toks kept r sp :
  fits0 cfg r → sampling_params r = Some sp → sp_min_tokens sp ≤ max_tokens r → num_output_tokens r < max_tokens r →
  ∃ new b r', append_and_check cfg kept toks r = Ok (kept ++ new, b, r') ∧ new `prefix_of` toks ∧
    r'.(_output_token_ids) = r.(_output_token_ids) ++ new ∧ num_output_tokens r' ≤ max_tokens r ∧
    (if (b : bool) then is_finished r' = true else new = toks ∧ num_output_tokens r' < max_tokens r).
Proof.
  revert kept r. induction toks as [|t toks IH]; intros kept r Hf Hsp Hmin Hroom; cbn [append_and_check].
  { exists [], false, r. rewrite !app_nil_r. split_and!; done || lia. }
  destruct (append_check_room t r sp Hf Hsp Hmin) as (r1 & b & r' & -> & E2 & Eo & Hb). mrun. rewrite E2. mrun. destruct b.
  { exists [t], true, r'. split; [done|]. split; [by eexists|]. split; [done|].
    split; [|done]. unfold num_output_tokens in *. rewrite Eo, length_app. cbn [length]. lia. }
  destruct Hb as (Hf' & Hsp' & Hmax' & Hroom').
  destruct (IH (kept ++ [t]) r' Hf' Hsp' ltac:(lia) ltac:(lia)) as (new & b & r2 & -> & Hp & Eo2 & Hle & Hb2).
  exists (t :: new), b, r2. rewrite <- app_assoc. split; [done|]. split; [by apply prefix_cons|].
  split; [rewrite Eo2, Eo, <- app_assoc; done|]. rewrite Hmax' in *. split; [done|].
  destruct b; [done|]. destruct Hb2 as [-> ?]. done.
Qed.
End Sampling.

(** C27: Generation ends.  A request in scope whose [min_tokens] is within its
    [max_tokens] and the model length takes sampled tokens in order and keeps a
    prefix of them; it never holds more than [max_tokens] output tokens, and
    once it has been given [max_tokens] tokens in all it has stopped, with a
    finished status. *)
Theorem sampling_ends {Q} `{!FreeQueueOps Q} `{!FreeQueueSpec Q} {env : PoolEnv}
    (cfg : SchedulerConfig) `{!HashChain (Q := Q) (block_hasher cfg)} (r : Request) (sp : SamplingParams) (toks : list Z)
    (Hcfg : plain_config cfg) (Hr : request_fits cfg r) (Hsp : sampling_params r = Some sp)
    (Hmin : sp_min_tokens sp ≤ max_tokens r) (Hroom : num_output_tokens r < max_tokens r) :
  ∃ kept stopped r', append_and_check cfg [] toks r = Ok (kept, stopped, r') ∧ kept `prefix_of` toks ∧
    r'.(_output_token_ids) = r.(_output_token_ids) ++ kept ∧ num_output_tokens r' ≤ max_tokens r ∧
    (stopped = true → is_finished r' = true) ∧ (stopped = false → kept = toks) ∧
    (max_tokens r ≤ num_output_tokens r + zlen toks → stopped = true).
Proof.
  destruct (append_and_check_room cfg Hcfg toks [] r sp (fits_fits0 cfg r Hr) Hsp Hmin Hroom) as (kept & b & r' & H1 & H2 & H3 & H4 & H5).
  exists kept, b, r'. split; [done|]. split; [done|]. split; [done|]. split; [done|].
  destruct b; [done|]. destruct H5 as [-> H5]. split; [done|]. split; [done|]. intros Hlen. exfalso.
  unfold num_output_tokens in *. rewrite H3, length_app in H5. lia.
Qed.

Lemma sampling_ends_witness :
  ∃ kept stopped r', append_and_check demo_sync [] [7; 7; 7; 7; 7; 7; 7; 7; 7] demo_a = Ok (kept, stopped, r') ∧
    stopped = true ∧ num_output_tokens r' ≤ 8.
Proof.
  destruct (sampling_ends (Q := FreeKVCacheBlockQueue) demo_sync demo_a (mkSampling (Some 8) 0 None [] None None)
    [7; 7; 7; 7; 7; 7; 7; 7; 7] (demo_plain false) (demo_a_fits false) eq_refl ltac:(vm_compute; discriminate) ltac:(vm_compute; reflexivity))
    as (kept & stopped & r' & H1 & _ & _ & H2 & _ & _ & H3).
  exists kept, stopped, r'. split; [exact H1|]. split; [apply H3; vm_compute; discriminate|exact H2].
Defined.

(** ** Refused calls *)

#[local] Existing Instance demo_env.

