(* ===== verification/SchedFindings.v ===== *)
(** * Behaviours of the scheduler that its comments and assertions rule out

    Each theorem runs the model on a small scenario.  The requests and the KV
    cache are those of [SchedDemo]. *)

From S2P Require Import Prelude MathUtils Request BlockHash KVMetrics FreeQueue BlockPool.
From S2P Require Import SingleTypeManager ManagerInv Coordinator HybridHit CacheStats KVCacheManager.
From S2P Require Import KVReachable KVContract EncoderCache Heapq RequestQueue SchedUtils.
From S2P Require Import PyDict SchedState Scheduler Schedule UpdateOutput SchedInv ScheduleInv WaitingInv.
From S2P Require Import ScheduleOk UpdateInv Lifecycle SchedDemo.

Local Open Scope Z_scope.
#[local] Existing Instance demo_env.

(** ** The limit on LoRAs *)

Definition with_lora (id : string) (n : nat) (toks : list Z) (lora : Z) : Request :=
  demo_req id n toks (Some (mkLoRA id lora)) 0 8.
Abbreviation one_lora := (demo_sched_cfg FCFS (Some 1) 3 false).

(** Two steps are in flight when the first is processed, as with pipeline
    parallelism. *)
Definition lora_run : result (list (dict Z) * result (SchedulerOutput * demo_sched)) :=
  s ← Scheduler.add_request one_lora (with_lora "a" 1 [1; 2; 3] 1) (demo_s0 one_lora);
  s ← Scheduler.add_request one_lora (with_lora "b" 2 [1; 2; 3; 4; 5; 6] 2) s;
  '(o1, s) ← schedule one_lora false s;
  '(o2, s) ← schedule one_lora false s;
  '(_, s) ← update_from_output one_lora o1 (mkModelRunnerOutput {["a" := 0]} [[9]] ∅ [] None) s;
  Ok ([num_scheduled_tokens o1; num_scheduled_tokens o2], schedule one_lora false s).

(** The waiting loop counts only the LoRAs of requests scheduled in the same
    step, not those of all running requests: with [max_loras = 1] it admits a
    second LoRA while the first request waits for its token, and the next step,
    in which both can run, fails the assertion on the number of LoRAs. *)
Theorem lora_limit_assertion_fails :
  lora_run = Ok ([[("a", 3)]; [("b", 3)]], Raise AssertionError).
Proof. vm_compute. reflexivity. Qed.

(** ** Minimum tokens beyond the model length *)

(** A model length of six tokens. *)
Definition short_cfg : SchedulerConfig :=
  mkSchedulerConfig FCFS 4 4 6 0 true false false 0 false 1 0 0 None false None 2 2 false false false false 1 false
    false true true 2 demo_hasher.

(** Schedule and process [n] steps in which the model samples token 9. *)
Fixpoint rounds (n : nat) (s : demo_sched) : result demo_sched :=
  match n with
  | O => Ok s
  | S n =>
      '(o, s) ← schedule short_cfg false s;
      '(_, s) ← update_from_output short_cfg o demo_answer s;
      rounds n s
  end.

(** The prompt has three tokens; at least eight are asked for. *)
Definition starved (n : nat) : result (dict Z * list nat * Z * Z) :=
  s ← Scheduler.add_request short_cfg (demo_req "a" 1 [1; 2; 3] None 8 20) (demo_s0 short_cfg);
  s ← rounds n s;
  '(o, s) ← schedule short_cfg false s;
  r ← deref 1 s;
  Ok (num_scheduled_tokens o, running s, num_tokens r, get_num_unfinished_requests s).

(** [check_stop] looks at [min_tokens] before the model length.  A request that
    reaches the model length with fewer than [min_tokens] output tokens does not
    stop, and [schedule] has no tokens for it: it runs for ever without making
    progress. *)
Theorem min_tokens_beyond_model_length_starves :
  starved 2 = Ok ([("a", 1)], [1%nat], 5, 1) ∧ starved 3 = Ok ([], [1%nat], 6, 1) ∧ starved 30 = Ok ([], [1%nat], 6, 1).
Proof. vm_compute. auto. Qed.

(** ** Splits smaller than a block *)

(** The comment on the aligned split says that fewer tokens than a block are
    scheduled without caching; they are rounded down to none. *)
Theorem small_split_is_dropped :
  _mamba_block_aligned_split demo_sync (toy [1; 2; 3; 4; 5]) 1 0 0 0 = 0.
Proof. vm_compute. reflexivity. Qed.

(** ** Streaming sessions *)

(** The next chunk of a session. *)
Definition chunk (toks : list Z) : Request :=
  with_resumable true (demo_req "a" 1 toks None 0 1).
Definition session_cfg : SchedulerConfig := demo_sched_cfg FCFS None 8 false.

(** The session samples token 4 and stops; its next chunk is [5; 6]. *)
Definition session_run : result demo_sched :=
  s ← Scheduler.add_request session_cfg (chunk [1; 2; 3]) (demo_s0 session_cfg);
  '(o, s) ← schedule session_cfg false s;
  '(_, s) ← update_from_output session_cfg o (mkModelRunnerOutput {["a" := 0]} [[4]] ∅ [] None) s;
  s ← Scheduler.add_request session_cfg (chunk [5; 6]) s;
  '(o, s) ← schedule session_cfg false s;
  '(_, s) ← update_from_output session_cfg o (mkModelRunnerOutput {["a" := 0]} [[7]] ∅ [] None) s;
  Ok s.

(** Another request with the discarded token in its prompt. *)
Definition session_hit : result (list Z * list bytes * Z) :=
  s ← session_run;
  r ← deref 1 s;
  '(_, hit, _) ← get_computed_blocks (demo_req "b" 2 [1; 2; 3; 4; 8] None 0 1) (kv_cache_manager s);
  Ok (r.(_all_token_ids), block_hashes r, hit).

(** When a session goes on, its last sampled token is discarded and replaced by
    the new chunk, but a block hash that covers the discarded token stays.  The
    second block of the session then holds tokens [3; 5] under the hash of
    [3; 4], and a request with the prompt [1; 2; 3; 4; 8] is given it as a cache
    hit of four tokens. *)
Theorem session_keeps_stale_hash :
  ∃ hashes, session_hit = Ok ([1; 2; 3; 5; 6; 7], hashes, 4) ∧
    hashes !! 1%nat = block_hashes (toy [1; 2; 3; 4]) !! 1%nat ∧
    hashes !! 1%nat ≠ block_hashes (toy [1; 2; 3; 5]) !! 1%nat.
Proof. eexists. split; [vm_compute; reflexivity|]. vm_compute. split; [reflexivity|discriminate]. Qed.
