(* ===== verification/KVSpec.v ===== *)
(** * KV cache specs of layers ([vllm/v1/kv_cache_interface.py])

    The format of the KV cache of one attention layer: the bytes of a block
    ([page_size_bytes]), the memory one request of maximal length can use
    ([max_memory_usage_bytes]), and when layers can share a group ([merge],
    [is_uniform_type]).  The managers of [SingleTypeManager] work with the
    abstraction [scheduler_spec] of these specs.

    Correspondence.  A dataclass is a constructor with the fields of its class;
    the fields of a common base class are a record.  Dataclass equality compares
    classes and fields, which is equality here.  [__post_init__] runs in every
    constructor call and in [dataclasses.replace].  The size of a [torch.dtype]
    is asked of PyTorch: [get_dtype_size] is a parameter, and a dtype is its
    name. *)

From S2P Require Import Prelude MathUtils PyDict Request BlockHash KVMetrics FreeQueue BlockPool.
From S2P Require Import SingleTypeManager.

Local Open Scope Z_scope.

(** ** Data *)

Inductive KVQuantMode :=
  | NONE | FP8_PER_TENSOR | INT8_PER_TOKEN_HEAD | FP8_PER_TOKEN_HEAD | INT4_PER_TOKEN_HEAD | NVFP4.
#[export] Instance quant_mode_eq_dec : EqDecision KVQuantMode.
Proof. solve_decision. Defined.

Definition is_per_token_head (q : KVQuantMode) : bool :=
  match q with INT8_PER_TOKEN_HEAD | FP8_PER_TOKEN_HEAD | INT4_PER_TOKEN_HEAD => true | _ => false end.
Definition is_nvfp4 (q : KVQuantMode) : bool := match q with NVFP4 => true | _ => false end.

Definition get_kv_quant_mode (kv_cache_dtype : string) : KVQuantMode :=
  if String.eqb kv_cache_dtype "int4_per_token_head" then INT4_PER_TOKEN_HEAD else
  if String.eqb kv_cache_dtype "int8_per_token_head" then INT8_PER_TOKEN_HEAD else
  if String.eqb kv_cache_dtype "fp8_per_token_head" then FP8_PER_TOKEN_HEAD else
  if String.eqb kv_cache_dtype "nvfp4" then NVFP4 else
  if String.prefix "fp8" kv_cache_dtype then FP8_PER_TENSOR else NONE.

(** [AttentionSpec], without [block_size]. *)
Record AttentionFields := mkAttn {
  num_kv_heads : Z;
  head_size : Z;
  dtype : string;
  kv_quant_mode : KVQuantMode;
  page_size_padded : option Z;
  indexes_kv_by_block_stride : bool;
}.

(** What [FullAttentionSpec] adds. *)
Record FullFields := mkFull {
  full_head_size_v : Z;
  full_sliding_window : option Z;
  full_attention_chunk_size : option Z;
  non_causal : bool;
}.

(** What [MLAAttentionSpec] and [SlidingWindowMLASpec] add. *)
Record MLAFields := mkMLA {
  cache_dtype_str : option string;
  alignment : option Z;
  compress_ratio : Z;
  model_version : option string;
}.

(** [MambaSpec], without [block_size]. *)
Record MambaFields := mkMamba {
  shapes : list (list Z);
  dtypes : list string;
  mamba_page_size_padded : option Z;
  mamba_type : string;
  spec_mamba_cache_mode : string;
  mamba_speculative_blocks : Z;
}.

#[export] Instance attn_eq_dec : EqDecision AttentionFields.
Proof. solve_decision. Defined.
#[export] Instance full_eq_dec : EqDecision FullFields.
Proof. solve_decision. Defined.
#[export] Instance mla_eq_dec : EqDecision MLAFields.
Proof. solve_decision. Defined.
#[export] Instance mamba_eq_dec : EqDecision MambaFields.
Proof. solve_decision. Defined.

(** The dataclasses; the first argument is [block_size]. *)
Inductive LayerSpec :=
  | Full (b : Z) (a : AttentionFields) (f : FullFields)
  | TQFull (b : Z) (a : AttentionFields) (f : FullFields) (tq_slot_size : Z)
  | MLA (b : Z) (a : AttentionFields) (f : FullFields) (m : MLAFields)
  | HiddenState (b : Z) (a : AttentionFields) (f : FullFields) (m : MLAFields)
  | RSWA (b : Z) (a : AttentionFields) (f : FullFields) (rswa_window : Z)
  | SinkFull (b : Z) (a : AttentionFields) (f : FullFields) (sink_len : option Z)
  | Chunked (b : Z) (a : AttentionFields) (attention_chunk_size : Z)
  | Sliding (b : Z) (a : AttentionFields) (sliding_window head_size_v : Z)
  | SlidingMLA (b : Z) (a : AttentionFields) (sliding_window : Z) (head_size_v : option Z) (m : MLAFields)
  | Mamba (b : Z) (f : MambaFields)
  | EncoderOnly (b : Z) (a : AttentionFields)
  | Cross (b : Z) (a : AttentionFields).
#[export] Instance layer_spec_eq_dec : EqDecision LayerSpec.
Proof. solve_decision. Defined.

Definition layer_block_size (s : LayerSpec) : Z :=
  match s with
  | Full b _ _ | TQFull b _ _ _ | MLA b _ _ _ | HiddenState b _ _ _ | RSWA b _ _ _ | SinkFull b _ _ _
  | Chunked b _ _ | Sliding b _ _ _ | SlidingMLA b _ _ _ _ | Mamba b _ | EncoderOnly b _ | Cross b _ => b
  end.
Definition attn_fields (s : LayerSpec) : option AttentionFields :=
  match s with
  | Full _ a _ | TQFull _ a _ _ | MLA _ a _ _ | HiddenState _ a _ _ | RSWA _ a _ _ | SinkFull _ a _ _
  | Chunked _ a _ | Sliding _ a _ _ | SlidingMLA _ a _ _ _ | EncoderOnly _ a | Cross _ a => Some a
  | Mamba _ _ => None
  end.
Definition full_fields (s : LayerSpec) : option FullFields :=
  match s with
  | Full _ _ f | TQFull _ _ f _ | MLA _ _ f _ | HiddenState _ _ f _ | RSWA _ _ f _ | SinkFull _ _ f _ => Some f
  | _ => None
  end.

(** [isinstance] tests; a subclass passes the test of its base class. *)
Definition isFull (s : LayerSpec) : bool := bool_decide (is_Some (full_fields s)).
Definition isMLA (s : LayerSpec) : bool :=
  match s with MLA _ _ _ _ | HiddenState _ _ _ _ => true | _ => false end.
Definition isHidden (s : LayerSpec) : bool := match s with HiddenState _ _ _ _ => true | _ => false end.
Definition isSlidingMLA (s : LayerSpec) : bool := match s with SlidingMLA _ _ _ _ _ => true | _ => false end.
Definition isMamba (s : LayerSpec) : bool := match s with Mamba _ _ => true | _ => false end.
Definition isChunked (s : LayerSpec) : bool := match s with Chunked _ _ _ => true | _ => false end.
Definition isCross (s : LayerSpec) : bool := match s with Cross _ _ => true | _ => false end.
Definition window_of (s : LayerSpec) : option Z :=
  match s with Sliding _ _ w _ | SlidingMLA _ _ w _ _ => Some w | _ => None end.
Definition isSliding (s : LayerSpec) : bool := bool_decide (is_Some (window_of s)).

(** What the configuration says about sizes. *)
Record SizeConfig := mkSizeConfig {
  cfg_max_model_len : Z;
  original_max_model_len : Z;
  dcp_size : Z;
  pcp_size : Z;
  cfg_max_num_batched_tokens : Z;
  cfg_max_encoder_tokens : Z;
  mamba_cache_mode : string;
  cfg_block_size : Z;
  cfg_hash_block_size : option Z;
  cfg_enable_prefix_caching : bool;
  kv_transfer_enabled : bool;
  enable_cross_layers_blocks : bool;
  num_gpu_blocks_override : option Z;
  disable_hybrid_kv_cache_manager : bool;
  spec_use_eagle : bool;
}.
Definition with_max_model_len (n : Z) (c : SizeConfig) : SizeConfig :=
  mkSizeConfig n (original_max_model_len c) (dcp_size c) (pcp_size c) (cfg_max_num_batched_tokens c)
    (cfg_max_encoder_tokens c) (mamba_cache_mode c) (cfg_block_size c) (cfg_hash_block_size c)
    (cfg_enable_prefix_caching c) (kv_transfer_enabled c) (enable_cross_layers_blocks c)
    (num_gpu_blocks_override c) (disable_hybrid_kv_cache_manager c) (spec_use_eagle c).

(** PyTorch's element sizes. *)
Class DTypes := get_dtype_size : string → Z.

(** [nvfp4_kv_cache_full_dim] ([vllm/utils/torch_utils.py]) *)
Definition nvfp4_kv_cache_full_dim (head_size : Z) : Z := head_size / 2 + head_size / 16.

(** Python's [//] and the [cdiv] built on it, on a divisor that may be zero. *)
Definition div_ (a b : Z) : result Z := if b =? 0 then Raise ZeroDivisionError else Ok (a / b).
Definition cdiv_ (a b : Z) : result Z := if b =? 0 then Raise ZeroDivisionError else Ok (cdiv a b).

(** [max(...)] over a generator; raises on an empty one. *)
Definition max_of (l : list Z) : result Z :=
  match l with [] => Raise ValueError | x :: l => Ok (fold_left Z.max l x) end.
Definition min_of (l : list Z) : result Z :=
  match l with [] => Raise ValueError | x :: l => Ok (fold_left Z.min l x) end.
Definition sum_of (l : list Z) : Z := foldr Z.add 0 l.

Section Sizes.
Context {dt : DTypes}.

(** ** Page sizes *)

Definition attention_real_page_size (b : Z) (a : AttentionFields) : Z :=
  let head_dim := if is_nvfp4 (kv_quant_mode a) then nvfp4_kv_cache_full_dim (head_size a)
                  else if bool_decide (kv_quant_mode a = INT4_PER_TOKEN_HEAD) then head_size a / 2
                  else head_size a in
  2 * b * num_kv_heads a * head_dim * get_dtype_size (dtype a).

Definition full_real_page_size (b : Z) (a : AttentionFields) (f : FullFields) : Z :=
  let last_dim :=
    if is_nvfp4 (kv_quant_mode a)
    then nvfp4_kv_cache_full_dim (head_size a) + nvfp4_kv_cache_full_dim (full_head_size_v f)
    else if bool_decide (kv_quant_mode a = INT4_PER_TOKEN_HEAD)
    then head_size a / 2 + full_head_size_v f / 2
    else head_size a + full_head_size_v f in
  b * num_kv_heads a * last_dim * get_dtype_size (dtype a).

Definition storage_block_size (b : Z) (m : MLAFields) : result Z := div_ b (compress_ratio m).

Definition mla_real_page_size (b : Z) (a : AttentionFields) (m : MLAFields) : result Z :=
  if bool_decide (cache_dtype_str m = Some "fp8_ds_mla") then
    if bool_decide (model_version m = Some "deepseek_v4") then n ← storage_block_size b m; Ok (n * 584)
    else Ok (b * 656)
  else
    let head_dim := if bool_decide (kv_quant_mode a = INT4_PER_TOKEN_HEAD) then head_size a / 2
                    else head_size a in
    n ← storage_block_size b m; Ok (n * num_kv_heads a * head_dim * get_dtype_size (dtype a)).

Definition sliding_real_page_size (b : Z) (a : AttentionFields) (head_size_v : Z) : Z :=
  let last_dim := if is_nvfp4 (kv_quant_mode a)
                  then nvfp4_kv_cache_full_dim (head_size a) + nvfp4_kv_cache_full_dim head_size_v
                  else head_size a + head_size_v in
  b * num_kv_heads a * last_dim * get_dtype_size (dtype a).

Definition sliding_mla_real_page_size (b : Z) (a : AttentionFields) (m : MLAFields) : result Z :=
  if bool_decide (model_version m = Some "deepseek_v4") && bool_decide (cache_dtype_str m = Some "fp8_ds_mla")
  then n ← storage_block_size b m; Ok (n * 584)
  else
    _ ← assert_ (bool_decide (model_version m = None) || bool_decide (model_version m = Some "deepseek_v4"));
    n ← storage_block_size b m; Ok (n * num_kv_heads a * head_size a * get_dtype_size (dtype a)).

Definition real_page_size_bytes (s : LayerSpec) : result Z :=
  match s with
  | Full b a f | RSWA b a f _ | SinkFull b a f _ => Ok (full_real_page_size b a f)
  | TQFull b a f n => Ok (if n >? 0 then b * num_kv_heads a * n else full_real_page_size b a f)
  | MLA b a _ m | HiddenState b a _ m => mla_real_page_size b a m
  | Sliding b a _ hv => Ok (sliding_real_page_size b a hv)
  | SlidingMLA b a _ _ m => sliding_mla_real_page_size b a m
  | Chunked b a _ | EncoderOnly b a | Cross b a => Ok (attention_real_page_size b a)
  | Mamba _ f =>
      Ok (sum_of (zip_with (λ shape d, foldr Z.mul 1 shape * get_dtype_size d) (shapes f) (dtypes f)))
  end.

(** A padded page must hold the real one. *)
Definition padded_size (padded : option Z) (real : Z) : result Z :=
  match padded with
  | Some p => _ ← assert_ (p >=? real); Ok p
  | None => Ok real
  end.

Definition page_size_bytes (s : LayerSpec) : result Z :=
  real ← real_page_size_bytes s;
  match s, attn_fields s with
  | Mamba _ f, _ => padded_size (mamba_page_size_padded f) real
  | _, Some a =>
      let real := if is_per_token_head (kv_quant_mode a)
                  then real + 2 * layer_block_size s * num_kv_heads a * get_dtype_size "float32"
                  else real in
      padded_size (page_size_padded a) real
  | _, None => Ok real
  end.

(** ** Constructors and [dataclasses.replace] *)

Definition with_padded (p : option Z) (a : AttentionFields) : AttentionFields :=
  mkAttn (num_kv_heads a) (head_size a) (dtype a) (kv_quant_mode a) p (indexes_kv_by_block_stride a).

Definition set_attn (g : AttentionFields → AttentionFields) (s : LayerSpec) : LayerSpec :=
  match s with
  | Full b a f => Full b (g a) f
  | TQFull b a f n => TQFull b (g a) f n
  | MLA b a f m => MLA b (g a) f m
  | HiddenState b a f m => HiddenState b (g a) f m
  | RSWA b a f w => RSWA b (g a) f w
  | SinkFull b a f n => SinkFull b (g a) f n
  | Chunked b a c => Chunked b (g a) c
  | Sliding b a w hv => Sliding b (g a) w hv
  | SlidingMLA b a w hv m => SlidingMLA b (g a) w hv m
  | Mamba b f => Mamba b f
  | EncoderOnly b a => EncoderOnly b (g a)
  | Cross b a => Cross b (g a)
  end.
Definition set_block_size (b : Z) (s : LayerSpec) : LayerSpec :=
  match s with
  | Full _ a f => Full b a f
  | TQFull _ a f n => TQFull b a f n
  | MLA _ a f m => MLA b a f m
  | HiddenState _ a f m => HiddenState b a f m
  | RSWA _ a f w => RSWA b a f w
  | SinkFull _ a f n => SinkFull b a f n
  | Chunked _ a c => Chunked b a c
  | Sliding _ a w hv => Sliding b a w hv
  | SlidingMLA _ a w hv m => SlidingMLA b a w hv m
  | Mamba _ f => Mamba b f
  | EncoderOnly _ a => EncoderOnly b a
  | Cross _ a => Cross b a
  end.

Definition mla_fields (s : LayerSpec) : option MLAFields :=
  match s with MLA _ _ _ m | HiddenState _ _ _ m | SlidingMLA _ _ _ _ m => Some m | _ => None end.

(** [__post_init__]: [_apply_alignment_padding] for the MLA classes. *)
Definition post_init (s : LayerSpec) : result LayerSpec :=
  match mla_fields s with
  | Some m =>
      match alignment m with
      | None => Ok s
      | Some al =>
          actual ← real_page_size_bytes s;
          _ ← div_ actual al;
          let padded := round_up actual al in
          Ok (if padded =? actual then s else set_attn (with_padded (Some padded)) s)
      end
  | None => Ok s
  end.

Definition replace_block_size (b : Z) (s : LayerSpec) : result LayerSpec := post_init (set_block_size b s).
Definition replace_page_size_padded (p : Z) (s : LayerSpec) : result LayerSpec :=
  match s with
  | Mamba b f => Ok (Mamba b (mkMamba (shapes f) (dtypes f) (Some p) (mamba_type f) (spec_mamba_cache_mode f)
                                (mamba_speculative_blocks f)))
  | _ => post_init (set_attn (with_padded (Some p)) s)
  end.

(** ** Memory of one request *)

Definition full_max_pages (c : SizeConfig) (b : Z) : result Z :=
  let n := cfg_max_model_len c in
  let n := if dcp_size c * pcp_size c >? 1 then cdiv n (dcp_size c * pcp_size c) else n in
  cdiv_ n b.

Definition max_memory_usage_bytes (c : SizeConfig) (s : LayerSpec) : result Z :=
  match s with
  | Full b _ _ | TQFull b _ _ _ | MLA b _ _ _ | HiddenState b _ _ _ | RSWA b _ _ _ | SinkFull b _ _ _ =>
      n ← full_max_pages c b; page ← page_size_bytes s; Ok (n * page)
  | Chunked b _ chunk =>
      _ ← div_ chunk b; page ← page_size_bytes s;
      Ok (chunked_max_admission_blocks chunk b (cfg_max_num_batched_tokens c) (cfg_max_model_len c) * page)
  | Sliding b _ w _ | SlidingMLA b _ w _ _ =>
      _ ← assert_ (dcp_size c =? 1);
      _ ← div_ w b; page ← page_size_bytes s;
      Ok (swa_max_admission_blocks w b (cfg_max_num_batched_tokens c) (cfg_max_model_len c) * page)
  | Mamba b f =>
      page ← page_size_bytes s;
      if String.eqb (mamba_cache_mode c) "all" then
        n ← cdiv_ (cfg_max_model_len c) b; Ok ((n + mamba_speculative_blocks f) * page)
      else if String.eqb (mamba_cache_mode c) "align" then Ok (page * (2 + mamba_speculative_blocks f))
      else Ok (page * (1 + mamba_speculative_blocks f))
  | EncoderOnly _ _ => Ok 0
  | Cross b _ => n ← cdiv_ (cfg_max_encoder_tokens c) b; page ← page_size_bytes s; Ok (n * page)
  end.

(** ** Merging *)

(** [merge_window_sizes] of the sizes that are set. *)
Definition merge_window_sizes (sizes : list (option Z)) : result (option Z) :=
  match remove_dups (omap id sizes) with
  | [] => Ok None
  | [w] => Ok (Some w)
  | _ => Raise ValueError
  end.

(** [FullAttentionSpec.merge], up to the class of the result. *)
Definition full_merge (specs : list LayerSpec) : result (Z * AttentionFields * FullFields) :=
  fs ← mapR (λ s, of_option AssertionError (full_fields s)) specs;
  _ ← assert_ (negb (existsb isMLA specs));
  first ← of_option IndexError (head specs);
  f0 ← of_option IndexError (head fs);
  a0 ← of_option AssertionError (attn_fields first);
  window ← merge_window_sizes (full_sliding_window <$> fs);
  chunk ← merge_window_sizes (full_attention_chunk_size <$> fs);
  let merged := mkFull (full_head_size_v f0) window chunk (existsb non_causal fs) in
  let b0 := layer_block_size first in
  _ ← assert_ (forallb (λ s, bool_decide (layer_block_size s = b0 ∧ attn_fields s = Some a0)) specs);
  _ ← assert_ (negb (bool_decide (is_Some window) && bool_decide (is_Some chunk)));
  Ok (b0, a0, merged).

(** The value that all elements of a set share. *)
Definition only_one {A} `{!EqDecision A} (l : list A) : result A :=
  match remove_dups l with [x] => Ok x | _ => Raise AssertionError end.

Definition tq_slot_size_of (s : LayerSpec) : result Z :=
  match s with TQFull _ _ _ n => Ok n | _ => Raise AttributeError end.
Definition rswa_window_of (s : LayerSpec) : result Z :=
  match s with RSWA _ _ _ w => Ok w | _ => Raise AssertionError end.

(** [MLAAttentionSpec.merge]: the fields of the result. *)
Definition mla_merge (specs : list LayerSpec) (b : Z) (a : AttentionFields)
    : result (Z * AttentionFields * FullFields * MLAFields) :=
  _ ← assert_ (forallb isMLA specs);
  let ms := omap mla_fields specs in
  dts ← only_one (cache_dtype_str <$> ms);
  ratio ← only_one (compress_ratio <$> ms);
  version ← only_one (model_version <$> ms);
  stride ← only_one (indexes_kv_by_block_stride <$> omap attn_fields specs);
  Ok (b, mkAttn (num_kv_heads a) (head_size a) (dtype a) (kv_quant_mode a) (page_size_padded a) stride,
      mkFull (head_size a) None None false, mkMLA dts None ratio version).

Definition sliding_mla_merge (specs : list LayerSpec) (b : Z) (a : AttentionFields) : result LayerSpec :=
  _ ← assert_ (forallb isSlidingMLA specs);
  let ms := omap mla_fields specs in
  dts ← only_one (cache_dtype_str <$> ms);
  ratio ← only_one (compress_ratio <$> ms);
  version ← only_one (model_version <$> ms);
  window ← only_one (omap window_of specs);
  stride ← only_one (indexes_kv_by_block_stride <$> omap attn_fields specs);
  Ok (SlidingMLA b (mkAttn (num_kv_heads a) (head_size a) (dtype a) NONE (page_size_padded a) stride)
        window None (mkMLA dts None ratio version)).

(** [specs[0].merge(specs)] *)
Definition merge (specs : list LayerSpec) : result LayerSpec :=
  match specs with
  | [] => Raise IndexError
  | s :: rest =>
      match s with
      | Full _ _ _ => '(b, a, f) ← full_merge specs; Ok (Full b a f)
      | TQFull _ _ _ n =>
          '(b, a, f) ← full_merge specs;
          ns ← mapR tq_slot_size_of specs;
          _ ← assert_ (forallb (Z.eqb n) ns);
          Ok (TQFull b a f n)
      | MLA b a _ _ => '(b, a, f, m) ← mla_merge specs b a; Ok (MLA b a f m)
      | HiddenState b a _ _ => '(b, a, f, m) ← mla_merge specs b a; Ok (HiddenState b a f m)
      | RSWA _ _ _ _ =>
          ws ← mapR rswa_window_of specs;
          w ← only_one ws;
          '(b, a, f) ← full_merge specs; Ok (RSWA b a f w)
      | SinkFull _ _ _ n => '(b, a, f) ← full_merge specs; Ok (SinkFull b a f n)
      | SlidingMLA b a _ _ _ => sliding_mla_merge specs b a
      | _ => _ ← assert_ (forallb (λ x, bool_decide (x = s)) rest); Ok s
      end
  end.

(** ** Uniform types *)

(** [KVCacheSpecRegistry.get_uniform_type_base_spec] for the built-in classes;
    the test whether a spec is an instance of that base class.  Encoder-only
    attention is not registered. *)
Definition instance_of_base (s x : LayerSpec) : result bool :=
  match s with
  | EncoderOnly _ _ => Raise AssertionError
  | Cross _ _ => Ok (isCross x)
  | _ => Ok (isFull x)
  end.

Definition is_uniform_with_collection (s : LayerSpec) (specs : dict LayerSpec) : result bool :=
  match s with
  | Chunked _ _ c => Ok (forallb (λ x, match x.2 with Chunked _ _ c' => c' =? c | _ => false end) specs)
  | Sliding _ _ w _ => Ok (forallb (λ x, bool_decide (window_of x.2 = Some w)) specs)
  | SlidingMLA _ _ w _ _ =>
      Ok (forallb (λ x, isSlidingMLA x.2 && bool_decide (window_of x.2 = Some w)) specs)
  | Mamba _ f =>
      Ok (forallb (λ x, match x.2 with
                        | Mamba _ f' => mamba_speculative_blocks f' =? mamba_speculative_blocks f
                        | _ => false
                        end) specs)
  | _ => bs ← mapR (λ x, instance_of_base s x.2) specs; Ok (forallb id bs)
  end.

Definition is_uniform_type (specs : dict LayerSpec) : result bool :=
  match remove_dups (layer_block_size <$> specs.*2) with
  | _ :: _ :: _ => Ok false
  | _ =>
      match specs with
      | [] => Raise StopIteration
      | (_, s) :: _ => is_uniform_with_collection s specs
      end
  end.

(** A group has the spec of its layers or, when these differ, a
    [UniformTypeKVCacheSpecs] with one spec per layer. *)
Inductive GroupSpec :=
  | OneSpec (s : LayerSpec)
  | UniformTypeKVCacheSpecs (b : Z) (specs : dict LayerSpec).

Definition group_block_size (g : GroupSpec) : Z :=
  match g with OneSpec s => layer_block_size s | UniformTypeKVCacheSpecs b _ => b end.

Definition from_specs (specs : dict LayerSpec) : result (option GroupSpec) :=
  u ← is_uniform_type specs;
  if (u : bool) then
    match specs with
    | [] => Raise StopIteration
    | (_, s) :: _ => Ok (Some (UniformTypeKVCacheSpecs (layer_block_size s) specs))
    end
  else Ok None.

Definition layer_page_sizes (specs : dict LayerSpec) : result (list Z) := mapR page_size_bytes specs.*2.

(** [list(set(...))]; no caller depends on the order. *)
Definition get_page_sizes (specs : dict LayerSpec) : result (list Z) :=
  ps ← layer_page_sizes specs; Ok (remove_dups ps).

(** The number of occurrences of the most common page size. *)
Definition get_num_layer_tuples (specs : dict LayerSpec) : result Z :=
  ps ← layer_page_sizes specs;
  match ps with
  | [] => Raise IndexError
  | _ => max_of ((λ p, Z.of_nat (occ p ps)) <$> ps)
  end.

Definition max_memory_usage_pages (c : SizeConfig) (specs : dict LayerSpec) : result Z :=
  ns ← mapR (λ s, n ← max_memory_usage_bytes c s; p ← page_size_bytes s; cdiv_ n p) specs.*2;
  max_of ns.

Definition group_page_size (g : GroupSpec) : result Z :=
  match g with
  | OneSpec s => page_size_bytes s
  | UniformTypeKVCacheSpecs _ specs => ps ← layer_page_sizes specs; Ok (sum_of ps)
  end.

Definition group_max_memory (c : SizeConfig) (g : GroupSpec) : result Z :=
  match g with
  | OneSpec s => max_memory_usage_bytes c s
  | UniformTypeKVCacheSpecs _ specs =>
      n ← max_memory_usage_pages c specs; p ← group_page_size g; Ok (n * p)
  end.

(** The spec the managers of the scheduler see; what distinguishes further
    layouts is kept as an opaque description. *)
Definition scheduler_kind (s : LayerSpec) : option spec_kind :=
  match s with
  | Full _ _ _ => Some FullAttentionSpec
  | TQFull _ _ _ _ => Some TQFullAttentionSpec
  | MLA _ _ _ _ => Some MLAAttentionSpec
  | HiddenState _ _ _ _ => Some HiddenStateCacheSpec
  | RSWA _ _ _ w => Some (RSWASpec w)
  | SinkFull _ _ _ n => Some (SinkFullAttentionSpec n)
  | Chunked _ _ c => Some (ChunkedLocalAttentionSpec c)
  | Sliding _ _ w _ => Some (SlidingWindowSpec w)
  | SlidingMLA _ _ w _ _ => Some (SlidingWindowMLASpec w)
  | Mamba _ f => Some (MambaSpec (String.eqb (spec_mamba_cache_mode f) "align") (mamba_speculative_blocks f))
  | Cross _ _ => Some CrossAttentionSpec
  | EncoderOnly _ _ => None
  end.

End Sizes.
