(* ===== verification/KVGroups.v ===== *)
(** * Grouping and sizing of KV caches ([vllm/v1/core/kv_cache_utils.py])

    At start-up the layers of a model are put into groups that share a block
    table, and the memory of every worker is divided into blocks.  The result
    is the [KVCacheConfig] that the coordinator is built from.

    Correspondence.  A dictionary from layer names to specs is a [dict].  The
    spec objects of different layers are distinct, so the assignment of
    [page_size_padded] through [object.__setattr__] is an update of the entry.
    The configuration is threaded where [_auto_fit_max_model_len] changes it;
    the estimates restore [max_model_len] before they return, so they read it
    from a modified copy.  [max_num_layers < min_num_layers * 1.5] is compared
    without rounding.  Binary searches have a bound on their iterations, the
    number of bits of the interval. *)

From S2P Require Import Prelude MathUtils PyDict Request BlockHash KVMetrics FreeQueue BlockPool.
From S2P Require Import SingleTypeManager Coordinator KVSpec.

Local Open Scope Z_scope.

(** [KVCacheGroupSpec], [KVCacheTensor] and [KVCacheConfig], with the fields
    the workers use. *)
Record KVGroup := mkKVGroup {
  layer_names : list string;
  gspec : GroupSpec;
  is_eagle : bool;
}.
Record KVCacheTensor := mkTensor {
  tensor_size : Z;
  shared_by : list string;
  tensor_offset : Z;
  block_stride : Z;
}.
Record WorkerConfig := mkWorkerConfig {
  w_num_blocks : Z;
  kv_cache_tensors : list KVCacheTensor;
  w_groups : list KVGroup;
}.

Section Grouping.
Context {dt : DTypes}.
Implicit Types (specs : dict LayerSpec) (groups : list KVGroup) (c : SizeConfig).

(** ** Groups of layers *)

Definition create_kv_cache_group_specs specs (grouped_layer_names : list (list string))
    : result (list KVGroup) :=
  mapR (λ names,
    layer_specs ← mapR (λ n, of_option KeyError (dict_get n specs)) names;
    merged ← merge layer_specs;
    Ok (mkKVGroup names (OneSpec merged) false)) grouped_layer_names.

Definition is_kv_cache_spec_uniform specs : result bool :=
  match specs with
  | [] => Ok true
  | _ =>
      match merge specs.*2 with
      | Ok _ => Ok true
      | Raise AssertionError => Ok false
      | Raise e => Raise e
      end
  end.

Definition get_uniform_page_size (gs : list GroupSpec) : result Z :=
  ps ← mapR group_page_size gs; only_one ps.

Definition _get_kv_cache_groups_uniform_spec specs : result (list KVGroup) :=
  create_kv_cache_group_specs specs [specs.*1].

Definition is_kv_cache_page_size_uniform specs : result bool :=
  ps ← layer_page_sizes specs; Ok (Nat.eqb (length (remove_dups ps)) 1).

(** The spec of one layer with the common page size. *)
Definition unify_page (max_page_size : Z) (s : LayerSpec) : result LayerSpec :=
  page ← page_size_bytes s;
  if page =? max_page_size then Ok s else
  _ ← div_ max_page_size page;
  s' ← (if max_page_size mod page =? 0 then
          replace_block_size (layer_block_size s * (max_page_size / page)) s
        else if existsb indexes_kv_by_block_stride (option_list (attn_fields s)) then
          replace_page_size_padded max_page_size s
        else Raise NotImplementedError);
  page' ← page_size_bytes s';
  _ ← assert_ (page' =? max_page_size);
  Ok s'.

Definition unify_kv_cache_spec_page_size specs : result (dict LayerSpec) :=
  ps ← layer_page_sizes specs;
  match remove_dups ps with
  | _ :: _ :: _ =>
      max_page_size ← max_of ps;
      mapR (λ x, s ← unify_page max_page_size x.2; Ok (x.1, s)) specs
  | _ => Ok specs
  end.

(** The number of layers per group. *)
Definition choose_group_size (sizes : list Z) : result Z :=
  min_num_layers ← min_of sizes;
  max_num_layers ← max_of sizes;
  Ok (if 2 * max_num_layers <? 3 * min_num_layers then max_num_layers else min_num_layers).

Definition split_layers (group_size : Z) (layers : list string) : list (list string) :=
  let num_groups := Z.to_nat (cdiv (zlen layers) group_size) in
  (λ i, py_stride num_groups i layers) <$> seq 0 num_groups.

Definition _get_kv_cache_groups_uniform_page_size specs : result (list KVGroup) :=
  let same_type_layers := dd_group (λ x, x.2) (λ x, x.1) specs in
  group_size ← choose_group_size ((λ x, zlen x.2) <$> same_type_layers);
  create_kv_cache_group_specs specs (concat ((λ x, split_layers group_size x.2) <$> same_type_layers)).

(** ** One type of attention when the hybrid manager is disabled *)

(** The full-attention spec that stands for a windowed one. *)
Definition as_full_attention (uniform_block_size : option Z) (s : LayerSpec) : result LayerSpec :=
  match s with
  | SlidingMLA b a _ _ m =>
      post_init (MLA (default b uniform_block_size)
        (mkAttn (num_kv_heads a) (head_size a) (dtype a) (kv_quant_mode a) (page_size_padded a) false)
        (mkFull (head_size a) None None false) m)
  | Sliding b a w hv =>
      Ok (Full b (mkAttn (num_kv_heads a) (head_size a) (dtype a) (kv_quant_mode a) (page_size_padded a) false)
            (mkFull hv (Some w) None false))
  | Chunked b a chunk =>
      Ok (Full b (mkAttn (num_kv_heads a) (head_size a) (dtype a) NONE (page_size_padded a) false)
            (mkFull (head_size a) None (Some chunk) false))
  | _ => Ok s
  end.

Definition uniform_somehow specs : result bool :=
  u ← is_kv_cache_spec_uniform specs;
  if (u : bool) then Ok true else is_uniform_type specs.

Definition unify_hybrid_kv_cache_specs specs : result (dict LayerSpec) :=
  u ← uniform_somehow specs;
  if (u : bool) then Ok specs else
  let vs := specs.*2 in
  uniform_block_size ←
    (if existsb isSlidingMLA vs then
       s ← of_option AssertionError (list_find isFull vs); Ok (Some (layer_block_size s.2))
     else Ok None);
  specs ← (if existsb isFull vs && (existsb isSliding vs || existsb isChunked vs) then
             mapR (λ x, s ← as_full_attention uniform_block_size x.2; Ok (x.1, s)) specs
           else Ok specs);
  u ← uniform_somehow specs;
  if (u : bool) then Ok specs else Raise ValueError.

(** ** Groups of MLA layers (DeepSeek V4) *)

Definition swa_key (s : LayerSpec) : Z * Z := (layer_block_size s, default 0 (window_of s)).

Definition group_and_unify_kv_cache_specs specs : result (option (list (Z * dict LayerSpec))) :=
  if negb (existsb isSlidingMLA specs.*2) then Ok None else
  let swa := dd_group (λ x, swa_key x.2) id (filter (λ x, isSlidingMLA x.2) specs) in
  let mla := filter (λ x, negb (isSlidingMLA x.2) && isMLA x.2) specs in
  _ ← assert_ (negb (bool_decide (mla = [])));
  gs ← mapR (λ d, g ← from_specs d;
               match g with
               | Some (UniformTypeKVCacheSpecs b d) => Ok (b, d)
               | _ => Raise AssertionError
               end) (mla :: swa.*2);
  Ok (Some gs).

(** The padding of values rounded up to multiples of [d]. *)
Definition total_padding (values : list Z) (d : Z) : Z := sum_of ((λ x, (d - x mod d) mod d) <$> values).

(** One candidate of the brute-force search. *)
Definition try_chunk (values : list Z) (acc : option (Z * Z)) (d : Z) : option (Z * Z) :=
  let pad := total_padding values d in
  match acc with
  | None => Some (d, pad)
  | Some (best_d, best_pad) =>
      if (pad <? best_pad) || ((pad =? best_pad) && (d >? best_d)) then Some (d, pad) else acc
  end.

Definition _approximate_gcd (values : list Z) (lower_bound : option Z) : result Z :=
  _ ← require ValueError (negb (bool_decide (values = [])));
  _ ← require ValueError (negb (existsb (λ x, x <=? 0) values));
  let min_d := Z.max 1 (default 1 lower_bound) in
  max_d ← max_of values;
  Ok (if min_d >? max_d then min_d
      else default min_d (fst <$> fold_left (try_chunk values) (py_range min_d (max_d + 1)) None)).

(** Sliding-window layers with their pages padded to a page size of the full
    layers, and the layers per padded size. *)
Definition pad_layer (all_page_sizes : list Z) (x : string * LayerSpec) : result (Z * (string * LayerSpec)) :=
  current_size ← page_size_bytes x.2;
  candidate ← min_of (filter (λ y, current_size <= y) all_page_sizes);
  let s := if current_size <? candidate then set_attn (with_padded (Some candidate)) x.2 else x.2 in
  Ok (candidate, (x.1, s)).

(** The tuples of [zip] over rows of one length. *)
Definition zip_rows {A} (n : nat) (rows : list (list A)) : list (list A) :=
  (λ i, omap (λ row, row !! i) rows) <$> seq 0 n.

Definition split_swa_group (num_layer_tuples : Z) (all_page_sizes : list Z) (g : Z * dict LayerSpec)
    : result (list KVGroup) :=
  sm_sizes ← get_page_sizes g.2;
  sm_max ← max_of sm_sizes;
  all_max ← max_of all_page_sizes;
  _ ← assert_ (sm_max <=? all_max);
  padded ← mapR (pad_layer all_page_sizes) g.2;
  let layers_per_size := dd_group fst snd padded in
  num_layers_per_size ← only_one (length <$> layers_per_size.*2);
  let num_tuple_groups := Z.to_nat (cdiv (Z.of_nat num_layers_per_size) num_layer_tuples) in
  let layer_tuples := zip_rows num_layers_per_size layers_per_size.*2 in
  mapR (λ i,
    let layers := concat (py_stride num_tuple_groups i layer_tuples) in
    g ← from_specs layers;
    g ← of_option AssertionError g;
    Ok (mkKVGroup layers.*1 g false)) (seq 0 num_tuple_groups).

Definition _get_kv_cache_groups_uniform_groups (grouped_specs : list (Z * dict LayerSpec))
    : result (list KVGroup) :=
  match grouped_specs with
  | [] => Raise AssertionError
  | (b, full_mla) :: swa =>
      _ ← assert_ (forallb isMLA full_mla.*2);
      tuples ← mapR (λ g, get_num_layer_tuples g.2) grouped_specs;
      num_layer_tuples ← _approximate_gcd tuples (head tuples);
      _ ← assert_ (forallb (λ g, forallb isSlidingMLA g.2.*2) swa);
      all_page_sizes ← get_page_sizes full_mla;
      swa_groups ← mapR (split_swa_group num_layer_tuples all_page_sizes) swa;
      Ok (mkKVGroup full_mla.*1 (UniformTypeKVCacheSpecs b full_mla) false :: concat swa_groups)
  end.

(** The first group with the last layer is flagged. *)
Fixpoint flag_group (name : string) groups : list KVGroup :=
  match groups with
  | [] => []
  | g :: groups =>
      if bool_decide (name ∈ layer_names g) then mkKVGroup (layer_names g) (gspec g) true :: groups
      else g :: flag_group name groups
  end.

Definition _annotate_eagle_groups_deepseek_v4 c specs groups : list KVGroup :=
  if negb (spec_use_eagle c) then groups else
  if negb (existsb (λ s, existsb (λ m, bool_decide (model_version m = Some "deepseek_v4"))
                           (option_list (mla_fields s))) specs.*2) then groups else
  match last specs with Some (name, _) => flag_group name groups | None => groups end.

(** ** All groups *)

(** A hidden-state layer with its page aligned to the common one. *)
Definition hidden_group (common_page : Z) (x : string * LayerSpec) : result KVGroup :=
  a ← of_option AttributeError (attn_fields x.2);
  n ← div_ common_page (num_kv_heads a * head_size a * get_dtype_size (dtype a));
  s ← post_init (set_attn (with_padded (Some common_page)) (set_block_size (Z.max n 1) x.2));
  Ok (mkKVGroup [x.1] (OneSpec s) false).

Definition get_kv_cache_groups c specs : result (list KVGroup) :=
  specs ← (if disable_hybrid_kv_cache_manager c then unify_hybrid_kv_cache_specs specs else Ok specs);
  match specs with
  | [] => Ok []
  | _ =>
      u ← is_kv_cache_spec_uniform specs;
      if (u : bool) then _get_kv_cache_groups_uniform_spec specs else
      uniform ← from_specs specs;
      match uniform with
      | Some g => Ok [mkKVGroup specs.*1 g false]
      | None =>
          grouped ← group_and_unify_kv_cache_specs specs;
          match grouped with
          | Some gs =>
              groups ← _get_kv_cache_groups_uniform_groups gs;
              Ok (_annotate_eagle_groups_deepseek_v4 c specs groups)
          | None =>
              let hidden := filter (λ x, isHidden x.2) specs in
              filtered ← unify_kv_cache_spec_page_size (filter (λ x, negb (isHidden x.2)) specs);
              groups ← _get_kv_cache_groups_uniform_page_size filtered;
              match hidden with
              | [] => Ok groups
              | _ =>
                  common_page ← get_uniform_page_size (gspec <$> groups);
                  hidden_groups ← mapR (hidden_group common_page) hidden;
                  Ok (groups ++ hidden_groups)
              end
          end
      end
  end.

(** ** Memory *)

Definition is_uniform_group (g : KVGroup) : bool :=
  match gspec g with UniformTypeKVCacheSpecs _ _ => true | OneSpec _ => false end.
Definition max_group_size groups : result Z := max_of ((λ g, zlen (layer_names g)) <$> groups).

Definition _use_packed_kv_cache_config c groups : bool :=
  forallb is_uniform_group groups || (enable_cross_layers_blocks c && (1 <? zlen groups)).

(** The page size of one layer of a group. *)
Definition layer_page (g : GroupSpec) (name : string) : result Z :=
  match g with
  | UniformTypeKVCacheSpecs _ specs => s ← of_option KeyError (dict_get name specs); page_size_bytes s
  | OneSpec s => page_size_bytes s
  end.

(** [buckets[ps][slot].append(name)], where a slot is at most the next one. *)
Fixpoint slot_append (slot : nat) (name : string) (slots : list (list string)) : list (list string) :=
  match slots, slot with
  | [], _ => [[name]]
  | row :: slots, O => (row ++ [name]) :: slots
  | row :: slots, S slot => row :: slot_append slot name slots
  end.
Fixpoint bucket_append (ps : Z) (slot : nat) (name : string) (buckets : list (Z * list (list string)))
    : list (Z * list (list string)) :=
  match buckets with
  | [] => [(ps, [[name]])]
  | (ps', slots) :: buckets =>
      if ps =? ps' then (ps', slot_append slot name slots) :: buckets
      else (ps', slots) :: bucket_append ps slot name buckets
  end.

(** The layers of one group: the slot of a layer is the number of earlier
    layers of the group with its page size. *)
Fixpoint bucket_group (seen : list Z) (layers : list (string * Z)) (buckets : list (Z * list (list string)))
    : list (Z * list (list string)) :=
  match layers with
  | [] => buckets
  | (name, ps) :: layers =>
      bucket_group (seen ++ [ps]) layers (bucket_append ps (occ ps seen) name buckets)
  end.

Definition _bucket_layers_by_page_size groups : result (list (Z * list (list string))) :=
  foldM (λ buckets g,
    layers ← mapR (λ n, p ← layer_page (gspec g) n; Ok (n, p)) (layer_names g);
    Ok (bucket_group [] layers buckets)) [] groups.

Definition bytes_per_block (buckets : list (Z * list (list string))) : Z :=
  sum_of ((λ x, x.1 * zlen x.2) <$> buckets).

Definition may_override_num_blocks c (num_blocks : Z) : Z := default num_blocks (num_gpu_blocks_override c).

Definition _pool_bytes_per_block c groups : result Z :=
  match groups with
  | [mkKVGroup _ (UniformTypeKVCacheSpecs _ _ as g) _] => group_page_size g
  | _ =>
      if _use_packed_kv_cache_config c groups then
        buckets ← _bucket_layers_by_page_size groups; Ok (bytes_per_block buckets)
      else
        group_size ← max_group_size groups;
        page_size ← get_uniform_page_size (gspec <$> groups);
        Ok (page_size * group_size)
  end.

Definition get_num_blocks c (num_layers available_memory page_size : Z) : result Z :=
  n ← div_ available_memory page_size;
  n ← div_ n num_layers;
  Ok (may_override_num_blocks c (Z.max n 0)).

(** Tensors of the packed layout: one per slot, at increasing byte offsets of a
    block. *)
Definition packed_tensors (total_size stride : Z) (buckets : list (Z * list (list string)))
    : list KVCacheTensor :=
  (fold_left (λ acc x,
     fold_left (λ acc slot,
       let '(offset, ts) := acc in (offset + x.1, ts ++ [mkTensor total_size slot offset stride]))
       x.2 acc) buckets (0, [])).2.

Definition _get_kv_cache_config_packed c groups (available_memory : Z) : result (Z * list KVCacheTensor) :=
  buckets ← _bucket_layers_by_page_size groups;
  let total := bytes_per_block buckets in
  n ← div_ available_memory total;
  let num_blocks := may_override_num_blocks c n in
  Ok (num_blocks, packed_tensors (total * num_blocks) total buckets).

(** Several groups, or one whose layers share a spec. *)
Definition several_groups_config c groups (available_memory : Z) : result WorkerConfig :=
  if _use_packed_kv_cache_config c groups then
    '(num_blocks, tensors) ← _get_kv_cache_config_packed c groups available_memory;
    Ok (mkWorkerConfig num_blocks tensors groups)
  else
    group_size ← max_group_size groups;
    page_size ← get_uniform_page_size (gspec <$> groups);
    _ ← assert_ (group_size >? 0);
    num_blocks ← get_num_blocks c group_size available_memory page_size;
    let tensors := (λ names, mkTensor (page_size * num_blocks) names 0 0)
                     <$> zip_rows (Z.to_nat group_size) (layer_names <$> groups) in
    Ok (mkWorkerConfig num_blocks tensors groups).

Definition get_kv_cache_config_from_groups c groups (available_memory : Z) : result WorkerConfig :=
  match groups with
  | [] => Ok (mkWorkerConfig 1 [] [])
  | [mkKVGroup names (UniformTypeKVCacheSpecs _ specs as g) _] =>
      page ← group_page_size g;
      n ← div_ available_memory page;
      let num_blocks := may_override_num_blocks c n in
      tensors ← mapR (λ name, s ← of_option KeyError (dict_get name specs); p ← page_size_bytes s;
                        Ok (mkTensor (p * num_blocks) [name] 0 0)) names;
      Ok (mkWorkerConfig num_blocks tensors groups)
  | _ => several_groups_config c groups available_memory
  end.

(** The memory of one request of maximal length. *)
Definition uniform_specs groups : list (dict LayerSpec) :=
  omap (λ g, match gspec g with UniformTypeKVCacheSpecs _ d => Some d | OneSpec _ => None end) groups.
Definition several_groups_memory c groups : result Z :=
  if forallb is_uniform_group groups then
    full_mla ← of_option IndexError (head (uniform_specs groups));
    sizes ← get_page_sizes full_mla;
    tuples ← mapR get_num_layer_tuples (uniform_specs groups);
    num_layer_tuples ← max_of tuples;
    pages ← mapR (max_memory_usage_pages c) (uniform_specs groups);
    Ok (sum_of ((λ n, num_layer_tuples * n * sum_of sizes) <$> pages))
  else
    group_size ← max_group_size groups;
    page_size ← get_uniform_page_size (gspec <$> groups);
    blocks ← mapR (λ g, n ← group_max_memory c (gspec g); cdiv_ n page_size) groups;
    Ok (group_size * page_size * sum_of blocks).

Definition _max_memory_usage_bytes_from_groups c groups : result Z :=
  match groups with
  | [] => Ok 0
  | [mkKVGroup _ (UniformTypeKVCacheSpecs _ specs) _] =>
      ns ← mapR (max_memory_usage_bytes c) specs.*2; Ok (sum_of ns)
  | _ => several_groups_memory c groups
  end.

(** ** The longest context that fits *)

(** [while left <= right], for a test that may raise. *)
Fixpoint search_loop (fuel : nat) (fits : Z → result bool) (left right found : Z) : result Z :=
  if left <=? right then
    match fuel with
    | O => Raise OutOfFuel
    | S fuel =>
        let mid := (left + right) / 2 in
        ok ← fits mid;
        if (ok : bool) then search_loop fuel fits (mid + 1) right mid
        else search_loop fuel fits left (mid - 1) found
    end
  else Ok found.
Definition search_max_len (fits : Z → result bool) (limit : Z) : result Z :=
  ok ← fits 1;
  if negb ok then Ok 0 else search_loop (Z.to_nat (bit_length limit)) fits 1 limit 1.

Definition estimate_max_model_len c specs (available_memory : Z) : result Z :=
  search_max_len (λ n,
    ns ← mapR (max_memory_usage_bytes (with_max_model_len n c)) specs.*2;
    Ok (sum_of ns <=? available_memory)) (cfg_max_model_len c).

Definition _estimate_max_model_len_from_groups c groups (available_memory : Z) : result Z :=
  search_max_len (λ n,
    m ← _max_memory_usage_bytes_from_groups (with_max_model_len n c) groups;
    Ok (m <=? available_memory)) (cfg_max_model_len c).

(** Returns the configuration with the length that fits all workers. *)
Definition _auto_fit_max_model_len c (workers : list (list KVGroup)) (memory : list Z) : result SizeConfig :=
  if forallb (λ gs, bool_decide (length gs = 0%nat)) workers then Ok c else
  _ ← of_option IndexError (head memory);
  fit ← foldM (λ best x,
          match x.1 with
          | [] => Ok best
          | gs => n ← _estimate_max_model_len_from_groups c gs x.2; Ok (Z.min n best)
          end) (cfg_max_model_len c) (zip workers memory);
  _ ← require ValueError (fit >? 0);
  Ok (if fit >=? cfg_max_model_len c then c else with_max_model_len fit c).

(** The estimate is part of the message of the error; it must return. *)
Definition _check_enough_kv_cache_memory c groups (available_memory : Z) : result () :=
  _ ← require ValueError (available_memory >? 0);
  needed ← _max_memory_usage_bytes_from_groups c groups;
  if needed >? available_memory then
    _ ← _estimate_max_model_len_from_groups c groups available_memory; Raise ValueError
  else Ok ().

(** The concurrency as a fraction, and the capacity in tokens. *)
Definition get_max_concurrency_for_kv_cache_config c (w : WorkerConfig) : result (Z * Z) :=
  num_layer_per_group ← max_group_size (w_groups w);
  ns ← mapR (λ g, group_max_memory c (gspec g)) (w_groups w);
  first ← of_option IndexError (head (w_groups w));
  page ← group_page_size (gspec first);
  n ← cdiv_ (num_layer_per_group * sum_of ns) (page * num_layer_per_group);
  _ ← div_ (w_num_blocks w) n;
  Ok (w_num_blocks w, n).
Definition get_kv_cache_capacity c (w : WorkerConfig) : result Z :=
  '(a, b) ← get_max_concurrency_for_kv_cache_config c w;
  Ok (a * cfg_max_model_len c / b).

(** ** Configurations of the workers *)

Definition project_group (worker_spec : dict LayerSpec) (g : KVGroup) : result KVGroup :=
  let names := filter (λ n, is_Some (dict_get n worker_spec)) (layer_names g) in
  s ← match gspec g, names with
      | UniformTypeKVCacheSpecs b specs, _ :: _ =>
          layers ← mapR (λ n, s ← of_option KeyError (dict_get n specs); Ok (n, s)) names;
          Ok (UniformTypeKVCacheSpecs b layers)
      | s, _ => Ok s
      end;
  Ok (mkKVGroup names s (is_eagle g && negb (bool_decide (names = [])))).
Definition _project_kv_cache_groups_to_worker groups (worker_spec : dict LayerSpec) : result (list KVGroup) :=
  mapR (project_group worker_spec) groups.

Definition merge_worker_specs (workers : list (dict LayerSpec)) : result (dict LayerSpec) :=
  foldM (λ merged x,
    match dict_get x.1 merged with
    | None => Ok (dict_set x.1 x.2 merged)
    | Some s => _ ← assert_ (bool_decide (s = x.2)); Ok merged
    end) [] (concat workers).

(** [KVCacheSpecRegistry.check_kv_cache_spec_registry] for built-in classes. *)
Definition check_kv_cache_spec_registry specs : result () :=
  require ValueError (forallb (λ s, negb (match s with EncoderOnly _ _ => true | _ => false end)) specs.*2).

Definition override_memory c (workers : list (list KVGroup)) (memory : list Z) : result (list Z) :=
  match num_gpu_blocks_override c with
  | None => Ok memory
  | Some n =>
      mapR (λ x, match x.1 with
                 | [] => Ok x.2
                 | gs => b ← _pool_bytes_per_block c gs; _ ← div_ x.2 b; Ok (n * b)
                 end) (zip workers memory)
  end.

(** Shrink a worker's tensors to the common number of blocks. *)
Definition shrink_config (min_num_blocks : Z) (w : WorkerConfig) : result WorkerConfig :=
  tensors ← mapR (λ t,
    q ← div_ (tensor_size t) (w_num_blocks w);
    _ ← assert_ (tensor_size t mod w_num_blocks w =? 0);
    Ok (mkTensor (q * min_num_blocks) (shared_by t) (tensor_offset t) (block_stride t))) (kv_cache_tensors w);
  Ok (mkWorkerConfig min_num_blocks tensors (w_groups w)).

(** The configuration after [_auto_fit_max_model_len] is returned too; the
    capacity is computed for the log. *)
Definition get_kv_cache_configs c (workers : list (dict LayerSpec)) (available_memory : list Z)
    : result (list WorkerConfig * SizeConfig) :=
  merged ← merge_worker_specs workers;
  _ ← check_kv_cache_spec_registry merged;
  groups ← get_kv_cache_groups c merged;
  projected ← mapR (_project_kv_cache_groups_to_worker groups) workers;
  memory ← override_memory c projected available_memory;
  c ← (if original_max_model_len c =? -1 then _auto_fit_max_model_len c projected memory else Ok c);
  _ ← mapR (λ x, match x.1 with [] => Ok () | gs => _check_enough_kv_cache_memory c gs x.2 end)
        (zip projected memory);
  configs ← mapR (λ x,
    let '(gs, worker, mem) := x in
    _ ← assert_ (sum_of ((λ g, zlen (layer_names g)) <$> gs) =? zlen worker);
    get_kv_cache_config_from_groups c gs mem) (zip (zip projected workers) memory);
  min_num_blocks ← min_of (w_num_blocks <$> configs);
  configs ← mapR (λ w,
    w ← shrink_config min_num_blocks w;
    _ ← match w_groups w with [] => Ok 0 | _ => get_kv_cache_capacity c w end;
    Ok w) configs;
  Ok (configs, c).

(** ** What the scheduler gets *)

Definition scheduler_layer (g : GroupSpec) : result LayerSpec :=
  match g with
  | OneSpec s => Ok s
  | UniformTypeKVCacheSpecs _ ((_, s) :: _) => Ok s
  | UniformTypeKVCacheSpecs _ [] => Raise StopIteration
  end.

Definition generate_scheduler_kv_cache_config (configs : list WorkerConfig) : result (Z * list (LayerSpec * bool)) :=
  first ← of_option IndexError (head configs);
  _ ← assert_ (forallb (λ w, w_num_blocks w =? w_num_blocks first) configs);
  gs ← mapR (λ g, s ← scheduler_layer (gspec g); Ok (s, is_eagle g)) (w_groups first);
  Ok (w_num_blocks first, gs).

(** The configuration of the coordinator; [layout] describes what the managers
    do not look at. *)
Definition coordinator_config (layout : LayerSpec → string) (x : Z * list (LayerSpec * bool))
    : option KVCacheConfig :=
  gs ← mapM (λ y, k ← scheduler_kind y.1; Some (mkGroup (mkSpec (layer_block_size y.1) k (layout y.1)) y.2)) x.2;
  Some (mkConfig x.1 gs).

(** [resolve_kv_cache_block_sizes]: the scheduler's and the hasher's block size. *)
Definition resolve_kv_cache_block_sizes c (gs : list LayerSpec) : result (Z * Z) :=
  if zlen gs <=? 1 then let bs := cfg_block_size c * dcp_size c * pcp_size c in Ok (bs, bs) else
  _ ← require ValueError ((dcp_size c =? 1) && (pcp_size c =? 1));
  let sizes := layer_block_size <$> gs in
  let scheduler_block_size := foldr Z.lcm 1 sizes in
  if negb (cfg_enable_prefix_caching c || kv_transfer_enabled c)
  then Ok (scheduler_block_size, scheduler_block_size) else
  if existsb (λ s, isMamba s && negb (layer_block_size s =? cfg_block_size c)) gs
  then Ok (scheduler_block_size, scheduler_block_size) else
  let hash_block_size := default (foldr Z.gcd 0 sizes) (cfg_hash_block_size c) in
  _ ← div_ 0 hash_block_size;
  _ ← require ValueError (forallb (λ bs, bs mod hash_block_size =? 0) sizes);
  Ok (scheduler_block_size, hash_block_size).

End Grouping.
