(* ===== verification/KVSizing.v ===== *)
(** * Properties of KV cache sizing

    The search for the longest context that fits, the division of the memory of
    a worker into blocks, and the check that one request of maximal length
    fits. *)

From S2P Require Import Prelude MathUtils PyDict Request BlockHash KVMetrics FreeQueue BlockPool.
From S2P Require Import SingleTypeManager Coordinator KVSpec KVGroups.

Local Open Scope Z_scope.

(** ** Extrema *)

Lemma fold_max_spec (l : list Z) x :
  x ≤ fold_left Z.max l x ∧ (∀ y, y ∈ l → y ≤ fold_left Z.max l x) ∧ fold_left Z.max l x ∈ x :: l.
Proof.
  revert x. induction l as [|z l IH]; cbn; intros x.
  { split; [lia|]. split; [by intros y ?%not_elem_of_nil|by left]. }
  destruct (IH (Z.max x z)) as (H1 & H2 & H3). split; [lia|]. split.
  - intros y [->|Hy]%elem_of_cons; [lia|auto].
  - apply elem_of_cons in H3 as [->|H3]; [|by do 2 right].
    destruct (Z.max_spec x z) as [[_ ->]|[_ ->]]; [right; by left|by left].
Qed.

Lemma max_of_spec l m : max_of l = Ok m → m ∈ l ∧ ∀ y, y ∈ l → y ≤ m.
Proof.
  destruct l as [|x l]; [done|]. intros [= <-]. destruct (fold_max_spec l x) as (H1 & H2 & H3).
  split; [done|]. intros y [->|Hy]%elem_of_cons; [lia|auto].
Qed.
Lemma max_of_total l : l ≠ [] → ∃ m, max_of l = Ok m.
Proof. destruct l; [done|]. cbn. eauto. Qed.

Lemma fold_min_spec (l : list Z) x :
  fold_left Z.min l x ≤ x ∧ (∀ y, y ∈ l → fold_left Z.min l x ≤ y) ∧ fold_left Z.min l x ∈ x :: l.
Proof.
  revert x. induction l as [|z l IH]; cbn; intros x.
  { split; [lia|]. split; [by intros y ?%not_elem_of_nil|by left]. }
  destruct (IH (Z.min x z)) as (H1 & H2 & H3). split; [lia|]. split.
  - intros y [->|Hy]%elem_of_cons; [lia|auto].
  - apply elem_of_cons in H3 as [->|H3]; [|by do 2 right].
    destruct (Z.min_spec x z) as [[_ ->]|[_ ->]]; [by left|right; by left].
Qed.

Lemma min_of_spec l m : min_of l = Ok m → m ∈ l ∧ ∀ y, y ∈ l → m ≤ y.
Proof.
  destruct l as [|x l]; [done|]. intros [= <-]. destruct (fold_min_spec l x) as (H1 & H2 & H3).
  split; [done|]. intros y [->|Hy]%elem_of_cons; [lia|auto].
Qed.

Lemma max_of_nonneg l m : (∀ x, x ∈ l → 0 ≤ x) → max_of l = Ok m → 0 ≤ m.
Proof. intros H Hm. by apply H, (max_of_spec l m Hm). Qed.

Lemma max_of_mono l l' m : Forall2 Z.le l l' → max_of l = Ok m → ∃ m', max_of l' = Ok m' ∧ m ≤ m'.
Proof.
  intros HF Hm. destruct (max_of_spec _ _ Hm) as [Hin _]. apply list_elem_of_lookup in Hin as [i Hi].
  destruct (Forall2_lookup_l _ _ _ _ _ HF Hi) as (y & Hy & Hle).
  destruct (max_of_total l') as [m' Hm']; [by intros ->|]. exists m'. split; [done|].
  destruct (max_of_spec _ _ Hm') as [_ H]. specialize (H y (list_elem_of_lookup_2 _ _ _ Hy)). lia.
Qed.

Lemma sum_of_mono l l' : Forall2 Z.le l l' → sum_of l ≤ sum_of l'.
Proof. induction 1; cbn; [done|]. unfold sum_of in *. cbn. lia. Qed.
Lemma sum_of_app l l' : sum_of (l ++ l') = sum_of l + sum_of l'.
Proof. unfold sum_of. induction l as [|x l IH]; cbn in *; lia. Qed.
Lemma sum_of_nonneg l : (∀ x, x ∈ l → 0 ≤ x) → 0 ≤ sum_of l.
Proof.
  induction l as [|x l IH]; cbn; intros H; [done|]. unfold sum_of in *. cbn.
  pose proof (H x (list_elem_of_here x l)). assert (0 ≤ foldr Z.add 0 l); [|lia]. apply IH. intros. apply H. by right.
Qed.

Lemma div_Ok a b x : div_ a b = Ok x ↔ b ≠ 0 ∧ x = a / b.
Proof. unfold div_. destruct (Z.eqb_spec b 0); naive_solver. Qed.
Lemma cdiv_Ok a b x : cdiv_ a b = Ok x ↔ b ≠ 0 ∧ x = cdiv a b.
Proof. unfold cdiv_. destruct (Z.eqb_spec b 0); naive_solver. Qed.

(** ** Binary search *)

(** On a test that holds for short lengths only, the loop finds the longest
    one within as many iterations as the interval has bits. *)
Lemma search_loop_ok fits (P : Z → bool) limit fuel left right found :
  (∀ n, 1 ≤ n ≤ limit → fits n = Ok (P n)) →
  (∀ m n, 1 ≤ m ≤ n → n ≤ limit → P n = true → P m = true) →
  1 ≤ left ≤ found + 1 → 1 ≤ found ≤ limit → right ≤ limit → P found = true →
  (∀ n, right < n ≤ limit → P n = false) → right - left + 1 < 2 ^ Z.of_nat fuel →
  ∃ r, search_loop fuel fits left right found = Ok r ∧ 1 ≤ r ≤ limit ∧ P r = true ∧
    ∀ n, r < n ≤ limit → P n = false.
Proof.
  intros Hfits Hmono. revert left right found. induction fuel as [|fuel IH]; intros left right found Hl Hf Hr Hp Hout Hfuel; cbn [search_loop].
  - destruct (Z.leb_spec left right); [cbn in Hfuel; lia|]. exists found. split_and!; try done; try lia.
    intros n Hn. apply Hout. lia.
  - destruct (Z.leb_spec left right) as [Hle|Hgt].
    2:{ exists found. split_and!; try done; try lia. intros n Hn. apply Hout. lia. }
    set (mid := (left + right) / 2). assert (left ≤ mid ≤ right) as Hmid by (unfold mid; divlia).
    assert (2 * mid ≤ left + right ≤ 2 * mid + 1) as Hhalf by (unfold mid; divlia).
    rewrite Nat2Z.inj_succ, Z.pow_succ_r in Hfuel by lia.
    rewrite Hfits by lia. mrun. destruct (P mid) eqn:Em.
    + apply IH; try done; lia.
    + apply IH; try done; try lia. intros n Hn. destruct (decide (right < n)); [apply Hout; lia|].
      destruct (P n) eqn:En; [|done]. rewrite (Hmono mid n) in Em; [done|lia|lia|done].
Qed.

Lemma search_max_len_ok fits (P : Z → bool) limit :
  1 ≤ limit → (∀ n, 1 ≤ n ≤ limit → fits n = Ok (P n)) →
  (∀ m n, 1 ≤ m ≤ n → n ≤ limit → P n = true → P m = true) →
  ∃ r, search_max_len fits limit = Ok r ∧ 0 ≤ r ≤ limit ∧
    ∀ n, 1 ≤ n ≤ limit → (P n = true ↔ n ≤ r).
Proof.
  intros Hlim Hfits Hmono. unfold search_max_len. rewrite Hfits by lia. mrun. destruct (P 1) eqn:E1; cbn [negb].
  - destruct (search_loop_ok fits P limit (Z.to_nat (bit_length limit)) 1 limit 1) as (r & H1 & H2 & H3 & H4); try done; try lia.
    { destruct (bit_length_bound limit) as [? ?]; [lia|]. rewrite Z2Nat.id by lia. lia. }
    exists r. split; [done|]. split; [lia|]. intros n Hn. split.
    + intros Hp. destruct (decide (n ≤ r)); [done|]. rewrite H4 in Hp by lia. done.
    + intros Hle. by apply (Hmono n r); [lia|lia|].
  - exists 0. split; [done|]. split; [lia|]. intros n Hn. split; [|lia].
    intros Hp. rewrite (Hmono 1 n) in E1; [done|lia|lia|done].
Qed.

(** ** Memory grows with the length of the context *)

Section Sizing.
Context {dt : DTypes}.
Implicit Types (specs : dict LayerSpec) (groups : list KVGroup) (c : SizeConfig) (s : LayerSpec).

(** A layer whose pages are not empty. *)
Definition layer_pages_ok s : Prop := 0 < layer_block_size s ∧ ∀ p, page_size_bytes s = Ok p → 0 < p.
Definition group_pages_ok (g : GroupSpec) : Prop :=
  match g with
  | OneSpec s => layer_pages_ok s
  | UniformTypeKVCacheSpecs _ specs => ∀ s, s ∈ specs.*2 → layer_pages_ok s
  end.

(** [f] is defined for all lengths of the context or for none, and grows. *)
Definition grows (f : SizeConfig → result Z) : Prop :=
  ∀ c n n' x, f (with_max_model_len n c) = Ok x →
    ∃ y, f (with_max_model_len n' c) = Ok y ∧ (n ≤ n' → x ≤ y).

Lemma grows_const (r : result Z) : grows (λ _, r).
Proof. intros c n n' x ->. by exists x. Qed.
Lemma grows_bind (r : result Z) (f : Z → SizeConfig → result Z) :
  (∀ p, r = Ok p → grows (f p)) → grows (λ c, p ← r; f p c).
Proof.
  intros Hf c n n' x (p & Hp & Hx)%bind_Ok. destruct (Hf p Hp c n n' x Hx) as (y & Hy & Hle).
  exists y. by rewrite Hp.
Qed.
Lemma grows_cdiv f (k : Z) : 0 ≤ k → grows f → grows (λ c, n ← f c; cdiv_ n k).
Proof.
  intros Hk Hf c n n' x (y & Hy & [? ->]%cdiv_Ok)%bind_Ok. destruct (Hf c n n' y Hy) as (z & Hz & Hle).
  exists (cdiv z k). rewrite Hz, bind_ret. split; [by apply cdiv_Ok|]. intros ?. apply cdiv_mono; [lia|auto].
Qed.

Lemma grows_guard (b : SizeConfig → bool) f :
  (∀ c n n', b (with_max_model_len n c) = b (with_max_model_len n' c)) → grows f →
  grows (λ c, _ ← assert_ (b c); f c).
Proof.
  intros Hb Hf c n n' x ([] & Ha & Hx)%bind_Ok. destruct (Hf c n n' x Hx) as (y & Hy & Hle).
  exists y. by rewrite (Hb c n' n), Ha.
Qed.

Lemma grows_map {A} (f : A → SizeConfig → result Z) (l : list A) c n n' xs :
  (∀ a, a ∈ l → grows (f a)) → mapR (λ a, f a (with_max_model_len n c)) l = Ok xs →
  ∃ ys, mapR (λ a, f a (with_max_model_len n' c)) l = Ok ys ∧ (n ≤ n' → Forall2 Z.le xs ys).
Proof.
  intros Hf. revert xs. induction l as [|a l IH]; cbn [mapR]; intros xs.
  { intros [= <-]. exists []. by split. }
  intros (x & Hx & (xs' & Hxs & [= <-])%bind_Ok)%bind_Ok.
  destruct (Hf a (list_elem_of_here _ _) c n n' x Hx) as (y & Hy & Hle).
  destruct (IH (λ b Hb, Hf b (list_elem_of_further _ _ _ Hb)) xs' Hxs) as (ys & Hys & HF).
  exists (y :: ys). rewrite Hy, bind_ret, Hys. split; [done|]. intros ?. constructor; auto.
Qed.

Lemma max_memory_grows s : layer_pages_ok s → grows (λ c, max_memory_usage_bytes c s).
Proof.
  intros [Hb Hp].
  assert (grows (λ c, full_max_pages c (layer_block_size s))) as Hfull.
  { intros c n n' x. unfold full_max_pages. cbn. intros [_ ->]%cdiv_Ok. eexists. split; [apply cdiv_Ok; split; [lia|done]|].
    intros Hle. apply cdiv_mono; [done|]. destruct (Z.gtb_spec (dcp_size c * pcp_size c) 1); [|done]. apply cdiv_mono; lia. }
  assert (∀ f, grows f → grows (λ c, n ← f c; page ← page_size_bytes s; Ok (n * page))) as Hmul.
  { intros f Hf c n n' x (y & Hy & (p & Hpage & [= <-])%bind_Ok)%bind_Ok. destruct (Hf c n n' y Hy) as (z & Hz & Hle).
    exists (z * p). rewrite Hz, bind_ret, Hpage. split; [done|]. intros ?. specialize (Hle ltac:(done)).
    specialize (Hp p Hpage). nia. }
  assert (∀ g : SizeConfig → Z, (∀ c n n', n ≤ n' → g (with_max_model_len n c) ≤ g (with_max_model_len n' c)) →
            grows (λ c, page ← page_size_bytes s; Ok (g c * page))) as Hblocks.
  { intros g Hg. apply grows_bind. intros p Hpage c n n' x [= <-]. eexists. split; [done|]. intros Hle.
    specialize (Hg c n n' Hle). specialize (Hp p Hpage). nia. }
  assert (∀ w, grows (λ c, page ← page_size_bytes s;
            Ok (swa_max_admission_blocks w (layer_block_size s) (cfg_max_num_batched_tokens c) (cfg_max_model_len c) * page))) as Hswa.
  { intros w. apply (Hblocks (λ c, swa_max_admission_blocks w _ _ _)). intros c n n' Hle. cbn.
    unfold swa_max_admission_blocks. apply Z.add_le_mono_r, cdiv_mono; [done|]. lia. }
  unfold max_memory_usage_bytes.
  destruct s as [b a f|b a f t|b a f m|b a f m|b a f w|b a f k|b a ch|b a w hv|b a w hv m|b f|b a|b a]; cbn [layer_block_size] in *;
    try (by apply Hmul); try (by apply grows_const).
  - apply (grows_bind (div_ ch b)). intros _ _. apply (Hblocks (λ c, chunked_max_admission_blocks ch b _ _)).
    intros c n n' Hle. cbn. unfold chunked_max_admission_blocks. apply cdiv_mono; [done|]. lia.
  - apply (grows_guard (λ c, dcp_size c =? 1)); [done|]. apply (grows_bind (div_ w b)). intros _ _. by apply Hswa.
  - apply (grows_guard (λ c, dcp_size c =? 1)); [done|]. apply (grows_bind (div_ w b)). intros _ _. by apply Hswa.
  - apply grows_bind. intros p Hpage c n n' x. cbn. destruct (String.eqb _ "all"); [|destruct (String.eqb _ "align")].
    + intros (q & [_ ->]%cdiv_Ok & [= <-])%bind_Ok. eexists. split.
      { unfold cdiv_. rewrite (proj2 (Z.eqb_neq b 0)) by lia. done. }
      intros Hle. specialize (Hp p Hpage). pose proof (cdiv_mono n n' b Hb Hle). nia.
    + intros [= <-]. by eexists.
    + intros [= <-]. by eexists.
  - intros c n n' x H. exists x. by split.
Qed.

Lemma grows_sum {A} (f : A → SizeConfig → result Z) (l : list A) :
  (∀ a, a ∈ l → grows (f a)) → grows (λ c, ns ← mapR (λ a, f a c) l; Ok (sum_of ns)).
Proof.
  intros Hf c n n' x (xs & Hxs & [= <-])%bind_Ok. destruct (grows_map f l c n n' xs Hf Hxs) as (ys & Hys & HF).
  exists (sum_of ys). rewrite Hys. split; [done|]. intros ?. apply sum_of_mono. auto.
Qed.
Lemma grows_max {A} (f : A → SizeConfig → result Z) (l : list A) :
  (∀ a, a ∈ l → grows (f a)) → grows (λ c, ns ← mapR (λ a, f a c) l; max_of ns).
Proof.
  intros Hf c n n' x (xs & Hxs & Hm)%bind_Ok. destruct (grows_map f l c n n' xs Hf Hxs) as (ys & Hys & HF).
  destruct (max_of_total ys) as [m' Hm'].
  { intros ->. apply mapR_Forall2, Forall2_length in Hys, Hxs. cbn in Hys. rewrite Hys in Hxs. by destruct xs. }
  exists m'. rewrite Hys. split; [done|]. intros Hle. destruct (max_of_mono _ _ _ (HF Hle) Hm) as (m & E & ?).
  rewrite Hm' in E. by injection E as <-.
Qed.

Lemma max_memory_pages_grows specs :
  (∀ s, s ∈ specs.*2 → layer_pages_ok s) → grows (λ c, max_memory_usage_pages c specs).
Proof.
  intros Hok. apply (grows_max (λ s c, n ← max_memory_usage_bytes c s; p ← page_size_bytes s; cdiv_ n p)).
  intros s Hs c n n' x (y & Hy & (p & Hp & Hx)%bind_Ok)%bind_Ok.
  assert (0 ≤ p) by (pose proof (proj2 (Hok s Hs) p Hp); lia).
  destruct (grows_cdiv _ p ltac:(done) (max_memory_grows s (Hok s Hs)) c n n' x) as (z & Hz & Hle).
  { by rewrite Hy. }
  exists z. apply bind_Ok in Hz as (y' & Hy' & Hz). rewrite Hy', bind_ret, Hp. done.
Qed.

Lemma layer_page_sizes_pos specs ps :
  (∀ s, s ∈ specs.*2 → layer_pages_ok s) → layer_page_sizes specs = Ok ps → ∀ p, p ∈ ps → 0 < p.
Proof.
  intros Hok Hps p Hp. apply mapR_Forall2 in Hps. apply list_elem_of_lookup in Hp as [i Hi].
  destruct (Forall2_lookup_r _ _ _ _ _ Hps Hi) as (s & Hs & Hps'). apply (proj2 (Hok s (list_elem_of_lookup_2 _ _ _ Hs)) p Hps').
Qed.
Lemma group_page_size_nonneg g p : group_pages_ok g → group_page_size g = Ok p → 0 ≤ p.
Proof.
  destruct g as [s|b specs]; cbn.
  - intros [_ H] Hp. specialize (H p Hp). lia.
  - intros H (ps & Hps & [= <-])%bind_Ok. apply sum_of_nonneg. intros q Hq.
    pose proof (layer_page_sizes_pos specs ps H Hps q Hq). lia.
Qed.

Lemma group_max_memory_grows g : group_pages_ok g → grows (λ c, group_max_memory c g).
Proof.
  intros Hg. destruct g as [s|b specs]; [by apply max_memory_grows|].
  intros c n n' x (y & Hy & (p & Hp & [= <-])%bind_Ok)%bind_Ok.
  destruct (max_memory_pages_grows specs Hg c n n' y Hy) as (z & Hz & Hle). exists (z * p).
  unfold group_max_memory. rewrite Hz, bind_ret, Hp. split; [done|]. intros Hn. specialize (Hle Hn).
  pose proof (group_page_size_nonneg _ _ Hg Hp). nia.
Qed.

Lemma only_one_elem {A} `{!EqDecision A} (l : list A) x : only_one l = Ok x ↔ l ≠ [] ∧ ∀ y, y ∈ l → y = x.
Proof.
  unfold only_one. destruct (remove_dups l) as [|z [|z' zs]] eqn:E.
  - split; [done|]. intros [Hne _]. destruct l as [|y l]; [done|]. exfalso.
    apply (not_elem_of_nil y). rewrite <-E. apply elem_of_remove_dups. by left.
  - assert (∀ y, y ∈ l ↔ y = z) as Hz by (intros y; rewrite <-(elem_of_remove_dups l y), E; apply list_elem_of_singleton).
    split.
    + intros [= <-]. split; [intros ->; by apply (not_elem_of_nil z), Hz|]. intros y. apply Hz.
    + intros [_ H]. f_equal. by apply H, Hz.
  - split; [done|]. intros [_ H]. exfalso. pose proof (NoDup_remove_dups l) as Hnd. rewrite E in Hnd.
    apply NoDup_cons in Hnd as [Hnd _]. apply Hnd.
    assert (z = x ∧ z' = x) as [-> ->]; [|by left].
    split; apply H, elem_of_remove_dups; rewrite E; [by left|right; by left].
Qed.

Lemma uniform_page_size_all (gs : list GroupSpec) p :
  get_uniform_page_size gs = Ok p ↔ gs ≠ [] ∧ ∀ g, g ∈ gs → group_page_size g = Ok p.
Proof.
  unfold get_uniform_page_size. split.
  - intros (ps & Hps%mapR_Forall2 & [Hne Hall]%only_one_elem)%bind_Ok. split; [by intros ->; inversion Hps; subst|].
    intros g Hg. apply list_elem_of_lookup in Hg as [i Hi]. destruct (Forall2_lookup_l _ _ _ _ _ Hps Hi) as (q & Hq & Hp).
    by rewrite <-(Hall q (list_elem_of_lookup_2 _ _ _ Hq)).
  - intros [Hne Hall]. rewrite (proj2 (mapR_Forall2 _ gs (replicate (length gs) p))).
    + mrun. apply only_one_elem. split; [by destruct gs|]. intros y [-> _]%elem_of_replicate. done.
    + apply Forall2_same_length_lookup. split; [by rewrite length_replicate|].
      intros i g q Hg [-> _]%lookup_replicate. apply Hall, (list_elem_of_lookup_2 _ _ _ Hg).
Qed.

Lemma num_layer_tuples_nonneg specs k : get_num_layer_tuples specs = Ok k → 0 ≤ k.
Proof.
  intros (ps & _ & H)%bind_Ok. destruct ps as [|p ps]; [done|].
  eapply max_of_nonneg; [|exact H]. intros ? (q & -> & _)%list_elem_of_fmap. lia.
Qed.

Lemma several_groups_memory_grows groups :
  (∀ g, g ∈ groups → group_pages_ok (gspec g)) → grows (λ c, several_groups_memory c groups).
Proof.
  intros Hok. unfold several_groups_memory. destruct (forallb is_uniform_group groups).
  - set (uniform := uniform_specs groups).
    assert (∀ d, d ∈ uniform → ∀ s, s ∈ d.*2 → layer_pages_ok s) as Hu.
    { intros d (g & Hg & Hd)%list_elem_of_omap. specialize (Hok g Hg). destruct (gspec g); by simplify_eq. }
    intros c n n' x (d & Hd & (ps & Hps & (ts & Hts & (k & Hk & (xs & Hxs & [= <-])%bind_Ok)%bind_Ok)%bind_Ok)%bind_Ok)%bind_Ok.
    destruct (grows_map (λ d c, max_memory_usage_pages c d) uniform c n n' xs) as (ys & Hys & HF); [|done|].
    { intros d' Hd'. apply max_memory_pages_grows. exact (Hu d' Hd'). }
    change (mapR (max_memory_usage_pages (with_max_model_len n' c)) uniform = Ok ys) in Hys.
    rewrite Hd, bind_ret, Hps, bind_ret, Hts, bind_ret, Hk, bind_ret, Hys. eexists. split; [done|].
    intros Hle. apply sum_of_mono. specialize (HF Hle).
    assert (0 ≤ k) as Hk0.
    { apply (max_of_nonneg ts); [|done]. intros t Ht. apply mapR_Forall2 in Hts.
      apply list_elem_of_lookup in Ht as [i Hi]. destruct (Forall2_lookup_r _ _ _ _ _ Hts Hi) as (d' & _ & Ht).
      by eapply num_layer_tuples_nonneg. }
    assert (0 ≤ sum_of ps) as Hp0.
    { apply bind_Ok in Hps as (qs & Hqs & [= <-]). apply sum_of_nonneg. intros p Hp. rewrite elem_of_remove_dups in Hp.
      assert (d ∈ uniform) as Hin by (destruct uniform; cbn in Hd; simplify_eq; by left).
      pose proof (layer_page_sizes_pos d qs (Hu d Hin) Hqs p Hp). lia. }
    apply Forall2_fmap. eapply Forall2_impl; [exact HF|]. cbn. intros a b Hab. by apply Z.mul_le_mono_nonneg_r, Z.mul_le_mono_nonneg_l.
  - intros c n n' x (k & Hk & (p & Hp & (bs & Hbs & [= <-])%bind_Ok)%bind_Ok)%bind_Ok.
    assert (0 ≤ k).
    { eapply max_of_nonneg; [|exact Hk]. intros ? (g & -> & _)%list_elem_of_fmap. unfold zlen. apply Nat2Z.is_nonneg. }
    assert (0 ≤ p).
    { apply uniform_page_size_all in Hp as [Hne Hall]. destruct groups as [|g gs]; [done|].
      apply (group_page_size_nonneg (gspec g)); [apply Hok|apply Hall]; by left. }
    destruct (grows_map (λ g c, n ← group_max_memory c (gspec g); cdiv_ n p) groups c n n' bs) as (ys & Hys & HF); [|done|].
    { intros g Hg. apply grows_cdiv; [done|]. apply group_max_memory_grows. auto. }
    exists (k * p * sum_of ys). rewrite Hk, bind_ret, Hp, bind_ret, Hys. split; [done|].
    intros Hle. apply Z.mul_le_mono_nonneg_l; [lia|]. apply sum_of_mono. auto.
Qed.

(** The memory of one request of maximal length is defined for every length or
    for none, and does not shrink when the length grows. *)
Lemma groups_memory_grows groups :
  (∀ g, g ∈ groups → group_pages_ok (gspec g)) → grows (λ c, _max_memory_usage_bytes_from_groups c groups).
Proof.
  intros Hok. pose proof (several_groups_memory_grows groups Hok) as Hmain.
  destruct groups as [|[names [s|b specs] e] [|g gs]]; [apply (grows_const (Ok 0))|exact Hmain|exact Hmain| |exact Hmain].
  apply (grows_sum (λ s c, max_memory_usage_bytes c s)). intros s Hs. apply max_memory_grows.
  apply (Hok _ (list_elem_of_here _ _) s Hs).
Qed.

Lemma with_own_len c : with_max_model_len (cfg_max_model_len c) c = c.
Proof. by destruct c. Qed.

(** C11: the automatic choice of the context length is exact.  If the memory of
    one request is computable at all, the search returns a length [r] and a
    request of length [n] fits the available memory exactly when [n <= r]. *)
Theorem max_len_search_exact c groups memory needed :
  (∀ g, g ∈ groups → group_pages_ok (gspec g)) → 1 ≤ cfg_max_model_len c →
  _max_memory_usage_bytes_from_groups c groups = Ok needed →
  ∃ r, _estimate_max_model_len_from_groups c groups memory = Ok r ∧ 0 ≤ r ≤ cfg_max_model_len c ∧
    ∀ n, 1 ≤ n ≤ cfg_max_model_len c → ∃ m,
      _max_memory_usage_bytes_from_groups (with_max_model_len n c) groups = Ok m ∧ (m ≤ memory ↔ n ≤ r).
Proof.
  intros Hok Hlen Hneed. pose proof (groups_memory_grows groups Hok c) as Hg.
  rewrite <-(with_own_len c) in Hneed.
  set (P n := match _max_memory_usage_bytes_from_groups (with_max_model_len n c) groups with
              | Ok m => m <=? memory | Raise _ => false end).
  destruct (search_max_len_ok (λ n, m ← _max_memory_usage_bytes_from_groups (with_max_model_len n c) groups;
              Ok (m <=? memory)) P (cfg_max_model_len c)) as (r & Hr & Hb & Hex); [done| | |].
  - intros n Hn. destruct (Hg _ n _ Hneed) as (m & Hm & _). unfold P. by rewrite Hm.
  - intros m n Hmn Hn. unfold P. destruct (Hg _ m _ Hneed) as (x & Hx & _). destruct (Hg m n x Hx) as (y & Hy & Hle).
    rewrite Hx, Hy. specialize (Hle ltac:(lia)). rewrite !Z.leb_le. lia.
  - exists r. split; [exact Hr|]. split; [done|]. intros n Hn. destruct (Hg _ n _ Hneed) as (m & Hm & _).
    exists m. split; [done|]. rewrite <-(Hex n Hn). unfold P. rewrite Hm. by rewrite Z.leb_le.
Qed.

End Sizing.
