(* ===== verification/KVLayout.v ===== *)
(** * The layout of the KV cache in the memory of a worker

    [get_kv_cache_config_from_groups] gives every layer a place in a tensor.
    Layers of different groups may share a place, since their blocks come from
    one pool and are never in use by two groups; layers of one group may not,
    since they use the same blocks.  The theorems below say that this is the
    case for all three layouts, that pages do not overlap, and that the tensors
    fit the available memory. *)

From S2P Require Import Prelude MathUtils PyDict Request BlockHash KVMetrics FreeQueue BlockPool.
From S2P Require Import SingleTypeManager Coordinator KVSpec KVGroups KVSizing.

(** ** Columns of a table *)

Section Columns.
Context {A : Type}.
Implicit Types (row : list A) (rows : list (list A)).

Definition max_len rows : nat := foldr (λ r m, length r `max` m) 0 rows.

(** Column [i] holds element [i] of every row that is long enough. *)
Definition columns rows : list (list A) := zip_rows (max_len rows) rows.

Lemma max_len_ge rows row : row ∈ rows → length row ≤ max_len rows.
Proof. unfold max_len. induction 1; cbn; lia. Qed.
Lemma max_len_app rows rows' : max_len (rows ++ rows') = max_len rows `max` max_len rows'.
Proof. unfold max_len. induction rows as [|r rows IH]; cbn; [done|]. rewrite IH. lia. Qed.

Lemma max_len_snoc rows row : max_len (rows ++ [row]) = max_len rows `max` length row.
Proof. rewrite max_len_app. cbn. lia. Qed.

Lemma lookup_zip_rows n rows i :
  zip_rows n rows !! i = if decide (i < n) then Some (omap (λ r, r !! i) rows) else None.
Proof.
  unfold zip_rows. rewrite list_lookup_fmap. case_decide.
  - by rewrite lookup_seq_lt.
  - by rewrite lookup_seq_ge by lia.
Qed.

Lemma concat_zip {B} (f : B → option A) (g : B → list A) (l : list B) :
  concat ((λ i, option_list (f i) ++ g i) <$> l) ≡ₚ omap f l ++ concat (g <$> l).
Proof.
  induction l as [|i l IH]; cbn; [done|]. rewrite <- !app_assoc, IH.
  destruct (f i); cbn; [constructor|]; rewrite !app_assoc; by apply Permutation_app_tail, Permutation_app_comm.
Qed.

Lemma omap_lookup_seq row n : length row ≤ n → omap (λ i, row !! i) (seq 0 n) = row.
Proof.
  revert n. induction row as [|x row IH]; intros n Hn.
  { induction (seq 0 n); cbn; [done|]. by rewrite lookup_nil. }
  destruct n as [|n]; [cbn in Hn; lia|]. cbn. f_equal.
  transitivity (omap (λ i, row !! i) (seq 0 n)); [|apply IH; cbn in Hn; lia].
  rewrite <- fmap_S_seq. induction (seq 0 n) as [|i l IHl]; cbn; [done|]. by rewrite IHl.
Qed.

(** The columns share out the elements of the rows. *)
Lemma zip_rows_all n rows :
  (∀ row, row ∈ rows → length row ≤ n) → concat (zip_rows n rows) ≡ₚ concat rows.
Proof.
  induction rows as [|row rows IH]; intros Hn; cbn.
  { unfold zip_rows. cbn. induction (seq 0 n); cbn; done. }
  rewrite <- IH by (intros r Hr; apply Hn; by right).
  assert (zip_rows n (row :: rows) = (λ i, option_list (row !! i) ++ omap (λ r, r !! i) rows) <$> seq 0 n) as ->.
  { apply list_fmap_ext. intros _ i _. cbn. by destruct (row !! i). }
  rewrite concat_zip, omap_lookup_seq; [done|]. apply Hn. by left.
Qed.

Lemma elem_of_concat rows x : x ∈ concat rows ↔ ∃ row, x ∈ row ∧ row ∈ rows.
Proof. rewrite list_elem_of_In, in_concat. split; intros (r & H1 & H2); exists r; by rewrite ?list_elem_of_In in *. Qed.

Lemma nodup_concat_index rows a b r r' x :
  NoDup (concat rows) → rows !! a = Some r → rows !! b = Some r' → x ∈ r → x ∈ r' → a = b.
Proof.
  revert a b. induction rows as [|q rows IH]; cbn; [done|]. intros a b (Hq & Hd & Hnd)%NoDup_app Ha Hb Hx Hx'.
  destruct a as [|a], b as [|b]; cbn in *; simplify_eq; try done.
  - exfalso. apply (Hd x Hx), elem_of_concat. eauto using list_elem_of_lookup_2.
  - exfalso. apply (Hd x Hx'), elem_of_concat. eauto using list_elem_of_lookup_2.
  - f_equal. by apply IH.
Qed.
Lemma nodup_concat_same rows r r' x :
  NoDup (concat rows) → r ∈ rows → r' ∈ rows → x ∈ r → x ∈ r' → r = r'.
Proof.
  intros Hnd [a Ha]%list_elem_of_lookup [b Hb]%list_elem_of_lookup Hx Hx'.
  rewrite (nodup_concat_index rows a b r r' x) in Ha by done. congruence.
Qed.

(** A column has at most one element of every row. *)
Lemma column_one n rows i column r x y :
  NoDup (concat rows) → zip_rows n rows !! i = Some column → r ∈ rows →
  x ∈ column → y ∈ column → x ∈ r → y ∈ r → x = y.
Proof.
  intros Hnd Hc Hr Hx Hy Hxr Hyr. rewrite lookup_zip_rows in Hc. case_decide; simplify_eq.
  apply list_elem_of_omap in Hx as (rx & Hrx & Hx), Hy as (ry & Hry & Hy).
  assert (rx = r) as -> by (eapply nodup_concat_same; eauto using list_elem_of_lookup_2).
  assert (ry = r) as -> by (eapply nodup_concat_same; eauto using list_elem_of_lookup_2). congruence.
Qed.

End Columns.

(** ** Slots of the packed layout *)

Section Slots.
Implicit Types (slots : list (list string)) (buckets : list (Z * list (list string))).

Lemma slot_append_lookup k name slots i :
  k ≤ length slots →
  slot_append k name slots !! i = if decide (i = k) then Some (default [] (slots !! i) ++ [name]) else slots !! i.
Proof.
  revert k i. induction slots as [|row slots IH]; intros [|k] [|i] Hk; cbn in *; try done; try lia.
  rewrite IH by lia. repeat case_decide; try done; lia.
Qed.
Lemma slot_append_all k name slots : concat (slot_append k name slots) ≡ₚ concat slots ++ [name].
Proof.
  revert k. induction slots as [|row slots IH]; intros [|k]; cbn; [done|done| |].
  - rewrite <- !app_assoc. apply Permutation_app_head, Permutation_app_comm.
  - by rewrite IH, app_assoc.
Qed.

Lemma slot_append_columns rows row name :
  slot_append (length row) name (columns (rows ++ [row])) = columns (rows ++ [row ++ [name]]).
Proof.
  apply list_eq. intros i. unfold columns. rewrite slot_append_lookup, !lookup_zip_rows.
  2:{ unfold zip_rows. rewrite length_fmap, length_seq, max_len_snoc. lia. }
  rewrite !omap_app, !max_len_snoc, length_app. cbn [omap list_omap length].
  destruct (decide (i = length row)) as [->|Hi].
  - rewrite (decide_True (P := length row < max_len rows `max` (length row + 1))) by lia.
    rewrite lookup_app_r, Nat.sub_diag by lia. cbn. rewrite (lookup_ge_None_2 row) by lia. cbn. rewrite app_nil_r.
    case_decide; cbn; [done|].
    assert (omap (λ r, r !! length row) rows = []) as ->; [|done].
    apply elem_of_nil_inv. intros x (r & Hr & Hx)%list_elem_of_omap.
    apply lookup_lt_Some in Hx. pose proof (max_len_ge rows r Hr). lia.
  - assert ((row ++ [name]) !! i = row !! i) as ->.
    { destruct (decide (i < length row)); [by rewrite lookup_app_l by lia|].
      rewrite !(lookup_ge_None_2 _ i); [done|lia|rewrite length_app; cbn; lia]. }
    repeat case_decide; try done; lia.
Qed.
Lemma columns_nil (rows : list (list string)) : columns (rows ++ [[]]) = columns rows.
Proof.
  apply list_eq. intros i. unfold columns. rewrite !lookup_zip_rows, max_len_snoc, omap_app. cbn.
  rewrite lookup_nil, app_nil_r. repeat case_decide; try done; lia.
Qed.

Fixpoint bucket_get (ps : Z) buckets : list (list string) :=
  match buckets with
  | [] => []
  | (ps', slots) :: buckets => if (ps =? ps')%Z then slots else bucket_get ps buckets
  end.

Lemma bucket_get_append ps k name buckets ps' :
  bucket_get ps' (bucket_append ps k name buckets) =
    if decide (ps' = ps) then slot_append k name (bucket_get ps' buckets) else bucket_get ps' buckets.
Proof.
  induction buckets as [|[q slots] buckets IH]; cbn.
  { destruct (Z.eqb_spec ps' ps); case_decide; try done; by destruct k. }
  destruct (Z.eqb_spec ps q) as [->|]; cbn.
  - destruct (Z.eqb_spec ps' q); case_decide; done.
  - rewrite IH. destruct (Z.eqb_spec ps' q), (decide (ps' = ps)); subst; done.
Qed.
Lemma bucket_append_keys ps k name buckets q :
  q ∈ (bucket_append ps k name buckets).*1 → q = ps ∨ q ∈ buckets.*1.
Proof.
  induction buckets as [|[q' slots] buckets IH]; cbn; [set_solver|].
  destruct (Z.eqb_spec ps q'); cbn; set_solver.
Qed.
Lemma bucket_append_nodup ps k name buckets :
  NoDup buckets.*1 → NoDup (bucket_append ps k name buckets).*1.
Proof.
  induction buckets as [|[q slots] buckets IH]; cbn; intros Hnd; [apply NoDup_singleton|].
  apply NoDup_cons in Hnd as [Hq Hnd]. destruct (Z.eqb_spec ps q); cbn; constructor; auto.
  intros [->|?]%bucket_append_keys; done.
Qed.
Lemma bucket_append_all ps k name buckets :
  concat (concat (bucket_append ps k name buckets).*2) ≡ₚ concat (concat buckets.*2) ++ [name].
Proof.
  induction buckets as [|[q slots] buckets IH]; cbn; [done|]. destruct (ps =? q)%Z; cbn; rewrite !concat_app.
  - rewrite slot_append_all, <- !app_assoc. apply Permutation_app_head, Permutation_app_comm.
  - by rewrite IH, app_assoc.
Qed.
Lemma bucket_get_elem ps slots buckets : NoDup buckets.*1 → (ps, slots) ∈ buckets → bucket_get ps buckets = slots.
Proof.
  induction buckets as [|[q sl] buckets IH]; cbn; intros Hnd Hin; [by apply not_elem_of_nil in Hin|].
  apply NoDup_cons in Hnd as [Hq Hnd]. apply elem_of_cons in Hin as [[= <- <-]|Hin]; [by rewrite Z.eqb_refl|].
  destruct (Z.eqb_spec ps q) as [->|]; [|by apply IH]. exfalso. apply Hq, (list_elem_of_fmap_2 fst _ _ Hin).
Qed.

(** The layers of a group with a given page size. *)
Definition of_size (ps : Z) (layers : list (string * Z)) : list string := (filter (λ x, x.2 = ps) layers).*1.

Lemma occ_of_size ps layers : occ ps layers.*2 = length (of_size ps layers).
Proof.
  unfold of_size. induction layers as [|[n q] layers IH]; [done|]. cbn [fmap list_fmap snd]. rewrite occ_cons, IH, filter_cons.
  cbn. repeat case_decide; cbn; try done; congruence.
Qed.

Lemma bucket_group_spec (rows : Z → list (list string)) before layers buckets :
  (∀ ps, bucket_get ps buckets = columns (rows ps ++ [of_size ps before])) →
  ∀ ps, bucket_get ps (bucket_group before.*2 layers buckets) = columns (rows ps ++ [of_size ps (before ++ layers)]).
Proof.
  revert before buckets. induction layers as [|[n q] layers IH]; intros before buckets H ps; cbn.
  { by rewrite app_nil_r, H. }
  rewrite (cons_middle (n, q) before layers), app_assoc.
  rewrite <- (IH (before ++ [(n, q)]) (bucket_append q (occ q before.*2) n buckets)).
  { by rewrite fmap_app. }
  intros ps'. rewrite bucket_get_append, H. unfold of_size at 3. rewrite filter_app, fmap_app, filter_cons.
  case_decide as Hq; cbn.
  - subst. rewrite occ_of_size, slot_append_columns, decide_True; done.
  - rewrite decide_False; [|congruence]. cbn. by rewrite app_nil_r.
Qed.
Lemma bucket_group_nodup seen layers buckets : NoDup buckets.*1 → NoDup (bucket_group seen layers buckets).*1.
Proof. revert seen buckets. induction layers as [|[n q] layers IH]; intros; cbn; [done|]. by apply IH, bucket_append_nodup. Qed.
Lemma bucket_group_all seen layers buckets :
  concat (concat (bucket_group seen layers buckets).*2) ≡ₚ concat (concat buckets.*2) ++ layers.*1.
Proof.
  revert seen buckets. induction layers as [|[n q] layers IH]; intros; cbn; [by rewrite app_nil_r|].
  by rewrite IH, bucket_append_all, <- app_assoc.
Qed.
Lemma bucket_group_keys seen layers buckets q :
  q ∈ (bucket_group seen layers buckets).*1 → q ∈ layers.*2 ∨ q ∈ buckets.*1.
Proof.
  revert seen buckets. induction layers as [|[n q'] layers IH]; intros seen buckets; cbn; [by right|].
  intros [?|[->|?]%bucket_append_keys]%IH; [left; by right|left; by left|by right].
Qed.

End Slots.

(** ** Placement of the layers *)

Section Layout.
Local Open Scope Z_scope.
Context {dt : DTypes}.
Implicit Types (groups : list KVGroup) (c : SizeConfig).

(** The layers of a group with their page sizes. *)
Definition group_layers (g : KVGroup) (layers : list (string * Z)) : Prop :=
  mapR (λ n, p ← layer_page (gspec g) n; Ok (n, p)) (layer_names g) = Ok layers.

Lemma group_layers_page g layers :
  group_layers g layers → layers.*1 = layer_names g ∧ ∀ n p, (n, p) ∈ layers → layer_page (gspec g) n = Ok p.
Proof.
  intros H%mapR_Forall2. split.
  - induction H as [|n [n' p] names layers (q & _ & [= <- <-])%bind_Ok _ IH]; cbn; [done|by f_equal].
  - intros n p [i Hi]%list_elem_of_lookup. destruct (Forall2_lookup_r _ _ _ _ _ H Hi) as (m & _ & (q & Hq & [= -> ->])%bind_Ok).
    done.
Qed.

Lemma buckets_spec groups buckets :
  _bucket_layers_by_page_size groups = Ok buckets →
  NoDup buckets.*1 ∧ concat (concat buckets.*2) ≡ₚ concat (layer_names <$> groups) ∧
  ∃ layers, Forall2 group_layers groups layers ∧ ∀ ps, bucket_get ps buckets = columns (of_size ps <$> layers).
Proof.
  unfold _bucket_layers_by_page_size. revert buckets. induction groups as [|g groups IH] using rev_ind; intros buckets.
  { intros [= <-]. split; [constructor|]. split; [done|]. by exists []. }
  rewrite foldM_app. intros (b & Hb & (b' & (layers & Hl & [= <-])%bind_Ok & [= <-])%bind_Ok)%bind_Ok.
  destruct (IH b Hb) as (Hnd & Hall & ls & Hls & Hget). destruct (group_layers_page g layers Hl) as [Hn _].
  split; [by apply bucket_group_nodup|]. split.
  - rewrite bucket_group_all, Hall, Hn, fmap_app, concat_app. cbn. by rewrite app_nil_r.
  - exists (ls ++ [layers]). split; [by apply Forall2_app; [|constructor]|]. intros ps. rewrite fmap_app.
    apply (bucket_group_spec (λ ps, of_size ps <$> ls) []). intros ps'. by rewrite Hget, columns_nil.
Qed.

(** Slots do not share layers of one group, and hold layers of their size. *)
Lemma bucket_slot groups buckets ps slots slot :
  NoDup (concat (layer_names <$> groups)) → _bucket_layers_by_page_size groups = Ok buckets →
  (ps, slots) ∈ buckets → slot ∈ slots → ∀ g x y, g ∈ groups → x ∈ slot → x ∈ layer_names g →
  layer_page (gspec g) x = Ok ps ∧ (y ∈ slot → y ∈ layer_names g → x = y).
Proof.
  intros Hnd (Hk & _ & layers & HF & Hget)%buckets_spec Hin Hslot g x y [a Ha]%list_elem_of_lookup Hx Hxg.
  apply bucket_get_elem in Hin as <-; [|done]. rewrite Hget in Hslot. apply list_elem_of_lookup in Hslot as [i Hi].
  unfold columns in Hi. rewrite lookup_zip_rows in Hi. case_decide; simplify_eq.
  assert (∀ z, z ∈ omap (λ r, r !! i) (of_size ps <$> layers) → z ∈ layer_names g →
            ∃ ls, layers !! a = Some ls ∧ of_size ps ls !! i = Some z) as Hrow.
  { intros z (r & Hr & Hz)%list_elem_of_omap Hzg. apply list_elem_of_lookup in Hr as [b Hb].
    rewrite list_lookup_fmap in Hb. apply fmap_Some in Hb as (ls & Hls & ->).
    destruct (Forall2_lookup_r _ _ _ _ _ HF Hls) as (g' & Hg' & Hgl). destruct (group_layers_page g' ls Hgl) as [Hn _].
    assert (b = a) as ->; [|by exists ls].
    apply (nodup_concat_index (layer_names <$> groups) b a (layer_names g') (layer_names g) z); try done.
    - by rewrite list_lookup_fmap, Hg'.
    - by rewrite list_lookup_fmap, Ha.
    - rewrite <- Hn. apply list_elem_of_lookup_2 in Hz. unfold of_size in Hz.
      apply list_elem_of_fmap in Hz as (u & -> & [_ Hu]%list_elem_of_filter). by apply list_elem_of_fmap_2. }
  destruct (Hrow x Hx Hxg) as (ls & Hls & Hxi). split.
  - destruct (Forall2_lookup_r _ _ _ _ _ HF Hls) as (g' & Hg' & Hgl). rewrite Ha in Hg'. injection Hg' as <-.
    apply (proj2 (group_layers_page g ls Hgl)). apply list_elem_of_lookup_2 in Hxi.
    apply list_elem_of_fmap in Hxi as ([x' p] & -> & [Hp Hu]%list_elem_of_filter). cbn in Hp. by subst p.
  - intros Hy Hyg. destruct (Hrow y Hy Hyg) as (ls' & Hls' & Hyi). congruence.
Qed.

(** *** Offsets *)

Fixpoint place (total stride offset : Z) (slots : list (Z * list string)) : list KVCacheTensor :=
  match slots with
  | [] => []
  | (ps, slot) :: slots => mkTensor total slot offset stride :: place total stride (offset + ps) slots
  end.
Fixpoint flat_slots (buckets : list (Z * list (list string))) : list (Z * list string) :=
  match buckets with
  | [] => []
  | (ps, slots) :: buckets => ((λ slot, (ps, slot)) <$> slots) ++ flat_slots buckets
  end.

Lemma place_app total stride offset l l' :
  place total stride offset (l ++ l') = place total stride offset l ++ place total stride (offset + sum_of l.*1) l'.
Proof.
  revert offset. induction l as [|[ps slot] l IH]; intros offset; cbn; [by rewrite Z.add_0_r|].
  rewrite IH, Z.add_assoc. done.
Qed.
Lemma packed_tensors_place total stride buckets :
  packed_tensors total stride buckets = place total stride 0 (flat_slots buckets) ∧
  sum_of (flat_slots buckets).*1 = bytes_per_block buckets.
Proof.
  unfold packed_tensors.
  assert (∀ (ps : Z) (slots : list (list string)) (o : Z) (ts : list KVCacheTensor),
    fold_left (λ acc slot, let '(offset, ts) := acc in
      (offset + ps, ts ++ [mkTensor total slot offset stride])) slots (o, ts)%Z =
    (o + ps * zlen slots, ts ++ place total stride o ((λ slot, (ps, slot)) <$> slots))%Z ∧
    sum_of ((λ slot, (ps, slot)) <$> slots).*1 = (ps * zlen slots)%Z) as Hin.
  { intros ps slots. induction slots as [|slot slots IH]; intros o ts; cbn -[Z.of_nat Z.mul].
    - rewrite app_nil_r. split; f_equal; lia.
    - destruct (IH (o + ps)%Z (ts ++ [mkTensor total slot o stride])) as [H1 H2]. rewrite H1, <- app_assoc.
      unfold sum_of in *. split; [f_equal; lia|]. rewrite H2. lia. }
  assert (∀ (o : Z) (ts : list KVCacheTensor), fold_left (λ acc x, fold_left (λ acc slot,
       let '(offset, ts) := acc in (offset + x.1, ts ++ [mkTensor total slot offset stride])) x.2 acc)%Z buckets (o, ts) =
     (o + sum_of (flat_slots buckets).*1, ts ++ place total stride o (flat_slots buckets))%Z ∧
     sum_of (flat_slots buckets).*1 = bytes_per_block buckets) as H.
  { unfold bytes_per_block. induction buckets as [|[ps slots] buckets IH]; intros o ts; cbn -[Z.of_nat Z.mul].
    - rewrite app_nil_r. split; f_equal; lia.
    - destruct (Hin ps slots o ts) as [H1 H2]. rewrite H1.
      destruct (IH (o + ps * zlen slots)%Z (ts ++ place total stride o ((λ slot, (ps, slot)) <$> slots))) as [H3 H4].
      rewrite H3, place_app, fmap_app, sum_of_app, H2, <- app_assoc. unfold sum_of in *. split; [f_equal; lia|]. rewrite H4. lia. }
  destruct (H 0%Z []) as [-> H2]. done.
Qed.

Lemma place_lookup total stride offset slots i t :
  place total stride offset slots !! i = Some t → ∃ ps,
    slots !! i = Some (ps, shared_by t) ∧ tensor_size t = total ∧ block_stride t = stride ∧
    tensor_offset t = (offset + sum_of (take i slots).*1)%Z.
Proof.
  revert offset i. induction slots as [|[ps slot] slots IH]; intros offset [|i]; cbn; try done.
  - intros [= <-]. exists ps. cbn. by rewrite Z.add_0_r.
  - intros (q & H1 & H2 & H3 & H4)%IH. exists q. rewrite H4, Z.add_assoc. done.
Qed.

Lemma flat_slots_elem buckets ps slot : (ps, slot) ∈ flat_slots buckets → ∃ slots, (ps, slots) ∈ buckets ∧ slot ∈ slots.
Proof.
  induction buckets as [|[q slots] buckets IH]; cbn; [by intros ?%not_elem_of_nil|].
  intros [(s & [= -> ->] & Hs)%list_elem_of_fmap|(sl & ? & ?)%IH]%elem_of_app; [exists slots|exists sl]; split; set_solver.
Qed.
Lemma flat_slots_all buckets : (flat_slots buckets).*2 = concat buckets.*2.
Proof.
  induction buckets as [|[ps slots] buckets IH]; cbn; [done|]. rewrite fmap_app, IH. f_equal.
  rewrite <- list_fmap_compose. cbn. induction slots; cbn; by f_equal.
Qed.
Lemma place_shared total stride offset slots : shared_by <$> place total stride offset slots = slots.*2.
Proof. revert offset. induction slots as [|[ps s] slots IH]; intros offset; cbn; by f_equal. Qed.

(** *** The layouts *)

Definition layout_ok groups (tensors : list KVCacheTensor) : Prop :=
  concat (shared_by <$> tensors) ≡ₚ concat (layer_names <$> groups) ∧
  ∀ t g x y, t ∈ tensors → g ∈ groups → x ∈ shared_by t → y ∈ shared_by t →
    x ∈ layer_names g → y ∈ layer_names g → x = y.

Lemma zip_layout_ok groups n size :
  NoDup (concat (layer_names <$> groups)) → (∀ g, g ∈ groups → (length (layer_names g) ≤ n)%nat) →
  layout_ok groups ((λ names, mkTensor size names 0 0) <$> zip_rows n (layer_names <$> groups)).
Proof.
  intros Hnd Hn. split.
  - rewrite <- list_fmap_compose. rewrite (list_fmap_ext _ id); [|done]. rewrite list_fmap_id.
    apply zip_rows_all. intros row (g & -> & Hg)%list_elem_of_fmap. auto.
  - intros t g x y (names & -> & [i Hi]%list_elem_of_lookup)%list_elem_of_fmap Hg Hx Hy Hxg Hyg.
    apply (column_one n (layer_names <$> groups) i names (layer_names g)); try done. by apply list_elem_of_fmap_2.
Qed.

Lemma packed_layout_ok groups buckets total stride :
  NoDup (concat (layer_names <$> groups)) → _bucket_layers_by_page_size groups = Ok buckets →
  layout_ok groups (packed_tensors total stride buckets).
Proof.
  intros Hnd Hb. rewrite (proj1 (packed_tensors_place total stride buckets)). split.
  - rewrite place_shared, flat_slots_all. by apply buckets_spec.
  - intros t g x y [i Hi]%list_elem_of_lookup Hg Hx Hy Hxg Hyg. apply place_lookup in Hi as (ps & Hi & _).
    apply list_elem_of_lookup_2, flat_slots_elem in Hi as (slots & Hin & Hs).
    by eapply (bucket_slot groups buckets ps slots (shared_by t)).
Qed.

Lemma max_group_size_ge groups n : max_group_size groups = Ok n → ∀ g, g ∈ groups → (length (layer_names g) ≤ Z.to_nat n)%nat.
Proof.
  intros [_ H]%max_of_spec g Hg. specialize (H (zlen (layer_names g)) (list_elem_of_fmap_2 _ _ _ Hg)). lia.
Qed.

Lemma several_layout_ok c groups memory w :
  NoDup (concat (layer_names <$> groups)) → several_groups_config c groups memory = Ok w →
  w_groups w = groups ∧ layout_ok groups (kv_cache_tensors w).
Proof.
  intros Hnd. unfold several_groups_config. destruct (_use_packed_kv_cache_config c groups).
  - intros ([n ts] & (b & Hb & (q & _ & [= <- <-])%bind_Ok)%bind_Ok & [= <-])%bind_Ok. split; [done|].
    by apply packed_layout_ok.
  - intros (k & Hk & (p & _ & (_ & _ & (n & _ & [= <-])%bind_Ok)%bind_Ok)%bind_Ok)%bind_Ok. split; [done|].
    apply zip_layout_ok; [done|]. by apply max_group_size_ge.
Qed.

(** In every layout of a worker's memory each layer has its place in
    exactly one tensor, and a tensor never holds two layers of one group, which
    would overwrite each other's blocks. *)
Lemma worker_layout c groups memory w :
  NoDup (concat (layer_names <$> groups)) → get_kv_cache_config_from_groups c groups memory = Ok w →
  w_groups w = groups ∧ layout_ok groups (kv_cache_tensors w).
Proof.
  intros Hnd. pose proof (several_layout_ok c groups memory w Hnd) as Hmain.
  destruct groups as [|[names [s|b specs] e] [|g gs]]; [|exact Hmain|exact Hmain| |exact Hmain].
  - intros [= <-]. split; [done|]. split; [done|]. by intros t g x y ?%not_elem_of_nil.
  - intros (p & _ & (n & _ & (ts & Hts%mapR_Forall2 & [= <-])%bind_Ok)%bind_Ok)%bind_Ok. split; [done|].
    assert (shared_by <$> ts = (λ n, [n]) <$> names) as Hsh.
    { clear -Hts. induction Hts as [|x t names ts (s & _ & (q & _ & [= <-])%bind_Ok)%bind_Ok _ IH]; cbn; by f_equal. }
    split; cbn [kv_cache_tensors].
    + rewrite Hsh. cbn. rewrite app_nil_r. clear. induction names; cbn; [done|by constructor].
    + intros t g x y Ht _ Hx Hy _ _. apply (list_elem_of_fmap_2 shared_by) in Ht. rewrite Hsh in Ht.
      apply list_elem_of_fmap in Ht as (z & Hz & _). rewrite Hz in Hx, Hy. set_solver.
Qed.

(** *** Sizes *)

(** Groups as [get_kv_cache_groups] makes them: layers are named once, the
    groups are all of one kind, and a group with a spec per layer has one for
    each of its layers, if it has layers on this worker. *)
Definition one_kind groups : Prop :=
  forallb is_uniform_group groups = true ∨ ∀ g, g ∈ groups → is_uniform_group g = false.
Definition own_specs (g : KVGroup) : Prop :=
  match gspec g with
  | UniformTypeKVCacheSpecs _ specs => layer_names g ≠ [] → specs.*1 = layer_names g
  | OneSpec _ => True
  end.
Definition groups_wf groups : Prop :=
  NoDup (concat (layer_names <$> groups)) ∧ one_kind groups ∧
  ∀ g, g ∈ groups → group_pages_ok (gspec g) ∧ own_specs g.

Lemma layer_page_pos g n p : group_pages_ok g → layer_page g n = Ok p → 0 < p.
Proof.
  destruct g as [s|b specs]; cbn; [by intros [_ H] Hp; apply H|].
  intros H (s & Hs%of_option_Ok & Hp)%bind_Ok. apply (H s); [|done].
  apply dict_get_elem in Hs. by apply (list_elem_of_fmap_2 snd) in Hs.
Qed.

Lemma bucket_key_page groups buckets ps :
  _bucket_layers_by_page_size groups = Ok buckets → ps ∈ buckets.*1 →
  ∃ g n, g ∈ groups ∧ layer_page (gspec g) n = Ok ps.
Proof.
  unfold _bucket_layers_by_page_size. revert buckets ps. induction groups as [|g groups IH] using rev_ind; intros buckets ps.
  { by intros [= <-] ?%not_elem_of_nil. }
  rewrite foldM_app. intros (b & Hb & (b' & (layers & Hl & [= <-])%bind_Ok & [= <-])%bind_Ok)%bind_Ok.
  intros [([n q] & -> & Hq)%list_elem_of_fmap|Hps]%bucket_group_keys.
  - exists g, n. split; [set_solver|]. by apply (proj2 (group_layers_page g layers Hl)).
  - destruct (IH b ps Hb Hps) as (g' & n & Hg & Hn). exists g', n. set_solver.
Qed.

Lemma sum_take_lt (l : list Z) i j p :
  (∀ x, x ∈ l → 0 ≤ x) → l !! i = Some p → (i < j)%nat →
  0 ≤ sum_of (take i l) ∧ sum_of (take i l) + p ≤ sum_of (take j l).
Proof.
  revert i j. induction l as [|x l IH]; intros i j Hl Hi Hj; [done|]. pose proof (Hl x (list_elem_of_here _ _)).
  assert (∀ y, y ∈ l → 0 ≤ y) as Hl' by (intros; apply Hl; by right).
  destruct j as [|j]; [lia|]. destruct i as [|i]; cbn in *; unfold sum_of in *; cbn.
  - simplify_eq. assert (0 ≤ sum_of (take j l)) as H0; [|unfold sum_of in H0; lia].
    apply sum_of_nonneg. intros y Hy. apply Hl', (subseteq_take j), Hy.
  - destruct (IH i j Hl' Hi) as [? ?]; lia.
Qed.

(** What the tensors of a layout promise: a tensor of its own for every list of
    layers, or places in one allocation. *)
Inductive tensors_fit groups (memory num_blocks : Z) (ts : list KVCacheTensor) : Prop :=
  | Separate :
      (∀ t, t ∈ ts → block_stride t = 0 ∧ ∀ g x p, g ∈ groups → x ∈ shared_by t → x ∈ layer_names g →
         layer_page (gspec g) x = Ok p → tensor_size t = p * num_blocks) →
      (∀ t, t ∈ ts → 0 ≤ tensor_size t) → sum_of (tensor_size <$> ts) ≤ memory → tensors_fit groups memory num_blocks ts
  | Packed stride :
      0 < stride → stride * num_blocks ≤ memory →
      (∀ t, t ∈ ts → block_stride t = stride ∧ tensor_size t = stride * num_blocks) →
      (∀ i t g x p, ts !! i = Some t → g ∈ groups → x ∈ shared_by t → x ∈ layer_names g →
         layer_page (gspec g) x = Ok p → 0 ≤ tensor_offset t ∧ tensor_offset t + p ≤ stride ∧
         ∀ j t', ts !! j = Some t' → (i < j)%nat → tensor_offset t + p ≤ tensor_offset t') →
      tensors_fit groups memory num_blocks ts.

Lemma packed_fit groups buckets memory :
  groups_wf groups → 0 ≤ memory → _bucket_layers_by_page_size groups = Ok buckets → bytes_per_block buckets ≠ 0 →
  let total := bytes_per_block buckets in let n := memory / total in
  0 ≤ n ∧ tensors_fit groups memory n (packed_tensors (total * n) total buckets).
Proof.
  intros (Hnd & _ & Hok) Hm Hb Hne total n.
  assert (∀ ps slot, (ps, slot) ∈ flat_slots buckets → 0 < ps) as Hpos.
  { intros ps slot (slots & Hin & _)%flat_slots_elem. apply (list_elem_of_fmap_2 fst) in Hin.
    destruct (bucket_key_page groups buckets ps Hb Hin) as (g & x & Hg & Hx). by eapply layer_page_pos; [apply Hok|]. }
  destruct (packed_tensors_place (total * n) total buckets) as [-> Hsum]. fold total in Hsum.
  assert (∀ q, q ∈ (flat_slots buckets).*1 → 0 ≤ q) as Hnn.
  { intros q ([q' sl] & -> & Hq)%list_elem_of_fmap. cbn. specialize (Hpos q' sl Hq). lia. }
  assert (0 < total) as Ht by (pose proof (sum_of_nonneg _ Hnn); lia).
  split; [unfold n; divlia|]. apply (Packed _ _ _ _ total); [done|unfold n; divlia| |].
  - intros t [i Hi]%list_elem_of_lookup. by apply place_lookup in Hi as (? & _ & ? & ? & _).
  - intros i t g x p Hi Hg Hx Hxg Hp. apply place_lookup in Hi as (ps & Hi & _ & _ & Ho).
    assert (ps = p) as ->.
    { pose proof (list_elem_of_lookup_2 _ _ _ Hi) as Hin. apply flat_slots_elem in Hin as (slots & Hin & Hs).
      destruct (bucket_slot groups buckets ps slots _ Hnd Hb Hin Hs g x x Hg Hx Hxg). congruence. }
    assert ((flat_slots buckets).*1 !! i = Some p) as Hi' by by rewrite list_lookup_fmap, Hi.
    rewrite Ho, fmap_take, !Z.add_0_l.
    destruct (sum_take_lt _ i (S i + length (flat_slots buckets).*1) p Hnn Hi') as [H0 H1]; [lia|].
    rewrite (take_ge (flat_slots buckets).*1 (S i + _)) in H1 by lia. split; [done|]. split; [lia|].
    intros j t' Hj Hij. apply place_lookup in Hj as (q & Hj & _ & _ & ->). rewrite fmap_take, Z.add_0_l.
    by apply sum_take_lt.
Qed.

Lemma sum_of_same (l : list Z) x : (∀ y, y ∈ l → y = x) → sum_of l = x * zlen l.
Proof.
  induction l as [|z l IH]; intros H; cbn -[Z.of_nat]; [lia|]. rewrite (H z) by by left.
  unfold sum_of in IH. rewrite IH; [lia|]. intros y Hy. apply H. by right.
Qed.

Lemma several_fit c groups memory w :
  groups_wf groups → num_gpu_blocks_override c = None → 0 ≤ memory → several_groups_config c groups memory = Ok w →
  0 ≤ w_num_blocks w ∧ tensors_fit groups memory (w_num_blocks w) (kv_cache_tensors w).
Proof.
  intros Hwf Ho Hm. unfold several_groups_config. destruct (_use_packed_kv_cache_config c groups) eqn:Epack.
  - intros ([n ts] & (b & Hb & (q & [Hne ->]%div_Ok & [= <- <-])%bind_Ok)%bind_Ok & [= <-])%bind_Ok.
    unfold may_override_num_blocks. rewrite Ho. cbn [default w_num_blocks kv_cache_tensors]. by apply packed_fit.
  - intros (k & Hk & (p & Hp & (u & Ha & (n & Hn & [= <-])%bind_Ok)%bind_Ok)%bind_Ok)%bind_Ok. cbn [w_num_blocks kv_cache_tensors].
    apply uniform_page_size_all in Hp as [Hne Hp]. destruct Hwf as (Hnd & Hkind & Hok).
    destruct Hkind as [Hu|Hone]; [unfold _use_packed_kv_cache_config in Epack; by rewrite Hu in Epack|].
    assert (∀ g x, g ∈ groups → layer_page (gspec g) x = Ok p) as Hpage.
    { intros g x Hg. specialize (Hone g Hg). specialize (Hp (gspec g) (list_elem_of_fmap_2 _ _ _ Hg)).
      unfold is_uniform_group in Hone. by destruct (gspec g). }
    apply require_Ok in Ha. assert (0 < k) as Hk0 by lia.
    assert (0 < p) as Hp0.
    { destruct groups as [|g gs]; [done|]. eapply layer_page_pos; [apply Hok; by left|apply (Hpage g ""); by left]. }
    apply bind_Ok in Hn as (q & [_ ->]%div_Ok & (q' & [_ ->]%div_Ok & [= <-])%bind_Ok).
    unfold may_override_num_blocks. rewrite Ho. cbn [default].
    assert (0 ≤ memory / p / k) as Hq by (apply Z.div_pos; [apply Z.div_pos|]; lia).
    rewrite Z.max_l by done. split; [done|]. apply Separate.
    + intros t (names & -> & _)%list_elem_of_fmap. split; [done|]. intros g x p' Hg Hx _ Hx'. rewrite (Hpage g x Hg) in Hx'.
      by injection Hx' as <-.
    + intros t (names & -> & _)%list_elem_of_fmap. cbn. nia.
    + rewrite (sum_of_same _ (p * (memory / p / k))).
      2:{ intros y (t & -> & (names & -> & _)%list_elem_of_fmap)%list_elem_of_fmap. done. }
      rewrite !length_fmap. unfold zip_rows. rewrite length_fmap, length_seq, Z2Nat.id by lia.
      pose proof (Z.mul_div_le memory p Hp0). pose proof (Z.mul_div_le (memory / p) k Hk0). nia.
Qed.

Lemma uniform_pages_sum (names : list string) specs ps qs :
  NoDup specs.*1 → specs.*1 = names → layer_page_sizes specs = Ok ps →
  mapR (λ n, s ← of_option KeyError (dict_get n specs); page_size_bytes s) names = Ok qs → qs = ps.
Proof.
  intros Hnd <- Hps Hqs. apply mapR_Forall2 in Hps, Hqs. apply list_eq_same_length with (length ps); [done| |].
  { apply Forall2_length in Hps, Hqs. rewrite !length_fmap in *. lia. }
  intros i x y _ Hx Hy. destruct (Forall2_lookup_r _ _ _ _ _ Hqs Hx) as (n & Hn & (s & Hs & Hx')%bind_Ok).
  destruct (Forall2_lookup_r _ _ _ _ _ Hps Hy) as (s' & Hs' & Hy').
  rewrite list_lookup_fmap in Hn. rewrite list_lookup_fmap in Hs'. destruct (specs !! i) as [[n' s'']|] eqn:E; cbn in *; [|done]. simplify_eq.
  apply of_option_Ok in Hs. rewrite (dict_get_nodup _ _ s' Hnd (list_elem_of_lookup_2 _ _ _ E)) in Hs. congruence.
Qed.

Lemma sum_tensor_sizes (n : Z) (names : list string) (qs : list Z) :
  length names = length qs →
  sum_of (tensor_size <$> zip_with (λ x q, mkTensor (q * n) [x] 0 0) names qs) = sum_of qs * n.
Proof.
  revert qs. induction names as [|x names IH]; intros [|q qs] H; cbn in *; try done.
  unfold sum_of in *. rewrite IH by lia. lia.
Qed.

Lemma uniform_fit c names b specs e memory w :
  let groups := [mkKVGroup names (UniformTypeKVCacheSpecs b specs) e] in
  groups_wf groups → num_gpu_blocks_override c = None → 0 ≤ memory →
  get_kv_cache_config_from_groups c groups memory = Ok w →
  0 ≤ w_num_blocks w ∧ tensors_fit groups memory (w_num_blocks w) (kv_cache_tensors w).
Proof.
  intros groups (Hnd & _ & Hok) Ho Hm.
  intros (p & (ps & Hps & [= <-])%bind_Ok & (n & [Hne ->]%div_Ok & (ts & Hts & [= <-])%bind_Ok)%bind_Ok)%bind_Ok.
  unfold may_override_num_blocks in *. rewrite Ho in *. cbn [default w_num_blocks kv_cache_tensors] in *.
  destruct (Hok _ (list_elem_of_here _ _)) as [Hg Hn]. cbn in Hnd, Hn. rewrite app_nil_r in Hnd.
  assert (0 < sum_of ps) as Hs0.
  { enough (0 ≤ sum_of ps) by lia. apply sum_of_nonneg. intros x Hx. pose proof (layer_page_sizes_pos _ _ Hg Hps x Hx). lia. }
  set (n := memory / sum_of ps) in *. assert (0 ≤ n) as Hn0 by (apply Z.div_pos; lia). split; [done|].
  assert (∃ qs, mapR (λ n, s ← of_option KeyError (dict_get n specs); page_size_bytes s) names = Ok qs ∧
            ts = zip_with (λ x q, mkTensor (q * n) [x] 0 0) names qs) as (qs & Hqs & ->).
  { apply mapR_Forall2 in Hts. setoid_rewrite mapR_Forall2. clear -Hts.
    induction Hts as [|x t names ts (s & Hs & (q & Hq & [= <-])%bind_Ok)%bind_Ok _ (qs & IH & ->)]; [by exists []|].
    exists (q :: qs). split; [|done]. constructor; [|done]. by rewrite Hs. }
  destruct (decide (names = [])) as [->|Hnames].
  { injection Hqs as <-. apply Separate; [by intros t ?%not_elem_of_nil..|done]. }
  specialize (Hn Hnames). rewrite <- Hn in Hnd. pose proof (uniform_pages_sum names specs ps qs Hnd Hn Hps Hqs) as ->. apply Separate.
  - intros t (i & x & q & -> & Hx & Hq)%elem_of_lookup_zip_with. split; [done|]. intros g y p' [->|?%not_elem_of_nil]%elem_of_cons Hy _ Hp'; [|done].
    apply list_elem_of_singleton in Hy as ->. apply mapR_Forall2 in Hqs.
    destruct (Forall2_lookup_l _ _ _ _ _ Hqs Hx) as (q' & Hq' & Hpage).
    assert (Ok q' = Ok p') as [= ->] by (rewrite <- Hpage; exact Hp'). cbn. congruence.
  - intros t (i & x & q & -> & _ & Hq)%elem_of_lookup_zip_with. cbn.
    pose proof (layer_page_sizes_pos specs ps Hg Hps q (list_elem_of_lookup_2 _ _ _ Hq)). nia.
  - apply mapR_Forall2, Forall2_length in Hqs. rewrite sum_tensor_sizes by done.
    unfold n. by apply Z.mul_div_le.
Qed.

(** The tensors of every layout hold the pages of the blocks and fit the
    available memory. *)
Lemma worker_fit c groups memory w :
  groups_wf groups → num_gpu_blocks_override c = None → 0 ≤ memory →
  get_kv_cache_config_from_groups c groups memory = Ok w →
  0 ≤ w_num_blocks w ∧ tensors_fit groups memory (w_num_blocks w) (kv_cache_tensors w).
Proof.
  intros Hwf Ho Hm. pose proof (several_fit c groups memory w Hwf Ho Hm) as Hmain.
  destruct groups as [|[names [s|b specs] e] [|g gs]]; [|exact Hmain|exact Hmain| |exact Hmain].
  - intros [= <-]. cbn. split; [done|]. apply Separate; [by intros t ?%not_elem_of_nil..|done].
  - by apply uniform_fit.
Qed.

End Layout.
