(* ===== verification/KVAlloc.v ===== *)
(** * Allocation of the KV cache by a worker
    ([vllm/v1/worker/gpu_model_runner.py], [vllm/v1/worker/gpu/attn_utils.py])

    A worker allocates the buffers of its [KVCacheConfig] and views them as the
    caches of the layers.  The main theorem: the pages of different blocks never
    overlap, and the pages of one block overlap only for layers of different
    groups, which never own the same block.

    Correspondence.  A buffer is its number in the order of allocation, with
    its size in bytes.  The view of a layer is described by the first byte of
    the page of a block, for attention backends whose cache has the block
    dimension first, the only ones that padded and packed pages admit. *)

From S2P Require Import Prelude MathUtils PyDict Request BlockHash KVMetrics FreeQueue BlockPool.
From S2P Require Import SingleTypeManager Coordinator KVSpec KVGroups KVSizing KVLayout.

Local Open Scope Z_scope.

(** ** Operations *)

(** The buffers so far, the one that packed tensors share, and the buffer of
    each layer. *)
Record Buffers := mkBuffers {
  buffers : list Z;
  packed_backing : option nat;
  kv_cache_raw_tensors : dict nat;
}.

Definition allocate_tensor (st : Buffers) (t : KVCacheTensor) : Buffers :=
  let fresh := length (buffers st) in
  let '(bs, packed, tensor) :=
    if block_stride t >? 0 then
      match packed_backing st with
      | None => (buffers st ++ [tensor_size t], Some fresh, fresh)
      | Some i => (buffers st, Some i, i)
      end
    else (buffers st ++ [tensor_size t], packed_backing st, fresh) in
  mkBuffers bs packed (fold_left (λ raw name, dict_set name tensor raw) (shared_by t) (kv_cache_raw_tensors st)).

Definition _allocate_kv_cache_tensors (runner_only_attn_layers : list string) (w : WorkerConfig) : result Buffers :=
  let st := fold_left allocate_tensor (kv_cache_tensors w) (mkBuffers [] None []) in
  let names := filter (λ n, n ∉ runner_only_attn_layers) (concat (layer_names <$> w_groups w)) in
  _ ← assert_ (bool_decide (list_to_set names =@{gset string} list_to_set (kv_cache_raw_tensors st).*1));
  Ok st.

(** Offset and stride of the layers in a packed buffer. *)
Definition layer_packing (ts : list KVCacheTensor) : dict (Z * Z) :=
  fold_left (λ d t,
    if block_stride t >? 0
    then fold_left (λ d name, dict_set name (tensor_offset t, block_stride t) d) (shared_by t) d
    else d) ts [].

(** Where the view of a layer has the page of a block.  The views of Mamba
    states start at the buffer and step by the page size. *)
Definition page_start (packing : dict (Z * Z)) (name : string) (mamba : bool) (page block : Z) : Z :=
  match dict_get name packing with
  | Some (offset, block_stride) => if mamba then block * page else offset + block * block_stride
  | None => block * page
  end.

(** ** Dictionaries filled by loops *)

Section Fill.
Context {V : Type}.
Implicit Types (d : dict V).

Lemma fill_get (names : list string) (v : V) d x :
  dict_get x (fold_left (λ d n, dict_set n v d) names d) = if decide (x ∈ names) then Some v else dict_get x d.
Proof.
  revert d. induction names as [|n names IH]; intros d; cbn [fold_left]; [done|].
  rewrite IH, dict_get_set. repeat case_decide; set_solver.
Qed.

(** A loop over entries with the names each entry sets. *)
Lemma fill_all {T} (names : T → list string) (v : T → V) (ts : list T) d x i t :
  NoDup (concat (names <$> ts)) → ts !! i = Some t → x ∈ names t →
  dict_get x (fold_left (λ d t, fold_left (λ d n, dict_set n (v t) d) (names t) d) ts d) = Some (v t).
Proof.
  intros Hnd. revert i d. induction ts as [|u ts IH]; intros i d Hi Hx; [done|]. cbn in *.
  apply NoDup_app in Hnd as (_ & Hd & Hnd). destruct i as [|i]; cbn in Hi; [|by eapply IH].
  injection Hi as ->. assert (x ∉ concat (names <$> ts)) as Hno by by apply Hd. clear Hd Hnd IH.
  assert (∀ d, dict_get x d = Some (v t) →
    dict_get x (fold_left (λ d t, fold_left (λ d n, dict_set n (v t) d) (names t) d) ts d) = Some (v t)) as H.
  { clear d. induction ts as [|u ts IH]; intros d Hd; cbn in *; [done|]. apply not_elem_of_app in Hno as [? ?].
    apply IH; [done|]. by rewrite fill_get, decide_False. }
  apply H. by rewrite fill_get, decide_True.
Qed.
End Fill.

(** ** Buffers of the two layouts *)

Definition fill (names : list string) (i : nat) (st : Buffers) : dict nat :=
  fold_left (λ raw name, dict_set name i raw) names (kv_cache_raw_tensors st).

Lemma allocate_own st t :
  block_stride t = 0 → allocate_tensor st t =
    mkBuffers (buffers st ++ [tensor_size t]) (packed_backing st) (fill (shared_by t) (length (buffers st)) st).
Proof. intros H. unfold allocate_tensor. by rewrite H. Qed.
Lemma allocate_shared st t i :
  0 < block_stride t → packed_backing st = Some i →
  allocate_tensor st t = mkBuffers (buffers st) (Some i) (fill (shared_by t) i st).
Proof. intros H Hi. unfold allocate_tensor. by rewrite Hi, (proj2 (Z.gtb_lt _ _)) by lia. Qed.

Lemma alloc_keep ts st x :
  x ∉ concat (shared_by <$> ts) →
  dict_get x (kv_cache_raw_tensors (fold_left allocate_tensor ts st)) = dict_get x (kv_cache_raw_tensors st).
Proof.
  revert st. induction ts as [|t ts IH]; intros st Hx; cbn in *; [done|]. apply not_elem_of_app in Hx as [Hx Hxs].
  rewrite IH by done. unfold allocate_tensor. destruct (if block_stride t >? 0 then _ else _) as [[bs pk] i]. cbn.
  by rewrite fill_get, decide_False.
Qed.
Lemma alloc_keys ts st x :
  x ∈ (kv_cache_raw_tensors (fold_left allocate_tensor ts st)).*1 ↔
  x ∈ (kv_cache_raw_tensors st).*1 ∨ x ∈ concat (shared_by <$> ts).
Proof.
  revert st. induction ts as [|t ts IH]; intros st; cbn; [set_solver|]. rewrite IH, elem_of_app, !dict_get_key.
  unfold allocate_tensor. destruct (if block_stride t >? 0 then _ else _) as [[bs pk] i]. cbn. rewrite fill_get.
  case_decide; naive_solver.
Qed.

Lemma alloc_separate ts st :
  (∀ t, t ∈ ts → block_stride t = 0) → NoDup (concat (shared_by <$> ts)) →
  let st' := fold_left allocate_tensor ts st in
  buffers st' = buffers st ++ (tensor_size <$> ts) ∧
  ∀ i t x, ts !! i = Some t → x ∈ shared_by t →
    dict_get x (kv_cache_raw_tensors st') = Some (length (buffers st) + i)%nat.
Proof.
  revert st. induction ts as [|t ts IH]; intros st Hs Hnd; cbn; [by rewrite app_nil_r|].
  cbn in Hnd. apply NoDup_app in Hnd as (_ & Hd & Hnd).
  rewrite (allocate_own st t) by apply Hs, list_elem_of_here.
  match goal with |- context [fold_left allocate_tensor ts ?st'] => destruct (IH st') as [H1 H2] end;
    [intros; apply Hs; by right|done|]. cbn in H1, H2. split.
  - by rewrite H1, <- app_assoc.
  - intros [|i] u x Hi Hx; cbn in Hi.
    + injection Hi as ->. rewrite alloc_keep by auto. cbn. unfold fill. rewrite fill_get, decide_True by done. f_equal. lia.
    + rewrite (H2 i u x Hi Hx), length_app. cbn. f_equal. lia.
Qed.

Lemma alloc_shared ts st i :
  (∀ t, t ∈ ts → 0 < block_stride t) → packed_backing st = Some i →
  let st' := fold_left allocate_tensor ts st in
  buffers st' = buffers st ∧ ∀ x, x ∈ concat (shared_by <$> ts) → dict_get x (kv_cache_raw_tensors st') = Some i.
Proof.
  revert st. induction ts as [|t ts IH]; intros st Hs Hi; cbn; [by split; [|intros x ?%not_elem_of_nil]|].
  rewrite (allocate_shared st t i) by (done || apply Hs, list_elem_of_here).
  match goal with |- context [fold_left allocate_tensor ts ?st'] => destruct (IH st') as [H1 H2] end;
    [intros; apply Hs; by right|done|]. split; [done|].
  intros x [Hx|Hx]%elem_of_app; [|by apply H2]. destruct (decide (x ∈ concat (shared_by <$> ts))); [by apply H2|].
  rewrite alloc_keep by done. cbn. unfold fill. by rewrite fill_get, decide_True.
Qed.
Lemma alloc_packed t ts :
  (∀ u, u ∈ t :: ts → 0 < block_stride u) →
  let st := fold_left allocate_tensor (t :: ts) (mkBuffers [] None []) in
  buffers st = [tensor_size t] ∧ ∀ x, x ∈ concat (shared_by <$> t :: ts) → dict_get x (kv_cache_raw_tensors st) = Some 0%nat.
Proof.
  intros Hs. cbn [fold_left]. pose proof (Hs t (list_elem_of_here _ _)) as Ht.
  assert (allocate_tensor (mkBuffers [] None []) t =
            mkBuffers [tensor_size t] (Some 0%nat) (fold_left (λ d n, dict_set n 0%nat d) (shared_by t) [])) as ->.
  { unfold allocate_tensor. by rewrite (proj2 (Z.gtb_lt _ _)) by lia. }
  destruct (alloc_shared ts (mkBuffers [tensor_size t] (Some 0%nat)
    (fold_left (λ d n, dict_set n 0%nat d) (shared_by t) [])) 0) as [H1 H2]; [intros; apply Hs; by right|done|].
  split; [done|]. cbn. intros x [Hx|Hx]%elem_of_app; [|by apply H2].
  destruct (decide (x ∈ concat (shared_by <$> ts))); [by apply H2|].
  rewrite alloc_keep by done. cbn. by rewrite fill_get, decide_True.
Qed.

Lemma packing_separate ts : (∀ t, t ∈ ts → block_stride t = 0) → layer_packing ts = [].
Proof.
  unfold layer_packing. induction ts as [|t ts IH]; cbn; intros H; [done|]. rewrite (H t (list_elem_of_here _ _)). cbn.
  apply IH. intros. apply H. by right.
Qed.
Lemma packing_packed ts i t x :
  (∀ t, t ∈ ts → 0 < block_stride t) → NoDup (concat (shared_by <$> ts)) → ts !! i = Some t → x ∈ shared_by t →
  dict_get x (layer_packing ts) = Some (tensor_offset t, block_stride t).
Proof.
  intros Hs Hnd Hi Hx.
  assert (∀ d, fold_left (λ d t, if block_stride t >? 0
      then fold_left (λ d name, dict_set name (tensor_offset t, block_stride t) d) (shared_by t) d else d) ts d =
    fold_left (λ d t, fold_left (λ d name, dict_set name (tensor_offset t, block_stride t) d) (shared_by t) d) ts d) as H.
  { clear -Hs. induction ts as [|t ts IH]; intros d; cbn; [done|]. pose proof (Hs t (list_elem_of_here _ _)).
    rewrite (proj2 (Z.gtb_lt _ _)) by lia. apply IH. intros. apply Hs. by right. }
  unfold layer_packing. rewrite H. by apply (fill_all shared_by (λ t, (tensor_offset t, block_stride t)) ts [] x i t).
Qed.

(** ** Pages of a worker *)

Section Pages.
Context {dt : DTypes}.
Implicit Types (groups : list KVGroup) (c : SizeConfig) (w : WorkerConfig).

Definition layer_mamba (g : GroupSpec) (name : string) : bool :=
  match g with
  | OneSpec s => isMamba s
  | UniformTypeKVCacheSpecs _ specs => existsb isMamba (option_list (dict_get name specs))
  end.

(** Start and size of the page of a block in the buffer of a layer. *)
Definition page_at w (g : KVGroup) (name : string) (block : Z) : result (Z * Z) :=
  page ← layer_page (gspec g) name;
  Ok (page_start (layer_packing (kv_cache_tensors w)) name (layer_mamba (gspec g) name) page block, page).

Definition overlap (x y : Z * Z) : Prop := x.1 < y.1 + y.2 ∧ y.1 < x.1 + x.2.

(** The pages of a worker: every page lies in the buffer of its layer, and
    pages that share bytes are pages of one block. *)
Definition pages_ok groups w (st : Buffers) : Prop :=
  ∀ g x b r, g ∈ groups → x ∈ layer_names g → 0 ≤ b < w_num_blocks w → page_at w g x b = Ok r →
    ∃ i size, dict_get x (kv_cache_raw_tensors st) = Some i ∧ buffers st !! i = Some size ∧
      0 ≤ r.1 ∧ 0 < r.2 ∧ r.1 + r.2 ≤ size ∧
      ∀ g' y b' r', g' ∈ groups → y ∈ layer_names g' → 0 ≤ b' < w_num_blocks w → page_at w g' y b' = Ok r' →
        dict_get y (kv_cache_raw_tensors st) = Some i → overlap r r' → b = b' ∧ (x = y ∨ g ≠ g').

Section Theorems.
Context groups w (Hwf : groups_wf groups) (Hlayout : layout_ok groups (kv_cache_tensors w)).
Let ts := kv_cache_tensors w.
Let st := fold_left allocate_tensor ts (mkBuffers [] None []).

Lemma shared_all : concat (shared_by <$> ts) ≡ₚ concat (layer_names <$> groups).
Proof using Hlayout. apply Hlayout. Qed.
Lemma shared_nodup : NoDup (concat (shared_by <$> ts)).
Proof using Hwf Hlayout. rewrite shared_all. apply Hwf. Qed.
Lemma layer_tensor g x : g ∈ groups → x ∈ layer_names g → ∃ i t, ts !! i = Some t ∧ x ∈ shared_by t.
Proof using Hlayout.
  intros Hg Hx. assert (x ∈ concat (shared_by <$> ts)) as H.
  { rewrite shared_all. apply elem_of_concat. exists (layer_names g). split; [done|by apply list_elem_of_fmap_2]. }
  apply elem_of_concat in H as (row & Hrow & (t & -> & [i Hi]%list_elem_of_lookup)%list_elem_of_fmap). eauto.
Qed.

Lemma pages_separate :
  (∀ t, t ∈ ts → block_stride t = 0 ∧ ∀ g x p, g ∈ groups → x ∈ shared_by t → x ∈ layer_names g →
     layer_page (gspec g) x = Ok p → tensor_size t = p * w_num_blocks w) → pages_ok groups w st.
Proof using Hwf Hlayout.
  intros Hfit. destruct (alloc_separate ts (mkBuffers [] None [])) as [Hb Hget]; [apply Hfit|apply shared_nodup|]. fold st in Hb, Hget.
  assert (∀ g x p b, page_start (layer_packing ts) x (layer_mamba (gspec g) x) p b = b * p) as Hstart.
  { intros. by rewrite packing_separate by apply Hfit. }
  intros g x b r Hg Hx Hbl (p & Hp & [= <-])%bind_Ok. destruct (layer_tensor g x Hg Hx) as (i & t & Hi & Ht).
  pose proof (Hfit t (list_elem_of_lookup_2 _ _ _ Hi)) as [_ Hsize]. specialize (Hsize g x p Hg Ht Hx Hp) as Hs.
  pose proof (layer_page_pos _ _ _ (proj1 (proj2 (proj2 Hwf) g Hg)) Hp) as Hp0.
  exists i, (p * w_num_blocks w). rewrite (Hget i t x Hi Ht), Hb. cbn. fold ts. rewrite Hstart. split; [done|].
  split; [by rewrite list_lookup_fmap, Hi; cbn; rewrite Hs|]. split; [nia|]. split; [done|]. split; [nia|].
  intros g' y b' r' Hg' Hy Hbl' (p' & Hp' & [= <-])%bind_Ok Hyi. destruct (layer_tensor g' y Hg' Hy) as (j & u & Hj & Hu).
  rewrite (Hget j u y Hj Hu) in Hyi. cbn in Hyi. injection Hyi as ->. rewrite Hi in Hj. injection Hj as <-.
  specialize (Hsize g' y p' Hg' Hu Hy Hp'). assert (p' = p) as -> by nia.
  unfold overlap. cbn. fold ts. rewrite Hstart. intros [? ?]. split; [nia|].
  destruct (decide (x = y)) as [|Hne]; [by left|]. right. intros ->. apply Hne, (proj2 Hlayout t g'); eauto using list_elem_of_lookup_2.
Qed.

Lemma pages_packed stride :
  0 < stride →
  (∀ t, t ∈ ts → block_stride t = stride ∧ tensor_size t = stride * w_num_blocks w) →
  (∀ i t g x p, ts !! i = Some t → g ∈ groups → x ∈ shared_by t → x ∈ layer_names g →
     layer_page (gspec g) x = Ok p → 0 ≤ tensor_offset t ∧ tensor_offset t + p ≤ stride ∧
     ∀ j t', ts !! j = Some t' → (i < j)%nat → tensor_offset t + p ≤ tensor_offset t') →
  (∀ g x, g ∈ groups → x ∈ layer_names g → layer_mamba (gspec g) x = false) → pages_ok groups w st.
Proof using Hwf Hlayout.
  intros Hstride Hts Hfit Hmamba.
  assert (∀ g x p b i t, g ∈ groups → x ∈ layer_names g → ts !! i = Some t → x ∈ shared_by t →
    page_start (layer_packing ts) x (layer_mamba (gspec g) x) p b = tensor_offset t + b * stride) as Hstart.
  { intros g x p b i t Hg Hx Hi Ht. unfold page_start. rewrite (packing_packed ts i t x), (Hmamba g x Hg Hx); try done.
    - by rewrite (proj1 (Hts t (list_elem_of_lookup_2 _ _ _ Hi))).
    - intros u Hu. rewrite (proj1 (Hts u Hu)). done.
    - apply shared_nodup. }
  intros g x b r Hg Hx Hbl (p & Hp & [= <-])%bind_Ok. destruct (layer_tensor g x Hg Hx) as (i & t & Hi & Ht).
  assert (buffers st = [stride * w_num_blocks w] ∧ ∀ x, x ∈ concat (shared_by <$> ts) →
            dict_get x (kv_cache_raw_tensors st) = Some 0%nat) as [Hb Hget].
  { unfold st. destruct ts as [|t0 ts'] eqn:E; [done|]. rewrite <- (proj2 (Hts t0 (list_elem_of_here _ _))).
    apply alloc_packed. intros u Hu. rewrite (proj1 (Hts u Hu)). done. }
  assert (∀ z i t, ts !! i = Some t → z ∈ shared_by t → z ∈ concat (shared_by <$> ts)) as Hin.
  { intros z k u Hu Hz. apply elem_of_concat. exists (shared_by u). split; [done|]. apply list_elem_of_fmap_2. eauto using list_elem_of_lookup_2. }
  destruct (Hfit i t g x p Hi Hg Ht Hx Hp) as (Ho & Hlast & Hnext).
  pose proof (layer_page_pos _ _ _ (proj1 (proj2 (proj2 Hwf) g Hg)) Hp) as Hp0.
  exists 0%nat, (stride * w_num_blocks w). rewrite (Hget x (Hin x i t Hi Ht)), Hb. cbn. fold ts.
  rewrite (Hstart g x p b i t Hg Hx Hi Ht). split; [done|]. split; [done|]. split; [nia|]. split; [done|]. split; [nia|].
  intros g' y b' r' Hg' Hy Hbl' (p' & Hp' & [= <-])%bind_Ok _. destruct (layer_tensor g' y Hg' Hy) as (j & u & Hj & Hu).
  destruct (Hfit j u g' y p' Hj Hg' Hu Hy Hp') as (Ho' & Hlast' & Hnext').
  unfold overlap. cbn. fold ts. rewrite (Hstart g' y p' b' j u Hg' Hy Hj Hu). intros [H1 H2].
  assert (b = b') as <- by nia. split; [done|]. destruct (lt_eq_lt_dec i j) as [[Hlt|Heq]|Hgt].
  - specialize (Hnext j u Hj Hlt). lia.
  - subst j. rewrite Hi in Hj. injection Hj as <-. destruct (decide (x = y)) as [|Hne]; [by left|]. right. intros ->.
    apply Hne, (proj2 Hlayout t g'); eauto using list_elem_of_lookup_2.
  - specialize (Hnext' i t Hi Hgt). lia.
Qed.

Lemma allocate_accepts runner_only :
  w_groups w = groups → (∀ n, n ∈ runner_only → n ∉ concat (layer_names <$> groups)) →
  _allocate_kv_cache_tensors runner_only w = Ok st.
Proof using Hwf Hlayout.
  intros Hg Hro. unfold _allocate_kv_cache_tensors. fold ts st. rewrite Hg, bool_decide_eq_true_2; [done|].
  apply set_eq. intros x. rewrite !elem_of_list_to_set, list_elem_of_filter. unfold st. rewrite alloc_keys, shared_all. set_solver.
Qed.
End Theorems.

Lemma buffers_total groups memory num_blocks ts :
  0 ≤ memory → NoDup (concat (shared_by <$> ts)) → tensors_fit groups memory num_blocks ts →
  sum_of (buffers (fold_left allocate_tensor ts (mkBuffers [] None []))) ≤ memory.
Proof.
  intros Hm Hnd [Hs _ Hsum|stride H0 Hle Hs _].
  - destruct (alloc_separate ts (mkBuffers [] None [])) as [-> _]; [apply Hs|done|]. done.
  - destruct ts as [|t ts]; [done|]. destruct (alloc_packed t ts) as [-> _].
    { intros u Hu. by rewrite (proj1 (Hs u Hu)). }
    cbn. rewrite (proj2 (Hs t (list_elem_of_here _ _))). lia.
Qed.

(** A layout that fits has sound pages: the buffers fit the memory, every page
    of a block lies inside the buffer of its layer, and pages share bytes only
    as [pages_ok] allows. *)
Lemma fit_pages_sound groups memory w runner_only :
  groups_wf groups → w_groups w = groups → 0 ≤ memory → layout_ok groups (kv_cache_tensors w) →
  tensors_fit groups memory (w_num_blocks w) (kv_cache_tensors w) →
  (∀ n, n ∈ runner_only → n ∉ concat (layer_names <$> groups)) →
  layer_packing (kv_cache_tensors w) = [] ∨ (∀ g x, g ∈ groups → x ∈ layer_names g → layer_mamba (gspec g) x = false) →
  ∃ st, _allocate_kv_cache_tensors runner_only w = Ok st ∧ sum_of (buffers st) ≤ memory ∧ pages_ok groups w st.
Proof.
  intros Hwf Hg Hm Hl Hfit Hro Hmamba.
  eexists. split; [by apply (allocate_accepts groups)|]. pose proof (shared_nodup groups w Hwf Hl) as Hnd.
  split; [by eapply buffers_total|]. destruct Hfit as [Hs _ _|stride H0 _ Hs Hoff]; [by apply pages_separate|].
  apply (pages_packed groups w Hwf Hl stride H0 Hs Hoff). destruct Hmamba as [Hpk|?]; [|done].
  intros g x Hgg Hx. destruct (layer_tensor groups w Hl g x Hgg Hx) as (i & t & Hi & Ht).
  assert (∀ t, t ∈ kv_cache_tensors w → 0 < block_stride t) as Hpos by (intros u Hu; by rewrite (proj1 (Hs u Hu))).
  pose proof (packing_packed _ i t x Hpos Hnd Hi Ht) as H. by rewrite Hpk in H.
Qed.

End Pages.
