(* ===== verification/KVGrouping.v ===== *)
(** * Properties of the grouping of layers

    Every layer of the model ends up in exactly one group, and the groups have
    the shape that the layout of the memory relies on. *)

From S2P Require Import Prelude MathUtils PyDict Request BlockHash KVMetrics FreeQueue BlockPool.
From S2P Require Import SingleTypeManager Coordinator KVSpec KVGroups KVSizing KVLayout.

Local Open Scope Z_scope.

(** ** Lists *)

Lemma mapR_fmap {A B C} (f : A → result B) (h : B → C) (k : A → C) l ys :
  (∀ x y, x ∈ l → f x = Ok y → h y = k x) → mapR f l = Ok ys → h <$> ys = k <$> l.
Proof.
  intros Hf H%mapR_Forall2. induction H as [|x y l ys Hxy _ IH]; cbn; [done|]. f_equal.
  - apply Hf; [by left|done].
  - apply IH. intros x' y' Hx'. apply Hf. by right.
Qed.
Lemma mapR_elem {A B} (f : A → result B) l ys y : mapR f l = Ok ys → y ∈ ys → ∃ x, x ∈ l ∧ f x = Ok y.
Proof.
  intros H%mapR_Forall2 [i Hi]%list_elem_of_lookup. destruct (Forall2_lookup_r _ _ _ _ _ H Hi) as (x & Hx & Hf).
  eauto using list_elem_of_lookup_2.
Qed.

Lemma concat_perm_map {A B} (f g : A → list B) l :
  (∀ x, x ∈ l → f x ≡ₚ g x) → concat (f <$> l) ≡ₚ concat (g <$> l).
Proof.
  induction l as [|x l IH]; cbn; intros H; [done|]. rewrite (H x) by by left. f_equiv. apply IH. intros; apply H; by right.
Qed.
Lemma concat_fmap_concat {A} (l : list (list (list A))) : concat (concat l) = concat ((λ x, concat x) <$> l).
Proof. induction l as [|x l IH]; cbn; [done|]. by rewrite concat_app, IH. Qed.

Lemma filter_split {A} (f g : A → bool) (l : list A) :
  (∀ x, x ∈ l → f x || g x = true) → (∀ x, f x = true → g x = false) →
  filter (λ x, g x) l ++ filter (λ x, f x) l ≡ₚ l.
Proof.
  intros Hor Hex. induction l as [|x l IH]; [done|]. pose proof (Hor x (list_elem_of_here _ _)) as Hx.
  specialize (IH (λ y Hy, Hor y (list_elem_of_further _ _ _ Hy))). rewrite !filter_cons.
  destruct (f x) eqn:Ef.
  - rewrite (Hex x Ef), decide_False, decide_True by (done || naive_solver). rewrite <- Permutation_middle. by f_equiv.
  - cbn in Hx. rewrite Hx, decide_True, decide_False by (done || naive_solver). cbn. by f_equiv.
Qed.

Section Grouping.
Context {dt : DTypes}.
Implicit Types (specs : dict LayerSpec) (groups : list KVGroup) (c : SizeConfig).

(** ** Groups that share a spec *)

Lemma create_group_specs specs names groups :
  create_kv_cache_group_specs specs names = Ok groups →
  layer_names <$> groups = names ∧ ∀ g, g ∈ groups → is_uniform_group g = false.
Proof.
  intros H. split.
  - rewrite <- (list_fmap_id names). eapply mapR_fmap; [|exact H]. cbn.
    by intros x y _ (? & _ & (? & _ & [= <-])%bind_Ok)%bind_Ok.
  - intros g Hg. apply (mapR_elem _ _ _ _ H) in Hg as (x & _ & (? & _ & (? & _ & [= <-])%bind_Ok)%bind_Ok). done.
Qed.

Lemma split_layers_all group_size (layers : list string) :
  0 < group_size → concat (split_layers group_size layers) ≡ₚ layers.
Proof.
  intros Hg. unfold split_layers. destruct layers as [|x layers].
  { induction (seq 0 _); cbn; done. }
  apply py_stride_all. pose proof (cdiv_bounds (zlen (x :: layers)) group_size Hg). cbn [length] in *. nia.
Qed.

Lemma choose_group_size_pos sizes n : (∀ x, x ∈ sizes → 0 < x) → choose_group_size sizes = Ok n → 0 < n.
Proof.
  intros H (a & [Ha _]%min_of_spec & (b & [Hb _]%max_of_spec & [= <-])%bind_Ok)%bind_Ok.
  apply H in Ha, Hb. destruct (_ <? _); done.
Qed.

Lemma uniform_page_groups specs groups :
  _get_kv_cache_groups_uniform_page_size specs = Ok groups →
  concat (layer_names <$> groups) ≡ₚ specs.*1 ∧ ∀ g, g ∈ groups → is_uniform_group g = false.
Proof.
  intros (n & Hn & [Hnames Hone]%create_group_specs)%bind_Ok. split; [|done]. rewrite Hnames.
  set (d := dd_group _ _ specs) in *.
  assert (dd_wf (λ _ _, True) d) as [_ Hwf] by by apply dd_group_wf.
  assert (0 < n) as Hn0.
  { eapply choose_group_size_pos; [|exact Hn]. intros x ([k vs] & -> & Hin)%list_elem_of_fmap.
    destruct (Hwf k vs Hin) as [Hne _]. destruct vs; [done|]. cbn. lia. }
  rewrite concat_fmap_concat, <- list_fmap_compose.
  transitivity (concat ((λ x, x.2) <$> d)); [by apply concat_perm_map; intros x _; apply split_layers_all|].
  apply dd_group_values.
Qed.

Lemma unify_page_names specs specs' : unify_kv_cache_spec_page_size specs = Ok specs' → specs'.*1 = specs.*1.
Proof.
  intros (ps & _ & H)%bind_Ok. destruct (remove_dups ps) as [|p [|q qs]]; [by injection H as <-|by injection H as <-|].
  apply bind_Ok in H as (m & _ & H). eapply mapR_fmap; [|exact H]. by intros x y _ (s & _ & [= <-])%bind_Ok.
Qed.

(** ** Groups with a spec per layer *)

Lemma from_specs_spec specs g : from_specs specs = Ok (Some g) → ∃ b, g = UniformTypeKVCacheSpecs b specs.
Proof.
  intros (u & _ & H)%bind_Ok. destruct u; [|done]. destruct specs as [|[n s] specs]; [done|]. injection H as <-. eauto.
Qed.

(** The best chunk size so far among the candidates [l]. *)
Definition best_chunk (values l : list Z) (acc : option (Z * Z)) : Prop :=
  match acc with
  | None => l = []
  | Some (d, pad) => d ∈ l ∧ pad = total_padding values d ∧
      ∀ e, e ∈ l → pad < total_padding values e ∨ (pad = total_padding values e ∧ e ≤ d)
  end.
Lemma try_chunk_best values l acc d :
  best_chunk values l acc → best_chunk values (l ++ [d]) (try_chunk values acc d).
Proof.
  unfold try_chunk. destruct acc as [[b pad]|]; cbn; [|intros ->; cbn].
  - intros (Hb & Hpad & Hmin). destruct (Z.ltb_spec (total_padding values d) pad); cbn.
    { split; [set_solver|]. split; [done|]. intros e [He| ->%list_elem_of_singleton]%elem_of_app; [|lia]. specialize (Hmin e He). lia. }
    destruct (Z.eqb_spec (total_padding values d) pad), (Z.gtb_spec d b); cbn; split; try set_solver; split; try done;
      intros z [Hz| ->%list_elem_of_singleton]%elem_of_app; try lia; specialize (Hmin z Hz); lia.
  - split; [by left|]. split; [done|]. intros e ->%list_elem_of_singleton. lia.
Qed.
Lemma try_chunks_best values l : best_chunk values l (fold_left (try_chunk values) l None).
Proof.
  induction l as [|d l IH] using rev_ind; [done|]. rewrite fold_left_app. by apply try_chunk_best.
Qed.

Lemma elem_of_py_range a b x : x ∈ py_range a b ↔ a ≤ x < b.
Proof. unfold py_range. rewrite elem_of_seqZ. lia. Qed.

(** C28: [_approximate_gcd] is the best chunk size by its definition.  Among the
    sizes from the lower bound to the largest value it has the least total
    padding, and it is the greatest of those. *)
Theorem approximate_gcd_optimal values lower_bound d m :
  _approximate_gcd values lower_bound = Ok d → max_of values = Ok m →
  let min_d := Z.max 1 (default 1 lower_bound) in
  (m < min_d → d = min_d) ∧
  (min_d ≤ m → min_d ≤ d ≤ m ∧
    ∀ e, min_d ≤ e ≤ m → total_padding values d ≤ total_padding values e ∧
      (total_padding values e = total_padding values d → e ≤ d)).
Proof.
  intros (u1 & _ & (u2 & _ & (m' & Hm & Hd)%bind_Ok)%bind_Ok)%bind_Ok Hm' min_d.
  rewrite Hm in Hm'. injection Hm' as ->. fold min_d in Hd. injection Hd as <-. split.
  - intros Hlt. by rewrite (proj2 (Z.gtb_lt _ _)).
  - intros Hle. destruct (Z.gtb_spec min_d m); [lia|].
    pose proof (try_chunks_best values (py_range min_d (m + 1))) as Hbest.
    destruct (fold_left _ _ _) as [[d pad]|]; cbn in *.
    + destruct Hbest as (Hd%elem_of_py_range & -> & Hmin). unfold id. split; [lia|]. intros e He.
      assert (e ∈ py_range min_d (m + 1)) as Hin by (apply elem_of_py_range; lia). specialize (Hmin e Hin). lia.
    + exfalso. apply (not_elem_of_nil min_d). rewrite <- Hbest. apply elem_of_py_range. lia.
Qed.
Lemma approximate_gcd_pos values lower_bound d : _approximate_gcd values lower_bound = Ok d → 0 < d.
Proof.
  intros (u1 & _ & (u2 & _ & (m & _ & [= <-])%bind_Ok)%bind_Ok)%bind_Ok.
  assert (1 ≤ Z.max 1 (default 1 lower_bound)) as Hmd by apply Z.le_max_l. revert Hmd.
  generalize (Z.max 1 (default 1 lower_bound)). intros md Hmd. destruct (_ >? _); [lia|].
  pose proof (try_chunks_best values (py_range md (m + 1))) as Hbest.
  destruct (fold_left _ _ _) as [[d pad]|].
  - destruct Hbest as [Hd%elem_of_py_range _]. cbn. unfold id. lia.
  - cbn. lia.
Qed.

Lemma concat_perm {A} (l l' : list (list A)) : l ≡ₚ l' → concat l ≡ₚ concat l'.
Proof.
  induction 1 as [|x l l' _ IH|x y l|l1 l2 l3 _ IH1 _ IH2]; cbn; [done|by f_equiv| |by etransitivity].
  rewrite !app_assoc. f_equiv. apply Permutation_app_comm.
Qed.
Lemma concat_strides {A B} (f : A → B) (k : nat) (tuples : list (list A)) :
  (0 < k)%nat → concat ((λ i, f <$> concat (py_stride k i tuples)) <$> seq 0 k) ≡ₚ f <$> concat tuples.
Proof.
  intros Hk. rewrite <- (concat_perm _ _ (py_stride_all k tuples Hk)). rewrite concat_fmap_concat.
  rewrite <- list_fmap_compose. generalize (seq 0 k). intros l. induction l as [|i l IH]; cbn; [done|].
  rewrite fmap_app. by f_equiv.
Qed.

Lemma split_swa_names k sizes g groups :
  0 < k → split_swa_group k sizes g = Ok groups →
  concat (layer_names <$> groups) ≡ₚ g.2.*1 ∧ ∀ x, x ∈ groups → is_uniform_group x = true ∧ own_specs x.
Proof.
  intros Hk (ss & _ & (sm & _ & (am & _ & (u & _ & (padded & Hpad & (n & Hn & H)%bind_Ok)%bind_Ok)%bind_Ok)%bind_Ok)%bind_Ok)%bind_Ok.
  set (rows := (dd_group fst snd padded).*2) in *. set (m := Z.to_nat _) in H.
  apply only_one_elem in Hn as [Hne Hlen].
  assert (∀ row, row ∈ rows → length row = n ∧ row ≠ []) as Hrows.
  { intros row Hr. split; [by apply Hlen, list_elem_of_fmap_2|].
    destruct (dd_group_wf fst snd (λ _ _, True) padded) as [_ Hwf]; [done|].
    apply list_elem_of_fmap in Hr as ([key vs] & -> & Hin). by apply (Hwf key). }
  assert (0 < m)%nat as Hm.
  { destruct rows as [|row rows'] eqn:E; [done|]. destruct (Hrows row (list_elem_of_here _ _)) as [Hl Hr].
    destruct row; [done|]. cbn in Hl. pose proof (cdiv_bounds (Z.of_nat n) k Hk). unfold m. nia. }
  split.
  - assert (layer_names <$> groups = (λ i, fst <$> concat (py_stride m i (zip_rows n rows))) <$> seq 0 m) as ->.
    { eapply mapR_fmap; [|exact H]. cbn. by intros i y _ (x & _ & (x' & _ & [= <-])%bind_Ok)%bind_Ok. }
    rewrite concat_strides, zip_rows_all by (done || (intros row Hr; destruct (Hrows row Hr); lia)).
    unfold rows. rewrite dd_group_values, <- list_fmap_compose. assert (fst ∘ snd <$> padded = g.2.*1) as ->; [|done].
    eapply mapR_fmap; [|exact Hpad]. by intros x y _ (? & _ & (? & _ & [= <-])%bind_Ok)%bind_Ok.
  - intros x Hx. apply (mapR_elem _ _ _ _ H) in Hx as (i & _ & (o & Ho & (gs & Hgs%of_option_Ok & [= <-])%bind_Ok)%bind_Ok).
    subst o. apply from_specs_spec in Ho as [b ->]. done.
Qed.

(** The layers that the MLA path groups. *)
Definition mla_layer (s : LayerSpec) : bool := isMLA s || isSlidingMLA s.

Lemma grouped_names specs gs :
  (∀ s, s ∈ specs.*2 → mla_layer s = true) → group_and_unify_kv_cache_specs specs = Ok (Some gs) →
  concat ((λ g, g.2.*1) <$> gs) ≡ₚ specs.*1.
Proof.
  intros Hall. unfold group_and_unify_kv_cache_specs. destruct (negb _); [done|].
  intros (u & _ & (ds & Hds & [= <-])%bind_Ok)%bind_Ok.
  set (swa := filter (λ x, isSlidingMLA x.2) specs) in *. set (mla := filter _ specs) in Hds.
  assert (snd <$> ds = mla :: (dd_group (λ x, swa_key x.2) id swa).*2) as Hsnd.
  { rewrite <- (list_fmap_id (mla :: _)). eapply mapR_fmap; [|exact Hds]. intros d y _ (o & Ho & H)%bind_Ok.
    destruct o as [[s|b d']|]; [done| |done]. injection H as <-. apply from_specs_spec in Ho as [b' [= -> ->]]. done. }
  assert (((λ g, g.2.*1) <$> ds) = (λ d : dict LayerSpec, d.*1) <$> (snd <$> ds)) as -> by by rewrite <- list_fmap_compose.
  rewrite Hsnd.
  assert (∀ ls : list (dict LayerSpec), concat ((λ d, d.*1) <$> ls) = fst <$> concat ls) as Hc.
  { induction ls as [|d ls IH]; cbn; [done|]. by rewrite IH, fmap_app. }
  rewrite Hc. cbn. rewrite dd_group_values, list_fmap_id. f_equiv. unfold mla, swa.
  apply (filter_split (λ x, isSlidingMLA x.2) (λ x, negb (isSlidingMLA x.2) && isMLA x.2)).
  - intros x Hx. specialize (Hall x.2 (list_elem_of_fmap_2 _ _ _ Hx)). unfold mla_layer in Hall.
    destruct (isSlidingMLA x.2), (isMLA x.2); done.
  - intros x Hx. by rewrite Hx.
Qed.

Lemma uniform_groups_names gs groups :
  _get_kv_cache_groups_uniform_groups gs = Ok groups →
  concat (layer_names <$> groups) ≡ₚ concat ((λ g, g.2.*1) <$> gs) ∧ ∀ x, x ∈ groups → is_uniform_group x = true ∧ own_specs x.
Proof.
  destruct gs as [|[b mla] swa]; [done|].
  intros (u & _ & (ts & _ & (k & Hk%approximate_gcd_pos & (u' & _ & (sizes & _ & (xs & Hxs & [= <-])%bind_Ok)%bind_Ok)%bind_Ok)%bind_Ok)%bind_Ok)%bind_Ok.
  assert (∀ x, x ∈ xs → ∃ g, g ∈ swa ∧ split_swa_group k sizes g = Ok x) as Hx by (intros; by eapply mapR_elem). split.
  - cbn. f_equiv. apply mapR_Forall2 in Hxs. clear Hx.
    induction Hxs as [|g x swa xs Hg _ IH]; cbn; [done|]. rewrite fmap_app, concat_app, IH. f_equiv.
    by eapply split_swa_names.
  - intros x [->|(row & Hrow & Hin)%elem_of_concat]%elem_of_cons; [done|].
    destruct (Hx row Hin) as (g & _ & Hg). by eapply split_swa_names.
Qed.

Lemma flag_group_names name groups :
  layer_names <$> flag_group name groups = layer_names <$> groups ∧
  gspec <$> flag_group name groups = gspec <$> groups.
Proof. induction groups as [|g groups [IH1 IH2]]; cbn; [done|]. destruct (bool_decide _); cbn; by split; f_equal. Qed.
Lemma annotate_names c specs groups :
  layer_names <$> _annotate_eagle_groups_deepseek_v4 c specs groups = layer_names <$> groups ∧
  gspec <$> _annotate_eagle_groups_deepseek_v4 c specs groups = gspec <$> groups.
Proof.
  unfold _annotate_eagle_groups_deepseek_v4. repeat case_match; try done. apply flag_group_names.
Qed.

(** ** All groups *)

(** [unify_hybrid_kv_cache_specs] keeps the names, and the kinds that the MLA
    path tells apart unless it turns sliding windows into full attention. *)
Lemma unify_hybrid_names specs specs' :
  unify_hybrid_kv_cache_specs specs = Ok specs' →
  specs'.*1 = specs.*1 ∧ (specs' = specs ∨ existsb isSlidingMLA specs'.*2 = false).
Proof.
  intros (u & _ & H)%bind_Ok. destruct u; [injection H as <-; auto|].
  apply bind_Ok in H as (b & _ & (specs1 & H1 & (u & _ & H)%bind_Ok)%bind_Ok). destruct u; [|done]. injection H as ->.
  destruct (_ && _); [|injection H1 as ->; auto]. split.
  - eapply mapR_fmap; [|exact H1]. by intros x y _ (s & _ & [= <-])%bind_Ok.
  - right. apply not_true_iff_false. intros (s & Hs & Hsl)%existsb_exists. apply list_elem_of_In in Hs.
    apply list_elem_of_fmap in Hs as ([n s'] & -> & Hin). apply (mapR_elem _ _ _ _ H1) in Hin as ([n' s] & _ & (s'' & Ha & [= -> ->])%bind_Ok).
    cbn in *. destruct s; cbn in Ha; try (by injection Ha as <-).
    unfold post_init in Ha. cbn in Ha. destruct (alignment m); [|by injection Ha as <-].
    apply bind_Ok in Ha as (? & _ & (? & _ & Ha)%bind_Ok). destruct (_ =? _); by injection Ha as <-.
Qed.

Definition partitions specs groups : Prop :=
  concat (layer_names <$> groups) ≡ₚ specs.*1 ∧ one_kind groups ∧ ∀ g, g ∈ groups → own_specs g.

Lemma one_spec_partitions specs groups :
  concat (layer_names <$> groups) ≡ₚ specs.*1 → (∀ g, g ∈ groups → is_uniform_group g = false) → partitions specs groups.
Proof.
  intros H Hone. split; [done|]. split; [by right|]. intros g Hg. specialize (Hone g Hg).
  unfold is_uniform_group, own_specs in *. by destruct (gspec g).
Qed.
Lemma uniform_partitions specs groups :
  concat (layer_names <$> groups) ≡ₚ specs.*1 → (∀ g, g ∈ groups → is_uniform_group g = true ∧ own_specs g) →
  partitions specs groups.
Proof.
  intros H Hu. split; [done|]. split; [|intros; by apply Hu]. left. apply forallb_forall.
  intros g Hg%list_elem_of_In. by apply Hu.
Qed.

Lemma annotate_partitions c specs groups d :
  partitions d groups → partitions d (_annotate_eagle_groups_deepseek_v4 c specs groups).
Proof.
  destruct (annotate_names c specs groups) as [Hn Hg]. set (gs := _annotate_eagle_groups_deepseek_v4 c specs groups) in *.
  assert (∀ g, g ∈ gs → ∃ g', g' ∈ groups ∧ gspec g' = gspec g ∧ layer_names g' = layer_names g) as Hcorr.
  { intros g [i Hi]%list_elem_of_lookup.
    assert ((gspec <$> groups) !! i = Some (gspec g) ∧ (layer_names <$> groups) !! i = Some (layer_names g)) as [H1 H2].
    { rewrite <- Hn, <- Hg, !list_lookup_fmap, Hi. done. }
    rewrite list_lookup_fmap in H1. rewrite list_lookup_fmap in H2. destruct (groups !! i) as [g'|] eqn:E; [|done].
    cbn in H1, H2. injection H1 as H1. injection H2 as H2. exists g'. split; [by eapply list_elem_of_lookup_2|done]. }
  assert (is_uniform_group <$> gs = is_uniform_group <$> groups) as Hu.
  { unfold is_uniform_group. change (λ g, match gspec g with OneSpec _ => false | UniformTypeKVCacheSpecs _ _ => true end)
      with ((λ x, match x with OneSpec _ => false | UniformTypeKVCacheSpecs _ _ => true end) ∘ gspec).
    by rewrite !list_fmap_compose, Hg. }
  intros (H1 & H2 & H3). split; [by rewrite Hn|]. split.
  - destruct H2 as [H2|H2].
    + left. rewrite forallb_forall in H2 |- *. intros g Hgi%list_elem_of_In. destruct (Hcorr g Hgi) as (g' & Hg' & E & _).
      unfold is_uniform_group. rewrite <- E. by apply H2, list_elem_of_In.
    + right. intros g Hgi. destruct (Hcorr g Hgi) as (g' & Hg' & E & _). unfold is_uniform_group. rewrite <- E. by apply H2.
  - intros g Hgi. destruct (Hcorr g Hgi) as (g' & Hg' & E & En). specialize (H3 g' Hg'). unfold own_specs in *.
    by rewrite <- E, <- En.
Qed.

Lemma hidden_partitions specs filtered groups hidden_groups page :
  unify_kv_cache_spec_page_size (filter (λ x, negb (isHidden x.2)) specs) = Ok filtered →
  _get_kv_cache_groups_uniform_page_size filtered = Ok groups →
  mapR (hidden_group page) (filter (λ x, isHidden x.2) specs) = Ok hidden_groups →
  partitions specs (groups ++ hidden_groups).
Proof.
  intros Hf%unify_page_names [Hg Hone]%uniform_page_groups Hh. apply one_spec_partitions.
  - rewrite fmap_app, concat_app, Hg, Hf.
    assert (layer_names <$> hidden_groups = (λ x, [x.1]) <$> filter (λ x, isHidden x.2) specs) as ->.
    { eapply mapR_fmap; [|exact Hh]. by intros x y _ (? & _ & (? & _ & (? & _ & [= <-])%bind_Ok)%bind_Ok)%bind_Ok. }
    assert (∀ l : dict LayerSpec, concat ((λ x, [x.1]) <$> l) = l.*1) as -> by (induction l; cbn; by f_equal).
    rewrite <- fmap_app. f_equiv. apply (filter_split (λ x, isHidden x.2) (λ x, negb (isHidden x.2))).
    + intros x _. by destruct (isHidden x.2).
    + intros x Hx. by rewrite Hx.
  - intros g [Hin|Hin]%elem_of_app; [by apply Hone|].
    apply (mapR_elem _ _ _ _ Hh) in Hin as (x & _ & (? & _ & (? & _ & (? & _ & [= <-])%bind_Ok)%bind_Ok)%bind_Ok). done.
Qed.

(** Grouping loses no layer.  The groups of a model partition its layers,
    they are all of one kind, and a group with a spec per layer has a spec for
    each of its layers.  (A model with sliding-window MLA layers must have MLA
    layers only; others are refused when a worker's layers are counted.) *)
Lemma groups_partition c specs groups :
  (existsb isSlidingMLA specs.*2 = true → ∀ s, s ∈ specs.*2 → mla_layer s = true) →
  get_kv_cache_groups c specs = Ok groups → partitions specs groups.
Proof.
  intros Hmla (specs' & Hs & H)%bind_Ok.
  assert (specs'.*1 = specs.*1 ∧ (existsb isSlidingMLA specs'.*2 = true → ∀ s, s ∈ specs'.*2 → mla_layer s = true)) as [Hn Hmla'].
  { destruct (disable_hybrid_kv_cache_manager c); [|by injection Hs as <-].
    apply unify_hybrid_names in Hs as [? [->|He]]; [done|]. split; [done|]. by rewrite He. }
  unfold partitions. rewrite <- Hn. fold (partitions specs' groups).
  clear Hs Hmla Hn specs. rename specs' into specs, Hmla' into Hmla.
  destruct specs as [|x specs']; [injection H as <-; by apply one_spec_partitions; [|intros g ?%not_elem_of_nil]|].
  set (specs := x :: specs') in *. apply bind_Ok in H as (u & _ & H). destruct u.
  { apply create_group_specs in H as [Hnames Hone]. apply one_spec_partitions; [|done]. rewrite Hnames. cbn. by rewrite app_nil_r. }
  apply bind_Ok in H as (o & Ho & H). destruct o as [g|].
  { injection H as <-. apply from_specs_spec in Ho as [b ->]. apply uniform_partitions; [cbn; by rewrite app_nil_r|].
    by intros g ->%list_elem_of_singleton. }
  apply bind_Ok in H as (gs & Hgs & H). destruct gs as [gs|].
  - apply bind_Ok in H as (groups' & [Hg Hu]%uniform_groups_names & [= <-]).
    apply annotate_partitions, uniform_partitions; [|done]. rewrite Hg. apply grouped_names; [|done].
    apply Hmla. unfold group_and_unify_kv_cache_specs in Hgs. by destruct (existsb isSlidingMLA specs.*2).
  - apply bind_Ok in H as (filtered & Hf & (gs & Hg & H)%bind_Ok).
    destruct (filter (λ x, isHidden x.2) specs) as [|h hs] eqn:Eh.
    + injection H as <-. rewrite <- (app_nil_r gs). eapply (hidden_partitions specs); [exact Hf|exact Hg|]. by unfold dict; rewrite Eh.
    + apply bind_Ok in H as (page & _ & (hg & Hh & [= <-])%bind_Ok). eapply (hidden_partitions specs); [exact Hf|exact Hg|].
      unfold dict. rewrite Eh. exact Hh.
  Unshelve. exact 0.
Qed.

End Grouping.
