(* ===== verification/KVStartup.v ===== *)
(** * What the start-up check guarantees

    [get_kv_cache_configs] refuses to start when one request of maximal length
    does not fit.  Below, the blocks such a request needs, by kind of layer, and
    the theorem that every worker has that many. *)

From S2P Require Import Prelude MathUtils PyDict Request BlockHash KVMetrics FreeQueue BlockPool.
From S2P Require Import SingleTypeManager Coordinator KVSpec KVGroups KVSizing KVLayout.

Local Open Scope Z_scope.

Section Startup.
Context {dt : DTypes}.
Implicit Types (groups : list KVGroup) (c : SizeConfig) (s : LayerSpec).

(** Blocks of one request of maximal length in a group with spec [s]. *)
Definition request_blocks c s : Z :=
  let n := cfg_max_model_len c in
  let cp := dcp_size c * pcp_size c in
  match s with
  | Full b _ _ | TQFull b _ _ _ | MLA b _ _ _ | HiddenState b _ _ _ | RSWA b _ _ _ | SinkFull b _ _ _ =>
      cdiv (if cp >? 1 then cdiv n cp else n) b
  | Chunked b _ chunk => chunked_max_admission_blocks chunk b (cfg_max_num_batched_tokens c) n
  | Sliding b _ w _ | SlidingMLA b _ w _ _ => swa_max_admission_blocks w b (cfg_max_num_batched_tokens c) n
  | Mamba b f =>
      if String.eqb (mamba_cache_mode c) "all" then cdiv n b + mamba_speculative_blocks f
      else if String.eqb (mamba_cache_mode c) "align" then 2 + mamba_speculative_blocks f
      else 1 + mamba_speculative_blocks f
  | EncoderOnly _ _ => 0
  | Cross b _ => cdiv (cfg_max_encoder_tokens c) b
  end.

Lemma max_memory_blocks c s m p :
  max_memory_usage_bytes c s = Ok m → page_size_bytes s = Ok p → m = request_blocks c s * p.
Proof.
  intros Hm Hp. destruct s; cbn [max_memory_usage_bytes request_blocks] in *; unfold full_max_pages in *;
    rewrite ?Hp in Hm; repeat match goal with
      | H : context [String.eqb ?a ?b] |- _ => destruct (String.eqb a b)
      | H : (_ ≫= _) = Ok _ |- _ => apply bind_Ok in H as (? & ? & H)
      | H : cdiv_ _ _ = Ok _ |- _ => apply cdiv_Ok in H as [_ ->]
      end; injection Hm as <-; try (by f_equal); simplify_eq; nia.
Qed.

(** Groups whose layers share a spec. *)
Definition plain groups (specs : list LayerSpec) : Prop :=
  specs ≠ [] ∧ gspec <$> groups = OneSpec <$> specs ∧ ∀ s, s ∈ specs → layer_pages_ok s.

Lemma plain_inv groups specs :
  plain groups specs → ∃ names s e gs, groups = mkKVGroup names (OneSpec s) e :: gs.
Proof.
  intros (Hne & Heq & _). destruct specs as [|s specs]; [done|]. destruct groups as [|[names g e] gs]; [done|].
  cbn in Heq. injection Heq as -> _. eauto.
Qed.

Lemma plain_memory c groups specs needed :
  plain groups specs → _max_memory_usage_bytes_from_groups c groups = Ok needed →
  ∃ k p, max_group_size groups = Ok k ∧ get_uniform_page_size (gspec <$> groups) = Ok p ∧ 0 < p ∧
    needed = k * p * sum_of (request_blocks c <$> specs).
Proof.
  intros Hpl Hn. destruct (plain_inv _ _ Hpl) as (names & s & e & gs & Hgs). destruct Hpl as (Hne & Heq & Hok).
  assert (several_groups_memory c groups = Ok needed) as Hs by by rewrite Hgs in *.
  unfold several_groups_memory in Hs. rewrite Hgs in Hs. cbn [forallb is_uniform_group gspec andb] in Hs. rewrite <- Hgs in Hs.
  apply bind_Ok in Hs as (k & Hk & (p & Hp & (bs & Hbs & [= <-])%bind_Ok)%bind_Ok). exists k, p.
  pose proof Hp as [_ Hall]%uniform_page_size_all. rewrite Heq in Hall.
  assert (∀ s, s ∈ specs → page_size_bytes s = Ok p) as Hpage.
  { intros s' Hs'. apply (Hall (OneSpec s')). by apply list_elem_of_fmap_2. }
  assert (0 < p) as Hp0.
  { destruct specs as [|s' specs]; [done|]. apply (proj2 (Hok s' (list_elem_of_here _ _))), Hpage. by left. }
  split; [done|]. split; [done|]. split; [done|]. do 2 f_equal. clear Hgs Hk Hp Hn.
  apply mapR_Forall2 in Hbs. revert specs bs Hne Heq Hok Hall Hpage Hbs. clear -Hp0.
  induction groups as [|g groups IH]; intros specs bs Hne Heq Hok Hall Hpage Hbs.
  { by destruct specs. }
  destruct specs as [|s specs]; [done|]. cbn in Heq. injection Heq as Hg Heq.
  inversion Hbs as [|? b ? bs' (m & Hm & [_ ->]%cdiv_Ok)%bind_Ok Hbs']; subst. rewrite Hg in Hm. cbn in Hm |- *.
  rewrite (max_memory_blocks c s m p Hm) by (apply Hpage; by left). rewrite cdiv_mul by done. f_equal.
  destruct specs as [|s' specs]; [by destruct groups; [inversion Hbs'|]|].
  apply IH; try done; intros; [apply Hok|apply Hall|apply Hpage]; by right.
Qed.

(** A worker that passes the check has the blocks of one request. *)
Lemma plain_config c groups specs memory w :
  plain groups specs → enable_cross_layers_blocks c = false →
  (∀ n b, num_gpu_blocks_override c = Some n → _pool_bytes_per_block c groups = Ok b → memory = n * b) →
  _check_enough_kv_cache_memory c groups memory = Ok () → get_kv_cache_config_from_groups c groups memory = Ok w →
  sum_of (request_blocks c <$> specs) ≤ w_num_blocks w.
Proof.
  intros Hpl Hx Hover Hcheck Hw.
  apply bind_Ok in Hcheck as (u & _ & (needed & Hneed & Hle)%bind_Ok).
  assert (needed ≤ memory) as Hmem.
  { destruct (Z.gtb_spec needed memory); [by apply bind_Ok in Hle as (? & _ & ?)|done]. }
  destruct (plain_memory c groups specs needed Hpl Hneed) as (k & p & Hk & Hp & Hp0 & ->).
  destruct (plain_inv _ _ Hpl) as (names & s & e & gs & Hgs).
  assert (_use_packed_kv_cache_config c groups = false) as Hpack.
  { unfold _use_packed_kv_cache_config. rewrite Hx, Hgs. done. }
  assert (several_groups_config c groups memory = Ok w) as Hs by by rewrite Hgs in *.
  assert (_pool_bytes_per_block c groups = Ok (p * k)) as Hpool.
  { unfold _pool_bytes_per_block. rewrite Hpack, Hk, bind_ret, Hp. by rewrite Hgs. }
  unfold several_groups_config in Hs. rewrite Hpack, Hk, bind_ret, Hp, bind_ret in Hs.
  apply bind_Ok in Hs as (u' & Ha%require_Ok & (n & Hn & [= <-])%bind_Ok). cbn [w_num_blocks].
  apply bind_Ok in Hn as (q & [_ ->]%div_Ok & (q' & [_ ->]%div_Ok & [= <-])%bind_Ok).
  assert (0 < k) as Hk0 by lia. unfold may_override_num_blocks.
  destruct (num_gpu_blocks_override c) as [n|] eqn:Eo; cbn [default].
  - specialize (Hover n (p * k) eq_refl Hpool). subst memory. unfold id. apply (Z.mul_le_mono_pos_l _ _ (k * p)); nia.
  - enough (sum_of (request_blocks c <$> specs) ≤ memory / p / k) by lia.
    apply Z.div_le_lower_bound; [done|]. apply Z.div_le_lower_bound; [done|]. lia.
Qed.

Lemma project_plain groups workers projected gs specs :
  mapR (_project_kv_cache_groups_to_worker groups) workers = Ok projected → gs ∈ projected → plain gs specs →
  ∀ gs', gs' ∈ projected → plain gs' specs.
Proof.
  intros Hp%mapR_Forall2 Hgs (Hne & Heq & Hok).
  assert (∀ gs', gs' ∈ projected → ∃ worker, _project_kv_cache_groups_to_worker groups worker = Ok gs') as Hpr.
  { intros gs' [i Hi]%list_elem_of_lookup. destruct (Forall2_lookup_r _ _ _ _ _ Hp Hi) as (w & _ & H). eauto. }
  assert (gspec <$> groups = OneSpec <$> specs) as Hg.
  { destruct (Hpr gs Hgs) as (worker & Hw%mapR_Forall2). clear -Hw Heq. revert specs Heq.
    induction Hw as [|g g' groups gs (s & Hs & [= <-])%bind_Ok _ IH]; intros specs Heq; [done|].
    destruct specs as [|sp specs]; [done|]. cbn in *. injection Heq as -> Heq. f_equal; [|by apply IH].
    destruct (gspec g); [congruence|]. destruct (filter _ _); [congruence|]. by apply bind_Ok in Hs as (? & _ & ?). }
  intros gs' Hgs'. split; [done|]. split; [|done]. destruct (Hpr gs' Hgs') as (worker & Hw%mapR_Forall2). rewrite <- Hg.
  clear -Hw Hg. revert specs Hg. induction Hw as [|g g' groups gs (s & Hs & [= <-])%bind_Ok _ IH]; intros specs Hg; [done|].
  destruct specs as [|sp specs]; [done|]. cbn in *. injection Hg as Hg Hgs. rewrite Hg in Hs. f_equal; [congruence|by eapply IH].
Qed.

Lemma config_groups c groups memory w : get_kv_cache_config_from_groups c groups memory = Ok w → w_groups w = groups.
Proof.
  intros Hw. assert (several_groups_config c groups memory = Ok w → w_groups w = groups) as Hs.
  { unfold several_groups_config. destruct (_use_packed_kv_cache_config c groups).
    - by intros ([n ts] & _ & [= <-])%bind_Ok.
    - by intros (? & _ & (? & _ & (? & _ & (? & _ & [= <-])%bind_Ok)%bind_Ok)%bind_Ok)%bind_Ok. }
  destruct groups as [|[names [s|b d] e] [|g gs]]; [by injection Hw as <-|by apply Hs|by apply Hs| |by apply Hs].
  by apply bind_Ok in Hw as (? & _ & (? & _ & (? & _ & [= <-])%bind_Ok)%bind_Ok).
Qed.

Lemma auto_fit_config c workers memory c' :
  _auto_fit_max_model_len c workers memory = Ok c' → c' = c ∨ ∃ n, c' = with_max_model_len n c.
Proof.
  unfold _auto_fit_max_model_len. destruct (forallb _ _); [intros [= <-]; by left|].
  intros (? & _ & (n & _ & (? & _ & H)%bind_Ok)%bind_Ok)%bind_Ok. destruct (n >=? _); injection H as <-; eauto.
Qed.

Lemma override_memory_spec c workers memory memory' i gs m n b :
  override_memory c workers memory = Ok memory' → workers !! i = Some gs → memory' !! i = Some m → gs ≠ [] →
  num_gpu_blocks_override c = Some n → _pool_bytes_per_block c gs = Ok b → m = n * b.
Proof.
  unfold override_memory. intros Hm Hgs Hi Hne Ho Hb. rewrite Ho in Hm. apply mapR_Forall2 in Hm.
  destruct (Forall2_lookup_r _ _ _ _ _ Hm Hi) as ([gs' x] & Hx & Hr). apply lookup_zip_Some in Hx as [Hg _].
  rewrite Hgs in Hg. injection Hg as <-. cbn [fst snd] in Hr. destruct gs as [|g gs]; [done|]. rewrite Hb in Hr.
  rewrite bind_ret in Hr. by apply bind_Ok in Hr as (q & _ & [= <-]).
Qed.

(** The configurations before they are shrunk to a common number of blocks. *)
Lemma configs_have_blocks c workers projected memory configs specs :
  enable_cross_layers_blocks c = false → (∀ gs, gs ∈ projected → plain gs specs) →
  (∀ i gs m n b, projected !! i = Some gs → memory !! i = Some m →
     num_gpu_blocks_override c = Some n → _pool_bytes_per_block c gs = Ok b → m = n * b) →
  (∃ us, mapR (λ x, match x.1 with [] => Ok () | gs => _check_enough_kv_cache_memory c gs x.2 end)
     (zip projected memory) = Ok us) →
  mapR (λ x : list KVGroup * dict LayerSpec * Z, let '(gs, worker, mem) := x in
    _ ← assert_ (sum_of ((λ g, zlen (layer_names g)) <$> gs) =? zlen worker);
    get_kv_cache_config_from_groups c gs mem) (zip (zip projected workers) memory) = Ok configs →
  ∀ w, w ∈ configs → sum_of (request_blocks c <$> specs) ≤ w_num_blocks w.
Proof.
  intros Hx Hpl Hover [us Hcheck%mapR_Forall2] Hw%mapR_Forall2 w [i Hi]%list_elem_of_lookup.
  destruct (Forall2_lookup_r _ _ _ _ _ Hw Hi) as ([[gs wk] m] & [[Hgs _]%lookup_zip_Some Hm]%lookup_zip_Some & (? & _ & Hc)%bind_Ok).
  pose proof (Hpl gs (list_elem_of_lookup_2 _ _ _ Hgs)) as Hp.
  apply (plain_config c gs specs m w Hp Hx); [by eauto| |done].
  assert (zip projected memory !! i = Some (gs, m)) as Hz by by apply lookup_zip_Some.
  destruct (Forall2_lookup_l _ _ _ _ _ Hcheck Hz) as ([] & _ & Hu). cbn in Hu.
  destruct (plain_inv _ _ Hp) as (? & ? & ? & ? & ->). done.
Qed.

(** C10: the start-up check covers a request of maximal length.  When the
    configurations of the workers are accepted, all workers have the same
    number of blocks, and that many suffice for one request of the (possibly
    reduced) maximal length, counted over all groups, with or without an
    override of the number of blocks.  The scope: blocks across layers are
    disabled, and every group of the worker has one spec with pages that are not
    empty ([plain]; no [UniformTypeKVCacheSpecs] groups). *)
Theorem startup_admits_request c workers memory configs c' w specs :
  enable_cross_layers_blocks c = false →
  get_kv_cache_configs c workers memory = Ok (configs, c') → w ∈ configs → plain (w_groups w) specs →
  sum_of (request_blocks c' <$> specs) ≤ w_num_blocks w ∧ ∀ w', w' ∈ configs → w_num_blocks w' = w_num_blocks w.
Proof.
  intros Hx (merged & _ & (u & _ & (groups & _ & (projected & Hproj & (memory' & Hmem & Hrest)%bind_Ok)%bind_Ok)%bind_Ok)%bind_Ok)%bind_Ok Hw Hpl.
  apply bind_Ok in Hrest as (cf & Hcf & (us & Hus & (cs & Hcs & (N & HN & (cs' & Hcs' & [= <- <-])%bind_Ok)%bind_Ok)%bind_Ok)%bind_Ok).
  assert (cf = c ∨ ∃ n, cf = with_max_model_len n c) as Hc.
  { destruct (_ =? -1); [by eapply auto_fit_config|]. injection Hcf as ->. by left. }
  assert (∀ w', w' ∈ cs' → w_num_blocks w' = N ∧ ∃ w0, w0 ∈ cs ∧ w_groups w' = w_groups w0) as Hall.
  { intros w' [i Hi]%list_elem_of_lookup. apply mapR_Forall2 in Hcs'.
    destruct (Forall2_lookup_r _ _ _ _ _ Hcs' Hi) as (w0 & Hw0 & (w1 & (ts & _ & [= <-])%bind_Ok & (? & _ & [= <-])%bind_Ok)%bind_Ok).
    split; [done|]. exists w0. split; [by eapply list_elem_of_lookup_2|done]. }
  split; [|intros w' Hw'; by rewrite (proj1 (Hall w' Hw')), (proj1 (Hall w Hw))].
  assert (w_groups w ∈ projected) as Hgw.
  { destruct (Hall w Hw) as (_ & w0 & [i Hi]%list_elem_of_lookup & ->). apply mapR_Forall2 in Hcs.
    destruct (Forall2_lookup_r _ _ _ _ _ Hcs Hi) as ([[gs wk] m] & [[Hgs _]%lookup_zip_Some _]%lookup_zip_Some & (? & _ & Hc')%bind_Ok).
    rewrite (config_groups _ _ _ _ Hc'). by eapply list_elem_of_lookup_2. }
  pose proof (project_plain groups workers projected _ specs Hproj Hgw Hpl) as Hplain.
  rewrite (proj1 (Hall w Hw)). destruct (min_of_spec _ _ HN) as [(w1 & -> & Hw1)%list_elem_of_fmap _].
  apply (configs_have_blocks cf workers projected memory' cs specs); eauto.
  - by destruct Hc as [->|[n ->]].
  - intros i gs m n b Hgs Hm Ho Hb. apply (override_memory_spec c projected memory memory' i gs m n b); try done.
    + destruct (plain_inv gs specs) as (? & ? & ? & ? & ->); [|done]. apply Hplain. by eapply list_elem_of_lookup_2.
    + by destruct Hc as [->|[? ->]].
    + by destruct Hc as [->|[? ->]].
Qed.

End Startup.
