(* ===== verification/KVWorkers.v ===== *)
(** * From the model to the memory of the workers

    The composition of start-up: the specs of the workers are merged, grouped,
    projected back to the workers, sized, and shrunk to a common number of
    blocks; each worker then allocates its buffers. *)

From S2P Require Import Prelude MathUtils PyDict Request BlockHash KVMetrics FreeQueue BlockPool.
From S2P Require Import SingleTypeManager Coordinator KVSpec KVGroups KVSizing KVLayout KVAlloc.
From S2P Require Import KVGrouping KVStartup.

Local Open Scope Z_scope.

Section Workers.
Context {dt : DTypes}.
Implicit Types (specs : dict LayerSpec) (groups : list KVGroup) (c : SizeConfig) (w : WorkerConfig).

(** ** Merging the specs of the workers *)

Lemma merge_worker_specs_spec workers merged :
  merge_worker_specs workers = Ok merged →
  NoDup merged.*1 ∧ (∀ k s, (k, s) ∈ concat workers → dict_get k merged = Some s) ∧
  (∀ k s, dict_get k merged = Some s → (k, s) ∈ concat workers).
Proof.
  unfold merge_worker_specs. revert merged. induction (concat workers) as [|[k s] l IH] using rev_ind; intros merged.
  { intros [= <-]. split; [constructor|]. split; [by intros k s ?%not_elem_of_nil|done]. }
  rewrite foldM_app. intros (m & Hm & (m' & H & [= <-])%bind_Ok)%bind_Ok. destruct (IH m Hm) as (Hnd & H1 & H2). cbn in H.
  destruct (dict_get k m) as [s'|] eqn:E.
  - apply bind_Ok in H as (u & Hs%require_Ok%bool_decide_eq_true & [= <-]). subst s'. split; [done|]. split.
    + intros k' s' [Hin|[= -> ->]%list_elem_of_singleton]%elem_of_app; auto.
    + intros k' s' Hk. apply elem_of_app. left. auto.
  - injection H as <-. split; [by apply dict_set_nodup|]. split.
    + intros k' s' [Hin|[= -> ->]%list_elem_of_singleton]%elem_of_app; rewrite dict_get_set; [|by rewrite decide_True].
      case_decide as Hk; [|auto]. subst. specialize (H1 _ _ Hin). congruence.
    + intros k' s'. rewrite dict_get_set. case_decide as Hk; [intros [= <-]; subst; set_solver|].
      intros Hk'. apply elem_of_app. left. auto.
Qed.

(** ** Projection *)

Lemma filter_concat {A} (P : A → Prop) `{!∀ x, Decision (P x)} (ls : list (list A)) :
  concat ((λ l, filter P l) <$> ls) = filter P (concat ls).
Proof. induction ls as [|l ls IH]; cbn; [done|]. by rewrite filter_app, IH. Qed.

Lemma project_group_kind worker g g' :
  project_group worker g = Ok g' →
  layer_names g' = filter (λ n, is_Some (dict_get n worker)) (layer_names g) ∧
  is_uniform_group g' = is_uniform_group g ∧ own_specs g'.
Proof.
  intros (s & Hs & [= <-])%bind_Ok. split; [done|]. unfold is_uniform_group, own_specs. cbn.
  destruct (gspec g) as [s0|b specs]; [by injection Hs as <-|].
  destruct (filter _ (layer_names g)) as [|n ns] eqn:Ef; [injection Hs as <-; split; [done|by intros]|].
  apply bind_Ok in Hs as (layers & Hl & [= <-]). split; [done|]. intros _. rewrite <- Ef in Hl |- *.
  rewrite <- (list_fmap_id (filter _ _)). eapply mapR_fmap; [|exact Hl]. by intros x y _ (? & _ & [= <-])%bind_Ok.
Qed.

Lemma project_partitions merged groups worker gs :
  NoDup merged.*1 → NoDup worker.*1 → (∀ k, k ∈ worker.*1 → k ∈ merged.*1) → partitions merged groups →
  _project_kv_cache_groups_to_worker groups worker = Ok gs → partitions worker gs.
Proof.
  intros Hnd Hndw Hsub (Hnames & Hkind & Hown) H.
  assert (∀ g', g' ∈ gs → ∃ g, g ∈ groups ∧ is_uniform_group g' = is_uniform_group g ∧ own_specs g') as Hg.
  { intros g' Hg'. apply (mapR_elem _ _ _ _ H) in Hg' as (g & Hin & Hb%project_group_kind). naive_solver. }
  split; [|split].
  - assert (layer_names <$> gs = (λ l, filter (λ n, is_Some (dict_get n worker)) l) <$> (layer_names <$> groups)) as ->.
    { rewrite <- list_fmap_compose. eapply mapR_fmap; [|exact H]. by intros x y _ [-> _]%project_group_kind. }
    rewrite filter_concat, Hnames. apply NoDup_Permutation; [by apply NoDup_filter|done|].
    intros k. rewrite list_elem_of_filter, <- dict_get_key. naive_solver.
  - destruct Hkind as [Hk|Hk].
    + left. rewrite forallb_forall in Hk |- *. intros g' Hg'%list_elem_of_In. destruct (Hg g' Hg') as (g & Hin & -> & _).
      by apply Hk, list_elem_of_In.
    + right. intros g' Hg'. destruct (Hg g' Hg') as (g & Hin & -> & _). by apply Hk.
  - intros g' Hg'. by destruct (Hg g' Hg') as (g & _ & _ & ?).
Qed.

(** ** Shrinking *)

Lemma shrink_shape n w w' :
  shrink_config n w = Ok w' → w_num_blocks w' = n ∧ w_groups w' = w_groups w ∧
  Forall2 (λ t t', shared_by t' = shared_by t ∧ tensor_offset t' = tensor_offset t ∧ block_stride t' = block_stride t ∧
     w_num_blocks w ≠ 0 ∧ tensor_size t' = tensor_size t / w_num_blocks w * n) (kv_cache_tensors w) (kv_cache_tensors w').
Proof.
  intros (ts & Hts%mapR_Forall2 & [= <-])%bind_Ok. split; [done|]. split; [done|]. cbn.
  eapply Forall2_impl; [exact Hts|]. cbn. by intros t t' (q & [? ->]%div_Ok & (u & _ & [= <-])%bind_Ok)%bind_Ok.
Qed.

Lemma shrink_layout n w w' groups :
  shrink_config n w = Ok w' → layout_ok groups (kv_cache_tensors w) → layout_ok groups (kv_cache_tensors w').
Proof.
  intros (_ & _ & HF)%shrink_shape [Hall Hone].
  assert (shared_by <$> kv_cache_tensors w' = shared_by <$> kv_cache_tensors w) as Hsh.
  { clear -HF. induction HF as [|t t' ts ts' [H _] _ IH]; cbn; [done|]. by rewrite H, IH. }
  split; [by rewrite Hsh|]. intros t g x y Ht. apply (list_elem_of_fmap_2 shared_by) in Ht. rewrite Hsh in Ht.
  apply list_elem_of_fmap in Ht as (t' & -> & Ht'). by apply Hone.
Qed.

Lemma shrink_fit n w w' groups memory :
  shrink_config n w = Ok w' → 0 ≤ n ≤ w_num_blocks w →
  tensors_fit groups memory (w_num_blocks w) (kv_cache_tensors w) →
  tensors_fit groups memory n (kv_cache_tensors w').
Proof.
  intros (_ & _ & HF)%shrink_shape Hn [Hs Hnn Hsum|stride H0 Hle Hs Hoff].
  - assert (∀ t' , t' ∈ kv_cache_tensors w' → ∃ t, t ∈ kv_cache_tensors w ∧ shared_by t' = shared_by t ∧
      block_stride t' = block_stride t ∧ 0 < w_num_blocks w ∧ tensor_size t' = tensor_size t / w_num_blocks w * n) as Ht.
    { intros t' [i Hi]%list_elem_of_lookup. destruct (Forall2_lookup_r _ _ _ _ _ HF Hi) as (t & Ht & ? & _ & ? & ? & ?).
      exists t. split_and!; try done; [by eapply list_elem_of_lookup_2|lia]. }
    apply Separate.
    + intros t' Ht'. destruct (Ht t' Ht') as (t & Hin & -> & -> & Hpos & ->). destruct (Hs t Hin) as [-> Hsize].
      split; [done|]. intros g x p Hg Hx Hxg Hp. rewrite (Hsize g x p Hg Hx Hxg Hp), Z.div_mul; lia.
    + intros t' Ht'. destruct (Ht t' Ht') as (t & Hin & _ & _ & Hpos & ->). specialize (Hnn t Hin).
      pose proof (Z.div_pos _ _ Hnn Hpos). nia.
    + etransitivity; [|exact Hsum]. apply sum_of_mono. clear -HF Hn Hnn.
      induction HF as [|t t' ts ts' (_ & _ & _ & Hne & Hsz) _ IH]; cbn; constructor; [|apply IH; intros; apply Hnn; by right].
      specialize (Hnn t (list_elem_of_here _ _)). rewrite Hsz.
      pose proof (Z.mul_div_le (tensor_size t) (w_num_blocks w) ltac:(lia)).
      pose proof (Z.div_pos (tensor_size t) (w_num_blocks w) Hnn ltac:(lia)). nia.
  - apply (Packed _ _ _ _ stride); [done|nia| |].
    + intros t' [i Hi]%list_elem_of_lookup. destruct (Forall2_lookup_r _ _ _ _ _ HF Hi) as (t & Ht & _ & _ & -> & Hne & ->).
      destruct (Hs t (list_elem_of_lookup_2 _ _ _ Ht)) as [-> ->]. split; [done|]. by rewrite Z.div_mul.
    + intros i t' g x p Hi Hg Hx. destruct (Forall2_lookup_r _ _ _ _ _ HF Hi) as (t & Ht & Hsh & Ho & _). rewrite Hsh in Hx.
      intros Hxg Hp. destruct (Hoff i t g x p Ht Hg Hx Hxg Hp) as (Ho0 & Hlast & Hnext). rewrite Ho. split; [done|]. split; [done|].
      intros j u' Hj Hij. destruct (Forall2_lookup_r _ _ _ _ _ HF Hj) as (u & Hu & _ & -> & _). by apply (Hnext j u).
Qed.

(** ** The whole of start-up *)

(** The steps of [get_kv_cache_configs] for worker [i]. *)
Lemma configs_worker c workers memory configs c' i w' :
  get_kv_cache_configs c workers memory = Ok (configs, c') → num_gpu_blocks_override c = None → configs !! i = Some w' →
  ∃ merged groups worker m gs w cs N,
    merge_worker_specs workers = Ok merged ∧ get_kv_cache_groups c merged = Ok groups ∧
    workers !! i = Some worker ∧ memory !! i = Some m ∧ _project_kv_cache_groups_to_worker groups worker = Ok gs ∧
    cs !! i = Some w ∧ get_kv_cache_config_from_groups c' gs m = Ok w ∧ num_gpu_blocks_override c' = None ∧
    min_of (w_num_blocks <$> cs) = Ok N ∧ shrink_config N w = Ok w' ∧
    ∀ j v, cs !! j = Some v → ∃ v', configs !! j = Some v' ∧ shrink_config N v = Ok v' ∧
      ∃ gs worker m, workers !! j = Some worker ∧ memory !! j = Some m ∧
        _project_kv_cache_groups_to_worker groups worker = Ok gs ∧ get_kv_cache_config_from_groups c' gs m = Ok v.
Proof.
  intros (merged & Hmerged & (u & _ & (groups & Hgroups & (projected & Hproj & (memory' & Hmem & Hrest)%bind_Ok)%bind_Ok)%bind_Ok)%bind_Ok)%bind_Ok Ho Hi.
  apply bind_Ok in Hrest as (cf & Hcf & (us & _ & (cs & Hcs & (N & HN & (cs' & Hcs' & [= <- <-])%bind_Ok)%bind_Ok)%bind_Ok)%bind_Ok).
  assert (memory' = memory) as ->.
  { unfold override_memory in Hmem. rewrite Ho in Hmem. by injection Hmem as <-. }
  assert (num_gpu_blocks_override cf = None) as Ho'.
  { destruct (_ =? -1); [|by injection Hcf as <-]. by apply auto_fit_config in Hcf as [->|[? ->]]. }
  apply mapR_Forall2 in Hcs, Hcs', Hproj.
  assert (∀ j v, cs !! j = Some v → ∃ gs worker m, workers !! j = Some worker ∧ memory !! j = Some m ∧
            _project_kv_cache_groups_to_worker groups worker = Ok gs ∧ get_kv_cache_config_from_groups cf gs m = Ok v) as Hv.
  { intros j v Hj. destruct (Forall2_lookup_r _ _ _ _ _ Hcs Hj) as ([[gs wk] m] & [[Hgs Hwk]%lookup_zip_Some Hm]%lookup_zip_Some & (? & _ & Hc)%bind_Ok).
    destruct (Forall2_lookup_r _ _ _ _ _ Hproj Hgs) as (wk' & Hwk' & Hp). pose proof (eq_trans (eq_sym Hwk) Hwk') as [= <-]. eauto 10. }
  assert (∀ v v', (v'' ← shrink_config N v; _ ← match w_groups v'' with [] => Ok 0 | _ => get_kv_cache_capacity cf v'' end; Ok v'') = Ok v' →
            shrink_config N v = Ok v') as Hsh.
  { intros v v' (v'' & Hv'' & (? & _ & [= <-])%bind_Ok)%bind_Ok. done. }
  destruct (Forall2_lookup_r _ _ _ _ _ Hcs' Hi) as (w & Hw & Hws%Hsh). destruct (Hv i w Hw) as (gs & wk & m & ? & ? & ? & ?).
  exists merged, groups, wk, m, gs, w, cs, N. split_and!; try done.
  intros j v Hj. destruct (Forall2_lookup_l _ _ _ _ _ Hcs' Hj) as (v' & Hv' & Hs%Hsh). eauto.
Qed.

Lemma worker_groups_wf workers merged groups worker gs c :
  merge_worker_specs workers = Ok merged → get_kv_cache_groups c merged = Ok groups → worker ∈ workers → NoDup worker.*1 →
  (∀ x, x ∈ concat workers → isSlidingMLA x.2 = true → ∀ y, y ∈ concat workers → mla_layer y.2 = true) →
  _project_kv_cache_groups_to_worker groups worker = Ok gs → (∀ g, g ∈ gs → group_pages_ok (gspec g)) →
  groups_wf gs ∧ concat (layer_names <$> gs) ≡ₚ worker.*1.
Proof.
  intros Hm Hg Hwk Hnd Hmla Hp Hok. destruct (merge_worker_specs_spec _ _ Hm) as (Hndm & H1 & H2).
  assert (∀ s, s ∈ merged.*2 → ∃ k, (k, s) ∈ concat workers) as Hin.
  { intros s ([k s'] & -> & Hk)%list_elem_of_fmap. exists k. apply H2. by apply dict_get_nodup. }
  assert (partitions merged groups) as Hpart.
  { apply (groups_partition c); [|done]. intros (s & Hs%list_elem_of_In & Hsl)%existsb_exists s' Hs'.
    destruct (Hin s Hs) as [k Hk], (Hin s' Hs') as [k' Hk']. apply (Hmla (k, s) Hk Hsl (k', s') Hk'). }
  destruct (project_partitions merged groups worker gs Hndm Hnd) as (Hn & Hk & Hown); [|done..|].
  { intros k ([k' s] & -> & Hks)%list_elem_of_fmap. apply dict_get_key. exists s. apply H1, elem_of_concat. eauto. }
  split; [|done]. split; [by rewrite Hn|]. split; [done|]. intros g Hgi. auto.
Qed.

(** C9: start-up gives every worker a sound KV cache.  If the configurations
    are accepted, each worker's groups hold exactly its layers; its buffers can
    be allocated and fit its memory; every page of every block lies inside the
    buffer of its layer; and two pages share bytes only if they belong to the
    same block, of one layer or of layers in different groups.  The scope: no
    override of the number of blocks; pages are not empty; if a layer is sliding
    window MLA, all layers are MLA; and a worker with a packed layout has no Mamba
    layers, see [packed_mamba_pages_overlap]. *)
Theorem startup_pages_sound c workers memory configs c' :
  get_kv_cache_configs c workers memory = Ok (configs, c') → num_gpu_blocks_override c = None →
  (∀ worker, worker ∈ workers → NoDup worker.*1) → (∀ m, m ∈ memory → 0 ≤ m) →
  (∀ x, x ∈ concat workers → isSlidingMLA x.2 = true → ∀ y, y ∈ concat workers → mla_layer y.2 = true) →
  (∀ w g, w ∈ configs → g ∈ w_groups w → group_pages_ok (gspec g)) →
  ∀ i w, configs !! i = Some w →
    layer_packing (kv_cache_tensors w) = [] ∨ (∀ g x, g ∈ w_groups w → x ∈ layer_names g → layer_mamba (gspec g) x = false) →
    ∃ worker m st, workers !! i = Some worker ∧ memory !! i = Some m ∧
      concat (layer_names <$> w_groups w) ≡ₚ worker.*1 ∧
      _allocate_kv_cache_tensors [] w = Ok st ∧ sum_of (buffers st) ≤ m ∧ pages_ok (w_groups w) w st.
Proof.
  intros Hc Ho Hnd Hmem Hmla Hok i w' Hi Hmamba.
  destruct (configs_worker _ _ _ _ _ _ _ Hc Ho Hi) as (merged & groups & worker & m & gs & w & cs & N & Hm & Hg & Hwk & Hmi & Hp & Hw & Hcfg & Ho' & HN & Hsh & Hall).
  assert (∀ j v, cs !! j = Some v → 0 ≤ w_num_blocks v) as Hpos.
  { intros j v Hv. destruct (Hall j v Hv) as (v' & Hv' & Hs & gs' & wk & mj & Hwkj & Hmj & Hpj & Hcj).
    destruct (worker_groups_wf workers merged groups wk gs' c Hm Hg) as [Hwf _]; try done.
    - by eapply list_elem_of_lookup_2.
    - apply Hnd. by eapply list_elem_of_lookup_2.
    - intros g Hgi. apply (Hok v' g); [by eapply list_elem_of_lookup_2|].
      destruct (shrink_shape _ _ _ Hs) as (_ & -> & _). by rewrite (config_groups _ _ _ _ Hcj).
    - apply (worker_fit c' gs' mj v Hwf Ho'); [|done]. apply Hmem. by eapply list_elem_of_lookup_2. }
  destruct (shrink_shape _ _ _ Hsh) as (HN' & Hgr & _). rewrite (config_groups _ _ _ _ Hcfg) in Hgr. rewrite Hgr in *.
  destruct (worker_groups_wf workers merged groups worker gs c Hm Hg) as [Hwf Hnames]; try done.
  { by eapply list_elem_of_lookup_2. }
  { apply Hnd. by eapply list_elem_of_lookup_2. }
  { intros g Hgi. apply (Hok w' g); [by eapply list_elem_of_lookup_2|by rewrite Hgr]. }
  assert (0 ≤ m) as Hm0 by (apply Hmem; by eapply list_elem_of_lookup_2).
  destruct (worker_fit c' gs m w Hwf Ho' Hm0 Hcfg) as [_ Hfit]. destruct (worker_layout c' gs m w (proj1 Hwf) Hcfg) as [_ Hl].
  destruct (min_of_spec _ _ HN) as [(w0 & E0 & [j Hj]%list_elem_of_lookup)%list_elem_of_fmap Hmin].
  assert (0 ≤ N ≤ w_num_blocks w) as HNw.
  { split; [rewrite E0; by eapply Hpos|]. apply Hmin, list_elem_of_fmap_2. by eapply list_elem_of_lookup_2. }
  destruct (fit_pages_sound gs m w' [] Hwf Hgr Hm0) as (st & Hst & Hsum & Hpages); try done.
  - by eapply shrink_layout.
  - rewrite HN'. by eapply shrink_fit.
  - by intros n ?%not_elem_of_nil.
  - eauto 10.
Qed.

End Workers.
