(* ===== verification/KVBoot.v ===== *)
(** * From start-up to the coordinator

    The configuration and the block sizes that start-up computes satisfy what
    the coordinator and the KV cache manager require, so the theorems about
    their reachable states apply to a system that was started. *)

From S2P Require Import Prelude MathUtils PyDict Request BlockHash KVMetrics FreeQueue BlockPool.
From S2P Require Import SingleTypeManager Coordinator KVSpec KVGroups KVSizing KVLayout KVStartup.

Local Open Scope Z_scope.

Lemma lcm_all (l : list Z) : (∀ x, x ∈ l → 0 < x) → 0 < foldr Z.lcm 1 l ∧ ∀ x, x ∈ l → (x | foldr Z.lcm 1 l).
Proof.
  induction l as [|y l IH]; intros H; cbn [foldr]; [split; [lia|by intros x ?%not_elem_of_nil]|].
  destruct IH as [H0 H1]; [intros; apply H; by right|]. pose proof (H y (list_elem_of_here _ _)) as Hy. split.
  - pose proof (Z.lcm_nonneg y (foldr Z.lcm 1 l)). assert (Z.lcm y (foldr Z.lcm 1 l) ≠ 0); [|lia].
    intros E%Z.lcm_eq_0. lia.
  - intros x [->|Hx]%elem_of_cons; [apply Z.divide_lcm_l|]. etransitivity; [by apply H1|apply Z.divide_lcm_r].
Qed.
Lemma lcm_least (l : list Z) m : (∀ x, x ∈ l → (x | m)) → (foldr Z.lcm 1 l | m).
Proof.
  induction l as [|y l IH]; intros H; cbn [foldr]; [apply Z.divide_1_l|].
  apply Z.lcm_least; [apply H; by left|]. apply IH. intros; apply H; by right.
Qed.
Lemma gcd_all (l : list Z) : l ≠ [] → (∀ x, x ∈ l → 0 < x) → 0 < foldr Z.gcd 0 l ∧ ∀ x, x ∈ l → (foldr Z.gcd 0 l | x).
Proof.
  intros Hne Hpos. assert (∀ x, x ∈ l → (foldr Z.gcd 0 l | x)) as Hd.
  { clear Hne Hpos. induction l as [|y l IH]; intros x; cbn [foldr]; [by intros ?%not_elem_of_nil|].
    intros [->|Hx]%elem_of_cons; [apply Z.gcd_divide_l|]. etransitivity; [apply Z.gcd_divide_r|by apply IH]. }
  split; [|done]. destruct l as [|y l]; [done|]. cbn [foldr]. pose proof (Z.gcd_nonneg y (foldr Z.gcd 0 l)).
  assert (Z.gcd y (foldr Z.gcd 0 l) ≠ 0); [|lia]. intros E%Z.gcd_eq_0_l. specialize (Hpos y (list_elem_of_here _ _)). lia.
Qed.

Section Boot.
Context {dt : DTypes}.
Implicit Types (c : SizeConfig) (s : LayerSpec).

(** A layer of a kind the managers' invariants cover. *)
Definition supported_layer s : Prop :=
  0 < layer_block_size s ∧
  match s with
  | Mamba _ _ | SinkFull _ _ _ _ | Cross _ _ | EncoderOnly _ _ => False
  | Sliding _ _ w _ | SlidingMLA _ _ w _ _ => 1 ≤ w
  | Chunked _ _ chunk => 0 < chunk
  | _ => True
  end.

(** Start-up computes block hashes of a size of its own when prefix caching or a
    connector needs them. *)
Record boot_cfg_ok c (layers : list LayerSpec) : Prop := {
  bo_hashes : cfg_enable_prefix_caching c || kv_transfer_enabled c = true;
  bo_hash_block_size h : cfg_hash_block_size c = Some h → 0 < h;
  bo_cp : dcp_size c = 1 ∧ pcp_size c = 1;
  bo_one s : layers = [s] → cfg_block_size c = layer_block_size s;
  bo_layers s : s ∈ layers → supported_layer s;
  bo_nonempty : layers ≠ [];
}.

Lemma resolve_block_sizes c layers sbs hbs :
  boot_cfg_ok c layers → resolve_kv_cache_block_sizes c layers = Ok (sbs, hbs) →
  0 < hbs ∧ 0 < sbs ∧ (hbs | sbs) ∧
  (∀ s, s ∈ layers → (layer_block_size s | sbs) ∧ (hbs | layer_block_size s)) ∧
  ∀ m, (∀ s, s ∈ layers → (layer_block_size s | m)) → (sbs | m).
Proof.
  intros [Hh Hhb [Hd Hp] Hone Hl Hne]. unfold resolve_kv_cache_block_sizes. rewrite Hd, Hp, Hh, !Z.mul_1_r. cbn [negb].
  destruct layers as [|s0 [|s1 layers]]; [done| |].
  - cbn. intros [= <- <-]. rewrite (Hone s0 eq_refl). pose proof (proj1 (Hl s0 (list_elem_of_here _ _))).
    split; [done|]. split; [done|]. split; [done|]. split; [by intros s ->%list_elem_of_singleton|]. intros m Hm. apply Hm. by left.
  - set (all := s0 :: s1 :: layers) in *. destruct (Z.leb_spec (zlen all) 1) as [Hlen|_]; [cbn in Hlen; lia|].
    intros (u0 & _ & H)%bind_Ok. revert H.
    assert (∀ x, x ∈ layer_block_size <$> all → 0 < x) as Hpos.
    { intros x (s & -> & Hs)%list_elem_of_fmap. by apply Hl. }
    destruct (lcm_all _ Hpos) as [HL0 HL]. destruct (gcd_all (layer_block_size <$> all)) as [HG0 HG]; [done|done|].
    assert (existsb (λ s, isMamba s && negb (layer_block_size s =? cfg_block_size c)) all = false) as ->.
    { apply not_true_iff_false. intros (s & Hs%list_elem_of_In & E)%existsb_exists. destruct (Hl s Hs) as [_ Hk].
      destruct s; try done. }
    intros (q & [Hq _]%div_Ok & (u & Hu%require_Ok & E)%bind_Ok)%bind_Ok. rewrite forallb_forall in Hu.
    assert (sbs = foldr Z.lcm 1 (layer_block_size <$> all) ∧
            hbs = default (foldr Z.gcd 0 (layer_block_size <$> all)) (cfg_hash_block_size c)) as [-> ->] by (split; congruence).
    assert (∀ s, s ∈ all → (default (foldr Z.gcd 0 (layer_block_size <$> all)) (cfg_hash_block_size c) | layer_block_size s)) as Hdiv.
    { intros s Hs. apply Z.mod_divide; [done|]. apply Z.eqb_eq, Hu, list_elem_of_In. by apply list_elem_of_fmap_2. }
    split; [destruct (cfg_hash_block_size c) as [h|] eqn:Eh; [by apply (Hhb h)|done]|]. split; [done|].
    split; [etransitivity; [by apply (Hdiv s0); left|apply HL; by left]|]. split.
    + intros s Hs. split; [apply HL; by apply list_elem_of_fmap_2|by apply Hdiv].
    + intros m Hm. apply (lcm_least (layer_block_size <$> all)). intros x (s & -> & Hs)%list_elem_of_fmap. by apply Hm.
Qed.

Lemma coordinator_config_groups layout x cfg :
  coordinator_config layout x = Some cfg →
  num_blocks cfg = x.1 ∧ length (kv_cache_groups cfg) = length x.2 ∧
  ∀ g, g ∈ kv_cache_groups cfg → ∃ s e k, (s, e) ∈ x.2 ∧ scheduler_kind s = Some k ∧
    group_spec g = mkSpec (layer_block_size s) k (layout s).
Proof.
  unfold coordinator_config. intros (gs & Hgs & [= <-])%bind_Some. apply mapM_Some in Hgs. split; [done|].
  split; [by apply Forall2_length in Hgs|]. cbn. intros g [i Hi]%list_elem_of_lookup.
  destruct (Forall2_lookup_r _ _ _ _ _ Hgs Hi) as ([s e] & Hs & (k & Hk & [= <-])%bind_Some).
  exists s, e, k. split; [by eapply list_elem_of_lookup_2|done].
Qed.


End Boot.
