(* ===== verification/KVDemo.v ===== *)
(** * Witnesses for start-up

    A model with two layers of full attention and two with a sliding window,
    split over two workers; the hypotheses of the claims about sizing, grouping
    and allocation hold for it. *)

From S2P Require Import Prelude MathUtils PyDict Request BlockHash KVMetrics FreeQueue BlockPool.
From S2P Require Import SingleTypeManager Coordinator KVSpec KVGroups KVSizing KVLayout KVAlloc.
From S2P Require Import KVGrouping KVStartup KVWorkers KVBoot.

Local Open Scope Z_scope.

(** Two bytes per element, four for [float32]. *)
#[export] Instance demo_dtypes : DTypes := λ d, if String.eqb d "float32" then 4 else 2.

(** Two tokens per block of 128 bytes. *)
Definition demo_attn : AttentionFields := mkAttn 2 8 "bfloat16" NONE None false.
Definition demo_full : LayerSpec := Full 2 demo_attn (mkFull 8 None None false).
Definition demo_sliding : LayerSpec := Sliding 2 demo_attn 4 8.
Definition demo_size_cfg : SizeConfig := mkSizeConfig 6 6 1 1 8 0 "none" 2 None true false false None false false.

Definition demo_workers : list (dict LayerSpec) :=
  [[("f0", demo_full); ("s0", demo_sliding)]; [("f1", demo_full); ("s1", demo_sliding)]].
Definition demo_configs : list WorkerConfig :=
  match get_kv_cache_configs demo_size_cfg demo_workers [2048; 1800] with Ok (ws, _) => ws | Raise _ => [] end.

Lemma demo_configs_ok : get_kv_cache_configs demo_size_cfg demo_workers [2048; 1800] = Ok (demo_configs, demo_size_cfg).
Proof. vm_compute. reflexivity. Qed.

Lemma demo_full_pages : layer_pages_ok demo_full.
Proof. split; [done|]. intros p [= <-]. vm_compute. done. Qed.
Lemma demo_sliding_pages : layer_pages_ok demo_sliding.
Proof. split; [done|]. intros p [= <-]. vm_compute. done. Qed.

Definition demo_specs : list GroupSpec := [OneSpec demo_full; OneSpec demo_sliding].
Lemma demo_group_specs : (λ w, gspec <$> w_groups w) <$> demo_configs = [demo_specs; demo_specs].
Proof. vm_compute. reflexivity. Qed.
Lemma demo_group_pages w g : w ∈ demo_configs → g ∈ w_groups w → group_pages_ok (gspec g).
Proof.
  intros Hw Hg. apply (list_elem_of_fmap_2 (λ w, gspec <$> w_groups w)) in Hw. rewrite demo_group_specs in Hw.
  apply (list_elem_of_fmap_2 gspec) in Hg.
  assert (gspec <$> w_groups w = demo_specs) as E by (repeat (apply elem_of_cons in Hw as [Hw|Hw]; [done|]); by apply not_elem_of_nil in Hw).
  rewrite E in Hg. unfold demo_specs in Hg. apply elem_of_cons in Hg as [->|Hg]; [exact demo_full_pages|].
  apply list_elem_of_singleton in Hg as ->. exact demo_sliding_pages.
Qed.

Lemma demo_names worker : worker ∈ demo_workers → NoDup worker.*1.
Proof.
  intros Hw. apply elem_of_cons in Hw as [->|Hw]; [|apply list_elem_of_singleton in Hw as ->];
    cbn; repeat constructor; set_solver.
Qed.

Lemma startup_pages_sound_witness :
  ∃ w worker m st, demo_configs !! 1%nat = Some w ∧ demo_workers !! 1%nat = Some worker ∧ [2048; 1800] !! 1%nat = Some m ∧
    concat (layer_names <$> w_groups w) ≡ₚ worker.*1 ∧
    _allocate_kv_cache_tensors [] w = Ok st ∧ sum_of (buffers st) ≤ m ∧ pages_ok (w_groups w) w st.
Proof.
  destruct demo_configs as [|w0 [|w ws]] eqn:E; [vm_compute in E; discriminate E..|]. exists w.
  destruct (startup_pages_sound demo_size_cfg demo_workers [2048; 1800] demo_configs demo_size_cfg demo_configs_ok eq_refl)
    with (i := 1%nat) (w := w) as (worker & m & st & H).
  - exact demo_names.
  - intros m Hm. apply elem_of_cons in Hm as [->|Hm]; [lia|]. apply list_elem_of_singleton in Hm as ->. lia.
  - intros x Hx Hs. exfalso. cbn in Hx. repeat (apply elem_of_cons in Hx as [->|Hx]; [discriminate Hs|]). by apply not_elem_of_nil in Hx.
  - exact demo_group_pages.
  - by rewrite E.
  - left. vm_compute in E. injection E as <- <- <-. reflexivity.
  - exists worker, m, st. split; [reflexivity|exact H].
Defined.

(** Three blocks for a request of six tokens with full attention, and up to
    four with the sliding window. *)
Lemma startup_admits_request_witness :
  ∃ w, demo_configs !! 0%nat = Some w ∧ sum_of (request_blocks demo_size_cfg <$> [demo_full; demo_sliding]) = 7 ∧ 7 ≤ w_num_blocks w.
Proof.
  destruct (demo_configs !! 0%nat) as [w|] eqn:E; [|vm_compute in E; discriminate E]. exists w.
  assert (w ∈ demo_configs) as Hw by by eapply list_elem_of_lookup_2.
  split; [reflexivity|]. split; [vm_compute; reflexivity|].
  apply (startup_admits_request demo_size_cfg demo_workers [2048; 1800] demo_configs demo_size_cfg w
           [demo_full; demo_sliding] eq_refl demo_configs_ok Hw).
  split; [done|]. split.
  - vm_compute in E. injection E as <-. vm_compute. reflexivity.
  - intros s Hs. apply elem_of_cons in Hs as [->|Hs]; [exact demo_full_pages|].
    apply list_elem_of_singleton in Hs as ->. exact demo_sliding_pages.
Defined.

(** Memory for five blocks of one layer: ten tokens of at most 16. *)
Definition demo_groups : list KVGroup := [mkKVGroup ["f0"] (OneSpec demo_full) false].
Definition long_cfg : SizeConfig := mkSizeConfig 16 (-1) 1 1 8 0 "none" 2 None true false false None false false.
Lemma max_len_search_exact_witness :
  ∃ r, _estimate_max_model_len_from_groups long_cfg demo_groups 650 = Ok r ∧ r = 10 ∧
    ∀ n, 1 ≤ n ≤ 16 → ∃ m,
      _max_memory_usage_bytes_from_groups (with_max_model_len n long_cfg) demo_groups = Ok m ∧ (m ≤ 650 ↔ n ≤ r).
Proof.
  destruct (max_len_search_exact long_cfg demo_groups 650 1024) as (r & Hr & Hb & H).
  - intros g Hg. apply list_elem_of_singleton in Hg as ->. exact demo_full_pages.
  - cbn. lia.
  - vm_compute. reflexivity.
  - exists r. split; [exact Hr|]. split; [|exact H]. vm_compute in Hr. by injection Hr as <-.
Defined.

Lemma approximate_gcd_optimal_witness :
  _approximate_gcd [6; 10; 9] (Some 4) = Ok 10 ∧ max_of [6; 10; 9] = Ok 10 ∧
  total_padding [6; 10; 9] 10 = 5 ∧ ∀ e, 4 ≤ e ≤ 10 → 5 ≤ total_padding [6; 10; 9] e.
Proof.
  assert (_approximate_gcd [6; 10; 9] (Some 4) = Ok 10 ∧ max_of [6; 10; 9] = Ok 10) as [H1 H2] by (vm_compute; auto).
  split; [exact H1|]. split; [exact H2|]. split; [vm_compute; reflexivity|].
  intros e He. apply (proj2 (proj2 (approximate_gcd_optimal [6; 10; 9] (Some 4) 10 10 H1 H2) ltac:(cbn; lia)) e). cbn. lia.
Defined.

Definition demo_boot : Z * list (LayerSpec * bool) :=
  match generate_scheduler_kv_cache_config demo_configs with Ok x => x | Raise _ => (0, []) end.
Definition demo_coordinator : option KVCacheConfig := coordinator_config (λ _, "") demo_boot.
