(* ===== verification/KVFindings.v ===== *)
(** * Start-up, workers and the scheduler together

    The configuration of a worker is carried through the start-up code to the
    coordinator and the scheduler.  The theorems run small scenarios in which
    the parts do not agree. *)

From S2P Require Import Prelude MathUtils PyDict Request BlockHash KVMetrics FreeQueue BlockPool.
From S2P Require Import SingleTypeManager ManagerInv Coordinator HybridHit CacheStats KVCacheManager.
From S2P Require Import KVReachable KVContract EncoderCache Heapq RequestQueue SchedUtils.
From S2P Require Import PyDict SchedState Scheduler Schedule UpdateOutput SchedInv ScheduleInv WaitingInv.
From S2P Require Import ScheduleOk UpdateInv Lifecycle SchedDemo SchedFindings.
From S2P Require Import KVSpec KVGroups KVSizing KVLayout KVAlloc KVStartup KVDemo.

Local Open Scope Z_scope.
#[local] Existing Instance demo_env.

(** ** The null block *)

(** One layer of full attention with two tokens per block of 128 bytes, for at
    most six tokens. *)
Definition boot_cfg : SchedulerConfig :=
  mkSchedulerConfig FCFS 4 8 6 0 true false false 0 false 1 0 0 None false None 2 2 false false false false 1 false
    false true true 2 demo_hasher.

(** A scheduler on the blocks that [memory] bytes hold. *)
Definition boot (memory : Z) : result demo_sched :=
  '(configs, _) ← get_kv_cache_configs demo_size_cfg [[("layer.0", demo_full)]] [memory];
  x ← generate_scheduler_kv_cache_config configs;
  cfg ← of_option AssertionError (coordinator_config (λ _, "") x);
  kv ← KVCacheManager_init cfg 6 2 2 None true false true false 1 1 None None 0 1;
  Ok (Scheduler_init boot_cfg kv 0 None None tt false).

(** A request of five tokens that may produce one, and the tokens it is
    scheduled after [n] idle steps. *)
Fixpoint idle_rounds (n : nat) (s : demo_sched) : result (dict Z * Z) :=
  '(o, s) ← schedule boot_cfg false s;
  match n with
  | O => Ok (num_scheduled_tokens o, get_num_unfinished_requests s)
  | S n => idle_rounds n s
  end.
Definition boot_run (memory : Z) (n : nat) : result (dict Z * Z) :=
  s ← boot memory;
  s ← Scheduler.add_request boot_cfg (demo_req "a" 1 [1; 2; 3; 4; 5] None 0 1) s;
  idle_rounds n s.

(** The start-up check compares the blocks of a request of maximal length with
    all blocks of the pool, but the pool keeps one as the null block.  With
    memory for exactly three blocks the check accepts a model length of six
    tokens, and a prompt of five waits for ever; with one block less it is
    refused, with one block more it runs. *)
Theorem startup_forgets_null_block :
  boot_run 256 0 = Raise ValueError ∧
  boot_run 384 0 = Ok ([], 1) ∧ boot_run 384 50 = Ok ([], 1) ∧
  boot_run 512 0 = Ok ([("a", 5)], 1).
Proof. vm_compute. auto. Qed.

(** ** Packed Mamba layers *)

(** Two attention and two Mamba layers with pages of 128 bytes, packed. *)
Definition demo_mamba : LayerSpec := Mamba 2 (mkMamba [[64]] ["float16"] None "mamba2" "none" 0).
Definition demo_hybrid : dict LayerSpec :=
  [("attn.0", demo_full); ("attn.1", demo_full); ("mamba.0", demo_mamba); ("mamba.1", demo_mamba)].
Definition packed_cfg : SizeConfig := mkSizeConfig 6 6 1 1 8 0 "none" 2 None true true true None false false.

(** The groups and the worker's allocation of [memory] bytes, and where the
    page of a block of a layer of group [i] is. *)
Definition packed_page (memory : Z) (i : nat) (name : string) (block : Z) : result (option nat * (Z * Z)) :=
  groups ← get_kv_cache_groups packed_cfg demo_hybrid;
  w ← get_kv_cache_config_from_groups packed_cfg groups memory;
  st ← _allocate_kv_cache_tensors [] w;
  g ← of_option IndexError (groups !! i);
  p ← page_at w g name block;
  Ok (dict_get name (kv_cache_raw_tensors st), p).

(** The views of Mamba states ignore the offset and the stride of the packed
    layout: two Mamba layers of one group have the same bytes, and a block of
    one is in another block of an attention layer. *)
Theorem packed_mamba_pages_overlap :
  packed_page 2048 1 "mamba.0" 3 = packed_page 2048 1 "mamba.1" 3 ∧
  packed_page 2048 1 "mamba.0" 3 = Ok (Some 0%nat, (384, 128)) ∧
  packed_page 2048 0 "attn.1" 1 = Ok (Some 0%nat, (384, 128)).
Proof. vm_compute. auto. Qed.

(** ** Different windows *)

(** Full attention beside two sizes of sliding windows. *)
Definition two_windows : dict LayerSpec :=
  [("f", demo_full); ("s", Sliding 2 demo_attn 4 8); ("t", Sliding 2 demo_attn 8 8)].
Definition no_hybrid_cfg : SizeConfig := mkSizeConfig 6 6 1 1 8 0 "none" 2 None true false false None true false.

(** [is_kv_cache_spec_uniform] is to tell whether layers have one spec.  The
    merge of full-attention specs with different windows raises a [ValueError],
    which the test does not catch: without the hybrid manager, a model with two
    window sizes does not start, although its converted specs are of one type. *)
Theorem uniform_test_raises :
  get_kv_cache_groups no_hybrid_cfg two_windows = Raise ValueError ∧
  (d ← mapR (λ x, s ← as_full_attention None x.2; Ok (x.1, s)) two_windows; is_kv_cache_spec_uniform d) = Raise ValueError ∧
  (d ← mapR (λ x, s ← as_full_attention None x.2; Ok (x.1, s)) two_windows; is_uniform_type d) = Ok true.
Proof. vm_compute. auto. Qed.

(** ** The EAGLE flag *)

(** The drafter's group has its only layer on the second pipeline stage. *)
Definition eagle_groups : list KVGroup :=
  [mkKVGroup ["f0"; "f1"] (OneSpec demo_full) false; mkKVGroup ["mtp"] (OneSpec demo_sliding) true].

(** The scheduler takes the groups of the first worker, on which the flag of a
    group without layers has been cleared. *)
Theorem eagle_flag_lost :
  (gs ← _project_kv_cache_groups_to_worker eagle_groups [("f0", demo_full)];
   generate_scheduler_kv_cache_config [mkWorkerConfig 8 [] gs]) = Ok (8, [(demo_full, false); (demo_sliding, false)]) ∧
  (gs ← _project_kv_cache_groups_to_worker eagle_groups [("f1", demo_full); ("mtp", demo_sliding)];
   generate_scheduler_kv_cache_config [mkWorkerConfig 8 [] gs]) = Ok (8, [(demo_full, false); (demo_sliding, true)]).
Proof. vm_compute. auto. Qed.
