(* ===== verification/Offload.v ===== *)
(** * KV offloading to CPU memory ([vllm/v1/kv_offload/cpu/])

    The manager keeps blocks of KV data in a pool of CPU buffers.  A block is
    identified by a key; it is stored by a transfer from the GPU, may be read by
    several transfers, and can be evicted when no transfer uses it.  Which block
    goes first is decided by a cache policy, LRU or ARC, behind an interface.

    Correspondence.  An [OffloadKey] is a byte string, a Rocq [string].  A
    [BlockStatus] object is in one entry of one dictionary of the policy, so the
    assignment of its [ref_cnt], a 32-bit integer, is an update of that entry
    ([set_ref_cnt]).  The target size of ARC is a rational number; rounding of
    floating-point values is not modelled.  [req_context] is not used by this
    manager. *)

From Stdlib Require Import QArith.
From S2P Require Import Prelude PyDict.

Local Open Scope Z_scope.

Abbreviation OffloadKey := string.

Record BlockStatus := mkBlockStatus { ref_cnt : Z; block_id : Z }.
#[export] Instance block_status_eq_dec : EqDecision BlockStatus.
Proof. solve_decision. Defined.

(** A new block is not ready. *)
Definition BlockStatus_init (id : Z) : BlockStatus := mkBlockStatus (-1) id.
Definition is_ready (b : BlockStatus) : bool := ref_cnt b >=? 0.

(** Assignment to a field of type [c_int32]. *)
Definition int32 (z : Z) : Z := (z + 2 ^ 31) mod 2 ^ 32 - 2 ^ 31.

Inductive LookupResult := MISS | HIT | HIT_PENDING | RETRY.
Record OffloadingEvent := mkOffloadingEvent { ev_keys : list OffloadKey; ev_medium : string; ev_removed : bool }.
Record PrepareStoreOutput := mkPrepareStoreOutput {
  keys_to_store : list OffloadKey;
  store_spec : list Z;
  evicted_keys : list OffloadKey;
}.

(** ** Ordered dictionaries *)

Definition dict_mem {A} (k : string) (d : dict A) : bool := bool_decide (is_Some (dict_get k d)).
(** [d.move_to_end(k)] *)
Definition move_to_end {A} (k : string) (d : dict A) : dict A :=
  match dict_get k d with Some v => dict_del k d ++ [(k, v)] | None => d end.
(** [del d[k]] *)
Definition dict_delete {A} (k : string) (d : dict A) : result (dict A) :=
  _ ← of_option KeyError (dict_get k d); Ok (dict_del k d).

(** ** The interface of cache policies *)

Class CachePolicy (P : Type) := {
  policy_init : Z → P;
  policy_get : OffloadKey → P → option BlockStatus;
  policy_insert : OffloadKey → BlockStatus → P → P;
  policy_remove : OffloadKey → P → result P;
  policy_touch : list OffloadKey → P → P;
  policy_evict : Z → list OffloadKey → P → result (option (list (OffloadKey * BlockStatus)) * P);
  policy_clear : P → P;
  mark_evictable : OffloadKey → P → P;
  mark_non_evictable : OffloadKey → P → result P;
  set_ref_cnt : OffloadKey → Z → P → P;
}.

Definition put_ref_cnt (k : OffloadKey) (r : Z) (d : dict BlockStatus) : dict BlockStatus :=
  match dict_get k d with Some b => dict_set k (mkBlockStatus (int32 r) (block_id b)) d | None => d end.

(** ** LRU *)

Record LRUCachePolicy := mkLRU { evictable_blocks : dict (); lru_blocks : dict BlockStatus }.

Definition lru_insert (k : OffloadKey) (b : BlockStatus) (p : LRUCachePolicy) : LRUCachePolicy :=
  mkLRU (if ref_cnt b =? 0 then dict_set k () (evictable_blocks p) else evictable_blocks p)
        (dict_set k b (lru_blocks p)).
Definition lru_remove (k : OffloadKey) (p : LRUCachePolicy) : result LRUCachePolicy :=
  bs ← dict_delete k (lru_blocks p); Ok (mkLRU (dict_del k (evictable_blocks p)) bs).
Definition lru_touch (keys : list OffloadKey) (p : LRUCachePolicy) : LRUCachePolicy :=
  mkLRU (fold_left (λ d k, if dict_mem k d then move_to_end k d else d) (reverse keys) (evictable_blocks p)) (lru_blocks p).

(** The loop over [evictable_blocks]. *)
Fixpoint lru_candidates (blocks : dict BlockStatus) (n : Z) (protected : list OffloadKey) (keys : list OffloadKey)
    (candidates : list (OffloadKey * BlockStatus)) : result (list (OffloadKey * BlockStatus)) :=
  match keys with
  | [] => Ok candidates
  | k :: keys =>
      if bool_decide (k ∈ protected) then lru_candidates blocks n protected keys candidates else
      b ← of_option KeyError (dict_get k blocks);
      _ ← assert_ (ref_cnt b =? 0);
      let candidates := candidates ++ [(k, b)] in
      if zlen candidates =? n then Ok candidates else lru_candidates blocks n protected keys candidates
  end.
Definition lru_evict (n : Z) (protected : list OffloadKey) (p : LRUCachePolicy)
    : result (option (list (OffloadKey * BlockStatus)) * LRUCachePolicy) :=
  if n =? 0 then Ok (Some [], p) else
  candidates ← lru_candidates (lru_blocks p) n protected (evictable_blocks p).*1 [];
  if zlen candidates <? n then Ok (None, p) else
  p ← foldM (λ p x, ev ← dict_delete x.1 (evictable_blocks p); bs ← dict_delete x.1 (lru_blocks p); Ok (mkLRU ev bs))
        p candidates;
  Ok (Some candidates, p).

Definition lru_init (capacity : Z) : LRUCachePolicy := mkLRU [] [].
Definition lru_get (k : OffloadKey) (p : LRUCachePolicy) : option BlockStatus := dict_get k (lru_blocks p).
Definition lru_clear (p : LRUCachePolicy) : LRUCachePolicy := mkLRU [] [].
Definition lru_mark_evictable (k : OffloadKey) (p : LRUCachePolicy) : LRUCachePolicy :=
  mkLRU (dict_set k () (evictable_blocks p)) (lru_blocks p).
Definition lru_mark_non_evictable (k : OffloadKey) (p : LRUCachePolicy) : result LRUCachePolicy :=
  ev ← dict_delete k (evictable_blocks p); Ok (mkLRU ev (lru_blocks p)).

#[export] Instance lru_policy : CachePolicy LRUCachePolicy := {
  policy_init := lru_init;
  policy_get := lru_get;
  policy_insert := lru_insert;
  policy_remove := lru_remove;
  policy_touch := lru_touch;
  policy_evict := lru_evict;
  policy_clear := lru_clear;
  mark_evictable := lru_mark_evictable;
  mark_non_evictable := lru_mark_non_evictable;
  set_ref_cnt k r p := mkLRU (evictable_blocks p) (put_ref_cnt k r (lru_blocks p));
}.

(** ** ARC *)

Record ARCCachePolicy := mkARC {
  cache_capacity : Z;
  target_t1_size : Q;
  t1 : dict BlockStatus;
  t2 : dict BlockStatus;
  b1 : dict ();
  b2 : dict ();
}.

Definition qmax (x y : Q) : Q := if Qle_bool x y then y else x.
Definition qmin (x y : Q) : Q := if Qle_bool x y then x else y.
(** [int(x)] *)
Definition qint (x : Q) : Z := Z.quot (Qnum x) (Zpos (Qden x)).
(** [max(1, len(x) / len(y))] *)
Definition ghost_delta (x y : dict ()) : Q := qmax 1 (Qdiv (inject_Z (zlen x)) (inject_Z (zlen y))).

Definition arc_get (k : OffloadKey) (p : ARCCachePolicy) : option BlockStatus :=
  match dict_get k (t1 p) with Some b => Some b | None => dict_get k (t2 p) end.
Definition arc_insert (k : OffloadKey) (b : BlockStatus) (p : ARCCachePolicy) : ARCCachePolicy :=
  mkARC (cache_capacity p) (target_t1_size p) (dict_set k b (t1 p)) (t2 p) (dict_del k (b1 p)) (dict_del k (b2 p)).
Definition arc_remove (k : OffloadKey) (p : ARCCachePolicy) : ARCCachePolicy :=
  match dict_get k (t1 p) with
  | Some _ => mkARC (cache_capacity p) (target_t1_size p) (dict_del k (t1 p)) (t2 p) (b1 p) (b2 p)
  | None => mkARC (cache_capacity p) (target_t1_size p) (t1 p) (dict_del k (t2 p)) (b1 p) (b2 p)
  end.

Definition arc_touch_one (p : ARCCachePolicy) (k : OffloadKey) : ARCCachePolicy :=
  match dict_get k (t1 p) with
  | Some b =>
      if negb (is_ready b)
      then mkARC (cache_capacity p) (target_t1_size p) (dict_set k b (dict_del k (t1 p))) (t2 p) (b1 p) (b2 p)
      else mkARC (cache_capacity p) (target_t1_size p) (dict_del k (t1 p)) (dict_set k b (t2 p)) (b1 p) (b2 p)
  | None =>
      if dict_mem k (t2 p)
      then mkARC (cache_capacity p) (target_t1_size p) (t1 p) (move_to_end k (t2 p)) (b1 p) (b2 p)
      else if dict_mem k (b1 p)
      then mkARC (cache_capacity p)
             (Qred (qmin (target_t1_size p + ghost_delta (b2 p) (b1 p)) (inject_Z (cache_capacity p))))
             (t1 p) (t2 p) (move_to_end k (b1 p)) (b2 p)
      else if dict_mem k (b2 p)
      then mkARC (cache_capacity p) (Qred (qmax (target_t1_size p - ghost_delta (b1 p) (b2 p)) 0))
             (t1 p) (t2 p) (b1 p) (move_to_end k (b2 p))
      else p
  end.
Definition arc_touch (keys : list OffloadKey) (p : ARCCachePolicy) : ARCCachePolicy :=
  fold_left arc_touch_one (reverse keys) p.

(** The first idle block of a list that is neither protected nor selected. *)
Definition arc_idle (protected selected : list OffloadKey) (d : dict BlockStatus) : option (OffloadKey * BlockStatus) :=
  snd <$> list_find (λ x, ref_cnt x.2 = 0 ∧ x.1 ∉ protected ∧ x.1 ∉ selected) d.

Fixpoint arc_candidates (n : nat) (protected : list OffloadKey) (p : ARCCachePolicy) (virtual_t1_size : Z)
    (candidates : list (OffloadKey * BlockStatus * bool)) : option (list (OffloadKey * BlockStatus * bool)) :=
  match n with
  | O => Some candidates
  | S n =>
      let selected := (λ x, x.1.1) <$> candidates in
      let from_t1 := if virtual_t1_size >=? qint (target_t1_size p) then arc_idle protected selected (t1 p) else None in
      match from_t1 with
      | Some x => arc_candidates n protected p (virtual_t1_size - 1) (candidates ++ [(x, true)])
      | None =>
          match arc_idle protected selected (t2 p) with
          | Some x => arc_candidates n protected p virtual_t1_size (candidates ++ [(x, false)])
          | None => None
          end
      end
  end.

Definition arc_evict_one (p : ARCCachePolicy) (x : OffloadKey * BlockStatus * bool) : result ARCCachePolicy :=
  let '(k, _, from_t1) := x in
  if (from_t1 : bool) then
    t1' ← dict_delete k (t1 p);
    Ok (mkARC (cache_capacity p) (target_t1_size p) t1' (t2 p) (dict_set k () (b1 p)) (b2 p))
  else
    t2' ← dict_delete k (t2 p);
    Ok (mkARC (cache_capacity p) (target_t1_size p) (t1 p) t2' (b1 p) (dict_set k () (b2 p))).

(** [popitem(last=False)] as often as the list is too long. *)
Definition trim_ghost (capacity : Z) (d : dict ()) : result (dict ()) :=
  _ ← require KeyError (zlen d - capacity <=? zlen d); Ok (drop (Z.to_nat (zlen d - capacity)) d).

Definition arc_evict (n : Z) (protected : list OffloadKey) (p : ARCCachePolicy)
    : result (option (list (OffloadKey * BlockStatus)) * ARCCachePolicy) :=
  if n =? 0 then Ok (Some [], p) else
  match arc_candidates (Z.to_nat n) protected p (zlen (t1 p)) [] with
  | None => Ok (None, p)
  | Some candidates =>
      p ← foldM arc_evict_one p candidates;
      b1' ← trim_ghost (cache_capacity p) (b1 p);
      b2' ← trim_ghost (cache_capacity p) (b2 p);
      Ok (Some candidates.*1, mkARC (cache_capacity p) (target_t1_size p) (t1 p) (t2 p) b1' b2')
  end.

Definition arc_init (capacity : Z) : ARCCachePolicy := mkARC capacity 0 [] [] [] [].
Definition arc_clear (p : ARCCachePolicy) : ARCCachePolicy := mkARC (cache_capacity p) 0 [] [] [] [].

#[export] Instance arc_policy : CachePolicy ARCCachePolicy := {
  policy_init := arc_init;
  policy_get := arc_get;
  policy_insert := arc_insert;
  policy_remove k p := Ok (arc_remove k p);
  policy_touch := arc_touch;
  policy_evict := arc_evict;
  policy_clear := arc_clear;
  mark_evictable _ p := p;
  mark_non_evictable _ p := Ok p;
  set_ref_cnt k r p :=
    match dict_get k (t1 p) with
    | Some _ => mkARC (cache_capacity p) (target_t1_size p) (put_ref_cnt k r (t1 p)) (t2 p) (b1 p) (b2 p)
    | None => mkARC (cache_capacity p) (target_t1_size p) (t1 p) (put_ref_cnt k r (t2 p)) (b1 p) (b2 p)
    end;
}.

(** ** The manager *)

Record CPUOffloadingManager (P : Type) := mkManager {
  _num_blocks : Z;
  _num_allocated_blocks : Z;
  _free_list : list Z;
  events : option (list OffloadingEvent);
  _policy : P;
  _num_evictable_cache_blocks : Z;
  store_threshold : Z;
  max_tracker_size : Z;
  stores_skipped_in_current_batch : Z;
  allocation_sizes_in_current_batch : list Z;
  counts : option (dict Z);
}.
Arguments mkManager {P}.
Arguments _num_blocks {P}. Arguments _num_allocated_blocks {P}. Arguments _free_list {P}. Arguments events {P}.
Arguments _policy {P}. Arguments _num_evictable_cache_blocks {P}. Arguments store_threshold {P}.
Arguments max_tracker_size {P}. Arguments stores_skipped_in_current_batch {P}.
Arguments allocation_sizes_in_current_batch {P}. Arguments counts {P}.

(** [CPULoadStoreSpec.medium()] *)
Definition medium : string := "CPU".

Section Manager.
Context {P : Type} `{!CachePolicy P}.
Abbreviation manager := (CPUOffloadingManager P).
Implicit Types (m : manager) (k : OffloadKey) (keys : list OffloadKey).

(** Assignments to the attributes. *)
Definition put_pool (allocated : Z) (free : list Z) m : manager :=
  mkManager (_num_blocks m) allocated free (events m) (_policy m) (_num_evictable_cache_blocks m) (store_threshold m)
    (max_tracker_size m) (stores_skipped_in_current_batch m) (allocation_sizes_in_current_batch m) (counts m).
Definition put_policy (p : P) (evictable : Z) m : manager :=
  mkManager (_num_blocks m) (_num_allocated_blocks m) (_free_list m) (events m) p evictable (store_threshold m)
    (max_tracker_size m) (stores_skipped_in_current_batch m) (allocation_sizes_in_current_batch m) (counts m).
Definition put_events (es : option (list OffloadingEvent)) m : manager :=
  mkManager (_num_blocks m) (_num_allocated_blocks m) (_free_list m) es (_policy m) (_num_evictable_cache_blocks m)
    (store_threshold m) (max_tracker_size m) (stores_skipped_in_current_batch m) (allocation_sizes_in_current_batch m) (counts m).
Definition put_stats (skipped : Z) (sizes : list Z) m : manager :=
  mkManager (_num_blocks m) (_num_allocated_blocks m) (_free_list m) (events m) (_policy m) (_num_evictable_cache_blocks m)
    (store_threshold m) (max_tracker_size m) skipped sizes (counts m).
Definition put_counts (cs : option (dict Z)) m : manager :=
  mkManager (_num_blocks m) (_num_allocated_blocks m) (_free_list m) (events m) (_policy m) (_num_evictable_cache_blocks m)
    (store_threshold m) (max_tracker_size m) (stores_skipped_in_current_batch m) (allocation_sizes_in_current_batch m) cs.

Definition CPUOffloadingManager_init (num_blocks : Z) (enable_events : bool) (threshold tracker_size : Z) : manager :=
  mkManager num_blocks 0 [] (if enable_events then Some [] else None) (policy_init num_blocks) 0 threshold tracker_size 0 []
    (if threshold >=? 2 then Some [] else None).

Definition _get_num_free_blocks m : Z := zlen (_free_list m) + _num_blocks m - _num_allocated_blocks m.

(** Fresh blocks first, then blocks from the end of the free list. *)
Definition _allocate_blocks keys m : result (list BlockStatus * manager) :=
  let num_fresh := Z.min (zlen keys) (_num_blocks m - _num_allocated_blocks m) in
  let num_reused := zlen keys - num_fresh in
  _ ← assert_ (zlen (_free_list m) >=? num_reused);
  let fresh := py_range (_num_allocated_blocks m) (_num_allocated_blocks m + num_fresh) in
  let reused := take (Z.to_nat num_reused) (reverse (_free_list m)) in
  let free := take (length (_free_list m) - Z.to_nat num_reused) (_free_list m) in
  Ok (BlockStatus_init <$> (fresh ++ reused), put_pool (_num_allocated_blocks m + zlen fresh) free m).

Definition _free_block (b : BlockStatus) m : manager :=
  put_pool (_num_allocated_blocks m) (_free_list m ++ [block_id b]) m.

(** The tracker of references. *)
Definition track k m : result manager :=
  match counts m with
  | None => Ok m
  | Some cs =>
      match dict_get k cs with
      | Some c => Ok (put_counts (Some (dict_set k (c + 1) (move_to_end k cs))) m)
      | None =>
          cs ← (if zlen cs >=? max_tracker_size m
                then match cs with [] => Raise KeyError | _ :: cs => Ok cs end else Ok cs);
          Ok (put_counts (Some (dict_set k 1 cs)) m)
      end
  end.

Definition lookup k m : result (LookupResult * manager) :=
  m ← track k m;
  Ok (match policy_get k (_policy m) with
      | None => MISS
      | Some b => if negb (is_ready b) then HIT_PENDING else HIT
      end, m).

Definition load_one (x : list Z * manager) k : result (list Z * manager) :=
  let '(ids, m) := x in
  b ← of_option AssertionError (policy_get k (_policy m));
  _ ← assert_ (is_ready b);
  '(p, evictable) ← (if ref_cnt b =? 0 then
                       p ← mark_non_evictable k (_policy m);
                       let evictable := _num_evictable_cache_blocks m - 1 in
                       _ ← assert_ (evictable >=? 0);
                       Ok (p, evictable)
                     else Ok (_policy m, _num_evictable_cache_blocks m));
  Ok (ids ++ [block_id b], put_policy (set_ref_cnt k (ref_cnt b + 1) p) evictable m).
Definition prepare_load keys m : result (list Z * manager) := foldM load_one ([], m) keys.

Definition touch keys m : manager := put_policy (policy_touch keys (_policy m)) (_num_evictable_cache_blocks m) m.

Definition unload_one m k : result manager :=
  b ← of_option AssertionError (policy_get k (_policy m));
  _ ← assert_ (ref_cnt b >? 0);
  let p := set_ref_cnt k (ref_cnt b - 1) (_policy m) in
  Ok (if int32 (ref_cnt b - 1) =? 0
      then put_policy (mark_evictable k p) (_num_evictable_cache_blocks m + 1) m
      else put_policy p (_num_evictable_cache_blocks m) m).
Definition complete_load keys m : result manager := foldM unload_one m keys.

(** [events.append], if events are enabled and there are keys. *)
Definition emit keys (removed : bool) m : manager :=
  match keys, events m with
  | _ :: _, Some es => put_events (Some (es ++ [mkOffloadingEvent keys medium removed])) m
  | _, _ => m
  end.

(** Make room for [n] more blocks; [None] if that is not possible. *)
Definition make_room (n : Z) keys m : result (option (list OffloadKey) * manager) :=
  if n >? 0 then
    if n >? _num_evictable_cache_blocks m then Ok (None, m) else
    '(evicted, p) ← policy_evict n keys (_policy m);
    match evicted with
    | None => Ok (None, put_policy p (_num_evictable_cache_blocks m) m)
    | Some evicted =>
        let evictable := _num_evictable_cache_blocks m - zlen evicted in
        _ ← assert_ (evictable >=? 0);
        Ok (Some evicted.*1, fold_left (λ m x, _free_block x.2 m) evicted (put_policy p evictable m))
    end
  else Ok (Some [], m).

(** Drop the keys that were not looked up often enough. *)
Definition skip_stores keys m : list OffloadKey * manager :=
  match counts m with
  | None => (keys, m)
  | Some cs =>
      let kept := filter (λ k, store_threshold m ≤ default 0 (dict_get k cs)) keys in
      (kept, put_stats (stores_skipped_in_current_batch m + (zlen keys - zlen kept)) (allocation_sizes_in_current_batch m) m)
  end.

Definition prepare_store keys m : result (option PrepareStoreOutput * manager) :=
  let '(keys, m) := skip_stores keys m in
  let to_store := filter (λ k, policy_get k (_policy m) = None) keys in
  match to_store with
  | [] => Ok (Some (mkPrepareStoreOutput [] [] []), m)
  | _ =>
      let m := put_stats (stores_skipped_in_current_batch m) (allocation_sizes_in_current_batch m ++ [zlen to_store]) m in
      '(to_evict, m) ← make_room (zlen to_store - _get_num_free_blocks m) keys m;
      match to_evict with
      | None => Ok (None, m)
      | Some to_evict =>
          let m := emit to_evict true m in
          '(bs, m) ← _allocate_blocks to_store m;
          _ ← assert_ (zlen bs =? zlen to_store);
          let p := fold_left (λ p x, policy_insert x.1 x.2 p) (zip to_store bs) (_policy m) in
          Ok (Some (mkPrepareStoreOutput to_store (block_id <$> bs) to_evict),
              put_policy p (_num_evictable_cache_blocks m) m)
      end
  end.

(** One key of a finished store: a block that is still not ready becomes
    readable, or is removed. *)
Definition store_done (success : bool) (x : list OffloadKey * manager) k : result (list OffloadKey * manager) :=
  let '(stored, m) := x in
  match policy_get k (_policy m) with
  | Some b =>
      if is_ready b then Ok (stored, m) else
      if success then
        Ok (stored ++ [k], put_policy (mark_evictable k (set_ref_cnt k 0 (_policy m))) (_num_evictable_cache_blocks m + 1) m)
      else
        p ← policy_remove k (_policy m);
        Ok (stored, _free_block b (put_policy p (_num_evictable_cache_blocks m) m))
  | None => Ok (stored, m)
  end.
Definition complete_store keys (success : bool) m : result manager :=
  '(stored, m) ← foldM (store_done success) ([], m) keys; Ok (emit stored false m).

Definition reset_cache m : manager := put_pool 0 [] (put_policy (policy_clear (_policy m)) 0 m).

Definition take_events m : list OffloadingEvent * manager :=
  match events m with None => ([], m) | Some es => (es, put_events (Some []) m) end.

(** The usage as a numerator over [_num_blocks], the sizes of allocations, and
    the skipped stores if they are counted. *)
Definition get_stats m : (Z * list Z * option Z) * manager :=
  let num_used := _num_allocated_blocks m - zlen (_free_list m) - _num_evictable_cache_blocks m in
  let counted := store_threshold m >=? 2 in
  (num_used, allocation_sizes_in_current_batch m, if counted then Some (stores_skipped_in_current_batch m) else None,
   put_stats (if counted then 0 else stores_skipped_in_current_batch m) [] m).

End Manager.
