(* ===== verification/OffloadPolicy.v ===== *)
(** * Cache policies of KV offloading implement a map of blocks

    [CachePolicySpec] is what the offloading manager may assume of a policy: its
    contents are a finite map from keys to blocks, and eviction takes idle
    blocks that are not protected, all or nothing.  LRU and ARC are instances. *)

From Stdlib Require Import QArith.
From S2P Require Import Prelude PyDict Offload.

Local Open Scope Z_scope.

(** ** Ordered dictionaries *)

Section Ordered.
Context {A : Type}.
Implicit Types (d : dict A) (k : string).

Lemma dict_del_perm d k v : dict_get k d = Some v → d ≡ₚ (k, v) :: dict_del k d.
Proof. intros (d1 & d2 & -> & ->)%dict_del_split. by rewrite Permutation_middle. Qed.
Lemma dict_get_not d k : dict_get k d = None ↔ k ∉ d.*1.
Proof. rewrite dict_get_key. destruct (dict_get k d); naive_solver. Qed.
Lemma dict_del_keys d k k' : NoDup d.*1 → k' ∈ (dict_del k d).*1 ↔ k' ≠ k ∧ k' ∈ d.*1.
Proof.
  intros Hnd. rewrite !dict_get_key, dict_get_del by done. case_decide; naive_solver.
Qed.
Lemma dict_set_keys d k v k' : k' ∈ (dict_set k v d).*1 ↔ k' = k ∨ k' ∈ d.*1.
Proof. rewrite !dict_get_key, dict_get_set. case_decide; naive_solver. Qed.
Lemma dict_set_same d k v v' : dict_get k d = Some v' → (dict_set k v d).*1 = d.*1.
Proof.
  induction d as [|[k1 v1] d IH]; cbn; [done|]. destruct (String.eqb_spec k k1) as [<-|]; [done|].
  intros H. cbn. by rewrite IH.
Qed.
Lemma dict_set_nodup_any d k v : NoDup d.*1 → NoDup (dict_set k v d).*1.
Proof.
  intros Hnd. destruct (dict_get k d) as [v'|] eqn:E; [by rewrite (dict_set_same d k v v')|by apply dict_set_nodup].
Qed.
Lemma dict_perm_get d d' k : d ≡ₚ d' → NoDup d.*1 → dict_get k d = dict_get k d'.
Proof.
  intros Hp Hnd. assert (NoDup d'.*1) as Hnd' by by rewrite <- Hp.
  destruct (dict_get k d') as [v|] eqn:E.
  - apply dict_get_nodup; [done|]. rewrite Hp. by apply dict_get_elem.
  - apply dict_get_not. rewrite Hp. by apply dict_get_not.
Qed.

Lemma move_to_end_perm d k : move_to_end k d ≡ₚ d.
Proof.
  unfold move_to_end. destruct (dict_get k d) as [v|] eqn:E; [|done].
  rewrite (dict_del_perm d k v E) at 2. by rewrite Permutation_app_comm.
Qed.
Lemma dict_delete_Ok d k v : dict_get k d = Some v → dict_delete k d = Ok (dict_del k d).
Proof. intros H. unfold dict_delete. by rewrite H. Qed.
End Ordered.

Lemma int32_small r : - 2 ^ 31 ≤ r < 2 ^ 31 → int32 r = r.
Proof. intros H. unfold int32. rewrite Z.mod_small; lia. Qed.

Lemma put_ref_get k r (d : dict BlockStatus) k' b :
  dict_get k d = Some b → dict_get k' (put_ref_cnt k r d) =
    if decide (k' = k) then Some (mkBlockStatus (int32 r) (block_id b)) else dict_get k' d.
Proof. intros H. unfold put_ref_cnt. by rewrite H, dict_get_set. Qed.
Lemma put_ref_keys k r (d : dict BlockStatus) : (put_ref_cnt k r d).*1 = d.*1.
Proof. unfold put_ref_cnt. destruct (dict_get k d) as [b|] eqn:E; [by eapply dict_set_same|done]. Qed.

(** ** The interface *)

(** The map without some keys. *)
Definition without (keys : list OffloadKey) (m : gmap OffloadKey BlockStatus) : gmap OffloadKey BlockStatus :=
  filter (λ x, x.1 ∉ keys) m.
Lemma lookup_without keys m k : without keys m !! k = if decide (k ∈ keys) then None else m !! k.
Proof.
  unfold without. case_decide as Hk.
  - apply map_lookup_filter_None_2. right. intros b _. cbn. by intros [].
  - destruct (m !! k) as [b|] eqn:E.
    + by apply map_lookup_filter_Some_2.
    + apply map_lookup_filter_None_2. by left.
Qed.

Lemma without_nil m : without [] m = m.
Proof. apply map_eq. intros k. rewrite lookup_without. by rewrite decide_False by apply not_elem_of_nil. Qed.
Lemma without_cons k keys m : without (k :: keys) m = without keys (delete k m).
Proof.
  apply map_eq. intros k'. rewrite !lookup_without. destruct (decide (k' = k)) as [->|Hne].
  - rewrite lookup_delete_eq. repeat case_decide; set_solver.
  - rewrite lookup_delete_ne by done. repeat case_decide; set_solver.
Qed.

Class CachePolicySpec (P : Type) `{!CachePolicy P} := {
  policy_rep : P → gmap OffloadKey BlockStatus → Prop;
  rep_init c : 0 ≤ c → policy_rep (policy_init c) ∅;
  rep_get p m k : policy_rep p m → policy_get k p = m !! k;
  rep_insert p m k id : policy_rep p m → m !! k = None →
    policy_rep (policy_insert k (BlockStatus_init id) p) (<[k := BlockStatus_init id]> m);
  rep_remove p m k b : policy_rep p m → m !! k = Some b → ref_cnt b = -1 →
    ∃ p', policy_remove k p = Ok p' ∧ policy_rep p' (delete k m);
  rep_touch p m keys : policy_rep p m → policy_rep (policy_touch keys p) m;
  rep_clear p m : policy_rep p m → policy_rep (policy_clear p) ∅;
  rep_evict p m n protected : policy_rep p m → 0 < n → ∃ r p', policy_evict n protected p = Ok (r, p') ∧
    match r with
    | None => p' = p
    | Some l => zlen l = n ∧ NoDup l.*1 ∧
        (∀ k b, (k, b) ∈ l → m !! k = Some b ∧ ref_cnt b = 0 ∧ k ∉ protected) ∧ policy_rep p' (without l.*1 m)
    end;
  rep_idle p m k b : policy_rep p m → m !! k = Some b → ref_cnt b ≠ 0 →
    policy_rep (mark_evictable k (set_ref_cnt k 0 p)) (<[k := mkBlockStatus 0 (block_id b)]> m);
  rep_busy p m k b : policy_rep p m → m !! k = Some b → ref_cnt b = 0 →
    ∃ p', mark_non_evictable k p = Ok p' ∧
      policy_rep (set_ref_cnt k 1 p') (<[k := mkBlockStatus 1 (block_id b)]> m);
  rep_count p m k b r : policy_rep p m → m !! k = Some b → ref_cnt b ≠ 0 → 0 < r < 2 ^ 31 →
    policy_rep (set_ref_cnt k r p) (<[k := mkBlockStatus r (block_id b)]> m);
}.

(** ** LRU *)

Record lru_rep (p : LRUCachePolicy) (m : gmap OffloadKey BlockStatus) : Prop := {
  lru_nodup : NoDup (lru_blocks p).*1;
  lru_get k : dict_get k (lru_blocks p) = m !! k;
  lru_ev_nodup : NoDup (evictable_blocks p).*1;
  lru_ev k : k ∈ (evictable_blocks p).*1 ↔ ∃ b, m !! k = Some b ∧ ref_cnt b = 0;
}.

(** The idle blocks that may go, in the order of the dictionary. *)
Definition lru_order (protected : list OffloadKey) (p : LRUCachePolicy) : list OffloadKey :=
  filter (λ k, k ∉ protected) (evictable_blocks p).*1.

Lemma lru_candidates_spec p m n protected keys acc :
  lru_rep p m → (∀ k, k ∈ keys → k ∈ (evictable_blocks p).*1) → zlen acc < n →
  ∃ l, lru_candidates (lru_blocks p) n protected keys acc = Ok (acc ++ l) ∧
    l.*1 = take (Z.to_nat (n - zlen acc)) (filter (λ k, k ∉ protected) keys) ∧
    ∀ k b, (k, b) ∈ l → m !! k = Some b ∧ ref_cnt b = 0 ∧ k ∉ protected.
Proof.
  intros Hrep. revert acc. induction keys as [|k keys IH]; intros acc Hk Hn; cbn [lru_candidates].
  { exists []. rewrite app_nil_r. split; [done|]. split; [by rewrite filter_nil, take_nil|by intros k b ?%not_elem_of_nil]. }
  rewrite filter_cons. case_bool_decide as Hp; [rewrite decide_False by naive_solver; by apply IH; [intros; apply Hk; by right|]|].
  rewrite decide_True by done.
  destruct (proj1 (lru_ev _ _ Hrep k) (Hk k (list_elem_of_here _ _))) as (b & Hb & Hr).
  rewrite (lru_get _ _ Hrep), Hb. cbn [of_option]. rewrite bind_ret, Hr. cbn [assert_ require Z.eqb]. rewrite bind_ret.
  assert (zlen (acc ++ [(k, b)]) = zlen acc + 1) as Hlen by (rewrite length_app; cbn; lia).
  destruct (Z.eqb_spec (zlen (acc ++ [(k, b)])) n) as [He|He].
  - exists [(k, b)]. split; [done|]. replace (Z.to_nat (n - zlen acc)) with 1%nat by lia. split; [done|].
    by intros k' b' [= -> ->]%list_elem_of_singleton.
  - destruct (IH (acc ++ [(k, b)])) as (l & -> & Hl & Hin); [intros; apply Hk; by right|lia|].
    exists ((k, b) :: l). rewrite <- app_assoc. split; [done|]. split.
    + replace (Z.to_nat (n - zlen acc)) with (S (Z.to_nat (n - zlen (acc ++ [(k, b)])))) by lia. cbn. by rewrite Hl.
    + intros k' b' [[= -> ->]|H]%elem_of_cons; [done|by apply Hin].
Qed.

Lemma lru_delete_all p m l :
  lru_rep p m → NoDup l.*1 → (∀ k b, (k, b) ∈ l → m !! k = Some b ∧ ref_cnt b = 0) →
  ∃ p', foldM (λ p x, ev ← dict_delete x.1 (evictable_blocks p); bs ← dict_delete x.1 (lru_blocks p); Ok (mkLRU ev bs)) p l = Ok p' ∧
    lru_rep p' (without l.*1 m).
Proof.
  revert p m. induction l as [|[k b] l IH]; intros p m Hrep Hnd Hl; cbn [foldM].
  { exists p. split; [done|]. rewrite fmap_nil, without_nil. done. }
  apply NoDup_cons in Hnd as [Hk Hnd]. destruct (Hl k b (list_elem_of_here _ _)) as [Hb Hr].
  destruct (dict_get k (evictable_blocks p)) as [u|] eqn:Eu.
  2:{ apply dict_get_not in Eu. destruct Eu. apply (lru_ev _ _ Hrep). eauto. }
  cbn [fst]. rewrite (dict_delete_Ok _ _ _ Eu), bind_ret, (dict_delete_Ok _ k b), bind_ret, bind_ret by by rewrite (lru_get _ _ Hrep).
  destruct Hrep as [H1 H2 H3 H4].
  destruct (IH (mkLRU (dict_del k (evictable_blocks p)) (dict_del k (lru_blocks p))) (delete k m)) as (p' & Hp' & Hrep').
  - split; cbn; [by apply dict_del_nodup| |by apply dict_del_nodup|].
    + intros k'. rewrite dict_get_del by done. case_decide; [subst; by rewrite lookup_delete_eq|by rewrite lookup_delete_ne].
    + intros k'. rewrite dict_del_keys, H4 by done. destruct (decide (k' = k)) as [->|Hne].
      * rewrite lookup_delete_eq. naive_solver.
      * rewrite lookup_delete_ne by done. naive_solver.
  - done.
  - intros k' b' Hin. rewrite lookup_delete_ne; [by apply Hl; right|]. intros ->. apply Hk, (list_elem_of_fmap_2 fst _ _ Hin).
  - exists p'. split; [done|]. by rewrite fmap_cons, without_cons.
Qed.

Lemma lru_evict_spec p m n protected :
  lru_rep p m → 0 < n →
  lru_evict n protected p = Ok (None, p) ∧ zlen (lru_order protected p) < n ∨
  ∃ l p', lru_evict n protected p = Ok (Some l, p') ∧ l.*1 = take (Z.to_nat n) (lru_order protected p) ∧
    zlen l = n ∧ NoDup l.*1 ∧ (∀ k b, (k, b) ∈ l → m !! k = Some b ∧ ref_cnt b = 0 ∧ k ∉ protected) ∧
    lru_rep p' (without l.*1 m).
Proof.
  intros Hrep Hn. unfold lru_evict. rewrite (proj2 (Z.eqb_neq n 0)) by lia.
  destruct (lru_candidates_spec p m n protected (evictable_blocks p).*1 [] Hrep) as (l & -> & Hl & Hin); [done|done|].
  cbn [app]. rewrite bind_ret. cbn [length] in Hl. rewrite Z.sub_0_r in Hl. fold (lru_order protected p) in Hl.
  assert (length l = Z.to_nat n `min` length (lru_order protected p))%nat as Hlen by (rewrite <- length_take, <- Hl; by rewrite length_fmap).
  destruct (Z.ltb_spec (zlen l) n).
  - left. split; [done|]. lia.
  - right. assert (NoDup l.*1) as Hnd.
    { rewrite Hl. eapply sublist_NoDup; [|apply sublist_take]. apply NoDup_filter, (lru_ev_nodup _ _ Hrep). }
    destruct (lru_delete_all p m l Hrep Hnd) as (p' & -> & Hrep').
    { intros k b Hkb. destruct (Hin k b Hkb) as (? & ? & _). done. }
    exists l, p'. mrun. split; [done|]. split; [done|]. split; [lia|]. done.
Qed.

Lemma lru_touch_rep p m keys : lru_rep p m → lru_rep (lru_touch keys p) m.
Proof.
  intros [H1 H2 H3 H4]. unfold lru_touch.
  assert (fold_left (λ d k, if dict_mem k d then move_to_end k d else d) (reverse keys) (evictable_blocks p) ≡ₚ evictable_blocks p) as E.
  { generalize (evictable_blocks p). induction (reverse keys) as [|k ks IH]; intros d; cbn; [done|]. rewrite IH.
    destruct (dict_mem k d); [apply move_to_end_perm|done]. }
  split; cbn; [done|done|by rewrite E|]. intros k. by rewrite E.
Qed.

(** An entry changes its count; it stays idle or busy, or the list of idle
    blocks changes with it. *)
Lemma lru_set_rep p m k b r ev :
  lru_rep p m → m !! k = Some b → - 2 ^ 31 ≤ r < 2 ^ 31 → NoDup ev.*1 →
  (∀ k', k' ∈ ev.*1 ↔ if decide (k' = k) then r = 0 else k' ∈ (evictable_blocks p).*1) →
  lru_rep (mkLRU ev (put_ref_cnt k r (lru_blocks p))) (<[k := mkBlockStatus r (block_id b)]> m).
Proof.
  intros [H1 H2 H3 H4] Hb Hr Hnd Hev. split; cbn; [by rewrite put_ref_keys| |done|].
  - intros k'. rewrite (put_ref_get k r _ k' b) by by rewrite H2. rewrite int32_small by done.
    case_decide; [subst; by rewrite lookup_insert_eq|by rewrite lookup_insert_ne].
  - intros k'. rewrite Hev. case_decide as Hk.
    + subst. rewrite lookup_insert_eq. split; [intros ->; by eexists|by intros (? & [= <-] & ?)].
    + by rewrite lookup_insert_ne, H4.
Qed.

#[export] Instance lru_spec : CachePolicySpec LRUCachePolicy.
Proof.
  refine {| policy_rep := lru_rep |}; cbn.
  - intros c _. split; cbn; [constructor|done|constructor|]. intros k. split; [by intros ?%not_elem_of_nil|by intros (b & ? & _)].
  - intros p m k H. apply H.
  - intros p m k id [H1 H2 H3 H4] Hk. split; cbn; [by apply dict_set_nodup_any| |done|].
    + intros k'. rewrite dict_get_set. case_decide; [subst; by rewrite lookup_insert_eq|by rewrite lookup_insert_ne].
    + intros k'. rewrite H4. destruct (decide (k' = k)) as [->|Hne]; [|by rewrite lookup_insert_ne].
      rewrite lookup_insert_eq, Hk. split; [by intros (? & ? & _)|by intros (? & [= <-] & ?)].
  - intros p m k b [H1 H2 H3 H4] Hb Hr. eexists. unfold lru_remove. rewrite (dict_delete_Ok _ k b) by by rewrite H2.
    split; [done|]. split; cbn; [by apply dict_del_nodup| |by apply dict_del_nodup|].
    + intros k'. rewrite dict_get_del by done. case_decide; [subst; by rewrite lookup_delete_eq|by rewrite lookup_delete_ne].
    + intros k'. rewrite dict_del_keys, H4 by done. destruct (decide (k' = k)) as [->|Hne].
      * rewrite lookup_delete_eq. naive_solver.
      * rewrite lookup_delete_ne by done. naive_solver.
  - intros. by apply lru_touch_rep.
  - intros p m _. split; cbn; [constructor|done|constructor|]. intros k. split; [by intros ?%not_elem_of_nil|by intros (b & ? & _)].
  - intros p m n protected Hrep Hn. destruct (lru_evict_spec p m n protected Hrep Hn) as [[-> _]|(l & p' & -> & _ & ?)]; [by exists None, p|by exists (Some l), p'].
  - intros p m k b Hrep Hb Hr. apply lru_set_rep; [done|done|lia|apply dict_set_nodup_any, (lru_ev_nodup _ _ Hrep)|].
    intros k'. rewrite dict_set_keys. case_decide; naive_solver.
  - intros p m k b Hrep Hb Hr. destruct (dict_get k (evictable_blocks p)) as [u|] eqn:Eu.
    2:{ apply dict_get_not in Eu. destruct Eu. apply (lru_ev _ _ Hrep). eauto. }
    unfold lru_mark_non_evictable. rewrite (dict_delete_Ok _ _ _ Eu). eexists. split; [done|]. cbn.
    apply lru_set_rep; [done|done|lia|apply dict_del_nodup, (lru_ev_nodup _ _ Hrep)|].
    intros k'. rewrite dict_del_keys by apply Hrep. case_decide; naive_solver.
  - intros p m k b r Hrep Hb Hne Hr. apply lru_set_rep; [done|done|lia|apply Hrep|].
    intros k'. case_decide as Hk; [|done]. subst. rewrite (lru_ev _ _ Hrep). split; [|lia]. intros (? & ? & ?). simplify_eq.
Defined.
