(* ===== verification/OffloadArc.v ===== *)
(** * The adaptive replacement cache is a cache policy

    The four lists of ARC never share a key, the ghost lists stay within the
    capacity and the target size of the first list stays between zero and the
    capacity; eviction removes idle blocks that are not protected. *)

From Stdlib Require Import QArith Lqa.
From S2P Require Import Prelude PyDict Offload OffloadPolicy.

Local Open Scope Z_scope.

(** The keys of the four lists. *)
Definition arc_keys (p : ARCCachePolicy) : list OffloadKey := (t1 p).*1 ++ (t2 p).*1 ++ (b1 p).*1 ++ (b2 p).*1.

(** What holds also while an eviction is running. *)
Record arc_core (p : ARCCachePolicy) (m : gmap OffloadKey BlockStatus) : Prop := {
  arc_nodup : NoDup (arc_keys p);
  arc_map k : arc_get k p = m !! k;
  arc_capacity : 0 ≤ cache_capacity p;
  arc_target : (0 <= target_t1_size p <= inject_Z (cache_capacity p))%Q;
}.
Record arc_rep (p : ARCCachePolicy) (m : gmap OffloadKey BlockStatus) : Prop := {
  arc_is_core : arc_core p m;
  arc_ghosts : zlen (b1 p) ≤ cache_capacity p ∧ zlen (b2 p) ≤ cache_capacity p;
}.

Section Core.
Context (p : ARCCachePolicy) (m : gmap OffloadKey BlockStatus).
Hypothesis Hcore : arc_core p m.

Lemma arc_parts : NoDup (t1 p).*1 ∧ NoDup (t2 p).*1 ∧ NoDup (b1 p).*1 ∧ NoDup (b2 p).*1.
Proof. pose proof (arc_nodup _ _ Hcore) as H. unfold arc_keys in H. rewrite !NoDup_app in H. naive_solver. Qed.
Lemma arc_t1_only k : k ∈ (t1 p).*1 → k ∉ (t2 p).*1 ∧ k ∉ (b1 p).*1 ∧ k ∉ (b2 p).*1.
Proof.
  pose proof (arc_nodup _ _ Hcore) as H. unfold arc_keys in H. rewrite NoDup_app in H. destruct H as (_ & H & _).
  intros Hk%H. rewrite !elem_of_app in Hk. naive_solver.
Qed.
Lemma arc_t2_only k : k ∈ (t2 p).*1 → k ∉ (t1 p).*1 ∧ k ∉ (b1 p).*1 ∧ k ∉ (b2 p).*1.
Proof.
  intros Hk. split; [by intros [? _]%arc_t1_only|]. pose proof (arc_nodup _ _ Hcore) as H. unfold arc_keys in H.
  rewrite !NoDup_app in H. destruct H as (_ & _ & _ & H & _). apply H in Hk. rewrite elem_of_app in Hk. naive_solver.
Qed.
Lemma arc_in_t1 k b : dict_get k (t1 p) = Some b → m !! k = Some b.
Proof. intros H. rewrite <- (arc_map _ _ Hcore). unfold arc_get. by rewrite H. Qed.
Lemma arc_in_t2 k b : dict_get k (t2 p) = Some b → m !! k = Some b ∧ dict_get k (t1 p) = None.
Proof.
  intros H. assert (dict_get k (t1 p) = None) as Hn by (apply dict_get_not, arc_t2_only, dict_get_key; by eexists).
  split; [|done]. rewrite <- (arc_map _ _ Hcore). unfold arc_get. by rewrite Hn.
Qed.
Lemma arc_not_in k : m !! k = None → dict_get k (t1 p) = None ∧ dict_get k (t2 p) = None.
Proof. rewrite <- (arc_map _ _ Hcore). unfold arc_get. by destruct (dict_get k (t1 p)). Qed.
Lemma arc_where k b : m !! k = Some b →
  dict_get k (t1 p) = Some b ∨ dict_get k (t1 p) = None ∧ dict_get k (t2 p) = Some b.
Proof. rewrite <- (arc_map _ _ Hcore). unfold arc_get. destruct (dict_get k (t1 p)); naive_solver. Qed.
End Core.

Lemma dict_del_sublist {A} k (d : dict A) : (dict_del k d).*1 `sublist_of` d.*1.
Proof.
  induction d as [|[k' v] d IH]; cbn; [done|]. destruct (String.eqb k k'); cbn; [by apply sublist_cons|by apply sublist_skip].
Qed.
Lemma dict_del_absent {A} k (d : dict A) : NoDup d.*1 → k ∉ (dict_del k d).*1.
Proof. intros Hnd. rewrite dict_del_keys by done. naive_solver. Qed.
Lemma move_to_end_keys {A} k (d : dict A) : (move_to_end k d).*1 ≡ₚ d.*1.
Proof. by rewrite move_to_end_perm. Qed.
Lemma move_to_end_length {A} k (d : dict A) : length (move_to_end k d) = length d.
Proof. by rewrite move_to_end_perm. Qed.
(** Popping an entry and setting it again moves it to the end. *)
Lemma dict_reinsert {A} k (d : dict A) v :
  NoDup d.*1 → dict_get k d = Some v → dict_set k v (dict_del k d) = move_to_end k d.
Proof.
  intros Hnd E. unfold move_to_end. rewrite E, dict_set_new; [done|]. rewrite dict_get_del by done. by rewrite decide_True.
Qed.
Lemma dict_del_get_keys {A} k (d : dict A) v : dict_get k d = Some v → d.*1 ≡ₚ k :: (dict_del k d).*1.
Proof. intros E. by rewrite (dict_del_perm d k v E) at 1. Qed.
Lemma dict_set_new_keys {A} k (d : dict A) v : dict_get k d = None → (dict_set k v d).*1 ≡ₚ k :: d.*1.
Proof. intros E. rewrite dict_set_new, fmap_app by done. cbn. by rewrite Permutation_app_comm. Qed.

Lemma nodup_perm {A} (l l' : list A) : l ≡ₚ l' → NoDup l' → NoDup l.
Proof. by intros ->. Qed.

(** ** Insertion and removal *)

Lemma arc_insert_rep p m k b : arc_rep p m → m !! k = None → arc_rep (arc_insert k b p) (<[k := b]> m).
Proof.
  intros [Hc [Hg1 Hg2]] Hk. destruct (arc_not_in _ _ Hc k Hk) as [Hk1 Hk2]. pose proof (arc_parts _ _ Hc) as (H1 & H2 & H3 & H4).
  pose proof (dict_del_sublist k (b1 p)) as Hs1. pose proof (dict_del_sublist k (b2 p)) as Hs2.
  split; [split|]; cbn; try apply Hc.
  - unfold arc_keys; cbn. rewrite dict_set_new_keys by done. cbn. apply NoDup_cons. split.
    + rewrite !elem_of_app. apply dict_get_not in Hk1, Hk2.
      pose proof (dict_del_absent k (b1 p) H3). pose proof (dict_del_absent k (b2 p) H4). naive_solver.
    + eapply sublist_NoDup; [apply (arc_nodup _ _ Hc)|]. unfold arc_keys. repeat apply sublist_app; done.
  - intros k'. unfold arc_get; cbn. rewrite dict_get_set. case_decide; [subst; by rewrite lookup_insert_eq|].
    rewrite lookup_insert_ne by done. apply (arc_map _ _ Hc).
  - apply sublist_length in Hs1, Hs2. rewrite !length_fmap in Hs1, Hs2. lia.
Qed.

Lemma arc_remove_rep p m k : arc_rep p m → arc_rep (arc_remove k p) (delete k m).
Proof.
  intros [Hc Hg]. pose proof (arc_parts _ _ Hc) as (H1 & H2 & _). unfold arc_remove.
  destruct (dict_get k (t1 p)) as [b|] eqn:E; (split; [split|]); cbn; try apply Hc; try apply Hg.
  1,3: eapply sublist_NoDup; [apply (arc_nodup _ _ Hc)|]; unfold arc_keys; cbn;
    repeat apply sublist_app; try done; apply dict_del_sublist.
  all: intros k'; rewrite lookup_delete; unfold arc_get; cbn; rewrite dict_get_del by done; case_decide as Hk.
  - subst. rewrite decide_True by done. apply dict_get_not, (arc_t1_only _ _ Hc), dict_get_key. by eexists.
  - rewrite decide_False by done. apply (arc_map _ _ Hc).
  - subst. by rewrite E, decide_True.
  - rewrite decide_False by done. apply (arc_map _ _ Hc).
Qed.

(** ** Touching *)

Lemma ghost_delta_pos x y : (1 <= ghost_delta x y)%Q.
Proof.
  unfold ghost_delta, qmax. destruct (Qle_bool _ _) eqn:E; [by apply Qle_bool_iff|apply Qle_refl].
Qed.
Lemma qmin_bounds x y : (0 <= x → 0 <= y → 0 <= qmin x y <= y)%Q.
Proof. intros Hx Hy. unfold qmin. destruct (Qle_bool x y) eqn:E; [apply Qle_bool_iff in E|]; lra. Qed.
Lemma qmax_bounds x y : (x <= y → 0 <= y → 0 <= qmax x 0 <= y)%Q.
Proof. intros Hx Hy. unfold qmax. destruct (Qle_bool x 0) eqn:E; [lra|]. split; [|done].
  destruct (Qlt_le_dec x 0) as [H%Qlt_le_weak%Qle_bool_iff|]; [congruence|done]. Qed.

(** The lists keep their keys, up to their order and the side of the cache. *)
Lemma arc_same p p' m :
  arc_rep p m → cache_capacity p' = cache_capacity p → arc_keys p' ≡ₚ arc_keys p → (∀ k, arc_get k p' = arc_get k p) →
  length (b1 p') = length (b1 p) → length (b2 p') = length (b2 p) →
  (0 <= target_t1_size p' <= inject_Z (cache_capacity p))%Q → arc_rep p' m.
Proof.
  intros [[H1 H2 H3 H4] [Hg1 Hg2]] Hcap Hkeys Hget Hb1 Hb2 Ht.
  split; [split|]; rewrite ?Hcap, ?Hb1, ?Hb2; try done; [by rewrite Hkeys|intros k; by rewrite Hget].
Qed.

Lemma dict_get_move {A} k (d : dict A) k' : NoDup d.*1 → dict_get k' (move_to_end k d) = dict_get k' d.
Proof. intros Hnd. apply dict_perm_get; [apply move_to_end_perm|by rewrite move_to_end_keys]. Qed.

(** A block that is read again moves to the second list. *)
Lemma arc_promote_rep p m k b : arc_rep p m → dict_get k (t1 p) = Some b →
  arc_rep (mkARC (cache_capacity p) (target_t1_size p) (dict_del k (t1 p)) (dict_set k b (t2 p)) (b1 p) (b2 p)) m.
Proof.
  intros Hrep E. pose proof (arc_is_core _ _ Hrep) as Hc. pose proof (arc_parts _ _ Hc) as (H1 & H2 & _).
  assert (dict_get k (t2 p) = None) as E2 by (apply dict_get_not, (arc_t1_only _ _ Hc), dict_get_key; by eexists).
  eapply arc_same; [done|done| | |done|done|apply Hc]; unfold arc_keys, arc_get; cbn.
  - rewrite dict_set_new_keys, (dict_del_get_keys k (t1 p) b) by done. cbn. by rewrite <- Permutation_middle.
  - intros k'. rewrite dict_get_del, dict_get_set by done. case_decide; [subst; by rewrite E|done].
Qed.

Lemma arc_touch_one_rep p m k : arc_rep p m → arc_rep (arc_touch_one p k) m.
Proof.
  intros Hrep. pose proof (arc_is_core _ _ Hrep) as Hc. pose proof (arc_parts _ _ Hc) as (H1 & H2 & _).
  pose proof (arc_target _ _ Hc) as [Ht0 Ht1]. pose proof (ghost_delta_pos (b2 p) (b1 p)) as Hd1.
  pose proof (ghost_delta_pos (b1 p) (b2 p)) as Hd2. unfold arc_touch_one.
  destruct (dict_get k (t1 p)) as [b|] eqn:E; [destruct (negb (is_ready b))|].
  - rewrite dict_reinsert by done. eapply arc_same; [done|done| | |done|done|done]; unfold arc_keys, arc_get; cbn.
    + by rewrite move_to_end_keys.
    + intros k'. by rewrite dict_get_move.
  - by apply arc_promote_rep.
  - destruct (dict_mem k (t2 p)).
    { eapply arc_same; [done|done| | |done|done|done]; unfold arc_keys, arc_get; cbn; [by rewrite move_to_end_keys|].
      intros k'. by rewrite dict_get_move. }
    destruct (dict_mem k (b1 p)).
    { eapply arc_same; [done|done|unfold arc_keys; cbn; by rewrite move_to_end_keys|done|apply move_to_end_length|done|].
      cbn. rewrite Qred_correct. apply qmin_bounds; lra. }
    destruct (dict_mem k (b2 p)); [|done].
    eapply arc_same; [done|done|unfold arc_keys; cbn; by rewrite move_to_end_keys|done|done|apply move_to_end_length|].
    cbn. rewrite Qred_correct. apply qmax_bounds; lra.
Qed.
Lemma arc_touch_rep p m keys : arc_rep p m → arc_rep (arc_touch keys p) m.
Proof.
  unfold arc_touch. revert p. induction (reverse keys) as [|k ks IH]; intros p H; cbn; [done|]. by apply IH, arc_touch_one_rep.
Qed.

(** ** Eviction *)

Definition arc_chosen (p : ARCCachePolicy) (protected : list OffloadKey) (x : OffloadKey * BlockStatus * bool) : Prop :=
  dict_get x.1.1 (if x.2 then t1 p else t2 p) = Some x.1.2 ∧ ref_cnt x.1.2 = 0 ∧ x.1.1 ∉ protected.

Lemma arc_idle_Some protected selected d k b : NoDup d.*1 → arc_idle protected selected d = Some (k, b) →
  dict_get k d = Some b ∧ ref_cnt b = 0 ∧ k ∉ protected ∧ k ∉ selected.
Proof.
  intros Hnd. unfold arc_idle. destruct (list_find _ d) as [[i y]|] eqn:E; [|done]. cbn. intros [= ->].
  apply list_find_Some in E as (Hi & HP & _). split; [|done].
  apply dict_get_nodup; [done|]. by eapply list_elem_of_lookup_2.
Qed.

Lemma arc_candidates_spec p m protected n v acc l :
  arc_core p m → Forall (arc_chosen p protected) acc → NoDup acc.*1.*1 → arc_candidates n protected p v acc = Some l →
  length l = (length acc + n)%nat ∧ Forall (arc_chosen p protected) l ∧ NoDup l.*1.*1.
Proof.
  intros Hc. pose proof (arc_parts _ _ Hc) as (H1 & H2 & _).
  revert v acc. induction n as [|n IH]; intros v acc Hacc Hnd; cbn [arc_candidates].
  { intros [= ->]. split; [lia|done]. }
  assert (∀ v x s, arc_chosen p protected (x, s) → x.1 ∉ (λ x, x.1.1) <$> acc →
    arc_candidates n protected p v (acc ++ [(x, s)]) = Some l →
    length l = (length acc + S n)%nat ∧ Forall (arc_chosen p protected) l ∧ NoDup l.*1.*1) as Hstep.
  { intros v' x s Hx Hsel Hl. apply IH in Hl as (Hlen & ?); [|by apply Forall_app_2; [|apply Forall_singleton]|].
    - rewrite length_app in Hlen. cbn in Hlen. split; [lia|done].
    - rewrite !fmap_app. apply NoDup_app. split; [done|]. split; [|apply NoDup_singleton].
      intros k Hk ->%list_elem_of_singleton. apply Hsel. by rewrite <- list_fmap_compose in Hk. }
  destruct (if v >=? qint (target_t1_size p) then _ else None) as [[k b]|] eqn:E1.
  - destruct (v >=? _); [|done]. apply arc_idle_Some in E1 as (? & ? & ? & ?); [|done]. by apply Hstep.
  - destruct (arc_idle _ _ (t2 p)) as [[k b]|] eqn:E2; [|done].
    apply arc_idle_Some in E2 as (? & ? & ? & ?); [|done]. by apply Hstep.
Qed.

Lemma arc_evict_one_core p m x protected :
  arc_core p m → arc_chosen p protected x →
  ∃ p', arc_evict_one p x = Ok p' ∧ arc_core p' (delete x.1.1 m) ∧
    ∀ y, arc_chosen p protected y → y.1.1 ≠ x.1.1 → arc_chosen p' protected y.
Proof.
  intros Hc (Hx & _). destruct x as [[k b] s]. cbn in Hx |- *. pose proof (arc_parts _ _ Hc) as (H1 & H2 & _).
  assert (k ∈ (if s then t1 p else t2 p).*1) as Hk by (apply dict_get_key; by eexists).
  destruct s; rewrite (dict_delete_Ok _ _ _ Hx), bind_ret; (eexists; split; [done|]).
  - pose proof (arc_t1_only _ _ Hc k Hk) as (Hk2 & Hkb & _). apply dict_get_not in Hkb. split; [split|]; cbn; try apply Hc.
    + eapply (nodup_perm _ (arc_keys p)), (arc_nodup _ _ Hc). unfold arc_keys; cbn.
      rewrite dict_set_new_keys, (dict_del_get_keys k (t1 p) b) by done. cbn.
      rewrite <- Permutation_middle, (Permutation_middle (dict_del k (t1 p)).*1). done.
    + intros k'. rewrite lookup_delete. unfold arc_get; cbn. rewrite dict_get_del by done. case_decide as He.
      * subst. rewrite decide_True by done. by apply dict_get_not.
      * rewrite decide_False by done. apply (arc_map _ _ Hc).
    + intros [[k' b'] s'] (Hy & ? & ?) Hne. split; [|done]. cbn in *. destruct s'; [|done].
      rewrite dict_get_del by done. by rewrite decide_False.
  - pose proof (arc_t2_only _ _ Hc k Hk) as (Hk1 & _ & Hkb). apply dict_get_not in Hkb. split; [split|]; cbn; try apply Hc.
    + eapply (nodup_perm _ (arc_keys p)), (arc_nodup _ _ Hc). unfold arc_keys; cbn.
      rewrite dict_set_new_keys, (dict_del_get_keys k (t2 p) b) by done. cbn.
      by rewrite <- !Permutation_middle.
    + intros k'. rewrite lookup_delete. unfold arc_get; cbn. rewrite dict_get_del by done. case_decide as He.
      * subst. rewrite decide_True by done. apply dict_get_not in Hk1. by rewrite Hk1.
      * rewrite decide_False by done. apply (arc_map _ _ Hc).
    + intros [[k' b'] s'] (Hy & ? & ?) Hne. split; [|done]. cbn in *. destruct s'; [done|].
      rewrite dict_get_del by done. by rewrite decide_False.
Qed.

Lemma arc_evict_all p m protected l :
  arc_core p m → Forall (arc_chosen p protected) l → NoDup l.*1.*1 →
  ∃ p', foldM arc_evict_one p l = Ok p' ∧ arc_core p' (without l.*1.*1 m).
Proof.
  revert p m. induction l as [|x l IH]; intros p m Hc Hl Hnd; cbn [foldM].
  { exists p. by rewrite !fmap_nil, without_nil. }
  apply Forall_cons in Hl as [Hx Hl]. rewrite !fmap_cons in Hnd. apply NoDup_cons in Hnd as [Hk Hnd].
  destruct (arc_evict_one_core _ _ _ _ Hc Hx) as (p' & -> & Hc' & Hrest). rewrite bind_ret, !fmap_cons, without_cons.
  apply IH; [done| |done]. rewrite Forall_forall in Hl |- *. intros y Hy. apply Hrest; [by apply Hl|].
  intros He. apply Hk. rewrite <- He. apply (list_elem_of_fmap_2 fst _ y.1), (list_elem_of_fmap_2 fst _ y), Hy.
Qed.

Lemma trim_ghost_Ok c d : 0 ≤ c → ∃ n, trim_ghost c d = Ok (drop n d) ∧ zlen (drop n d) ≤ c.
Proof.
  intros Hc. unfold trim_ghost. rewrite (proj2 (Z.leb_le _ _)) by lia. eexists. split; [done|].
  rewrite length_drop. lia.
Qed.

Lemma arc_evict_spec p m n protected : arc_rep p m → 0 < n → ∃ r p', arc_evict n protected p = Ok (r, p') ∧
  match r with
  | None => p' = p
  | Some l => zlen l = n ∧ NoDup l.*1 ∧
      (∀ k b, (k, b) ∈ l → m !! k = Some b ∧ ref_cnt b = 0 ∧ k ∉ protected) ∧ arc_rep p' (without l.*1 m)
  end.
Proof.
  intros [Hc _] Hn. unfold arc_evict. rewrite (proj2 (Z.eqb_neq n 0)) by lia.
  destruct (arc_candidates _ _ _ _ _) as [l|] eqn:E; [|by eexists _, _].
  apply (arc_candidates_spec _ m) in E as (Hlen & Hl & Hnd); [|done|constructor|constructor].
  destruct (arc_evict_all _ _ _ _ Hc Hl Hnd) as (p' & -> & Hc'). rewrite bind_ret.
  destruct (trim_ghost_Ok (cache_capacity p') (b1 p')) as (n1 & -> & Hn1); [apply Hc'|].
  destruct (trim_ghost_Ok (cache_capacity p') (b2 p')) as (n2 & -> & Hn2); [apply Hc'|]. rewrite !bind_ret.
  exists (Some l.*1). eexists. split; [done|]. cbn in Hlen. rewrite length_fmap. split; [lia|]. split; [done|]. split.
  - intros k b ([[k' b'] s] & [= <- <-] & Hin)%list_elem_of_fmap. rewrite Forall_forall in Hl.
    destruct (Hl _ Hin) as (Hget & ? & ?). cbn in *. split; [|done].
    destruct s; [by apply (arc_in_t1 _ _ Hc)|by apply (arc_in_t2 _ _ Hc)].
  - split; [split|]; cbn; try apply Hc'; [|done]. eapply sublist_NoDup; [apply (arc_nodup _ _ Hc')|].
    unfold arc_keys; cbn. repeat apply sublist_app; try done; apply fmap_sublist, sublist_drop.
Qed.

(** ** Reference counts *)

Lemma arc_set_rep p m k b r : arc_rep p m → m !! k = Some b → - 2 ^ 31 ≤ r < 2 ^ 31 →
  arc_rep (set_ref_cnt k r p) (<[k := mkBlockStatus r (block_id b)]> m).
Proof.
  intros [Hc [Hg1 Hg2]] Hb Hr. cbn. destruct (arc_where _ _ Hc k b Hb) as [E|[E E2]]; rewrite E; (split; [split|]); cbn; try apply Hc; try done.
  1,3: unfold arc_keys; cbn; rewrite put_ref_keys; apply Hc.
  all: intros k'; unfold arc_get; cbn; rewrite (put_ref_get k r _ k' b), int32_small by done; case_decide as Hk; subst.
  - by rewrite lookup_insert_eq.
  - rewrite lookup_insert_ne by done. apply Hc.
  - by rewrite lookup_insert_eq, E.
  - rewrite lookup_insert_ne by done. apply Hc.
Qed.

#[export] Instance arc_spec : CachePolicySpec ARCCachePolicy.
Proof.
  refine {| policy_rep := arc_rep |}.
  - intros c Hc. split; [split|]; cbn; [constructor|done|done| |lia]. split; [apply Qle_refl|].
    change 0%Q with (inject_Z 0). by rewrite <- Zle_Qle.
  - intros p m k H. apply (arc_map _ _ (arc_is_core _ _ H)).
  - intros. by apply arc_insert_rep.
  - intros p m k b H _ _. eexists. split; [done|by apply arc_remove_rep].
  - intros. by apply arc_touch_rep.
  - intros p m [Hc [Hg1 Hg2]]. pose proof (arc_capacity _ _ Hc). split; [split|]; cbn; [constructor|done|done| |lia].
    split; [apply Qle_refl|]. change 0%Q with (inject_Z 0). by rewrite <- Zle_Qle.
  - intros. by apply arc_evict_spec.
  - intros. apply arc_set_rep; [done|done|lia].
  - intros p m k b H Hb _. eexists. split; [done|]. apply arc_set_rep; [done|done|lia].
  - intros. apply arc_set_rep; [done|done|lia].
Defined.
