(* ===== verification/OffloadInv.v ===== *)
(** * The offloading manager: buffers, reference counts and eviction

    Stated and proved against the interface of cache policies, so that it holds
    for LRU and for ARC.  The contents of the manager are a map from keys to
    blocks; the invariant says that the buffers of these blocks and the free
    list are a partition of the buffers allocated so far, and that a block
    counts the transfers that read it. *)

From S2P Require Import Prelude PyDict Offload OffloadPolicy.

Local Open Scope Z_scope.

(** ** The blocks of a map *)

Definition values (m : gmap OffloadKey BlockStatus) : list BlockStatus := (map_to_list m).*2.
(** How many blocks no transfer uses. *)
Definition idle (m : gmap OffloadKey BlockStatus) : Z := zlen (filter (λ b, ref_cnt b = 0) (values m)).

Lemma values_insert m k b : m !! k = None → values (<[k := b]> m) ≡ₚ b :: values m.
Proof. intros H. unfold values. by rewrite map_to_list_insert. Qed.
Lemma values_delete m k b : m !! k = Some b → values m ≡ₚ b :: values (delete k m).
Proof. intros H. rewrite <- (insert_delete_id m k b H) at 1. apply values_insert, lookup_delete_eq. Qed.
Lemma values_update m k b b' : m !! k = Some b → values (<[k := b']> m) ≡ₚ b' :: values (delete k m).
Proof. intros H. rewrite <- insert_delete_eq. apply values_insert, lookup_delete_eq. Qed.
Lemma values_without m (l : list (OffloadKey * BlockStatus)) :
  NoDup l.*1 → (∀ k b, (k, b) ∈ l → m !! k = Some b) → values m ≡ₚ l.*2 ++ values (without l.*1 m).
Proof.
  revert m. induction l as [|[k b] l IH]; intros m Hnd Hl; cbn; [by rewrite without_nil|].
  apply NoDup_cons in Hnd as [Hk Hnd]. rewrite without_cons, (values_delete m k b) by (apply Hl; by left). f_equiv.
  apply IH; [done|]. intros k' b' Hin. rewrite lookup_delete_ne; [by apply Hl; right|].
  intros ->. apply Hk, (list_elem_of_fmap_2 fst _ _ Hin).
Qed.
Lemma values_elem m k b : m !! k = Some b → b ∈ values m.
Proof. intros H%elem_of_map_to_list. apply (list_elem_of_fmap_2 snd _ _ H). Qed.

Lemma idle_cons (l : list BlockStatus) b :
  zlen (filter (λ b, ref_cnt b = 0) (b :: l)) = (if decide (ref_cnt b = 0) then 1 else 0) + zlen (filter (λ b, ref_cnt b = 0) l).
Proof. rewrite filter_cons. case_decide; cbn; lia. Qed.
Lemma idle_update m k b b' : m !! k = Some b →
  idle (<[k := b']> m) = idle m + (if decide (ref_cnt b' = 0) then 1 else 0) - (if decide (ref_cnt b = 0) then 1 else 0).
Proof. intros H. unfold idle. rewrite (values_update m k b b' H), (values_delete m k b H), !idle_cons. lia. Qed.
Lemma idle_delete m k b : m !! k = Some b → idle (delete k m) = idle m - (if decide (ref_cnt b = 0) then 1 else 0).
Proof. intros H. unfold idle. rewrite (values_delete m k b H), idle_cons. lia. Qed.
Lemma idle_nonneg m : 0 ≤ idle m.
Proof. unfold idle. lia. Qed.
Lemma idle_without m (l : list (OffloadKey * BlockStatus)) :
  NoDup l.*1 → (∀ k b, (k, b) ∈ l → m !! k = Some b ∧ ref_cnt b = 0) → idle m = zlen l + idle (without l.*1 m).
Proof.
  revert m. induction l as [|[k b] l IH]; intros m Hnd Hl; cbn; [by rewrite without_nil|].
  apply NoDup_cons in Hnd as [Hk Hnd]. destruct (Hl k b (list_elem_of_here _ _)) as [Hb Hr]. rewrite without_cons.
  pose proof (idle_delete m k b Hb) as Hd. rewrite decide_True in Hd by done. rewrite IH in Hd; [lia|done|].
  intros k' b' Hin. rewrite lookup_delete_ne; [by apply Hl; right|]. intros ->. apply Hk, (list_elem_of_fmap_2 fst _ _ Hin).
Qed.

(** ** The blocks after a store *)

(** A block being stored becomes readable, or disappears. *)
Definition finish_store (ok : bool) (keys : list OffloadKey) (m : gmap OffloadKey BlockStatus) : gmap OffloadKey BlockStatus :=
  map_imap (λ k b, if bool_decide (k ∈ keys) && negb (is_ready b)
                   then if ok then Some (mkBlockStatus 0 (block_id b)) else None else Some b) m.

Lemma lookup_finish_store ok keys m k : finish_store ok keys m !! k =
  m !! k ≫= λ b, if bool_decide (k ∈ keys) && negb (is_ready b)
                 then if ok then Some (mkBlockStatus 0 (block_id b)) else None else Some b.
Proof. apply map_lookup_imap. Qed.
Lemma finish_store_nil ok m : finish_store ok [] m = m.
Proof. apply map_eq. intros k. rewrite lookup_finish_store. by destruct (m !! k). Qed.
Lemma finish_store_none ok m k : (∀ b, m !! k = Some b → is_ready b = true) → finish_store ok [k] m = m.
Proof.
  intros H. apply map_eq. intros k'. rewrite lookup_finish_store. destruct (m !! k') as [b|] eqn:E; [|done]. cbn.
  case_bool_decide as Hk; [|done]. apply list_elem_of_singleton in Hk as ->. by rewrite (H b E).
Qed.
Lemma finish_store_one ok m k k' :
  finish_store ok [k] m !! k' = if decide (k' = k) then finish_store ok [k] m !! k else m !! k'.
Proof.
  rewrite !lookup_finish_store. case_decide as Hk; [by subst|]. rewrite bool_decide_false by by rewrite list_elem_of_singleton.
  by destruct (m !! k').
Qed.
Lemma finish_store_done k m b : m !! k = Some b → is_ready b = false →
  finish_store true [k] m = <[k := mkBlockStatus 0 (block_id b)]> m.
Proof.
  intros Hb Hr. apply map_eq. intros k'. rewrite finish_store_one, lookup_insert, lookup_finish_store, Hb. cbn.
  rewrite Hr, bool_decide_true by by left. cbn. by repeat case_decide; subst.
Qed.
Lemma finish_store_failed k m b : m !! k = Some b → is_ready b = false → finish_store false [k] m = delete k m.
Proof.
  intros Hb Hr. apply map_eq. intros k'. rewrite finish_store_one, lookup_delete, lookup_finish_store, Hb. cbn.
  rewrite Hr, bool_decide_true by by left. cbn. by repeat case_decide; subst.
Qed.
Lemma finish_store_cons ok k keys m : finish_store ok (k :: keys) m = finish_store ok keys (finish_store ok [k] m).
Proof.
  apply map_eq. intros k'. rewrite lookup_finish_store, (lookup_finish_store ok keys), (lookup_finish_store ok [k]).
  destruct (m !! k') as [b|]; [|done]. cbn. destruct (is_ready b) eqn:Er; cbn.
  { rewrite !andb_false_r. cbn. by rewrite Er, andb_false_r. }
  rewrite !andb_true_r. destruct (decide (k' = k)) as [->|Hne].
  - rewrite (bool_decide_true (k ∈ k :: keys)), (bool_decide_true (k ∈ [k])) by by left. destruct ok; cbn; [by rewrite andb_false_r|done].
  - rewrite (bool_decide_false (k' ∈ [k])) by by rewrite list_elem_of_singleton. cbn. rewrite Er, andb_true_r.
    by rewrite (bool_decide_ext (k' ∈ k :: keys) (k' ∈ keys)) by (rewrite elem_of_cons; naive_solver).
Qed.
Lemma finish_store_ready ok keys m :
  (∀ k b, m !! k = Some b → -1 ≤ ref_cnt b) → ∀ k b, finish_store ok keys m !! k = Some b → -1 ≤ ref_cnt b.
Proof.
  intros H k b. rewrite lookup_finish_store. destruct (m !! k) as [b0|] eqn:E; [|done]. cbn.
  destruct (_ && _); [destruct ok; [|done]|]; intros [= <-]; [cbn; lia|by eapply H].
Qed.

(** ** The blocks of a new store *)

(** The map with fresh blocks that are not ready. *)
Definition start_store (l : list (OffloadKey * Z)) (m : gmap OffloadKey BlockStatus) : gmap OffloadKey BlockStatus :=
  list_to_map (prod_map id BlockStatus_init <$> l) ∪ m.
Lemma start_store_nil m : start_store [] m = m.
Proof. unfold start_store. cbn. by rewrite (left_id_L ∅ (∪)). Qed.
Lemma start_store_cons k i l m : k ∉ l.*1 → start_store ((k, i) :: l) m = start_store l (<[k := BlockStatus_init i]> m).
Proof.
  intros Hk. unfold start_store. cbn. rewrite <- insert_union_l, insert_union_r; [done|].
  apply not_elem_of_list_to_map. by rewrite <- list_fmap_compose.
Qed.

Lemma values_start_store l m : NoDup l.*1 → (∀ k, k ∈ l.*1 → m !! k = None) →
  values (start_store l m) ≡ₚ (BlockStatus_init <$> l.*2) ++ values m.
Proof.
  revert m. induction l as [|[k i] l IH]; intros m Hnd Hl; [by rewrite start_store_nil|]. rewrite !fmap_cons in *.
  apply NoDup_cons in Hnd as [Hk Hnd]. rewrite start_store_cons, IH by
    (done || intros k' Hk'; rewrite lookup_insert_ne by naive_solver; apply Hl; by right).
  rewrite values_insert by (apply Hl; by left). cbn. by rewrite Permutation_middle.
Qed.
Lemma idle_start_store l m : NoDup l.*1 → (∀ k, k ∈ l.*1 → m !! k = None) → idle (start_store l m) = idle m.
Proof.
  intros Hnd Hl. unfold idle. rewrite values_start_store, filter_app, length_app by done.
  assert (filter (λ b, ref_cnt b = 0) (BlockStatus_init <$> l.*2) = []) as ->; [|done].
  induction l.*2 as [|i js IH]; [done|]. rewrite fmap_cons, filter_cons. by rewrite decide_False.
Qed.
Lemma zip_init (keys : list OffloadKey) (ids : list Z) :
  zip keys (BlockStatus_init <$> ids) = prod_map id BlockStatus_init <$> zip keys ids.
Proof. revert ids. induction keys as [|k keys IH]; intros [|i ids]; cbn; [done..|]. by rewrite IH. Qed.

(** ** The invariant *)

Definition tracker_ok (counts : option (dict Z)) (size : Z) : Prop :=
  0 < size ∧ match counts with None => True | Some cs => NoDup cs.*1 ∧ zlen cs ≤ size end.

Section Manager.
Context {P : Type} `{!CachePolicy P, !CachePolicySpec P} {N : Z}.
Abbreviation manager := (CPUOffloadingManager P).
Implicit Types (s : manager) (m : gmap OffloadKey BlockStatus) (keys : list OffloadKey).

Record manager_inv s m : Prop := {
  inv_policy : policy_rep (_policy s) m;
  inv_allocated : 0 ≤ _num_allocated_blocks s ≤ _num_blocks s;
  inv_buffers : _free_list s ++ (block_id <$> values m) ≡ₚ py_range 0 (_num_allocated_blocks s);
  inv_evictable : _num_evictable_cache_blocks s = idle m;
  inv_tracker : tracker_ok (counts s) (max_tracker_size s);
  inv_size : _num_blocks s = N;
}.

Lemma inv_get s m k : manager_inv s m → policy_get k (_policy s) = m !! k.
Proof. intros H. apply rep_get, H. Qed.

Lemma init_manager_inv ev th size : 0 ≤ N → 0 < size → manager_inv (CPUOffloadingManager_init N ev th size) ∅.
Proof.
  intros Hn Hs. split; cbn; [by apply rep_init|lia|done|done| |done]. split; [done|]. destruct (th >=? 2); [|done].
  split; [constructor|cbn; lia].
Qed.

(** The parts that an operation leaves alone. *)
Lemma inv_stats s m a l : manager_inv s m → manager_inv (put_stats a l s) m.
Proof. by intros []. Qed.
Lemma inv_events s m es : manager_inv s m → manager_inv (put_events es s) m.
Proof. by intros []. Qed.
Lemma inv_emit s m keys r : manager_inv s m → manager_inv (emit keys r s) m.
Proof. intros H. unfold emit. destruct keys, (events s); try done. by apply inv_events. Qed.
Lemma inv_put_policy s m m' p n :
  manager_inv s m → policy_rep p m' → block_id <$> values m' ≡ₚ block_id <$> values m → n = idle m' →
  manager_inv (put_policy p n s) m'.
Proof. intros [H1 H2 H3 H4 H5 H6] Hp Hv Hn. split; cbn; [done|done|by rewrite Hv|done|done|done]. Qed.

Lemma update_ids m k b b' : m !! k = Some b → block_id b' = block_id b →
  block_id <$> values (<[k := b']> m) ≡ₚ block_id <$> values m.
Proof. intros H Hid. rewrite (values_update m k b b' H), (values_delete m k b H). cbn. by rewrite Hid. Qed.

(** ** Lookup and touch *)

Lemma track_ok s m k : manager_inv s m → ∃ cs, track k s = Ok (put_counts cs s) ∧ manager_inv (put_counts cs s) m.
Proof.
  intros [H1 H2 H3 H4 H5 H6]. destruct H5 as [Hs Ht] eqn:E5. clear E5. unfold track.
  assert (∀ cs, tracker_ok cs (max_tracker_size s) → manager_inv (put_counts cs s) m) as Hput by (intros cs Hcs; by split).
  destruct (counts s) as [cs|] eqn:Ec.
  2:{ exists None. assert (put_counts None s = s) as -> by (unfold put_counts; rewrite <- Ec; by destruct s). by split; [|split; rewrite ?Ec]. }
  destruct Ht as [Hnd Hlen]. destruct (dict_get k cs) as [c|] eqn:Ek.
  - eexists. split; [done|]. apply Hput. split; [done|].
    assert (dict_get k (move_to_end k cs) = Some c) as Em.
    { rewrite <- Ek. symmetry. apply dict_perm_get; [by rewrite move_to_end_perm|done]. }
    split; [apply dict_set_nodup_any; by rewrite move_to_end_perm|].
    pose proof (dict_set_same _ _ (c + 1) _ Em) as Hk. apply (f_equal length) in Hk. rewrite !length_fmap in Hk.
    rewrite Hk, move_to_end_perm. done.
  - destruct (Z.geb_spec (zlen cs) (max_tracker_size s)).
    + destruct cs as [|[k0 c0] cs]; [cbn in *; lia|]. rewrite bind_ret. eexists. split; [done|]. apply Hput. split; [done|].
      apply NoDup_cons in Hnd as [Hk0 Hnd]. cbn in Ek. destruct (String.eqb_spec k k0); [done|].
      rewrite dict_set_new by done. rewrite fmap_app. cbn. split; [|rewrite length_app; cbn in *; lia].
      rewrite Permutation_app_comm. apply NoDup_cons. split; [by apply dict_get_not|done].
    + rewrite bind_ret. eexists. split; [done|]. apply Hput. split; [done|].
      split; [by apply dict_set_nodup|]. rewrite dict_set_new, length_app by done. cbn. lia.
Qed.

Definition lookup_result (b : option BlockStatus) : LookupResult :=
  match b with None => MISS | Some b => if is_ready b then HIT else HIT_PENDING end.
Lemma offload_lookup_ok s m k : manager_inv s m → ∃ s', lookup k s = Ok (lookup_result (m !! k), s') ∧ manager_inv s' m.
Proof.
  intros Hi. destruct (track_ok s m k Hi) as (cs & Ht & Hi'). exists (put_counts cs s). split; [|done].
  unfold lookup. rewrite Ht, bind_ret, (inv_get _ m k Hi'). destruct (m !! k) as [b|]; [|done]. cbn. by destruct (is_ready b).
Qed.

Lemma touch_inv s m keys : manager_inv s m → manager_inv (touch keys s) m.
Proof. intros H. apply (inv_put_policy s m); [done|apply rep_touch, H|done|apply H]. Qed.

(** ** Loads *)

Lemma load_one_ok s m ids k b : manager_inv s m → m !! k = Some b → 0 ≤ ref_cnt b < 2 ^ 31 - 1 →
  ∃ s', load_one (ids, s) k = Ok (ids ++ [block_id b], s') ∧
    manager_inv s' (<[k := mkBlockStatus (ref_cnt b + 1) (block_id b)]> m).
Proof.
  intros Hi Hb Hr. unfold load_one. rewrite (inv_get _ _ k Hi), Hb. cbn [of_option]. rewrite bind_ret.
  unfold is_ready. rewrite (proj2 (Z.geb_le (ref_cnt b) 0)) by lia. cbn [assert_ require]. rewrite bind_ret.
  pose proof (idle_update m k b (mkBlockStatus (ref_cnt b + 1) (block_id b)) Hb) as Hidle. cbn in Hidle.
  rewrite decide_False in Hidle by lia. pose proof (inv_evictable _ _ Hi) as He.
  destruct (Z.eqb_spec (ref_cnt b) 0) as [H0|H0].
  - rewrite decide_True in Hidle by done. pose proof (idle_nonneg (<[k := mkBlockStatus (ref_cnt b + 1) (block_id b)]> m)).
    destruct (rep_busy _ _ k b (inv_policy _ _ Hi) Hb H0) as (p & -> & Hp). rewrite bind_ret.
    rewrite (proj2 (Z.geb_le _ _)) by lia. cbn [assert_ require]. mrun. eexists. split; [done|].
    rewrite H0 in *. eapply inv_put_policy; [done|done|by eapply update_ids|lia].
  - rewrite decide_False in Hidle by done. mrun. eexists. split; [done|].
    eapply inv_put_policy; [done|eapply rep_count; [apply Hi|done|done|lia]|by eapply update_ids|lia].
Qed.

Lemma unload_one_ok s m k b : manager_inv s m → m !! k = Some b → 0 < ref_cnt b < 2 ^ 31 →
  ∃ s', unload_one s k = Ok s' ∧ manager_inv s' (<[k := mkBlockStatus (ref_cnt b - 1) (block_id b)]> m).
Proof.
  intros Hi Hb Hr. unfold unload_one. rewrite (inv_get _ _ k Hi), Hb. cbn [of_option]. rewrite bind_ret.
  rewrite (proj2 (Z.gtb_lt _ _)) by lia. cbn [assert_ require]. rewrite bind_ret, int32_small by lia.
  pose proof (idle_update m k b (mkBlockStatus (ref_cnt b - 1) (block_id b)) Hb) as Hidle. cbn in Hidle.
  rewrite (decide_False (P := ref_cnt b = 0)) in Hidle by lia. pose proof (inv_evictable _ _ Hi) as He.
  destruct (Z.eqb_spec (ref_cnt b - 1) 0) as [H0|H0]; (eexists; split; [done|]).
  - rewrite decide_True in Hidle by done. rewrite H0 in *.
    eapply inv_put_policy; [done|eapply rep_idle; [apply Hi|done|lia]|by eapply update_ids|lia].
  - rewrite decide_False in Hidle by done.
    eapply inv_put_policy; [done|eapply rep_count; [apply Hi|done|lia|lia]|by eapply update_ids|lia].
Qed.

(** ** The end of a store *)

Lemma put_policy_same s : put_policy (_policy s) (_num_evictable_cache_blocks s) s = s.
Proof. by destruct s. Qed.

Lemma store_done_ok s m stored k ok : manager_inv s m → (∀ k b, m !! k = Some b → -1 ≤ ref_cnt b) →
  ∃ s' new, store_done ok (stored, s) k = Ok (stored ++ new, s') ∧ manager_inv s' (finish_store ok [k] m).
Proof.
  intros Hi Hneg. unfold store_done. rewrite (inv_get _ _ k Hi).
  destruct (m !! k) as [b|] eqn:Hb; [destruct (is_ready b) eqn:Er|]; cbn [negb].
  1,3: exists s, []; rewrite app_nil_r, finish_store_none; [done|]; intros b' Hb'; naive_solver.
  pose proof (inv_evictable _ _ Hi) as He.
  assert (ref_cnt b = -1) as Hr. { specialize (Hneg k b Hb). unfold is_ready in Er. destruct (Z.geb_spec (ref_cnt b) 0); [done|lia]. }
  destruct ok.
  - eexists _, [k]. split; [done|]. rewrite (finish_store_done k m b) by done.
    pose proof (idle_update m k b (mkBlockStatus 0 (block_id b)) Hb) as Hidle. cbn in Hidle.
    rewrite decide_True, decide_False in Hidle by (done || lia).
    eapply inv_put_policy; [done|eapply rep_idle; [apply Hi|done|lia]|by eapply update_ids|lia].
  - destruct (rep_remove _ _ k b (inv_policy _ _ Hi) Hb Hr) as (p & -> & Hp). mrun.
    eexists _, []. rewrite app_nil_r. split; [done|]. rewrite (finish_store_failed k m b) by done.
    destruct Hi as [H1 H2 H3 H4 H5 H6]. split; cbn; [done|done| | |done|done].
    + rewrite <- app_assoc. cbn. rewrite <- H3. by rewrite (values_delete m k b Hb).
    + rewrite (idle_delete m k b Hb), decide_False by lia. lia.
Qed.

Lemma complete_store_ok s m keys ok : manager_inv s m → (∀ k b, m !! k = Some b → -1 ≤ ref_cnt b) →
  ∃ s', complete_store keys ok s = Ok s' ∧ manager_inv s' (finish_store ok keys m).
Proof.
  intros Hi Hneg. unfold complete_store.
  assert (∀ stored s m, manager_inv s m → (∀ k b, m !! k = Some b → -1 ≤ ref_cnt b) →
    ∃ stored' s', foldM (store_done ok) (stored, s) keys = Ok (stored', s') ∧ manager_inv s' (finish_store ok keys m)) as Hloop.
  2:{ destruct (Hloop [] s m Hi Hneg) as (stored & s' & -> & Hi'). mrun. eexists. split; [done|]. by apply inv_emit. }
  clear s m Hi Hneg. induction keys as [|k keys IH]; intros stored s m Hi Hneg; cbn [foldM].
  { eexists _, _. split; [done|]. by rewrite finish_store_nil. }
  destruct (store_done_ok s m stored k ok Hi Hneg) as (s1 & new & -> & Hi1). rewrite bind_ret.
  rewrite finish_store_cons. apply IH; [done|]. intros k' b'. by apply finish_store_ready.
Qed.

(** ** The start of a store *)

Lemma free_all s (l : list (OffloadKey * BlockStatus)) :
  fold_left (λ s x, _free_block x.2 s) l s = put_pool (_num_allocated_blocks s) (_free_list s ++ (block_id <$> l.*2)) s.
Proof.
  revert s. induction l as [|x l IH]; intros s; cbn; [rewrite app_nil_r; by destruct s|].
  rewrite IH. unfold _free_block, put_pool; cbn. by rewrite <- app_assoc.
Qed.

(** What may be evicted for a store, and by how much the free list grows. *)
Record evicted_ok (protected : list OffloadKey) m (n : Z) (evicted : list OffloadKey) : Prop := {
  evicted_nodup : NoDup evicted;
  evicted_len : zlen evicted = Z.max 0 n;
  evicted_idle k : k ∈ evicted → ∃ b, m !! k = Some b ∧ ref_cnt b = 0 ∧ k ∉ protected;
}.

Lemma make_room_ok s m n keys : manager_inv s m → ∃ r s', make_room n keys s = Ok (r, s') ∧
  match r with
  | None => s' = s ∧ 0 < n
  | Some evicted => evicted_ok keys m n evicted ∧ manager_inv s' (without evicted m) ∧
      _get_num_free_blocks s' = _get_num_free_blocks s + Z.max 0 n
  end.
Proof.
  intros Hi. unfold make_room. destruct (Z.gtb_spec n 0) as [Hn|Hn].
  2:{ exists (Some []), s. split; [done|]. rewrite without_nil. split; [|split; [done|lia]].
      split; [constructor|cbn; lia|by intros k ?%not_elem_of_nil]. }
  destruct (n >? _num_evictable_cache_blocks s); [by exists None, s|].
  destruct (rep_evict _ _ n keys (inv_policy _ _ Hi) Hn) as (r & p & -> & Hr). mrun. destruct r as [l|].
  2:{ subst. exists None, s. by rewrite put_policy_same. }
  destruct Hr as (Hlen & Hnd & Hl & Hp). destruct Hi as [H1 H2 H3 H4 H5 H6].
  assert (∀ k b, (k, b) ∈ l → m !! k = Some b ∧ ref_cnt b = 0) as Hl' by (intros k b Hkb; destruct (Hl k b Hkb) as (? & ? & _); done).
  pose proof (idle_without m l Hnd Hl') as Hidle. pose proof (idle_nonneg (without l.*1 m)).
  rewrite (proj2 (Z.geb_le _ _)) by lia. cbn [assert_ require]. mrun. rewrite free_all.
  eexists _, _. split; [done|]. split; [|split].
  - split; [done|rewrite length_fmap; lia|]. intros k ([k' b] & -> & Hin)%list_elem_of_fmap. exists b. by apply Hl.
  - split; cbn; [done|done| |lia|done|done]. rewrite <- H3, (values_without m l) by (done || intros; by apply Hl').
    by rewrite fmap_app, app_assoc.
  - unfold _get_num_free_blocks; cbn. rewrite length_app, !length_fmap. lia.
Qed.

Lemma pool_allocate_ok s m keys : manager_inv s m → zlen keys ≤ _get_num_free_blocks s →
  ∃ ids n free, _allocate_blocks keys s = Ok (BlockStatus_init <$> ids, put_pool n free s) ∧ length ids = length keys ∧
    0 ≤ n ≤ _num_blocks s ∧ free ++ ids ++ (block_id <$> values m) ≡ₚ py_range 0 n.
Proof.
  intros [H1 H2 H3 H4 H5 H6] Hroom. unfold _allocate_blocks, _get_num_free_blocks in *.
  set (f := Z.min (zlen keys) (_num_blocks s - _num_allocated_blocks s)). set (r := zlen keys - f).
  assert (0 ≤ f ∧ 0 ≤ r ≤ zlen (_free_list s) ∧ f ≤ _num_blocks s - _num_allocated_blocks s) as (Hf & Hr & Hfb) by lia.
  rewrite (proj2 (Z.geb_le _ _)) by lia. cbn [assert_ require]. mrun. eexists _, _, _. split; [done|].
  assert (length (py_range (_num_allocated_blocks s) (_num_allocated_blocks s + f)) = Z.to_nat f) as Hlf
    by (unfold py_range; rewrite length_seqZ; lia).
  rewrite length_app, length_take, length_reverse, Hlf. split; [lia|]. split; [lia|].
  assert (take (Z.to_nat r) (reverse (_free_list s)) ≡ₚ drop (length (_free_list s) - Z.to_nat r) (_free_list s)) as ->.
  { rewrite take_reverse. by rewrite reverse_Permutation. }
  rewrite (Permutation_app_comm (py_range _ _)), <- !app_assoc, (app_assoc (take _ _)), take_drop.
  rewrite (Permutation_app_comm (py_range _ _)), app_assoc, H3. unfold py_range.
  replace (_num_allocated_blocks s + Z.of_nat (Z.to_nat f) - 0) with (_num_allocated_blocks s + f) by lia.
  replace (_num_allocated_blocks s + f - _num_allocated_blocks s) with f by lia. rewrite Z.sub_0_r, seqZ_app by lia. done.
Qed.

Lemma insert_all_rep p m (l : list (OffloadKey * Z)) : policy_rep p m → NoDup l.*1 → (∀ k, k ∈ l.*1 → m !! k = None) →
  policy_rep (fold_left (λ p x, policy_insert x.1 x.2 p) (prod_map id BlockStatus_init <$> l) p) (start_store l m).
Proof.
  revert p m. induction l as [|[k i] l IH]; intros p m Hp Hnd Hl.
  { by rewrite start_store_nil. }
  rewrite fmap_cons in Hnd. apply NoDup_cons in Hnd as [Hk Hnd]. rewrite start_store_cons by done. apply IH; [|done|].
  - apply rep_insert; [done|]. apply Hl. by left.
  - intros k' Hk'. rewrite lookup_insert_ne by naive_solver. apply Hl. by right.
Qed.

(** The keys that were looked up often enough. *)
Definition store_wanted keys s : list OffloadKey :=
  match counts s with
  | None => keys
  | Some cs => filter (λ k, store_threshold s ≤ default 0 (dict_get k cs)) keys
  end.
(** Of these, the ones that have no block. *)
Definition store_new keys s m : list OffloadKey := filter (λ k, m !! k = None) (store_wanted keys s).

Lemma store_new_nodup keys s m : NoDup keys → NoDup (store_new keys s m).
Proof. intros H. apply NoDup_filter. unfold store_wanted. destruct (counts s); [by apply NoDup_filter|done]. Qed.

Record store_prepared keys s m (out : PrepareStoreOutput) : Prop := {
  prepared_keys : keys_to_store out = store_new keys s m;
  prepared_ids : length (store_spec out) = length (store_new keys s m);
  prepared_evicted : evicted_ok (store_wanted keys s) m (zlen (store_new keys s m) - _get_num_free_blocks s) (evicted_keys out);
}.
Definition store_started out m := start_store (zip (keys_to_store out) (store_spec out)) (without (evicted_keys out) m).

Lemma free_nonneg s m : manager_inv s m → 0 ≤ _get_num_free_blocks s.
Proof. intros H. pose proof (inv_allocated _ _ H). unfold _get_num_free_blocks. lia. Qed.

Lemma prepare_store_ok s m keys : manager_inv s m → NoDup keys →
  ∃ r s', prepare_store keys s = Ok (r, s') ∧
    match r with
    | None => manager_inv s' m ∧ _get_num_free_blocks s < zlen (store_new keys s m)
    | Some out => store_prepared keys s m out ∧ manager_inv s' (store_started out m)
    end.
Proof.
  intros Hi Hnd. unfold prepare_store.
  assert (∃ a, skip_stores keys s = (store_wanted keys s, put_stats a (allocation_sizes_in_current_batch s) s)) as (a & ->).
  { unfold skip_stores, store_wanted. destruct (counts s); [by eexists|]. eexists (stores_skipped_in_current_batch s). by destruct s. }
  set (s1 := put_stats a _ s). assert (manager_inv s1 m) as Hi1 by by apply inv_stats.
  assert (filter (λ k, policy_get k (_policy s1) = None) (store_wanted keys s) = store_new keys s m) as ->.
  { apply list_filter_iff. intros k. by rewrite (inv_get _ m k Hi1). }
  assert (NoDup (store_new keys s m)) as Hndn by by apply store_new_nodup.
  assert (∀ k, k ∈ store_new keys s m → m !! k = None) as Hnew by (by intros k [? _]%list_elem_of_filter).
  pose proof (free_nonneg s m Hi) as Hfree. destruct (store_new keys s m) as [|k0 new0] eqn:Enew.
  { eexists (Some _), s1. split; [done|]. unfold store_started; cbn [keys_to_store store_spec evicted_keys zip_with]. rewrite start_store_nil, without_nil. split; [|done].
    split; cbn; rewrite Enew; [done|done|]. split; [constructor|cbn; lia|by intros k ?%not_elem_of_nil]. }
  rewrite <- Enew in *. clear k0 new0 Enew. set (new := store_new keys s m) in *.
  set (s2 := put_stats _ _ s1). assert (manager_inv s2 m) as Hi2 by by apply inv_stats.
  change (_get_num_free_blocks s2) with (_get_num_free_blocks s).
  destruct (make_room_ok s2 m (zlen new - _get_num_free_blocks s) (store_wanted keys s) Hi2) as (r & s3 & -> & Hr). mrun.
  destruct r as [ev|]; [|destruct Hr as [-> ?]; exists None, s2; by split; [|split; [|lia]]].
  destruct Hr as (Hev & Hi3 & Hroom). change (_get_num_free_blocks s2) with (_get_num_free_blocks s) in Hroom.
  set (s4 := emit ev true s3). assert (manager_inv s4 (without ev m)) as Hi4 by by apply inv_emit.
  assert (_get_num_free_blocks s4 = _get_num_free_blocks s3) as Hf4 by (unfold s4, emit; by destruct ev, (events s3)).
  destruct (pool_allocate_ok s4 (without ev m) new Hi4) as (ids & n & free & -> & Hids & Hn & Hperm); [lia|]. mrun.
  rewrite length_fmap, Hids, Z.eqb_refl. cbn [assert_ require]. mrun. rewrite zip_init.
  assert ((zip new ids).*1 = new ∧ (zip new ids).*2 = ids) as [Hz1 Hz2] by (by rewrite fst_zip, snd_zip by lia).
  assert (∀ k, k ∈ (zip new ids).*1 → without ev m !! k = None) as Hnone.
  { rewrite Hz1. intros k Hk. rewrite lookup_without. case_decide; [done|by apply Hnew]. }
  eexists (Some _), _. split; [done|]. unfold store_started; cbn [keys_to_store store_spec evicted_keys]. rewrite <- list_fmap_compose.
  assert (block_id ∘ BlockStatus_init <$> ids = ids) as -> by by apply list_fmap_id.
  split; [by split|]. split; cbn.
  - apply insert_all_rep; [apply Hi4|by rewrite Hz1|done].
  - done.
  - rewrite values_start_store by (done || by rewrite Hz1). rewrite Hz2, fmap_app, <- list_fmap_compose.
    assert (block_id ∘ BlockStatus_init <$> ids = ids) as -> by by apply list_fmap_id. done.
  - rewrite idle_start_store by (done || by rewrite Hz1). apply Hi4.
  - apply Hi4.
  - apply Hi4.
Qed.

(** ** Reset, events and statistics *)

Lemma reset_inv s m : manager_inv s m → manager_inv (reset_cache s) ∅.
Proof. intros [H1 H2 H3 H4 H5 H6]. split; cbn; [by eapply rep_clear|lia|done|done|done|done]. Qed.
Lemma take_events_inv s m : manager_inv s m → manager_inv (take_events s).2 m.
Proof. intros H. unfold take_events. destruct (events s); [by apply inv_events|done]. Qed.
Lemma get_stats_inv s m : manager_inv s m → manager_inv (get_stats s).2 m.
Proof. intros H. by apply inv_stats. Qed.

(** ** Buffers *)

(** A block has a buffer of the pool, which is not free and not another block's. *)
Lemma buffer_own s m k b : manager_inv s m → m !! k = Some b →
  0 ≤ block_id b < N ∧ block_id b ∉ _free_list s ∧
  ∀ k' b', m !! k' = Some b' → block_id b' = block_id b → k' = k.
Proof.
  intros Hi Hb. pose proof (inv_buffers _ _ Hi) as Hp. pose proof (inv_allocated _ _ Hi). pose proof (inv_size _ _ Hi).
  assert (NoDup (py_range 0 (_num_allocated_blocks s))) as Hnd by apply NoDup_seqZ.
  assert (block_id b ∈ block_id <$> values m) as Hin by (by eapply list_elem_of_fmap_2, values_elem).
  split.
  { assert (block_id b ∈ py_range 0 (_num_allocated_blocks s)) as Hr by (rewrite <- Hp; apply elem_of_app; by right).
    unfold py_range in Hr. apply elem_of_seqZ in Hr. lia. }
  rewrite <- Hp in Hnd. apply NoDup_app in Hnd as (_ & Hd & Hndv). split; [intros Hf; by apply (Hd _ Hf)|].
  intros k' b' Hb' Hid. destruct (decide (k' = k)) as [|Hne]; [done|]. exfalso.
  rewrite (values_delete m k b Hb) in Hndv. cbn in Hndv. apply NoDup_cons in Hndv as [Hn _]. apply Hn. rewrite <- Hid.
  eapply list_elem_of_fmap_2, (values_elem _ k'). by rewrite lookup_delete_ne.
Qed.

End Manager.
Arguments manager_inv {P _ _} N _ _.
