(* ===== verification/OffloadSession.v ===== *)
(** * Offloading sessions: every sequence of transfers

    The connector looks blocks up, starts loads of blocks that are ready and
    stores of blocks, and reports the end of each transfer once.  [offload_step]
    is one call of the manager under this protocol; the loads that run are
    recorded beside the manager, one entry for each block and load. *)

From S2P Require Import Prelude PyDict Offload OffloadPolicy OffloadArc OffloadInv.

Local Open Scope Z_scope.

(** How many running loads read a block. *)
Definition load_count (k : OffloadKey) (loads : list OffloadKey) : Z := zlen (filter (λ k', k' = k) loads).

Lemma load_count_cons k x loads : load_count k (x :: loads) = (if decide (x = k) then 1 else 0) + load_count k loads.
Proof. unfold load_count. rewrite filter_cons. case_decide; cbn; lia. Qed.
Lemma load_count_perm k l l' : l ≡ₚ l' → load_count k l = load_count k l'.
Proof. intros H. unfold load_count. by rewrite H. Qed.
Lemma load_count_bound k loads : 0 ≤ load_count k loads ≤ zlen loads.
Proof. unfold load_count. pose proof (length_filter (λ k', k' = k) loads). lia. Qed.

(** A block counts the loads that read it, or it is being stored. *)
Definition block_counted (n : Z) (b : option BlockStatus) : Prop :=
  match b with
  | None => n = 0
  | Some b => ref_cnt b = n ∨ ref_cnt b = -1 ∧ n = 0
  end.
Definition loads_ok (loads : list OffloadKey) (m : gmap OffloadKey BlockStatus) : Prop :=
  ∀ k, block_counted (load_count k loads) (m !! k).
Definition readable (m : gmap OffloadKey BlockStatus) (k : OffloadKey) : Prop := ∃ b, m !! k = Some b ∧ is_ready b = true.

Lemma loads_perm l l' m : l ≡ₚ l' → loads_ok l m → loads_ok l' m.
Proof. intros Hp H k. rewrite <- (load_count_perm k l l' Hp). apply H. Qed.
Lemma loads_low loads m : loads_ok loads m → ∀ k b, m !! k = Some b → -1 ≤ ref_cnt b.
Proof. intros H k b Hb. specialize (H k). rewrite Hb in H. pose proof (load_count_bound k loads). cbn in H. lia. Qed.
Lemma readable_count loads m k : loads_ok loads m → readable m k → ∃ b, m !! k = Some b ∧ ref_cnt b = load_count k loads.
Proof.
  intros H (b & Hb & Hr). exists b. split; [done|]. specialize (H k). rewrite Hb in H. unfold is_ready in Hr. cbn in H.
  pose proof (load_count_bound k loads). destruct (Z.geb_spec (ref_cnt b) 0); [lia|done].
Qed.
Lemma loads_add loads m k b : loads_ok loads m → m !! k = Some b → ref_cnt b = load_count k loads →
  loads_ok (k :: loads) (<[k := mkBlockStatus (ref_cnt b + 1) (block_id b)]> m).
Proof.
  intros H Hb Hr k'. rewrite load_count_cons, lookup_insert. destruct (decide (k = k')) as [->|Hne]; cbn; [lia|apply H].
Qed.
Lemma loads_drop loads m k b : loads_ok (k :: loads) m → m !! k = Some b → ref_cnt b = load_count k loads + 1 →
  loads_ok loads (<[k := mkBlockStatus (ref_cnt b - 1) (block_id b)]> m).
Proof.
  intros H Hb Hr k'. specialize (H k'). rewrite load_count_cons in H. rewrite lookup_insert.
  destruct (decide (k = k')) as [->|Hne]; cbn in *; [lia|done].
Qed.
Lemma readable_insert m k r i k' : 0 ≤ r → readable m k' → readable (<[k := mkBlockStatus r i]> m) k'.
Proof.
  intros Hr (b & Hb & Hk). destruct (decide (k = k')) as [->|Hne].
  - eexists. rewrite lookup_insert_eq. split; [done|]. unfold is_ready; cbn. by apply Z.geb_le.
  - exists b. by rewrite lookup_insert_ne.
Qed.
Lemma ids_insert (m : gmap OffloadKey BlockStatus) k b r : m !! k = Some b → block_id <$> <[k := mkBlockStatus r (block_id b)]> m = block_id <$> m.
Proof. intros H. rewrite fmap_insert. cbn. apply insert_id. by rewrite lookup_fmap, H. Qed.

Section Session.
Context {P : Type} `{!CachePolicy P, !CachePolicySpec P} {N : Z}.
Abbreviation manager := (CPUOffloadingManager P).
Implicit Types (s : manager) (m : gmap OffloadKey BlockStatus) (keys loads : list OffloadKey).

(** What holds between two calls. *)
Record session_inv s loads m : Prop := {
  session_manager : manager_inv N s m;
  session_loads : loads_ok loads m;
  session_few : zlen loads < 2 ^ 31;
}.

(** ** Loads *)

Lemma prepare_load_session s m loads keys : session_inv s loads m → Forall (readable m) keys → zlen (keys ++ loads) < 2 ^ 31 →
  ∃ ids s' m', prepare_load keys s = Ok (ids, s') ∧ session_inv s' (reverse keys ++ loads) m' ∧
    block_id <$> m' = block_id <$> m ∧ Forall2 (λ k i, (block_id <$> m) !! k = Some i) keys ids.
Proof.
  unfold prepare_load. intros Hi Hk Hn.
  cut (∀ acc, ∃ ids s' m', foldM load_one (acc, s) keys = Ok (acc ++ ids, s') ∧ session_inv s' (reverse keys ++ loads) m' ∧
    block_id <$> m' = block_id <$> m ∧ Forall2 (λ k i, (block_id <$> m) !! k = Some i) keys ids); [intros H; apply (H [])|].
  revert s m loads Hi Hk Hn. induction keys as [|k keys IH]; intros s m loads [Hi Hl Hf] Hk Hn acc; cbn [foldM].
  { exists [], s, m. by rewrite app_nil_r. }
  apply Forall_cons in Hk as [Hk Hks]. destruct (readable_count _ _ _ Hl Hk) as (b & Hb & Hr).
  rewrite length_app in Hn. cbn [length] in Hn. pose proof (load_count_bound k loads).
  destruct (load_one_ok s m acc k b Hi Hb) as (s1 & -> & Hi1); [lia|]. rewrite bind_ret.
  destruct (IH s1 _ (k :: loads) (Build_session_inv _ _ _ Hi1 (loads_add _ _ _ _ Hl Hb Hr) ltac:(cbn; lia)))
    with (acc := acc ++ [block_id b]) as (ids & s' & m' & -> & Hs & Hid & H2).
  { eapply Forall_impl; [exact Hks|]. intros. apply readable_insert; [lia|done]. }
  { rewrite length_app. cbn. lia. }
  rewrite (ids_insert m k b _ Hb) in *. exists (block_id b :: ids), s', m'. rewrite <- app_assoc. split; [done|].
  rewrite reverse_cons, <- app_assoc. split; [done|]. split; [done|]. constructor; [by rewrite lookup_fmap, Hb|done].
Qed.

Lemma complete_load_session s m loads keys : session_inv s (keys ++ loads) m →
  ∃ s' m', complete_load keys s = Ok s' ∧ session_inv s' loads m' ∧ block_id <$> m' = block_id <$> m.
Proof.
  unfold complete_load. revert s m. induction keys as [|k keys IH]; intros s m [Hi Hl Hf]; cbn [foldM].
  { by exists s, m. }
  cbn [app length] in *. pose proof (Hl k) as Hk. rewrite load_count_cons, decide_True in Hk by done.
  pose proof (load_count_bound k (keys ++ loads)) as Hn. destruct (m !! k) as [b|] eqn:Hb; cbn in Hk; [|lia].
  destruct (unload_one_ok s m k b Hi Hb) as (s1 & -> & Hi1); [lia|]. rewrite bind_ret.
  destruct (IH s1 (<[k := mkBlockStatus (ref_cnt b - 1) (block_id b)]> m)) as (s' & m' & -> & Hs & Hid).
  { split; [done|apply loads_drop; [done|done|lia]|lia]. }
  exists s', m'. by rewrite (ids_insert m k b _ Hb) in Hid.
Qed.

(** ** Stores *)

Lemma lookup_start_store l m k : NoDup l.*1 →
  start_store l m !! k = match dict_get k l with Some i => Some (BlockStatus_init i) | None => m !! k end.
Proof.
  revert m. induction l as [|[k' i] l IH]; intros m Hnd; [by rewrite start_store_nil|].
  rewrite fmap_cons in Hnd. apply NoDup_cons in Hnd as [Hk Hnd]. cbn in Hk. rewrite start_store_cons, IH by done. cbn.
  destruct (String.eqb_spec k k') as [->|Hne]; [|destruct (dict_get k l); [done|by rewrite lookup_insert_ne]].
  apply dict_get_not in Hk. rewrite Hk. apply lookup_insert_eq.
Qed.

(** The blocks after the start of a store. *)
Lemma lookup_started keys s m out k : NoDup keys → store_prepared keys s m out →
  store_started out m !! k =
    match dict_get k (zip (keys_to_store out) (store_spec out)) with
    | Some i => Some (BlockStatus_init i)
    | None => if decide (k ∈ evicted_keys out) then None else m !! k
    end.
Proof.
  intros Hnd [H1 H2 H3]. unfold store_started. rewrite lookup_start_store, lookup_without; [done|].
  rewrite fst_zip by (rewrite H1; lia). rewrite H1. by apply store_new_nodup.
Qed.
Lemma started_new keys s m out k i : store_prepared keys s m out →
  dict_get k (zip (keys_to_store out) (store_spec out)) = Some i → m !! k = None.
Proof.
  intros [H1 H2 H3] Hk%dict_get_elem%elem_of_zip_l. rewrite H1 in Hk. by apply list_elem_of_filter in Hk as [? _].
Qed.

(** Each new key has a block that is not ready, with the buffer it was given. *)
Lemma started_at keys s m out k i : NoDup keys → store_prepared keys s m out →
  (k, i) ∈ zip (keys_to_store out) (store_spec out) → store_started out m !! k = Some (BlockStatus_init i).
Proof.
  intros Hnd Hp Hki. rewrite (lookup_started keys s m out k Hnd Hp). erewrite dict_get_nodup; [done| |done].
  destruct Hp as [Hk Hids _]. rewrite fst_zip, Hk by (rewrite Hk; lia). by apply store_new_nodup.
Qed.

Lemma prepare_store_session s m loads keys : session_inv s loads m → NoDup keys →
  ∃ r s' m', prepare_store keys s = Ok (r, s') ∧ session_inv s' loads m' ∧
    match r with
    | None => m' = m ∧ _get_num_free_blocks s < zlen (store_new keys s m)
    | Some out => store_prepared keys s m out ∧ m' = store_started out m
    end.
Proof.
  intros [Hi Hl Hf] Hnd. destruct (prepare_store_ok s m keys Hi Hnd) as (r & s' & -> & Hr). destruct r as [out|].
  2:{ exists None, s', m. by destruct Hr as [??]. }
  destruct Hr as [Hp Hi']. exists (Some out), s', (store_started out m). split; [done|]. split; [|done]. split; [done| |done].
  intros k. rewrite (lookup_started keys s m out k Hnd Hp). specialize (Hl k). destruct (dict_get k _) as [i|] eqn:E.
  - rewrite (started_new _ _ _ _ _ _ Hp E) in Hl. cbn in *. lia.
  - case_decide as Hk; [|done]. destruct (evicted_idle _ _ _ _ (prepared_evicted _ _ _ _ Hp) k Hk) as (b & Hb & Hr & _).
    rewrite Hb in Hl. cbn in *. lia.
Qed.

Lemma complete_store_session s m loads keys ok : session_inv s loads m →
  ∃ s', complete_store keys ok s = Ok s' ∧ session_inv s' loads (finish_store ok keys m).
Proof.
  intros [Hi Hl Hf]. destruct (complete_store_ok s m keys ok Hi (loads_low _ _ Hl)) as (s' & -> & Hi').
  exists s'. split; [done|]. split; [done| |done]. intros k. specialize (Hl k). rewrite lookup_finish_store.
  destruct (m !! k) as [b|]; [|done]. cbn in *. pose proof (load_count_bound k loads).
  destruct (bool_decide _ && _) eqn:E; [|done]. apply andb_true_iff in E as [_ E]. unfold is_ready in E.
  destruct (Z.geb_spec (ref_cnt b) 0); [done|]. destruct ok; cbn; lia.
Qed.

(** ** Steps *)

Inductive offload_step : manager * list OffloadKey → manager * list OffloadKey → Prop :=
  | step_lookup s loads k r s' : lookup k s = Ok (r, s') → offload_step (s, loads) (s', loads)
  | step_touch s loads keys : offload_step (s, loads) (touch keys s, loads)
  | step_prepare_load s loads keys ids s' :
      Forall (λ k, ∃ b, policy_get k (_policy s) = Some b ∧ is_ready b = true) keys → zlen (keys ++ loads) < 2 ^ 31 →
      prepare_load keys s = Ok (ids, s') → offload_step (s, loads) (s', keys ++ loads)
  | step_complete_load s loads loads' keys s' :
      loads ≡ₚ keys ++ loads' → complete_load keys s = Ok s' → offload_step (s, loads) (s', loads')
  | step_prepare_store s loads keys r s' :
      NoDup keys → prepare_store keys s = Ok (r, s') → offload_step (s, loads) (s', loads)
  | step_complete_store s loads keys ok s' :
      complete_store keys ok s = Ok s' → offload_step (s, loads) (s', loads)
  | step_reset s loads : offload_step (s, loads) (reset_cache s, [])
  | step_take_events s loads : offload_step (s, loads) ((take_events s).2, loads)
  | step_get_stats s loads : offload_step (s, loads) ((get_stats s).2, loads).

Lemma readable_policy s loads m keys : session_inv s loads m →
  Forall (λ k, ∃ b, policy_get k (_policy s) = Some b ∧ is_ready b = true) keys → Forall (readable m) keys.
Proof. intros Hi H. eapply Forall_impl; [exact H|]. intros k (b & Hb & ?).
  exists b. by rewrite <- (inv_get _ _ k (session_manager _ _ _ Hi)). Qed.
Lemma session_perm s l l' m : l ≡ₚ l' → session_inv s l m → session_inv s l' m.
Proof. intros Hp [H1 H2 H3]. split; [done|by eapply loads_perm|by rewrite <- Hp]. Qed.

Lemma step_inv s loads s' loads' m : offload_step (s, loads) (s', loads') → session_inv s loads m → ∃ m', session_inv s' loads' m'.
Proof.
  intros Hstep. remember (s, loads) as x eqn:Ex. remember (s', loads') as y eqn:Ey.
  destruct Hstep as [s0 l k r s1 H|s0 l keys|s0 l keys ids s1 Hk Hn H|s0 l l' keys s1 Hp H|s0 l keys r s1 Hnd H|s0 l keys ok s1 H|s0 l|s0 l|s0 l];
    simplify_eq; intros Hs; pose proof Hs as [Hi Hl Hf].
  - destruct (offload_lookup_ok s m k Hi) as (s2 & Hs2 & Hi2). rewrite H in Hs2. simplify_eq. exists m. by split.
  - exists m. split; [by apply touch_inv|done|done].
  - destruct (prepare_load_session s m loads keys Hs) as (ids' & s2 & m' & Hs2 & Hi2 & _); [by eapply readable_policy|done|].
    rewrite H in Hs2. simplify_eq. exists m'. eapply session_perm, Hi2. by rewrite reverse_Permutation.
  - destruct (complete_load_session s m loads' keys) as (s2 & m' & Hs2 & Hi2 & _); [by eapply session_perm|].
    rewrite H in Hs2. simplify_eq. by exists m'.
  - destruct (prepare_store_session s m loads keys Hs Hnd) as (r' & s2 & m' & Hs2 & Hi2 & _). rewrite H in Hs2. simplify_eq. by exists m'.
  - destruct (complete_store_session s m loads keys ok Hs) as (s2 & Hs2 & Hi2). rewrite H in Hs2. simplify_eq. by eexists.
  - exists ∅. split; [by eapply reset_inv|by intros k|done].
  - exists m. split; [by apply take_events_inv|done|done].
  - exists m. split; [by apply get_stats_inv|done|done].
Qed.

Definition offload_reachable (ev : bool) (threshold size : Z) s loads : Prop :=
  rtc offload_step (CPUOffloadingManager_init N ev threshold size, []) (s, loads).

Lemma reachable_inv ev th size s loads : 0 ≤ N → 0 < size → offload_reachable ev th size s loads → ∃ m, session_inv s loads m.
Proof.
  intros Hn Hsz Hr. unfold offload_reachable in Hr.
  cut (∀ x y, rtc offload_step x y → (∃ m, session_inv x.1 x.2 m) → ∃ m, session_inv y.1 y.2 m).
  { intros H. apply (H _ _ Hr). exists ∅. split; cbn; [by apply init_manager_inv|by intros k|done]. }
  clear. intros x y. induction 1 as [x|[s l] [s' l'] z Hxy _ IH]; [done|]. intros [m Hm]. eapply IH, step_inv; done.
Qed.

End Session.
Arguments session_inv {P _ _} N _ _ _.
Arguments offload_reachable {P _} N _ _ _ _ _.
