(* ===== verification/OffloadClaims.v ===== *)
(** * What the offloading manager promises to the connector

    For every cache policy: the buffers of the pool, the reference counts, the
    calls that never fail, and what a store may evict.  For LRU: when a store
    is refused and which blocks it evicts.  For ARC: its lists. *)

From Stdlib Require Import QArith.
From S2P Require Import Prelude PyDict Offload OffloadPolicy OffloadArc OffloadInv OffloadSession.

Local Open Scope Z_scope.

Lemma nodup_snd {A B} (l : list (A * B)) :
  NoDup l.*1 → (∀ a a' b, (a, b) ∈ l → (a', b) ∈ l → a = a') → NoDup l.*2.
Proof.
  induction l as [|[a b] l IH]; [constructor|]. rewrite !fmap_cons, !NoDup_cons. intros [Ha Hnd] Hinj. split.
  - intros ([a' b'] & Hb & Hin)%list_elem_of_fmap. cbn in *. subst b'. apply Ha.
    rewrite (Hinj a a' b) by (by left || by right). apply (list_elem_of_fmap_2 fst _ _ Hin).
  - apply IH; [done|]. intros a1 a2 b' H1 H2. apply (Hinj a1 a2 b'); by right.
Qed.

Lemma Forall2_fun {A B} (f : A → option B) l ys zs :
  Forall2 (λ x y, f x = Some y) l ys → Forall2 (λ x y, f x = Some y) l zs → ys = zs.
Proof. intros H. revert zs. induction H as [|x y l ys Hxy _ IH]; intros zs; inversion_clear 1; [done|]. f_equal; [congruence|auto]. Qed.
Lemma Forall2_zip {A B} (R : A → B → Prop) l ys : length l = length ys → (∀ x y, (x, y) ∈ zip l ys → R x y) → Forall2 R l ys.
Proof.
  revert ys. induction l as [|x l IH]; intros [|y ys] Hlen H; try done; constructor; [by apply H; left|].
  apply IH; [by injection Hlen|]. intros x' y' Hin. apply H. by right.
Qed.

Section Claims.
Context {P : Type} `{!CachePolicy P, !CachePolicySpec P}.
Abbreviation manager := (CPUOffloadingManager P).
Implicit Types (s : manager) (m : gmap OffloadKey BlockStatus) (keys loads : list OffloadKey).

(** The keys of a store that have no block yet. *)
Definition store_missing keys s : list OffloadKey :=
  filter (λ k, policy_get k (_policy s) = None) (store_wanted keys s).
Lemma store_missing_new N s m keys : manager_inv N s m → store_missing keys s = store_new keys s m.
Proof. intros Hi. apply list_filter_iff. intros k. by rewrite (inv_get _ m k Hi). Qed.

(** C18: In every state that a sequence of lookups, loads, stores, touches and
    resets can reach, the free buffers and the buffers of the blocks in the cache
    are together the buffers allocated so far, each of them once; at most [N]
    are allocated; the number of evictable blocks is exact; and a block counts
    exactly the running loads that read it, or is being stored. *)
Theorem offload_buffers_exact N ev th size s loads :
  0 ≤ N → 0 < size → offload_reachable N ev th size s loads →
  ∃ m, (∀ k, policy_get k (_policy s) = m !! k) ∧
    _free_list s ++ (block_id <$> values m) ≡ₚ py_range 0 (_num_allocated_blocks s) ∧
    0 ≤ _num_allocated_blocks s ≤ N ∧ _num_evictable_cache_blocks s = idle m ∧
    ∀ k, block_counted (load_count k loads) (m !! k).
Proof.
  intros HN Hsz Hr. destruct (reachable_inv _ _ _ _ _ HN Hsz Hr) as [m [Hi Hl _]]. exists m.
  split; [intros k; by apply (inv_get _ _ _ Hi)|]. split; [apply Hi|].
  rewrite <- (inv_size _ _ Hi). split; [apply Hi|]. split; [apply Hi|done].
Qed.

(** C19: No call of the protocol fails an assertion or raises: lookups, loads of
    blocks that are ready, completions of running loads, stores of distinct keys
    and any completion of a store. *)
Theorem offload_never_raises N ev th size s loads :
  0 ≤ N → 0 < size → offload_reachable N ev th size s loads →
  (∀ k, ∃ r s', lookup k s = Ok (r, s')) ∧
  (∀ keys, Forall (λ k, ∃ b, policy_get k (_policy s) = Some b ∧ is_ready b = true) keys → zlen (keys ++ loads) < 2 ^ 31 →
     ∃ ids s', prepare_load keys s = Ok (ids, s')) ∧
  (∀ keys loads', loads ≡ₚ keys ++ loads' → ∃ s', complete_load keys s = Ok s') ∧
  (∀ keys, NoDup keys → ∃ r s', prepare_store keys s = Ok (r, s')) ∧
  (∀ keys ok, ∃ s', complete_store keys ok s = Ok s').
Proof.
  intros HN Hsz Hr. destruct (reachable_inv _ _ _ _ _ HN Hsz Hr) as [m Hm]. pose proof Hm as [Hi Hl _]. repeat split.
  - intros k. destruct (offload_lookup_ok s m k Hi) as (s' & ? & _). eauto.
  - intros keys Hk Hn. destruct (prepare_load_session s m loads keys Hm) as (ids & s' & m' & ? & _); [by eapply readable_policy|done|eauto].
  - intros keys loads' Hp. destruct (complete_load_session (N := N) s m loads' keys) as (s' & m' & ? & _); [by eapply session_perm|eauto].
  - intros keys Hnd. destruct (prepare_store_session s m loads keys Hm Hnd) as (r & s' & m' & ? & _). eauto.
  - intros keys ok. destruct (complete_store_session s m loads keys ok Hm) as (s' & ? & _). eauto.
Qed.

(** C20: A store that is accepted gets one buffer of the pool for each key that
    was missing, evicts no more blocks than it needs, and leaves alone every
    block that a transfer uses and every block of its own input: such a block
    stays, with its count, and its buffer is not given to the store. *)
Theorem store_spares_transfers N ev th size s loads keys out s' :
  0 ≤ N → 0 < size → offload_reachable N ev th size s loads → NoDup keys → prepare_store keys s = Ok (Some out, s') →
  keys_to_store out = store_missing keys s ∧ length (store_spec out) = length (keys_to_store out) ∧
  zlen (evicted_keys out) = Z.max 0 (zlen (keys_to_store out) - _get_num_free_blocks s) ∧
  (∀ k, k ∈ evicted_keys out → policy_get k (_policy s') = None) ∧
  NoDup (store_spec out) ∧ Forall (λ i, 0 ≤ i < N) (store_spec out) ∧
  ∀ k b, policy_get k (_policy s) = Some b → ref_cnt b ≠ 0 ∨ k ∈ store_wanted keys s →
    policy_get k (_policy s') = Some b ∧ block_id b ∉ store_spec out.
Proof.
  intros HN Hsz Hr Hnd Hst. destruct (reachable_inv _ _ _ _ _ HN Hsz Hr) as [m Hm].
  destruct (prepare_store_session s m loads keys Hm Hnd) as (r & s1 & m' & Hs1 & Hm' & Hout).
  rewrite Hst in Hs1. simplify_eq. destruct Hout as [Hp ->]. destruct Hm as [Hi _ _]. destruct Hm' as [Hi' _ _].
  rewrite (store_missing_new N s m) by done. pose proof Hp as [Hk Hids Hev]. rewrite Hk at 2.
  assert (∀ k i, (k, i) ∈ zip (keys_to_store out) (store_spec out) → store_started out m !! k = Some (BlockStatus_init i)) as Hin
    by (intros k i; by apply (started_at keys s)).
  split; [done|]. split; [done|]. split; [rewrite Hk; apply Hev|]. split.
  { intros k Hke. rewrite (inv_get _ _ k Hi'), (lookup_started keys s m out k Hnd Hp), decide_True by done.
    destruct (dict_get k _) as [i|] eqn:E; [|done]. apply (started_new _ _ _ _ _ _ Hp) in E.
    destruct (evicted_idle _ _ _ _ Hev k Hke) as (b & Hb & _). congruence. }
  assert (store_spec out = (zip (keys_to_store out) (store_spec out)).*2) as Hsnd by (by rewrite snd_zip by (rewrite Hk; lia)).
  split; [|split].
  - rewrite Hsnd. apply nodup_snd; [rewrite fst_zip, Hk by (rewrite Hk; lia); by apply store_new_nodup|].
    intros k k' i Hki Hki'. destruct (buffer_own _ _ _ _ Hi' (Hin k' i Hki')) as (_ & _ & Hown). by apply (Hown k _ (Hin k i Hki)).
  - rewrite Hsnd. apply Forall_forall. intros i ([k j] & -> & Hkj)%list_elem_of_fmap. apply (buffer_own _ _ _ _ Hi' (Hin k j Hkj)).
  - intros k b Hb Hbusy. rewrite (inv_get _ _ k Hi) in Hb.
    assert (store_started out m !! k = Some b) as Hb'.
    { rewrite (lookup_started keys s m out k Hnd Hp). destruct (dict_get k _) as [i|] eqn:E.
      - apply (started_new _ _ _ _ _ _ Hp) in E. congruence.
      - rewrite decide_False; [done|]. intros Hke. destruct (evicted_idle _ _ _ _ Hev k Hke) as (b1 & Hb1 & H0 & Hn). naive_solver. }
    split; [by rewrite (inv_get _ _ k Hi')|]. rewrite Hsnd. intros ([k' j] & Hj & Hkj)%list_elem_of_fmap. cbn in Hj.
    pose proof (Hin k' j Hkj) as Hk'. destruct (buffer_own _ _ _ _ Hi' Hb') as (_ & _ & Hown).
    assert (k' = k) as -> by by apply (Hown k' _ Hk').
    apply elem_of_zip_l in Hkj. rewrite Hk in Hkj. apply list_elem_of_filter in Hkj as [Hnone _]. congruence.
Qed.

(** C21: What is stored is what is loaded.  After an accepted store its keys are
    pending; once it completes they are hits, and a load of them reads the
    buffers that the store wrote, in the same order.  If the store fails its keys
    are gone and nothing else has changed. *)
Theorem store_load_roundtrip N ev th size s loads keys out s1 :
  0 ≤ N → 0 < size → offload_reachable N ev th size s loads → NoDup keys → prepare_store keys s = Ok (Some out, s1) →
  zlen (keys_to_store out ++ loads) < 2 ^ 31 →
  (∀ k, k ∈ keys_to_store out → ∃ s', lookup k s1 = Ok (HIT_PENDING, s')) ∧
  (∃ s2, complete_store (keys_to_store out) true s1 = Ok s2 ∧
     (∀ k, k ∈ keys_to_store out → ∃ s', lookup k s2 = Ok (HIT, s')) ∧
     ∃ s3, prepare_load (keys_to_store out) s2 = Ok (store_spec out, s3)) ∧
  (∃ s2, complete_store (keys_to_store out) false s1 = Ok s2 ∧
     ∀ k, policy_get k (_policy s2) = if decide (k ∈ keys_to_store out) then None else policy_get k (_policy s1)).
Proof.
  intros HN Hsz Hr Hnd Hst Hfew. destruct (reachable_inv _ _ _ _ _ HN Hsz Hr) as [m Hm].
  destruct (prepare_store_session s m loads keys Hm Hnd) as (r & s1' & m1 & Hs1 & Hm1 & Hout).
  rewrite Hst in Hs1. simplify_eq. destruct Hout as [Hp ->]. clear Hst. set (m1 := store_started out m) in *.
  assert (∀ k, k ∈ keys_to_store out → ∃ i, m1 !! k = Some (BlockStatus_init i)) as Hpend.
  { intros k Hk. rewrite <- (fst_zip _ (store_spec out)) in Hk by (rewrite (prepared_ids _ _ _ _ Hp), (prepared_keys _ _ _ _ Hp); lia).
    apply list_elem_of_fmap in Hk as ([k' i] & -> & Hki). exists i. by apply (started_at keys s). }
  split; [|split].
  - intros k Hk. destruct (Hpend k Hk) as [i Hi]. destruct (offload_lookup_ok _ _ k (session_manager _ _ _ Hm1)) as (s' & -> & _).
    rewrite Hi. by exists s'.
  - destruct (complete_store_session _ _ _ (keys_to_store out) true Hm1) as (s2 & Hs2 & Hm2). exists s2. split; [done|].
    set (m2 := finish_store true (keys_to_store out) m1) in *.
    assert (∀ k, k ∈ keys_to_store out → ∀ i, m1 !! k = Some (BlockStatus_init i) → m2 !! k = Some (mkBlockStatus 0 i)) as Hdone.
    { intros k Hk i Hi. unfold m2. rewrite lookup_finish_store, Hi. cbn. by rewrite bool_decide_true. }
    split.
    + intros k Hk. destruct (Hpend k Hk) as [i Hi]. destruct (offload_lookup_ok _ _ k (session_manager _ _ _ Hm2)) as (s' & -> & _).
      rewrite (Hdone k Hk i Hi). by exists s'.
    + destruct (prepare_load_session s2 m2 loads (keys_to_store out) Hm2) as (ids & s3 & m3 & -> & _ & _ & Hids).
      { apply Forall_forall. intros k Hk. destruct (Hpend k Hk) as [i Hi]. eexists. by rewrite (Hdone k Hk i Hi). }
      { done. }
      exists s3. do 2 f_equal. symmetry. eapply Forall2_fun, Hids. apply Forall2_zip.
      { by rewrite (prepared_ids _ _ _ _ Hp), (prepared_keys _ _ _ _ Hp). }
      intros k i Hki. rewrite lookup_fmap, (Hdone k (elem_of_zip_l _ _ _ _ Hki) i); [done|]. by apply (started_at keys s).
  - destruct (complete_store_session _ _ _ (keys_to_store out) false Hm1) as (s2 & Hs2 & Hm2). exists s2. split; [done|].
    intros k. rewrite (inv_get _ _ k (session_manager _ _ _ Hm2)), (inv_get _ _ k (session_manager _ _ _ Hm1)), lookup_finish_store.
    case_decide as Hk; [destruct (Hpend k Hk) as [i ->]; cbn; by rewrite bool_decide_true|].
    rewrite bool_decide_false by done. by destruct (m1 !! k).
Qed.

End Claims.

(** ** ARC *)

Lemma arc_contents p m : arc_core p m → t1 p ++ t2 p ≡ₚ map_to_list m.
Proof.
  intros Hc. pose proof (arc_parts _ _ Hc) as (H1 & H2 & _). apply NoDup_Permutation.
  - apply (NoDup_fmap_1 fst). rewrite fmap_app. apply NoDup_app. split; [done|]. split; [|done].
    intros k Hk. by apply (arc_t1_only _ _ Hc).
  - apply NoDup_map_to_list.
  - intros [k b]. rewrite elem_of_app, elem_of_map_to_list. split.
    + intros [Hk|Hk]; [by eapply arc_in_t1, dict_get_nodup|by eapply arc_in_t2, dict_get_nodup].
    + intros [Hk|[_ Hk]]%(arc_where _ _ Hc); apply dict_get_elem in Hk; auto.
Qed.

(** C22: With ARC the four lists never share a key, the ghost lists are no longer
    than the capacity of the cache, the target size stays between zero and the
    capacity, and the first two lists hold the blocks of the cache. *)
Theorem arc_lists_ok N ev th size (s : CPUOffloadingManager ARCCachePolicy) loads :
  0 ≤ N → 0 < size → offload_reachable N ev th size s loads →
  let p := _policy s in
  NoDup (arc_keys p) ∧ zlen (b1 p) ≤ cache_capacity p ∧ zlen (b2 p) ≤ cache_capacity p ∧
  (0 <= target_t1_size p <= inject_Z (cache_capacity p))%Q ∧
  zlen (t1 p) + zlen (t2 p) + zlen (_free_list s) = _num_allocated_blocks s.
Proof.
  intros HN Hsz Hr. destruct (reachable_inv _ _ _ _ _ HN Hsz Hr) as [m [Hi _ _]]. pose proof (inv_policy _ _ Hi) as [Hc [Hg1 Hg2]].
  split; [apply Hc|]. split; [done|]. split; [done|]. split; [apply Hc|].
  pose proof (inv_buffers _ _ Hi) as Hb. apply Permutation_length in Hb. pose proof (inv_allocated _ _ Hi).
  unfold py_range, values in Hb. rewrite length_app, !length_fmap, length_seqZ, <- (arc_contents _ _ Hc), length_app in Hb. lia.
Qed.
