(* ===== verification/OffloadDemo.v ===== *)
(** * A small session of the offloading manager

    Two buffers: two blocks are stored, one of them is being read while a third
    one is stored in the place of the other.  The claims are applied to it, and
    concrete sessions show where the code departs from its documentation. *)

From Stdlib Require Import QArith.
From S2P Require Import Prelude PyDict Offload OffloadPolicy OffloadArc OffloadInv OffloadSession OffloadClaims.

Local Open Scope string_scope.
Local Open Scope Z_scope.

Section Demo.
Context (P : Type) `{!CachePolicy P}.
Abbreviation manager := (CPUOffloadingManager P).
Definition state_of {A} (r : result (A * manager)) (s : manager) : manager := match r with Ok x => x.2 | Raise _ => s end.
Definition done_of (r : result manager) (s : manager) : manager := match r with Ok x => x | Raise _ => s end.

Definition demo0 : manager := CPUOffloadingManager_init 2 true 1 10.
Definition demo1 : manager := state_of (prepare_store ["a"; "b"] demo0) demo0.
Definition demo2 : manager := done_of (complete_store ["a"; "b"] true demo1) demo1.
Definition demo3 : manager := state_of (prepare_load ["a"] demo2) demo2.
End Demo.

Ltac demo_session :=
  unfold offload_reachable;
  eapply rtc_l; [eapply (step_prepare_store _ _ ["a"; "b"]); [by apply (bool_decide_unpack _); vm_compute|vm_compute; reflexivity]|];
  eapply rtc_l; [eapply (step_complete_store _ _ ["a"; "b"] true); vm_compute; reflexivity|];
  eapply rtc_l; [eapply (step_prepare_load _ _ ["a"]);
    [apply Forall_singleton; eexists; vm_compute; split; reflexivity|vm_compute; reflexivity|vm_compute; reflexivity]|];
  apply rtc_refl.

Lemma lru_demo_reach : offload_reachable 2 true 1 10 (demo3 LRUCachePolicy) ["a"].
Proof. demo_session. Qed.
Lemma arc_demo_reach : offload_reachable 2 true 1 10 (demo3 ARCCachePolicy) ["a"].
Proof. demo_session. Qed.

(** ** The claims at this session *)

Lemma offload_buffers_exact_witness :
  ∃ m, (∀ k, policy_get k (_policy (demo3 LRUCachePolicy)) = m !! k) ∧
    _free_list (demo3 LRUCachePolicy) ++ (block_id <$> values m) ≡ₚ py_range 0 (_num_allocated_blocks (demo3 LRUCachePolicy)) ∧
    0 ≤ _num_allocated_blocks (demo3 LRUCachePolicy) ≤ 2 ∧ _num_evictable_cache_blocks (demo3 LRUCachePolicy) = idle m ∧
    ∀ k, block_counted (load_count k ["a"]) (m !! k).
Proof. exact (offload_buffers_exact 2 true 1 10 _ _ ltac:(lia) ltac:(lia) lru_demo_reach). Defined.

Lemma offload_never_raises_witness : ∃ r s', prepare_store ["c"] (demo3 ARCCachePolicy) = Ok (r, s').
Proof.
  destruct (offload_never_raises 2 true 1 10 _ _ ltac:(lia) ltac:(lia) arc_demo_reach) as (_ & _ & _ & H & _).
  apply H. apply NoDup_singleton.
Defined.

(** [c] takes the buffer of [b]; [a] is being read and stays. *)
Definition demo_store : PrepareStoreOutput := mkPrepareStoreOutput ["c"] [1] ["b"].
Definition demo4 (P : Type) `{!CachePolicy P} : CPUOffloadingManager P := state_of P (prepare_store ["a"; "c"] (demo3 P)) (demo3 P).

Lemma lru_demo_store : prepare_store ["a"; "c"] (demo3 LRUCachePolicy) = Ok (Some demo_store, demo4 LRUCachePolicy).
Proof. vm_compute. reflexivity. Qed.
Lemma arc_demo_store : prepare_store ["a"; "c"] (demo3 ARCCachePolicy) = Ok (Some demo_store, demo4 ARCCachePolicy).
Proof. vm_compute. reflexivity. Qed.
Lemma demo_keys_nodup : NoDup ["a"; "c"].
Proof. by apply (bool_decide_unpack _); vm_compute. Qed.

Lemma store_spares_transfers_witness :
  policy_get "a" (_policy (demo4 ARCCachePolicy)) = Some (mkBlockStatus 1 0) ∧ 0 ∉ store_spec demo_store.
Proof.
  destruct (store_spares_transfers 2 true 1 10 _ _ _ _ _ ltac:(lia) ltac:(lia) arc_demo_reach demo_keys_nodup arc_demo_store)
    as (_ & _ & _ & _ & _ & _ & H).
  apply (H "a" (mkBlockStatus 1 0)); [vm_compute; reflexivity|left; vm_compute; discriminate].
Defined.

Lemma store_load_roundtrip_witness :
  ∃ s2, complete_store ["c"] true (demo4 LRUCachePolicy) = Ok s2 ∧ ∃ s3, prepare_load ["c"] s2 = Ok ([1], s3).
Proof.
  destruct (store_load_roundtrip 2 true 1 10 _ _ _ _ _ ltac:(lia) ltac:(lia) lru_demo_reach demo_keys_nodup lru_demo_store
    ltac:(vm_compute; reflexivity)) as (_ & (s2 & Hs2 & _ & Hs3) & _).
  exists s2. split; [exact Hs2|exact Hs3].
Defined.

Lemma arc_lists_ok_witness : NoDup (arc_keys (_policy (demo3 ARCCachePolicy))).
Proof. destruct (arc_lists_ok 2 true 1 10 _ _ ltac:(lia) ltac:(lia) arc_demo_reach) as [H _]. exact H. Defined.

(** ** Findings *)

Ltac step_by t := eapply rtc_l; [t|].
Ltac nodup_keys := by apply (bool_decide_unpack _); vm_compute.
Ltac run_eq := vm_compute; reflexivity.

(** ARC refuses a store although an idle block outside its input would make
    room: with fewer blocks in the first list than the target size only the second
    list is searched.  The documentation of [evict] says that it returns [None] if
    the evictions cannot be satisfied. *)
Theorem arc_refuses_although_idle :
  ∃ (s : CPUOffloadingManager ARCCachePolicy) loads, offload_reachable 2 false 1 10 s loads ∧
    (∃ s', prepare_store ["d"] s = Ok (None, s')) ∧ _num_evictable_cache_blocks s = 1 ∧
    policy_get "c" (_policy s) = Some (mkBlockStatus 0 0) ∧ "c" ∉ store_wanted ["d"] s.
Proof.
  eexists _, _. split.
  - unfold offload_reachable.
    step_by ltac:(eapply (step_prepare_store _ _ ["a"; "b"]); [nodup_keys|run_eq]).
    step_by ltac:(eapply (step_complete_store _ _ ["a"; "b"] true); run_eq).
    step_by ltac:(eapply (step_prepare_store _ _ ["c"]); [nodup_keys|run_eq]).
    step_by ltac:(eapply (step_complete_store _ _ ["c"] true); run_eq).
    step_by ltac:(eapply (step_touch _ _ ["a"])).
    step_by ltac:(eapply (step_touch _ _ ["a"])).
    step_by ltac:(eapply (step_touch _ _ ["b"])).
    step_by ltac:(eapply (step_prepare_load _ _ ["b"]);
      [apply Forall_singleton; eexists; vm_compute; split; reflexivity|run_eq|run_eq]).
    apply rtc_refl.
  - split; [eexists; run_eq|]. split; [run_eq|]. split; [run_eq|]. by apply (bool_decide_unpack _); vm_compute.
Qed.

(** With a store threshold the keys that are not counted often enough are
    dropped before the protected set is built: a block of the input that is
    already stored is evicted by the same call.  The comment says that blocks of
    the original input must remain in the cache. *)
Theorem input_block_evicted :
  ∃ (s : CPUOffloadingManager LRUCachePolicy) loads s', offload_reachable 1 false 2 1 s loads ∧
    policy_get "a" (_policy s) = Some (mkBlockStatus 0 0) ∧
    prepare_store ["a"; "x"] s = Ok (Some (mkPrepareStoreOutput ["x"] [0] ["a"]), s').
Proof.
  eexists _, _, _. split; [|split].
  - unfold offload_reachable.
    step_by ltac:(eapply (step_lookup _ _ "a"); run_eq). step_by ltac:(eapply (step_lookup _ _ "a"); run_eq).
    step_by ltac:(eapply (step_prepare_store _ _ ["a"]); [nodup_keys|run_eq]).
    step_by ltac:(eapply (step_complete_store _ _ ["a"] true); run_eq).
    step_by ltac:(eapply (step_lookup _ _ "x"); run_eq). step_by ltac:(eapply (step_lookup _ _ "x"); run_eq).
    apply rtc_refl.
  - run_eq.
  - run_eq.
Qed.

(** A block of a store that was stored before can be evicted before the store
    completes, although [prepare_store] promises that the given blocks are
    protected until [complete_store]. *)
Theorem stored_block_not_protected :
  ∃ (s s1 s2 : CPUOffloadingManager LRUCachePolicy) loads, offload_reachable 2 false 1 10 s loads ∧
    prepare_store ["a"; "b"] s = Ok (Some (mkPrepareStoreOutput ["b"] [1] []), s1) ∧
    prepare_store ["c"] s1 = Ok (Some (mkPrepareStoreOutput ["c"] [0] ["a"]), s2).
Proof.
  eexists _, _, _, _. split; [|split].
  - unfold offload_reachable.
    step_by ltac:(eapply (step_prepare_store _ _ ["a"]); [nodup_keys|run_eq]).
    step_by ltac:(eapply (step_complete_store _ _ ["a"] true); run_eq).
    apply rtc_refl.
  - run_eq.
  - run_eq.
Qed.
