(* ===== verification/OffloadConnector.v ===== *)
(** * The offloading connector ([distributed/kv_transfer/kv_connector/v1/offloading/scheduler.py])

    The scheduler side of KV offloading: for each request it finds which blocks
    can be loaded, starts load and store jobs, and processes the reports of the
    workers.  It is written against the interface of offloading managers.

    Correspondence.  A request object is shared with the scheduler, which changes
    it between calls; a method takes the requests, as they are at the call, as a
    function of the request id.  Sets and dictionaries whose order does not matter
    are [gset] and [gmap]; where the code passes a set on as a sequence, or takes
    an arbitrary element, the order of [elements] stands for Python's.  Statistics,
    the payloads of KV events and logging are left out. *)

From Stdlib Require Import QArith.
From S2P Require Import Prelude MathUtils PyDict Request BlockHash BlockPool SchedState KVSpec Offload.

Local Open Scope Z_scope.

(** ** Keys ([kv_offload/base.py]) *)

Definition make_offload_key (block_hash : bytes) (group_idx : Z) : result OffloadKey :=
  g ← int_to_bytes_be 4 group_idx; Ok (String.string_of_list_byte (block_hash ++ g)).
Definition get_offload_block_hash (key : OffloadKey) : bytes := py_upto (String.list_byte_of_string key) (-4).
Definition get_offload_group_idx (key : OffloadKey) : Z := int_from_bytes_be (py_from (String.list_byte_of_string key) (-4)).

(** ** The interface of offloading managers *)

Inductive OffloadPolicy := BLOCK_LEVEL | REQUEST_LEVEL.
#[export] Instance offload_policy_eq_dec : EqDecision OffloadPolicy.
Proof. solve_decision. Defined.

(** The string argument is the request of the call. *)
Class OffloadingManager (M : Type) := {
  mgr_on_new_request : string → M → OffloadPolicy * M;
  mgr_lookup : OffloadKey → string → M → result (LookupResult * M);
  mgr_prepare_load : list OffloadKey → string → M → result (list Z * M);
  mgr_touch : list OffloadKey → string → M → M;
  mgr_complete_load : list OffloadKey → string → M → result M;
  mgr_prepare_store : list OffloadKey → string → M → result (option PrepareStoreOutput * M);
  mgr_complete_store : list OffloadKey → string → M → result M;
  mgr_on_schedule_end : list string → gset string → M → M;
  mgr_on_request_finished : string → M → M;
  mgr_has_pending_work : M → bool;
  mgr_reset_cache : M → M;
}.

#[export] Instance cpu_manager {P} `{!CachePolicy P} : OffloadingManager (CPUOffloadingManager P) := {
  mgr_on_new_request _ m := (BLOCK_LEVEL, m);
  mgr_lookup k _ m := lookup k m;
  mgr_prepare_load keys _ m := prepare_load keys m;
  mgr_touch keys _ m := touch keys m;
  mgr_complete_load keys _ m := complete_load keys m;
  mgr_prepare_store keys _ m := prepare_store keys m;
  mgr_complete_store keys _ m := complete_store keys true m;
  mgr_on_schedule_end _ _ m := m;
  mgr_on_request_finished _ m := m;
  mgr_has_pending_work _ := false;
  mgr_reset_cache := reset_cache;
}.

(** ** Jobs *)

Record TransferJobStatus := mkJobStatus {
  job_req_id : string;
  pending_count : Z;
  job_keys : gset OffloadKey;
  is_store : bool;
  non_sliding_window_block_ids : option (list nat);
  sliding_window_block_ids : option (list nat);
}.
Definition put_pending_count (x : Z) (j : TransferJobStatus) : TransferJobStatus :=
  mkJobStatus (job_req_id j) x (job_keys j) (is_store j) (non_sliding_window_block_ids j) (sliding_window_block_ids j).

Record GPULoadStoreSpec := mkGPUSpec { gpu_block_ids : list nat; group_sizes : list Z; block_indices : list Z }.
Definition GPULoadStoreSpec_init (ids : list nat) (sizes indices : list Z) : result GPULoadStoreSpec :=
  _ ← assert_ (foldr Z.add 0 sizes =? zlen ids);
  _ ← assert_ (zlen indices =? zlen sizes);
  Ok (mkGPUSpec ids sizes indices).

(** The CPU side is a list of buffers; the source comes first. *)
Inductive TransferJob :=
  | LoadJob (req_id : string) (src : list Z) (dst : GPULoadStoreSpec)
  | StoreJob (req_id : string) (src : GPULoadStoreSpec) (dst : list Z).

(** ** Configuration *)

Record GroupOffloadConfig := mkGroupOffloadConfig {
  group_idx : nat;
  gpu_block_size : Z;
  offloaded_block_size : Z;
  hash_block_size_factor : Z;
  sliding_window_size_in_blocks : option Z;
  alignment_block_count : option Z;
  is_eagle_group : bool;
}.
Record SchedulerOffloadConfig := mkSchedulerOffloadConfig {
  kv_group_configs : list GroupOffloadConfig;
  block_size_factor : Z;
  num_workers : Z;
  offload_prompt_only : bool;
}.

(** What the code reads of [OffloadingSpec] and of the configuration behind it. *)
Record OffloadingSpec := mkOffloadingSpec {
  spec_groups : list (LayerSpec * bool);
  spec_gpu_block_size : list Z;
  spec_block_size_factor : Z;
  spec_hash_block_size : Z;
  spec_world_size : Z;
  spec_use_eagle : bool;
  spec_prompt_only : bool;
  spec_prefix_caching : bool;
}.

(** [hash_block_size] is resolved at start-up; [cp] is the product of the context
    parallel sizes, [offloaded] the optional block size of the configuration. *)
Definition OffloadingSpec_init (groups : list (LayerSpec * bool)) (cp hash_block_size : Z) (offloaded : option Z)
    (world_size : Z) (use_eagle prompt_only prefix_caching : bool) : result OffloadingSpec :=
  let sizes := (λ g : LayerSpec * bool, layer_block_size g.1 * cp) <$> groups in
  _ ← mapR (λ size, _ ← require ZeroDivisionError (negb (hash_block_size =? 0)); assert_ (size mod hash_block_size =? 0)) sizes;
  factor ← match offloaded with
           | None => Ok 1
           | Some block_size =>
               match elements (list_to_set sizes : gset Z) with
               | [size] =>
                   _ ← require ZeroDivisionError (negb (size =? 0));
                   _ ← assert_ (block_size mod size =? 0);
                   Ok (block_size / size)
               | _ => Raise AssertionError
               end
           end;
  Ok (mkOffloadingSpec groups sizes factor hash_block_size world_size use_eagle prompt_only prefix_caching).

Definition get_sliding_window_size_in_blocks (spec : LayerSpec) (block_size : Z) : result (option Z) :=
  match spec with
  | Sliding _ _ w _ | SlidingMLA _ _ w _ _ => _ ← assert_ (w >? 0); Ok (Some (cdiv w block_size))
  | Mamba _ _ => Ok (Some 1)
  | Full _ _ _ | TQFull _ _ _ _ | MLA _ _ _ _ | HiddenState _ _ _ _ | RSWA _ _ _ _ | SinkFull _ _ _ _ => Ok None
  | Chunked _ _ _ | EncoderOnly _ _ | Cross _ _ => Raise AssertionError
  end.

(** Groups with their GPU block size, by index. *)
Definition spec_rows (s : OffloadingSpec) : result (list (nat * (LayerSpec * bool) * Z)) :=
  mapR (λ x : nat * Z, g ← of_option IndexError (spec_groups s !! x.1); Ok (x.1, g, x.2)) (imap (λ i x, (i, x)) (spec_gpu_block_size s)).

Definition resolve_mamba_align_size (s : OffloadingSpec) : result (option Z) :=
  rows ← spec_rows s;
  foldM (λ acc x, let '(_, (spec, _), size) := x in
    match spec with
    | Mamba _ f => if String.eqb (spec_mamba_cache_mode f) "align" then
          let size := size * spec_block_size_factor s in
          _ ← assert_ (match acc with None => true | Some y => y =? size end);
          Ok (Some size)
        else Ok acc
    | _ => Ok acc
    end) None rows.

(** The single offloaded block size of full-attention groups. *)
Definition alignment_tokens (s : OffloadingSpec) (rows : list (nat * (LayerSpec * bool) * Z)) : result (option Z) :=
  sizes ← foldM (λ (acc : gset Z) x, let '(_, (spec, _), size) := x in
    sw ← get_sliding_window_size_in_blocks spec (size * spec_block_size_factor s);
    Ok (match sw with None => {[ size * spec_block_size_factor s ]} ∪ acc | Some _ => acc end)) ∅ rows;
  Ok (match elements sizes with [x] => Some x | _ => None end).
Definition _alignment_block_count (tokens : option Z) (block_size : Z) (sw : option Z) : option Z :=
  match tokens, sw with
  | Some tokens, Some sw =>
      if tokens <=? block_size then None else
      let per_segment := tokens / block_size in
      if sw >=? per_segment then None else Some per_segment
  | _, _ => None
  end.

Definition SchedulerOffloadConfig_from_spec (s : OffloadingSpec) : result SchedulerOffloadConfig :=
  rows ← spec_rows s;
  tokens ← alignment_tokens s rows;
  let flagged := existsb snd (spec_groups s) in
  let all_eagle := spec_use_eagle s && negb flagged in
  groups ← mapR (λ x, let '(i, (spec, eagle), size) := x in
    let block_size := size * spec_block_size_factor s in
    sw ← get_sliding_window_size_in_blocks spec block_size;
    Ok (mkGroupOffloadConfig i size block_size (block_size / spec_hash_block_size s) sw
          (_alignment_block_count tokens block_size sw) (eagle || all_eagle))) rows;
  Ok (mkSchedulerOffloadConfig groups (spec_block_size_factor s) (spec_world_size s) (spec_prompt_only s)).

(** ** State of a request *)

Record RequestGroupState := mkGroupState {
  offload_keys : list OffloadKey;
  block_ids : list nat;
  next_stored_block_idx : Z;
  num_hit_blocks : Z;
}.

(** Attribute assignments. *)
Definition put_offload_keys (x : list OffloadKey) (s : RequestGroupState) : RequestGroupState :=
  mkGroupState x (s.(block_ids)) (s.(next_stored_block_idx)) (s.(num_hit_blocks)).
Definition put_block_ids (x : list nat) (s : RequestGroupState) : RequestGroupState :=
  mkGroupState (s.(offload_keys)) x (s.(next_stored_block_idx)) (s.(num_hit_blocks)).
Definition put_next_stored_block_idx (x : Z) (s : RequestGroupState) : RequestGroupState :=
  mkGroupState (s.(offload_keys)) (s.(block_ids)) x (s.(num_hit_blocks)).
Definition put_num_hit_blocks (x : Z) (s : RequestGroupState) : RequestGroupState :=
  mkGroupState (s.(offload_keys)) (s.(block_ids)) (s.(next_stored_block_idx)) x.

Record RequestOffloadState := mkRequestState {
  offload_policy : OffloadPolicy;
  group_states : list RequestGroupState;
  max_offload_tokens : option Z;
  num_locally_computed_tokens : Z;
  transfer_jobs : gset Z;
}.

(** Attribute assignments. *)
Definition put_group_states (x : list RequestGroupState) (s : RequestOffloadState) : RequestOffloadState :=
  mkRequestState (s.(offload_policy)) x (s.(max_offload_tokens))
    (s.(num_locally_computed_tokens)) (s.(transfer_jobs)).
Definition put_num_locally_computed_tokens (x : Z) (s : RequestOffloadState) : RequestOffloadState :=
  mkRequestState (s.(offload_policy)) (s.(group_states)) (s.(max_offload_tokens)) x
    (s.(transfer_jobs)).
Definition put_transfer_jobs (x : gset Z) (s : RequestOffloadState) : RequestOffloadState :=
  mkRequestState (s.(offload_policy)) (s.(group_states)) (s.(max_offload_tokens))
    (s.(num_locally_computed_tokens)) x.

(** [raw] is the integer under the key max_offload_tokens of the request's
    transfer parameters. *)
Definition RequestOffloadState_init (cfg : SchedulerOffloadConfig) (policy : OffloadPolicy) (raw : option Z) : RequestOffloadState :=
  mkRequestState policy ((λ _, mkGroupState [] [] 0 0) <$> kv_group_configs cfg)
    (match raw with Some n => if n >=? 0 then Some n else None | None => None end) 0 ∅.

(** A loop over the groups with their states. *)
Definition for_groups (cfg : SchedulerOffloadConfig) (f : GroupOffloadConfig → RequestGroupState → result RequestGroupState)
    (rs : RequestOffloadState) : result RequestOffloadState :=
  gs ← mapR (λ x : _ * _, f x.1 x.2) (zip (kv_group_configs cfg) (group_states rs));
  Ok (put_group_states (gs ++ drop (length gs) (group_states rs)) rs).

Definition update_offload_keys (cfg : SchedulerOffloadConfig) (r : Request) (rs : RequestOffloadState) : result RequestOffloadState :=
  for_groups cfg (λ g st,
    let factor := hash_block_size_factor g in
    _ ← require ValueError (1 <=? factor);
    let start := factor * zlen (offload_keys st) + factor - 1 in
    keys ← mapR (λ h, make_offload_key h (Z.of_nat (group_idx g))) (py_stride (Z.to_nat factor) (Z.to_nat start) (block_hashes r));
    Ok (put_offload_keys (offload_keys st ++ keys) st)) rs.

Definition update_block_id_groups (new_block_id_groups : list (list nat)) (rs : RequestOffloadState) : result RequestOffloadState :=
  _ ← assert_ (zlen new_block_id_groups =? zlen (group_states rs));
  Ok (put_group_states (zip_with (λ st new, put_block_ids (block_ids st ++ new) st) (group_states rs) new_block_id_groups) rs).

Definition advance_stored_idx (cfg : SchedulerOffloadConfig) (num_offloadable_tokens : Z) (rs : RequestOffloadState) : result RequestOffloadState :=
  for_groups cfg (λ g st, Ok (put_next_stored_block_idx (num_offloadable_tokens / offloaded_block_size g) st)) rs.
Definition update_num_hit_blocks (cfg : SchedulerOffloadConfig) (num_cached_tokens : Z) (rs : RequestOffloadState) : result RequestOffloadState :=
  for_groups cfg (λ g st, Ok (put_num_hit_blocks (num_cached_tokens / offloaded_block_size g) st)) rs.

(** ** The connector *)

Record OffloadingConnectorScheduler (M : Type) := mkConnector {
  config : SchedulerOffloadConfig;
  manager : M;
  _sliding_window_groups : list nat;
  _lookup_groups : list nat;
  _mamba_align_size : option Z;
  _req_status : gmap string RequestOffloadState;
  _current_batch_load_jobs : gmap Z TransferJob;
  _current_batch_jobs_to_flush : gset Z;
  _current_batch_allocated_block_ids : gset nat;
  _blocks_being_loaded : option (gset OffloadKey);
  _job_counter : Z;
  _stale_job_threshold : Z;
  _jobs : gmap Z TransferJobStatus;
  _block_id_to_pending_jobs : gmap nat (gset Z);
}.
Arguments mkConnector {M}.
Arguments config {M}.
Arguments manager {M}.
Arguments _sliding_window_groups {M}.
Arguments _lookup_groups {M}.
Arguments _mamba_align_size {M}.
Arguments _req_status {M}.
Arguments _current_batch_load_jobs {M}.
Arguments _current_batch_jobs_to_flush {M}.
Arguments _current_batch_allocated_block_ids {M}.
Arguments _blocks_being_loaded {M}.
Arguments _job_counter {M}.
Arguments _stale_job_threshold {M}.
Arguments _jobs {M}.
Arguments _block_id_to_pending_jobs {M}.

(** Attribute assignments. *)
Definition put_manager {M} (x : M) (s : OffloadingConnectorScheduler M) : OffloadingConnectorScheduler M :=
  mkConnector (s.(config)) x (s.(_sliding_window_groups)) (s.(_lookup_groups))
    (s.(_mamba_align_size)) (s.(_req_status)) (s.(_current_batch_load_jobs))
    (s.(_current_batch_jobs_to_flush)) (s.(_current_batch_allocated_block_ids))
    (s.(_blocks_being_loaded)) (s.(_job_counter)) (s.(_stale_job_threshold)) (s.(_jobs))
    (s.(_block_id_to_pending_jobs)).
Definition put_req_status {M} (x : gmap string RequestOffloadState) (s : OffloadingConnectorScheduler M) : OffloadingConnectorScheduler M :=
  mkConnector (s.(config)) (s.(manager)) (s.(_sliding_window_groups)) (s.(_lookup_groups))
    (s.(_mamba_align_size)) x (s.(_current_batch_load_jobs))
    (s.(_current_batch_jobs_to_flush)) (s.(_current_batch_allocated_block_ids))
    (s.(_blocks_being_loaded)) (s.(_job_counter)) (s.(_stale_job_threshold)) (s.(_jobs))
    (s.(_block_id_to_pending_jobs)).
Definition put_current_batch_load_jobs {M} (x : gmap Z TransferJob) (s : OffloadingConnectorScheduler M) : OffloadingConnectorScheduler M :=
  mkConnector (s.(config)) (s.(manager)) (s.(_sliding_window_groups)) (s.(_lookup_groups))
    (s.(_mamba_align_size)) (s.(_req_status)) x (s.(_current_batch_jobs_to_flush))
    (s.(_current_batch_allocated_block_ids)) (s.(_blocks_being_loaded)) (s.(_job_counter))
    (s.(_stale_job_threshold)) (s.(_jobs)) (s.(_block_id_to_pending_jobs)).
Definition put_current_batch_jobs_to_flush {M} (x : gset Z) (s : OffloadingConnectorScheduler M) : OffloadingConnectorScheduler M :=
  mkConnector (s.(config)) (s.(manager)) (s.(_sliding_window_groups)) (s.(_lookup_groups))
    (s.(_mamba_align_size)) (s.(_req_status)) (s.(_current_batch_load_jobs)) x
    (s.(_current_batch_allocated_block_ids)) (s.(_blocks_being_loaded)) (s.(_job_counter))
    (s.(_stale_job_threshold)) (s.(_jobs)) (s.(_block_id_to_pending_jobs)).
Definition put_current_batch_allocated_block_ids {M} (x : gset nat) (s : OffloadingConnectorScheduler M) : OffloadingConnectorScheduler M :=
  mkConnector (s.(config)) (s.(manager)) (s.(_sliding_window_groups)) (s.(_lookup_groups))
    (s.(_mamba_align_size)) (s.(_req_status)) (s.(_current_batch_load_jobs))
    (s.(_current_batch_jobs_to_flush)) x (s.(_blocks_being_loaded)) (s.(_job_counter))
    (s.(_stale_job_threshold)) (s.(_jobs)) (s.(_block_id_to_pending_jobs)).
Definition put_blocks_being_loaded {M} (x : option (gset OffloadKey)) (s : OffloadingConnectorScheduler M) : OffloadingConnectorScheduler M :=
  mkConnector (s.(config)) (s.(manager)) (s.(_sliding_window_groups)) (s.(_lookup_groups))
    (s.(_mamba_align_size)) (s.(_req_status)) (s.(_current_batch_load_jobs))
    (s.(_current_batch_jobs_to_flush)) (s.(_current_batch_allocated_block_ids)) x
    (s.(_job_counter)) (s.(_stale_job_threshold)) (s.(_jobs)) (s.(_block_id_to_pending_jobs)).
Definition put_job_counter {M} (x : Z) (s : OffloadingConnectorScheduler M) : OffloadingConnectorScheduler M :=
  mkConnector (s.(config)) (s.(manager)) (s.(_sliding_window_groups)) (s.(_lookup_groups))
    (s.(_mamba_align_size)) (s.(_req_status)) (s.(_current_batch_load_jobs))
    (s.(_current_batch_jobs_to_flush)) (s.(_current_batch_allocated_block_ids))
    (s.(_blocks_being_loaded)) x (s.(_stale_job_threshold)) (s.(_jobs))
    (s.(_block_id_to_pending_jobs)).
Definition put_stale_job_threshold {M} (x : Z) (s : OffloadingConnectorScheduler M) : OffloadingConnectorScheduler M :=
  mkConnector (s.(config)) (s.(manager)) (s.(_sliding_window_groups)) (s.(_lookup_groups))
    (s.(_mamba_align_size)) (s.(_req_status)) (s.(_current_batch_load_jobs))
    (s.(_current_batch_jobs_to_flush)) (s.(_current_batch_allocated_block_ids))
    (s.(_blocks_being_loaded)) (s.(_job_counter)) x (s.(_jobs))
    (s.(_block_id_to_pending_jobs)).
Definition put_jobs {M} (x : gmap Z TransferJobStatus) (s : OffloadingConnectorScheduler M) : OffloadingConnectorScheduler M :=
  mkConnector (s.(config)) (s.(manager)) (s.(_sliding_window_groups)) (s.(_lookup_groups))
    (s.(_mamba_align_size)) (s.(_req_status)) (s.(_current_batch_load_jobs))
    (s.(_current_batch_jobs_to_flush)) (s.(_current_batch_allocated_block_ids))
    (s.(_blocks_being_loaded)) (s.(_job_counter)) (s.(_stale_job_threshold)) x
    (s.(_block_id_to_pending_jobs)).
Definition put_block_id_to_pending_jobs {M} (x : gmap nat (gset Z)) (s : OffloadingConnectorScheduler M) : OffloadingConnectorScheduler M :=
  mkConnector (s.(config)) (s.(manager)) (s.(_sliding_window_groups)) (s.(_lookup_groups))
    (s.(_mamba_align_size)) (s.(_req_status)) (s.(_current_batch_load_jobs))
    (s.(_current_batch_jobs_to_flush)) (s.(_current_batch_allocated_block_ids))
    (s.(_blocks_being_loaded)) (s.(_job_counter)) (s.(_stale_job_threshold)) (s.(_jobs)) x.

(** [list.sort(key=..., reverse=True)], which is stable. *)
Fixpoint insert_desc (key : nat → Z) (i : nat) (l : list nat) : list nat :=
  match l with
  | [] => [i]
  | j :: l => if key i >=? key j then i :: j :: l else j :: insert_desc key i l
  end.
Definition sort_desc (key : nat → Z) (l : list nat) : list nat := foldr (insert_desc key) [] l.

Section Connector.
Context {M : Type} `{!OffloadingManager M}.
Abbreviation connector := (OffloadingConnectorScheduler M).
Implicit Types (c : connector).

Definition OffloadingConnectorScheduler_init (s : OffloadingSpec) (m : M) : result connector :=
  cfg ← SchedulerOffloadConfig_from_spec s;
  let gs := kv_group_configs cfg in
  let full := group_idx <$> filter (λ g, sliding_window_size_in_blocks g = None) gs in
  let sliding := group_idx <$> filter (λ g, sliding_window_size_in_blocks g ≠ None) gs in
  let window i := default 0 (gs !! i ≫= sliding_window_size_in_blocks) in
  let sliding := sort_desc window sliding in
  align ← resolve_mamba_align_size s;
  Ok (mkConnector cfg m sliding (full ++ sliding) align ∅ ∅ ∅ ∅ (if spec_prefix_caching s then Some ∅ else None) 0 0 ∅ ∅).

Definition _generate_job_id c : Z * connector := (_job_counter c, put_job_counter (_job_counter c + 1) c).

Definition _remove_pending_job (job_id : Z) (ids : option (list nat)) c : result connector :=
  foldM (λ c bid,
    pending ← (of_option KeyError (_block_id_to_pending_jobs c !! bid) : result (gset Z));
    _ ← require KeyError (bool_decide (job_id ∈ pending));
    let pending := pending ∖ {[ job_id ]} in
    Ok (put_block_id_to_pending_jobs
          (if decide (pending = ∅) then delete bid (_block_id_to_pending_jobs c)
           else <[bid := pending]> (_block_id_to_pending_jobs c)) c)) c (default [] ids).

(** [setdefault(bid, set()).add(job_id)] for each block. *)
Definition watch_blocks (job_id : Z) (ids : list nat) c : connector :=
  put_block_id_to_pending_jobs
    (fold_left (λ d bid, <[bid := {[ job_id ]} ∪ default ∅ (d !! bid)]> d) ids (_block_id_to_pending_jobs c)) c.

(** ** Lookup *)

Fixpoint _maximal_prefix_lookup (keys : list OffloadKey) (req : string) (hit_count : Z) (defer_lookup : bool) (m : M)
    : result (option Z * M) :=
  match keys with
  | [] => Ok (if defer_lookup then None else Some hit_count, m)
  | k :: keys =>
      '(r, m) ← mgr_lookup k req m;
      match r with
      | HIT => _maximal_prefix_lookup keys req (hit_count + 1) defer_lookup m
      | HIT_PENDING => _maximal_prefix_lookup keys req (hit_count + 1) true m
      | RETRY => _maximal_prefix_lookup keys req hit_count true m
      | MISS => Ok (if defer_lookup then None else Some hit_count, m)
      end
  end.

(** The loop over the indices from the end; [rkeys] are the keys from there to
    the start. *)
Fixpoint sliding_loop (rkeys : list OffloadKey) (window : Z) (req : string) (consecutive_hits : Z) (defer_lookup : bool) (m : M)
    : result (option Z * M) :=
  match rkeys with
  | [] => Ok (if defer_lookup then None else Some consecutive_hits, m)
  | k :: rkeys =>
      '(r, m) ← mgr_lookup k req m;
      let '(hits, defer) :=
        match r with
        | HIT => (consecutive_hits + 1, defer_lookup)
        | HIT_PENDING => (consecutive_hits + 1, true)
        | RETRY => (0, true)
        | MISS => (0, defer_lookup)
        end in
      if hits =? window then Ok (if (defer : bool) then None else Some (zlen rkeys + window), m)
      else sliding_loop rkeys window req hits defer m
  end.
Definition _sliding_window_lookup (keys : list OffloadKey) (window : Z) (req : string) (m : M) : result (option Z * M) :=
  sliding_loop (reverse keys) window req 0 false m.

Definition _touch (req : string) (rs : RequestOffloadState) c : connector :=
  put_manager (fold_left (λ m (x : GroupOffloadConfig * RequestGroupState), let '(g, st) := x in
    match sliding_window_size_in_blocks g with
    | None => mgr_touch (offload_keys st) req m
    | Some w => mgr_touch (py_from (offload_keys st) (Z.max 0 (num_hit_blocks st - w))) req m
    end) (zip (kv_group_configs (config c)) (group_states rs)) (manager c)) c.

(** The variables of the loop of [_lookup]. *)
Record LookupState := mkLookupState {
  ls_max_hit_size_tokens : Z;
  ls_num_hit_tokens : Z;
  ls_defer_lookup : bool;
  ls_lookup_groups : list nat;
  ls_eagle_verified : gset nat;
  ls_looked_up_sliding_window : bool;
}.

(** The body for one group; [None] is the early [return 0]. *)
Definition lookup_group c (req : Request) (rs : RequestOffloadState) (x : LookupState) (i : nat) (m : M)
    : result (option LookupState * M) :=
  let num_computed_tokens := num_locally_computed_tokens rs in
  g ← of_option IndexError (kv_group_configs (config c) !! i);
  st ← of_option IndexError (group_states rs !! i);
  let size := offloaded_block_size g in
  let keys := offload_keys st in
  _ ← assert_ (zlen keys >=? num_tokens req / size);
  let is_eagle_unverified := is_eagle_group g && bool_decide (i ∉ ls_eagle_verified x) in
  let max_hit_size_tokens := Z.min (ls_max_hit_size_tokens x) (zlen keys * size) in
  if max_hit_size_tokens - num_computed_tokens <? size then Ok (None, m) else
  let sliding := sliding_window_size_in_blocks g in
  let query_max := if is_eagle_unverified && bool_decide (sliding ≠ None)
                   then Z.min (max_hit_size_tokens + size) (zlen keys * size) else max_hit_size_tokens in
  let num_blocks := Z.min (cdiv query_max size) (zlen keys) in
  let start_block_idx := num_computed_tokens / size in
  let keys := py_slice keys start_block_idx num_blocks in
  '(num_hit_blocks, m) ← match sliding with
                         | None => _maximal_prefix_lookup keys (request_id req) 0 false m
                         | Some w => _sliding_window_lookup keys (if is_eagle_unverified then w + 1 else w) (request_id req) m
                         end;
  if bool_decide (num_hit_blocks = Some 0) then Ok (None, m) else
  let '(max_hit_size_tokens, defer, verified) :=
    match num_hit_blocks with
    | None => (max_hit_size_tokens, true, ls_eagle_verified x)
    | Some n =>
        let n := if is_eagle_unverified then n - 1 else n in
        (Z.min max_hit_size_tokens (size * (start_block_idx + n)), ls_defer_lookup x,
         if is_eagle_unverified then {[ i ]} ∪ ls_eagle_verified x else ls_eagle_verified x)
    end in
  let new_num_hit_tokens := max_hit_size_tokens - num_computed_tokens in
  if new_num_hit_tokens <? size then Ok (None, m) else
  let '(defer, groups, verified) :=
    if new_num_hit_tokens <? ls_num_hit_tokens x then
      let verified := if is_eagle_group g then verified else ∅ in
      if (defer : bool) then (false, _lookup_groups c, verified) else
      if ls_looked_up_sliding_window x && bool_decide (ls_lookup_groups x = []) then (defer, _sliding_window_groups c, verified)
      else (defer, ls_lookup_groups x, verified)
    else (defer, ls_lookup_groups x, verified) in
  Ok (Some (mkLookupState max_hit_size_tokens new_num_hit_tokens defer groups verified
              (ls_looked_up_sliding_window x || bool_decide (sliding ≠ None))), m).

(** The [for] loop. *)
Fixpoint lookup_pass c (req : Request) (rs : RequestOffloadState) (groups : list nat) (x : LookupState) (m : M)
    : result (option LookupState * M) :=
  match groups with
  | [] => Ok (Some x, m)
  | i :: groups =>
      '(x', m) ← lookup_group c req rs x i m;
      match x' with None => Ok (None, m) | Some x' => lookup_pass c req rs groups x' m end
  end.
(** The [while] loop. *)
Fixpoint lookup_loop (fuel : nat) c (req : Request) (rs : RequestOffloadState) (x : LookupState) (m : M)
    : result (option LookupState * M) :=
  match ls_lookup_groups x with
  | [] => Ok (Some x, m)
  | groups =>
      match fuel with
      | O => Raise OutOfFuel
      | S fuel =>
          '(x', m) ← lookup_pass c req rs groups
            (mkLookupState (ls_max_hit_size_tokens x) (ls_num_hit_tokens x) (ls_defer_lookup x) [] (ls_eagle_verified x) false) m;
          match x' with None => Ok (None, m) | Some x' => lookup_loop fuel c req rs x' m end
      end
  end.

(** Is a block of the hit already being loaded? *)
Definition hit_being_loaded c (rs : RequestOffloadState) (num_hit_tokens : Z) : bool :=
  match _blocks_being_loaded c with
  | None => false
  | Some loading =>
      existsb (λ x : GroupOffloadConfig * RequestGroupState, let '(g, st) := x in
        let num_blocks := cdiv (num_locally_computed_tokens rs + num_hit_tokens) (offloaded_block_size g) in
        let keys := py_slice (offload_keys st) (num_locally_computed_tokens rs / offloaded_block_size g) num_blocks in
        let keys := match sliding_window_size_in_blocks g with None => keys | Some w => py_from keys (- w) end in
        existsb (λ k, bool_decide (k ∈ loading)) keys) (zip (kv_group_configs (config c)) (group_states rs))
  end.

(** Enough iterations: see [ConnectorLookup.lookup_loop_ok]. *)
Definition lookup_fuel (req : Request) : nat := S (S (length (_all_token_ids req))).

Definition initial_max_hit c (req : Request) : Z :=
  match _sliding_window_groups c with
  | [] => num_tokens req
  | _ => match _mamba_align_size c with
         | None => num_tokens req - 1
         | Some size => round_down (num_tokens req - 1) size
         end
  end.
Definition _lookup (req : Request) (rs : RequestOffloadState) c : result (option Z * connector) :=
  '(x, m) ← lookup_loop (lookup_fuel req) c req rs
    (mkLookupState (initial_max_hit c req) 0 false (_lookup_groups c) ∅ false) (manager c);
  let c := put_manager m c in
  match x with
  | None => Ok (Some 0, c)
  | Some x =>
      if ls_defer_lookup x then Ok (None, c) else
      if hit_being_loaded c rs (ls_num_hit_tokens x) then Ok (None, c) else
      Ok (Some (ls_num_hit_tokens x), c)
  end.

(** ** Requests *)

Definition on_new_request (req : Request) (max_offload : option Z) c : connector :=
  let '(policy, m) := mgr_on_new_request (request_id req) (manager c) in
  put_manager m (put_req_status (<[request_id req := RequestOffloadState_init (config c) policy max_offload]> (_req_status c)) c).

Definition get_num_new_matched_tokens (req : Request) (num_computed_tokens : Z) c : result (option Z * bool * connector) :=
  rs ← of_option KeyError (_req_status c !! request_id req);
  let rs := put_group_states (put_block_ids [] <$> group_states rs) rs in
  let save rs c := put_req_status (<[request_id req := rs]> (_req_status c)) c in
  if bool_decide (transfer_jobs rs ≠ ∅) then Ok (None, false, save rs c) else
  rs ← update_offload_keys (config c) req rs;
  let rs := put_num_locally_computed_tokens num_computed_tokens rs in
  '(num_hit_tokens, c) ← (if skip_reading_prefix_cache req then Ok (Some 0, c) else _lookup req rs c);
  rs ← update_num_hit_blocks (config c) (num_computed_tokens + default 0 num_hit_tokens) rs;
  let c := _touch (request_id req) rs (save rs c) in
  Ok (num_hit_tokens, bool_decide (default 0 num_hit_tokens ≠ 0), c).

(** How many blocks hold data: up to the first real block without a hash. *)
Definition num_present (blocks : list KVCacheBlock) (num_gpu_blocks : Z) : Z :=
  match list_find (λ b, is_null b = false ∧ _block_hash b = None) (py_upto blocks num_gpu_blocks) with
  | Some (i, _) => Z.of_nat i
  | None => num_gpu_blocks
  end.

(** One group of [update_state_after_alloc]: keys to load, GPU blocks, and the
    numbers of pending and of present blocks. *)
Definition load_group c (num_local num_cached_tokens : Z) (x : GroupOffloadConfig * RequestGroupState * list KVCacheBlock)
    : result (list OffloadKey * list nat * Z * Z) :=
  let '(g, st, blocks) := x in
  let num_gpu_blocks := cdiv num_cached_tokens (gpu_block_size g) in
  _ ← assert_ (zlen blocks >=? num_gpu_blocks);
  let present := num_present blocks num_gpu_blocks in
  _ ← assert_ (num_local <=? present * gpu_block_size g);
  let pending := num_gpu_blocks - present in
  _ ← assert_ (match sliding_window_size_in_blocks g with
               | None => true
               | Some w => pending <=? w * block_size_factor (config c)
               end);
  let num_blocks := cdiv num_cached_tokens (offloaded_block_size g) in
  _ ← assert_ (zlen (offload_keys st) >=? num_blocks);
  let keys := if pending =? 0 then [] else py_slice (offload_keys st) (present / block_size_factor (config c)) num_blocks in
  Ok (keys, BlockPool.block_id <$> py_slice blocks present num_gpu_blocks, pending, present).

Definition update_state_after_alloc (req : Request) (blocks : list (list KVCacheBlock)) (num_external_tokens : Z) c : result connector :=
  if num_external_tokens =? 0 then Ok c else
  rs ← of_option KeyError (_req_status c !! request_id req);
  let num_local := num_locally_computed_tokens rs in
  let num_cached_tokens := num_local + num_external_tokens in
  let rows := zip (zip (kv_group_configs (config c)) (group_states rs)) blocks in
  loads ← mapR (load_group c num_local num_cached_tokens) rows;
  let allocated := list_to_set (filter (λ i, i ≠ 0%nat) (BlockPool.block_id <$> concat (rows.*2))) ∪ _current_batch_allocated_block_ids c in
  let advanced := (λ x : GroupOffloadConfig * RequestGroupState * list KVCacheBlock, let '(g, st, _) := x in
    if bool_decide (offload_policy rs = BLOCK_LEVEL)
    then put_next_stored_block_idx (cdiv num_cached_tokens (offloaded_block_size g)) st else st) <$> rows in
  let rs := put_group_states (advanced ++ drop (length advanced) (group_states rs)) rs in
  let keys_to_load := concat ((λ x, x.1.1.1) <$> loads) in
  '(src, m) ← mgr_prepare_load keys_to_load (request_id req) (manager c);
  dst ← GPULoadStoreSpec_init (concat ((λ x, x.1.1.2) <$> loads)) ((λ x, x.1.2) <$> loads) ((λ x, x.2) <$> loads);
  let '(job_id, c) := _generate_job_id (put_manager m (put_current_batch_allocated_block_ids allocated c)) in
  let c := put_current_batch_load_jobs (<[job_id := LoadJob (request_id req) src dst]> (_current_batch_load_jobs c)) c in
  _ ← assert_ (bool_decide (transfer_jobs rs = ∅));
  let rs := put_transfer_jobs ({[ job_id ]} ∪ transfer_jobs rs) rs in
  let c := put_req_status (<[request_id req := rs]> (_req_status c)) c in
  let status := mkJobStatus (request_id req) (num_workers (config c)) (list_to_set keys_to_load) false None None in
  let c := put_jobs (<[job_id := status]> (_jobs c)) c in
  Ok (put_blocks_being_loaded ((λ s, list_to_set keys_to_load ∪ s) <$> _blocks_being_loaded c) c).

(** ** A scheduling step *)

(** [yield_req_data]: requests with their new blocks, and whether they resume. *)
Definition yield_req_data (out : SchedulerOutput) : list (string * option (list (list nat)) * bool) :=
  ((λ r, (nr_req_id r, Some (nr_block_ids r), false)) <$> scheduled_new_reqs out) ++
  zip_with (λ id new, (id, new, bool_decide (id ∈ cr_resumed_req_ids (scheduled_cached_reqs out))))
    (cr_req_ids (scheduled_cached_reqs out)) (cr_new_block_ids (scheduled_cached_reqs out)).

(** The first loop: new keys and blocks of a request.  The map remembers how many
    blocks each sliding window group had before. *)
Definition update_req (reqs : string → Request) (x : gmap string (list Z) * connector) (y : string * option (list (list nat)) * bool)
    : result (gmap string (list Z) * connector) :=
  let '(ends, c) := x in
  let '(req_id, new_groups, preempted) := y in
  rs ← of_option KeyError (_req_status c !! req_id);
  rs ← update_offload_keys (config c) (reqs req_id) rs;
  let rs := if (preempted : bool) then put_group_states (put_block_ids [] <$> group_states rs) rs else rs in
  let save rs := put_req_status (<[req_id := rs]> (_req_status c)) c in
  match new_groups with
  | Some ((_ :: _) as new) =>
      lens ← mapR (λ i, st ← of_option IndexError (group_states rs !! i); Ok (zlen (block_ids st))) (_sliding_window_groups c);
      rs ← update_block_id_groups new rs;
      let ends := match _sliding_window_groups c with [] => ends | _ => <[req_id := lens]> ends end in
      Ok (ends, put_current_batch_allocated_block_ids
                  (list_to_set (filter (λ i, i ≠ 0%nat) (concat new)) ∪ _current_batch_allocated_block_ids c) (save rs))
  | _ => Ok (ends, save rs)
  end.

(** Blocks between two positions that were allocated in this step become 0. *)
Definition zero_range (allocated : gset nat) (start stop : Z) (ids : list nat) : list nat :=
  imap (λ j i, if (start <=? Z.of_nat j) && (Z.of_nat j <? stop) && bool_decide (i ∈ allocated) then 0%nat else i) ids.
Definition zero_stale c (ends : gmap string (list Z)) (req_id : string) (rs : RequestOffloadState) : RequestOffloadState :=
  put_group_states (imap (λ i st,
    match list_find (eq i) (_sliding_window_groups c) with
    | None => st
    | Some (n, _) =>
        let start := next_stored_block_idx st * block_size_factor (config c) in
        let stop := match ends !! req_id ≫= (.!! n) with Some e => e | None => zlen (block_ids st) end in
        put_block_ids (zero_range (_current_batch_allocated_block_ids c) start stop (block_ids st)) st
    end) (group_states rs)) rs.

Definition _update_req_states (reqs : string → Request) (out : SchedulerOutput) c : result connector :=
  '(ends, c) ← foldM (update_req reqs) (∅, c) (yield_req_data out);
  if bool_decide (_sliding_window_groups c ≠ []) && bool_decide (_current_batch_allocated_block_ids c ≠ ∅)
  then Ok (put_req_status (map_imap (λ id rs, Some (zero_stale c ends id rs)) (_req_status c)) c)
  else Ok c.

(** How many tokens of a scheduled request may be stored. *)
Definition num_offloadable_tokens c (req : Request) (rs : RequestOffloadState) (num_scheduled : Z) : Z :=
  let n := Z.min (num_computed_tokens req + num_scheduled) (num_tokens req) in
  let n := match max_offload_tokens rs with None => n | Some cap => Z.min n cap end in
  if offload_prompt_only (config c) then Z.min n (num_prompt_tokens req) else n.

(** Can block [i] serve a hit of a sliding window group? *)
Definition block_reachable (g : GroupOffloadConfig) (i : Z) : result bool :=
  match alignment_block_count g with
  | None => Ok true
  | Some n =>
      tail ← of_option AssertionError (sliding_window_size_in_blocks g);
      Ok (negb (i mod n <? n - tail))
  end.

(** The new keys of a group. *)
Definition store_group_keys c (tokens : Z) (x : GroupOffloadConfig * RequestGroupState) : result (list OffloadKey) :=
  let '(g, st) := x in
  let factor := block_size_factor (config c) in
  let num_blocks := tokens / offloaded_block_size g in
  let num_blocks := if is_eagle_group g then Z.max 0 (num_blocks - 1) else num_blocks in
  let start := next_stored_block_idx st in
  if num_blocks <=? start then Ok [] else
  let keys := py_slice (offload_keys st) start num_blocks in
  let ids := py_stride (Z.to_nat factor) 0 (py_slice (block_ids st) (start * factor + factor - 1) (num_blocks * factor)) in
  _ ← assert_ (zlen keys =? zlen ids);
  foldM (λ acc (y : nat * (OffloadKey * nat)), let '(j, (k, bid)) := y in
    if bool_decide (bid = 0%nat) then Ok acc else
    b ← block_reachable g (start + Z.of_nat j);
    Ok (if (b : bool) then acc ++ [k] else acc)) [] (imap (λ j y, (j, y)) (zip keys ids)).

(** The GPU blocks of a key that are not skipped, with their positions. *)
Definition key_blocks c (st : RequestGroupState) (i : Z) : result (list (Z * nat)) :=
  let factor := block_size_factor (config c) in
  ids ← mapR (λ j, bid ← py_get (block_ids st) j; Ok (j, bid)) (py_range (i * factor) (i * factor + factor));
  Ok (filter (λ x, x.2 ≠ 0%nat) ids).
(** The blocks of a group that a store reads, and its new state. *)
Definition store_group c (tokens : Z) (keys_to_store : gset OffloadKey) (x : GroupOffloadConfig * RequestGroupState)
    : result (list (Z * nat) * RequestGroupState) :=
  let '(g, st) := x in
  let num_blocks := tokens / offloaded_block_size g in
  let start := next_stored_block_idx st in
  bs ← mapR (λ y : nat * OffloadKey, if bool_decide (y.2 ∈ keys_to_store) then key_blocks c st (start + Z.of_nat y.1) else Ok [])
         (imap (λ j k, (j, k)) (py_slice (offload_keys st) start num_blocks));
  Ok (concat bs, put_next_stored_block_idx num_blocks st).

Definition sliding_group (g : GroupOffloadConfig) : bool := bool_decide (sliding_window_size_in_blocks g ≠ None).

(** The job of an accepted store. *)
Definition start_store_job c (req_id : string) (rs : RequestOffloadState) (tokens : Z) (out : PrepareStoreOutput)
    : result (Z * TransferJob * connector) :=
  let keys : gset OffloadKey := list_to_set (keys_to_store out) in
  let rows := zip (kv_group_configs (config c)) (group_states rs) in
  groups ← mapR (store_group c tokens keys) rows;
  let ids := (λ x : list (Z * nat) * RequestGroupState, x.1.*2) <$> groups in
  let sliding := concat ((λ x : GroupOffloadConfig * list nat, if sliding_group x.1 then x.2 else []) <$> zip (kv_group_configs (config c)) ids) in
  let others := concat ((λ x : GroupOffloadConfig * list nat, if sliding_group x.1 then [] else x.2) <$> zip (kv_group_configs (config c)) ids) in
  src ← GPULoadStoreSpec_init (concat ids) ((λ l, zlen l) <$> ids)
          ((λ x : list (Z * nat) * RequestGroupState, default 0 (head x.1.*1)) <$> groups);
  let '(job_id, c) := _generate_job_id c in
  _ ← (match elements (transfer_jobs rs) with
       | [] => Ok ()
       | j :: _ => job ← of_option KeyError (_jobs c !! j); assert_ (is_store job)
       end);
  let rs := put_transfer_jobs ({[ job_id ]} ∪ transfer_jobs rs)
              (put_group_states (groups.*2 ++ drop (length groups) (group_states rs)) rs) in
  let c := watch_blocks job_id sliding (put_req_status (<[req_id := rs]> (_req_status c)) c) in
  let status := mkJobStatus req_id (num_workers (config c)) keys true (Some others)
                  (match sliding with [] => None | _ => Some sliding end) in
  Ok (job_id, StoreJob req_id src (store_spec out), put_jobs (<[job_id := status]> (_jobs c)) c).

Definition store_request (reqs : string → Request) (x : gmap Z TransferJob * connector) (y : string * Z)
    : result (gmap Z TransferJob * connector) :=
  let '(jobs, c) := x in
  let '(req_id, num_scheduled) := y in
  match _req_status c !! req_id with
  | None => Ok (jobs, c)
  | Some rs =>
      let tokens := num_offloadable_tokens c (reqs req_id) rs num_scheduled in
      keys ← mapR (store_group_keys c tokens) (zip (kv_group_configs (config c)) (group_states rs));
      let advance c :=
        rs ← advance_stored_idx (config c) tokens rs; Ok (jobs, put_req_status (<[req_id := rs]> (_req_status c)) c) in
      match concat keys with
      | [] => advance c
      | new_offload_keys =>
          '(out, m) ← mgr_prepare_store new_offload_keys req_id (manager c);
          let c := put_manager m c in
          match out with
          | None => Ok (jobs, c)
          | Some out =>
              match keys_to_store out with
              | [] => advance c
              | _ =>
                  '(job_id, job, c) ← start_store_job (_touch req_id rs c) req_id rs tokens out;
                  Ok (<[job_id := job]> jobs, c)
              end
          end
      end
  end.
Definition _build_store_jobs (reqs : string → Request) (out : SchedulerOutput) c : result (gmap Z TransferJob * connector) :=
  foldM (store_request reqs) (∅, c) (num_scheduled_tokens out).

Record OffloadingConnectorMetadata := mkMetadata {
  load_jobs : gmap Z TransferJob;
  store_jobs : gmap Z TransferJob;
  jobs_to_flush : gset Z;
}.

(** Jobs of preempted requests. *)
Definition preempted_jobs c (req_id : string) : result (gset Z) :=
  match _req_status c !! req_id with
  | None => Ok ∅
  | Some rs =>
      match elements (transfer_jobs rs) with
      | [] => Ok ∅
      | j :: _ => job ← of_option KeyError (_jobs c !! j); _ ← assert_ (is_store job); Ok (transfer_jobs rs)
      end
  end.
(** Jobs that read a block which was allocated in this step. *)
Definition reallocated_jobs c : gset Z :=
  ⋃ ((λ bid, default ∅ (_block_id_to_pending_jobs c !! bid)) <$> elements (_current_batch_allocated_block_ids c)).

Definition build_connector_meta (reqs : string → Request) (out : SchedulerOutput) c
    : result (OffloadingConnectorMetadata * connector) :=
  c ← _update_req_states reqs out c;
  let c := put_manager (mgr_on_schedule_end (nr_req_id <$> scheduled_new_reqs out) (out_preempted_req_ids out) (manager c)) c in
  preempted ← mapR (preempted_jobs c) (elements (out_preempted_req_ids out));
  let flush := ⋃ preempted ∪ reallocated_jobs c ∪ _current_batch_jobs_to_flush c in
  '(stores, c) ← _build_store_jobs reqs out c;
  Ok (mkMetadata (_current_batch_load_jobs c) stores flush,
      put_current_batch_load_jobs ∅ (put_current_batch_jobs_to_flush ∅ (put_current_batch_allocated_block_ids ∅ c))).

Definition has_pending_push_work c : bool := bool_decide (_jobs c ≠ ∅) || mgr_has_pending_work (manager c).

(** ** Reports of the workers *)

Definition complete_job (reqs : string → Request) c (x : Z * Z) : result connector :=
  let '(job_id, count) := x in
  _ ← assert_ (count >? 0);
  if job_id <? _stale_job_threshold c then Ok c else
  job ← of_option KeyError (_jobs c !! job_id);
  let n := pending_count job - count in
  if n >? 0 then Ok (put_jobs (<[job_id := put_pending_count n job]> (_jobs c)) c) else
  _ ← assert_ (n =? 0);
  rs ← of_option KeyError (_req_status c !! job_req_id job);
  c ← (if is_store job then
         m ← mgr_complete_store (elements (job_keys job)) (job_req_id job) (manager c); Ok (put_manager m c)
       else
         m ← mgr_complete_load (elements (job_keys job)) (job_req_id job) (manager c);
         Ok (put_blocks_being_loaded ((λ s, s ∖ job_keys job) <$> _blocks_being_loaded c) (put_manager m c)));
  let finished := is_finished (reqs (job_req_id job)) in
  c ← (if bool_decide (_block_id_to_pending_jobs c ≠ ∅) then
         c ← _remove_pending_job job_id (sliding_window_block_ids job) c;
         if (finished : bool) then _remove_pending_job job_id (non_sliding_window_block_ids job) c else Ok c
       else Ok c);
  let c := put_jobs (delete job_id (_jobs c)) c in
  _ ← require KeyError (bool_decide (job_id ∈ transfer_jobs rs));
  let rs := put_transfer_jobs (transfer_jobs rs ∖ {[ job_id ]}) rs in
  Ok (put_req_status (if bool_decide (transfer_jobs rs = ∅) && finished then delete (job_req_id job) (_req_status c)
                      else <[job_req_id job := rs]> (_req_status c)) c).
Definition update_connector_output (reqs : string → Request) (completed_jobs : list (Z * Z)) c : result connector :=
  foldM (complete_job reqs) c completed_jobs.

Definition request_finished (req : Request) c : result connector :=
  match _req_status c !! request_id req with
  | None => Ok (put_manager (mgr_on_request_finished (request_id req) (mgr_on_new_request (request_id req) (manager c)).2) c)
  | Some rs =>
      let c := put_manager (mgr_on_request_finished (request_id req) (manager c)) c in
      match elements (transfer_jobs rs) with
      | [] => Ok (put_req_status (delete (request_id req) (_req_status c)) c)
      | jobs => foldM (λ c job_id, job ← of_option KeyError (_jobs c !! job_id);
                        Ok (watch_blocks job_id (default [] (non_sliding_window_block_ids job)) c)) c jobs
      end
  end.

Definition connector_reset_cache (reqs : string → Request) c : result connector :=
  _ ← assert_ (bool_decide (_current_batch_load_jobs c = ∅));
  _ ← assert_ (bool_decide (_current_batch_jobs_to_flush c = ∅));
  _ ← assert_ (bool_decide (_current_batch_allocated_block_ids c = ∅));
  let active := filter (λ x, is_finished (reqs x.1) = false) (_req_status c) in
  let restarted := (λ rs, put_group_states (put_next_stored_block_idx 0 <$> group_states rs) rs) <$> active in
  Ok (mkConnector (config c) (mgr_reset_cache (manager c)) (_sliding_window_groups c) (_lookup_groups c) (_mamba_align_size c)
        restarted ∅ (dom (_jobs c)) ∅ ((λ _, ∅) <$> _blocks_being_loaded c) (_job_counter c) (_job_counter c) ∅ ∅).

End Connector.
