(* ===== verification/ConnectorSpec.v ===== *)
(** * What the connector assumes of an offloading manager

    A manager has a status for every key, which a lookup returns, and keeps track
    of the loads that run.  The CPU manager meets this with any cache policy. *)

From S2P Require Import Prelude PyDict Request BlockHash BlockPool SchedState KVSpec Offload OffloadPolicy OffloadArc.
From S2P Require Import OffloadInv OffloadSession OffloadConnector.

Local Open Scope Z_scope.

Class OffloadingManagerSpec (M : Type) `{!OffloadingManager M} := {
  mgr_inv : M → list OffloadKey → Prop;
  mgr_status : M → OffloadKey → LookupResult;
  mgr_inv_perm m l l' : l ≡ₚ l' → mgr_inv m l → mgr_inv m l';
  mgr_lookup_ok m l k req : mgr_inv m l →
    ∃ m', mgr_lookup k req m = Ok (mgr_status m k, m') ∧ mgr_inv m' l ∧ ∀ k', mgr_status m' k' = mgr_status m k';
  mgr_touch_ok m l keys req : mgr_inv m l →
    mgr_inv (mgr_touch keys req m) l ∧ ∀ k, mgr_status (mgr_touch keys req m) k = mgr_status m k;
  mgr_prepare_load_ok m l keys req : mgr_inv m l → Forall (λ k, mgr_status m k = HIT) keys → zlen (keys ++ l) < 2 ^ 31 →
    ∃ ids m', mgr_prepare_load keys req m = Ok (ids, m') ∧ mgr_inv m' (keys ++ l);
  mgr_complete_load_ok m l keys req : mgr_inv m (keys ++ l) → ∃ m', mgr_complete_load keys req m = Ok m' ∧ mgr_inv m' l;
  mgr_prepare_store_ok m l keys req : mgr_inv m l → NoDup keys →
    ∃ out m', mgr_prepare_store keys req m = Ok (out, m') ∧ mgr_inv m' l ∧
      ∀ o, out = Some o → keys_to_store o ⊆ keys;
  mgr_complete_store_ok m l keys req : mgr_inv m l → ∃ m', mgr_complete_store keys req m = Ok m' ∧ mgr_inv m' l;
  mgr_reset_ok m l : mgr_inv m l → mgr_inv (mgr_reset_cache m) [];
  mgr_new_ok m l req : mgr_inv m l → mgr_inv (mgr_on_new_request req m).2 l;
  mgr_end_ok m l new preempted : mgr_inv m l → mgr_inv (mgr_on_schedule_end new preempted m) l;
  mgr_finished_ok m l req : mgr_inv m l → mgr_inv (mgr_on_request_finished req m) l;
}.

(** ** The CPU manager *)

Section CPU.
Context {P : Type} `{!CachePolicy P, !CachePolicySpec P}.
Implicit Types (s : CPUOffloadingManager P).

Lemma status_policy N s loads m k : session_inv N s loads m → lookup_result (policy_get k (_policy s)) = lookup_result (m !! k).
Proof. intros H. by rewrite (inv_get _ _ k (session_manager _ _ _ H)). Qed.

Lemma same_status N s s' loads loads' m k : session_inv N s loads m → session_inv N s' loads' m →
  lookup_result (policy_get k (_policy s')) = lookup_result (policy_get k (_policy s)).
Proof. intros H H'. by rewrite (status_policy _ _ _ _ _ H), (status_policy _ _ _ _ _ H'). Qed.

Lemma readable_hit m k : lookup_result (m !! k) = HIT → readable m k.
Proof. intros H. destruct (m !! k) as [b|] eqn:E; [|done]. exists b. split; [done|]. cbn in H. by destruct (is_ready b). Qed.

#[export] Instance cpu_manager_spec : OffloadingManagerSpec (CPUOffloadingManager P).
Proof.
  refine {| mgr_inv s l := ∃ N m, session_inv N s l m; mgr_status s k := lookup_result (policy_get k (_policy s)) |}.
  - intros s l l' Hp (N & m & H). exists N, m. by eapply session_perm.
  - intros s l k req (N & m & H). destruct (offload_lookup_ok s m k (session_manager _ _ _ H)) as (s' & Hs & Hi).
    assert (session_inv N s' l m) as H' by (destruct H; by split). exists s'. rewrite (status_policy _ _ _ _ _ H).
    split; [exact Hs|]. split; [eauto|]. intros k'. by eapply same_status.
  - intros s l keys req (N & m & H). assert (session_inv N (touch keys s) l m) as H' by (destruct H; split; [by apply touch_inv|done|done]).
    split; [eauto|]. intros k'. by eapply same_status.
  - intros s l keys req (N & m & H) Hk Hn. destruct (prepare_load_session s m l keys H) as (ids & s' & m' & Hs & Hi & _); [|done|].
    + eapply Forall_impl; [exact Hk|]. intros k. cbn. rewrite (status_policy _ _ _ _ _ H). apply readable_hit.
    + exists ids, s'. split; [exact Hs|]. exists N, m'. eapply session_perm, Hi. by rewrite reverse_Permutation.
  - intros s l keys req (N & m & H). destruct (complete_load_session s m l keys H) as (s' & m' & Hs & Hi & _). eauto.
  - intros s l keys req (N & m & H) Hnd. destruct (prepare_store_session s m l keys H Hnd) as (r & s' & m' & Hs & Hi & Hr).
    exists r, s'. split; [exact Hs|]. split; [eauto|]. intros o ->. destruct Hr as [Hp _]. rewrite (prepared_keys _ _ _ _ Hp).
    intros k [_ Hk]%list_elem_of_filter. unfold store_wanted in Hk. destruct (counts s); [|done]. by apply list_elem_of_filter in Hk as [_ ?].
  - intros s l keys req (N & m & H). destruct (complete_store_session s m l keys true H) as (s' & Hs & Hi). eauto.
  - intros s l (N & m & H). exists N, ∅. destruct H. split; [by eapply reset_inv|by intros k|done].
  - done.
  - done.
  - done.
Defined.
End CPU.
