(* ===== verification/ConnectorLookup.v ===== *)
(** * Which offloaded blocks a request can load

    The search of the connector over all KV cache groups ends, and the tokens it
    returns are covered by hits in every group: every block of a full-attention
    group and the last window of a sliding window group. *)

From S2P Require Import Prelude MathUtils PyDict Request BlockHash BlockPool SchedState KVSpec Offload.
From S2P Require Import OffloadConnector ConnectorSpec.

Local Open Scope Z_scope.

Section Lookup.
Context {M : Type} `{!OffloadingManager M, !OffloadingManagerSpec M}.
Abbreviation connector := (OffloadingConnectorScheduler M).
Implicit Types (c : connector) (m : M) (l : list OffloadKey) (keys : list OffloadKey).

(** The manager after lookups. *)
Definition looked_up m l m' : Prop := mgr_inv m' l ∧ ∀ k, mgr_status m' k = mgr_status m k.
Lemma looked_up_refl m l : mgr_inv m l → looked_up m l m.
Proof. by split. Qed.
Lemma looked_up_trans m l m' m'' : looked_up m l m' → looked_up m' l m'' → looked_up m l m''.
Proof. intros [_ H1] [H2 H3]. split; [done|]. intros k. by rewrite H3, H1. Qed.

(** Key [j] of a list is a hit. *)
Definition hit_at m keys (j : Z) : Prop := ∃ k, keys !! Z.to_nat j = Some k ∧ mgr_status m k = HIT.
Definition miss_at m keys (j : Z) : Prop := ∃ k, keys !! Z.to_nat j = Some k ∧ mgr_status m k = MISS.

Lemma hit_at_same m m' keys j : (∀ k, mgr_status m' k = mgr_status m k) → hit_at m' keys j ↔ hit_at m keys j.
Proof. intros H. unfold hit_at. by setoid_rewrite H. Qed.
Lemma miss_at_same m m' keys j : (∀ k, mgr_status m' k = mgr_status m k) → miss_at m' keys j ↔ miss_at m keys j.
Proof. intros H. unfold miss_at. by setoid_rewrite H. Qed.

(** The prefix lookup counts the hits before the first miss. *)
Lemma prefix_lookup_spec keys req h d m l : mgr_inv m l →
  ∃ r m', _maximal_prefix_lookup keys req h d m = Ok (r, m') ∧ looked_up m l m' ∧
    ∀ n, r = Some n → d = false ∧ h ≤ n ≤ h + zlen keys ∧ (∀ j, 0 ≤ j < n - h → hit_at m keys j) ∧
      (n < h + zlen keys → miss_at m keys (n - h)).
Proof.
  revert h d m. induction keys as [|k keys IH]; intros h d m Hi; cbn [_maximal_prefix_lookup].
  { eexists _, m. split; [done|]. split; [by apply looked_up_refl|]. intros n Hn. destruct d; simplify_eq. cbn.
    split; [done|]. split; [lia|]. split; intros; lia. }
  destruct (mgr_lookup_ok m l k req Hi) as (m1 & -> & Hi1 & Hs1). rewrite bind_ret. cbv beta iota.
  assert (looked_up m l m1) as Hl1 by done.
  destruct (mgr_status m k) eqn:E.
  - eexists _, m1. split; [done|]. split; [done|]. intros n Hn. destruct d; simplify_eq. cbn [length].
    split; [done|]. split; [lia|]. split; [lia|]. intros _. exists k. by rewrite Z.sub_diag.
  - destruct (IH (h + 1) d m1 Hi1) as (r & m2 & -> & Hl2 & Hn). eexists _, m2. split; [done|].
    split; [by eapply looked_up_trans|]. intros n Hr. destruct (Hn n Hr) as (Hd & Hb & Hh & Hm). cbn [length].
    split; [done|]. split; [lia|]. split.
    + intros j Hj. destruct (decide (j = 0)) as [->|Hne]; [by exists k|].
      destruct (proj1 (hit_at_same m m1 keys (j - 1) Hs1) (Hh (j - 1) ltac:(lia))) as (k' & Hk' & Hs). exists k'. split; [|done].
      replace (Z.to_nat j) with (S (Z.to_nat (j - 1))) by lia. done.
    + intros Hlt. destruct (proj1 (miss_at_same m m1 keys _ Hs1) (Hm ltac:(lia))) as (k' & Hk' & Hs). exists k'. split; [|done].
      replace (Z.to_nat (n - h)) with (S (Z.to_nat (n - (h + 1)))) by lia. done.
  - destruct (IH (h + 1) true m1 Hi1) as (r & m2 & -> & Hl2 & Hn). eexists _, m2. split; [done|].
    split; [by eapply looked_up_trans|]. intros n Hr. by destruct (Hn n Hr).
  - destruct (IH h true m1 Hi1) as (r & m2 & -> & Hl2 & Hn). eexists _, m2. split; [done|].
    split; [by eapply looked_up_trans|]. intros n Hr. by destruct (Hn n Hr).
Qed.

(** The loop from the end: [front] is still to be looked at, and the keys behind
    it start with [hits] hits. *)
Lemma sliding_loop_spec front suffix w req hits d m l : mgr_inv m l → 0 ≤ hits < w → hits ≤ zlen suffix →
  (d = false → ∀ j, zlen front ≤ j < zlen front + hits → hit_at m (front ++ suffix) j) →
  ∃ r m', sliding_loop (reverse front) w req hits d m = Ok (r, m') ∧ looked_up m l m' ∧
    ∀ n, r = Some n → d = false ∧ 0 ≤ n ≤ zlen front + hits ∧
      (∀ j, Z.max 0 (n - w) ≤ j < n → hit_at m (front ++ suffix) j) ∧
      ∀ n', n < n' ≤ zlen front + hits → ∃ j, Z.max 0 (n' - w) ≤ j < n' ∧ miss_at m (front ++ suffix) j.
Proof.
  revert suffix hits d m. induction front as [|k front IH] using rev_ind; intros suffix hits d m Hi Hw Hs Hh.
  { cbn. eexists _, m. split; [done|]. split; [by apply looked_up_refl|]. intros n Hn. destruct d; simplify_eq.
    split; [done|]. split; [lia|]. split; [|lia]. intros j Hj. apply (Hh eq_refl j). cbn. lia. }
  rewrite reverse_app. cbn [reverse rev_append app sliding_loop]. rewrite <- (app_assoc front).
  rewrite length_app in Hh |- *. cbn [length] in Hh |- *. rewrite <- (app_assoc front) in Hh. cbn [app] in Hh |- *.
  destruct (mgr_lookup_ok m l k req Hi) as (m1 & Hlk & Hi1 & Hs1).
  assert (looked_up m l m1) as Hl1 by done.
  assert (∀ j, hit_at m1 (front ++ k :: suffix) j ↔ hit_at m (front ++ k :: suffix) j) as Hhs by (intros; by apply hit_at_same).
  assert (∀ j, miss_at m1 (front ++ k :: suffix) j ↔ miss_at m (front ++ k :: suffix) j) as Hms by (intros; by apply miss_at_same).
  assert ((front ++ k :: suffix) !! Z.to_nat (zlen front) = Some k) as Hk by (rewrite Nat2Z.id; by rewrite list_lookup_middle).
  assert (∀ hits' d', 0 ≤ hits' < w → hits' ≤ 1 + zlen suffix →
    (d' = false → ∀ j, zlen front ≤ j < zlen front + hits' → hit_at m (front ++ k :: suffix) j) →
    ∃ r m', sliding_loop (reverse front) w req hits' d' m1 = Ok (r, m') ∧ looked_up m l m' ∧
      ∀ n, r = Some n → d' = false ∧ 0 ≤ n ≤ zlen front + hits' ∧
        (∀ j, Z.max 0 (n - w) ≤ j < n → hit_at m (front ++ k :: suffix) j) ∧
        ∀ n', n < n' ≤ zlen front + hits' → ∃ j, Z.max 0 (n' - w) ≤ j < n' ∧ miss_at m (front ++ k :: suffix) j) as Hrec.
  { intros hits' d' Hw' Hs' Hh'. destruct (IH (k :: suffix) hits' d' m1 Hi1 Hw') as (r & m2 & -> & Hl2 & Hn).
    { cbn [length]. lia. }
    { intros Hd j Hj. apply Hhs. by apply Hh'. }
    exists r, m2. split; [done|]. split; [by eapply looked_up_trans|]. intros n Hr. destruct (Hn n Hr) as (Hd & Hb & Ha & Hx).
    split; [done|]. split; [done|]. split; [intros j Hj; by apply Hhs, Ha|].
    intros n' Hn'. destruct (Hx n' Hn') as (j & Hj & Hm). exists j. split; [done|by apply Hms]. }
  clear IH. rewrite Hlk, bind_ret. cbv beta iota.
  destruct (mgr_status m k) eqn:E; cbv beta iota zeta.
  - rewrite (proj2 (Z.eqb_neq 0 w)) by lia. destruct (Hrec 0 d) as (r & m2 & -> & Hl2 & Hn); [lia|lia|lia|].
    exists r, m2. split; [done|]. split; [done|]. intros n Hr. destruct (Hn n Hr) as (Hd & Hb & Ha & Hx).
    split; [done|]. split; [lia|]. split; [done|]. intros n' Hn'.
    destruct (decide (n' ≤ zlen front)); [apply Hx; lia|]. exists (zlen front). split; [lia|]. by exists k.
  - assert (d = false → ∀ j, zlen front ≤ j < zlen front + (hits + 1) → hit_at m (front ++ k :: suffix) j) as Hh'.
    { intros Hd j Hj. destruct (decide (j = zlen front)) as [->|Hne]; [by exists k|]. apply Hh; [done|lia]. }
    assert (length (reverse front) = length front) as Hrl by apply length_reverse. rewrite Hrl.
    destruct (Z.eqb_spec (hits + 1) w) as [Hew|Hew].
    + eexists _, m1. split; [done|]. split; [done|]. intros n Hr. destruct d; simplify_eq.
      split; [done|]. split; [lia|]. split; [|lia]. intros j Hj. apply Hh'; [done|lia].
    + destruct (Hrec (hits + 1) d) as (r & m2 & -> & Hl2 & Hn); [lia|lia|done|].
      exists r, m2. split; [done|]. split; [done|]. intros n Hr. destruct (Hn n Hr) as (Hd & Hb & Ha & Hx).
      split; [done|]. split; [lia|]. split; [done|]. intros n' Hn'. apply Hx. lia.
  - destruct (Z.eqb_spec (hits + 1) w) as [Hew|Hew]; [by eexists _, m1|].
    destruct (Hrec (hits + 1) true) as (r & m2 & -> & Hl2 & Hn); [lia|lia|done|].
    exists r, m2. split; [done|]. split; [done|]. intros n Hr. by destruct (Hn n Hr).
  - rewrite (proj2 (Z.eqb_neq 0 w)) by lia. destruct (Hrec 0 true) as (r & m2 & -> & Hl2 & Hn); [lia|lia|lia|].
    exists r, m2. split; [done|]. split; [done|]. intros n Hr. by destruct (Hn n Hr).
Qed.
Lemma sliding_lookup_spec keys w req m l : mgr_inv m l → 0 < w →
  ∃ r m', _sliding_window_lookup keys w req m = Ok (r, m') ∧ looked_up m l m' ∧
    ∀ n, r = Some n → 0 ≤ n ≤ zlen keys ∧ (∀ j, Z.max 0 (n - w) ≤ j < n → hit_at m keys j) ∧
      ∀ n', n < n' ≤ zlen keys → ∃ j, Z.max 0 (n' - w) ≤ j < n' ∧ miss_at m keys j.
Proof.
  intros Hi Hw. unfold _sliding_window_lookup.
  destruct (sliding_loop_spec keys [] w req 0 false m l Hi) as (r & m' & -> & Hl & Hn); [lia|cbn; lia|lia|].
  rewrite app_nil_r in Hn. exists r, m'. split; [done|]. split; [done|]. intros n Hr. destruct (Hn n Hr) as (_ & Hb & Hh & Hx).
  rewrite Z.add_0_r in *. done.
Qed.

(** ** One group *)

Context (c : connector) (req : Request) (rs : RequestOffloadState) (m0 : M) (l : list OffloadKey).
Abbreviation comp := (num_locally_computed_tokens rs).

(** Are the keys from [comp] to [T] tokens that the group needs hits? *)
Definition group_covered (T : Z) (g : GroupOffloadConfig) (st : RequestGroupState) : Prop :=
  let start := comp / offloaded_block_size g in
  let stop := cdiv T (offloaded_block_size g) in
  ∀ j, match sliding_window_size_in_blocks g with None => start | Some w => Z.max start (stop - w) end ≤ j < stop →
    hit_at m0 (offload_keys st) j.
Definition is_full (i : nat) : Prop := ∃ g, kv_group_configs (config c) !! i = Some g ∧ sliding_window_size_in_blocks g = None.
Definition covered (T : Z) (i : nat) : Prop :=
  ∀ g st, kv_group_configs (config c) !! i = Some g → group_states rs !! i = Some st → group_covered T g st.

(** A group the search can handle. *)
Record group_ok (i : nat) (g : GroupOffloadConfig) (st : RequestGroupState) : Prop := {
  group_config : kv_group_configs (config c) !! i = Some g;
  group_state : group_states rs !! i = Some st;
  group_size : 0 < offloaded_block_size g;
  group_window w : sliding_window_size_in_blocks g = Some w → 0 < w;
  group_no_eagle : is_eagle_group g = false;
  group_keys : num_tokens req / offloaded_block_size g ≤ zlen (offload_keys st);
  group_listed : i ∈ _lookup_groups c;
  group_sliding : sliding_window_size_in_blocks g ≠ None → i ∈ _sliding_window_groups c;
}.

Lemma py_clip_id n i : 0 ≤ i ≤ n → py_clip n i = i.
Proof. intros H. unfold py_clip. rewrite (proj2 (Z.ltb_ge i 0)) by lia. lia. Qed.
Lemma hit_at_slice keys a b j : 0 ≤ a ≤ b → b ≤ zlen keys → 0 ≤ j < b - a →
  hit_at m0 (py_slice keys a b) j ↔ hit_at m0 keys (a + j).
Proof.
  intros Ha Hb Hj. unfold hit_at, py_slice. rewrite !py_clip_id by lia.
  rewrite lookup_take_lt, lookup_drop by lia. by replace (Z.to_nat a + Z.to_nat j)%nat with (Z.to_nat (a + j)) by lia.
Qed.
Lemma length_slice {A} (keys : list A) a b : 0 ≤ a ≤ b → b ≤ zlen keys → zlen (py_slice keys a b) = b - a.
Proof. intros Ha Hb. unfold py_slice. rewrite !py_clip_id by lia. rewrite length_take, length_drop. lia. Qed.

Lemma covered_full T T' i : is_full i → (∀ g, kv_group_configs (config c) !! i = Some g → 0 < offloaded_block_size g) →
  T' ≤ T → covered T i → covered T' i.
Proof.
  intros (g & Hg & Hf) Hs HT H g' st Hg' Hst. assert (g' = g) as -> by congruence. specialize (H g st Hg Hst). specialize (Hs g Hg).
  unfold group_covered in *. rewrite Hf in *. intros j Hj. apply H. pose proof (cdiv_mono T' T _ Hs HT). lia.
Qed.

(** What a lookup of a group tells: it is deferred, or the group is covered. *)
Definition group_step (x x' : LookupState) (i : nat) (g : GroupOffloadConfig) : Prop :=
  let T' := ls_max_hit_size_tokens x' in
  T' ≤ ls_max_hit_size_tokens x ∧ ls_num_hit_tokens x' = T' - comp ∧ 0 < ls_num_hit_tokens x' ∧
  ls_looked_up_sliding_window x' = ls_looked_up_sliding_window x || bool_decide (sliding_window_size_in_blocks g ≠ None) ∧
  ∃ d : bool, (ls_defer_lookup x = true → d = true) ∧ (d = false → covered T' i) ∧
    if T' - comp <? ls_num_hit_tokens x then
      ls_defer_lookup x' = false ∧
      ls_lookup_groups x' = if d then _lookup_groups c else
        if ls_looked_up_sliding_window x && bool_decide (ls_lookup_groups x = []) then _sliding_window_groups c else ls_lookup_groups x
    else ls_defer_lookup x' = d ∧ ls_lookup_groups x' = ls_lookup_groups x.

(** The hits of a lookup, as a multiple of the block size. *)
Lemma lookup_group_hits g st start stop m :
  looked_up m0 l m → (∀ w, sliding_window_size_in_blocks g = Some w → 0 < w) → 0 ≤ start < stop → stop ≤ zlen (offload_keys st) →
  0 < offloaded_block_size g → start = comp / offloaded_block_size g →
  let sub := py_slice (offload_keys st) start stop in
  ∃ r m', match sliding_window_size_in_blocks g with
      | None => _maximal_prefix_lookup sub (request_id req) 0 false m
      | Some w => _sliding_window_lookup sub w (request_id req) m
      end = Ok (r, m') ∧ looked_up m0 l m' ∧
    ∀ n, r = Some n → 0 ≤ n ≤ zlen sub ∧ group_covered (offloaded_block_size g * (start + n)) g st.
Proof.
  intros Hl Hw Hst Hstop Hsize Hstart sub. pose proof Hl as [Hi Hs].
  assert (zlen sub = stop - start) as Hlen by (apply length_slice; lia).
  assert (∀ n j, 0 ≤ n ≤ stop - start → start ≤ j < start + n → hit_at m sub (j - start) → hit_at m0 (offload_keys st) j) as Hsub.
  { intros n j Hn Hj H. apply (hit_at_same m0 m) in H; [|done]. unfold sub in H. rewrite hit_at_slice in H by lia.
    by replace (start + (j - start)) with j in H by lia. }
  unfold group_covered. rewrite <- Hstart. destruct (sliding_window_size_in_blocks g) as [w|] eqn:Esw.
  - destruct (sliding_lookup_spec sub w (request_id req) m l Hi (Hw w eq_refl)) as (r & m' & -> & Hl' & Hn).
    exists r, m'. split; [done|]. split; [by eapply looked_up_trans|]. intros n Hr. destruct (Hn n Hr) as (Hb & Hh & _).
    split; [done|]. rewrite (Z.mul_comm _ (start + n)), cdiv_mul by done. intros j Hj. apply (Hsub n); [lia|lia|]. apply Hh. lia.
  - destruct (prefix_lookup_spec sub (request_id req) 0 false m l Hi) as (r & m' & -> & Hl' & Hn).
    exists r, m'. split; [done|]. split; [by eapply looked_up_trans|]. intros n Hr. destruct (Hn n Hr) as (_ & Hb & Hh & _).
    split; [lia|]. rewrite (Z.mul_comm _ (start + n)), cdiv_mul by done. intros j Hj. apply (Hsub n); [lia|lia|]. apply Hh. lia.
Qed.

Ltac end_step d :=
  eexists _, _; split; [reflexivity|]; split; [done|]; intros x' [= <-]; unfold group_step; cbn;
  split; [done|]; split; [done|]; split; [done|]; split; [done|]; exists d;
  repeat match goal with H : _ = _ :> bool |- _ => rewrite H end; by repeat split.

Lemma lookup_group_ok x i g st m : looked_up m0 l m → group_ok i g st → 0 ≤ comp →
  ∃ r m', lookup_group c req rs x i m = Ok (r, m') ∧ looked_up m0 l m' ∧ ∀ x', r = Some x' → group_step x x' i g.
Proof.
  intros Hl [Hg Hst Hsize Hw Heagle Hkeys _ _] Hcomp. unfold lookup_group. rewrite Hg, Hst. cbn [of_option]. rewrite !bind_ret.
  rewrite (proj2 (Z.geb_le _ _)) by lia. cbn [assert_ require]. rewrite bind_ret. cbv zeta. rewrite Heagle. cbn [andb].
  set (size := offloaded_block_size g) in *. set (keys := offload_keys st) in *.
  set (T1 := Z.min (ls_max_hit_size_tokens x) (zlen keys * size)).
  destruct (Z.ltb_spec (T1 - comp) size) as [|Hroom]; [by exists None, m|].
  assert (T1 ≤ zlen keys * size) as HT1 by lia.
  assert (cdiv T1 size ≤ zlen keys) as Hcd. { pose proof (cdiv_mono T1 (zlen keys * size) size Hsize HT1) as H. by rewrite cdiv_mul in H. }
  rewrite Z.min_l by lia. set (start := comp / size).
  assert (0 ≤ start ∧ start < cdiv T1 size) as [Hst0 Hst1].
  { pose proof (cdiv_bounds T1 size Hsize). unfold start. split; [apply Z.div_pos; lia|].
    apply Z.div_lt_upper_bound; [done|]. lia. }
  set (sub := py_slice keys start (cdiv T1 size)).
  assert (zlen sub = cdiv T1 size - start) as Hlen by (apply length_slice; lia).
  assert (∃ r m', match sliding_window_size_in_blocks g with
      | None => _maximal_prefix_lookup sub (request_id req) 0 false m
      | Some w => _sliding_window_lookup sub w (request_id req) m
      end = Ok (r, m') ∧ looked_up m0 l m' ∧
      ∀ n, r = Some n → 0 ≤ n ≤ zlen sub ∧ group_covered (size * (start + n)) g st) as (r & m' & Hlook & Hl' & Hn).
  { by apply lookup_group_hits. }
  rewrite Hlook, bind_ret. cbv beta iota. case_bool_decide as Hr0; [by exists None, m'|].
  destruct r as [n|]; cbv beta iota zeta.
  - destruct (Hn n eq_refl) as [Hb Hcov]. set (T2 := Z.min T1 (size * (start + n))).
    assert (cdiv T2 size = start + n) as HT2.
    { unfold T2. destruct (Z.le_ge_cases T1 (size * (start + n))) as [Hle|Hle].
      - rewrite Z.min_l by done. pose proof (cdiv_mono T1 ((start + n) * size) size Hsize ltac:(lia)) as H. rewrite cdiv_mul in H by done. lia.
      - rewrite Z.min_r, Z.mul_comm by done. by apply cdiv_mul. }
    assert (covered T2 i) as HcovT.
    { intros g' st' Hg' Hst'. simplify_eq. unfold group_covered in *. fold size in Hcov |- *. rewrite HT2.
      rewrite (Z.mul_comm size), cdiv_mul in Hcov by done. done. }
    destruct (Z.ltb_spec (T2 - comp) size) as [|Hroom2]; [by exists None, m'|].
    assert (T2 ≤ ls_max_hit_size_tokens x) as HTle by lia. assert (0 < T2 - comp) as Hpos by lia.
    destruct (T2 - comp <? ls_num_hit_tokens x) eqn:Et; [destruct (ls_defer_lookup x) eqn:Ed;
      [|destruct (ls_looked_up_sliding_window x && bool_decide (ls_lookup_groups x = [])) eqn:Eg]|]; end_step (ls_defer_lookup x).
  - destruct (Z.ltb_spec (T1 - comp) size) as [|Hroom2]; [by exists None, m'|].
    assert (T1 ≤ ls_max_hit_size_tokens x) as HTle by lia. assert (0 < T1 - comp) as Hpos by lia.
    destruct (T1 - comp <? ls_num_hit_tokens x) eqn:Et; end_step true.
Qed.
(** ** One pass over the groups *)

Definition searchable (i : nat) : Prop := ∃ g st, group_ok i g st.
Abbreviation all := (_lookup_groups c).
Abbreviation sliding := (_sliding_window_groups c).

(** Every group can be searched, and is full or a sliding window group. *)
Record groups_ok : Prop := {
  groups_searchable : Forall searchable all;
  groups_sliding : Forall (λ i, i ∈ all) sliding;
  groups_comp : 0 ≤ comp;
}.

(** What is known of the groups of [done] unless the lookup is deferred. *)
Definition known (T : Z) (next done : list nat) : Prop :=
  match next with
  | [] => Forall (covered T) done
  | _ => next = all ∨ next = sliding ∧ ∀ i, i ∈ done → is_full i → covered T i
  end.
Record pass_inv (x : LookupState) (done : list nat) : Prop := {
  pass_done : Forall searchable done;
  pass_num : done = [] ∨ ls_num_hit_tokens x = ls_max_hit_size_tokens x - comp;
  pass_full : ls_looked_up_sliding_window x = false → Forall is_full done;
  pass_some : ls_looked_up_sliding_window x = true → sliding ≠ [];
  pass_next : ls_lookup_groups x = [] ∨ ls_lookup_groups x = all ∨ ls_lookup_groups x = sliding;
  pass_known : ls_defer_lookup x = false → known (ls_max_hit_size_tokens x) (ls_lookup_groups x) done;
}.

Lemma searchable_size i g : searchable i → kv_group_configs (config c) !! i = Some g → 0 < offloaded_block_size g.
Proof. intros (g' & st & H) Hg. destruct H as [Hg' _ Hs _ _ _ _ _]. by simplify_eq. Qed.
Lemma covered_less T T' i : searchable i → is_full i → T' ≤ T → covered T i → covered T' i.
Proof. intros Hs. intros Hf HT. apply covered_full; [done| |done]. intros g. by apply searchable_size. Qed.

(** What is known of full groups survives a smaller bound. *)
Lemma known_less T T' next done : Forall searchable done → (next = [] → Forall is_full done) → T' ≤ T →
  known T next done → known T' next done.
Proof.
  intros Hs Hf HT. unfold known. rewrite Forall_forall in Hs. destruct next as [|i next].
  - specialize (Hf eq_refl). rewrite !Forall_forall in *. intros H i Hi. apply (covered_less T); auto.
  - intros [?|[? H]]; [by left|]. right. split; [done|]. intros j Hj Hjf. apply (covered_less T); auto.
Qed.
Lemma known_cons T next done i : covered T i → known T next done → known T next (i :: done).
Proof.
  intros Hi. unfold known. destruct next; [intros; by constructor|]. intros [?|[? H]]; [by left|]. right. split; [done|].
  intros j [->|Hj]%elem_of_cons; [done|]. by apply H.
Qed.

Lemma pass_step x x' done i g st : pass_inv x done → group_ok i g st → group_step x x' i g → pass_inv x' (i :: done).
Proof.
  intros [Hd Hn Hf Hso Hnext Hk] Hg (HT & Hnum & _ & Hlook & d & Hdd & Hcov & Hcase).
  assert (all ≠ []) as Hall by (intros E; pose proof (group_listed _ _ _ Hg) as H; rewrite E in H; by apply not_elem_of_nil in H).
  assert (searchable i) as Hsi by (by eexists _, _).
  assert (d = false → ls_defer_lookup x = false) as Hdx by (destruct (ls_defer_lookup x); naive_solver).
  split.
  - by constructor.
  - by right.
  - rewrite Hlook. intros [Hx Hs]%orb_false_iff. apply bool_decide_eq_false in Hs. constructor; [|by apply Hf].
    exists g. split; [apply Hg|]. destruct (sliding_window_size_in_blocks g); [by destruct Hs|done].
  - rewrite Hlook. intros [Hx|Hs]%orb_true_iff; [by apply Hso|]. apply bool_decide_eq_true in Hs.
    intros E. pose proof (group_sliding _ _ _ Hg Hs) as H. rewrite E in H. by apply not_elem_of_nil in H.
  - destruct (_ <? _) eqn:Et; destruct Hcase as [_ ->]; [|done]. destruct d; [by right; left|]. destruct (_ && _); [by right; right|done].
  - destruct (Z.ltb_spec (ls_max_hit_size_tokens x' - comp) (ls_num_hit_tokens x)) as [Ht|Ht]; destruct Hcase as [Hdef Hgr]; rewrite Hgr; intros Hdf.
    + destruct d; [unfold known; destruct all; [done|by left]|]. specialize (Hk (Hdx eq_refl)). specialize (Hcov eq_refl).
      destruct (ls_looked_up_sliding_window x) eqn:El; cbn [andb].
      * case_bool_decide as Eg.
        -- rewrite Eg in Hk. specialize (Hso eq_refl). unfold known in Hk |- *. destruct sliding as [|k ks] eqn:Es; [done|]. right.
           split; [done|]. intros j [->|Hj]%elem_of_cons Hjf; [done|]. rewrite Forall_forall in Hk, Hd. eapply covered_less; eauto.
        -- apply known_cons; [done|]. eapply known_less; [done| |done|done]. intros ?; done.
      * apply known_cons; [done|]. eapply known_less; [done| |done|done]. intros _. by apply Hf.
    + rewrite Hdef in Hdf. specialize (Hk (Hdx Hdf)). specialize (Hcov Hdf). apply known_cons; [done|].
      destruct Hn as [->|Hn].
      * unfold known in *. destruct (ls_lookup_groups x); [constructor|]. destruct Hk as [?|[? _]]; [by left|]. right.
        split; [done|]. by intros j ?%not_elem_of_nil.
      * replace (ls_max_hit_size_tokens x') with (ls_max_hit_size_tokens x) by lia. done.
Qed.

Lemma lookup_pass_ok gs x done m : looked_up m0 l m → pass_inv x done → Forall searchable gs → 0 ≤ comp →
  ∃ r m', lookup_pass c req rs gs x m = Ok (r, m') ∧ looked_up m0 l m' ∧ ∀ x', r = Some x' →
    pass_inv x' (reverse gs ++ done) ∧ ls_max_hit_size_tokens x' ≤ ls_max_hit_size_tokens x ∧
    (gs = [] ∧ x' = x ∨ ls_num_hit_tokens x' = ls_max_hit_size_tokens x' - comp ∧ 0 < ls_num_hit_tokens x') ∧
    (ls_num_hit_tokens x = ls_max_hit_size_tokens x - comp →
      ls_lookup_groups x' = ls_lookup_groups x ∨ ls_max_hit_size_tokens x' < ls_max_hit_size_tokens x).
Proof.
  intros Hl Hp Hgs Hcomp. revert x done m Hl Hp. induction gs as [|i gs IH]; intros x done m Hl Hp; cbn [lookup_pass].
  { exists (Some x), m. split; [done|]. split; [done|]. intros x' [= <-]. split; [done|]. split; [lia|]. split; by left. }
  apply Forall_cons in Hgs as [(g & st & Hg) Hgs].
  destruct (lookup_group_ok x i g st m Hl Hg Hcomp) as (r1 & m1 & -> & Hl1 & Hr1). rewrite bind_ret. cbv beta iota.
  destruct r1 as [x1|]; [|by exists None, m1]. specialize (Hr1 x1 eq_refl). pose proof Hr1 as (HT & Hnum & Hpos & _ & d & _ & _ & Hcase).
  destruct (IH Hgs x1 (i :: done) m1 Hl1 (pass_step _ _ _ _ _ _ Hp Hg Hr1)) as (r & m2 & -> & Hl2 & Hr).
  exists r, m2. split; [done|]. split; [done|]. intros x' Hx'. destruct (Hr x' Hx') as (Hp' & HT' & Hnum' & Hgr').
  rewrite reverse_cons, <- app_assoc. split; [done|]. split; [lia|]. split.
  - right. destruct Hnum' as [[_ ->]|?]; done.
  - intros Hx. specialize (Hgr' Hnum). destruct (Z.ltb_spec (ls_max_hit_size_tokens x1 - comp) (ls_num_hit_tokens x)); [right; lia|].
    destruct Hcase as [_ Hg1]. rewrite Hg1 in Hgr'. destruct Hgr' as [?|?]; [by left|right; lia].
Qed.
(** ** The search *)

#[local] Instance is_full_dec i : Decision (is_full i).
Proof.
  refine (cast_if (decide (sliding_window_size_in_blocks <$> kv_group_configs (config c) !! i = Some None))); unfold is_full.
  - by apply fmap_Some in e as (g & ? & ?); eexists.
  - intros (g & Hg & Hs). apply n. by rewrite Hg; cbn; rewrite Hs.
Defined.
Lemma full_or_sliding i : searchable i → is_full i ∨ i ∈ sliding.
Proof.
  intros (g & st & Hg). destruct (sliding_window_size_in_blocks g) eqn:E.
  - right. apply (group_sliding _ _ _ Hg). by rewrite E.
  - left. exists g. split; [apply Hg|done].
Qed.

(** The groups that are known before a pass. *)
Definition known_before (next : list nat) : list nat := if decide (next = all) then [] else filter is_full all.

Lemma pass_start x : groups_ok → ls_lookup_groups x ≠ [] → ls_lookup_groups x = all ∨ ls_lookup_groups x = sliding →
  (ls_lookup_groups x = all ∨ ls_num_hit_tokens x = ls_max_hit_size_tokens x - comp) →
  (ls_defer_lookup x = false → known (ls_max_hit_size_tokens x) (ls_lookup_groups x) all) →
  pass_inv (mkLookupState (ls_max_hit_size_tokens x) (ls_num_hit_tokens x) (ls_defer_lookup x) [] (ls_eagle_verified x) false)
    (known_before (ls_lookup_groups x)).
Proof.
  intros [Ha Hs _] Hne Hnext Hnum Hk. unfold known_before. case_decide as E.
  { split; cbn; [constructor|by left|constructor|done|by left|constructor]. }
  split; cbn; [|naive_solver| |done|by left|].
  - rewrite Forall_forall in *. intros i [_ Hi]%list_elem_of_filter. by apply Ha.
  - intros _. apply Forall_forall. by intros i [? _]%list_elem_of_filter.
  - intros Hd. specialize (Hk Hd). unfold known in Hk. destruct (ls_lookup_groups x); [done|]. destruct Hk as [?|[_ Hk]]; [done|].
    apply Forall_forall. intros i [Hf Hi]%list_elem_of_filter. by apply Hk.
Qed.
Lemma pass_end x next : groups_ok → next = all ∨ next = sliding → pass_inv x (reverse next ++ known_before next) →
  ls_defer_lookup x = false → known (ls_max_hit_size_tokens x) (ls_lookup_groups x) all.
Proof.
  intros [Ha _ _] Hnext [_ _ _ _ _ Hk] Hd. specialize (Hk Hd).
  assert (∀ i, i ∈ all → i ∈ reverse next ++ known_before next) as Hin.
  { intros i Hi. rewrite elem_of_app, elem_of_reverse. unfold known_before. case_decide as E; [left; by subst|].
    rewrite Forall_forall in Ha. destruct (full_or_sliding i (Ha i Hi)) as [Hf|Hsl]; [right; by apply list_elem_of_filter|].
    left. destruct Hnext as [->| ->]; done. }
  unfold known in *. destruct (ls_lookup_groups x).
  - rewrite Forall_forall in *. auto.
  - destruct Hk as [?|[? Hk]]; [by left|]. right. split; [done|]. intros i Hi. apply Hk. auto.
Qed.

Lemma next_searchable next : groups_ok → next = all ∨ next = sliding → Forall searchable next.
Proof. intros [Ha Hs _] [->| ->]; [done|]. rewrite Forall_forall in *. auto. Qed.

(** One turn of the [while] loop. *)
Lemma lookup_turn x m : looked_up m0 l m → groups_ok → ls_lookup_groups x ≠ [] →
  ls_lookup_groups x = all ∨ ls_lookup_groups x = sliding →
  (ls_lookup_groups x = all ∨ ls_num_hit_tokens x = ls_max_hit_size_tokens x - comp) →
  (ls_defer_lookup x = false → known (ls_max_hit_size_tokens x) (ls_lookup_groups x) all) →
  ∃ r m', lookup_pass c req rs (ls_lookup_groups x)
      (mkLookupState (ls_max_hit_size_tokens x) (ls_num_hit_tokens x) (ls_defer_lookup x) [] (ls_eagle_verified x) false) m = Ok (r, m') ∧
    looked_up m0 l m' ∧ ∀ x', r = Some x' →
      (ls_lookup_groups x' = [] ∨ ls_lookup_groups x' = all ∨ ls_lookup_groups x' = sliding) ∧
      (ls_defer_lookup x' = false → known (ls_max_hit_size_tokens x') (ls_lookup_groups x') all) ∧
      ls_num_hit_tokens x' = ls_max_hit_size_tokens x' - comp ∧ 0 < ls_num_hit_tokens x' ∧
      ls_max_hit_size_tokens x' ≤ ls_max_hit_size_tokens x ∧
      (ls_num_hit_tokens x = ls_max_hit_size_tokens x - comp → ls_lookup_groups x' ≠ [] →
        ls_max_hit_size_tokens x' < ls_max_hit_size_tokens x).
Proof.
  intros Hl Hok Hne Hnext Hnum Hk. pose proof (pass_start x Hok Hne Hnext Hnum Hk) as Hp.
  destruct (lookup_pass_ok (ls_lookup_groups x) _ _ m Hl Hp (next_searchable _ Hok Hnext) (groups_comp Hok)) as (r & m' & -> & Hl' & Hr).
  exists r, m'. split; [done|]. split; [done|]. intros x' Hx'. destruct (Hr x' Hx') as (Hp' & HT & Hn & Hgr). cbn in HT, Hgr.
  destruct Hn as [[? _]|[Hn Hpos]]; [done|]. split; [apply (pass_next _ _ Hp')|]. split; [by apply pass_end with (ls_lookup_groups x)|].
  split; [done|]. split; [done|]. split; [done|]. intros Hx Hne'. destruct (Hgr Hx); done.
Qed.

(** What the search establishes. *)
Definition lookup_found (T0 : Z) (x : LookupState) : Prop :=
  ls_num_hit_tokens x = ls_max_hit_size_tokens x - comp ∧ 0 < ls_num_hit_tokens x ∧ ls_max_hit_size_tokens x ≤ T0 ∧
  (ls_defer_lookup x = false → Forall (covered (ls_max_hit_size_tokens x)) all).

Lemma lookup_loop_ok fuel x m : looked_up m0 l m → groups_ok →
  ls_lookup_groups x = [] ∨ ls_lookup_groups x = all ∨ ls_lookup_groups x = sliding →
  ls_num_hit_tokens x = ls_max_hit_size_tokens x - comp → 0 < ls_num_hit_tokens x →
  (ls_defer_lookup x = false → known (ls_max_hit_size_tokens x) (ls_lookup_groups x) all) →
  (Z.to_nat (ls_num_hit_tokens x) < fuel)%nat →
  ∃ r m', lookup_loop fuel c req rs x m = Ok (r, m') ∧ looked_up m0 l m' ∧
    ∀ x', r = Some x' → lookup_found (ls_max_hit_size_tokens x) x'.
Proof.
  revert x m. induction fuel as [|fuel IH]; intros x m Hl Hok Hnext Hnum Hpos Hk Hfuel; [lia|]. cbn [lookup_loop].
  destruct (ls_lookup_groups x) as [|i js] eqn:E.
  { exists (Some x), m. split; [done|]. split; [done|]. intros x' [= <-]. repeat split; [done|done|lia|done]. }
  rewrite <- E in *. destruct (lookup_turn x m Hl Hok) as (r & m1 & -> & Hl1 & Hr); [by rewrite E| |by right|done|].
  { destruct Hnext as [H|H]; [by rewrite E in H|done]. }
  rewrite bind_ret. cbv beta iota. destruct r as [x1|]; [|by exists None, m1].
  destruct (Hr x1 eq_refl) as (Hnext1 & Hk1 & Hn1 & Hp1 & HT1 & Hless).
  destruct (ls_lookup_groups x1) as [|j' js'] eqn:E1.
  { exists (Some x1), m1. split; [destruct fuel; cbn [lookup_loop]; by rewrite E1|]. split; [done|]. intros x' [= <-].
    repeat split; [done|done|done|done]. }
  rewrite <- E1 in *. specialize (Hless Hnum ltac:(by rewrite E1)).
  destruct (IH x1 m1 Hl1 Hok Hnext1 Hn1 Hp1 Hk1) as (r & m2 & -> & Hl2 & Hr2); [lia|].
  exists r, m2. split; [done|]. split; [done|]. intros x' Hx'. destruct (Hr2 x' Hx') as (? & ? & ? & ?). repeat split; [done|done|lia|done].
Qed.
End Lookup.

(** ** The whole search *)

Section Search.
Context {M : Type} `{!OffloadingManager M, !OffloadingManagerSpec M}.
Implicit Types (c : OffloadingConnectorScheduler M).

Lemma initial_max_hit_le c req : (∀ s, _mamba_align_size c = Some s → 0 < s) → initial_max_hit c req ≤ num_tokens req.
Proof.
  intros Hs. unfold initial_max_hit. destruct (_sliding_window_groups c); [lia|].
  destruct (_mamba_align_size c) as [s|]; [|lia]. specialize (Hs s eq_refl). unfold round_down.
  pose proof (Z.mul_div_le (num_tokens req - 1) s Hs). lia.
Qed.

Lemma lookup_search c req rs l : mgr_inv (manager c) l → groups_ok c req rs → (∀ s, _mamba_align_size c = Some s → 0 < s) →
  ∃ r m', _lookup req rs c = Ok (r, put_manager m' c) ∧ looked_up (manager c) l m' ∧
    ∀ n, r = Some n → n = 0 ∨ 0 < n ∧ num_locally_computed_tokens rs + n ≤ num_tokens req ∧
      Forall (covered c rs (manager c) (num_locally_computed_tokens rs + n)) (_lookup_groups c).
Proof.
  intros Hi Hok Hs. unfold _lookup. set (x0 := mkLookupState _ _ _ _ _ _).
  assert (looked_up (manager c) l (manager c)) as Hl by by apply looked_up_refl.
  pose proof (initial_max_hit_le c req Hs) as HT0. pose proof (groups_comp _ _ _ Hok) as Hcomp.
  assert (∃ r m', lookup_loop (lookup_fuel req) c req rs x0 (manager c) = Ok (r, m') ∧ looked_up (manager c) l m' ∧
    ∀ x, r = Some x → x = x0 ∨ lookup_found c rs (manager c) (initial_max_hit c req) x) as (r & m' & -> & Hl' & Hr).
  { unfold lookup_fuel. remember (S (length (_all_token_ids req))) as fuel eqn:Efuel. cbn [lookup_loop]. change (ls_lookup_groups x0) with (_lookup_groups c).
    destruct (_lookup_groups c) as [|i js] eqn:E.
    { eexists (Some x0), (manager c). split; [done|]. split; [done|]. intros x [= <-]. by left. }
    destruct (lookup_turn c req rs (manager c) l x0 (manager c) Hl Hok) as (r & m1 & Ht & Hl1 & Hr).
    { done. }
    { left. by rewrite E. }
    { left. by rewrite E. }
    { intros _. left. by rewrite E. }
    change (ls_lookup_groups x0) with (i :: js) in Ht. rewrite Ht, bind_ret. cbv beta iota.
    destruct r as [x1|]; [|by exists None, m1]. destruct (Hr x1 eq_refl) as (Hnext & Hk & Hn & Hpos & HT & _). cbn in HT.
    destruct (lookup_loop_ok c req rs (manager c) l fuel x1 m1 Hl1 Hok Hnext Hn Hpos Hk) as (r & m2 & -> & Hl2 & Hr2).
    { unfold num_tokens in HT0. lia. }
    exists r, m2. split; [done|]. split; [done|]. intros x Hx. right. destruct (Hr2 x Hx) as (? & ? & ? & ?). repeat split; [done|done|lia|done]. }
  rewrite bind_ret. cbv beta iota zeta. destruct r as [x|].
  2:{ exists (Some 0), m'. split; [done|]. split; [done|]. intros n [= <-]. by left. }
  destruct (ls_defer_lookup x) eqn:Ed; [by exists None, m'|].
  destruct (hit_being_loaded _ _ _); [by exists None, m'|].
  eexists (Some _), m'. split; [done|]. split; [done|]. intros n [= <-].
  destruct (Hr x eq_refl) as [->|(Hn & Hpos & HT & Hcov)]; [by left|]. right. split; [done|]. rewrite Hn.
  replace (_ + (_ - _)) with (ls_max_hit_size_tokens x) by lia. split; [lia|]. by apply Hcov.
Qed.
End Search.
