(* ===== verification/ConnectorLoad.v ===== *)
(** * From a hit to a load

    The configuration the connector computes, the keys of a request, and the two
    calls of the scheduler that start a load: what the search announces can be
    loaded. *)

From S2P Require Import Prelude MathUtils PyDict Request BlockHash BlockPool SchedState KVSpec Offload.
From S2P Require Import OffloadConnector ConnectorSpec ConnectorLookup.

Local Open Scope Z_scope.

(** ** Configurations *)

Record group_config_ok (factor : Z) (i : nat) (g : GroupOffloadConfig) : Prop := {
  gc_idx : group_idx g = i;
  gc_small : Z.of_nat i < 2 ^ 32;
  gc_gpu : 0 < gpu_block_size g;
  gc_size : offloaded_block_size g = gpu_block_size g * factor;
  gc_hash : 0 < hash_block_size_factor g;
  gc_window w : sliding_window_size_in_blocks g = Some w → 0 < w;
  gc_tail n : alignment_block_count g = Some n → sliding_window_size_in_blocks g ≠ None;
}.
Section Config.
Context {M : Type} `{!OffloadingManager M, !OffloadingManagerSpec M}.
Implicit Types (c : OffloadingConnectorScheduler M).

Record config_ok c : Prop := {
  cfg_factor : 0 < block_size_factor (config c);
  cfg_group i g : kv_group_configs (config c) !! i = Some g → group_config_ok (block_size_factor (config c)) i g;
  cfg_all i : i ∈ _lookup_groups c ↔ (i < length (kv_group_configs (config c)))%nat;
  cfg_sliding i : i ∈ _sliding_window_groups c ↔
    ∃ g, kv_group_configs (config c) !! i = Some g ∧ sliding_window_size_in_blocks g ≠ None;
  cfg_align s : _mamba_align_size c = Some s → 0 < s;
  cfg_workers : 0 < num_workers (config c);
}.

Lemma gc_size_pos c i g : config_ok c → kv_group_configs (config c) !! i = Some g → 0 < offloaded_block_size g.
Proof.
  intros Hc Hg. pose proof (cfg_group _ Hc _ _ Hg) as H. rewrite (gc_size _ _ _ H). pose proof (gc_gpu _ _ _ H).
  pose proof (cfg_factor _ Hc). nia.
Qed.
End Config.

(** ** Keys *)

Lemma py_stride_length {A} (n i : nat) (l : list A) : (0 < n)%nat → length (py_stride n i l) = ((length l + n - 1 - i) / n)%nat.
Proof.
  intros Hn. revert i. induction l as [|x l IH]; intros i; cbn [py_stride length].
  { symmetry. apply Nat.div_small. lia. }
  destruct i as [|i]; cbn [length]; rewrite IH.
  - replace (length l + n - 1 - (n - 1))%nat with (length l) by lia.
    replace (S (length l) + n - 1 - 0)%nat with (length l + 1 * n)%nat by lia. rewrite Nat.div_add by lia. lia.
  - f_equal. lia.
Qed.

Lemma offload_key_ok h i : Z.of_nat i < 2 ^ 32 → ∃ k, make_offload_key h (Z.of_nat i) = Ok k.
Proof.
  intros Hi. unfold make_offload_key, int_to_bytes_be. rewrite (proj2 (Z.leb_le _ _)), (proj2 (Z.ltb_lt _ _)) by lia. by eexists.
Qed.

Lemma for_groups_ok cfg f rs : length (group_states rs) = length (kv_group_configs cfg) →
  (∀ i g st, kv_group_configs cfg !! i = Some g → group_states rs !! i = Some st → ∃ st', f g st = Ok st') →
  ∃ gs, for_groups cfg f rs = Ok (put_group_states gs rs) ∧ length gs = length (kv_group_configs cfg) ∧
    ∀ i g st', kv_group_configs cfg !! i = Some g → gs !! i = Some st' → ∃ st, group_states rs !! i = Some st ∧ f g st = Ok st'.
Proof.
  intros Hlen Hf. unfold for_groups.
  destruct (mapR_total (λ x : _ * _, f x.1 x.2) (zip (kv_group_configs cfg) (group_states rs))) as [gs Hgs].
  { intros [g st] Hin. apply list_elem_of_lookup in Hin as [i Hi]. apply lookup_zip_Some in Hi as [Hg Hst]. by eapply Hf. }
  rewrite Hgs, bind_ret. apply mapR_Forall2 in Hgs. pose proof (Forall2_length _ _ _ Hgs) as Hl.
  rewrite length_zip_with, Hlen, Nat.min_id in Hl. exists gs. rewrite drop_ge by lia. rewrite app_nil_r.
  split; [done|]. split; [lia|]. intros i g st' Hg Hst'.
  destruct (lookup_lt_is_Some_2 (group_states rs) i) as [st Hst]; [apply lookup_lt_Some in Hg; lia|].
  exists st. split; [done|]. apply (Forall2_lookup_lr _ _ _ i (g, st) st' Hgs); [by apply lookup_zip_Some|done].
Qed.

Lemma offload_key_inj h h' i i' k : make_offload_key h i = Ok k → make_offload_key h' i' = Ok k → h = h' ∧ i = i'.
Proof.
  unfold make_offload_key. intros (g & Hg & [= Hk])%bind_Ok (g' & Hg' & [= Hk'])%bind_Ok.
  rewrite <- Hk' in Hk. apply (f_equal String.list_byte_of_string) in Hk. rewrite !String.list_byte_of_string_of_list_byte in Hk.
  apply (make_key_inj _ _ _ _ (h ++ g)); unfold make_block_hash_with_group_id; rewrite ?Hg, ?Hg'; cbn; congruence.
Qed.

Lemma py_stride_lookup {A} (n i j : nat) (l : list A) : (0 < n)%nat → py_stride n i l !! j = l !! (i + j * n)%nat.
Proof.
  intros Hn. revert i j. induction l as [|x l IH]; intros i j; cbn [py_stride]; [by rewrite !lookup_nil|].
  destruct i as [|i]; [|apply IH]. destruct j as [|j]; [done|].
  change ((x :: py_stride n (n - 1) l) !! S j) with (py_stride n (n - 1) l !! j). rewrite IH.
  replace (0 + S j * n)%nat with (S (n - 1 + j * n)) by lia. done.
Qed.

(** The keys of a group come from every [f]-th hash. *)
Definition keys_from (hs : list bytes) (g : GroupOffloadConfig) (keys : list OffloadKey) : Prop :=
  ∀ j k, keys !! j = Some k → ∃ h, hs !! (j * Z.to_nat (hash_block_size_factor g) + (Z.to_nat (hash_block_size_factor g) - 1))%nat = Some h ∧
    make_offload_key h (Z.of_nat (group_idx g)) = Ok k.

Lemma keys_from_nodup hs g keys : NoDup hs → 0 < hash_block_size_factor g → keys_from hs g keys → NoDup keys.
Proof.
  intros Hnd Hf Hk. apply NoDup_alt. intros i j k Hi Hj. destruct (Hk i k Hi) as (h & Hh & Hm). destruct (Hk j k Hj) as (h' & Hh' & Hm').
  destruct (offload_key_inj _ _ _ _ _ Hm Hm') as [-> _]. pose proof (NoDup_lookup _ _ _ _ Hnd Hh Hh'). nia.
Qed.
Lemma keys_from_group hs hs' g g' keys keys' k : keys_from hs g keys → keys_from hs' g' keys' → k ∈ keys → k ∈ keys' → group_idx g = group_idx g'.
Proof.
  intros H H' [i Hi]%list_elem_of_lookup [j Hj]%list_elem_of_lookup. destruct (H i k Hi) as (h & _ & Hm). destruct (H' j k Hj) as (h' & _ & Hm').
  destruct (offload_key_inj _ _ _ _ _ Hm Hm'). lia.
Qed.

(** The keys of all groups of a request. *)
Definition all_keys_from (hs : list bytes) (cfg : SchedulerOffloadConfig) (gs : list RequestGroupState) : Prop :=
  ∀ i g st, kv_group_configs cfg !! i = Some g → gs !! i = Some st → keys_from hs g (offload_keys st).

Lemma elem_in_concat {A} (x : A) (ls : list (list A)) : x ∈ concat ls ↔ ∃ l, l ∈ ls ∧ x ∈ l.
Proof.
  induction ls as [|l ls IH]; cbn; [split; [by intros ?%not_elem_of_nil|by intros (l & ?%not_elem_of_nil & _)]|].
  rewrite elem_of_app, IH. setoid_rewrite elem_of_cons. naive_solver.
Qed.
Lemma nodup_concat {A} (ls : list (list A)) : (∀ l, l ∈ ls → NoDup l) →
  (∀ i j li lj x, ls !! i = Some li → ls !! j = Some lj → x ∈ li → x ∈ lj → i = j) → NoDup (concat ls).
Proof.
  induction ls as [|l ls IH]; intros Hnd Hdis; cbn; [constructor|]. apply NoDup_app. split; [apply Hnd; by left|]. split.
  - intros x Hx (lj & Hlj & Hxj)%elem_in_concat. apply list_elem_of_lookup in Hlj as [j Hj].
    by pose proof (Hdis 0%nat (S j) l lj x eq_refl Hj Hx Hxj).
  - apply IH; [intros; apply Hnd; by right|]. intros i j li lj x Hi Hj Hxi Hxj. by pose proof (Hdis (S i) (S j) li lj x Hi Hj Hxi Hxj) as [= ->].
Qed.

Lemma all_keys_nodup hs cfg gs factor : NoDup hs → (∀ i g, kv_group_configs cfg !! i = Some g → group_config_ok factor i g) →
  (length gs ≤ length (kv_group_configs cfg))%nat → all_keys_from hs cfg gs → NoDup (concat (offload_keys <$> gs)).
Proof.
  intros Hnd Hcfg Hlen Hk.
  assert (∀ i ks, (offload_keys <$> gs) !! i = Some ks → ∃ g, kv_group_configs cfg !! i = Some g ∧ keys_from hs g ks) as Hks.
  { intros i ks Hi. rewrite list_lookup_fmap in Hi. apply fmap_Some in Hi as (st & Hst & ->).
    destruct (lookup_lt_is_Some_2 (kv_group_configs cfg) i) as [g Hg]; [apply lookup_lt_Some in Hst; lia|]. exists g. split; [done|by eapply Hk]. }
  apply nodup_concat.
  - intros ks [i Hi]%list_elem_of_lookup. destruct (Hks i ks Hi) as (g & Hg & Hf). apply (keys_from_nodup hs g); [done| |done].
    apply (gc_hash _ _ _ (Hcfg i g Hg)).
  - intros i j ki kj x Hi Hj Hxi Hxj. destruct (Hks i ki Hi) as (g & Hg & Hf). destruct (Hks j kj Hj) as (g' & Hg' & Hf').
    pose proof (keys_from_group _ _ _ _ _ _ _ Hf Hf' Hxi Hxj) as E.
    by rewrite (gc_idx _ _ _ (Hcfg i g Hg)), (gc_idx _ _ _ (Hcfg j g' Hg')) in E.
Qed.

Lemma all_keys_same hs cfg gs gs' : offload_keys <$> gs' = offload_keys <$> gs → all_keys_from hs cfg gs → all_keys_from hs cfg gs'.
Proof.
  intros E H i g st' Hg Hst'. apply (f_equal (.!! i)) in E. rewrite !list_lookup_fmap, Hst' in E. cbn in E.
  symmetry in E. apply fmap_Some in E as (st & Hst & ->). by eapply H.
Qed.
Lemma keys_from_more hs hs' g keys ks : 0 < hash_block_size_factor g → hs' `prefix_of` hs → keys_from hs g keys →
  Forall2 (λ h k, make_offload_key h (Z.of_nat (group_idx g)) = Ok k)
    (py_stride (Z.to_nat (hash_block_size_factor g)) (Z.to_nat (hash_block_size_factor g * zlen keys + hash_block_size_factor g - 1)) hs') ks →
  keys_from hs g (keys ++ ks).
Proof.
  intros Hf Hpre Hk Hks j k [Hj|[Hge Hj]]%lookup_app_Some; [by apply Hk|].
  apply (Forall2_lookup_r _ _ _ _ _ Hks) in Hj as (h & Hh & Hm). exists h. split; [|done]. rewrite py_stride_lookup in Hh by lia.
  eapply prefix_lookup_Some in Hh; [|exact Hpre]. rewrite <- Hh. f_equal. nia.
Qed.

Definition next_ok (gs : list RequestGroupState) : Prop := Forall (λ st, 0 ≤ next_stored_block_idx st) gs.
Lemma next_ok_same gs gs' n : length gs = n → length gs' = n →
  (∀ i st st', gs !! i = Some st → gs' !! i = Some st' → next_stored_block_idx st' = next_stored_block_idx st) → next_ok gs → next_ok gs'.
Proof.
  intros Hl Hl' Hs Hok. apply Forall_lookup. intros i st' Hst'. destruct (lookup_lt_is_Some_2 gs i) as [st Hst]; [apply lookup_lt_Some in Hst'; lia|].
  rewrite (Hs i st st' Hst Hst'). by apply (Forall_lookup_1 _ _ _ _ Hok Hst).
Qed.

(** The keys after an update cover all hashes of the request. *)
Lemma update_keys_ok cfg req rs factor : length (group_states rs) = length (kv_group_configs cfg) →
  (∀ i g, kv_group_configs cfg !! i = Some g → group_config_ok factor i g) →
  ∃ gs, update_offload_keys cfg req rs = Ok (put_group_states gs rs) ∧ length gs = length (kv_group_configs cfg) ∧
    ∀ i g st', kv_group_configs cfg !! i = Some g → gs !! i = Some st' →
      zlen (block_hashes req) / hash_block_size_factor g ≤ zlen (offload_keys st') ∧
      ∃ st, group_states rs !! i = Some st ∧ (∀ hs, block_hashes req `prefix_of` hs → keys_from hs g (offload_keys st) → keys_from hs g (offload_keys st')) ∧
        next_stored_block_idx st' = next_stored_block_idx st.
Proof.
  intros Hlen Hcfg. unfold update_offload_keys.
  destruct (for_groups_ok cfg (λ g st,
    _ ← require ValueError (1 <=? hash_block_size_factor g);
    keys ← mapR (λ h, make_offload_key h (Z.of_nat (group_idx g)))
      (py_stride (Z.to_nat (hash_block_size_factor g))
        (Z.to_nat (hash_block_size_factor g * zlen (offload_keys st) + hash_block_size_factor g - 1)) (block_hashes req));
    Ok (put_offload_keys (offload_keys st ++ keys) st)) rs Hlen) as (gs & Hgs & Hl & Hst).
  { intros i g st Hg _. pose proof (Hcfg i g Hg) as H. pose proof (gc_hash _ _ _ H). rewrite (proj2 (Z.leb_le _ _)) by lia.
    cbn [require]. rewrite bind_ret.
    destruct (mapR_total (λ h, make_offload_key h (Z.of_nat (group_idx g)))
      (py_stride (Z.to_nat (hash_block_size_factor g))
        (Z.to_nat (hash_block_size_factor g * zlen (offload_keys st) + hash_block_size_factor g - 1)) (block_hashes req))) as [ks ->].
    - intros h _. rewrite (gc_idx _ _ _ H). apply offload_key_ok, (gc_small _ _ _ H).
    - rewrite bind_ret. by eexists. }
  exists gs. split; [exact Hgs|]. split; [done|]. intros i g st' Hg Hst'. destruct (Hst i g st' Hg Hst') as (st & Hold & Hf).
  pose proof (gc_hash _ _ _ (Hcfg i g Hg)) as Hpos. rewrite (proj2 (Z.leb_le _ _)) in Hf by lia. cbn [require] in Hf. rewrite bind_ret in Hf.
  apply bind_Ok in Hf as (ks & Hks & [= <-]). cbn [offload_keys put_offload_keys]. apply mapR_Forall2 in Hks.
  split; [|exists st; split; [done|]; split; [|done]; intros hs Hpre Hk; by eapply keys_from_more]. apply Forall2_length in Hks.
  rewrite py_stride_length in Hks by lia. rewrite length_app. set (f := hash_block_size_factor g) in *. set (K := length (offload_keys st)) in *.
  set (n := length (block_hashes req)) in *.
  assert (Z.of_nat (length ks) = Z.of_nat (n + Z.to_nat f - 1 - Z.to_nat (f * Z.of_nat K + f - 1)) / f) as E.
  { rewrite <- Hks, Nat2Z.inj_div, Z2Nat.id by lia. done. }
  rewrite Nat2Z.inj_add, E. destruct (Z.le_gt_cases (f * Z.of_nat K) (Z.of_nat n)) as [Hle|Hgt].
  - replace (Z.of_nat (n + Z.to_nat f - 1 - Z.to_nat (f * Z.of_nat K + f - 1))) with (Z.of_nat n + (- Z.of_nat K) * f) by lia.
    rewrite Z.div_add by lia. lia.
  - assert (Z.of_nat n / f ≤ Z.of_nat K) by (apply Z.div_le_upper_bound; lia).
    pose proof (Z.div_pos (Z.of_nat (n + Z.to_nat f - 1 - Z.to_nat (f * Z.of_nat K + f - 1))) f). lia.
Qed.

Section Load.
Context {M : Type} `{!OffloadingManager M, !OffloadingManagerSpec M}.
Implicit Types (c : OffloadingConnectorScheduler M) (l : list OffloadKey).

Definition no_eagle c : Prop := ∀ i g, kv_group_configs (config c) !! i = Some g → is_eagle_group g = false.
(** The request has a hash for each block of its tokens. *)
Definition hashed c (req : Request) : Prop := ∀ i g, kv_group_configs (config c) !! i = Some g →
  num_tokens req / offloaded_block_size g ≤ zlen (block_hashes req) / hash_block_size_factor g.

Lemma config_groups_ok c req rs : config_ok c → no_eagle c → length (group_states rs) = length (kv_group_configs (config c)) →
  (∀ i g st, kv_group_configs (config c) !! i = Some g → group_states rs !! i = Some st →
    num_tokens req / offloaded_block_size g ≤ zlen (offload_keys st)) →
  0 ≤ num_locally_computed_tokens rs → groups_ok c req rs.
Proof.
  intros Hc He Hlen Hkeys Hcomp. split; [| |done].
  - apply Forall_forall. intros i Hi. apply (cfg_all _ Hc) in Hi as Hlt. destruct (lookup_lt_is_Some_2 _ _ Hlt) as [g Hg].
    destruct (lookup_lt_is_Some_2 (group_states rs) i) as [st Hst]; [lia|]. exists g, st.
    split; [done|done|by eapply gc_size_pos|apply (gc_window _ _ _ (cfg_group _ Hc _ _ Hg))|by eapply He|by eapply Hkeys|done|].
    intros Hs. apply (cfg_sliding _ Hc). eauto.
  - apply Forall_forall. intros i (g & Hg & _)%(cfg_sliding _ Hc). apply (cfg_all _ Hc). by eapply lookup_lt_Some.
Qed.

(** The state of a request after a lookup, and the hits it may rely on. *)
Record matched c req rs1 n : Prop := {
  matched_len : length (group_states rs1) = length (kv_group_configs (config c));
  matched_jobs : transfer_jobs rs1 = ∅;
  matched_comp : 0 ≤ num_locally_computed_tokens rs1;
  matched_total : num_locally_computed_tokens rs1 + n ≤ num_tokens req;
  matched_keys i g st : kv_group_configs (config c) !! i = Some g → group_states rs1 !! i = Some st →
    num_tokens req / offloaded_block_size g ≤ zlen (offload_keys st);
  matched_hits i g st : kv_group_configs (config c) !! i = Some g → group_states rs1 !! i = Some st →
    group_covered rs1 (manager c) (num_locally_computed_tokens rs1 + n) g st;
}.

Lemma touch_ok' c l req rs : mgr_inv (manager c) l → ∃ m', _touch req rs c = put_manager m' c ∧ looked_up (manager c) l m'.
Proof.
  intros Hi. unfold _touch. eexists. split; [done|].
  assert (looked_up (manager c) l (manager c)) as Hl by by apply looked_up_refl. revert Hl.
  generalize (manager c) at 2 4. induction (zip _ _) as [|[g st] gs IH]; intros m Hl; cbn [fold_left]; [done|].
  apply IH. destruct Hl as [H1 H2].
  destruct (sliding_window_size_in_blocks g) as [w|].
  - destruct (mgr_touch_ok m l (py_from (offload_keys st) (Z.max 0 (num_hit_blocks st - w))) req H1) as [H3 H4].
    split; [done|]. intros k. by rewrite H4.
  - destruct (mgr_touch_ok m l (offload_keys st) req H1) as [H3 H4]. split; [done|]. intros k. by rewrite H4.
Qed.

Lemma get_matched_ok c l req rs comp : config_ok c → no_eagle c → mgr_inv (manager c) l →
  _req_status c !! request_id req = Some rs → length (group_states rs) = length (kv_group_configs (config c)) →
  hashed c req → 0 ≤ comp →
  ∃ r b rs1 m1, get_num_new_matched_tokens req comp c =
      Ok (r, b, put_manager m1 (put_req_status (<[request_id req := rs1]> (_req_status c)) c)) ∧
    mgr_inv m1 l ∧ transfer_jobs rs1 = transfer_jobs rs ∧ length (group_states rs1) = length (kv_group_configs (config c)) ∧
    (∀ hs, block_hashes req `prefix_of` hs → all_keys_from hs (config c) (group_states rs) → all_keys_from hs (config c) (group_states rs1)) ∧
    (next_ok (group_states rs) → next_ok (group_states rs1)) ∧ max_offload_tokens rs1 = max_offload_tokens rs ∧
    (transfer_jobs rs = ∅ → num_locally_computed_tokens rs1 = comp) ∧
    ∀ n, r = Some n → transfer_jobs rs = ∅ ∧ b = bool_decide (n ≠ 0) ∧
      (n ≠ 0 → 0 < n ∧ matched (put_manager m1 c) req rs1 n).
Proof.
  intros Hc He Hi Hrs Hlen Hhash Hcomp. unfold get_num_new_matched_tokens. rewrite Hrs. cbn [of_option]. rewrite bind_ret. cbv zeta.
  set (rs0 := put_group_states _ rs).
  assert (length (group_states rs0) = length (kv_group_configs (config c))) as Hlen0 by (cbn; by rewrite length_fmap).
  assert (∀ hs, all_keys_from hs (config c) (group_states rs) → all_keys_from hs (config c) (group_states rs0)) as Hkeys0.
  { intros hs. apply all_keys_same. cbn. rewrite <- list_fmap_compose. done. }
  assert (next_ok (group_states rs) → next_ok (group_states rs0)) as Hnext0 by (intros Hok; by apply Forall_fmap).
  case_bool_decide as Hj.
  { eexists None, false, rs0, (manager c). split; [by destruct c|]. split; [done|]. split; [done|]. split; [done|]. split; [auto|].
    split; [done|]. split; [done|].
    split; [intros; by destruct Hj|done]. }
  cbn in Hj.
  destruct (update_keys_ok (config c) req rs0 (block_size_factor (config c)) Hlen0 (cfg_group _ Hc)) as (gs & -> & Hgs & Hkeys).
  rewrite bind_ret. set (rs1 := put_num_locally_computed_tokens comp (put_group_states gs rs0)).
  assert (groups_ok c req rs1) as Hok.
  { apply config_groups_ok; [done|done|done| |done]. intros i g st Hg Hst. destruct (Hkeys i g st Hg Hst) as [Hkey _]. specialize (Hhash i g Hg). lia. }
  assert (∃ r m', (if skip_reading_prefix_cache req then Ok (Some 0, c) else _lookup req rs1 c) = Ok (r, put_manager m' c) ∧
    looked_up (manager c) l m' ∧ ∀ n, r = Some n → n = 0 ∨ 0 < n ∧ num_locally_computed_tokens rs1 + n ≤ num_tokens req ∧
      Forall (covered c rs1 (manager c) (num_locally_computed_tokens rs1 + n)) (_lookup_groups c)) as (r & m1 & -> & Hl1 & Hr).
  { destruct (skip_reading_prefix_cache req); [|by apply lookup_search; [| |apply Hc]].
    exists (Some 0), (manager c). split; [by destruct c|]. split; [by apply looked_up_refl|]. intros n [= <-]. by left. }
  rewrite bind_ret. cbv beta iota. set (total := comp + default 0 r).
  destruct (for_groups_ok (config c) (λ g st, Ok (put_num_hit_blocks (total / offloaded_block_size g) st)) rs1) as (gs2 & Hg2 & Hl2 & Hst2).
  { done. }
  { intros; by eexists. }
  unfold update_num_hit_blocks. cbn [config put_manager]. rewrite Hg2, bind_ret. set (rs2 := put_group_states gs2 rs1).
  set (c1 := put_req_status (<[request_id req := rs2]> (_req_status (put_manager m1 c))) (put_manager m1 c)).
  destruct (touch_ok' c1 l (request_id req) rs2) as (m2 & Ht & Hl2'); [apply Hl1|]. rewrite Ht.
  assert (looked_up (manager c) l m2) as Hl by (by eapply looked_up_trans).
  exists r, (bool_decide (default 0 r ≠ 0)), rs2, m2. split; [done|]. split; [apply Hl|]. split; [done|]. split; [done|]. split.
  { intros hs Hpre Hall i g st Hg Hst. destruct (Hst2 i g st Hg Hst) as (st1 & Hst1 & [= <-]).
    destruct (Hkeys i g st1 Hg Hst1) as (_ & st0 & Hst0 & Hk & _). apply Hk; [done|]. by eapply (Hkeys0 hs). }
  split.
  { intros Hnx. apply Hnext0 in Hnx. eapply next_ok_same; [exact Hlen0|exact Hl2| |exact Hnx]. intros i st st' Hst Hst'. cbn in Hst'.
    destruct (lookup_lt_is_Some_2 (kv_group_configs (config c)) i) as [g Hg]; [apply lookup_lt_Some in Hst'; lia|].
    destruct (Hst2 i g st' Hg Hst') as (st1 & Hst1 & [= <-]). destruct (Hkeys i g st1 Hg Hst1) as (_ & st0 & Hst0 & _ & E).
    cbn [next_stored_block_idx put_num_hit_blocks]. congruence. }
  split; [done|].
  split; [done|]. intros n ->. split; [done|]. split; [done|]. intros Hn. destruct (Hr n eq_refl) as [?|(Hpos & Htot & Hcov)]; [done|].
  split; [done|]. split; [done|done|done|done| |].
  - intros i g st Hg Hst. destruct (Hst2 i g st Hg Hst) as (st1 & Hst1 & [= <-]). cbn [offload_keys put_num_hit_blocks].
    destruct (Hkeys i g st1 Hg Hst1) as [Hkey _]. specialize (Hhash i g Hg). cbn in Hg. lia.
  - intros i g st Hg Hst. destruct (Hst2 i g st Hg Hst) as (st1 & Hst1 & [= <-]).
    rewrite Forall_forall in Hcov. assert (i ∈ _lookup_groups c) as Hi' by (apply (cfg_all _ Hc); by eapply lookup_lt_Some).
    specialize (Hcov i Hi' g st1 Hg Hst1). unfold group_covered in *. intros j Hjj. cbn [manager put_manager offload_keys put_num_hit_blocks].
    apply (hit_at_same (manager c)); [apply Hl|]. by apply Hcov.
Qed.
(** ** Starting the load *)

(** The GPU blocks of a group for [T] tokens: there are enough, those without
    data lie behind the computed tokens, and in a sliding window group they lie in
    the window of offloaded blocks before [T]. *)
Record table_ok (factor comp T : Z) (g : GroupOffloadConfig) (blocks : list KVCacheBlock) : Prop := {
  table_len : cdiv T (gpu_block_size g) ≤ zlen blocks;
  table_local : comp ≤ num_present blocks (cdiv T (gpu_block_size g)) * gpu_block_size g;
  table_window w : sliding_window_size_in_blocks g = Some w →
    cdiv T (gpu_block_size g) - num_present blocks (cdiv T (gpu_block_size g)) ≤ w * factor ∧
    cdiv T (offloaded_block_size g) - w ≤ num_present blocks (cdiv T (gpu_block_size g)) / factor;
}.

Lemma num_present_bounds blocks n : 0 ≤ n → 0 ≤ num_present blocks n ≤ n.
Proof.
  intros Hn. unfold num_present. destruct (list_find _ _) as [[i b]|] eqn:E; [|lia].
  apply list_find_Some in E as (Hi & _). apply lookup_lt_Some in Hi. unfold py_upto, py_slice in Hi. rewrite length_take in Hi.
  unfold py_clip in Hi. rewrite !(proj2 (Z.ltb_ge _ _)) in Hi by lia. lia.
Qed.

Lemma covered_stop rs m0 T g st : 0 < offloaded_block_size g → (∀ w, sliding_window_size_in_blocks g = Some w → 0 < w) →
  0 ≤ num_locally_computed_tokens rs < T → group_covered rs m0 T g st → cdiv T (offloaded_block_size g) ≤ zlen (offload_keys st).
Proof.
  intros Hs Hw HT Hcov. pose proof (cdiv_bounds T _ Hs) as Hb. set (stop := cdiv T (offloaded_block_size g)) in *.
  assert (num_locally_computed_tokens rs / offloaded_block_size g < stop) as Hlt by (apply Z.div_lt_upper_bound; lia).
  pose proof (Z.div_pos (num_locally_computed_tokens rs) (offloaded_block_size g)) as H0.
  unfold group_covered in Hcov. destruct (Hcov (stop - 1)) as (k & Hk & _); [|apply lookup_lt_Some in Hk; lia].
  fold stop. destruct (sliding_window_size_in_blocks g) as [w|] eqn:E; [specialize (Hw w eq_refl); lia|lia].
Qed.

Lemma load_group_ok c rs m0 T i g st blocks : config_ok c → kv_group_configs (config c) !! i = Some g →
  0 ≤ num_locally_computed_tokens rs < T → group_covered rs m0 T g st →
  table_ok (block_size_factor (config c)) (num_locally_computed_tokens rs) T g blocks →
  ∃ keys ids pending present, load_group c (num_locally_computed_tokens rs) T (g, st, blocks) = Ok (keys, ids, pending, present) ∧
    Forall (λ k, mgr_status m0 k = HIT) keys ∧ pending = zlen ids ∧ keys `sublist_of` offload_keys st.
Proof.
  intros Hc Hg HT Hcov [Hlen Hloc Hwin]. pose proof (cfg_group _ Hc _ _ Hg) as Hgc. pose proof (gc_size_pos _ _ _ Hc Hg) as Hsize.
  pose proof (cfg_factor _ Hc) as Hfac. pose proof (gc_gpu _ _ _ Hgc) as Hgpu. pose proof (gc_size _ _ _ Hgc) as Hsz.
  pose proof (covered_stop _ _ _ _ _ Hsize (gc_window _ _ _ Hgc) HT Hcov) as Hstop.
  unfold load_group. set (n := cdiv T (gpu_block_size g)) in *. set (pr := num_present blocks n) in *.
  assert (0 ≤ n) as Hn0 by (apply cdiv_nonneg; lia). pose proof (num_present_bounds blocks n Hn0) as Hpr. fold pr in Hpr.
  rewrite (proj2 (Z.geb_le (zlen blocks) n)) by lia. cbn [assert_ require]. rewrite bind_ret.
  rewrite (proj2 (Z.leb_le _ _)) by lia. cbn [assert_ require]. rewrite bind_ret.
  assert (match sliding_window_size_in_blocks g with None => true | Some w => n - pr <=? w * block_size_factor (config c) end = true) as ->.
  { destruct (sliding_window_size_in_blocks g) as [w|] eqn:E; [|done]. apply Z.leb_le. by apply Hwin. }
  cbn [assert_ require]. rewrite bind_ret. rewrite (proj2 (Z.geb_le _ _)) by lia. cbn [assert_ require]. rewrite bind_ret.
  eexists _, _, _, _. split; [done|]. split; [|split].
  - destruct (Z.eqb_spec (n - pr) 0) as [|Hpend]; [constructor|]. apply Forall_forall. intros k Hk.
    apply list_elem_of_lookup in Hk as [j Hj]. set (a := pr / block_size_factor (config c)) in *.
    assert (0 ≤ a) as Ha by (apply Z.div_pos; lia).
    assert (num_locally_computed_tokens rs / offloaded_block_size g ≤ a) as Hstart.
    { rewrite Hsz. unfold a. rewrite <- Z.div_div by lia. apply Z.div_le_mono; [lia|]. apply Z.div_le_upper_bound; lia. }
    assert (a ≤ cdiv T (offloaded_block_size g)) as Hae.
    { unfold a. apply Z.div_le_upper_bound; [lia|]. pose proof (cdiv_bounds T _ Hsize) as Hb1. pose proof (cdiv_bounds T _ Hgpu) as Hb2. fold n in Hb2.
      rewrite Hsz in *. nia. }
    pose proof (lookup_lt_Some _ _ _ Hj) as Hlt. pose proof (length_slice (offload_keys st) a (cdiv T (offloaded_block_size g)) ltac:(lia) ltac:(lia)) as Hsl.
    destruct (Hcov (a + Z.of_nat j)) as (k' & Hk' & Hhit).
    { destruct (sliding_window_size_in_blocks g) as [w|] eqn:E; [destruct (Hwin w eq_refl); lia|lia]. }
    unfold py_slice in Hj. rewrite !py_clip_id in Hj by lia. apply lookup_take_Some in Hj as [Hj _]. rewrite lookup_drop in Hj.
    replace (Z.to_nat (a + Z.of_nat j)) with (Z.to_nat a + j)%nat in Hk' by lia. congruence.
  - rewrite length_fmap, length_slice by lia. done.
  - destruct (_ =? 0); [apply sublist_nil_l|]. unfold py_slice. etrans; [apply sublist_take|apply sublist_drop].
Qed.
Lemma sum_lengths {A B} (f : A → list B) (g : A → Z) (l : list A) : (∀ x, x ∈ l → g x = zlen (f x)) →
  foldr Z.add 0 (g <$> l) = zlen (concat (f <$> l)).
Proof.
  induction l as [|x l IH]; intros H; cbn; [done|]. rewrite IH by (intros; apply H; by right).
  rewrite (H x) by by left. rewrite length_app. lia.
Qed.

Lemma zip3_sublist {A B C} (la : list A) (lb : list B) (lc : list C) : ((λ x, x.1.2) <$> zip (zip la lb) lc) `sublist_of` lb.
Proof.
  revert lb lc. induction la as [|x la IH]; intros [|y lb] lc; cbn; try apply sublist_nil_l. destruct lc as [|z lc]; cbn.
  - apply sublist_nil_l.
  - by apply sublist_skip.
Qed.
Lemma zip3_keys {A B C} (la : list A) (lb : list B) (lc : list C) :
  ((λ x, x.1.2) <$> zip (zip la lb) lc) ++ drop (length (zip (zip la lb) lc)) lb = lb.
Proof.
  revert lb lc. induction la as [|x la IH]; intros [|y lb] [|z lc]; cbn; try done. by rewrite IH.
Qed.
Lemma concat_sublist {A} (l l' : list (list A)) : l `sublist_of` l' → concat l `sublist_of` concat l'.
Proof.
  induction 1 as [|x l l' _ IH|x l l' _ IH]; cbn; [done|by apply sublist_app|]. by apply sublist_inserts_l.
Qed.

Lemma load_start_ok c l req rs n blocks :
  config_ok c → mgr_inv (manager c) l → _req_status c !! request_id req = Some rs → matched c req rs n → 0 < n →
  (∀ i g bl, kv_group_configs (config c) !! i = Some g → blocks !! i = Some bl →
    table_ok (block_size_factor (config c)) (num_locally_computed_tokens rs) (num_locally_computed_tokens rs + n) g bl) →
  zlen (concat (offload_keys <$> group_states rs)) + zlen l < 2 ^ 31 →
  ∃ keys m2 rs2 allocated job, update_state_after_alloc req blocks n c =
      Ok (put_blocks_being_loaded ((λ s, list_to_set keys ∪ s) <$> _blocks_being_loaded c)
         (put_jobs (<[_job_counter c := mkJobStatus (request_id req) (num_workers (config c)) (list_to_set keys) false None None]> (_jobs c))
         (put_req_status (<[request_id req := rs2]> (_req_status c))
         (put_current_batch_load_jobs (<[_job_counter c := job]> (_current_batch_load_jobs c))
         (put_job_counter (_job_counter c + 1) (put_manager m2 (put_current_batch_allocated_block_ids allocated c))))))) ∧
    mgr_inv m2 (keys ++ l) ∧ Forall (λ k, mgr_status (manager c) k = HIT) keys ∧
    keys `sublist_of` concat (offload_keys <$> group_states rs) ∧
    transfer_jobs rs2 = {[ _job_counter c ]} ∧ offload_keys <$> group_states rs2 = offload_keys <$> group_states rs ∧
    (next_ok (group_states rs) → next_ok (group_states rs2)) ∧ max_offload_tokens rs2 = max_offload_tokens rs.
Proof.
  intros Hc Hi Hrs [Hlen Hjobs Hcomp _ _ Hhits] Hn Htable Hfew. unfold update_state_after_alloc.
  rewrite (proj2 (Z.eqb_neq n 0)) by lia. rewrite Hrs. cbn [of_option]. rewrite bind_ret. cbv zeta.
  set (rows := zip (zip (kv_group_configs (config c)) (group_states rs)) blocks).
  set (T := num_locally_computed_tokens rs + n) in *.
  assert (∀ x, x ∈ rows → ∃ i, kv_group_configs (config c) !! i = Some x.1.1 ∧ group_states rs !! i = Some x.1.2 ∧ blocks !! i = Some x.2) as Hrow.
  { intros [[g st] bl] Hin. apply list_elem_of_lookup in Hin as [i H]. apply lookup_zip_Some in H as [H Hb].
    apply lookup_zip_Some in H as [Hg Hst]. by exists i. }
  assert (∃ loads, mapR (load_group c (num_locally_computed_tokens rs) T) rows = Ok loads ∧
    Forall2 (λ x y, Forall (λ k, mgr_status (manager c) k = HIT) y.1.1.1 ∧ y.1.2 = zlen y.1.1.2 ∧ y.1.1.1 `sublist_of` offload_keys x.1.2) rows loads)
    as (loads & -> & Hloads).
  { assert (∀ x, x ∈ rows → ∃ y, load_group c (num_locally_computed_tokens rs) T x = Ok y ∧
      Forall (λ k, mgr_status (manager c) k = HIT) y.1.1.1 ∧ y.1.2 = zlen y.1.1.2 ∧ y.1.1.1 `sublist_of` offload_keys x.1.2) as Hx.
    { intros [[g st] bl] Hin. destruct (Hrow _ Hin) as (i & Hg & Hst & Hb). cbn in Hg, Hst, Hb.
      destruct (load_group_ok c rs (manager c) T i g st bl Hc Hg ltac:(lia) (Hhits i g st Hg Hst) (Htable i g bl Hg Hb))
        as (ks & ids & pe & pr & ? & ? & ? & ?). by exists (ks, ids, pe, pr). }
    destruct (mapR_total (load_group c (num_locally_computed_tokens rs) T) rows) as [loads Hm]; [intros x Hin; destruct (Hx x Hin); naive_solver|].
    exists loads. split; [done|]. apply mapR_Forall2 in Hm. clear -Hm Hx. induction Hm as [|x y rows loads Hy Hm IH]; constructor.
    - destruct (Hx x (list_elem_of_here _ _)) as (y' & Hy' & ?). rewrite Hy in Hy'. by simplify_eq.
    - apply IH. intros; apply Hx; by right. }
  rewrite bind_ret. set (keys := concat ((λ x, x.1.1.1) <$> loads)).
  assert (Forall (λ k, mgr_status (manager c) k = HIT) keys) as Hhit.
  { unfold keys. clear -Hloads. induction Hloads as [|x y rows loads (Hh & _ & _) _ IH]; cbn; [constructor|]. by apply Forall_app. }
  assert (keys `sublist_of` concat (offload_keys <$> group_states rs)) as Hsub.
  { unfold keys. etrans; [|apply concat_sublist, fmap_sublist, (zip3_sublist (kv_group_configs (config c)) (group_states rs) blocks)].
    fold rows. rewrite <- list_fmap_compose. clear -Hloads. induction Hloads as [|x y rows loads (_ & _ & Hs) _ IH]; cbn; [done|]. by apply sublist_app. }
  assert (zlen (keys ++ l) < 2 ^ 31) as Hsmall by (rewrite length_app; apply sublist_length in Hsub; lia).
  destruct (mgr_prepare_load_ok (manager c) l keys (request_id req) Hi Hhit Hsmall) as (src & m2 & -> & Hi2). rewrite bind_ret. cbv beta iota.
  unfold GPULoadStoreSpec_init. rewrite (sum_lengths (λ x, x.1.1.2)).
  2:{ intros y Hy. apply list_elem_of_lookup in Hy as [i Hy]. apply (Forall2_lookup_r _ _ _ _ _ Hloads) in Hy as (x & _ & _ & H & _). done. }
  rewrite Z.eqb_refl, !length_fmap, Z.eqb_refl. cbn [assert_ require]. rewrite !bind_ret. unfold _generate_job_id. cbv beta iota zeta.
  rewrite (bool_decide_true (transfer_jobs (put_group_states _ rs) = ∅)) by exact Hjobs. cbn [assert_ require]. rewrite bind_ret.
  eexists keys, m2, _, _, _. split; [reflexivity|]. split; [done|]. split; [done|]. split; [done|]. cbn. split; [set_solver|].
  split; [|split; [|done]].
  { rewrite fmap_app, <- list_fmap_compose. unfold rows. clear. generalize (kv_group_configs (config c)) as gs.
  intros gs. pose proof (zip3_keys gs (group_states rs) blocks) as E. apply (f_equal (fmap offload_keys)) in E.
  rewrite <- E, fmap_app, <- list_fmap_compose. f_equal.
  apply list_fmap_ext. intros _ [[g st] bl] _. cbn. by case_bool_decide. }
  unfold next_ok. rewrite Forall_app. intros Hok. split; [|by apply Forall_drop]. apply Forall_fmap, Forall_forall. intros [[g st] bl] Hin.
  destruct (Hrow _ Hin) as (i & Hg & Hst & _). cbn in Hg, Hst. cbn. pose proof (gc_size_pos _ _ _ Hc Hg).
  case_bool_decide; cbn; [apply cdiv_nonneg; lia|by apply (Forall_lookup_1 _ _ _ _ Hok Hst)].
Qed.
End Load.
