(* ===== verification/ConnectorInv.v ===== *)
(** * Jobs of the offloading connector

    The invariant of the connector between calls: the jobs are exactly the
    transfers of the tracked requests, the manager's running loads are those of
    the load jobs, and the blocks that a running store may lose before it ends are
    watched. *)

From S2P Require Import Prelude MathUtils PyDict Request BlockHash BlockPool SchedState KVSpec Offload.
From S2P Require Import OffloadConnector ConnectorSpec ConnectorLookup ConnectorLoad.

Local Open Scope Z_scope.

(** ** Jobs and requests *)

(** The keys a job reads from the offloading manager. *)
Definition load_keys (job : TransferJobStatus) : list OffloadKey := if is_store job then [] else elements (job_keys job).
Definition running_loads (jobs : gmap Z TransferJobStatus) : list OffloadKey := concat (load_keys <$> (map_to_list jobs).*2).

Lemma running_insert jobs j job : jobs !! j = None → running_loads (<[j := job]> jobs) ≡ₚ load_keys job ++ running_loads jobs.
Proof. intros Hj. unfold running_loads. by rewrite map_to_list_insert. Qed.
Lemma running_delete jobs j job : jobs !! j = Some job → running_loads jobs ≡ₚ load_keys job ++ running_loads (delete j jobs).
Proof. intros Hj. rewrite <- running_insert by apply lookup_delete_eq. by rewrite insert_delete_id. Qed.
Lemma running_count jobs j job n : jobs !! j = Some job → running_loads (<[j := put_pending_count n job]> jobs) ≡ₚ running_loads jobs.
Proof.
  intros Hj. rewrite (running_delete jobs j job Hj), <- insert_delete_eq, running_insert by apply lookup_delete_eq. done.
Qed.

(** [owned] maps a request to its jobs. *)
Record jobs_inv (owned : gmap string (gset Z)) (jobs : gmap Z TransferJobStatus) : Prop := {
  job_owner j job : jobs !! j = Some job → ∃ js, owned !! job_req_id job = Some js ∧ j ∈ js;
  job_listed id js j : owned !! id = Some js → j ∈ js → ∃ job, jobs !! j = Some job ∧ job_req_id job = id;
  job_alone id js j job : owned !! id = Some js → j ∈ js → jobs !! j = Some job → is_store job = false → js = {[ j ]};
}.

Lemma jobs_none owned jobs id : jobs_inv owned jobs → owned !! id = None → jobs_inv (<[id := ∅]> owned) jobs.
Proof.
  intros [H1 H2 H3] Hid. split.
  - intros j job Hj. destruct (H1 j job Hj) as (js & Ho & Hin). exists js. rewrite lookup_insert_ne; [done|]. congruence.
  - intros id' js j Ho Hin. destruct (decide (id' = id)) as [->|Hne]; [rewrite lookup_insert_eq in Ho; injection Ho as <-; by apply not_elem_of_empty in Hin|].
    rewrite lookup_insert_ne in Ho by done. by eapply H2.
  - intros id' js j job Ho Hin. destruct (decide (id' = id)) as [->|Hne]; [rewrite lookup_insert_eq in Ho; injection Ho as <-; by apply not_elem_of_empty in Hin|].
    rewrite lookup_insert_ne in Ho by done. by eapply H3.
Qed.
Lemma jobs_forget owned jobs id : jobs_inv owned jobs → owned !! id = Some ∅ → jobs_inv (delete id owned) jobs.
Proof.
  intros [H1 H2 H3] Hid. split.
  - intros j job Hj. destruct (H1 j job Hj) as (js & Ho & Hin). exists js. rewrite lookup_delete_ne; [done|]. intros E. rewrite <- E, Hid in Ho. injection Ho as <-. by apply not_elem_of_empty in Hin.
  - intros id' js j [? Ho]%lookup_delete_Some Hin. by eapply H2.
  - intros id' js j job [? Ho]%lookup_delete_Some Hin. by eapply H3.
Qed.
Lemma jobs_add owned jobs j job js : jobs_inv owned jobs → jobs !! j = None → owned !! job_req_id job = Some js →
  (∀ j' job', j' ∈ js → jobs !! j' = Some job' → is_store job' = true) → (is_store job = false → js = ∅) →
  jobs_inv (<[job_req_id job := {[ j ]} ∪ js]> owned) (<[j := job]> jobs).
Proof.
  intros [H1 H2 H3] Hj Hjs Hst Hld. split.
  - intros j' job' [[<- <-]|[Hne Hj']]%lookup_insert_Some; [exists ({[ j ]} ∪ js); rewrite lookup_insert_eq; split; [done|by apply elem_of_union_l, elem_of_singleton]|].
    destruct (H1 j' job' Hj') as (js' & Ho & Hin). destruct (decide (job_req_id job' = job_req_id job)) as [He|Hne'].
    + rewrite He, lookup_insert_eq. eexists. split; [done|]. rewrite He, Hjs in Ho. injection Ho as <-. by apply elem_of_union_r.
    + exists js'. by rewrite lookup_insert_ne.
  - intros id js' j' [[<- <-]|[Hne Ho]]%lookup_insert_Some Hin.
    + apply elem_of_union in Hin as [->%elem_of_singleton|Hin]; [exists job; by rewrite lookup_insert_eq|].
      destruct (H2 _ _ _ Hjs Hin) as (job' & Hj' & He). exists job'. rewrite lookup_insert_ne; [done|]. congruence.
    + destruct (H2 _ _ _ Ho Hin) as (job' & Hj' & He). exists job'. rewrite lookup_insert_ne; [done|]. congruence.
  - intros id js' j' job' [[<- <-]|[Hne Ho]]%lookup_insert_Some Hin [[<- <-]|[Hne' Hj']]%lookup_insert_Some Hl.
    + rewrite (Hld Hl). by rewrite (right_id_L ∅ (∪)).
    + apply elem_of_union in Hin as [->%elem_of_singleton|Hin]; [done|]. by rewrite (Hst j' job' Hin Hj') in Hl.
    + destruct (H2 _ _ _ Ho Hin) as (job' & Hj' & _). congruence.
    + by eapply H3.
Qed.
Lemma jobs_remove owned jobs j job js : jobs_inv owned jobs → jobs !! j = Some job → owned !! job_req_id job = Some js →
  jobs_inv (<[job_req_id job := js ∖ {[ j ]}]> owned) (delete j jobs).
Proof.
  intros [H1 H2 H3] Hj Hjs. destruct (H1 j job Hj) as (js1 & Ho1 & Hin1). rewrite Hjs in Ho1. injection Ho1 as <-. split.
  - intros j' job' [Hne Hj']%lookup_delete_Some. destruct (H1 j' job' Hj') as (js' & Ho & Hin).
    destruct (decide (job_req_id job' = job_req_id job)) as [He|Hne'].
    + rewrite He, lookup_insert_eq. eexists. split; [done|]. rewrite He, Hjs in Ho. injection Ho as <-.
      apply elem_of_difference. split; [done|]. by intros ->%elem_of_singleton.
    + exists js'. by rewrite lookup_insert_ne.
  - intros id js' j' [[<- <-]|[Hne Ho]]%lookup_insert_Some Hin.
    + apply elem_of_difference in Hin as [Hin Hnj]. destruct (H2 _ _ j' Hjs Hin) as (job' & Hj' & He). exists job'.
      rewrite lookup_delete_ne; [done|]. intros ->. by destruct Hnj; apply elem_of_singleton.
    + destruct (H2 _ _ j' Ho Hin) as (job' & Hj' & He). exists job'. rewrite lookup_delete_ne; [done|]. congruence.
  - intros id js' j' job' [[<- <-]|[Hne Ho]]%lookup_insert_Some Hin [Hne' Hj']%lookup_delete_Some Hl; [|by eapply H3].
    apply elem_of_difference in Hin as [Hin _]. rewrite (H3 _ _ j' job' Hjs Hin Hj' Hl) in Hin1. by apply elem_of_singleton in Hin1.
Qed.
Lemma jobs_count owned jobs j job n : jobs_inv owned jobs → jobs !! j = Some job → jobs_inv owned (<[j := put_pending_count n job]> jobs).
Proof.
  intros [H1 H2 H3] Hj. split.
  - intros j' job' [[<- <-]|[Hne Hj']]%lookup_insert_Some; [by apply (H1 j job)|by apply H1].
  - intros id js j' Ho Hin. destruct (H2 _ _ _ Ho Hin) as (job' & Hj' & He). destruct (decide (j' = j)) as [->|Hne].
    + eexists. rewrite lookup_insert_eq. split; [done|]. simplify_eq. done.
    + exists job'. by rewrite lookup_insert_ne.
  - intros id js j' job' Ho Hin [[<- <-]|[Hne Hj']]%lookup_insert_Some Hl; [by eapply (H3 id js j job)|by eapply H3].
Qed.

(** ** Watched blocks *)

(** The GPU blocks a job reads that its request may no longer hold. *)
Definition watched (F : gset string) (job : TransferJobStatus) : list nat :=
  default [] (sliding_window_block_ids job) ++
  (if decide (job_req_id job ∈ F) then default [] (non_sliding_window_block_ids job) else []).

Definition nonempty (pending : gmap nat (gset Z)) : Prop := ∀ bid js, pending !! bid = Some js → js ≠ ∅.
Definition watching (pending : gmap nat (gset Z)) (bid : nat) (j : Z) : Prop := ∃ js, pending !! bid = Some js ∧ j ∈ js.
Record pending_inv (F : gset string) (jobs : gmap Z TransferJobStatus) (pending : gmap nat (gset Z)) : Prop := {
  pending_exact bid j : watching pending bid j ↔ ∃ job, jobs !! j = Some job ∧ bid ∈ watched F job;
  pending_some : nonempty pending;
}.

Lemma watching_insert pending b js bid j : watching (<[b := js]> pending) bid j ↔ (bid = b ∧ j ∈ js) ∨ (bid ≠ b ∧ watching pending bid j).
Proof.
  unfold watching. destruct (decide (bid = b)) as [->|Hne].
  - rewrite lookup_insert_eq. split; [intros (js' & [= <-] & ?); by left|intros [[_ ?]|[? _]]; [by exists js|done]].
  - rewrite lookup_insert_ne by done. naive_solver.
Qed.
Lemma watching_delete pending b bid j : watching (delete b pending) bid j ↔ bid ≠ b ∧ watching pending bid j.
Proof.
  unfold watching. destruct (decide (bid = b)) as [->|Hne].
  - rewrite lookup_delete_eq. naive_solver.
  - rewrite lookup_delete_ne by done. naive_solver.
Qed.

Lemma watch_fold j ids pending : nonempty pending →
  let p' := fold_left (λ d bid, <[bid := {[ j ]} ∪ default ∅ (d !! bid)]> d) ids pending in
  nonempty p' ∧ ∀ bid j', watching p' bid j' ↔ watching pending bid j' ∨ (j' = j ∧ bid ∈ ids).
Proof.
  revert pending. induction ids as [|b ids IH]; intros pending Hn; cbn [fold_left].
  { split; [done|]. intros bid j'. rewrite elem_of_nil. naive_solver. }
  destruct (IH (<[b := {[ j ]} ∪ default ∅ (pending !! b)]> pending)) as [Hn' Hw].
  - intros bid js [[<- <-]|[_ H]]%lookup_insert_Some; [|by eapply Hn]. intros E. apply (non_empty_singleton_L (C := gset Z) j).
    apply empty_union_L in E as [E _]. exact E.
  - split; [exact Hn'|]. intros bid j'. rewrite Hw, watching_insert, elem_of_cons, elem_of_union, elem_of_singleton. clear.
    assert (j' ∈ default ∅ (pending !! b) ↔ watching pending b j') as ->.
    { unfold watching. destruct (pending !! b) as [js|]; cbn; [|rewrite elem_of_empty]; naive_solver. }
    destruct (decide (bid = b)) as [->|]; naive_solver.
Qed.

Section Pending.
Context {M : Type} `{!OffloadingManager M}.
Implicit Types (c : OffloadingConnectorScheduler M).

Lemma remove_pending_ok j ids c : nonempty (_block_id_to_pending_jobs c) → NoDup (default [] ids) →
  (∀ bid, bid ∈ default [] ids → watching (_block_id_to_pending_jobs c) bid j) →
  ∃ p', _remove_pending_job j ids c = Ok (put_block_id_to_pending_jobs p' c) ∧ nonempty p' ∧
    ∀ bid j', watching p' bid j' ↔ watching (_block_id_to_pending_jobs c) bid j' ∧ ¬ (j' = j ∧ bid ∈ default [] ids).
Proof.
  unfold _remove_pending_job. generalize (default [] ids) as l. clear ids. intros l. revert c.
  induction l as [|b l IH]; intros c Hn Hnd Hw; cbn [foldM].
  { exists (_block_id_to_pending_jobs c). split; [by destruct c|]. split; [done|]. intros bid j'. rewrite elem_of_nil. naive_solver. }
  destruct (Hw b) as (js & Hjs & Hin); [by left|]. rewrite Hjs. cbn [of_option]. rewrite bind_ret.
  rewrite bool_decide_true by done. cbn [require]. rewrite !bind_ret. cbv zeta. inversion_clear Hnd as [|? ? Hb Hnd'].
  set (p1 := if decide _ then _ else _).
  assert (∀ bid j', watching p1 bid j' ↔ watching (_block_id_to_pending_jobs c) bid j' ∧ ¬ (j' = j ∧ bid = b)) as Hw1.
  { intros bid j'. unfold p1. destruct (decide (js ∖ {[ j ]} = ∅)) as [E|E].
    - rewrite watching_delete. assert (∀ x, x ∈ js → x = j) as Hx.
      { intros x Hx. destruct (decide (x = j)); [done|]. destruct (not_elem_of_empty (C := gset Z) x). rewrite <- E.
        apply elem_of_difference. by rewrite elem_of_singleton. }
      unfold watching. split; [naive_solver|]. intros [(js' & Hjs' & Hj') Hne]. split; [|by exists js']. intros ->. naive_solver.
    - rewrite watching_insert, elem_of_difference, elem_of_singleton. unfold watching. destruct (decide (bid = b)) as [->|]; [|naive_solver].
      rewrite Hjs. naive_solver. }
  assert (nonempty p1) as Hn1.
  { intros bid js'. unfold p1. destruct (decide _) as [E|E].
    - intros [_ H]%lookup_delete_Some. by eapply Hn.
    - intros [[<- <-]|[_ H]]%lookup_insert_Some; [done|by eapply Hn]. }
  destruct (IH (put_block_id_to_pending_jobs p1 c)) as (p' & Hp & Hn' & Hw'); [exact Hn1|done| |].
  - intros bid Hbid. cbn. apply Hw1. split; [apply Hw; by right|]. intros [_ ->]. done.
  - exists p'. rewrite Hp. split; [done|]. split; [done|]. intros bid j'. rewrite Hw'. cbn [_block_id_to_pending_jobs put_block_id_to_pending_jobs].
    rewrite Hw1, elem_of_cons. naive_solver.
Qed.
End Pending.
