(* ===== verification/ConnectorSteps.v ===== *)
(** * The operations of the offloading connector preserve its invariant *)

From S2P Require Import Prelude MathUtils PyDict Request BlockHash BlockPool SchedState KVSpec Offload.
From S2P Require Import OffloadConnector ConnectorSpec ConnectorLookup ConnectorLoad ConnectorInv.

Local Open Scope Z_scope.

(** ** Lookups, loads and reset *)

Section Steps.
Context {M : Type} `{!OffloadingManager M, !OffloadingManagerSpec M}.
Abbreviation connector := (OffloadingConnectorScheduler M).
Implicit Types (c : connector) (F : gset string).

(** The block hashes of each request; they never repeat. *)
Variable H : string → list bytes.
Hypothesis H_nodup : ∀ id, NoDup (H id).

Definition job_blocks (job : TransferJobStatus) : list nat :=
  default [] (sliding_window_block_ids job) ++ default [] (non_sliding_window_block_ids job).

Record req_ok (cfg : SchedulerOffloadConfig) (id : string) (rs : RequestOffloadState) : Prop := {
  req_len : length (group_states rs) = length (kv_group_configs cfg);
  req_keys : all_keys_from (H id) cfg (group_states rs);
  req_next : next_ok (group_states rs);
  req_cap cap : max_offload_tokens rs = Some cap → 0 ≤ cap;
}.

(** [F] are the tracked requests that have finished. *)
Record conn_inv F c : Prop := {
  ci_cfg : config_ok c;
  ci_mgr : mgr_inv (manager c) (running_loads (_jobs c));
  ci_jobs : jobs_inv (transfer_jobs <$> _req_status c) (_jobs c);
  ci_pending : pending_inv F (_jobs c) (_block_id_to_pending_jobs c);
  ci_ids j job : _jobs c !! j = Some job → _stale_job_threshold c ≤ j < _job_counter c;
  ci_stale : _stale_job_threshold c ≤ _job_counter c;
  ci_job j job : _jobs c !! j = Some job → 0 < pending_count job ∧ NoDup (job_blocks job);
  ci_req id rs : _req_status c !! id = Some rs → req_ok (config c) id rs;
  ci_done id : id ∈ F → ∃ rs, _req_status c !! id = Some rs ∧ transfer_jobs rs ≠ ∅;
}.

(** *** Calls that touch neither the jobs nor the watched blocks *)

Record same_config c c' : Prop := {
  same_cfg : config c' = config c;
  same_sliding : _sliding_window_groups c' = _sliding_window_groups c;
  same_lookup : _lookup_groups c' = _lookup_groups c;
  same_align : _mamba_align_size c' = _mamba_align_size c;
}.
Lemma same_config_ok c c' : same_config c c' → config_ok c → config_ok c'.
Proof. intros [E1 E2 E3 E4] [H1 H2 H3 H4 H5 H6]. split; rewrite ?E1, ?E2, ?E3, ?E4; done. Qed.

Record quiet c c' : Prop := {
  quiet_cfg : same_config c c';
  quiet_jobs : _jobs c' = _jobs c;
  quiet_pending : _block_id_to_pending_jobs c' = _block_id_to_pending_jobs c;
  quiet_counter : _job_counter c' = _job_counter c;
  quiet_stale : _stale_job_threshold c' = _stale_job_threshold c;
  quiet_mgr : mgr_inv (manager c) (running_loads (_jobs c)) → mgr_inv (manager c') (running_loads (_jobs c));
  quiet_transfers : transfer_jobs <$> _req_status c' = transfer_jobs <$> _req_status c;
  quiet_req : (∀ id rs, _req_status c !! id = Some rs → req_ok (config c) id rs) →
    ∀ id rs, _req_status c' !! id = Some rs → req_ok (config c) id rs;
}.

Lemma quiet_refl c : quiet c c.
Proof. by split. Qed.
Lemma quiet_trans c c' c'' : quiet c c' → quiet c' c'' → quiet c c''.
Proof.
  intros [[A1 A2 A3 A4] H1 H2 H3 H4 H5 H6 H7] [[B1 B2 B3 B4] G1 G2 G3 G4 G5 G6 G7]. split; [split|..]; try congruence; eauto.
  { intros Hm. rewrite <- H1. apply G5. rewrite H1. auto. }
  intros Hreq. rewrite <- A1. apply G7. rewrite A1. by apply H7.
Qed.

Lemma transfers_same (d d' : gmap string RequestOffloadState) id rs' : transfer_jobs <$> d' = transfer_jobs <$> d → d' !! id = Some rs' →
  ∃ rs, d !! id = Some rs ∧ transfer_jobs rs = transfer_jobs rs'.
Proof.
  intros E Hid. apply (f_equal (.!! id)) in E. rewrite !lookup_fmap, Hid in E. cbn in E. symmetry in E. apply fmap_Some in E as (rs & ? & ?). eauto.
Qed.

Lemma quiet_inv F c c' : conn_inv F c → quiet c c' → conn_inv F c'.
Proof.
  intros [H1 H2 H3 H4 H5 Hsc H6 H7 H8] [E1 E2 E3 E4 E5 E6 E7 E8].
  split; rewrite ?E2, ?E3, ?E4, ?E5, ?E7, ?(same_cfg _ _ E1); auto.
  - by eapply same_config_ok.
  - intros id Hid. destruct (H8 id Hid) as (rs & Hrs & Hne). symmetry in E7. destruct (transfers_same _ _ _ _ E7 Hrs) as (rs' & Hrs' & E).
    exists rs'. by rewrite E.
Qed.

Lemma quiet_insert c id rs rs' : _req_status c !! id = Some rs → transfer_jobs rs' = transfer_jobs rs →
  (req_ok (config c) id rs → req_ok (config c) id rs') → quiet c (put_req_status (<[id := rs']> (_req_status c)) c).
Proof.
  intros Hrs Ht Hok. split; [by split|done..| |].
  - cbn. rewrite fmap_insert. apply insert_id. by rewrite lookup_fmap, Hrs, Ht.
  - cbn. intros Hreq id' rs'' [[<- <-]|[_ ?]]%lookup_insert_Some; auto.
Qed.
Lemma quiet_manager c m : (mgr_inv (manager c) (running_loads (_jobs c)) → mgr_inv m (running_loads (_jobs c))) → quiet c (put_manager m c).
Proof. intros Hm. split; [by split|done..]. Qed.

(** *** New requests and lookups *)

Lemma owned_insert c id rs : transfer_jobs <$> <[id := rs]> (_req_status c) = <[id := transfer_jobs rs]> (transfer_jobs <$> _req_status c).
Proof. apply fmap_insert. Qed.

Lemma on_new_inv F c req cap : conn_inv F c → _req_status c !! request_id req = None → conn_inv F (on_new_request req cap c).
Proof.
  intros Hi Hnone. unfold on_new_request. pose proof (mgr_new_ok (manager c) (running_loads (_jobs c)) (request_id req) (ci_mgr _ _ Hi)) as Hm.
  destruct (mgr_on_new_request (request_id req) (manager c)) as [policy m]. destruct Hi as [H1 H2 H3 H4 H5 Hsc H6 H7 H8]. split; cbn.
  - apply (same_config_ok c); [by split|done].
  - done.
  - rewrite owned_insert. apply jobs_none; [done|]. by rewrite lookup_fmap, Hnone.
  - done.
  - done.
  - done.
  - done.
  - intros id rs [[<- <-]|[_ ?]]%lookup_insert_Some; [|auto]. split; cbn.
    + by rewrite length_fmap.
    + intros i g st _ Hst. cbn in Hst. rewrite list_lookup_fmap in Hst. apply fmap_Some in Hst as (? & _ & ->). intros j k Hj. cbn in Hj. by rewrite lookup_nil in Hj.
    + by apply Forall_fmap, Forall_forall.
    + intros n. destruct cap as [m'|]; [|done]. destruct (Z.geb_spec m' 0); [|done]. by intros [= <-].
  - intros id Hid. destruct (H8 id Hid) as (rs & Hrs & Hne). exists rs. rewrite lookup_insert_ne; [done|]. congruence.
Qed.

(** What the connector relies on when it is asked about a request. *)
Record request_ok c (req : Request) (comp : Z) : Prop := {
  rq_eagle : no_eagle c;
  rq_hashed : hashed c req;
  rq_hashes : block_hashes req `prefix_of` H (request_id req);
  rq_comp : 0 ≤ comp;
}.

Lemma get_matched_inv F c req comp rs : conn_inv F c → _req_status c !! request_id req = Some rs → request_ok c req comp →
  ∃ r b c', get_num_new_matched_tokens req comp c = Ok (r, b, c') ∧ quiet c c' ∧ conn_inv F c' ∧ _jobs c' = _jobs c ∧
    ∃ rs1, _req_status c' !! request_id req = Some rs1 ∧
      ∀ n, r = Some n → n ≠ 0 → 0 < n ∧ num_locally_computed_tokens rs1 = comp ∧ matched c' req rs1 n.
Proof.
  intros Hi Hrs [He Hh Hpre Hcomp]. pose proof (ci_req _ _ Hi _ _ Hrs) as [Hlen Hk Hnx0 Hcap0].
  destruct (get_matched_ok c _ req rs comp (ci_cfg _ _ Hi) He (ci_mgr _ _ Hi) Hrs Hlen Hh Hcomp)
    as (r & b & rs1 & m1 & -> & Hm1 & Ht & Hl1 & Hk1 & Hnx & Hcap & Hc1 & Hn). eexists _, _, _. split; [reflexivity|].
  assert (quiet c (put_manager m1 (put_req_status (<[request_id req := rs1]> (_req_status c)) c))) as Hq.
  { apply (quiet_trans _ (put_req_status (<[request_id req := rs1]> (_req_status c)) c)).
    - apply (quiet_insert _ _ rs); [done|done|]. intros _. split; [done|by apply Hk1|auto|by rewrite Hcap].
    - by apply quiet_manager. }
  split; [done|]. split; [by eapply quiet_inv|]. split; [done|]. exists rs1. cbn. rewrite lookup_insert_eq. split; [done|].
  intros n Hr Hne. destruct (Hn n Hr) as (Ht0 & _ & Hm). destruct (Hm Hne) as [Hpos [J1 J2 J3 J4 J5 J6]]. split; [done|]. split; [by apply Hc1|].
  by split.
Qed.

Lemma nodup_elements (keys : list OffloadKey) : NoDup keys → elements (list_to_set keys : gset OffloadKey) ≡ₚ keys.
Proof. apply elements_list_to_set. Qed.

(** A new job of a tracked request. *)
Lemma new_job_inv F c c' job rs rs' : conn_inv F c → same_config c c' → _req_status c !! job_req_id job = Some rs → job_req_id job ∉ F →
  _jobs c' = <[_job_counter c := job]> (_jobs c) → _req_status c' = <[job_req_id job := rs']> (_req_status c) →
  transfer_jobs rs' = {[ _job_counter c ]} ∪ transfer_jobs rs → req_ok (config c) (job_req_id job) rs' →
  (∀ j job', j ∈ transfer_jobs rs → _jobs c !! j = Some job' → is_store job' = true) → (is_store job = false → transfer_jobs rs = ∅) →
  _job_counter c' = _job_counter c + 1 → _stale_job_threshold c' = _stale_job_threshold c →
  0 < pending_count job → NoDup (job_blocks job) → mgr_inv (manager c') (load_keys job ++ running_loads (_jobs c)) →
  nonempty (_block_id_to_pending_jobs c') →
  (∀ bid j, watching (_block_id_to_pending_jobs c') bid j ↔
     watching (_block_id_to_pending_jobs c) bid j ∨ (j = _job_counter c ∧ bid ∈ default [] (sliding_window_block_ids job))) →
  conn_inv F c'.
Proof.
  intros [H1 H2 H3 H4 H5 Hle H6 H7 H8] Hcfg Hrs HF Hj Hr Ht Hok Hst Hld Hcnt Hsta Hpos Hnd Hm Hne Hw.
  assert (_jobs c !! _job_counter c = None) as Hfresh.
  { destruct (_jobs c !! _job_counter c) as [job'|] eqn:E; [|done]. apply H5 in E. lia. }
  split; rewrite ?Hj, ?Hr, ?Hcnt, ?Hsta, ?(same_cfg _ _ Hcfg).
  - by eapply same_config_ok.
  - by eapply mgr_inv_perm; [symmetry; apply running_insert|].
  - rewrite owned_insert, Ht. apply jobs_add; [done|done|by rewrite lookup_fmap, Hrs|done|done].
  - split; [|done]. intros bid j. rewrite Hw, (pending_exact _ _ _ H4). setoid_rewrite lookup_insert_Some. unfold watched.
    split.
    + intros [(job' & Hj' & Hb)|[-> Hb]]; [|exists job; split; [by left|apply elem_of_app; by left]].
      exists job'. split; [|done]. right. split; [|done]. intros <-. congruence.
    + intros (job' & [[<- <-]|[Hne' Hj']] & Hb); [|left; by exists job']. right. split; [done|].
      rewrite decide_False, app_nil_r in Hb by done. done.
  - intros j job' [[<- <-]|[_ Hj']]%lookup_insert_Some; [lia|]. apply H5 in Hj'. lia.
  - lia.
  - intros j job' [[<- <-]|[_ Hj']]%lookup_insert_Some; [done|]. by eapply H6.
  - intros id rs'' [[<- <-]|[_ ?]]%lookup_insert_Some; auto.
  - intros id Hid. destruct (H8 id Hid) as (rs'' & Hrs'' & Hne''). exists rs''. rewrite lookup_insert_ne; [done|]. congruence.
Qed.

(** The GPU blocks the scheduler allocates for [n] external tokens. *)
Definition tables_ok c (comp n : Z) (blocks : list (list KVCacheBlock)) : Prop :=
  ∀ i g bl, kv_group_configs (config c) !! i = Some g → blocks !! i = Some bl → table_ok (block_size_factor (config c)) comp (comp + n) g bl.

Lemma load_inv F c req rs n blocks : conn_inv F c → _req_status c !! request_id req = Some rs → request_id req ∉ F →
  matched c req rs n → 0 < n → tables_ok c (num_locally_computed_tokens rs) n blocks →
  zlen (concat (offload_keys <$> group_states rs)) + zlen (running_loads (_jobs c)) < 2 ^ 31 →
  ∃ c', update_state_after_alloc req blocks n c = Ok c' ∧ conn_inv F c'.
Proof.
  intros Hi Hrs HF Hmat Hn Htab Hsmall.
  destruct (load_start_ok c _ req rs n blocks (ci_cfg _ _ Hi) (ci_mgr _ _ Hi) Hrs Hmat Hn Htab Hsmall)
    as (keys & m2 & rs2 & alloc & job & -> & Hm2 & _ & Hsub & Ht & Hk & Hnx & Hcap). eexists. split; [reflexivity|].
  pose proof (ci_req _ _ Hi _ _ Hrs) as [Hlen Hkeys Hnext Hc0].
  assert (NoDup keys) as Hndk.
  { eapply sublist_NoDup; [|exact Hsub]. eapply (all_keys_nodup (H (request_id req))); [done|apply (cfg_group _ (ci_cfg _ _ Hi))|lia|done]. }
  eapply (new_job_inv F c _ _ rs rs2 Hi); try done; cbn; try done.
  - by rewrite Ht, (matched_jobs _ _ _ _ Hmat), (right_id_L ∅ (∪)).
  - split; [|by eapply all_keys_same|auto|by rewrite Hcap]. by rewrite <- (length_fmap offload_keys), Hk, length_fmap.
  - rewrite (matched_jobs _ _ _ _ Hmat). by intros j job' ?%not_elem_of_empty.
  - intros _. apply Hmat.
  - apply (cfg_workers _ (ci_cfg _ _ Hi)).
  - constructor.
  - eapply mgr_inv_perm; [|exact Hm2]. unfold load_keys. cbn. by rewrite nodup_elements.
  - apply (pending_some _ _ _ (ci_pending _ _ Hi)).
  - intros bid j. rewrite elem_of_nil. naive_solver.
Qed.
End Steps.

(** ** A scheduling step *)

Section Meta.
Context {M : Type} `{!OffloadingManager M, !OffloadingManagerSpec M}.
Abbreviation connector := (OffloadingConnectorScheduler M).
Implicit Types (c : connector) (F : gset string).
Variable H : string → list bytes.
Hypothesis H_nodup : ∀ id, NoDup (H id).
Abbreviation conn_inv := (conn_inv H).
Abbreviation quiet := (quiet H).
Abbreviation req_ok := (req_ok H).

(** *** New keys and blocks *)

Definition tracked c (id : string) : Prop := is_Some (_req_status c !! id).
Lemma quiet_tracked c c' id : quiet c c' → tracked c id → tracked c' id.
Proof.
  intros Hq [rs Hrs]. pose proof (quiet_transfers _ _ _ Hq) as E. symmetry in E. destruct (transfers_same _ _ _ _ E Hrs) as (rs' & ? & _). by exists rs'.
Qed.

(** A row of the scheduler's output: a tracked request, with blocks for every group or none. *)
Definition row_ok c (y : string * option (list (list nat)) * bool) : Prop :=
  tracked c y.1.1 ∧ ∀ new, y.1.2 = Some new → new ≠ [] → length new = length (kv_group_configs (config c)).
Definition row_blocks (y : string * option (list (list nat)) * bool) : list nat := concat (default [] y.1.2).

Lemma update_blocks_ok cfg id new rs : req_ok cfg id rs → length new = length (kv_group_configs cfg) →
  ∃ rs', update_block_id_groups new rs = Ok rs' ∧ req_ok cfg id rs' ∧ transfer_jobs rs' = transfer_jobs rs.
Proof.
  intros [H1 H2 H3 H4] Hl. unfold update_block_id_groups. rewrite (proj2 (Z.eqb_eq _ _)) by lia. cbn [assert_ require]. rewrite bind_ret.
  eexists. split; [done|]. split; [|done]. split; cbn; [rewrite length_zip_with; lia| | |done].
  - eapply all_keys_same; [|exact H2]. apply list_eq. intros i. rewrite !list_lookup_fmap, lookup_zip_with.
    destruct (group_states rs !! i) as [st|] eqn:Hst; cbn; [|done]. apply lookup_lt_Some in Hst.
    destruct (lookup_lt_is_Some_2 new i) as [n ->]; [lia|done].
  - apply Forall_lookup. intros i st. rewrite lookup_zip_with_Some. intros (st0 & new0 & -> & Hst0 & _). cbn.
    apply (Forall_lookup_1 _ _ _ _ H3 Hst0).
Qed.

Lemma update_req_ok F c reqs ends y : conn_inv F c → row_ok c y → block_hashes (reqs y.1.1) `prefix_of` H y.1.1 →
  ∃ ends' c', update_req reqs (ends, c) y = Ok (ends', c') ∧ quiet c c' ∧ _current_batch_jobs_to_flush c' = _current_batch_jobs_to_flush c ∧
    ∀ b, b ∈ _current_batch_allocated_block_ids c' ↔ b ∈ _current_batch_allocated_block_ids c ∨ (b ≠ 0%nat ∧ b ∈ row_blocks y).
Proof.
  destruct y as [[id new] preempted]. intros Hi [[rs Hrs] Hnew] Hpre. cbn in Hrs, Hnew, Hpre. unfold update_req. rewrite Hrs. cbn [of_option].
  rewrite bind_ret. pose proof (ci_req _ _ _ Hi _ _ Hrs) as [H1 H2 H3 H4].
  destruct (update_keys_ok (config c) (reqs id) rs _ H1 (cfg_group _ (ci_cfg _ _ _ Hi))) as (gs & -> & Hl & Hgs). rewrite bind_ret.
  set (rs1 := if preempted then _ else _).
  assert (req_ok (config c) id rs1 ∧ transfer_jobs rs1 = transfer_jobs rs) as [Hok1 Ht1].
  { assert (all_keys_from (H id) (config c) gs) as Hk.
    { intros i g st Hg Hst. destruct (Hgs i g st Hg Hst) as (_ & st0 & Hst0 & Hk & _). apply Hk; [done|]. by eapply H2. }
    assert (next_ok gs) as Hn.
    { eapply next_ok_same; [exact H1|exact Hl| |exact H3]. intros i st st' Hst Hst'.
      destruct (lookup_lt_is_Some_2 (kv_group_configs (config c)) i) as [g Hg]; [apply lookup_lt_Some in Hst'; lia|].
      destruct (Hgs i g st' Hg Hst') as (_ & st0 & Hst0 & _ & E). congruence. }
    unfold rs1. destruct preempted; (split; [|done]); split; cbn; rewrite ?length_fmap; try done.
    - eapply all_keys_same; [|exact Hk]. by rewrite <- list_fmap_compose.
    - by apply Forall_fmap. }
  assert (∀ rs', req_ok (config c) id rs' → transfer_jobs rs' = transfer_jobs rs → quiet c (put_req_status (<[id := rs']> (_req_status c)) c)) as Hq.
  { intros rs' Hok' Ht'. by apply (quiet_insert _ _ _ rs). }
  destruct new as [[|n0 new]|].
  - eexists _, _. split; [done|]. split; [by apply Hq|]. split; [done|]. intros b. cbn. rewrite elem_of_nil. naive_solver.
  - destruct (mapR_total (λ i, st ← of_option IndexError (group_states rs1 !! i); Ok (zlen (block_ids st))) (_sliding_window_groups c)) as [lens ->].
    { intros i (g & Hg & _)%(cfg_sliding _ (ci_cfg _ _ _ Hi)). apply lookup_lt_Some in Hg. rewrite <- (req_len _ _ _ _ Hok1) in Hg.
      apply lookup_lt_is_Some_2 in Hg as [st ->]. by eexists. }
    rewrite bind_ret. destruct (update_blocks_ok (config c) id (n0 :: new) rs1 Hok1 (Hnew _ eq_refl ltac:(done))) as (rs2 & -> & Hok2 & Ht2).
    rewrite bind_ret. eexists _, _. split; [reflexivity|]. destruct (Hq rs2 Hok2 ltac:(congruence)) as [Q1 Q2 Q3 Q4 Q5 Q6 Q7 Q8].
    split; [destruct Q1; split; [by split|done..]|]. split; [done|]. intros b. cbn [_current_batch_allocated_block_ids put_current_batch_allocated_block_ids put_req_status].
    rewrite elem_of_union, elem_of_list_to_set, list_elem_of_filter. unfold row_blocks. cbn. naive_solver.
  - eexists _, _. split; [done|]. split; [by apply Hq|]. split; [done|]. intros b. cbn. rewrite elem_of_nil. naive_solver.
Qed.

Lemma zero_stale_ok cfg c ends id rs : req_ok cfg id rs → req_ok cfg id (zero_stale c ends id rs).
Proof.
  intros [H1 H2 H3 H4]. unfold zero_stale. split; cbn; [by rewrite length_imap| | |done].
  - eapply all_keys_same; [|exact H2]. apply list_eq. intros i. rewrite !list_lookup_fmap, list_lookup_imap. destruct (group_states rs !! i); cbn; [|done].
    by destruct (list_find _ _) as [[??]|].
  - apply Forall_lookup. intros i st. rewrite list_lookup_imap. intros (st0 & Hst0 & ->)%fmap_Some. pose proof (Forall_lookup_1 _ _ _ _ H3 Hst0).
    by destruct (list_find _ _) as [[??]|].
Qed.

Lemma update_states_ok F c reqs out : conn_inv F c → Forall (row_ok c) (yield_req_data out) → (∀ id, block_hashes (reqs id) `prefix_of` H id) →
  ∃ c', _update_req_states reqs out c = Ok c' ∧ quiet c c' ∧ _current_batch_jobs_to_flush c' = _current_batch_jobs_to_flush c ∧
    ∀ b, b ∈ _current_batch_allocated_block_ids c' ↔
      b ∈ _current_batch_allocated_block_ids c ∨ (b ≠ 0%nat ∧ ∃ y, y ∈ yield_req_data out ∧ b ∈ row_blocks y).
Proof.
  intros Hi Hrows Hpre. unfold _update_req_states.
  destruct (foldM_ind (λ ys (x : gmap string (list Z) * connector), quiet c x.2 ∧ _current_batch_jobs_to_flush x.2 = _current_batch_jobs_to_flush c ∧
    ∀ b, b ∈ _current_batch_allocated_block_ids x.2 ↔ b ∈ _current_batch_allocated_block_ids c ∨ (b ≠ 0%nat ∧ ∃ y, y ∈ ys ∧ b ∈ row_blocks y))
    (update_req reqs) (∅, c) (yield_req_data out)) as ([ends c1] & -> & Hq & Hf & Hb).
  - split; [apply quiet_refl|]. split; [done|]. intros b. cbn. split; [by left|]. by intros [?|(_ & y & ?%not_elem_of_nil & _)].
  - intros ys y rest [ends c1] E (Hq & Hf & Hb). cbn [snd] in *.
    assert (row_ok c1 y) as Hy.
    { rewrite E in Hrows. apply Forall_app in Hrows as [_ [[Ht Hl] _]%Forall_cons]. split; [by eapply quiet_tracked|].
      by rewrite (same_cfg _ _ (quiet_cfg _ _ _ Hq)). }
    destruct (update_req_ok F c1 reqs ends y) as (ends' & c2 & Hu & Hq2 & Hf2 & Hb2); [by eapply quiet_inv|done|done|].
    exists (ends', c2). split; [done|]. split; [by eapply quiet_trans|]. split; [cbn; congruence|]. intros b. cbn. rewrite Hb2, Hb.
    setoid_rewrite elem_of_app. setoid_rewrite list_elem_of_singleton. naive_solver.
  - cbn [snd] in *. rewrite bind_ret. cbv beta iota. case_match; [|by exists c1]. eexists. split; [done|]. split; [|done].
    eapply quiet_trans; [exact Hq|]. split; [by split|done..| |].
    + apply map_eq. intros id. rewrite !lookup_fmap. cbn. rewrite map_lookup_imap. by destruct (_req_status c1 !! id).
    + intros Hok id rs. cbn. rewrite map_lookup_imap. destruct (_req_status c1 !! id) as [rs0|] eqn:E; cbn; [|done]. intros [= <-].
      apply zero_stale_ok. by apply Hok.
Qed.
End Meta.
