(* ===== verification/ConnectorStore.v ===== *)
(** * Store jobs of the offloading connector *)

From S2P Require Import Prelude MathUtils PyDict Request BlockHash BlockPool SchedState KVSpec Offload.
From S2P Require Import OffloadConnector ConnectorSpec ConnectorLookup ConnectorLoad ConnectorInv ConnectorSteps.

Local Open Scope Z_scope.

(** ** Slices *)

Lemma slice_eq {A} (l : list A) a b : 0 ≤ a → a ≤ b → b ≤ zlen l → py_slice l a b = take (Z.to_nat (b - a)) (drop (Z.to_nat a) l).
Proof. intros. unfold py_slice. by rewrite !py_clip_id by lia. Qed.
Lemma slice_empty {A} (l : list A) a b : 0 ≤ b ≤ a → py_slice l a b = [].
Proof.
  intros Hb. unfold py_slice, py_clip. rewrite !(proj2 (Z.ltb_ge _ _)) by lia.
  replace (Z.to_nat (Z.min b (zlen l) - Z.min a (zlen l))) with 0%nat by lia. done.
Qed.
Lemma slice_sublist {A} (l : list A) a b : py_slice l a b `sublist_of` l.
Proof. unfold py_slice. etrans; [apply sublist_take|apply sublist_drop]. Qed.

Lemma lookup_range_slice (l : list nat) a n : 0 ≤ a → (Z.to_nat a + n ≤ length l)%nat →
  (λ j, l !!! Z.to_nat j) <$> seqZ a (Z.of_nat n) = take n (drop (Z.to_nat a) l).
Proof.
  intros Ha Hn. apply list_eq. intros i. rewrite list_lookup_fmap. destruct (decide (i < n)%nat) as [Hi|Hi].
  - rewrite lookup_seqZ_lt, lookup_take_lt, lookup_drop by lia. cbn. replace (Z.to_nat (a + Z.of_nat i)) with (Z.to_nat a + i)%nat by lia.
    symmetry. apply list_lookup_lookup_total_lt. lia.
  - rewrite lookup_seqZ_ge, lookup_take_ge by lia. done.
Qed.

Abbreviation nonzero := (filter (λ b : nat, b ≠ 0%nat)).

Lemma nonzero_snd (l : list (Z * nat)) : (filter (λ x, x.2 ≠ 0%nat) l).*2 = nonzero l.*2.
Proof. induction l as [|[j b] l IH]; [done|]. cbn [fmap list_fmap]. rewrite !filter_cons. cbn [snd]. destruct (decide _); cbn; by rewrite IH. Qed.

Lemma zip_snd_sublist {A B} (la : list A) (lb : list B) : (zip la lb).*2 `sublist_of` lb.
Proof. revert lb. induction la as [|a la IH]; intros [|b lb]; cbn; try apply sublist_nil_l. by apply sublist_skip. Qed.

(** Splitting lists by a test on their labels. *)
Lemma split_concat {A B} (p : A → bool) (l : list (A * list B)) :
  concat ((λ x, if p x.1 then x.2 else []) <$> l) ++ concat ((λ x, if p x.1 then [] else x.2) <$> l) ≡ₚ concat l.*2.
Proof.
  induction l as [|[a bs] l IH]; cbn; [done|]. rewrite <- IH. destruct (p a); cbn; [by rewrite app_assoc|].
  rewrite !app_assoc. apply Permutation_app_tail, Permutation_app_comm.
Qed.

Section Store.
Context {M : Type} `{!OffloadingManager M, !OffloadingManagerSpec M}.
Abbreviation connector := (OffloadingConnectorScheduler M).
Implicit Types (c : connector) (F : gset string).
Variable H : string → list bytes.
Hypothesis H_nodup : ∀ id, NoDup (H id).
Abbreviation conn_inv := (conn_inv H).
Abbreviation quiet := (quiet H).
Abbreviation req_ok := (req_ok H).

(** ** Keys and blocks of one group *)

(** The keys and blocks of a group reach [tokens]. *)
Record group_filled c (tokens : Z) (g : GroupOffloadConfig) (st : RequestGroupState) : Prop := {
  filled_keys : tokens / offloaded_block_size g ≤ zlen (offload_keys st);
  filled_blocks : tokens / offloaded_block_size g * block_size_factor (config c) ≤ zlen (block_ids st);
}.

Lemma reachable_ok c i g j : config_ok c → kv_group_configs (config c) !! i = Some g → ∃ b, block_reachable g j = Ok b.
Proof.
  intros Hc Hg. unfold block_reachable. destruct (alignment_block_count g) as [n|] eqn:E; [|by eexists].
  pose proof (gc_tail _ _ _ (cfg_group _ Hc _ _ Hg) _ E). destruct (sliding_window_size_in_blocks g); [|done]. by eexists.
Qed.

Lemma store_keys_ok c tokens i g st : config_ok c → kv_group_configs (config c) !! i = Some g → 0 ≤ tokens → 0 ≤ next_stored_block_idx st →
  group_filled c tokens g st → ∃ ks, store_group_keys c tokens (g, st) = Ok ks ∧ ks `sublist_of` offload_keys st.
Proof.
  intros Hc Hg Ht Hn [Hk Hb]. unfold store_group_keys. pose proof (gc_size_pos _ _ _ Hc Hg) as Hsize. pose proof (cfg_factor _ Hc) as Hf.
  set (f := block_size_factor (config c)) in *. set (nb := tokens / offloaded_block_size g) in *. set (start := next_stored_block_idx st) in *.
  assert (0 ≤ nb) as Hnb by (apply Z.div_pos; lia). set (n := if is_eagle_group g then _ else _).
  assert (0 ≤ n ≤ nb) as Hn' by (unfold n; destruct (is_eagle_group g); lia). clearbody n.
  destruct (Z.leb_spec n start) as [Hle|Hlt]; [exists []; split; [done|apply sublist_nil_l]|].
  set (keys := py_slice (offload_keys st) start n). set (ids := py_stride _ _ _).
  assert (zlen keys = n - start) as Hlk by (apply length_slice; lia).
  assert (zlen ids = n - start) as Hli.
  { unfold ids. rewrite py_stride_length by lia. assert (start * f + f - 1 ≤ n * f) by nia. assert (n * f ≤ nb * f) by nia.
    pose proof (length_slice (block_ids st) (start * f + f - 1) (n * f) ltac:(nia) ltac:(lia)) as Hs.
    rewrite Nat2Z.inj_div, Z2Nat.id by lia.
    replace (Z.of_nat (length (py_slice (block_ids st) (start * f + f - 1) (n * f)) + Z.to_nat f - 1 - 0)) with ((n - start) * f) by lia.
    by rewrite Z.div_mul by lia. }
  rewrite Hlk, Hli, Z.eqb_refl. cbn [assert_ require]. rewrite bind_ret.
  destruct (foldM_ind (λ ys acc, acc `sublist_of` ((λ y : nat * (OffloadKey * nat), y.2.1) <$> ys))
    (λ acc (y : nat * (OffloadKey * nat)), let '(j, (k, bid)) := y in
      if bool_decide (bid = 0%nat) then Ok acc else
      b ← block_reachable g (start + Z.of_nat j); Ok (if (b : bool) then acc ++ [k] else acc)) [] (imap (λ j y, (j, y)) (zip keys ids)))
    as (ks & -> & Hsub); [done| |].
  - intros ys [j [k b]] rest acc _ Hacc. rewrite fmap_app. case_bool_decide; [exists acc; split; [done|by apply sublist_inserts_r]|].
    destruct (reachable_ok c i g (start + Z.of_nat j) Hc Hg) as [r ->]. rewrite bind_ret. eexists. split; [done|].
    destruct r; [by apply sublist_app|by apply sublist_inserts_r].
  - exists ks. split; [done|]. etrans; [exact Hsub|]. rewrite fmap_imap. etrans; [|apply (slice_sublist _ start n)]. fold keys.
    rewrite (imap_ext _ (const fst)) by done. rewrite imap_const, fst_zip by lia. done.
Qed.

Lemma key_blocks_ok c st i : 0 < block_size_factor (config c) → 0 ≤ i → (i + 1) * block_size_factor (config c) ≤ zlen (block_ids st) →
  ∃ bs, key_blocks c st i = Ok bs ∧
    bs.*2 = nonzero (take (Z.to_nat (block_size_factor (config c))) (drop (Z.to_nat (i * block_size_factor (config c))) (block_ids st))).
Proof.
  intros Hf Hi Hb. unfold key_blocks. set (f := block_size_factor (config c)) in *.
  rewrite (mapR_Ok _ (λ j, (j, block_ids st !!! Z.to_nat j))).
  - rewrite bind_ret. eexists. split; [done|]. rewrite nonzero_snd, <- list_fmap_compose. f_equal. unfold py_range.
    replace (i * f + f - i * f) with (Z.of_nat (Z.to_nat f)) by lia. apply lookup_range_slice; nia.
  - intros j [Hj1 Hj2]%elem_of_seqZ. destruct (lookup_lt_is_Some_2 (block_ids st) (Z.to_nat j)) as [b Hb']; [nia|].
    rewrite (proj2 (py_get_nonneg _ j b ltac:(nia)) Hb'), bind_ret. by rewrite (list_lookup_total_correct _ _ _ Hb').
Qed.

(** The GPU blocks a store of [tokens] may read in a group. *)
Definition group_blocks c (tokens : Z) (x : GroupOffloadConfig * RequestGroupState) : list nat :=
  let '(g, st) := x in
  nonzero (py_slice (block_ids st) (next_stored_block_idx st * block_size_factor (config c)) (tokens / offloaded_block_size g * block_size_factor (config c))).

Lemma chosen_blocks c st (ks0 : gset OffloadKey) start ks n : 0 < block_size_factor (config c) → 0 ≤ start →
  (start + Z.of_nat n + zlen ks) * block_size_factor (config c) ≤ zlen (block_ids st) →
  ∃ bs, mapR (λ y : nat * OffloadKey, if bool_decide (y.2 ∈ ks0) then key_blocks c st (start + Z.of_nat y.1) else Ok [])
      (imap (λ j k, ((n + j)%nat, k)) ks) = Ok bs ∧
    (concat bs).*2 `sublist_of` nonzero (take (length ks * Z.to_nat (block_size_factor (config c)))
      (drop (Z.to_nat ((start + Z.of_nat n) * block_size_factor (config c))) (block_ids st))).
Proof.
  intros Hf Hs. set (f := block_size_factor (config c)) in *. revert n. induction ks as [|k ks IH]; intros n Hb; cbn [imap length mapR].
  { exists []. split; [done|]. apply sublist_nil_l. }
  cbn [length] in Hb. destruct (IH (S n) ltac:(lia)) as (bs & Hbs & Hsub).
  assert (∃ b0, (if bool_decide (k ∈ ks0) then key_blocks c st (start + Z.of_nat (n + 0)) else Ok []) = Ok b0 ∧
    b0.*2 `sublist_of` nonzero (take (Z.to_nat f) (drop (Z.to_nat ((start + Z.of_nat n) * f)) (block_ids st)))) as (b0 & Hb0 & Hsub0).
  { case_bool_decide; [|exists []; split; [done|apply sublist_nil_l]].
    destruct (key_blocks_ok c st (start + Z.of_nat (n + 0)) Hf ltac:(lia) ltac:(fold f; nia)) as (b0 & -> & E). exists b0. split; [done|].
    rewrite E. fold f. replace (n + 0)%nat with n by lia. done. }
  cbn [fst snd]. rewrite Hb0, bind_ret.
  erewrite imap_ext; [rewrite Hbs, bind_ret|intros j x _; cbn; f_equal; lia].
  exists (b0 :: bs). split; [done|]. cbn [concat]. rewrite fmap_app. cbn [Nat.mul]. rewrite <- take_take_drop, filter_app. apply sublist_app; [done|].
  rewrite drop_drop. replace (Z.to_nat ((start + Z.of_nat n) * f) + Z.to_nat f)%nat with (Z.to_nat ((start + Z.of_nat (S n)) * f)) by nia. done.
Qed.

Lemma store_group_ok c tokens ks0 i g st : config_ok c → kv_group_configs (config c) !! i = Some g → 0 ≤ tokens → 0 ≤ next_stored_block_idx st →
  group_filled c tokens g st →
  ∃ bs, store_group c tokens ks0 (g, st) = Ok (bs, put_next_stored_block_idx (tokens / offloaded_block_size g) st) ∧
    bs.*2 `sublist_of` group_blocks c tokens (g, st).
Proof.
  intros Hc Hg Ht Hn [Hk Hb]. unfold store_group, group_blocks. pose proof (gc_size_pos _ _ _ Hc Hg) as Hsize. pose proof (cfg_factor _ Hc) as Hf.
  set (f := block_size_factor (config c)) in *. set (nb := tokens / offloaded_block_size g) in *. set (start := next_stored_block_idx st) in *.
  assert (0 ≤ nb) as Hnb by (apply Z.div_pos; lia). destruct (Z.le_gt_cases nb start) as [Hle|Hlt].
  { rewrite (slice_empty (offload_keys st)) by lia. exists []. split; [done|]. apply sublist_nil_l. }
  pose proof (length_slice (offload_keys st) start nb ltac:(lia) ltac:(lia)) as Hlen.
  destruct (chosen_blocks c st ks0 start (py_slice (offload_keys st) start nb) 0 Hf Hn) as (bs & Hbs & Hsub); [fold f; rewrite Hlen; nia|].
  cbn [Nat.add] in Hbs. rewrite Hbs, bind_ret. eexists. split; [done|]. etrans; [exact Hsub|]. fold f.
  rewrite (slice_eq (block_ids st)) by nia. replace (Z.to_nat (nb * f - start * f)) with (length (py_slice (offload_keys st) start nb) * Z.to_nat f)%nat by nia.
  replace (start + Z.of_nat 0) with start by lia. done.
Qed.

(** ** One request *)

Abbreviation rows c rs := (zip (kv_group_configs (config c)) (group_states rs)).

(** What the scheduler's output gives for a request that may store [tokens]: keys
    and blocks are there, no block is at two places, and no load is running. *)
Record storable c (rs : RequestOffloadState) (tokens : Z) : Prop := {
  st_tokens : 0 ≤ tokens;
  st_filled i g st : kv_group_configs (config c) !! i = Some g → group_states rs !! i = Some st → group_filled c tokens g st;
  st_distinct : NoDup (concat (group_blocks c tokens <$> rows c rs));
  st_no_load j job : j ∈ transfer_jobs rs → _jobs c !! j = Some job → is_store job = true;
}.

Lemma elem_of_rows c rs x : x ∈ rows c rs → ∃ i, kv_group_configs (config c) !! i = Some x.1 ∧ group_states rs !! i = Some x.2.
Proof. destruct x as [g st]. intros [i Hi]%list_elem_of_lookup. apply lookup_zip_Some in Hi as [Hg Hst]. by exists i. Qed.

Lemma row_filled c id rs tokens x : config_ok c → req_ok (config c) id rs → storable c rs tokens → x ∈ rows c rs →
  ∃ i, kv_group_configs (config c) !! i = Some x.1 ∧ 0 ≤ next_stored_block_idx x.2 ∧ group_filled c tokens x.1 x.2.
Proof.
  intros Hc Hok Hst (i & Hg & Hs)%elem_of_rows. exists i. split; [done|]. split; [apply (Forall_lookup_1 _ _ _ _ (req_next _ _ _ _ Hok) Hs)|].
  by eapply st_filled.
Qed.

Lemma new_keys_ok c id rs tokens : config_ok c → req_ok (config c) id rs → storable c rs tokens →
  ∃ keys, mapR (store_group_keys c tokens) (rows c rs) = Ok keys ∧ concat keys `sublist_of` concat (offload_keys <$> group_states rs).
Proof.
  intros Hc Hok Hst. assert (∀ x, x ∈ rows c rs → ∃ ks, store_group_keys c tokens x = Ok ks ∧ ks `sublist_of` offload_keys x.2) as Hx.
  { intros [g st] Hin. destruct (row_filled _ _ _ _ _ Hc Hok Hst Hin) as (i & Hg & Hn & Hf).
    eapply store_keys_ok; [done|exact Hg|apply Hst|done|done]. }
  destruct (mapR_total (store_group_keys c tokens) (rows c rs)) as [keys Hk]; [intros x Hin; destruct (Hx x Hin) as (ks & ? & _); by exists ks|].
  exists keys. split; [done|]. apply mapR_Forall2 in Hk. etrans; [|apply concat_sublist, fmap_sublist, (zip_snd_sublist (kv_group_configs (config c)))].
  rewrite <- list_fmap_compose. clear -Hk Hx. induction Hk as [|x ks xs keys Hf Hk IH]; cbn; [done|]. apply sublist_app.
  - destruct (Hx x (list_elem_of_here _ _)) as (ks' & E & Hs). rewrite Hf in E. by injection E as ->.
  - apply IH. intros y Hy. apply Hx. by right.
Qed.

(** What [store_group] returns for each group. *)
Lemma store_groups_ok c id rs tokens ks0 : config_ok c → req_ok (config c) id rs → storable c rs tokens →
  ∃ groups, mapR (store_group c tokens ks0) (rows c rs) = Ok groups ∧ length groups = length (group_states rs) ∧
    concat ((λ x : list (Z * nat) * RequestGroupState, x.1.*2) <$> groups) `sublist_of` concat (group_blocks c tokens <$> rows c rs) ∧
    offload_keys <$> groups.*2 = offload_keys <$> group_states rs ∧ next_ok groups.*2.
Proof.
  intros Hc Hok Hst.
  assert (∀ x, x ∈ rows c rs → ∃ y, store_group c tokens ks0 x = Ok y ∧ y.1.*2 `sublist_of` group_blocks c tokens x ∧
    offload_keys y.2 = offload_keys x.2 ∧ 0 ≤ next_stored_block_idx y.2) as Hx.
  { intros [g st] Hin. destruct (row_filled _ _ _ _ _ Hc Hok Hst Hin) as (i & Hg & Hn & Hf). cbn [fst snd] in *.
    destruct (store_group_ok c tokens ks0 i g st Hc Hg (st_tokens _ _ _ Hst) Hn Hf) as (bs & -> & Hs). eexists. split; [done|].
    split; [done|]. split; [done|]. cbn. apply Z.div_pos; [apply Hst|by eapply gc_size_pos]. }
  destruct (mapR_total (store_group c tokens ks0) (rows c rs)) as [groups Hg]; [intros x Hin; destruct (Hx x Hin) as (y & ? & _); by exists y|].
  exists groups. split; [done|]. apply mapR_Forall2 in Hg. pose proof (Forall2_length _ _ _ Hg) as Hlen. pose proof (req_len _ _ _ _ Hok) as Hl.
  assert ((rows c rs).*2 = group_states rs) as Hsnd by (apply snd_zip; lia).
  assert (Forall2 (λ x y, y.1.*2 `sublist_of` group_blocks c tokens x ∧ offload_keys y.2 = offload_keys x.2 ∧ 0 ≤ next_stored_block_idx y.2) (rows c rs) groups) as HF.
  { apply Forall2_same_length_lookup. split; [done|]. intros i x y Hi Hy. destruct (Hx x) as (y' & E & Hp); [by eapply list_elem_of_lookup_2|].
    rewrite (Forall2_lookup_lr _ _ _ _ _ _ Hg Hi Hy) in E. by injection E as ->. }
  rewrite length_zip_with in Hlen. split; [lia|].
  enough (concat ((λ x, x.1.*2) <$> groups) `sublist_of` concat (group_blocks c tokens <$> rows c rs) ∧
    offload_keys <$> groups.*2 = offload_keys <$> (rows c rs).*2 ∧ next_ok groups.*2) as Hall by by rewrite Hsnd in Hall.
  clear -HF. induction HF as [|x y xs ys (H1 & H2 & H3) _ (IH1 & IH2 & IH3)]; cbn; [split; [done|split; [done|constructor]]|].
  split; [by apply sublist_app|]. split; [by f_equal|by constructor].
Qed.

(** Only the request's own state changes, and no load starts. *)
Record stores_for (id : string) c c' : Prop := {
  sf_cfg : same_config c c';
  sf_req id' : id' ≠ id → _req_status c' !! id' = _req_status c !! id';
  sf_load j job : _jobs c' !! j = Some job → is_store job = false → _jobs c !! j = Some job;
}.
Lemma storable_later id c c' rs tokens : stores_for id c c' → storable c rs tokens → storable c' rs tokens.
Proof.
  intros [[E _ _ _] _ Hl] [H1 H2 H3 H4]. split; [done| | |].
  - intros i g st. rewrite E. intros Hg Hs. destruct (H2 i g st Hg Hs) as [? ?]. split; by rewrite ?E.
  - unfold group_blocks in *. by rewrite E.
  - intros j job Hj Hjob. destruct (is_store job) eqn:Es; [done|]. rewrite <- Es. eapply H4; [done|]. by apply Hl.
Qed.

Lemma start_store_ok F c id rs tokens out : conn_inv F c → _req_status c !! id = Some rs → id ∉ F → storable c rs tokens →
  ∃ j job c', start_store_job c id rs tokens out = Ok (j, job, c') ∧ conn_inv F c' ∧ stores_for id c c'.
Proof.
  intros Hi Hrs HF Hst. pose proof (ci_req _ _ _ Hi _ _ Hrs) as Hok. unfold start_store_job.
  set (ks0 := list_to_set (keys_to_store out)).
  destruct (store_groups_ok c id rs tokens ks0 (ci_cfg _ _ _ Hi) Hok Hst) as (groups & -> & Hlen & Hsub & Hk & Hn). rewrite bind_ret. cbv zeta.
  set (ids := (λ x : list (Z * nat) * RequestGroupState, x.1.*2) <$> groups) in *.
  set (sliding := concat _). set (others := concat _).
  unfold GPULoadStoreSpec_init. rewrite (sum_lengths (λ x : list nat, x)) by done. rewrite list_fmap_id, Z.eqb_refl.
  assert (zlen ((λ x : list (Z * nat) * RequestGroupState, default 0 (head x.1.*1)) <$> groups) =? zlen ((λ l : list nat, zlen l) <$> ids) = true) as ->.
  { apply Z.eqb_eq. unfold ids. by rewrite !length_fmap. }
  cbn [assert_ require]. rewrite !bind_ret. unfold _generate_job_id. cbv beta iota zeta.
  assert (match elements (transfer_jobs rs) with
    | [] => Ok () | j :: _ => job ← of_option KeyError (_jobs (put_job_counter (_job_counter c + 1) c) !! j); assert_ (is_store job) end = Ok ()) as ->.
  { destruct (elements (transfer_jobs rs)) as [|j js] eqn:E; [done|]. assert (j ∈ transfer_jobs rs) as Hj.
    { apply elem_of_elements. rewrite E. by left. }
    destruct (job_listed _ _ (ci_jobs _ _ _ Hi) id (transfer_jobs rs) j) as (job & Hjob & _); [by rewrite lookup_fmap, Hrs|done|].
    cbn. rewrite Hjob. cbn. by rewrite (st_no_load _ _ _ Hst j job Hj Hjob). }
  rewrite bind_ret. eexists _, _, _. split; [reflexivity|].
  set (rs' := put_transfer_jobs _ _). set (st := mkJobStatus _ _ _ _ _ _).
  assert (default [] (sliding_window_block_ids st) = sliding) as Esl by (cbn; by destruct sliding).
  assert (NoDup (sliding ++ others)) as Hnd.
  { unfold sliding, others. rewrite (split_concat sliding_group), snd_zip.
    - eapply sublist_NoDup; [apply (st_distinct _ _ _ Hst)|exact Hsub].
    - unfold ids. rewrite length_fmap, Hlen, (req_len _ _ _ _ Hok). done. }
  destruct (watch_fold (_job_counter c) sliding (_block_id_to_pending_jobs c) (pending_some _ _ _ (ci_pending _ _ _ Hi))) as [Hne Hw].
  split.
  - eapply (new_job_inv H F c _ st rs rs' Hi); try done; cbn -[watch_blocks].
    + unfold rs'. rewrite drop_ge, app_nil_r by (rewrite Hlen; lia). split; cbn; [by rewrite length_fmap, Hlen, (req_len _ _ _ _ Hok)| |done|apply Hok].
      eapply all_keys_same; [exact Hk|apply Hok].
    + intros j job Hj. by apply (st_no_load _ _ _ Hst).
    + apply (cfg_workers _ (ci_cfg _ _ _ Hi)).
    + change (NoDup (default [] (sliding_window_block_ids st) ++ others)). by rewrite Esl.
    + apply (ci_mgr _ _ _ Hi).
    + intros bid j. change (match sliding with [] => None | _ :: _ => Some sliding end) with (sliding_window_block_ids st). rewrite Esl. apply Hw.
  - split; [by split| |].
    + intros id' Hid. cbn. by rewrite lookup_insert_ne.
    + intros j job. cbn. intros [[<- <-]|[_ ?]]%lookup_insert_Some; done.
Qed.

Lemma advance_ok cfg id rs tokens factor : (∀ i g, kv_group_configs cfg !! i = Some g → group_config_ok factor i g) → 0 < factor → 0 ≤ tokens →
  req_ok cfg id rs → ∃ rs', advance_stored_idx cfg tokens rs = Ok rs' ∧ req_ok cfg id rs' ∧ transfer_jobs rs' = transfer_jobs rs.
Proof.
  intros Hcfg Hf Ht [H1 H2 H3 H4]. unfold advance_stored_idx.
  destruct (for_groups_ok cfg (λ g st, Ok (put_next_stored_block_idx (tokens / offloaded_block_size g) st)) rs H1) as (gs & -> & Hl & Hgs); [intros; by eexists|].
  eexists. split; [done|]. split; [|done]. split; cbn; [done| | |done].
  - intros i g st' Hg Hst'. destruct (Hgs i g st' Hg Hst') as (st & Hst & [= <-]). exact (H2 i g st Hg Hst).
  - apply Forall_lookup. intros i st' Hst'. destruct (lookup_lt_is_Some_2 (kv_group_configs cfg) i) as [g Hg]; [apply lookup_lt_Some in Hst'; lia|].
    destruct (Hgs i g st' Hg Hst') as (st & Hst & [= <-]). cbn. pose proof (Hcfg i g Hg) as Hgc. apply Z.div_pos; [done|].
    rewrite (gc_size _ _ _ Hgc). pose proof (gc_gpu _ _ _ Hgc). nia.
Qed.

Lemma quiet_stores id c c' : quiet c c' → (∀ id', id' ≠ id → _req_status c' !! id' = _req_status c !! id') → stores_for id c c'.
Proof. intros [Q1 Q2 _ _ _ _ _ _] Hr. split; [done|done|]. by rewrite Q2. Qed.
Lemma stores_trans id c c' c'' : stores_for id c c' → stores_for id c' c'' → stores_for id c c''.
Proof.
  intros [[A1 A2 A3 A4] B1 B2] [[C1 C2 C3 C4] D1 D2]. split; [split; congruence| |eauto].
  intros id' Hid. rewrite D1, B1; done.
Qed.

(** The scheduled tokens of a request. *)
Definition store_ready F c (reqs : string → Request) (y : string * Z) : Prop :=
  ∀ rs, _req_status c !! y.1 = Some rs → y.1 ∉ F ∧ storable c rs (num_offloadable_tokens c (reqs y.1) rs y.2).

Lemma advance_step F c c1 (jobs : gmap Z TransferJob) id rs tokens : conn_inv F c → _req_status c !! id = Some rs → 0 ≤ tokens →
  quiet c c1 → _req_status c1 = _req_status c →
  ∃ jobs' c', (rs' ← advance_stored_idx (config c1) tokens rs; Ok (jobs, put_req_status (<[id := rs']> (_req_status c1)) c1)) = Ok (jobs', c') ∧
    conn_inv F c' ∧ stores_for id c c'.
Proof.
  intros Hi Hrs Ht Hq Er. pose proof (quiet_inv _ _ _ _ Hi Hq) as Hi1. pose proof Hrs as Hrs1. rewrite <- Er in Hrs1.
  destruct (advance_ok (config c1) id rs tokens _ (cfg_group _ (ci_cfg _ _ _ Hi1)) (cfg_factor _ (ci_cfg _ _ _ Hi1)) Ht (ci_req _ _ _ Hi1 _ _ Hrs1))
    as (rs' & -> & Hok & Hj). rewrite bind_ret. eexists _, _. split; [reflexivity|].
  assert (quiet c1 (put_req_status (<[id := rs']> (_req_status c1)) c1)) as Hq1 by (by apply (quiet_insert _ _ _ rs)).
  split; [by eapply quiet_inv|]. apply quiet_stores; [by eapply quiet_trans|]. intros id' Hid. cbn. by rewrite lookup_insert_ne, Er.
Qed.

Lemma store_request_ok F c reqs jobs y : conn_inv F c → store_ready F c reqs y →
  ∃ jobs' c', store_request reqs (jobs, c) y = Ok (jobs', c') ∧ conn_inv F c' ∧ stores_for y.1 c c'.
Proof.
  destruct y as [id n]. intros Hi Hready. unfold store_request. cbn [fst]. destruct (_req_status c !! id) as [rs|] eqn:Hrs.
  2:{ exists jobs, c. split; [done|]. split; [done|]. by apply quiet_stores; [apply quiet_refl|]. }
  destruct (Hready rs Hrs) as [HF Hst]. cbn [fst snd] in *. pose proof (ci_req _ _ _ Hi _ _ Hrs) as Hok. cbv zeta.
  set (tokens := num_offloadable_tokens c (reqs id) rs n) in *.
  destruct (new_keys_ok c id rs tokens (ci_cfg _ _ _ Hi) Hok Hst) as (keys & -> & Hsub). rewrite bind_ret.
  destruct (concat keys) as [|k ks] eqn:Ek; [apply advance_step; [done|done|apply Hst|apply quiet_refl|done]|]. rewrite <- Ek.
  destruct (mgr_prepare_store_ok (manager c) (running_loads (_jobs c)) (concat keys) id (ci_mgr _ _ _ Hi)) as (out & m & -> & Hm & _).
  { eapply sublist_NoDup; [|rewrite Ek; exact Hsub]. eapply (all_keys_nodup (H id)); [done|apply (cfg_group _ (ci_cfg _ _ _ Hi))| |apply Hok].
    rewrite (req_len _ _ _ _ Hok). done. }
  rewrite bind_ret. cbv beta iota. assert (quiet c (put_manager m c)) as Hq by by apply quiet_manager.
  destruct out as [out|]; [|exists jobs; eexists; split; [done|]; split; [by eapply quiet_inv|by apply quiet_stores]].
  destruct (keys_to_store out) eqn:Eo; [apply advance_step; [done|done|apply Hst|done|done]|].
  destruct (touch_ok' (put_manager m c) (running_loads (_jobs c)) id rs Hm) as (m' & -> & [Hm' _]).
  set (c1 := put_manager m' (put_manager m c)).
  assert (quiet c c1) as Hq1 by (eapply quiet_trans; [exact Hq|]; by apply quiet_manager).
  assert (stores_for id c c1) as Hs1 by by apply quiet_stores.
  destruct (start_store_ok F c1 id rs tokens out) as (j & job & c' & -> & Hi' & Hs'); [by eapply quiet_inv|done|done|by eapply storable_later|].
  rewrite bind_ret. cbv beta iota. eexists _, _. split; [done|]. split; [done|]. by eapply stores_trans.
Qed.

(** All requests of a step, each scheduled once. *)
Lemma ready_later F id c c' reqs y : stores_for id c c' → y.1 ≠ id → store_ready F c reqs y → store_ready F c' reqs y.
Proof.
  intros Hs Hne Hr rs. rewrite (sf_req _ _ _ Hs) by done. intros Hrs. destruct (Hr rs Hrs) as [HF Hst]. split; [done|].
  unfold num_offloadable_tokens in *. rewrite (same_cfg _ _ (sf_cfg _ _ _ Hs)). by eapply storable_later.
Qed.
Lemma build_stores_ok F c reqs out : conn_inv F c → NoDup (num_scheduled_tokens out).*1 → Forall (store_ready F c reqs) (num_scheduled_tokens out) →
  ∃ jobs c', _build_store_jobs reqs out c = Ok (jobs, c') ∧ conn_inv F c'.
Proof.
  unfold _build_store_jobs. generalize (∅ : gmap Z TransferJob). generalize (num_scheduled_tokens out). intros l. revert c.
  induction l as [|y l IH]; intros c jobs Hi Hnd Hall; cbn [foldM]; [by eexists _, _|].
  inversion Hnd as [|? ? Hy Hnd']; subst. apply Forall_cons in Hall as [Hry Hall].
  destruct (store_request_ok F c reqs jobs y Hi Hry) as (jobs1 & c1 & -> & Hi1 & Hs1). rewrite bind_ret.
  apply IH; [done|done|]. apply Forall_forall. intros y' Hin. rewrite Forall_forall in Hall. eapply ready_later; [done| |by apply Hall].
  intros E. apply Hy. rewrite <- E. apply list_elem_of_fmap. by exists y'.
Qed.
End Store.
