(* ===== verification/ConnectorReport.v ===== *)
(** * Metadata for the workers, their reports, and the end of requests *)

From S2P Require Import Prelude MathUtils PyDict Request BlockHash BlockPool SchedState KVSpec Offload.
From S2P Require Import OffloadConnector ConnectorSpec ConnectorLookup ConnectorLoad ConnectorInv ConnectorSteps ConnectorStore.

Local Open Scope Z_scope.

Section Report.
Context {M : Type} `{!OffloadingManager M, !OffloadingManagerSpec M}.
Abbreviation connector := (OffloadingConnectorScheduler M).
Implicit Types (c : connector) (F : gset string).
Variable H : string → list bytes.
Hypothesis H_nodup : ∀ id, NoDup (H id).
Abbreviation conn_inv := (conn_inv H).
Abbreviation quiet := (quiet H).
Abbreviation req_ok := (req_ok H).

(** ** A scheduling step *)

(** What the connector relies on in the scheduler's output. *)
Record output_ok F c (reqs : string → Request) (out : SchedulerOutput) : Prop := {
  out_rows : Forall (row_ok c) (yield_req_data out);
  out_hashes id : block_hashes (reqs id) `prefix_of` H id;
  out_once : NoDup (num_scheduled_tokens out).*1;
  out_preempted id rs j job : id ∈ out_preempted_req_ids out → _req_status c !! id = Some rs → j ∈ transfer_jobs rs →
    _jobs c !! j = Some job → is_store job = true;
  out_ready c1 : _update_req_states reqs out c = Ok c1 → Forall (store_ready F c1 reqs) (num_scheduled_tokens out);
}.

(** The blocks that get new contents in this step. *)
Definition reallocated c (out : SchedulerOutput) (b : nat) : Prop :=
  b ∈ _current_batch_allocated_block_ids c ∨ (b ≠ 0%nat ∧ ∃ y, y ∈ yield_req_data out ∧ b ∈ row_blocks y).

Lemma preempted_jobs_ok F c id : conn_inv F c →
  (∀ rs j job, _req_status c !! id = Some rs → j ∈ transfer_jobs rs → _jobs c !! j = Some job → is_store job = true) →
  ∃ js, preempted_jobs c id = Ok js ∧ ∀ rs, _req_status c !! id = Some rs → transfer_jobs rs ⊆ js.
Proof.
  intros Hi Hst. unfold preempted_jobs. destruct (_req_status c !! id) as [rs|] eqn:Hrs; [|exists ∅; by split].
  destruct (elements (transfer_jobs rs)) as [|j js] eqn:E.
  { exists ∅. split; [done|]. intros rs' [= <-] x Hx. apply elem_of_elements in Hx. rewrite E in Hx. by apply not_elem_of_nil in Hx. }
  assert (j ∈ transfer_jobs rs) as Hj by (apply elem_of_elements; rewrite E; by left).
  destruct (job_listed _ _ (ci_jobs _ _ _ Hi) id (transfer_jobs rs) j) as (job & Hjob & _); [by rewrite lookup_fmap, Hrs|done|].
  rewrite Hjob. cbn [of_option]. rewrite bind_ret, (Hst rs j job eq_refl Hj Hjob). cbn [assert_ require]. rewrite bind_ret.
  eexists. split; [done|]. by intros rs' [= <-].
Qed.

Lemma reallocated_ok F c b j job : conn_inv F c → _jobs c !! j = Some job → b ∈ watched F job →
  b ∈ _current_batch_allocated_block_ids c → j ∈ reallocated_jobs c.
Proof.
  intros Hi Hj Hb Ha. unfold reallocated_jobs. destruct (proj2 (pending_exact _ _ _ (ci_pending _ _ _ Hi) b j)) as (js & Hjs & Hin); [by exists job|].
  apply elem_of_union_list. exists js. split; [|done]. apply list_elem_of_fmap. exists b. rewrite Hjs. split; [done|]. by apply elem_of_elements.
Qed.

Lemma build_meta_ok F c reqs out : conn_inv F c → output_ok F c reqs out →
  ∃ meta c', build_connector_meta reqs out c = Ok (meta, c') ∧ conn_inv F c' ∧
    (∀ j job b, _jobs c !! j = Some job → b ∈ watched F job → reallocated c out b → j ∈ jobs_to_flush meta) ∧
    (∀ id rs, id ∈ out_preempted_req_ids out → _req_status c !! id = Some rs → transfer_jobs rs ⊆ jobs_to_flush meta).
Proof.
  intros Hi [O1 O2 O3 O4 O5]. unfold build_connector_meta.
  destruct (update_states_ok H F c reqs out Hi O1 O2) as (c1 & Hu & Hq & Hf & Hb). rewrite Hu, bind_ret. cbv zeta. specialize (O5 c1 Hu).
  set (c2 := put_manager _ c1). assert (quiet c1 c2) as Hq12 by (apply quiet_manager, mgr_end_ok).
  assert (quiet c c2) as Hq2 by by eapply quiet_trans. assert (conn_inv F c2) as Hi2 by by eapply quiet_inv.
  assert (∀ id, id ∈ out_preempted_req_ids out → ∃ js, preempted_jobs c2 id = Ok js ∧ ∀ rs, _req_status c2 !! id = Some rs → transfer_jobs rs ⊆ js) as Hp.
  { intros id Hid. apply (preempted_jobs_ok F); [done|]. intros rs j job Hrs Hj Hjob.
    destruct (transfers_same _ _ _ _ (quiet_transfers _ _ _ Hq2) Hrs) as (rs0 & Hrs0 & E). rewrite (quiet_jobs _ _ _ Hq2) in Hjob.
    eapply O4; [done|done|by rewrite E|done]. }
  destruct (mapR_total (preempted_jobs c2) (elements (out_preempted_req_ids out))) as [pre Hpre].
  { intros id Hid. apply elem_of_elements in Hid. destruct (Hp id Hid) as (js & ? & _). by exists js. }
  rewrite Hpre, bind_ret. apply mapR_Forall2 in Hpre.
  destruct (build_stores_ok H H_nodup F c2 reqs out Hi2 O3) as (jobs & c3 & Hs & Hi3).
  { eapply Forall_impl; [exact O5|]. intros y Hy rs Hrs. destruct (Hy rs Hrs) as [HF Hst]. split; [done|].
    apply (storable_later "" c1); [by apply (quiet_stores H)|exact Hst]. }
  rewrite Hs, bind_ret. cbv beta iota. eexists _, _. split; [reflexivity|]. split; [|split].
  - apply (quiet_inv _ _ c3); [done|]. by split.
  - intros j job b Hj Hw Hr. cbn. apply elem_of_union_l, elem_of_union_r. apply (reallocated_ok F c2 b j job Hi2).
    + by rewrite (quiet_jobs _ _ _ Hq2).
    + done.
    + cbn. by apply Hb.
  - intros id rs Hid Hrs. cbn. pose proof (quiet_transfers _ _ _ Hq2) as E. symmetry in E. destruct (transfers_same _ _ _ _ E Hrs) as (rs2 & Hrs2 & Ht).
    intros j Hj. apply elem_of_union_l, elem_of_union_l, elem_of_union_list. destruct (proj1 (list_elem_of_lookup _ _) (proj2 (elem_of_elements _ id) Hid)) as [i Hidx].
    destruct (Forall2_lookup_l _ _ _ _ _ Hpre Hidx) as (js & Hjs & Hok). exists js. split; [by eapply list_elem_of_lookup_2|].
    destruct (Hp id Hid) as (js' & Hok' & Hsub). rewrite Hok in Hok'. injection Hok' as ->. apply (Hsub rs2 Hrs2). by rewrite Ht.
Qed.

(** ** Reports *)

(** The finished requests that are still tracked. *)
Definition still F c : gset string := filter (λ id, is_Some (_req_status c !! id)) F.
Lemma elem_of_still F c id : id ∈ still F c ↔ is_Some (_req_status c !! id) ∧ id ∈ F.
Proof. unfold still. by rewrite elem_of_filter. Qed.
Lemma still_inv F c : conn_inv F c → still F c = F.
Proof.
  intros Hi. apply set_eq. intros id. rewrite elem_of_still. split; [by intros [_ ?]|]. intros Hid. split; [|done].
  destruct (ci_done _ _ _ Hi id Hid) as (rs & Hrs & _). by exists rs.
Qed.

(** The requests know whether they have finished. *)
Definition agree F c (reqs : string → Request) : Prop := ∀ id, tracked c id → is_finished (reqs id) = bool_decide (id ∈ F).

Definition report_ok c (x : Z * Z) : Prop :=
  0 < x.2 ∧ (x.1 < _stale_job_threshold c ∨ ∃ job, _jobs c !! x.1 = Some job ∧ x.2 ≤ pending_count job).

(** Forgetting a job's blocks. *)
Lemma unwatch_ok F c j job finished : pending_inv F (_jobs c) (_block_id_to_pending_jobs c) → _jobs c !! j = Some job → NoDup (job_blocks job) →
  finished = bool_decide (job_req_id job ∈ F) →
  ∃ p, (if bool_decide (_block_id_to_pending_jobs c ≠ ∅) then
          c ← _remove_pending_job j (sliding_window_block_ids job) c;
          if (finished : bool) then _remove_pending_job j (non_sliding_window_block_ids job) c else Ok c
        else Ok c) = Ok (put_block_id_to_pending_jobs p c) ∧
    nonempty p ∧ ∀ b j', watching p b j' ↔ watching (_block_id_to_pending_jobs c) b j' ∧ j' ≠ j.
Proof.
  intros [Hex Hne] Hj Hnd Hfin. assert (∀ b, watching (_block_id_to_pending_jobs c) b j ↔ b ∈ watched F job) as Hw.
  { intros b. rewrite Hex. split; [intros (job' & E & Hb); rewrite Hj in E; by injection E as ->|by exists job]. }
  apply NoDup_app in Hnd as (Hnd1 & Hdis & Hnd2). destruct (bool_decide_reflect (_block_id_to_pending_jobs c ≠ ∅)) as [Hemp|Hemp].
  2:{ exists (_block_id_to_pending_jobs c). split; [by destruct c|]. split; [done|]. intros b j'. split; [|by intros [? _]].
      intros (js & Hjs & _). destruct (_block_id_to_pending_jobs c !! b) eqn:E; [|done]. destruct (decide (_block_id_to_pending_jobs c = ∅)) as [E0|]; [|done].
      rewrite E0 in E. by rewrite lookup_empty in E. }
  destruct (remove_pending_ok j (sliding_window_block_ids job) c Hne Hnd1) as (p1 & -> & Hne1 & Hw1).
  { intros b Hb. apply Hw. unfold watched. apply elem_of_app. by left. }
  rewrite bind_ret. rewrite Hfin. destruct (bool_decide_reflect (job_req_id job ∈ F)) as [HF|HF].
  - destruct (remove_pending_ok j (non_sliding_window_block_ids job) (put_block_id_to_pending_jobs p1 c)) as (p2 & -> & Hne2 & Hw2); [done|done| |].
    { intros b Hb. cbn. apply Hw1. split; [|intros [_ Hb']; by apply (Hdis b)]. apply Hw. unfold watched. rewrite decide_True by done. apply elem_of_app. by right. }
    exists p2. split; [done|]. split; [done|]. intros b j'. rewrite Hw2. cbn. rewrite Hw1. specialize (Hw b). unfold watched in Hw.
    rewrite decide_True, elem_of_app in Hw by done. destruct (decide (j' = j)) as [->|]; [|naive_solver]. naive_solver.
  - exists p1. split; [done|]. split; [done|]. intros b j'. rewrite Hw1. specialize (Hw b). unfold watched in Hw.
    rewrite decide_False, app_nil_r in Hw by done. destruct (decide (j' = j)) as [->|]; naive_solver.
Qed.

Lemma watched_still F c job : tracked c (job_req_id job) → watched (still F c) job = watched F job.
Proof.
  intros Ht. unfold watched. destruct (decide (job_req_id job ∈ F)) as [HF|HF].
  - rewrite decide_True; [done|]. by apply elem_of_still.
  - rewrite decide_False; [done|]. by rewrite elem_of_still; intros [_ ?].
Qed.
Lemma owner_tracked c j job : jobs_inv (transfer_jobs <$> _req_status c) (_jobs c) → _jobs c !! j = Some job → tracked c (job_req_id job).
Proof.
  intros Hj Hjob. destruct (job_owner _ _ Hj j job Hjob) as (js & Ho & _). rewrite lookup_fmap in Ho. apply fmap_Some in Ho as (rs & Hrs & _). by exists rs.
Qed.
(** Watched blocks when the set of finished requests shrinks to the tracked ones. *)
Lemma pending_still F c : jobs_inv (transfer_jobs <$> _req_status c) (_jobs c) →
  pending_inv F (_jobs c) (_block_id_to_pending_jobs c) → pending_inv (still F c) (_jobs c) (_block_id_to_pending_jobs c).
Proof.
  intros Hj [Hex Hne]. split; [|done]. intros b j. rewrite Hex. split; intros (job & Hjob & Hb); exists job; (split; [done|]);
    (rewrite watched_still in * by (by eapply owner_tracked)); done.
Qed.

Definition report_frame (j : Z) c c' : Prop :=
  _stale_job_threshold c' = _stale_job_threshold c ∧ (∀ j', j' ≠ j → _jobs c' !! j' = _jobs c !! j') ∧ (∀ id, tracked c' id → tracked c id).

(** The last report of a job. *)
Lemma job_done_inv F c c' j job rs m : conn_inv F c → _jobs c !! j = Some job → _req_status c !! job_req_id job = Some rs → same_config c c' →
  _jobs c' = delete j (_jobs c) → _job_counter c' = _job_counter c → _stale_job_threshold c' = _stale_job_threshold c →
  manager c' = m → mgr_inv m (running_loads (delete j (_jobs c))) → nonempty (_block_id_to_pending_jobs c') →
  (∀ b j', watching (_block_id_to_pending_jobs c') b j' ↔ watching (_block_id_to_pending_jobs c) b j' ∧ j' ≠ j) →
  _req_status c' = (if bool_decide (transfer_jobs rs ∖ {[ j ]} = ∅) && bool_decide (job_req_id job ∈ F) then delete (job_req_id job) (_req_status c)
                    else <[job_req_id job := put_transfer_jobs (transfer_jobs rs ∖ {[ j ]}) rs]> (_req_status c)) →
  conn_inv (still F c') c' ∧ report_frame j c c'.
Proof.
  intros [H1 H2 H3 H4 H5 Hsc H6 H7 H8] Hj Hrs Hcfg Ej Ec Es Em Hm Hne Hw Er. subst m.
  assert (jobs_inv (transfer_jobs <$> _req_status c') (_jobs c')) as Hjobs.
  { pose proof (jobs_remove _ _ j job (transfer_jobs rs) H3 Hj ltac:(by rewrite lookup_fmap, Hrs)) as Hr. rewrite Ej, Er.
    destruct (bool_decide_reflect (transfer_jobs rs ∖ {[ j ]} = ∅)) as [E|E]; [destruct (bool_decide_reflect (job_req_id job ∈ F))|]; cbn [andb].
    - rewrite fmap_delete, <- (delete_insert_eq _ (job_req_id job) (transfer_jobs rs ∖ {[ j ]})). apply jobs_forget; [done|]. rewrite lookup_insert_eq. by f_equal.
    - by rewrite fmap_insert.
    - by rewrite fmap_insert. }
  assert (∀ id rs', _req_status c' !! id = Some rs' →
    (id = job_req_id job ∧ rs' = put_transfer_jobs (transfer_jobs rs ∖ {[ j ]}) rs ∧ (id ∈ F → transfer_jobs rs' ≠ ∅)) ∨ _req_status c !! id = Some rs') as Hreq.
  { intros id rs'. rewrite Er. destruct (bool_decide_reflect (transfer_jobs rs ∖ {[ j ]} = ∅)) as [E|E]; [destruct (bool_decide_reflect (job_req_id job ∈ F))|]; cbn [andb].
    - intros [_ ?]%lookup_delete_Some. by right.
    - intros [[<- <-]|[_ ?]]%lookup_insert_Some; [by left|by right].
    - intros [[<- <-]|[_ ?]]%lookup_insert_Some; [by left|by right]. }
  split; [split|].
  - by eapply same_config_ok.
  - by rewrite Ej.
  - done.
  - apply pending_still; [done|]. split; [|done]. intros b j'. rewrite Hw, (pending_exact _ _ _ H4), Ej. setoid_rewrite lookup_delete_Some. naive_solver.
  - intros j' job'. rewrite Ej, Es, Ec. intros [_ Hj']%lookup_delete_Some. by eapply H5.
  - by rewrite Es, Ec.
  - intros j' job'. rewrite Ej. intros [_ Hj']%lookup_delete_Some. by eapply H6.
  - intros id rs' Hrs'. rewrite (same_cfg _ _ Hcfg). destruct (Hreq id rs' Hrs') as [(-> & -> & _)|Hold]; [|by apply H7]. destruct (H7 _ _ Hrs). by split.
  - intros id [[rs' Hrs'] HF]%elem_of_still. exists rs'. split; [done|]. destruct (Hreq id rs' Hrs') as [(-> & -> & Hn)|Hold]; [by apply Hn|].
    destruct (H8 id HF) as (rs0 & Hrs0 & Hn). congruence.
  - split; [done|]. split; [intros j' Hne'; by rewrite Ej, lookup_delete_ne|]. intros id [rs' Hrs']. destruct (Hreq id rs' Hrs') as [(-> & _)|Hold]; by eexists.
Qed.

Lemma count_inv F c j job n : conn_inv F c → _jobs c !! j = Some job → 0 < n → conn_inv F (put_jobs (<[j := put_pending_count n job]> (_jobs c)) c).
Proof.
  intros [H1 H2 H3 H4 H5 Hsc H6 H7 H8] Hj Hn. split; cbn.
  - apply (same_config_ok c); [by split|done].
  - eapply mgr_inv_perm; [symmetry; by apply running_count|done].
  - by apply jobs_count.
  - split; [|apply H4]. intros b j'. rewrite (pending_exact _ _ _ H4). split.
    + intros (job' & Hj' & Hb). destruct (decide (j' = j)) as [->|Hne]; [|exists job'; by rewrite lookup_insert_ne].
      rewrite Hj in Hj'. injection Hj' as <-. eexists. rewrite lookup_insert_eq. by split.
    + intros (job' & [[<- <-]|[_ Hj']]%lookup_insert_Some & Hb); [by exists job|by exists job'].
  - intros j' job' [[<- <-]|[_ Hj']]%lookup_insert_Some; by eapply H5.
  - done.
  - intros j' job' [[<- <-]|[_ Hj']]%lookup_insert_Some; [|by eapply H6]. split; [done|]. by apply (H6 j job).
  - done.
  - done.
Qed.

Lemma complete_job_ok F c reqs x : conn_inv F c → agree F c reqs → report_ok c x →
  ∃ c', complete_job reqs c x = Ok c' ∧ conn_inv (still F c') c' ∧ report_frame x.1 c c'.
Proof.
  destruct x as [j n]. intros Hi Hag [Hn Hx]. cbn [fst snd] in *. unfold complete_job.
  rewrite (proj2 (Z.gtb_lt n 0)) by lia. cbn [assert_ require]. rewrite bind_ret.
  destruct (Z.ltb_spec j (_stale_job_threshold c)) as [Hlt|Hge].
  { exists c. split; [done|]. rewrite still_inv by done. by split. }
  destruct Hx as [?|(job & Hj & Hle)]; [lia|]. rewrite Hj. cbn [of_option]. rewrite bind_ret.
  destruct (Z.gtb_spec (pending_count job - n) 0) as [Hgt|Hdone].
  { eexists. split; [done|]. pose proof (count_inv F c j job (pending_count job - n) Hi Hj Hgt) as Hi'. rewrite still_inv by done. split; [done|].
    split; [done|]. split; [|done]. intros j' Hne. cbn. by rewrite lookup_insert_ne. }
  replace (pending_count job - n =? 0) with true by (symmetry; apply Z.eqb_eq; lia). cbn [assert_ require]. rewrite bind_ret.
  pose proof (owner_tracked c j job (ci_jobs _ _ _ Hi) Hj) as Htr. destruct Htr as [rs Hrs]. rewrite Hrs. cbn [of_option]. rewrite bind_ret.
  pose proof (mgr_inv_perm _ _ _ (running_delete _ _ _ Hj) (ci_mgr _ _ _ Hi)) as Hm. set (l' := running_loads (delete j (_jobs c))) in *.
  assert (∃ m b, (if is_store job then m ← mgr_complete_store (elements (job_keys job)) (job_req_id job) (manager c); Ok (put_manager m c)
    else m ← mgr_complete_load (elements (job_keys job)) (job_req_id job) (manager c);
      Ok (put_blocks_being_loaded ((λ s, s ∖ job_keys job) <$> _blocks_being_loaded c) (put_manager m c)))
    = Ok (put_blocks_being_loaded b (put_manager m c)) ∧ mgr_inv m l') as (m & b & -> & Hm').
  { unfold load_keys in Hm. destruct (is_store job).
    - destruct (mgr_complete_store_ok (manager c) l' (elements (job_keys job)) (job_req_id job) Hm) as (m & -> & Hm'). rewrite bind_ret.
      exists m, (_blocks_being_loaded c). split; [by destruct c|done].
    - destruct (mgr_complete_load_ok (manager c) l' (elements (job_keys job)) (job_req_id job) Hm) as (m & -> & Hm'). rewrite bind_ret. by eexists m, _. }
  rewrite bind_ret. set (c1 := put_blocks_being_loaded b (put_manager m c)).
  destruct (unwatch_ok F c1 j job (is_finished (reqs (job_req_id job))) (ci_pending _ _ _ Hi) Hj) as (p & -> & Hne & Hw);
    [by apply (ci_job _ _ _ Hi j job)|by apply Hag; exists rs|].
  rewrite bind_ret. destruct (job_owner _ _ (ci_jobs _ _ _ Hi) j job Hj) as (js & Ho & Hin). rewrite lookup_fmap, Hrs in Ho. injection Ho as <-.
  rewrite (bool_decide_true (j ∈ transfer_jobs rs)) by exact Hin. cbn [require]. rewrite bind_ret. eexists. split; [reflexivity|].
  apply (job_done_inv F c _ j job rs m); try done. cbn. by rewrite (Hag (job_req_id job)) by (by exists rs).
Qed.

(** A report of all workers: each job at most once. *)
Lemma update_output_ok F c reqs l : conn_inv F c → agree F c reqs → NoDup l.*1 → Forall (report_ok c) l →
  ∃ c', update_connector_output reqs l c = Ok c' ∧ conn_inv (still F c') c' ∧ ∀ id, tracked c' id → tracked c id.
Proof.
  unfold update_connector_output. revert F c. induction l as [|x l IH]; intros F c Hi Hag Hnd Hall; cbn [foldM]; [exists c; rewrite still_inv by done; by split|].
  apply Forall_cons in Hall as [Hx Hall]. inversion Hnd as [|? ? Hnx Hnd']; subst.
  destruct (complete_job_ok F c reqs x Hi Hag Hx) as (c1 & -> & Hi1 & Hs & Hj & Ht). rewrite bind_ret.
  destruct (IH (still F c1) c1) as (c' & Hc' & Hi' & Ht'); [done| |done| |].
  - intros id Hid. rewrite (Hag id (Ht id Hid)). apply bool_decide_ext. rewrite elem_of_still. naive_solver.
  - apply Forall_forall. intros y Hy. rewrite Forall_forall in Hall. destruct (Hall y Hy) as [Hp Hr]. split; [done|]. rewrite Hs, Hj; [done|].
    intros E. apply Hnx. rewrite <- E. apply list_elem_of_fmap. by exists y.
  - exists c'. split; [done|]. split; [|by auto]. replace (still F c') with (still (still F c1) c'); [done|].
    apply set_eq. intros id. rewrite !elem_of_still. split; [naive_solver|]. intros [Hc Hid]. split; [done|]. split; [|done]. by apply Ht'.
Qed.

(** ** The end of a request *)

Lemma watch_jobs_ok c js : nonempty (_block_id_to_pending_jobs c) → (∀ j, j ∈ js → is_Some (_jobs c !! j)) →
  ∃ p, foldM (λ c j, job ← of_option KeyError (_jobs c !! j); Ok (watch_blocks j (default [] (non_sliding_window_block_ids job)) c)) c js
      = Ok (put_block_id_to_pending_jobs p c) ∧ nonempty p ∧
    ∀ b j, watching p b j ↔ watching (_block_id_to_pending_jobs c) b j ∨
      (j ∈ js ∧ ∃ job, _jobs c !! j = Some job ∧ b ∈ default [] (non_sliding_window_block_ids job)).
Proof.
  revert c. induction js as [|j js IH]; intros c Hne Hjs; cbn [foldM].
  { exists (_block_id_to_pending_jobs c). split; [by destruct c|]. split; [done|]. intros b j. rewrite elem_of_nil. naive_solver. }
  destruct (Hjs j) as [job Hj]; [by left|]. rewrite Hj. cbn [of_option]. rewrite !bind_ret. unfold watch_blocks at 2.
  destruct (watch_fold j (default [] (non_sliding_window_block_ids job)) (_block_id_to_pending_jobs c) Hne) as [Hne1 Hw1]. set (p1 := fold_left _ _ _) in *.
  destruct (IH (put_block_id_to_pending_jobs p1 c)) as (p & -> & Hnp & Hw); [done|intros j' Hj'; apply Hjs; by right|].
  exists p. split; [done|]. split; [done|]. intros b j'. rewrite Hw. cbn. rewrite Hw1, elem_of_cons. split.
  - intros [[?|[-> Hb]]|[? ?]]; [by left|right; split; [by left|by exists job]|right; split; [by right|done]].
  - intros [?|[[->|?] (job' & Hj' & Hb)]]; [left; by left| |right; split; [done|by exists job']].
    rewrite Hj in Hj'. injection Hj' as <-. left. by right.
Qed.

Lemma finished_inv F c req : conn_inv F c → request_id req ∉ F →
  ∃ c', request_finished req c = Ok c' ∧ conn_inv (still ({[ request_id req ]} ∪ F) c') c'.
Proof.
  intros Hi HF. unfold request_finished. destruct (_req_status c !! request_id req) as [rs|] eqn:Hrs.
  2:{ eexists. split; [done|]. set (c' := put_manager _ c).
      assert (conn_inv F c') as Hi' by (apply (quiet_inv _ _ c); [done|]; apply quiet_manager; intros Hm; by apply mgr_finished_ok, mgr_new_ok).
      replace (still _ c') with F; [done|]. rewrite <- (still_inv F c' Hi') at 1. apply set_eq. intros id. rewrite !elem_of_still. cbn.
      rewrite elem_of_union, elem_of_singleton. split; [naive_solver|]. intros [[rs Hrs'] [->|?]]; [congruence|by split; [exists rs|]]. }
  set (c1 := put_manager _ c). assert (conn_inv F c1) as Hi1 by (apply (quiet_inv _ _ c); [done|]; apply quiet_manager; intros Hm; by apply mgr_finished_ok).
  destruct (elements (transfer_jobs rs)) as [|j0 js] eqn:E.
  - apply elements_empty_inv, leibniz_equiv in E. eexists. split; [done|]. set (c' := put_req_status _ c1).
    destruct Hi1 as [H1 H2 H3 H4 H5 Hsc H6 H7 H8].
    replace (still _ c') with F.
    2:{ apply set_eq. intros id. rewrite elem_of_still. cbn. rewrite elem_of_union, elem_of_singleton. split.
        - intros Hid. destruct (H8 id Hid) as (rs' & Hrs' & _). split; [|by right]. rewrite lookup_delete_ne; [by exists rs'|]. by intros <-.
        - intros [[rs' Hd] [->|?]]; [by rewrite lookup_delete_eq in Hd|done]. }
    split; try done; cbn.
    + apply (same_config_ok c1); [by split|done].
    + rewrite fmap_delete. apply jobs_forget; [done|]. cbn. by rewrite lookup_fmap, Hrs; cbn; rewrite E.
    + intros id rs' [_ ?]%lookup_delete_Some. by apply H7.
    + intros id Hid. destruct (H8 id Hid) as (rs' & Hrs' & Hn). exists rs'. rewrite lookup_delete_ne; [done|]. by intros <-.
  - assert (∀ j, j ∈ j0 :: js ↔ j ∈ transfer_jobs rs) as Hjs by (intros j; by rewrite <- E, elem_of_elements).
    assert (∀ j, j ∈ transfer_jobs rs → ∃ job, _jobs c !! j = Some job ∧ job_req_id job = request_id req) as Hown.
    { intros j Hj. apply (job_listed _ _ (ci_jobs _ _ _ Hi) (request_id req) (transfer_jobs rs) j); [by rewrite lookup_fmap, Hrs|done]. }
    destruct (watch_jobs_ok c1 (j0 :: js)) as (p & -> & Hne & Hw); [apply (pending_some _ _ _ (ci_pending _ _ _ Hi1))| |].
    { intros j Hj. apply Hjs in Hj. destruct (Hown j Hj) as (job & Hjob & _). by exists job. }
    eexists. split; [done|]. destruct Hi1 as [H1 H2 H3 H4 H5 Hsc H6 H7 H8]. set (c' := put_block_id_to_pending_jobs p c1).
    assert (still ({[ request_id req ]} ∪ F) c' = {[ request_id req ]} ∪ F) as ->.
    { apply set_eq. intros id. rewrite elem_of_still, elem_of_union, elem_of_singleton. split; [naive_solver|]. intros Hid. split; [|done].
      destruct Hid as [->|Hid]; [by exists rs|]. destruct (H8 id Hid) as (rs' & ? & _). by exists rs'. }
    split; try done.
    + apply (same_config_ok c1); [by split|done].
    + split; [|done]. intros b j. change (_block_id_to_pending_jobs c') with p. rewrite Hw, Hjs, (pending_exact _ _ _ H4). cbn. unfold watched. split.
      * intros [(job & Hjob & Hb)|(Hj & job & Hjob & Hb)]; exists job; (split; [done|]); rewrite elem_of_app in *.
        -- destruct Hb as [Hb|Hb]; [by left|right]. case_decide; [|by apply not_elem_of_nil in Hb]. rewrite decide_True; [done|]. by apply elem_of_union_r.
        -- right. destruct (Hown j Hj) as (job' & Hjob' & Hid). rewrite Hjob in Hjob'. injection Hjob' as <-. rewrite decide_True; [done|].
           apply elem_of_union_l, elem_of_singleton. done.
      * intros (job & Hjob & Hb). rewrite elem_of_app in Hb. destruct Hb as [Hb|Hb]; [left; exists job; split; [done|]; apply elem_of_app; by left|].
        case_decide as HF'; [|by apply not_elem_of_nil in Hb]. apply elem_of_union in HF' as [Hid%elem_of_singleton|HF'].
        -- right. split; [|by exists job]. destruct (job_owner _ _ H3 j job Hjob) as (js' & Ho & Hin). cbn in Ho. rewrite Hid, lookup_fmap, Hrs in Ho.
           by injection Ho as <-.
        -- left. exists job. split; [done|]. apply elem_of_app. right. by rewrite decide_True.
    + intros id [->%elem_of_singleton|Hid]%elem_of_union; [|by apply H8]. exists rs. split; [done|]. intros E0.
      assert (j0 ∈ transfer_jobs rs) as Hin by (apply Hjs; by left). rewrite E0 in Hin. by apply not_elem_of_empty in Hin.
Qed.

(** ** Reset *)

(** Nothing is collected for the next step, and no unfinished request has a transfer. *)
Record reset_ok F c : Prop := {
  reset_loads : _current_batch_load_jobs c = ∅;
  reset_flush : _current_batch_jobs_to_flush c = ∅;
  reset_alloc : _current_batch_allocated_block_ids c = ∅;
  reset_idle id rs : _req_status c !! id = Some rs → id ∉ F → transfer_jobs rs = ∅;
}.

Lemma conn_reset_inv F c reqs : conn_inv F c → agree F c reqs → reset_ok F c → ∃ c', connector_reset_cache reqs c = Ok c' ∧ conn_inv (still F c') c'.
Proof.
  intros [H1 H2 H3 H4 H5 Hsc H6 H7 H8] Hag [R1 R2 R3 R4]. unfold connector_reset_cache.
  rewrite R1, R2, R3, !bool_decide_true by done. cbn [assert_ require]. rewrite !bind_ret. cbv zeta. eexists. split; [reflexivity|].
  set (c' := mkConnector _ _ _ _ _ _ _ _ _ _ _ _ _ _).
  assert (∀ id rs', _req_status c' !! id = Some rs' → id ∉ F ∧ ∃ rs, _req_status c !! id = Some rs ∧
    rs' = put_group_states (put_next_stored_block_idx 0 <$> group_states rs) rs) as Hreq.
  { intros id rs'. cbn. rewrite lookup_fmap. intros (rs & Hrs & ->)%fmap_Some. apply map_lookup_filter_Some in Hrs as [Hrs Hfin]. cbn in Hfin.
    rewrite (Hag id) in Hfin by (by exists rs). apply bool_decide_eq_false in Hfin. split; [done|]. by exists rs. }
  assert (still F c' = ∅) as ->.
  { apply set_eq. intros id. rewrite elem_of_still, elem_of_empty. split; [|done]. intros [[rs' Hrs'] HF]. by destruct (Hreq id rs' Hrs'). }
  split; cbn.
  - apply (same_config_ok c); [by split|done].
  - unfold running_loads. rewrite map_to_list_empty. cbn. by eapply mgr_reset_ok.
  - split.
    + intros j job Hj. by rewrite lookup_empty in Hj.
    + intros id js j Ho Hj. rewrite lookup_fmap in Ho. apply fmap_Some in Ho as (rs' & Hrs' & ->). destruct (Hreq id rs' Hrs') as (HF & rs & Hrs & ->).
      cbn in Hj. rewrite (R4 id rs Hrs HF) in Hj. by apply not_elem_of_empty in Hj.
    + intros id js j job _ _ Hj. by rewrite lookup_empty in Hj.
  - split.
    + intros b j. split; [intros (js & Hjs & _); by rewrite lookup_empty in Hjs|intros (job & Hj & _); by rewrite lookup_empty in Hj].
    + intros b js Hjs. by rewrite lookup_empty in Hjs.
  - intros j job Hj. by rewrite lookup_empty in Hj.
  - lia.
  - intros j job Hj. by rewrite lookup_empty in Hj.
  - intros id rs' Hrs'. destruct (Hreq id rs' Hrs') as (HF & rs & Hrs & ->). destruct (H7 id rs Hrs) as [L1 L2 L3 L4]. split; cbn.
    + by rewrite length_fmap.
    + eapply all_keys_same; [|exact L2]. by rewrite <- list_fmap_compose.
    + by apply Forall_fmap, Forall_forall.
    + done.
  - intros id Hid. by apply not_elem_of_empty in Hid.
Qed.
End Report.
