(* ===== verification/ConnectorSession.v ===== *)
(** * The offloading connector over time

    Start-up establishes the invariant; a session is any sequence of calls that
    meet what the connector relies on.  No call raises, and the state between
    calls satisfies the invariant. *)

From S2P Require Import Prelude MathUtils PyDict Request BlockHash BlockPool SchedState KVSpec Offload.
From S2P Require Import OffloadConnector ConnectorSpec ConnectorLookup ConnectorLoad ConnectorInv ConnectorSteps ConnectorStore ConnectorReport.

Local Open Scope Z_scope.

(** ** Start-up *)

Record spec_ok (s : OffloadingSpec) : Prop := {
  sp_factor : 0 < spec_block_size_factor s;
  sp_world : 0 < spec_world_size s;
  sp_groups : zlen (spec_gpu_block_size s) ≤ 2 ^ 32;
  sp_sizes : Forall (λ size, 0 < size ∧ 0 < size * spec_block_size_factor s / spec_hash_block_size s) (spec_gpu_block_size s);
}.

(** Accepted configurations are well formed. *)
Lemma spec_init_ok groups cp hash offloaded world eagle prompt prefix s :
  Forall (λ g : LayerSpec * bool, 0 < layer_block_size g.1) groups → 0 < cp → 0 < hash → (∀ b, offloaded = Some b → 0 < b) → 0 < world →
  zlen groups ≤ 2 ^ 32 → OffloadingSpec_init groups cp hash offloaded world eagle prompt prefix = Ok s → spec_ok s.
Proof.
  intros Hg Hcp Hh Hoff Hw Hn Hs. unfold OffloadingSpec_init in Hs. apply bind_Ok in Hs as (us & Hus & Hs). apply bind_Ok in Hs as (factor & Hf & [= <-]).
  set (sizes := (λ g : LayerSpec * bool, layer_block_size g.1 * cp) <$> groups) in *.
  assert (∀ size, size ∈ sizes → 0 < size) as Hpos.
  { intros size (g & -> & Hin)%list_elem_of_fmap. rewrite Forall_forall in Hg. specialize (Hg g Hin). cbn in Hg. nia. }
  assert (0 < factor) as Hfac.
  { destruct offloaded as [b|]; [|by injection Hf as <-]. destruct (elements (list_to_set sizes)) as [|size [|? ?]] eqn:E; [done| |done].
    assert (size ∈ sizes) as Hin by (apply (elem_of_list_to_set (C := gset Z)), elem_of_elements; rewrite E; by left). specialize (Hpos size Hin).
    apply bind_Ok in Hf as (u & _ & Hf). apply bind_Ok in Hf as (v & Hv & [= <-]). unfold assert_, require in Hv.
    destruct (Z.eqb_spec (b mod size) 0) as [Hmod|]; [|done]. specialize (Hoff b eq_refl). apply Z.div_exact in Hmod; [|lia]. nia. }
  split; cbn; [done|done|unfold sizes; by rewrite length_fmap|]. apply Forall_forall. intros size Hin. specialize (Hpos size Hin). split; [done|].
  apply mapR_Forall2 in Hus. apply list_elem_of_lookup in Hin as [i Hi]. destruct (Forall2_lookup_l _ _ _ _ _ Hus Hi) as (u & _ & Hu).
  apply bind_Ok in Hu as (u' & _ & Hu). unfold assert_, require in Hu. destruct (Z.eqb_spec (size mod hash) 0) as [Hmod|]; [|done].
  assert (hash ≤ size) by (apply Z.mod_divide, Z.divide_pos_le in Hmod; lia). apply Z.div_str_pos. nia.
Qed.

Lemma insert_desc_perm key i l : insert_desc key i l ≡ₚ i :: l.
Proof. induction l as [|j l IH]; cbn; [done|]. destruct (_ >=? _); [done|]. rewrite IH. apply Permutation_swap. Qed.
Lemma sort_desc_perm key l : sort_desc key l ≡ₚ l.
Proof. induction l as [|i l IH]; cbn; [done|]. by rewrite insert_desc_perm, IH. Qed.

Lemma window_positive spec size sw w : 0 < size → get_sliding_window_size_in_blocks spec size = Ok sw → sw = Some w → 0 < w.
Proof.
  intros Hs Hsw ->. assert (∀ x, (_ ← assert_ (x >? 0); Ok (Some (cdiv x size))) = Ok (Some w) → 0 < w) as Hpos.
  { intros x (u & Hx & [= <-])%bind_Ok. unfold assert_, require in Hx. destruct (Z.gtb_spec x 0); [|done].
    pose proof (cdiv_bounds x size Hs). nia. }
  destruct spec; cbn [get_sliding_window_size_in_blocks] in Hsw; try done; eauto. by injection Hsw as <-.
Qed.

Lemma spec_rows_lookup s rows i x : spec_rows s = Ok rows → rows !! i = Some x →
  ∃ g size, x = (i, g, size) ∧ spec_gpu_block_size s !! i = Some size.
Proof.
  unfold spec_rows. intros Hr%mapR_Forall2 Hx. destruct (Forall2_lookup_r _ _ _ _ _ Hr Hx) as ([j size] & Hj & Hf).
  rewrite list_lookup_imap in Hj. apply fmap_Some in Hj as (size' & Hs & [= -> ->]). apply bind_Ok in Hf as (g & _ & [= <-]). by exists g, size'.
Qed.

Lemma align_positive s a size : spec_ok s → resolve_mamba_align_size s = Ok a → a = Some size → 0 < size.
Proof.
  intros Hs Ha. unfold resolve_mamba_align_size in Ha. apply bind_Ok in Ha as (rows & Hr & Hf). revert size.
  refine (foldM_inv (λ acc, ∀ size, acc = Some size → 0 < size) _ _ _ _ Hf _ _); [done|].
  intros x acc acc' Hin Hstep Hacc. apply list_elem_of_lookup in Hin as [i Hi]. destruct (spec_rows_lookup s rows i x Hr Hi) as ([spec e] & size & -> & Hsize).
  pose proof (Forall_lookup_1 _ _ _ _ (sp_sizes _ Hs) Hsize) as [Hpos _]. pose proof (sp_factor _ Hs).
  destruct spec; try (by injection Hstep as <-). destruct (String.eqb _ _); [|by injection Hstep as <-].
  apply bind_Ok in Hstep as (_ & _ & [= <-]). intros sz [= <-]. nia.
Qed.

(** Every group of the computed configuration. *)
Lemma from_spec_ok s cfg : spec_ok s → SchedulerOffloadConfig_from_spec s = Ok cfg →
  block_size_factor cfg = spec_block_size_factor s ∧ num_workers cfg = spec_world_size s ∧
  ∀ i g, kv_group_configs cfg !! i = Some g → group_config_ok (spec_block_size_factor s) i g.
Proof.
  intros Hs Hcfg. unfold SchedulerOffloadConfig_from_spec in Hcfg. apply bind_Ok in Hcfg as (rows & Hrows & Hcfg).
  apply bind_Ok in Hcfg as (tokens & _ & Hcfg). apply bind_Ok in Hcfg as (groups & Hg%mapR_Forall2 & [= <-]). split; [done|]. split; [done|]. cbn.
  intros i g Hi. destruct (Forall2_lookup_r _ _ _ _ _ Hg Hi) as (x & Hx & Hf). destruct (spec_rows_lookup s rows i x Hrows Hx) as ([spec e] & size & -> & Hsize).
  pose proof (Forall_lookup_1 _ _ _ _ (sp_sizes _ Hs) Hsize) as [Hpos Hhash]. pose proof (sp_factor _ Hs) as Hfac. pose proof (lookup_lt_Some _ _ _ Hsize).
  pose proof (sp_groups _ Hs). apply bind_Ok in Hf as (sw & Hsw & [= <-]). split; cbn; [done|lia|done|done|done| |].
  - intros w. eapply window_positive; [|exact Hsw]. nia.
  - intros n. unfold _alignment_block_count. by destruct tokens, sw.
Qed.

Section Session.
Context {M : Type} `{!OffloadingManager M, !OffloadingManagerSpec M}.
Abbreviation connector := (OffloadingConnectorScheduler M).
Implicit Types (c : connector) (F : gset string).
Variable H : string → list bytes.
Hypothesis H_nodup : ∀ id, NoDup (H id).
Abbreviation conn_inv := (conn_inv H).

Lemma init_config_ok s (m : M) c : spec_ok s → OffloadingConnectorScheduler_init s m = Ok c → config_ok c.
Proof.
  intros Hs Hc. unfold OffloadingConnectorScheduler_init in Hc. apply bind_Ok in Hc as (cfg & Hcfg & Hc). cbv zeta in Hc.
  apply bind_Ok in Hc as (align & Halign & [= <-]). destruct (from_spec_ok s cfg Hs Hcfg) as (Ef & Ew & Hg).
  assert (∀ (P : GroupOffloadConfig → Prop) `{!∀ g, Decision (P g)} i, i ∈ group_idx <$> filter P (kv_group_configs cfg) ↔
    ∃ g, kv_group_configs cfg !! i = Some g ∧ P g) as Hin.
  { intros P ? i. rewrite list_elem_of_fmap. split.
    - intros (g & -> & [HP [j Hj]%list_elem_of_lookup]%list_elem_of_filter). exists g. by rewrite (gc_idx _ _ _ (Hg j g Hj)).
    - intros (g & Hi & HP). exists g. split; [by rewrite (gc_idx _ _ _ (Hg i g Hi))|]. apply list_elem_of_filter. split; [done|]. by eapply list_elem_of_lookup_2. }
  split; cbn.
  - rewrite Ef. apply Hs.
  - rewrite Ef. apply Hg.
  - intros i. rewrite elem_of_app, sort_desc_perm, !Hin. split.
    + by intros [(g & Hi & _)|(g & Hi & _)]; apply lookup_lt_Some in Hi.
    + intros [g Hi]%lookup_lt_is_Some_2. destruct (sliding_window_size_in_blocks g) eqn:E; [right|left]; exists g; by rewrite E.
  - intros i. by rewrite sort_desc_perm, Hin.
  - intros sz ->. by eapply align_positive.
  - rewrite Ew. apply Hs.
Qed.

Lemma conn_start s m c : spec_ok s → mgr_inv m [] → OffloadingConnectorScheduler_init s m = Ok c → conn_inv ∅ c.
Proof.
  intros Hs Hm Hc. pose proof (init_config_ok s m c Hs Hc) as Hcfg. unfold OffloadingConnectorScheduler_init in Hc. apply bind_Ok in Hc as (cfg & _ & Hc).
  cbv zeta in Hc. apply bind_Ok in Hc as (align & _ & [= <-]). split; cbn; try done.
  split; [|intros b js Hjs; by rewrite lookup_empty in Hjs].
    intros b j. split; [intros (js & Hjs & _); by rewrite lookup_empty in Hjs|intros (job & Hj & _); by rewrite lookup_empty in Hj].
Qed.

(** ** Sessions *)

(** The scheduler's two calls for a waiting request; the second comes after it has allocated blocks. *)
Definition match_and_load (req : Request) (comp : Z) (blocks : list (list KVCacheBlock)) c : result connector :=
  '(n, _, c) ← get_num_new_matched_tokens req comp c;
  match n with None => Ok c | Some n => update_state_after_alloc req blocks n c end.

Record load_ok c (req : Request) (comp : Z) (blocks : list (list KVCacheBlock)) : Prop := {
  load_tables n b c1 : get_num_new_matched_tokens req comp c = Ok (Some n, b, c1) → n ≠ 0 → tables_ok c comp n blocks;
  load_few n b c1 rs : get_num_new_matched_tokens req comp c = Ok (Some n, b, c1) → _req_status c1 !! request_id req = Some rs →
    zlen (concat (offload_keys <$> group_states rs)) + zlen (running_loads (_jobs c)) < 2 ^ 31;
}.

(** The store jobs that the metadata of a step hands to the workers. *)
Definition announced (r : result (OffloadingConnectorMetadata * connector)) : gmap Z TransferJob :=
  match r with Ok (meta, _) => store_jobs meta | Raise _ => ∅ end.

(** A call, the store jobs it announces, its result, and the finished requests after it. *)
Inductive conn_call F c : gmap Z TransferJob → result connector → gset string → Prop :=
  | CallNew req cap : ¬ tracked c (request_id req) → conn_call F c ∅ (Ok (on_new_request req cap c)) F
  | CallMatch req comp : tracked c (request_id req) → request_ok H c req comp →
      conn_call F c ∅ (x ← get_num_new_matched_tokens req comp c; Ok x.2) F
  | CallLoad req comp blocks : tracked c (request_id req) → request_id req ∉ F → request_ok H c req comp → load_ok c req comp blocks →
      conn_call F c ∅ (match_and_load req comp blocks c) F
  | CallMeta reqs out : output_ok H F c reqs out →
      conn_call F c (announced (build_connector_meta reqs out c)) (x ← build_connector_meta reqs out c; Ok x.2) F
  | CallReport reqs reports : agree F c reqs → NoDup reports.*1 → Forall (report_ok c) reports →
      conn_call F c ∅ (update_connector_output reqs reports c) F
  | CallFinished req : request_id req ∉ F → conn_call F c ∅ (request_finished req c) ({[ request_id req ]} ∪ F)
  | CallReset reqs : agree F c reqs → reset_ok F c → conn_call F c ∅ (connector_reset_cache reqs c) F.

(** A session: the finished requests with running transfers, all store jobs announced so
    far, and the connector. *)
Inductive conn_reachable s (m : M) : gset string → gmap Z TransferJob → connector → Prop :=
  | reach_start c : OffloadingConnectorScheduler_init s m = Ok c → conn_reachable s m ∅ ∅ c
  | reach_call F A c B F' c' : conn_reachable s m F A c → conn_call F c B (Ok c') F' → conn_reachable s m (still F' c') (B ∪ A) c'.

Lemma call_ok F c B r F' : conn_inv F c → conn_call F c B r F' → ∃ c', r = Ok c' ∧ conn_inv (still F' c') c'.
Proof.
  intros Hi Hcall. assert (∀ c', conn_inv F c' → conn_inv (still F c') c') as Hstill by (intros c' Hi'; by rewrite (still_inv H)).
  destruct Hcall as [req cap Hn|req comp [rs Hrs] Hrq|req comp blocks [rs Hrs] HF Hrq [Htab Hfew]|reqs out Hout|reqs l Hag Hnd Hl|req HF|reqs Hag Hr].
  - eexists. split; [done|]. apply Hstill, (on_new_inv H); [done|]. by apply eq_None_not_Some.
  - destruct (get_matched_inv H F c req comp rs Hi Hrs Hrq) as (r & b & c' & -> & _ & Hi' & _). rewrite bind_ret. eexists. split; [done|]. by apply Hstill.
  - unfold match_and_load. destruct (get_matched_inv H F c req comp rs Hi Hrs Hrq) as (r & b & c1 & Hget & Hq & Hi1 & Hjobs & rs1 & Hrs1 & Hm).
    rewrite Hget, bind_ret. cbv beta iota. destruct r as [n|]; [|eexists; split; [done|]; by apply Hstill].
    destruct (decide (n = 0)) as [->|Hn]; [eexists; split; [done|]; by apply Hstill|]. destruct (Hm n eq_refl Hn) as (Hpos & Hcomp & Hmat).
    destruct (load_inv H H_nodup F c1 req rs1 n blocks Hi1 Hrs1 HF Hmat Hpos) as (c' & -> & Hi').
    + rewrite Hcomp. intros i g bl. rewrite (same_cfg _ _ (quiet_cfg _ _ _ Hq)). by eapply Htab.
    + rewrite Hjobs. by eapply Hfew.
    + eexists. split; [done|]. by apply Hstill.
  - destruct (build_meta_ok H H_nodup F c reqs out Hi Hout) as (meta & c' & -> & Hi' & _). rewrite bind_ret. eexists. split; [done|]. by apply Hstill.
  - destruct (update_output_ok H F c reqs l Hi Hag Hnd Hl) as (c' & ? & ? & _). by exists c'.
  - by apply (finished_inv H).
  - by apply (conn_reset_inv H).
Qed.

Lemma conn_reachable_inv s m F A c : spec_ok s → mgr_inv m [] → conn_reachable s m F A c → conn_inv F c.
Proof.
  intros Hs Hm. induction 1 as [c Hc|F A c B F' c' _ IH Hcall]; [by eapply conn_start|]. by destruct (call_ok _ _ _ _ _ IH Hcall) as (c'' & [= <-] & ?).
Qed.
End Session.
