(* ===== verification/ConnectorLog.v ===== *)
(** * What running stores read

    The metadata of a step tells the workers which GPU blocks a store job reads.  The
    connector keeps its own record of a running job, with the blocks it must watch.  The
    file ties the two together: over a session, the record of every running store lists
    all blocks of the job that was announced. *)

From S2P Require Import Prelude MathUtils PyDict Request BlockHash BlockPool SchedState KVSpec Offload.
From S2P Require Import OffloadConnector ConnectorSpec ConnectorLookup ConnectorLoad ConnectorInv ConnectorSteps ConnectorStore ConnectorReport ConnectorSession.

Local Open Scope Z_scope.

(** The blocks of a GPU side, group by group. *)
Fixpoint split_rows (sizes : list Z) (ids : list nat) : list (list nat) :=
  match sizes with [] => [] | n :: sizes => take (Z.to_nat n) ids :: split_rows sizes (drop (Z.to_nat n) ids) end.
Definition spec_rows_of (x : GPULoadStoreSpec) : list (list nat) := split_rows (group_sizes x) (gpu_block_ids x).

Lemma split_rows_concat (ls : list (list nat)) : split_rows ((λ l, zlen l) <$> ls) (concat ls) = ls.
Proof. induction ls as [|l ls IH]; [done|]. cbn. by rewrite Nat2Z.id, take_app_length, drop_app_length, IH. Qed.

(** Block [b] is read by job [t], for a group with or without sliding window. *)
Definition reads (cfg : SchedulerOffloadConfig) (t : TransferJob) (sliding : bool) (b : nat) : Prop :=
  ∃ id src dst i g row, t = StoreJob id src dst ∧ kv_group_configs cfg !! i = Some g ∧ sliding_group g = sliding ∧ spec_rows_of src !! i = Some row ∧ b ∈ row.

(** The record of a job lists what the job reads. *)
Record recorded (cfg : SchedulerOffloadConfig) (t : TransferJob) (job : TransferJobStatus) : Prop := {
  rc_id : ∃ src dst, t = StoreJob (job_req_id job) src dst ∧ ∀ b, b ∈ gpu_block_ids src → ∃ sl, reads cfg t sl b;
  rc_sliding b : reads cfg t true b ↔ b ∈ default [] (sliding_window_block_ids job);
  rc_others b : reads cfg t false b ↔ b ∈ default [] (non_sliding_window_block_ids job);
}.
Definition same_record (job job' : TransferJobStatus) : Prop :=
  job_req_id job' = job_req_id job ∧ is_store job' = is_store job ∧ non_sliding_window_block_ids job' = non_sliding_window_block_ids job ∧
  sliding_window_block_ids job' = sliding_window_block_ids job.

Lemma recorded_same cfg t job job' : same_record job job' → recorded cfg t job → recorded cfg t job'.
Proof. intros (E1 & _ & E3 & E4) [R1 R2 R3]. split; rewrite ?E1, ?E3, ?E4; done. Qed.

Section Log.
Context {M : Type} `{!OffloadingManager M, !OffloadingManagerSpec M}.
Abbreviation connector := (OffloadingConnectorScheduler M).
Implicit Types (c : connector) (F : gset string) (A B : gmap Z TransferJob).
Variable H : string → list bytes.
Hypothesis H_nodup : ∀ id, NoDup (H id).

(** From [c] to [c'] the jobs [B] were announced. *)
Record follows c B c' : Prop := {
  fl_cfg : config c' = config c;
  fl_counter : _job_counter c ≤ _job_counter c';
  fl_new j : is_Some (B !! j) → _job_counter c ≤ j < _job_counter c';
  fl_jobs j job' : _jobs c' !! j = Some job' → is_store job' = true →
    (∃ job, _jobs c !! j = Some job ∧ same_record job job') ∨ ∃ t, B !! j = Some t ∧ recorded (config c) t job';
}.

Lemma follows_same c c' : config c' = config c → _job_counter c' = _job_counter c → _jobs c' = _jobs c → follows c ∅ c'.
Proof. intros E1 E2 E3. split; [done|lia|intros j [t Ht]; by rewrite lookup_empty in Ht|]. rewrite E3. intros j job Hj _. left. by exists job. Qed.
Lemma follows_quiet c c' : quiet H c c' → follows c ∅ c'.
Proof. intros Hq. apply follows_same; [apply (same_cfg _ _ (quiet_cfg _ _ _ Hq))|apply (quiet_counter _ _ _ Hq)|apply (quiet_jobs _ _ _ Hq)]. Qed.
Lemma follows_trans c B c' B' c'' : follows c B c' → follows c' B' c'' → follows c (B' ∪ B) c''.
Proof.
  intros [E1 L1 N1 J1] [E2 L2 N2 J2]. split; [congruence|lia| |].
  - intros j [t [Ht|[_ Ht]]%lookup_union_Some_raw]; [specialize (N2 j ltac:(by eexists))|specialize (N1 j ltac:(by eexists))]; lia.
  - intros j job' Hj Hs. destruct (J2 j job' Hj Hs) as [(job & Hj1 & Hsame)|(t & Ht & Hr)].
    + destruct Hsame as (S1 & S2 & S3 & S4). destruct (J1 j job Hj1) as [(job0 & Hj0 & Hs0)|(t & Ht & Hr)]; [congruence| |].
      * left. exists job0. split; [done|]. destruct Hs0 as (? & ? & ? & ?). split_and!; congruence.
      * right. exists t. split; [|eapply recorded_same; [|exact Hr]; done]. apply lookup_union_Some_raw. destruct (B' !! j) as [t'|] eqn:Eb; [|by right].
        specialize (N2 j ltac:(by rewrite Eb)). specialize (N1 j ltac:(by rewrite Ht)). lia.
    + right. exists t. split; [by apply lookup_union_Some_l|]. by rewrite <- E1.
Qed.
Lemma follows_left c B c' c'' : follows c B c' → follows c' ∅ c'' → follows c B c''.
Proof. intros H1 H2. rewrite <- (map_empty_union B). by eapply follows_trans. Qed.
Lemma follows_idle c c' c'' : follows c ∅ c' → follows c' ∅ c'' → follows c ∅ c''.
Proof. apply follows_left. Qed.

(** ** Calls *)

Lemma load_follows req blocks n c c' : update_state_after_alloc req blocks n c = Ok c' → follows c ∅ c'.
Proof.
  unfold update_state_after_alloc. destruct (n =? 0); [intros [= <-]; by apply follows_same|]. intros (rs & _ & E)%bind_Ok. cbv zeta in E.
  apply bind_Ok in E as (loads & _ & E). apply bind_Ok in E as ([src m] & _ & E). apply bind_Ok in E as (dst & _ & E). unfold _generate_job_id in E. cbv beta iota zeta in E.
  apply bind_Ok in E as (u & _ & [= <-]). split; cbn; [done|lia|intros j [t Ht]; by rewrite lookup_empty in Ht|].
  intros j job [[<- <-]|[_ Hj]]%lookup_insert_Some Hs; [done|]. left. by exists job.
Qed.

Lemma remove_pending_follows j ids c c' : _remove_pending_job j ids c = Ok c' → follows c ∅ c'.
Proof.
  unfold _remove_pending_job. intros E. refine (foldM_inv (λ x, follows c ∅ x) _ _ _ _ E _ _); [by apply follows_same|].
  intros b c1 c2 _ E2 H1. apply bind_Ok in E2 as (p & _ & E2). apply bind_Ok in E2 as (u & _ & [= <-]). eapply follows_idle; [exact H1|]. by apply follows_same.
Qed.
Lemma complete_follows reqs c x c' : complete_job reqs c x = Ok c' → follows c ∅ c'.
Proof.
  destruct x as [j n]. unfold complete_job. intros (u & _ & E)%bind_Ok. destruct (j <? _); [injection E as <-; by apply follows_same|].
  apply bind_Ok in E as (job & Hj & E). cbv zeta in E. destruct (_ !! j) as [job0|] eqn:Ej in Hj; [|done]. injection Hj as ->. destruct (_ >? 0).
  { injection E as <-. split; cbn; [done|lia|intros i [t Ht]; by rewrite lookup_empty in Ht|]. intros i job' [[<- <-]|[_ Hi]]%lookup_insert_Some Hs; left; [by exists job|by exists job']. }
  apply bind_Ok in E as (u1 & _ & E). apply bind_Ok in E as (rs & _ & E). apply bind_Ok in E as (c1 & E1 & E). apply bind_Ok in E as (c2 & E2 & E). apply bind_Ok in E as (u2 & _ & [= <-]).
  assert (follows c ∅ c1) as H1. { destruct (is_store job); apply bind_Ok in E1 as (m & _ & [= <-]); by apply follows_same. }
  assert (follows c1 ∅ c2) as H2.
  { destruct (bool_decide _); [|injection E2 as <-; by apply follows_same]. apply bind_Ok in E2 as (c3 & E3%remove_pending_follows & E2).
    destruct (is_finished _); [apply remove_pending_follows in E2; by eapply follows_idle|by injection E2 as <-]. }
  eapply follows_idle; [by eapply follows_idle|]. split; cbn; [done|lia|intros i [t Ht]; by rewrite lookup_empty in Ht|].
  intros i job' [_ Hi]%lookup_delete_Some Hs. left. by exists job'.
Qed.
Lemma report_follows reqs l c c' : update_connector_output reqs l c = Ok c' → follows c ∅ c'.
Proof.
  unfold update_connector_output. intros E. refine (foldM_inv (λ x, follows c ∅ x) _ _ _ _ E _ _); [by apply follows_same|].
  intros x c1 c2 _ E2%complete_follows H1. by eapply follows_idle.
Qed.

Lemma finished_follows req c c' : request_finished req c = Ok c' → follows c ∅ c'.
Proof.
  unfold request_finished. destruct (_req_status c !! request_id req) as [rs|]; [|intros [= <-]; by apply follows_same]. cbv zeta.
  destruct (elements (transfer_jobs rs)) as [|j js]; [intros [= <-]; by apply follows_same|]. intros E.
  refine (foldM_inv (λ x, follows c ∅ x) _ _ _ _ E _ _); [by apply follows_same|].
  intros x c1 c2 _ (job & _ & [= <-])%bind_Ok H1. eapply follows_idle; [exact H1|]. by apply follows_same.
Qed.

Lemma concat_choice {X} (f : GroupOffloadConfig → bool) (gs : list GroupOffloadConfig) (ids : list (list X)) b :
  b ∈ concat ((λ x : GroupOffloadConfig * list X, if f x.1 then x.2 else []) <$> zip gs ids) ↔ ∃ i g row, gs !! i = Some g ∧ ids !! i = Some row ∧ f g = true ∧ b ∈ row.
Proof.
  rewrite elem_in_concat. split.
  - intros (l & (x & -> & [i Hx]%list_elem_of_lookup)%list_elem_of_fmap & Hb). destruct x as [g row]. apply lookup_zip_Some in Hx as [Hg Hr]. cbn in Hb.
    destruct (f g) eqn:E; [|by apply not_elem_of_nil in Hb]. by exists i, g, row.
  - intros (i & g & row & Hg & Hr & Hf & Hb). exists row. split; [|done]. apply list_elem_of_fmap. exists (g, row). cbn. rewrite Hf. split; [done|].
    apply list_elem_of_lookup. exists i. by apply lookup_zip_Some.
Qed.

Lemma start_store_follows c id rs tokens out j t c' : start_store_job c id rs tokens out = Ok (j, t, c') → follows c {[ j := t ]} c'.
Proof.
  unfold start_store_job. cbv zeta. intros (groups & Eg & E)%bind_Ok. set (gs := kv_group_configs (config c)) in *. set (ids := (λ x : list (Z * nat) * RequestGroupState, x.1.*2) <$> groups) in *.
  apply bind_Ok in E as (src & Esrc & E). unfold _generate_job_id in E. cbv beta iota zeta in E. apply bind_Ok in E as (u & _ & [= <- <- <-]).
  unfold GPULoadStoreSpec_init in Esrc. apply bind_Ok in Esrc as (u1 & _ & Esrc). apply bind_Ok in Esrc as (u2 & _ & [= <-]).
  split; cbn; [done|lia|intros i [t' [<- _]%lookup_singleton_Some]; lia|]. intros i job' [[<- <-]|[_ Hi]]%lookup_insert_Some Hs; [|left; by exists job']. right. eexists. split; [by apply lookup_singleton_Some|].
  set (t := StoreJob _ _ _). assert (length ids ≤ length gs)%nat as Hlen. { apply mapR_Forall2, Forall2_length in Eg. unfold ids. rewrite length_fmap, <- Eg, length_zip. lia. }
  assert (∀ sl b, reads (config c) t sl b ↔ ∃ i g row, gs !! i = Some g ∧ ids !! i = Some row ∧ sliding_group g = sl ∧ b ∈ row) as Hreads.
  { intros sl b. unfold reads, t. split.
    - intros (? & ? & ? & i & g & row & [= <- <- <-] & Hg & Hsl & Hrow & Hb). unfold spec_rows_of in Hrow. cbn in Hrow. rewrite split_rows_concat in Hrow. by exists i, g, row.
    - intros (i & g & row & Hg & Hrow & Hsl & Hb). eexists _, _, _, i, g, row. split; [done|]. unfold spec_rows_of. cbn. rewrite split_rows_concat. done. }
  split; cbn.
  - eexists _, _. split; [done|]. cbn. intros b (row & [i Hi]%list_elem_of_lookup & Hb)%elem_in_concat. destruct (lookup_lt_is_Some_2 gs i) as [g Hg]; [apply lookup_lt_Some in Hi; lia|].
    exists (sliding_group g). apply Hreads. by exists i, g, row.
  - intros b. rewrite Hreads. set (sliding := concat _).
    assert (b ∈ default [] (match sliding with [] => None | _ => Some sliding end) ↔ b ∈ sliding) as -> by (by destruct sliding). unfold sliding.
    rewrite (concat_choice sliding_group gs ids). naive_solver.
  - intros b. rewrite Hreads. pose proof (concat_choice (λ g, negb (sliding_group g)) gs ids b) as Hc.
    replace (concat ((λ x : GroupOffloadConfig * list nat, if sliding_group x.1 then [] else x.2) <$> zip gs ids)) with (concat ((λ x : GroupOffloadConfig * list nat, if negb (sliding_group x.1) then x.2 else []) <$> zip gs ids)).
    + rewrite Hc. split; intros (i & g & row & ? & ? & ? & ?); exists i, g, row; (split_and!; try done); [by apply negb_true_iff|by apply negb_true_iff].
    + f_equal. apply list_fmap_ext. intros i [g l] _. cbn. by destruct (sliding_group g).
Qed.

Lemma store_request_follows reqs A c y A' c' : store_request reqs (A, c) y = Ok (A', c') → (∀ j, is_Some (A !! j) → j < _job_counter c) →
  ∃ B, A' = B ∪ A ∧ follows c B c'.
Proof.
  destruct y as [id n]. unfold store_request. cbv beta iota zeta. intros E HA.
  assert (∀ c1, config c1 = config c → _job_counter c1 = _job_counter c → _jobs c1 = _jobs c → ∃ B, A = B ∪ A ∧ follows c B c1) as Hidle.
  { intros c1 E1 E2 E3. exists ∅. split; [by rewrite map_empty_union|by apply follows_same]. }
  destruct (_req_status c !! id) as [rs|]; [|injection E as <- <-; by apply Hidle].
  apply bind_Ok in E as (keys & _ & E). destruct (concat keys) as [|k ks]; [apply bind_Ok in E as (rs' & _ & [= <- <-]); by apply Hidle|].
  apply bind_Ok in E as ([o m] & _ & E). destruct o as [o|]; [|injection E as <- <-; by apply Hidle].
  destruct (keys_to_store o) as [|k' ks']; [apply bind_Ok in E as (rs' & _ & [= <- <-]); by apply Hidle|].
  apply bind_Ok in E as ([[j t] c2] & E & [= <- <-]). exists {[j := t]}. rewrite <- insert_union_singleton_l. split; [done|].
  apply start_store_follows in E. rewrite <- (map_union_empty {[j := t]}). eapply follows_trans; [|exact E]. by apply follows_same.
Qed.
Lemma build_stores_follows reqs out c A c' : _build_store_jobs reqs out c = Ok (A, c') → follows c A c'.
Proof.
  unfold _build_store_jobs. intros E. refine (foldM_inv (λ x : gmap Z TransferJob * connector, follows c x.1 x.2) _ _ _ _ E _ _); [by apply follows_same|].
  intros y [A1 c1] [A2 c2] _ E2 H1. cbn in *. destruct (store_request_follows reqs A1 c1 y A2 c2 E2) as (B & -> & H2).
  - intros j Hj. apply (fl_new _ _ _ H1 j Hj).
  - by eapply follows_trans.
Qed.

(** Announced jobs are tracked. *)
Definition tracks_all c A : Prop := ∀ j, is_Some (A !! j) → j < _job_counter c ∧ ∃ job, _jobs c !! j = Some job ∧ is_store job = true.

Lemma build_stores_tracked reqs out c A c' : _build_store_jobs reqs out c = Ok (A, c') → tracks_all c' A.
Proof.
  unfold _build_store_jobs. intros E. refine (foldM_inv (λ x : gmap Z TransferJob * connector, tracks_all x.2 x.1) _ _ _ _ E _ _); [intros j [t Ht]; cbn in Ht; by rewrite lookup_empty in Ht|].
  intros [id n] [A1 c1] [A2 c2] _ E2 H1. cbn [fst snd] in *. unfold store_request in E2. cbv beta iota zeta in E2.
  destruct (_req_status c1 !! id) as [rs|]; [|by injection E2 as <- <-].
  apply bind_Ok in E2 as (keys & _ & E2). destruct (concat keys) as [|k ks]; [by apply bind_Ok in E2 as (rs' & _ & [= <- <-])|].
  apply bind_Ok in E2 as ([o m] & _ & E2). destruct o as [o|]; [|by injection E2 as <- <-].
  destruct (keys_to_store o) as [|k' ks']; [by apply bind_Ok in E2 as (rs' & _ & [= <- <-])|].
  apply bind_Ok in E2 as ([[j t] c3] & E2 & [= <- <-]). unfold start_store_job in E2. cbv zeta in E2. apply bind_Ok in E2 as (groups & _ & E2). apply bind_Ok in E2 as (src & _ & E2).
  unfold _generate_job_id in E2. cbv beta iota zeta in E2. apply bind_Ok in E2 as (u & _ & [= <- <- <-]). cbn. intros i [t' Hi]. cbn.
  apply lookup_insert_Some in Hi as [[<- <-]|[Hne Hi]]; [split; [lia|]; eexists; by rewrite lookup_insert_eq|].
  destruct (H1 i) as [Hlt Hjob]; [by eexists|]. split; [lia|]. by rewrite lookup_insert_ne.
Qed.

Lemma meta_follows F c reqs out meta c' : conn_inv H F c → output_ok H F c reqs out → build_connector_meta reqs out c = Ok (meta, c') →
  follows c (store_jobs meta) c' ∧ tracks_all c' (store_jobs meta).
Proof.
  intros Hi [O1 O2 _ _ _] E. unfold build_connector_meta in E. destruct (update_states_ok H F c reqs out Hi O1 O2) as (c1 & Hu & Hq & _). rewrite Hu, bind_ret in E. cbv zeta in E.
  apply bind_Ok in E as (pre & _ & E). apply bind_Ok in E as ([A c2] & E2 & [= <- <-]). cbn. split; [|exact (build_stores_tracked _ _ _ _ _ E2)]. apply build_stores_follows in E2.
  eapply (follows_left _ _ c2); [|by apply follows_same]. rewrite <- (map_union_empty A). eapply follows_trans; [|exact E2]. eapply (follows_idle _ c1); [by apply follows_quiet|]. by apply follows_same.
Qed.

Lemma call_follows F c B c' F' : conn_inv H F c → conn_call H F c B (Ok c') F' → follows c B c'.
Proof.
  intros Hi Hcall. remember (Ok c') as r eqn:Er.
  destruct Hcall as [req cap Hn|req comp [rs Hrs] Hrq|req comp blocks [rs Hrs] HF Hrq _|reqs out Hout|reqs l Hag Hnd Hl|req HF|reqs Hag Hr].
  - injection Er as <-. unfold on_new_request. destruct (mgr_on_new_request _ _). by apply follows_same.
  - destruct (get_matched_inv H F c req comp rs Hi Hrs Hrq) as (r1 & b & c1 & E & Hq & _). rewrite E, bind_ret in Er. injection Er as <-. by apply follows_quiet.
  - unfold match_and_load in Er. destruct (get_matched_inv H F c req comp rs Hi Hrs Hrq) as (r1 & b & c1 & E & Hq & _). rewrite E, bind_ret in Er. cbv beta iota in Er. apply follows_quiet in Hq.
    destruct r1 as [n|]; [|by injection Er as <-]. apply load_follows in Er. by eapply follows_idle.
  - destruct (build_connector_meta reqs out c) as [[meta c1]|e] eqn:E; [|done]. cbn in Er. injection Er as <-. by eapply (meta_follows F c reqs out meta).
  - by eapply report_follows.
  - by eapply finished_follows.
  - unfold connector_reset_cache in Er. apply bind_Ok in Er as (u & _ & Er). apply bind_Ok in Er as (u1 & _ & Er). apply bind_Ok in Er as (u2 & _ & [= <-]).
    split; cbn; [done|lia|intros j [t Ht]; by rewrite lookup_empty in Ht|]. intros j job Hj. by rewrite lookup_empty in Hj.
Qed.

(** ** Sessions *)

Lemma session_recorded s m F A c : spec_ok s → mgr_inv m [] → conn_reachable H s m F A c →
  (∀ j, is_Some (A !! j) → j < _job_counter c) ∧ ∀ j job, _jobs c !! j = Some job → is_store job = true → ∃ t, A !! j = Some t ∧ recorded (config c) t job.
Proof.
  intros Hs Hm Hr. induction Hr as [c Hc|F A c B F' c' Hr [IHc IHj] Hcall].
  - split; [intros j [t Ht]; by rewrite lookup_empty in Ht|]. unfold OffloadingConnectorScheduler_init in Hc. apply bind_Ok in Hc as (cfg & _ & Hc). cbv zeta in Hc.
    apply bind_Ok in Hc as (align & _ & [= <-]). intros j job Hj. cbn in Hj. by rewrite lookup_empty in Hj.
  - pose proof (call_follows F c B c' F' (conn_reachable_inv H H_nodup s m F A c Hs Hm Hr) Hcall) as [E L N J]. split.
    + intros j [t [Ht|[_ Ht]]%lookup_union_Some_raw]; [specialize (N j ltac:(by eexists)); lia|]. specialize (IHc j ltac:(by eexists)). lia.
    + intros j job Hj Hst. rewrite E. destruct (J j job Hj Hst) as [(job0 & Hj0 & Hsame)|(t & Ht & Hrec)]; cycle 1.
      { exists t. split; [by apply lookup_union_Some_l|done]. }
      destruct (IHj j job0 Hj0) as (t & Ht & Hrec); [destruct Hsame as (_ & E2 & _); congruence|]. exists t. split; [|by eapply recorded_same].
      apply lookup_union_Some_raw. destruct (B !! j) as [t'|] eqn:Eb; [|by right]. specialize (N j ltac:(by rewrite Eb)). specialize (IHc j ltac:(by rewrite Ht)). lia.
Qed.
End Log.
