(* ===== verification/ConnectorClaims.v ===== *)
(** * What the offloading connector guarantees *)

From S2P Require Import Prelude MathUtils PyDict Request BlockHash BlockPool SchedState KVSpec Offload.
From S2P Require Import OffloadConnector ConnectorSpec ConnectorLookup ConnectorLoad ConnectorInv ConnectorSteps ConnectorStore ConnectorReport ConnectorSession ConnectorLog.

Local Open Scope Z_scope.

Section Claims.
Context {M : Type} `{!OffloadingManager M, !OffloadingManagerSpec M}.
Implicit Types (c : OffloadingConnectorScheduler M) (F : gset string).
Variable H : string → list bytes.
Hypothesis H_nodup : ∀ id, NoDup (H id).
Variable (s : OffloadingSpec) (m : M).
Hypothesis Hs : spec_ok s.
Hypothesis Hm : mgr_inv m [].

(** C23: building the metadata of a step, the connector asks the workers to wait for
    every running store that reads a GPU block which the step gives away, if the block is
    of a sliding window group or the request of the store has finished, and for every
    store of a preempted request.  What a store reads is taken from the job that was
    announced to the workers: each running store was announced, and each job announced
    with this metadata is tracked from now on.  The step and the calls before it meet what
    the connector relies on ([output_ok], [conn_call]). *)
Theorem reused_blocks_flushed F A c reqs out : conn_reachable H s m F A c → output_ok H F c reqs out →
  ∃ meta c', build_connector_meta reqs out c = Ok (meta, c') ∧
    (∀ j job, _jobs c !! j = Some job → is_store job = true → ∃ src dst, A !! j = Some (StoreJob (job_req_id job) src dst) ∧
       (∀ b, b ∈ gpu_block_ids src → reallocated c out b → job_req_id job ∈ F → j ∈ jobs_to_flush meta) ∧
       (∀ b i g row, kv_group_configs (config c) !! i = Some g → sliding_group g = true → spec_rows_of src !! i = Some row → b ∈ row →
          reallocated c out b → j ∈ jobs_to_flush meta)) ∧
    (∀ id rs, id ∈ out_preempted_req_ids out → _req_status c !! id = Some rs → transfer_jobs rs ⊆ jobs_to_flush meta) ∧
    (∀ j, is_Some (store_jobs meta !! j) → ∃ job, _jobs c' !! j = Some job ∧ is_store job = true).
Proof using H_nodup Hs Hm.
  intros Hr Ho. pose proof (conn_reachable_inv H H_nodup s m F A c Hs Hm Hr) as Hi.
  destruct (build_meta_ok H H_nodup F c reqs out Hi Ho) as (meta & c' & Hb & _ & Hf & Hp).
  exists meta, c'. split; [done|]. split; [|split; [done|]].
  - intros j job Hj Hst. destruct (session_recorded H H_nodup s m F A c Hs Hm Hr) as [_ Hrec]. destruct (Hrec j job Hj Hst) as (t & Ht & [(src & dst & -> & Hall) R2 R3]).
    exists src, dst. split; [done|]. split.
    + intros b Hb1 Ha HF. apply (Hf j job b Hj); [|done]. unfold watched. rewrite decide_True by done. apply elem_of_app. destruct (Hall b Hb1) as [[] Hread]; [left; by apply R2|right; by apply R3].
    + intros b i g row Hg Hsl Hrow Hb1 Ha. apply (Hf j job b Hj); [|done]. unfold watched. apply elem_of_app. left. apply R2. eexists _, _, _, i, g, row. done.
  - intros j Hj. destruct (meta_follows H F c reqs out meta c' Hi Ho Hb) as [_ Htr]. by apply Htr.
Qed.

(** C24: what a lookup announces is there: the lookup terminates, and when it answers
    with a number of tokens, then in every group the offloaded blocks that end with these
    tokens are hits: all of them, or for a sliding window group as many as the window
    holds, counted back from the last one.  No group is used for EAGLE
    ([request_ok]), and the calls before meet what the connector relies on
    ([conn_call]). *)
Theorem connector_lookup_sound F A c req comp : conn_reachable H s m F A c → tracked c (request_id req) → request_ok H c req comp →
  ∃ r b c', get_num_new_matched_tokens req comp c = Ok (r, b, c') ∧
    ∀ n, r = Some n → n ≠ 0 → 0 < n ∧ comp + n ≤ num_tokens req ∧
      ∃ rs, _req_status c' !! request_id req = Some rs ∧ num_locally_computed_tokens rs = comp ∧
        ∀ i g, kv_group_configs (config c) !! i = Some g → ∃ st, group_states rs !! i = Some st ∧ group_covered rs (manager c') (comp + n) g st.
Proof using H_nodup Hs Hm.
  intros Hr [rs Hrs] Hq. destruct (get_matched_inv H F c req comp rs (conn_reachable_inv H H_nodup s m F A c Hs Hm Hr) Hrs Hq)
    as (r & b & c' & -> & Hquiet & _ & _ & rs1 & Hrs1 & Hm1). eexists _, _, _. split; [done|]. intros n -> Hn.
  destruct (Hm1 n eq_refl Hn) as (Hpos & Hc & [J1 J2 J3 J4 J5 J6]). rewrite Hc in J4, J6. split; [done|]. split; [done|]. exists rs1. split; [done|]. split; [done|].
  intros i g Hg. rewrite <- (same_cfg _ _ (quiet_cfg _ _ _ Hquiet)) in Hg. destruct (lookup_lt_is_Some_2 (group_states rs1) i) as [st Hst].
  { rewrite J1. by eapply lookup_lt_Some. }
  exists st. split; [done|]. by eapply J6.
Qed.

(** C25: nothing is left behind: when no job is running, no request has a transfer,
    every finished request is forgotten, no block is watched, and the manager
    counts no reader.  The calls of a session meet what the connector relies on
    ([conn_call]); in particular the cache is reset when no unfinished request has a
    transfer ([reset_ok]). *)
Theorem connector_drains F A c : conn_reachable H s m F A c → _jobs c = ∅ →
  F = ∅ ∧ _block_id_to_pending_jobs c = ∅ ∧ (∀ id rs, _req_status c !! id = Some rs → transfer_jobs rs = ∅) ∧ mgr_inv (manager c) [].
Proof using H_nodup Hs Hm.
  intros Hr Hj. destruct (conn_reachable_inv H H_nodup s m F A c Hs Hm Hr) as [_ H2 H3 [Hex Hne] _ _ _ _ H8]. rewrite Hj in *.
  assert (∀ id rs, _req_status c !! id = Some rs → transfer_jobs rs = ∅) as Hidle.
  { intros id rs Hrs. apply set_eq. intros j. split; [|by intros ?%not_elem_of_empty]. intros Hin.
    destruct (job_listed _ _ H3 id (transfer_jobs rs) j) as (job & Hjob & _); [by rewrite lookup_fmap, Hrs|done|by rewrite lookup_empty in Hjob]. }
  split; [|split; [|split; [done|exact H2]]].
  - apply set_eq. intros id. split; [|by intros ?%not_elem_of_empty]. intros Hid. destruct (H8 id Hid) as (rs & Hrs & Hn). by destruct Hn, (Hidle id rs Hrs).
  - apply map_eq. intros b. rewrite lookup_empty. destruct (_block_id_to_pending_jobs c !! b) as [js|] eqn:E; [|done].
    destruct (set_choose_L js (Hne b js E)) as [j Hin]. destruct (proj1 (Hex b j)) as (job & Hjob & _); [by exists js|]. by rewrite lookup_empty in Hjob.
Qed.
End Claims.
