(* ===== verification/ConnectorDemo.v ===== *)
(** * Runs of the offloading connector *)

From Stdlib Require Import QArith.
From S2P Require Import Prelude PyDict Request BlockHash BlockPool SchedState KVSpec Offload OffloadPolicy OffloadArc OffloadInv OffloadSession.
From S2P Require Import OffloadConnector ConnectorSpec ConnectorLookup ConnectorLoad ConnectorInv ConnectorSteps ConnectorStore ConnectorReport ConnectorSession ConnectorClaims.

Local Open Scope string_scope.
Local Open Scope Z_scope.

(** One full-attention group with one token per block. *)
Definition conn_spec (eagle : bool) : OffloadingSpec :=
  mkOffloadingSpec [(Full 1 (mkAttn 1 1 "" NONE None false) (mkFull 1 None None false), eagle)] [1] 1 1 1 false false true.
Definition conn_manager : CPUOffloadingManager LRUCachePolicy := CPUOffloadingManager_init 10 false 1 10.

(** A request for six tokens of which some are computed. *)
Definition conn_req (id : string) (computed : Z) (st : RequestStatus) : Request :=
  mkRequest id 0 0 0 0 None None None false st None 8 (Some [1; 2; 3; 4; 5; 6]) None ∅ 6 [] [1; 2; 3; 4; 5; 6] 0 0 0
    0 [] computed None [] false 0 [[Byte.x01]; [Byte.x02]; [Byte.x03]; [Byte.x04]; [Byte.x05]; [Byte.x06]] false false None None.

Definition no_cached : CachedRequestData := mkCachedRequestData [] ∅ [] [] [] [] [].
Definition step_output (new : list NewRequestData) (cached : CachedRequestData) (tokens : dict Z) (preempted : gset string) : SchedulerOutput :=
  mkSchedulerOutput new cached tokens 0 [] [] [] preempted ∅ [] None 0 false false None.
Definition first_step (id : string) (blocks : list nat) (n : Z) : SchedulerOutput :=
  step_output [mkNewRequestData id None [] [blocks] 0 None None] no_cached [(id, n)] ∅.
Definition next_step (id : string) (blocks : list nat) (n : Z) : SchedulerOutput :=
  step_output [] (mkCachedRequestData [id] ∅ [] [] [Some [blocks]] [] []) [(id, n)] ∅.

Definition run_eagle : result (option Z) :=
  c ← OffloadingConnectorScheduler_init (conn_spec true) conn_manager;
  let c := on_new_request (conn_req "r" 0 WAITING) None c in
  '(_, _, c) ← get_num_new_matched_tokens (conn_req "r" 0 WAITING) 0 c;
  '(meta1, c) ← build_connector_meta (λ _, conn_req "r" 0 RUNNING) (first_step "r" [1; 2; 3]%nat 3) c;
  c ← update_connector_output (λ _, conn_req "r" 0 RUNNING) [(0, 1)] c;
  '(meta2, c) ← build_connector_meta (λ _, conn_req "r" 3 RUNNING) (next_step "r" [4; 5; 6]%nat 3) c;
  c ← update_connector_output (λ _, conn_req "r" 3 RUNNING) [(1, 1)] c;
  c ← request_finished (conn_req "r" 6 FINISHED_STOPPED) c;
  let c := on_new_request (conn_req "s" 0 WAITING) None c in
  '(n, _, c) ← get_num_new_matched_tokens (conn_req "s" 0 WAITING) 0 c;
  Ok n.
(** The trailing block of the first chunk is never stored, so a prompt that was
    stored in two chunks matches one token. *)
Lemma eagle_chunks_lose_a_block : run_eagle = Ok (Some 1).
Proof. vm_compute. reflexivity. Qed.

(** A store is running when the cache is reset. *)
Definition after_reset : result (OffloadingConnectorScheduler (CPUOffloadingManager LRUCachePolicy)) :=
  c ← OffloadingConnectorScheduler_init (conn_spec false) conn_manager;
  let c := on_new_request (conn_req "r" 0 WAITING) None c in
  '(_, _, c) ← get_num_new_matched_tokens (conn_req "r" 0 WAITING) 0 c;
  '(_, c) ← build_connector_meta (λ _, conn_req "r" 0 RUNNING) (first_step "r" [1; 2; 3]%nat 3) c;
  c ← connector_reset_cache (λ _, conn_req "r" 3 PREEMPTED) c;
  update_connector_output (λ _, conn_req "r" 3 PREEMPTED) [(0, 1)] c.
(** The request waits for a job that is gone, and both its next store and its
    preemption raise. *)
Lemma reset_strands_a_request :
  (c ← after_reset; '(n, _, _) ← get_num_new_matched_tokens (conn_req "r" 0 PREEMPTED) 0 c; Ok n) = Ok None ∧
  (c ← after_reset; '(m, _) ← build_connector_meta (λ _, conn_req "r" 3 RUNNING) (next_step "r" [4; 5; 6]%nat 3) c; Ok m) = Raise KeyError ∧
  (c ← after_reset; '(m, _) ← build_connector_meta (λ _, conn_req "r" 3 RUNNING) (step_output [] no_cached [] {["r"]}) c; Ok m) = Raise KeyError.
Proof. vm_compute. done. Qed.

(** Two groups whose sliding window blocks are twice as large. *)
Definition two_sizes : OffloadingSpec :=
  mkOffloadingSpec [(Full 2 (mkAttn 1 1 "" NONE None false) (mkFull 1 None None false), false);
                    (Sliding 4 (mkAttn 1 1 "" NONE None false) 4 1, false)] [2; 4] 1 2 1 false false true.
Definition eight_req (id : string) (st : RequestStatus) (hs : list bytes) : Request :=
  mkRequest id 0 0 0 0 None None None false st None 8 (Some [1; 2; 3; 4; 5; 6; 7; 8]) None ∅ 8 [] [1; 2; 3; 4; 5; 6; 7; 8] 0 0 0
    0 [] 0 None [] false 0 hs false false None None.
Definition eight_hashes : list bytes := [[Byte.x01]; [Byte.x02]; [Byte.x03]; [Byte.x04]].
Definition fresh_block (i : nat) : KVCacheBlock := mkBlock i 1 None None false.
(** r stores everything, s looks it up, t evicts one block, and s asks again. *)
Definition run_two_sizes : result (option Z * result bool) :=
  c ← OffloadingConnectorScheduler_init two_sizes (CPUOffloadingManager_init 6 false 1 10 : CPUOffloadingManager LRUCachePolicy);
  let c := on_new_request (eight_req "r" WAITING eight_hashes) None c in
  '(_, _, c) ← get_num_new_matched_tokens (eight_req "r" WAITING eight_hashes) 0 c;
  '(_, c) ← build_connector_meta (λ _, eight_req "r" RUNNING eight_hashes)
    (step_output [mkNewRequestData "r" None [] [[1; 2; 3; 4]; [5; 6]]%nat 0 None None] no_cached [("r", 8)] ∅) c;
  c ← update_connector_output (λ _, eight_req "r" RUNNING eight_hashes) [(0, 1)] c;
  let c := on_new_request (eight_req "s" WAITING eight_hashes) None c in
  '(_, _, c) ← get_num_new_matched_tokens (eight_req "s" WAITING eight_hashes) 0 c;
  let c := on_new_request (eight_req "t" WAITING [[Byte.x07]; [Byte.x08]; [Byte.x09]; [Byte.x0a]]) None c in
  '(_, _, c) ← get_num_new_matched_tokens (eight_req "t" WAITING [[Byte.x07]; [Byte.x08]; [Byte.x09]; [Byte.x0a]]) 0 c;
  '(_, c) ← build_connector_meta (λ _, eight_req "t" RUNNING [[Byte.x07]; [Byte.x08]; [Byte.x09]; [Byte.x0a]])
    (step_output [mkNewRequestData "t" None [] [[7]; [9]]%nat 0 None None] no_cached [("t", 2)] ∅) c;
  '(n, _, c) ← get_num_new_matched_tokens (eight_req "s" WAITING eight_hashes) 0 c;
  Ok (n, _ ← update_state_after_alloc (eight_req "s" WAITING eight_hashes) [fresh_block <$> [11; 12; 13]; fresh_block <$> [14; 15]]%nat (default 0 n) c; Ok true).
(** The six tokens need two sliding window blocks where the search made sure of one. *)
Lemma sizes_differ_load_fails : run_two_sizes = Ok (Some 6, Raise AssertionError).
Proof. vm_compute. reflexivity. Qed.

(** ** A session *)

Abbreviation demo_connector := (OffloadingConnectorScheduler (CPUOffloadingManager LRUCachePolicy)).
Definition unwrap (d : demo_connector) (r : result demo_connector) : demo_connector := match r with Ok c => c | Raise _ => d end.
Definition empty_connector : demo_connector :=
  mkConnector (mkSchedulerOffloadConfig [] 1 1 false) conn_manager [] [] None ∅ ∅ ∅ ∅ None 0 0 ∅ ∅.
Abbreviation run r := (unwrap empty_connector r).

Definition demo_hashes (id : string) : list bytes := [[Byte.x01]; [Byte.x02]; [Byte.x03]; [Byte.x04]; [Byte.x05]; [Byte.x06]].
Definition demo_running (id : string) : Request := conn_req id 0 RUNNING.

(** The request r stores its first three blocks and finishes before the store ends. *)
Definition demo_c0 : demo_connector := run (OffloadingConnectorScheduler_init (conn_spec false) conn_manager).
Definition demo_c1 : demo_connector := on_new_request (conn_req "r" 0 WAITING) None demo_c0.
Definition demo_c2 : demo_connector := run (x ← get_num_new_matched_tokens (conn_req "r" 0 WAITING) 0 demo_c1; Ok x.2).
Definition demo_c3 : demo_connector := run (x ← build_connector_meta demo_running (first_step "r" [1; 2; 3]%nat 3) demo_c2; Ok x.2).
Definition demo_c4 : demo_connector := run (request_finished (conn_req "r" 3 FINISHED_STOPPED) demo_c3).
(** The request s gets two of the blocks. *)
Definition demo_c5 : demo_connector := on_new_request (conn_req "s" 0 WAITING) None demo_c4.

Lemma demo_hashes_nodup id : NoDup (demo_hashes id).
Proof. apply (bool_decide_unpack _). vm_compute. done. Qed.
Lemma demo_spec_ok : spec_ok (conn_spec false).
Proof. split; [done|done|done|]. by repeat constructor. Qed.
Lemma demo_manager_ok : mgr_inv conn_manager [].
Proof. exists 10, ∅. split; [by apply init_manager_inv|by intros k|done]. Qed.

Abbreviation demo_reachable := (conn_reachable demo_hashes (conn_spec false) conn_manager).
(** The store of r. *)
Definition demo_stores : gmap Z TransferJob := announced (build_connector_meta demo_running (first_step "r" [1; 2; 3]%nat 3) demo_c2).

Lemma demo_call F A c B r F' c' F'' A' : demo_reachable F A c → conn_call demo_hashes F c B r F' → r = Ok c' → still F' c' = F'' → B ∪ A = A' → demo_reachable F'' A' c'.
Proof. intros Hr Hc -> <- <-. by eapply reach_call. Qed.

Lemma demo_request_ok (c : demo_connector) id : config c = config demo_c0 → request_ok demo_hashes c (conn_req id 0 WAITING) 0.
Proof.
  intros E. split; [| |done|done].
  - intros i g. rewrite E. destruct i; [|done]. intros [= <-]. done.
  - intros i g. rewrite E. destruct i; [|done]. intros [= <-]. done.
Qed.

Lemma demo_r0 : demo_reachable ∅ ∅ demo_c0.
Proof. apply reach_start. vm_compute. reflexivity. Qed.
Lemma demo_r1 : demo_reachable ∅ ∅ demo_c1.
Proof.
  eapply demo_call; [exact demo_r0|apply (CallNew _ _ _ (conn_req "r" 0 WAITING) None)|reflexivity|by vm_compute|by rewrite map_empty_union].
  intros [rs Hrs]. vm_compute in Hrs. done.
Qed.
Lemma demo_r2 : demo_reachable ∅ ∅ demo_c2.
Proof.
  eapply demo_call; [exact demo_r1|apply (CallMatch _ _ _ (conn_req "r" 0 WAITING) 0)| | |].
  - vm_compute. by eexists.
  - apply demo_request_ok. done.
  - vm_compute. reflexivity.
  - by vm_compute.
  - by rewrite map_empty_union.
Qed.

(** A step that schedules tokens of one new request. *)
Lemma demo_output F (c : demo_connector) id blocks n : is_Some (_req_status c !! id) → length (kv_group_configs (config c)) = 1%nat →
  (∀ c1, _update_req_states demo_running (first_step id blocks n) c = Ok c1 → store_ready F c1 demo_running (id, n)) →
  output_ok demo_hashes F c demo_running (first_step id blocks n).
Proof.
  intros Hid Hlen Hready. split.
  - constructor; [|constructor]. split; [done|]. cbn. by intros new [= <-] _.
  - done.
  - repeat constructor. apply not_elem_of_nil.
  - intros id' rs j job Hp. by apply not_elem_of_empty in Hp.
  - intros c1 Hc1. constructor; [by apply Hready|constructor].
Qed.

Lemma demo_r3 : demo_reachable ∅ demo_stores demo_c3.
Proof.
  eapply demo_call; [exact demo_r2|apply (CallMeta _ _ _ demo_running (first_step "r" [1; 2; 3]%nat 3))| | |].
  - apply demo_output; [vm_compute; by eexists|done|]. intros c1 Hc1. vm_compute in Hc1. injection Hc1 as <-. intros rs Hrs. vm_compute in Hrs.
    injection Hrs as <-. split; [apply not_elem_of_empty|]. split.
    + vm_compute. done.
    + intros [|i] g st; [|done]. intros [= <-] [= <-]. by split.
    + apply (bool_decide_unpack _). by vm_compute.
    + intros j job Hj. by apply not_elem_of_empty in Hj.
  - vm_compute. reflexivity.
  - by vm_compute.
  - by rewrite map_union_empty.
Qed.
Lemma demo_r4 : demo_reachable {[ "r" ]} demo_stores demo_c4.
Proof.
  eapply demo_call; [exact demo_r3|apply (CallFinished _ _ _ (conn_req "r" 3 FINISHED_STOPPED))| | |].
  - apply not_elem_of_empty.
  - vm_compute. reflexivity.
  - by vm_compute.
  - by rewrite map_empty_union.
Qed.
Lemma demo_r5 : demo_reachable {[ "r" ]} demo_stores demo_c5.
Proof.
  eapply demo_call; [exact demo_r4|apply (CallNew _ _ _ (conn_req "s" 0 WAITING) None)|reflexivity|by vm_compute|by rewrite map_empty_union].
  intros [rs Hrs]. vm_compute in Hrs. done.
Qed.
Lemma demo_s_output : output_ok demo_hashes {[ "r" ]} demo_c5 demo_running (first_step "s" [2; 1]%nat 2).
Proof.
  apply demo_output; [vm_compute; by eexists|done|]. intros c1 Hc1. vm_compute in Hc1. injection Hc1 as <-. intros rs Hrs. vm_compute in Hrs.
  injection Hrs as <-. split; [by rewrite elem_of_singleton|]. split.
  - vm_compute. done.
  - intros [|i] g st; [|done]. intros [= <-] [= <-]. by split.
  - apply (bool_decide_unpack _). by vm_compute.
  - intros j job Hj. by apply not_elem_of_empty in Hj.
Qed.

Lemma demo_job : ∃ job, _jobs demo_c5 !! 0 = Some job ∧ job_req_id job = "r" ∧ non_sliding_window_block_ids job = Some [1; 2; 3]%nat ∧ pending_count job = 1 ∧ is_store job = true.
Proof. eexists. split; [vm_compute; reflexivity|]. by vm_compute. Qed.
Lemma demo_report : Forall (report_ok demo_c5) [(0, 1)].
Proof. constructor; [|constructor]. split; [done|]. right. destruct demo_job as (job & Hj & _ & _ & Hp & _). exists job. split; [exact Hj|]. cbn [snd]. lia. Qed.

(** The step of s waits for the store of r. *)
Lemma reused_blocks_flushed_witness :
  ∃ meta c', build_connector_meta demo_running (first_step "s" [2; 1]%nat 2) demo_c5 = Ok (meta, c') ∧ 0 ∈ jobs_to_flush meta.
Proof.
  destruct (reused_blocks_flushed demo_hashes demo_hashes_nodup (conn_spec false) conn_manager demo_spec_ok demo_manager_ok
    {[ "r" ]} demo_stores demo_c5 demo_running (first_step "s" [2; 1]%nat 2) demo_r5 demo_s_output) as (meta & c' & Hb & Hf & _).
  exists meta, c'. split; [exact Hb|].
  destruct demo_job as (job & Hj & Hid & _ & _ & Hst). destruct (Hf 0 job Hj Hst) as (src & dst & Ha & Hflush & _).
  assert (gpu_block_ids src = [1; 2; 3]%nat) as Hsrc by (vm_compute in Ha; by injection Ha as _ <- _).
  apply (Hflush 2%nat).
  - rewrite Hsrc. apply (bool_decide_unpack _). by vm_compute.
  - right. split; [done|]. eexists. split; [apply list_elem_of_here|]. apply list_elem_of_here.
  - rewrite Hid. by apply elem_of_singleton.
Defined.

(** The status of the requests when the store of r is reported. *)
Definition demo_status (id : string) : Request := conn_req id 0 (if String.eqb id "r" then FINISHED_STOPPED else WAITING).
Lemma demo_agree : agree {[ "r" ]} demo_c5 demo_status.
Proof.
  intros id [rs Hrs]. unfold demo_status. destruct (String.eqb_spec id "r") as [->|Hne]; [by vm_compute|].
  rewrite bool_decide_false by by rewrite elem_of_singleton. done.
Qed.
(** After the report the request s finds the three blocks. *)
Definition demo_c6 : demo_connector := run (update_connector_output demo_status [(0, 1)] demo_c5).
Lemma demo_r6 : demo_reachable ∅ demo_stores demo_c6.
Proof.
  eapply demo_call; [exact demo_r5|apply (CallReport _ _ _ demo_status [(0, 1)]); [exact demo_agree|repeat constructor; apply not_elem_of_nil|exact demo_report]| | |].
  - vm_compute. reflexivity.
  - by vm_compute.
  - by rewrite map_empty_union.
Qed.
Lemma connector_lookup_sound_witness : ∃ c' rs st, get_num_new_matched_tokens (conn_req "s" 0 WAITING) 0 demo_c6 = Ok (Some 3, true, c') ∧
  _req_status c' !! "s" = Some rs ∧ group_states rs !! 0%nat = Some st ∧ hit_at (manager c') (offload_keys st) 2.
Proof.
  destruct (connector_lookup_sound demo_hashes demo_hashes_nodup (conn_spec false) conn_manager demo_spec_ok demo_manager_ok
    ∅ demo_stores demo_c6 (conn_req "s" 0 WAITING) 0 demo_r6) as (r & b & c' & Hg & Hn); [vm_compute; by eexists|by apply demo_request_ok|].
  assert (r = Some 3 ∧ b = true) as [-> ->] by (vm_compute in Hg; by injection Hg as <- <- _).
  destruct (Hn 3 eq_refl ltac:(done)) as (_ & _ & rs & Hrs & Hz & Hcov). destruct (Hcov 0%nat _ ltac:(vm_compute; reflexivity)) as (st & Hst & Hc).
  exists c', rs, st. split; [exact Hg|]. split; [exact Hrs|]. split; [exact Hst|]. apply (Hc 2). rewrite Hz. clear. by vm_compute.
Defined.
Lemma connector_drains_witness : _block_id_to_pending_jobs demo_c6 = ∅ ∧ mgr_inv (manager demo_c6) [].
Proof.
  destruct (connector_drains demo_hashes demo_hashes_nodup (conn_spec false) conn_manager demo_spec_ok demo_manager_ok ∅ demo_stores demo_c6 demo_r6) as (_ & Hp & _ & Hm);
    [by vm_compute|by split].
Defined.
