(* ===== verification/Ngram.v ===== *)
(** * Draft tokens from the prompt ([v1/spec_decode/ngram_proposer.py])

    The proposer looks for the longest n-gram at the end of the tokens of a request
    that occurs earlier, and proposes the tokens that follow it.  The search is the
    failure function of Knuth, Morris and Pratt on the reversed tokens, with a table
    for the first [max_ngram] positions only.

    Correspondence.  An array is a list; an index that is out of range is an
    [IndexError].  The buffers of the class are part of its state.  The requests of
    a batch are processed one after the other: the parallel loop writes different
    rows.  Setting the number of threads is left out. *)

From S2P Require Import Prelude.

Local Open Scope Z_scope.

(** ** The search *)

Record NgramSearch := mkNgramSearch {
  lps : list Z;
  longest_ngram : Z;
  position : Z;
  prev_lps : Z;
  ng_i : Z;
}.

(** One iteration of the [while] loop. *)
Definition ngram_step (tokens : list Z) (max_ngram : Z) (s : NgramSearch) : result NgramSearch :=
  x ← py_get tokens (prev_lps s);
  y ← py_get tokens (ng_i s);
  if x =? y then
    let prev := prev_lps s + 1 in
    let '(longest, pos) := if prev >=? longest_ngram s then (prev, ng_i s) else (longest_ngram s, position s) in
    let table := if ng_i s <? max_ngram then <[Z.to_nat (ng_i s) := prev]> (lps s) else lps s in
    prev ← (if prev =? max_ngram then py_get table (max_ngram - 1) else Ok prev);
    Ok (mkNgramSearch table longest pos prev (ng_i s + 1))
  else if negb (prev_lps s =? 0) then
    prev ← py_get (lps s) (prev_lps s - 1);
    Ok (mkNgramSearch (lps s) (longest_ngram s) (position s) prev (ng_i s))
  else Ok (mkNgramSearch (lps s) (longest_ngram s) (position s) (prev_lps s) (ng_i s + 1)).

Fixpoint ngram_loop (fuel : nat) (tokens : list Z) (max_ngram : Z) (s : NgramSearch) : result NgramSearch :=
  if ng_i s <? zlen tokens then
    match fuel with
    | O => Raise OutOfFuel
    | S fuel => s ← ngram_step tokens max_ngram s; ngram_loop fuel tokens max_ngram s
    end
  else Ok s.

(** Enough iterations: each advances the position or shortens the current match. *)
Definition ngram_fuel (tokens : list Z) : nat := 2 * length tokens.

Definition _find_longest_matched_ngram_and_propose_tokens (origin_tokens : list Z) (min_ngram max_ngram max_model_len k : Z) : result (list Z) :=
  let total_token := zlen origin_tokens in
  if total_token <? min_ngram then Ok [] else
  let k := Z.min k (max_model_len - total_token) in
  if k <=? 0 then Ok [] else
  let tokens := reverse origin_tokens in
  s ← ngram_loop (ngram_fuel tokens) tokens max_ngram (mkNgramSearch (replicate (Z.to_nat max_ngram) 0) 0 0 0 1);
  if longest_ngram s <? min_ngram then Ok [] else
  let start_position := total_token - 1 - position s + longest_ngram s in
  let k := Z.min k (total_token - start_position) in
  Ok (py_slice origin_tokens start_position (start_position + k)).

(** ** Batches *)

Record NgramProposer := mkNgramProposer {
  min_n : Z;
  max_n : Z;
  ng_k : Z;
  ng_max_model_len : Z;
  valid_ngram_draft : list (list Z);
  valid_ngram_num_drafts : list Z;
}.
Definition put_drafts (d : list (list Z)) (n : list Z) (p : NgramProposer) : NgramProposer :=
  mkNgramProposer (min_n p) (max_n p) (ng_k p) (ng_max_model_len p) d n.

(** The attributes, before the first call. *)
Definition ngram_buffers (prompt_lookup_min prompt_lookup_max num_speculative_tokens max_model_len max_num_seqs : Z) : NgramProposer :=
  mkNgramProposer prompt_lookup_min prompt_lookup_max num_speculative_tokens max_model_len
    (replicate (Z.to_nat max_num_seqs) (replicate (Z.to_nat num_speculative_tokens) 0)) (replicate (Z.to_nat max_num_seqs) 0).

(** [row[:len(draft)] = draft] *)
Definition write_draft (row draft : list Z) : result (list Z) :=
  _ ← require ValueError (zlen draft <=? zlen row); Ok (draft ++ drop (length draft) row).

Definition propose_one (num_tokens_no_spec : list Z) (token_ids_cpu : list (list Z)) (k : Z) (p : NgramProposer) (idx : nat) : result NgramProposer :=
  num_tokens ← of_option IndexError (num_tokens_no_spec !! idx);
  row ← of_option IndexError (token_ids_cpu !! idx);
  draft ← _find_longest_matched_ngram_and_propose_tokens (py_upto row num_tokens) (min_n p) (max_n p) (ng_max_model_len p) k;
  buf ← of_option IndexError (valid_ngram_draft p !! idx);
  _ ← require IndexError (bool_decide (idx < length (valid_ngram_num_drafts p))%nat);
  buf ← (match draft with [] => Ok buf | _ => write_draft buf draft end);
  Ok (put_drafts (<[idx := buf]> (valid_ngram_draft p)) (<[idx := zlen draft]> (valid_ngram_num_drafts p)) p).
Definition batch_propose_numba (valid_ngram_requests : list nat) (num_tokens_no_spec : list Z) (token_ids_cpu : list (list Z)) (k : Z)
    (p : NgramProposer) : result NgramProposer :=
  foldM (propose_one num_tokens_no_spec token_ids_cpu k) p valid_ngram_requests.

(** Reading the buffers back. *)
Definition read_draft (valid_ngram_requests : list nat) (p : NgramProposer) (i : nat) : result (list Z) :=
  if bool_decide (i ∈ valid_ngram_requests) then
    n ← of_option IndexError (valid_ngram_num_drafts p !! i);
    if n >? 0 then buf ← of_option IndexError (valid_ngram_draft p !! i); Ok (py_upto buf n) else Ok []
  else Ok [].
Definition batch_propose (num_requests : nat) (valid_ngram_requests : list nat) (num_tokens_no_spec : list Z) (token_ids_cpu : list (list Z)) (k : Z)
    (p : NgramProposer) : result (list (list Z) * NgramProposer) :=
  p ← (match valid_ngram_requests with
       | [] => Ok p
       | _ => batch_propose_numba valid_ngram_requests num_tokens_no_spec token_ids_cpu k p
       end);
  drafts ← mapR (read_draft valid_ngram_requests p) (seq 0 num_requests);
  Ok (drafts, p).

(** Which requests get a proposal. *)
Definition needs_ngram (num_tokens_no_spec : list Z) (p : NgramProposer) (x : nat * list Z) : result (list nat) :=
  match x.2 with
  | [] => Ok []
  | _ =>
      num_tokens ← of_option IndexError (num_tokens_no_spec !! x.1);
      Ok (if num_tokens >=? ng_max_model_len p then [] else [x.1])
  end.
Definition propose (num_speculative_tokens : Z) (sampled_token_ids : list (list Z)) (num_tokens_no_spec : list Z) (token_ids_cpu : list (list Z))
    (p : NgramProposer) : result (list (list Z) * NgramProposer) :=
  _ ← assert_ (num_speculative_tokens <=? ng_k p);
  valid ← mapR (needs_ngram num_tokens_no_spec p) (imap (λ i x, (i, x)) sampled_token_ids);
  batch_propose (length sampled_token_ids) (concat valid) num_tokens_no_spec token_ids_cpu num_speculative_tokens p.

(** The constructor ends with a call that is meant to compile the search. *)
Definition NgramProposer_init (prompt_lookup_min prompt_lookup_max num_speculative_tokens max_model_len max_num_seqs : Z) : result NgramProposer :=
  let p := ngram_buffers prompt_lookup_min prompt_lookup_max num_speculative_tokens max_model_len max_num_seqs in
  out ← propose (ng_k p) (replicate 1024 []) (replicate 1024 0) (replicate 1024 (replicate (Z.to_nat (ng_max_model_len p)) 0)) p;
  Ok out.2.
