(* ===== verification/NgramExact.v ===== *)
(** * The n-gram search finds the longest match at the earliest place *)

From S2P Require Import Prelude Ngram.

Local Open Scope nat_scope.

(** ** Borders

    [border t v n]: the first [v] tokens of [t] are also the last [v] of the first
    [n], with [v < n]. *)

Definition border (t : list Z) (v n : nat) : Prop := v < n ≤ length t ∧ ∀ k, k < v → t !! k = t !! (n - v + k).
Definition max_border (t : list Z) (v n : nat) : Prop := border t v n ∧ ∀ w, border t w n → w ≤ v.

Section Border.
Implicit Types (t : list Z) (v w n : nat).

Lemma border_zero t n : 0 < n ≤ length t → border t 0 n.
Proof. intros Hn. split; [lia|]. intros k Hk. lia. Qed.
Lemma border_extend t v n : border t v n → n < length t → t !! v = t !! n → border t (S v) (S n).
Proof.
  intros [Hv Hk] Hn E. split; [lia|]. intros k Hlt. replace (S n - S v + k) with (n - v + k) by lia.
  destruct (decide (k = v)) as [->|]; [|apply Hk; lia]. rewrite E. f_equal. lia.
Qed.
Lemma border_shrink t v n : border t (S v) (S n) → border t v n ∧ t !! v = t !! n.
Proof.
  intros [Hv Hk]. split.
  - split; [lia|]. intros k Hlt. by rewrite Hk by lia.
  - rewrite Hk by lia. f_equal. lia.
Qed.
Lemma border_trans t w v n : border t w v → border t v n → border t w n.
Proof. intros [Hw Hkw] [Hv Hkv]. split; [lia|]. intros k Hk. rewrite Hkw, Hkv by lia. f_equal. lia. Qed.
Lemma border_below t w v n : border t w n → border t v n → w < v → border t w v.
Proof. intros [Hw Hkw] [Hv Hkv] Hlt. split; [lia|]. intros k Hk. rewrite (Hkv (v - w + k)) by lia. rewrite Hkw by lia. f_equal. lia. Qed.
End Border.

(** ** The loop *)

Section Loop.
Variable t : list Z.
Variable M : nat.
Hypothesis M_pos : 0 < M.

(** The longest match so far, and the last position where it ends. *)
Definition best_so_far (L pos i : nat) : Prop :=
  L ≤ M ∧ (L = 0 ∨ border t L (S pos) ∧ pos < i ∧ ∀ j, j < i → border t L (S j) → j ≤ pos) ∧
  ∀ j w, j < i → border t w (S j) → w ≤ M → w ≤ L.

Record search_inv (s : NgramSearch) (v i L pos : nat) : Prop := {
  si_prev : prev_lps s = Z.of_nat v;
  si_i : ng_i s = Z.of_nat i;
  si_long : longest_ngram s = Z.of_nat L;
  si_pos : position s = Z.of_nat pos;
  si_border : border t v i;
  si_small : v < M;
  si_candidates w : border t w i → w < M → t !! w = t !! i → w ≤ v;
  si_len : length (lps s) = M;
  si_table j : j < i → j < M → ∃ p, lps s !! j = Some (Z.of_nat p) ∧ max_border t p (S j);
  si_rest j : i ≤ j → j < M → lps s !! j = Some 0%Z;
  si_best : best_so_far L pos i;
}.

(** A match at position [i] that cannot be longer. *)
Lemma best_extend L pos i v : best_so_far L pos i → border t (S v) (S i) → S v ≤ M → (∀ w, border t w (S i) → w ≤ M → w ≤ S v) →
  if decide (L ≤ S v) then best_so_far (S v) i (S i) else best_so_far L pos (S i).
Proof.
  intros (HL & Hpos & Hmax) Hb Hv Hw. destruct (decide (L ≤ S v)) as [Hle|Hgt].
  - split; [done|]. split; [right; split; [done|]; split; [lia|]; intros; lia|]. intros j w Hj Hbw HwM.
    destruct (decide (j = i)) as [->|]; [by apply Hw|]. etrans; [apply (Hmax j w); [lia|done|done]|done].
  - split; [done|]. split.
    + destruct Hpos as [->|(H1 & H2 & H3)]; [by left|right]. split; [done|]. split; [lia|]. intros j Hj Hbj.
      destruct (decide (j = i)) as [->|]; [|apply H3; [lia|done]]. specialize (Hw L Hbj HL). lia.
    + intros j w Hj Hbw HwM. destruct (decide (j = i)) as [->|]; [specialize (Hw w Hbw HwM); lia|]. apply (Hmax j w); [lia|done|done].
Qed.
Lemma best_skip L pos i : best_so_far L pos i → (∀ w, border t w (S i) → w ≤ M → w = 0) → best_so_far L pos (S i).
Proof.
  intros (HL & Hpos & Hmax) Hw. split; [done|]. split.
  - destruct Hpos as [->|(H1 & H2 & H3)]; [by left|]. destruct (decide (L = 0)) as [->|Hn]; [by left|right]. split; [done|]. split; [lia|].
    intros j Hj Hbj. destruct (decide (j = i)) as [->|]; [|apply H3; [lia|done]]. specialize (Hw L Hbj HL). lia.
  - intros j w Hj Hbw HwM. destruct (decide (j = i)) as [->|]; [specialize (Hw w Hbw HwM); lia|]. apply (Hmax j w); [lia|done|done].
Qed.

Lemma get_nat (l : list Z) i x : l !! i = Some x → py_get l (Z.of_nat i) = Ok x.
Proof. intros. by apply py_get_nat. Qed.

(** A fresh position: the candidates are the borders up to it. *)
Lemma candidates_next v i : border t v i → (∀ w, border t w i → w < M → t !! w = t !! i → w ≤ v) →
  ∀ w, border t w (S i) → w ≤ M → w ≤ S v.
Proof. intros Hb Hc [|w] Hw HM; [lia|]. apply border_shrink in Hw as [Hw E]. specialize (Hc w Hw ltac:(lia) E). lia. Qed.

Lemma ngram_step_ok s v i L pos : search_inv s v i L pos → i < length t →
  ∃ s' v' i' L' pos', ngram_step t (Z.of_nat M) s = Ok s' ∧ search_inv s' v' i' L' pos' ∧
    2 * (length t - i') + v' < 2 * (length t - i) + v.
Proof.
  intros [E1 E2 E3 E4 Hb Hv Hc Hlen Htab Hrest Hbest] Hi. pose proof Hb as [Hvi _].
  destruct (lookup_lt_is_Some_2 t v) as [x Hx]; [lia|]. destruct (lookup_lt_is_Some_2 t i Hi) as [y Hy].
  unfold ngram_step. rewrite E1, E2, (get_nat _ _ _ Hx), (get_nat _ _ _ Hy), !bind_ret. pose proof (candidates_next v i Hb Hc) as Hnext.
  destruct (Z.eqb_spec x y) as [<-|Hxy].
  - assert (border t (S v) (S i)) as Hb' by (apply border_extend; [done|done|congruence]).
    pose proof (best_extend L pos i v Hbest Hb' ltac:(lia) Hnext) as Hbest'.
    set (table := if (Z.of_nat i <? Z.of_nat M)%Z then _ else _).
    assert (length table = M ∧ (∀ j, j < S i → j < M → ∃ p, table !! j = Some (Z.of_nat p) ∧ max_border t p (S j)) ∧
      ∀ j, S i ≤ j → j < M → table !! j = Some 0%Z) as (Hlen' & Htab' & Hrest').
    { unfold table. rewrite Nat2Z.id. destruct (Z.ltb_spec (Z.of_nat i) (Z.of_nat M)) as [HiM|HiM].
      - split; [by rewrite length_insert|]. split.
        + intros j Hj HjM. destruct (decide (j = i)) as [->|Hne]; [|rewrite list_lookup_insert_ne by done; apply Htab; lia].
          exists (S v). rewrite list_lookup_insert_eq by lia. split; [f_equal; lia|]. split; [done|]. intros w Hw. apply Hnext; [done|]. destruct Hw; lia.
        + intros j Hj HjM. rewrite list_lookup_insert_ne by lia. apply Hrest; lia.
      - split; [done|]. split; [|intros; lia]. intros j Hj HjM. apply Htab; lia. }
    rewrite E3, E4.
    assert ((if Z.of_nat v + 1 >=? Z.of_nat L then (Z.of_nat v + 1, Z.of_nat i) else (Z.of_nat L, Z.of_nat pos))%Z =
      (Z.of_nat (if decide (L ≤ S v) then S v else L), Z.of_nat (if decide (L ≤ S v) then i else pos))) as ->.
    { destruct (Z.geb_spec (Z.of_nat v + 1) (Z.of_nat L)), (decide (L ≤ S v)); try lia; f_equal; lia. }
    assert (best_so_far (if decide (L ≤ S v) then S v else L) (if decide (L ≤ S v) then i else pos) (S i)) as Hbest'' by by destruct (decide _).
    destruct (Z.eqb_spec (Z.of_nat v + 1) (Z.of_nat M)) as [HM|HM].
    + assert (M = S v) as EM by lia. destruct (Htab' v) as (p & Hp & Hbp & Hmp); [lia|lia|]. replace (Z.of_nat M - 1)%Z with (Z.of_nat v) by lia.
      rewrite (get_nat _ _ _ Hp), bind_ret. pose proof Hbp as [Hpv _].
      eexists _, p, (S i), _, _. split; [done|]. split; [|lia]. split; cbn; try done; try lia.
      * by eapply border_trans.
      * intros w Hw HwM _. apply Hmp. rewrite EM in HwM. by eapply border_below.
    + rewrite bind_ret. eexists _, (S v), (S i), _, _. split; [done|]. split; [|lia]. split; cbn; try done; try lia.
      intros w Hw HwM _. apply Hnext; [done|lia].
  - destruct v as [|v].
    + cbn. eexists _, 0, (S i), L, pos. split; [done|]. split; [|lia].
      assert (∀ w, border t w (S i) → w ≤ M → w = 0) as Hz.
      { intros [|w] Hw HwM; [done|]. apply border_shrink in Hw as [Hw E]. specialize (Hc w Hw ltac:(lia) E). assert (w = 0) as -> by lia. congruence. }
      split; cbn; try done; try lia.
      * apply border_zero. lia.
      * intros w Hw HwM _. rewrite (Hz w Hw) by lia. done.
      * intros j Hj HjM. destruct (decide (j = i)) as [->|]; [|apply Htab; lia]. exists 0. split; [apply Hrest; lia|]. split; [apply border_zero; lia|].
        intros w Hw. rewrite (Hz w Hw); [done|]. destruct Hw; lia.
      * intros j Hj HjM. apply Hrest; lia.
      * by apply best_skip.
    + replace (Z.of_nat (S v) =? 0)%Z with false by (symmetry; apply Z.eqb_neq; lia). cbn [negb].
      destruct (Htab v) as (p & Hp & Hbp & Hmp); [lia|lia|]. replace (Z.of_nat (S v) - 1)%Z with (Z.of_nat v) by lia.
      rewrite (get_nat _ _ _ Hp), bind_ret. pose proof Hbp as [Hpv _].
      eexists _, p, i, L, pos. split; [done|]. split; [|lia]. split; cbn; try done; try lia.
      * by eapply border_trans.
      * intros w Hw HwM E. specialize (Hc w Hw HwM E). destruct (decide (w = S v)) as [->|Hne]; [congruence|]. apply Hmp. apply (border_below t w (S v) i); [done|done|lia].
Qed.

Lemma ngram_loop_ok fuel s v i L pos : search_inv s v i L pos → 2 * (length t - i) + v ≤ fuel →
  ∃ s' v' L' pos', ngram_loop fuel t (Z.of_nat M) s = Ok s' ∧ search_inv s' v' (length t) L' pos'.
Proof.
  revert s v i L pos. induction fuel as [|fuel IH]; intros s v i L pos Hs Hf; cbn [ngram_loop]; rewrite (si_i _ _ _ _ _ Hs);
    pose proof (si_border _ _ _ _ _ Hs) as [Hvi _]; destruct (Z.ltb_spec (Z.of_nat i) (Z.of_nat (length t))) as [Hlt|Hge].
  - lia.
  - assert (i = length t) as -> by lia. by eexists s, _, _, _.
  - destruct (ngram_step_ok s v i L pos Hs ltac:(lia)) as (s' & v' & i' & L' & pos' & -> & Hs' & Hm). rewrite bind_ret. eapply IH; [exact Hs'|lia].
  - assert (i = length t) as -> by lia. by eexists s, _, _, _.
Qed.

Lemma search_start : 0 < length t → search_inv (mkNgramSearch (replicate M 0%Z) 0 0 0 1) 0 1 0 0.
Proof.
  intros Ht. split; cbn; try done; try lia.
  - apply border_zero. lia.
  - intros w [Hw _]. lia.
  - by rewrite length_replicate.
  - intros j Hj HjM. exists 0. assert (j = 0) as -> by lia. split; [by apply lookup_replicate_2|]. split; [apply border_zero; lia|]. intros w [Hw _]. lia.
  - intros j _ HjM. by apply lookup_replicate_2.
  - split; [lia|]. split; [by left|]. intros j w Hj [Hw _] _. lia.
Qed.
End Loop.

(** ** Matches in the tokens of the request *)

(** The last [n] tokens also occur at [s], before the end. *)
Definition ngram_match (o : list Z) (n s : nat) : Prop := 0 < n ∧ s + n < length o ∧ take n (drop s o) = drop (length o - n) o.

Lemma occurs_pointwise (o : list Z) n s : s + n < length o →
  take n (drop s o) = drop (length o - n) o ↔ ∀ k, k < n → o !! (s + k) = o !! (length o - n + k).
Proof.
  intros Hs. split.
  - intros E k Hk. apply (f_equal (.!! k)) in E. rewrite lookup_take_lt, !lookup_drop in E by done. done.
  - intros Hk. apply list_eq. intros k. destruct (decide (k < n)) as [Hlt|Hge].
    + rewrite lookup_take_lt, !lookup_drop by done. by apply Hk.
    + rewrite lookup_take_ge, lookup_drop by lia. symmetry. apply lookup_ge_None. lia.
Qed.

Lemma border_match (o : list Z) n j : 0 < n → j < length o → border (reverse o) n (S j) ↔ ngram_match o n (length o - 1 - j).
Proof.
  intros Hn Hj. unfold border, ngram_match. rewrite length_reverse. split.
  - intros [Hnj Hk]. split; [done|]. split; [lia|]. apply occurs_pointwise; [lia|]. intros k Hkn.
    specialize (Hk (n - 1 - k) ltac:(lia)). rewrite !reverse_lookup in Hk by lia.
    replace (length o - 1 - j + k) with (length o - S (S j - n + (n - 1 - k))) by lia. rewrite <- Hk. f_equal. lia.
  - intros (_ & Hs & E). split; [lia|]. intros k Hkn. rewrite occurs_pointwise in E by lia. specialize (E (n - 1 - k) ltac:(lia)).
    rewrite !reverse_lookup by lia. replace (length o - S k) with (length o - n + (n - 1 - k)) by lia. rewrite <- E. f_equal. lia.
Qed.
Lemma match_border (o : list Z) n s : ngram_match o n s → border (reverse o) n (S (length o - 1 - s)).
Proof.
  intros Hm. pose proof Hm as (Hn & Hs & _). apply border_match; [done|lia|]. replace (length o - 1 - (length o - 1 - s)) with s by lia. done.
Qed.

Local Open Scope Z_scope.

(** The tokens of a proposal: those after the first occurrence of the longest match. *)
Record best_match (o : list Z) (M : nat) (n s : nat) : Prop := {
  bm_match : ngram_match o n s;
  bm_small : (n ≤ M)%nat;
  bm_longest n' s' : ngram_match o n' s' → (n' ≤ M)%nat → (n' ≤ n)%nat;
  bm_first s' : ngram_match o n s' → (s ≤ s')%nat;
}.

(** What the search may return: nothing, when no token fits or no n-gram of admissible
    length at the end occurs before, or else the tokens after the best match. *)
Definition draft_exact (o : list Z) (min_ngram max_ngram max_model_len k : Z) (draft : list Z) : Prop :=
  (draft = [] ∧ (Z.min k (max_model_len - zlen o) ≤ 0 ∨ ∀ n s, ngram_match o n s → min_ngram ≤ Z.of_nat n ≤ max_ngram → False)) ∨
  (∃ n s, best_match o (Z.to_nat max_ngram) n s ∧ min_ngram ≤ Z.of_nat n ∧ 0 < Z.min k (max_model_len - zlen o) ∧
     draft = take (Z.to_nat (Z.min k (max_model_len - zlen o))) (drop (s + n) o)).

Lemma find_exact o min_ngram max_ngram max_model_len k : 1 ≤ min_ngram ≤ max_ngram →
  ∃ draft, _find_longest_matched_ngram_and_propose_tokens o min_ngram max_ngram max_model_len k = Ok draft ∧
    draft_exact o min_ngram max_ngram max_model_len k draft.
Proof.
  intros Hmin. unfold _find_longest_matched_ngram_and_propose_tokens.
  destruct (Z.ltb_spec (zlen o) min_ngram) as [Hshort|Hlong].
  { exists []. split; [done|]. left. split; [done|]. right. intros n s (_ & Hs & _) Hn. lia. }
  set (k' := Z.min k (max_model_len - zlen o)). destruct (Z.leb_spec k' 0) as [Hk|Hk]; [exists []; split; [done|]; left; split; [done|by left]|].
  set (M := Z.to_nat max_ngram). replace max_ngram with (Z.of_nat M) by lia.
  destruct (ngram_loop_ok (reverse o) M ltac:(lia) (ngram_fuel (reverse o)) _ 0 1 0 0 (search_start (reverse o) M ltac:(lia) ltac:(rewrite length_reverse; lia)))
    as (s & v & L & pos & -> & Hs); [unfold ngram_fuel; lia|]. rewrite bind_ret.
  destruct Hs as [_ _ -> -> _ _ _ _ _ _ (HL & Hpos & Hmax)]. rewrite length_reverse in *.
  assert (∀ n s', ngram_match o n s' → (n ≤ M)%nat → (n ≤ L)%nat) as Hbest.
  { intros n s' Hm HnM. pose proof Hm as (_ & Hlt & _). apply (Hmax (length o - 1 - s')%nat); [lia|by apply match_border|done]. }
  destruct (Z.ltb_spec (Z.of_nat L) min_ngram) as [HLs|HLl].
  { exists []. split; [done|]. left. split; [done|]. right. intros n s' Hm Hn. specialize (Hbest n s' Hm ltac:(lia)). lia. }
  destruct Hpos as [->|(Hb & Hp & Hlast)]; [lia|]. assert (ngram_match o L (length o - 1 - pos)) as Hm by (apply border_match; [lia|done|done]).
  eexists. split; [done|]. right. exists L, (length o - 1 - pos)%nat. pose proof Hm as (_ & Hlt & _). split; [|split; [done|split; [done|]]].
  - rewrite Nat2Z.id. split; [done|lia|done|]. intros s' Hm'. pose proof (match_border _ _ _ Hm') as Hb'. pose proof Hm' as (_ & Hlt' & _).
    specialize (Hlast (length o - 1 - s')%nat ltac:(lia) Hb'). lia.
  - set (a := (length o - 1 - pos + L)%nat). replace (zlen o - 1 - Z.of_nat pos + Z.of_nat L) with (Z.of_nat a) by lia.
    replace (Z.of_nat a + Z.min k' (zlen o - Z.of_nat a)) with (Z.of_nat (a + Z.to_nat (Z.min k' (zlen o - Z.of_nat a)))) by lia.
    rewrite py_slice_nat. replace (a + Z.to_nat (Z.min k' (zlen o - Z.of_nat a)) - a)%nat with (Z.to_nat (Z.min k' (zlen o - Z.of_nat a))) by lia.
    destruct (Z.le_gt_cases k' (zlen o - Z.of_nat a)) as [Hle|Hgt]; [by rewrite Z.min_l by lia|].
    rewrite Z.min_r by lia. rewrite !take_ge; [done|rewrite length_drop; lia|rewrite length_drop; lia].
Qed.

(** ** Batches *)

(** The buffers have a row for each request of a batch. *)
Record buffers_ok (p : NgramProposer) (n : nat) : Prop := {
  buf_drafts : length (valid_ngram_draft p) = n;
  buf_nums : length (valid_ngram_num_drafts p) = n;
  buf_rows : Forall (λ row, zlen row = ng_k p) (valid_ngram_draft p);
}.
Record same_setup (p p' : NgramProposer) : Prop := {
  same_min : min_n p' = min_n p;
  same_max : max_n p' = max_n p;
  same_k : ng_k p' = ng_k p;
  same_max_len : ng_max_model_len p' = ng_max_model_len p;
}.

Lemma draft_short o a b c k draft : draft_exact o a b c k draft → 0 ≤ k → zlen draft ≤ k.
Proof. intros [[-> _]|(n & s & _ & _ & _ & ->)] Hk; [done|]. rewrite length_take. lia. Qed.

Section Batch.
Variables (num_tokens : list Z) (ids : list (list Z)) (k : Z).

(** Request [idx] of a batch has the draft in the buffers. *)
Definition has_draft (p : NgramProposer) (idx : nat) (draft : list Z) : Prop :=
  valid_ngram_num_drafts p !! idx = Some (zlen draft) ∧ ∃ row, valid_ngram_draft p !! idx = Some row ∧ take (length draft) row = draft.
Definition exact_for (p : NgramProposer) (idx : nat) (draft : list Z) : Prop :=
  ∃ n row, num_tokens !! idx = Some n ∧ ids !! idx = Some row ∧ draft_exact (py_upto row n) (min_n p) (max_n p) (ng_max_model_len p) k draft.

Lemma propose_one_ok p N idx : buffers_ok p N → 1 ≤ min_n p ≤ max_n p → 0 ≤ k ≤ ng_k p → (idx < N)%nat →
  is_Some (num_tokens !! idx) → is_Some (ids !! idx) →
  ∃ p' draft, propose_one num_tokens ids k p idx = Ok p' ∧ buffers_ok p' N ∧ same_setup p p' ∧ exact_for p idx draft ∧ has_draft p' idx draft ∧
    ∀ i d, i ≠ idx → has_draft p i d → has_draft p' i d.
Proof.
  intros [B1 B2 B3] Hmin Hk Hidx [n Hn] [row Hrow]. unfold propose_one. rewrite Hn, Hrow. cbn [of_option]. rewrite !bind_ret.
  destruct (find_exact (py_upto row n) (min_n p) (max_n p) (ng_max_model_len p) k Hmin) as (draft & -> & Hd). rewrite bind_ret.
  destruct (lookup_lt_is_Some_2 (valid_ngram_draft p) idx) as [buf Hbuf]; [lia|]. rewrite Hbuf. cbn [of_option]. rewrite bind_ret.
  rewrite bool_decide_true by lia. cbn [require]. rewrite bind_ret. pose proof (draft_short _ _ _ _ _ _ Hd ltac:(lia)) as Hshort.
  pose proof (Forall_lookup_1 _ _ _ _ B3 Hbuf) as Hlen. cbn in Hlen.
  assert (∃ buf', (match draft with [] => Ok buf | _ => write_draft buf draft end) = Ok buf' ∧ zlen buf' = ng_k p ∧ take (length draft) buf' = draft) as (buf' & -> & Hl' & Ht).
  { destruct draft as [|x draft]; [by exists buf|]. unfold write_draft. rewrite (proj2 (Z.leb_le _ _)) by lia. cbn [require]. rewrite bind_ret.
    eexists. split; [done|]. rewrite length_app, length_drop, take_app_length. split; [lia|done]. }
  rewrite bind_ret. eexists _, draft. split; [done|]. split; [|split; [by split|split; [by exists n, row|split]]].
  - split; cbn; [by rewrite length_insert|by rewrite length_insert|]. by apply Forall_insert.
  - split; cbn; [by rewrite list_lookup_insert_eq by lia|]. exists buf'. by rewrite list_lookup_insert_eq by lia.
  - intros i d Hne [H1 (r & H2 & H3)]. split; cbn; [by rewrite list_lookup_insert_ne|]. exists r. by rewrite list_lookup_insert_ne.
Qed.

Lemma batch_ok p N l : buffers_ok p N → 1 ≤ min_n p ≤ max_n p → 0 ≤ k ≤ ng_k p → NoDup l →
  (∀ i, i ∈ l → (i < N)%nat ∧ is_Some (num_tokens !! i) ∧ is_Some (ids !! i)) →
  ∃ p', batch_propose_numba l num_tokens ids k p = Ok p' ∧ buffers_ok p' N ∧ same_setup p p' ∧
    ∀ i, i ∈ l → ∃ draft, exact_for p i draft ∧ has_draft p' i draft.
Proof.
  intros Hb Hmin Hk Hnd Hl. unfold batch_propose_numba.
  destruct (foldM_ind (λ done p', buffers_ok p' N ∧ same_setup p p' ∧ ∀ i, i ∈ done → ∃ draft, exact_for p i draft ∧ has_draft p' i draft)
    (propose_one num_tokens ids k) p l) as (p' & -> & ? & ? & ?); [|intros dn idx rest p1 E (Hb1 & [S1 S2 S3 S4] & Hd1)|by exists p'].
  - split; [done|]. split; [by split|]. by intros i ?%not_elem_of_nil.
  - destruct (Hl idx) as (H1 & H2 & H3); [rewrite E; apply elem_of_app; right; by left|].
    destruct (propose_one_ok p1 N idx Hb1) as (p2 & draft & Hp & Hb2 & [T1 T2 T3 T4] & Hex & Hhas & Hold); rewrite ?S1, ?S2, ?S3; try done.
    exists p2. split; [done|]. split; [done|]. split; [split; congruence|]. intros i [Hi| ->%list_elem_of_singleton]%elem_of_app.
    + destruct (Hd1 i Hi) as (d & Hed & Hhd). exists d. split; [done|]. apply Hold; [|done]. intros ->. rewrite E in Hnd.
      apply NoDup_app in Hnd as (_ & Hdis & _). apply (Hdis idx Hi). by left.
    + exists draft. split; [|done]. unfold exact_for in *. by rewrite S1, S2, S4 in Hex.
Qed.
End Batch.

(** Selected positions of a list. *)
Lemma selected_sublist {A} (f : nat * A → bool) (l : list A) n :
  concat ((λ x, if f x then [x.1] else []) <$> imap (λ j x, ((n + j)%nat, x)) l) `sublist_of` seq n (length l).
Proof.
  revert n. induction l as [|x l IH]; intros n; cbn; [done|]. rewrite Nat.add_0_r. rewrite (imap_ext _ (λ j x, ((S n + j)%nat, x))).
  - specialize (IH (S n)). destruct (f (n, x)); cbn; [by apply sublist_skip|by apply sublist_cons].
  - intros i y _. cbn. f_equal. lia.
Qed.
Lemma elem_of_selected {A} (f : nat * A → bool) (l : list A) i :
  i ∈ concat ((λ x, if f x then [x.1] else []) <$> imap (λ j x, (j, x)) l) ↔ ∃ x, l !! i = Some x ∧ f (i, x) = true.
Proof.
  rewrite list_elem_of_In, in_concat. split.
  - intros (r & Hr & Hi). apply list_elem_of_In, list_elem_of_fmap in Hr as ([j x] & -> & Hj). apply list_elem_of_lookup in Hj as [j' Hj].
    rewrite list_lookup_imap in Hj. apply fmap_Some in Hj as (x' & Hx & [= -> ->]). destruct (f (j', x')) eqn:E; [|done].
    destruct Hi as [<-|[]]. by exists x'.
  - intros (x & Hx & Hf). exists [i]. split; [|by left]. apply list_elem_of_In, list_elem_of_fmap. exists (i, x). rewrite Hf. split; [done|].
    apply list_elem_of_lookup. exists i. rewrite list_lookup_imap, Hx. done.
Qed.

Definition wanted (num_tokens : list Z) (max_len : Z) (x : nat * list Z) : bool :=
  negb (bool_decide (x.2 = [])) && (num_tokens !!! x.1 <? max_len).

Lemma read_draft_ok l p i d : i ∈ l → has_draft p i d → read_draft l p i = Ok d.
Proof.
  intros Hi [H1 (row & H2 & H3)]. unfold read_draft. rewrite bool_decide_true by done. rewrite H1. cbn [of_option]. rewrite bind_ret.
  destruct (Z.gtb_spec (zlen d) 0) as [Hd|Hd]; [|by destruct d]. rewrite H2. cbn [of_option]. rewrite bind_ret. f_equal.
  unfold py_upto. replace 0%Z with (Z.of_nat 0) by done. rewrite py_slice_nat, Nat.sub_0_r. done.
Qed.

(** ** The call of the constructor *)

Lemma no_samples_no_requests p num_tokens n i : mapR (needs_ngram num_tokens p) (imap (λ j x, ((i + j)%nat, x)) (replicate n [])) = Ok (replicate n []).
Proof.
  revert i. induction n as [|n IH]; intros i; [done|]. cbn [replicate imap]. cbn [mapR needs_ngram snd]. rewrite bind_ret.
  rewrite (imap_ext _ (λ j x, ((S i + j)%nat, x))) by (intros; cbn; f_equal; lia). rewrite IH. by rewrite bind_ret.
Qed.
Lemma concat_nils {A} n : concat (replicate n (@nil A)) = [].
Proof. by induction n. Qed.

(** A batch in which no request has sampled a token never reaches the search: the
    call of the constructor that is meant to compile it returns without calling it. *)
Lemma warmup_searches_nothing p n num_tokens ids : propose (ng_k p) (replicate n []) num_tokens ids p = batch_propose n [] num_tokens ids (ng_k p) p.
Proof.
  unfold propose. rewrite Z.leb_refl. cbn [assert_ require]. rewrite bind_ret.
  pose proof (no_samples_no_requests p num_tokens n 0) as E. cbn [Nat.add] in E. rewrite E, bind_ret, concat_nils, length_replicate. done.
Qed.
Lemma ngram_init_ok a b c d e : 0 ≤ c → 0 ≤ e → ∃ p, NgramProposer_init a b c d e = Ok p ∧ p = ngram_buffers a b c d e ∧ buffers_ok p (Z.to_nat e).
Proof.
  intros Hc He. exists (ngram_buffers a b c d e). split; [|split; [done|split; cbn; [by rewrite length_replicate..|]]].
  2:{ apply Forall_replicate. rewrite length_replicate. lia. }
  unfold NgramProposer_init. rewrite warmup_searches_nothing. unfold batch_propose. rewrite bind_ret.
  rewrite (mapR_Ok _ (λ _, [])); [by rewrite !bind_ret|]. intros i _. unfold read_draft. by rewrite bool_decide_false by apply not_elem_of_nil.
Qed.

(** C26: for every request of a batch the proposer returns the exact draft of its tokens,
    and nothing for requests without sampled tokens or at the model length, whatever
    earlier batches have left in its buffers; no index is out of range. *)
Theorem propose_exact p N num_spec sampled num_tokens ids : buffers_ok p N → 1 ≤ min_n p ≤ max_n p → 0 ≤ num_spec ≤ ng_k p →
  (length sampled ≤ N)%nat → (length sampled ≤ length num_tokens)%nat → (length sampled ≤ length ids)%nat →
  ∃ drafts p', propose num_spec sampled num_tokens ids p = Ok (drafts, p') ∧ buffers_ok p' N ∧ length drafts = length sampled ∧
    ∀ i tokens n row draft, sampled !! i = Some tokens → num_tokens !! i = Some n → ids !! i = Some row → drafts !! i = Some draft →
      if decide (tokens = [] ∨ ng_max_model_len p ≤ n) then draft = []
      else draft_exact (py_upto row n) (min_n p) (max_n p) (ng_max_model_len p) num_spec draft.
Proof.
  intros Hb Hmin Hk HN Hnum Hids. unfold propose. rewrite (proj2 (Z.leb_le _ _)) by lia. cbn [assert_ require]. rewrite bind_ret.
  set (f := wanted num_tokens (ng_max_model_len p)).
  rewrite (mapR_Ok _ (λ x, if f x then [x.1] else [])).
  2:{ intros [i x] Hx. apply list_elem_of_lookup in Hx as [j Hj]. rewrite list_lookup_imap in Hj. apply fmap_Some in Hj as (x' & Hx & [= -> ->]).
      apply lookup_lt_Some in Hx. destruct (lookup_lt_is_Some_2 num_tokens j) as [n Hn]; [lia|]. unfold needs_ngram, f, wanted. cbn [fst snd].
      rewrite (list_lookup_total_correct _ _ _ Hn). destruct x' as [|y x']; [done|]. rewrite Hn. cbn [of_option]. rewrite bind_ret. cbn.
      by destruct (Z.geb_spec n (ng_max_model_len p)), (Z.ltb_spec n (ng_max_model_len p)); try lia. }
  rewrite bind_ret. set (valid := concat _). unfold batch_propose.
  pose proof (elem_of_selected f sampled) as Hsel. fold valid in Hsel.
  assert (NoDup valid) as Hnd by (eapply sublist_NoDup; [apply NoDup_seq|apply (selected_sublist f sampled 0)]).
  assert (∃ p', (match valid with [] => Ok p | _ => batch_propose_numba valid num_tokens ids num_spec p end) = Ok p' ∧ buffers_ok p' N ∧
    ∀ i, i ∈ valid → ∃ draft, exact_for num_tokens ids num_spec p i draft ∧ has_draft p' i draft) as (p' & -> & Hb' & Hd).
  { destruct (batch_ok num_tokens ids num_spec p N valid Hb Hmin Hk Hnd) as (p' & E & Hb' & _ & Hd).
    { intros i Hi. apply Hsel in Hi as (x & Hx & _). apply lookup_lt_Some in Hx. split; [lia|]. split; apply lookup_lt_is_Some_2; lia. }
    destruct valid; [|by exists p']. exists p. split; [done|]. split; [done|]. by intros i ?%not_elem_of_nil. }
  rewrite bind_ret. destruct (mapR_total (read_draft valid p') (seq 0 (length sampled))) as [drafts Hr].
  { intros i _. destruct (decide (i ∈ valid)) as [Hi|Hi]; [|exists []; unfold read_draft; by rewrite bool_decide_false by done].
    destruct (Hd i Hi) as (d & _ & Hh). exists d. by apply read_draft_ok. }
  rewrite Hr, bind_ret. exists drafts, p'. split; [done|]. split; [done|]. apply mapR_Forall2 in Hr.
  split; [apply Forall2_length in Hr; by rewrite length_seq in Hr|]. intros i tokens n row draft Ht Hn Hrow Hdr.
  destruct (Forall2_lookup_r _ _ _ _ _ Hr Hdr) as (j & Hj & Hread). apply lookup_seq in Hj as [-> Hlt]. cbn in Hread.
  assert (i ∈ valid ↔ ¬ (tokens = [] ∨ ng_max_model_len p ≤ n)) as Hiff.
  { rewrite Hsel. unfold f, wanted. cbn [fst snd]. rewrite (list_lookup_total_correct _ _ _ Hn). split.
    - intros (x & Hx & Hf). rewrite Ht in Hx. injection Hx as <-. apply andb_true_iff in Hf as [Hf1%negb_true_iff%bool_decide_eq_false Hf2%Z.ltb_lt].
      intros [?|?]; [done|lia].
    - intros Hnot. exists tokens. split; [done|]. apply andb_true_iff. split; [apply negb_true_iff, bool_decide_eq_false; tauto|apply Z.ltb_lt; lia]. }
  destruct (decide _) as [Hskip|Hwant].
  - unfold read_draft in Hread. rewrite bool_decide_false in Hread by tauto. by injection Hread as <-.
  - destruct (Hd i) as (d & (n' & row' & Hn' & Hrow' & Hex) & Hh); [by apply Hiff|]. rewrite (read_draft_ok valid p' i d) in Hread; [|by apply Hiff|done].
    injection Hread as <-. rewrite Hn in Hn'. rewrite Hrow in Hrow'. injection Hn' as <-. injection Hrow' as <-. done.
Qed.

(** A batch of three requests, one of them without sampled tokens. *)
Definition ngram_demo : NgramProposer := ngram_buffers 1 3 3 14 3.
Lemma propose_exact_witness : ∃ p', propose 2 [[3]; []; [3]] [11; 3; 5] [[1; 2; 3; 4; 1; 2; 3; 5; 1; 2; 3; 0; 0; 0]; [7; 7; 7]; [7; 8; 9; 7; 8; 0]] ngram_demo =
    Ok ([[4; 1]; []; [9; 7]], p') ∧
  draft_exact [1; 2; 3; 4; 1; 2; 3; 5; 1; 2; 3] 1 3 14 2 [4; 1].
Proof.
  destruct (propose_exact ngram_demo 3 2 [[3]; []; [3]] [11; 3; 5] [[1; 2; 3; 4; 1; 2; 3; 5; 1; 2; 3; 0; 0; 0]; [7; 7; 7]; [7; 8; 9; 7; 8; 0]])
    as (drafts & p' & E & _ & _ & Hd); [split; [done|done|by repeat constructor]|done|done|cbn; lia|cbn; lia|cbn; lia|].
  assert (drafts = [[4; 1]; []; [9; 7]]) as -> by (vm_compute in E; by injection E as <- _). exists p'. split; [exact E|].
  exact (Hd 0%nat [3] 11 _ [4; 1] eq_refl eq_refl eq_refl eq_refl).
Defined.
