(* ===== verification/BlockTable.v ===== *)
(** * Block tables of the worker ([v1/worker/block_table.py])

    A worker keeps, for each KV cache group and each row of its batch, the ids of the
    blocks of the request in that row.  Attention kernels may use smaller blocks than
    the KV cache manager; a block is then listed as its consecutive kernel blocks.

    Correspondence.  The CPU copy of a table is a list of rows of equal length; the
    counts of [num_blocks_per_row] are natural numbers.  Copies to the GPU are left
    out: [compute_slot_mapping] reads the rows that were committed.  The ranks and
    sizes of the context-parallel groups are attributes of the record. *)

From S2P Require Import Prelude MathUtils.

Local Open Scope Z_scope.

(** ** The tables *)

(** *** Writing to a row *)

(** [row[start : start + len(values)] = values] of numpy: too long a value raises,
    unless it has one element, which is broadcast to the empty slice. *)
Definition write_slice {A} (row : list A) (start : nat) (values : list A) : result (list A) :=
  if bool_decide (start + length values ≤ length row)%nat then Ok (take start row ++ values ++ drop (start + length values) row)
  else if bool_decide (length values = 1%nat) then Ok row else Raise ValueError.

(** [row[a:b] = v] *)
Definition fill_slice {A} (row : list A) (a b : nat) (v : A) : list A := imap (λ i x, if bool_decide (a ≤ i < b)%nat then v else x) row.

(** [a[i], a[j] = a[j], a[i]] and [a[j] = a[i]] on arrays of numbers. *)
Definition swap_cells {A} (i j : nat) (l : list A) : list A :=
  match l !! i, l !! j with Some x, Some y => <[j := x]> (<[i := y]> l) | _, _ => l end.
Definition move_cell {A} (i j : nat) (l : list A) : list A :=
  match l !! i with Some x => <[j := x]> l | None => l end.

(** *** One table *)

Record BlockTable := mkBlockTable {
  bt_block_size : Z;
  blocks_per_kv_block : Z;
  use_hybrid_blocks : bool;
  bt_rows : list (list Z);
  num_blocks_per_row : list nat;
  pcp_world_size : Z;
  pcp_rank : Z;
  dcp_world_size : Z;
  dcp_rank : Z;
  cp_kv_cache_interleave_size : Z;
}.
Definition put_rows (r : list (list Z)) (n : list nat) (t : BlockTable) : BlockTable :=
  mkBlockTable (bt_block_size t) (blocks_per_kv_block t) (use_hybrid_blocks t) r n (pcp_world_size t) (pcp_rank t) (dcp_world_size t) (dcp_rank t)
    (cp_kv_cache_interleave_size t).

(** The context-parallel groups, as [get_pcp_group] and [get_dcp_group] report them. *)
Record CPGroups := mkCPGroups { pcp : Z * Z; dcp : Z * Z }.

Definition BlockTable_init (block_size : Z) (max_num_reqs : nat) (max_num_blocks_per_req kernel_block_size cp_interleave : Z) (g : CPGroups) : result BlockTable :=
  shape ← (if kernel_block_size =? block_size then Ok (block_size, 1, false)
           else if kernel_block_size =? 0 then Raise ZeroDivisionError
           else if negb (block_size `mod` kernel_block_size =? 0) then Raise ValueError
           else Ok (kernel_block_size, block_size `div` kernel_block_size, true));
  let '(bs, per, hybrid) := shape in
  Ok (mkBlockTable bs per hybrid (replicate max_num_reqs (replicate (Z.to_nat (max_num_blocks_per_req * per)) 0)) (replicate max_num_reqs 0%nat)
    (pcp g).1 (pcp g).2 (dcp g).1 (dcp g).2 cp_interleave).

Definition map_to_kernel_blocks (kv_manager_block_ids : list Z) (blocks_per_kv_block : Z) : list Z :=
  if blocks_per_kv_block =? 1 then kv_manager_block_ids
  else concat ((λ b, (λ j, b * blocks_per_kv_block + j) <$> py_range 0 blocks_per_kv_block) <$> kv_manager_block_ids).

(** The ids that a table stores for blocks of the manager. *)
Definition table_ids (t : BlockTable) (block_ids : list Z) : list Z :=
  if use_hybrid_blocks t then map_to_kernel_blocks block_ids (blocks_per_kv_block t) else block_ids.

Definition append_row (block_ids : list Z) (row_idx : nat) (t : BlockTable) : result BlockTable :=
  match block_ids with
  | [] => Ok t
  | _ =>
      let ids := table_ids t block_ids in
      start ← of_option IndexError (num_blocks_per_row t !! row_idx);
      row ← of_option IndexError (bt_rows t !! row_idx);
      row ← write_slice row start ids;
      Ok (put_rows (<[row_idx := row]> (bt_rows t)) (<[row_idx := (start + length ids)%nat]> (num_blocks_per_row t)) t)
  end.

Definition add_row (block_ids : list Z) (row_idx : nat) (t : BlockTable) : result BlockTable :=
  _ ← of_option IndexError (num_blocks_per_row t !! row_idx);
  append_row block_ids row_idx (put_rows (bt_rows t) (<[row_idx := 0%nat]> (num_blocks_per_row t)) t).

Definition clear_row (row_idx : nat) (t : BlockTable) : result BlockTable :=
  num_blocks ← of_option IndexError (num_blocks_per_row t !! row_idx);
  row ← of_option IndexError (bt_rows t !! row_idx);
  let rows := if bool_decide (0 < num_blocks)%nat then <[row_idx := fill_slice row 0 num_blocks 0]> (bt_rows t) else bt_rows t in
  Ok (put_rows rows (<[row_idx := 0%nat]> (num_blocks_per_row t)) t).

Definition move_row (src tgt : nat) (t : BlockTable) : result BlockTable :=
  num_blocks ← of_option IndexError (num_blocks_per_row t !! src);
  from ← of_option IndexError (bt_rows t !! src);
  to ← of_option IndexError (bt_rows t !! tgt);
  to ← write_slice to 0 (take num_blocks from);
  Ok (put_rows (<[tgt := to]> (bt_rows t)) (<[tgt := num_blocks]> (num_blocks_per_row t)) t).

Definition swap_row (src tgt : nat) (t : BlockTable) : result BlockTable :=
  _ ← of_option IndexError (num_blocks_per_row t !! src);
  _ ← of_option IndexError (num_blocks_per_row t !! tgt);
  Ok (put_rows (swap_cells src tgt (bt_rows t)) (swap_cells src tgt (num_blocks_per_row t)) t).

Definition clear (t : BlockTable) : BlockTable := put_rows ((λ row, replicate (length row) 0) <$> bt_rows t) (num_blocks_per_row t) t.

(** *** Slots of tokens *)

Definition PAD_SLOT_ID : Z := -1.

(** The slot of the token at position [pos] of a row, as the kernel computes it. *)
Definition slot_id (block_size world rank interleave : Z) (block_number pos : Z) : Z :=
  let virtual_block_size := block_size * world in
  let virtual_block_offsets := pos - pos `div` virtual_block_size * virtual_block_size in
  let is_local := (virtual_block_offsets `div` interleave) `mod` world =? rank in
  let local_block_offsets := virtual_block_offsets `div` (world * interleave) * interleave + virtual_block_offsets `mod` interleave in
  if is_local then block_number * block_size + local_block_offsets else PAD_SLOT_ID.

Definition total_cp_world_size (t : BlockTable) : Z := pcp_world_size t * dcp_world_size t.
Definition total_cp_rank (t : BlockTable) : Z := pcp_rank t * dcp_world_size t + dcp_rank t.

(** The slots of the tokens of request [req_idx] at the given positions.  Where the
    kernel would read past the row, the model raises. *)
Definition request_slots (t : BlockTable) (req_idx : nat) (positions : list Z) : result (list Z) :=
  row ← of_option IndexError (bt_rows t !! req_idx);
  mapR (λ pos, block_number ← py_get row (pos `div` (bt_block_size t * total_cp_world_size t));
               Ok (slot_id (bt_block_size t) (total_cp_world_size t) (total_cp_rank t) (cp_kv_cache_interleave_size t) block_number pos)) positions.

(** All slots of a step: the tokens of request [i] are those from [query_start_loc[i]]
    to [query_start_loc[i + 1]]; the rest of the buffer is padding. *)
Definition compute_slot_mapping (num_reqs : nat) (query_start_loc : list nat) (positions : list Z) (max_num_batched_tokens : nat) (t : BlockTable) : result (list Z) :=
  slots ← mapR (λ i, start ← of_option IndexError (query_start_loc !! i); stop ← of_option IndexError (query_start_loc !! S i);
                     request_slots t i (take (stop - start) (drop start positions))) (seq 0 num_reqs);
  Ok (concat slots ++ replicate (max_num_batched_tokens - length positions) PAD_SLOT_ID).

(** *** The tables of all groups *)

Definition MultiGroupBlockTable := list BlockTable.

Definition align_max_blocks (n bs : Z) : Z := if bs <=? 128 then cdiv n (128 `div` bs) * (128 `div` bs) else n.

Definition MultiGroupBlockTable_init (max_num_reqs : nat) (max_model_len : Z) (block_sizes kernel_block_sizes : list Z) (max_num_blocks : option (list Z))
    (cp_interleave : Z) (g : CPGroups) : result MultiGroupBlockTable :=
  _ ← require ValueError (bool_decide (length kernel_block_sizes = length block_sizes));
  let max_num_blocks := match max_num_blocks with
    | Some l => l
    | None => (λ bs, cdiv max_model_len (bs * ((dcp g).1 * (pcp g).1))) <$> block_sizes
    end in
  _ ← require ValueError (bool_decide (length max_num_blocks = length block_sizes));
  let max_num_blocks := zip_with align_max_blocks max_num_blocks block_sizes in
  mapR (λ x, BlockTable_init x.1.1 max_num_reqs x.2 x.1.2 cp_interleave g) (zip (zip block_sizes kernel_block_sizes) max_num_blocks).

(** A row operation on the table of each group, with the block ids of the group. *)
Definition on_groups (f : list Z → BlockTable → result BlockTable) (block_ids : list (list Z)) (m : MultiGroupBlockTable) : result MultiGroupBlockTable :=
  mapR (λ x, ids ← of_option IndexError (block_ids !! x.1); f ids x.2) (imap (λ i t, (i, t)) m).

Definition multi_append_row (block_ids : list (list Z)) (row_idx : nat) (m : MultiGroupBlockTable) : result MultiGroupBlockTable :=
  on_groups (λ ids, append_row ids row_idx) block_ids m.
Definition multi_add_row (block_ids : list (list Z)) (row_idx : nat) (m : MultiGroupBlockTable) : result MultiGroupBlockTable :=
  on_groups (λ ids, add_row ids row_idx) block_ids m.
Definition multi_clear_row (row_idx : nat) (m : MultiGroupBlockTable) : result MultiGroupBlockTable := mapR (clear_row row_idx) m.
Definition multi_move_row (src tgt : nat) (m : MultiGroupBlockTable) : result MultiGroupBlockTable := mapR (move_row src tgt) m.
Definition multi_swap_row (src tgt : nat) (m : MultiGroupBlockTable) : result MultiGroupBlockTable := mapR (swap_row src tgt) m.
Definition multi_clear (m : MultiGroupBlockTable) : MultiGroupBlockTable := clear <$> m.

(** *** Rows *)

Section Cells.
Context {A : Type}.
Implicit Types (l : list A) (i j k : nat).

Lemma length_swap_cells i j l : length (swap_cells i j l) = length l.
Proof. unfold swap_cells. destruct (l !! i), (l !! j); rewrite ?length_insert; done. Qed.
Lemma lookup_swap_cells i j l k : (i < length l)%nat → (j < length l)%nat →
  swap_cells i j l !! k = l !! (if decide (k = i) then j else if decide (k = j) then i else k).
Proof.
  intros [x Hx]%lookup_lt_is_Some [y Hy]%lookup_lt_is_Some. unfold swap_cells. rewrite Hx, Hy.
  destruct (decide (k = j)) as [->|Hj].
  - rewrite list_lookup_insert_eq by (rewrite length_insert; by eapply lookup_lt_Some). destruct (decide (j = i)) as [->|]; congruence.
  - rewrite list_lookup_insert_ne by done. destruct (decide (k = i)) as [->|Hi]; [|by rewrite list_lookup_insert_ne].
    rewrite list_lookup_insert_eq by (by eapply lookup_lt_Some). done.
Qed.
Lemma length_move_cell i j l : length (move_cell i j l) = length l.
Proof. unfold move_cell. destruct (l !! i); rewrite ?length_insert; done. Qed.

Lemma write_slice_ok l start values : (start + length values ≤ length l)%nat →
  ∃ l', write_slice l start values = Ok l' ∧ length l' = length l ∧ take (start + length values) l' = take start l ++ values.
Proof.
  intros H. unfold write_slice. rewrite bool_decide_true by done. eexists. split; [done|]. split; [rewrite !length_app, length_take, length_drop; lia|].
  rewrite app_assoc, take_app_le by (rewrite length_app, length_take; lia). apply take_ge. rewrite length_app, length_take. lia.
Qed.
Lemma length_fill_slice l a b v : length (fill_slice l a b v) = length l.
Proof. unfold fill_slice. by rewrite length_imap. Qed.
End Cells.

(** The block ids that a row holds. *)
Definition row_blocks (t : BlockTable) (i : nat) : option (list Z) :=
  row ← bt_rows t !! i; n ← num_blocks_per_row t !! i; Some (take n row).

Record table_ok (N W : nat) (t : BlockTable) : Prop := {
  tb_rows : length (bt_rows t) = N;
  tb_nums : length (num_blocks_per_row t) = N;
  tb_width : Forall (λ row, length row = W) (bt_rows t);
  tb_counts : Forall (λ n, (n ≤ W)%nat) (num_blocks_per_row t);
}.
Record same_table (t t' : BlockTable) : Prop := {
  same_ids ids : table_ids t' ids = table_ids t ids;
  same_bs : bt_block_size t' = bt_block_size t;
  same_world : total_cp_world_size t' = total_cp_world_size t;
  same_rank : total_cp_rank t' = total_cp_rank t;
  same_per : blocks_per_kv_block t' = blocks_per_kv_block t;
  same_hybrid : use_hybrid_blocks t' = use_hybrid_blocks t;
  same_stripe : cp_kv_cache_interleave_size t' = cp_kv_cache_interleave_size t;
}.
#[export] Instance same_table_preorder : PreOrder same_table.
Proof. split; [by split|]. intros t1 t2 t3 [] []. split; congruence. Qed.
Lemma same_put_rows r n t : same_table t (put_rows r n t).
Proof. by split. Qed.

Section Rows.
Context (N W : nat).
Implicit Types (t : BlockTable) (i j : nat) (l ids : list Z).

Lemma table_row t i : table_ok N W t → (i < N)%nat → ∃ row n, bt_rows t !! i = Some row ∧ num_blocks_per_row t !! i = Some n ∧ length row = W ∧ (n ≤ W)%nat ∧
  row_blocks t i = Some (take n row).
Proof.
  intros [H1 H2 H3 H4] Hi. destruct (lookup_lt_is_Some_2 (bt_rows t) i) as [row Hr]; [lia|]. destruct (lookup_lt_is_Some_2 (num_blocks_per_row t) i) as [n Hn]; [lia|].
  exists row, n. unfold row_blocks. rewrite Hr, Hn. pose proof (Forall_lookup_1 _ _ _ _ H3 Hr). pose proof (Forall_lookup_1 _ _ _ _ H4 Hn). done.
Qed.
Lemma table_put t i row n : table_ok N W t → (i < N)%nat → length row = W → (n ≤ W)%nat →
  let t' := put_rows (<[i := row]> (bt_rows t)) (<[i := n]> (num_blocks_per_row t)) t in
  table_ok N W t' ∧ ∀ j, row_blocks t' j = if decide (j = i) then Some (take n row) else row_blocks t j.
Proof.
  intros [H1 H2 H3 H4] Hi Hr Hn. cbn. split; [split; cbn; rewrite ?length_insert; [done|done|by apply Forall_insert|by apply Forall_insert]|].
  intros j. unfold row_blocks. cbn. destruct (decide (j = i)) as [->|]; [|by rewrite !list_lookup_insert_ne].
  by rewrite !list_lookup_insert_eq by lia.
Qed.

Lemma append_row_ok t i l ids : table_ok N W t → row_blocks t i = Some l → (length l + length (table_ids t ids) ≤ W)%nat →
  ∃ t', append_row ids i t = Ok t' ∧ table_ok N W t' ∧ same_table t t' ∧
    ∀ j, row_blocks t' j = if decide (j = i) then Some (l ++ table_ids t ids) else row_blocks t j.
Proof.
  intros Ht Hl HW. assert (i < N)%nat as Hi.
  { destruct (decide (i < N)%nat); [done|]. unfold row_blocks in Hl. rewrite (lookup_ge_None_2 (bt_rows t)) in Hl; [done|]. destruct Ht. lia. }
  destruct (table_row t i Ht Hi) as (row & n & Hr & Hn & Hlen & HnW & Hb). rewrite Hb in Hl. injection Hl as <-.
  assert (ids = [] → table_ids t ids = []) as Hnil.
  { intros ->. unfold table_ids, map_to_kernel_blocks. by destruct (use_hybrid_blocks t), (blocks_per_kv_block t =? 1). }
  destruct ids as [|b ids'] eqn:Eids.
  - exists t. split; [done|]. split; [done|]. split; [done|]. intros j. rewrite (Hnil eq_refl), app_nil_r. by destruct (decide (j = i)) as [->|].
  - unfold append_row. rewrite <- Eids in *. clear Eids ids' Hnil. rewrite Hn, Hr. cbn [of_option]. rewrite !bind_ret. rewrite length_take, Nat.min_l in HW by lia.
    destruct (write_slice_ok row n (table_ids t ids)) as (row' & -> & Hl' & Htk); [lia|]. rewrite bind_ret.
    destruct (table_put t i row' (n + length (table_ids t ids)) Ht Hi) as [Ht' Hrows]; [lia|lia|]. eexists. split; [done|]. split; [exact Ht'|].
    split; [apply same_put_rows|]. intros j. rewrite Hrows, Htk. done.
Qed.

Lemma add_row_ok t i ids : table_ok N W t → (i < N)%nat → (length (table_ids t ids) ≤ W)%nat →
  ∃ t', add_row ids i t = Ok t' ∧ table_ok N W t' ∧ same_table t t' ∧
    ∀ j, row_blocks t' j = if decide (j = i) then Some (table_ids t ids) else row_blocks t j.
Proof.
  intros Ht Hi HW. destruct (table_row t i Ht Hi) as (row & n & Hr & Hn & Hlen & HnW & _). unfold add_row. rewrite Hn. cbn [of_option]. rewrite bind_ret.
  destruct (table_put t i row 0 Ht Hi Hlen ltac:(lia)) as [Ht1 Hrows1]. rewrite (list_insert_id (bt_rows t)) in Ht1, Hrows1 by done.
  set (t1 := put_rows _ _ t) in *. destruct (append_row_ok t1 i [] ids Ht1) as (t' & -> & Ht' & Hs & Hrows).
  { rewrite Hrows1. by rewrite decide_True. }
  { done. }
  exists t'. split; [done|]. split; [done|]. split; [etrans; [|done]; apply same_put_rows|]. intros j. rewrite Hrows. destruct (decide (j = i)) as [->|]; [done|].
  rewrite Hrows1. by rewrite decide_False.
Qed.

Lemma clear_row_ok t i : table_ok N W t → (i < N)%nat →
  ∃ t', clear_row i t = Ok t' ∧ table_ok N W t' ∧ same_table t t' ∧ ∀ j, row_blocks t' j = if decide (j = i) then Some [] else row_blocks t j.
Proof.
  intros Ht Hi. destruct (table_row t i Ht Hi) as (row & n & Hr & Hn & Hlen & HnW & _). unfold clear_row. rewrite Hn, Hr. cbn [of_option]. rewrite !bind_ret.
  set (row' := if bool_decide (0 < n)%nat then fill_slice row 0 n 0 else row).
  assert ((if bool_decide (0 < n)%nat then <[i := fill_slice row 0 n 0]> (bt_rows t) else bt_rows t) = <[i := row']> (bt_rows t)) as ->.
  { unfold row'. case_bool_decide; [done|]. by rewrite list_insert_id. }
  destruct (table_put t i row' 0 Ht Hi) as [Ht' Hrows]; [unfold row'; case_bool_decide; by rewrite ?length_fill_slice|lia|].
  eexists. split; [done|]. split; [done|]. split; [apply same_put_rows|]. intros j. by rewrite Hrows, take_0.
Qed.

Lemma move_row_ok t i j : table_ok N W t → (i < N)%nat → (j < N)%nat →
  ∃ t', move_row i j t = Ok t' ∧ table_ok N W t' ∧ same_table t t' ∧ ∀ k, row_blocks t' k = row_blocks t (if decide (k = j) then i else k).
Proof.
  intros Ht Hi Hj. destruct (table_row t i Ht Hi) as (row & n & Hr & Hn & Hlen & HnW & Hb). destruct (table_row t j Ht Hj) as (row2 & n2 & Hr2 & _ & Hlen2 & _ & _).
  unfold move_row. rewrite Hn, Hr, Hr2. cbn [of_option]. rewrite !bind_ret.
  destruct (write_slice_ok row2 0 (take n row)) as (row' & -> & Hl' & Htk); [rewrite length_take; lia|]. rewrite bind_ret.
  destruct (table_put t j row' n Ht Hj) as [Ht' Hrows]; [lia|lia|]. eexists. split; [done|]. split; [done|]. split; [apply same_put_rows|]. intros k. rewrite Hrows.
  destruct (decide (k = j)); [|done]. rewrite Hb. f_equal. rewrite Nat.add_0_l, length_take, Nat.min_l in Htk by lia. done.
Qed.

Lemma swap_row_ok t i j : table_ok N W t → (i < N)%nat → (j < N)%nat →
  ∃ t', swap_row i j t = Ok t' ∧ table_ok N W t' ∧ same_table t t' ∧
    ∀ k, row_blocks t' k = row_blocks t (if decide (k = i) then j else if decide (k = j) then i else k).
Proof.
  intros Ht Hi Hj. destruct (table_row t i Ht Hi) as (_ & n & _ & Hn & _). destruct (table_row t j Ht Hj) as (_ & n2 & _ & Hn2 & _).
  unfold swap_row. rewrite Hn, Hn2. cbn [of_option]. rewrite !bind_ret. destruct Ht as [H1 H2 H3 H4].
  eexists. split; [done|]. split; [|split; [apply same_put_rows|]].
  - split; cbn; rewrite ?length_swap_cells; [done|done| |]; apply Forall_lookup_2; intros k x Hk; rewrite lookup_swap_cells in Hk by lia.
    + apply (Forall_lookup_1 _ _ _ _ H3 Hk).
    + apply (Forall_lookup_1 _ _ _ _ H4 Hk).
  - intros k. unfold row_blocks. cbn. by rewrite !lookup_swap_cells by lia.
Qed.
End Rows.

(** *** All groups *)

Definition multi_blocks (m : MultiGroupBlockTable) (i : nat) : list (option (list Z)) := (λ t, row_blocks t i) <$> m.
#[global] Arguments multi_blocks : simpl never.
Definition tables_ok (N : nat) (Ws : list nat) (m : MultiGroupBlockTable) : Prop := Forall2 (table_ok N) Ws m.
(** Blocks of the manager as the rows list them. *)
Definition multi_ids (m : MultiGroupBlockTable) (block_ids : list (list Z)) : list (list Z) := zip_with table_ids m block_ids.

Section Groups.
Context (N : nat).
Implicit Types (m : MultiGroupBlockTable) (Ws : list nat) (i j : nat).

Lemma map_tables Ws m f (R : BlockTable → nat → option (list Z)) : tables_ok N Ws m →
  (∀ W t, table_ok N W t → ∃ t', f t = Ok t' ∧ table_ok N W t' ∧ same_table t t' ∧ ∀ j, row_blocks t' j = R t j) →
  ∃ m', mapR f m = Ok m' ∧ tables_ok N Ws m' ∧ Forall2 same_table m m' ∧ ∀ j, multi_blocks m' j = (λ t, R t j) <$> m.
Proof.
  intros Hm Hf. induction Hm as [|W t Ws m Ht Hm (m' & E & Hm' & Hs & Hr)]; cbn [mapR].
  - exists []. split; [done|]. split; [constructor|]. split; [constructor|done].
  - destruct (Hf W t Ht) as (t' & -> & Ht' & Hst & Hrt). rewrite bind_ret, E, bind_ret. exists (t' :: m'). split; [done|]. split; [by constructor|].
    split; [by constructor|]. intros j. unfold multi_blocks in *. cbn. by rewrite Hrt, Hr.
Qed.

Lemma map_groups Ws m block_ids (f : list Z → BlockTable → result BlockTable) (R : list Z → BlockTable → nat → option (list Z)) : tables_ok N Ws m →
  length block_ids = length m →
  (∀ g W t ids, Ws !! g = Some W → m !! g = Some t → block_ids !! g = Some ids → table_ok N W t →
     ∃ t', f ids t = Ok t' ∧ table_ok N W t' ∧ same_table t t' ∧ ∀ j, row_blocks t' j = R ids t j) →
  ∃ m', on_groups f block_ids m = Ok m' ∧ tables_ok N Ws m' ∧ Forall2 same_table m m' ∧ ∀ j, multi_blocks m' j = zip_with (λ t ids, R ids t j) m block_ids.
Proof.
  intros Hm Hlen Hf. unfold on_groups.
  enough (∀ n pre, length pre = n →
    ∃ m', mapR (λ x : nat * BlockTable, ids ← of_option IndexError ((pre ++ block_ids) !! x.1); f ids x.2) (imap (λ i t, ((n + i)%nat, t)) m) = Ok m' ∧
      tables_ok N Ws m' ∧ Forall2 same_table m m' ∧ ∀ j, multi_blocks m' j = zip_with (λ t ids, R ids t j) m block_ids) as H by exact (H 0%nat [] eq_refl).
  revert block_ids Hlen Hf. induction Hm as [|W t Ws m Ht Hm IH]; intros block_ids Hlen Hf n pre Hpre; cbn [mapR imap].
  - exists []. split; [done|]. split; [constructor|]. split; [constructor|done].
  - destruct block_ids as [|ids block_ids]; [done|]. cbn [fst snd]. rewrite list_lookup_middle by (cbn; lia). cbn [of_option]. rewrite bind_ret.
    destruct (Hf 0%nat W t ids eq_refl eq_refl eq_refl Ht) as (t' & -> & Ht' & Hst & Hrt). rewrite bind_ret.
    destruct (IH block_ids ltac:(by injection Hlen) (λ g, Hf (S g)) (S n) (pre ++ [ids]) ltac:(rewrite length_app; cbn; lia)) as (m' & E & Hm' & Hs & Hr).
    rewrite <- app_assoc in E. cbn [app] in E. rewrite (imap_ext _ (λ i t, ((S n + i)%nat, t))) by (intros; cbn; f_equal; lia). rewrite E, bind_ret.
    exists (t' :: m'). split; [done|]. split; [by constructor|]. split; [by constructor|]. intros j. unfold multi_blocks in *. cbn. by rewrite Hrt, <- Hr.
Qed.

Lemma multi_clear_row_ok Ws m i : tables_ok N Ws m → (i < N)%nat →
  ∃ m', multi_clear_row i m = Ok m' ∧ tables_ok N Ws m' ∧ Forall2 same_table m m' ∧ ∀ j, j ≠ i → multi_blocks m' j = multi_blocks m j.
Proof.
  intros Hm Hi. destruct (map_tables Ws m (clear_row i) (λ t j, if decide (j = i) then Some [] else row_blocks t j) Hm) as (m' & ? & ? & ? & Hr).
  { intros W t Ht. destruct (clear_row_ok N W t i Ht Hi) as (t' & ? & ? & ? & ?). by exists t'. }
  exists m'. split; [done|]. split; [done|]. split; [done|]. intros j Hj. rewrite Hr. apply list_fmap_ext. intros _ t _. by rewrite decide_False.
Qed.
Lemma multi_move_row_ok Ws m i k : tables_ok N Ws m → (i < N)%nat → (k < N)%nat →
  ∃ m', multi_move_row i k m = Ok m' ∧ tables_ok N Ws m' ∧ Forall2 same_table m m' ∧ ∀ j, multi_blocks m' j = multi_blocks m (if decide (j = k) then i else j).
Proof.
  intros Hm Hi Hk. destruct (map_tables Ws m (move_row i k) (λ t j, row_blocks t (if decide (j = k) then i else j)) Hm) as (m' & ? & ? & ? & Hr).
  { intros W t Ht. destruct (move_row_ok N W t i k Ht Hi Hk) as (t' & ? & ? & ? & ?). by exists t'. }
  by exists m'.
Qed.
Lemma multi_swap_row_ok Ws m i k : tables_ok N Ws m → (i < N)%nat → (k < N)%nat →
  ∃ m', multi_swap_row i k m = Ok m' ∧ tables_ok N Ws m' ∧ Forall2 same_table m m' ∧
    ∀ j, multi_blocks m' j = multi_blocks m (if decide (j = i) then k else if decide (j = k) then i else j).
Proof.
  intros Hm Hi Hk. destruct (map_tables Ws m (swap_row i k) (λ t j, row_blocks t (if decide (j = i) then k else if decide (j = k) then i else j)) Hm) as (m' & ? & ? & ? & Hr).
  { intros W t Ht. destruct (swap_row_ok N W t i k Ht Hi Hk) as (t' & ? & ? & ? & ?). by exists t'. }
  by exists m'.
Qed.

(** The block ids of a request fit the rows. *)
Definition ids_fit Ws m (block_ids : list (list Z)) : Prop :=
  length block_ids = length m ∧ ∀ g W ids, Ws !! g = Some W → multi_ids m block_ids !! g = Some ids → (length ids ≤ W)%nat.

Lemma zip_with_fst {A B C} (f : A → C) (l : list A) (k : list B) : length k = length l → zip_with (λ x _, f x) l k = f <$> l.
Proof. revert k. induction l as [|x l IH]; intros [|y k] H; cbn; [done|done|done|]. f_equal. apply IH. by injection H. Qed.

Lemma multi_add_row_ok Ws m i block_ids : tables_ok N Ws m → (i < N)%nat → ids_fit Ws m block_ids →
  ∃ m', multi_add_row block_ids i m = Ok m' ∧ tables_ok N Ws m' ∧ Forall2 same_table m m' ∧
    ∀ j, multi_blocks m' j = if decide (j = i) then Some <$> multi_ids m block_ids else multi_blocks m j.
Proof.
  intros Hm Hi [Hlen Hfit].
  destruct (map_groups Ws m block_ids (λ ids, add_row ids i) (λ ids t j, if decide (j = i) then Some (table_ids t ids) else row_blocks t j) Hm Hlen) as (m' & ? & ? & ? & Hr).
  { intros g W t ids HW Ht Hids Hok. destruct (add_row_ok N W t i ids Hok Hi) as (t' & ? & ? & ? & ?); [|by exists t'].
    apply (Hfit g); [done|]. apply lookup_zip_with_Some. by exists t, ids. }
  exists m'. split; [done|]. split; [done|]. split; [done|]. intros j. rewrite Hr. destruct (decide (j = i)); [|by apply zip_with_fst].
  unfold multi_ids. clear. revert block_ids. induction m as [|t m IH]; intros [|ids l]; cbn; [done..|]. by rewrite IH.
Qed.

Lemma multi_append_row_ok Ws m i block_ids : tables_ok N Ws m → (i < N)%nat → length block_ids = length m →
  (∀ g W l ids, Ws !! g = Some W → multi_blocks m i !! g = Some (Some l) → multi_ids m block_ids !! g = Some ids → (length l + length ids ≤ W)%nat) →
  ∃ m', multi_append_row block_ids i m = Ok m' ∧ tables_ok N Ws m' ∧ Forall2 same_table m m' ∧
    ∀ j, multi_blocks m' j = if decide (j = i) then zip_with (λ o ids, (.++ ids) <$> o) (multi_blocks m j) (multi_ids m block_ids) else multi_blocks m j.
Proof.
  intros Hm Hi Hlen Hfit.
  destruct (map_groups Ws m block_ids (λ ids, append_row ids i) (λ ids t j, if decide (j = i) then (.++ table_ids t ids) <$> row_blocks t j else row_blocks t j) Hm Hlen) as (m' & ? & ? & ? & Hr).
  { intros g W t ids HW Ht Hids Hok. destruct (table_row N W t i Hok Hi) as (row & n & _ & _ & _ & _ & Hb).
    destruct (append_row_ok N W t i (take n row) ids Hok Hb) as (t' & ? & ? & ? & Hrow).
    - apply (Hfit g W); [done| |]; [unfold multi_blocks, MultiGroupBlockTable in *; by rewrite list_lookup_fmap, Ht, <- Hb|]. apply lookup_zip_with_Some. by exists t, ids.
    - exists t'. split; [done|]. split; [done|]. split; [done|]. intros j. rewrite Hrow. destruct (decide (j = i)) as [->|]; [by rewrite Hb|done]. }
  exists m'. split; [done|]. split; [done|]. split; [done|]. intros j. rewrite Hr. destruct (decide (j = i)); [|by apply zip_with_fst].
  unfold multi_ids, multi_blocks. clear. revert block_ids. induction m as [|t m IH]; intros [|ids l]; cbn; [done..|]. by rewrite IH.
Qed.
End Groups.

(** Row operations keep what block ids mean. *)
Lemma same_tables_trans m1 m2 m3 : Forall2 same_table m1 m2 → Forall2 same_table m2 m3 → Forall2 same_table m1 m3.
Proof. intros H. revert m3. induction H as [|t1 t2 m1 m2 H1 _ IH]; intros m3 H3; inversion H3; subst; constructor; [by etrans|by apply IH]. Qed.
Lemma same_multi_ids m m' ids : Forall2 same_table m m' → multi_ids m' ids = multi_ids m ids.
Proof. intros H. revert ids. induction H as [|t t' m m' Ht _ IH]; intros [|x ids]; cbn; [done..|]. unfold multi_ids in IH. by rewrite IH, (same_ids _ _ Ht). Qed.
Lemma same_ids_fit Ws m m' ids : Forall2 same_table m m' → ids_fit Ws m ids → ids_fit Ws m' ids.
Proof. intros H [H1 H2]. split; [rewrite H1; by apply Forall2_length in H|]. by rewrite (same_multi_ids _ _ _ H). Qed.

(** *** Construction *)

Lemma BlockTable_init_ok bs N mb kbs ci g t : BlockTable_init bs N mb kbs ci g = Ok t → ∃ W, table_ok N W t.
Proof.
  unfold BlockTable_init. intros H. apply bind_Ok in H as ([[b per] hybrid] & _ & [= <-]). eexists. split; cbn; rewrite ?length_replicate; [done|done| |].
  - apply Forall_replicate. apply length_replicate.
  - apply Forall_replicate. lia.
Qed.
Lemma MultiGroupBlockTable_init_ok N len bss kbss mb ci g m : MultiGroupBlockTable_init N len bss kbss mb ci g = Ok m → ∃ Ws, tables_ok N Ws m.
Proof.
  unfold MultiGroupBlockTable_init. intros (? & _ & (? & _ & H%mapR_Forall2)%bind_Ok)%bind_Ok. revert H. match goal with |- Forall2 _ ?l _ → _ => generalize l end. clear. intros l H. induction H as [|x t l m Hx _ [Ws IH]]; [by exists []; constructor|].
  destruct (BlockTable_init_ok _ _ _ _ _ _ _ Hx) as [W HW]. exists (W :: Ws). by constructor.
Qed.

(** ** Slots of different tokens differ *)

Lemma lookup_concat_uniform {A B} (f : A → list B) (n : nat) (l : list A) (i j : nat) x : (∀ x, length (f x) = n) → (j < n)%nat → l !! i = Some x → concat (f <$> l) !! (i * n + j)%nat = f x !! j.
Proof.
  intros Hf Hj. revert i. induction l as [|y l IH]; intros i Hi; [done|]. destruct i as [|i]; cbn in *.
  - injection Hi as ->. rewrite lookup_app_l; [done|]. by rewrite Hf.
  - rewrite lookup_app_r by (rewrite Hf; lia). rewrite Hf. replace (n + i * n + j - n)%nat with (i * n + j)%nat by lia. by apply IH.
Qed.

(** A table whose kernel blocks divide the blocks of the manager, and whose ranks share
    each block in whole stripes. *)
Record table_wf (t : BlockTable) : Prop := {
  tw_size : 0 < bt_block_size t;
  tw_per : 0 < blocks_per_kv_block t;
  tw_plain : use_hybrid_blocks t = false → blocks_per_kv_block t = 1;
  tw_world : 0 ≤ total_cp_rank t < total_cp_world_size t;
  tw_stripe : 0 < cp_kv_cache_interleave_size t;
  tw_stripes : (cp_kv_cache_interleave_size t | bt_block_size t);
}.

(** The size of a block of the manager, for one rank and for all. *)
Definition manager_block_size (t : BlockTable) : Z := bt_block_size t * blocks_per_kv_block t.
Definition span (t : BlockTable) : Z := manager_block_size t * total_cp_world_size t.
(** The rank that holds a position. *)
Definition rank_of (t : BlockTable) (pos : Z) : Z := (pos / cp_kv_cache_interleave_size t) mod total_cp_world_size t.

Section Slots.
Context (t : BlockTable).
Hypothesis wf : table_wf t.
Notation bs := (bt_block_size t).
Notation per := (blocks_per_kv_block t).
Notation w := (total_cp_world_size t).
Notation ik := (cp_kv_cache_interleave_size t).

Lemma table_ids_lookup ids (k : nat) block : ids !! (k / Z.to_nat per)%nat = Some block → table_ids t ids !! k = Some (block * per + Z.of_nat k `mod` per).
Proof.
  intros H. destruct wf as [_ W2 W3 _ _ _]. unfold table_ids. destruct (use_hybrid_blocks t) eqn:Eh.
  - unfold map_to_kernel_blocks. destruct (Z.eqb_spec per 1) as [E|E].
    + rewrite E in *. change (Z.to_nat 1) with 1%nat in H. rewrite Nat.div_1_r in H. rewrite H, Z.mod_1_r. f_equal. lia.
    + pose proof (Nat.div_mod_eq k (Z.to_nat per)) as Hk. pose proof (Nat.mod_upper_bound k (Z.to_nat per)) as Hm. set (a := (k / Z.to_nat per)%nat) in *. set (r := (k mod Z.to_nat per)%nat) in *. clearbody a r. subst k.
      rewrite (Nat.mul_comm (Z.to_nat per)). erewrite lookup_concat_uniform; [| |lia|exact H].
      * rewrite list_lookup_fmap. unfold py_range. rewrite lookup_seqZ_lt by lia. cbn. do 2 f_equal. rewrite Nat2Z.inj_add, Nat2Z.inj_mul, Z2Nat.id by lia. rewrite (Z.add_comm (Z.of_nat a * per)), Z.mod_add, Z.mod_small by lia. lia.
      * intros x. rewrite length_fmap. unfold py_range. rewrite length_seqZ. lia.
  - rewrite W3 in * by done. change (Z.to_nat 1) with 1%nat in H. rewrite Nat.div_1_r in H. rewrite H, Z.mod_1_r. f_equal. lia.
Qed.

(** What the kernel computes for a position. *)
Definition stripe_offset (pos : Z) : Z := let o := pos `mod` (bs * w) in o / (w * ik) * ik + o `mod` ik.
Definition kernel_index (pos : Z) : Z := pos / (bs * w).
Definition slot_offset (pos : Z) : Z := kernel_index pos `mod` per * bs + stripe_offset pos.
Definition slot_of (ids : list Z) (pos : Z) : option Z :=
  block ← ids !! Z.to_nat (pos / span t); Some (if rank_of t pos =? total_cp_rank t then block * manager_block_size t + slot_offset pos else PAD_SLOT_ID).

Lemma world_pos : 0 < w.
Proof. destruct wf. lia. Qed.
Lemma rank_local pos : (pos `mod` (bs * w) / ik) `mod` w = rank_of t pos.
Proof.
  pose proof world_pos as Hw. destruct wf as [W1 W2 W3 W4 W5 [m Hm]]. unfold rank_of. rewrite (Z.div_mod pos (bs * w)) at 2 by lia.
  set (x := pos / (bs * w)). set (o := pos `mod` (bs * w)). replace (bs * w * x + o) with (o + (m * x * w) * ik) by (rewrite Hm; ring).
  rewrite Z.div_add by lia. by rewrite Z.mod_add by lia.
Qed.
Lemma stripe_bound pos : 0 ≤ stripe_offset pos < bs.
Proof.
  pose proof world_pos as Hw. destruct wf as [W1 W2 W3 W4 W5 [m Hm]]. unfold stripe_offset. cbn zeta. pose proof (Z.mod_pos_bound pos (bs * w) ltac:(nia)) as Ho. set (o := pos `mod` (bs * w)) in *.
  pose proof (Z.mod_pos_bound o ik ltac:(lia)). assert (0 ≤ o / (w * ik) < m); [|nia]. split; [apply Z.div_pos; nia|]. apply Z.div_lt_upper_bound; nia.
Qed.
Lemma slot_offset_bound pos : 0 ≤ slot_offset pos < manager_block_size t.
Proof.
  pose proof (stripe_bound pos) as Hs. destruct wf as [W1 W2 _ _ _ _]. unfold slot_offset, manager_block_size. pose proof (Z.mod_pos_bound (kernel_index pos) per W2). nia.
Qed.
(** Stripes of one rank are numbered without gaps or repetitions. *)
Lemma stripe_inj p p' : rank_of t p = rank_of t p' → stripe_offset p = stripe_offset p' → p `mod` (bs * w) = p' `mod` (bs * w).
Proof.
  pose proof world_pos as Hw. destruct wf as [W1 W2 W3 W4 W5 W6]. rewrite <- !rank_local. unfold stripe_offset. cbn zeta. set (o := p `mod` (bs * w)). set (o' := p' `mod` (bs * w)). intros Hr Hs.
  assert (∀ o, o / (w * ik) = o / ik / w) as Hdd by (intros x; rewrite (Z.mul_comm w), Z.div_div by lia; done). rewrite !Hdd in Hs.
  assert (o / ik / w = o' / ik / w ∧ o `mod` ik = o' `mod` ik) as [E2 E1].
  { pose proof (Z.mod_pos_bound o ik W5). pose proof (Z.mod_pos_bound o' ik W5). apply (Z.div_mod_unique ik); lia. }
  rewrite (Z.div_mod o ik), (Z.div_mod o' ik) by lia. rewrite E1. rewrite (Z.div_mod (o / ik) w), (Z.div_mod (o' / ik) w) by lia. by rewrite E2, Hr.
Qed.
Lemma offset_inj p p' : rank_of t p = rank_of t p' → slot_offset p = slot_offset p' → p `mod` span t = p' `mod` span t.
Proof.
  intros Hr Ho. pose proof world_pos as Hw. destruct wf as [W1 W2 W3 W4 W5 W6]. pose proof (stripe_bound p). pose proof (stripe_bound p'). unfold slot_offset in Ho.
  assert (kernel_index p `mod` per = kernel_index p' `mod` per ∧ stripe_offset p = stripe_offset p') as [E2 E1] by (apply (Z.div_mod_unique bs); lia).
  apply stripe_inj in E1; [|done]. unfold span, manager_block_size. replace (bs * per * w) with (bs * w * per) by ring. rewrite (Z.rem_mul_r p (bs * w)), (Z.rem_mul_r p' (bs * w)) by nia. unfold kernel_index in E2. by rewrite E1, E2.
Qed.

Lemma request_slots_ok i ids ps : row_blocks t i = Some (table_ids t ids) → (∀ p, p ∈ ps → 0 ≤ p < span t * zlen ids) → ∃ slots, request_slots t i ps = Ok slots ∧ Some <$> slots = slot_of ids <$> ps.
Proof.
  intros Hrow Hps. unfold row_blocks in Hrow. destruct (bt_rows t !! i) as [row|] eqn:Er; [|done]. cbn in Hrow. destruct (num_blocks_per_row t !! i) as [n|]; [|done]. cbn in Hrow. injection Hrow as Hrow.
  unfold request_slots. rewrite Er. cbn [of_option]. rewrite bind_ret. pose proof world_pos as Hw. pose proof wf as [W1 W2 W3 W4 W5 W6].
  assert (∀ p, p ∈ ps → ∃ s, (block_number ← py_get row (p / (bs * w)); Ok (slot_id bs w (total_cp_rank t) ik block_number p)) = Ok s ∧ slot_of ids p = Some s) as Hone.
  { intros p Hp. specialize (Hps p Hp). assert (0 < span t) as Hspan by (unfold span, manager_block_size; nia).
    assert (p / span t = kernel_index p / per) as Hdd by (unfold span, manager_block_size, kernel_index; rewrite Z.div_div by nia; f_equal; ring).
    assert (0 ≤ kernel_index p) as Hk by (apply Z.div_pos; nia). assert (0 ≤ p / span t < zlen ids) as Hb by (split; [apply Z.div_pos; lia|apply Z.div_lt_upper_bound; lia]).
    destruct (lookup_lt_is_Some_2 ids (Z.to_nat (p / span t))) as [block Hblock]; [lia|]. unfold slot_of. rewrite Hblock.
    assert (row !! Z.to_nat (kernel_index p) = Some (block * per + kernel_index p `mod` per)) as Hget.
    { assert (table_ids t ids !! Z.to_nat (kernel_index p) = Some (block * per + kernel_index p `mod` per)) as Hl.
      { rewrite (table_ids_lookup ids _ block); [by rewrite Z2Nat.id|]. rewrite <- Z2Nat.inj_div by lia. by rewrite <- Hdd. }
      rewrite <- Hrow in Hl. apply lookup_take_Some in Hl as [Hl _]. done. }
    change (p / (bs * w)) with (kernel_index p). rewrite (proj2 (py_get_nonneg row _ _ Hk) Hget), bind_ret. eexists. split; [done|]. cbn. f_equal. unfold slot_id.
    rewrite (Z.mul_comm (p / (bs * w))), <- Z.mod_eq by nia. rewrite rank_local. destruct (_ =? _); [|done]. unfold slot_offset, stripe_offset, manager_block_size. cbn zeta. ring. }
  clear Hps. induction ps as [|p ps IH]; [by exists []|]. destruct (Hone p) as (s & Hs & Es); [by left|]. destruct IH as (slots & Hsl & Esl); [intros; apply Hone; by right|].
  exists (s :: slots). cbn [mapR]. rewrite Hs, bind_ret, Hsl, bind_ret. split; [done|]. cbn. rewrite Es. f_equal. exact Esl.
Qed.

(** Two positions have one slot only when they are the same token of the same block. *)
Lemma slot_of_inj ids ids' p p' s : slot_of ids p = Some s → slot_of ids' p' = Some s → s ≠ PAD_SLOT_ID →
  ∃ block, ids !! Z.to_nat (p / span t) = Some block ∧ ids' !! Z.to_nat (p' / span t) = Some block ∧ p `mod` span t = p' `mod` span t.
Proof.
  intros H1 H2 Hne. unfold slot_of in *. destruct (ids !! Z.to_nat (p / span t)) as [b1|]; [|done]. destruct (ids' !! Z.to_nat (p' / span t)) as [b2|]; [|done]. cbn in *.
  destruct (Z.eqb_spec (rank_of t p) (total_cp_rank t)) as [E1|]; [|congruence]. destruct (Z.eqb_spec (rank_of t p') (total_cp_rank t)) as [E2|]; [|congruence]. injection H1 as H1. injection H2 as H2.
  pose proof (slot_offset_bound p). pose proof (slot_offset_bound p'). assert (b1 = b2 ∧ slot_offset p = slot_offset p') as [-> Eo] by (apply (Z.div_mod_unique (manager_block_size t)); lia).
  exists b2. split; [done|]. split; [done|]. apply offset_inj; [congruence|done].
Qed.
End Slots.

(** *** Tables of a worker *)

Lemma table_wf_same t t' : same_table t t' → table_wf t → table_wf t'.
Proof. intros [S1 S2 S3 S4 S5 S6 S7] [W1 W2 W3 W4 W5 W6]. split; rewrite ?S2, ?S3, ?S4, ?S5, ?S6, ?S7; done. Qed.

(** A new table is well-formed, and its blocks have the size of those of the manager. *)
Lemma BlockTable_init_wf bs N mb kbs ci (g : CPGroups) t : 0 < bs → 0 < kbs → 0 < ci → (ci | kbs) → 0 ≤ (pcp g).2 < (pcp g).1 → 0 ≤ (dcp g).2 < (dcp g).1 →
  BlockTable_init bs N mb kbs ci g = Ok t → table_wf t ∧ manager_block_size t = bs.
Proof.
  intros Hbs Hk Hci Hd Hp1 Hp2. unfold BlockTable_init. intros ([[b per] hybrid] & Hs & [= <-])%bind_Ok. unfold manager_block_size. cbn [bt_block_size blocks_per_kv_block].
  assert (0 < b ∧ 0 < per ∧ (hybrid = false → per = 1) ∧ (ci | b) ∧ b * per = bs) as (H1 & H2 & H3 & H4 & H5).
  { destruct (Z.eqb_spec kbs bs) as [->|]; [injection Hs as <- <- <-; repeat split; try done; lia|]. destruct (Z.eqb_spec kbs 0); [done|]. destruct (Z.eqb_spec (bs `mod` kbs) 0) as [E|]; [|done]. cbn in Hs. injection Hs as <- <- <-.
    assert (bs = kbs * (bs / kbs)) as E' by (rewrite (Z.div_mod bs kbs) at 1 by lia; lia). split; [done|]. split; [nia|]. split; [done|]. split; [done|]. lia. }
  split; [|done]. split; cbn; try done. unfold total_cp_rank, total_cp_world_size. cbn. nia.
Qed.

(** Positive sizes, ranks within their groups, and stripes that divide the kernel blocks. *)
Record sizes_ok (block_sizes kernel_block_sizes : list Z) (interleave : Z) (g : CPGroups) : Prop := {
  so_blocks : Forall (λ bs, 0 < bs) block_sizes;
  so_kernel_blocks : Forall (λ kbs, 0 < kbs ∧ (interleave | kbs)) kernel_block_sizes;
  so_interleave : 0 < interleave;
  so_pcp : 0 ≤ (pcp g).2 < (pcp g).1;
  so_dcp : 0 ≤ (dcp g).2 < (dcp g).1;
}.
Lemma MultiGroupBlockTable_init_wf N L sizes kernel_sizes max_blocks interleave g m : sizes_ok sizes kernel_sizes interleave g →
  MultiGroupBlockTable_init N L sizes kernel_sizes max_blocks interleave g = Ok m → Forall table_wf m.
Proof.
  intros [S1 S2 S3 S4 S5]. unfold MultiGroupBlockTable_init. intros (_ & _ & (_ & _ & Hm)%bind_Ok)%bind_Ok. apply mapR_Forall2 in Hm. apply Forall_forall. intros t Ht.
  apply list_elem_of_lookup in Ht as [k Hk]. destruct (Forall2_lookup_r _ _ _ _ _ Hm Hk) as ([[bs kbs] mb] & Hx & Hinit). apply lookup_zip_Some in Hx as [[Hbs Hkbs]%lookup_zip_Some _]. cbn in *.
  destruct (Forall_lookup_1 _ _ _ _ S2 Hkbs) as [Hpos Hdiv]. by apply (BlockTable_init_wf bs N mb kbs interleave g t (Forall_lookup_1 _ _ _ _ S1 Hbs)).
Qed.
