(* ===== verification/LogitsProcs.v ===== *)
(** * Logits processors ([v1/sample/logits_processor/], [v1/sample/thinking_budget_state.py])

    A logits processor keeps state for the requests of the worker's batch, by row.
    When rows change, the batch sends it a [BatchUpdate] instead of its new contents.

    Correspondence.  Floating-point parameters are rationals.  The list of output
    tokens of a request is shared: parameters hold a reference to it, and [outputs]
    is the content of all such lists at the time of a call.  A tensor is the list of
    its elements; the order of the entries of an index tensor is that of the model's
    map.  Applying a processor to logits is left out. *)

From Stdlib Require Import QArith Qcanon.
From S2P Require Import Prelude.

Local Open Scope nat_scope.

(** ** What the worker reads of the sampling parameters ([sampling_params.py]) *)

Inductive SamplingType := GREEDY | RANDOM | RANDOM_SEED.
#[export] Instance SamplingType_eq_dec : EqDecision SamplingType.
Proof. solve_decision. Defined.

Record SamplerParams := mkSamplerParams {
  temperature : Qc;
  seed : option Z;
  top_p : Qc;
  top_k : Z;
  min_p : Qc;
  frequency_penalty : Qc;
  presence_penalty : Qc;
  repetition_penalty : Qc;
  logprobs : option Z;
  logprob_token_ids : option (list Z);
  prompt_logprobs : option Z;
  allowed_token_ids : list nat;
  bad_words_token_ids : list (list Z);
  logit_bias : gmap Z Qc;
  min_tokens : Z;
  all_stop_token_ids : gset Z;
  thinking_token_budget : option Z;
}.

Definition _SAMPLING_EPS : Qc := Q2Qc (1 # 100000).
Definition sampling_type (p : SamplerParams) : SamplingType :=
  if bool_decide (temperature p < _SAMPLING_EPS)%Qc then GREEDY else match seed p with Some _ => RANDOM_SEED | None => RANDOM end.

(** The shared lists of output tokens. *)
Notation Ref := nat (only parsing).
Notation Outputs := (gmap nat (list Z)) (only parsing).
Definition output_len (outputs : Outputs) (r : Ref) : Z := zlen (default [] (outputs !! r)).

(** ** Updates ([interface.py]) *)

Inductive MoveDirectionality := UNIDIRECTIONAL | SWAP.
#[export] Instance MoveDirectionality_eq_dec : EqDecision MoveDirectionality.
Proof. solve_decision. Defined.

Record AddedRequest := mkAdded { ad_index : nat; ad_params : SamplerParams; ad_prompt : option (list Z); ad_output : Ref }.
(** What a processor learns of a request. *)
Definition Origin : Type := SamplerParams * option (list Z) * Ref.
Definition ad_origin (a : AddedRequest) : Origin := (ad_params a, ad_prompt a, ad_output a).
Definition MovedRequest : Type := nat * nat * MoveDirectionality.

Record BatchUpdate := mkBatchUpdate {
  batch_size : nat;
  bu_removed : list nat;
  bu_added : list AddedRequest;
  bu_moved : list MovedRequest;
}.

Class LogitsProcessor (S : Type) := update_state : Outputs → option BatchUpdate → S → result S.

(** The processors of a list run in order; a pair stands for a list. *)
#[export] Instance pair_processor {S1 S2} `{LogitsProcessor S1} `{LogitsProcessor S2} : LogitsProcessor (S1 * S2) := λ outputs u s,
  s1 ← update_state outputs u s.1; s2 ← update_state outputs u s.2; Ok (s1, s2).

(** ** Min-p *)

Record MinPLogitsProcessor := mkMinP {
  min_p_count : Z;
  min_p_cpu : list Qc;
  use_double_tensor : bool;
  min_p_device : list Qc;
  min_p_shape : nat;
}.
Definition put_min_p (count : Z) (cpu : list Qc) (m : MinPLogitsProcessor) : MinPLogitsProcessor :=
  mkMinP count cpu (use_double_tensor m) (min_p_device m) (min_p_shape m).

Definition MinPLogitsProcessor_init (max_num_reqs : nat) (use_double_tensor : bool) : MinPLogitsProcessor :=
  mkMinP 0 (replicate max_num_reqs 0%Qc) use_double_tensor (replicate max_num_reqs 0%Qc) 0.

Definition get_min_p_by_index (index : nat) (m : MinPLogitsProcessor) : result Qc := of_option IndexError (min_p_cpu m !! index).

(** The tensor [min_p] that is applied: a slice of the device tensor, which on a CPU is
    the CPU tensor itself. *)
Definition min_p_tensor (m : MinPLogitsProcessor) : list Qc :=
  take (min_p_shape m) (if use_double_tensor m then min_p_device m else min_p_cpu m).

Definition nonzero (q : Qc) : bool := bool_decide (q ≠ 0%Qc).

Definition min_p_add (x : bool * MinPLogitsProcessor) (a : AddedRequest) : result (bool * MinPLogitsProcessor) :=
  let '(needs_update, m) := x in
  before ← of_option IndexError (min_p_cpu m !! ad_index a);
  let p := min_p (ad_params a) in
  if bool_decide (before ≠ p) then
    let count := if nonzero p && negb (nonzero before) then (min_p_count m + 1)%Z
                 else if negb (nonzero p) && nonzero before then (min_p_count m - 1)%Z else min_p_count m in
    Ok (true, put_min_p count (<[ad_index a := p]> (min_p_cpu m)) m)
  else Ok (needs_update, m).

Definition min_p_remove (m : MinPLogitsProcessor) (index : nat) : result MinPLogitsProcessor :=
  p ← of_option IndexError (min_p_cpu m !! index);
  Ok (if nonzero p then put_min_p (min_p_count m - 1) (<[index := 0%Qc]> (min_p_cpu m)) m else m).

Definition min_p_move (x : bool * MinPLogitsProcessor) (mv : MovedRequest) : result (bool * MinPLogitsProcessor) :=
  let '(needs_update, m) := x in
  let '(adx, bdx, direct) := mv in
  a ← of_option IndexError (min_p_cpu m !! adx);
  b ← of_option IndexError (min_p_cpu m !! bdx);
  let '(needs_update, cpu) :=
    if bool_decide (a ≠ b) then
      let cpu := <[bdx := a]> (min_p_cpu m) in (true, if bool_decide (direct = SWAP) then <[adx := b]> cpu else cpu)
    else (needs_update, min_p_cpu m) in
  if bool_decide (direct = UNIDIRECTIONAL) then
    let cpu := if nonzero a then <[adx := 0%Qc]> cpu else cpu in
    Ok (needs_update, put_min_p (if nonzero b then min_p_count m - 1 else min_p_count m)%Z cpu m)
  else Ok (needs_update, put_min_p (min_p_count m) cpu m).

Definition min_p_refresh (size : nat) (x : bool * MinPLogitsProcessor) : MinPLogitsProcessor :=
  let '(needs_update, m) := x in
  if negb (min_p_count m =? 0)%Z && (needs_update || negb (bool_decide (min_p_shape m = size))) then
    mkMinP (min_p_count m) (min_p_cpu m) (use_double_tensor m)
      (if use_double_tensor m then take size (min_p_cpu m) ++ drop size (min_p_device m) else min_p_device m) size
  else m.

#[export] Instance min_p_processor : LogitsProcessor MinPLogitsProcessor := λ _ batch_update m,
  match batch_update with
  | None => Ok m
  | Some u =>
      x ← foldM min_p_add (false, m) (bu_added u);
      x ← (if negb (min_p_count x.2 =? 0)%Z then
             m ← foldM min_p_remove x.2 (bu_removed u);
             foldM min_p_move (match bu_removed u with [] => x.1 | _ => true end, m) (bu_moved u)
           else Ok x);
      Ok (min_p_refresh (batch_size u) x)
  end.

(** ** Processors with a dictionary *)

Section DictUpdates.
Context {T : Type} (truthy : T → bool) (new_state : SamplerParams → option (list Z) → Ref → option T).
Implicit Types (d : gmap nat T).

Definition dict_add (x : bool * gmap nat T) (a : AddedRequest) : bool * gmap nat T :=
  let '(updated, d) := x in
  match new_state (ad_params a) (ad_prompt a) (ad_output a) with
  | Some state => (true, <[ad_index a := state]> d)
  | None => match d !! ad_index a with Some _ => (true, delete (ad_index a) d) | None => (updated, d) end
  end.
Definition dict_remove (x : bool * gmap nat T) (index : nat) : bool * gmap nat T :=
  let '(updated, d) := x in
  (match d !! index with Some state => updated || truthy state | None => updated end, delete index d).
Definition dict_move (x : bool * gmap nat T) (mv : MovedRequest) : bool * gmap nat T :=
  let '(updated, d) := x in
  let '(a_index, b_index, direct) := mv in
  let a_entry := d !! a_index in let d := delete a_index d in
  let b_entry := d !! b_index in let d := delete b_index d in
  let '(updated, d) := match a_entry with Some a => (true, <[b_index := a]> d) | None => (updated, d) end in
  match b_entry with
  | Some b => (true, if bool_decide (direct = SWAP) then <[a_index := b]> d else d)
  | None => (updated, d)
  end.

Definition process_dict_updates (d : gmap nat T) (batch_update : option BatchUpdate) : bool * gmap nat T :=
  match batch_update with
  | None => (false, d)
  | Some u =>
      let x := foldl dict_add (false, d) (bu_added u) in
      if bool_decide (x.2 = ∅) then x else foldl dict_move (foldl dict_remove x (bu_removed u)) (bu_moved u)
  end.
End DictUpdates.

(** ** Logit bias *)

Record LogitBiasLogitsProcessor := mkLogitBias {
  biases : gmap nat (gmap Z Qc);
  bias_tensor : list Qc;
  bias_slice : list (nat * Z);
}.
Definition LogitBiasLogitsProcessor_init : LogitBiasLogitsProcessor := mkLogitBias ∅ [] [].

Definition bias_entries (d : gmap nat (gmap Z Qc)) : list (nat * Z * Qc) :=
  concat ((λ x, (λ y, (x.1, y.1, y.2)) <$> map_to_list x.2) <$> map_to_list d).
Definition bias_state (params : SamplerParams) (_ : option (list Z)) (_ : Ref) : option (gmap Z Qc) :=
  if bool_decide (logit_bias params = ∅) then None else Some (logit_bias params).

#[export] Instance logit_bias_processor : LogitsProcessor LogitBiasLogitsProcessor := λ _ batch_update l,
  let '(needs_update, d) := process_dict_updates (λ b, bool_decide (b ≠ ∅)) bias_state (biases l) batch_update in
  Ok (if needs_update : bool then mkLogitBias d (snd <$> bias_entries d) (fst <$> bias_entries d) else mkLogitBias d (bias_tensor l) (bias_slice l)).

(** ** Minimum number of tokens *)

Definition MinToksEntry : Type := Z * Ref * gset Z.
Record MinTokensLogitsProcessor := mkMinTokens {
  min_toks : gmap nat MinToksEntry;
  stop_slice : list (nat * Z);
}.
Definition MinTokensLogitsProcessor_init : MinTokensLogitsProcessor := mkMinTokens ∅ [].

Definition min_tokens_state (outputs : Outputs) (params : SamplerParams) (_ : option (list Z)) (output_tok_ids : Ref) : option MinToksEntry :=
  if (min_tokens params =? 0)%Z || (output_len outputs output_tok_ids >=? min_tokens params)%Z then None
  else Some (min_tokens params, output_tok_ids, all_stop_token_ids params).

Definition stop_entries (d : gmap nat MinToksEntry) : list (nat * Z) := concat ((λ x, pair x.1 <$> elements x.2.2) <$> map_to_list d).

(** Entries that have not reached their minimum. *)
Definition min_toks_open (outputs : Outputs) (e : MinToksEntry) : bool := (output_len outputs e.1.2 <? e.1.1)%Z.

#[export] Instance min_tokens_processor : LogitsProcessor MinTokensLogitsProcessor := λ outputs batch_update m,
  let '(needs_update, d) := process_dict_updates (λ _, true) (min_tokens_state outputs) (min_toks m) batch_update in
  let open := filter (λ x, min_toks_open outputs x.2 = true) d in
  let needs_update := needs_update || negb (bool_decide (open = d)) in
  Ok (mkMinTokens open (if needs_update then stop_entries open else stop_slice m)).

(** ** Thinking budgets

    The state of a request is created by [init_entry]; its contents are not modelled. *)
Section ThinkingBudget.
Context {T : Type} (init_entry : option (list Z) → Z → Ref → T).

Definition budget_add (d : gmap nat T) (a : AddedRequest) : gmap nat T :=
  match thinking_token_budget (ad_params a) with
  | Some budget => <[ad_index a := init_entry (ad_prompt a) budget (ad_output a)]> d
  | None => delete (ad_index a) d
  end.
Definition budget_move (d : gmap nat T) (mv : MovedRequest) : gmap nat T :=
  let '(i1, i2, direction) := mv in
  if bool_decide (direction = SWAP) then
    let state1 := d !! i1 in let state2 := d !! i2 in
    let d := match state1 with Some s => <[i2 := s]> d | None => d end in
    match state2 with Some s => <[i1 := s]> d | None => d end
  else
    let state := d !! i1 in let d := delete i1 d in
    match state with Some s => <[i2 := s]> d | None => d end.
Definition sync_batch (is_enabled : bool) (d : gmap nat T) (batch_update : option BatchUpdate) : gmap nat T :=
  match batch_update with
  | Some u => if is_enabled then foldl budget_move (foldl budget_add (foldl (λ d i, delete i d) d (bu_removed u)) (bu_added u)) (bu_moved u) else d
  | None => d
  end.
End ThinkingBudget.

(** ** What a processor promises

    An update changes what a processor holds for each row as the text of [BatchUpdate]
    says: rows are removed, new requests replace rows, and rows are moved. *)

Section ApplyUpdate.
Context {T : Type} (none : T) (fresh : AddedRequest → T).
Implicit Types (f : nat → T).

Definition put_at (i : nat) (x : T) f : nat → T := λ j, if decide (j = i) then x else f j.
Definition apply_add f (a : AddedRequest) : nat → T := put_at (ad_index a) (fresh a) f.
Definition apply_remove f (i : nat) : nat → T := put_at i none f.
Definition apply_move f (mv : MovedRequest) : nat → T :=
  let '(a, b, direct) := mv in
  λ j, if decide (j = b) then f a else if decide (j = a) then (if bool_decide (direct = SWAP) then f b else none) else f j.
Definition apply_update (u : BatchUpdate) f : nat → T :=
  foldl apply_move (foldl apply_add (foldl apply_remove f (bu_removed u)) (bu_added u)) (bu_moved u).
End ApplyUpdate.

(** An update for a batch of at most [N] rows.  No row is both removed and added; removed
    rows and rows that are moved away lie beyond the new end of the batch. *)
Record update_wf (N : nat) (u : BatchUpdate) : Prop := {
  uw_size : batch_size u ≤ N;
  uw_removed i : i ∈ bu_removed u → i < N ∧ ∀ a, a ∈ bu_added u → ad_index a ≠ i;
  uw_added a : a ∈ bu_added u → ad_index a < N;
  uw_moved a b dir : (a, b, dir) ∈ bu_moved u → a < N ∧ b < N ∧ a ≠ b;
  uw_one_way a b : (a, b, UNIDIRECTIONAL) ∈ bu_moved u → batch_size u ≤ a;
  uw_gone i : i ∈ bu_removed u → batch_size u ≤ i;
}.

(** [lp_view] is what a processor holds for a row, [lp_fresh] what it would compute for a
    new request; a processor is settled for the outputs it has seen last, and what it
    holds remains current while the outputs of the requests grow. *)

Class LogitsProcessorSpec (N : nat) (S : Type) `{LogitsProcessor S} := {
  lp_type : Type;
  lp_none : lp_type;
  lp_fresh : Outputs → Origin → lp_type;
  lp_view : Outputs → S → nat → lp_type;
  lp_ok : S → Prop;
  lp_settled : Outputs → S → Prop;
  lp_update o u s : lp_ok s → update_wf N u →
    ∃ s', update_state o (Some u) s = Ok s' ∧ lp_ok s' ∧ lp_settled o s' ∧ ∀ i, lp_view o s' i = apply_update lp_none (λ a, lp_fresh o (ad_origin a)) u (lp_view o s) i;
  lp_idle o s : lp_ok s → ∃ s', update_state o None s = Ok s' ∧ lp_ok s' ∧ lp_settled o s' ∧ ∀ i, lp_view o s' i = lp_view o s i;
  lp_grow o o' s i (x : option Origin) : lp_settled o s → (∀ y, x = Some y → (output_len o y.2 ≤ output_len o' y.2)%Z) →
    lp_view o s i = from_option (lp_fresh o) lp_none x → lp_view o' s i = from_option (lp_fresh o') lp_none x;
}.
