(* ===== verification/LogitsSpec.v ===== *)
(** * The built-in logits processors follow the updates of the batch *)

From Stdlib Require Import QArith Qcanon.
From S2P Require Import Prelude LogitsProcs.

Local Open Scope nat_scope.

(** ** Order of removals and additions

    The text of [BatchUpdate] removes before it adds, the built-in processors add first.
    This is the same when no row is both removed and added. *)

Section Order.
Context {T : Type} (none : T) (fresh : AddedRequest → T).
Implicit Types (f g : nat → T).

Lemma foldl_remove f l i : foldl (apply_remove none) f l i = if decide (i ∈ l) then none else f i.
Proof.
  revert f. induction l as [|j l IH]; intros f; cbn [foldl]; [by rewrite decide_False by apply not_elem_of_nil|]. rewrite IH. unfold apply_remove, put_at.
  destruct (decide (i ∈ l)) as [Hl|Hl]; [by rewrite decide_True by by right|]. destruct (decide (i = j)) as [->|Hne]; [by rewrite decide_True by left|].
  rewrite decide_False; [done|]. by intros [->|]%elem_of_cons.
Qed.
Lemma foldl_add_ext f g l i : f i = g i → foldl (apply_add fresh) f l i = foldl (apply_add fresh) g l i.
Proof. revert f g. induction l as [|a l IH]; intros f g E; cbn; [done|]. apply IH. unfold apply_add, put_at. by destruct (decide _). Qed.
Lemma foldl_add_other f l i : (∀ a, a ∈ l → ad_index a ≠ i) → foldl (apply_add fresh) f l i = f i.
Proof.
  revert f. induction l as [|a l IH]; intros f H; cbn; [done|]. rewrite IH by (intros; apply H; by right). unfold apply_add, put_at.
  rewrite decide_False; [done|]. intros ->. by apply (H a); [left|].
Qed.
Lemma add_remove_comm f added removed i : (∀ j a, j ∈ removed → a ∈ added → ad_index a ≠ j) →
  foldl (apply_remove none) (foldl (apply_add fresh) f added) removed i = foldl (apply_add fresh) (foldl (apply_remove none) f removed) added i.
Proof.
  intros H. rewrite foldl_remove. destruct (decide (i ∈ removed)) as [Hi|Hi].
  - rewrite foldl_add_other by (intros a Ha; by apply H). rewrite foldl_remove. by rewrite decide_True.
  - apply foldl_add_ext. rewrite foldl_remove. by rewrite decide_False.
Qed.
Lemma foldl_move_ext f g l : (∀ i, f i = g i) → ∀ i, foldl (apply_move none) f l i = foldl (apply_move none) g l i.
Proof.
  revert f g. induction l as [|[[a b] dir] l IH]; intros f g E i; cbn [foldl]; [done|]. apply IH. intros j. unfold apply_move.
  destruct (decide _); [done|]. destruct (decide _); [|done]. by destruct (bool_decide _).
Qed.
Lemma move_none f l : (∀ i, f i = none) → ∀ i, foldl (apply_move none) f l i = none.
Proof.
  revert f. induction l as [|[[a b] dir] l IH]; intros f E i; cbn [foldl]; [done|]. apply IH. intros j. unfold apply_move.
  destruct (decide _); [done|]. destruct (decide _); [|done]. by destruct (bool_decide _).
Qed.

(** Additions, removals, moves, in the order of the code. *)
Lemma apply_update_code u f i : (∀ j a, j ∈ bu_removed u → a ∈ bu_added u → ad_index a ≠ j) →
  apply_update none fresh u f i = foldl (apply_move none) (foldl (apply_remove none) (foldl (apply_add fresh) f (bu_added u)) (bu_removed u)) (bu_moved u) i.
Proof. intros H. unfold apply_update. apply foldl_move_ext. intros j. symmetry. by apply add_remove_comm. Qed.
End Order.

(** ** Dictionaries *)

Section Dict.
Context {T : Type} (truthy : T → bool) (new_state : SamplerParams → option (list Z) → Ref → option T).
Implicit Types (d : gmap nat T) (x : bool * gmap nat T) (u : BatchUpdate).
Let fresh (a : AddedRequest) : option T := new_state (ad_params a) (ad_prompt a) (ad_output a).

Lemma foldl_view {B} (step : bool * gmap nat T → B → bool * gmap nat T) (astep : (nat → option T) → B → nat → option T) l (P : B → Prop) :
  (∀ x b f, P b → (∀ i, x.2 !! i = f i) → ∀ i, (step x b).2 !! i = astep f b i) → (∀ b, b ∈ l → P b) →
  ∀ x f, (∀ i, x.2 !! i = f i) → ∀ i, (foldl step x l).2 !! i = foldl astep f l i.
Proof.
  intros Hs. induction l as [|b l IH]; intros HP x f E; cbn [foldl]; [done|]. apply IH; [intros; apply HP; by right|]. apply Hs; [apply HP; by left|done].
Qed.

Lemma dict_add_view x a f : (∀ i, x.2 !! i = f i) → ∀ i, (dict_add new_state x a).2 !! i = apply_add fresh f a i.
Proof.
  destruct x as [up d]. cbn [snd]. intros E i. unfold dict_add, apply_add, put_at, fresh. destruct (new_state _ _ _) as [s|].
  - cbn. destruct (decide (i = ad_index a)) as [->|]; [by rewrite lookup_insert_eq|by rewrite lookup_insert_ne].
  - destruct (d !! ad_index a) eqn:Ha; cbn; (destruct (decide (i = ad_index a)) as [->|]; [by rewrite ?lookup_delete_eq, ?Ha|rewrite ?lookup_delete_ne by done; apply E]).
Qed.
Lemma dict_remove_view x j f : (∀ i, x.2 !! i = f i) → ∀ i, (dict_remove truthy x j).2 !! i = apply_remove None f j i.
Proof.
  destruct x as [up d]. cbn [snd]. intros E i. unfold dict_remove, apply_remove, put_at. cbn. destruct (decide (i = j)) as [->|]; [by rewrite lookup_delete_eq|by rewrite lookup_delete_ne].
Qed.
Lemma dict_move_view x mv f : mv.1.1 ≠ mv.1.2 → (∀ i, x.2 !! i = f i) → ∀ i, (dict_move x mv).2 !! i = apply_move None f mv i.
Proof.
  destruct x as [up d], mv as [[a b] dir]. cbn [fst snd]. intros Hne E i. unfold dict_move, apply_move. rewrite (lookup_delete_ne d a b) by done. rewrite <- !E.
  destruct (d !! a) as [va|] eqn:Ha, (d !! b) as [vb|] eqn:Hb, (bool_decide (dir = SWAP)); cbn; destruct (decide (i = b)) as [->|Hib]; cbn;
    try (destruct (decide (i = a)) as [->|Hia]); cbn;
    repeat first [rewrite lookup_insert_eq | rewrite lookup_insert_ne by congruence | rewrite lookup_delete_eq | rewrite lookup_delete_ne by congruence]; congruence.
Qed.

Lemma process_dict_view u d f : (∀ j a, j ∈ bu_removed u → a ∈ bu_added u → ad_index a ≠ j) → (∀ mv, mv ∈ bu_moved u → mv.1.1 ≠ mv.1.2) →
  (∀ i, d !! i = f i) → ∀ i, (process_dict_updates truthy new_state d (Some u)).2 !! i = apply_update None fresh u f i.
Proof.
  intros Hdis Hmv E i. rewrite apply_update_code by done. unfold process_dict_updates. cbn zeta. set (x := foldl (dict_add new_state) (false, d) _).
  assert (∀ i, x.2 !! i = foldl (apply_add fresh) f (bu_added u) i) as Hx.
  { apply (foldl_view _ _ _ (λ _, True)); [intros; by apply dict_add_view|done|done]. }
  destruct (bool_decide_reflect (x.2 = ∅)) as [He|He].
  - rewrite He, lookup_empty. symmetry. apply move_none. intros j. rewrite foldl_remove. destruct (decide _); [done|]. by rewrite <- Hx, He.
  - apply (foldl_view _ _ _ (λ mv, mv.1.1 ≠ mv.1.2)); [intros; by apply dict_move_view|done|].
    apply (foldl_view _ _ _ (λ _, True)); [intros; by apply dict_remove_view|done|done].
Qed.

(** An update that reports no change has made none. *)
Definition all_truthy d : Prop := ∀ i s, d !! i = Some s → truthy s = true.
Definition unchanged d x : Prop := all_truthy x.2 ∧ (x.1 = false → x.2 = d).

Hypothesis new_truthy : ∀ p t r s, new_state p t r = Some s → truthy s = true.

Lemma foldl_unchanged {B} (step : bool * gmap nat T → B → bool * gmap nat T) l d x :
  (∀ x b, unchanged d x → unchanged d (step x b)) → unchanged d x → unchanged d (foldl step x l).
Proof. intros Hs. revert x. induction l as [|b l IH]; intros x H; cbn; [done|]. by apply IH, Hs. Qed.

Lemma dict_add_unchanged d x a : unchanged d x → unchanged d (dict_add new_state x a).
Proof.
  destruct x as [up d']. intros [Ht Hu]. cbn in *. unfold dict_add. destruct (new_state _ _ _) as [s|] eqn:E.
  - split; [|done]. intros i s'. cbn. intros [[<- <-]|[? ?]]%lookup_insert_Some; [by eapply new_truthy|by eapply Ht].
  - destruct (d' !! ad_index a); [|by split]. split; [|done]. intros i s'. cbn. intros [_ ?]%lookup_delete_Some. by eapply Ht.
Qed.
Lemma dict_remove_unchanged d x j : unchanged d x → unchanged d (dict_remove truthy x j).
Proof.
  destruct x as [up d']. intros [Ht Hu]. cbn in *. unfold dict_remove. split; cbn.
  - intros i s' [_ ?]%lookup_delete_Some. by eapply Ht.
  - destruct (d' !! j) as [s|] eqn:E; [rewrite (Ht j s E), orb_true_r; done|]. intros Hup. rewrite delete_id by done. by apply Hu.
Qed.
Lemma dict_move_unchanged d x mv : unchanged d x → unchanged d (dict_move x mv).
Proof.
  destruct x as [up d'], mv as [[a b] dir]. intros [Ht Hu]. cbn in *. unfold dict_move.
  assert (∀ i s, d' !! i = Some s → truthy s = true) as Ht' by exact Ht.
  assert (all_truthy (delete b (delete a d'))) as Hd by (intros i s [_ [_ ?]%lookup_delete_Some]%lookup_delete_Some; by eapply Ht).
  assert (∀ k s, truthy s = true → all_truthy d' → ∀ d1, all_truthy d1 → all_truthy (<[k := s]> d1)) as Hins.
  { intros k s Hs _ d1 H1 i s' [[<- <-]|[? ?]]%lookup_insert_Some; [done|by eapply H1]. }
  destruct (d' !! a) as [va|] eqn:Ha, (delete a d' !! b) as [vb|] eqn:Hb.
  - apply lookup_delete_Some in Hb as [_ Hb]. split; [|done]. cbn. destruct (bool_decide _); eauto.
  - split; [|done]. cbn. eauto.
  - apply lookup_delete_Some in Hb as [_ Hb]. split; [|done]. cbn. destruct (bool_decide _); eauto.
  - split; [done|]. cbn. intros Hup. rewrite (delete_id (delete a d')) by done. rewrite delete_id by done. by apply Hu.
Qed.
Lemma process_dict_unchanged d (u : option BatchUpdate) : all_truthy d → unchanged d (process_dict_updates truthy new_state d u).
Proof.
  intros Ht. destruct u as [u|]; [|by split]. unfold process_dict_updates. cbn zeta.
  assert (unchanged d (foldl (dict_add new_state) (false, d) (bu_added u))) as H by (apply foldl_unchanged; [intros; by apply dict_add_unchanged|by split]).
  destruct (bool_decide _); [done|]. apply foldl_unchanged; [intros; by apply dict_move_unchanged|]. by apply foldl_unchanged; [intros; by apply dict_remove_unchanged|].
Qed.
End Dict.

Lemma update_wf_disjoint N u : update_wf N u → ∀ j a, j ∈ bu_removed u → a ∈ bu_added u → ad_index a ≠ j.
Proof. intros Hu j a Hj Ha. by apply (uw_removed _ _ Hu). Qed.
Lemma update_wf_moved N u : update_wf N u → ∀ mv, mv ∈ bu_moved u → mv.1.1 ≠ mv.1.2.
Proof. intros Hu [[a b] dir] H. by apply (uw_moved _ _ Hu) in H as (_ & _ & ?). Qed.
#[export] Hint Resolve update_wf_disjoint update_wf_moved : vllm.

(** ** Logit bias: the tensors list the entries of the dictionary *)

Record bias_ok (l : LogitBiasLogitsProcessor) : Prop := {
  bk_slice : bias_slice l = fst <$> bias_entries (biases l);
  bk_tensor : bias_tensor l = snd <$> bias_entries (biases l);
  bk_nonempty : all_truthy (λ b, bool_decide (b ≠ ∅)) (biases l);
}.
Lemma bias_step o u l : bias_ok l → ∃ l', update_state o u l = Ok l' ∧ bias_ok l' ∧
  biases l' = (process_dict_updates (λ b, bool_decide (b ≠ ∅)) bias_state (biases l) u).2.
Proof.
  intros [H1 H2 H3]. unfold update_state, logit_bias_processor.
  pose proof (process_dict_unchanged (λ b : gmap Z Qc, bool_decide (b ≠ ∅)) bias_state) as Hu.
  destruct (Hu) with (d := biases l) (u := u) as [Ht Hs]; [|done|].
  { intros p t r s. unfold bias_state. case_bool_decide; [done|]. intros [= <-]. by apply bool_decide_eq_true. }
  clear Hu. destruct (process_dict_updates _ _ _ _) as [up d]. cbn in *. eexists. split; [done|]. destruct up; [by split|]. rewrite (Hs eq_refl) in *. by split.
Qed.

#[export] Program Instance logit_bias_spec N : LogitsProcessorSpec N LogitBiasLogitsProcessor := {
  lp_none := None;
  lp_fresh := λ _ a, bias_state a.1.1 a.1.2 a.2;
  lp_view := λ _ l i, biases l !! i;
  lp_ok := bias_ok;
  lp_settled := λ _ _, True;
}.
Next Obligation.
  intros N o u l Hl Hu. destruct (bias_step o (Some u) l Hl) as (l' & -> & Hl' & E). exists l'. do 3 (split; [done|]). intros i. rewrite E.
  apply process_dict_view; eauto with vllm.
Qed.
Next Obligation. intros N o l Hl. destruct (bias_step o None l Hl) as (l' & -> & Hl' & E). exists l'. do 3 (split; [done|]). intros i. by rewrite E. Qed.
Next Obligation. intros N o o' l i x _ _ H. apply H. Qed.

(** Updates commute with a change of what is kept for a row. *)
Section Natural.
Context {T U : Type} (h : T → U) (none : T) (none' : U) (fresh : AddedRequest → T) (fresh' : AddedRequest → U).
Hypothesis h_none : h none = none'.
Hypothesis h_fresh : ∀ a, h (fresh a) = fresh' a.

Lemma apply_update_natural u f g i : (∀ i, h (f i) = g i) → h (apply_update none fresh u f i) = apply_update none' fresh' u g i.
Proof.
  intros E. unfold apply_update. revert i.
  assert (∀ l f g, (∀ i, h (f i) = g i) → ∀ i, h (foldl (apply_remove none) f l i) = foldl (apply_remove none') g l i) as Hr.
  { intros l. induction l as [|j l IH]; intros f1 g1 E1; cbn; [done|]. apply IH. intros i. unfold apply_remove, put_at. by destruct (decide _). }
  assert (∀ l f g, (∀ i, h (f i) = g i) → ∀ i, h (foldl (apply_add fresh) f l i) = foldl (apply_add fresh') g l i) as Ha.
  { intros l. induction l as [|a l IH]; intros f1 g1 E1; cbn; [done|]. apply IH. intros i. unfold apply_add, put_at. by destruct (decide _). }
  assert (∀ l f g, (∀ i, h (f i) = g i) → ∀ i, h (foldl (apply_move none) f l i) = foldl (apply_move none') g l i) as Hm.
  { intros l. induction l as [|[[a b] dir] l IH]; intros f1 g1 E1; cbn [foldl]; [done|]. apply IH. intros i. unfold apply_move.
    destruct (decide _); [done|]. destruct (decide _); [|done]. by destruct (bool_decide _). }
  by apply Hm, Ha, Hr.
Qed.
End Natural.

(** ** Minimum number of tokens *)

Definition open_entry (o : Outputs) (e : option MinToksEntry) : option MinToksEntry := x ← e; if min_toks_open o x then Some x else None.
Definition min_tokens_ok (m : MinTokensLogitsProcessor) : Prop := stop_slice m = stop_entries (min_toks m).

Lemma min_tokens_state_open o p t r : min_tokens_state o p t r = open_entry o (Some (min_tokens p, r, all_stop_token_ids p)).
Proof.
  unfold min_tokens_state, open_entry, min_toks_open. cbn. assert (0 ≤ output_len o r)%Z by (unfold output_len; lia).
  destruct (Z.eqb_spec (min_tokens p) 0), (Z.geb_spec (output_len o r) (min_tokens p)), (Z.ltb_spec (output_len o r) (min_tokens p)); try done; lia.
Qed.
Lemma open_entry_idemp o e : open_entry o (open_entry o e) = open_entry o e.
Proof. destruct e as [e|]; [|done]. cbn. destruct (min_toks_open o e) eqn:E; cbn; by rewrite ?E. Qed.

Lemma open_entry_open o e e' : open_entry o e = Some e' → min_toks_open o e' = true.
Proof. destruct e as [e|]; [|done]. cbn. destruct (min_toks_open o e) eqn:E; [|done]. by intros [= <-]. Qed.

Lemma min_tokens_step o u m : min_tokens_ok m → ∃ m', update_state o u m = Ok m' ∧ min_tokens_ok m' ∧
  ∀ i, min_toks m' !! i = open_entry o ((process_dict_updates (λ _, true) (min_tokens_state o) (min_toks m) u).2 !! i).
Proof.
  intros Hm. unfold update_state, min_tokens_processor.
  destruct (process_dict_unchanged (λ _ : MinToksEntry, true) (min_tokens_state o)) with (d := min_toks m) (u := u) as [_ Hs]; [done|done|].
  destruct (process_dict_updates _ _ _ _) as [up d]. cbn in *. eexists. split; [done|]. split.
  - unfold min_tokens_ok. cbn. destruct up; cbn; [done|]. destruct (bool_decide_reflect (filter (λ x, min_toks_open o x.2 = true) d = d)) as [E|]; cbn; [|done].
    rewrite E, Hm. by rewrite Hs.
  - intros i. cbn. unfold open_entry. destruct (d !! i) as [e|] eqn:E; cbn.
    + destruct (min_toks_open o e) eqn:Eo; [by apply map_lookup_filter_Some|]. apply map_lookup_filter_None. right. intros x Hx. cbn. rewrite E in Hx. injection Hx as <-. by rewrite Eo.
    + apply map_lookup_filter_None. by left.
Qed.

#[export] Program Instance min_tokens_spec N : LogitsProcessorSpec N MinTokensLogitsProcessor := {
  lp_none := None;
  lp_fresh := λ o a, min_tokens_state o a.1.1 a.1.2 a.2;
  lp_view := λ o m i, open_entry o (min_toks m !! i);
  lp_ok := min_tokens_ok;
  lp_settled := λ o m, ∀ i e, min_toks m !! i = Some e → min_toks_open o e = true;
}.
Next Obligation.
  intros N o u m Hm Hu. destruct (min_tokens_step o (Some u) m Hm) as (m' & -> & Hm' & E). exists m'. do 2 (split; [done|]). split; [intros i e; rewrite E; apply open_entry_open|]. intros i. rewrite E, open_entry_idemp.
  rewrite (process_dict_view _ _ u _ (λ i, min_toks m !! i)); [|by eauto with vllm..].
  apply (apply_update_natural (open_entry o)); [done| |done]. intros a. rewrite !min_tokens_state_open. apply open_entry_idemp.
Qed.
Next Obligation.
  intros N o m Hm. destruct (min_tokens_step o None m Hm) as (m' & -> & Hm' & E). exists m'. do 2 (split; [done|]). split; [intros i e; rewrite E; apply open_entry_open|]. intros i. rewrite E. apply open_entry_idemp.
Qed.
Next Obligation.
  intros N o o' m i x Hs Hgrow H. cbn in *. destruct x as [a|]; cbn in *.
  - rewrite min_tokens_state_open in *. set (e := (min_tokens a.1.1, a.2, all_stop_token_ids a.1.1)) in *. specialize (Hgrow a eq_refl).
    assert (min_toks_open o' e = true → min_toks_open o e = true) as Hmono by (unfold min_toks_open, e; cbn; rewrite !Z.ltb_lt; lia).
    destruct (min_toks m !! i) as [e'|] eqn:E; cbn in *; [rewrite (Hs i e' E) in H|]; destruct (min_toks_open o e); simplify_eq; [done|]. by destruct (min_toks_open o' e); [specialize (Hmono eq_refl)|].
  - destruct (min_toks m !! i) as [e'|] eqn:E; cbn in *; [|done]. by rewrite (Hs i e' E) in H.
Qed.

(** ** Min-p *)

Definition count_nonzero (l : list Qc) : Z := zlen (filter (λ q, q ≠ 0%Qc) l).

Lemma count_nonzero_insert l i x y : l !! i = Some x →
  (count_nonzero (<[i := y]> l) + (if nonzero x then 1 else 0) = count_nonzero l + (if nonzero y then 1 else 0))%Z.
Proof.
  intros Hi. unfold count_nonzero, nonzero. rewrite <- (take_drop_middle l i x Hi) at 2. rewrite (insert_take_drop l i y) by (by eapply lookup_lt_Some).
  rewrite !filter_app, !filter_cons, !length_app. destruct (decide (x ≠ 0%Qc)), (decide (y ≠ 0%Qc)); repeat case_bool_decide; try done; cbn [length]; lia.
Qed.
Lemma nonzero_false q : nonzero q = false → q = 0%Qc.
Proof. unfold nonzero. intros H%bool_decide_eq_false. destruct (decide (q = 0%Qc)); [done|tauto]. Qed.
Lemma nonzero_zero : nonzero 0%Qc = false.
Proof. apply bool_decide_eq_false. by intros []. Qed.
Lemma count_zero l : count_nonzero l = 0%Z → ∀ i x, l !! i = Some x → x = 0%Qc.
Proof.
  intros Hz i x Hi. destruct (decide (x = 0%Qc)) as [|Hne]; [done|]. exfalso. unfold count_nonzero in Hz.
  assert (x ∈ filter (λ q, q ≠ 0%Qc) l) as Hx by (apply list_elem_of_filter; split; [done|by eapply list_elem_of_lookup_2]).
  destruct (filter _ l); [by apply not_elem_of_nil in Hx|]. cbn in Hz. lia.
Qed.

Section MinP.
Context (N : nat).
Implicit Types (m : MinPLogitsProcessor).

Record min_p_rep m (f : nat → Qc) : Prop := {
  mr_len : length (min_p_cpu m) = N;
  mr_dev : length (min_p_device m) = N;
  mr_count : min_p_count m = count_nonzero (min_p_cpu m);
  mr_view i : default 0%Qc (min_p_cpu m !! i) = f i;
}.
(** The slice that is applied is current. *)
Definition min_p_current m : Prop := min_p_count m ≠ 0%Z → min_p_tensor m = take (min_p_shape m) (min_p_cpu m).
Definition same_device m m' : Prop := use_double_tensor m' = use_double_tensor m ∧ min_p_device m' = min_p_device m ∧ min_p_shape m' = min_p_shape m.

Lemma min_p_put m f i x y count : min_p_rep m f → min_p_cpu m !! i = Some x → (count + (if nonzero x then 1 else 0) = min_p_count m + (if nonzero y then 1 else 0))%Z →
  min_p_rep (put_min_p count (<[i := y]> (min_p_cpu m)) m) (put_at i y f).
Proof.
  intros [H1 H2 H3 H4] Hi Hc. split; cbn; [by rewrite length_insert|done| |].
  - pose proof (count_nonzero_insert _ i x y Hi). lia.
  - intros j. unfold put_at. destruct (decide (j = i)) as [->|]; [by rewrite list_lookup_insert_eq by (by eapply lookup_lt_Some)|by rewrite list_lookup_insert_ne].
Qed.
Lemma min_p_get m f i : min_p_rep m f → i < N → min_p_cpu m !! i = Some (f i).
Proof. intros [H1 H2 H3 H4] Hi. destruct (lookup_lt_is_Some_2 (min_p_cpu m) i) as [x Hx]; [lia|]. rewrite <- H4, Hx. done. Qed.
Lemma min_p_rep_ext m f g : min_p_rep m f → (∀ i, f i = g i) → min_p_rep m g.
Proof. intros [H1 H2 H3 H4] E. split; try done. intros i. by rewrite H4. Qed.

Lemma min_p_add_ok x f a : min_p_rep x.2 f → ad_index a < N →
  ∃ x', min_p_add x a = Ok x' ∧ min_p_rep x'.2 (apply_add (λ a, min_p (ad_params a)) f a) ∧ same_device x.2 x'.2 ∧ (x'.1 = false → x' = x).
Proof.
  destruct x as [needs m]. cbn [snd]. intros Hm Hi. unfold min_p_add. rewrite (min_p_get m f _ Hm Hi). cbn [of_option]. rewrite bind_ret.
  case_bool_decide as Hne.
  - eexists. split; [done|]. split; [|by repeat split]. cbn [snd]. eapply min_p_put; [done|by apply min_p_get|].
    destruct (nonzero (min_p (ad_params a))), (nonzero (f (ad_index a))); cbn; lia.
  - eexists. split; [done|]. split; [|by repeat split]. cbn [snd]. eapply min_p_rep_ext; [done|]. intros i. unfold apply_add, put_at. by destruct (decide _) as [->|].
Qed.
Lemma min_p_remove_ok m f i : min_p_rep m f → i < N → ∃ m', min_p_remove m i = Ok m' ∧ min_p_rep m' (apply_remove 0%Qc f i) ∧ same_device m m'.
Proof.
  intros Hm Hi. unfold min_p_remove. rewrite (min_p_get m f _ Hm Hi). cbn [of_option]. rewrite bind_ret. eexists. split; [done|]. destruct (nonzero (f i)) eqn:E.
  - split; [|by repeat split]. eapply min_p_put; [done|by apply min_p_get|]. rewrite E, nonzero_zero. lia.
  - split; [|by repeat split]. eapply min_p_rep_ext; [done|]. intros j. unfold apply_remove, put_at. destruct (decide _) as [->|]; [|done]. by apply nonzero_false.
Qed.

Lemma min_p_move_ok x f a b dir size : min_p_rep x.2 f → a < N → b < N → a ≠ b → (dir = UNIDIRECTIONAL → size ≤ a) →
  ∃ x', min_p_move x (a, b, dir) = Ok x' ∧ min_p_rep x'.2 (apply_move 0%Qc f (a, b, dir)) ∧ same_device x.2 x'.2 ∧
    (x'.1 = false → x.1 = false ∧ take size (min_p_cpu x'.2) = take size (min_p_cpu x.2)).
Proof.
  destruct x as [needs m]. cbn [fst snd]. intros Hm Ha Hb Hab Hdir. unfold min_p_move. rewrite (min_p_get m f a Hm Ha), (min_p_get m f b Hm Hb). cbn [of_option]. rewrite !bind_ret.
  pose proof (min_p_get m f a Hm Ha) as Ga. pose proof (min_p_get m f b Hm Hb) as Gb. destruct dir.
  - rewrite (bool_decide_false (UNIDIRECTIONAL = SWAP)), (bool_decide_true (UNIDIRECTIONAL = UNIDIRECTIONAL)) by done.
    set (p := if bool_decide (f a ≠ f b) then _ else _).
    assert (p.2 = <[b := f a]> (min_p_cpu m)) as Ep.
    { unfold p. case_bool_decide as Hne; [done|]. cbn. rewrite list_insert_id; [done|]. by rewrite Hne. }
    destruct p as [needs' cpu] eqn:Epp. cbn [snd] in Ep. subst cpu. eexists. split; [done|]. cbn [fst snd]. split; [|split; [by repeat split|]].
    + set (c1 := (if nonzero (f b) then min_p_count m - 1 else min_p_count m)%Z).
      assert ((if nonzero (f a) then <[a := 0%Qc]> (<[b := f a]> (min_p_cpu m)) else <[b := f a]> (min_p_cpu m)) = <[a := 0%Qc]> (<[b := f a]> (min_p_cpu m))) as ->.
      { destruct (nonzero (f a)) eqn:E; [done|]. symmetry. apply list_insert_id. rewrite list_lookup_insert_ne by done. by rewrite Ga, (nonzero_false _ E). }
      assert (min_p_rep (put_min_p (min_p_count m + (if nonzero (f a) then 1 else 0) - (if nonzero (f b) then 1 else 0)) (<[b := f a]> (min_p_cpu m)) m) (put_at b (f a) f)) as H1
        by (eapply min_p_put; [done|exact Gb|]; lia).
      assert (min_p_cpu (put_min_p (min_p_count m + (if nonzero (f a) then 1 else 0) - (if nonzero (f b) then 1 else 0)) (<[b := f a]> (min_p_cpu m)) m) !! a = Some (f a)) as Ga'
        by (cbn; by rewrite list_lookup_insert_ne).
      pose proof (min_p_put _ _ a (f a) 0%Qc c1 H1 Ga') as H2. cbn in H2. eapply min_p_rep_ext; [apply H2|].
      * unfold c1. rewrite nonzero_zero. destruct (nonzero (f a)), (nonzero (f b)); lia.
      * intros i. unfold put_at, apply_move. rewrite (bool_decide_false (UNIDIRECTIONAL = SWAP)) by done. destruct (decide (i = a)) as [->|]; [by rewrite decide_False|done].
    + intros ->. unfold p in Epp. case_bool_decide as Hne; [done|]. injection Epp as -> Ecpu. split; [done|]. cbn [min_p_cpu put_min_p]. rewrite <- Ecpu.
      destruct (nonzero (f a)); [|done]. rewrite take_insert_ge; [done|]. by apply Hdir.
  - rewrite (bool_decide_true (SWAP = SWAP)), (bool_decide_false (SWAP = UNIDIRECTIONAL)) by done.
    set (p := if bool_decide (f a ≠ f b) then _ else _).
    assert (p.2 = <[a := f b]> (<[b := f a]> (min_p_cpu m))) as Ep.
    { unfold p. case_bool_decide as Hne; [done|]. cbn. rewrite (list_insert_id _ b) by (by rewrite Hne). by rewrite list_insert_id by (by rewrite <- Hne). }
    destruct p as [needs' cpu] eqn:Epp. cbn [snd] in Ep. subst cpu. eexists. split; [done|]. cbn [fst snd]. split; [|split; [by repeat split|]].
    + assert (min_p_rep (put_min_p (min_p_count m + (if nonzero (f a) then 1 else 0) - (if nonzero (f b) then 1 else 0)) (<[b := f a]> (min_p_cpu m)) m) (put_at b (f a) f)) as H1
        by (eapply min_p_put; [done|exact Gb|]; lia).
      assert (min_p_cpu (put_min_p (min_p_count m + (if nonzero (f a) then 1 else 0) - (if nonzero (f b) then 1 else 0)) (<[b := f a]> (min_p_cpu m)) m) !! a = Some (f a)) as Ga'
        by (cbn; by rewrite list_lookup_insert_ne).
      pose proof (min_p_put _ _ a (f a) (f b) (min_p_count m) H1 Ga') as H2. cbn in H2. eapply min_p_rep_ext; [apply H2; cbn; lia|].
      intros i. unfold put_at, apply_move. rewrite (bool_decide_true (SWAP = SWAP)) by done. destruct (decide (i = a)) as [->|]; [by rewrite decide_False|done].
    + intros ->. unfold p in Epp. case_bool_decide as Hne; [done|]. injection Epp as -> Ecpu. cbn [min_p_cpu put_min_p]. by rewrite <- Ecpu.
Qed.

(** The tensor after an update lists the values of the rows of the batch. *)
Lemma min_p_refresh_ok size needs m f : min_p_rep m f → size ≤ N →
  (needs = false → min_p_count m ≠ 0%Z → min_p_shape m = size → min_p_tensor m = take size (min_p_cpu m)) →
  let m' := min_p_refresh size (needs, m) in min_p_rep m' f ∧ (min_p_count m' ≠ 0%Z → min_p_shape m' = size ∧ min_p_tensor m' = take size (min_p_cpu m')).
Proof.
  intros [H1 H2 H3 H4] Hs Hcur. cbn. unfold min_p_refresh. destruct (Z.eqb_spec (min_p_count m) 0) as [Hz|Hz]; cbn [negb andb]; [by split|].
  destruct (needs || negb (bool_decide (min_p_shape m = size))) eqn:E.
  - split; [split; cbn; [done| |done|done]|cbn; intros _; split; [done|]].
    + destruct (use_double_tensor m); [|done]. rewrite length_app, length_take, length_drop. lia.
    + unfold min_p_tensor. cbn. destruct (use_double_tensor m); [|done]. rewrite take_app_le by (rewrite length_take; lia). by rewrite take_take, Nat.min_id.
  - apply orb_false_iff in E as [-> E%negb_false_iff%bool_decide_eq_true]. split; [by split|]. intros _. split; [done|]. by apply Hcur.
Qed.

Lemma min_p_update_ok o u m f : min_p_rep m f → min_p_current m → update_wf N u →
  ∃ m', update_state o (Some u) m = Ok m' ∧ min_p_rep m' (apply_update 0%Qc (λ a, min_p (ad_params a)) u f) ∧
    (min_p_count m' ≠ 0%Z → min_p_shape m' = batch_size u ∧ min_p_tensor m' = take (batch_size u) (min_p_cpu m')).
Proof.
  intros Hm Hcur Hu. unfold update_state, min_p_processor. set (fresh := λ a, min_p (ad_params a)).
  destruct (foldM_ind (λ dn x, min_p_rep x.2 (foldl (apply_add fresh) f dn) ∧ same_device m x.2 ∧ (x.1 = false → x = (false, m))) min_p_add (false, m) (bu_added u))
    as ([n1 m1] & -> & Hm1 & Hd1 & Hn1); [split; [done|]; split; [by repeat split|done]| |].
  { intros dn a rest x E (Hx & Hd & Hn). destruct (min_p_add_ok x _ a Hx) as (x' & Ex & Hx' & Hd' & Hn'); [apply (uw_added _ _ Hu); rewrite E; apply elem_of_app; right; by left|].
    exists x'. split; [done|]. split; [by rewrite foldl_app|]. split; [destruct Hd as (? & ? & ?), Hd' as (? & ? & ?); repeat split; congruence|].
    intros Hf. rewrite (Hn' Hf). apply Hn. by rewrite <- (Hn' Hf). }
  cbn [fst snd] in *. rewrite bind_ret. cbn [fst snd]. set (f1 := foldl (apply_add fresh) f (bu_added u)) in *. destruct (Z.eqb_spec (min_p_count m1) 0) as [Hz|Hz]; cbn [negb].
  - rewrite bind_ret. eexists. split; [done|]. apply min_p_refresh_ok; [|apply (uw_size _ _ Hu)|by intros].
    assert (∀ i, f1 i = 0%Qc) as Hf1.
    { intros i. rewrite <- (mr_view _ _ Hm1). destruct (min_p_cpu m1 !! i) as [x|] eqn:E; [|done]. cbn. eapply count_zero; [|exact E]. by rewrite <- (mr_count _ _ Hm1). }
    eapply min_p_rep_ext; [done|]. intros i. rewrite Hf1. symmetry. rewrite apply_update_code by eauto with vllm. apply move_none. intros j. rewrite foldl_remove. by destruct (decide _).
  - destruct (foldM_ind (λ dn m2, min_p_rep m2 (foldl (apply_remove 0%Qc) f1 dn) ∧ same_device m m2 ∧ (dn = [] → m2 = m1)) min_p_remove m1 (bu_removed u))
      as (m2 & -> & Hm2 & Hd2 & Hn2); [done| |].
    { intros dn i rest m2 E (Hx & Hd & Hn). destruct (min_p_remove_ok m2 _ i Hx) as (m3 & E3 & Hm3 & Hd3); [apply (uw_removed _ _ Hu); rewrite E; apply elem_of_app; right; by left|].
      exists m3. split; [done|]. split; [by rewrite foldl_app|]. split; [destruct Hd as (? & ? & ?), Hd3 as (? & ? & ?); repeat split; congruence|]. by destruct dn. }
    rewrite bind_ret. set (n2 := match bu_removed u with [] => n1 | _ => true end).
    destruct (foldM_ind (λ dn x, min_p_rep x.2 (foldl (apply_move 0%Qc) (foldl (apply_remove 0%Qc) f1 (bu_removed u)) dn) ∧ same_device m x.2 ∧
        (x.1 = false → n2 = false ∧ take (batch_size u) (min_p_cpu x.2) = take (batch_size u) (min_p_cpu m2))) min_p_move (n2, m2) (bu_moved u))
      as ([n3 m3] & -> & Hm3 & Hd3 & Hn3); [done| |].
    { intros dn [[a b] dir] rest x E (Hx & Hd & Hn). assert ((a, b, dir) ∈ bu_moved u) as Hin by (rewrite E; apply elem_of_app; right; by left).
      destruct (uw_moved _ _ Hu _ _ _ Hin) as (Ha & Hb & Hab).
      destruct (min_p_move_ok x _ a b dir (batch_size u) Hx Ha Hb Hab) as (x' & Ex & Hx' & Hd' & Hn').
      { intros ->. by apply (uw_one_way _ _ Hu) in Hin. }
      exists x'. split; [done|]. split; [by rewrite foldl_app|]. split; [destruct Hd as (? & ? & ?), Hd' as (? & ? & ?); repeat split; congruence|].
      intros Hf. destruct (Hn' Hf) as [Hf1 Ht]. destruct (Hn Hf1) as [? ?]. split; congruence. }
    cbn [fst snd] in *. rewrite bind_ret. eexists. split; [done|]. apply min_p_refresh_ok; [|apply (uw_size _ _ Hu)|].
    { eapply min_p_rep_ext; [done|]. intros i. symmetry. apply apply_update_code. eauto with vllm. }
    intros Hf _ Hsh. destruct (Hn3 Hf) as [Hn2' Ht]. unfold n2 in Hn2'. destruct (bu_removed u); [|done]. rewrite (Hn2 eq_refl) in *. specialize (Hn1 Hn2'). injection Hn1 as _ Em1. rewrite Em1 in *.
    destruct Hd3 as (D1 & D2 & D3). rewrite D3 in Hsh. specialize (Hcur Hz). unfold min_p_tensor in *. rewrite D1, D2, D3, Hsh in *.
    destruct (use_double_tensor m); [|done]. by rewrite Hcur.
Qed.
End MinP.

#[export] Program Instance min_p_spec N : LogitsProcessorSpec N MinPLogitsProcessor := {
  lp_none := 0%Qc;
  lp_fresh := λ _ a, min_p a.1.1;
  lp_view := λ _ m i, default 0%Qc (min_p_cpu m !! i);
  lp_ok := λ m, (∃ f, min_p_rep N m f) ∧ min_p_current m;
  lp_settled := λ _ _, True;
}.
Next Obligation.
  intros N o u m [[f Hm] Hcur] Hu. destruct (min_p_update_ok N o u m f Hm Hcur Hu) as (m' & -> & Hm' & Ht). exists m'. split; [done|]. split; [|split; [done|]].
  - split; [by eexists|]. intros Hz. destruct (Ht Hz) as [-> ?]. done.
  - intros i. rewrite (mr_view _ _ _ Hm'). apply (apply_update_natural id); [done|done|]. intros j. cbn. symmetry. apply (mr_view _ _ _ Hm).
Qed.
Next Obligation. intros N o m Hm. by exists m. Qed.
Next Obligation. intros N o o' m i x _ _ H. apply H. Qed.

(** ** Several processors *)

#[export] Program Instance pair_spec N S1 S2 `{LogitsProcessorSpec N S1} `{LogitsProcessorSpec N S2} : LogitsProcessorSpec N (S1 * S2) := {
  lp_type := lp_type (S := S1) * lp_type (S := S2);
  lp_none := (lp_none, lp_none);
  lp_fresh := λ o a, (lp_fresh o a, lp_fresh o a);
  lp_view := λ o s i, (lp_view o s.1 i, lp_view o s.2 i);
  lp_ok := λ s, lp_ok s.1 ∧ lp_ok s.2;
  lp_settled := λ o s, lp_settled o s.1 ∧ lp_settled o s.2;
}.
Next Obligation.
  intros N S1 S2 P1 L1 P2 L2 o u [s1 s2] [H1 H2] Hu. cbn in *. unfold update_state, pair_processor. cbn.
  destruct (lp_update o u s1 H1 Hu) as (s1' & -> & H1' & G1 & E1). destruct (lp_update o u s2 H2 Hu) as (s2' & E & H2' & G2 & E2). rewrite bind_ret, E, bind_ret.
  exists (s1', s2'). do 3 (split; [done|]). intros i. cbn. rewrite E1, E2. apply injective_projections; cbn; symmetry.
  - by apply (apply_update_natural fst).
  - by apply (apply_update_natural snd).
Qed.
Next Obligation.
  intros N S1 S2 P1 L1 P2 L2 o [s1 s2] [H1 H2]. cbn in *. unfold update_state, pair_processor. cbn.
  destruct (lp_idle o s1 H1) as (s1' & -> & H1' & G1 & E1). destruct (lp_idle o s2 H2) as (s2' & E & H2' & G2 & E2). rewrite bind_ret, E, bind_ret.
  exists (s1', s2'). do 3 (split; [done|]). intros i. cbn. by rewrite E1, E2.
Qed.
Next Obligation.
  intros N S1 S2 P1 L1 P2 L2 o o' [s1 s2] i x [G1 G2] Hg H. cbn in *.
  rewrite (lp_grow o o' s1 i x G1 Hg), (lp_grow o o' s2 i x G2 Hg); [by destruct x|destruct x; by injection H..].
Qed.
