(* ===== verification/InputBatch.v ===== *)
(** * The persistent batch of the worker ([v1/worker/gpu_input_batch.py])

    The worker keeps its requests in rows.  Consecutive steps share most requests, so
    rows are changed in place: finished requests leave holes, new requests fill them,
    the remaining holes are closed by moving the last rows down, and an attention
    backend may swap rows.  What happened to the rows is recorded for the logits
    processors ([sample/logits_processor/state.py]).

    Correspondence.  The arrays with one entry per row are one list of records
    [Cells], an entry of which holds the cells of all these arrays at one index; all
    have [max_num_reqs] entries.  Block tables and the mask of allowed tokens are kept
    apart.  An index out of range raises.  A tensor is its elements, an opaque tensor
    or generator an identifier.  The lists of output tokens are shared with the cached
    states of requests: rows hold references, and [outputs] is their content.  Copies to
    the GPU are left out. *)

From Stdlib Require Import QArith Qcanon.
From stdpp Require Import sorting.
From S2P Require Import Prelude BlockTable LogitsProcs.

Local Open Scope nat_scope.

(** ** Requests *)

Record Embeds := mkEmbeds { embeds_id : Z; embeds_len : nat }.
Record LoRARequest := mkLoRARequest { lora_name : string; lora_int_id : Z }.
Record PoolingInfo := mkPoolingInfo { requires_token_ids : bool; pooling_state : Z }.

Record CachedRequestState := mkCached {
  req_id : string;
  prompt_token_ids : option (list Z);
  prompt_embeds : option Embeds;
  prompt_is_token_ids : option (list bool);
  sampling_params : option SamplerParams;
  pooling_params : option PoolingInfo;
  generator : option Z;
  block_ids : list (list Z);
  num_computed_tokens : Z;
  output_token_ids : Ref;
  lora_request : option LoRARequest;
}.

Definition length_from_prompt_token_ids_or_embeds (prompt : option (list Z)) (embeds : option Embeds) : result nat :=
  match prompt, embeds with
  | None, None => Raise ValueError
  | None, Some e => Ok (embeds_len e)
  | Some l, None => Ok (length l)
  | Some l, Some e => if bool_decide (embeds_len e ≠ length l) then Raise ValueError else Ok (length l)
  end.

(** ** Changes of the batch *)

Record BatchUpdateBuilder := mkBuilder {
  _removed : list nat;
  _is_removed_sorted : bool;
  added : list AddedRequest;
  moved : list MovedRequest;
  batch_changed : bool;
}.
Definition BatchUpdateBuilder_init : BatchUpdateBuilder := mkBuilder [] false [] [] false.

Definition desc (x y : nat) : Prop := y ≤ x.
#[export] Instance desc_dec : RelDecision desc := λ x y, decide (y ≤ x).

Definition _ensure_removed_sorted (c : BatchUpdateBuilder) : BatchUpdateBuilder :=
  if _is_removed_sorted c then c else mkBuilder (merge_sort desc (_removed c)) true (added c) (moved c) (batch_changed c).
(** The property [removed], which sorts. *)
Definition removed (c : BatchUpdateBuilder) : list nat * BatchUpdateBuilder :=
  let c := _ensure_removed_sorted c in (_removed c, c).
Definition removed_append (index : nat) (c : BatchUpdateBuilder) : result BatchUpdateBuilder :=
  if _is_removed_sorted c then Raise RuntimeError
  else Ok (mkBuilder (_removed c ++ [index]) (_is_removed_sorted c) (added c) (moved c) true).
Definition has_removed (c : BatchUpdateBuilder) : bool := match _removed c with [] => false | _ => true end.
Definition peek_removed (c : BatchUpdateBuilder) : option nat * BatchUpdateBuilder :=
  if has_removed c then let c := _ensure_removed_sorted c in (last (_removed c), c) else (None, c).
Definition pop_removed (c : BatchUpdateBuilder) : option nat * BatchUpdateBuilder :=
  if has_removed c then
    let c := _ensure_removed_sorted c in
    (last (_removed c), mkBuilder (removelast (_removed c)) (_is_removed_sorted c) (added c) (moved c) (batch_changed c))
  else (None, c).
Definition builder_reset (c : BatchUpdateBuilder) : bool * BatchUpdateBuilder := (batch_changed c, BatchUpdateBuilder_init).
Definition get_and_reset (size : nat) (c : BatchUpdateBuilder) : option BatchUpdate * BatchUpdateBuilder :=
  match _removed c, moved c, added c with
  | [], [], [] => (None, mkBuilder [] false [] [] false)
  | r, m, a => (Some (mkBatchUpdate size r a m), BatchUpdateBuilder_init)
  end.
Definition builder_added (a : AddedRequest) (c : BatchUpdateBuilder) : BatchUpdateBuilder :=
  mkBuilder (_removed c) (_is_removed_sorted c) (added c ++ [a]) (moved c) (batch_changed c).
Definition builder_moved (mv : MovedRequest) (c : BatchUpdateBuilder) : BatchUpdateBuilder :=
  mkBuilder (_removed c) (_is_removed_sorted c) (added c) (moved c ++ [mv]) (batch_changed c).
Definition builder_changed (c : BatchUpdateBuilder) : BatchUpdateBuilder :=
  mkBuilder (_removed c) (_is_removed_sorted c) (added c) (moved c) true.

(** ** The batch *)

(** The cells of all arrays at one row. *)
Record Cells := mkCells {
  token_ids_cpu : list Z;
  is_token_ids : list bool;
  num_tokens_no_spec : nat;
  num_prompt_tokens : nat;
  num_computed_tokens_cpu : Z;
  temperature_cpu : Qc;
  top_p_cpu : Qc;
  top_k_cpu : Z;
  frequency_penalties_cpu : Qc;
  presence_penalties_cpu : Qc;
  repetition_penalties_cpu : Qc;
  num_accepted_tokens_cpu : Z;
  request_lora_mapping : Z;
  logits_processing_needs_token_ids : bool;
}.

(** Attribute assignments. *)
Definition cell_token_ids_cpu (x : list Z) (s : Cells) : Cells :=
  mkCells x (s.(is_token_ids)) (s.(num_tokens_no_spec)) (s.(num_prompt_tokens))
    (s.(num_computed_tokens_cpu)) (s.(temperature_cpu)) (s.(top_p_cpu)) (s.(top_k_cpu))
    (s.(frequency_penalties_cpu)) (s.(presence_penalties_cpu)) (s.(repetition_penalties_cpu))
    (s.(num_accepted_tokens_cpu)) (s.(request_lora_mapping))
    (s.(logits_processing_needs_token_ids)).
Definition cell_is_token_ids (x : list bool) (s : Cells) : Cells :=
  mkCells (s.(token_ids_cpu)) x (s.(num_tokens_no_spec)) (s.(num_prompt_tokens))
    (s.(num_computed_tokens_cpu)) (s.(temperature_cpu)) (s.(top_p_cpu)) (s.(top_k_cpu))
    (s.(frequency_penalties_cpu)) (s.(presence_penalties_cpu)) (s.(repetition_penalties_cpu))
    (s.(num_accepted_tokens_cpu)) (s.(request_lora_mapping))
    (s.(logits_processing_needs_token_ids)).
Definition cell_num_tokens_no_spec (x : nat) (s : Cells) : Cells :=
  mkCells (s.(token_ids_cpu)) (s.(is_token_ids)) x (s.(num_prompt_tokens))
    (s.(num_computed_tokens_cpu)) (s.(temperature_cpu)) (s.(top_p_cpu)) (s.(top_k_cpu))
    (s.(frequency_penalties_cpu)) (s.(presence_penalties_cpu)) (s.(repetition_penalties_cpu))
    (s.(num_accepted_tokens_cpu)) (s.(request_lora_mapping))
    (s.(logits_processing_needs_token_ids)).
Definition cell_num_prompt_tokens (x : nat) (s : Cells) : Cells :=
  mkCells (s.(token_ids_cpu)) (s.(is_token_ids)) (s.(num_tokens_no_spec)) x
    (s.(num_computed_tokens_cpu)) (s.(temperature_cpu)) (s.(top_p_cpu)) (s.(top_k_cpu))
    (s.(frequency_penalties_cpu)) (s.(presence_penalties_cpu)) (s.(repetition_penalties_cpu))
    (s.(num_accepted_tokens_cpu)) (s.(request_lora_mapping))
    (s.(logits_processing_needs_token_ids)).
Definition cell_num_computed_tokens_cpu (x : Z) (s : Cells) : Cells :=
  mkCells (s.(token_ids_cpu)) (s.(is_token_ids)) (s.(num_tokens_no_spec))
    (s.(num_prompt_tokens)) x (s.(temperature_cpu)) (s.(top_p_cpu)) (s.(top_k_cpu))
    (s.(frequency_penalties_cpu)) (s.(presence_penalties_cpu)) (s.(repetition_penalties_cpu))
    (s.(num_accepted_tokens_cpu)) (s.(request_lora_mapping))
    (s.(logits_processing_needs_token_ids)).
Definition cell_temperature_cpu (x : Qc) (s : Cells) : Cells :=
  mkCells (s.(token_ids_cpu)) (s.(is_token_ids)) (s.(num_tokens_no_spec))
    (s.(num_prompt_tokens)) (s.(num_computed_tokens_cpu)) x (s.(top_p_cpu)) (s.(top_k_cpu))
    (s.(frequency_penalties_cpu)) (s.(presence_penalties_cpu)) (s.(repetition_penalties_cpu))
    (s.(num_accepted_tokens_cpu)) (s.(request_lora_mapping))
    (s.(logits_processing_needs_token_ids)).
Definition cell_top_p_cpu (x : Qc) (s : Cells) : Cells :=
  mkCells (s.(token_ids_cpu)) (s.(is_token_ids)) (s.(num_tokens_no_spec))
    (s.(num_prompt_tokens)) (s.(num_computed_tokens_cpu)) (s.(temperature_cpu)) x
    (s.(top_k_cpu)) (s.(frequency_penalties_cpu)) (s.(presence_penalties_cpu))
    (s.(repetition_penalties_cpu)) (s.(num_accepted_tokens_cpu)) (s.(request_lora_mapping))
    (s.(logits_processing_needs_token_ids)).
Definition cell_top_k_cpu (x : Z) (s : Cells) : Cells :=
  mkCells (s.(token_ids_cpu)) (s.(is_token_ids)) (s.(num_tokens_no_spec))
    (s.(num_prompt_tokens)) (s.(num_computed_tokens_cpu)) (s.(temperature_cpu))
    (s.(top_p_cpu)) x (s.(frequency_penalties_cpu)) (s.(presence_penalties_cpu))
    (s.(repetition_penalties_cpu)) (s.(num_accepted_tokens_cpu)) (s.(request_lora_mapping))
    (s.(logits_processing_needs_token_ids)).
Definition cell_frequency_penalties_cpu (x : Qc) (s : Cells) : Cells :=
  mkCells (s.(token_ids_cpu)) (s.(is_token_ids)) (s.(num_tokens_no_spec))
    (s.(num_prompt_tokens)) (s.(num_computed_tokens_cpu)) (s.(temperature_cpu))
    (s.(top_p_cpu)) (s.(top_k_cpu)) x (s.(presence_penalties_cpu))
    (s.(repetition_penalties_cpu)) (s.(num_accepted_tokens_cpu)) (s.(request_lora_mapping))
    (s.(logits_processing_needs_token_ids)).
Definition cell_presence_penalties_cpu (x : Qc) (s : Cells) : Cells :=
  mkCells (s.(token_ids_cpu)) (s.(is_token_ids)) (s.(num_tokens_no_spec))
    (s.(num_prompt_tokens)) (s.(num_computed_tokens_cpu)) (s.(temperature_cpu))
    (s.(top_p_cpu)) (s.(top_k_cpu)) (s.(frequency_penalties_cpu)) x
    (s.(repetition_penalties_cpu)) (s.(num_accepted_tokens_cpu)) (s.(request_lora_mapping))
    (s.(logits_processing_needs_token_ids)).
Definition cell_repetition_penalties_cpu (x : Qc) (s : Cells) : Cells :=
  mkCells (s.(token_ids_cpu)) (s.(is_token_ids)) (s.(num_tokens_no_spec))
    (s.(num_prompt_tokens)) (s.(num_computed_tokens_cpu)) (s.(temperature_cpu))
    (s.(top_p_cpu)) (s.(top_k_cpu)) (s.(frequency_penalties_cpu)) (s.(presence_penalties_cpu))
    x (s.(num_accepted_tokens_cpu)) (s.(request_lora_mapping))
    (s.(logits_processing_needs_token_ids)).
Definition cell_num_accepted_tokens_cpu (x : Z) (s : Cells) : Cells :=
  mkCells (s.(token_ids_cpu)) (s.(is_token_ids)) (s.(num_tokens_no_spec))
    (s.(num_prompt_tokens)) (s.(num_computed_tokens_cpu)) (s.(temperature_cpu))
    (s.(top_p_cpu)) (s.(top_k_cpu)) (s.(frequency_penalties_cpu)) (s.(presence_penalties_cpu))
    (s.(repetition_penalties_cpu)) x (s.(request_lora_mapping))
    (s.(logits_processing_needs_token_ids)).
Definition cell_request_lora_mapping (x : Z) (s : Cells) : Cells :=
  mkCells (s.(token_ids_cpu)) (s.(is_token_ids)) (s.(num_tokens_no_spec))
    (s.(num_prompt_tokens)) (s.(num_computed_tokens_cpu)) (s.(temperature_cpu))
    (s.(top_p_cpu)) (s.(top_k_cpu)) (s.(frequency_penalties_cpu)) (s.(presence_penalties_cpu))
    (s.(repetition_penalties_cpu)) (s.(num_accepted_tokens_cpu)) x
    (s.(logits_processing_needs_token_ids)).
Definition cell_logits_processing_needs_token_ids (x : bool) (s : Cells) : Cells :=
  mkCells (s.(token_ids_cpu)) (s.(is_token_ids)) (s.(num_tokens_no_spec))
    (s.(num_prompt_tokens)) (s.(num_computed_tokens_cpu)) (s.(temperature_cpu))
    (s.(top_p_cpu)) (s.(top_k_cpu)) (s.(frequency_penalties_cpu)) (s.(presence_penalties_cpu))
    (s.(repetition_penalties_cpu)) (s.(num_accepted_tokens_cpu)) (s.(request_lora_mapping)) x.

(** Sets and dictionaries by request id. *)
Record ReqSets := mkReqSets {
  greedy_reqs : gset string;
  random_reqs : gset string;
  top_p_reqs : gset string;
  top_k_reqs : gset string;
  frequency_penalties_reqs : gset string;
  presence_penalties_reqs : gset string;
  repetition_penalties_reqs : gset string;
  num_logprobs : gmap string Z;
  logprob_tokens : gmap string (list Z);
  has_allowed_token_ids : gset string;
}.

Record InputBatch := mkInputBatch {
  is_pooling_model : bool;
  max_num_reqs : nat;
  vocab_size : nat;
  _req_ids : list (option string);
  req_id_to_index : gmap string nat;
  cells : list Cells;
  req_prompt_embeds : gmap nat Embeds;
  block_table : MultiGroupBlockTable;
  req_sets : ReqSets;
  lora_id_to_request_ids : gmap Z (gset string);
  lora_id_to_lora_request : gmap Z LoRARequest;
  generators : gmap nat Z;
  batch_update_builder : BatchUpdateBuilder;
  allowed_token_ids_mask_cpu_tensor : option (list (list bool));
  bad_words : gmap nat (list (list Z));
  req_output_token_ids : list (option Ref);
  spec_token_ids : list (list Z);
  pooling : gmap string PoolingInfo;
  prev_req_id_to_index : option (gmap string nat);
}.

(** Attribute assignments. *)
Definition ib_req_ids (x : list (option string)) (s : InputBatch) : InputBatch :=
  mkInputBatch (s.(is_pooling_model)) (s.(max_num_reqs)) (s.(vocab_size)) x
    (s.(req_id_to_index)) (s.(cells)) (s.(req_prompt_embeds)) (s.(block_table)) (s.(req_sets))
    (s.(lora_id_to_request_ids)) (s.(lora_id_to_lora_request)) (s.(generators))
    (s.(batch_update_builder)) (s.(allowed_token_ids_mask_cpu_tensor)) (s.(bad_words))
    (s.(req_output_token_ids)) (s.(spec_token_ids)) (s.(pooling)) (s.(prev_req_id_to_index)).
Definition ib_req_id_to_index (x : gmap string nat) (s : InputBatch) : InputBatch :=
  mkInputBatch (s.(is_pooling_model)) (s.(max_num_reqs)) (s.(vocab_size)) (s.(_req_ids)) x
    (s.(cells)) (s.(req_prompt_embeds)) (s.(block_table)) (s.(req_sets))
    (s.(lora_id_to_request_ids)) (s.(lora_id_to_lora_request)) (s.(generators))
    (s.(batch_update_builder)) (s.(allowed_token_ids_mask_cpu_tensor)) (s.(bad_words))
    (s.(req_output_token_ids)) (s.(spec_token_ids)) (s.(pooling)) (s.(prev_req_id_to_index)).
Definition ib_cells (x : list Cells) (s : InputBatch) : InputBatch :=
  mkInputBatch (s.(is_pooling_model)) (s.(max_num_reqs)) (s.(vocab_size)) (s.(_req_ids))
    (s.(req_id_to_index)) x (s.(req_prompt_embeds)) (s.(block_table)) (s.(req_sets))
    (s.(lora_id_to_request_ids)) (s.(lora_id_to_lora_request)) (s.(generators))
    (s.(batch_update_builder)) (s.(allowed_token_ids_mask_cpu_tensor)) (s.(bad_words))
    (s.(req_output_token_ids)) (s.(spec_token_ids)) (s.(pooling)) (s.(prev_req_id_to_index)).
Definition ib_req_prompt_embeds (x : gmap nat Embeds) (s : InputBatch) : InputBatch :=
  mkInputBatch (s.(is_pooling_model)) (s.(max_num_reqs)) (s.(vocab_size)) (s.(_req_ids))
    (s.(req_id_to_index)) (s.(cells)) x (s.(block_table)) (s.(req_sets))
    (s.(lora_id_to_request_ids)) (s.(lora_id_to_lora_request)) (s.(generators))
    (s.(batch_update_builder)) (s.(allowed_token_ids_mask_cpu_tensor)) (s.(bad_words))
    (s.(req_output_token_ids)) (s.(spec_token_ids)) (s.(pooling)) (s.(prev_req_id_to_index)).
Definition ib_block_table (x : MultiGroupBlockTable) (s : InputBatch) : InputBatch :=
  mkInputBatch (s.(is_pooling_model)) (s.(max_num_reqs)) (s.(vocab_size)) (s.(_req_ids))
    (s.(req_id_to_index)) (s.(cells)) (s.(req_prompt_embeds)) x (s.(req_sets))
    (s.(lora_id_to_request_ids)) (s.(lora_id_to_lora_request)) (s.(generators))
    (s.(batch_update_builder)) (s.(allowed_token_ids_mask_cpu_tensor)) (s.(bad_words))
    (s.(req_output_token_ids)) (s.(spec_token_ids)) (s.(pooling)) (s.(prev_req_id_to_index)).
Definition ib_req_sets (x : ReqSets) (s : InputBatch) : InputBatch :=
  mkInputBatch (s.(is_pooling_model)) (s.(max_num_reqs)) (s.(vocab_size)) (s.(_req_ids))
    (s.(req_id_to_index)) (s.(cells)) (s.(req_prompt_embeds)) (s.(block_table)) x
    (s.(lora_id_to_request_ids)) (s.(lora_id_to_lora_request)) (s.(generators))
    (s.(batch_update_builder)) (s.(allowed_token_ids_mask_cpu_tensor)) (s.(bad_words))
    (s.(req_output_token_ids)) (s.(spec_token_ids)) (s.(pooling)) (s.(prev_req_id_to_index)).
Definition ib_lora_id_to_request_ids (x : gmap Z (gset string)) (s : InputBatch) : InputBatch :=
  mkInputBatch (s.(is_pooling_model)) (s.(max_num_reqs)) (s.(vocab_size)) (s.(_req_ids))
    (s.(req_id_to_index)) (s.(cells)) (s.(req_prompt_embeds)) (s.(block_table)) (s.(req_sets))
    x (s.(lora_id_to_lora_request)) (s.(generators)) (s.(batch_update_builder))
    (s.(allowed_token_ids_mask_cpu_tensor)) (s.(bad_words)) (s.(req_output_token_ids))
    (s.(spec_token_ids)) (s.(pooling)) (s.(prev_req_id_to_index)).
Definition ib_lora_id_to_lora_request (x : gmap Z LoRARequest) (s : InputBatch) : InputBatch :=
  mkInputBatch (s.(is_pooling_model)) (s.(max_num_reqs)) (s.(vocab_size)) (s.(_req_ids))
    (s.(req_id_to_index)) (s.(cells)) (s.(req_prompt_embeds)) (s.(block_table)) (s.(req_sets))
    (s.(lora_id_to_request_ids)) x (s.(generators)) (s.(batch_update_builder))
    (s.(allowed_token_ids_mask_cpu_tensor)) (s.(bad_words)) (s.(req_output_token_ids))
    (s.(spec_token_ids)) (s.(pooling)) (s.(prev_req_id_to_index)).
Definition ib_generators (x : gmap nat Z) (s : InputBatch) : InputBatch :=
  mkInputBatch (s.(is_pooling_model)) (s.(max_num_reqs)) (s.(vocab_size)) (s.(_req_ids))
    (s.(req_id_to_index)) (s.(cells)) (s.(req_prompt_embeds)) (s.(block_table)) (s.(req_sets))
    (s.(lora_id_to_request_ids)) (s.(lora_id_to_lora_request)) x (s.(batch_update_builder))
    (s.(allowed_token_ids_mask_cpu_tensor)) (s.(bad_words)) (s.(req_output_token_ids))
    (s.(spec_token_ids)) (s.(pooling)) (s.(prev_req_id_to_index)).
Definition ib_batch_update_builder (x : BatchUpdateBuilder) (s : InputBatch) : InputBatch :=
  mkInputBatch (s.(is_pooling_model)) (s.(max_num_reqs)) (s.(vocab_size)) (s.(_req_ids))
    (s.(req_id_to_index)) (s.(cells)) (s.(req_prompt_embeds)) (s.(block_table)) (s.(req_sets))
    (s.(lora_id_to_request_ids)) (s.(lora_id_to_lora_request)) (s.(generators)) x
    (s.(allowed_token_ids_mask_cpu_tensor)) (s.(bad_words)) (s.(req_output_token_ids))
    (s.(spec_token_ids)) (s.(pooling)) (s.(prev_req_id_to_index)).
Definition ib_allowed_token_ids_mask_cpu_tensor (x : option (list (list bool))) (s : InputBatch) : InputBatch :=
  mkInputBatch (s.(is_pooling_model)) (s.(max_num_reqs)) (s.(vocab_size)) (s.(_req_ids))
    (s.(req_id_to_index)) (s.(cells)) (s.(req_prompt_embeds)) (s.(block_table)) (s.(req_sets))
    (s.(lora_id_to_request_ids)) (s.(lora_id_to_lora_request)) (s.(generators))
    (s.(batch_update_builder)) x (s.(bad_words)) (s.(req_output_token_ids))
    (s.(spec_token_ids)) (s.(pooling)) (s.(prev_req_id_to_index)).
Definition ib_bad_words (x : gmap nat (list (list Z))) (s : InputBatch) : InputBatch :=
  mkInputBatch (s.(is_pooling_model)) (s.(max_num_reqs)) (s.(vocab_size)) (s.(_req_ids))
    (s.(req_id_to_index)) (s.(cells)) (s.(req_prompt_embeds)) (s.(block_table)) (s.(req_sets))
    (s.(lora_id_to_request_ids)) (s.(lora_id_to_lora_request)) (s.(generators))
    (s.(batch_update_builder)) (s.(allowed_token_ids_mask_cpu_tensor)) x
    (s.(req_output_token_ids)) (s.(spec_token_ids)) (s.(pooling)) (s.(prev_req_id_to_index)).
Definition ib_req_output_token_ids (x : list (option Ref)) (s : InputBatch) : InputBatch :=
  mkInputBatch (s.(is_pooling_model)) (s.(max_num_reqs)) (s.(vocab_size)) (s.(_req_ids))
    (s.(req_id_to_index)) (s.(cells)) (s.(req_prompt_embeds)) (s.(block_table)) (s.(req_sets))
    (s.(lora_id_to_request_ids)) (s.(lora_id_to_lora_request)) (s.(generators))
    (s.(batch_update_builder)) (s.(allowed_token_ids_mask_cpu_tensor)) (s.(bad_words)) x
    (s.(spec_token_ids)) (s.(pooling)) (s.(prev_req_id_to_index)).
Definition ib_spec_token_ids (x : list (list Z)) (s : InputBatch) : InputBatch :=
  mkInputBatch (s.(is_pooling_model)) (s.(max_num_reqs)) (s.(vocab_size)) (s.(_req_ids))
    (s.(req_id_to_index)) (s.(cells)) (s.(req_prompt_embeds)) (s.(block_table)) (s.(req_sets))
    (s.(lora_id_to_request_ids)) (s.(lora_id_to_lora_request)) (s.(generators))
    (s.(batch_update_builder)) (s.(allowed_token_ids_mask_cpu_tensor)) (s.(bad_words))
    (s.(req_output_token_ids)) x (s.(pooling)) (s.(prev_req_id_to_index)).
Definition ib_pooling (x : gmap string PoolingInfo) (s : InputBatch) : InputBatch :=
  mkInputBatch (s.(is_pooling_model)) (s.(max_num_reqs)) (s.(vocab_size)) (s.(_req_ids))
    (s.(req_id_to_index)) (s.(cells)) (s.(req_prompt_embeds)) (s.(block_table)) (s.(req_sets))
    (s.(lora_id_to_request_ids)) (s.(lora_id_to_lora_request)) (s.(generators))
    (s.(batch_update_builder)) (s.(allowed_token_ids_mask_cpu_tensor)) (s.(bad_words))
    (s.(req_output_token_ids)) (s.(spec_token_ids)) x (s.(prev_req_id_to_index)).
Definition ib_prev_req_id_to_index (x : option (gmap string nat)) (s : InputBatch) : InputBatch :=
  mkInputBatch (s.(is_pooling_model)) (s.(max_num_reqs)) (s.(vocab_size)) (s.(_req_ids))
    (s.(req_id_to_index)) (s.(cells)) (s.(req_prompt_embeds)) (s.(block_table)) (s.(req_sets))
    (s.(lora_id_to_request_ids)) (s.(lora_id_to_lora_request)) (s.(generators))
    (s.(batch_update_builder)) (s.(allowed_token_ids_mask_cpu_tensor)) (s.(bad_words))
    (s.(req_output_token_ids)) (s.(spec_token_ids)) (s.(pooling)) x.

Definition empty_cells (max_model_len : nat) : Cells :=
  mkCells (replicate max_model_len 0%Z) (replicate max_model_len false) 0 0 0 0 0 0 0 0 0 1 0 false.
Definition empty_sets : ReqSets := mkReqSets ∅ ∅ ∅ ∅ ∅ ∅ ∅ ∅ ∅ ∅.

Definition InputBatch_init (max_num_reqs max_model_len vocab_size : nat) (block_sizes kernel_block_sizes : list Z) (max_num_blocks_per_req : option (list Z))
    (is_pooling_model : bool) (cp_interleave : Z) (g : CPGroups) : result InputBatch :=
  bt ← MultiGroupBlockTable_init max_num_reqs (Z.of_nat max_model_len) block_sizes kernel_block_sizes max_num_blocks_per_req cp_interleave g;
  Ok (mkInputBatch is_pooling_model max_num_reqs vocab_size [] ∅ (replicate max_num_reqs (empty_cells max_model_len)) ∅ bt empty_sets ∅ ∅ ∅
    BatchUpdateBuilder_init None ∅ [] (replicate max_num_reqs []) ∅ None).

Definition num_reqs (b : InputBatch) : nat := size (req_id_to_index b).

(** [l[i] = x] *)
Definition list_set {A} (i : nat) (x : A) (l : list A) : result (list A) :=
  if bool_decide (i < length l) then Ok (<[i := x]> l) else Raise IndexError.

Definition on_cells (i : nat) (f : Cells → result Cells) (b : InputBatch) : result InputBatch :=
  c ← of_option IndexError (cells b !! i); c ← f c; Ok (ib_cells (<[i := c]> (cells b)) b).

(** ** Adding a request *)

Definition _register_add_request (request : CachedRequestState) (b : InputBatch) : result (nat * InputBatch) :=
  let '(popped, c) := pop_removed (batch_update_builder b) in
  let new_req_index := match popped with Some i => i | None => num_reqs b end in
  _ ← assert_ (bool_decide (new_req_index < max_num_reqs b));
  let c := builder_changed c in
  let c := match sampling_params request with
    | Some p => builder_added (mkAdded new_req_index p (prompt_token_ids request) (output_token_ids request)) c
    | None => c
    end in
  Ok (new_req_index, ib_batch_update_builder c b).

(** The lists with one entry per request of the batch. *)
Definition add_to_lists (i : nat) (id : string) (out : Ref) (b : InputBatch) : result InputBatch :=
  if bool_decide (i = length (_req_ids b)) then
    Ok (ib_spec_token_ids (spec_token_ids b ++ [[]]) (ib_req_output_token_ids (req_output_token_ids b ++ [Some out]) (ib_req_ids (_req_ids b ++ [Some id]) b)))
  else
    ids ← list_set i (Some id) (_req_ids b);
    outs ← list_set i (Some out) (req_output_token_ids b);
    specs ← list_set i [] (spec_token_ids b);
    Ok (ib_spec_token_ids specs (ib_req_output_token_ids outs (ib_req_ids ids b))).

(** The tokens of a request. *)
Definition cells_tokens (request : CachedRequestState) (outs : list Z) (c : Cells) : result Cells :=
  n ← length_from_prompt_token_ids_or_embeds (prompt_token_ids request) (prompt_embeds request);
  tokens ← (match prompt_token_ids request with Some l => write_slice (token_ids_cpu c) 0 l | None => Ok (token_ids_cpu c) end);
  flags ← (match prompt_token_ids request, prompt_is_token_ids request with
           | Some _, Some mask =>
               if bool_decide (length mask = n) then write_slice (is_token_ids c) 0 mask
               else match mask with [v] => Ok (fill_slice (is_token_ids c) 0 n v) | _ => Raise ValueError end
           | Some _, None => Ok (fill_slice (is_token_ids c) 0 n true)
           | None, _ => Ok (fill_slice (is_token_ids c) 0 n false)
           end);
  tokens ← write_slice tokens n outs;
  let flags := fill_slice flags n (n + length outs) true in
  Ok (cell_num_computed_tokens_cpu (num_computed_tokens request) (cell_num_tokens_no_spec (n + length outs) (cell_is_token_ids flags
       (cell_token_ids_cpu tokens (cell_num_prompt_tokens n c))))).

Definition limited_top_k (vocab_size : nat) (p : SamplerParams) : bool := (0 <? top_k p)%Z && (top_k p <? Z.of_nat vocab_size)%Z.
Definition set_if (b : bool) (id : string) (s : gset string) : gset string := if b then {[id]} ∪ s else s.

Definition cells_sampling (vocab_size : nat) (p : SamplerParams) (c : Cells) : Cells :=
  cell_repetition_penalties_cpu (repetition_penalty p) (cell_presence_penalties_cpu (presence_penalty p) (cell_frequency_penalties_cpu (frequency_penalty p)
    (cell_top_k_cpu (if limited_top_k vocab_size p then top_k p else Z.of_nat vocab_size) (cell_top_p_cpu (top_p p)
    (cell_temperature_cpu (if bool_decide (sampling_type p = GREEDY) then 0%Qc else temperature p) c))))).

Definition sets_sampling (vocab_size : nat) (id : string) (p : SamplerParams) (s : ReqSets) : ReqSets :=
  mkReqSets (set_if (bool_decide (sampling_type p = GREEDY)) id (greedy_reqs s)) (set_if (bool_decide (sampling_type p ≠ GREEDY)) id (random_reqs s))
    (set_if (bool_decide (top_p p < 1)%Qc) id (top_p_reqs s)) (set_if (limited_top_k vocab_size p) id (top_k_reqs s))
    (set_if (bool_decide (frequency_penalty p ≠ 0%Qc)) id (frequency_penalties_reqs s)) (set_if (bool_decide (presence_penalty p ≠ 0%Qc)) id (presence_penalties_reqs s))
    (set_if (bool_decide (repetition_penalty p ≠ 1%Qc)) id (repetition_penalties_reqs s))
    (match logprobs p with Some n => <[id := if (n =? -1)%Z then Z.of_nat vocab_size else n]> (num_logprobs s) | None => num_logprobs s end)
    (match logprob_token_ids p with Some l => <[id := l]> (logprob_tokens s) | None => logprob_tokens s end)
    (set_if (bool_decide (allowed_token_ids p ≠ [])) id (has_allowed_token_ids s)).

(** The mask is allocated when it is first needed; [false] lets a token pass. *)
Definition mask_sampling (i : nat) (p : SamplerParams) (b : InputBatch) : result InputBatch :=
  match allowed_token_ids p with
  | [] => Ok b
  | allowed =>
      let mask := match allowed_token_ids_mask_cpu_tensor b with
        | Some m => m
        | None => replicate (max_num_reqs b) (replicate (vocab_size b) false)
        end in
      row ← foldM (λ row t, list_set t false row) (replicate (vocab_size b) true) allowed;
      mask ← list_set i row mask;
      Ok (ib_allowed_token_ids_mask_cpu_tensor (Some mask) b)
  end.

Definition add_sampling (i : nat) (request : CachedRequestState) (p : SamplerParams) (b : InputBatch) : result InputBatch :=
  b ← on_cells i (λ c, Ok (cells_sampling (vocab_size b) p c)) b;
  let b := ib_req_sets (sets_sampling (vocab_size b) (req_id request) p (req_sets b)) b in
  let b := match generator request with Some g => ib_generators (<[i := g]> (generators b)) b | None => b end in
  b ← mask_sampling i p b;
  Ok (match bad_words_token_ids p with [] => b | w => ib_bad_words (<[i := w]> (bad_words b)) b end).

Definition add_lora (i : nat) (request : CachedRequestState) (b : InputBatch) : result InputBatch :=
  match lora_request request with
  | Some l =>
      let lora_id := lora_int_id l in
      b ← on_cells i (λ c, Ok (cell_request_lora_mapping lora_id c)) b;
      let ids : gset string := default ∅ (lora_id_to_request_ids b !! lora_id) in
      Ok (ib_lora_id_to_lora_request (<[lora_id := l]> (lora_id_to_lora_request b))
           (ib_lora_id_to_request_ids (<[lora_id := {[req_id request]} ∪ ids]> (lora_id_to_request_ids b)) b))
  | None => on_cells i (λ c, Ok (cell_request_lora_mapping 0 c)) b
  end.

Definition add_request (outputs : Outputs) (request : CachedRequestState) (b : InputBatch) : result (nat * InputBatch) :=
  '(i, b) ← _register_add_request request b;
  b ← add_to_lists i (req_id request) (output_token_ids request) b;
  let b := ib_req_id_to_index (<[req_id request := i]> (req_id_to_index b)) b in
  b ← on_cells i (cells_tokens request (default [] (outputs !! output_token_ids request))) b;
  let b := match prompt_embeds request with Some e => ib_req_prompt_embeds (<[i := e]> (req_prompt_embeds b)) b | None => b end in
  bt ← multi_add_row (block_ids request) i (block_table b);
  let b := ib_block_table bt b in
  b ← (match sampling_params request, pooling_params request with
       | Some p, _ => add_sampling i request p b
       | None, Some pp =>
           let b := ib_pooling (<[req_id request := pp]> (pooling b)) b in
           on_cells i (λ c, Ok (cell_logits_processing_needs_token_ids (requires_token_ids pp) c)) b
       | None, None => Raise NotImplementedError
       end);
  b ← on_cells i (λ c, Ok (cell_num_accepted_tokens_cpu 1 c)) b;
  b ← add_lora i request b;
  Ok (i, b).

(** Draft tokens of a step. *)
Definition update_req_spec_token_ids (id : string) (scheduled_spec_tokens : gmap string (list Z)) (b : InputBatch) : result InputBatch :=
  i ← of_option KeyError (req_id_to_index b !! id);
  specs ← list_set i [] (spec_token_ids b);
  let b := ib_spec_token_ids specs b in
  match default [] (scheduled_spec_tokens !! id) with
  | [] => Ok b
  | spec =>
      b ← on_cells i (λ c, let start := num_tokens_no_spec c in
            tokens ← write_slice (token_ids_cpu c) start spec;
            Ok (cell_is_token_ids (fill_slice (is_token_ids c) start (start + length spec) true) (cell_token_ids_cpu tokens c))) b;
      Ok (ib_spec_token_ids (<[i := spec]> (spec_token_ids b)) b)
  end.

(** ** Removing a request *)

Definition sets_remove (id : string) (s : ReqSets) : ReqSets :=
  mkReqSets (greedy_reqs s ∖ {[id]}) (random_reqs s ∖ {[id]}) (top_p_reqs s ∖ {[id]}) (top_k_reqs s ∖ {[id]}) (frequency_penalties_reqs s ∖ {[id]})
    (presence_penalties_reqs s ∖ {[id]}) (repetition_penalties_reqs s ∖ {[id]}) (delete id (num_logprobs s)) (delete id (logprob_tokens s))
    (has_allowed_token_ids s ∖ {[id]}).

Definition remove_lora (i : nat) (id : string) (b : InputBatch) : result InputBatch :=
  c ← of_option IndexError (cells b !! i);
  let lora_id := request_lora_mapping c in
  if (lora_id =? 0)%Z then Ok b else
  ids ← of_option KeyError (lora_id_to_request_ids b !! lora_id : option (gset string));
  let ids : gset string := ids ∖ {[id]} in
  b ← (if bool_decide (ids = ∅) then
         _ ← of_option KeyError (lora_id_to_lora_request b !! lora_id);
         Ok (ib_lora_id_to_lora_request (delete lora_id (lora_id_to_lora_request b)) (ib_lora_id_to_request_ids (delete lora_id (lora_id_to_request_ids b)) b))
       else Ok (ib_lora_id_to_request_ids (<[lora_id := ids]> (lora_id_to_request_ids b)) b));
  on_cells i (λ c, Ok (cell_request_lora_mapping 0 c)) b.

Definition remove_request (id : string) (b : InputBatch) : result (option nat * InputBatch) :=
  match req_id_to_index b !! id with
  | None => Ok (None, b)
  | Some i =>
      let b := ib_req_id_to_index (delete id (req_id_to_index b)) b in
      c ← removed_append i (batch_update_builder b);
      let b := ib_batch_update_builder c b in
      ids ← list_set i None (_req_ids b);
      outs ← list_set i None (req_output_token_ids b);
      specs ← list_set i [] (spec_token_ids b);
      let b := ib_spec_token_ids specs (ib_req_output_token_ids outs (ib_req_ids ids b)) in
      bt ← multi_clear_row i (block_table b);
      b ← remove_lora i id (ib_block_table bt b);
      if is_pooling_model b then Ok (Some i, ib_pooling (delete id (pooling b)) b) else
      let b := ib_generators (delete i (generators b)) (ib_req_sets (sets_remove id (req_sets b)) b) in
      let b := ib_prev_req_id_to_index (delete id <$> prev_req_id_to_index b) b in
      let b := ib_allowed_token_ids_mask_cpu_tensor ((λ m, alter (λ row, replicate (length row) false) i m) <$> allowed_token_ids_mask_cpu_tensor b) b in
      Ok (Some i, ib_bad_words (delete i (bad_words b)) b)
  end.

(** ** Moving rows *)

Definition _get_active_token_count (i : nat) (b : InputBatch) : result nat :=
  c ← of_option IndexError (cells b !! i);
  spec ← of_option IndexError (spec_token_ids b !! i);
  Ok (num_tokens_no_spec c + length spec).

(** [utils/collection_utils.py] *)
Definition swap_dict_values {A} (k1 k2 : nat) (d : gmap nat A) : gmap nat A :=
  let v1 := d !! k1 in let v2 := d !! k2 in
  let d := match v1 with Some v => <[k2 := v]> d | None => delete k2 d end in
  match v2 with Some v => <[k1 := v]> d | None => delete k1 d end.

(** The cells of a row that receives the first [n] tokens and all other cells of another
    row, except the flag of pooling models and, in pooling models, the sampling cells. *)
Definition receive_cells (pooling_model : bool) (n : nat) (from to : Cells) : Cells :=
  let c := mkCells (take n (token_ids_cpu from) ++ drop n (token_ids_cpu to)) (take n (is_token_ids from) ++ drop n (is_token_ids to))
    (num_tokens_no_spec from) (num_prompt_tokens from) (num_computed_tokens_cpu from) (temperature_cpu to) (top_p_cpu to) (top_k_cpu to)
    (frequency_penalties_cpu to) (presence_penalties_cpu to) (repetition_penalties_cpu to) (num_accepted_tokens_cpu to) (request_lora_mapping from)
    (logits_processing_needs_token_ids to) in
  if pooling_model then c else
  mkCells (token_ids_cpu c) (is_token_ids c) (num_tokens_no_spec c) (num_prompt_tokens c) (num_computed_tokens_cpu c) (temperature_cpu from) (top_p_cpu from) (top_k_cpu from)
    (frequency_penalties_cpu from) (presence_penalties_cpu from) (repetition_penalties_cpu from) (num_accepted_tokens_cpu from) (request_lora_mapping c)
    (logits_processing_needs_token_ids c).

(** The rows of the mask are swapped through views of one tensor: the first assignment
    is visible to the second. *)
Definition swap_mask_rows (i1 i2 : nat) (m : list (list bool)) : list (list bool) := move_cell i1 i2 (move_cell i2 i1 m).

Definition swap_states (i1 i2 : nat) (b : InputBatch) : result InputBatch :=
  old_id_i1 ← of_option IndexError (_req_ids b !! i1);
  old_id_i2 ← of_option IndexError (_req_ids b !! i2);
  n1 ← _get_active_token_count i1 b;
  n2 ← _get_active_token_count i2 b;
  let n := max n1 n2 in
  _ ← of_option IndexError (req_output_token_ids b !! i1);
  _ ← of_option IndexError (req_output_token_ids b !! i2);
  let b := ib_spec_token_ids (swap_cells i1 i2 (spec_token_ids b)) (ib_req_output_token_ids (swap_cells i1 i2 (req_output_token_ids b))
             (ib_req_ids (swap_cells i1 i2 (_req_ids b)) b)) in
  id1 ← of_option AssertionError old_id_i1;
  id2 ← of_option AssertionError old_id_i2;
  x1 ← of_option KeyError (req_id_to_index b !! id1);
  x2 ← of_option KeyError (req_id_to_index b !! id2);
  let b := ib_req_id_to_index (<[id2 := x1]> (<[id1 := x2]> (req_id_to_index b))) b in
  c1 ← of_option IndexError (cells b !! i1);
  c2 ← of_option IndexError (cells b !! i2);
  let b := ib_cells (<[i2 := receive_cells (is_pooling_model b) n c1 c2]> (<[i1 := receive_cells (is_pooling_model b) n c2 c1]> (cells b))) b in
  let b := ib_req_prompt_embeds (swap_dict_values i1 i2 (req_prompt_embeds b)) b in
  bt ← multi_swap_row i1 i2 (block_table b);
  let b := ib_block_table bt b in
  if is_pooling_model b then Ok b else
  let b := ib_batch_update_builder (builder_moved (i1, i2, SWAP) (batch_update_builder b)) b in
  let b := ib_bad_words (swap_dict_values i1 i2 (bad_words b)) (ib_generators (swap_dict_values i1 i2 (generators b)) b) in
  Ok (ib_allowed_token_ids_mask_cpu_tensor (swap_mask_rows i1 i2 <$> allowed_token_ids_mask_cpu_tensor b) b).

(** [if i in d: d[j] = d.pop(i)] *)
Definition move_key {A} (i j : nat) (d : gmap nat A) : gmap nat A := match d !! i with Some v => <[j := v]> (delete i d) | None => d end.

(** A request moves down into an empty row. *)
Definition move_down (last_req_index empty_index : nat) (b : InputBatch) : result InputBatch :=
  let '(_, c) := pop_removed (batch_update_builder b) in
  let b := ib_batch_update_builder c b in
  id ← of_option IndexError (_req_ids b !! last_req_index);
  out ← of_option IndexError (req_output_token_ids b !! last_req_index);
  id ← of_option AssertionError id;
  ids ← list_set empty_index (Some id) (_req_ids b);
  ids ← list_set last_req_index None ids;
  outs ← list_set empty_index out (req_output_token_ids b);
  outs ← list_set last_req_index None outs;
  let b := ib_req_id_to_index (<[id := empty_index]> (req_id_to_index b)) (ib_req_output_token_ids outs (ib_req_ids ids b)) in
  n ← _get_active_token_count last_req_index b;
  _ ← of_option IndexError (spec_token_ids b !! empty_index);
  specs ← list_set last_req_index [] (swap_cells last_req_index empty_index (spec_token_ids b));
  let b := ib_spec_token_ids specs b in
  from ← of_option IndexError (cells b !! last_req_index);
  to ← of_option IndexError (cells b !! empty_index);
  let b := ib_cells (<[empty_index := receive_cells (is_pooling_model b) n from to]> (cells b)) b in
  let b := ib_req_prompt_embeds (move_key last_req_index empty_index (req_prompt_embeds b)) b in
  bt ← multi_move_row last_req_index empty_index (block_table b);
  let b := ib_block_table bt b in
  if is_pooling_model b then Ok b else
  let b := ib_batch_update_builder (builder_moved (last_req_index, empty_index, UNIDIRECTIONAL) (batch_update_builder b)) b in
  let b := ib_generators (move_key last_req_index empty_index (generators b)) b in
  let b := ib_allowed_token_ids_mask_cpu_tensor (move_cell last_req_index empty_index <$> allowed_token_ids_mask_cpu_tensor b) b in
  Ok (ib_bad_words (move_key last_req_index empty_index (bad_words b)) b).

(** [while last_req_index in empty_req_indices: last_req_index -= 1]; [None] is -1. *)
Fixpoint skip_empty (last_req_index : nat) (empty_req_indices : list nat) : option nat :=
  if bool_decide (last_req_index ∈ empty_req_indices) then
    match last_req_index with O => None | S i => skip_empty i empty_req_indices end
  else Some last_req_index.

Fixpoint condense_loop (fuel : nat) (last_req_index : nat) (b : InputBatch) : result InputBatch :=
  match _removed (batch_update_builder b) with
  | [] => Ok b
  | empty_req_indices =>
      match fuel with
      | O => Raise OutOfFuel
      | S fuel =>
          match skip_empty last_req_index empty_req_indices with
          | None => Ok b
          | Some last_req_index =>
              let '(empty_index, c) := peek_removed (batch_update_builder b) in
              let b := ib_batch_update_builder c b in
              empty_index ← of_option AssertionError empty_index;
              if bool_decide (last_req_index ≤ empty_index) then Ok b else
              b ← move_down last_req_index empty_index b;
              condense_loop fuel (last_req_index - 1) b
          end
      end
  end.

(** Each iteration fills one of the empty rows. *)
Definition condense (b : InputBatch) : result InputBatch :=
  let n := num_reqs b in
  let '(empty_req_indices, c) := removed (batch_update_builder b) in
  let b := ib_batch_update_builder c b in
  match empty_req_indices with
  | [] => Ok b
  | _ =>
      if bool_decide (n = 0) then Ok (ib_spec_token_ids [] (ib_req_output_token_ids [] (ib_req_ids [] b))) else
      b ← condense_loop (length empty_req_indices) (n + length empty_req_indices - 1) b;
      Ok (ib_spec_token_ids (take n (spec_token_ids b)) (ib_req_output_token_ids (take n (req_output_token_ids b)) (ib_req_ids (take n (_req_ids b)) b)))
  end.

(** ** Metadata for the sampler *)

Definition all_greedy (b : InputBatch) : bool := bool_decide (random_reqs (req_sets b) = ∅).
Definition all_random (b : InputBatch) : bool := bool_decide (greedy_reqs (req_sets b) = ∅).
Definition no_top_p (b : InputBatch) : bool := bool_decide (top_p_reqs (req_sets b) = ∅).
Definition no_top_k (b : InputBatch) : bool := bool_decide (top_k_reqs (req_sets b) = ∅).
Definition no_penalties (b : InputBatch) : bool :=
  bool_decide (presence_penalties_reqs (req_sets b) = ∅) && bool_decide (frequency_penalties_reqs (req_sets b) = ∅) && bool_decide (repetition_penalties_reqs (req_sets b) = ∅).
Definition no_allowed_token_ids (b : InputBatch) : bool := bool_decide (has_allowed_token_ids (req_sets b) = ∅).
Definition max_num_logprobs (b : InputBatch) : option Z :=
  match map_to_list (num_logprobs (req_sets b)) with [] => None | x :: l => Some (foldr Z.max x.2 (snd <$> l)) end.

(** A tensor that is not copied for this batch is [None]. *)
Record SamplingMetadata := mkSamplingMetadata {
  md_temperature : option (list Qc);
  md_all_greedy : bool;
  md_all_random : bool;
  md_top_p : option (list Qc);
  md_top_k : option (list Z);
  md_penalties : option (list (Qc * Qc * Qc));
  md_generators : gmap nat Z;
  md_max_num_logprobs : option Z;
  md_logprob_token_ids : gmap nat (list Z);
  md_prompt_token_ids : option (list (list Z));
  md_no_penalties : bool;
  md_allowed_token_ids_mask : option (list (list bool));
  md_bad_words : gmap nat (list (list Z));
}.

(** Prompts, padded with the size of the vocabulary. *)
Definition _make_prompt_token_ids_cpu_tensor (b : InputBatch) : result (list (list Z)) :=
  let rows := take (num_reqs b) (cells b) in
  _ ← require ValueError (bool_decide (num_reqs b ≠ 0));
  let max_prompt_len := foldr max 0 (num_prompt_tokens <$> rows) in
  Ok ((λ c, take max_prompt_len (take (num_prompt_tokens c) (token_ids_cpu c) ++ replicate (max_prompt_len - num_prompt_tokens c) (Z.of_nat (vocab_size b)))) <$> rows).

Definition logprob_tokens_by_index (b : InputBatch) : gmap nat (list Z) :=
  foldr (λ x d, match req_id_to_index b !! x.1 with Some i => <[i := x.2]> d | None => d end) ∅ (map_to_list (logprob_tokens (req_sets b))).

Definition _make_sampling_metadata (b : InputBatch) : result SamplingMetadata :=
  let rows := take (num_reqs b) (cells b) in
  let needs_prompt_token_ids := negb (no_penalties b) || existsb logits_processing_needs_token_ids rows in
  prompts ← (if needs_prompt_token_ids then l ← _make_prompt_token_ids_cpu_tensor b; Ok (Some l) else Ok None);
  mask ← (if no_allowed_token_ids b then Ok None
          else m ← of_option AssertionError (allowed_token_ids_mask_cpu_tensor b); Ok (Some (take (num_reqs b) m)));
  Ok (mkSamplingMetadata (if all_greedy b then None else Some (temperature_cpu <$> rows)) (all_greedy b) (all_random b)
    (if no_top_p b then None else Some (top_p_cpu <$> rows)) (if no_top_k b then None else Some (top_k_cpu <$> rows))
    (if no_penalties b then None else Some ((λ c, (frequency_penalties_cpu c, presence_penalties_cpu c, repetition_penalties_cpu c)) <$> rows))
    (generators b) (max_num_logprobs b) (logprob_tokens_by_index b)
    prompts (no_penalties b) mask (bad_words b)).

(** The batch tells the processors what has changed. *)
Definition refresh_metadata {S T} `{LogitsProcessor S} (init_entry : option (list Z) → Z → Ref → T) (outputs : Outputs) (b : InputBatch) (procs : S)
    (holder : option (gmap nat T)) (md : SamplingMetadata) : result (InputBatch * S * option (gmap nat T) * SamplingMetadata) :=
  if is_pooling_model b then
    let '(changed, c) := builder_reset (batch_update_builder b) in
    let b := ib_batch_update_builder c b in
    md ← (if changed : bool then _make_sampling_metadata b else Ok md);
    Ok (b, procs, holder, md)
  else
    let '(batch_update, c) := get_and_reset (num_reqs b) (batch_update_builder b) in
    let b := ib_batch_update_builder c b in
    let holder := (λ d, sync_batch init_entry true d batch_update) <$> holder in
    procs ← update_state outputs batch_update procs;
    md ← (match batch_update with Some _ => _make_sampling_metadata b | None => Ok md end);
    Ok (b, procs, holder, md).

(** LoRA ids of the sampled and of the scheduled tokens, and the active LoRAs. *)
Definition make_lora_inputs (num_scheduled_tokens num_sampled_tokens : list nat) (b : InputBatch) : list Z * list Z * list LoRARequest :=
  let mapping := request_lora_mapping <$> take (num_reqs b) (cells b) in
  (concat (zip_with (λ l n, replicate n l) mapping num_sampled_tokens), concat (zip_with (λ l n, replicate n l) mapping num_scheduled_tokens),
   snd <$> map_to_list (lora_id_to_lora_request b)).

(** ** Reordering ([v1/attention/backends/utils.py])

    Requests are ordered by region: decodes, short and long extensions of a prompt with
    context, and first chunks of prompts. *)

Definition req_region (decode_threshold num_scheduled num_computed num_prompt : Z) : nat :=
  let has_context := (num_computed >? 0)%Z in
  let is_below_threshold := (num_scheduled <=? decode_threshold)%Z in
  let done_prefilling := (num_computed >=? num_prompt)%Z in
  let is_pure_prefill := negb has_context in
  let is_long_extend := has_context && negb is_below_threshold in
  let is_short_extend := has_context && is_below_threshold && negb done_prefilling in
  if is_pure_prefill then 3 else if is_long_extend then 2 else if is_short_extend then 1 else 0.

Definition batch_regions (decode_threshold : Z) (num_scheduled_tokens : gmap string Z) (b : InputBatch) : result (list nat) :=
  mapR (λ x, id ← of_option KeyError x.2;
             scheduled ← of_option KeyError (num_scheduled_tokens !! id);
             c ← of_option IndexError (cells b !! x.1);
             Ok (req_region decode_threshold scheduled (num_computed_tokens_cpu c) (Z.of_nat (num_prompt_tokens c)))) (imap (λ i x, (i, x)) (_req_ids b)).

Definition num_in_region (regions : list nat) (k : nat) : nat := length (filter (eq k) regions).
Definition target_regions (regions : list nat) : list nat := concat ((λ k, replicate (num_in_region regions k) k) <$> seq 0 4).

(** The rows in the wrong region, and these rows sorted by region, rows of one region in
    their order. *)
Definition orig_indices (regions : list nat) : list nat :=
  filter (λ i, regions !! i ≠ target_regions regions !! i) (seq 0 (length regions)).
Definition src_indices (regions : list nat) : list nat :=
  concat ((λ k, filter (λ i, regions !! i = Some k) (orig_indices regions)) <$> seq 0 4).

Fixpoint swap_cycle (fuel : nat) (src dst : nat) (src_dest_map : gmap nat nat) (b : InputBatch) : result (gmap nat nat * InputBatch) :=
  if bool_decide (src = dst) then Ok (src_dest_map, b) else
  match fuel with
  | O => Raise OutOfFuel
  | S fuel =>
      b ← swap_states src dst b;
      let next_dst := default dst (src_dest_map !! dst) in
      swap_cycle fuel src next_dst (<[dst := dst]> src_dest_map) b
  end.

Definition reorder_batch_to_split_decodes_and_prefills (num_scheduled_tokens : gmap string Z) (decode_threshold : Z) (b : InputBatch) : result (bool * InputBatch) :=
  regions ← batch_regions decode_threshold num_scheduled_tokens b;
  let orig := orig_indices regions in
  match orig with
  | [] => Ok (false, b)
  | _ =>
      let src := src_indices regions in
      let src_dest_map : gmap nat nat := list_to_map (zip src orig) in
      x ← foldM (λ x s, dst ← of_option KeyError (x.1 !! s); swap_cycle (length src) s dst x.1 x.2) (src_dest_map, b) src;
      Ok (true, x.2)
  end.
