(* ===== verification/ModelRunner.v ===== *)
(** * Steps of the model runner ([v1/worker/gpu_model_runner.py])

    [_update_states] brings the cached states of requests and the persistent batch up to
    date with the output of the scheduler, and the tokens sampled in a step are recorded.

    Correspondence.  The worker is the last pipeline stage and does not run
    asynchronously, so [deferred_spec_decode_corrections] is empty and [prev_num_draft_len],
    which only that mode reads, is left out.  A state of a request
    is a mutable object that is registered in [requests]: [reqs_to_add] is the list of
    their ids.  The lists of output tokens are shared by states, rows and logits
    processors and are kept in [outputs].  Position encodings, encoder caches, the
    zeroing of blocks, drafts computed by n-grams on the GPU, the runner for late
    interaction and the updates a pooling model makes to its parameters are left out. *)

From Stdlib Require Import QArith Qcanon.
From stdpp Require Import sorting.
From S2P Require Import Prelude BlockTable LogitsProcs InputBatch.

Local Open Scope nat_scope.

(** ** The output of the scheduler *)

Record NewRequestData := mkNewRequestData {
  nd_req_id : string;
  nd_prompt_token_ids : option (list Z);
  nd_prompt_embeds : option Embeds;
  nd_prompt_is_token_ids : option (list bool);
  nd_sampling_params : option SamplerParams;
  nd_pooling_params : option PoolingInfo;
  nd_block_ids : list (list Z);
  nd_num_computed_tokens : Z;
  nd_lora_request : option LoRARequest;
}.
(** An entry of [CachedRequestData]. *)
Record CachedReq := mkCachedReq { cr_id : string; cr_num_computed_tokens : Z; cr_new_block_ids : option (list (list Z)); cr_num_output_tokens : nat }.

Record StepInput := mkStepInput {
  st_finished : list string;
  st_scheduled : gmap string Z;
  st_new : list NewRequestData;
  st_resumed : gset string;
  st_cached : list CachedReq;
  st_spec : gmap string (list Z);
}.

(** ** The state of the runner *)

Record Runner := mkRunner {
  requests : gmap string CachedRequestState;
  num_prompt_logprobs : gmap string Z;
  outputs : Outputs;
  input_batch : InputBatch;
}.
Definition with_batch (b : InputBatch) (r : Runner) : Runner := mkRunner (requests r) (num_prompt_logprobs r) (outputs r) b.
Definition with_request (id : string) (q : CachedRequestState) (o : Outputs) (r : Runner) : Runner :=
  mkRunner (<[id := q]> (requests r)) (num_prompt_logprobs r) o (input_batch r).

(** A list that is not in use. *)
Definition next_ref (o : Outputs) : Ref := S (foldr max 0 (fst <$> map_to_list o)).

(** ** Requests that leave the batch *)

Definition drop_request (b : InputBatch) (id : string) : result InputBatch := x ← remove_request id b; Ok x.2.
Definition pop_finished (r : Runner) (finished : list string) : Runner :=
  mkRunner (foldl (λ d id, delete id d) (requests r) finished) (foldl (λ d id, delete id d) (num_prompt_logprobs r) finished) (outputs r) (input_batch r).

Definition kept (st : StepInput) (id : string) : bool := bool_decide (is_Some (st_scheduled st !! id)) && negb (bool_decide (id ∈ st_resumed st)).
(** [cached_req_ids - (scheduled_req_ids - resumed_req_ids)] *)
Definition unscheduled_req_ids (st : StepInput) (b : InputBatch) : list string :=
  filter (λ id, kept st id = false) (fst <$> map_to_list (req_id_to_index b)).

(** ** New requests *)

Definition new_request_state (ref : Ref) (d : NewRequestData) : CachedRequestState :=
  let generator := match nd_sampling_params d with
    | Some p => if bool_decide (sampling_type p = RANDOM_SEED) then seed p else None
    | None => None
    end in
  mkCached (nd_req_id d) (nd_prompt_token_ids d) (nd_prompt_embeds d) (nd_prompt_is_token_ids d) (nd_sampling_params d) (nd_pooling_params d) generator
    (nd_block_ids d) (nd_num_computed_tokens d) ref (nd_lora_request d).

(** The next part of a streaming session.  Output tokens have become part of the prompt. *)
Definition streaming_state (d : NewRequestData) (q : CachedRequestState) : CachedRequestState :=
  mkCached (req_id q) (nd_prompt_token_ids d) (nd_prompt_embeds d) (prompt_is_token_ids q) (nd_sampling_params d) (nd_pooling_params d) (generator q)
    (nd_block_ids d) (nd_num_computed_tokens d) (output_token_ids q) (lora_request q).
Definition _update_streaming_request (d : NewRequestData) (q : CachedRequestState) (r : Runner) : result Runner :=
  b ← drop_request (input_batch r) (nd_req_id d);
  _ ← length_from_prompt_token_ids_or_embeds (nd_prompt_token_ids d) (nd_prompt_embeds d);
  Ok (with_request (nd_req_id d) (streaming_state d q) (<[output_token_ids q := []]> (outputs r)) (with_batch b r)).

Definition add_new (x : Runner * list string) (d : NewRequestData) : result (Runner * list string) :=
  let '(r, reqs_to_add) := x in
  match requests r !! nd_req_id d with
  | Some q => r ← _update_streaming_request d q r; Ok (r, reqs_to_add ++ [nd_req_id d])
  | None =>
      _ ← (if is_pooling_model (input_batch r) then assert_ (bool_decide (is_Some (nd_pooling_params d))) else Ok tt);
      _ ← length_from_prompt_token_ids_or_embeds (nd_prompt_token_ids d) (nd_prompt_embeds d);
      let ref := next_ref (outputs r) in
      let r := with_request (nd_req_id d) (new_request_state ref d) (<[ref := []]> (outputs r)) r in
      let r := match nd_sampling_params d ≫= prompt_logprobs with
        | Some n => mkRunner (requests r) (<[nd_req_id d := if (n =? -1)%Z then Z.of_nat (vocab_size (input_batch r)) else n]> (num_prompt_logprobs r)) (outputs r) (input_batch r)
        | None => r
        end in
      Ok (r, reqs_to_add ++ [nd_req_id d])
  end.

(** ** Requests that were running or are resumed *)

Definition set_progress (num_computed : Z) (ids : list (list Z)) (q : CachedRequestState) : CachedRequestState :=
  mkCached (req_id q) (prompt_token_ids q) (prompt_embeds q) (prompt_is_token_ids q) (sampling_params q) (pooling_params q) (generator q) ids num_computed (output_token_ids q) (lora_request q).

(** [for block_ids, new_ids in zip(req_state.block_ids, new_block_ids): block_ids.extend(new_ids)] *)
Definition extend_blocks (ids new_ids : list (list Z)) : list (list Z) := zip_with app ids new_ids ++ drop (length new_ids) ids.

Definition update_cached (st : StepInput) (x : Runner * list string) (c : CachedReq) : result (Runner * list string) :=
  let '(r, reqs_to_add) := x in
  req_state ← of_option KeyError (requests r !! cr_id c);
  let b := input_batch r in
  let req_index := req_id_to_index b !! cr_id c in
  let outs := default [] (outputs r !! output_token_ids req_state) in
  let n := cr_num_output_tokens c in
  '(o, b) ← (if bool_decide (n < length outs) then
      let o := <[output_token_ids req_state := take n outs]> (outputs r) in
      match req_index with
      | Some i => b ← on_cells i (λ c, Ok (cell_num_tokens_no_spec (num_prompt_tokens c + n) c)) b; Ok (o, b)
      | None => Ok (o, b)
      end
    else Ok (outputs r, b));
  ids ← (if bool_decide (cr_id c ∈ st_resumed st) then
           _ ← assert_ (bool_decide (req_index = None)); of_option AssertionError (cr_new_block_ids c)
         else Ok (match cr_new_block_ids c with Some new_ids => extend_blocks (block_ids req_state) new_ids | None => block_ids req_state end));
  let r := with_request (cr_id c) (set_progress (cr_num_computed_tokens c) ids req_state) o (with_batch b r) in
  match req_index with
  | None => Ok (r, reqs_to_add ++ [cr_id c])
  | Some i =>
      b ← on_cells i (λ x, Ok (cell_num_computed_tokens_cpu (cr_num_computed_tokens c) x)) b;
      bt ← (match cr_new_block_ids c with Some new_ids => multi_append_row new_ids i (block_table b) | None => Ok (block_table b) end);
      b ← update_req_spec_token_ids (cr_id c) (st_spec st) (ib_block_table bt b);
      Ok (with_batch b r, reqs_to_add)
  end.

(** ** A step *)

Definition add_to_batch (st : StepInput) (r : Runner) (id : string) : result Runner :=
  q ← of_option KeyError (requests r !! id);
  x ← add_request (outputs r) q (input_batch r);
  b ← update_req_spec_token_ids (req_id q) (st_spec st) x.2;
  Ok (with_batch b r).

(** Without groups of KV caches there is no threshold. *)
Definition may_reorder_batch (reorder_batch_threshold : option Z) (scheduled : gmap string Z) (b : InputBatch) : result InputBatch :=
  match reorder_batch_threshold with
  | Some threshold => y ← reorder_batch_to_split_decodes_and_prefills scheduled threshold b; Ok y.2
  | None => Ok b
  end.

Definition _update_states {S T} `{LogitsProcessor S} (init_entry : option (list Z) → Z → Ref → T) (reorder_batch_threshold : option Z) (st : StepInput)
    (r : Runner) (procs : S) (holder : option (gmap nat T)) (md : SamplingMetadata) : result (Runner * S * option (gmap nat T) * SamplingMetadata) :=
  let r := pop_finished r (st_finished st) in
  b ← foldM drop_request (input_batch r) (st_finished st);
  b ← foldM drop_request b (unscheduled_req_ids st b);
  x ← foldM add_new (with_batch b r, []) (st_new st);
  x ← foldM (update_cached st) x (st_cached st);
  r ← foldM (add_to_batch st) x.1 x.2;
  b ← condense (input_batch r);
  b ← may_reorder_batch reorder_batch_threshold (st_scheduled st) b;
  y ← refresh_metadata init_entry (outputs r) b procs holder md;
  let '(b, procs, holder, md) := y in
  Ok (with_batch b r, procs, holder, md).

(** ** Sampled tokens ([_bookkeeping_sync]) *)

Definition cache_row (max_model_len : nat) (r : Runner) (x : nat * list Z) : result Runner :=
  let '(req_idx, sampled_ids) := x in
  match sampled_ids with
  | [] => Ok r
  | _ =>
      let b := input_batch r in
      c ← of_option IndexError (cells b !! req_idx);
      let start_idx := num_tokens_no_spec c in
      let end_idx := start_idx + length sampled_ids in
      _ ← assert_ (bool_decide (end_idx ≤ max_model_len));
      tokens ← write_slice (token_ids_cpu c) start_idx sampled_ids;
      let c := cell_num_tokens_no_spec end_idx (cell_is_token_ids (fill_slice (is_token_ids c) start_idx end_idx true) (cell_token_ids_cpu tokens c)) in
      let b := ib_cells (<[req_idx := c]> (cells b)) b in
      id ← of_option IndexError (_req_ids b !! req_idx);
      id ← of_option KeyError id;
      q ← of_option KeyError (requests r !! id);
      Ok (mkRunner (requests r) (num_prompt_logprobs r) (<[output_token_ids q := default [] (outputs r !! output_token_ids q) ++ sampled_ids]> (outputs r)) b)
  end.
Definition cache_sampled (max_model_len : nat) (sampled : list (list Z)) (r : Runner) : result Runner :=
  foldM (cache_row max_model_len) r (imap pair sampled).
