(* ===== verification/BatchInv.v ===== *)
(** * Rows of the batch belong to their requests

    The invariant of the persistent batch between and during the steps, and what each
    operation does to the row of every request. *)

From Stdlib Require Import QArith Qcanon.
From stdpp Require Import sorting.
From S2P Require Import Prelude BlockTable LogitsProcs InputBatch.

Local Open Scope nat_scope.

(** ** Holes *)

#[export] Instance desc_total : Total desc.
Proof. intros x y. unfold desc. lia. Qed.
#[export] Instance desc_trans : Transitive desc.
Proof. intros x y z. unfold desc. lia. Qed.

Record builder_ok (c : BatchUpdateBuilder) : Prop := {
  bk_nodup : NoDup (_removed c);
  bk_sorted : _is_removed_sorted c = true → StronglySorted desc (_removed c);
}.

Lemma ensure_sorted_ok c : builder_ok c →
  let c' := _ensure_removed_sorted c in builder_ok c' ∧ _removed c' ≡ₚ _removed c ∧ _is_removed_sorted c' = true ∧ added c' = added c ∧ moved c' = moved c.
Proof.
  intros [H1 H2]. unfold _ensure_removed_sorted. destruct (_is_removed_sorted c) eqn:E; cbn; [split; [split; auto|]; auto|].
  pose proof (merge_sort_Permutation desc (_removed c)) as Hp. split; [split; cbn; [by rewrite Hp|]|done]. intros _. eapply StronglySorted_merge_sort; apply _.
Qed.

Lemma sorted_snoc_min l x : StronglySorted desc (l ++ [x]) → ∀ y, y ∈ l → x ≤ y.
Proof.
  induction l as [|z l IH]; cbn; intros Hs y Hy; [by apply not_elem_of_nil in Hy|]. inversion Hs as [|? ? Hs' Hf]; subst.
  apply elem_of_cons in Hy as [->|Hy]; [|by apply IH]. apply Forall_app in Hf as [_ Hf]. inversion Hf; subst. done.
Qed.
Lemma sorted_snoc_init l x : StronglySorted desc (l ++ [x]) → StronglySorted desc l.
Proof. intros H. eapply StronglySorted_app_1_l. exact H. Qed.

(** The least hole, and the remaining ones. *)
Lemma pop_removed_ok c : builder_ok c → _removed c ≠ [] →
  ∃ i c', pop_removed c = (Some i, c') ∧ _removed c ≡ₚ i :: _removed c' ∧ (∀ j, j ∈ _removed c' → i < j) ∧ builder_ok c' ∧ added c' = added c ∧ moved c' = moved c ∧
    peek_removed c = (Some i, _ensure_removed_sorted c).
Proof.
  intros Hc Hne. destruct (ensure_sorted_ok c Hc) as ([Hnd Hs] & Hp & Hf & Ha & Hm). specialize (Hs Hf). unfold pop_removed, peek_removed, has_removed.
  destruct (exists_last (l := _removed (_ensure_removed_sorted c))) as (l & x & E).
  { intros E. rewrite E in Hp. by apply Permutation_nil_l in Hp. }
  destruct (_removed c) eqn:Er; [done|]. rewrite <- Er in *. rewrite E in *. rewrite last_snoc, removelast_last.
  exists x, (mkBuilder l (_is_removed_sorted (_ensure_removed_sorted c)) (added (_ensure_removed_sorted c)) (moved (_ensure_removed_sorted c)) (batch_changed (_ensure_removed_sorted c))).
  cbn. apply NoDup_app in Hnd as (Hl & Hx & _). repeat split; auto.
  - rewrite <- Hp, Permutation_app_comm. done.
  - intros j Hj. pose proof (sorted_snoc_min l x Hs j Hj). assert (j ≠ x); [|lia]. intros ->. apply (Hx x Hj). by left.
  - intros _. by eapply sorted_snoc_init.
Qed.
Lemma ensure_sorted_idemp c : _ensure_removed_sorted (_ensure_removed_sorted c) = _ensure_removed_sorted c.
Proof. unfold _ensure_removed_sorted. destruct (_is_removed_sorted c) eqn:E; cbn; by rewrite ?E. Qed.
Lemma pop_ensure_sorted c : builder_ok c → _removed c ≠ [] → pop_removed (_ensure_removed_sorted c) = pop_removed c.
Proof.
  intros Hc Hne. destruct (ensure_sorted_ok c Hc) as (_ & Hp & _). unfold pop_removed. rewrite ensure_sorted_idemp.
  assert (has_removed (_ensure_removed_sorted c) = true) as ->.
  { unfold has_removed. destruct (_removed (_ensure_removed_sorted c)); [|done]. by apply Permutation_nil_l in Hp. }
  unfold has_removed. by destruct (_removed c).
Qed.
Lemma pop_removed_none c : _removed c = [] → pop_removed c = (None, c).
Proof. intros H. unfold pop_removed, has_removed. by rewrite H. Qed.

(** ** What a row holds *)

(** The cells of a row without its tokens and without the flag of pooling models. *)
Definition scalars (c : Cells) : Cells := cell_token_ids_cpu [] (cell_is_token_ids [] (cell_logits_processing_needs_token_ids false c)).

Record View := mkView {
  v_output : Ref;
  v_spec : list Z;
  v_tokens : list Z;
  v_is_token : list bool;
  v_scalars : Cells;
  v_blocks : list (option (list Z));
  v_generator : option Z;
  v_bad_words : option (list (list Z));
}.

Definition row_view (b : InputBatch) (i : nat) : option View :=
  out ← mjoin (req_output_token_ids b !! i);
  spec ← spec_token_ids b !! i;
  c ← cells b !! i;
  let n := num_tokens_no_spec c + length spec in
  Some (mkView out spec (take n (token_ids_cpu c)) (take n (is_token_ids c)) (scalars c) (multi_blocks (block_table b) i) (generators b !! i) (bad_words b !! i)).

(** What the batch holds for a request. *)
Definition view (b : InputBatch) (r : string) : option View := i ← req_id_to_index b !! r; row_view b i.

(** The request in a row. *)
Definition occupant (b : InputBatch) (i : nat) : option string := mjoin (_req_ids b !! i).

Section Invariant.
Context (N L V : nat) (Ws : list nat) (T0 : MultiGroupBlockTable).
Implicit Types (b : InputBatch) (i j : nat) (r : string).

(** What holds also while rows are moved. *)
Record batch_core b : Prop := {
  bo_gen : is_pooling_model b = false;
  bo_max : max_num_reqs b = N;
  bo_vocab : vocab_size b = V;
  bo_cells : length (cells b) = N;
  bo_width : Forall (λ c, length (token_ids_cpu c) = L ∧ length (is_token_ids c) = L) (cells b);
  bo_tables : tables_ok N Ws (block_table b);
  bo_same : Forall2 same_table T0 (block_table b);
  bo_len : length (_req_ids b) ≤ N;
  bo_outs : length (req_output_token_ids b) = length (_req_ids b);
  bo_specs : length (_req_ids b) ≤ length (spec_token_ids b);
  bo_index r i : req_id_to_index b !! r = Some i ↔ _req_ids b !! i = Some (Some r);
  bo_live i r : _req_ids b !! i = Some (Some r) → ∃ out spec c, req_output_token_ids b !! i = Some (Some out) ∧ spec_token_ids b !! i = Some spec ∧ cells b !! i = Some c;
  bo_tail i spec : length (_req_ids b) ≤ i → spec_token_ids b !! i = Some spec → spec = [];
  bo_builder : builder_ok (batch_update_builder b);
  bo_generators i g : generators b !! i = Some g → ∃ r, _req_ids b !! i = Some (Some r);
  bo_bad_words i w : bad_words b !! i = Some w → ∃ r, _req_ids b !! i = Some (Some r);
  bo_mask m : allowed_token_ids_mask_cpu_tensor b = Some m → length m = N;
}.
(** Between the operations, the rows without request are those that wait to be filled. *)
Record batch_ok b : Prop := {
  bo_core :> batch_core b;
  bo_holes i : i ∈ _removed (batch_update_builder b) ↔ _req_ids b !! i = Some None;
  bo_count : num_reqs b + length (_removed (batch_update_builder b)) = length (_req_ids b);
}.

Lemma live_bound b i r : batch_core b → _req_ids b !! i = Some (Some r) → i < N.
Proof. intros Hb Hi%lookup_lt_Some. pose proof (bo_len b Hb). lia. Qed.

Lemma view_live b i r : batch_core b → _req_ids b !! i = Some (Some r) → view b r = row_view b i.
Proof. intros Hb Hi. unfold view. by rewrite (proj2 (bo_index b Hb r i) Hi). Qed.
Lemma view_dead b r : batch_core b → (∀ i, _req_ids b !! i ≠ Some (Some r)) → view b r = None.
Proof. intros Hb Hr. unfold view. destruct (req_id_to_index b !! r) as [i|] eqn:E; [|done]. apply (bo_index b Hb) in E. by apply Hr in E. Qed.
Lemma row_view_live b i r : batch_core b → _req_ids b !! i = Some (Some r) → is_Some (row_view b i).
Proof. intros Hb Hi. destruct (bo_live b Hb i r Hi) as (out & spec & c & H1 & H2 & H3). unfold row_view. rewrite H1, H2, H3. cbn. eauto. Qed.
Lemma live_unique b i j r : batch_core b → _req_ids b !! i = Some (Some r) → _req_ids b !! j = Some (Some r) → i = j.
Proof. intros Hb Hi Hj. apply (bo_index b Hb) in Hi. apply (bo_index b Hb) in Hj. congruence. Qed.
Lemma cells_get b i : batch_core b → i < N → ∃ c, cells b !! i = Some c ∧ length (token_ids_cpu c) = L ∧ length (is_token_ids c) = L.
Proof.
  intros Hb Hi. destruct (lookup_lt_is_Some_2 (cells b) i) as [c Hc]; [by rewrite (bo_cells b Hb)|]. exists c. split; [done|]. apply (Forall_lookup_1 _ _ _ _ (bo_width b Hb) Hc).
Qed.

(** Views that agree on the rows agree on the requests. *)
Lemma view_ext b b' r : batch_core b → batch_core b' → (∀ i, _req_ids b !! i = Some (Some r) ↔ _req_ids b' !! i = Some (Some r)) →
  (∀ i, _req_ids b !! i = Some (Some r) → row_view b' i = row_view b i) → view b' r = view b r.
Proof.
  intros Hb Hb' Hid Hrow. destruct (req_id_to_index b !! r) as [i|] eqn:E.
  - apply (bo_index b Hb) in E. rewrite (view_live b i r), (view_live b' i r); [by apply Hrow|done|by apply Hid|done|done].
  - rewrite !view_dead; [done|done| |done|]; intros i Hi; [|apply Hid in Hi]; apply (bo_index b Hb) in Hi; congruence.
Qed.

Lemma list_set_ok {A} i (x : A) l : i < length l → list_set i x l = Ok (<[i := x]> l).
Proof. intros. unfold list_set. by rewrite bool_decide_true. Qed.

(** ** Summaries by request id *)

(** The requests of the batch whose cells have a property. *)
Definition flagged b (P : Cells → Prop) r : Prop := ∃ v, view b r = Some v ∧ P (v_scalars v).
Definition flag_ok b (s : gset string) (P : Cells → Prop) : Prop := ∀ r, r ∈ s ↔ flagged b P r.
Definition lora_of b r : Z := from_option (request_lora_mapping ∘ v_scalars) 0%Z (view b r).

Record lora_ok (lids : gmap Z (gset string)) (lreqs : gmap Z LoRARequest) (lora : string → Z) : Prop := {
  lo_ids id r : r ∈ default ∅ (lids !! id) ↔ lora r = id ∧ id ≠ 0%Z;
  lo_nonempty id s : lids !! id = Some s → s ≠ ∅;
  lo_reqs id : is_Some (lids !! id) ↔ is_Some (lreqs !! id);
}.

Record summary_ok b : Prop := {
  so_greedy : flag_ok b (greedy_reqs (req_sets b)) (λ c, temperature_cpu c = 0%Qc);
  so_random : flag_ok b (random_reqs (req_sets b)) (λ c, temperature_cpu c ≠ 0%Qc);
  so_top_p : flag_ok b (top_p_reqs (req_sets b)) (λ c, (top_p_cpu c < 1)%Qc);
  so_top_k : flag_ok b (top_k_reqs (req_sets b)) (λ c, (top_k_cpu c ≠ Z.of_nat V)%Z);
  so_frequency : flag_ok b (frequency_penalties_reqs (req_sets b)) (λ c, frequency_penalties_cpu c ≠ 0%Qc);
  so_presence : flag_ok b (presence_penalties_reqs (req_sets b)) (λ c, presence_penalties_cpu c ≠ 0%Qc);
  so_repetition : flag_ok b (repetition_penalties_reqs (req_sets b)) (λ c, repetition_penalties_cpu c ≠ 1%Qc);
  so_lora : lora_ok (lora_id_to_request_ids b) (lora_id_to_lora_request b) (lora_of b);
  so_mask : has_allowed_token_ids (req_sets b) ≠ ∅ → is_Some (allowed_token_ids_mask_cpu_tensor b);
}.

Lemma summary_ext b b' : summary_ok b → (∀ r, view b' r = view b r) → req_sets b' = req_sets b → lora_id_to_request_ids b' = lora_id_to_request_ids b →
  lora_id_to_lora_request b' = lora_id_to_lora_request b →
  (is_Some (allowed_token_ids_mask_cpu_tensor b) → is_Some (allowed_token_ids_mask_cpu_tensor b')) → summary_ok b'.
Proof.
  intros [H1 H2 H3 H4 H5 H6 H7 [L1 L2 L3] H8] Hv E1 E2 E3 E4.
  assert (∀ s P, flag_ok b s P → flag_ok b' s P) as Hf by (intros s P H r; unfold flagged; by rewrite Hv).
  split; rewrite ?E1, ?E2, ?E3; auto. split; [|done|done]. intros id r. unfold lora_of. rewrite Hv. apply L1.
Qed.

Lemma flag_remove b b' s P r : flag_ok b s P → (∀ r', view b' r' = if decide (r' = r) then None else view b r') → flag_ok b' (s ∖ {[r]}) P.
Proof.
  intros H Hv r'. rewrite elem_of_difference, elem_of_singleton, (H r'). unfold flagged. rewrite Hv. destruct (decide (r' = r)); [naive_solver|]. tauto.
Qed.
Lemma flag_add b b' s P r v (t : bool) : flag_ok b s P → view b r = None → (∀ r', view b' r' = if decide (r' = r) then Some v else view b r') → (t = true ↔ P (v_scalars v)) →
  flag_ok b' (set_if t r s) P.
Proof.
  intros H Hn Hv Ht r'. assert (r' ∈ set_if t r s ↔ (r' = r ∧ t = true) ∨ r' ∈ s) as ->.
  { unfold set_if. destruct t; [rewrite elem_of_union, elem_of_singleton; naive_solver|naive_solver]. }
  rewrite (H r'). unfold flagged. rewrite Hv. destruct (decide (r' = r)) as [->|]; [|naive_solver]. rewrite Hn. naive_solver.
Qed.

Lemma lora_remove lids lreqs lora r : lora_ok lids lreqs lora →
  lora r = 0%Z ∨ ∃ s, lids !! lora r = Some s ∧ is_Some (lreqs !! lora r) ∧
    let lora' r' := if decide (r' = r) then 0%Z else lora r' in
    if decide (s ∖ {[r]} = ∅) then lora_ok (delete (lora r) lids) (delete (lora r) lreqs) lora' else lora_ok (<[lora r := s ∖ {[r]}]> lids) lreqs lora'.
Proof.
  intros [H1 H2 H3]. destruct (decide (lora r = 0%Z)) as [|Hz]; [by left|right].
  assert (r ∈ default ∅ (lids !! lora r)) as Hr by by apply H1. destruct (lids !! lora r) as [s|] eqn:E; cbn in Hr; [|set_solver].
  exists s. split; [done|]. split; [apply H3; by rewrite E|]. cbn zeta. destruct (decide (s ∖ {[r]} = ∅)) as [He|He].
  - split.
    + intros id r'. destruct (decide (id = lora r)) as [->|Hid].
      * rewrite lookup_delete_eq. cbn. split; [set_solver|]. intros [Hl _]. destruct (decide (r' = r)) as [->|Hne]; [congruence|].
        assert (r' ∈ s) by (change (r' ∈ default ∅ (Some s)); rewrite <- E; by apply H1). set_solver.
      * rewrite lookup_delete_ne by done. rewrite H1. destruct (decide (r' = r)) as [->|]; naive_solver.
    + intros id s' [_ Hs]%lookup_delete_Some. by eapply H2.
    + intros id. rewrite !lookup_delete_is_Some. by rewrite H3.
  - split.
    + intros id r'. destruct (decide (id = lora r)) as [->|Hid].
      * rewrite lookup_insert_eq. cbn. rewrite elem_of_difference, elem_of_singleton.
        assert (r' ∈ s ↔ lora r' = lora r ∧ lora r ≠ 0%Z) as -> by (change (r' ∈ default ∅ (Some s) ↔ lora r' = lora r ∧ lora r ≠ 0%Z); rewrite <- E; apply H1).
        destruct (decide (r' = r)) as [->|]; naive_solver.
      * rewrite lookup_insert_ne by done. rewrite H1. destruct (decide (r' = r)) as [->|]; naive_solver.
    + intros id s' [[<- <-]|[_ Hs]]%lookup_insert_Some; [done|by eapply H2].
    + intros id. rewrite lookup_insert_is_Some. destruct (decide (id = lora r)) as [->|]; [|naive_solver]. rewrite <- H3, E. naive_solver.
Qed.
Lemma lora_add lids lreqs lora r l : lora_ok lids lreqs lora → lora r = 0%Z → lora_int_id l ≠ 0%Z →
  lora_ok (<[lora_int_id l := {[r]} ∪ default ∅ (lids !! lora_int_id l)]> lids) (<[lora_int_id l := l]> lreqs) (λ r', if decide (r' = r) then lora_int_id l else lora r').
Proof.
  intros [H1 H2 H3] Hr Hl. split.
  - intros id r'. destruct (decide (id = lora_int_id l)) as [->|Hid].
    + rewrite lookup_insert_eq. cbn. rewrite elem_of_union, elem_of_singleton, H1. destruct (decide (r' = r)) as [->|]; naive_solver.
    + rewrite lookup_insert_ne by done. rewrite H1. destruct (decide (r' = r)) as [->|]; naive_solver.
  - intros id s [[<- <-]|[_ Hs]]%lookup_insert_Some; [set_solver|by eapply H2].
  - intros id. rewrite !lookup_insert_is_Some. by rewrite H3.
Qed.
End Invariant.
