(* ===== verification/BatchOps.v ===== *)
(** * Adding, removing, moving and swapping requests *)

From Stdlib Require Import QArith Qcanon.
From stdpp Require Import sorting.
From S2P Require Import Prelude BlockTable LogitsProcs InputBatch BatchInv.

Local Open Scope nat_scope.

Section Ops.
Context (N L V : nat) (Ws : list nat) (T0 : MultiGroupBlockTable).
Implicit Types (b : InputBatch) (i j : nat) (r : string).
Notation batch_ok := (batch_ok N L V Ws T0).
Notation batch_core := (batch_core N L V Ws T0).
Notation summary_ok := (summary_ok V).

(** Rows other than one. *)
Lemma row_view_frame b b' j : req_output_token_ids b' !! j = req_output_token_ids b !! j → spec_token_ids b' !! j = spec_token_ids b !! j → cells b' !! j = cells b !! j →
  multi_blocks (block_table b') j = multi_blocks (block_table b) j → generators b' !! j = generators b !! j → bad_words b' !! j = bad_words b !! j → row_view b' j = row_view b j.
Proof. intros E1 E2 E3 E4 E5 E6. unfold row_view. by rewrite E1, E2, E3, E4, E5, E6. Qed.

(** ** Removing *)

Lemma remove_lora_ok b i r c (lora : string → Z) : cells b !! i = Some c → lora_ok (lora_id_to_request_ids b) (lora_id_to_lora_request b) lora → lora r = request_lora_mapping c →
  ∃ lids lreqs c', remove_lora i r b = Ok (ib_cells (<[i := c']> (cells b)) (ib_lora_id_to_lora_request lreqs (ib_lora_id_to_request_ids lids b))) ∧
    lora_ok lids lreqs (λ r', if decide (r' = r) then 0%Z else lora r') ∧ token_ids_cpu c' = token_ids_cpu c ∧ is_token_ids c' = is_token_ids c.
Proof.
  intros Hc Hl Er. unfold remove_lora. rewrite Hc. cbn [of_option]. rewrite bind_ret. destruct (Z.eqb_spec (request_lora_mapping c) 0) as [Hz|Hz].
  - exists (lora_id_to_request_ids b), (lora_id_to_lora_request b), c. rewrite list_insert_id by done. split; [by destruct b|]. split; [|done].
    destruct Hl as [H1 H2 H3]. split; [|done|done]. intros id r'. rewrite H1. destruct (decide (r' = r)) as [->|]; [by rewrite Er, Hz|done].
  - destruct (lora_remove _ _ _ r Hl) as [|(s & Hs & [l Hlr] & Hok)]; [congruence|]. rewrite Er in *. cbn zeta in Hok. rewrite Hs. cbn [of_option]. rewrite bind_ret.
    destruct (decide (s ∖ {[r]} = ∅)) as [He|He].
    + rewrite bool_decide_true by done. rewrite Hlr. cbn [of_option]. rewrite !bind_ret. unfold on_cells. cbn. rewrite Hc. cbn. by eexists _, _, _.
    + rewrite bool_decide_false by done. rewrite bind_ret. unfold on_cells. cbn. rewrite Hc. cbn. exists (<[request_lora_mapping c := s ∖ {[r]}]> (lora_id_to_request_ids b)), (lora_id_to_lora_request b). by eexists.
Qed.

Lemma remove_unknown b r : req_id_to_index b !! r = None → remove_request r b = Ok (None, b).
Proof. intros E. unfold remove_request. by rewrite E. Qed.

Lemma remove_request_ok b r i : batch_ok b → summary_ok b → _is_removed_sorted (batch_update_builder b) = false → req_id_to_index b !! r = Some i →
  ∃ b', remove_request r b = Ok (Some i, b') ∧ batch_ok b' ∧ summary_ok b' ∧ (∀ r', view b' r' = if decide (r' = r) then None else view b r') ∧
    (∀ j, occupant b' j = if decide (j = i) then None else occupant b j) ∧ req_id_to_index b' = delete r (req_id_to_index b) ∧
    batch_update_builder b' = mkBuilder (_removed (batch_update_builder b) ++ [i]) false (added (batch_update_builder b)) (moved (batch_update_builder b)) true.
Proof.
  intros Hb Hs Hun Hr. pose proof (proj1 (bo_index _ _ _ _ _ b Hb r i) Hr) as Hi. pose proof (live_bound _ _ _ _ _ b i r Hb Hi) as HiN.
  destruct (bo_live _ _ _ _ _ b Hb i r Hi) as (out & spec & c & Hout & Hspec & Hc).
  assert (lora_of b r = request_lora_mapping c) as Hlora.
  { unfold lora_of. rewrite (view_live _ _ _ _ _ b i r Hb Hi). unfold row_view. by rewrite Hout, Hspec, Hc. }
  unfold remove_request. rewrite Hr. unfold removed_append. cbn [batch_update_builder ib_req_id_to_index]. rewrite Hun, bind_ret.
  cbn [_req_ids req_output_token_ids spec_token_ids block_table ib_batch_update_builder ib_req_id_to_index].
  rewrite (list_set_ok i None (_req_ids b)), bind_ret, (list_set_ok i None (req_output_token_ids b)), bind_ret, (list_set_ok i [] (spec_token_ids b)), bind_ret
    by (by eapply lookup_lt_Some). cbn [block_table ib_spec_token_ids ib_req_output_token_ids ib_req_ids ib_batch_update_builder ib_req_id_to_index].
  destruct (multi_clear_row_ok N Ws (block_table b) i (bo_tables _ _ _ _ _ b Hb) HiN) as (bt & -> & Hbt & Hsame & Hblocks). rewrite bind_ret.
  match goal with |- context [remove_lora i r ?b1] => destruct (remove_lora_ok b1 i r c (lora_of b) Hc (so_lora _ b Hs) Hlora) as (lids & lreqs & c' & -> & Hlo & Et1 & Et2) end.
  rewrite bind_ret. cbn. rewrite (bo_gen _ _ _ _ _ b Hb). eexists. split; [done|].
  match goal with |- batch_ok ?b1 ∧ _ => set (b' := b1) end.
  assert (∀ j s, <[i := None]> (_req_ids b) !! j = Some (Some s) ↔ j ≠ i ∧ _req_ids b !! j = Some (Some s)) as Hids.
  { intros j s. destruct (decide (j = i)) as [->|]; [|rewrite list_lookup_insert_ne by done; tauto].
    rewrite list_lookup_insert_eq by (by eapply lookup_lt_Some). naive_solver. }
  assert (∀ j, j ≠ i → row_view b' j = row_view b j) as Hrow.
  { intros j Hj. apply row_view_frame; cbn; [by rewrite list_lookup_insert_ne|by rewrite list_lookup_insert_ne|by rewrite list_lookup_insert_ne|by apply Hblocks|by rewrite lookup_delete_ne|by rewrite lookup_delete_ne]. }
  assert (batch_ok b') as Hb'.
  { destruct Hb as [[B1 B2 B3 B4 B5 B6 Bsame B7 B8 B9 B10 B11 B12 B13 B16 B17 B18] B14 B15]. split; [split|..]; cbn; rewrite ?length_insert; try done.
    - apply Forall_insert; [done|]. rewrite Et1, Et2. apply (Forall_lookup_1 _ _ _ _ B5 Hc).
    - by eapply same_tables_trans.
    - intros s j. rewrite Hids, <- B10. rewrite lookup_delete_Some. split; intros [Hne Hs']; (split; [|done]); [|congruence]. intros ->. apply B10 in Hs'. congruence.
    - intros j s Hj. apply Hids in Hj as [Hne Hj]. destruct (B11 j s Hj) as (? & ? & ? & ? & ? & ?). rewrite !list_lookup_insert_ne by done. by eexists _, _, _.
    - intros j spec' Hj Hsp. destruct (decide (j = i)) as [->|]; [apply lookup_lt_Some in Hi; lia|]. rewrite list_lookup_insert_ne in Hsp by done. by eapply B12.
    - destruct B13 as [D1 D2]. split; cbn; [|done]. apply NoDup_app. split; [done|]. split; [|apply NoDup_singleton].
      intros x Hx ->%list_elem_of_singleton. apply B14 in Hx. congruence.
    - intros j g [Hne Hg]%lookup_delete_Some. destruct (B16 j g Hg) as [s Hs']. exists s. by rewrite list_lookup_insert_ne.
    - intros j w [Hne Hg]%lookup_delete_Some. destruct (B17 j w Hg) as [s Hs']. exists s. by rewrite list_lookup_insert_ne.
    - intros m. destruct (allowed_token_ids_mask_cpu_tensor b) as [m'|] eqn:E; [|done]. cbn. intros [= <-]. rewrite length_alter. by apply B18.
    - intros j. rewrite elem_of_app, list_elem_of_singleton, B14. destruct (decide (j = i)) as [->|]; [|rewrite list_lookup_insert_ne by done; tauto].
      rewrite list_lookup_insert_eq by (by eapply lookup_lt_Some). tauto.
    - unfold num_reqs in *. cbn. rewrite map_size_delete, Hr. rewrite length_app. cbn. apply lookup_lt_Some in Hi.
      assert (size (req_id_to_index b) ≠ 0); [|lia]. intros Hz%map_size_empty_inv. by rewrite Hz in Hr. }
  assert (∀ r', view b' r' = if decide (r' = r) then None else view b r') as Hv.
  { intros r'. destruct (decide (r' = r)) as [->|Hne].
    - apply (view_dead N L V Ws T0); [apply Hb'|]. intros j [Hj Hl]%Hids. apply Hj. by apply (live_unique _ _ _ _ _ b j i r Hb).
    - apply (view_ext N L V Ws T0); [apply Hb|apply Hb'| |].
      + intros j. cbn. rewrite Hids. split; [|tauto]. intros Hj. split; [|done]. intros ->. congruence.
      + intros j Hj. apply Hrow. intros ->. congruence. }
  split; [done|]. split; [|split; [done|split; [|split; [done|done]]]].
  - destruct Hs as [S1 S2 S3 S4 S5 S6 S7 S8 S9]. split; try (cbn; by eapply flag_remove); cbn.
    2: { intros Hne. rewrite fmap_is_Some. apply S9. intros E. apply Hne. rewrite E. set_solver. }
    destruct Hlo as [L1 L2 L3]. split; [|done|done]. intros id r'. rewrite L1. unfold lora_of at 2. rewrite Hv. by destruct (decide (r' = r)).
  - intros j. unfold occupant. cbn. destruct (decide (j = i)) as [->|]; [by rewrite list_lookup_insert_eq by (by eapply lookup_lt_Some)|by rewrite list_lookup_insert_ne].
Qed.

(** ** Adding *)

Lemma register_ok b request p : batch_ok b → num_reqs b < N → sampling_params request = Some p →
  ∃ i c', _register_add_request request b = Ok (i, ib_batch_update_builder c' b) ∧ i < N ∧
    (_removed (batch_update_builder b) = [] ∧ i = length (_req_ids b) ∧ _removed c' = [] ∨
     i < length (_req_ids b) ∧ _removed (batch_update_builder b) ≡ₚ i :: _removed c') ∧
    builder_ok c' ∧ moved c' = moved (batch_update_builder b) ∧
    added c' = added (batch_update_builder b) ++ [mkAdded i p (prompt_token_ids request) (output_token_ids request)].
Proof.
  intros Hb Hn Hp. unfold _register_add_request. rewrite Hp, (bo_max _ _ _ _ _ b Hb). pose proof (bo_count _ _ _ _ _ b Hb) as Hcount.
  destruct (decide (_removed (batch_update_builder b) = [])) as [He|He].
  - rewrite (pop_removed_none _ He). rewrite bool_decide_true by done. cbn [require]. rewrite bind_ret. eexists _, _. split; [done|]. rewrite He in Hcount. cbn in *.
    split; [lia|]. split; [left; split; [done|]; split; [lia|done]|]. split; [|done]. destruct (bo_builder _ _ _ _ _ b Hb) as [D1 D2]. by split.
  - destruct (pop_removed_ok _ (bo_builder _ _ _ _ _ b Hb) He) as (i & c' & -> & Hperm & _ & [D1 D2] & Ha & Hm & _).
    assert (i < length (_req_ids b)) as Hi.
    { assert (i ∈ _removed (batch_update_builder b)) as Hin by (rewrite Hperm; by left). apply (bo_holes _ _ _ _ _ b Hb) in Hin. by eapply lookup_lt_Some. }
    pose proof (bo_len _ _ _ _ _ b Hb). rewrite bool_decide_true by lia. cbn [require]. rewrite bind_ret. eexists _, _. split; [done|]. split; [lia|]. split; [by right|]. cbn.
    rewrite Ha, Hm. split; [by split|done].
Qed.

(** [l[i] = x], or [l.append(x)] when [i = len(l)]. *)
Definition list_put {A} i (x : A) (l : list A) : list A := if bool_decide (i = length l) then l ++ [x] else <[i := x]> l.
Lemma lookup_list_put {A} i (x : A) l j : i ≤ length l → list_put i x l !! j = if decide (j = i) then Some x else l !! j.
Proof.
  intros Hi. unfold list_put. case_bool_decide as E.
  - subst i. destruct (decide (j = length l)) as [->|Hj]; [by rewrite list_lookup_middle|]. destruct (decide (j < length l)); [by rewrite lookup_app_l|].
    rewrite !lookup_ge_None_2; [done|lia|rewrite length_app; cbn; lia].
  - destruct (decide (j = i)) as [->|]; [rewrite list_lookup_insert_eq by lia; done|by rewrite list_lookup_insert_ne].
Qed.
Lemma length_list_put {A} i (x : A) l : i ≤ length l → length (list_put i x l) = max (length l) (S i).
Proof. intros Hi. unfold list_put. case_bool_decide; [rewrite length_app; cbn; lia|rewrite length_insert; lia]. Qed.

Lemma add_to_lists_ok b c i id out : batch_ok b → i ≤ length (_req_ids b) →
  ∃ specs, add_to_lists i id out (ib_batch_update_builder c b) = Ok (ib_spec_token_ids specs (ib_req_output_token_ids (list_put i (Some out) (req_output_token_ids b))
      (ib_req_ids (list_put i (Some id) (_req_ids b)) (ib_batch_update_builder c b)))) ∧
    max (length (_req_ids b)) (S i) ≤ length specs ∧ specs !! i = Some [] ∧ (∀ j, j < length (_req_ids b) → j ≠ i → specs !! j = spec_token_ids b !! j) ∧
    (∀ j s, max (length (_req_ids b)) (S i) ≤ j → specs !! j = Some s → s = []).
Proof.
  intros Hb Hi. pose proof (bo_outs _ _ _ _ _ b Hb) as Ho. pose proof (bo_specs _ _ _ _ _ b Hb) as Hsp. pose proof (bo_tail _ _ _ _ _ b Hb) as Ht.
  unfold add_to_lists, list_put. cbn [_req_ids req_output_token_ids spec_token_ids ib_batch_update_builder]. rewrite Ho. case_bool_decide as E.
  - eexists. split; [done|]. subst i. rewrite length_app. cbn. split; [lia|]. split; [|split].
    + destruct (decide (length (_req_ids b) = length (spec_token_ids b))) as [E'|E']; [rewrite E'; by rewrite list_lookup_middle|].
      rewrite lookup_app_l by lia. destruct (lookup_lt_is_Some_2 (spec_token_ids b) (length (_req_ids b))) as [s' Hs']; [lia|]. rewrite Hs'. f_equal. by apply (Ht (length (_req_ids b))).
    + intros j Hj _. by rewrite lookup_app_l by lia.
    + intros j s' Hj [Hs'|[? Hs']]%lookup_app_Some; [apply (Ht j); [lia|done]|]. by apply list_lookup_singleton_Some in Hs' as [_ <-].
  - rewrite (list_set_ok i (Some id) (_req_ids b)), bind_ret, (list_set_ok i (Some out) (req_output_token_ids b)), bind_ret, (list_set_ok i [] (spec_token_ids b)), bind_ret by lia.
    eexists. split; [done|]. rewrite length_insert. split; [lia|]. split; [by rewrite list_lookup_insert_eq by lia|]. split.
    + intros j _ Hj. by rewrite list_lookup_insert_ne.
    + intros j s' Hj. rewrite list_lookup_insert_ne by lia. apply Ht. lia.
Qed.

Lemma on_cells_ok b i f c c' : cells b !! i = Some c → f c = Ok c' → on_cells i f b = Ok (ib_cells (<[i := c']> (cells b)) b).
Proof. intros Hc Hf. unfold on_cells. rewrite Hc. cbn. by rewrite Hf. Qed.

(** A request that the batch can take: its prompt is given by token ids, it fits the
    rows, and its parameters are valid. *)
Record request_ok (outputs : Outputs) (request : CachedRequestState) (p : SamplerParams) (prompt : list Z) : Prop := {
  rq_params : sampling_params request = Some p;
  rq_prompt : prompt_token_ids request = Some prompt;
  rq_embeds e : prompt_embeds request = Some e → embeds_len e = length prompt;
  rq_mask m : prompt_is_token_ids request = Some m → length m = length prompt;
  rq_len : length prompt + length (default [] (outputs !! output_token_ids request)) ≤ L;
  rq_blocks : ids_fit Ws T0 (block_ids request);
  rq_allowed : Forall (λ t, t < V) (allowed_token_ids p);
  rq_lora l : lora_request request = Some l → lora_int_id l ≠ 0%Z;
}.

Definition request_lora (request : CachedRequestState) : Z := from_option lora_int_id 0%Z (lora_request request).
Definition request_view (outputs : Outputs) (request : CachedRequestState) (p : SamplerParams) (prompt : list Z) : View :=
  let outs := default [] (outputs !! output_token_ids request) in
  mkView (output_token_ids request) [] (prompt ++ outs) (default (replicate (length prompt) true) (prompt_is_token_ids request) ++ replicate (length outs) true)
    (mkCells [] [] (length prompt + length outs) (length prompt) (num_computed_tokens request)
      (if bool_decide (sampling_type p = GREEDY) then 0%Qc else temperature p) (top_p p) (if limited_top_k V p then top_k p else Z.of_nat V)
      (frequency_penalty p) (presence_penalty p) (repetition_penalty p) 1 (request_lora request) false)
    (Some <$> multi_ids T0 (block_ids request)) (generator request) (match bad_words_token_ids p with [] => None | w => Some w end).

Lemma take_fill_slice (l : list bool) n v : n ≤ length l → take n (fill_slice l 0 n v) = replicate n v.
Proof.
  intros Hn. apply list_eq. intros j. unfold fill_slice. destruct (decide (j < n)).
  - rewrite lookup_take_lt by done. rewrite list_lookup_imap, lookup_replicate_2 by done. destruct (lookup_lt_is_Some_2 l j) as [x ->]; [lia|]. cbn. by rewrite bool_decide_true by lia.
  - rewrite lookup_take_ge by lia. symmetry. apply lookup_ge_None_2. rewrite length_replicate. lia.
Qed.
Lemma take_fill_from (l : list bool) n k v : n + k ≤ length l → take (n + k) (fill_slice l n (n + k) v) = take n l ++ replicate k v.
Proof.
  intros Hn. apply list_eq. intros j. unfold fill_slice. destruct (decide (j < n + k)).
  - rewrite lookup_take_lt by done. rewrite list_lookup_imap. destruct (decide (j < n)).
    + rewrite lookup_app_l by (rewrite length_take; lia). rewrite lookup_take_lt by done. destruct (l !! j); cbn; [|done]. by rewrite bool_decide_false by lia.
    + rewrite lookup_app_r by (rewrite length_take; lia). rewrite length_take, Nat.min_l by lia. rewrite lookup_replicate_2 by lia.
      destruct (lookup_lt_is_Some_2 l j) as [x ->]; [lia|]. cbn. by rewrite bool_decide_true by lia.
  - rewrite lookup_take_ge by lia. symmetry. apply lookup_ge_None_2. rewrite length_app, length_take, length_replicate. lia.
Qed.

Lemma cells_tokens_ok outputs request p prompt c : request_ok outputs request p prompt → length (token_ids_cpu c) = L → length (is_token_ids c) = L →
  let outs := default [] (outputs !! output_token_ids request) in
  ∃ tokens flags, cells_tokens request outs c = Ok (cell_num_computed_tokens_cpu (num_computed_tokens request) (cell_num_tokens_no_spec (length prompt + length outs)
      (cell_is_token_ids flags (cell_token_ids_cpu tokens (cell_num_prompt_tokens (length prompt) c))))) ∧
    length tokens = L ∧ length flags = L ∧ take (length prompt + length outs) tokens = prompt ++ outs ∧
    take (length prompt + length outs) flags = default (replicate (length prompt) true) (prompt_is_token_ids request) ++ replicate (length outs) true.
Proof.
  intros [R1 R2 R3 R4 R5 R6 R7 R8] Ht Hf outs. change (length prompt + length outs ≤ L) in R5. unfold cells_tokens. rewrite R2.
  assert (length_from_prompt_token_ids_or_embeds (Some prompt) (prompt_embeds request) = Ok (length prompt)) as ->.
  { cbn. destruct (prompt_embeds request) as [e|]; [|done]. rewrite bool_decide_false; [done|]. rewrite (R3 e eq_refl). tauto. }
  rewrite bind_ret. destruct (write_slice_ok (token_ids_cpu c) 0 prompt) as (t1 & -> & Hl1 & E1); [lia|]. rewrite bind_ret.
  set (prog := match prompt_is_token_ids request with Some mask => _ | None => _ end).
  assert (∃ f1, prog = Ok f1 ∧ length f1 = L ∧ take (length prompt) f1 = default (replicate (length prompt) true) (prompt_is_token_ids request)) as (f1 & -> & Hlf & Ef).
  { unfold prog. destruct (prompt_is_token_ids request) as [m|] eqn:Em; cbn.
    - rewrite bool_decide_true by (by apply R4). destruct (write_slice_ok (is_token_ids c) 0 m) as (f1 & -> & Hl & E); [rewrite (R4 m eq_refl); lia|].
      exists f1. split; [done|]. split; [lia|]. rewrite Nat.add_0_l, (R4 m eq_refl) in E. done.
    - eexists. split; [done|]. rewrite length_fill_slice. split; [done|]. apply take_fill_slice. lia. }
  rewrite bind_ret. destruct (write_slice_ok t1 (length prompt) outs) as (t2 & -> & Hl2 & E2); [lia|]. rewrite bind_ret. eexists t2, _. split; [done|].
  split; [lia|]. split; [by rewrite length_fill_slice|]. split; [rewrite E2; by rewrite Nat.add_0_l in E1; rewrite E1|]. rewrite take_fill_from by lia. by rewrite Ef.
Qed.

Lemma mask_sampling_ok b i p : max_num_reqs b = N → vocab_size b = V → i < N → Forall (λ t, t < V) (allowed_token_ids p) →
  (∀ m, allowed_token_ids_mask_cpu_tensor b = Some m → length m = N) →
  ∃ mask, mask_sampling i p b = Ok (ib_allowed_token_ids_mask_cpu_tensor mask b) ∧ (∀ m, mask = Some m → length m = N) ∧
    (allowed_token_ids p ≠ [] ∨ is_Some (allowed_token_ids_mask_cpu_tensor b) → is_Some mask).
Proof.
  intros HN HV Hi Ha Hm. unfold mask_sampling. destruct (allowed_token_ids p) as [|t l] eqn:E; [exists (allowed_token_ids_mask_cpu_tensor b); split; [by destruct b|]; split; [done|by intros [[]|]]|].
  rewrite <- E in *. clear E t l. rewrite HN, HV.
  destruct (foldM_ind (λ _ row, length row = V) (λ row t, list_set t false row) (replicate V true) (allowed_token_ids p)) as (row & -> & Hrow); [apply length_replicate| |].
  { intros dn t rest row E Hr. rewrite list_set_ok; [eexists; split; [done|by rewrite length_insert]|]. rewrite Hr. rewrite Forall_forall in Ha. apply Ha. rewrite E. apply elem_of_app. right. by left. }
  rewrite bind_ret. rewrite list_set_ok, bind_ret.
  - eexists. split; [done|]. split; [|by eexists]. intros m [= <-]. rewrite length_insert. destruct (allowed_token_ids_mask_cpu_tensor b); [by apply Hm|apply length_replicate].
  - destruct (allowed_token_ids_mask_cpu_tensor b); [by rewrite Hm|by rewrite length_replicate].
Qed.

Lemma add_sampling_ok b i request p c : max_num_reqs b = N → vocab_size b = V → i < N → Forall (λ t, t < V) (allowed_token_ids p) →
  (∀ m, allowed_token_ids_mask_cpu_tensor b = Some m → length m = N) → cells b !! i = Some c →
  ∃ mask, add_sampling i request p b = Ok (ib_bad_words (match bad_words_token_ids p with [] => bad_words b | w => <[i := w]> (bad_words b) end)
      (ib_allowed_token_ids_mask_cpu_tensor mask (ib_generators (match generator request with Some g => <[i := g]> (generators b) | None => generators b end)
      (ib_req_sets (sets_sampling V (req_id request) p (req_sets b)) (ib_cells (<[i := cells_sampling V p c]> (cells b)) b))))) ∧
      (∀ m, mask = Some m → length m = N) ∧ (allowed_token_ids p ≠ [] ∨ is_Some (allowed_token_ids_mask_cpu_tensor b) → is_Some mask).
Proof.
  intros HN HV Hi Ha Hm Hc. unfold add_sampling. rewrite HV. erewrite on_cells_ok; [|exact Hc|done]. rewrite bind_ret. cbn. rewrite HV.
  set (b1 := match generator request with Some g => _ | None => _ end).
  assert (b1 = ib_generators (match generator request with Some g => <[i := g]> (generators b) | None => generators b end)
      (ib_req_sets (sets_sampling V (req_id request) p (req_sets b)) (ib_cells (<[i := cells_sampling V p c]> (cells b)) b))) as Eb.
  { unfold b1. by destruct (generator request), b. }
  destruct (mask_sampling_ok b1 i p) as (mask & -> & Hmask & Hsome); [by rewrite Eb|by rewrite Eb|done|done|by rewrite Eb|]. rewrite Eb in Hsome. rewrite bind_ret, Eb. exists mask. split; [|done].
  by destruct (bad_words_token_ids p).
Qed.

Lemma add_lora_ok b i request c lora : (∀ l, lora_request request = Some l → lora_int_id l ≠ 0%Z) → cells b !! i = Some c →
  lora_ok (lora_id_to_request_ids b) (lora_id_to_lora_request b) lora → lora (req_id request) = 0%Z →
  ∃ lids lreqs, add_lora i request b = Ok (ib_lora_id_to_lora_request lreqs (ib_lora_id_to_request_ids lids (ib_cells (<[i := cell_request_lora_mapping (request_lora request) c]> (cells b)) b))) ∧
    lora_ok lids lreqs (λ r', if decide (r' = req_id request) then request_lora request else lora r').
Proof.
  intros Hid Hc Hl Hz. unfold add_lora, request_lora. destruct (lora_request request) as [l|]; cbn [from_option].
  - erewrite on_cells_ok; [|exact Hc|done]. rewrite bind_ret. eexists _, _. split; [done|]. by apply lora_add; [| |apply Hid].
  - erewrite on_cells_ok; [|exact Hc|done]. exists (lora_id_to_request_ids b), (lora_id_to_lora_request b). split; [by destruct b|].
    destruct Hl as [H1 H2 H3]. split; [|done|done]. intros id r'. rewrite H1. destruct (decide (r' = req_id request)) as [->|]; [by rewrite Hz|done].
Qed.

Lemma nonzero_temperature p : sampling_type p ≠ GREEDY → temperature p ≠ 0%Qc.
Proof.
  unfold sampling_type. case_bool_decide as Ht; [by destruct 1|]. intros _ E. apply Ht. rewrite E. done.
Qed.

Lemma limited_top_k_ne p : limited_top_k V p = true ↔ (if limited_top_k V p then top_k p else Z.of_nat V) ≠ Z.of_nat V.
Proof. unfold limited_top_k. destruct (Z.ltb_spec 0 (top_k p)), (Z.ltb_spec (top_k p) (Z.of_nat V)); cbn; split; try done; intros; lia. Qed.

(** What [add_request] has done to the batch. *)
Record added_to b b' i request (p : SamplerParams) (v : View) : Prop := {
  at_views r : view b' r = if decide (r = req_id request) then Some v else view b r;
  at_occupants j : occupant b' j = if decide (j = i) then Some (req_id request) else occupant b j;
  at_added : added (batch_update_builder b') = added (batch_update_builder b) ++ [mkAdded i p (prompt_token_ids request) (output_token_ids request)];
  at_moved : moved (batch_update_builder b') = moved (batch_update_builder b);
  at_removed : _removed (batch_update_builder b) = [] ∧ i = length (_req_ids b) ∧ _removed (batch_update_builder b') = [] ∨
    _removed (batch_update_builder b) ≡ₚ i :: _removed (batch_update_builder b');
  at_index : req_id_to_index b' = <[req_id request := i]> (req_id_to_index b);
}.

Lemma add_request_ok b outputs request p prompt : batch_ok b → summary_ok b → request_ok outputs request p prompt → num_reqs b < N → req_id_to_index b !! req_id request = None →
  ∃ i b', add_request outputs request b = Ok (i, b') ∧ i < N ∧ batch_ok b' ∧ summary_ok b' ∧ added_to b b' i request p (request_view outputs request p prompt).
Proof.
  intros Hb Hs Hr Hn Hnew. pose proof Hr as [R1 R2 R3 R4 R5 R6 R7 R8]. set (id := req_id request) in *. set (outs := default [] (outputs !! output_token_ids request)) in *.
  destruct (register_ok b request p Hb Hn R1) as (i & c' & Hreg & Hi & Hwhere & Hc' & Hmv & Had). unfold add_request. rewrite Hreg, bind_ret. cbn [fst snd]. fold id outs.
  pose proof (bo_len _ _ _ _ _ b Hb) as Hlen. assert (i ≤ length (_req_ids b)) as Hile by (destruct Hwhere as [(_ & -> & _)|[? _]]; lia).
  assert (∀ s, _req_ids b !! i ≠ Some (Some s)) as Hfree.
  { intros s Hs'. destruct Hwhere as [(_ & -> & _)|[_ Hp]]; [apply lookup_lt_Some in Hs'; lia|]. assert (i ∈ _removed (batch_update_builder b)) as Hin by (rewrite Hp; by left).
    apply (bo_holes _ _ _ _ _ b Hb) in Hin. congruence. }
  assert (view b id = None) as Hvn by (unfold view; by rewrite Hnew).
  destruct (add_to_lists_ok b c' i id (output_token_ids request) Hb Hile) as (specs & -> & Hsp1 & Hsp2 & Hsp3 & Hsp4).
  rewrite bind_ret. destruct (cells_get _ _ _ _ _ b i Hb Hi) as (c & Hc & Hct & Hcf).
  destruct (cells_tokens_ok outputs request p prompt c Hr Hct Hcf) as (tokens & flags & Hcells & Hlt & Hlf & Et & Ef). fold outs in Hcells, Et, Ef. clear Hreg.
  erewrite on_cells_ok; [|exact Hc|exact Hcells]. rewrite bind_ret. set (c1 := cell_num_computed_tokens_cpu _ _).
  set (b1 := match prompt_embeds request with Some e => _ | None => _ end).
  assert (∃ embeds, b1 = ib_req_prompt_embeds embeds (ib_cells (<[i := c1]> (cells b)) (ib_req_id_to_index (<[id := i]> (req_id_to_index b)) (ib_spec_token_ids specs
     (ib_req_output_token_ids (list_put i (Some (output_token_ids request)) (req_output_token_ids b)) (ib_req_ids (list_put i (Some id) (_req_ids b)) (ib_batch_update_builder c' b))))))) as [embeds Eb1].
  { unfold b1. destruct (prompt_embeds request); [by eexists|]. exists (req_prompt_embeds b). by destruct b. }
  rewrite Eb1. clear b1 Eb1. cbn [block_table ib_req_prompt_embeds ib_cells ib_req_id_to_index ib_spec_token_ids ib_req_output_token_ids ib_req_ids ib_batch_update_builder].
  destruct (multi_add_row_ok N Ws (block_table b) i (block_ids request) (bo_tables _ _ _ _ _ b Hb) Hi) as (bt & -> & Hbt & Hsame & Hblocks).
  { eapply same_ids_fit; [apply (bo_same _ _ _ _ _ b Hb)|done]. }
  rewrite (same_multi_ids _ _ _ (bo_same _ _ _ _ _ b Hb)) in Hblocks. rewrite bind_ret, R1.
  match goal with |- context [add_sampling i request p ?b2] => destruct (add_sampling_ok b2 i request p c1) as (mask & -> & Hmask & Hsome);
    [apply (bo_max _ _ _ _ _ b Hb)|apply (bo_vocab _ _ _ _ _ b Hb)|done|done|apply (bo_mask _ _ _ _ _ b Hb)|cbn; apply list_lookup_insert_eq; by rewrite (bo_cells _ _ _ _ _ b Hb)|] end.
  rewrite bind_ret. cbn. erewrite on_cells_ok; [|cbn; apply list_lookup_insert_eq; rewrite length_insert; by rewrite (bo_cells _ _ _ _ _ b Hb)|done]. rewrite bind_ret. cbn.
  rewrite !list_insert_insert_eq. set (c2 := cell_num_accepted_tokens_cpu _ _).
  match goal with |- context [add_lora i request ?b3] => destruct (add_lora_ok b3 i request c2 (lora_of b) R8) as (lids & lreqs & -> & Hlo);
    [cbn; apply list_lookup_insert_eq; by rewrite (bo_cells _ _ _ _ _ b Hb)|apply (so_lora _ b Hs)|unfold lora_of; fold id; by rewrite Hvn|] end.
  rewrite bind_ret. cbn. rewrite list_insert_insert_eq. set (c3 := cell_request_lora_mapping _ c2).
  eexists i, _. split; [done|]. split; [done|]. match goal with |- batch_ok ?b1 ∧ _ => set (b' := b1) end.
  assert (generators b !! i = None) as Hg0.
  { destruct (generators b !! i) as [g|] eqn:E; [|done]. destruct (bo_generators _ _ _ _ _ b Hb i g E) as [s' Hs']. by apply Hfree in Hs'. }
  assert (bad_words b !! i = None) as Hw0.
  { destruct (bad_words b !! i) as [g|] eqn:E; [|done]. destruct (bo_bad_words _ _ _ _ _ b Hb i g E) as [s' Hs']. by apply Hfree in Hs'. }
  pose proof (λ j, lookup_list_put i (Some id) (_req_ids b) j Hile) as Hids.
  pose proof (bo_outs _ _ _ _ _ b Hb) as Ho. pose proof (λ j, lookup_list_put i (Some (output_token_ids request)) (req_output_token_ids b) j ltac:(by rewrite Ho)) as Houts.
  assert (∀ j, j < length (_req_ids b) → j ≠ i → row_view b' j = row_view b j) as Hrow.
  { intros j Hj Hne. apply row_view_frame; cbn.
    - rewrite Houts. by rewrite decide_False.
    - by apply Hsp3.
    - by rewrite list_lookup_insert_ne.
    - rewrite Hblocks. by rewrite decide_False.
    - destruct (generator request); [by rewrite lookup_insert_ne|done].
    - destruct (bad_words_token_ids p); [done|by rewrite lookup_insert_ne]. }
  assert (row_view b' i = Some (request_view outputs request p prompt)) as Hnewrow.
  { unfold row_view. cbn. rewrite Houts, decide_True by done. cbn. rewrite Hsp2. cbn. rewrite list_lookup_insert_eq by (by rewrite (bo_cells _ _ _ _ _ b Hb)). cbn.
    rewrite Nat.add_0_r, Et, Ef, Hblocks, decide_True by done. unfold request_view. fold outs. f_equal. f_equal.
    - destruct (generator request); [by rewrite lookup_insert_eq|done].
    - destruct (bad_words_token_ids p); [done|by rewrite lookup_insert_eq]. }
  assert (batch_ok b') as Hb'.
  { destruct Hb as [[B1 B2 B3 B4 B5 B6 Bsame B7 B8 B9 B10 B11 B12 B13 B16 B17 B18] B14 B15]. split; [split|..]; cbn; rewrite ?length_insert; try done.
    - by apply Forall_insert.
    - by eapply same_tables_trans.
    - rewrite length_list_put by done. lia.
    - rewrite !length_list_put by lia. lia.
    - by rewrite length_list_put.
    - intros r j. rewrite Hids. destruct (decide (j = i)) as [->|Hj].
      + split; [|intros [= <-]; by rewrite lookup_insert_eq]. intros [[<- _]|[_ Hx]]%lookup_insert_Some; [done|]. apply B10 in Hx. by apply Hfree in Hx.
      + rewrite <- B10. destruct (decide (r = id)) as [->|]; [|by rewrite lookup_insert_ne]. rewrite lookup_insert_eq, Hnew. naive_solver.
    - intros j r. rewrite Hids, Houts. destruct (decide (j = i)) as [->|Hj].
      + intros _. exists (output_token_ids request), [], c3. rewrite list_lookup_insert_eq by lia. done.
      + intros Hjr. pose proof (lookup_lt_Some _ _ _ Hjr). rewrite Hsp3 by done. rewrite list_lookup_insert_ne by done. by apply (B11 j r).
    - intros j spec Hj. rewrite length_list_put in Hj by done. by apply Hsp4.
    - intros j g Hg. rewrite Hids. destruct (decide (j = i)); [by eexists|]. apply (B16 j g). destruct (generator request); [by rewrite lookup_insert_ne in Hg|done].
    - intros j w Hw. rewrite Hids. destruct (decide (j = i)); [by eexists|]. apply (B17 j w). destruct (bad_words_token_ids p); [done|by rewrite lookup_insert_ne in Hw].
    - intros j. rewrite Hids. destruct Hwhere as [(E1 & E2 & E3)|[Hilt Hp]].
      + rewrite E3. destruct (decide (j = i)); [split; [by intros ?%not_elem_of_nil|done]|]. rewrite <- B14, E1. done.
      + destruct B13 as [Hnd _]. rewrite Hp in Hnd. inversion Hnd as [|? ? Hni _]; subst. destruct (decide (j = i)) as [->|]; [split; [done|by intros]|].
        rewrite <- B14, Hp, elem_of_cons. naive_solver.
    - unfold num_reqs in *. cbn. rewrite map_size_insert_None by done. rewrite length_list_put by done.
      destruct Hwhere as [(E1 & E2 & E3)|[Hilt Hp]]; [rewrite E3; rewrite E1 in B15; cbn in *; lia|]. apply Permutation_length in Hp. cbn in Hp. lia. }
  assert (∀ r, view b' r = if decide (r = id) then Some (request_view outputs request p prompt) else view b r) as Hv.
  { intros r. destruct (decide (r = id)) as [->|Hne].
    - rewrite (view_live _ _ _ _ _ b' i id Hb'); [done|]. cbn. rewrite Hids. by rewrite decide_True.
    - apply (view_ext N L V Ws T0); [apply Hb|apply Hb'| |].
      + intros j. cbn. rewrite Hids. destruct (decide (j = i)) as [->|]; [|done]. split; [by intros ?%Hfree|]. intros [= ?]. by subst.
      + intros j Hj. apply Hrow; [by eapply lookup_lt_Some|]. intros ->. by apply Hfree in Hj. }
  split; [done|]. split; [|split; [exact Hv| |done|done| |done]].
  - destruct Hs as [S1 S2 S3 S4 S5 S6 S7 S8 S9]. split; try (cbn; eapply flag_add; [done|exact Hvn|exact Hv|]; cbn).
    + case_bool_decide as E; [done|]. split; [done|]. intros Ez. by apply nonzero_temperature in E.
    + repeat case_bool_decide; split; try done; try tauto. intros _. by apply nonzero_temperature.
    + apply bool_decide_eq_true.
    + apply limited_top_k_ne.
    + apply bool_decide_eq_true.
    + apply bool_decide_eq_true.
    + apply bool_decide_eq_true.
    + cbn. destruct Hlo as [L1 L2 L3]. split; [|done|done]. intros lid r'. rewrite L1. unfold lora_of at 2. rewrite Hv. fold id. by destruct (decide (r' = id)).
    + cbn. intros Hne. apply Hsome. cbn. case_bool_decide; [by left|]. right. by apply S9.
  - intros j. unfold occupant. cbn. rewrite Hids. by destruct (decide (j = i)).
  - destruct Hwhere as [(? & ? & ?)|[_ ?]]; [by left|by right].
Qed.
End Ops.
