(* ===== verification/BatchMoves.v ===== *)
(** * Closing holes and swapping rows leave every request its data *)

From Stdlib Require Import QArith Qcanon.
From stdpp Require Import sorting.
From S2P Require Import Prelude BlockTable LogitsProcs InputBatch BatchInv BatchOps.

Local Open Scope nat_scope.

Lemma take_receive {A} (from to : list A) n k : k ≤ n → length from = length to → take k (take n from ++ drop n to) = take k from.
Proof.
  intros Hk Hn. destruct (decide (n ≤ length from)).
  - rewrite take_app_le by (rewrite length_take; lia). by rewrite take_take, Nat.min_l.
  - by rewrite (take_ge from n), (drop_ge to n), app_nil_r by lia.
Qed.
Lemma length_receive {A} (from to : list A) n : length from = length to → length (take n from ++ drop n to) = length to.
Proof. intros E. rewrite length_app, length_take, length_drop. lia. Qed.

Lemma lookup_move_key {A} i j (d : gmap nat A) k : i ≠ j → d !! j = None → move_key i j d !! k = if decide (k = j) then d !! i else if decide (k = i) then None else d !! k.
Proof.
  intros Hne Hj. unfold move_key. destruct (d !! i) as [v|] eqn:E.
  - destruct (decide (k = j)) as [->|]; [by rewrite lookup_insert_eq|]. rewrite lookup_insert_ne by done.
    destruct (decide (k = i)) as [->|]; [by rewrite lookup_delete_eq|by rewrite lookup_delete_ne].
  - destruct (decide (k = j)) as [->|]; [done|]. by destruct (decide (k = i)) as [->|].
Qed.
Lemma lookup_swap_dict {A} i j (d : gmap nat A) k : swap_dict_values i j d !! k = d !! (if decide (k = i) then j else if decide (k = j) then i else k).
Proof.
  unfold swap_dict_values. destruct (d !! i) as [v1|] eqn:E1, (d !! j) as [v2|] eqn:E2; destruct (decide (k = i)) as [->|Hi];
    repeat first [rewrite lookup_insert_eq | rewrite lookup_insert_ne by done | rewrite lookup_delete_eq | rewrite lookup_delete_ne by done]; try congruence;
    destruct (decide (k = j)) as [->|Hj];
    repeat first [rewrite lookup_insert_eq | rewrite lookup_insert_ne by done | rewrite lookup_delete_eq | rewrite lookup_delete_ne by done]; congruence.
Qed.

Section Moves.
Context (N L V : nat) (Ws : list nat) (T0 : MultiGroupBlockTable).
Implicit Types (b : InputBatch) (i j : nat) (r : string).
Notation batch_ok := (batch_ok N L V Ws T0).
Notation batch_core := (batch_core N L V Ws T0).
Notation summary_ok := (summary_ok V).

(** What a move or swap keeps. *)
Record same_requests b b' : Prop := {
  sr_views r : view b' r = view b r;
  sr_sets : req_sets b' = req_sets b;
  sr_lids : lora_id_to_request_ids b' = lora_id_to_request_ids b;
  sr_lreqs : lora_id_to_lora_request b' = lora_id_to_lora_request b;
  sr_mask : is_Some (allowed_token_ids_mask_cpu_tensor b) → is_Some (allowed_token_ids_mask_cpu_tensor b');
  sr_dom : dom (req_id_to_index b') = dom (req_id_to_index b);
  sr_added : added (batch_update_builder b') = added (batch_update_builder b);
}.
#[export] Instance same_requests_preorder : PreOrder same_requests.
Proof. split; [by split|]. intros b1 b2 b3 [] []. split; try congruence. auto. Qed.
Lemma same_requests_summary b b' : same_requests b b' → summary_ok b → summary_ok b'.
Proof. intros [] Hs. by apply (summary_ext V b b'). Qed.
Lemma same_requests_num b b' : same_requests b b' → num_reqs b' = num_reqs b.
Proof. intros []. unfold num_reqs. rewrite <- !size_dom. congruence. Qed.

(** Requests keep their data when rows are renamed. *)
Lemma view_rename b b' r (f : nat → nat) : batch_core b → batch_core b' → (∀ i, _req_ids b !! i = Some (Some r) → _req_ids b' !! f i = Some (Some r) ∧ row_view b' (f i) = row_view b i) →
  (∀ i, _req_ids b' !! i = Some (Some r) → ∃ j, _req_ids b !! j = Some (Some r)) → view b' r = view b r.
Proof.
  intros Hb Hb' Hf Hback. destruct (req_id_to_index b !! r) as [i|] eqn:E.
  - apply (bo_index _ _ _ _ _ b Hb) in E. destruct (Hf i E) as [E' Hrow]. rewrite (view_live _ _ _ _ _ b i r Hb E), (view_live _ _ _ _ _ b' (f i) r Hb' E'). done.
  - rewrite (view_dead N L V Ws T0 b' r), (view_dead N L V Ws T0 b r); [done|done| |done|].
    + intros i Hi. apply (bo_index _ _ _ _ _ b Hb) in Hi. congruence.
    + intros i Hi. destruct (Hback i Hi) as [j Hj]. apply (bo_index _ _ _ _ _ b Hb) in Hj. congruence.
Qed.

Lemma move_down_ok b last empty r c : batch_core b → _req_ids b !! last = Some (Some r) → _req_ids b !! empty = Some None → empty < last →
  pop_removed (batch_update_builder b) = (Some empty, c) → builder_ok c → added c = added (batch_update_builder b) →
  ∃ b', move_down last empty b = Ok b' ∧ batch_core b' ∧ same_requests b b' ∧ _req_ids b' = <[last := None]> (<[empty := Some r]> (_req_ids b)) ∧
    batch_update_builder b' = builder_moved (last, empty, UNIDIRECTIONAL) c.
Proof.
  intros Hb Hlast Hempty Hlt Hpop Hc Hadd. pose proof (live_bound _ _ _ _ _ b last r Hb Hlast) as HlN. assert (empty < N) as HeN by lia.
  destruct (bo_live _ _ _ _ _ b Hb last r Hlast) as (out & spec & from & Hout & Hspec & Hfrom).
  destruct (cells_get _ _ _ _ _ b empty Hb HeN) as (to & Hto & Hto1 & Hto2). destruct (Forall_lookup_1 _ _ _ _ (bo_width _ _ _ _ _ b Hb) Hfrom) as [Hfr1 Hfr2].
  pose proof (bo_specs _ _ _ _ _ b Hb) as Hsl. pose proof (lookup_lt_Some _ _ _ Hlast) as Hll. pose proof (lookup_lt_Some _ _ _ Hempty) as Hel.
  pose proof (bo_outs _ _ _ _ _ b Hb) as Hol.
  unfold move_down. rewrite Hpop. cbn [_req_ids req_output_token_ids ib_batch_update_builder]. rewrite Hlast, Hout. cbn [of_option]. rewrite !bind_ret. cbn [of_option]. rewrite bind_ret.
  rewrite (list_set_ok empty (Some r) (_req_ids b)), bind_ret by done. rewrite (list_set_ok last None), bind_ret by (by rewrite length_insert).
  rewrite (list_set_ok empty (Some out) (req_output_token_ids b)), bind_ret by lia. rewrite (list_set_ok last None (<[empty:=Some out]> _)), bind_ret by (rewrite length_insert; lia).
  unfold _get_active_token_count. cbn [cells spec_token_ids ib_req_id_to_index ib_req_output_token_ids ib_req_ids ib_batch_update_builder req_id_to_index]. rewrite Hfrom, Hspec. cbn [of_option]. rewrite !bind_ret.
  destruct (lookup_lt_is_Some_2 (spec_token_ids b) empty) as [spec2 Hspec2]; [lia|]. rewrite Hspec2. cbn [of_option]. rewrite bind_ret.
  rewrite (list_set_ok last [] (swap_cells last empty (spec_token_ids b))), bind_ret by (rewrite length_swap_cells; lia).
  cbn [cells ib_spec_token_ids ib_req_id_to_index ib_req_output_token_ids ib_req_ids ib_batch_update_builder is_pooling_model]. rewrite Hfrom, Hto. cbn [of_option]. rewrite !bind_ret.
  rewrite (bo_gen _ _ _ _ _ b Hb). set (n := num_tokens_no_spec from + length spec).
  cbn [block_table ib_spec_token_ids ib_req_id_to_index ib_req_output_token_ids ib_req_ids ib_batch_update_builder ib_cells ib_req_prompt_embeds].
  destruct (multi_move_row_ok N Ws (block_table b) last empty (bo_tables _ _ _ _ _ b Hb) HlN HeN) as (bt & -> & Hbt & Hsame & Hblocks). rewrite bind_ret. cbn. rewrite (bo_gen _ _ _ _ _ b Hb).
  eexists. split; [done|]. match goal with |- batch_core ?b1 ∧ _ => set (b' := b1) end.
  assert (generators b !! empty = None) as Hg0.
  { destruct (generators b !! empty) as [g|] eqn:E; [|done]. destruct (bo_generators _ _ _ _ _ b Hb _ g E) as [s' Hs']. congruence. }
  assert (bad_words b !! empty = None) as Hw0.
  { destruct (bad_words b !! empty) as [g|] eqn:E; [|done]. destruct (bo_bad_words _ _ _ _ _ b Hb _ g E) as [s' Hs']. congruence. }
  assert (∀ A (l : list A) x y j, empty < length l → last < length l → <[last := x]> (<[empty := y]> l) !! j = if decide (j = last) then Some x else if decide (j = empty) then Some y else l !! j) as Hput.
  { intros A l x y j H1 H2. destruct (decide (j = last)) as [->|]; [by rewrite list_lookup_insert_eq by (by rewrite length_insert)|]. rewrite list_lookup_insert_ne by done.
    destruct (decide (j = empty)) as [->|]; [by rewrite list_lookup_insert_eq|by rewrite list_lookup_insert_ne]. }
  assert (∀ j, <[last := []]> (swap_cells last empty (spec_token_ids b)) !! j = if decide (j = last) then Some [] else if decide (j = empty) then Some spec else spec_token_ids b !! j) as Hsp.
  { intros j. destruct (decide (j = last)) as [->|]; [by rewrite list_lookup_insert_eq by (rewrite length_swap_cells; lia)|]. rewrite list_lookup_insert_ne by done.
    rewrite lookup_swap_cells by lia. rewrite decide_False by done. by destruct (decide (j = empty)). }
  assert (∀ j s, <[last := None]> (<[empty := Some r]> (_req_ids b)) !! j = Some (Some s) ↔ (j = empty ∧ s = r) ∨ (j ≠ last ∧ j ≠ empty ∧ _req_ids b !! j = Some (Some s))) as Hids.
  { intros j s. rewrite Hput by done. destruct (decide (j = last)) as [->|]; [split; [done|]; intros [[? _]|[? _]]; [lia|done]|]. destruct (decide (j = empty)) as [->|]; naive_solver. }
  assert (row_view b' empty = row_view b last) as Hrow1.
  { unfold row_view. cbn. rewrite Hput, Hout, Hsp, Hspec, Hfrom by lia.
    destruct (decide (empty = last)) as [?|_]; [lia|]. destruct (decide (empty = empty)) as [_|]; [|done]. cbn. rewrite list_lookup_insert_eq by (by rewrite (bo_cells _ _ _ _ _ b Hb)). cbn.
    rewrite !take_receive by (unfold n; lia). rewrite Hblocks. rewrite !lookup_move_key by (done || lia). destruct (decide (empty = empty)) as [_|]; [|done]. done. }
  assert (∀ j, j ≠ last → j ≠ empty → row_view b' j = row_view b j) as Hrow2.
  { intros j H1 H2. apply row_view_frame; cbn.
    - rewrite Hput by lia. by rewrite !decide_False.
    - rewrite Hsp. by rewrite !decide_False.
    - by rewrite list_lookup_insert_ne.
    - rewrite Hblocks. by rewrite decide_False.
    - rewrite lookup_move_key by (done || lia). by rewrite !decide_False.
    - rewrite lookup_move_key by (done || lia). by rewrite !decide_False. }
  assert (batch_core b') as Hb'.
  { destruct Hb as [B1 B2 B3 B4 B5 B6 Bsame B7 B8 B9 B10 B11 B12 B13 B16 B17 B18]. split; cbn; rewrite ?length_insert, ?length_swap_cells; try done.
    - apply Forall_insert; [done|]. cbn. rewrite !length_receive by lia. done.
    - by eapply same_tables_trans.
    - intros s j. rewrite Hids. destruct (decide (s = r)) as [->|Hne].
      + rewrite lookup_insert_eq. split; [intros [= <-]; by left|]. intros [[-> _]|(H1 & H2 & H3)]; [done|]. apply B10 in H3. apply B10 in Hlast. congruence.
      + rewrite lookup_insert_ne by done. rewrite B10. split; [|naive_solver]. intros Hj. right. split; [congruence|]. split; [congruence|done].
    - intros j s [[-> ->]|(H1 & H2 & H3)]%Hids.
      + exists out, spec, (receive_cells false n from to). rewrite Hput, Hsp by lia.
        destruct (decide (empty = last)) as [?|_]; [lia|]. destruct (decide (empty = empty)) as [_|]; [|done]. rewrite list_lookup_insert_eq by lia. done.
      + destruct (B11 j s H3) as (o & sp & cc & ? & ? & ?). exists o, sp, cc. rewrite Hput, Hsp by lia.
        destruct (decide (j = last)), (decide (j = empty)); [done..|]. by rewrite list_lookup_insert_ne.
    - intros j sp Hj. rewrite Hsp. rewrite !decide_False by lia. by apply B12.
    - destruct Hc as [D1 D2]. by split.
    - intros j g. rewrite lookup_move_key by (done || lia). destruct (decide (j = empty)) as [->|H1]; [intros _; exists r; apply Hids; by left|].
      destruct (decide (j = last)) as [->|H2]; [done|]. intros Hg. destruct (B16 j g Hg) as [s Hs]. exists s. apply Hids. by right.
    - intros j g. rewrite lookup_move_key by (done || lia). destruct (decide (j = empty)) as [->|H1]; [intros _; exists r; apply Hids; by left|].
      destruct (decide (j = last)) as [->|H2]; [done|]. intros Hg. destruct (B17 j g Hg) as [s Hs]. exists s. apply Hids. by right.
    - intros m. destruct (allowed_token_ids_mask_cpu_tensor b) as [m'|] eqn:E; [|done]. cbn. intros [= <-]. rewrite length_move_cell. by apply B18. }
  split; [done|]. split; [|done]. split; cbn; try done.
  - intros s. apply (view_rename b b' s (λ j, if decide (j = last) then empty else j)); [done|done| |].
    + intros j Hj. cbn. destruct (decide (j = last)) as [->|Hne]; [split; [apply Hids; left; split; [done|congruence]|done]|].
      assert (j ≠ empty) by congruence. split; [apply Hids; by right|by apply Hrow2].
    + intros j [[-> ->]|(_ & _ & ?)]%Hids; [by exists last|by exists j].
  - by rewrite fmap_is_Some.
  - rewrite dom_insert_L. apply (bo_index _ _ _ _ _ b Hb) in Hlast. apply elem_of_dom_2 in Hlast. set_solver.
Qed.

(** ** Closing the holes *)

Lemma skip_empty_spec m E : match skip_empty m E with
  | Some k => k ≤ m ∧ k ∉ E ∧ ∀ i, k < i → i ≤ m → i ∈ E
  | None => ∀ i, i ≤ m → i ∈ E
  end.
Proof.
  induction m as [|m IH]; cbn [skip_empty]; case_bool_decide as Hm.
  - intros i Hi. by replace i with 0 by lia.
  - split; [done|]. split; [done|]. intros. lia.
  - destruct (skip_empty m E) as [k|].
    + destruct IH as (H1 & H2 & H3). split; [lia|]. split; [done|]. intros i Hi Hle. destruct (decide (i = S m)) as [->|]; [done|]. apply H3; lia.
    + intros i Hi. destruct (decide (i = S m)) as [->|]; [done|]. apply IH. lia.
  - split; [done|]. split; [done|]. intros. lia.
Qed.

Definition one_way (x : nat * nat) : MovedRequest := (x.1, x.2, UNIDIRECTIONAL).
Definition removed_of b : list nat := _removed (batch_update_builder b).
Definition is_live b i : Prop := ∃ r, _req_ids b !! i = Some (Some r).

(** Rows above [m] are empty, and below it the holes are registered. *)
Record loop_inv b m : Prop := {
  li_core : batch_core b;
  li_len : m < length (_req_ids b);
  li_holes i : i ≤ m → i ∈ removed_of b ↔ _req_ids b !! i = Some None;
  li_above i : m < i → ¬ is_live b i;
}.

Record condensed b b' m k (ms : list (nat * nat)) : Prop := {
  cd_core : batch_core b';
  cd_same : same_requests b b';
  cd_live i : is_live b' i ↔ i < k;
  cd_moved : moved (batch_update_builder b') = moved (batch_update_builder b) ++ (one_way <$> ms);
  cd_occ i : occupant b' i = foldl (apply_move None) (occupant b) (one_way <$> ms) i;
  cd_removed : removed_of b ≡ₚ (snd <$> ms) ++ removed_of b';
  cd_gone i : i ∈ removed_of b' → k ≤ i;
  cd_src x : x ∈ ms → k ≤ x.1 ≤ m ∧ x.2 < x.1 ∧ x.1 < N;
  cd_apart x y : x ∈ ms → y ∈ ms → x.2 < y.1;
}.

Lemma loop_exit b m k : loop_inv b m → k ≤ S m → (∀ i, i < k → i ∉ removed_of b) → (∀ i, k ≤ i → ¬ is_live b i) → condensed b b m k [].
Proof.
  intros [H1 H2 H3 H4] Hk Hin Hout. split; try done.
  - intros i. split; [intros Hi; destruct (decide (i < k)); [done|]; exfalso; apply (Hout i); [lia|done]|].
    intros Hi. destruct (lookup_lt_is_Some_2 (_req_ids b) i) as [[r|] Hr]; [lia|by exists r|]. exfalso. apply (Hin i Hi). apply H3; [lia|done].
  - cbn. by rewrite app_nil_r.
  - intros i Hi. destruct (decide (k ≤ i)); [done|]. exfalso. apply (Hin i); [lia|done].
  - by intros x ?%not_elem_of_nil.
  - by intros x y ?%not_elem_of_nil.
Qed.

Lemma foldl_move_ext_head {T} (none : T) f g l : (∀ i, f i = g i) → ∀ i, foldl (apply_move none) f l i = foldl (apply_move none) g l i.
Proof.
  revert f g. induction l as [|[[a b] dir] l IH]; intros f g E i; cbn [foldl]; [done|]. apply IH. intros j. unfold apply_move.
  destruct (decide _); [done|]. destruct (decide _); [|done]. by destruct (bool_decide _).
Qed.

Lemma condense_loop_ok fuel b m : loop_inv b m → length (removed_of b) ≤ fuel → (∃ i, is_live b i) →
  ∃ b' k ms, condense_loop fuel m b = Ok b' ∧ condensed b b' m k ms.
Proof.
  revert b m. induction fuel as [|fuel IH]; intros b m Hinv Hfuel Hsome; pose proof Hinv as [Hb Hlen Hholes Habove]; unfold removed_of in Hfuel, Hholes; cbn [condense_loop].
  { destruct (_removed (batch_update_builder b)) eqn:E; [|cbn in Hfuel; lia]. exists b, (S m), []. split; [done|]. apply loop_exit; [done|lia| |intros; by apply Habove].
    intros i _. unfold removed_of. rewrite E. apply not_elem_of_nil. }
  destruct (_removed (batch_update_builder b)) eqn:E.
  { exists b, (S m), []. split; [done|]. apply loop_exit; [done|lia| |intros; by apply Habove]. intros i _. unfold removed_of. rewrite E. apply not_elem_of_nil. }
  rewrite <- E in *. assert (_removed (batch_update_builder b) ≠ []) as Hne by (by rewrite E). clear E.
  pose proof (skip_empty_spec m (_removed (batch_update_builder b))) as Hskip. destruct (skip_empty m _) as [m'|].
  2:{ exfalso. destruct Hsome as [i [r Hr]]. destruct (decide (i ≤ m)) as [Hi|Hi]; [|apply (Habove i); [lia|by exists r]]. pose proof (Hskip i Hi) as Hin. apply Hholes in Hin; [congruence|done]. }
  destruct Hskip as (Hm' & Hnot & Hbetween).
  destruct (pop_removed_ok _ (bo_builder _ _ _ _ _ b Hb) Hne) as (e & c & Hpop & Hperm & Hmin & Hc & Hca & Hcm & Hpeek). rewrite Hpeek. cbn [of_option]. rewrite bind_ret.
  assert (e ∈ _removed (batch_update_builder b)) as He by (rewrite Hperm; by left).
  set (b1 := ib_batch_update_builder (_ensure_removed_sorted (batch_update_builder b)) b).
  destruct (ensure_sorted_ok _ (bo_builder _ _ _ _ _ b Hb)) as (Hs1 & Hs2 & Hs3 & Hs4 & Hs5).
  assert (batch_core b1) as Hb1. { destruct Hb. split; try done. }
  assert (same_requests b b1) as Hsr1 by (by split).
  assert (∃ r, _req_ids b !! m' = Some (Some r)) as [r Hr].
  { destruct (lookup_lt_is_Some_2 (_req_ids b) m') as [[r|] Hr]; [lia|by exists r|]. exfalso. apply Hnot, Hholes; [lia|done]. }
  assert (∀ i, m' < i → ¬ is_live b i) as Habove'.
  { intros i Hi [s Hs]. destruct (decide (i ≤ m)); [|apply (Habove i); [lia|by exists s]]. pose proof (Hbetween i Hi ltac:(lia)) as Hin. apply Hholes in Hin; [congruence|done]. }
  case_bool_decide as Hcmp.
  { exists b1, (S m'), []. split; [done|].
    assert (∀ i, i ∈ removed_of b1 → e ≤ i) as Hge.
    { intros i Hi. unfold removed_of, b1 in Hi. cbn in Hi. rewrite Hs2, Hperm in Hi. apply elem_of_cons in Hi as [->|Hi]; [done|]. apply Hmin in Hi. lia. }
    assert (condensed b1 b1 m (S m') []) as Hcd.
    { apply loop_exit; [|lia| |].
      - split; [done|done| |done]. intros i Hi. unfold removed_of, b1. cbn. rewrite Hs2. by apply Hholes.
      - intros i Hi Hin. pose proof (Hge i Hin). assert (i = m') as -> by lia. unfold removed_of, b1 in Hin. cbn in Hin. by rewrite Hs2 in Hin.
      - intros i Hi. apply Habove'. lia. }
    destruct Hcd as [C1 C2 C3 C4 C5 C6 C7 C8 C9]. split; try done.
    cbn. by rewrite Hs5, app_nil_r. }
  assert (e < m') as Hlt by lia.
  assert (pop_removed (batch_update_builder b1) = (Some e, c)) as Hpop1.
  { unfold b1. cbn. rewrite pop_ensure_sorted; [done|apply (bo_builder _ _ _ _ _ b Hb)|done]. }
  destruct (move_down_ok b1 m' e r c Hb1 Hr) as (b2 & -> & Hb2 & Hsr2 & Hids2 & Hbu2); [apply Hholes; [lia|done]|done|done|done|cbn; by rewrite Hca, Hs4|].
  rewrite bind_ret.
  assert (e < length (_req_ids b)) as Hel by lia.
  assert (∀ i, _req_ids b2 !! i = if decide (i = m') then Some None else if decide (i = e) then Some (Some r) else _req_ids b !! i) as Hlook.
  { intros i. rewrite Hids2. cbn. destruct (decide (i = m')) as [->|]; [by rewrite list_lookup_insert_eq by (rewrite length_insert; lia)|]. rewrite list_lookup_insert_ne by done.
    destruct (decide (i = e)) as [->|]; [by rewrite list_lookup_insert_eq|by rewrite list_lookup_insert_ne]. }
  assert (removed_of b2 = _removed c) as Hrem2 by (unfold removed_of; by rewrite Hbu2).
  destruct (IH b2 (m' - 1)) as (b3 & k & ms & -> & [C1 C2 C3 C4 C5 C6 C7 C8 C9]).
  { split; [done| | |].
    - rewrite Hids2, !length_insert. cbn. lia.
    - intros i Hi. rewrite Hrem2, Hlook. rewrite decide_False by lia. destruct (decide (i = e)) as [->|Hie].
      + split; [|done]. intros Hin. apply Hmin in Hin. lia.
      + rewrite <- Hholes by lia. rewrite Hperm, elem_of_cons. naive_solver.
    - intros i Hi [s Hs]. rewrite Hlook in Hs. destruct (decide (i = m')); [done|]. destruct (decide (i = e)); [lia|]. apply (Habove' i); [lia|by exists s]. }
  { apply Permutation_length in Hperm. cbn in Hperm. rewrite Hrem2. lia. }
  { exists e, r. rewrite Hlook. rewrite decide_False by lia. by rewrite decide_True. }
  exists b3, k, ((m', e) :: ms). split; [done|].
  assert (∀ x, x ∈ ms → e < x.2) as Htgt.
  { intros x Hx. apply Hmin. rewrite <- Hrem2, C6. apply elem_of_app. left. apply list_elem_of_fmap. by exists x. }
  split; try done.
  - etrans; [exact Hsr1|]. by etrans.
  - rewrite C4, Hbu2. cbn. rewrite Hcm, <- app_assoc. done.
  - intros i. rewrite C5. cbn [fmap list_fmap foldl]. apply foldl_move_ext_head. intros j. unfold one_way, apply_move, occupant. cbn [fst snd]. rewrite (bool_decide_false (UNIDIRECTIONAL = SWAP)) by done.
    rewrite Hlook, Hr. destruct (decide (j = e)) as [->|]; [by rewrite decide_False by lia|]. by destruct (decide (j = m')).
  - unfold removed_of in *. rewrite Hperm. cbn. by rewrite <- Hrem2, C6.
  - intros x [->|Hx]%elem_of_cons; cbn.
    + split; [|split; [done|]].
      * split; [|done]. destruct (decide (k ≤ m')) as [|Hk]; [done|]. exfalso. assert (is_live b3 m') as [s Hs] by (apply C3; lia).
        assert (occupant b3 m' = None) as Ho; [|unfold occupant in Ho; by rewrite Hs in Ho].
        rewrite C5. assert (∀ x, x ∈ ms → x.1 ≠ m' ∧ x.2 ≠ m') as Hms by (intros x Hx; destruct (C8 x Hx) as (? & ? & ?); lia).
        assert (occupant b2 m' = None) as Ho2 by (unfold occupant; rewrite Hlook; by rewrite decide_True). clear -Hms Ho2. revert Ho2. generalize (occupant b2) as f.
        induction ms as [|x ms IH]; intros f Hf; cbn; [done|]. apply IH; [intros; apply Hms; by right|]. destruct (Hms x) as [H1 H2]; [by left|]. by rewrite !decide_False by done.
      * apply (live_bound _ _ _ _ _ b m' r Hb Hr).
    + destruct (C8 x Hx) as (? & ? & ?). split; [lia|done].
  - intros x y [->|Hx]%elem_of_cons [->|Hy]%elem_of_cons; cbn.
    + done.
    + pose proof (Htgt y Hy). destruct (C8 y Hy) as (? & ? & ?). lia.
    + destruct (C8 x Hx) as (? & ? & ?). lia.
    + by apply C9.
Qed.

(** The number of requests is the number of rows in use. *)
Lemma live_count b k : batch_core b → (∀ i, is_live b i ↔ i < k) → num_reqs b = k.
Proof.
  intros Hb Hk. set (f := λ i, default EmptyString (occupant b i)).
  assert (∀ i, i < k → _req_ids b !! i = Some (Some (f i))) as Hf.
  { intros i [r Hr]%Hk. unfold f, occupant. rewrite Hr. done. }
  assert (dom (req_id_to_index b) = list_to_set (f <$> seq 0 k)) as Hd.
  { apply set_eq. intros r. rewrite elem_of_dom, elem_of_list_to_set, list_elem_of_fmap. split.
    - intros [i Hi]. apply (bo_index _ _ _ _ _ b Hb) in Hi. assert (i < k) as Hlt by (apply Hk; by exists r). exists i. split; [|apply elem_of_seq; lia]. rewrite Hf in Hi by done. congruence.
    - intros (i & -> & Hi%elem_of_seq). exists i. apply (bo_index _ _ _ _ _ b Hb), Hf. lia. }
  unfold num_reqs. rewrite <- size_dom, Hd, size_list_to_set; [by rewrite length_fmap, length_seq|]. apply NoDup_fmap_2_strong; [|apply NoDup_seq].
  intros i j Hi%elem_of_seq Hj%elem_of_seq E. apply (live_unique _ _ _ _ _ b i j (f i) Hb); [apply Hf; lia|]. rewrite E. apply Hf. lia.
Qed.

(** Trailing rows without request are cut off. *)
Definition cut k b : InputBatch :=
  ib_spec_token_ids (take k (spec_token_ids b)) (ib_req_output_token_ids (take k (req_output_token_ids b)) (ib_req_ids (take k (_req_ids b)) b)).
Lemma cut_ids k b : (∀ i, is_live b i → i < k) → ∀ i r, take k (_req_ids b) !! i = Some (Some r) ↔ _req_ids b !! i = Some (Some r).
Proof.
  intros Hk i r. destruct (decide (i < k)) as [Hi|Hi]; [by rewrite lookup_take_lt|]. rewrite lookup_take_ge by lia. split; [done|]. intros Hr. exfalso. apply Hi, Hk. by exists r.
Qed.
Lemma cut_core k b : batch_core b → (∀ i, is_live b i → i < k) → batch_core (cut k b).
Proof.
  intros Hb Hk. pose proof (cut_ids k b Hk) as Hids. destruct Hb as [B1 B2 B3 B4 B5 B6 Bsame B7 B8 B9 B10 B11 B12 B13 B16 B17 B18].
  split; cbn; try done; rewrite ?length_take; try lia.
  - intros r i. by rewrite Hids.
  - intros i r Hr%Hids. assert (i < k) by (apply Hk; by exists r). destruct (B11 i r Hr) as (o & sp & c & ? & ? & ?). exists o, sp, c. by rewrite !lookup_take_lt.
  - intros i sp Hi. destruct (decide (i < k)); [|by rewrite lookup_take_ge by lia]. rewrite lookup_take_lt by done. apply B12. lia.
  - intros i g Hg. destruct (B16 i g Hg) as [r Hr]. exists r. by apply Hids.
  - intros i g Hg. destruct (B17 i g Hg) as [r Hr]. exists r. by apply Hids.
Qed.
Lemma cut_same k b : batch_core b → (∀ i, is_live b i → i < k) → same_requests b (cut k b).
Proof.
  intros Hb Hk. pose proof (cut_ids k b Hk) as Hids. split; try done. intros r. apply (view_rename b (cut k b) r id); [done|by apply cut_core| |].
  - intros i Hi. cbn. split; [by apply Hids|]. assert (i < k) by (apply Hk; by exists r). apply row_view_frame; cbn; try done; by rewrite lookup_take_lt.
  - intros i Hi. exists i. by apply Hids.
Qed.
Lemma cut_occupant k b i : (∀ j, is_live b j → j < k) → occupant (cut k b) i = occupant b i.
Proof.
  intros Hk. unfold occupant. cbn. destruct (decide (i < k)); [by rewrite lookup_take_lt|]. rewrite lookup_take_ge by lia. cbn.
  destruct (_req_ids b !! i) as [[r|]|] eqn:E; [|done|done]. exfalso. assert (i < k); [|lia]. apply Hk. by exists r.
Qed.

(** Rows [0 .. num_reqs - 1] are in use. *)
Record batch_dense b : Prop := {
  bd_core :> batch_core b;
  bd_num : num_reqs b = length (_req_ids b);
  bd_full i : is_live b i ↔ i < num_reqs b;
  bd_gone i : i ∈ removed_of b → num_reqs b ≤ i;
}.
Record moved_down b b' (ms : list (nat * nat)) : Prop := {
  md_moved : moved (batch_update_builder b') = moved (batch_update_builder b) ++ (one_way <$> ms);
  md_occ i : occupant b' i = foldl (apply_move None) (occupant b) (one_way <$> ms) i;
  md_removed : removed_of b ≡ₚ (snd <$> ms) ++ removed_of b';
  md_src x : x ∈ ms → num_reqs b' ≤ x.1 ∧ x.2 < x.1 ∧ x.1 < N;
  md_apart x y : x ∈ ms → y ∈ ms → x.2 < y.1;
}.

Lemma condense_ok b : batch_ok b → ∃ b' ms, condense b = Ok b' ∧ batch_dense b' ∧ same_requests b b' ∧ moved_down b b' ms.
Proof.
  intros Hb. unfold condense, removed. destruct (ensure_sorted_ok _ (bo_builder _ _ _ _ _ b Hb)) as (Hs1 & Hs2 & Hs3 & Hs4 & Hs5).
  set (b1 := ib_batch_update_builder (_ensure_removed_sorted (batch_update_builder b)) b).
  assert (batch_core b1) as Hb1 by (destruct Hb as [[] _ _]; by split). assert (same_requests b b1) as Hsr1 by (by split).
  assert (∀ ms b', condensed b1 b' (length (_req_ids b) - 1) (num_reqs b) ms → let b2 := cut (num_reqs b) b' in
    length (_req_ids b') ≥ num_reqs b → batch_dense b2 ∧ same_requests b b2 ∧ moved_down b b2 ms) as Hfin.
  { intros ms b' [C1 C2 C3 C4 C5 C6 C7 C8 C9] b2 Hlen. assert (∀ i, is_live b' i → i < num_reqs b) as Hlt by (intros; by apply C3).
    assert (same_requests b b2) as Hsr by (etrans; [exact Hsr1|]; etrans; [exact C2|]; by apply cut_same).
    pose proof (same_requests_num _ _ Hsr) as Hnum. split; [|split; [done|]].
    - split; [by apply cut_core| | |].
      + rewrite Hnum. cbn. rewrite length_take. lia.
      + intros i. rewrite Hnum, <- C3. unfold is_live. cbn. split; intros [r Hr]; exists r; by apply (cut_ids (num_reqs b) b').
      + intros i Hi. rewrite Hnum. by apply C7.
    - split; [by rewrite <- Hs5| | |intros x Hx; rewrite Hnum; destruct (C8 x Hx) as (? & ? & ?); lia|done].
      + intros i. unfold b2. rewrite cut_occupant by done. apply C5.
      + unfold removed_of in *. rewrite <- Hs2. exact C6. }
  pose proof (bo_count _ _ _ _ _ b Hb) as Hcount.
  destruct (_removed (_ensure_removed_sorted (batch_update_builder b))) as [|e l] eqn:E.
  - apply Permutation_nil_l in Hs2. symmetry in Hs2. rewrite Hs2 in Hcount. cbn in Hcount. exists b1, []. split; [done|].
    assert (∀ i, is_live b i ↔ i < num_reqs b) as Hlive.
    { intros i. split; [intros [r Hr%lookup_lt_Some]; lia|]. intros Hi. destruct (lookup_lt_is_Some_2 (_req_ids b) i) as [[r|] Hr]; [lia|by exists r|].
      apply (bo_holes _ _ _ _ _ b Hb) in Hr. rewrite Hs2 in Hr. by apply not_elem_of_nil in Hr. }
    split; [|split; [done|]].
    + split; [done|unfold num_reqs in *; cbn; lia|done|]. intros i. unfold removed_of, b1. cbn. rewrite E. by intros ?%not_elem_of_nil.
    + split; [cbn; by rewrite Hs5, app_nil_r|done| |by intros x ?%not_elem_of_nil|by intros x y ?%not_elem_of_nil]. unfold removed_of, b1. cbn. by rewrite E, Hs2.
  - rewrite <- E in *. assert (length (_removed (_ensure_removed_sorted (batch_update_builder b))) = length (removed_of b)) as Hrl by (by apply Permutation_length in Hs2).
    unfold removed_of in Hrl. case_bool_decide as Hz.
    + assert (∀ i, ¬ is_live b1 i) as Hdead.
      { intros i [r Hr]. apply (bo_index _ _ _ _ _ b Hb) in Hr. apply map_size_empty_inv in Hz. by rewrite Hz in Hr. }
      destruct (Hfin [] b1) as (Hd & Hsr & Hmd); [|lia|].
      { rewrite Hz. split; try done.
        - intros i. split; [by intros ?%Hdead|lia].
        - cbn. by rewrite app_nil_r.
        - intros; lia.
        - by intros x ?%not_elem_of_nil.
        - by intros x y ?%not_elem_of_nil. }
      eexists _, []. split; [done|]. rewrite Hz in Hd, Hsr, Hmd. unfold cut in Hd, Hsr, Hmd. by rewrite !take_0 in Hd, Hsr, Hmd.
    + assert (0 < length (_removed (batch_update_builder b))) as Hpos by (rewrite <- Hrl, E; cbn; lia).
      destruct (condense_loop_ok (length (_removed (_ensure_removed_sorted (batch_update_builder b)))) b1 (num_reqs b + length (_removed (_ensure_removed_sorted (batch_update_builder b))) - 1))
        as (b' & k & ms & -> & Hcd).
      { split; [done|cbn; lia| |].
        - intros i Hi. unfold removed_of, b1. cbn. rewrite Hs2. apply (bo_holes _ _ _ _ _ b Hb).
        - intros i Hi [r Hr%lookup_lt_Some]. cbn in Hr. lia. }
      { done. }
      { destruct (map_choose (req_id_to_index b)) as (r & i & Hr); [intros He; apply Hz; unfold num_reqs; by rewrite He|]. exists i, r. by apply (bo_index _ _ _ _ _ b Hb). }
      rewrite bind_ret. assert (k = num_reqs b) as ->.
      { rewrite <- (live_count b' k (cd_core _ _ _ _ _ Hcd) (cd_live _ _ _ _ _ Hcd)). rewrite (same_requests_num _ _ (cd_same _ _ _ _ _ Hcd)). done. }
      destruct (Hfin ms b') as (Hd & Hsr & Hmd); [|..|by eexists _, ms].
      * replace (length (_req_ids b) - 1) with (num_reqs b + length (_removed (_ensure_removed_sorted (batch_update_builder b))) - 1) by lia. done.
      * destruct (decide (num_reqs b = 0)); [done|]. assert (is_live b' (num_reqs b - 1)) as [r Hr%lookup_lt_Some] by (apply (cd_live _ _ _ _ _ Hcd); lia). lia.
Qed.

(** ** Swapping rows *)

Lemma swap_states_ok b i1 i2 : batch_dense b → i1 < num_reqs b → i2 < num_reqs b → i1 ≠ i2 →
  ∃ b', swap_states i1 i2 b = Ok b' ∧ batch_dense b' ∧ same_requests b b' ∧ _req_ids b' = swap_cells i1 i2 (_req_ids b) ∧
    (∀ k, cells b' !! k ≫= (λ c, Some (scalars c)) = cells b !! (if decide (k = i1) then i2 else if decide (k = i2) then i1 else k) ≫= (λ c, Some (scalars c))) ∧
    moved (batch_update_builder b') = moved (batch_update_builder b) ++ [(i1, i2, SWAP)] ∧ removed_of b' = removed_of b.
Proof.
  intros Hd H1 H2 Hne. pose proof (bd_core _ Hd) as Hb. destruct (proj2 (bd_full b Hd i1) H1) as [r1 Hr1]. destruct (proj2 (bd_full b Hd i2) H2) as [r2 Hr2].
  pose proof (live_bound _ _ _ _ _ b i1 r1 Hb Hr1) as HN1. pose proof (live_bound _ _ _ _ _ b i2 r2 Hb Hr2) as HN2.
  destruct (bo_live _ _ _ _ _ b Hb i1 r1 Hr1) as (o1 & s1 & c1 & Ho1 & Hs1 & Hc1). destruct (bo_live _ _ _ _ _ b Hb i2 r2 Hr2) as (o2 & s2 & c2 & Ho2 & Hs2 & Hc2).
  destruct (Forall_lookup_1 _ _ _ _ (bo_width _ _ _ _ _ b Hb) Hc1) as [Ht1 Hf1]. destruct (Forall_lookup_1 _ _ _ _ (bo_width _ _ _ _ _ b Hb) Hc2) as [Ht2 Hf2].
  pose proof (lookup_lt_Some _ _ _ Hr1) as Hl1. pose proof (lookup_lt_Some _ _ _ Hr2) as Hl2. pose proof (bo_outs _ _ _ _ _ b Hb) as Hol. pose proof (bo_specs _ _ _ _ _ b Hb) as Hsl.
  pose proof (proj2 (bo_index _ _ _ _ _ b Hb r1 i1) Hr1) as Hx1. pose proof (proj2 (bo_index _ _ _ _ _ b Hb r2 i2) Hr2) as Hx2.
  unfold swap_states, _get_active_token_count. rewrite Hr1, Hr2, Hc1, Hc2, Hs1, Hs2, Ho1, Ho2. cbn [of_option]. rewrite !bind_ret. cbn [of_option]. rewrite !bind_ret.
  cbn [req_id_to_index ib_spec_token_ids ib_req_output_token_ids ib_req_ids]. rewrite Hx1, Hx2. cbn [of_option]. rewrite !bind_ret.
  cbn [cells ib_spec_token_ids ib_req_output_token_ids ib_req_ids ib_req_id_to_index is_pooling_model]. rewrite Hc1, Hc2. cbn [of_option]. rewrite !bind_ret. rewrite (bo_gen _ _ _ _ _ b Hb).
  set (n := max (num_tokens_no_spec c1 + length s1) (num_tokens_no_spec c2 + length s2)).
  cbn [block_table ib_spec_token_ids ib_req_output_token_ids ib_req_ids ib_req_id_to_index ib_cells ib_req_prompt_embeds].
  destruct (multi_swap_row_ok N Ws (block_table b) i1 i2 (bo_tables _ _ _ _ _ b Hb) HN1 HN2) as (bt & -> & Hbt & Hsame & Hblocks). rewrite bind_ret. cbn. rewrite (bo_gen _ _ _ _ _ b Hb).
  eexists. split; [done|]. match goal with |- batch_dense ?b1 ∧ _ => set (b' := b1) end.
  set (p := λ k, if decide (k = i1) then i2 else if decide (k = i2) then i1 else k).
  assert (∀ k, p (p k) = k) as Hpp.
  { intros k. unfold p. destruct (decide (k = i1)) as [->|]; [rewrite decide_False by done; by rewrite decide_True|]. destruct (decide (k = i2)) as [->|]; [by rewrite decide_True|]. by rewrite !decide_False. }
  assert (∀ A (l : list A) k, i1 < length l → i2 < length l → swap_cells i1 i2 l !! k = l !! p k) as Hsw by (intros; by apply lookup_swap_cells).
  set (r1' := receive_cells false n c2 c1). set (r2' := receive_cells false n c1 c2).
  assert (∀ k, <[i2 := r2']> (<[i1 := r1']> (cells b)) !! k = if decide (k = i1) then Some r1' else if decide (k = i2) then Some r2' else cells b !! k) as Hcl.
  { pose proof (bo_cells _ _ _ _ _ b Hb). intros k. destruct (decide (k = i1)) as [->|]; [rewrite list_lookup_insert_ne by done; by rewrite list_lookup_insert_eq by lia|].
    destruct (decide (k = i2)) as [->|]; [by rewrite list_lookup_insert_eq by (rewrite length_insert; lia)|]. by rewrite !list_lookup_insert_ne. }
  assert (∀ k, row_view b' k = row_view b (p k)) as Hrow.
  { intros k. unfold row_view. cbn. rewrite !Hsw by lia. rewrite Hcl, Hblocks, !lookup_swap_dict. fold (p k). unfold p.
    destruct (decide (k = i1)) as [->|]; [|destruct (decide (k = i2)) as [->|]; [|done]].
    - rewrite Ho2, Hs2, Hc2. cbn. by rewrite !take_receive by (unfold n; lia).
    - rewrite Ho1, Hs1, Hc1. cbn. by rewrite !take_receive by (unfold n; lia). }
  assert (∀ k r, swap_cells i1 i2 (_req_ids b) !! k = Some (Some r) ↔ _req_ids b !! p k = Some (Some r)) as Hids by (intros k r; by rewrite Hsw).
  assert (batch_core b') as Hb'.
  { destruct Hb as [B1 B2 B3 B4 B5 B6 Bsame B7 B8 B9 B10 B11 B12 B13 B16 B17 B18]. split; cbn; rewrite ?length_insert, ?length_swap_cells; try done.
    - apply Forall_insert; [apply Forall_insert; [done|]|]; cbn; rewrite !length_receive by lia; done.
    - by eapply same_tables_trans.
    - intros r k. rewrite Hids, <- B10. unfold p. destruct (decide (r = r2)) as [->|].
      + rewrite lookup_insert_eq, Hx2. destruct (decide (k = i1)) as [->|]; [done|]. destruct (decide (k = i2)) as [->|]; split; congruence.
      + rewrite lookup_insert_ne by done. destruct (decide (r = r1)) as [->|].
        * rewrite lookup_insert_eq, Hx1. destruct (decide (k = i1)) as [->|]; [split; congruence|]. destruct (decide (k = i2)) as [->|]; split; congruence.
        * rewrite lookup_insert_ne by done. rewrite !B10. destruct (decide (k = i1)) as [->|]; [split; congruence|]. destruct (decide (k = i2)) as [->|]; [split; congruence|done].
    - intros k r Hk%Hids. destruct (B11 _ r Hk) as (o & sp & c & E1 & E2 & E3). rewrite !Hsw by lia. rewrite Hcl. unfold p in *.
      destruct (decide (k = i1)) as [->|]; [|destruct (decide (k = i2)) as [->|]; [|by exists o, sp, c]].
      + exists o, sp, r1'. rewrite E1, E2. simplify_eq. done.
      + exists o, sp, r2'. rewrite E1, E2. simplify_eq. done.
    - intros k sp Hk. rewrite Hsw by lia. unfold p. rewrite !decide_False by lia. by apply B12.
    - destruct B13 as [D1 D2]. by split.
    - intros k g. rewrite lookup_swap_dict. fold (p k). intros Hg. destruct (B16 _ g Hg) as [r Hr]. exists r. by apply Hids.
    - intros k g. rewrite lookup_swap_dict. fold (p k). intros Hg. destruct (B17 _ g Hg) as [r Hr]. exists r. by apply Hids.
    - intros m. destruct (allowed_token_ids_mask_cpu_tensor b) as [m'|] eqn:E; [|done]. cbn. intros [= <-]. unfold swap_mask_rows. rewrite !length_move_cell. by apply B18. }
  assert (same_requests b b') as Hsr.
  { split; cbn; try done.
    - intros r. apply (view_rename b b' r p); [done|done| |].
      + intros k Hk. split; [apply Hids; by rewrite Hpp|]. by rewrite Hrow, Hpp.
      + intros k Hk%Hids. by exists (p k).
    - by rewrite fmap_is_Some.
    - rewrite !dom_insert_L. apply elem_of_dom_2 in Hx1, Hx2. set_solver. }
  pose proof (same_requests_num _ _ Hsr) as Hnum. split; [|split; [done|split; [done|split; [|done]]]].
  - split; [done| | |].
    + rewrite Hnum. cbn. rewrite length_swap_cells. apply (bd_num b Hd).
    + intros k. rewrite Hnum. transitivity (is_live b (p k)); [split; intros [r Hr]; exists r; by apply Hids|]. rewrite (bd_full b Hd). unfold p.
      destruct (decide (k = i1)) as [->|]; [lia|]. destruct (decide (k = i2)) as [->|]; lia.
    + intros k. rewrite Hnum. apply (bd_gone b Hd).
  - intros k. cbn. rewrite Hcl. destruct (decide (k = i1)) as [->|]; [by rewrite Hc2|]. destruct (decide (k = i2)) as [->|]; [by rewrite Hc1|done].
Qed.
Lemma swap_occupant b b' i1 i2 : _req_ids b' = swap_cells i1 i2 (_req_ids b) → i1 < length (_req_ids b) → i2 < length (_req_ids b) →
  ∀ k, occupant b' k = apply_move None (occupant b) (i1, i2, SWAP) k.
Proof.
  intros E H1 H2 k. unfold occupant, apply_move. rewrite E, lookup_swap_cells by done. rewrite bool_decide_true by done.
  destruct (decide (k = i1)) as [E1|], (decide (k = i2)) as [E2|]; subst; done.
Qed.
End Moves.
