(* ===== verification/BatchStep.v ===== *)
(** * A step of the batch

    Reordering sorts the rows by region; with the other operations, the batch holds for
    every request what was added for it. *)

From Stdlib Require Import QArith Qcanon.
From stdpp Require Import sorting.
From S2P Require Import Prelude BlockTable LogitsProcs LogitsSpec InputBatch BatchInv BatchOps BatchMoves.

Local Open Scope nat_scope.

(** ** Reordering sorts the rows by region *)

(** *** Sorting by region *)

Lemma filter_ext_in {A} (P Q : A → Prop) `{∀ x, Decision (P x)} `{∀ x, Decision (Q x)} (l : list A) : (∀ x, x ∈ l → P x ↔ Q x) → filter P l = filter Q l.
Proof.
  induction l as [|x l IH]; intros HPQ; [done|]. rewrite !filter_cons. rewrite IH by (intros; apply HPQ; by right). pose proof (HPQ x ltac:(by left)).
  repeat case_decide; tauto || done.
Qed.

(** A list split by a key. *)
Lemma concat_insert {A} (f : A → nat) (x : A) (g : nat → list A) ks : f x ∈ ks → NoDup ks →
  concat ((λ k, if decide (f x = k) then x :: g k else g k) <$> ks) ≡ₚ x :: concat (g <$> ks).
Proof.
  intros Hin Hnd. induction Hnd as [|k ks Hk _ IH]; [by apply not_elem_of_nil in Hin|]. cbn. apply elem_of_cons in Hin as [Heq|Hin].
  - subst k. rewrite decide_True by done. cbn. do 2 f_equiv. assert (∀ k', k' ∈ ks → (if decide (f x = k') then x :: g k' else g k') = g k') as E.
    { intros k' Hk'. rewrite decide_False; [done|]. by intros <-. }
    clear -E. induction ks as [|k' ks IH]; cbn; [done|]. rewrite E by left. f_equiv. apply IH. intros. apply E. by right.
  - rewrite decide_False by (by intros <-). rewrite IH by done. by rewrite Permutation_middle.
Qed.
Lemma split_by_key {A} (f : A → nat) (l : list A) ks : NoDup ks → (∀ x, x ∈ l → f x ∈ ks) → concat ((λ k, filter (λ x, f x = k) l) <$> ks) ≡ₚ l.
Proof.
  intros Hnd. induction l as [|x l IH]; intros Hin.
  - clear. induction ks; cbn; done.
  - assert (((λ k, filter (λ y, f y = k) (x :: l)) <$> ks) = ((λ k, if decide (f x = k) then x :: filter (λ y, f y = k) l else filter (λ y, f y = k) l) <$> ks)) as ->.
    { apply list_fmap_ext. intros _ k _. by rewrite filter_cons. }
    rewrite (concat_insert f); [|apply Hin; by left|done]. f_equiv. apply IH. intros. apply Hin. by right.
Qed.
Lemma filter_eq_replicate {A} (f : A → nat) (l : list A) k : f <$> filter (λ x, f x = k) l = replicate (length (filter (λ x, f x = k) l)) k.
Proof. induction l as [|x l IH]; [done|]. rewrite filter_cons. case_decide as E; [|done]. cbn [fmap list_fmap length replicate]. by rewrite IH, E. Qed.
Lemma sorted_buckets (n : nat → nat) m a : StronglySorted le (concat ((λ k, replicate (n k) k) <$> seq a m)).
Proof.
  revert a. induction m as [|m IH]; intros a; cbn; [constructor|]. apply StronglySorted_app_2.
  - intros x y Hx Hy. apply elem_of_replicate in Hx as [-> _]. apply list_elem_of_In, in_concat in Hy as (l & Hl & Hy). apply list_elem_of_In, list_elem_of_fmap in Hl as (k & -> & Hk%elem_of_seq).
    apply list_elem_of_In, elem_of_replicate in Hy as [-> _]. lia.
  - induction (n a); cbn; constructor; [done|]. apply Forall_forall. intros y Hy. apply elem_of_replicate in Hy as [-> _]. done.
  - apply IH.
Qed.

Lemma sorted_fmap {A} (R : A → A → Prop) (f : A → nat) (l : list A) : StronglySorted R l → (∀ x y, x ∈ l → y ∈ l → R x y → f x ≤ f y) → StronglySorted le (f <$> l).
Proof.
  induction 1 as [|x l Hs IH Hf]; intros Hm; cbn; constructor.
  - apply IH. intros y z Hy Hz. apply Hm; by right.
  - apply Forall_fmap, Forall_forall. intros y Hy. rewrite Forall_forall in Hf. apply Hm; [by left|by right|by apply Hf].
Qed.
Lemma sorted_filter {A} (R : A → A → Prop) (P : A → Prop) `{∀ x, Decision (P x)} (l : list A) : StronglySorted R l → StronglySorted R (filter P l).
Proof.
  induction 1 as [|x l Hs IH Hf]; [constructor|]. rewrite filter_cons. case_decide; [|done]. constructor; [done|]. apply Forall_forall. intros y [_ Hy]%list_elem_of_filter.
  rewrite Forall_forall in Hf. by apply Hf.
Qed.
Lemma sorted_seq a n : StronglySorted lt (seq a n).
Proof. revert a. induction n as [|n IH]; intros a; cbn; constructor; [done|]. apply Forall_forall. intros y Hy%elem_of_seq. lia. Qed.
Lemma sorted_lookup (l : list nat) i j x y : StronglySorted le l → l !! i = Some x → l !! j = Some y → i ≤ j → x ≤ y.
Proof.
  intros Hs. revert i j. induction Hs as [|z l Hs IH Hf]; intros i j; [done|]. destruct i as [|i], j as [|j]; cbn; intros Hi Hj Hle; simplify_eq; [done| |lia|].
  - rewrite Forall_forall in Hf. apply Hf. by eapply list_elem_of_lookup_2.
  - apply (IH i j); [done|done|lia].
Qed.
Lemma fmap_concat_fmap {A B C} (f : B → C) (g : A → list B) l : f <$> concat (g <$> l) = concat ((λ x, f <$> g x) <$> l).
Proof. induction l as [|x l IH]; cbn; [done|]. by rewrite fmap_app, IH. Qed.
Lemma fmap_lookup_seq (l : list nat) : (λ i, default 0 (l !! i)) <$> seq 0 (length l) = l.
Proof.
  apply list_eq. intros i. rewrite list_lookup_fmap. destruct (decide (i < length l)) as [Hi|Hi].
  - rewrite lookup_seq_lt by done. destruct (lookup_lt_is_Some_2 l i Hi) as [x Hx]. cbn. by rewrite Hx.
  - rewrite lookup_seq_ge by lia. symmetry. apply lookup_ge_None_2. lia.
Qed.

Section Regions.
Variable rg : list nat.
Hypothesis rg_small : ∀ i k, rg !! i = Some k → k < 4.
Let target := target_regions rg.
Let key (i : nat) : nat := default 0 (rg !! i).

Lemma target_sorted : StronglySorted le target.
Proof. apply (sorted_buckets (num_in_region rg)). Qed.
Lemma target_perm : target ≡ₚ rg.
Proof.
  unfold target, target_regions. etrans; [|apply (split_by_key id rg (seq 0 4)); [apply NoDup_seq|]].
  - assert (∀ k, replicate (num_in_region rg k) k = filter (λ x, id x = k) rg) as E.
    { intros k. rewrite <- (list_fmap_id (filter _ rg)). rewrite (filter_eq_replicate id). unfold num_in_region. f_equal. f_equal. apply list_filter_iff. intros x. cbn. split; congruence. }
    rewrite (list_fmap_ext _ (λ k, filter (λ x, id x = k) rg) (seq 0 4)); [done|]. intros _ k _. apply E.
  - intros x [i Hi]%list_elem_of_lookup. apply elem_of_seq. cbn. pose proof (rg_small i x Hi). lia.
Qed.
Lemma target_length : length target = length rg.
Proof. apply Permutation_length, target_perm. Qed.

Lemma orig_elem i : i ∈ orig_indices rg ↔ i < length rg ∧ rg !! i ≠ target !! i.
Proof. unfold orig_indices. rewrite list_elem_of_filter, elem_of_seq. fold target. naive_solver lia. Qed.
Lemma orig_nodup : NoDup (orig_indices rg).
Proof. apply NoDup_filter, NoDup_seq. Qed.
Lemma src_perm : src_indices rg ≡ₚ orig_indices rg.
Proof.
  unfold src_indices. assert (∀ k, filter (λ i, rg !! i = Some k) (orig_indices rg) = filter (λ i, key i = k) (orig_indices rg)) as E.
  { intros k. apply filter_ext_in. intros i Hi%orig_elem. destruct (lookup_lt_is_Some_2 rg i) as [x Hx]; [tauto|]. unfold key. rewrite Hx. cbn. naive_solver. }
  rewrite (list_fmap_ext _ (λ k, filter (λ i, key i = k) (orig_indices rg)) (seq 0 4)) by (intros _ k _; apply E). apply split_by_key; [apply NoDup_seq|].
  intros i Hi%orig_elem. destruct (lookup_lt_is_Some_2 rg i) as [x Hx]; [tauto|]. apply elem_of_seq. unfold key. rewrite Hx. pose proof (rg_small i x Hx). cbn. lia.
Qed.

Let tkey (i : nat) : nat := default 0 (target !! i).
Lemma keys_perm : key <$> orig_indices rg ≡ₚ tkey <$> orig_indices rg.
Proof.
  set (P := λ i, rg !! i ≠ target !! i). set (rest := filter (λ i, ¬ P i) (seq 0 (length rg))).
  assert (key <$> rest = tkey <$> rest) as Hrest.
  { apply list_fmap_ext. intros n i Hi. apply list_elem_of_lookup_2, list_elem_of_filter in Hi as [Hi _]. unfold P in Hi. apply dec_stable in Hi. unfold key, tkey. by rewrite Hi. }
  apply (Permutation_app_inv_r (key <$> rest)). rewrite Hrest at 2. rewrite <- !fmap_app.
  assert (orig_indices rg ++ rest ≡ₚ seq 0 (length rg)) as -> by apply (filter_app_complement P).
  unfold key at 1. rewrite fmap_lookup_seq. unfold tkey. rewrite <- target_length, fmap_lookup_seq. symmetry. apply target_perm.
Qed.
Lemma src_keys : key <$> src_indices rg = tkey <$> orig_indices rg.
Proof.
  apply (StronglySorted_unique le).
  - unfold src_indices. rewrite fmap_concat_fmap.
    rewrite (list_fmap_ext _ (λ k, replicate (length (filter (λ i, key i = k) (orig_indices rg))) k) (seq 0 4)); [apply (sorted_buckets (λ k, length (filter (λ i, key i = k) (orig_indices rg))))|].
    intros _ k _. rewrite <- (filter_eq_replicate key). f_equal. apply filter_ext_in. intros i Hi%orig_elem. destruct (lookup_lt_is_Some_2 rg i) as [x Hx]; [tauto|]. unfold key. rewrite Hx. cbn. naive_solver.
  - apply (sorted_fmap lt); [apply sorted_filter, sorted_seq|]. intros i j Hi%orig_elem Hj%orig_elem Hlt. unfold tkey.
    destruct (lookup_lt_is_Some_2 target i) as [x Hx]; [rewrite target_length; tauto|]. destruct (lookup_lt_is_Some_2 target j) as [y Hy]; [rewrite target_length; tauto|]. rewrite Hx, Hy. cbn.
    eapply sorted_lookup; [apply target_sorted|exact Hx|exact Hy|lia].
  - rewrite src_perm. apply keys_perm.
Qed.
Lemma src_length : length (src_indices rg) = length (orig_indices rg).
Proof. apply Permutation_length, src_perm. Qed.

(** A row goes where its region belongs. *)
Lemma src_dest j s o : src_indices rg !! j = Some s → orig_indices rg !! j = Some o → rg !! s = target !! o.
Proof.
  intros Hs Ho. pose proof (f_equal (.!! j) src_keys) as E. rewrite !list_lookup_fmap, Hs, Ho in E. cbn in E. injection E as E. unfold key, tkey in E.
  assert (s ∈ orig_indices rg) as Hs' by (rewrite <- src_perm; by eapply list_elem_of_lookup_2). apply orig_elem in Hs' as [Hs' _].
  assert (o ∈ orig_indices rg) as Ho' by (by eapply list_elem_of_lookup_2). apply orig_elem in Ho' as [Ho' _].
  destruct (lookup_lt_is_Some_2 rg s) as [x Hx]; [done|]. destruct (lookup_lt_is_Some_2 target o) as [y Hy]; [by rewrite target_length|]. rewrite Hx, Hy in *. cbn in E. by subst.
Qed.
End Regions.

(** *** Swapping along the cycles *)

Lemma length_filter_lt {A} (P Q : A → Prop) `{∀ x, Decision (P x)} `{∀ x, Decision (Q x)} (l : list A) x : (∀ y, y ∈ l → P y → Q y) → x ∈ l → Q x → ¬ P x →
  length (filter P l) < length (filter Q l).
Proof.
  intros Himp Hx HQ HP. assert (∀ l, (∀ y, y ∈ l → P y → Q y) → length (filter P l) ≤ length (filter Q l)) as Hle.
  { clear. intros l. induction l as [|y l IH]; intros Hi; [done|]. rewrite !filter_cons. pose proof (Hi y ltac:(by left)). specialize (IH (λ z Hz, Hi z (list_elem_of_further _ _ _ Hz))).
    repeat case_decide; cbn; [lia|tauto|lia|lia]. }
  induction l as [|y l IH]; [by apply not_elem_of_nil in Hx|]. rewrite !filter_cons. apply elem_of_cons in Hx as [<-|Hx].
  - rewrite decide_False, decide_True by done. cbn. pose proof (Hle l ltac:(intros; apply Himp; [by right|done])). lia.
  - specialize (IH ltac:(intros; apply Himp; [by right|done]) Hx). pose proof (Himp y ltac:(by left)). repeat case_decide; cbn; [lia|tauto|lia|lia].
Qed.

Section Reorder.
Context (N L V : nat) (Ws : list nat) (T0 : MultiGroupBlockTable).
Context (threshold : Z) (scheduled : gmap string Z).
Implicit Types (b : InputBatch) (rg : list nat).
Notation batch_dense := (batch_dense N L V Ws T0).

(** The effect of a sequence of swaps. *)
Definition two_way (x : nat * nat) : MovedRequest := (x.1, x.2, SWAP).
Record swapped b b' (sw : list (nat * nat)) : Prop := {
  sw_dense : batch_dense b';
  sw_same : same_requests b b';
  sw_moved : moved (batch_update_builder b') = moved (batch_update_builder b) ++ (two_way <$> sw);
  sw_occ i : occupant b' i = foldl (apply_move None) (occupant b) (two_way <$> sw) i;
  sw_removed : removed_of b' = removed_of b;
  sw_bound x : x ∈ sw → x.1 < num_reqs b ∧ x.2 < num_reqs b ∧ x.1 ≠ x.2;
}.
Lemma swapped_refl b : batch_dense b → swapped b b [].
Proof. intros Hb. split; try done; [cbn; by rewrite app_nil_r|by intros x ?%not_elem_of_nil]. Qed.
Lemma swapped_trans b1 b2 b3 s1 s2 : swapped b1 b2 s1 → swapped b2 b3 s2 → swapped b1 b3 (s1 ++ s2).
Proof.
  intros [A1 A2 A3 A4 A5 A6] [B1 B2 B3 B4 B5 B6]. pose proof (same_requests_num _ _ A2) as Hn. split; [done|by etrans| | |congruence|].
  - by rewrite B3, A3, fmap_app, app_assoc.
  - intros i. rewrite B4, fmap_app, foldl_app. by apply foldl_move_ext_head.
  - intros x [Hx|Hx]%elem_of_app; [by apply A6|]. rewrite <- Hn. by apply B6.
Qed.

(** The region of a row. *)
Definition row_region b (i : nat) (x : option string) : result nat :=
  id ← of_option KeyError x;
  n ← of_option KeyError (scheduled !! id);
  c ← of_option IndexError (cells b !! i);
  Ok (req_region threshold n (num_computed_tokens_cpu c) (Z.of_nat (num_prompt_tokens c))).
Lemma batch_regions_spec b rg : batch_regions threshold scheduled b = Ok rg ↔
  length rg = length (_req_ids b) ∧ ∀ i x, _req_ids b !! i = Some x → ∃ k, rg !! i = Some k ∧ row_region b i x = Ok k.
Proof.
  unfold batch_regions. rewrite mapR_Forall2. rewrite Forall2_same_length_lookup. rewrite length_imap. split.
  - intros [Hl H]. split; [done|]. intros i x Hx. destruct (lookup_lt_is_Some_2 rg i) as [k Hk]; [rewrite <- Hl; by eapply lookup_lt_Some|]. exists k. split; [done|].
    apply (H i (i, x) k); [|done]. by rewrite list_lookup_imap, Hx.
  - intros [Hl H]. split; [done|]. intros i [j x] k Hi Hk. rewrite list_lookup_imap in Hi. destruct (_req_ids b !! i) as [x'|] eqn:E; [|done]. injection Hi as <- <-.
    destruct (H i x' E) as (k' & Hk' & Hr). rewrite Hk in Hk'. injection Hk' as <-. exact Hr.
Qed.
Lemma row_region_small b i x k : row_region b i x = Ok k → k < 4.
Proof.
  unfold row_region. intros Hk. ok_inv. unfold req_region. destruct (negb _); [lia|]. destruct (_ && _); [lia|]. destruct (_ && _); lia.
Qed.
Lemma regions_small b rg : batch_regions threshold scheduled b = Ok rg → ∀ i k, rg !! i = Some k → k < 4.
Proof.
  intros [Hl H]%batch_regions_spec i k Hk. destruct (lookup_lt_is_Some_2 (_req_ids b) i) as [x Hx]; [rewrite <- Hl; by eapply lookup_lt_Some|].
  destruct (H i x Hx) as (k' & Hk' & Hr). rewrite Hk in Hk'. injection Hk' as <-. by eapply row_region_small.
Qed.

Lemma swap_regions b i1 i2 rg : batch_dense b → i1 < num_reqs b → i2 < num_reqs b → i1 ≠ i2 → batch_regions threshold scheduled b = Ok rg →
  ∃ b', swap_states i1 i2 b = Ok b' ∧ swapped b b' [(i1, i2)] ∧ batch_regions threshold scheduled b' = Ok (swap_cells i1 i2 rg).
Proof.
  intros Hb H1 H2 Hne Hrg. destruct (swap_states_ok N L V Ws T0 b i1 i2 Hb H1 H2 Hne) as (b' & -> & Hd & Hsr & Hids & Hcl & Hmv & Hrem). exists b'. split; [done|].
  pose proof (bd_num _ _ _ _ _ b Hb) as Hnum. split.
  - split; [done|done|done| |done|].
    + intros i. apply (swap_occupant b b' i1 i2); [done|lia|lia].
    + by intros x ->%list_elem_of_singleton.
  - apply batch_regions_spec in Hrg as [Hl Hrg]. apply batch_regions_spec. rewrite Hids, !length_swap_cells. split; [done|]. intros k x Hk. rewrite lookup_swap_cells in Hk by lia.
    rewrite lookup_swap_cells by lia. set (k' := if decide (k = i1) then i2 else _) in *. destruct (Hrg k' x Hk) as (n & Hn & Hr). exists n. split; [done|]. rewrite <- Hr.
    specialize (Hcl k). fold k' in Hcl. unfold row_region. destruct x as [id|]; [|done]. cbn. destruct (scheduled !! id); [|done]. cbn.
    destruct (cells b' !! k) as [c'|], (cells b !! k') as [c|]; cbn in *; try done. assert (scalars c' = scalars c) as E by congruence.
    f_equal. assert (num_computed_tokens_cpu (scalars c') = num_computed_tokens_cpu (scalars c)) as E1 by (by rewrite E). assert (num_prompt_tokens (scalars c') = num_prompt_tokens (scalars c)) as E2 by (by rewrite E).
    cbn in E1, E2. by rewrite E1, E2.
Qed.

(** [G s] is the place of the row that is now at [s]. *)
Record cycle_inv (S T rg : list nat) (M : gmap nat nat) (G : nat → nat) (dn : list nat) (cur : option nat) : Prop := {
  ci_in s : s ∈ S → G s ∈ S;
  ci_inj s s' : s ∈ S → s' ∈ S → G s = G s' → s = s';
  ci_rg s : s ∈ S → rg !! s = T !! G s;
  ci_out i : i ∉ S → rg !! i = T !! i;
  ci_map s : s ∈ S → s ∉ dn → cur ≠ Some s → M !! s = Some (G s);
  ci_done s : s ∈ dn → G s = s;
}.

Lemma swap_cycle_ok S T dn src fuel : NoDup S → src ∈ S → src ∉ dn →
  ∀ dst M b rg G, cycle_inv S T rg M G dn (Some src) → G src = dst → batch_dense b → batch_regions threshold scheduled b = Ok rg → (∀ s, s ∈ S → s < num_reqs b) →
  length (filter (λ s, G s ≠ s) S) ≤ fuel →
  ∃ M' b' sw rg' G', swap_cycle fuel src dst M b = Ok (M', b') ∧ swapped b b' sw ∧ batch_regions threshold scheduled b' = Ok rg' ∧ cycle_inv S T rg' M' G' (dn ++ [src]) None.
Proof.
  intros HS Hsrc Hdn. induction fuel as [|fuel IH]; intros dst M b rg G HC HG Hb Hrg Hbound Hfuel; cbn [swap_cycle]; case_bool_decide as Heq.
  1, 3: exists M, b, [], rg, G; split; [done|]; split; [by apply swapped_refl|]; split; [done|]; destruct HC as [C1 C2 C3 C4 C5 C6]; split; try done;
    [intros s Hs Hs' _; apply not_elem_of_app in Hs' as [Hs' Hne]; apply C5; [done|done|]; intros [= ->]; apply Hne; by left
    |intros s [Hs|Hs]%elem_of_app; [by apply C6|]; apply list_elem_of_singleton in Hs; congruence].
  - exfalso. assert (src ∈ filter (λ s, G s ≠ s) S) as Hin by (apply list_elem_of_filter; split; [congruence|done]). destruct (filter _ S); [by apply not_elem_of_nil in Hin|cbn in Hfuel; lia].
  - pose proof HC as [C1 C2 C3 C4 C5 C6]. assert (dst ∈ S) as Hdst by (rewrite <- HG; by apply C1). assert (dst ∉ dn) as Hdd.
    { intros Hin. pose proof (C6 dst Hin) as E. apply Heq. apply C2; [done|done|congruence]. }
    assert (M !! dst = Some (G dst)) as HM by (apply C5; [done|done|congruence]).
    destruct (swap_regions b src dst rg Hb (Hbound _ Hsrc) (Hbound _ Hdst) Heq Hrg) as (b1 & -> & Hsw & Hrg1). rewrite bind_ret, HM. cbn [default from_option].
    pose proof (same_requests_num _ _ (sw_same _ _ _ Hsw)) as Hnum.
    set (p := λ k, if decide (k = src) then dst else if decide (k = dst) then src else k).
    assert (∀ k, p (p k) = k) as Hpp.
    { intros k. unfold p. destruct (decide (k = src)) as [->|]; [rewrite decide_False by congruence; by rewrite decide_True|]. destruct (decide (k = dst)) as [->|]; [by rewrite decide_True|]. by rewrite !decide_False. }
    assert (∀ s, s ∈ S → p s ∈ S) as HpS by (intros s Hs; unfold p; destruct (decide (s = src)); [done|]; by destruct (decide (s = dst))).
    apply batch_regions_spec in Hrg as [Hlen _]. pose proof (bd_num _ _ _ _ _ b Hb) as Hn.
    assert (∀ k, swap_cells src dst rg !! k = rg !! p k) as Hlk by (intros k; apply lookup_swap_cells; rewrite Hlen, <- Hn; by apply Hbound).
    destruct (IH (G dst) (<[dst := dst]> M) b1 (swap_cells src dst rg) (λ s, G (p s))) as (M' & b' & sw & rg' & G' & E & Hsw' & Hrg' & HC').
    + split.
      * intros s Hs. by apply C1, HpS.
      * intros s s' Hs Hs' E. apply C2 in E; [|by apply HpS|by apply HpS]. rewrite <- (Hpp s), <- (Hpp s'). by rewrite E.
      * intros s Hs. rewrite Hlk. by apply C3, HpS.
      * intros i Hi. rewrite Hlk. unfold p. destruct (decide (i = src)) as [->|]; [done|]. destruct (decide (i = dst)) as [->|]; [done|]. by apply C4.
      * intros s Hs Hs' Hcur. destruct (decide (s = dst)) as [->|Hsd].
        -- rewrite lookup_insert_eq. unfold p. rewrite decide_False by congruence. rewrite decide_True by done. by rewrite HG.
        -- rewrite lookup_insert_ne by done. unfold p. rewrite decide_False by (intros ->; done). rewrite decide_False by done. by apply C5.
      * intros s Hs. unfold p. rewrite decide_False by (intros ->; done). rewrite decide_False by (intros ->; done). by apply C6.
    + unfold p. by rewrite decide_True.
    + apply (sw_dense _ _ _ Hsw).
    + done.
    + intros s Hs. rewrite Hnum. by apply Hbound.
    + enough (length (filter (λ s, G (p s) ≠ s) S) < length (filter (λ s, G s ≠ s) S)) by lia. apply (length_filter_lt _ _ S dst); [|done| |].
      * intros s Hs. unfold p. destruct (decide (s = src)) as [->|]; [congruence|]. destruct (decide (s = dst)) as [->|]; [congruence|done].
      * intros E. apply Heq. apply C2; [done|done|congruence].
      * unfold p. rewrite decide_False by congruence. rewrite decide_True by done. intros Hx. by apply Hx.
    + exists M', b', ([(src, dst)] ++ sw), rg', G'. split; [done|]. split; [by eapply swapped_trans|]. done.
Qed.

Lemma zip_lookup_map (S O : list nat) j s o : NoDup S → S !! j = Some s → O !! j = Some o → (list_to_map (zip S O) : gmap nat nat) !! s = Some o.
Proof.
  intros HS Hs Ho. apply elem_of_list_to_map_1.
  - clear Hs Ho. revert O. induction HS as [|x S Hx _ IH]; intros O; cbn; [constructor|]. destruct O as [|y O]; cbn; [constructor|]. constructor; [|apply IH].
    intros [[a b'] [-> Hin]]%list_elem_of_fmap. apply elem_of_zip_l in Hin. by apply Hx.
  - apply list_elem_of_lookup. exists j. apply lookup_zip_with_Some. by exists s, o.
Qed.

Lemma reorder_ok b rg : batch_dense b → batch_regions threshold scheduled b = Ok rg →
  ∃ flag b' sw, reorder_batch_to_split_decodes_and_prefills scheduled threshold b = Ok (flag, b') ∧ swapped b b' sw ∧
    batch_regions threshold scheduled b' = Ok (target_regions rg).
Proof.
  intros Hb Hrg. pose proof (regions_small b rg Hrg) as Hsmall. unfold reorder_batch_to_split_decodes_and_prefills. rewrite Hrg, bind_ret.
  pose proof (target_length rg Hsmall) as Htl. pose proof (proj1 (batch_regions_spec b rg) Hrg) as [Hrl _]. pose proof (bd_num _ _ _ _ _ b Hb) as Hnum.
  destruct (orig_indices rg) as [|o0 orig0] eqn:Eo.
  { exists false, b, []. split; [done|]. split; [by apply swapped_refl|]. rewrite Hrg. f_equal. apply list_eq. intros i. destruct (decide (rg !! i = target_regions rg !! i)) as [|Hne]; [done|].
    assert (i ∈ orig_indices rg) as Hin.
    { apply orig_elem. split; [|done]. destruct (decide (i < length rg)); [done|]. destruct Hne. rewrite !lookup_ge_None_2; [done|lia|lia]. }
    rewrite Eo in Hin. by apply not_elem_of_nil in Hin. }
  rewrite <- Eo. clear Eo o0 orig0. set (S := src_indices rg). set (O := orig_indices rg). set (M0 := list_to_map (zip S O) : gmap nat nat).
  assert (NoDup S) as HS by (unfold S; rewrite (src_perm rg Hsmall); apply orig_nodup). assert (length S = length O) as HSO by apply (src_length rg Hsmall).
  assert (∀ s, s ∈ S → ∃ j o, S !! j = Some s ∧ O !! j = Some o ∧ M0 !! s = Some o) as HM0.
  { intros s [j Hj]%list_elem_of_lookup. destruct (lookup_lt_is_Some_2 O j) as [o Ho]; [rewrite <- HSO; by eapply lookup_lt_Some|]. exists j, o. split; [done|]. split; [done|]. by apply (zip_lookup_map S O j). }
  assert (∀ o, o ∈ O → o ∈ S) as HOS by (intros o Ho; unfold S; by rewrite (src_perm rg Hsmall)).
  assert (∀ s, s ∈ S → s < num_reqs b) as Hbound.
  { intros s Hs. unfold S in Hs. rewrite (src_perm rg Hsmall) in Hs. apply orig_elem in Hs as [Hs _]. lia. }
  set (T := target_regions rg).
  destruct (foldM_ind (λ dn x, ∃ sw rg1 G, swapped b x.2 sw ∧ batch_regions threshold scheduled x.2 = Ok rg1 ∧ cycle_inv S T rg1 x.1 G dn None)
    (λ x s, dst ← of_option KeyError (x.1 !! s); swap_cycle (length S) s dst x.1 x.2) (M0, b) S) as ([M' b'] & Hrun & sw & rg' & G & Hsw & Hrg' & HC).
  - exists [], rg, (λ s, default s (M0 !! s)). split; [by apply swapped_refl|]. split; [done|]. split.
    + intros s Hs. destruct (HM0 s Hs) as (j & o & _ & Ho & ->). cbn. apply HOS. by eapply list_elem_of_lookup_2.
    + intros s s' Hs Hs' E. destruct (HM0 s Hs) as (j & o & Hj & Ho & E1). destruct (HM0 s' Hs') as (j' & o' & Hj' & Ho' & E2). rewrite E1, E2 in E. cbn in E. subst o'.
      assert (j = j') by (eapply NoDup_lookup; [apply orig_nodup|exact Ho|exact Ho']). congruence.
    + intros s Hs. destruct (HM0 s Hs) as (j & o & Hj & Ho & ->). cbn. by apply (src_dest rg Hsmall j).
    + intros i Hi. destruct (decide (rg !! i = T !! i)) as [|Hne]; [done|]. exfalso. apply Hi, HOS, orig_elem. split; [|done].
      destruct (decide (i < length rg)); [done|]. destruct Hne. rewrite !lookup_ge_None_2; [done|unfold T; lia|lia].
    + intros s Hs _ _. destruct (HM0 s Hs) as (j & o & _ & _ & E). cbn [fst]. by rewrite E.
    + by intros s ?%not_elem_of_nil.
  - intros dn s rest [M1 b1] E (sw & rg1 & G & Hsw & Hrg1 & HC). cbn [fst snd] in *.
    assert (s ∈ S) as Hs by (rewrite E; apply elem_of_app; right; by left).
    assert (s ∉ dn) as Hsd. { intros Hin. rewrite E in HS. apply NoDup_app in HS as (_ & Hdis & _). apply (Hdis s Hin). by left. }
    rewrite (ci_map _ _ _ _ _ _ _ HC s Hs Hsd) by done. cbn [of_option]. rewrite bind_ret. pose proof (same_requests_num _ _ (sw_same _ _ _ Hsw)) as Hn1.
    destruct (swap_cycle_ok S T dn s (length S) HS Hs Hsd (G s) M1 b1 rg1 G) as (M2 & b2 & sw2 & rg2 & G2 & Hrun & Hsw2 & Hrg2 & HC2).
    + destruct HC as [C1 C2 C3 C4 C5 C6]. split; try done. intros s' Hs1 Hs2 _. by apply C5.
    + done.
    + apply (sw_dense _ _ _ Hsw).
    + done.
    + intros s' Hs'. rewrite Hn1. by apply Hbound.
    + apply length_filter.
    + exists (M2, b2). split; [done|]. exists (sw ++ sw2), rg2, G2. split; [by eapply swapped_trans|done].
  - cbn [fst snd] in *. rewrite Hrun, bind_ret. exists true, b', sw. split; [done|]. split; [done|]. rewrite Hrg'. f_equal. destruct HC as [C1 C2 C3 C4 C5 C6].
    apply list_eq. intros i. destruct (decide (i ∈ S)) as [Hi|Hi]; [|by apply C4]. rewrite C3 by done. by rewrite C6.
Qed.
End Reorder.

(** ** What the batch holds for every request *)

(** *** Requests without their draft tokens *)

Definition num_tokens (v : View) : nat := num_tokens_no_spec (v_scalars v).
Definition core_view (v : View) : View :=
  mkView (v_output v) [] (take (num_tokens v) (v_tokens v)) (take (num_tokens v) (v_is_token v)) (v_scalars v) (v_blocks v) (v_generator v) (v_bad_words v).
Definition core_ok (v : View) : Prop := v_spec v = [] ∧ length (v_tokens v) = num_tokens v ∧ length (v_is_token v) = num_tokens v.
(** The view of a request with draft tokens. *)
Definition draft (s : list Z) (v : View) : View :=
  mkView (v_output v) s (v_tokens v ++ s) (v_is_token v ++ replicate (length s) true) (v_scalars v) (v_blocks v) (v_generator v) (v_bad_words v).

Lemma core_draft s v : core_ok v → core_view (draft s v) = v.
Proof.
  intros (H1 & H2 & H3). destruct v as [o sp t f c bl g w]. unfold core_view, draft, num_tokens in *. cbn in *. rewrite !take_app_le by lia. rewrite !take_ge by lia. by rewrite H1.
Qed.
Lemma core_core v : core_ok v → core_view v = v.
Proof. intros (H1 & H2 & H3). destruct v as [o sp t f c bl g w]. unfold core_view, num_tokens in *. cbn in *. rewrite !take_ge by lia. by rewrite H1. Qed.

Section Step.
Context (N L V : nat) (Ws : list nat) (T0 : MultiGroupBlockTable).
Implicit Types (b : InputBatch) (i j : nat) (r : string).
Notation batch_ok := (batch_ok N L V Ws T0).
Notation batch_core := (batch_core N L V Ws T0).
Notation summary_ok := (summary_ok V).

(** *** Changes in place *)

Definition sampling_cells (c : Cells) : Cells := cell_num_tokens_no_spec 0 (cell_num_computed_tokens_cpu 0 (scalars c)).
Definition put_row i (c : Cells) (s : list Z) (bt : MultiGroupBlockTable) b : InputBatch :=
  ib_spec_token_ids (<[i := s]> (spec_token_ids b)) (ib_cells (<[i := c]> (cells b)) (ib_block_table bt b)).

Record in_place b b' r (v : View) : Prop := {
  ip_ok : batch_ok b';
  ip_summary : summary_ok b';
  ip_views r' : view b' r' = if decide (r' = r) then Some v else view b r';
  ip_ids : _req_ids b' = _req_ids b;
  ip_index : req_id_to_index b' = req_id_to_index b;
  ip_builder : batch_update_builder b' = batch_update_builder b;
}.

Lemma put_row_ok b i r c c' s out bt : batch_ok b → summary_ok b → _req_ids b !! i = Some (Some r) → cells b !! i = Some c → req_output_token_ids b !! i = Some (Some out) →
  length (token_ids_cpu c') = L → length (is_token_ids c') = L → sampling_cells c' = sampling_cells c →
  tables_ok N Ws bt → Forall2 same_table (block_table b) bt → (∀ j, j ≠ i → multi_blocks bt j = multi_blocks (block_table b) j) →
  in_place b (put_row i c' s bt b) r (mkView out s (take (num_tokens_no_spec c' + length s) (token_ids_cpu c')) (take (num_tokens_no_spec c' + length s) (is_token_ids c')) (scalars c')
    (multi_blocks bt i) (generators b !! i) (bad_words b !! i)).
Proof.
  intros Hb Hs Hi Hc Hout Ht Hf Hsame Hbt Hst Hblk. set (b' := put_row i c' s bt b). pose proof (live_bound _ _ _ _ _ b i r Hb Hi) as HiN.
  pose proof (lookup_lt_Some _ _ _ Hi) as Hil. pose proof (bo_specs _ _ _ _ _ b Hb) as Hsl. pose proof (bo_cells _ _ _ _ _ b Hb) as Hcl.
  assert (∀ j, j ≠ i → row_view b' j = row_view b j) as Hrow.
  { intros j Hj. apply row_view_frame; cbn; [done|by rewrite list_lookup_insert_ne|by rewrite list_lookup_insert_ne|by apply Hblk|done|done]. }
  assert (batch_ok b') as Hb'.
  { destruct Hb as [[B1 B2 B3 B4 B5 B6 Bsame B7 B8 B9 B10 B11 B12 B13 B16 B17 B18] B14 B15]. split; [split|..]; cbn; rewrite ?length_insert; try done.
    - by apply Forall_insert.
    - by eapply same_tables_trans.
    - intros j r' Hj. destruct (B11 j r' Hj) as (o & sp & cc & ? & ? & ?). destruct (decide (j = i)) as [->|Hne].
      + exists o, s, c'. rewrite !list_lookup_insert_eq by lia. done.
      + exists o, sp, cc. by rewrite !list_lookup_insert_ne.
    - intros j sp Hj. rewrite list_lookup_insert_ne by lia. by apply B12. }
  assert (∀ r', view b' r' = if decide (r' = r) then row_view b' i else view b r') as Hv.
  { intros r'. destruct (decide (r' = r)) as [->|Hne]; [apply (view_live N L V Ws T0); [apply Hb'|done]|]. apply (view_ext N L V Ws T0); [apply Hb|apply Hb'|done|].
    intros j Hj. apply Hrow. intros ->. congruence. }
  assert (row_view b' i = Some (mkView out s (take (num_tokens_no_spec c' + length s) (token_ids_cpu c')) (take (num_tokens_no_spec c' + length s) (is_token_ids c')) (scalars c')
    (multi_blocks bt i) (generators b !! i) (bad_words b !! i))) as Hnew.
  { unfold row_view. cbn. rewrite Hout. cbn. rewrite !list_lookup_insert_eq by lia. done. }
  rewrite Hnew in Hv. split; try done.
  assert (∃ v0, view b r = Some v0 ∧ sampling_cells (v_scalars v0) = sampling_cells c) as (v0 & Hv0 & Esc).
  { rewrite (view_live _ _ _ _ _ b i r Hb Hi). unfold row_view. destruct (bo_live _ _ _ _ _ b Hb i r Hi) as (o & sp & cc & E1 & E2 & E3). rewrite E1, E2, E3. cbn.
    eexists. split; [done|]. cbn. by simplify_eq. }
  assert (∀ (Q : Cells → Prop) st, (∀ x y, sampling_cells x = sampling_cells y → Q x ↔ Q y) → flag_ok b st Q → flag_ok b' st Q) as Hflag.
  { intros Q st HQ H r'. rewrite (H r'). unfold flagged. rewrite Hv. destruct (decide (r' = r)) as [->|]; [|done]. rewrite Hv0.
    assert (Q (v_scalars v0) ↔ Q (scalars c')) as HQQ by (apply HQ; rewrite Esc; by rewrite <- Hsame).
    split; [intros (v & [= <-] & Hq); eexists; split; [done|]; by apply HQQ|intros (v & [= <-] & Hq); eexists; split; [done|]; by apply HQQ]. }
  assert (∀ A (f : Cells → A) x y, (∀ z, f (sampling_cells z) = f z) → sampling_cells x = sampling_cells y → f x = f y) as Hproj by (intros A f x y Hz E; rewrite <- Hz, E; apply Hz).
  destruct Hs as [S1 S2 S3 S4 S5 S6 S7 [L1 L2 L3] S8].
  split; [apply (Hflag _ _)|apply (Hflag _ _)|apply (Hflag _ _)|apply (Hflag _ _)|apply (Hflag _ _)|apply (Hflag _ _)|apply (Hflag _ _)| |done]; try done.
  1: intros x y E; by rewrite (Hproj _ temperature_cpu x y). 1: intros x y E; by rewrite (Hproj _ temperature_cpu x y). 1: intros x y E; by rewrite (Hproj _ top_p_cpu x y).
  1: intros x y E; by rewrite (Hproj _ top_k_cpu x y). 1: intros x y E; by rewrite (Hproj _ frequency_penalties_cpu x y). 1: intros x y E; by rewrite (Hproj _ presence_penalties_cpu x y).
  1: intros x y E; by rewrite (Hproj _ repetition_penalties_cpu x y).
  split; [|done|done]. intros id r'. etrans; [apply (L1 id r')|]. unfold lora_of. rewrite Hv. destruct (decide (r' = r)) as [->|]; [|done]. rewrite Hv0. cbn.
  rewrite (Hproj _ request_lora_mapping (v_scalars v0) c'); [done|done|]. rewrite Esc. by rewrite <- Hsame.
Qed.

(** The row of a request of the batch. *)
Lemma view_inv b r v : batch_core b → view b r = Some v → ∃ i out s c, req_id_to_index b !! r = Some i ∧ _req_ids b !! i = Some (Some r) ∧ req_output_token_ids b !! i = Some (Some out) ∧
  spec_token_ids b !! i = Some s ∧ cells b !! i = Some c ∧ length (token_ids_cpu c) = L ∧ length (is_token_ids c) = L ∧ i < N ∧
  v = mkView out s (take (num_tokens_no_spec c + length s) (token_ids_cpu c)) (take (num_tokens_no_spec c + length s) (is_token_ids c)) (scalars c) (multi_blocks (block_table b) i) (generators b !! i) (bad_words b !! i).
Proof.
  intros Hb Hv. unfold view in Hv. destruct (req_id_to_index b !! r) as [i|] eqn:E; [|done]. cbn in Hv. pose proof (proj1 (bo_index _ _ _ _ _ b Hb r i) E) as Hi.
  destruct (bo_live _ _ _ _ _ b Hb i r Hi) as (o & s & c & E1 & E2 & E3). destruct (Forall_lookup_1 _ _ _ _ (bo_width _ _ _ _ _ b Hb) E3) as [Ht Hf].
  pose proof (live_bound _ _ _ _ _ b i r Hb Hi). exists i, o, s, c. repeat (split; [done|]). unfold row_view in Hv. rewrite E1, E2, E3 in Hv. cbn in Hv. by injection Hv as <-.
Qed.

Lemma update_spec_ok b r v spec : batch_ok b → summary_ok b → view b r = Some v → num_tokens v + length (default [] (spec !! r)) ≤ L →
  ∃ b', update_req_spec_token_ids r spec b = Ok b' ∧ in_place b b' r (draft (default [] (spec !! r)) (core_view v)).
Proof.
  intros Hb Hs (i & o & s & c & Hr & Hi & Ho & Hsp & Hc & Ht & Hf & HiN & ->)%view_inv; [|apply Hb]. intros Hl. cbn in Hl. unfold num_tokens in Hl. cbn in Hl.
  unfold update_req_spec_token_ids. rewrite Hr. cbn [of_option]. rewrite bind_ret, list_set_ok, bind_ret by (by eapply lookup_lt_Some).
  pose proof (bo_tables _ _ _ _ _ b Hb) as Hbt. assert (Forall2 same_table (block_table b) (block_table b)) as Hrefl by reflexivity.
  assert (∀ n m : nat, n ≤ m → ∀ A (l : list A), take n (take m l) = take n l) as Htt by (intros n m Hnm A l; rewrite take_take; f_equal; lia).
  set (t := default [] (spec !! r)) in *. destruct t as [|z t'] eqn:Et.
  - eexists. split; [done|]. assert (cells b = <[i := c]> (cells b)) as Ecs by (symmetry; by apply list_insert_id).
    replace (ib_spec_token_ids (<[i := []]> (spec_token_ids b)) b) with (put_row i c [] (block_table b) b) by (unfold put_row; rewrite <- Ecs; by destruct b).
    unfold draft, core_view, num_tokens. cbn. rewrite !app_nil_r, !Htt by lia.
    pose proof (put_row_ok b i r c c [] o (block_table b) Hb Hs Hi Hc Ho Ht Hf eq_refl Hbt Hrefl (λ _ _, eq_refl)) as H. cbn in H. by rewrite !Nat.add_0_r in H.
  - rewrite <- Et in *. clear t' Et z. destruct (write_slice_ok (token_ids_cpu c) (num_tokens_no_spec c) t) as (tok & Hw & Hlt & Etok); [lia|].
    erewrite on_cells_ok; [|exact Hc|rewrite Hw; by rewrite bind_ret]. rewrite bind_ret. eexists. split; [done|]. cbn. rewrite list_insert_insert_eq.
    set (c' := cell_is_token_ids _ _). pose proof (put_row_ok b i r c c' t o (block_table b) Hb Hs Hi Hc Ho) as H. unfold put_row in H. cbn in H. rewrite length_fill_slice in H.
    unfold draft, core_view, num_tokens. cbn. rewrite !Htt by lia. rewrite <- Etok, <- take_fill_from by lia.
    assert (∀ x, ib_block_table (block_table x) x = x) as Eb by (by intros []). rewrite Eb in H. apply H; [lia|done|done|done|done|done].
Qed.
End Step.
