(* ===== verification/RunnerSync.v ===== *)
(** * Rows follow the cached states

    The specification of a step on the cached states alone.  Each phase of
    [_update_states], and the recording of sampled tokens, keeps the rows of the batch
    equal to what [add_request] would write for these states. *)

From Stdlib Require Import QArith Qcanon.
From stdpp Require Import sorting.
From S2P Require Import Prelude BlockTable LogitsProcs LogitsSpec InputBatch ModelRunner BatchInv BatchOps BatchMoves BatchStep.

Local Open Scope nat_scope.

(** ** What a step makes of the cached states, without a batch *)

(** *** Cached states after a step *)

Notation States := (gmap string CachedRequestState * Outputs)%type.

Definition new_states (x : States) (d : NewRequestData) : States :=
  match x.1 !! nd_req_id d with
  | Some q => (<[nd_req_id d := streaming_state d q]> x.1, <[output_token_ids q := []]> x.2)
  | None => (<[nd_req_id d := new_request_state (next_ref x.2) d]> x.1, <[next_ref x.2 := []]> x.2)
  end.
Definition discard (n : nat) (q : CachedRequestState) (o : Outputs) : Outputs :=
  let outs := default [] (o !! output_token_ids q) in if bool_decide (n < length outs) then <[output_token_ids q := take n outs]> o else o.
Definition blocks_after (st : StepInput) (c : CachedReq) (q : CachedRequestState) : list (list Z) :=
  if bool_decide (cr_id c ∈ st_resumed st) then default [] (cr_new_block_ids c)
  else match cr_new_block_ids c with Some new_ids => extend_blocks (block_ids q) new_ids | None => block_ids q end.
Definition cached_states (st : StepInput) (x : States) (c : CachedReq) : States :=
  match x.1 !! cr_id c with
  | Some q => (<[cr_id c := set_progress (cr_num_computed_tokens c) (blocks_after st c q) q]> x.1, discard (cr_num_output_tokens c) q x.2)
  | None => x
  end.
Definition finished_states (st : StepInput) (x : States) : States := (foldl (λ d id, delete id d) x.1 (st_finished st), x.2).
Definition states_after (st : StepInput) (x : States) : States := foldl (cached_states st) (foldl new_states (finished_states st x) (st_new st)) (st_cached st).

(** Requests have output lists of their own. *)
Record refs_ok (x : States) : Prop := {
  rf_in r q : x.1 !! r = Some q → is_Some (x.2 !! output_token_ids q);
  rf_inj r r' q q' : x.1 !! r = Some q → x.1 !! r' = Some q' → output_token_ids q = output_token_ids q' → r = r';
  rf_id r q : x.1 !! r = Some q → req_id q = r;
}.

Lemma next_ref_fresh (o : Outputs) : o !! next_ref o = None.
Proof.
  destruct (o !! next_ref o) as [l|] eqn:E; [|done]. exfalso. apply elem_of_map_to_list in E.
  assert (∀ (l : list nat) x, x ∈ l → x ≤ foldr max 0 l) as Hmax.
  { clear. induction l as [|y l IH]; intros x Hx; [by apply not_elem_of_nil in Hx|]. cbn. apply elem_of_cons in Hx as [->|Hx]; [lia|]. specialize (IH x Hx). lia. }
  pose proof (Hmax (fst <$> map_to_list o) (next_ref o)) as H. rewrite list_elem_of_fmap in H. assert (next_ref o ≤ foldr max 0 (fst <$> map_to_list o)) by (apply H; by eexists (_, _)). unfold next_ref in *. lia.
Qed.
Lemma lookup_foldl_delete {A} (d : gmap string A) l r : foldl (λ d id, delete id d) d l !! r = if decide (r ∈ l) then None else d !! r.
Proof.
  revert d. induction l as [|id l IH]; intros d; cbn [foldl]; [by rewrite decide_False by apply not_elem_of_nil|]. rewrite IH. destruct (decide (r ∈ l)) as [Hr|Hr].
  - rewrite decide_True; [done|]. by right.
  - destruct (decide (r = id)) as [->|Hne]; [rewrite lookup_delete_eq, decide_True; [done|by left]|]. rewrite lookup_delete_ne by done. rewrite decide_False; [done|]. intros [?|?]%elem_of_cons; done.
Qed.

(** Other requests are not touched. *)
Definition untouched (r : string) (x x' : States) : Prop := ∀ q, x.1 !! r = Some q → x'.1 !! r = Some q ∧ x'.2 !! output_token_ids q = x.2 !! output_token_ids q.
#[export] Instance untouched_trans r : Transitive (untouched r).
Proof. intros x y z H1 H2 q Hq. destruct (H1 q Hq) as [E1 E2]. destruct (H2 q E1) as [E3 E4]. split; [done|congruence]. Qed.

Lemma finished_refs st x : refs_ok x → refs_ok (finished_states st x).
Proof.
  intros [H1 H2 H3]. assert (∀ r q, (finished_states st x).1 !! r = Some q → x.1 !! r = Some q) as Hd.
  { intros r q. unfold finished_states. cbn. rewrite lookup_foldl_delete. by destruct (decide _). }
  split; cbn; [intros r q Hq; apply (H1 r q); by apply Hd|intros r r' q q' Hq Hq'; apply H2; by apply Hd|intros r q Hq; apply H3; by apply Hd].
Qed.
Lemma new_refs x d : refs_ok x → refs_ok (new_states x d).
Proof.
  intros [H1 H2 H3]. unfold new_states. destruct (x.1 !! nd_req_id d) as [q0|] eqn:E; split; cbn.
  - intros r q [[<- <-]|[Hne Hq]]%lookup_insert_Some; cbn; [by rewrite lookup_insert_eq|]. rewrite lookup_insert_is_Some. destruct (decide (output_token_ids q0 = output_token_ids q)); [by left|right; split; [done|by eapply H1]].
  - intros r r' q q' [[<- <-]|[Hne Hq]]%lookup_insert_Some [[<- <-]|[Hne' Hq']]%lookup_insert_Some; cbn; [done|by intros; apply (H2 _ _ _ _ E Hq')|by intros; apply (H2 _ _ _ _ Hq E)|by apply H2].
  - intros r q [[<- <-]|[Hne Hq]]%lookup_insert_Some; cbn; by apply H3.
  - intros r q [[<- <-]|[Hne Hq]]%lookup_insert_Some; cbn; [by rewrite lookup_insert_eq|]. rewrite lookup_insert_is_Some. destruct (decide (next_ref x.2 = output_token_ids q)); [by left|right; split; [done|by eapply H1]].
  - assert (∀ r q, x.1 !! r = Some q → output_token_ids q ≠ next_ref x.2) as Hf. { intros r q Hq Eq. destruct (H1 r q Hq) as [l Hl]. rewrite Eq, next_ref_fresh in Hl. done. }
    intros r r' q q' [[<- <-]|[Hne Hq]]%lookup_insert_Some [[<- <-]|[Hne' Hq']]%lookup_insert_Some; cbn; [done|intros Eq; by destruct (Hf _ _ Hq')|intros Eq; by destruct (Hf _ _ Hq)|by apply H2].
  - intros r q [[<- <-]|[Hne Hq]]%lookup_insert_Some; cbn; [done|by apply H3].
Qed.
Lemma new_untouched x d r : refs_ok x → r ≠ nd_req_id d → untouched r x (new_states x d).
Proof.
  intros [H1 H2 H3] Hne q Hq. unfold new_states. destruct (x.1 !! nd_req_id d) as [q0|] eqn:E; cbn; rewrite lookup_insert_ne by done; (split; [done|]); apply lookup_insert_ne.
  - intros Eq. apply Hne. symmetry. by apply (H2 _ _ _ _ E Hq).
  - intros Eq. destruct (H1 r q Hq) as [l Hl]. rewrite <- Eq, next_ref_fresh in Hl. done.
Qed.
Lemma lookup_discard n q o ref : discard n q o !! ref = if decide (ref = output_token_ids q ∧ is_Some (o !! ref)) then Some (take n (default [] (o !! ref))) else o !! ref.
Proof.
  unfold discard. destruct (decide (ref = output_token_ids q)) as [->|Hne].
  - case_bool_decide as Hn; [rewrite lookup_insert_eq, decide_True; [done|]|].
    + split; [done|]. destruct (o !! output_token_ids q); [by eexists|cbn in Hn; lia].
    + destruct (o !! output_token_ids q) as [l|] eqn:E; cbn in *; [|by rewrite decide_False by (intros [_ [? ?]]; done)]. destruct (decide _); [|done]. f_equal. symmetry. apply take_ge. lia.
  - rewrite decide_False by tauto. case_bool_decide; [by rewrite lookup_insert_ne|done].
Qed.
Lemma cached_refs st x c : refs_ok x → refs_ok (cached_states st x c).
Proof.
  intros [H1 H2 H3]. unfold cached_states. destruct (x.1 !! cr_id c) as [q0|] eqn:E; [|by split]. split; cbn.
  - intros r q Hq. assert (∃ q', x.1 !! r = Some q' ∧ output_token_ids q' = output_token_ids q) as (q' & Hq' & <-).
    { apply lookup_insert_Some in Hq as [[<- <-]|[_ Hq]]; [by exists q0|by exists q]. }
    rewrite lookup_discard. destruct (decide _); [by eexists|]. by eapply H1.
  - intros r r' q q' [[<- <-]|[Hne Hq]]%lookup_insert_Some [[<- <-]|[Hne' Hq']]%lookup_insert_Some; cbn; [done|by intros; apply (H2 _ _ _ _ E Hq')|by intros; apply (H2 _ _ _ _ Hq E)|by apply H2].
  - intros r q [[<- <-]|[Hne Hq]]%lookup_insert_Some; cbn; by apply H3.
Qed.
Lemma cached_untouched st x c r : refs_ok x → r ≠ cr_id c → untouched r x (cached_states st x c).
Proof.
  intros [H1 H2 H3] Hne q Hq. unfold cached_states. destruct (x.1 !! cr_id c) as [q0|] eqn:E; cbn; [|done]. rewrite lookup_insert_ne by done. split; [done|].
  rewrite lookup_discard. rewrite decide_False; [done|]. intros [Eq _]. apply Hne. by apply (H2 _ _ _ _ Hq E).
Qed.
Lemma cached_all_untouched st x l r : refs_ok x → r ∉ cr_id <$> l → untouched r x (foldl (cached_states st) x l).
Proof.
  revert x. induction l as [|c l IH]; intros x Hx Hr; cbn [foldl]; [by intros q Hq|]. rewrite fmap_cons, not_elem_of_cons in Hr. destruct Hr as [Hne Hr].
  etrans; [by apply cached_untouched|]. apply IH; [by apply cached_refs|done].
Qed.
Lemma new_all_untouched x l r : refs_ok x → r ∉ nd_req_id <$> l → untouched r x (foldl new_states x l).
Proof.
  revert x. induction l as [|c l IH]; intros x Hx Hr; cbn [foldl]; [by intros q Hq|]. rewrite fmap_cons, not_elem_of_cons in Hr. destruct Hr as [Hne Hr].
  etrans; [by apply new_untouched|]. apply IH; [by apply new_refs|done].
Qed.
Lemma foldl_refs {A} (f : States → A → States) x l : (∀ x a, refs_ok x → refs_ok (f x a)) → refs_ok x → refs_ok (foldl f x l).
Proof. intros Hf. revert x. induction l as [|a l IH]; intros x Hx; [done|]. cbn. apply IH. by apply Hf. Qed.

(** What a step makes of a request that was running. *)
Lemma cached_final st x l c q : refs_ok x → NoDup (cr_id <$> l) → c ∈ l → x.1 !! cr_id c = Some q →
  let x' := foldl (cached_states st) x l in
  x'.1 !! cr_id c = Some (set_progress (cr_num_computed_tokens c) (blocks_after st c q) q) ∧ x'.2 !! output_token_ids q = discard (cr_num_output_tokens c) q x.2 !! output_token_ids q.
Proof.
  intros Hx Hnd (l1 & l2 & ->)%list_elem_of_split Hq. cbn zeta. rewrite foldl_app. cbn [foldl]. rewrite fmap_app, fmap_cons in Hnd. apply NoDup_app in Hnd as (_ & Hd & Hnd). inversion Hnd as [|? ? Hc _]; subst.
  assert (cr_id c ∉ cr_id <$> l1) as Hc1 by (intros Hin; apply (Hd _ Hin); by left). set (x1 := foldl (cached_states st) x l1).
  assert (refs_ok x1) as Hx1 by (apply foldl_refs; [intros; by apply cached_refs|done]).
  destruct (cached_all_untouched st x l1 (cr_id c) Hx Hc1 q Hq) as [E1 E2]. fold x1 in E1, E2. set (q' := set_progress _ _ q).
  assert (cached_states st x1 c = (<[cr_id c := q']> x1.1, discard (cr_num_output_tokens c) q x1.2)) as Ecs by (unfold cached_states; by rewrite E1).
  destruct (cached_all_untouched st (cached_states st x1 c) l2 (cr_id c) (cached_refs _ _ _ Hx1) Hc q') as [E3 E4]; [rewrite Ecs; cbn; by rewrite lookup_insert_eq|].
  split; [done|]. change (output_token_ids q) with (output_token_ids q') at 1. rewrite E4, Ecs. cbn. rewrite !lookup_discard. by rewrite E2.
Qed.

(** ** Rows follow the cached states *)

Section Sync.
Context (N L V : nat) (Ws : list nat) (T0 : MultiGroupBlockTable).
Implicit Types (b : InputBatch) (i j : nat) (r : string) (x : States) (q : CachedRequestState).
Notation batch_ok := (batch_ok N L V Ws T0).
Notation batch_core := (batch_core N L V Ws T0).
Notation batch_dense := (batch_dense N L V Ws T0).
Notation summary_ok := (summary_ok V).
Notation request_ok := (request_ok L V Ws T0).

(** The row of a request, from its cached state. *)
Definition row_of (o : Outputs) q : option View := p ← sampling_params q; prompt ← prompt_token_ids q; Some (request_view V T0 o q p prompt).
Definition synced x b : Prop := ∀ r v, view b r = Some v → ∃ q, x.1 !! r = Some q ∧ row_of x.2 q = Some (core_view v).

Lemma row_of_ok o q p prompt : request_ok o q p prompt → row_of o q = Some (request_view V T0 o q p prompt).
Proof. intros [R1 R2 _ _ _ _ _ _]. unfold row_of. by rewrite R1, R2. Qed.
Lemma row_of_inv o q p prompt v : row_of o q = Some v → sampling_params q = Some p → prompt_token_ids q = Some prompt → request_view V T0 o q p prompt = v.
Proof. unfold row_of. intros H E1 E2. rewrite E1, E2 in H. by apply (inj Some) in H. Qed.
Lemma row_of_ext o o' q : o' !! output_token_ids q = o !! output_token_ids q → row_of o' q = row_of o q.
Proof. intros E. unfold row_of, request_view. by rewrite E. Qed.

Lemma untouched_row r x x' q : untouched r x x' → x.1 !! r = Some q → x'.1 !! r = Some q ∧ row_of x'.2 q = row_of x.2 q.
Proof. intros H Hq. destruct (H q Hq) as [E1 E2]. split; [done|]. by apply row_of_ext. Qed.

(** Requests outside of the batch do not matter. *)
Lemma synced_untouched x x' b b' : synced x b → (∀ r v, view b' r = Some v → view b r = Some v ∧ untouched r x x') → synced x' b'.
Proof.
  intros H Hu r v Hv. destruct (Hu r v Hv) as [Hv0 Hr]. destruct (H r v Hv0) as (q & Hq & Hrow). exists q. destruct (untouched_row r x x' q Hr Hq) as [E1 E2]. split; [done|]. by rewrite E2.
Qed.

(** *** Requests leave *)

Record removing b0 b (X : gset string) : Prop := {
  rm_ok : batch_ok b;
  rm_summary : summary_ok b;
  rm_views r : view b r = if decide (r ∈ X) then None else view b0 r;
  rm_occ i : occupant b i = r ← occupant b0 i; if decide (r ∈ X) then None else Some r;
  rm_index r : req_id_to_index b !! r = if decide (r ∈ X) then None else req_id_to_index b0 !! r;
  rm_holes i r : occupant b0 i = Some r → r ∈ X → i ∈ removed_of b;
  rm_unsorted : _is_removed_sorted (batch_update_builder b) = false;
  rm_added : added (batch_update_builder b) = [];
  rm_moved : moved (batch_update_builder b) = [];
}.

Lemma occupant_index b i r : batch_core b → occupant b i = Some r ↔ req_id_to_index b !! r = Some i.
Proof. intros Hb. rewrite (bo_index _ _ _ _ _ b Hb). unfold occupant. destruct (_req_ids b !! i) as [[s|]|]; cbn; naive_solver. Qed.
Lemma view_is_Some b r : batch_core b → is_Some (view b r) ↔ is_Some (req_id_to_index b !! r).
Proof.
  intros Hb. destruct (req_id_to_index b !! r) as [i|] eqn:E; [|unfold view; rewrite E; cbn; split; by intros [? ?]].
  split; [by eexists|]. intros _. apply (bo_index _ _ _ _ _ b Hb) in E. rewrite (view_live _ _ _ _ _ b i r Hb E). by eapply row_view_live.
Qed.

Lemma removing_start b : batch_dense b → summary_ok b → batch_update_builder b = BatchUpdateBuilder_init → removing b b ∅.
Proof.
  intros Hd Hs Hbu. split; try (rewrite Hbu; done).
  - split; [apply Hd| |].
    + intros i. rewrite Hbu. cbn. split; [by intros ?%not_elem_of_nil|]. intros Hi. exfalso. pose proof (lookup_lt_Some _ _ _ Hi) as Hl. rewrite <- (bd_num _ _ _ _ _ b Hd) in Hl.
      apply (bd_full _ _ _ _ _ b Hd) in Hl as [r Hr]. congruence.
    + rewrite Hbu. cbn. rewrite Nat.add_0_r. apply (bd_num _ _ _ _ _ b Hd).
  - done.
  - intros r. by rewrite decide_False by set_solver.
  - intros i. destruct (occupant b i); cbn; [|done]. by rewrite decide_False by set_solver.
  - intros r. by rewrite decide_False by set_solver.
  - intros i r _. set_solver.
Qed.

Lemma removing_more b0 b X r : removing b0 b X → req_id_to_index b !! r = None → removing b0 b ({[r]} ∪ X).
Proof.
  intros [H1 H2 H3 H4 H5 Hh H6 H7 H8] E.
  assert (∀ r', r' ∉ X → is_Some (req_id_to_index b0 !! r') → r' ∉ {[r]} ∪ X) as Hx.
  { intros r' Hr' Hi [->%elem_of_singleton|?]%elem_of_union; [|done]. rewrite H5, decide_False in E by done. rewrite E in Hi. by destruct Hi. }
  split; try done.
  + intros r'. rewrite H3. destruct (decide (r' ∈ X)); [by rewrite decide_True by set_solver|]. destruct (decide (r' ∈ {[r]} ∪ X)) as [Hin|]; [|done].
    unfold view. destruct (req_id_to_index b0 !! r') eqn:E0; [|done]. destruct (Hx r'); [done|by rewrite E0|done].
  + intros j. rewrite H4. destruct (occupant b0 j) as [s|] eqn:Es; [|done]. cbn. destruct (decide (s ∈ X)); [by rewrite decide_True by set_solver|]. rewrite decide_False; [done|].
    intros [->%elem_of_singleton|?]%elem_of_union; [|done]. assert (occupant b j = Some r) as Hj by (rewrite H4, Es; cbn; by rewrite decide_False). apply occupant_index in Hj; [|apply H1]. congruence.
  + intros r'. rewrite H5. destruct (decide (r' ∈ X)); [by rewrite decide_True by set_solver|]. destruct (decide (r' ∈ {[r]} ∪ X)) as [Hin|]; [|done].
    destruct (req_id_to_index b0 !! r') eqn:E0; [|done]. destruct (Hx r'); [done|by rewrite E0|done].
  + intros j s Hj [->%elem_of_singleton|Hs]%elem_of_union; [|by eapply Hh]. destruct (decide (r ∈ X)) as [|Hr]; [by eapply Hh|]. exfalso.
    assert (occupant b j = Some r) as Hj' by (rewrite H4, Hj; cbn; by rewrite decide_False). apply occupant_index in Hj'; [|apply H1]. congruence.
Qed.
Lemma drop_request_ok b0 b X r : removing b0 b X → ∃ b', drop_request b r = Ok b' ∧ removing b0 b' ({[r]} ∪ X).
Proof.
  intros [H1 H2 H3 H4 H5 Hh H6 H7 H8]. unfold drop_request. destruct (req_id_to_index b !! r) as [i|] eqn:E.
  - destruct (remove_request_ok N L V Ws T0 b r i H1 H2 H6 E) as (b' & -> & Hok & Hsum & Hv & Hocc & Hidx & Hbu). rewrite bind_ret. exists b'. split; [done|]. split; rewrite ?Hbu; try done.
    + intros r'. rewrite Hv, H3. destruct (decide (r' = r)) as [->|]; [by rewrite decide_True by set_solver|]. destruct (decide (r' ∈ X)); [by rewrite decide_True by set_solver|by rewrite decide_False by set_solver].
    + intros j. rewrite Hocc, H4. destruct (decide (j = i)) as [->|Hne].
      * apply (occupant_index b i r) in E; [|apply H1]. rewrite H4 in E. destruct (occupant b0 i) as [s|]; [|done]. cbn in *. destruct (decide (s ∈ X)); [done|]. injection E as ->. by rewrite decide_True by set_solver.
      * destruct (occupant b0 j) as [s|] eqn:Es; [|done]. cbn. destruct (decide (s ∈ X)) as [Hs|Hs]; [by rewrite decide_True by set_solver|].
        rewrite decide_False; [done|]. intros [->%elem_of_singleton|?]%elem_of_union; [|done].
        assert (occupant b j = Some r) as Hj by (rewrite H4, Es; cbn; by rewrite decide_False). apply occupant_index in Hj; [|apply H1]. congruence.
    + intros r'. rewrite Hidx. destruct (decide (r' = r)) as [->|]; [by rewrite lookup_delete_eq, decide_True by set_solver|]. rewrite lookup_delete_ne, H5 by done.
      destruct (decide (r' ∈ X)); [by rewrite decide_True by set_solver|by rewrite decide_False by set_solver].
    + intros j s Hj Hs. unfold removed_of. rewrite Hbu. cbn. apply elem_of_app. destruct (decide (s ∈ X)) as [|Hsx]; [left; by eapply Hh|right]. apply elem_of_union in Hs as [->%elem_of_singleton|]; [|done].
      assert (occupant b j = Some r) as Hj' by (rewrite H4, Hj; cbn; by rewrite decide_False). apply occupant_index in Hj'; [|apply H1]. rewrite E in Hj'. injection Hj' as ->. by left.
  - rewrite remove_unknown, bind_ret by done. exists b. split; [done|]. by apply removing_more.
Qed.
Lemma drop_all_ok b0 b X l : removing b0 b X → ∃ b', foldM drop_request b l = Ok b' ∧ removing b0 b' (list_to_set l ∪ X).
Proof.
  revert b X. induction l as [|r l IH]; intros b X H; cbn [foldM]; [exists b; split; [done|]; by rewrite list_to_set_nil, union_empty_l_L|].
  destruct (drop_request_ok b0 b X r H) as (b1 & -> & H1). rewrite bind_ret. destruct (IH b1 _ H1) as (b' & -> & H'). exists b'. split; [done|].
  by replace (list_to_set (r :: l) ∪ X : gset string) with (list_to_set l ∪ ({[r]} ∪ X) : gset string) by set_solver.
Qed.

(** *** New requests *)

Definition states (rn : Runner) : States := (requests rn, outputs rn).

(** What the scheduler promises for a step. *)
Record step_legal (st : StepInput) x : Prop := {
  sl_new_nodup : NoDup (nd_req_id <$> st_new st);
  sl_cached_nodup : NoDup (cr_id <$> st_cached st);
  sl_disjoint r : r ∈ nd_req_id <$> st_new st → r ∉ cr_id <$> st_cached st;
  sl_scheduled r : is_Some (st_scheduled st !! r) ↔ r ∈ nd_req_id <$> st_new st ∨ r ∈ cr_id <$> st_cached st;
  sl_known r : r ∈ cr_id <$> st_cached st → is_Some (x.1 !! r) ∧ r ∉ st_finished st;
  sl_resumed c : c ∈ st_cached st → cr_id c ∈ st_resumed st → is_Some (cr_new_block_ids c);
  sl_groups c ids : c ∈ st_cached st → cr_new_block_ids c = Some ids → length ids = length T0;
  sl_prompt d : d ∈ st_new st → ∃ prompt, nd_prompt_token_ids d = Some prompt ∧ ∀ e, nd_prompt_embeds d = Some e → embeds_len e = length prompt;
  sl_rows r : is_Some (st_scheduled st !! r) → ∃ q p prompt, (states_after st x).1 !! r = Some q ∧ request_ok (states_after st x).2 q p prompt ∧
    length prompt + length (default [] ((states_after st x).2 !! output_token_ids q)) + length (default [] (st_spec st !! r)) ≤ L;
  sl_size : size (st_scheduled st) ≤ N;
}.

Lemma removing_synced x b0 b X : synced x b0 → removing b0 b X → synced x b.
Proof. intros Hs Hr r v Hv. apply Hs. rewrite (rm_views _ _ _ Hr) in Hv. by destruct (decide _). Qed.

Lemma prompt_length d prompt : nd_prompt_token_ids d = Some prompt → (∀ e, nd_prompt_embeds d = Some e → embeds_len e = length prompt) →
  length_from_prompt_token_ids_or_embeds (nd_prompt_token_ids d) (nd_prompt_embeds d) = Ok (length prompt).
Proof. intros -> He. cbn. destruct (nd_prompt_embeds d) as [e|]; [|done]. rewrite bool_decide_false; [done|]. rewrite (He e eq_refl). tauto. Qed.

Lemma add_new_ok b0 X rn acc d : let x := states rn in removing b0 (input_batch rn) X → refs_ok x → synced x (input_batch rn) →
  (∃ prompt, nd_prompt_token_ids d = Some prompt ∧ ∀ e, nd_prompt_embeds d = Some e → embeds_len e = length prompt) →
  ∃ rn', add_new (rn, acc) d = Ok (rn', acc ++ [nd_req_id d]) ∧ states rn' = new_states x d ∧ removing b0 (input_batch rn') ({[nd_req_id d]} ∪ X) ∧ synced (states rn') (input_batch rn').
Proof.
  intros x Hr Hx Hs (prompt & Hp & He). unfold add_new. pose proof (prompt_length d prompt Hp He) as Hlen.
  assert (∀ b', removing b0 b' ({[nd_req_id d]} ∪ X) → synced (new_states x d) b') as Hsync.
  { intros b' Hb'. apply (synced_untouched x _ (input_batch rn)); [done|]. intros r v Hv. rewrite (rm_views _ _ _ Hb') in Hv. destruct (decide _) as [|Hni]; [done|].
    rewrite not_elem_of_union, not_elem_of_singleton in Hni. destruct Hni as [Hne Hni]. split; [by rewrite (rm_views _ _ _ Hr), decide_False|]. by apply new_untouched. }
  destruct (requests rn !! nd_req_id d) as [q|] eqn:Eq.
  - destruct (drop_request_ok b0 (input_batch rn) X (nd_req_id d) Hr) as (b' & Hd & Hb'). unfold _update_streaming_request. rewrite Hd, !bind_ret, Hlen, !bind_ret. eexists. split; [done|].
    assert (states (with_request (nd_req_id d) (streaming_state d q) (<[output_token_ids q := []]> (outputs rn)) (with_batch b' rn)) = new_states x d) as Est.
    { unfold new_states, states, x, states. cbn. by rewrite Eq. }
    split; [exact Est|]. split; [exact Hb'|]. rewrite Est. by apply Hsync.
  - rewrite (bo_gen _ _ _ _ _ _ (rm_ok _ _ _ Hr)), bind_ret, Hlen, bind_ret.
    set (rn1 := with_request _ _ _ _). set (rn' := match nd_sampling_params d ≫= prompt_logprobs with Some n => _ | None => _ end).
    assert (states rn' = new_states x d ∧ input_batch rn' = input_batch rn) as [Est Eb].
    { assert (states rn1 = new_states x d) as E1 by (unfold new_states, states, x, states; cbn; by rewrite Eq). unfold rn'. destruct (nd_sampling_params d ≫= prompt_logprobs); by rewrite <- E1. }
    assert (removing b0 (input_batch rn') ({[nd_req_id d]} ∪ X)) as Hb'.
    { rewrite Eb. apply removing_more; [done|]. destruct (req_id_to_index (input_batch rn) !! nd_req_id d) as [i|] eqn:Ei; [|done]. exfalso.
      destruct (proj2 (view_is_Some (input_batch rn) (nd_req_id d) (rm_ok _ _ _ Hr)) ltac:(by rewrite Ei)) as [v Hv]. destruct (Hs _ _ Hv) as (q & Hq & _). cbn in Hq. congruence. }
    exists rn'. split; [done|]. split; [done|]. split; [done|]. rewrite Est. by apply Hsync.
Qed.

Lemma add_all_new_ok b0 X rn l : let x := states rn in removing b0 (input_batch rn) X → refs_ok x → synced x (input_batch rn) →
  (∀ d, d ∈ l → ∃ prompt, nd_prompt_token_ids d = Some prompt ∧ ∀ e, nd_prompt_embeds d = Some e → embeds_len e = length prompt) →
  ∃ rn', foldM add_new (rn, []) l = Ok (rn', nd_req_id <$> l) ∧ states rn' = foldl new_states x l ∧ removing b0 (input_batch rn') (list_to_set (nd_req_id <$> l) ∪ X) ∧
    synced (states rn') (input_batch rn') ∧ refs_ok (states rn').
Proof.
  intros x Hr Hx Hs Hl. destruct (foldM_ind (λ dn y, y.2 = nd_req_id <$> dn ∧ states y.1 = foldl new_states x dn ∧ removing b0 (input_batch y.1) (list_to_set (nd_req_id <$> dn) ∪ X) ∧
    synced (states y.1) (input_batch y.1) ∧ refs_ok (states y.1)) add_new (rn, []) l) as ([rn' acc] & Hrun & Hacc & H).
  - cbn. split; [done|]. split; [done|]. split; [by rewrite union_empty_l_L|done].
  - intros dn d rest [rn1 acc] E (Hacc & Hst & Hrm & Hsy & Hrf). cbn [fst snd] in *. destruct (add_new_ok b0 _ rn1 acc d Hrm Hrf Hsy) as (rn2 & Hrun & Hst2 & Hrm2 & Hsy2).
    { apply Hl. rewrite E. apply elem_of_app. right. by left. }
    exists (rn2, acc ++ [nd_req_id d]). split; [done|]. cbn [fst snd]. rewrite fmap_app, foldl_app, Hacc. split; [done|]. split; [by rewrite Hst2, Hst|]. split.
    + replace (list_to_set _ ∪ X : gset string) with ({[nd_req_id d]} ∪ (list_to_set (nd_req_id <$> dn) ∪ X) : gset string); [done|]. rewrite list_to_set_app_L. set_solver.
    + split; [done|]. rewrite Hst2. by apply new_refs.
  - exists rn'. cbn [fst snd] in *. rewrite Hacc in Hrun. done.
Qed.

(** *** Requests that stay *)

Lemma table_ids_app t ids ids' : table_ids t (ids ++ ids') = table_ids t ids ++ table_ids t ids'.
Proof. unfold table_ids. destruct (use_hybrid_blocks t); [|done]. unfold map_to_kernel_blocks. destruct (_ =? 1)%Z; [done|]. by rewrite fmap_app, concat_app. Qed.

Lemma in_place_trans b1 b2 b3 r v1 v2 : in_place N L V Ws T0 b1 b2 r v1 → in_place N L V Ws T0 b2 b3 r v2 → in_place N L V Ws T0 b1 b3 r v2.
Proof. intros [A1 A2 A3 A4 A5 A6] [B1 B2 B3 B4 B5 B6]. split; try done; [|congruence..]. intros r'. rewrite B3, A3. by destruct (decide (r' = r)). Qed.

Lemma discard_outs n q (o : Outputs) : default [] (discard n q o !! output_token_ids q) = take n (default [] (o !! output_token_ids q)).
Proof. rewrite lookup_discard. destruct (o !! output_token_ids q) as [l|]; cbn; [by rewrite decide_True by (split; [done|by eexists])|]. rewrite decide_False; [by rewrite take_nil|]. by intros [_ [? ?]]. Qed.

Lemma multi_ids_extend (m : MultiGroupBlockTable) ids new_ids : length ids = length m → length new_ids = length m →
  (Some <$> multi_ids m (extend_blocks ids new_ids) : list (option (list Z))) = zip_with (λ (o : option (list Z)) ids, (.++ ids) <$> o) (Some <$> multi_ids m ids) (multi_ids m new_ids).
Proof.
  unfold extend_blocks, multi_ids. revert ids new_ids. induction m as [|t m IH]; intros [|i ids] [|n new_ids] H1 H2; try done. injection H1 as H1. injection H2 as H2. cbn. f_equal; [|by apply IH].
  cbn. f_equal. apply table_ids_app.
Qed.

Lemma scalars_progress z k c : scalars (cell_num_computed_tokens_cpu z (cell_num_tokens_no_spec k c)) = cell_num_computed_tokens_cpu z (cell_num_tokens_no_spec k (scalars c)).
Proof. by destruct c. Qed.
Lemma same_num_tokens c k : num_tokens_no_spec c = k → cell_num_tokens_no_spec k c = c.
Proof. intros <-. by destruct c. Qed.

(** What a row holds when it agrees with a cached state. *)
Lemma row_fields o q p prompt out s c bl g w : request_view V T0 o q p prompt =
    core_view (mkView out s (take (num_tokens_no_spec c + length s) (token_ids_cpu c)) (take (num_tokens_no_spec c + length s) (is_token_ids c)) (scalars c) bl g w) →
  let outs := default [] (o !! output_token_ids q) in
  out = output_token_ids q ∧ num_prompt_tokens c = length prompt ∧ num_tokens_no_spec c = length prompt + length outs ∧ take (length prompt + length outs) (token_ids_cpu c) = prompt ++ outs ∧
  take (length prompt + length outs) (is_token_ids c) = default (replicate (length prompt) true) (prompt_is_token_ids q) ++ replicate (length outs) true ∧
  scalars c = v_scalars (request_view V T0 o q p prompt) ∧ bl = Some <$> multi_ids T0 (block_ids q) ∧ g = generator q ∧ w = match bad_words_token_ids p with [] => None | w => Some w end.
Proof.
  intros H outs. pose proof (f_equal v_scalars H) as Hsc. cbn in Hsc. pose proof (f_equal num_tokens_no_spec Hsc) as Hn. cbn in Hn. fold outs in Hn.
  split; [symmetry; apply (f_equal v_output H)|]. split; [symmetry; apply (f_equal num_prompt_tokens Hsc)|]. split; [done|].
  pose proof (f_equal v_tokens H) as Ht. pose proof (f_equal v_is_token H) as Hf. unfold core_view, num_tokens in Ht, Hf. cbn in Ht, Hf. fold outs in Ht, Hf. rewrite take_take, Nat.min_l, <- Hn in Ht by lia. rewrite take_take, Nat.min_l, <- Hn in Hf by lia.
  split; [done|]. split; [done|]. split; [done|]. split; [by apply (f_equal v_blocks) in H|]. split; [by apply (f_equal v_generator) in H|by apply (f_equal v_bad_words) in H].
Qed.

Lemma take_take_length {A} n (l : list A) : take (length (take n l)) l = take n l.
Proof. rewrite length_take. destruct (decide (n ≤ length l)); [by rewrite Nat.min_l by lia|]. rewrite Nat.min_r by lia. by rewrite !take_ge by lia. Qed.
Lemma take_app_more {A} (l k : list A) m n : length l = m → take (m + n) (l ++ k) = l ++ take n k.
Proof. intros <-. rewrite take_app. rewrite take_ge by lia. do 2 f_equal. lia. Qed.
Lemma stay_blocks b i st c q : batch_ok b → i < N → multi_blocks (block_table b) i = Some <$> multi_ids T0 (block_ids q) → cr_id c ∉ st_resumed st →
  (∀ ids, cr_new_block_ids c = Some ids → length ids = length T0) → ids_fit Ws T0 (blocks_after st c q) →
  ∃ bt, match cr_new_block_ids c with Some new_ids => multi_append_row new_ids i (block_table b) | None => Ok (block_table b) end = Ok bt ∧ tables_ok N Ws bt ∧
    Forall2 same_table (block_table b) bt ∧ (∀ j, j ≠ i → multi_blocks bt j = multi_blocks (block_table b) j) ∧ multi_blocks bt i = Some <$> multi_ids T0 (blocks_after st c q).
Proof.
  intros Hb Hi Hbl Hres Hgr. unfold blocks_after. rewrite bool_decide_false by done. intros [Hlen Hfit]. pose proof (bo_tables _ _ _ _ _ b Hb) as Hbt. pose proof (bo_same _ _ _ _ _ b Hb) as Hsame.
  destruct (cr_new_block_ids c) as [ids|]; [|by exists (block_table b)]. specialize (Hgr ids eq_refl). pose proof (Forall2_length _ _ _ Hsame) as Hl.
  assert (length (block_ids q) = length T0) as Hlq. { rewrite <- Hlen. unfold extend_blocks. rewrite length_app, length_zip_with, length_drop. lia. }
  destruct (multi_append_row_ok N Ws (block_table b) i ids Hbt Hi) as (bt & Hrun & Hok & Hsm & Hrow); [lia| |].
  - intros g W l ids' HW Hg Hids. rewrite (same_multi_ids _ _ _ Hsame) in Hids. rewrite Hbl in Hg. rewrite <- length_app. apply (Hfit g W); [done|].
    apply (inj (fmap (M := option) Some)). rewrite <- list_lookup_fmap, (multi_ids_extend T0), lookup_zip_with by done. by rewrite Hg, Hids.
  - exists bt. split; [done|]. split; [done|]. split; [done|]. split; [intros j Hj; by rewrite Hrow, decide_False|]. rewrite Hrow, decide_True by done.
    rewrite (same_multi_ids _ _ _ Hsame), Hbl. by rewrite (multi_ids_extend T0).
Qed.

Lemma update_stay_ok rn acc st c q p prompt v : let b := input_batch rn in let x := states rn in
  batch_ok b → summary_ok b → synced x b → requests rn !! cr_id c = Some q → view b (cr_id c) = Some v → cr_id c ∉ st_resumed st →
  (∀ ids, cr_new_block_ids c = Some ids → length ids = length T0) →
  let q' := set_progress (cr_num_computed_tokens c) (blocks_after st c q) q in let o' := discard (cr_num_output_tokens c) q (outputs rn) in let spec := default [] (st_spec st !! cr_id c) in
  request_ok o' q' p prompt → length prompt + length (default [] (o' !! output_token_ids q)) + length spec ≤ L →
  ∃ rn', update_cached st (rn, acc) c = Ok (rn', acc) ∧ states rn' = cached_states st x c ∧
    in_place N L V Ws T0 b (input_batch rn') (cr_id c) (draft spec (request_view V T0 o' q' p prompt)).
Proof.
  intros b x Hb Hs Hsy Hq Hv Hres Hgr q' o' spec Hok Hfit. pose proof Hok as [R1 R2 R3 R4 R5 R6 R7 R8]. cbn in R1, R2, R3, R4, R5, R6.
  destruct (Hsy _ _ Hv) as (q1 & Hq1 & Hrow). cbn in Hq1. rewrite Hq in Hq1. injection Hq1 as <-. apply (row_of_inv _ _ p prompt) in Hrow; [|done|done].
  destruct (view_inv _ _ _ _ _ b (cr_id c) v (bo_core _ _ _ _ _ b Hb) Hv) as (i & out & s & cc & Hr & Hi & Ho & Hsp & Hc & Ht & Hf & HiN & ->).
  apply row_fields in Hrow as (-> & Hnp & Hnt & Htok & Hflag & Hsc & Hbl & Hg & Hw). change x.2 with (outputs rn) in *. set (outs := default [] (outputs rn !! output_token_ids q)) in *.
  assert (default [] (o' !! output_token_ids q) = take (cr_num_output_tokens c) outs) as Eo by apply discard_outs. rewrite Eo in R5, Hfit. set (n := cr_num_output_tokens c) in *.
  unfold update_cached. rewrite Hq. cbn [of_option]. rewrite bind_ret. fold b. rewrite Hr. fold outs n.
  set (k := length prompt + length (take n outs)).
  assert ((if bool_decide (n < length outs) then b0 ← on_cells i (λ c0, Ok (cell_num_tokens_no_spec (num_prompt_tokens c0 + n) c0)) b; Ok (<[output_token_ids q := take n outs]> (outputs rn), b0)
    else Ok (outputs rn, b)) = Ok (o', ib_cells (<[i := cell_num_tokens_no_spec k cc]> (cells b)) b)) as ->.
  { unfold o', discard. fold outs. case_bool_decide as Hn.
    - erewrite on_cells_ok; [|exact Hc|done]. rewrite bind_ret. unfold k. rewrite Hnp, length_take, Nat.min_l by lia. done.
    - rewrite same_num_tokens by (unfold k; rewrite take_ge by lia; done). rewrite list_insert_id by done. by destruct b. }
  rewrite bind_ret. cbn [fst snd]. rewrite bool_decide_false by done. rewrite bind_ret.
  erewrite on_cells_ok; [|cbn; apply list_lookup_insert_eq; by rewrite (bo_cells _ _ _ _ _ b Hb)|done]. rewrite bind_ret. cbn [cells block_table ib_cells]. rewrite list_insert_insert_eq.
  set (c2 := cell_num_computed_tokens_cpu _ _).
  destruct (stay_blocks b i st c q) as (bt & -> & Hbt & Hsame & Hother & Hblocks); [done|done|done|done|done|done|]. rewrite bind_ret.
  replace (ib_block_table bt _) with (put_row i c2 s bt b) by (unfold put_row; rewrite (list_insert_id (spec_token_ids b)) by done; by destruct b).
  pose proof (put_row_ok N L V Ws T0 b i (cr_id c) cc c2 s (output_token_ids q) bt Hb Hs Hi Hc Ho Ht Hf eq_refl Hbt Hsame Hother) as Hput. set (v1 := mkView _ _ _ _ _ _ _ _) in Hput.
  assert (num_tokens_no_spec c2 = k) as Hk by done.
  assert (core_view v1 = request_view V T0 o' q' p prompt) as Hcv.
  { assert (k ≤ length prompt + length outs) as Hle by (unfold k; rewrite length_take; lia).
    assert (∀ A (l : list A), take k (take (k + length s) l) = take k l) as Htt by (intros A l; rewrite take_take; f_equal; lia).
    assert (∀ A (l : list A), take k l = take k (take (length prompt + length outs) l)) as Hcut by (intros A l; rewrite take_take; f_equal; lia).
    change (core_view v1) with (mkView (output_token_ids q) [] (take k (take (k + length s) (token_ids_cpu cc))) (take k (take (k + length s) (is_token_ids cc))) (scalars c2) (multi_blocks bt i) (generators b !! i) (bad_words b !! i)).
    unfold request_view. cbn [output_token_ids set_progress q' prompt_is_token_ids generator block_ids]. rewrite Hblocks, Hg, Hw, !Htt, Eo. f_equal.
    - rewrite Hcut, Htok. unfold k. by rewrite take_app_more, take_take_length.
    - rewrite Hcut, Hflag. unfold k. rewrite take_app_more; [by rewrite take_replicate, Nat.min_l by (rewrite length_take; lia)|].
      destruct (prompt_is_token_ids q) as [m|]; cbn; [by apply R4|by rewrite length_replicate].
    - unfold c2. rewrite scalars_progress, Hsc. done. }
  destruct (update_spec_ok N L V Ws T0 (put_row i c2 s bt b) (cr_id c) v1 (st_spec st)) as (b2 & -> & Hin); [apply Hput|apply Hput|rewrite (ip_views _ _ _ _ _ _ _ _ _ Hput); by rewrite decide_True| |].
  { unfold num_tokens. cbn. fold spec. unfold k. lia. }
  rewrite bind_ret. eexists. split; [done|]. split.
  - unfold states, cached_states, x, states. cbn. rewrite Hq. unfold blocks_after. rewrite bool_decide_false by done. done.
  - rewrite <- Hcv. by eapply in_place_trans.
Qed.

Lemma update_away_ok rn acc st c q : requests rn !! cr_id c = Some q → req_id_to_index (input_batch rn) !! cr_id c = None → (cr_id c ∈ st_resumed st → is_Some (cr_new_block_ids c)) →
  ∃ rn', update_cached st (rn, acc) c = Ok (rn', acc ++ [cr_id c]) ∧ states rn' = cached_states st (states rn) c ∧ input_batch rn' = input_batch rn.
Proof.
  intros Hq Hr Hres. unfold update_cached. rewrite Hq. cbn [of_option]. rewrite bind_ret, Hr. set (prog := if bool_decide (cr_num_output_tokens c < _) then _ else _).
  assert (prog = Ok (discard (cr_num_output_tokens c) q (outputs rn), input_batch rn)) as -> by (unfold prog, discard; by case_bool_decide).
  rewrite bind_ret. unfold states, cached_states, blocks_after. cbn [fst snd]. rewrite Hq. case_bool_decide as Hc.
  - destruct (Hres Hc) as [ids ->]. cbn [of_option]. rewrite bool_decide_true by done. unfold assert_. cbn. eexists. split; [done|done].
  - rewrite bind_ret. eexists. split; [done|done].
Qed.

(** All requests that were running. *)
Record stayed st (rn0 : Runner) (dn : list CachedReq) (rn : Runner) : Prop := {
  sd_states : states rn = foldl (cached_states st) (states rn0) dn;
  sd_ok : batch_ok (input_batch rn);
  sd_summary : summary_ok (input_batch rn);
  sd_synced : synced (states rn) (input_batch rn);
  sd_drafts r v : r ∈ cr_id <$> dn → view (input_batch rn) r = Some v → v = draft (default [] (st_spec st !! r)) (core_view v);
  sd_ids : _req_ids (input_batch rn) = _req_ids (input_batch rn0);
  sd_index : req_id_to_index (input_batch rn) = req_id_to_index (input_batch rn0);
  sd_builder : batch_update_builder (input_batch rn) = batch_update_builder (input_batch rn0);
}.

Lemma request_view_core o q p prompt : request_ok o q p prompt → core_ok (request_view V T0 o q p prompt).
Proof.
  intros [R1 R2 R3 R4 R5 R6 R7 R8]. split; [done|]. unfold num_tokens. cbn. split; [by rewrite length_app|]. rewrite length_app, length_replicate. f_equal.
  destruct (prompt_is_token_ids q); cbn; [by apply R4|by rewrite length_replicate].
Qed.
Lemma request_ok_ext o o' q p prompt : o' !! output_token_ids q = o !! output_token_ids q → request_ok o' q p prompt → request_ok o q p prompt.
Proof. intros E [R1 R2 R3 R4 R5 R6 R7 R8]. split; try done. by rewrite <- E. Qed.

Lemma update_cached_ok st rn0 acc dn c rest rn : refs_ok (states rn0) → NoDup (cr_id <$> dn ++ c :: rest) →
  (∀ r, r ∈ st_resumed st → req_id_to_index (input_batch rn0) !! r = None) → (cr_id c ∈ st_resumed st → is_Some (cr_new_block_ids c)) →
  (∀ ids, cr_new_block_ids c = Some ids → length ids = length T0) → is_Some (requests rn0 !! cr_id c) →
  let x' := foldl (cached_states st) (states rn0) (dn ++ c :: rest) in
  (∃ q p prompt, x'.1 !! cr_id c = Some q ∧ request_ok x'.2 q p prompt ∧ length prompt + length (default [] (x'.2 !! output_token_ids q)) + length (default [] (st_spec st !! cr_id c)) ≤ L) →
  stayed st rn0 dn rn →
  ∃ rn', update_cached st (rn, acc) c = Ok (rn', acc ++ filter (λ r, req_id_to_index (input_batch rn0) !! r = None) [cr_id c]) ∧ stayed st rn0 (dn ++ [c]) rn'.
Proof.
  intros Hx Hnd Hres Hrb Hgr Hin x' Hfin [S1 S2 S3 S4 S5 S6 S7 S8].
  assert (refs_ok (states rn)) as Hrf by (rewrite S1; apply foldl_refs; [intros; by apply cached_refs|done]).
  rewrite fmap_app, fmap_cons in Hnd. apply NoDup_app in Hnd as (_ & Hd1 & Hd2). inversion Hd2 as [|? ? Hd3 _]; subst.
  assert (cr_id c ∉ cr_id <$> dn) as Hcd by (intros Hin'; apply (Hd1 _ Hin'); by left).
  assert (∃ q, requests rn !! cr_id c = Some q) as [q Hq].
  { destruct Hin as [q0 Hq0]. exists q0. destruct (cached_all_untouched st (states rn0) dn (cr_id c) Hx Hcd q0 Hq0) as [E _]. rewrite <- S1 in E. done. }
  set (q' := set_progress (cr_num_computed_tokens c) (blocks_after st c q) q). set (o' := discard (cr_num_output_tokens c) q (outputs rn)).
  assert (cached_states st (states rn) c = (<[cr_id c := q']> (requests rn), o')) as Ecs by (unfold cached_states; cbn [fst snd states]; by rewrite Hq).
  assert (∃ p prompt, request_ok o' q' p prompt ∧ length prompt + length (default [] (o' !! output_token_ids q)) + length (default [] (st_spec st !! cr_id c)) ≤ L) as (p & prompt & Hok & Hfit).
  { destruct Hfin as (qf & p & prompt & Hqf & Hokf & Hfitf). unfold x' in Hqf, Hokf, Hfitf. rewrite foldl_app, <- S1 in Hqf, Hokf, Hfitf. cbn [foldl] in Hqf, Hokf, Hfitf.
    destruct (cached_all_untouched st (cached_states st (states rn) c) rest (cr_id c) (cached_refs _ _ _ Hrf) Hd3 q') as [E1 E2]; [rewrite Ecs; cbn; by rewrite lookup_insert_eq|].
    rewrite E1 in Hqf. injection Hqf as <-. rewrite E2 in Hfitf. rewrite Ecs in E2, Hfitf. cbn in E2, Hfitf. exists p, prompt. split; [|done]. rewrite Ecs in Hokf. eapply request_ok_ext; [exact E2|exact Hokf]. }
  assert (∀ r, r ≠ cr_id c → untouched r (states rn) (cached_states st (states rn) c)) as Hunt by (intros; by apply cached_untouched).
  destruct (req_id_to_index (input_batch rn0) !! cr_id c) as [i|] eqn:Ei.
  - rewrite filter_cons_False by (by rewrite Ei). rewrite filter_nil, app_nil_r.
    destruct (proj2 (view_is_Some (input_batch rn) (cr_id c) (bo_core _ _ _ _ _ _ S2)) ltac:(by rewrite S7, Ei)) as [v Hv].
    destruct (update_stay_ok rn acc st c q p prompt v S2 S3 S4 Hq Hv) as (rn' & Hrun & Hst & Hip); [intros Hc; apply Hres in Hc; congruence|done|done|done|].
    exists rn'. split; [done|]. destruct Hip as [I1 I2 I3 I4 I5 I6]. fold q' o' in I3. split; try congruence.
    + rewrite foldl_app, <- S1. done.
    + intros r v' Hv'. rewrite I3 in Hv'. rewrite Hst. destruct (decide (r = cr_id c)) as [->|Hne].
      * injection Hv' as <-. exists q'. rewrite Ecs. cbn [fst snd]. rewrite lookup_insert_eq. split; [done|]. rewrite core_draft by (by apply request_view_core). by apply row_of_ok.
      * destruct (S4 r v' Hv') as (q1 & Hq1 & Hrow1). exists q1. destruct (untouched_row r _ _ q1 (Hunt r Hne) Hq1) as [E1 E2]. split; [done|]. by rewrite E2.
    + intros r v'. rewrite fmap_app, elem_of_app, I3. cbn. rewrite list_elem_of_singleton. destruct (decide (r = cr_id c)) as [->|Hne].
      * intros _ [= <-]. by rewrite core_draft by (by apply request_view_core).
      * intros [Hr| ->]; [by apply S5|done].
  - rewrite filter_cons_True by done. rewrite filter_nil. destruct (update_away_ok rn acc st c q Hq) as (rn' & Hrun & Hst & Eb); [by rewrite S7|done|]. exists rn'. split; [done|].
    split; rewrite ?Eb; try done.
    + by rewrite foldl_app, <- S1.
    + apply (synced_untouched (states rn) _ (input_batch rn)); [done|]. intros r v Hv. split; [done|]. rewrite Hst. apply Hunt. intros ->. unfold view in Hv. rewrite S7, Ei in Hv. done.
    + intros r v. rewrite fmap_app, elem_of_app. cbn. rewrite list_elem_of_singleton. intros [Hr| ->]; [by apply S5|]. unfold view. by rewrite S7, Ei.
Qed.
End Sync.
