(* ===== verification/RunnerStep.v ===== *)
(** * A step of the model runner

    Replaying the recorded removals, additions and moves on what held for the rows before
    a step gives what holds for them after it; a step keeps the rows up to date and
    records what it moves. *)

From Stdlib Require Import QArith Qcanon.
From stdpp Require Import sorting.
From S2P Require Import Prelude BlockTable LogitsProcs LogitsSpec InputBatch ModelRunner BatchInv BatchOps BatchMoves BatchStep RunnerSync.

Local Open Scope nat_scope.

(** ** Replaying a batch update *)

Lemma foldl_move_natural {T U} (h : T → U) (none : T) (none' : U) (f : nat → T) (g : nat → U) l : h none = none' → (∀ i, h (f i) = g i) →
  ∀ i, h (foldl (apply_move none) f l i) = foldl (apply_move none') g l i.
Proof.
  intros Hn. revert f g. induction l as [|[[a b] dir] l IH]; intros f g Hf i; cbn [foldl]; [done|]. apply IH. intros j. unfold apply_move.
  destruct (decide _); [done|]. destruct (decide _); [|done]. by destruct (bool_decide _).
Qed.
(** Rows that are filled before they are read need not be cleared. *)
Lemma one_way_ext {T} (none : T) (f g : nat → T) (ms : list (nat * nat)) : (∀ i, i ∉ ms.*2 → f i = g i) → (∀ x y, x ∈ ms → y ∈ ms → x.2 ≠ y.1) →
  ∀ i, foldl (apply_move none) f (one_way <$> ms) i = foldl (apply_move none) g (one_way <$> ms) i.
Proof.
  revert f g. induction ms as [|[a b] ms IH]; intros f g Hf Hap i; [apply Hf, not_elem_of_nil|]. rewrite fmap_cons. cbn [foldl]. apply IH; [|intros x y Hx Hy; apply Hap; by right]. clear i.
  intros i Hi. unfold one_way, apply_move. cbn [fst snd]. destruct (decide (i = b)) as [->|Hb].
  - apply Hf. intros (y & E & Hy)%list_elem_of_fmap. apply (Hap y (a, b) Hy); [by left|done].
  - destruct (decide (i = a)); [done|]. apply Hf. rewrite fmap_cons, not_elem_of_cons. done.
Qed.

Section Trace.
Context (N L V : nat) (Ws : list nat) (T0 : MultiGroupBlockTable).
Context {T : Type} (none : T) (fresh : AddedRequest → T) (g : string → T).
Implicit Types (b : InputBatch) (f : nat → T) (i j : nat).
Notation batch_ok := (batch_ok N L V Ws T0).

(** What holds for a row, when [g] is what holds for a request. *)
Definition row_state b i : T := from_option g none (occupant b i).
Definition replay b f : nat → T :=
  foldl (apply_move none) (foldl (apply_add fresh) (foldl (apply_remove none) f (removed_of b)) (added (batch_update_builder b))) (moved (batch_update_builder b)).
Definition tracks f b : Prop := ∀ i, row_state b i = replay b f i.

Lemma tracks_start f b : batch_ok b → added (batch_update_builder b) = [] → moved (batch_update_builder b) = [] → (∀ i, i ∉ removed_of b → f i = row_state b i) → tracks f b.
Proof.
  intros Hb Ha Hm Hf i. unfold replay. rewrite Ha, Hm. cbn. rewrite foldl_remove. destruct (decide (i ∈ removed_of b)) as [Hi|Hi]; [|by rewrite Hf].
  apply (bo_holes _ _ _ _ _ b Hb) in Hi. unfold row_state, occupant. by rewrite Hi.
Qed.
Lemma tracks_same f b b' : _req_ids b' = _req_ids b → batch_update_builder b' = batch_update_builder b → tracks f b → tracks f b'.
Proof. intros E1 E2 H i. unfold row_state, replay, removed_of, occupant in *. rewrite E1, E2. apply H. Qed.

Lemma tracks_add f b b' i request p v : builder_ok (batch_update_builder b) → moved (batch_update_builder b) = [] → added_to b b' i request p v →
  fresh (mkAdded i p (prompt_token_ids request) (output_token_ids request)) = g (req_id request) → tracks f b → tracks f b'.
Proof.
  intros [Hnd _] Hm [A1 A2 A3 A4 A5 A6] Hfr H j. unfold row_state, replay. rewrite A2, A3, A4, Hm, foldl_app. cbn [foldl]. unfold apply_add at 1, put_at. cbn [ad_index].
  destruct (decide (j = i)) as [->|Hne]; [by cbn|]. specialize (H j). unfold row_state, replay in H. rewrite Hm in H. cbn [foldl] in H. rewrite H. apply foldl_add_ext. rewrite !foldl_remove.
  assert (j ∈ removed_of b ↔ j ∈ removed_of b') as Hiff.
  { unfold removed_of. destruct A5 as [(E1 & _ & E2)|Hp]; [by rewrite E1, E2|]. rewrite Hp, elem_of_cons. naive_solver. }
  destruct (decide (j ∈ removed_of b)), (decide (j ∈ removed_of b')); try done; tauto.
Qed.

Lemma tracks_moves f b b' ms : tracks f b → (∀ i, occupant b' i = foldl (apply_move None) (occupant b) ms i) → added (batch_update_builder b') = added (batch_update_builder b) →
  moved (batch_update_builder b') = moved (batch_update_builder b) ++ ms → removed_of b' = removed_of b → tracks f b'.
Proof.
  intros H Ho Ha Hm Hr i. unfold row_state. rewrite Ho. rewrite (foldl_move_natural (from_option g none) None none (occupant b) (row_state b) ms eq_refl (λ _, eq_refl)).
  unfold replay. rewrite Ha, Hm, Hr, foldl_app. apply foldl_move_ext. apply H.
Qed.

Lemma tracks_condense f b b' ms : tracks f b → moved (batch_update_builder b) = [] → same_requests b b' → moved_down N b b' ms → tracks f b'.
Proof.
  intros H Hm Hs [M1 M2 M3 M4 M5] i. unfold row_state. rewrite M2. rewrite (foldl_move_natural (from_option g none) None none (occupant b) (row_state b) _ eq_refl (λ _, eq_refl)).
  unfold replay. rewrite (sr_added _ _ Hs), M1, Hm. cbn [app]. apply one_way_ext.
  - intros j Hj. rewrite (H j). unfold replay. rewrite Hm. cbn [foldl]. apply foldl_add_ext. rewrite !foldl_remove.
    assert (j ∈ removed_of b ↔ j ∈ removed_of b') as Hiff by (rewrite M3, elem_of_app; tauto).
    destruct (decide (j ∈ removed_of b)), (decide (j ∈ removed_of b')); try done; tauto.
  - intros x y Hx Hy. pose proof (M5 x y Hx Hy). lia.
Qed.
End Trace.

(** ** The phases of a step *)

(** What a processor learns of a request, and what it holds for it. *)
Definition origin (q : CachedRequestState) : option Origin := p ← sampling_params q; Some (p, prompt_token_ids q, output_token_ids q).
Definition owner {T} (none : T) (lpf : Origin → T) (x : States) (r : string) : T := from_option lpf none (x.1 !! r ≫= origin).

Section Step.
Context (N L V : nat) (Ws : list nat) (T0 : MultiGroupBlockTable).
Implicit Types (b : InputBatch) (i j : nat) (r : string) (x : States) (q : CachedRequestState) (rn : Runner).
Notation batch_ok := (batch_ok N L V Ws T0).
Notation batch_core := (batch_core N L V Ws T0).
Notation batch_dense := (batch_dense N L V Ws T0).
Notation summary_ok := (summary_ok V).
Notation request_ok := (request_ok L V Ws T0).
Notation synced := (synced V T0).
Notation row_of := (row_of V T0).
Notation stayed := (stayed N L V Ws T0).

(** A request that fits its row together with its draft tokens. *)
Definition fits (spec : gmap string (list Z)) x r : Prop := ∃ q p prompt, x.1 !! r = Some q ∧ request_ok x.2 q p prompt ∧
  length prompt + length (default [] (x.2 !! output_token_ids q)) + length (default [] (spec !! r)) ≤ L.

Lemma update_all_cached_ok st rn0 acc l : refs_ok (states rn0) → batch_ok (input_batch rn0) → summary_ok (input_batch rn0) → synced (states rn0) (input_batch rn0) → NoDup (cr_id <$> l) →
  (∀ r, r ∈ st_resumed st → req_id_to_index (input_batch rn0) !! r = None) → (∀ c, c ∈ l → cr_id c ∈ st_resumed st → is_Some (cr_new_block_ids c)) →
  (∀ c ids, c ∈ l → cr_new_block_ids c = Some ids → length ids = length T0) → (∀ r, r ∈ cr_id <$> l → is_Some (requests rn0 !! r)) →
  (∀ r, r ∈ cr_id <$> l → fits (st_spec st) (foldl (cached_states st) (states rn0) l) r) →
  ∃ rn', foldM (update_cached st) (rn0, acc) l = Ok (rn', acc ++ filter (λ r, req_id_to_index (input_batch rn0) !! r = None) (cr_id <$> l)) ∧ stayed st rn0 l rn'.
Proof.
  intros Hx Hb Hs Hsy Hnd H1 H2 H3 H4 H5. destruct (foldM_ind (λ dn y, y.2 = acc ++ filter (λ r, req_id_to_index (input_batch rn0) !! r = None) (cr_id <$> dn) ∧ stayed st rn0 dn y.1)
    (update_cached st) (rn0, acc) l) as ([rn' acc'] & Hrun & Hacc & H).
  - split; [cbn; by rewrite app_nil_r|]. split; try done. by intros r v ?%not_elem_of_nil.
  - intros dn c rest [rn acc1] E [Hacc Hst]. cbn [fst snd] in *. subst l. assert (c ∈ dn ++ c :: rest) as Hc by (apply elem_of_app; right; by left).
    destruct (update_cached_ok N L V Ws T0 st rn0 acc1 dn c rest rn) as (rn2 & Hrun & Hst2); [done|done|done|by apply H2|intros ids; by apply H3| | |done|].
    + apply H4. apply list_elem_of_fmap. by exists c.
    + apply H5. apply list_elem_of_fmap. by exists c.
    + eexists (_, _). split; [done|]. cbn [fst snd]. split; [|done]. by rewrite fmap_app, filter_app, Hacc, app_assoc.
  - cbn [fst snd] in *. rewrite Hacc in Hrun. by exists rn'.
Qed.

(** *** Requests that enter *)

Definition adds_ok b : Prop := ∀ a, a ∈ added (batch_update_builder b) → ad_index a < N ∧ ad_index a ∉ removed_of b.

Lemma add_to_batch_ok st rn r q p prompt : batch_ok (input_batch rn) → summary_ok (input_batch rn) → requests rn !! r = Some q → req_id q = r → request_ok (outputs rn) q p prompt →
  length prompt + length (default [] (outputs rn !! output_token_ids q)) + length (default [] (st_spec st !! r)) ≤ L → num_reqs (input_batch rn) < N →
  req_id_to_index (input_batch rn) !! r = None → moved (batch_update_builder (input_batch rn)) = [] → adds_ok (input_batch rn) →
  ∃ b', add_to_batch st rn r = Ok (with_batch b' rn) ∧ batch_ok b' ∧ summary_ok b' ∧
    (∀ r', view b' r' = if decide (r' = r) then Some (draft (default [] (st_spec st !! r)) (request_view V T0 (outputs rn) q p prompt)) else view (input_batch rn) r') ∧
    dom (req_id_to_index b') = {[r]} ∪ dom (req_id_to_index (input_batch rn)) ∧ moved (batch_update_builder b') = [] ∧ adds_ok b' ∧
    ∀ T (none : T) lpf f, tracks none (lpf ∘ ad_origin) (owner none lpf (states rn)) f (input_batch rn) → tracks none (lpf ∘ ad_origin) (owner none lpf (states rn)) f b'.
Proof.
  intros Hb Hs Hq Hid Hok Hfit Hn Hnew Hm Hadds. unfold add_to_batch. rewrite Hq. cbn [of_option]. rewrite bind_ret.
  destruct (add_request_ok N L V Ws T0 (input_batch rn) (outputs rn) q p prompt Hb Hs Hok Hn) as (i & b1 & -> & Hi & Hb1 & Hs1 & Had); [by rewrite Hid|]. rewrite bind_ret. cbn [snd]. rewrite Hid.
  pose proof Had as [A1 A2 A3 A4 A5 A6]. rewrite Hid in A1, A6.
  destruct (update_spec_ok N L V Ws T0 b1 r (request_view V T0 (outputs rn) q p prompt) (st_spec st) Hb1 Hs1) as (b' & -> & [I1 I2 I3 I4 I5 I6]); [rewrite A1; by rewrite decide_True|unfold num_tokens; cbn; lia|].
  rewrite bind_ret. exists b'. split; [done|]. split; [done|]. split; [done|]. split; [|split; [|split; [by rewrite I6, A4|split]]].
  - intros r'. rewrite I3, A1. destruct (decide (r' = r)); [|done]. by rewrite core_core by (by eapply request_view_core).
  - by rewrite I5, A6, dom_insert_L.
  - intros a. unfold removed_of. rewrite I6, A3, elem_of_app, list_elem_of_singleton. destruct (bo_builder _ _ _ _ _ _ Hb) as [Hnd _]. intros [Ha| ->].
    + destruct (Hadds a Ha) as [Ha1 Ha2]. split; [done|]. unfold removed_of in Ha2. destruct A5 as [(_ & _ & E)|Hp]; [rewrite E; apply not_elem_of_nil|]. rewrite Hp, not_elem_of_cons in Ha2. tauto.
    + cbn. split; [done|]. destruct A5 as [(_ & _ & E)|Hp]; [rewrite E; apply not_elem_of_nil|]. rewrite Hp in Hnd. by inversion Hnd.
  - intros T none lpf f Ht. eapply tracks_same; [exact I4|exact I6|]. eapply tracks_add; [apply (bo_builder _ _ _ _ _ _ Hb)|done|exact Had| |done].
    unfold owner. cbn. rewrite Hid, Hq. cbn. unfold origin. by rewrite (rq_params _ _ _ _ _ _ _ _ Hok).
Qed.

Record entered st rn0 (dn : list string) rn : Prop := {
  en_states : states rn = states rn0;
  en_ok : batch_ok (input_batch rn);
  en_summary : summary_ok (input_batch rn);
  en_synced : synced (states rn) (input_batch rn);
  en_drafts r v : view (input_batch rn) r = Some v → v = draft (default [] (st_spec st !! r)) (core_view v);
  en_dom : dom (req_id_to_index (input_batch rn)) = list_to_set dn ∪ dom (req_id_to_index (input_batch rn0));
  en_moved : moved (batch_update_builder (input_batch rn)) = [];
  en_adds : adds_ok (input_batch rn);
  en_tracks T (none : T) lpf f : tracks none (lpf ∘ ad_origin) (owner none lpf (states rn0)) f (input_batch rn0) → tracks none (lpf ∘ ad_origin) (owner none lpf (states rn0)) f (input_batch rn);
}.

Lemma add_all_ok st rn0 l : entered st rn0 [] rn0 → refs_ok (states rn0) → NoDup l → (∀ r, r ∈ l → req_id_to_index (input_batch rn0) !! r = None) → (∀ r, r ∈ l → fits (st_spec st) (states rn0) r) →
  length l + num_reqs (input_batch rn0) ≤ N → ∃ rn', foldM (add_to_batch st) rn0 l = Ok rn' ∧ entered st rn0 l rn'.
Proof.
  intros H0 Hx Hnd Hnew Hfit Hsize. apply (foldM_ind (λ dn rn, entered st rn0 dn rn)); [done|]. intros dn r rest rn E [E1 E2 E3 E4 E5 E6 E7 E8 E9].
  assert (r ∈ l) as Hr by (rewrite E; apply elem_of_app; right; by left). destruct (Hfit r Hr) as (q & p & prompt & Hq & Hok & Hl). rewrite <- E1 in Hq, Hok, Hl. cbn [fst snd states] in Hq, Hok, Hl.
  assert (r ∉ dn) as Hrd. { rewrite E in Hnd. apply NoDup_app in Hnd as (_ & Hd & _). intros Hin. apply (Hd r Hin). by left. }
  assert (num_reqs (input_batch rn) = length dn + num_reqs (input_batch rn0)) as Hnum.
  { unfold num_reqs. rewrite <- !size_dom, E6, size_union.
    - rewrite size_list_to_set; [done|]. rewrite E in Hnd. by apply NoDup_app in Hnd as (? & _ & _).
    - intros s Hs1%elem_of_list_to_set [i Hi]%elem_of_dom. rewrite Hnew in Hi; [done|]. rewrite E. apply elem_of_app. by left. }
  destruct (add_to_batch_ok st rn r q p prompt) as (b' & Hrun & B1 & B2 & B3 & B4 & B5 & B6 & B7); try done.
  - apply (rf_id _ Hx). by rewrite <- E1.
  - rewrite Hnum. rewrite E, length_app in Hsize. cbn in Hsize. lia.
  - apply not_elem_of_dom. rewrite E6, not_elem_of_union, elem_of_list_to_set. split; [done|]. apply not_elem_of_dom. by apply Hnew.
  - exists (with_batch b' rn). split; [done|]. assert (states (with_batch b' rn) = states rn) as Est by done. split; rewrite ?Est; try done.
    + intros r' v Hv. cbn [input_batch with_batch] in Hv. rewrite B3 in Hv. destruct (decide (r' = r)) as [->|Hne]; [|by apply E4]. injection Hv as <-. exists q. split; [done|].
      rewrite core_draft by (by eapply request_view_core). by eapply row_of_ok.
    + intros r' v Hv. cbn [input_batch with_batch] in Hv. rewrite B3 in Hv. destruct (decide (r' = r)) as [->|Hne]; [|by apply E5]. injection Hv as <-. by rewrite core_draft by (by eapply request_view_core).
    + cbn [input_batch with_batch]. rewrite B4, E6, list_to_set_app_L. set_solver.
    + intros T none lpf f Ht. rewrite <- E1. apply B7. rewrite E1. by apply E9.
Qed.

(** *** Removals and updates of a step *)

Lemma unscheduled_elem st b r : r ∈ unscheduled_req_ids st b ↔ kept st r = false ∧ is_Some (req_id_to_index b !! r).
Proof.
  unfold unscheduled_req_ids. rewrite list_elem_of_filter. f_equiv. rewrite list_elem_of_fmap. split.
  - intros ([r' i] & -> & Hi%elem_of_map_to_list). by eexists.
  - intros [i Hi]. exists (r, i). split; [done|]. by apply elem_of_map_to_list.
Qed.
Lemma finished_untouched st x r : r ∉ st_finished st → untouched r x (finished_states st x).
Proof. intros Hr q Hq. unfold finished_states. cbn. by rewrite lookup_foldl_delete, decide_False. Qed.

(** Requests that keep their rows. *)
Definition stays st r : Prop := r ∈ cr_id <$> st_cached st ∧ r ∉ st_resumed st.

Lemma kept_stays st x r : step_legal N L V Ws T0 st x → kept st r = true → r ∉ nd_req_id <$> st_new st → stays st r.
Proof.
  intros Hl Hk Hn. unfold kept in Hk. apply andb_true_iff in Hk as [Hk1%bool_decide_eq_true Hk2]. rewrite negb_true_iff, bool_decide_eq_false in Hk2. split; [|done].
  apply (sl_scheduled _ _ _ _ _ _ _ Hl) in Hk1 as [?|?]; done.
Qed.
Lemma stays_kept st x r : step_legal N L V Ws T0 st x → stays st r → kept st r = true ∧ r ∉ nd_req_id <$> st_new st ∧ r ∉ st_finished st.
Proof.
  intros Hl [Hc Hr]. split; [|split].
  - unfold kept. rewrite bool_decide_true, bool_decide_false; [done|done|]. apply (sl_scheduled _ _ _ _ _ _ _ Hl). by right.
  - intros Hn. by apply (sl_disjoint _ _ _ _ _ _ _ Hl r).
  - by apply (sl_known _ _ _ _ _ _ _ Hl r).
Qed.

Record advanced st rn (to_add : list string) rn' : Prop := {
  av_states : states rn' = states_after st (states rn);
  av_entered : entered st rn' [] rn';
  av_rows r : is_Some (req_id_to_index (input_batch rn') !! r) ↔ is_Some (req_id_to_index (input_batch rn) !! r) ∧ stays st r;
  av_add : to_add = (nd_req_id <$> st_new st) ++ filter (λ r, req_id_to_index (input_batch rn') !! r = None) (cr_id <$> st_cached st);
  av_tracks T (none : T) lpf f : (∀ i, occupant (input_batch rn) i = None → f i = none) →
    (∀ i r, occupant (input_batch rn) i = Some r → stays st r → f i = owner none lpf (states_after st (states rn)) r) →
    tracks none (lpf ∘ ad_origin) (owner none lpf (states rn')) f (input_batch rn');
}.

Lemma runner_advance_ok st rn : step_legal N L V Ws T0 st (states rn) → refs_ok (states rn) → batch_dense (input_batch rn) → summary_ok (input_batch rn) →
  batch_update_builder (input_batch rn) = BatchUpdateBuilder_init → synced (states rn) (input_batch rn) →
  ∃ b1 b2 rn1 rn' to_add, let rn0 := pop_finished rn (st_finished st) in foldM drop_request (input_batch rn0) (st_finished st) = Ok b1 ∧ foldM drop_request b1 (unscheduled_req_ids st b1) = Ok b2 ∧
    foldM add_new (with_batch b2 rn0, []) (st_new st) = Ok (rn1, nd_req_id <$> st_new st) ∧ foldM (update_cached st) (rn1, nd_req_id <$> st_new st) (st_cached st) = Ok (rn', to_add) ∧
    advanced st rn to_add rn'.
Proof.
  intros Hl Hx Hd Hs Hbu Hsy. set (b0 := input_batch rn). set (x0 := states rn).
  destruct (drop_all_ok N L V Ws T0 b0 b0 ∅ (st_finished st)) as (b1 & R1 & Hrm1); [by apply removing_start|].
  destruct (drop_all_ok N L V Ws T0 b0 b1 _ (unscheduled_req_ids st b1) Hrm1) as (b2 & R2 & Hrm2). rewrite union_empty_r_L in Hrm1, Hrm2.
  set (rn0 := with_batch b2 (pop_finished rn (st_finished st))). assert (states rn0 = finished_states st x0) as Est0 by done.
  destruct (add_all_new_ok N L V Ws T0 b0 _ rn0 (st_new st) Hrm2) as (rn1 & R3 & Est1 & Hrm3 & Hsy1 & Hrf1).
  { rewrite Est0. by apply finished_refs. }
  { rewrite Est0. eapply synced_untouched; [eapply removing_synced; [exact Hsy|exact Hrm2]|]. intros r v Hv. split; [done|]. apply finished_untouched. intros Hr.
    cbn in Hv. rewrite (rm_views _ _ _ _ _ _ _ _ Hrm2), decide_True in Hv; [done|]. apply elem_of_union. right. by apply elem_of_list_to_set. }
  { apply (sl_prompt _ _ _ _ _ _ _ Hl). }
  set (X := list_to_set (nd_req_id <$> st_new st) ∪ (list_to_set (unscheduled_req_ids st b1) ∪ list_to_set (st_finished st)) : gset string) in *.
  assert (∀ r, r ∈ X ↔ r ∈ nd_req_id <$> st_new st ∨ (kept st r = false ∧ is_Some (req_id_to_index b1 !! r)) ∨ r ∈ st_finished st) as HX.
  { intros r. unfold X. rewrite !elem_of_union, !elem_of_list_to_set, unscheduled_elem. done. }
  assert (∀ r, is_Some (req_id_to_index (input_batch rn1) !! r) ↔ is_Some (req_id_to_index b0 !! r) ∧ stays st r) as Hstay.
  { intros r. rewrite (rm_index _ _ _ _ _ _ _ _ Hrm3). destruct (decide (r ∈ X)) as [Hr|Hr].
    - split; [by intros [? ?]|]. intros [Hi Hst]. destruct (stays_kept _ _ _ Hl Hst) as (K1 & K2 & K3). apply HX in Hr. rewrite K1 in Hr. naive_solver.
    - split; [|tauto]. intros Hi. split; [done|]. rewrite HX in Hr. apply (kept_stays _ _ _ Hl); [|tauto]. destruct (kept st r) eqn:K; [done|]. exfalso. apply Hr. right; left. split; [done|].
      rewrite (rm_index _ _ _ _ _ _ _ _ Hrm1), decide_False; [done|]. rewrite elem_of_list_to_set. tauto. }
  assert (∀ r, r ∈ cr_id <$> st_cached st → untouched r x0 (states rn1)) as Hunt.
  { intros r Hr. rewrite Est1, Est0. etrans; [apply finished_untouched; by apply (sl_known _ _ _ _ _ _ _ Hl r)|]. apply new_all_untouched; [by apply finished_refs|]. intros Hn. by apply (sl_disjoint _ _ _ _ _ _ _ Hl r). }
  assert (foldl (cached_states st) (states rn1) (st_cached st) = states_after st x0) as Efin by (rewrite Est1, Est0; done).
  destruct (update_all_cached_ok st rn1 (nd_req_id <$> st_new st) (st_cached st)) as (rn2 & R4 & Hst); try done; [apply Hrm3|apply Hrm3|apply Hl| | | | | |].
  { intros r Hr. destruct (req_id_to_index (input_batch rn1) !! r) as [i|] eqn:Ei; [|done]. destruct (proj1 (Hstay r)) as [_ [_ Hnr]]; [by rewrite Ei|]. done. }
  { apply (sl_resumed _ _ _ _ _ _ _ Hl). }
  { apply (sl_groups _ _ _ _ _ _ _ Hl). }
  { intros r Hr. destruct (proj1 (sl_known _ _ _ _ _ _ _ Hl r Hr)) as [q Hq]. destruct (Hunt r Hr q Hq) as [E _]. by eexists. }
  { intros r Hr. rewrite Efin. apply (sl_rows _ _ _ _ _ _ _ Hl). apply (sl_scheduled _ _ _ _ _ _ _ Hl). by right. }
  exists b1, b2, rn1, rn2, ((nd_req_id <$> st_new st) ++ filter (λ r, req_id_to_index (input_batch rn1) !! r = None) (cr_id <$> st_cached st)).
  split; [exact R1|]. split; [exact R2|]. split; [exact R3|]. split; [exact R4|]. destruct Hst as [S1 S2 S3 S4 S5 S6 S7 S8].
  assert (moved (batch_update_builder (input_batch rn2)) = []) as Hmv by (rewrite S8; apply Hrm3). assert (added (batch_update_builder (input_batch rn2)) = []) as Had by (rewrite S8; apply Hrm3).
  split.
  - by rewrite S1.
  - split; try done; [|by rewrite list_to_set_nil, union_empty_l_L|intros a; rewrite Had; by intros ?%not_elem_of_nil].
    intros r v Hv. apply S5; [|done]. apply (Hstay r). rewrite <- S7. eapply view_is_Some; [apply S2|by eexists].
  - intros r. by rewrite S7.
  - by rewrite S7.
  - intros T none lpf f Hf1 Hf2. eapply tracks_start; [exact S2|done|done|]. intros i Hi. unfold row_state.
    assert (occupant (input_batch rn2) i = occupant (input_batch rn1) i) as -> by (unfold occupant; by rewrite S6). rewrite (rm_occ _ _ _ _ _ _ _ _ Hrm3). fold b0.
    assert (removed_of (input_batch rn2) = removed_of (input_batch rn1)) as Er by (unfold removed_of; by rewrite S8). rewrite Er in Hi. pose proof (rm_holes _ _ _ _ _ _ _ _ Hrm3 i) as Hh. fold b0 in Hh.
    destruct (occupant b0 i) as [r|] eqn:Eo; [|by apply Hf1]. cbn. destruct (decide (r ∈ X)) as [Hr|Hr]; [by destruct Hi; apply (Hh r)|]. cbn. rewrite S1, Efin. apply Hf2; [done|].
    apply (Hstay r). rewrite (rm_index _ _ _ _ _ _ _ _ Hrm3), decide_False by done. eexists. apply (occupant_index N L V Ws T0); [apply Hd|done].
Qed.

(** *** Closing the holes and reordering *)

Definition batch_update b : BatchUpdate := mkBatchUpdate (num_reqs b) (removed_of b) (added (batch_update_builder b)) (moved (batch_update_builder b)).

Record settled thr (scheduled : gmap string Z) b b' : Prop := {
  se_dense : batch_dense b';
  se_same : same_requests b b';
  se_wf : update_wf N (batch_update b');
  se_tracks T (none : T) fresh g f : tracks none fresh g f b → tracks none fresh g f b';
  se_sorted t : thr = Some t → ∃ rg, batch_regions t scheduled b' = Ok rg ∧ StronglySorted le rg;
}.

Lemma regions_total t (scheduled : gmap string Z) b : batch_dense b → (∀ r, is_Some (req_id_to_index b !! r) → is_Some (scheduled !! r)) → ∃ rg, batch_regions t scheduled b = Ok rg.
Proof.
  intros Hd Hs. apply mapR_total. intros [i y] (k & Hk)%list_elem_of_lookup. rewrite list_lookup_imap in Hk. destruct (_req_ids b !! k) as [y'|] eqn:E; [|done]. injection Hk as <- <-.
  pose proof (lookup_lt_Some _ _ _ E) as Hl. rewrite <- (bd_num _ _ _ _ _ b Hd) in Hl. apply (bd_full _ _ _ _ _ b Hd) in Hl as [r Hr]. rewrite E in Hr. injection Hr as ->. cbn.
  destruct (Hs r) as [n ->]; [exists k; by apply (bo_index _ _ _ _ _ b (bd_core _ _ _ _ _ b Hd))|]. cbn.
  destruct (bo_live _ _ _ _ _ b (bd_core _ _ _ _ _ b Hd) k r E) as (? & ? & c & _ & _ & ->). cbn. by eexists.
Qed.

Lemma batch_settle_ok thr scheduled b : batch_ok b → moved (batch_update_builder b) = [] → adds_ok b → (∀ r, is_Some (req_id_to_index b !! r) → is_Some (scheduled !! r)) →
  ∃ b1 b', condense b = Ok b1 ∧ may_reorder_batch thr scheduled b1 = Ok b' ∧ settled thr scheduled b b'.
Proof.
  intros Hb Hm Had Hsc. destruct (condense_ok N L V Ws T0 b Hb) as (b1 & ms & Hc & Hd1 & Hs1 & Hmd). exists b1. pose proof Hmd as [M1 M2 M3 M4 M5]. rewrite Hm in M1. cbn [app] in M1.
  assert (∃ b' sw, may_reorder_batch thr scheduled b1 = Ok b' ∧ swapped N L V Ws T0 b1 b' sw ∧ ∀ t, thr = Some t → ∃ rg, batch_regions t scheduled b' = Ok rg ∧ StronglySorted le rg) as (b' & sw & Hr & Hsw & Hso).
  { destruct thr as [t|]; [|exists b1, []; split; [done|]; split; [by apply swapped_refl|done]].
    destruct (regions_total t scheduled b1 Hd1) as [rg Hrg]. { intros r Hr. apply Hsc. apply elem_of_dom. rewrite <- (sr_dom _ _ Hs1). by apply elem_of_dom. }
    destruct (reorder_ok N L V Ws T0 t scheduled b1 rg Hd1 Hrg) as (flag & b' & sw & Hrun & Hsw & Hrg'). exists b', sw. cbn [may_reorder_batch]. rewrite Hrun, bind_ret. split; [done|]. split; [done|].
    intros t' [= <-]. eexists. split; [done|]. apply target_sorted. }
  exists b'. split; [done|]. split; [done|]. destruct Hsw as [W1 W2 W3 W4 W5 W6]. pose proof (same_requests_num _ _ W2) as Hn. split; try done.
  - by etrans.
  - assert (∀ i, i ∈ removed_of b' → i ∈ removed_of b) as Hrem by (intros i Hi; rewrite M3; apply elem_of_app; right; by rewrite <- W5).
    assert (added (batch_update_builder b') = added (batch_update_builder b)) as Ea by (rewrite (sr_added _ _ W2); apply (sr_added _ _ Hs1)).
    assert (num_reqs b' ≤ N) as HnN by (rewrite (bd_num _ _ _ _ _ b' W1); apply (bo_len _ _ _ _ _ b' (bd_core _ _ _ _ _ b' W1))).
    split; cbn [batch_update batch_size bu_removed bu_added bu_moved]; try done.
    + intros i Hi%Hrem. split; [|intros a; rewrite Ea; intros Ha <-; by apply (Had a Ha)]. apply (bo_holes _ _ _ _ _ b Hb) in Hi. apply lookup_lt_Some in Hi. pose proof (bo_len _ _ _ _ _ b Hb). lia.
    + intros a. rewrite Ea. apply Had.
    + intros a c dir. rewrite W3, M1, elem_of_app, !list_elem_of_fmap. intros [([a' c'] & [= -> -> ->] & Hx)|([a' c'] & [= -> -> ->] & Hx)].
      * destruct (M4 _ Hx) as (? & ? & ?). cbn in *. lia.
      * destruct (W6 _ Hx) as (? & ? & ?). cbn in *. lia.
    + intros a c. rewrite W3, M1, elem_of_app, !list_elem_of_fmap. intros [([a' c'] & [= -> ->] & Hx)|([a' c'] & [=] & Hx)]. destruct (M4 _ Hx) as (? & ? & ?). cbn in *. lia.
    + apply (bd_gone _ _ _ _ _ b' W1).
  - intros T none fresh g f Ht. eapply tracks_moves; [eapply tracks_condense; [exact Ht|exact Hm|exact Hs1|exact Hmd]|exact W4|apply (sr_added _ _ W2)|exact W3|exact W5].
Qed.

(** *** The metadata of the sampler *)

Lemma metadata_total b : batch_core b → summary_ok b → ∃ md, _make_sampling_metadata b = Ok md.
Proof.
  intros Hb Hs. unfold _make_sampling_metadata. set (rows := take (num_reqs b) (cells b)).
  assert (∃ pr, (if negb (no_penalties b) || existsb logits_processing_needs_token_ids rows then l ← _make_prompt_token_ids_cpu_tensor b; Ok (Some l) else Ok None) = Ok pr) as [pr ->].
  { destruct (negb (no_penalties b) || existsb logits_processing_needs_token_ids rows) eqn:E; [|by eexists]. unfold _make_prompt_token_ids_cpu_tensor. rewrite bool_decide_true; [by eexists|]. intros Hz.
    apply orb_true_iff in E as [E|E]; [|by unfold rows in E; rewrite Hz in E].
    assert (∀ s P r, flag_ok b s P → r ∈ s → False) as Hno.
    { intros s P r Hf Hr. apply Hf in Hr as (v & Hv & _). assert (is_Some (req_id_to_index b !! r)) as [i Hi] by (eapply view_is_Some; [exact Hb|by eexists]).
      unfold num_reqs in Hz. apply map_size_empty_inv in Hz. by rewrite Hz in Hi. }
    unfold no_penalties in E. destruct Hs as [_ _ _ _ S5 S6 S7 _ _]. apply negb_true_iff, andb_false_iff in E as [E|E]; [apply andb_false_iff in E as [E|E]|];
      apply bool_decide_eq_false, set_choose_L in E as [r Hr]; (eapply Hno; [|exact Hr]; eassumption). }
  rewrite bind_ret. unfold no_allowed_token_ids. case_bool_decide as Ha; [rewrite bind_ret; by eexists|]. destruct (so_mask _ _ Hs Ha) as [m ->]. cbn [of_option]. rewrite !bind_ret. by eexists.
Qed.
End Step.
