(* ===== verification/RunnerInv.v ===== *)
(** * The batch of a running worker

    Between the steps rows agree with the cached states of their requests, and logits
    processors with the rows. *)

From Stdlib Require Import QArith Qcanon.
From stdpp Require Import sorting.
From S2P Require Import Prelude BlockTable LogitsProcs LogitsSpec InputBatch ModelRunner BatchInv BatchOps BatchMoves BatchStep RunnerSync RunnerStep.

Local Open Scope nat_scope.

(** No output token is taken back. *)
Definition no_discard (st : StepInput) (x : States) : Prop :=
  ∀ c q, c ∈ st_cached st → x.1 !! cr_id c = Some q → length (default [] (x.2 !! output_token_ids q)) ≤ cr_num_output_tokens c.

Section Runner.
Context (N L V : nat) (Ws : list nat) (T0 : MultiGroupBlockTable).
Implicit Types (b : InputBatch) (i j : nat) (r : string) (x : States) (q : CachedRequestState) (rn : Runner) (st : StepInput).
Notation batch_dense := (batch_dense N L V Ws T0).
Notation summary_ok := (summary_ok V).
Notation request_ok := (request_ok L V Ws T0).
Notation synced := (synced V T0).
Notation row_of := (row_of V T0).
Notation step_legal := (step_legal N L V Ws T0).

Record runner_ok rn : Prop := {
  ro_refs : refs_ok (states rn);
  ro_dense : batch_dense (input_batch rn);
  ro_summary : summary_ok (input_batch rn);
  ro_builder : batch_update_builder (input_batch rn) = BatchUpdateBuilder_init;
  ro_synced : synced (states rn) (input_batch rn);
}.

(** The row that a step needs for a request. *)
Definition scheduled_row st x r : option View :=
  if decide (is_Some (st_scheduled st !! r)) then q ← x.1 !! r; draft (default [] (st_spec st !! r)) <$> row_of x.2 q else None.

Context {S : Type} `{LogitsProcessorSpec N S}.
Implicit Types (procs : S).

(** Processors hold for each row what they would compute for its request. *)
Definition procs_current (o : Outputs) rn procs : Prop := ∀ i, lp_view o procs i = row_state lp_none (owner lp_none (lp_fresh o) (states rn)) (input_batch rn) i.
(** They have seen a prefix of the outputs. *)
Definition procs_ok rn procs : Prop := ∃ o, lp_settled o procs ∧ procs_current o rn procs ∧
  ∀ r q, is_Some (req_id_to_index (input_batch rn) !! r) → requests rn !! r = Some q → (output_len o (output_token_ids q) ≤ output_len (outputs rn) (output_token_ids q))%Z.

Lemma origin_ref q y : origin q = Some y → y.2 = output_token_ids q.
Proof. unfold origin. destruct (sampling_params q); [|done]. by intros [= <-]. Qed.

(** What they hold is then also current for the outputs there are. *)
Lemma procs_ok_current rn procs : batch_dense (input_batch rn) → procs_ok rn procs → procs_current (outputs rn) rn procs.
Proof.
  intros Hd (o & Hs & Hc & Hg) i. specialize (Hc i). unfold row_state in *. destruct (occupant (input_batch rn) i) as [r|] eqn:Eo; cbn in *.
  - unfold owner in *. cbn in *. eapply lp_grow; [exact Hs| |exact Hc]. intros y Hy. destruct (requests rn !! r) as [q|] eqn:Eq; [|done]. cbn in Hy. rewrite (origin_ref q y Hy). apply (Hg r q); [|done].
    eexists. eapply occupant_index; [apply Hd|exact Eo].
  - eapply (lp_grow o (outputs rn) procs i None); [exact Hs|done|exact Hc].
Qed.

(** ** Telling the processors *)

Lemma refresh_ok {U} (init_entry : option (list Z) → Z → Ref → U) o b procs holder md : batch_dense b → summary_ok b → update_wf N (batch_update b) → lp_ok procs →
  ∃ procs' holder' md', refresh_metadata init_entry o b procs holder md = Ok (ib_batch_update_builder BatchUpdateBuilder_init b, procs', holder', md') ∧ lp_ok procs' ∧ lp_settled o procs' ∧
    ∀ i, lp_view o procs' i = replay lp_none (lp_fresh o ∘ ad_origin) b (lp_view o procs) i.
Proof.
  intros Hd Hs Hw Hp. unfold refresh_metadata. rewrite (bo_gen _ _ _ _ _ b (bd_core _ _ _ _ _ b Hd)). unfold get_and_reset.
  set (upd := match _removed (batch_update_builder b) with [] => _ | _ => _ end).
  assert (upd = (None, BatchUpdateBuilder_init) ∧ removed_of b = [] ∧ added (batch_update_builder b) = [] ∧ moved (batch_update_builder b) = [] ∨ upd = (Some (batch_update b), BatchUpdateBuilder_init)) as [(-> & E1 & E2 & E3)| ->].
  { unfold upd, batch_update, removed_of. destruct (_removed _), (moved _), (added _); auto. }
  - destruct (lp_idle o procs Hp) as (procs' & -> & Hp' & Hs' & Hv). rewrite !bind_ret. eexists _, _, _. split; [done|]. split; [done|]. split; [done|]. intros i. unfold replay. by rewrite E1, E2, E3.
  - destruct (lp_update o _ procs Hp Hw) as (procs' & -> & Hp' & Hs' & Hv). rewrite bind_ret.
    destruct (metadata_total N L V Ws T0 (ib_batch_update_builder BatchUpdateBuilder_init b)) as [md' ->].
    { destruct (bd_core _ _ _ _ _ b Hd). split; try done. by split; [apply NoDup_nil|]. }
    { by eapply summary_ext. }
    rewrite bind_ret. eexists _, _, _. split; [done|]. split; [done|]. split; [done|]. intros i. rewrite Hv. done.
Qed.

Lemma builder_reset_dense b : batch_dense b → batch_dense (ib_batch_update_builder BatchUpdateBuilder_init b).
Proof. intros [[] H1 H2 H3]. split; try done; [|by intros i ?%not_elem_of_nil]. split; try done. by split; [apply NoDup_nil|]. Qed.

(** ** A step *)

Lemma running_owner {T} (none : T) lpf st x r : step_legal st x → refs_ok x → stays st r → owner none lpf (states_after st x) r = owner none lpf x r ∧
  (no_discard st x → ∀ q, x.1 !! r = Some q → output_len (states_after st x).2 (output_token_ids q) = output_len x.2 (output_token_ids q)).
Proof.
  intros Hl Hx [(c & -> & Hc)%list_elem_of_fmap Hnr]. assert (cr_id c ∈ cr_id <$> st_cached st) as Hin by (apply list_elem_of_fmap; by exists c).
  destruct (sl_known _ _ _ _ _ _ _ Hl _ Hin) as [[q Hq] Hnf]. set (x1 := foldl new_states (finished_states st x) (st_new st)).
  assert (refs_ok x1) as Hx1 by (apply foldl_refs; [intros; by apply new_refs|by apply finished_refs]).
  assert (untouched (cr_id c) x x1) as Hu.
  { etrans; [by apply finished_untouched|]. apply new_all_untouched; [by apply finished_refs|]. intros Hn. by apply (sl_disjoint _ _ _ _ _ _ _ Hl _ Hn). }
  destruct (Hu q Hq) as [Hq1 Ho1]. destruct (cached_final st x1 (st_cached st) c q Hx1 (sl_cached_nodup _ _ _ _ _ _ _ Hl) Hc Hq1) as [Hq' Ho']. change (foldl (cached_states st) x1 (st_cached st)) with (states_after st x) in Hq', Ho'.
  split; [unfold owner; by rewrite Hq', Hq|]. intros Hnd q0 Hq0. rewrite Hq in Hq0. injection Hq0 as <-. unfold output_len. rewrite Ho', discard_outs, take_ge, Ho1; [done|]. rewrite Ho1. by apply (Hnd c q).
Qed.

Lemma to_add_ok st rn l rn1 : step_legal st (states rn) → advanced N L V Ws T0 st rn l rn1 →
  NoDup l ∧ (∀ r, r ∈ l → req_id_to_index (input_batch rn1) !! r = None ∧ is_Some (st_scheduled st !! r)) ∧ length l + num_reqs (input_batch rn1) ≤ N ∧
  list_to_set l ∪ dom (req_id_to_index (input_batch rn1)) = (dom (st_scheduled st) : gset string).
Proof.
  intros Hl [A1 A2 A3 A4 A5].
  assert (∀ r, r ∈ l → req_id_to_index (input_batch rn1) !! r = None ∧ is_Some (st_scheduled st !! r)) as Hnew.
  { intros r. rewrite A4, elem_of_app, list_elem_of_filter. rewrite (sl_scheduled _ _ _ _ _ _ _ Hl). intros [Hr|[Hr1 Hr2]]; [|by auto]. split; [|by left].
    destruct (req_id_to_index (input_batch rn1) !! r) eqn:E; [|done]. destruct (proj1 (A3 r)) as [_ [Hc _]]; [by rewrite E|]. by destruct (sl_disjoint _ _ _ _ _ _ _ Hl r). }
  assert (NoDup l) as Hnd.
  { rewrite A4. apply NoDup_app. split; [apply (sl_new_nodup _ _ _ _ _ _ _ Hl)|]. split; [|apply NoDup_filter, (sl_cached_nodup _ _ _ _ _ _ _ Hl)].
    intros r Hr [_ Hc]%list_elem_of_filter. by apply (sl_disjoint _ _ _ _ _ _ _ Hl r). }
  assert (list_to_set l ∪ dom (req_id_to_index (input_batch rn1)) = (dom (st_scheduled st) : gset string)) as Edom.
  { apply set_eq. intros r. rewrite elem_of_union, elem_of_list_to_set, !elem_of_dom. split.
    - intros [Hr|Hr]; [by apply Hnew|]. apply A3 in Hr as [_ [Hc _]]. apply (sl_scheduled _ _ _ _ _ _ _ Hl). by right.
    - intros [Hr|Hr]%(sl_scheduled _ _ _ _ _ _ _ Hl); [left; rewrite A4; apply elem_of_app; by left|]. destruct (req_id_to_index (input_batch rn1) !! r) eqn:E; [right; by eexists|].
      left. rewrite A4. apply elem_of_app. right. by apply list_elem_of_filter. }
  split; [done|]. split; [done|]. split; [|done]. pose proof (sl_size _ _ _ _ _ _ _ Hl) as Hsz. rewrite <- (size_dom (D := gset string)), <- Edom, size_union, size_list_to_set in Hsz; [|done|].
  - unfold num_reqs. by rewrite <- (size_dom (D := gset string)).
  - intros r Hr%elem_of_list_to_set [i Hi]%elem_of_dom. destruct (Hnew r Hr). congruence.
Qed.

Lemma runner_update_ok {U} (init_entry : option (list Z) → Z → Ref → U) thr st rn procs holder md : runner_ok rn → lp_ok procs → step_legal st (states rn) →
  ∃ rn' procs' holder' md', _update_states init_entry thr st rn procs holder md = Ok (rn', procs', holder', md') ∧ runner_ok rn' ∧ lp_ok procs' ∧ states rn' = states_after st (states rn) ∧
    (∀ r, view (input_batch rn') r = scheduled_row st (states rn') r) ∧ (procs_ok rn procs → no_discard st (states rn) → procs_ok rn' procs') ∧
    (∀ t, thr = Some t → ∃ rg, batch_regions t (st_scheduled st) (input_batch rn') = Ok rg ∧ StronglySorted le rg).
Proof.
  intros [R1 R2 R3 R4 R5] Hp Hl. destruct (runner_advance_ok N L V Ws T0 st rn Hl R1 R2 R3 R4 R5) as (b1 & b2 & rn1 & rn2 & l & E1 & E2 & E3 & E4 & Hav). cbn zeta in E1.
  unfold _update_states. rewrite E1, bind_ret, E2, bind_ret, E3, bind_ret, E4, bind_ret. cbn [fst snd]. destruct (to_add_ok st rn l rn2 Hl Hav) as (Hnd & Hnew & Hsize & Hdom). destruct Hav as [A1 A2 A3 A4 A5].
  assert (refs_ok (states rn2)) as Hrf.
  { rewrite A1. apply foldl_refs; [intros; by apply cached_refs|]. apply foldl_refs; [intros; by apply new_refs|]. by apply finished_refs. }
  destruct (add_all_ok N L V Ws T0 st rn2 l A2 Hrf Hnd) as (rn3 & -> & [B1 B2 B3 B4 B5 B6 B7 B8 B9]); [by intros; apply Hnew|intros r Hr; rewrite A1; by apply (sl_rows _ _ _ _ _ _ _ Hl), Hnew|done|].
  rewrite Hdom in B6. rewrite bind_ret.
  destruct (batch_settle_ok N L V Ws T0 thr (st_scheduled st) (input_batch rn3) B2 B7 B8) as (b3 & b4 & -> & E5 & [C1 C2 C3 C4 C5]). { intros r Hr. apply elem_of_dom in Hr. rewrite B6 in Hr. by apply elem_of_dom. }
  rewrite bind_ret, E5, bind_ret. pose proof (same_requests_summary V _ _ C2 B3) as Hs4. assert (states rn3 = states_after st (states rn)) as Est by (by rewrite B1, A1).
  destruct (refresh_ok init_entry (outputs rn3) b4 procs holder md C1 Hs4 C3 Hp) as (procs' & holder' & md' & -> & Hp' & Hse & Hvw). rewrite bind_ret.
  set (b5 := ib_batch_update_builder BatchUpdateBuilder_init b4). exists (with_batch b5 rn3), procs', holder', md'. assert (states (with_batch b5 rn3) = states rn3) as Est5 by done.
  assert (∀ r, view b5 r = view (input_batch rn3) r) as Hv5 by (intros r; apply (sr_views _ _ C2)).
  split; [done|]. split.
  { split; cbn [input_batch with_batch]; rewrite ?Est5; try done; [by rewrite B1|by apply builder_reset_dense|by eapply summary_ext|]. intros r v. rewrite Hv5. apply B4. }
  split; [done|]. split; [done|]. split; [|split].
  - intros r. rewrite Est5. cbn [input_batch with_batch]. rewrite Hv5. unfold scheduled_row. destruct (view (input_batch rn3) r) as [v|] eqn:Ev.
    + rewrite decide_True. { destruct (B4 r v Ev) as (q & -> & Hrow). change (Some v = draft (default [] (st_spec st !! r)) <$> row_of (states rn3).2 q). rewrite Hrow. cbn. f_equal. by apply B5. }
      apply elem_of_dom. rewrite <- B6. apply elem_of_dom. eapply view_is_Some; [apply B2|by eexists].
    + rewrite decide_False; [done|]. intros Hr. apply elem_of_dom in Hr. rewrite <- B6 in Hr. apply elem_of_dom in Hr. eapply view_is_Some in Hr; [|apply B2]. rewrite Ev in Hr. by destruct Hr.
  - intros Hpo Hnd'. exists (outputs rn3). split; [done|]. split; [|done]. intros i. rewrite Est5. cbn [input_batch with_batch]. rewrite Hvw.
    change (row_state lp_none ?g b5 i) with (row_state lp_none g b4 i). symmetry. revert i. change (tracks lp_none (lp_fresh (outputs rn3) ∘ ad_origin) (owner lp_none (lp_fresh (outputs rn3)) (states rn3)) (lp_view (outputs rn3) procs) b4).
    apply C4. rewrite B1. apply B9. apply A5.
    + intros i Hi. destruct Hpo as (o & Hs & Hc & _). specialize (Hc i). unfold row_state in Hc. rewrite Hi in Hc. eapply (lp_grow o _ procs i None); [exact Hs|done|exact Hc].
    + intros i r Hi Hst. destruct (running_owner lp_none (lp_fresh (outputs rn3)) st (states rn) r Hl R1 Hst) as [Eow Hlen]. rewrite Eow. destruct Hpo as (o & Hs & Hc & Hg). specialize (Hc i). unfold row_state in Hc. rewrite Hi in Hc. cbn in Hc.
      unfold owner in *. eapply lp_grow; [exact Hs| |exact Hc]. intros y Hy. destruct ((states rn).1 !! r) as [q|] eqn:Eq; [|done]. cbn in Hy. rewrite (origin_ref q y Hy).
      change (outputs rn3) with (states rn3).2. rewrite Est, (Hlen Hnd' q eq_refl). apply (Hg r q); [|done]. eexists. eapply occupant_index; [apply R2|exact Hi].
  - intros t Ht. destruct (C5 t Ht) as (rg & Hrg & Hso). exists rg. split; [|done]. exact Hrg.
Qed.

(** ** Sampled tokens *)

Lemma in_place_dense b b' r v : in_place N L V Ws T0 b b' r v → batch_dense b → batch_dense b'.
Proof.
  intros [I1 I2 I3 I4 I5 I6] [D0 D1 D2 D3]. assert (num_reqs b' = num_reqs b) as En by (unfold num_reqs; by rewrite I5). split; [apply I1|by rewrite En, I4| |].
  - intros i. unfold is_live. rewrite I4, En. apply D2.
  - intros i. unfold removed_of. rewrite I6, En. apply D3.
Qed.
Lemma dense_ok b : batch_dense b → batch_update_builder b = BatchUpdateBuilder_init → summary_ok b → BatchInv.batch_ok N L V Ws T0 b.
Proof. intros Hd Hb Hs. by apply (removing_start N L V Ws T0 b Hd Hs Hb). Qed.

(** The tokens that a row can take. *)
Definition room rn i (ids : list Z) : Prop := ∃ r q prompt, occupant (input_batch rn) i = Some r ∧ requests rn !! r = Some q ∧ prompt_token_ids q = Some prompt ∧
  length prompt + length (default [] (outputs rn !! output_token_ids q)) + length ids ≤ L.

Record recorded rn rn' i (ids : list Z) : Prop := {
  rc_ok : runner_ok rn';
  rc_requests : requests rn' = requests rn;
  rc_ids : _req_ids (input_batch rn') = _req_ids (input_batch rn);
  rc_index : req_id_to_index (input_batch rn') = req_id_to_index (input_batch rn);
  rc_outputs r q : requests rn !! r = Some q → outputs rn' !! output_token_ids q =
    (if decide (occupant (input_batch rn) i = Some r) then Some (default [] (outputs rn !! output_token_ids q) ++ ids) else outputs rn !! output_token_ids q);
}.

Lemma cache_row_ok rn i ids : runner_ok rn → room rn i ids → ∃ rn', cache_row L rn (i, ids) = Ok rn' ∧ recorded rn rn' i ids.
Proof.
  intros Hok (r & q & prompt & Ho & Hq & Hp & Hfit). pose proof Hok as [R1 R2 R3 R4 R5]. destruct (decide (ids = [])) as [->|Hne].
  { exists rn. split; [done|]. split; try done. intros r' q' Hq'. destruct (decide _); [|done]. destruct (rf_in _ R1 r' q' Hq') as [l Hl]. cbn in Hl. rewrite Hl. cbn. by rewrite app_nil_r. }
  set (b := input_batch rn) in *. pose proof (bd_core _ _ _ _ _ b R2) as Hb. assert (is_Some (view b r)) as [v Hv] by (eapply view_is_Some; [exact Hb|]; eexists; by apply (occupant_index N L V Ws T0)).
  destruct (R5 r v Hv) as (q1 & Hq1 & Hrow). cbn in Hq1. rewrite Hq in Hq1. injection Hq1 as <-.
  assert (∃ p, sampling_params q = Some p) as [p Hsp] by (unfold RunnerSync.row_of in Hrow; destruct (sampling_params q); [by eexists|done]).
  apply (row_of_inv _ _ _ _ p prompt) in Hrow; [|done|done].
  destruct (view_inv _ _ _ _ _ b r v Hb Hv) as (i' & out & s & c & Hr & Hi & Hout & Hs & Hc & Ht & Hf & HiN & ->).
  assert (i' = i) as -> by (apply (occupant_index N L V Ws T0) in Ho; [congruence|done]). change (states rn).2 with (outputs rn) in Hrow.
  pose proof Hrow as Hrow0. apply row_fields in Hrow as (-> & Hnp & Hnt & Htok & Hflag & Hsc & Hbl & Hg & Hw). set (outs := default [] (outputs rn !! output_token_ids q)) in *.
  unfold cache_row. destruct ids as [|z ids']; [done|]. set (ids := z :: ids') in *. fold b. rewrite Hc. cbn [of_option]. rewrite bind_ret, Hnt, bool_decide_true by lia. unfold assert_. rewrite bind_ret.
  destruct (write_slice_ok (token_ids_cpu c) (length prompt + length outs) ids) as (tok & -> & Hlt & Etok); [lia|]. rewrite bind_ret. cbn [_req_ids ib_cells]. rewrite Hi. cbn [of_option]. rewrite bind_ret. cbn [of_option]. rewrite bind_ret, Hq. cbn [of_option]. rewrite bind_ret.
  eexists. split; [done|]. set (c' := cell_num_tokens_no_spec _ _). set (o' := <[output_token_ids q := outs ++ ids]> (outputs rn)). set (b' := ib_cells (<[i := c']> (cells b)) b).
  pose proof (put_row_ok N L V Ws T0 b i r c c' s (output_token_ids q) (block_table b) (dense_ok b R2 R4 R3) R3 Hi Hc Hout) as Hput.
  assert (put_row i c' s (block_table b) b = b') as Eb by (unfold put_row, b'; rewrite (list_insert_id (spec_token_ids b)) by done; by destruct b). rewrite Eb in Hput.
  assert (in_place N L V Ws T0 b b' r (mkView (output_token_ids q) s (take (num_tokens_no_spec c' + length s) tok) (take (num_tokens_no_spec c' + length s) (is_token_ids c')) (scalars c') (multi_blocks (block_table b) i) (generators b !! i) (bad_words b !! i))) as Hip.
  { apply Hput; [cbn; lia|cbn; by rewrite length_fill_slice|done|apply (bo_tables _ _ _ _ _ b Hb)|done|done]. }
  assert (∀ r' q', r' ≠ r → requests rn !! r' = Some q' → o' !! output_token_ids q' = outputs rn !! output_token_ids q') as Hoth.
  { intros r' q' Hn Hq'. unfold o'. rewrite lookup_insert_ne; [done|]. intros E. apply Hn. symmetry. by apply (rf_inj _ R1 r r' q q'). }
  split; try done.
  - split; try done.
    + destruct R1 as [F1 F2 F3]. split; cbn; [|done|done]. intros r' q' Hq'. change (is_Some (o' !! output_token_ids q')). destruct (decide (r' = r)) as [->|Hn]; [rewrite Hq in Hq'; injection Hq' as <-; unfold o'; rewrite lookup_insert_eq; by eexists|]. rewrite (Hoth r' q') by done. by apply (F1 r' q').
    + by eapply in_place_dense.
    + apply Hip.
    + intros r' v'. cbn [input_batch]. rewrite (ip_views _ _ _ _ _ _ _ _ _ Hip). destruct (decide (r' = r)) as [->|Hn].
      * intros [= <-]. exists q. split; [done|]. unfold RunnerSync.row_of. rewrite Hsp, Hp. change (Some (request_view V T0 o' q p prompt) = Some (core_view (mkView (output_token_ids q) s (take (length prompt + length outs + length ids + length s) tok)
          (take (length prompt + length outs + length ids + length s) (is_token_ids c')) (scalars c') (multi_blocks (block_table b) i) (generators b !! i) (bad_words b !! i)))). f_equal.
        assert (∀ A (l : list A), take (length prompt + length outs + length ids) (take (length prompt + length outs + length ids + length s) l) = take (length prompt + length outs + length ids) l) as Htt by (intros A l; rewrite take_take; f_equal; lia).
        unfold core_view, num_tokens. cbn [v_scalars scalars]. change (num_tokens_no_spec (scalars c')) with (length prompt + length outs + length ids).
        unfold request_view. assert (default [] (o' !! output_token_ids q) = outs ++ ids) as Eo by (unfold o'; by rewrite lookup_insert_eq). cbn [v_output v_tokens v_is_token v_blocks v_generator v_bad_words]. rewrite !Htt, Eo, Hbl, Hg, Hw. f_equal.
        -- rewrite Etok, Htok. by rewrite app_assoc.
        -- unfold c'. cbn [is_token_ids cell_num_tokens_no_spec cell_is_token_ids]. rewrite take_fill_from, Hflag by lia. by rewrite length_app, replicate_add, app_assoc.
        -- assert (scalars c' = cell_num_tokens_no_spec (length prompt + length outs + length ids) (scalars c)) as -> by (unfold c'; by destruct c). rewrite Hsc, length_app, Nat.add_assoc. done.
      * intros Hv'. destruct (R5 r' v' Hv') as (q' & Hq' & Hrow'). exists q'. split; [done|]. rewrite <- Hrow'. apply row_of_ext. cbn. by apply (Hoth r' q').
  - intros r' q' Hq'. cbn [outputs]. fold o'. destruct (decide _) as [E|E].
    + change (occupant b i = Some r') in E. rewrite Ho in E. injection E as <-. rewrite Hq in Hq'. injection Hq' as <-. unfold o'. by rewrite lookup_insert_eq.
    + apply (Hoth r' q'); [|done]. intros ->. by apply E.
Qed.

Lemma recorded_procs rn rn' i ids procs : recorded rn rn' i ids → procs_ok rn procs → procs_ok rn' procs.
Proof.
  intros [C1 C2 C3 C4 C5] (o & Hs & Hc & Hg). exists o. split; [done|]. split.
  - intros j. rewrite (Hc j). unfold row_state, owner, occupant. cbn. by rewrite C2, C3.
  - intros r q Hr Hq. rewrite C4 in Hr. rewrite C2 in Hq. etrans; [by apply (Hg r q)|]. unfold output_len. rewrite (C5 r q Hq). destruct (decide _); [|done]. cbn. rewrite length_app. destruct (outputs rn !! output_token_ids q); cbn; lia.
Qed.

(** The outputs of the requests after a step. *)
Definition sampled_for b (sampled : list (list Z)) r : option (list Z) := i ← req_id_to_index b !! r; sampled !! i.

Lemma cache_sampled_ok rn (sampled : list (list Z)) : runner_ok rn → (∀ i ids, sampled !! i = Some ids → room rn i ids) →
  ∃ rn', cache_sampled L sampled rn = Ok rn' ∧ runner_ok rn' ∧ requests rn' = requests rn ∧ _req_ids (input_batch rn') = _req_ids (input_batch rn) ∧
    (∀ procs, procs_ok rn procs → procs_ok rn' procs) ∧
    ∀ r q, requests rn !! r = Some q → outputs rn' !! output_token_ids q = match sampled_for (input_batch rn) sampled r with
      | Some ids => Some (default [] (outputs rn !! output_token_ids q) ++ ids) | None => outputs rn !! output_token_ids q end.
Proof.
  intros Hok Hroom. unfold cache_sampled.
  destruct (foldM_ind (λ dn rn', runner_ok rn' ∧ requests rn' = requests rn ∧ _req_ids (input_batch rn') = _req_ids (input_batch rn) ∧ (∀ procs, procs_ok rn procs → procs_ok rn' procs) ∧
    ∀ r q, requests rn !! r = Some q → outputs rn' !! output_token_ids q = match sampled_for (input_batch rn) (take (length dn) sampled) r with
      | Some ids => Some (default [] (outputs rn !! output_token_ids q) ++ ids) | None => outputs rn !! output_token_ids q end) (cache_row L) rn (imap pair sampled)) as (rn' & Hrun & H').
  - do 4 (split; [done|]). intros r q Hq. unfold sampled_for. cbn. by destruct (req_id_to_index (input_batch rn) !! r).
  - intros dn [i ids] rest rn1 E (K1 & K2 & K3 & K4 & K5).
    assert (i = length dn ∧ sampled !! i = Some ids) as [Ei Hi].
    { assert (imap pair sampled !! length dn = Some (i, ids)) as Hl by (rewrite E; by apply list_lookup_middle). rewrite list_lookup_imap in Hl. destruct (sampled !! length dn) eqn:Es; [|done]. by injection Hl as <- <-. }
    destruct (Hroom i ids Hi) as (r & q & prompt & Ho & Hq & Hp & Hfit). pose proof (bd_core _ _ _ _ _ _ (ro_dense _ Hok)) as Hb.
    assert (req_id_to_index (input_batch rn) !! r = Some i) as Hri by (by apply (occupant_index N L V Ws T0)).
    destruct (cache_row_ok rn1 i ids K1) as (rn2 & Hrun & Hrec).
    { exists r, q, prompt. rewrite K2. unfold occupant in *. rewrite K3. do 3 (split; [done|]). rewrite (K5 r q Hq). unfold sampled_for. rewrite Hri. cbn. rewrite lookup_take_ge by lia. done. }
    exists rn2. split; [done|]. pose proof Hrec as [C1 C2 C3 C4 C5]. split; [done|]. split; [congruence|]. split; [congruence|]. split; [intros procs Hpo; eapply recorded_procs; [exact Hrec|by apply K4]|].
    intros r' q' Hq'. rewrite (C5 r' q') by (by rewrite K2). rewrite length_app. cbn [length]. rewrite Nat.add_1_r.
    assert (occupant (input_batch rn1) i = Some r) as Ho1 by (unfold occupant in *; by rewrite K3). rewrite Ho1. rewrite (K5 r' q' Hq'). unfold sampled_for. destruct (decide (Some r = Some r')) as [[= <-]|Hne].
    + rewrite Hri. cbn. rewrite lookup_take_ge by lia. rewrite lookup_take_lt by lia. by rewrite Hi.
    + destruct (req_id_to_index (input_batch rn) !! r') as [j|] eqn:Ej; [|done]. cbn. assert (j ≠ i) as Hji. { intros ->. apply (occupant_index N L V Ws T0) in Ej; [|done]. congruence. }
      destruct (decide (j < length dn)); [by rewrite !lookup_take_lt by lia|by rewrite !lookup_take_ge by lia].
  - exists rn'. split; [done|]. rewrite length_imap, firstn_all in H'. done.
Qed.

(** ** The life of a worker *)

Inductive worker_step {U} (init_entry : option (list Z) → Z → Ref → U) : Runner * S → Runner * S → Prop :=
  | ws_update st thr rn procs holder md rn' procs' holder' md' : step_legal st (states rn) → no_discard st (states rn) →
      _update_states init_entry thr st rn procs holder md = Ok (rn', procs', holder', md') → worker_step init_entry (rn, procs) (rn', procs')
  | ws_sample sampled rn procs rn' : (∀ i ids, sampled !! i = Some ids → room rn i ids) → cache_sampled L sampled rn = Ok rn' → worker_step init_entry (rn, procs) (rn', procs).

Definition worker_ok (w : Runner * S) : Prop := runner_ok w.1 ∧ lp_ok w.2 ∧ procs_ok w.1 w.2.

Lemma worker_step_ok {U} (init_entry : option (list Z) → Z → Ref → U) w w' : worker_step init_entry w w' → worker_ok w → worker_ok w'.
Proof.
  intros [st thr rn procs holder md rn' procs' holder' md' Hl Hnd Hrun|sampled rn procs rn' Hroom Hrun] (H1 & H2 & H3); cbn in *.
  - destruct (runner_update_ok init_entry thr st rn procs holder md H1 H2 Hl) as (rn1 & procs1 & holder1 & md1 & Hrun1 & K1 & K2 & _ & _ & K3 & _). rewrite Hrun in Hrun1. injection Hrun1 as <- <- _ _. split; [done|]. split; [done|]. by apply K3.
  - destruct (cache_sampled_ok rn sampled H1 Hroom) as (rn1 & Hrun1 & K1 & _ & _ & K2 & _). rewrite Hrun in Hrun1. injection Hrun1 as <-. split; [done|]. split; [done|]. by apply K2.
Qed.
Lemma worker_reachable_ok {U} (init_entry : option (list Z) → Z → Ref → U) w w' : rtc (worker_step init_entry) w w' → worker_ok w → worker_ok w'.
Proof. induction 1 as [|w1 w2 w3 H1 _ IH]; [done|]. intros Hw. apply IH. by eapply worker_step_ok. Qed.
End Runner.
