(* ===== verification/RunnerClaims.v ===== *)
(** * The life of a worker *)

From Stdlib Require Import QArith Qcanon.
From stdpp Require Import sorting.
From S2P Require Import Prelude BlockTable LogitsProcs LogitsSpec InputBatch ModelRunner BatchInv BatchOps BatchMoves BatchStep RunnerSync RunnerStep RunnerInv.

Local Open Scope nat_scope.

(** ** Start *)

(** The widths of the rows of all tables. *)
Definition widths (m : MultiGroupBlockTable) : list nat := (λ t, default 0 (length <$> head (bt_rows t))) <$> m.

Lemma widths_ok N Ws m : tables_ok N Ws m → tables_ok N (widths m) m.
Proof.
  intros H. induction H as [|W t Ws m [H1 H2 H3 H4] _ IH]; [constructor|]. constructor; [|exact IH]. destruct (bt_rows t) as [|row rows] eqn:E; cbn.
  - cbn in H1. subst N. split; [by rewrite E|done|rewrite E; constructor|]. rewrite (nil_length_inv _ H2). constructor.
  - inversion H3; subst. split; try done; by rewrite E.
Qed.

Definition start_worker (b : InputBatch) : Runner := mkRunner ∅ ∅ ∅ b.

Section Start.
Context (N L V : nat) (block_sizes kernel_block_sizes : list Z) (max_blocks : option (list Z)) (interleave : Z) (g : CPGroups) (b0 : InputBatch).
Hypothesis init : InputBatch_init N L V block_sizes kernel_block_sizes max_blocks false interleave g = Ok b0.
Notation Ws := (widths (block_table b0)).
Notation T0 := (block_table b0).
Context {S : Type} `{LogitsProcessorSpec N S}.

(** Processors that hold nothing. *)
Definition blank (procs : S) : Prop := lp_ok procs ∧ lp_settled ∅ procs ∧ ∀ i, lp_view ∅ procs i = lp_none.

Lemma start_runner_ok : runner_ok N L V Ws T0 (start_worker b0).
Proof.
  pose proof init as Hi. unfold InputBatch_init in Hi. apply bind_Ok in Hi as (bt & Hbt & [= Eb]). destruct (MultiGroupBlockTable_init_ok _ _ _ _ _ _ _ _ Hbt) as [Ws0 Hok%widths_ok].
  assert (∀ r, view b0 r = None) as Hv by (intros r; by rewrite <- Eb).
  split; cbn [input_batch start_worker]; [| | |by rewrite <- Eb|].
  - split; unfold states; cbn [fst snd requests start_worker]; intros *; change (requests (start_worker b0)) with (∅ : gmap string CachedRequestState); by rewrite lookup_empty.
  - split; [|by rewrite <- Eb| |rewrite <- Eb; by intros i ?%not_elem_of_nil].
    + split; try (rewrite <- Eb; cbn; done || by rewrite ?length_replicate).
      * rewrite <- Eb. cbn. apply Forall_replicate. cbn. by rewrite !length_replicate.
      * rewrite <- Eb. cbn. lia.
      * rewrite <- Eb. cbn. lia.
      * intros i spec _. rewrite <- Eb. cbn. rewrite lookup_replicate. naive_solver.
      * rewrite <- Eb. cbn. split; [by apply NoDup_nil|done].
    + intros i. rewrite <- Eb. unfold is_live. cbn. split; [intros [r Hr]; done|]. unfold num_reqs. cbn. rewrite map_size_empty. lia.
  - assert (∀ s P, s = ∅ → flag_ok b0 s P) as Hf by (intros s P -> r; unfold flagged; rewrite Hv; set_solver).
    split; try (apply Hf; by rewrite <- Eb); [|by rewrite <- Eb]. split.
    + intros id r. unfold lora_of. rewrite Hv, <- Eb. cbn. rewrite lookup_empty. cbn. set_solver.
    + intros id s. rewrite <- Eb. cbn. by rewrite lookup_empty.
    + intros id. rewrite <- Eb. cbn. by rewrite !lookup_empty.
  - intros r v. by rewrite Hv.
Qed.
Lemma start_worker_ok procs : blank procs → worker_ok N L V Ws T0 (start_worker b0, procs).
Proof.
  intros (B1 & B2 & B3). split; [apply start_runner_ok|]. split; [done|]. exists ∅. split; [done|]. split.
  - intros i. rewrite B3. unfold row_state, occupant. cbn. pose proof init as Hi. unfold InputBatch_init in Hi. apply bind_Ok in Hi as (bt & _ & [= <-]). done.
  - intros r q _. cbn. by rewrite lookup_empty.
Qed.
End Start.

(** The processors of every worker ([BUILTIN_LOGITS_PROCESSORS]). *)
Definition Builtin : Type := MinPLogitsProcessor * (LogitBiasLogitsProcessor * MinTokensLogitsProcessor).
Definition builtin_init (N : nat) (double : bool) : Builtin := (MinPLogitsProcessor_init N double, (LogitBiasLogitsProcessor_init, MinTokensLogitsProcessor_init)).

Lemma builtin_blank N double : blank N (builtin_init N double).
Proof.
  split; [|split].
  - split; [|split; done]. split.
    + exists (λ _, 0%Qc). split; cbn; [by rewrite length_replicate|by rewrite length_replicate| |].
      * unfold count_nonzero. clear. induction N as [|n IH]; [done|]. cbn [replicate]. rewrite filter_cons_False by tauto. exact IH.
      * intros i. destruct (replicate N 0%Qc !! i) as [x|] eqn:E; [|done]. by apply lookup_replicate in E as [-> _].
    + by intros [].
  - split; [done|]. split; [done|]. intros i e. cbn. by rewrite lookup_empty.
  - intros i. cbn. rewrite !lookup_empty. cbn. destruct (replicate N 0%Qc !! i) as [x|] eqn:E; cbn; [|done]. by apply lookup_replicate in E as [-> _].
Qed.

(** ** The metadata of the sampler *)

(** What the sampler must apply to a row, from the parameters of its request. *)
Definition sampled_greedily (p : SamplerParams) : bool := bool_decide (sampling_type p = GREEDY).

Section Metadata.
Context (N L V : nat) (Ws : list nat) (T0 : MultiGroupBlockTable).
Implicit Types (b : InputBatch) (rn : Runner).
Notation runner_ok := (runner_ok N L V Ws T0).

(** A request in a row. *)
Record in_row rn i r (q : CachedRequestState) (p : SamplerParams) : Prop := {
  ir_occupant : occupant (input_batch rn) i = Some r;
  ir_request : requests rn !! r = Some q;
  ir_params : sampling_params q = Some p;
}.

Lemma in_row_cells rn i r q p : runner_ok rn → in_row rn i r q p → ∃ c prompt, cells (input_batch rn) !! i = Some c ∧ prompt_token_ids q = Some prompt ∧
  scalars c = v_scalars (request_view V T0 (outputs rn) q p prompt) ∧ generators (input_batch rn) !! i = generator q ∧
  bad_words (input_batch rn) !! i = (match bad_words_token_ids p with [] => None | w => Some w end) ∧ i < num_reqs (input_batch rn) ∧
  view (input_batch rn) r = row_view (input_batch rn) i ∧ v_scalars <$> view (input_batch rn) r = Some (scalars c).
Proof.
  intros [R1 R2 R3 R4 R5] [H1 H2 H3]. set (b := input_batch rn) in *. pose proof (bd_core _ _ _ _ _ b R2) as Hb.
  assert (req_id_to_index b !! r = Some i) as Hri by (by apply (occupant_index N L V Ws T0)). pose proof (proj1 (bo_index _ _ _ _ _ b Hb r i) Hri) as Hi.
  assert (is_Some (view b r)) as [v Hv] by (eapply view_is_Some; [exact Hb|by eexists]). destruct (R5 r v Hv) as (q1 & Hq1 & Hrow). cbn in Hq1. rewrite H2 in Hq1. injection Hq1 as <-.
  assert (∃ prompt, prompt_token_ids q = Some prompt) as [prompt Hp] by (unfold row_of in Hrow; rewrite H3 in Hrow; cbn in Hrow; destruct (prompt_token_ids q); [by eexists|done]).
  apply (row_of_inv _ _ _ _ p prompt) in Hrow; [|done|done]. change (states rn).2 with (outputs rn) in Hrow.
  pose proof (view_inv _ _ _ _ _ b r v Hb Hv) as (i' & out & s & c & Hr & Hi' & Hout & Hs & Hc & Ht & Hf & HiN & ->). rewrite Hri in Hr. injection Hr as <-.
  apply row_fields in Hrow as (_ & _ & _ & _ & _ & Hsc & _ & Hg & Hw). exists c, prompt. do 5 (split; [done|]). split; [apply (bd_full _ _ _ _ _ b R2); by exists r|].
  split; [by eapply view_live|]. by rewrite Hv.
Qed.

Record metadata_for rn (md : SamplingMetadata) i (q : CachedRequestState) (p : SamplerParams) : Prop := {
  mf_temperature : match md_temperature md with Some l => l !! i = Some (if sampled_greedily p then 0%Qc else temperature p) | None => sampled_greedily p = true end;
  mf_top_p : match md_top_p md with Some l => l !! i = Some (top_p p) | None => ¬ (top_p p < 1)%Qc end;
  mf_top_k : match md_top_k md with Some l => l !! i = Some (if limited_top_k V p then top_k p else Z.of_nat V) | None => limited_top_k V p = false end;
  mf_penalties : match md_penalties md with
    | Some l => l !! i = Some (frequency_penalty p, presence_penalty p, repetition_penalty p)
    | None => frequency_penalty p = 0%Qc ∧ presence_penalty p = 0%Qc ∧ repetition_penalty p = 1%Qc
    end;
  mf_generator : md_generators md !! i = generator q;
  mf_bad_words : md_bad_words md !! i = match bad_words_token_ids p with [] => None | w => Some w end;
}.

(** A summary is empty when no row has the property. *)
Lemma flag_empty rn s (P : Cells → Prop) i r q p : runner_ok rn → flag_ok (input_batch rn) s P → s = ∅ → in_row rn i r q p →
  ¬ P (v_scalars (request_view V T0 (outputs rn) q p (default [] (prompt_token_ids q)))).
Proof.
  intros Hok Hf -> Hin HP. destruct (in_row_cells rn i r q p Hok Hin) as (c & prompt & Hc & Hp & Hsc & _ & _ & _ & _ & Hv). rewrite Hp in HP. cbn [default] in HP.
  assert (r ∈ (∅ : gset string)) as Hr; [|set_solver]. apply Hf. unfold flagged. destruct (view (input_batch rn) r) as [v|]; [|done]. exists v. split; [done|]. injection Hv as ->. by rewrite Hsc.
Qed.
Lemma flag_all rn s (P : Cells → Prop) : runner_ok rn → flag_ok (input_batch rn) s P →
  (s = ∅ ↔ ∀ i r q p, in_row rn i r q p → ¬ P (v_scalars (request_view V T0 (outputs rn) q p (default [] (prompt_token_ids q))))).
Proof.
  intros Hok Hf. split; [intros E i r q p; by apply (flag_empty rn s)|]. intros Hall. apply set_eq. intros r. split; [|set_solver]. intros Hr. exfalso. apply Hf in Hr as (v & Hv & HP).
  destruct Hok as [R1 R2 R3 R4 R5]. pose proof (bd_core _ _ _ _ _ _ R2) as Hb. assert (is_Some (req_id_to_index (input_batch rn) !! r)) as [i Hi] by (eapply view_is_Some; [exact Hb|by eexists]).
  destruct (R5 r v Hv) as (q & Hq & Hrow). assert (∃ p prompt, sampling_params q = Some p ∧ prompt_token_ids q = Some prompt) as (p & prompt & Ep & Epr).
  { unfold row_of in Hrow. destruct (sampling_params q) as [p|]; [|done]. cbn in Hrow. destruct (prompt_token_ids q) as [prompt|]; [|done]. by exists p, prompt. }
  apply (row_of_inv _ _ _ _ p prompt) in Hrow; [|done|done].
  apply (Hall i r q p); [split; [by apply (occupant_index N L V Ws T0)|done|done]|]. rewrite Epr. change (P (v_scalars (request_view V T0 (states rn).2 q p prompt))). by rewrite Hrow.
Qed.

Lemma metadata_ok rn : runner_ok rn → ∃ md, _make_sampling_metadata (input_batch rn) = Ok md ∧
  (md_all_greedy md = true ↔ ∀ i r q p, in_row rn i r q p → sampled_greedily p = true) ∧ (md_all_random md = true ↔ ∀ i r q p, in_row rn i r q p → sampled_greedily p = false) ∧
  ∀ i r q p, in_row rn i r q p → metadata_for rn md i q p.
Proof.
  intros Hok. destruct (metadata_total N L V Ws T0 (input_batch rn) (bd_core _ _ _ _ _ _ (ro_dense _ _ _ _ _ _ Hok)) (ro_summary _ _ _ _ _ _ Hok)) as [md Hmd]. exists md. split; [done|].
  unfold _make_sampling_metadata in Hmd. apply bind_Ok in Hmd as (prompts & _ & (mask & _ & [= <-])%bind_Ok). pose proof (ro_summary _ _ _ _ _ _ Hok) as [S1 S2 S3 S4 S5 S6 S7 _ _].
  set (rows := take _ _). cbn [md_all_greedy md_all_random].
  assert (∀ p, (if sampled_greedily p then 0%Qc else temperature p) = 0%Qc ↔ sampled_greedily p = true) as Ht.
  { intros p. unfold sampled_greedily. case_bool_decide as E; [done|]. split; [intros Ez; by apply nonzero_temperature in E|done]. }
  split; [|split].
  - unfold all_greedy. rewrite bool_decide_eq_true, (flag_all rn _ _ Hok S2). split; intros Hall i r q p Hin; specialize (Hall i r q p Hin); cbn in *; fold (sampled_greedily p) in *.
    + apply Ht. destruct (decide ((if sampled_greedily p then 0%Qc else temperature p) = 0%Qc)); [done|]. by destruct Hall.
    + intros Hn. by apply Hn, Ht.
  - unfold all_random. rewrite bool_decide_eq_true, (flag_all rn _ _ Hok S1). split; intros Hall i r q p Hin; specialize (Hall i r q p Hin); cbn in *; fold (sampled_greedily p) in *.
    + destruct (sampled_greedily p) eqn:E; [|done]. destruct Hall. done.
    + intros Hz%Ht. congruence.
  - intros i r q p Hin. destruct (in_row_cells rn i r q p Hok Hin) as (c & prompt & Hc & Hp & Hsc & Hg & Hw & Hi & _ & _).
    assert (rows !! i = Some c) as Hrow by (unfold rows; by rewrite lookup_take_lt).
    assert (∀ A (f : Cells → A), (∀ c, f (scalars c) = f c) → (f <$> rows) !! i = Some (f (v_scalars (request_view V T0 (outputs rn) q p prompt)))) as Hget.
    { intros A f E. rewrite list_lookup_fmap, Hrow, <- Hsc, E. done. }
    split; cbn; try done.
    + unfold all_greedy. case_bool_decide as E; [|by apply Hget]. pose proof (flag_empty rn _ _ i r q p Hok S2 E Hin) as Hn. apply Ht. cbn in Hn. fold (sampled_greedily p) in Hn.
      destruct (decide ((if sampled_greedily p then 0%Qc else temperature p) = 0%Qc)); [done|]. by destruct Hn.
    + unfold no_top_p. case_bool_decide as E; [|by apply Hget]. apply (flag_empty rn _ _ i r q p Hok S3 E Hin).
    + unfold no_top_k. case_bool_decide as E; [|by apply Hget]. pose proof (flag_empty rn _ _ i r q p Hok S4 E Hin) as Hn. cbn in Hn. destruct (limited_top_k V p) eqn:El; [|done]. exfalso. apply Hn.
      pose proof (proj1 (limited_top_k_ne V p) El) as Hne. by rewrite El in Hne.
    + unfold no_penalties. repeat case_bool_decide; cbn [andb]; try by (rewrite (Hget _ (λ c, (frequency_penalties_cpu c, presence_penalties_cpu c, repetition_penalties_cpu c)))).
      assert (∀ (x y : Qc), ¬ x ≠ y → x = y) as Hdn by (intros x y Hn; destruct (decide (x = y)); [done|by destruct Hn]).
      split; [|split]; apply Hdn; [apply (flag_empty rn _ _ i r q p Hok S5)|apply (flag_empty rn _ _ i r q p Hok S6)|apply (flag_empty rn _ _ i r q p Hok S7)]; done.
Qed.
End Metadata.

(** ** Claims *)

Section Claims.
Context (N L V : nat) (block_sizes kernel_block_sizes : list Z) (max_blocks : option (list Z)) (interleave : Z) (groups : CPGroups) (b0 : InputBatch).
Context {S : Type} `{LogitsProcessorSpec N S} {U : Type} (init_entry : option (list Z) → Z → Ref → U) (procs0 : S).
Notation T0 := (block_table b0).
Notation Ws := (widths (block_table b0)).

(** States of a worker that was started with an empty batch and blank processors. *)
Record reached (rn : Runner) (procs : S) : Prop := {
  re_init : InputBatch_init N L V block_sizes kernel_block_sizes max_blocks false interleave groups = Ok b0;
  re_blank : blank N procs0;
  re_steps : rtc (worker_step N L V Ws T0 init_entry) (start_worker b0, procs0) (rn, procs);
}.

Lemma reached_ok rn procs : reached rn procs → worker_ok N L V Ws T0 (rn, procs).
Proof. intros [R1 R2 R3]. eapply worker_reachable_ok; [exact R3|]. by eapply start_worker_ok. Qed.


(** C14: In every state a worker reaches, each logits processor that keeps its interface
    holds for a row what it would compute for the request that is in this row now, with
    its present output, and nothing for a row without request.  The built-in processors
    (min-p, logit bias, minimum number of tokens) keep the interface.  The scope: steps
    that meet what the scheduler promises ([step_legal]) and take back no output token
    ([no_discard]), tokens that fit the rows. *)
Theorem worker_processors_current rn procs : reached rn procs → ∀ i, lp_view (outputs rn) procs i =
  match occupant (input_batch rn) i ≫= λ r, requests rn !! r ≫= origin with Some x => lp_fresh (outputs rn) x | None => lp_none end.
Proof.
  intros (H1 & H2 & H3)%reached_ok i. cbn in *. rewrite (procs_ok_current N L V Ws T0 rn procs (ro_dense _ _ _ _ _ _ H1) H3 i). unfold row_state, owner. cbn.
  destruct (occupant (input_batch rn) i) as [r|]; [|done]. cbn. by destruct (requests rn !! r ≫= origin).
Qed.

(** C15: Sampled tokens that fit the rows are recorded: the outputs of exactly the sampled
    requests are extended, and rows still agree with the cached states.  The scope is that
    of the steps; the tokens of a row fit the model length ([room]). *)
Theorem worker_sampled_tokens rn procs (sampled : list (list Z)) : reached rn procs → (∀ i ids, sampled !! i = Some ids → room L rn i ids) →
  ∃ rn', cache_sampled L sampled rn = Ok rn' ∧ requests rn' = requests rn ∧ _req_ids (input_batch rn') = _req_ids (input_batch rn) ∧
    (∀ r q, requests rn !! r = Some q → outputs rn' !! output_token_ids q = match sampled_for (input_batch rn) sampled r with
      | Some ids => Some (default [] (outputs rn !! output_token_ids q) ++ ids) | None => outputs rn !! output_token_ids q end) ∧
    ∀ r v, view (input_batch rn') r = Some v → ∃ q, requests rn !! r = Some q ∧ row_of V T0 (outputs rn') q = Some (core_view v).
Proof.
  intros (H1 & H2 & H3)%reached_ok Hroom. cbn in *. destruct (cache_sampled_ok N L V Ws T0 (S := S) rn sampled H1 Hroom) as (rn' & Hrun & K1 & K2 & K3 & _ & K4).
  exists rn'. do 4 (split; [done|]). intros r v Hv. destruct (ro_synced _ _ _ _ _ _ K1 r v Hv) as (q & Hq & Hrow). exists q. cbn in Hq. rewrite K2 in Hq. done.
Qed.

(** C16: The metadata built from the batch of a reached state applies to each row the
    parameters of the request in it (temperature, top-p, top-k, penalties, generator, bad
    words): a tensor that is left out has no effect on any request of the batch, and the
    flags for greedy and random sampling are exact.  The mask of allowed tokens is not covered, see
    [RunnerDemo.swapped_mask_rows_equal] and [RunnerDemo.stale_mask_row]. *)
Theorem worker_metadata_exact rn procs : reached rn procs → ∃ md, _make_sampling_metadata (input_batch rn) = Ok md ∧
  (md_all_greedy md = true ↔ ∀ i r q p, in_row rn i r q p → sampled_greedily p = true) ∧ (md_all_random md = true ↔ ∀ i r q p, in_row rn i r q p → sampled_greedily p = false) ∧
  ∀ i r q p, in_row rn i r q p → metadata_for V rn md i q p.
Proof. intros (H1 & _ & _)%reached_ok. by apply (metadata_ok N L V Ws T0). Qed.

(** C17: In every state a worker reaches, the slots of the tokens of a request are computed
    from the blocks the scheduler gave it: for positions within these blocks the kernel
    returns, and on a rank two tokens, of one row or of two, have the same slot only when
    they are the same token of the same block.  The sizes of blocks and kernel
    blocks are positive, ranks are within their groups, and the stripes of context
    parallelism divide the kernel blocks ([sizes_ok]). *)
Theorem worker_slots_safe rn procs g t i j r r' q q' ids ids' ps ps' : reached rn procs → sizes_ok block_sizes kernel_block_sizes interleave groups → block_table (input_batch rn) !! g = Some t →
  occupant (input_batch rn) i = Some r → requests rn !! r = Some q → block_ids q !! g = Some ids → occupant (input_batch rn) j = Some r' → requests rn !! r' = Some q' → block_ids q' !! g = Some ids' →
  (∀ p, p ∈ ps → (0 ≤ p < span t * zlen ids)%Z) → (∀ p, p ∈ ps' → (0 ≤ p < span t * zlen ids')%Z) →
  ∃ slots slots', request_slots t i ps = Ok slots ∧ request_slots t j ps' = Ok slots' ∧
    ∀ a c p p' s, ps !! a = Some p → ps' !! c = Some p' → slots !! a = Some s → slots' !! c = Some s → s ≠ PAD_SLOT_ID →
      ∃ block, ids !! Z.to_nat (p / span t) = Some block ∧ ids' !! Z.to_nat (p' / span t) = Some block ∧ (p mod span t = p' mod span t)%Z.
Proof.
  intros Hr Hsz Ht Hi Hq Hids Hj Hq' Hids' Hps Hps'. assert (Forall table_wf (block_table b0)) as Hwf.
  { pose proof (re_init _ _ Hr) as Hb0. unfold InputBatch_init in Hb0. apply bind_Ok in Hb0 as (bt & Hbt & [= <-]). by eapply MultiGroupBlockTable_init_wf. }
  apply reached_ok in Hr as (H1 & _ & _). cbn in *. pose proof (bd_core _ _ _ _ _ _ (ro_dense _ _ _ _ _ _ H1)) as Hb.
  destruct (Forall2_lookup_r _ _ _ _ _ (bo_same _ _ _ _ _ _ Hb) Ht) as (t0 & Ht0 & Hsame). pose proof (table_wf_same _ _ Hsame (Forall_lookup_1 _ _ _ _ Hwf Ht0)) as Hw.
  assert (∀ i r q ids, occupant (input_batch rn) i = Some r → requests rn !! r = Some q → block_ids q !! g = Some ids → row_blocks t i = Some (table_ids t ids)) as Hrow.
  { clear -H1 Hb Ht Ht0 Hsame. intros i r q ids Hi Hq Hids. apply (occupant_index N L V Ws T0) in Hi; [|done]. assert (is_Some (view (input_batch rn) r)) as [v Hv] by (eapply view_is_Some; [exact Hb|by eexists]).
    destruct (ro_synced _ _ _ _ _ _ H1 r v Hv) as (q1 & Hq1 & Hrow). cbn in Hq1. rewrite Hq in Hq1. injection Hq1 as <-. destruct (view_inv _ _ _ _ _ _ r v Hb Hv) as (i' & out & s & c & Hr & _ & _ & _ & _ & _ & _ & _ & ->).
    rewrite Hi in Hr. injection Hr as <-. assert (multi_blocks (block_table (input_batch rn)) i = Some <$> multi_ids T0 (block_ids q)) as Hm.
    { unfold row_of in Hrow. destruct (sampling_params q); [|done]. cbn in Hrow. destruct (prompt_token_ids q); [|done]. cbn in Hrow. apply (inj Some) in Hrow. symmetry. apply (f_equal v_blocks Hrow). }
    apply (f_equal (.!! g)) in Hm. unfold multi_blocks, multi_ids in Hm. rewrite !list_lookup_fmap in Hm. unfold MultiGroupBlockTable in *. rewrite Ht, lookup_zip_with, Ht0, Hids in Hm. cbn in Hm. injection Hm as ->. by rewrite (same_ids _ _ Hsame). }
  destruct (request_slots_ok t Hw i ids ps (Hrow i r q ids Hi Hq Hids) Hps) as (slots & Hs & Es). destruct (request_slots_ok t Hw j ids' ps' (Hrow j r' q' ids' Hj Hq' Hids') Hps') as (slots' & Hs' & Es').
  exists slots, slots'. split; [done|]. split; [done|]. intros a c p p' s Ha Hc Hsa Hsc Hne. apply (f_equal (.!! a)) in Es. apply (f_equal (.!! c)) in Es'. rewrite !list_lookup_fmap in Es, Es'. rewrite Ha, Hsa in Es. rewrite Hc, Hsc in Es'.
  cbn in Es, Es'. injection Es as Es. injection Es' as Es'. by eapply (slot_of_inj t Hw ids ids' p p' s).
Qed.
End Claims.
