(* ===== verification/RunnerDemo.v ===== *)
(** * A worker at work

    A worker with four rows takes two requests, samples a token for each and goes on with
    one of them and a new one.  The run provides the witnesses, and small runs of the
    batch show where the code does not do what it means to. *)

From Stdlib Require Import QArith Qcanon.
From stdpp Require Import sorting.
From S2P Require Import Prelude BlockTable LogitsProcs LogitsSpec InputBatch ModelRunner BatchInv BatchOps BatchMoves BatchStep RunnerSync RunnerStep RunnerInv RunnerClaims.

Local Open Scope nat_scope.

(** ** The worker *)

Definition demo_params (min_p : Qc) (allowed : list nat) : SamplerParams :=
  mkSamplerParams 1%Qc None 1%Qc 0 min_p 0%Qc 0%Qc 1%Qc None None None allowed [] ∅ 0 ∅ None.
Definition demo_groups : CPGroups := mkCPGroups (1%Z, 0%Z) (1%Z, 0%Z).
Definition demo_batch_init : result InputBatch := InputBatch_init 4 8 4 [4%Z] [4%Z] None false 1 demo_groups.
Definition no_batch : InputBatch :=
  mkInputBatch false 0 0 [] ∅ [] ∅ [] empty_sets ∅ ∅ ∅ BatchUpdateBuilder_init None ∅ [] [] ∅ None.
Definition demo_b0 : InputBatch := match demo_batch_init with Ok b => b | Raise _ => no_batch end.
Lemma demo_b0_ok : InputBatch_init 4 8 4 [4%Z] [4%Z] None false 1 demo_groups = Ok demo_b0.
Proof. reflexivity. Qed.

Definition demo_new (id : string) (prompt : list Z) (p : SamplerParams) (blocks : list Z) : NewRequestData :=
  mkNewRequestData id (Some prompt) None None (Some p) None [blocks] 0 None.
Definition half : Qc := Q2Qc (1 # 2).

(** Two new requests; then one of them goes on with a second block, the other has finished
    and a third one arrives. *)
Definition demo_first : StepInput :=
  mkStepInput [] (<["A" := 3%Z]> {["B" := 2%Z]}) [demo_new "A" [1; 2; 3]%Z (demo_params 0%Qc []) [1%Z]; demo_new "B" [4; 5]%Z (demo_params half []) [2%Z]] ∅ [] ∅.
Definition demo_second : StepInput :=
  mkStepInput ["A"] (<["B" := 1%Z]> {["C" := 1%Z]}) [demo_new "C" [6%Z] (demo_params 0%Qc []) [1%Z]] ∅ [mkCachedReq "B" 2 (Some [[3%Z]]) 1] ∅.

Definition demo_procs : Builtin := builtin_init 4 true.
Definition demo_md : SamplingMetadata := mkSamplingMetadata None true true None None None ∅ None ∅ None true None ∅.
Definition demo_entry (prompt : option (list Z)) (budget : Z) (out : nat) : Z := budget.
Definition demo_run (st : StepInput) (rn : Runner) (procs : Builtin) := _update_states demo_entry (Some 1%Z) st rn procs None demo_md.
Definition runner_of {A B} (r : result (Runner * Builtin * A * B)) : Runner := match r with Ok (rn, _, _, _) => rn | Raise _ => start_worker demo_b0 end.
Definition procs_of {A B} (r : result (Runner * Builtin * A * B)) : Builtin := match r with Ok (_, p, _, _) => p | Raise _ => demo_procs end.

Definition demo_rn1 : Runner := runner_of (demo_run demo_first (start_worker demo_b0) demo_procs).
Definition demo_procs1 : Builtin := procs_of (demo_run demo_first (start_worker demo_b0) demo_procs).
Definition demo_sampled : list (list Z) := [[7%Z]; [6%Z]].
Definition demo_rn2 : Runner := match cache_sampled 8 demo_sampled demo_rn1 with Ok rn => rn | Raise _ => demo_rn1 end.

Strategy 1000 [demo_rn1 demo_procs1 demo_rn2].

Notation demo_Ws := (widths (block_table demo_b0)).
Notation demo_T0 := (block_table demo_b0).

Lemma scheduled_two (a b : string) (n m : Z) r : is_Some ((<[a := n]> {[b := m]} : gmap string Z) !! r) → r = a ∨ r = b.
Proof. intros [x [[<- _]|[_ [<- _]%lookup_singleton_Some]]%lookup_insert_Some]; auto. Qed.

(** A request with token ids and blocks for one group of at most two blocks. *)
Lemma demo_row_ok o q p prompt blocks : sampling_params q = Some p → prompt_token_ids q = Some prompt → prompt_embeds q = None → prompt_is_token_ids q = None →
  lora_request q = None → allowed_token_ids p = [] → block_ids q = [blocks] → length blocks ≤ 2 → length prompt + length (default [] (o !! output_token_ids q)) ≤ 8 →
  request_ok 8 4 demo_Ws demo_T0 o q p prompt.
Proof.
  intros H1 H2 H3 H4 H5 H6 H7 H8 H9. split; rewrite ?H3, ?H4, ?H5, ?H6; try done. split; [by rewrite H7|]. intros g W ids. rewrite H7. destruct g as [|g]; [|done].
  intros HW Hids. vm_compute in HW. injection HW as <-. vm_compute in Hids. injection Hids as <-. lia.
Qed.

Lemma demo_first_legal : step_legal 4 8 4 demo_Ws demo_T0 demo_first (states (start_worker demo_b0)).
Proof.
  split.
  - apply (bool_decide_unpack _). by vm_compute.
  - apply (bool_decide_unpack _). by vm_compute.
  - intros r _. apply not_elem_of_nil.
  - intros r. cbn. split.
    + intros [-> | ->]%scheduled_two; left; [left|right; left].
    + intros [Hr|Hr]; [|by apply not_elem_of_nil in Hr]. apply elem_of_cons in Hr as [->|Hr]; [by eexists|]. apply list_elem_of_singleton in Hr as ->. by eexists.
  - intros r Hr. by apply not_elem_of_nil in Hr.
  - intros c Hc. by apply not_elem_of_nil in Hc.
  - intros c ids Hc. by apply not_elem_of_nil in Hc.
  - intros d Hd. apply elem_of_cons in Hd as [->|Hd]; [by eexists|]. apply list_elem_of_singleton in Hd as ->. by eexists.
  - intros r [-> | ->]%scheduled_two; eexists _, _.
    + exists [1; 2; 3]%Z. split; [vm_compute; reflexivity|]. split; [|vm_compute; lia]. apply (demo_row_ok _ _ _ _ [1%Z]); [done..|vm_compute; lia|vm_compute; lia].
    + exists [4; 5]%Z. split; [vm_compute; reflexivity|]. split; [|vm_compute; lia]. apply (demo_row_ok _ _ _ _ [2%Z]); [done..|vm_compute; lia|vm_compute; lia].
  - vm_compute. lia.
Qed.

(** ** The run *)

Notation demo_step := (worker_step 4 8 4 demo_Ws demo_T0 (S := Builtin) demo_entry).
Notation demo_reached := (reached 4 8 4 [4%Z] [4%Z] None 1 demo_groups demo_b0 demo_entry demo_procs).

Lemma demo_start_ok : worker_ok 4 8 4 demo_Ws demo_T0 (start_worker demo_b0, demo_procs).
Proof. eapply start_worker_ok; [exact demo_b0_ok|]. apply builtin_blank. Qed.

Lemma demo_step1 : demo_step (start_worker demo_b0, demo_procs) (demo_rn1, demo_procs1).
Proof.
  destruct demo_start_ok as (H1 & H2 & _). cbn [fst snd] in *.
  destruct (runner_update_ok 4 8 4 demo_Ws demo_T0 demo_entry (Some 1%Z) demo_first (start_worker demo_b0) demo_procs None demo_md H1 H2 demo_first_legal) as (rn' & procs' & h & md & E & _).
  assert (demo_rn1 = rn') as -> by (unfold demo_rn1, demo_run; by rewrite E). assert (demo_procs1 = procs') as -> by (unfold demo_procs1, demo_run; by rewrite E).
  eapply ws_update; [exact demo_first_legal| |exact E]. intros c q Hc. by apply not_elem_of_nil in Hc.
Qed.
Lemma demo_reached1 : demo_reached demo_rn1 demo_procs1.
Proof. split; [exact demo_b0_ok|apply builtin_blank|apply rtc_once, demo_step1]. Qed.

Lemma demo_room i ids : demo_sampled !! i = Some ids → room 8 demo_rn1 i ids.
Proof.
  destruct i as [|[|i]]; intros [= <-].
  - eexists "A", _, [1; 2; 3]%Z. split; [vm_compute; reflexivity|]. split; [vm_compute; reflexivity|]. split; [reflexivity|]. vm_compute. lia.
  - eexists "B", _, [4; 5]%Z. split; [vm_compute; reflexivity|]. split; [vm_compute; reflexivity|]. split; [reflexivity|]. vm_compute. lia.
Qed.
Lemma demo_step2 : demo_step (demo_rn1, demo_procs1) (demo_rn2, demo_procs1).
Proof.
  destruct (reached_ok _ _ _ _ _ _ _ _ _ _ _ _ _ demo_reached1) as (H1 & _). cbn [fst] in H1.
  destruct (cache_sampled_ok 4 8 4 demo_Ws demo_T0 (S := Builtin) demo_rn1 demo_sampled H1 demo_room) as (rn' & E & _).
  assert (demo_rn2 = rn') as -> by (unfold demo_rn2; by rewrite E). eapply ws_sample; [exact demo_room|exact E].
Qed.
Lemma demo_reached2 : demo_reached demo_rn2 demo_procs1.
Proof. split; [exact demo_b0_ok|apply builtin_blank|]. eapply rtc_l; [exact demo_step1|]. apply rtc_once, demo_step2. Qed.

(** ** Witnesses *)

Lemma demo_second_legal : step_legal 4 8 4 demo_Ws demo_T0 demo_second (states demo_rn2).
Proof.
  split.
  - apply (bool_decide_unpack _). by vm_compute.
  - apply (bool_decide_unpack _). by vm_compute.
  - intros r ->%list_elem_of_singleton [=]%list_elem_of_singleton.
  - intros r. cbn. split.
    + intros [-> | ->]%scheduled_two; [right|left]; left.
    + intros [->%list_elem_of_singleton| ->%list_elem_of_singleton]; by eexists.
  - intros r ->%list_elem_of_singleton. split; [by vm_compute; eexists|]. by intros [=]%list_elem_of_singleton.
  - intros c ->%list_elem_of_singleton. by eexists.
  - intros c ids ->%list_elem_of_singleton [= <-]. done.
  - intros d ->%list_elem_of_singleton. by eexists.
  - intros r [-> | ->]%scheduled_two; eexists _, _.
    + exists [4; 5]%Z. split; [vm_compute; reflexivity|]. split; [|vm_compute; lia]. apply (demo_row_ok _ _ _ _ [2; 3]%Z); [done..|vm_compute; lia|vm_compute; lia].
    + exists [6]%Z. split; [vm_compute; reflexivity|]. split; [|vm_compute; lia]. apply (demo_row_ok _ _ _ _ [1%Z]); [done..|vm_compute; lia|vm_compute; lia].
  - vm_compute. lia.
Qed.


Lemma worker_processors_current_witness : lp_view (N := 4) (outputs demo_rn2) demo_procs1 3 = lp_none (N := 4) (S := Builtin) ∧ ∃ x, lp_view (N := 4) (outputs demo_rn2) demo_procs1 1 = lp_fresh (N := 4) (S := Builtin) (outputs demo_rn2) x ∧ min_p x.1.1 = half.
Proof.
  pose proof (worker_processors_current 4 8 4 [4%Z] [4%Z] None 1 demo_groups demo_b0 demo_entry demo_procs demo_rn2 demo_procs1 demo_reached2) as H.
  assert (∃ x : Origin, (occupant (input_batch demo_rn2) 1 ≫= λ r, requests demo_rn2 !! r ≫= origin) = Some x ∧ min_p x.1.1 = half) as (x & Ex & Em) by (eexists; split; [vm_compute; reflexivity|reflexivity]).
  assert ((occupant (input_batch demo_rn2) 3 ≫= λ r, requests demo_rn2 !! r ≫= origin) = None) as En by (vm_compute; reflexivity).
  split; [pose proof (H 3) as H3; rewrite En in H3; exact H3|]. exists x. split; [pose proof (H 1) as H1; rewrite Ex in H1; exact H1|exact Em].
Defined.

Lemma worker_sampled_tokens_witness : ∃ rn' q, cache_sampled 8 demo_sampled demo_rn1 = Ok rn' ∧ requests demo_rn1 !! "B" = Some q ∧ outputs rn' !! output_token_ids q = Some [6%Z].
Proof.
  destruct (worker_sampled_tokens 4 8 4 [4%Z] [4%Z] None 1 demo_groups demo_b0 demo_entry demo_procs demo_rn1 demo_procs1 demo_sampled demo_reached1 demo_room) as (rn' & E & _ & _ & Ho & _).
  assert (∃ q, requests demo_rn1 !! "B" = Some q ∧ outputs demo_rn1 !! output_token_ids q = Some []) as (q & Hq & Hout) by (eexists; split; vm_compute; reflexivity).
  exists rn', q. split; [exact E|]. split; [exact Hq|]. rewrite (Ho "B" q Hq), Hout.
  assert (sampled_for (input_batch demo_rn1) demo_sampled "B" = Some [6%Z]) as -> by (vm_compute; reflexivity). reflexivity.
Defined.

Lemma demo_in_row : ∃ q, in_row demo_rn2 1 "B" q (demo_params half []).
Proof. eexists. split; vm_compute; reflexivity. Qed.
Lemma worker_metadata_exact_witness : ∃ md q, _make_sampling_metadata (input_batch demo_rn2) = Ok md ∧ metadata_for 4 demo_rn2 md 1 q (demo_params half []).
Proof.
  destruct (worker_metadata_exact 4 8 4 [4%Z] [4%Z] None 1 demo_groups demo_b0 demo_entry demo_procs demo_rn2 demo_procs1 demo_reached2) as (md & E & _ & _ & Hm).
  destruct demo_in_row as [q Hq]. exists md, q. split; [exact E|]. exact (Hm _ _ _ _ Hq).
Defined.

Lemma demo_sizes_ok : sizes_ok [4%Z] [4%Z] 1 demo_groups.
Proof. split; try (vm_compute; done); repeat constructor; try done; by exists 4%Z. Qed.
Lemma worker_slots_safe_witness : ∃ t slots slots', block_table (input_batch demo_rn2) !! 0 = Some t ∧ request_slots t 0 [0; 1; 2; 3]%Z = Ok slots ∧ request_slots t 1 [0; 1; 2]%Z = Ok slots' ∧
  slots = [4; 5; 6; 7]%Z ∧ slots' = [8; 9; 10]%Z.
Proof.
  assert (∃ t, block_table (input_batch demo_rn2) !! 0 = Some t ∧ span t = 4%Z) as (t & Ht & Hspan) by (eexists; split; vm_compute; reflexivity).
  assert (∃ q, requests demo_rn2 !! "A" = Some q ∧ block_ids q !! 0 = Some [1%Z]) as (q & Hq & Hids) by (eexists; split; vm_compute; reflexivity).
  assert (∃ q, requests demo_rn2 !! "B" = Some q ∧ block_ids q !! 0 = Some [2%Z]) as (q' & Hq' & Hids') by (eexists; split; vm_compute; reflexivity).
  destruct (worker_slots_safe 4 8 4 [4%Z] [4%Z] None 1 demo_groups demo_b0 demo_entry demo_procs demo_rn2 demo_procs1 0 t 0 1 "A" "B" q q' [1%Z] [2%Z] [0; 1; 2; 3]%Z [0; 1; 2]%Z demo_reached2 demo_sizes_ok Ht)
    as (slots & slots' & E & E' & _); [vm_compute; reflexivity|exact Hq|exact Hids|vm_compute; reflexivity|exact Hq'|exact Hids'| | |].
  - rewrite Hspan. intros p Hp. assert (Forall (λ p, (0 ≤ p < 4)%Z) [0; 1; 2; 3]%Z) as HF by (repeat constructor; lia). rewrite Forall_forall in HF. specialize (HF p Hp). cbn. lia.
  - rewrite Hspan. intros p Hp. assert (Forall (λ p, (0 ≤ p < 4)%Z) [0; 1; 2]%Z) as HF by (repeat constructor; lia). rewrite Forall_forall in HF. specialize (HF p Hp). cbn. lia.
  - exists t, slots, slots'. split; [exact Ht|]. split; [exact E|]. split; [exact E'|]. vm_compute in Ht. injection Ht as <-. vm_compute in E, E'. injection E as <-. injection E' as <-. split; reflexivity.
Defined.

(** ** Findings *)

Definition demo_state (id : string) (out : nat) (allowed : list nat) (budget : option Z) : CachedRequestState :=
  mkCached id (Some [1%Z]) None None (Some (mkSamplerParams 1%Qc None 1%Qc 0 0%Qc 0%Qc 0%Qc 1%Qc None None None allowed [] ∅ 0 ∅ budget)) None None [[Z.of_nat out]] 0 out None.

(** A batch together with the states of thinking budgets. *)
Definition batch_op : Type := InputBatch * gmap nat Z → result (InputBatch * gmap nat Z).
Definition op_batch (f : InputBatch → result InputBatch) : batch_op := λ x, b ← f x.1; Ok (b, x.2).
Definition op_add (q : CachedRequestState) : batch_op := op_batch (λ b, x ← add_request ∅ q b; Ok x.2).
Definition op_refresh : batch_op := λ x, y ← refresh_metadata demo_entry ∅ x.1 demo_procs (Some x.2) demo_md; Ok (y.1.1.1, default ∅ y.1.2).
Definition demo_ops (ops : list batch_op) : result (InputBatch * gmap nat Z) := foldM (λ x f, f x) (demo_b0, ∅) ops.
Definition mask_row (i : nat) (b : InputBatch) : option (list bool) := allowed_token_ids_mask_cpu_tensor b ≫= (.!! i).

(** Request B may use token 1 only, request A all tokens. *)
Definition masked_two : list batch_op := [op_add (demo_state "A" 1 [] None); op_add (demo_state "B" 2 [1] None); op_refresh].

(** Swapping two rows of the mask assigns through views: the second assignment reads the row
    that the first has overwritten, and the mask of B then applies to A as well. *)
Lemma swapped_mask_rows_equal : ∃ x y, demo_ops masked_two = Ok x ∧ mask_row 0 x.1 = Some (replicate 4 false) ∧ mask_row 1 x.1 = Some [true; false; true; true] ∧
  demo_ops (masked_two ++ [op_batch (swap_states 0 1)]) = Ok y ∧ _req_ids y.1 = [Some "B"; Some "A"] ∧ mask_row 0 y.1 = Some [true; false; true; true] ∧ mask_row 1 y.1 = Some [true; false; true; true].
Proof. eexists _, _. split; [vm_compute; reflexivity|]. do 2 (split; [reflexivity|]). split; [vm_compute; reflexivity|]. done. Qed.

(** [condense] copies the mask of the last row down and leaves the row as it is;
    [add_request] does not clear the row of a request without allowed tokens.  After A has
    left, the new request C inherits the mask of B. *)
Lemma stale_mask_row : ∃ x, demo_ops (masked_two ++ [op_batch (λ b, drop_request b "A"); op_batch condense; op_refresh; op_add (demo_state "C" 3 [] None); op_batch condense; op_refresh]) = Ok x ∧
  _req_ids x.1 = [Some "B"; Some "C"] ∧ no_allowed_token_ids x.1 = false ∧ mask_row 1 x.1 = Some [true; false; true; true].
Proof. eexists. split; [vm_compute; reflexivity|]. done. Qed.

(** Request A has a thinking budget, request B has none. *)
Definition budget_two : list batch_op := [op_add (demo_state "A" 1 [] (Some 7%Z)); op_add (demo_state "B" 2 [] None); op_refresh].

(** When the rows are swapped, the state of A stays at its old row, where B is now. *)
Lemma swapped_budget_kept : ∃ x, demo_ops (budget_two ++ [op_batch (swap_states 0 1); op_refresh]) = Ok x ∧ _req_ids x.1 = [Some "B"; Some "A"] ∧ x.2 !! 0 = Some 7%Z ∧ x.2 !! 1 = Some 7%Z.
Proof. eexists. split; [vm_compute; reflexivity|]. done. Qed.

(** When A leaves and B moves into its row, the row is not reported as removed and B has no
    state to overwrite the one of A. *)
Lemma moved_budget_kept : ∃ x, demo_ops (budget_two ++ [op_batch (λ b, drop_request b "A"); op_batch condense; op_refresh]) = Ok x ∧ _req_ids x.1 = [Some "B"] ∧ x.2 !! 0 = Some 7%Z.
Proof. eexists. split; [vm_compute; reflexivity|]. done. Qed.
